(* ===== verification/_CoqProject ===== *)
-Q . S2P
Prelude.v
Bytes.v
Text.v
UnixPath.v
IO.v
Secrets.v
Anyhow.v
TextFacts.v
World.v
Model.v
Paths.v
RagPolicy.v
Reference.v
Grounding.v
DocumentFacts.v
Compliance.v
EditPlan.v
EditIntent.v
ChatProtocol.v
ChatValidation.v
EditRuntime.v
ProposalStore.v
EditGeneration.v
ProcessRunner.v
GitState.v
ChatReferences.v
DisposableWorktree.v
GitStateFacts.v
Transaction.v
TransactionFs.v
TransactionRun.v
TransactionFacts.v
AuditLog.v
Approval.v
Rules.v
Worktree.v
Actions.v
Engine.v
ChatRuntime.v
PolicyAdapter.v
EditTransaction.v
EditDiff.v
OfflineBuild.v
EditVerification.v
EditApply.v
ChatEdit.v
ActionFacts.v
Observers.v
ReferenceFacts.v
GroundingFacts.v
DocumentProofs.v
EditPlanFacts.v
EditIntentFacts.v
Trace.v
AuditFacts.v
WorldFacts.v
ProcessFacts.v
Publication.v
ProposalFacts.v
ApprovalFacts.v
TransactionWorld.v
RunStore.v
Recovery.v
CrashRecovery.v
Execution.v
Preparation.v
Atomicity.v
Demo.v
EditDemo.v
ChatFacts.v
TransactionExamples.v
Confinement.v
Consumers.v
Lifecycle.v
EngineFacts.v
EngineProperties.v
WorktreeFacts.v
EditFlowFacts.v
ChatEditFacts.v
VerificationFacts.v
