(* ===== verification/Prelude.v ===== *)
(** * OpticCode: verification development

    OpticCode is a coding assistant for an editor.  Whether it can be trusted
    with a workspace is decided by five of its parts, which this development
    models as they run on Unix:
    - the policy crate [src/crates/opticcode-policy], to which every read,
      write, patch, process and Git operation is first submitted;
    - the apply transactions of [src/crates/opticcode-tools], which change
      files of the user's workspace and undo the change after a failure or a
      crash, with the process runner and the disposable worktrees;
    - the RAG filters of the same crate, which decide what may be read;
    - the edits crate [src/crates/opticcode-edit], from a model's edit plan
      over its validation, storage and verification to its application;
    - the chat runtime of [src/crates/opticcode-core], which prepares the
      context of an answer, checks what the model says against it, and tells
      the editor about it in numbered events.

    ** The policy crate

    - [src/model.rs] (and the constants of [src/lib.rs]): Model.v.
    - [src/paths.rs]: Paths.v.  [inspect_root] and [inspect_path] turn an
      untrusted path into a report: a real root, a relative target of normal
      components, no sensitive name, no nested repository, no link on the
      way, and a fingerprint of the content.
    - [src/audit.rs]: AuditLog.v.  Storage identifiers, [atomic_create], the
      per-workspace event directories, [record], rotation and listing.
    - [src/approval.rs]: Approval.v.  The binding of a grant, its comparison,
      [issue_at] and the one-shot [consume_at].
    - [src/engine.rs]: four files.  Rules.v: the outcomes a rule can return
      and the pure validators; Worktree.v: leases, Git boundaries, scopes and
      installed executables; Actions.v: [evaluate_action] and one handler per
      action; Engine.v: [evaluate], [explain], [check], [issue_approval],
      [approval_binding] and the revalidation.

    [check] evaluates the request (Actions.v, through Worktree.v and
    Paths.v), consumes the grant the request names when the rules ask for one
    (Approval.v), applies the outcome to the report and records it
    (AuditLog.v).  [issue_approval] evaluates the same request and publishes a
    grant for the binding [check] will compare.  Immediately before it acts,
    the caller revalidates: a second evaluation must reach the same rule and
    the same fingerprints.

    ** The tools crate

    - [src/git_state.rs]: GitState.v.  The parser of [git status --porcelain
      -z], snapshots of a worktree with content fingerprints, the comparison
      of two snapshots, and the strict guard a build is judged by.
    - [src/process_runner.rs]: ProcessRunner.v.  A child process with a time
      limit, a cancellation token and bounded captures.
    - [src/apply_transaction.rs]: three files.  Transaction.v: requests,
      manifests, events and results, and their rules; TransactionFs.v: reads
      of targets, staged writes, the workspace lock and the run directories;
      TransactionRun.v: the journal, preparation, execution with its fault
      points, inspection, listing, rollback, recovery and the apply log.
    - [src/worktree.rs]: DisposableWorktree.v.  The storage of worktrees and
      leases, the run of an operation in a detached worktree between two
      observations of the source, and the cleanup of what a crash left.
    - [src/rag]: Secrets.v ([secrets.rs]), RagPolicy.v ([policy.rs]) and
      Reference.v ([reference.rs]): secrets, admission of files, safe reads.

    A transaction takes the lock, asks Git, writes a run directory (the
    patch, a backup of every target, the manifest) and journals [prepared];
    it then replaces the targets one by one, verifies them, asks Git again
    and journals [committed].  A failure on the way rolls it back from the
    backups.  After a crash another process inspects the run directory and
    rolls it back in the same way.

    ** The edits crate

    - [src/schema.rs], [src/validation.rs]: EditPlan.v; [src/intent.rs]:
      EditIntent.v.  Plans, the intents that authorise them, and their
      validation against the files.
    - [src/runtime.rs], [src/store.rs]: EditRuntime.v, ProposalStore.v.  The
      stored proposal, its life cycle and its generations.
    - [src/generation.rs]: EditGeneration.v.  What the model is given: the
      trusted files with their anchors, the prompts, and the JSON schema that
      an intent allows its answer.
    - [src/policy_adapter.rs]: PolicyAdapter.v; [src/transaction.rs]:
      EditTransaction.v; [src/diff.rs]: EditDiff.v; [src/build.rs]:
      OfflineBuild.v; [src/verification.rs]: EditVerification.v;
      [src/apply.rs] and [src/rollback.rs]: EditApply.v.

    A validated plan is stored; its verification applies it in a disposable
    worktree, parses, compares and builds it there; its application to the
    original is one apply transaction under a one-shot approval, checked and
    if need be rolled back.  Every step is submitted to the policy engine.

    ** The core crate

    - [src/grounding.rs]: Grounding.v (manifests, fingerprints, scopes, the
      evidence check), DocumentFacts.v (answers about structured documents
      without a model), Compliance.v (the grounded prompt and what an answer
      may say).
    - [src/chat_protocol.rs]: ChatProtocol.v, the requests, the events and the
      emitter; [src/chat_runtime.rs]: ChatValidation.v (the refusals),
      ChatReferences.v (attachments, positions, history), ChatRuntime.v (one
      request from its acceptance to its terminal event).
    - [src/chat_edit_runtime.rs]: ChatEdit.v.  The commands that fix, verify,
      show, apply and roll back.  A fix observes the workspace, makes an
      intent of the attached files, asks the model for a plan with at most
      one correction of its format, stores and verifies it; an application
      and a rollback wait for a native confirmation of the editor that names
      the digest of exactly that operation ([approval_request_id]).

    A request is validated, submitted to the policy engine, its references
    read through Reference.v within budgets, its prompt built; then its
    command runs; the events it sends, and the report, end with one of
    [Completed], [Failed] and [Cancelled].

    ** Effects

    An operation is an [IO] program (IO.v): a tree of the standard-library
    calls the code makes, in its order, whose leaves are results or panics;
    an error is a value of [result], and slicing a string out of bounds is
    [Panic].  The state of the crates is the file system and its locks, which
    these calls read and write; other shared state is passed: the captured
    variables of the closures of a worktree run (the state monad of
    Anyhow.v), the journal of a transaction ([phase]), the emitter of a chat
    ([chat]).  Programs are read in five ways:
    - [must] (IO.v): for every possible answer of every call, hence for any
      file system, any fault and any interference; its class parameter
      [Answers] lets a conclusion mention what was answered, and restricts
      the answers to those of one world in [in_world];
    - [trace_must], [runs] and [calls] (Trace.v): the same, about the calls
      made and their order; [in_trace] says that an answer was given in a
      part of the calls, and [made_of] that the calls are those of a sequence
      of given parts;
    - [run] and [always] (World.v): on a concrete world, a POSIX-like tree
      with symbolic links and file modes, clocks, a random source, locks, an
      environment, the commands and the processes that can be run;
    - [wp] and [reads] (WorldFacts.v): the weakest precondition on a world,
      with an invariant of the worlds in between, and the programs that only
      read;
    - [pool_step] (World.v): several threads interleaved, one call at a time.

    Prelude.v, Bytes.v, Text.v, TextFacts.v and UnixPath.v model the parts of
    Rust's standard library the crates use on strings, collections and
    [std::path].  A string is its bytes; an integer of width 32 or 64 is an
    [N], with its saturation or wrap-around written out, and its bound where
    the code relies on one.

    Third-party code is a parameter: the Git program and the other processes
    (functions of the world), [Blake3] (with the law [Blake3Hex] where a
    theorem needs it), the [regex] crate ([Regex], [RegexBoundary]), the JSON
    encoders and decoders (the classes named [..Serde], [StateJson]), the
    document parsers ([Yaml], [Json], [XmlParser]), Unicode's tables
    ([Unicode], [UnicodeAscii]), floating-point numbers ([Floats]), the debug
    format ([StringDebug], [SecondsDisplay]) and the channel of the chat
    events ([Delivery]).  So is the code that is not modelled: the syntax
    check of Java files ([JavaSyntax]), the Java tools of the chat
    ([ChatTools]), the walk of a directory ([WalkDir]), the layout of JSON
    texts ([JsonPretty], [ReferencesJson]), the text of a panic
    ([JoinErrors]) and the assistant ([AssistantRuns]).  Demo.v, EditDemo.v,
    TransactionExamples.v, ChatFacts.v and ChatEditFacts.v instantiate them
    with concrete functions and execute the models on small worlds.

    ** Bounds and fuel

    Path resolution expands at most [max_links] = 40 symbolic links, the
    limit of Linux, and answers the error of a link loop beyond.
    [create_dir_all] recurses at most once per byte of the path.  The
    porcelain parser has a unit of fuel per byte, and every entry takes at
    least one ([parse_loop_terminates]); the scanner of JSON documents and
    the chunks of a shown text likewise have one per byte, and each round
    consumes one ([text_arrives] proves that the text never runs out of
    fuel).  The store's lock is tried every 10 ms for five seconds,
    [lock_rounds] = 501 times
    ([lock_wait_terminates]); a child process is polled every 20 ms,
    [poll_rounds] of its time limit and two more ([run_process_ends]).
    Identifiers of runs are tried a hundred times, as in the code.  Every
    other loop is a structural recursion on the list it iterates.  The
    journal theorems hold for up to [max_events] = 10^8 events and targets,
    beyond which file names with eight digits would grow.

    ** Theorems

    - ActionFacts.v, Observers.v: an action that is not denied has its
      grounds, the reports are safe, and an evaluation only observes.
    - EngineFacts.v, EngineProperties.v: the pure validators, the decisions
      of [evaluate] and [check], read-only mode, patches and processes, audit of every
      decision, issue of grants, revalidation, absence of panics (and the one
      of [PolicyEngine::approval_binding]).
    - ApprovalFacts.v: exactness of the binding and of a consumption.
      Consumers.v: any number of consumers interleaved call by call, at most
      one wins each approval; and the Git boundary of a request.
      Lifecycle.v: a grant is issued, consumed once, and refused ever after.
    - AuditFacts.v, WorldFacts.v, Publication.v: identifiers, rotation,
      listing, path resolution, and the atomicity of a publication at every
      moment of its run.  Confinement.v: an inspected path is the entry it
      names below its root, reached without a link.
    - GitStateFacts.v: the porcelain parser is the inverse of printing; what
      a strict pass means.  ProcessFacts.v: captures keep the tail, runs end
      in time, the wait for their output included, a success is one.
    - TransactionFacts.v, TransactionWorld.v, RunStore.v, Recovery.v,
      CrashRecovery.v, Preparation.v, Execution.v, Atomicity.v:
      from any workspace that meets [start], a transaction is applied to
      every target or to none, wherever it fails or dies; it commits when
      nothing hinders it; undoing it is the identity; a held lock lets no other
      application, rollback or recovery change anything.
    - ReferenceFacts.v: what a safe read guarantees.  EditPlanFacts.v,
      EditIntentFacts.v: a validated plan splices the base text, within its
      bounds and its intent.  ProposalFacts.v: the life cycle as a relation,
      and what the store returns and publishes.
    - WorktreeFacts.v: what a cleanup may touch; how the worktree of a run
      was created, and what its report says of the cleanup and the source.
      VerificationFacts.v, EditFlowFacts.v: what a verified, applied or rolled
      back proposal has gone through, in which order, and that a verification
      moves a proposal to the verified state after all of it and nowhere
      else.
    - GroundingFacts.v: the evidence check accepts exactly the sound answers;
      a fingerprint determines what the manifest shows.  DocumentProofs.v:
      the answers about documents cite real lines; compliant answers.
    - ChatFacts.v: text only after its validation, and in full; history and
      references within their budgets and their scope.  ChatEditFacts.v: a
      request ends with one terminal event; nothing is applied or rolled back
      without the native confirmation of exactly that operation; a plan
      modifies attached files only; the schema offers the targets of the
      intent; and the inventory of available files is always empty, a flaw
      of [available_edit_files].

    Hypotheses on third-party code are classes with an instance in a demo or
    beside the class.  Hypotheses on Git say that its answers depend on the
    files only ([git_stable]) or that it accepts the transaction
    ([git_willing]).  In a plan the contents before and after a change have
    different fingerprints ([po_distinct]): this is how the code tells them
    apart.

    ** Not modelled

    The Windows branches (reparse points, the case-insensitive comparison of
    roots, path prefixes): the model is the Unix build.  Durability after
    power loss: [sync_all] is a call that appears in traces, and has no
    effect on a world; a crash is the death of the process.  Permissions and
    full disks: they are among the answers [must] quantifies over, but no
    world produces them.  Texts for display.  The verification pipeline of
    [worktree.rs] and [java_edit_worktree.rs]; the index of the RAG corpus, which ranks with floating
    point.  The Java analyses are built on the tree-sitter parser, the LLM
    client on HTTP.  The assistant, the evaluation harness and the command-line
    interface orchestrate the parts above and print.  The VS Code extension is written in TypeScript. *)

From stdpp Require Import base list strings gmap pretty.
From Stdlib Require Import NArith Sorted Lia.

(** ** Results

    Rust's [Result<A, E>].  The type arguments are in Rust's order. *)

Inductive result (A E : Type) : Type :=
| Ok (a : A)
| Err (e : E).
Arguments Ok {A E} a.
Arguments Err {A E} e.

#[export] Instance result_eq_dec `{EqDecision A, EqDecision E} : EqDecision (result A E).
Proof. solve_decision. Defined.

(** [Result::is_ok], [Result::ok] and [Result::map_err]. *)
Definition is_ok {A E} (r : result A E) : bool :=
  match r with Ok _ => true | Err _ => false end.

Definition ok {A E} (r : result A E) : option A :=
  match r with Ok a => Some a | Err _ => None end.

Definition map_err {A E F} (f : E -> F) (r : result A E) : result A F :=
  match r with Ok a => Ok a | Err e => Err (f e) end.

Definition map_ok {A B E} (f : A -> B) (r : result A E) : result B E :=
  match r with Ok a => Ok (f a) | Err e => Err e end.

(** [?] on a pure result. *)
Definition rbind {A B E} (r : result A E) (k : A -> result B E) : result B E :=
  match r with Ok a => k a | Err e => Err e end.

Declare Scope result_scope.
Delimit Scope result_scope with result.
Notation "x <- r ;? k" := (rbind r (fun x => k))
  (at level 100, r at next level, right associativity) : result_scope.
Notation "r ;? k" := (rbind r (fun _ => k))
  (at level 100, right associativity) : result_scope.
Notation "'let?' p := r 'in' k" := (rbind r (fun x => match x with p => k end))
  (at level 10, p pattern, r at level 100, k at level 200) : result_scope.
Open Scope result_scope.

(** [bail!] guards: [ensure b e] fails with [e] when [b] is false. *)
Definition ensure {E} (b : bool) (e : E) : result unit E :=
  if b then Ok tt else Err e.

Definition is_some {A} (o : option A) : bool :=
  match o with Some _ => true | None => false end.

(** [Option::is_some_and] *)
Definition is_some_and {A} (f : A -> bool) (o : option A) : bool :=
  match o with Some a => f a | None => false end.

(** [Option::ok_or] *)
Definition ok_or {A E} (e : E) (o : option A) : result A E :=
  match o with Some a => Ok a | None => Err e end.

(** ** Machine integers

    Rust's [u32], [u64], [usize] (64-bit) and [u128] are [N] values below
    their bound; the saturating and wrapping operations are written out. *)

Definition u32_max : N := 4294967295.
Definition u64_max : N := 18446744073709551615.

Definition saturating_add64 (a b : N) : N := N.min u64_max (a + b).
Definition saturating_mul64 (a b : N) : N := N.min u64_max (a * b).
(** [N.sub] truncates at zero exactly as [saturating_sub] does. *)
Definition saturating_sub64 (a b : N) : N := (a - b)%N.
(** [u64::try_from(v).unwrap_or(u64::MAX)] *)
Definition to_u64_or_max (v : N) : N := N.min u64_max v.

(** ** Sorting

    [sort_by] is Rust's stable sort; insertion keeps equal elements in
    their input order. *)
Section Sort.
Context {A : Type} (cmp : A -> A -> comparison).

Fixpoint sort_insert (x : A) (l : list A) : list A :=
  match l with
  | [] => [x]
  | y :: l' => match cmp x y with
               | Gt => y :: sort_insert x l'
               | _ => x :: l
               end
  end.

Definition sort_by (l : list A) : list A := foldr sort_insert [] l.
End Sort.

(** [Ordering::then_with] *)
Definition then_with (c d : comparison) : comparison :=
  match c with Eq => d | _ => c end.

(** [slice.windows(2).any(f)] *)
Fixpoint windows2_any {A} (f : A -> A -> bool) (l : list A) : bool :=
  match l with
  | x :: ((y :: _) as l') => f x y || windows2_any f l'
  | _ => false
  end.

(** ** Lemmas shared by the components *)

Lemma rbind_ok {A B E} (r : result A E) (k : A -> result B E) b :
  rbind r k = Ok b <-> exists a, r = Ok a /\ k a = Ok b.
Proof. destruct r; simpl; split; [eauto|intros (?&[= <-]&?); done|done|by intros (?&?&?)]. Qed.

Lemma ensure_ok {E} b (e : E) u : ensure b e = Ok u <-> b = true.
Proof. unfold ensure. destruct b, u; naive_solver. Qed.

Lemma map_err_ok {A E F} (f : E -> F) (r : result A E) a :
  map_err f r = Ok a <-> r = Ok a.
Proof. destruct r; naive_solver. Qed.

Lemma sort_insert_perm {A} (cmp : A -> A -> comparison) x l :
  sort_insert cmp x l ≡ₚ x :: l.
Proof.
  induction l as [|y l IH]; simpl; [done|].
  destruct (cmp x y); try done. rewrite IH. constructor.
Qed.

Lemma sort_by_perm {A} (cmp : A -> A -> comparison) l : sort_by cmp l ≡ₚ l.
Proof.
  induction l as [|x l IH]; simpl; [done|].
  by rewrite sort_insert_perm, IH.
Qed.

Lemma length_sort_by {A} (cmp : A -> A -> comparison) l :
  length (sort_by cmp l) = length l.
Proof. by rewrite sort_by_perm. Qed.

(** A comparison is a total preorder when [Gt] is antisymmetric and [<=] is
    transitive. *)
Class TotalCmp {A} (cmp : A -> A -> comparison) : Prop := {
  cmp_gt_flip : forall x y, cmp x y = Gt -> cmp y x <> Gt;
  cmp_le_trans : forall x y z, cmp x y <> Gt -> cmp y z <> Gt -> cmp x z <> Gt;
}.

Definition cmp_le {A} (cmp : A -> A -> comparison) (x y : A) : Prop := cmp x y <> Gt.

Lemma sort_insert_sorted {A} (cmp : A -> A -> comparison) `{!TotalCmp cmp} x l :
  StronglySorted (cmp_le cmp) l -> StronglySorted (cmp_le cmp) (sort_insert cmp x l).
Proof.
  induction 1 as [|y l Hs IH Hy]; simpl.
  { repeat constructor. }
  destruct (cmp x y) eqn:E.
  3:{ constructor; [done|]. rewrite sort_insert_perm. constructor; [|done].
      by apply cmp_gt_flip. }
  all: constructor; [by constructor|].
  all: assert (cmp_le cmp x y) by (unfold cmp_le; by rewrite E).
  all: constructor; [done|].
  all: eapply Forall_impl; [exact Hy|]; intros z Hz; unfold cmp_le in *.
  all: by eapply cmp_le_trans.
Qed.

Lemma sort_by_sorted {A} (cmp : A -> A -> comparison) `{!TotalCmp cmp} l :
  StronglySorted (cmp_le cmp) (sort_by cmp l).
Proof.
  induction l as [|x l IH]; simpl; [constructor|].
  by apply sort_insert_sorted.
Qed.

(** The sorted form of a list is the strictly sorted list with its elements. *)
Lemma sort_by_unique {A} (cmp : A -> A -> comparison) `{!TotalCmp cmp} l k :
  (forall x y, cmp x y = Lt -> cmp y x = Gt) ->
  StronglySorted (fun x y => cmp x y = Lt) k -> l ≡ₚ k -> sort_by cmp l = k.
Proof.
  intros Hflip Hk Hp. rewrite <- (sort_by_perm cmp l) in Hp.
  pose proof (sort_by_sorted cmp l) as Hs. revert Hs Hp. generalize (sort_by cmp l) as s. clear l.
  induction Hk as [|x k Hk IH Hx]; intros s Hs Hp; [by apply Permutation_nil_r in Hp|].
  destruct s as [|y s]; [by apply Permutation_nil_l in Hp|]. inversion Hs as [|?? Hs' Hy]; subst.
  assert (y = x) as ->.
  { assert (y ∈ x :: k) as [->|Hin]%elem_of_cons by (rewrite <- Hp; left); [done|].
    assert (x ∈ y :: s) as [->|Hin']%elem_of_cons by (rewrite Hp; left); [done|].
    rewrite Forall_forall in Hx, Hy. destruct (Hy x Hin'). by apply Hflip, Hx. }
  f_equal. apply IH; [done|]. by eapply Permutation_cons_inv.
Qed.

(** A comparison that is a linear order: antisymmetric, deciding equality,
    transitive. *)
Class LinearCmp {A} (cmp : A -> A -> comparison) : Prop := {
  cmp_opp : forall x y, cmp y x = CompOpp (cmp x y);
  cmp_eq : forall x y, cmp x y = Eq -> x = y;
  cmp_lt_trans : forall x y z, cmp x y = Lt -> cmp y z = Lt -> cmp x z = Lt;
}.

Lemma cmp_refl {A} (cmp : A -> A -> comparison) `{!LinearCmp cmp} x : cmp x x = Eq.
Proof. pose proof (cmp_opp x x) as E. by destruct (cmp x x). Qed.

#[export] Instance N_compare_linear : LinearCmp N.compare.
Proof.
  split.
  - intros x y. apply N.compare_antisym.
  - intros x y. apply N.compare_eq.
  - intros x y z. rewrite !N.compare_lt_iff. apply N.lt_trans.
Qed.

(** Comparing images under a function is a total preorder. *)
#[export] Instance linear_total {A B} (f : A -> B) (cmp : B -> B -> comparison) `{!LinearCmp cmp} :
  TotalCmp (fun x y => cmp (f x) (f y)).
Proof.
  split.
  - intros x y E F. rewrite (cmp_opp (f x) (f y)), E in F. done.
  - intros x y z. destruct (cmp (f x) (f y)) eqn:E, (cmp (f y) (f z)) eqn:F; try done; intros _ _.
    + apply cmp_eq in E. rewrite E. by rewrite F.
    + apply cmp_eq in E. rewrite E. by rewrite F.
    + apply cmp_eq in F. rewrite <- F. by rewrite E.
    + by rewrite (cmp_lt_trans _ _ _ E F).
Qed.

(** Lexicographic composition. *)
#[export] Instance linear_pair {A B} (c : A -> A -> comparison) (d : B -> B -> comparison)
    `{!LinearCmp c, !LinearCmp d} :
  LinearCmp (fun x y : A * B => then_with (c x.1 y.1) (d x.2 y.2)).
Proof.
  split.
  - intros [a b] [a' b']; simpl. rewrite (cmp_opp (cmp:=c) a a'), (cmp_opp (cmp:=d) b b').
    by destruct (c a a').
  - intros [a b] [a' b']; simpl. destruct (c a a') eqn:E; try done. simpl. intros F.
    apply cmp_eq in E, F. by subst.
  - intros [a b] [a' b'] [a'' b'']; simpl.
    destruct (c a a') eqn:E, (c a' a'') eqn:F; simpl; try done; intros G K.
    + apply cmp_eq in E, F. subst. rewrite cmp_refl by done. simpl. by eapply cmp_lt_trans.
    + apply cmp_eq in E. subst. by rewrite F.
    + apply cmp_eq in F. subst. by rewrite E.
    + by rewrite (cmp_lt_trans _ _ _ E F).
Qed.

(** [windows2_any] with the negation of a transitive order finds no
    offending pair exactly when the whole list is sorted. *)
Lemma windows2_sorted {A} (f : A -> A -> bool) (R : A -> A -> Prop) `{!Transitive R} l :
  (forall x y, f x y = false <-> R x y) ->
  windows2_any f l = false <-> StronglySorted R l.
Proof.
  intros Hf. induction l as [|x l IH]; [by split; [constructor|]|].
  destruct l as [|y l]; [split; [by repeat constructor|done]|].
  simpl windows2_any. rewrite orb_false_iff, Hf, IH. split.
  - intros [Hxy Hs]. constructor; [done|]. inversion Hs as [|?? Hs' Hy]; subst.
    constructor; [done|]. eapply Forall_impl; [exact Hy|]. intros z Hz; by etransitivity.
  - inversion 1 as [|?? Hs' Hx]; subst. inversion Hx; subst. done.
Qed.

Lemma StronglySorted_NoDup {A} (R : A -> A -> Prop) `{!Irreflexive R} l :
  StronglySorted R l -> NoDup l.
Proof.
  induction 1 as [|x l Hs IH Hx]; constructor; [|done].
  intros Hin. rewrite Forall_forall in Hx. exact (irreflexivity R x (Hx x Hin)).
Qed.

(** ** Automation *)

Create HintDb opt.
Create Rewrite HintDb opt_ok.
#[export] Hint Resolve sort_by_perm sort_by_sorted : opt.
#[export] Hint Rewrite @rbind_ok @ensure_ok @map_err_ok : opt_ok.

(** Splits boolean conjunctions and disjunctions in the hypotheses. *)
Ltac split_bools :=
  repeat match goal with
  | H : _ && _ = true |- _ => apply andb_true_iff in H as [? ?]
  | H : _ || _ = false |- _ => apply orb_false_iff in H as [? ?]
  | H : negb _ = true |- _ => apply negb_true_iff in H
  | H : negb _ = false |- _ => apply negb_false_iff in H
  | H : bool_decide _ = true |- _ => apply bool_decide_eq_true in H
  | H : bool_decide _ = false |- _ => apply bool_decide_eq_false in H
  end.

(** Case analysis on every [if] and [match] of the goal, closing the
    impossible branches. *)
Ltac cases :=
  repeat (case_match; simplify_eq/=; try done).
