(* ===== verification/Bytes.v ===== *)
(** * Strings as the program sees them

    A Rust [String] or [OsString] (on Unix) is a sequence of bytes; it is a
    [string] here, one [ascii] per byte.  This file holds the functions of
    Rust's standard library the policy crate calls on strings: ASCII
    classes, searches, UTF-8 decoding where the code depends on characters
    ([trim], [split_whitespace], [to_str], [to_string_lossy], char
    boundaries), decimal and hexadecimal formatting, and byte-wise
    ordering. *)

From stdpp Require Import base list strings pretty.
From Stdlib Require Import NArith Ascii String OrdersEx Sorted Lia.
From S2P Require Import Prelude.

Local Open Scope string_scope.
Local Open Scope N_scope.

(** Byte equality of strings. *)
Notation "a =?s b" := (String.eqb a b) (at level 70) : bool_scope.
Open Scope bool_scope.

(** ** Bytes *)

Definition byte_n (c : ascii) : N := N_of_ascii c.
Definition byte (n : N) : ascii := ascii_of_N n.

Definition in_range (lo hi : N) (c : ascii) : bool :=
  (lo <=? byte_n c) && (byte_n c <=? hi).

Definition is_ascii_digit (c : ascii) : bool := in_range 48 57 c.
Definition is_ascii_uppercase (c : ascii) : bool := in_range 65 90 c.
Definition is_ascii_lowercase (c : ascii) : bool := in_range 97 122 c.
Definition is_ascii_alphanumeric (c : ascii) : bool :=
  is_ascii_digit c || is_ascii_uppercase c || is_ascii_lowercase c.
Definition is_ascii_hexdigit (c : ascii) : bool :=
  is_ascii_digit c || in_range 65 70 c || in_range 97 102 c.

(** [matches!(byte, b'-' | b'_')] and friends. *)
Definition one_of (cs : string) (c : ascii) : bool :=
  existsb (Ascii.eqb c) (list_ascii_of_string cs).

Definition to_ascii_lower_byte (c : ascii) : ascii :=
  if is_ascii_uppercase c then byte (byte_n c + 32) else c.

(** ** Whole strings *)

(** [str::len], in bytes. *)
Definition strlen (s : string) : N := N.of_nat (String.length s).

Definition is_empty (s : string) : bool := (s =? "")%string.

(** [s.bytes().all(f)] and [s.bytes().any(f)] *)
Fixpoint all_bytes (f : ascii -> bool) (s : string) : bool :=
  match s with
  | EmptyString => true
  | String c s' => f c && all_bytes f s'
  end.

Fixpoint any_byte (f : ascii -> bool) (s : string) : bool :=
  match s with
  | EmptyString => false
  | String c s' => f c || any_byte f s'
  end.

Fixpoint map_bytes (f : ascii -> ascii) (s : string) : string :=
  match s with
  | EmptyString => EmptyString
  | String c s' => String (f c) (map_bytes f s')
  end.

Definition to_ascii_lowercase (s : string) : string := map_bytes to_ascii_lower_byte s.

(** [s.replace('\\', "/")] *)
Definition backslash : ascii := byte 92.
Definition slash : ascii := byte 47.
Definition replace_backslash (s : string) : string :=
  map_bytes (fun c => if Ascii.eqb c backslash then slash else c) s.

(** [s.contains(['\r', '\n', '\0'])] *)
Definition has_control (s : string) : bool :=
  any_byte (fun c => (byte_n c =? 13) || (byte_n c =? 10) || (byte_n c =? 0)) s.

Definition starts_with (p s : string) : bool := String.prefix p s.

(** [s.contains(needle)] for a string needle. *)
Fixpoint str_contains (needle s : string) : bool :=
  starts_with needle s ||
  match s with
  | EmptyString => false
  | String _ s' => str_contains needle s'
  end.

Fixpoint drop_bytes (n : nat) (s : string) : string :=
  match n, s with
  | O, _ => s
  | S n', String _ s' => drop_bytes n' s'
  | S _, EmptyString => EmptyString
  end.

Fixpoint take_bytes (n : nat) (s : string) : string :=
  match n, s with
  | S n', String c s' => String c (take_bytes n' s')
  | _, _ => EmptyString
  end.

Definition ends_with (suffix s : string) : bool :=
  (String.length suffix <=? String.length s)%nat &&
  (drop_bytes (String.length s - String.length suffix) s =? suffix)%string.

(** [s.strip_prefix(p)] *)
Definition str_strip_prefix (p s : string) : option string :=
  if starts_with p s then Some (drop_bytes (String.length p) s) else None.

(** [s.rsplit_once('.')] as (stem, extension). *)
Fixpoint rsplit_once (c : ascii) (s : string) : option (string * string) :=
  match s with
  | EmptyString => None
  | String d s' =>
      match rsplit_once c s' with
      | Some (a, b) => Some (String d a, b)
      | None => if Ascii.eqb c d then Some ("", s') else None
      end
  end.

(** Splitting at every occurrence of a byte; [split c ""] is [[""]]. *)
Fixpoint split_on (c : ascii) (s : string) : list string :=
  match s with
  | EmptyString => [""]
  | String d s' =>
      if Ascii.eqb c d then "" :: split_on c s'
      else match split_on c s' with
           | x :: l => String d x :: l
           | [] => [String d ""]
           end
  end.

Fixpoint join_with (sep : string) (l : list string) : string :=
  match l with
  | [] => ""
  | [x] => x
  | x :: l' => x ++ sep ++ join_with sep l'
  end.

(** ** UTF-8

    [utf8_step s] is the length of the first character of [s] and whether
    it is well formed; for an ill-formed prefix the length is that of the
    maximal subpart, as [Utf8Chunks] computes it. *)

Definition is_cont (c : ascii) : bool := in_range 128 191 c.

(** The admissible second bytes after a lead byte, and the number of
    further continuation bytes. *)
Definition utf8_lead (c : ascii) : option (N * N * nat) :=
  let n := byte_n c in
  if (194 <=? n) && (n <=? 223) then Some (128, 191, 0%nat)
  else if n =? 224 then Some (160, 191, 1%nat)
  else if n =? 237 then Some (128, 159, 1%nat)
  else if (225 <=? n) && (n <=? 239) then Some (128, 191, 1%nat)
  else if n =? 240 then Some (144, 191, 2%nat)
  else if (241 <=? n) && (n <=? 243) then Some (128, 191, 2%nat)
  else if n =? 244 then Some (128, 143, 2%nat)
  else None.

Fixpoint conts (k : nat) (s : string) : nat * bool :=
  match k, s with
  | O, _ => (0%nat, true)
  | S k', String c s' =>
      if is_cont c then let '(n, ok) := conts k' s' in (S n, ok) else (0%nat, false)
  | S _, EmptyString => (0%nat, false)
  end.

Definition utf8_step (s : string) : nat * bool :=
  match s with
  | EmptyString => (0%nat, true)
  | String c s' =>
      if byte_n c <? 128 then (1%nat, true) else
      match utf8_lead c with
      | None => (1%nat, false)
      | Some (lo, hi, k) =>
          match s' with
          | String c2 s'' =>
              if in_range lo hi c2
              then let '(n, ok) := conts k s'' in ((2 + n)%nat, ok)
              else (1%nat, false)
          | EmptyString => (1%nat, false)
          end
      end
  end.

(** The characters of a string, each with its well-formedness; [fuel] is
    the number of bytes, each step consuming at least one. *)
Fixpoint utf8_chars_fuel (fuel : nat) (s : string) : list (bool * string) :=
  match fuel, s with
  | S f, String _ _ =>
      let '(n, ok) := utf8_step s in
      (ok, take_bytes n s) :: utf8_chars_fuel f (drop_bytes n s)
  | _, _ => []
  end.
Definition utf8_chars (s : string) : list (bool * string) :=
  utf8_chars_fuel (String.length s) s.

(** [str::from_utf8(s).is_ok()], hence [OsStr::to_str]. *)
Definition utf8_valid (s : string) : bool := forallb fst (utf8_chars s).
Definition to_str (s : string) : option string := if utf8_valid s then Some s else None.

(** U+FFFD *)
Definition replacement_char : string :=
  String (byte 239) (String (byte 191) (String (byte 189) "")).

(** [String::from_utf8_lossy] *)
Definition to_string_lossy (s : string) : string :=
  String.concat "" (map (fun '(ok, c) => if ok : bool then c else replacement_char) (utf8_chars s)).

(** [str::is_char_boundary] *)
Definition is_char_boundary (s : string) (i : N) : bool :=
  (i =? 0) || (i =? strlen s) ||
  match String.get (N.to_nat i) s with
  | Some c => negb (is_cont c)
  | None => false
  end.

(** [&s[..i]]; [None] is the panic on an index that is out of range or not
    a character boundary. *)
Definition slice_to (s : string) (i : N) : option string :=
  if is_char_boundary s i then Some (take_bytes (N.to_nat i) s) else None.

(** The code points with the Unicode [White_Space] property, as UTF-8. *)
Definition white_space_chars : list string :=
  map (fun l => string_of_list_ascii (map byte l))
    ([[9]; [10]; [11]; [12]; [13]; [32]; [194; 133]; [194; 160]; [225; 154; 128];
      [226; 128; 168]; [226; 128; 169]; [226; 128; 175]; [226; 129; 159]; [227; 128; 128]]
     ++ map (fun k => [226; 128; 128 + N.of_nat k]) (seq 0 11)).

Definition is_whitespace (c : string) : bool := existsb (String.eqb c) white_space_chars.

Fixpoint drop_while {A} (f : A -> bool) (l : list A) : list A :=
  match l with
  | x :: l' => if f x then drop_while f l' else l
  | [] => []
  end.

(** [str::trim] *)
Definition trim (s : string) : string :=
  let ws := fun c => is_whitespace (snd c : string) in
  String.concat "" (map snd (rev (drop_while ws (rev (drop_while ws (utf8_chars s)))))).

(** [str::split_whitespace] *)
Fixpoint split_ws_aux (cs : list (bool * string)) (cur : string) : list string :=
  match cs with
  | [] => if is_empty cur then [] else [cur]
  | (_, c) :: cs' =>
      if is_whitespace c
      then (if is_empty cur then [] else [cur]) ++ split_ws_aux cs' ""
      else split_ws_aux cs' (cur ++ c)
  end.
Definition split_whitespace (s : string) : list string := split_ws_aux (utf8_chars s) "".

(** ** Formatting *)

(** [format!("{n}")] *)
Definition dec (n : N) : string := pretty n.

Definition bool_display (b : bool) : string := if b then "true" else "false".

Fixpoint repeat_byte (n : nat) (c : ascii) : string :=
  match n with O => "" | S n' => String c (repeat_byte n' c) end.

(** Left padding with zeros, as in [{:020}]. *)
Definition pad_left (w : nat) (s : string) : string :=
  repeat_byte (w - String.length s) "0"%char ++ s.

Definition hex_digit (n : N) : ascii :=
  if n <? 10 then byte (48 + n) else byte (87 + n).

(** Exactly [w] digits of [n] in the given base, most significant first. *)
Fixpoint digits (base : N) (w : nat) (n : N) : string :=
  match w with
  | O => ""
  | S w' => digits base w' (n / base) ++ String (hex_digit (n mod base)) ""
  end.

(** [{:0w}] and [{:0wx}]: fixed width when the value fits, otherwise the
    digits overflow the width. *)
Definition dec_pad (w : nat) (n : N) : string :=
  if n <? 10 ^ N.of_nat w then digits 10 w n else dec n.

(** [{:016x}] of a [u64], which always fits. *)
Definition hex16 (n : N) : string := digits 16 16 n.

(** ** Ordering

    Rust compares strings byte by byte. *)
Definition str_cmp (a b : string) : comparison := String.compare a b.
Definition str_lt (a b : string) : bool :=
  match str_cmp a b with Lt => true | _ => false end.
(** [a >= b] *)
Definition str_ge (a b : string) : bool := negb (str_lt a b).

(** [v.iter().collect::<BTreeSet<_>>()]: the distinct elements; only the
    size and membership of the set are used. *)
Definition btree_set {A} `{EqDecision A} (l : list A) : list A := remove_dups l.

(** ** Lemmas *)

Lemma append_cons c (a b : string) : String c a ++ b = String c (a ++ b).
Proof. reflexivity. Qed.
Lemma append_nil (b : string) : "" ++ b = b.
Proof. reflexivity. Qed.

Lemma append_empty (s : string) : s ++ "" = s.
Proof. induction s as [|c s IH]; [done|]. rewrite append_cons. by rewrite IH. Qed.

Lemma append_assoc (a b c : string) : (a ++ b) ++ c = a ++ (b ++ c).
Proof. induction a as [|d a IH]; [done|]. rewrite !append_cons. by rewrite IH. Qed.

Lemma strlen_app (a b : string) : strlen (a ++ b) = strlen a + strlen b.
Proof.
  assert (String.length (a ++ b) = String.length a + String.length b)%nat as E
    by (induction a as [|c a IH]; [done|rewrite append_cons; simpl; by rewrite IH]).
  unfold strlen. rewrite E. lia.
Qed.

Lemma all_bytes_app f (a b : string) : all_bytes f (a ++ b) = all_bytes f a && all_bytes f b.
Proof. induction a as [|c a IH]; [done|]. rewrite append_cons. simpl. by rewrite IH, andb_assoc. Qed.

Lemma all_bytes_impl f g s :
  (forall c, f c = true -> g c = true) -> all_bytes f s = true -> all_bytes g s = true.
Proof. intros Hfg. induction s; simpl; [done|]. intros. split_bools. rewrite Hfg, IHs; done. Qed.

Lemma any_byte_app f (a b : string) : any_byte f (a ++ b) = any_byte f a || any_byte f b.
Proof. induction a as [|c a IH]; [done|]. rewrite append_cons. simpl. by rewrite IH, orb_assoc. Qed.

Lemma any_byte_negb f s : any_byte f s = negb (all_bytes (fun c => negb (f c)) s).
Proof. induction s as [|c s IH]; simpl; [done|]. rewrite IH. by destruct (f c). Qed.

Lemma app_take_drop_bytes n s : take_bytes n s ++ drop_bytes n s = s.
Proof. revert s. induction n as [|n IH]; intros [|c s]; simpl; [done..|]. by rewrite append_cons, IH. Qed.

Lemma length_take_bytes n s : String.length (take_bytes n s) = Nat.min n (String.length s).
Proof. revert s. induction n; intros []; simpl; [done..|]. by rewrite IHn. Qed.

Lemma strlen_take n s : strlen (take_bytes n s) <= N.of_nat n.
Proof. unfold strlen. rewrite length_take_bytes. lia. Qed.

Lemma slice_to_some s i t :
  slice_to s i = Some t -> t = take_bytes (N.to_nat i) s /\ is_char_boundary s i = true.
Proof. unfold slice_to. destruct (is_char_boundary s i); naive_solver. Qed.

(** An ASCII string can be cut anywhere inside. *)
Lemma slice_to_ascii s i :
  all_bytes (fun c => negb (is_cont c)) s = true -> i < strlen s ->
  slice_to s i = Some (take_bytes (N.to_nat i) s).
Proof.
  intros Ha Hi. unfold slice_to, is_char_boundary.
  assert (exists c, String.get (N.to_nat i) s = Some c /\ is_cont c = false) as (c & -> & ->).
  { unfold strlen in Hi. assert (N.to_nat i < String.length s)%nat as Hn by lia. clear Hi.
    revert Ha Hn. generalize (N.to_nat i). induction s as [|d s IH]; intros [|n] Ha Hn; simpl in *;
      try lia; split_bools; [eauto|]. apply IH; [done|lia]. }
  by rewrite orb_true_r.
Qed.

Lemma hexdigit_not_cont c : is_ascii_hexdigit c = true -> negb (is_cont c) = true.
Proof.
  unfold is_ascii_hexdigit, is_ascii_digit, is_cont, in_range. intros H.
  apply negb_true_iff, andb_false_iff.
  repeat match goal with
  | H : _ || _ = true |- _ => apply orb_true_iff in H as [H|H]
  | H : _ && _ = true |- _ => apply andb_true_iff in H as [? ?]
  end; rewrite N.leb_le in *; left; apply N.leb_gt; lia.
Qed.

(** *** Order *)

Abbreviation slt := String_as_OT.lt.

Lemma str_cmp_spec x y : CompareSpec (x = y) (slt x y) (slt y x) (str_cmp x y).
Proof. exact (String_as_OT.compare_spec x y). Qed.

Lemma slt_irrefl x : ~ slt x x.
Proof. apply (StrictOrder_Irreflexive x). Qed.

Lemma slt_trans x y z : slt x y -> slt y z -> slt x z.
Proof. apply (StrictOrder_Transitive x y z). Qed.

Lemma str_cmp_le x y : str_cmp x y <> Gt <-> x = y \/ slt x y.
Proof.
  destruct (str_cmp_spec x y) as [E|E|E]; [naive_solver..|].
  split; [done|]. intros [->|F]; exfalso.
  - by apply (slt_irrefl y).
  - apply (slt_irrefl x). by eapply slt_trans.
Qed.

#[export] Instance str_cmp_linear : LinearCmp str_cmp.
Proof.
  split.
  - intros x y. destruct (str_cmp_spec x y) as [E|E|E], (str_cmp_spec y x) as [F|F|F]; subst; try done;
      exfalso; try (by eapply slt_irrefl); by eapply slt_irrefl, slt_trans.
  - intros x y. by destruct (str_cmp_spec x y).
  - intros x y z. destruct (str_cmp_spec x y), (str_cmp_spec y z); try done. intros _ _.
    destruct (str_cmp_spec x z) as [E|E|E]; [subst|done|]; exfalso; eapply slt_irrefl.
    + by eapply slt_trans.
    + eapply slt_trans; [eassumption|]. by eapply slt_trans.
Qed.

#[export] Instance str_cmp_total : TotalCmp str_cmp.
Proof. exact (linear_total (fun x => x) str_cmp). Qed.

Definition str_lt_prop (a b : string) : Prop := str_lt a b = true.

Lemma str_lt_iff a b : str_lt a b = true <-> slt a b.
Proof.
  unfold str_lt. destruct (str_cmp_spec a b) as [E|E|E]; [subst; split; [done|]..|].
  - intros F. by apply slt_irrefl in F.
  - done.
  - split; [done|]. intros F. exfalso. apply (slt_irrefl a). by eapply slt_trans.
Qed.

#[export] Instance str_lt_strict : StrictOrder str_lt_prop.
Proof.
  split.
  - intros x H. apply str_lt_iff in H. by apply slt_irrefl in H.
  - intros x y z H K. apply str_lt_iff in H, K. apply str_lt_iff. by eapply slt_trans.
Qed.

Lemma str_ge_false a b : str_ge a b = false <-> str_lt_prop a b.
Proof. unfold str_ge, str_lt_prop. by rewrite negb_false_iff. Qed.

(** Adjacent pairs in order: the whole list is strictly increasing. *)
Lemma windows2_str_sorted l :
  windows2_any str_ge l = false <-> StronglySorted str_lt_prop l.
Proof. apply windows2_sorted; [apply _|]. apply str_ge_false. Qed.

Lemma str_sorted_NoDup l : StronglySorted str_lt_prop l -> NoDup l.
Proof. apply StronglySorted_NoDup. apply _. Qed.

(** Comparing after a common-length prefix. *)
Lemma str_cmp_app a b x y :
  String.length a = String.length b ->
  str_cmp (a ++ x) (b ++ y) = then_with (str_cmp a b) (str_cmp x y).
Proof.
  unfold str_cmp. revert b. induction a as [|c a IH]; intros [|d b] Hl; try discriminate Hl; [done|].
  rewrite !append_cons. simpl. destruct (Ascii.compare c d); [|done..].
  apply IH. by injection Hl.
Qed.

Lemma str_cmp_refl a : str_cmp a a = Eq.
Proof. destruct (str_cmp_spec a a) as [|E|E]; [done|by apply slt_irrefl in E..]. Qed.

Lemma str_lt_app_eq a x y : str_lt (a ++ x) (a ++ y) = str_lt x y.
Proof. unfold str_lt. by rewrite str_cmp_app, str_cmp_refl. Qed.

Lemma str_lt_app_lt a b x y :
  String.length a = String.length b -> str_lt a b = true -> str_lt (a ++ x) (b ++ y) = true.
Proof.
  intros Hl. unfold str_lt. rewrite str_cmp_app by done. by destruct (str_cmp a b).
Qed.

(** *** Fixed-width digits *)

Lemma length_append (a b : string) : String.length (a ++ b) = (String.length a + String.length b)%nat.
Proof. induction a as [|c a IH]; [done|]. rewrite append_cons. simpl. by rewrite IH. Qed.

Lemma length_digits base w n : String.length (digits base w n) = w.
Proof.
  revert n. induction w as [|w IH]; intros n; simpl; [done|].
  rewrite length_append, IH. simpl. lia.
Qed.

Lemma hex_digit_n n : n < 16 -> byte_n (hex_digit n) = if n <? 10 then 48 + n else 87 + n.
Proof.
  intros Hn. unfold hex_digit, byte_n, byte. destruct (n <? 10) eqn:E; apply N_ascii_embedding; lia.
Qed.

Lemma hex_digit_hexdigit n : n < 16 -> is_ascii_hexdigit (hex_digit n) = true.
Proof.
  intros Hn. unfold is_ascii_hexdigit, is_ascii_digit, in_range. rewrite hex_digit_n by done.
  destruct (n <? 10) eqn:E; rewrite ?N.ltb_lt, ?N.ltb_ge in E.
  - rewrite (proj2 (N.leb_le 48 (48 + n))), (proj2 (N.leb_le (48 + n) 57)) by lia. done.
  - rewrite (proj2 (N.leb_le 97 (87 + n))), (proj2 (N.leb_le (87 + n) 102)) by lia.
    by rewrite orb_true_r.
Qed.

Lemma all_hexdigits base w n :
  0 < base <= 16 -> all_bytes is_ascii_hexdigit (digits base w n) = true.
Proof.
  intros Hb. revert n. induction w as [|w IH]; intros n; simpl; [done|].
  rewrite all_bytes_app, IH. simpl. rewrite hex_digit_hexdigit; [done|].
  pose proof (N.mod_lt n base). lia.
Qed.

Lemma hex_digit_lt a b : a < b -> b < 16 -> str_lt (String (hex_digit a) "") (String (hex_digit b) "") = true.
Proof.
  intros Hab Hb. unfold str_lt, str_cmp. simpl. unfold Ascii.compare.
  change N_of_ascii with byte_n. rewrite !hex_digit_n by lia.
  rewrite (proj2 (N.compare_lt_iff _ _)); [done|].
  destruct (a <? 10) eqn:E, (b <? 10) eqn:F; rewrite ?N.ltb_lt, ?N.ltb_ge in *; lia.
Qed.

(** Fixed-width numerals are ordered as the numbers they print. *)
Lemma digits_lt base w n m :
  1 < base <= 16 -> n < m -> m < base ^ N.of_nat w ->
  str_lt (digits base w n) (digits base w m) = true.
Proof.
  intros Hb. revert n m. induction w as [|w IH]; intros n m Hnm Hm.
  { simpl in Hm. lia. }
  simpl. pose proof (N.div_mod n base). pose proof (N.div_mod m base).
  pose proof (N.mod_lt n base). pose proof (N.mod_lt m base).
  assert (m / base < base ^ N.of_nat w).
  { apply N.Div0.div_lt_upper_bound. rewrite <- N.pow_succ_r'. by rewrite <- Nat2N.inj_succ. }
  destruct (N.lt_ge_cases (n / base) (m / base)) as [Hlt|Hge].
  - apply str_lt_app_lt; [by rewrite !length_digits|]. by apply IH.
  - assert (n / base = m / base) as ->.
    { apply N.le_antisymm; [|done]. apply N.Div0.div_le_mono. lia. }
    rewrite str_lt_app_eq. apply hex_digit_lt; nia.
Qed.
