(* ===== verification/Text.v ===== *)
(** * Text: characters, lines, ordered sets

    More of Rust's standard library on strings and collections, for the code
    that validates texts: characters and their classes, trimming by
    character set, lines, the [u32] parser, the part of Unicode lowercasing
    the program can observe, and [BTreeSet] / [BTreeMap] built by
    insertion. *)

From stdpp Require Import base list strings.
From Stdlib Require Import NArith Ascii String Lia.
From S2P Require Import Prelude Bytes.

Local Open Scope string_scope.
Local Open Scope N_scope.

(** ** Characters *)

(** [s.chars()], each character as its UTF-8 bytes. *)
Definition chars (s : string) : list string := map snd (utf8_chars s).

(** [s.chars().count()] *)
Definition char_count (s : string) : N := N.of_nat (List.length (utf8_chars s)).

(** [char::is_control]: the general category Cc, U+0000 to U+001F and U+007F
    to U+009F. *)
Definition is_control (c : string) : bool :=
  match c with
  | String a "" => (byte_n a <? 32) || (byte_n a =? 127)
  | String a (String b "") => (byte_n a =? 194) && in_range 128 159 b
  | _ => false
  end.

Definition to_ascii_upper_byte (c : ascii) : ascii :=
  if is_ascii_lowercase c then byte (byte_n c - 32) else c.
Definition to_ascii_uppercase (s : string) : string := map_bytes to_ascii_upper_byte s.

(** [str::to_lowercase], as far as a comparison with the texts of the program
    can see it: the only characters whose lowercase mapping contains an ASCII
    letter or a Latin-1 one are the ASCII and Latin-1 capitals, U+0130, which
    becomes "i" and U+0307, U+212A and U+212B.  Every other character is left
    alone here; its mapping contains neither. *)
Definition lowercase_char (c : string) : string :=
  match c with
  | String a "" => String (to_ascii_lower_byte a) ""
  | String a (String b "") =>
      if (byte_n a =? 195) && in_range 128 158 b && negb (byte_n b =? 151)
      then String a (String (byte (byte_n b + 32)) "")
      else if (byte_n a =? 196) && (byte_n b =? 176)
      then String "i" (String (byte 204) (String (byte 135) ""))
      else c
  | String a (String b (String d "")) =>
      if (byte_n a =? 226) && (byte_n b =? 132) && (byte_n d =? 170) then "k"
      else if (byte_n a =? 226) && (byte_n b =? 132) && (byte_n d =? 171)
      then String (byte 195) (String (byte 165) "")
      else c
  | _ => c
  end.
Definition to_lowercase (s : string) : string := String.concat "" (map lowercase_char (chars s)).

(** ** Debugging texts *)

(** [{:?}] of a string; its escapes are those of the Unicode tables. *)
Class StringDebug := string_debug : string -> string.

(** ** Searching and trimming

    The sets are of ASCII characters, which a UTF-8 text holds as single
    bytes. *)

(** [s.char_indices().find(f)] and [s.find(f)] for an ASCII class. *)
Fixpoint find_byte (f : ascii -> bool) (s : string) : option nat :=
  match s with
  | EmptyString => None
  | String c s' => if f c then Some O else option_map S (find_byte f s')
  end.

Fixpoint trim_start_matches (f : ascii -> bool) (s : string) : string :=
  match s with
  | String c s' => if f c then trim_start_matches f s' else s
  | EmptyString => EmptyString
  end.
Fixpoint trim_end_matches (f : ascii -> bool) (s : string) : string :=
  match s with
  | EmptyString => EmptyString
  | String c s' =>
      match trim_end_matches f s' with
      | EmptyString => if f c then EmptyString else String c EmptyString
      | t => String c t
      end
  end.
Definition trim_matches (f : ascii -> bool) (s : string) : string :=
  trim_end_matches f (trim_start_matches f s).

(** [s.strip_suffix(p)] *)
Definition str_strip_suffix (p s : string) : option string :=
  if ends_with p s then Some (take_bytes (String.length s - String.length p) s) else None.

(** [s.split(c).next()] and [s.rsplit(c).next()] *)
Definition first_part (c : ascii) (s : string) : string := default s (head (split_on c s)).
Definition last_part (c : ascii) (s : string) : string := default s (last (split_on c s)).

(** [s.bytes().filter(|b| b == c).count()] *)
Fixpoint count_byte (c : ascii) (s : string) : N :=
  match s with
  | EmptyString => 0
  | String d s' => (if Ascii.eqb c d then 1 else 0) + count_byte c s'
  end.

(** [str::lines]: split after every line feed, which is dropped together
    with a carriage return before it; an empty last piece is no line. *)
Definition line_feed : ascii := byte 10.
Definition carriage_return : ascii := byte 13.
Definition drop_return (s : string) : string := default s (str_strip_suffix (String carriage_return "") s).
Fixpoint lines_of (pieces : list string) : list string :=
  match pieces with
  | [] => []
  | [rest] => if is_empty rest then [] else [rest]
  | p :: pieces' => drop_return p :: lines_of pieces'
  end.
Definition lines (s : string) : list string := lines_of (split_on line_feed s).

(** ** Numbers *)

(** [str::parse::<u32>]: decimal digits after an optional plus sign. *)
Fixpoint parse_digits (max acc : N) (s : string) : option N :=
  match s with
  | EmptyString => Some acc
  | String c s' =>
      if is_ascii_digit c then
        let n := acc * 10 + (byte_n c - 48) in
        if n <=? max then parse_digits max n s' else None
      else None
  end.
Definition parse_unsigned (max : N) (s : string) : option N :=
  let digits := match s with String "+"%char d => d | _ => s end in
  if is_empty digits then None else parse_digits max 0 digits.
Definition parse_u32 : string -> option N := parse_unsigned u32_max.
Definition parse_usize : string -> option N := parse_unsigned u64_max.

Definition usize_min_u32 (n : N) : N := N.min n u32_max.

(** ** Ordered collections *)

(** [BTreeSet::insert]: [None] when the element is there already. *)
Definition set_insert (x : string) (l : list string) : option (list string) :=
  if existsb (String.eqb x) l then None else Some (sort_insert str_cmp x l).

Definition set_contains (l : list string) (x : string) : bool := existsb (String.eqb x) l.

(** [BTreeMap<String, V>] as an association list in key order. *)
Section Map.
Context {V : Type}.

Fixpoint map_get (k : string) (m : list (string * V)) : option V :=
  match m with
  | [] => None
  | (k', v) :: m' => if (k =? k')%string then Some v else map_get k m'
  end.

(** [map.entry(k).or_default()] updated by [f]; [f None] makes the value of
    a new key. *)
Fixpoint map_update (k : string) (f : option V -> V) (m : list (string * V)) : list (string * V) :=
  match m with
  | [] => [(k, f None)]
  | (k', v) :: m' =>
      match str_cmp k k' with
      | Lt => (k, f None) :: m
      | Eq => (k', f (Some v)) :: m'
      | Gt => (k', v) :: map_update k f m'
      end
  end.

(** [map.insert(k, v)]: the new map and the value it replaced. *)
Definition map_insert (k : string) (v : V) (m : list (string * V)) : list (string * V) * option V :=
  (map_update k (fun _ => v) m, map_get k m).
End Map.

(** * Unicode text

    What the code uses of Rust's standard library beyond ASCII: lowercasing a
    text, and the classes of characters.  The tables are those of a Unicode
    version and change with the releases of the standard library; they are a
    parameter here, with what holds of ASCII in every version as a law.  A
    character is its UTF-8 bytes. *)

Class Unicode := {
  (** [str::to_lowercase] *)
  lowercase : string -> string;
  (** [char::is_alphabetic], [char::is_numeric] and [char::is_uppercase] *)
  alphabetic : string -> bool;
  numeric : string -> bool;
  uppercase : string -> bool;
}.

(** [char::is_alphanumeric] *)
Definition alphanumeric `{Unicode} (c : string) : bool := alphabetic c || numeric c.

(** What every version says of ASCII. *)
Class UnicodeAscii `{Unicode} : Prop := {
  lowercase_ascii s : all_bytes (fun c => byte_n c <? 128) s = true -> lowercase s = to_ascii_lowercase s;
  alphabetic_ascii c : byte_n c < 128 -> alphabetic (String c "") = is_ascii_lowercase c || is_ascii_uppercase c;
  numeric_ascii c : byte_n c < 128 -> numeric (String c "") = is_ascii_digit c;
  uppercase_ascii c : byte_n c < 128 -> uppercase (String c "") = is_ascii_uppercase c;
}.

(** Tables that know ASCII only. *)
Definition ascii_class (f : ascii -> bool) (c : string) : bool :=
  match c with String a "" => f a | _ => false end.
Definition ascii_unicode : Unicode := {|
  lowercase := to_ascii_lowercase;
  alphabetic := ascii_class (fun c => is_ascii_lowercase c || is_ascii_uppercase c);
  numeric := ascii_class is_ascii_digit;
  uppercase := ascii_class is_ascii_uppercase |}.

Lemma ascii_unicode_ascii : UnicodeAscii (H := ascii_unicode).
Proof. by split. Qed.

(** ** Texts by character *)

(** [s.trim_matches(f)] *)
Definition trim_chars (f : string -> bool) (s : string) : string :=
  String.concat "" (rev (drop_while f (rev (drop_while f (chars s))))).

(** [s.split(f)] for a class of characters *)
Fixpoint split_chars_aux (f : string -> bool) (cs : list string) (cur : string) : list string :=
  match cs with
  | [] => [cur]
  | c :: cs' => if f c then cur :: split_chars_aux f cs' "" else split_chars_aux f cs' (cur ++ c)
  end.
Definition split_chars (f : string -> bool) (s : string) : list string := split_chars_aux f (chars s) "".

(** A character of an ASCII set *)
Definition char_in (set : string) (c : string) : bool := ascii_class (one_of set) c.

(** [s.chars().take(n)] *)
Definition take_chars (n : nat) (s : string) : string := String.concat "" (take n (chars s)).

(** [char::len_utf16]: two units for a character of four bytes *)
Definition len_utf16 (c : string) : N := if (4 <=? String.length c)%nat then 2 else 1.

(** [s.find(needle)], in bytes *)
Fixpoint find_str (needle s : string) : option N :=
  if starts_with needle s then Some 0 else
  match s with
  | EmptyString => None
  | String _ s' => option_map N.succ (find_str needle s')
  end.

(** [v.dedup()] *)
Fixpoint dedup (l : list string) : list string :=
  match l with
  | [] => []
  | x :: l' => match l' with
               | y :: _ => if (x =? y)%string then dedup l' else x :: dedup l'
               | [] => [x]
               end
  end.

(** [s.replacen(pattern, with_, 1)] for a pattern that is not empty *)
Definition replace_first (pattern with_ s : string) : string :=
  match find_str pattern s with
  | Some i => take_bytes (N.to_nat i) s ++ with_ ++ drop_bytes (N.to_nat i + String.length pattern) s
  | None => s
  end.

(** * JSON values ([serde_json::Value])

    An object is a [BTreeMap]; the only numbers the code builds are
    unsigned. *)

Inductive Value :=
| VNull
| VBool (b : bool)
| VNumber (n : N)
| VString (s : string)
| VArray (l : list Value)
| VObject (m : list (string * Value)).

(** An object of the [json!] macro *)
Definition json_object (fields : list (string * Value)) : Value :=
  VObject (foldl (fun m field => fst (map_insert field.1 field.2 m)) [] fields).
Definition json_strings (l : list string) : Value := VArray (map VString l).

(** [value[k1][k2].. = v]; indexing panics on what is neither an object nor
    null, which the code never does. *)
Fixpoint set_path (path : list string) (v value : Value) : Value :=
  match path with
  | [] => v
  | k :: path' =>
      match value with
      | VObject m => VObject (map_update k (fun old => set_path path' v (default VNull old)) m)
      | VNull => VObject [(k, set_path path' v VNull)]
      | other => other
      end
  end.

(** [value.get(k1)?.get(k2)?..] *)
Fixpoint value_at (path : list string) (value : Value) : option Value :=
  match path with
  | [] => Some value
  | k :: path' => match value with VObject m => map_get k m ≫= value_at path' | _ => None end
  end.

(** JSON schemas, as the [json!] literals of the code spell them *)

Definition type_field (name : string) : string * Value := ("type", VString name).
Definition schema_type (name : string) : Value := json_object [type_field name].
(** An object schema without additional properties *)
Definition closed_object (required : list string) (properties : list (string * Value)) : Value := json_object [
  type_field "object"; ("additionalProperties", VBool false); ("required", json_strings required);
  ("properties", json_object properties)].
Definition array_of (items : Value) : Value := json_object [type_field "array"; ("items", items)].
