(* ===== verification/UnixPath.v ===== *)
(** * [std::path] on Unix

    A [Path] is its raw bytes.  [components] is the normalised iterator
    every comparison uses: repeated separators and interior "." vanish, a
    leading "." of a relative path stays, ".." stays.  Equality, ordering,
    [starts_with] and [strip_prefix] are on components; [join], [parent]
    and the rest of a stripped path are on the raw bytes, as in [std]. *)

From stdpp Require Import base list strings.
From Stdlib Require Import NArith Ascii String Lia.
From S2P Require Import Prelude Bytes.

Local Open Scope string_scope.

(** [std::path::Component], without the Windows prefix. *)
Inductive component :=
| RootDir
| CurDir
| ParentDir
| Normal (name : string).

#[export] Instance component_eq_dec : EqDecision component.
Proof. solve_decision. Defined.

(** The segments of the raw bytes between separators. *)
Definition segments (p : string) : list string := split_on slash p.

(** [Path::is_absolute] (= [has_root] on Unix). *)
Definition is_absolute (p : string) : bool :=
  match p with String c _ => Ascii.eqb c slash | EmptyString => false end.

(** The segments after the root separator, and whether a leading "." is a
    component of its own. *)
Definition body_segments (p : string) : list string :=
  if is_absolute p then tail (segments p) else
  match segments p with
  | "." :: l => l
  | l => l
  end.

Definition leading_cur_dir (p : string) : bool :=
  negb (is_absolute p) && match segments p with "." :: _ => true | _ => false end.

(** A segment the iterator skips inside the body. *)
Definition skipped (s : string) : bool := (s =? "")%string || (s =? ".")%string.

Definition seg_component (s : string) : component :=
  if (s =? "..")%string then ParentDir else Normal s.

(** [Path::components] *)
Definition components (p : string) : list component :=
  (if is_absolute p then [RootDir] else if leading_cur_dir p then [CurDir] else []) ++
  map seg_component (List.filter (fun s => negb (skipped s)) (body_segments p)).

(** [Path == Path] *)
Definition path_eqb (p q : string) : bool := bool_decide (components p = components q).

(** [Option<&Path> == Option<&Path>] *)
Definition opt_path_eqb (p q : option string) : bool :=
  match p, q with
  | Some p, Some q => path_eqb p q
  | None, None => true
  | _, _ => false
  end.

(** [Path::cmp]: lexicographic on components. *)
Definition component_cmp (a b : component) : comparison :=
  let rank c := match c with RootDir => 0 | CurDir => 1 | ParentDir => 2 | Normal _ => 3 end in
  match a, b with
  | Normal x, Normal y => str_cmp x y
  | _, _ => Nat.compare (rank a) (rank b)
  end.
Fixpoint list_cmp {A} (cmp : A -> A -> comparison) (l k : list A) : comparison :=
  match l, k with
  | [], [] => Eq
  | [], _ :: _ => Lt
  | _ :: _, [] => Gt
  | x :: l', y :: k' => then_with (cmp x y) (list_cmp cmp l' k')
  end.
Definition path_cmp (p q : string) : comparison :=
  list_cmp component_cmp (components p) (components q).

(** [PathBuf::push] / [Path::join] *)
Definition join (p q : string) : string :=
  if is_absolute q then q
  else if is_empty p then q
  else if ends_with "/" p then p ++ q
  else p ++ "/" ++ q.

(** [Path::starts_with] *)
Definition path_starts_with (p base : string) : bool :=
  bool_decide (take (List.length (components base)) (components p) = components base).

(** The raw bytes of a body whose redundant ends are trimmed, as
    [Components::as_path] yields them. *)
Definition trim_segments (l : list string) : list string :=
  rev (drop_while skipped (rev l)).

Fixpoint drop_components (k : nat) (l : list string) : list string :=
  match l with
  | [] => []
  | s :: l' =>
      if skipped s then drop_components k l' else
      match k with
      | O => l
      | S k' => drop_components k' l'
      end
  end.

(** [Path::strip_prefix]; the base is always an absolute path in the
    program, so at least the root is consumed. *)
Definition strip_prefix (p base : string) : option string :=
  if path_starts_with p base then
    let k := List.length (components base) in
    let lead := if is_absolute p || leading_cur_dir p then 1%nat else 0%nat in
    match k with
    | O => Some p
    | S _ => Some (join_with "/" (trim_segments (drop_components (k - lead) (body_segments p))))
    end
  else None.

(** [Path::parent] *)
Definition parent (p : string) : option string :=
  match rev (components p) with
  | [] | RootDir :: _ => None
  | CurDir :: _ => Some ""
  | _ =>
      let body := trim_segments (removelast (trim_segments (body_segments p))) in
      Some (if is_absolute p then "/" ++ join_with "/" body
            else if leading_cur_dir p then join_with "/" ("." :: body)
            else join_with "/" body)
  end.

(** [Path::file_name] *)
Definition file_name (p : string) : option string :=
  match rev (components p) with
  | Normal n :: _ => Some n
  | _ => None
  end.

(** [rsplit_file_at_dot]: (stem, extension), with no extension for a name
    that starts with its only dot. *)
Definition split_file_name (n : string) : option string * option string :=
  match rsplit_once "."%char n with
  | None => (Some n, None)
  | Some ("", _) => (Some n, None)
  | Some (stem, ext) => (Some stem, Some ext)
  end.

(** [Path::file_stem], [Path::extension] *)
Definition file_stem (p : string) : option string :=
  match file_name p with Some n => fst (split_file_name n) | None => None end.
Definition extension (p : string) : option string :=
  match file_name p with Some n => snd (split_file_name n) | None => None end.

(** [matches!(component, Component::Normal(_))] *)
Definition is_normal (c : component) : bool :=
  match c with Normal _ => true | _ => false end.

(** [component.as_os_str()] *)
Definition component_str (c : component) : string :=
  match c with RootDir => "/" | CurDir => "." | ParentDir => ".." | Normal n => n end.

(** ** Canonical paths

    The absolute path of a location, given as its list of names. *)
Definition render (l : list string) : string := "/" ++ join_with "/" l.

(** A name a directory entry can have. *)
Definition valid_name (n : string) : bool :=
  negb (skipped n) && negb (n =? "..")%string && negb (any_byte (Ascii.eqb slash) n).

(** ** The path of a location

    [join], [components] and [parent] on rendered locations. *)

Definition valid_names (l : list string) : Prop := Forall (fun n => valid_name n = true) l.

Lemma valid_name_spec n :
  valid_name n = true ->
  n <> "" /\ n <> "." /\ n <> ".." /\ any_byte (Ascii.eqb slash) n = false.
Proof.
  unfold valid_name, skipped. intros Hv. split_bools.
  repeat split; [intros ->..|done]; done.
Qed.

Lemma valid_name_not_skipped n : valid_name n = true -> skipped n = false.
Proof. unfold valid_name. intros Hv. by split_bools. Qed.

Lemma split_on_cons c s : exists x l, split_on c s = x :: l.
Proof.
  induction s as [|d s IH]; simpl; [by eexists _, _|].
  destruct (Ascii.eqb c d); [by eexists _, _|]. destruct IH as (x & l & ->). by eexists _, _.
Qed.

Lemma split_on_app c a b : split_on c (a ++ String c b) = (split_on c a ++ split_on c b)%list.
Proof.
  induction a as [|d a IH].
  - change ("" ++ String c b) with (String c b). simpl. by rewrite Ascii.eqb_refl.
  - rewrite append_cons. cbn [split_on]. rewrite IH. destruct (Ascii.eqb c d); [done|].
    by destruct (split_on_cons c a) as (x & l & ->).
Qed.

Lemma split_on_free c s : Forall (fun x => any_byte (Ascii.eqb c) x = false) (split_on c s).
Proof.
  induction s as [|d s IH]; simpl; [by repeat constructor|].
  destruct (Ascii.eqb c d) eqn:E; [by constructor|].
  destruct (split_on_cons c s) as (x & l & Hs). rewrite Hs in *. inversion IH; subst.
  constructor; [|done]. simpl. by rewrite E.
Qed.

Lemma split_on_name n : any_byte (Ascii.eqb slash) n = false -> split_on slash n = [n].
Proof.
  induction n as [|c n IH]; [done|]. cbn [any_byte split_on]. intros Hn. split_bools.
  rewrite IH by done. by destruct (Ascii.eqb slash c).
Qed.

Lemma split_on_join n rest :
  any_byte (Ascii.eqb slash) n = false ->
  split_on slash (n ++ String slash rest) = n :: split_on slash rest.
Proof.
  induction n as [|c n IH]; intros Hn; [done|]. rewrite append_cons. cbn [any_byte split_on] in *.
  split_bools. rewrite IH by done. by destruct (Ascii.eqb slash c).
Qed.

Lemma split_join l : valid_names l -> l <> [] -> split_on slash (join_with "/" l) = l.
Proof.
  induction 1 as [|n l Hn Hl IH]; [done|]. intros _. apply valid_name_spec in Hn as (_ & _ & _ & Hn).
  destruct l as [|m l]; [by apply split_on_name|].
  change (join_with "/" (n :: m :: l)) with (n ++ String slash (join_with "/" (m :: l))).
  rewrite split_on_join by done. by rewrite IH.
Qed.

Lemma segments_render l : valid_names l -> l <> [] -> segments (render l) = "" :: l.
Proof.
  intros Hv Hl. unfold segments, render. change ("/" ++ join_with "/" l) with (String slash (join_with "/" l)).
  cbn [split_on]. change (Ascii.eqb slash slash) with true. cbn match. by rewrite split_join.
Qed.

Lemma is_absolute_render l : is_absolute (render l) = true.
Proof. reflexivity. Qed.

Lemma filter_unskipped l :
  valid_names l -> List.filter (fun s => negb (skipped s)) l = l.
Proof.
  induction 1 as [|n l Hn Hl IH]; [done|]. simpl. by rewrite valid_name_not_skipped, IH.
Qed.

Lemma components_render l : valid_names l -> components (render l) = RootDir :: map Normal l.
Proof.
  intros Hv. unfold components, body_segments. rewrite is_absolute_render.
  destruct (decide (l = [])) as [->|Hl]; [done|]. rewrite segments_render by done. cbn [tail].
  rewrite filter_unskipped by done. cbn [app]. f_equal. apply map_ext_in. intros n Hin.
  apply (proj1 (List.Forall_forall _ _) Hv), valid_name_spec in Hin as (_ & _ & Hn & _).
  unfold seg_component. by rewrite (proj2 (String.eqb_neq _ _) Hn).
Qed.

Lemma render_inj l k : valid_names l -> valid_names k -> path_eqb (render l) (render k) = true -> l = k.
Proof.
  intros Hl Hk. unfold path_eqb. rewrite bool_decide_eq_true, !components_render by done.
  intros [= E]. revert k Hk E. induction Hl as [|n l Hn Hl IH]; intros [|m k] Hk E; try done.
  simpl in E. injection E as -> E. inversion Hk; subst. f_equal. by apply IH.
Qed.

Lemma path_eqb_refl p : path_eqb p p = true.
Proof. unfold path_eqb. by apply bool_decide_eq_true. Qed.

Lemma ends_with_slash_snoc a n :
  valid_name n = true -> ends_with "/" (a ++ n) = false.
Proof.
  intros (Hne & _ & _ & Hslash)%valid_name_spec. unfold ends_with.
  change "/" with (String slash "").
  assert (forall b : string, String.eqb (drop_bytes (String.length b - 1) b) (String slash "") =
    match String.get (String.length b - 1) b with Some c => Ascii.eqb c slash | None => false end) as Hlast.
  { intros b. induction b as [|c b IH]; [done|]. simpl String.length. destruct b as [|d b].
    - cbn [String.length Nat.sub drop_bytes String.get String.eqb]. by destruct (Ascii.eqb c slash).
    - replace (S (String.length (String d b)) - 1)%nat with (S (String.length (String d b) - 1))%nat
        by (simpl; lia). exact IH. }
  simpl String.length. rewrite Hlast. apply andb_false_iff. right. clear Hlast.
  assert (forall b, b <> "" -> any_byte (Ascii.eqb slash) b = false ->
    match String.get (String.length b - 1) b with Some c => Ascii.eqb c slash | None => false end = false) as Hb.
  { induction b as [|c b IH]; [done|]. intros _ Hb. simpl in Hb. split_bools. destruct b as [|d b].
    - simpl. by rewrite Ascii.eqb_sym.
    - replace (String.length (String c (String d b)) - 1)%nat
        with (S (String.length (String d b) - 1))%nat by (simpl; lia). by apply IH. }
  induction a as [|c a IH]; [by apply Hb|]. rewrite append_cons.
  replace (String.length (String c (a ++ n)) - 1)%nat with (S (String.length (a ++ n) - 1))%nat; [exact IH|].
  simpl. rewrite length_append. destruct n; [done|]. simpl. lia.
Qed.

Lemma join_with_snoc l n : l <> [] -> join_with "/" (l ++ [n]) = join_with "/" l ++ "/" ++ n.
Proof.
  induction l as [|m l IH]; [done|]. intros _. destruct l as [|k l]; [done|].
  change (join_with "/" ((m :: k :: l) ++ [n])) with (m ++ "/" ++ join_with "/" ((k :: l) ++ [n])).
  rewrite IH by done. change (join_with "/" (m :: k :: l)) with (m ++ "/" ++ join_with "/" (k :: l)).
  by rewrite !append_assoc.
Qed.

Lemma render_no_trailing k m :
  valid_names k -> valid_name m = true -> ends_with "/" (render (k ++ [m])) = false.
Proof.
  intros Hk Hm. unfold render. destruct (decide (k = [])) as [->|Hk']; [by apply (ends_with_slash_snoc "/")|].
  rewrite join_with_snoc by done. rewrite <- !append_assoc. by apply ends_with_slash_snoc.
Qed.

Lemma join_render l n :
  valid_names l -> valid_name n = true -> join (render l) n = render (l ++ [n]).
Proof.
  intros Hl Hn. unfold join.
  assert (is_absolute n = false) as ->.
  { pose proof (valid_name_spec n Hn) as (_ & _ & _ & Hs). destruct n as [|c n]; [done|].
    simpl in *. split_bools. by rewrite Ascii.eqb_sym. }
  change (is_empty (render l)) with false. cbn match.
  destruct (decide (l = [])) as [->|Hne]; [done|].
  destruct (exists_last Hne) as (k & m & ->). apply Forall_app in Hl as [Hk Hm].
  apply Forall_inv in Hm.
  rewrite render_no_trailing by done.
  unfold render. rewrite (join_with_snoc (k ++ [m])) by (by destruct k). by rewrite append_assoc.
Qed.

Lemma drop_while_none {A} (f : A -> bool) l :
  Forall (fun x => f x = false) l -> drop_while f l = l.
Proof. intros [|x k Hx _]; [done|]. simpl. by rewrite Hx. Qed.

Lemma trim_valid l : valid_names l -> trim_segments l = l.
Proof.
  intros Hv. unfold trim_segments. rewrite drop_while_none; [by rewrite rev_involutive|].
  apply Forall_rev. eapply Forall_impl; [exact Hv|]. apply valid_name_not_skipped.
Qed.

Lemma parent_render l n :
  valid_names l -> valid_name n = true -> parent (render (l ++ [n])) = Some (render l).
Proof.
  intros Hl Hn. assert (valid_names (l ++ [n])) as Hln by (apply Forall_app; by repeat constructor).
  unfold parent. rewrite components_render by done.
  change (RootDir :: map Normal (l ++ [n])) with ([RootDir] ++ map Normal (l ++ [n]))%list.
  rewrite map_app, !rev_app_distr. cbn [rev map app]. unfold body_segments.
  rewrite is_absolute_render, segments_render by (done || by destruct l). simpl tail.
  rewrite (trim_valid (l ++ [n])) by done. rewrite removelast_last. by rewrite trim_valid.
Qed.

(** ** Order *)

#[export] Instance component_cmp_linear : LinearCmp component_cmp.
Proof.
  split.
  - intros [] []; try done. simpl. apply cmp_opp.
  - intros [] []; try done. simpl. intros E. apply cmp_eq in E. by subst.
  - intros [] [] []; try done. simpl. apply cmp_lt_trans.
Qed.

#[export] Instance list_cmp_linear {A} (cmp : A -> A -> comparison) `{!LinearCmp cmp} :
  LinearCmp (list_cmp cmp).
Proof.
  split.
  - induction x as [|x l IH]; intros [|y k]; try done. simpl. rewrite (cmp_opp x y), IH.
    by destruct (cmp x y).
  - induction x as [|x l IH]; intros [|y k]; try done. simpl. destruct (cmp x y) eqn:E; try done.
    simpl. intros F. apply cmp_eq in E. apply IH in F. by subst.
  - induction x as [|x l IH]; intros [|y k] [|z m]; try done. simpl.
    destruct (cmp x y) eqn:E, (cmp y z) eqn:F; simpl; try done; intros G K.
    + apply cmp_eq in E, F. subst. rewrite cmp_refl by done. by eapply IH.
    + apply cmp_eq in E. subst. by rewrite F.
    + apply cmp_eq in F. subst. by rewrite E.
    + by rewrite (cmp_lt_trans _ _ _ E F).
Qed.

#[export] Instance path_cmp_total : TotalCmp path_cmp.
Proof. exact (linear_total components (list_cmp component_cmp)). Qed.

(** ** Examples of the iterator's rules *)

Example components_ex1 : components "/a//b/./../c/" = [RootDir; Normal "a"; Normal "b"; ParentDir; Normal "c"].
Proof. reflexivity. Qed.
Example components_ex2 : components "./a/." = [CurDir; Normal "a"].
Proof. reflexivity. Qed.
Example components_ex3 : components "." = [CurDir] /\ components "" = [] /\ components "/" = [RootDir].
Proof. repeat split. Qed.
Example strip_prefix_ex : strip_prefix "/r//a//b/" "/r" = Some "a//b" /\ strip_prefix "/r" "/r" = Some "" /\ strip_prefix "/rr/a" "/r" = None.
Proof. repeat split. Qed.
Example parent_ex : parent "/a/b" = Some "/a" /\ parent "/a" = Some "/" /\ parent "/" = None
  /\ parent "a" = Some "" /\ parent "./a" = Some "." /\ parent "//a" = Some "/" /\ parent "." = Some "".
Proof. repeat split. Qed.
Example file_name_ex : file_name "/a/b.tar.gz" = Some "b.tar.gz" /\ file_stem "/a/b.tar.gz" = Some "b.tar"
  /\ extension "/a/b.tar.gz" = Some "gz" /\ extension "/a/.git" = None /\ file_name "/a/.." = None.
Proof. repeat split. Qed.
