(* ===== verification/IO.v ===== *)
(** * Effects: programs as trees of system calls

    Every operation of the policy crate that touches the outside world is
    an [IO] program: a tree whose nodes are the standard-library calls the
    code makes, in the order it makes them, and whose leaves are results or
    panics.  Three readings of a program are used:
    - [run] (in World.v) executes it on a concrete world;
    - [must] quantifies over every possible answer of every call, so a
      theorem stated with it holds for any file system, any error, any clock
      and any interference between two calls;
    - [steps] (in World.v) interleaves several programs call by call. *)

From stdpp Require Import base list strings.
From Stdlib Require Import NArith String.
From S2P Require Import Prelude Bytes UnixPath.



(** [std::io::Error]: the kinds the code distinguishes, and its text. *)
Inductive io_kind := NotFound | AlreadyExists | OtherKind.
#[export] Instance io_kind_eq_dec : EqDecision io_kind.
Proof. solve_decision. Defined.

Record io_error := IoError { io_error_kind : io_kind; io_error_display : string }.

(** [std::fs::FileType] and [std::fs::Metadata] on Unix.  [at_modified] and
    [at_created] are the times of modification and creation in nanoseconds
    since the epoch, [None] when unavailable or earlier; [at_mode] is
    [st_mode]. *)
Inductive file_type := RegularFile | Directory | Symlink | OtherType.
#[export] Instance file_type_eq_dec : EqDecision file_type.
Proof. solve_decision. Defined.

Record attributes := Attributes { at_modified : option N; at_created : option N; at_mode : N }.

Record metadata := Metadata {
  md_type : file_type;
  md_len : N;
  md_attributes : attributes;
}.

Definition md_modified (m : metadata) : option N := at_modified (md_attributes m).
Definition md_created (m : metadata) : option N := at_created (md_attributes m).

(** [metadata.permissions()]: its [mode] and [readonly] bits, and
    [set_readonly]. *)
Definition permissions_mode (m : metadata) : N := at_mode (md_attributes m).
Definition write_bits : N := 146.
Definition mode_readonly (mode : N) : bool := (N.land mode write_bits =? 0)%N.
Definition mode_set_readonly (readonly : bool) (mode : N) : N :=
  if readonly then N.ldiff mode write_bits else N.lor mode write_bits.

Definition is_file (m : metadata) : bool := bool_decide (md_type m = RegularFile).
Definition is_dir (m : metadata) : bool := bool_decide (md_type m = Directory).
Definition is_symlink (m : metadata) : bool := bool_decide (md_type m = Symlink).

Abbreviation io A := (result A io_error).

(** [TryLockError] and [std::process::Output] (its exit status as success). *)
Inductive try_lock_error := WouldBlock | LockError (e : io_error).
Record output := Output { out_success : bool; out_stdout : string; out_stderr : string }.

(** [std::process::ExitStatus] on Unix: the exit code, or [None] when a
    signal ended the process. *)
Abbreviation exit_status := (option N).

(** A reader thread that drains a stream in chunks, as it is found after the
    wait for its completion message: the chunks read, how the wait ended, and
    whether the thread had panicked. *)
Inductive drain_end := Drained | DrainFailed (e : io_error) | DrainTimedOut | DrainDisconnected.
Record drain := Drain { dr_chunks : list string; dr_end : drain_end; dr_panicked : bool }.

(** The calls, each with the type of its answer. *)
Inductive syscall : Set -> Set :=
| SymlinkMetadata (p : string) : syscall (io metadata)
| FollowMetadata (p : string) : syscall (io metadata)
| Canonicalize (p : string) : syscall (io string)
| ReadFile (p : string) : syscall (io string)
| ReadDir (p : string) : syscall (io (list (io string)))
| CreateDir (p : string) : syscall (io unit)
| CreateDirAll (p : string) : syscall (io unit)
| CreateNew (p : string) : syscall (io string)
| WriteAll (handle bytes : string) : syscall (io unit)
| Flush (handle : string) : syscall (io unit)
| SyncAll (handle : string) : syscall (io unit)
| Rename (from to : string) : syscall (io unit)
| RemoveFile (p : string) : syscall (io unit)
| SystemTimeMillis : syscall N
| InstantNow : syscall N
| RandomBytes (n : nat) : syscall (result string string)
| ProcessId : syscall N
| FetchAddCounter : syscall N
| EnvVar (name : string) : syscall (option string)
| OpenRead (p : string) : syscall (io string)
| ReadHandle (handle : string) : syscall (io string)
| OpenCreate (p : string) : syscall (io string)
| TryLock (handle : string) : syscall (result unit try_lock_error)
| Unlock (handle : string) : syscall (io unit)
| CloseFile (handle : string) : syscall unit
| SetPermissions (p : string) (mode : N) : syscall (io unit)
| SystemTime : syscall (result N string)
| FetchAddUnique : syscall N
| RunCommand (program : string) (args : list string) (cwd : string) : syscall (io output)
| HandleMetadata (handle : string) : syscall (io metadata)
| FetchAddNamed (counter : string) : syscall N
| Sleep (nanos : N) : syscall unit
| Spawn (program : string) (args : list string) (cwd : string) (env : list (string * string)) : syscall (io N)
| TryWait (child : N) : syscall (io (option exit_status))
| KillChild (child : N) : syscall (io unit)
| WaitChild (child : N) : syscall (io exit_status)
| DrainStream (child : N) (stream : string) (limit_nanos : N) : syscall drain
| RemoveDir (p : string) : syscall (io unit)
| LoadFlag (flag : string) : syscall bool
| StoreFlag (flag : string) : syscall unit.

(** Calls that only observe.  A command is not one of them: what it does is
    its own affair. *)
Definition observes {R} (c : syscall R) : bool :=
  match c with
  | SymlinkMetadata _ | FollowMetadata _ | Canonicalize _ | ReadFile _ | ReadDir _
  | SystemTimeMillis | InstantNow | ProcessId | EnvVar _ | OpenRead _ | ReadHandle _
  | SystemTime | HandleMetadata _ | LoadFlag _ => true
  | _ => false
  end.

Inductive IO (A : Type) : Type :=
| Ret (a : A)
| Panic (message : string)
| Sys (R : Set) (c : syscall R) (k : R -> IO A).
Arguments Ret {A} a.
Arguments Panic {A} message.
Arguments Sys {A} {R} c k.

Fixpoint bind {A B} (m : IO A) (f : A -> IO B) : IO B :=
  match m with
  | Ret a => f a
  | Panic s => Panic s
  | Sys c k => Sys c (fun r => bind (k r) f)
  end.

Definition sys {R : Set} (c : syscall R) : IO R := Sys c Ret.

(** [?] inside a function that returns a [Result]. *)
Definition try_bind {A B E} (m : IO (result A E)) (f : A -> IO (result B E)) : IO (result B E) :=
  bind m (fun r => match r with Ok a => f a | Err e => Ret (Err e) end).

(** A pure result inside [IO]. *)
Definition lift {A E} (r : result A E) : IO (result A E) := Ret r.

(** [m.map_err(f)] *)
Definition io_map_err {A E F} (f : E -> F) (m : IO (result A E)) : IO (result A F) :=
  bind m (fun r => Ret (map_err f r)).

Declare Scope io_scope.
Delimit Scope io_scope with io.
Notation "x <- m ;; k" := (bind m (fun x => k))
  (at level 100, m at next level, right associativity) : io_scope.
Notation "m ;; k" := (bind m (fun _ => k))
  (at level 100, right associativity) : io_scope.
Notation "x <-? m ;; k" := (try_bind m (fun x => k))
  (at level 100, m at next level, right associativity) : io_scope.
Notation "m ;;? k" := (try_bind m (fun _ => k))
  (at level 100, right associativity) : io_scope.
Notation "'let!' p := m 'in' k" := (bind m (fun x => match x with p => k end))
  (at level 10, p pattern, m at level 100, k at level 200) : io_scope.
Notation "'let!?' p := m 'in' k" := (try_bind m (fun x => match x with p => k end))
  (at level 10, p pattern, m at level 100, k at level 200) : io_scope.
Open Scope io_scope.

(** [path.is_dir()] and [path.exists()]. *)
Definition path_is_dir (path : string) : IO bool :=
  m <- sys (FollowMetadata path) ;;
  Ret (match m with Ok m => is_dir m | Err _ => false end).
Definition path_exists (path : string) : IO bool :=
  m <- sys (FollowMetadata path) ;;
  Ret (is_ok m).

(** ** Every possible answer

    [must m P]: [P] holds of the result whatever the calls answer, as long
    as every answer satisfies [answers].  Theorems leave [answers] open, so
    they hold for the unconstrained world ([any_answer]) as for the answers
    of one given world, and their conclusions can refer to what was
    answered. *)

Class Answers := answers : forall {R : Set}, syscall R -> R -> Prop.

Definition any_answer : Answers := fun _ _ _ => True.

Fixpoint must {An : Answers} {A} (m : IO A) (P : A -> Prop) : Prop :=
  match m with
  | Ret a => P a
  | Panic _ => True
  | Sys c k => forall r, answers c r -> must (k r) P
  end.

(** The program never panics, whatever the answers. *)
Fixpoint no_panic {A} (m : IO A) : Prop :=
  match m with
  | Ret _ => True
  | Panic _ => False
  | Sys c k => forall r, no_panic (k r)
  end.

(** Every call the program can make satisfies [ok]. *)
Fixpoint calls {A} (ok : forall R : Set, syscall R -> Prop) (m : IO A) : Prop :=
  match m with
  | Ret _ | Panic _ => True
  | Sys c k => ok _ c /\ forall r, calls ok (k r)
  end.

Definition read_only {A} (m : IO A) : Prop :=
  calls (fun R c => observes c = true) m.

(** ** Laws *)

Section Laws.
Context {An : Answers} {A B : Type}.

Lemma must_true (m : IO A) (P : A -> Prop) : (forall a, P a) -> must m P.
Proof. induction m; simpl; auto. Qed.

Lemma must_mono (m : IO A) (P Q : A -> Prop) :
  must m P -> (forall a, P a -> Q a) -> must m Q.
Proof. induction m; simpl; auto. Qed.

Lemma must_and (m : IO A) (P Q : A -> Prop) :
  must m P -> must m Q -> must m (fun a => P a /\ Q a).
Proof. induction m; simpl; auto. Qed.

Lemma must_bind (m : IO A) (f : A -> IO B) (P : A -> Prop) (Q : B -> Prop) :
  must m P -> (forall a, P a -> must (f a) Q) -> must (bind m f) Q.
Proof. induction m; simpl; auto. Qed.

Lemma no_panic_bind (m : IO A) (f : A -> IO B) :
  no_panic m -> (forall a, no_panic (f a)) -> no_panic (bind m f).
Proof. induction m; simpl; auto; tauto. Qed.

Lemma no_panic_bind_must (m : IO A) (f : A -> IO B) (P : A -> Prop) :
  no_panic m -> must (An := any_answer) m P -> (forall a, P a -> no_panic (f a)) ->
  no_panic (bind m f).
Proof.
  induction m as [a|s|R c k IH]; simpl; [auto|tauto|].
  intros Hn Hm Hf r. apply IH; [done|by apply Hm|done].
Qed.

Lemma calls_bind ok (m : IO A) (f : A -> IO B) :
  calls ok m -> (forall a, calls ok (f a)) -> calls ok (bind m f).
Proof. induction m; simpl; auto. intros [? ?] ?; split; auto. Qed.

Lemma calls_mono ok ok' (m : IO A) :
  (forall R (c : syscall R), ok R c -> ok' R c) -> calls ok m -> calls ok' m.
Proof. intros Hm. induction m; simpl; auto. intros [? ?]; split; auto. Qed.
End Laws.

Section TryLaws.
Context {An : Answers} {A B E : Type}.

(** Reasoning about [?]: an error is passed on unchanged. *)
Lemma must_try (m : IO (result A E)) (f : A -> IO (result B E))
    (P : A -> Prop) (Q : result B E -> Prop) :
  must m (fun r => match r with Ok a => P a | Err e => Q (Err e) end) ->
  (forall a, P a -> must (f a) Q) -> must (try_bind m f) Q.
Proof.
  intros Hm Hf. unfold try_bind. eapply must_bind; [exact Hm|].
  intros [a|e] H; simpl; auto.
Qed.

Lemma no_panic_try (m : IO (result A E)) (f : A -> IO (result B E)) :
  no_panic m -> (forall a, no_panic (f a)) -> no_panic (try_bind m f).
Proof. intros. apply no_panic_bind; [done|]. intros []; simpl; auto. Qed.

Lemma calls_try ok (m : IO (result A E)) (f : A -> IO (result B E)) :
  calls ok m -> (forall a, calls ok (f a)) -> calls ok (try_bind m f).
Proof. intros. apply calls_bind; [done|]. intros []; simpl; auto. Qed.
End TryLaws.

(** [ok_post Q]: the postcondition that only constrains successes. *)
Definition ok_post {A E} (Q : A -> Prop) (r : result A E) : Prop :=
  match r with Ok a => Q a | Err _ => True end.

Lemma must_try_ok {An : Answers} {A B E} (m : IO (result A E)) (f : A -> IO (result B E))
    (P : A -> Prop) (Q : B -> Prop) :
  must m (ok_post P) -> (forall a, P a -> must (f a) (ok_post Q)) ->
  must (try_bind m f) (ok_post Q).
Proof.
  intros Hm Hf. eapply must_try; [|exact Hf].
  eapply must_mono; [exact Hm|]. intros []; simpl; auto.
Qed.

Lemma no_panic_try_must {A B E} (m : IO (result A E)) (f : A -> IO (result B E)) P :
  no_panic m -> must (An := any_answer) m (ok_post P) -> (forall a, P a -> no_panic (f a)) ->
  no_panic (try_bind m f).
Proof. intros Hn Hm Hf. eapply no_panic_bind_must; [done|exact Hm|]. intros [a|e] Ha; [by apply Hf|done]. Qed.

Lemma must_map_err {An : Answers} {A E F} (g : E -> F) (m : IO (result A E)) (Q : A -> Prop) :
  must m (ok_post Q) -> must (io_map_err g m) (ok_post Q).
Proof. intros H. unfold io_map_err. eapply must_bind; [exact H|]. intros []; simpl; auto. Qed.

(** A check on a pure result. *)
Lemma must_ret_try {An : Answers} {A B E} (r : result A E) (k : A -> IO (result B E)) (Q : B -> Prop) :
  (forall a, r = Ok a -> must (k a) (ok_post Q)) -> must (try_bind (Ret r) k) (ok_post Q).
Proof. intros Hk. destruct r as [a|e]; [by apply Hk|done]. Qed.

Lemma no_panic_ret_try {A B E} (r : result A E) (k : A -> IO (result B E)) :
  (forall a, r = Ok a -> no_panic (k a)) -> no_panic (try_bind (Ret r) k).
Proof. intros Hk. destruct r as [a|e]; [by apply Hk|done]. Qed.

Lemma no_panic_map_err {A E F} (g : E -> F) (m : IO (result A E)) :
  no_panic m -> no_panic (io_map_err g m).
Proof. intros. apply no_panic_bind; simpl; auto. Qed.

Lemma calls_map_err {A E F} ok (g : E -> F) (m : IO (result A E)) :
  calls ok m -> calls ok (io_map_err g m).
Proof. intros. apply calls_bind; simpl; auto. Qed.

Create HintDb io.
#[export] Hint Resolve no_panic_bind no_panic_try no_panic_map_err
  calls_bind calls_try calls_map_err : io.

(** ** Slices of a text, which panic inside a character *)

Local Open Scope string_scope.
Local Open Scope N_scope.

(** [&s[start..end]] *)
Definition slice (s : string) (start end_ : N) : IO string :=
  if (start <=? end_) && is_char_boundary s start && is_char_boundary s end_
  then Ret (take_bytes (N.to_nat (end_ - start)) (drop_bytes (N.to_nat start) s))
  else Panic "byte index is not a char boundary".

(** [&s[start..]] and [&s[..end]] *)
Definition slice_from (s : string) (start : N) : IO string := slice s start (strlen s).
Definition slice_until (s : string) (end_ : N) : IO string := slice s 0 end_.
