(* ===== verification/Secrets.v ===== *)
(** * Secret detection (secrets.rs of the RAG module)

    Seven token patterns, then the lines that assign a value to a key that
    names a credential.  The [regex] crate is not part of the repository: a
    search is the parameter [regex_find]. *)

From stdpp Require Import base list strings.
From Stdlib Require Import NArith Ascii String Lia.
From S2P Require Import Prelude Bytes Text IO.

Local Open Scope string_scope.
Local Open Scope N_scope.

(** [Regex::new(pattern).find(text)]: the byte offset at which the leftmost
    match starts. *)
Class Regex := regex_find : string -> string -> option N.

(** Documented by [regex]: a match starts at a character boundary of the
    text. *)
Class RegexBoundary `{Regex} : Prop :=
  regex_boundary pattern text i : regex_find pattern text = Some i -> is_char_boundary text i = true.

Record RagSecretDetection := {
  sd_rule_id : string;
  sd_category : string;
  sd_line : N;
  sd_column : N;
}.

Definition token_patterns : list (string * string * string) := [
  ("secret.private_key", "private_key", "(?i)-----BEGIN (?:RSA |EC |DSA |OPENSSH )?PRIVATE KEY-----");
  ("secret.github_token", "access_token", "\bgh[pousr]_[A-Za-z0-9]{20,255}\b");
  ("secret.aws_access_key", "access_key", "\bAKIA[0-9A-Z]{16}\b");
  ("secret.openai_token", "access_token", "\bsk-(?:proj-)?[A-Za-z0-9_-]{20,255}\b");
  ("secret.huggingface_token", "access_token", "\bhf_[A-Za-z0-9]{20,255}\b");
  ("secret.gitlab_token", "access_token", "\bglpat-[A-Za-z0-9_-]{20,255}\b");
  ("secret.uri_credentials", "credential", "(?i)\b[a-z][a-z0-9+.-]*://[^/\s:@]+:[^/\s@]+@")].

Definition quotes : ascii -> bool := fun c => Ascii.eqb c (byte 39) || Ascii.eqb c (byte 34).

Definition first_assignment_separator (value : string) : option nat := find_byte (one_of "=:") value.

Definition normalize_assignment_key (value : string) : string :=
  last_part slash
    (map_bytes (fun c => if one_of "-." c then "_"%char else c)
      (to_ascii_lowercase (trim_matches quotes (trim value)))).

Definition credential_keys : list string :=
  ["password"; "passwd"; "pwd"; "secret"; "client_secret"; "api_key"; "apikey"; "token";
   "access_token"; "access_key"; "private_key"; "database_password"; "db_password"].

Definition is_credential_key (key : string) : bool :=
  existsb (String.eqb key) credential_keys || ends_with "_password" key || ends_with "_secret" key
  || ends_with "_token" key || ends_with "_api_key" key.

Definition is_explicitly_non_secret_value (value : string) : bool :=
  let lower := to_ascii_lowercase (trim value) in
  is_empty lower
  || existsb (String.eqb lower) ["null"; "none"; "false"; "true"; "redacted"; "masked"]
  || starts_with "${" value && ends_with "}" value
  || starts_with "{{" value && ends_with "}}" value
  || starts_with "<" value && ends_with ">" value
  || all_bytes (Ascii.eqb "*"%char) value.

(** A line that is empty or starts as a comment assigns nothing. *)
Definition ignored_line (trimmed : string) : bool :=
  is_empty trimmed || starts_with "#" trimmed || starts_with "//" trimmed || starts_with "*" trimmed.

(** The key and the value of an assignment, and the byte of the
    separator. *)
Definition assignment_of (trimmed : string) : option (string * string * nat) :=
  match first_assignment_separator trimmed with
  | None => None
  | Some i =>
      Some (normalize_assignment_key (take_bytes i trimmed),
            trim_matches quotes (trim (trim_end_matches (one_of ",") (trim (drop_bytes (S i) trimmed)))),
            i)
  end.

Definition credential_line (line : string) : option nat :=
  let trimmed := trim line in
  if ignored_line trimmed then None else
  match assignment_of trimmed with
  | Some (key, value, i) =>
      if is_credential_key key && negb (is_explicitly_non_secret_value value) then Some i else None
  | None => None
  end.

Fixpoint detect_assignment_from (line_index : N) (ls : list string) : option RagSecretDetection :=
  match ls with
  | [] => None
  | line :: ls' =>
      match credential_line line with
      | Some i => Some {|
          sd_rule_id := "secret.credential_assignment";
          sd_category := "credential";
          sd_line := N.min (line_index + 1) u32_max;
          sd_column := N.min (N.of_nat i + 2) u32_max |}
      | None => detect_assignment_from (line_index + 1) ls'
      end
  end.

Definition detect_credential_assignment (content : string) : option RagSecretDetection :=
  detect_assignment_from 0 (lines content).

(** The line and the column, in characters, of a byte offset; the slice
    panics inside a character. *)
Definition bounded_position (content : string) (byte_offset : N) : IO (N * N) :=
  match slice_to content (N.min byte_offset (strlen content)) with
  | None => Panic "byte index is not a char boundary"
  | Some prefix =>
      let line := count_byte line_feed prefix + 1 in
      let column := match rsplit_once line_feed prefix with
                    | Some (_, tail_) => char_count tail_ + 1
                    | None => char_count prefix + 1
                    end in
      Ret (N.min line u32_max, N.min column u32_max)
  end.

Section Detection.
Context `{Regex}.

Fixpoint detect_token (patterns : list (string * string * string)) (content : string)
    : IO (option RagSecretDetection) :=
  match patterns with
  | [] => Ret (detect_credential_assignment content)
  | (rule_id, category, pattern) :: patterns' =>
      match regex_find pattern content with
      | None => detect_token patterns' content
      | Some start =>
          let! (line, column) := bounded_position content start in
          Ret (Some {| sd_rule_id := rule_id; sd_category := category; sd_line := line; sd_column := column |})
      end
  end.

Definition detect_secret (content : string) : IO (option RagSecretDetection) :=
  detect_token token_patterns content.

(** [inspect_sensitive_text] (reference.rs) renames the record. *)
Definition inspect_sensitive_text (content : string) : IO (option RagSecretDetection) := detect_secret content.
End Detection.

(** [secret_rule_descriptors]: rule, category and the decision "exclude". *)
Definition secret_rule_descriptors : list (string * string * string) :=
  map (fun '(rule_id, category) => (rule_id, category, "exclude"))
    [("secret.private_key", "private_key"); ("secret.github_token", "access_token");
     ("secret.aws_access_key", "access_key"); ("secret.openai_token", "access_token");
     ("secret.huggingface_token", "access_token"); ("secret.gitlab_token", "access_token");
     ("secret.uri_credentials", "credential"); ("secret.credential_assignment", "credential")].

(** ** Laws *)

Section Laws.
Context `{RegexBoundary}.

Lemma strlen_boundary s : is_char_boundary s (strlen s) = true.
Proof. unfold is_char_boundary. by rewrite N.eqb_refl, orb_true_r. Qed.

Lemma bounded_position_total content i :
  is_char_boundary content i = true ->
  exists line column, bounded_position content i = Ret (line, column) /\ 1 <= line <= u32_max /\ 1 <= column <= u32_max.
Proof.
  intros Hb. unfold bounded_position, slice_to.
  assert (is_char_boundary content (N.min i (strlen content)) = true) as ->
    by (destruct (N.min_spec i (strlen content)) as [[_ ->]|[_ ->]]; [done|apply strlen_boundary]).
  eexists _, _. split; [reflexivity|]. unfold u32_max.
  split; [lia|]. destruct (rsplit_once _ _) as [[]|]; lia.
Qed.

(** Detection is total: it answers, and a position it reports is one-based
    and fits [u32]. *)
Lemma detect_secret_total content :
  exists found, detect_secret content = Ret found /\
    forall d, found = Some d -> 1 <= sd_line d <= u32_max /\ 1 <= sd_column d <= u32_max.
Proof.
  unfold detect_secret. induction token_patterns as [|[[rule category] pattern] patterns IH]; simpl.
  - eexists. split; [reflexivity|]. unfold detect_credential_assignment. generalize 0.
    induction (lines content) as [|line ls IH]; intros n d; simpl; [done|].
    destruct (credential_line line); [|apply IH]. intros [= <-]. simpl. unfold u32_max. lia.
  - destruct (regex_find pattern content) as [i|] eqn:E; [|exact IH].
    apply regex_boundary in E. destruct (bounded_position_total content i E) as (l & c & -> & ? & ?).
    eexists. split; [reflexivity|]. by intros d [= <-].
Qed.
End Laws.

(** ** What the assignment rule catches *)

Lemma detect_assignment_none n ls :
  detect_assignment_from n ls = None <-> Forall (fun line => credential_line line = None) ls.
Proof.
  revert n. induction ls as [|line ls IH]; intros n; simpl; [by split|].
  destruct (credential_line line) eqn:E.
  - split; [done|]. intros Hf. by apply Forall_inv in Hf; rewrite E in Hf.
  - rewrite IH. split; [by constructor|]. intros Hf. by inversion Hf.
Qed.

Example password_line : is_some (credential_line "  db.password = 'hunter2',") = true.
Proof. vm_compute. reflexivity. Qed.
Example placeholder_line : credential_line "password: ${DB_PASSWORD}" = None.
Proof. vm_compute. reflexivity. Qed.
Example comment_line : credential_line "# token = abc" = None.
Proof. vm_compute. reflexivity. Qed.
