(* ===== verification/Anyhow.v ===== *)
(** * [anyhow::Error] in the tools crate

    The error type of [opticcode-tools]: a chain of messages, outermost
    first, and the typed error at its root, when there is one.  [bail!],
    [context] and the [?] conversions build it; [{error:#}] and
    [downcast_ref] read it.  The policy crate's reading of the same type,
    which needs less of it, is in AuditLog.v.  The second part is the state
    monad of the closures that a run is given. *)

From stdpp Require Import base list strings.
From Stdlib Require Import NArith String.
From S2P Require Import Prelude Bytes IO.

Local Open Scope string_scope.

(** [ApplyTransactionErrorKind] (apply_transaction.rs). *)
Inductive ApplyTransactionErrorKind := Precondition | Collision | InvalidTransaction | Io.
#[export] Instance ApplyTransactionErrorKind_eq_dec : EqDecision ApplyTransactionErrorKind.
Proof. solve_decision. Defined.

(** [WorktreeOperationErrorKind] (worktree.rs). *)
Inductive WorktreeOperationErrorKind := WtPrecondition | InvalidRunId | WtGit | WtStorage.
#[export] Instance WorktreeOperationErrorKind_eq_dec : EqDecision WorktreeOperationErrorKind.
Proof. solve_decision. Defined.

(** The typed errors of the crate that code downcasts to. *)
Inductive payload :=
| Untyped
| TransactionError (kind : ApplyTransactionErrorKind)
| WorktreeError (kind : WorktreeOperationErrorKind).

Record anyhow := Anyhow { chain : list string; root_cause : payload }.
Abbreviation res A := (result A anyhow).

(** [anyhow!(message)] *)
Definition failure (message : string) : anyhow := Anyhow [message] Untyped.
Definition bail {A} (message : string) : res A := Err (failure message).

(** [.context(message)] / [.with_context(..)] *)
Definition with_context (message : string) (e : anyhow) : anyhow :=
  Anyhow (message :: chain e) (root_cause e).

(** [error.to_string()] and [format!("{error:#}")] *)
Definition to_string (e : anyhow) : string := default "" (head (chain e)).
Definition alternate (e : anyhow) : string := join_with ": " (chain e).

(** [?] on [std::io::Result]. *)
Definition of_io (e : io_error) : anyhow := failure (io_error_display e).
Definition io_call {A : Set} (c : syscall (result A io_error)) : IO (res A) :=
  io_map_err of_io (sys c).
Definition io_context {A : Set} (message : string) (c : syscall (result A io_error)) : IO (res A) :=
  io_map_err (with_context message) (io_call c).

(** [path.display()], [value.display().to_string()] *)
Definition display (p : string) : string := to_string_lossy p.

(** ** [String::from_utf8]

    The error's text names the length of the valid prefix and, unless the
    input only stops in the middle of a character, that of the offending
    sequence. *)
Fixpoint utf8_error_from (at_byte : N) (cs : list (bool * string)) : option (N * string * bool) :=
  match cs with
  | [] => None
  | (true, c) :: cs' => utf8_error_from (at_byte + strlen c) cs'
  | (false, c) :: cs' => Some (at_byte, c, match cs' with [] => true | _ => false end)
  end.

(** A last ill-formed sequence that a longer input could complete: it is
    well formed once continuation bytes are added. *)
Definition completable (c : string) : bool :=
  existsb (fun k => utf8_valid (c ++ k))
    [String (byte 128) ""; String (byte 128) (String (byte 128) "");
     String (byte 128) (String (byte 128) (String (byte 128) ""));
     String (byte 144) (String (byte 128) (String (byte 128) "")); String (byte 160) (String (byte 128) "")].

Definition from_utf8_error (s : string) : option string :=
  match utf8_error_from 0 (utf8_chars s) with
  | None => None
  | Some (up_to, c, last) =>
      Some (if last && completable c
            then "incomplete utf-8 byte sequence from index " ++ dec up_to
            else "invalid utf-8 sequence of " ++ dec (strlen c) ++ " bytes from index " ++ dec up_to)
  end.

(** [String::from_utf8(bytes).with_context(message)] *)
Definition from_utf8 (message s : string) : res string :=
  match from_utf8_error s with
  | None => Ok s
  | Some e => Err (with_context message (failure e))
  end.

(** ** Laws *)

Lemma utf8_error_none at_byte cs : utf8_error_from at_byte cs = None <-> forallb fst cs = true.
Proof.
  revert at_byte. induction cs as [|[[] c] cs IH]; intros at_byte; simpl; [done|apply IH|done].
Qed.

Lemma from_utf8_ok message s r : from_utf8 message s = Ok r <-> utf8_valid s = true /\ r = s.
Proof.
  unfold from_utf8, from_utf8_error, utf8_valid.
  destruct (utf8_error_from 0 (utf8_chars s)) as [[[]]|] eqn:E.
  - split; [done|]. intros [Hv _]. rewrite <- (utf8_error_none 0) in Hv. congruence.
  - rewrite (utf8_error_none 0) in E. rewrite E. naive_solver.
Qed.

(** A string of ASCII bytes is valid, character by byte. *)
Lemma concat_app (l k : list string) :
  String.concat "" (l ++ k)%list = String.concat "" l ++ String.concat "" k.
Proof.
  induction l as [|x l IH]; [done|]. destruct l as [|y l].
  - destruct k; simpl; [|done]. induction x as [|c x IHx]; [done|]. rewrite append_cons. by rewrite <- IHx.
  - change (String.concat "" ((x :: y :: l) ++ k)%list) with (x ++ "" ++ String.concat "" ((y :: l) ++ k)%list).
    rewrite IH. change (String.concat "" (x :: y :: l)) with (x ++ "" ++ String.concat "" (y :: l)).
    by rewrite !append_nil, append_assoc.
Qed.

Lemma utf8_step_pos c s : (1 <= fst (utf8_step (String c s)))%nat.
Proof.
  unfold utf8_step. destruct (byte_n c <? 128)%N; [done|].
  destruct (utf8_lead c) as [[[]]|]; [|done]. destruct s; [done|].
  destruct (in_range _ _ _); [|done]. destruct (conts _ _). simpl. lia.
Qed.

Lemma length_drop_bytes n s : String.length (drop_bytes n s) = (String.length s - n)%nat.
Proof. revert s. induction n; intros []; simpl; auto. Qed.

(** The characters make up the string. *)
Lemma concat_cons x l : String.concat "" (x :: l) = x ++ String.concat "" l.
Proof. exact (concat_app [x] l). Qed.

Lemma utf8_chars_concat_fuel fuel s :
  (String.length s <= fuel)%nat -> String.concat "" (map snd (utf8_chars_fuel fuel s)) = s.
Proof.
  revert s. induction fuel as [|fuel IH]; intros s Hf; [by destruct s; simpl in Hf; [|lia]|].
  destruct s as [|c s]; [done|]. cbn [utf8_chars_fuel].
  pose proof (utf8_step_pos c s) as Hp. destruct (utf8_step (String c s)) as [n ok] eqn:E.
  cbn [map snd fst] in *. rewrite concat_cons, IH.
  - apply app_take_drop_bytes.
  - rewrite length_drop_bytes. simpl in *. lia.
Qed.

Lemma to_string_lossy_valid s : utf8_valid s = true -> to_string_lossy s = s.
Proof.
  unfold utf8_valid, to_string_lossy. intros Hv.
  rewrite <- (utf8_chars_concat_fuel (String.length s) s) at 2 by done. fold (utf8_chars s). f_equal.
  induction (utf8_chars s) as [|[ok c] cs IH]; [done|]. simpl in *. destruct ok; [|done].
  f_equal. auto.
Qed.

Lemma display_valid p : utf8_valid p = true -> display p = p.
Proof. apply to_string_lossy_valid. Qed.

(** * Closures that share captured state

    A closure that captures variables by reference (a [RefCell], a mutable
    borrow) and can fail with [?] is a program that takes the captured state
    and returns it with its result; the state survives a failure. *)

Local Close Scope string_scope.

Definition stage (S A : Type) : Type := S -> IO (S * res A).

Definition stage_ret {S A} (r : res A) : stage S A := fun s => Ret (s, r).
Definition stage_io {S A} (m : IO (res A)) : stage S A := fun s => r <- m ;; Ret (s, r).
Definition stage_modify {S} (f : S -> S) : stage S unit := fun s => Ret (f s, Ok tt).
Definition stage_bind {S A B} (m : stage S A) (k : A -> stage S B) : stage S B := fun s =>
  bind (m s) (fun p => match p with
                       | (s', Ok a) => k a s'
                       | (s', Err e) => Ret (s', Err e)
                       end).
(** The result of a stage as a value: [match m() { Ok(..) => .., Err(..) => .. }]. *)
Definition stage_try {S A} (m : stage S A) : stage S (res A) := fun s =>
  bind (m s) (fun p => Ret (p.1, Ok p.2)).

Declare Scope stage_scope.
Delimit Scope stage_scope with stage.
Notation "x <-! m ;; k" := (stage_bind m (fun x => k))
  (at level 100, m at next level, right associativity) : stage_scope.
Notation "m ;;! k" := (stage_bind m (fun _ => k))
  (at level 100, right associativity) : stage_scope.
Open Scope stage_scope.

(** [for x in l { f(x)?; }] *)
Fixpoint stage_each {S A} (f : A -> stage S unit) (l : list A) : stage S unit :=
  match l with
  | [] => stage_ret (Ok tt)
  | x :: l' => f x ;;! stage_each f l'
  end.

(** ** Laws *)

Section Laws.
Context {An : Answers} {S : Type}.

Lemma must_stage_bind {A B} (m : stage S A) (k : A -> stage S B) s (P : A -> S -> Prop) (Q : S * res B -> Prop) :
  must (m s) (fun p => match p.2 with Ok a => P a p.1 | Err e => Q (p.1, Err e) end) ->
  (forall a s', P a s' -> must (k a s') Q) -> must (stage_bind m k s) Q.
Proof.
  intros Hm Hk. unfold stage_bind. eapply must_bind; [exact Hm|]. intros [s' [a|e]] Hp; simpl in *; [by apply Hk|done].
Qed.

Lemma must_stage_io {A} (m : IO (res A)) s (Q : S * res A -> Prop) :
  must m (fun r => Q (s, r)) -> must (stage_io m s) Q.
Proof. intros Hm. unfold stage_io. eapply must_bind; [exact Hm|]. by intros r Hr. Qed.

(** A relation between the captured states that every stage respects is
    respected by their sequence. *)
Definition respects {A} (R : S -> S -> Prop) (m : stage S A) : Prop := forall s, must (m s) (fun p => R s p.1).

Context (R : S -> S -> Prop) `{!PreOrder R}.

Lemma respects_ret {A} (r : res A) : respects R (stage_ret r).
Proof. intros s. simpl. reflexivity. Qed.

Lemma respects_io {A} (m : IO (res A)) : respects R (stage_io m).
Proof. intros s. apply must_stage_io, must_true. intros r. simpl. reflexivity. Qed.

Lemma respects_bind {A B} (m : stage S A) (k : A -> stage S B) :
  respects R m -> (forall a, respects R (k a)) -> respects R (stage_bind m k).
Proof.
  intros Hm Hk s. unfold stage_bind. eapply must_bind; [apply Hm|]. intros [s' [a|e]] Hs; simpl in *; [|done].
  eapply must_mono; [apply Hk|]. intros p Hp. by etransitivity.
Qed.

Lemma respects_each {A} (f : A -> stage S unit) l : (forall a, respects R (f a)) -> respects R (stage_each f l).
Proof. intros Hf. induction l as [|x l IH]; [apply respects_ret|]. apply respects_bind; auto. Qed.
End Laws.
