(* ===== verification/TextFacts.v ===== *)
(** * Ordered maps, lists and UTF-8 texts: lemmas

    A [BTreeMap] built by insertion has strictly ascending keys and maps a
    key to the result of its last update; a valid UTF-8 text is a sequence of
    characters of at most four bytes, and is cut at its boundaries. *)

From stdpp Require Import base list strings sorting sets pretty.
From Stdlib Require Import NArith Ascii String Sorted Lia.
From S2P Require Import Prelude Bytes Text Anyhow.

Local Open Scope string_scope.
Local Open Scope N_scope.

Section MapUpdate.
Context {V : Type}.

(** Updating a map with strictly ascending keys keeps them so, and changes
    the value of one key. *)
Lemma map_update_keys k f (m : list (string * V)) j :
  j ∈ map fst (map_update k f m) <-> j = k \/ j ∈ map fst m.
Proof.
  induction m as [|[k' v] m IH]; simpl; [set_solver|].
  destruct (str_cmp k k') eqn:E; simpl; [|set_solver..].
  apply (cmp_eq (cmp:=str_cmp)) in E. subst. set_solver.
Qed.

Lemma map_update_sorted k f (m : list (string * V)) :
  StronglySorted str_lt_prop (map fst m) -> StronglySorted str_lt_prop (map fst (map_update k f m)).
Proof.
  induction m as [|[k' v] m IH]; simpl; intros Hs; [by repeat constructor|].
  inversion Hs as [|?? Hs' Hk]; subst. rewrite Forall_forall in Hk.
  destruct (str_cmp k k') eqn:E; simpl; [exact Hs| |].
  - constructor; [exact Hs|]. assert (str_lt_prop k k') as Hlt by (unfold str_lt_prop, str_lt; by rewrite E).
    apply Forall_cons. split; [exact Hlt|]. apply Forall_forall. intros j Hj. etransitivity; [exact Hlt|by apply Hk].
  - constructor; [by apply IH|]. apply Forall_forall. intros j [->|Hj]%map_update_keys; [|by apply Hk].
    rewrite (cmp_opp (cmp:=str_cmp) k' k) in E. unfold str_lt_prop, str_lt. by destruct (str_cmp k' k).
Qed.

Lemma map_update_entries k f (m : list (string * V)) (P : string * V -> Prop) :
  Forall P m -> (forall o, (forall v, o = Some v -> P (k, v)) -> P (k, f o)) -> Forall P (map_update k f m).
Proof.
  intros Hm Hf. induction Hm as [|[k' v] m Hv Hm IH]; simpl; [by constructor; [apply Hf|]|].
  destruct (str_cmp k k') eqn:E.
  - apply (cmp_eq (cmp:=str_cmp)) in E. subst. constructor; [|done]. apply Hf. by intros ? [= <-].
  - constructor; [by apply Hf|]. by constructor.
  - by constructor.
Qed.

Lemma map_update_length k f (m : list (string * V)) :
  (List.length (map_update k f m) <= S (List.length m))%nat.
Proof. induction m as [|[k' v] m IH]; simpl; [done|]. destruct (str_cmp k k'); simpl; lia. Qed.
End MapUpdate.

Lemma filter_snoc {A} (f : A -> bool) l x : List.filter f (l ++ [x])%list = (List.filter f l ++ (if f x then [x] else []))%list.
Proof. induction l as [|y l IH]; simpl; [by destruct (f x)|]. rewrite IH. by destruct (f y). Qed.

Lemma map_update_lookup {V} k f (m : list (string * V)) j v :
  StronglySorted str_lt_prop (map fst m) ->
  (j, v) ∈ map_update k f m <->
  (j <> k /\ (j, v) ∈ m) \/ (j = k /\ v = f (map_get k m)).
Proof.
  induction m as [|[k' v'] m IH]; intros Hs; simpl.
  { rewrite list_elem_of_singleton. split; [intros [= -> ->]; by right|]. intros [[? ?%elem_of_nil]|[-> ->]]; done. }
  simpl in Hs. inversion Hs as [|?? Hs' Hk]; subst. rewrite Forall_forall in Hk.
  destruct (str_cmp k k') eqn:E.
  - apply (cmp_eq (cmp:=str_cmp)) in E. subst. rewrite String.eqb_refl, !elem_of_cons. split.
    + intros [[= -> ->]|Hin]; [by right|left]. split; [|by right]. intros ->.
      apply (slt_irrefl k'), str_lt_iff, Hk. by apply (list_elem_of_fmap_2 fst) in Hin.
    + intros [[Hne [[= -> ->]|Hin]]|[-> ->]]; [done|by right|by left].
  - assert ((k =? k')%string = false) as Hne.
    { apply String.eqb_neq. intros ->. by rewrite str_cmp_refl in E. }
    rewrite Hne, !elem_of_cons.
    assert (k ∉ map fst ((k', v') :: m)) as Hk'.
    { simpl. rewrite elem_of_cons. intros [->|Hin]; [by rewrite str_cmp_refl in E|].
      apply (slt_irrefl k), (slt_trans k k' k); [apply str_lt_iff; unfold str_lt; by rewrite E|by apply str_lt_iff, Hk]. }
    assert (map_get k m = None) as ->.
    { clear -Hk'. simpl in Hk'. induction m as [|[i w] m IH]; [done|]. simpl in *.
      destruct (String.eqb_spec k i); set_solver. }
    split; [intros [[= -> ->]|Hin]; [by right|left; split; [|done]]|intros [[_ Hin]|[-> ->]]; [by right|by left]].
    intros ->. apply Hk'. destruct Hin as [[= -> ->]|Hin]; [by left|]. right. by apply (list_elem_of_fmap_2 fst) in Hin.
  - assert ((k =? k')%string = false) as Hne.
    { apply String.eqb_neq. intros ->. by rewrite str_cmp_refl in E. }
    rewrite Hne, !elem_of_cons, IH by done. split.
    + intros [[= -> ->]|[[? ?]|?]]; [left; split; [intros ->; by rewrite String.eqb_refl in Hne|by left]|left; split; [done|by right]|by right].
    + intros [[? [?|?]]|?]; [by left|right; by left|right; by right].
Qed.

Lemma map_get_iff {V} (m : list (string * V)) k v :
  StronglySorted str_lt_prop (map fst m) -> map_get k m = Some v <-> (k, v) ∈ m.
Proof.
  induction m as [|[k' v'] m IH]; intros Hs; simpl; [set_solver|].
  simpl in Hs. inversion Hs as [|?? Hs' Hk]; subst. rewrite Forall_forall in Hk. rewrite elem_of_cons.
  destruct (String.eqb_spec k k') as [->|Hne].
  - split; [intros [= ->]; by left|]. intros [[= ->]|Hin]; [done|]. exfalso.
    apply (slt_irrefl k'), str_lt_iff, Hk. by apply (list_elem_of_fmap_2 fst) in Hin.
  - rewrite IH by done. split; [by right|]. intros [[= -> ->]|?]; done.
Qed.

Lemma map_get_none {V} (m : list (string * V)) k : map_get k m = None <-> k ∉ map fst m.
Proof.
  induction m as [|[k' v'] m IH]; simpl; [set_solver|]. destruct (String.eqb_spec k k') as [->|Hne]; [set_solver|].
  rewrite IH. set_solver.
Qed.

(** ** Sums *)

Definition sum_N (l : list N) : N := foldr N.add 0 l.

Lemma sum_N_app l k : sum_N (l ++ k)%list = sum_N l + sum_N k.
Proof. induction l; simpl; [done|]. rewrite IHl. lia. Qed.

#[export] Instance sum_N_perm : Proper ((≡ₚ) ==> eq) sum_N.
Proof. induction 1; simpl; lia. Qed.

(** Updating an association of lists by appending one element. *)
Lemma map_update_concat {V} k (x : V) (m : list (string * list V)) :
  mjoin (map snd (map_update k (fun o => default [] o ++ [x])%list m)) ≡ₚ x :: mjoin (map snd m).
Proof.
  induction m as [|[k' v] m IH]; simpl; [done|]. destruct (str_cmp k k'); simpl.
  - rewrite <- app_assoc. simpl. symmetry. apply Permutation_middle.
  - done.
  - rewrite IH. symmetry. apply Permutation_middle.
Qed.

(** ** Sets built by insertion *)

Lemma set_insert_some x l k : set_insert x l = Some k <-> (x ∉ l) /\ k = sort_insert str_cmp x l.
Proof.
  unfold set_insert. destruct (existsb (String.eqb x) l) eqn:E.
  - split; [done|]. intros [Hx _]. apply existsb_exists in E as (y & Hy & ->%String.eqb_eq).
    by apply list_elem_of_In in Hy.
  - split; [intros [= <-]; split; [|done]|by intros [_ ->]]. intros Hx.
    assert (existsb (String.eqb x) l = true) by (apply existsb_exists; exists x; rewrite String.eqb_refl; split; [by apply list_elem_of_In|done]).
    congruence.
Qed.

Lemma set_contains_iff l x : set_contains l x = true <-> x ∈ l.
Proof.
  unfold set_contains. rewrite existsb_exists. split.
  - intros (y & Hy & ->%String.eqb_eq). by apply list_elem_of_In.
  - intros Hx. exists x. rewrite String.eqb_refl. split; [by apply list_elem_of_In|done].
Qed.

(** ** Sorting twice *)

Lemma sort_insert_least {A} (cmp : A -> A -> comparison) x l :
  Forall (cmp_le cmp x) l -> sort_insert cmp x l = x :: l.
Proof. destruct 1 as [|y l Hy _]; simpl; [done|]. unfold cmp_le in Hy. by destruct (cmp x y). Qed.

Lemma sort_by_id {A} (cmp : A -> A -> comparison) l :
  StronglySorted (cmp_le cmp) l -> sort_by cmp l = l.
Proof.
  induction 1 as [|x l Hs IH Hx]; [done|]. cbn [sort_by foldr]. fold (sort_by cmp l). rewrite IH.
  by apply sort_insert_least.
Qed.

Lemma sort_by_idem {A} (cmp : A -> A -> comparison) `{!TotalCmp cmp} l : sort_by cmp (sort_by cmp l) = sort_by cmp l.
Proof. by apply sort_by_id, sort_by_sorted. Qed.

(** Elements that compare equal only when they are equal: the sorted form
    is that of every permutation. *)
Lemma sort_by_same {A} (cmp : A -> A -> comparison) `{!TotalCmp cmp} l k :
  (forall x y, x ∈ l -> y ∈ l -> cmp_le cmp x y -> cmp_le cmp y x -> x = y) ->
  l ≡ₚ k -> sort_by cmp l = sort_by cmp k.
Proof.
  intros Ha Hp. eapply (StronglySorted_unique_strong (cmp_le cmp)).
  - intros x y Hx Hy. rewrite sort_by_perm in Hx, Hy. rewrite <- Hp in Hy. by apply Ha.
  - by apply sort_by_sorted.
  - by apply sort_by_sorted.
  - by rewrite !sort_by_perm.
Qed.

Lemma linear_antisymm {A} (cmp : A -> A -> comparison) `{!LinearCmp cmp} x y :
  cmp_le cmp x y -> cmp_le cmp y x -> x = y.
Proof.
  unfold cmp_le. intros Hxy Hyx. destruct (cmp x y) eqn:E; [by apply cmp_eq in E| |done].
  rewrite (cmp_opp x y), E in Hyx. done.
Qed.

(** [BTreeSet::from_iter] keeps every element once. *)
Lemma remove_dups_le {A} `{EqDecision A} (l : list A) : (List.length (remove_dups l) <= List.length l)%nat.
Proof. induction l as [|x l IH]; simpl; [done|]. case_decide; simpl; lia. Qed.

Lemma btree_set_full {A} `{EqDecision A} (l : list A) :
  List.length (btree_set l) = List.length l <-> NoDup l.
Proof.
  unfold btree_set. split.
  - induction l as [|x l IH]; simpl; intros E; [constructor|]. pose proof (remove_dups_le l).
    case_decide as Hx; simpl in E; [lia|]. constructor; [done|]. apply IH. lia.
  - induction 1 as [|x l Hx Hn IH]; simpl; [done|]. case_decide; [done|]. simpl. by rewrite IH.
Qed.

Lemma elem_of_btree_set {A} `{EqDecision A} (l : list A) x : x ∈ btree_set l <-> x ∈ l.
Proof. apply elem_of_remove_dups. Qed.

Lemma map_get_member {V} (m : list (string * V)) k v : map_get k m = Some v -> (k, v) ∈ m.
Proof.
  induction m as [|[k' v'] m IH]; simpl; [done|]. destruct (String.eqb_spec k k') as [->|_].
  - intros [= ->]. left.
  - intros Hm. right. by apply IH.
Qed.

(** ** Numbers *)

(** A character that is no digit does not occur in a number. *)
Lemma dec_free c n : is_ascii_digit c = false -> any_byte (Ascii.eqb c) (dec n) = false.
Proof.
  intros Hc. assert (forall k, Ascii.eqb c (pretty_N_char k) = false) as Hd.
  { intros k. apply Ascii.eqb_neq. intros ->. unfold pretty_N_char in Hc. repeat case_match; by vm_compute in Hc. }
  assert (forall m s, any_byte (Ascii.eqb c) s = false -> any_byte (Ascii.eqb c) (pretty_N_go m s) = false) as Hgo.
  { intros m. induction (N.lt_wf_0 m) as [m _ IH]. intros s Hs.
    destruct (decide (m = 0)) as [->|]; [done|]. rewrite pretty_N_go_step by lia.
    apply IH; [apply N.div_lt; lia|]. cbn [any_byte]. by rewrite Hd, Hs. }
  unfold dec, pretty, pretty_N. destruct (decide (n = 0)); [|by apply Hgo].
  cbn [any_byte]. rewrite orb_false_r. apply Ascii.eqb_neq. by intros ->.
Qed.

Lemma rsplit_once_app c a b :
  any_byte (Ascii.eqb c) b = false -> rsplit_once c (a ++ String c b)%string = Some (a, b).
Proof.
  intros Hb. assert (rsplit_once c b = None) as Hn.
  { induction b as [|d b IH]; [done|]. cbn [any_byte rsplit_once] in *. split_bools. rewrite IH by done.
    by destruct (Ascii.eqb c d). }
  induction a as [|d a IH].
  - rewrite append_nil. cbn [rsplit_once]. by rewrite Hn, Ascii.eqb_refl.
  - rewrite append_cons. cbn [rsplit_once]. by rewrite IH.
Qed.

(** * UTF-8: concatenation and character boundaries

    A text is valid when it is a sequence of well-formed characters; valid
    texts concatenate, and a valid text cut at a character boundary falls
    into two valid texts. *)

(** ** Cutting strings *)

Lemma take_bytes_0 s : take_bytes 0 s = "".
Proof. by destruct s. Qed.

Lemma take_bytes_all n s : (String.length s <= n)%nat -> take_bytes n s = s.
Proof. revert s. induction n; intros [|c s]; simpl; try done; [lia|]. intros. f_equal. apply IHn. lia. Qed.

Lemma drop_bytes_all n s : (String.length s <= n)%nat -> drop_bytes n s = "".
Proof. revert s. induction n; intros [|c s]; simpl; try done; [lia|]. intros. apply IHn. lia. Qed.

Lemma take_bytes_app_le n s t : (n <= String.length s)%nat -> take_bytes n (s ++ t) = take_bytes n s.
Proof.
  revert s. induction n; intros [|c s] Hn; try rewrite append_cons; simpl in *; try done; try lia.
  f_equal. apply IHn. lia.
Qed.

Lemma drop_bytes_app_le n s t : (n <= String.length s)%nat -> drop_bytes n (s ++ t) = drop_bytes n s ++ t.
Proof.
  revert s. induction n; intros [|c s] Hn; try rewrite append_cons; simpl in *; try done; try lia.
  apply IHn. lia.
Qed.

Lemma drop_bytes_app_all s t : drop_bytes (String.length s) (s ++ t) = t.
Proof. induction s; [done|]. rewrite append_cons. done. Qed.

Lemma take_take_bytes n m s : (n <= m)%nat -> take_bytes n (take_bytes m s) = take_bytes n s.
Proof. revert m s. induction n; intros [|m] [|c s] Hn; simpl; try done; [lia|]. f_equal. apply IHn. lia. Qed.

Lemma drop_drop_bytes n m s : drop_bytes n (drop_bytes m s) = drop_bytes (n + m) s.
Proof.
  revert s. induction m; intros s; [by rewrite Nat.add_0_r|]. rewrite Nat.add_succ_r. simpl.
  destruct s; [by destruct n|]. apply IHm.
Qed.

Lemma drop_take_bytes i k s : drop_bytes i (take_bytes (i + k) s) = take_bytes k (drop_bytes i s).
Proof. revert s. induction i; intros [|c s]; simpl; try done. by destruct k. Qed.

(** ** Validity *)

Lemma utf8_chars_fuel_irrel f g s :
  (String.length s <= f)%nat -> (String.length s <= g)%nat -> utf8_chars_fuel f s = utf8_chars_fuel g s.
Proof.
  revert g s. induction f as [|f IH]; intros [|g] [|c s] Hf Hg; simpl in Hf, Hg; try done; [lia|lia|].
  cbn [utf8_chars_fuel]. pose proof (utf8_step_pos c s) as Hp. destruct (utf8_step (String c s)) as [n ok].
  f_equal. simpl in Hp. apply IH; rewrite length_drop_bytes; simpl; lia.
Qed.

Lemma utf8_chars_cons c s :
  utf8_chars (String c s)
  = (snd (utf8_step (String c s)), take_bytes (fst (utf8_step (String c s))) (String c s))
    :: utf8_chars (drop_bytes (fst (utf8_step (String c s))) (String c s)).
Proof.
  unfold utf8_chars at 1. cbn [String.length utf8_chars_fuel].
  pose proof (utf8_step_pos c s) as Hp. destruct (utf8_step (String c s)) as [n ok]. cbn [fst snd].
  f_equal. simpl in Hp. apply utf8_chars_fuel_irrel; rewrite ?length_drop_bytes; simpl; lia.
Qed.

Lemma utf8_valid_cons c s :
  utf8_valid (String c s)
  = snd (utf8_step (String c s)) && utf8_valid (drop_bytes (fst (utf8_step (String c s))) (String c s)).
Proof. unfold utf8_valid. by rewrite utf8_chars_cons. Qed.

Lemma conts_ok k s n : conts k s = (n, true) -> n = k /\ (k <= String.length s)%nat.
Proof.
  revert s n. induction k as [|k IH]; intros [|c s] n; simpl; try done; [intros [= <-]; lia..|].
  destruct (is_cont c); [|done]. destruct (conts k s) as [m ok] eqn:E. intros [= <- ->].
  apply IH in E as [-> ?]. lia.
Qed.

(** The bytes of a string all continue a character. *)
Definition all_cont (s : string) : bool := all_bytes is_cont s.

Lemma conts_cont k s n : conts k s = (n, true) -> all_cont (take_bytes k s) = true.
Proof.
  revert s n. induction k as [|k IH]; intros [|c s] n; simpl; try done. unfold all_cont in *. cbn [all_bytes].
  destruct (is_cont c); [|done]. destruct (conts k s) as [m ok] eqn:E. intros [= <- ->]. by eapply IH.
Qed.

Lemma conts_app k s t : (k <= String.length s)%nat -> conts k (s ++ t) = conts k s.
Proof.
  revert s. induction k as [|k IH]; intros [|c s] Hk; try rewrite append_cons; simpl in *; try done; try lia.
  destruct (is_cont c); [|done]. rewrite IH by lia. done.
Qed.

Lemma utf8_lead_second c lo hi k d :
  utf8_lead c = Some (lo, hi, k) -> in_range lo hi d = true -> is_cont d = true.
Proof.
  unfold utf8_lead, is_cont, in_range. intros E. rewrite !andb_true_iff, !N.leb_le. intros [? ?].
  repeat case_match; simplify_eq; lia.
Qed.

(** A well-formed character: its first byte starts it, the others continue
    it. *)
Definition starts_ok (s : string) : bool :=
  match s with EmptyString => true | String c _ => negb (is_cont c) end.

Lemma utf8_step_shape c s n :
  utf8_step (String c s) = (n, true) ->
  is_cont c = false /\ (n <= String.length (String c s))%nat /\ all_cont (take_bytes (n - 1) s) = true.
Proof.
  unfold utf8_step. destruct (byte_n c <? 128) eqn:Hc.
  - intros [= <-]. apply N.ltb_lt in Hc. split; [|split; [simpl; lia|by destruct s]].
    unfold is_cont, in_range. apply andb_false_iff. left. apply N.leb_gt. lia.
  - destruct (utf8_lead c) as [[[lo hi] k]|] eqn:El; [|done]. destruct s as [|d s]; [done|].
    destruct (in_range lo hi d) eqn:Ed; [|done]. destruct (conts k s) as [m ok] eqn:Ec. intros [= <- ->].
    pose proof (conts_cont _ _ _ Ec) as Hall. apply conts_ok in Ec as [-> Hk]. split_and!.
    + unfold utf8_lead in El. unfold is_cont, in_range. apply N.ltb_ge in Hc.
      apply andb_false_iff. right. apply N.leb_gt.
      repeat case_match; simplify_eq; rewrite ?andb_true_iff, ?N.leb_le, ?N.eqb_eq in *; lia.
    + cbn [String.length]. lia.
    + change (S (S k) - 1)%nat with (S k). unfold all_cont in *. cbn [take_bytes all_bytes].
      by rewrite (utf8_lead_second _ _ _ _ _ El Ed), Hall.
Qed.

(** The first character of a string depends on its own bytes only. *)
Lemma utf8_step_app c s t n :
  utf8_step (String c s) = (n, true) -> utf8_step (String c (s ++ t)) = (n, true).
Proof.
  unfold utf8_step. destruct (byte_n c <? 128); [done|]. destruct (utf8_lead c) as [[[lo hi] k]|]; [|done].
  destruct s as [|d s]; [done|]. rewrite append_cons. destruct (in_range lo hi d); [|done].
  destruct (conts k s) as [m ok] eqn:E. intros [= <- ->]. pose proof (conts_ok _ _ _ E) as [_ Hk].
  by rewrite conts_app, E by done.
Qed.

Lemma utf8_step_cut c s t n :
  utf8_step (String c (s ++ t)) = (n, true) -> (n <= S (String.length s))%nat -> utf8_step (String c s) = (n, true).
Proof.
  unfold utf8_step. destruct (byte_n c <? 128); [done|]. destruct (utf8_lead c) as [[[lo hi] k]|]; [|done].
  destruct s as [|d s].
  - rewrite append_nil. destruct t as [|d t]; [done|]. destruct (in_range lo hi d); [|done].
    destruct (conts k t). intros [= <- ->]. simpl. lia.
  - rewrite append_cons. destruct (in_range lo hi d); [|done]. destruct (conts k (s ++ t)) as [m ok] eqn:E.
    intros [= <- ->] Hn. pose proof (conts_ok _ _ _ E) as [-> _]. simpl in Hn.
    rewrite <- (conts_app k s t), E by lia. done.
Qed.

(** Induction along the characters of a valid text. *)
Lemma utf8_ind (P : string -> Prop) :
  P "" ->
  (forall c s n, utf8_step (String c s) = (n, true) -> utf8_valid (drop_bytes n (String c s)) = true ->
     P (drop_bytes n (String c s)) -> P (String c s)) ->
  forall s, utf8_valid s = true -> P s.
Proof.
  intros H0 Hs s. remember (String.length s) as l eqn:El. revert s El.
  induction (lt_wf l) as [l _ IH]. intros [|c s] -> Hv; [done|]. rewrite utf8_valid_cons in Hv.
  pose proof (utf8_step_pos c s) as Hp. destruct (utf8_step (String c s)) as [n ok] eqn:E. simpl in Hp, Hv.
  apply andb_true_iff in Hv as [-> Hv]. apply (Hs c s n); [done..|].
  eapply IH; [|reflexivity|exact Hv]. rewrite length_drop_bytes. simpl. lia.
Qed.

Lemma utf8_valid_starts s : utf8_valid s = true -> starts_ok s = true.
Proof.
  destruct s as [|c s]; [done|]. rewrite utf8_valid_cons. destruct (utf8_step (String c s)) as [n ok] eqn:E.
  simpl. intros [-> _]%andb_true_iff. apply utf8_step_shape in E as [-> _]. done.
Qed.

Lemma utf8_valid_step c s n :
  utf8_step (String c s) = (n, true) -> utf8_valid (String c s) = utf8_valid (drop_bytes n (String c s)).
Proof. intros E. by rewrite utf8_valid_cons, E. Qed.

Lemma utf8_valid_app s t : utf8_valid s = true -> utf8_valid t = true -> utf8_valid (s ++ t) = true.
Proof.
  intros Hs Ht. revert s Hs. apply utf8_ind; [done|]. intros c s n E Hv IH. rewrite append_cons.
  rewrite (utf8_valid_step _ _ n) by by apply utf8_step_app.
  apply utf8_step_shape in E as (_ & Hn & _). rewrite <- append_cons, drop_bytes_app_le by done. done.
Qed.

Lemma all_cont_drop_starts n m s :
  all_cont (take_bytes n s) = true -> (m < n)%nat -> (m < String.length s)%nat -> starts_ok (drop_bytes m s) = false.
Proof.
  revert m s. induction n as [|n IH]; intros m [|c s]; simpl; try lia. unfold all_cont in *. cbn [all_bytes].
  intros [Hc Ha]%andb_true_iff Hm Hl. destruct m; simpl; [by rewrite Hc|]. apply IH; [done|lia..].
Qed.

Lemma utf8_valid_split s t :
  starts_ok t = true -> utf8_valid (s ++ t) = true -> utf8_valid s = true /\ utf8_valid t = true.
Proof.
  intros Ht Hv. remember (s ++ t) as u eqn:Eu. revert s Eu.
  revert u Hv. apply (utf8_ind (fun u => forall s, u = s ++ t -> utf8_valid s = true /\ utf8_valid t = true)).
  { intros [|] E; [|done]. rewrite append_nil in E. by subst. }
  intros c u n E Hv IH [|d s] Eu.
  { rewrite append_nil in Eu. subst t. split; [done|]. by rewrite (utf8_valid_step _ _ n E). }
  rewrite append_cons in Eu. injection Eu as <- ->.
  destruct (decide (n <= S (String.length s))%nat) as [Hn|Hn].
  - pose proof (utf8_step_cut _ _ _ _ E Hn) as E'. rewrite (utf8_valid_step _ _ n E').
    apply IH. by rewrite <- append_cons, drop_bytes_app_le.
  - exfalso. apply utf8_step_shape in E as (_ & Hl & Hall). simpl in Hl. rewrite length_append in Hl.
    pose proof (all_cont_drop_starts (n - 1) (String.length s) (s ++ t) Hall) as Hd.
    rewrite drop_bytes_app_all in Hd. rewrite length_append in Hd. rewrite Hd in Ht; [done|lia..].
Qed.

(** ** Boundaries *)

Lemma get_drop_bytes n s : String.get n s = match drop_bytes n s with EmptyString => None | String c _ => Some c end.
Proof. revert s. induction n; intros [|c s]; simpl; auto. Qed.

(** A boundary is an index within the text whose rest starts a character;
    the start of the text always counts. *)
Lemma char_boundary_iff s i :
  is_char_boundary s i = true <->
  i <= strlen s /\ (i = 0 \/ starts_ok (drop_bytes (N.to_nat i) s) = true).
Proof.
  unfold is_char_boundary, strlen. rewrite !orb_true_iff, !N.eqb_eq, get_drop_bytes.
  destruct (N.eq_dec i (N.of_nat (String.length s))) as [->|Hi].
  { rewrite Nat2N.id, drop_bytes_all by done. split; [|intros _; left; right; done].
    intros _. split; [lia|by right]. }
  assert (String.length (drop_bytes (N.to_nat i) s) = String.length s - N.to_nat i)%nat as Hl
    by apply length_drop_bytes.
  destruct (drop_bytes (N.to_nat i) s) as [|c r]; simpl in Hl |- *.
  - split; [intros [[->|]|]; [split; [lia|by left]|done..]|]. intros [? _]. exfalso. lia.
  - split; [intros [[->|]|]; [split; [lia|by left]|done|split; [lia|by right]]|].
    intros [_ [->|?]]; auto.
Qed.

Lemma utf8_boundary_split s i :
  utf8_valid s = true -> is_char_boundary s i = true ->
  utf8_valid (take_bytes (N.to_nat i) s) = true /\ utf8_valid (drop_bytes (N.to_nat i) s) = true.
Proof.
  intros Hv [_ [->|Hb]]%char_boundary_iff.
  - by rewrite take_bytes_0.
  - apply utf8_valid_split; [done|]. by rewrite app_take_drop_bytes.
Qed.

(** ** The size of a character *)

Lemma utf8_lead_conts c lo hi k : utf8_lead c = Some (lo, hi, k) -> (k <= 2)%nat.
Proof. unfold utf8_lead. repeat case_match; try done; intros [= <- <- <-]; lia. Qed.

Lemma conts_le k s : (fst (conts k s) <= k)%nat.
Proof.
  revert s. induction k as [|k IH]; intros [|c s]; simpl; try lia. destruct (is_cont c); [|simpl; lia].
  specialize (IH s). destruct (conts k s). simpl in *. lia.
Qed.

Lemma utf8_step_le s : (fst (utf8_step s) <= 4)%nat.
Proof.
  destruct s as [|c s]; [simpl; lia|]. unfold utf8_step. destruct (byte_n c <? 128); [simpl; lia|].
  destruct (utf8_lead c) as [[[lo hi] k]|] eqn:E; [|simpl; lia]. apply utf8_lead_conts in E.
  destruct s as [|d s]; [simpl; lia|]. destruct (in_range lo hi d); [|simpl; lia].
  pose proof (conts_le k s). destruct (conts k s). simpl in *. lia.
Qed.

Lemma chars_le s : Forall (fun c => strlen c <= 4) (chars s).
Proof.
  unfold chars, utf8_chars. generalize (String.length s) as fuel. intros fuel. revert s.
  induction fuel as [|fuel IH]; intros [|c s]; try by apply Forall_nil.
  cbn [utf8_chars_fuel]. pose proof (utf8_step_le (String c s)) as Hn. destruct (utf8_step (String c s)) as [n ok].
  cbn [map snd fst] in *. constructor; [|apply IH]. pose proof (strlen_take n (String c s)). lia.
Qed.

Lemma strlen_concat_le k l : Forall (fun c => strlen c <= k) l -> strlen (String.concat "" l) <= k * N.of_nat (List.length l).
Proof.
  induction 1 as [|c l Hc Hl IH]; [change (strlen (String.concat "" [])) with 0; lia|].
  rewrite concat_cons, strlen_app. cbn [List.length]. lia.
Qed.

Lemma strlen_take_chars n s : strlen (take_chars n s) <= 4 * N.of_nat n.
Proof.
  unfold take_chars. etransitivity; [apply (strlen_concat_le 4), Forall_take, chars_le|].
  rewrite length_take. lia.
Qed.

(** ** Trimming lists *)

(** An element that is kept stays the last. *)
Lemma drop_while_snoc {A} (f : A -> bool) l x : f x = false -> exists k, drop_while f (l ++ [x])%list = (k ++ [x])%list.
Proof.
  intros Hx. induction l as [|y l [k IH]]; simpl; [rewrite Hx; by exists []|].
  destruct (f y); [by exists k|]. by exists (y :: l).
Qed.
