(* ===== verification/World.v ===== *)
(** * The world: file system, clocks, randomness, environment

    The executable meaning of the calls of IO.v: a POSIX-like file system
    with symbolic links, in which calls fail only for structural reasons
    (a missing entry, a link loop, a file where a directory is needed).
    Permission errors, full disks and the like are covered by [must]
    theorems, which hold for every answer.

    A location is the list of names from the root.  A file handle is the
    canonical path of the file at the time it was created; the program
    never renames or removes a file it still holds open. *)

From stdpp Require Import base list strings gmap.
From Stdlib Require Import NArith String Lia.
From S2P Require Import Prelude Bytes UnixPath IO.

Abbreviation loc := (list string).

Inductive node :=
| File (content : string) (attr : attributes)
| Dir (len : N) (attr : attributes)
| Link (target : string) (attr : attributes)
| Special.

Abbreviation fsys := (gmap loc node).

(** A child process follows a script: when it exits after its start and with
    which status ([None]: only when it is killed), what it writes, and how
    long the reader of each stream takes to finish once it is waited for. *)
Record script := Script {
  sc_exit : option (N * exit_status);
  sc_stdout : drain;
  sc_stderr : drain;
  sc_stdout_wait : N;
  sc_stderr_wait : N;
}.
Record child := Child { ch_script : script; ch_started : N; ch_killed : bool }.
Record processes := Processes {
  pr_children : gmap N child;
  pr_flags : gset string;   (** the cancellation tokens that are set *)
  pr_script : string -> list string -> string -> list (string * string) -> io script;
}.
Definition no_processes : processes :=
  Processes ∅ ∅ (fun _ _ _ _ => Err (IoError NotFound "No such file or directory (os error 2)")).

Record world := World {
  w_fs : fsys;
  w_cwd : loc;
  w_clock : N;                             (** nanoseconds since the epoch *)
  w_instant : N;                           (** monotonic nanoseconds *)
  w_entropy : list (result string string); (** answers of the random source *)
  w_pid : N;
  w_counter : N;                           (** the process-wide [STORAGE_COUNTER] *)
  w_env : gmap string string;
  w_locks : gset string;                   (** the handles that hold a file lock *)
  w_unique : N;                            (** the process-wide [UNIQUE_COUNTER] *)
  w_counters : gmap string N;              (** the other static counters, by name *)
  w_processes : processes;
  w_command : fsys -> string -> list string -> string -> io output;
}.

(** Attributes of new entries (with the usual umask) and of a written file. *)
Definition no_attributes : attributes := Attributes None None 0.
Definition fresh_file (w : world) : attributes := Attributes (Some (w_clock w)) (Some (w_clock w)) 33188.
Definition fresh_dir (w : world) : attributes := Attributes (Some (w_clock w)) (Some (w_clock w)) 16877.
Definition touched (w : world) (a : attributes) : attributes :=
  Attributes (Some (w_clock w)) (at_created a) (at_mode a).

Definition set_fs (fs : fsys) (w : world) : world :=
  World fs (w_cwd w) (w_clock w) (w_instant w) (w_entropy w) (w_pid w) (w_counter w) (w_env w)
    (w_locks w) (w_unique w) (w_counters w) (w_processes w) (w_command w).

Definition enoent : io_error := IoError NotFound "No such file or directory (os error 2)".
Definition eexist : io_error := IoError AlreadyExists "File exists (os error 17)".
Definition enotdir : io_error := IoError OtherKind "Not a directory (os error 20)".
Definition eisdir : io_error := IoError OtherKind "Is a directory (os error 21)".
Definition eloop : io_error := IoError OtherKind "Too many levels of symbolic links (os error 40)".
Definition enotempty : io_error := IoError OtherKind "Directory not empty (os error 39)".
Definition einval : io_error := IoError OtherKind "Invalid argument (os error 22)".

(** ** Path resolution *)

(** The node at a location; the root is always a directory. *)
Definition node_at (fs : fsys) (l : loc) : option node :=
  match l with
  | [] => Some (Dir 4096 no_attributes)
  | _ => fs !! l
  end.

(** The names the kernel walks: empty segments vanish, and a trailing
    separator asks for a directory, like a final ".". *)
Definition os_names (p : string) : list string :=
  List.filter (fun s => negb (s =? "")%string) (segments p) ++
  (if ends_with "/" p && negb (forallb (fun s => (s =? "")%string) (segments p)) then ["."] else []).

Definition walk_base (cur : loc) (p : string) : loc :=
  if is_absolute p then [] else cur.

(** One link expansion per unit of [fuel]; Linux follows at most 40. *)
Fixpoint walk (fuel : nat) (fs : fsys) (follow : bool) : loc -> list string -> io loc :=
  fix go (cur : loc) (names : list string) {struct names} : io loc :=
    match names with
    | [] => Ok cur
    | n :: rest =>
        if (n =? ".")%string then
          match node_at fs cur with
          | Some (Dir _ _) => go cur rest
          | Some _ => Err enotdir
          | None => Err enoent
          end
        else if (n =? "..")%string then go (removelast cur) rest
        else
          let next := cur ++ [n] in
          match node_at fs next with
          | None => Err enoent
          | Some (Link target _) =>
              if negb follow && match rest with [] => true | _ => false end then Ok next else
              match fuel with
              | O => Err eloop
              | S f => walk f fs follow (walk_base cur target) (os_names target ++ rest)
              end
          | Some (Dir _ _) => go next rest
          | Some _ => match rest with [] => Ok next | _ => Err enotdir end
          end
    end.

Definition max_links : nat := 40.

Definition resolve (w : world) (follow : bool) (p : string) : io loc :=
  if is_empty p then Err enoent else
  walk max_links (w_fs w) follow (walk_base (w_cwd w) p) (os_names p).

(** Where a call creates or replaces an entry: the parent is followed, the
    last name is not. *)
Definition locate_entry (w : world) (p : string) : io loc :=
  match rev (os_names p) with
  | [] => Err eexist
  | n :: before =>
      if (n =? ".")%string || (n =? "..")%string then Err eexist else
      match walk max_links (w_fs w) true (walk_base (w_cwd w) p) (rev before) with
      | Err e => Err e
      | Ok dir =>
          match node_at (w_fs w) dir with
          | Some (Dir _ _) => Ok (dir ++ [n])
          | Some _ => Err enotdir
          | None => Err enoent
          end
      end
  end.

(** A trailing separator is accepted by [mkdir]. *)
Definition strip_trailing (p : string) : string :=
  (if is_absolute p then "/" else "") ++
  join_with "/" (List.filter (fun s => negb (s =? "")%string) (segments p)).

(** ** Operations on the tree *)

Definition node_metadata (n : node) : metadata :=
  match n with
  | File c t => Metadata RegularFile (strlen c) t
  | Dir l t => Metadata Directory l t
  | Link t m => Metadata Symlink (strlen t) m
  | Special => Metadata OtherType 0 no_attributes
  end.

Definition stat (w : world) (follow : bool) (p : string) : io metadata :=
  match resolve w follow p with
  | Err e => Err e
  | Ok l => match node_at (w_fs w) l with
            | Some n => Ok (node_metadata n)
            | None => Err enoent
            end
  end.

Definition canonicalize (w : world) (p : string) : io string :=
  map_ok render (resolve w true p).

Definition read_file (w : world) (p : string) : io string :=
  match resolve w true p with
  | Err e => Err e
  | Ok l => match node_at (w_fs w) l with
            | Some (File c _) => Ok c
            | Some (Dir _ _) => Err eisdir
            | Some _ => Err einval
            | None => Err enoent
            end
  end.

Fixpoint is_prefix (l k : loc) : bool :=
  match l, k with
  | [], _ => true
  | x :: l', y :: k' => (x =? y)%string && is_prefix l' k'
  | _, [] => false
  end.

(** The names directly below a directory. *)
Definition children (fs : fsys) (dir : loc) : list string :=
  omap (fun '(l, _) =>
          if decide (removelast l = dir /\ l <> []) then last l else None)
       (map_to_list fs).

Definition read_dir (w : world) (p : string) : io (list (io string)) :=
  match resolve w true p with
  | Err e => Err e
  | Ok l => match node_at (w_fs w) l with
            | Some (Dir _ _) => Ok (map (fun n => Ok (join p n)) (children (w_fs w) l))
            | Some _ => Err enotdir
            | None => Err enoent
            end
  end.

Definition create_dir (w : world) (p : string) : world * io unit :=
  match locate_entry w (strip_trailing p) with
  | Err e => (w, Err e)
  | Ok l => match node_at (w_fs w) l with
            | Some _ => (w, Err eexist)
            | None => (set_fs (<[l := Dir 4096 (fresh_dir w)]> (w_fs w)) w, Ok tt)
            end
  end.

(** [fs::create_dir_all]: try, create the parent when it is missing, retry. *)
Fixpoint create_dir_all (fuel : nat) (w : world) (p : string) : world * io unit :=
  if is_empty p then (w, Ok tt) else
  match create_dir w p with
  | (w', Ok _) => (w', Ok tt)
  | (w', Err e) =>
      if decide (io_error_kind e = NotFound) then
        match fuel, parent p with
        | S f, Some q =>
            match create_dir_all f w' q with
            | (w2, Err e2) => (w2, Err e2)
            | (w2, Ok _) =>
                match create_dir w2 p with
                | (w3, Ok _) => (w3, Ok tt)
                | (w3, Err e3) =>
                    (w3, match stat w3 true p with
                         | Ok m => if is_dir m then Ok tt else Err e3
                         | Err _ => Err e3
                         end)
                end
            end
        | _, _ => (w', Err e)
        end
      else (w', match stat w' true p with
                | Ok m => if is_dir m then Ok tt else Err e
                | Err _ => Err e
                end)
  end.

(** [OpenOptions::new().write(true).create_new(true).open(p)] *)
Definition create_new (w : world) (p : string) : world * io string :=
  match locate_entry w p with
  | Err e => (w, Err e)
  | Ok l => match node_at (w_fs w) l with
            | Some _ => (w, Err eexist)
            | None => (set_fs (<[l := File "" (fresh_file w)]> (w_fs w)) w, Ok (render l))
            end
  end.

Definition write_all (w : world) (handle bytes : string) : world * io unit :=
  match resolve w false handle with
  | Err e => (w, Err e)
  | Ok l => match node_at (w_fs w) l with
            | Some (File c a) =>
                (set_fs (<[l := File (c ++ bytes) (touched w a)]> (w_fs w)) w, Ok tt)
            | _ => (w, Err einval)
            end
  end.

(** Moving a directory moves everything below it. *)
Definition move_tree (fs : fsys) (from to : loc) : fsys :=
  list_to_map (map (fun '(l, n) =>
    (if is_prefix from l then to ++ drop (List.length from) l else l, n)) (map_to_list fs)).

Definition rename_at (fs : fsys) (from to : loc) : fsys * io unit :=
  match node_at fs from with
  | None => (fs, Err enoent)
  | Some n =>
      if decide (from = to) then (fs, Ok tt) else
      match n with
      | Dir _ _ =>
          if is_prefix from to then (fs, Err einval) else
          match node_at fs to with
          | None => (move_tree fs from to, Ok tt)
          | Some (Dir _ _) =>
              match children fs to with
              | [] => (move_tree (delete to fs) from to, Ok tt)
              | _ => (fs, Err enotempty)
              end
          | Some _ => (fs, Err enotdir)
          end
      | _ =>
          match node_at fs to with
          | Some (Dir _ _) => (fs, Err eisdir)
          | _ => (<[to := n]> (delete from fs), Ok tt)
          end
      end
  end.

Definition rename (w : world) (from to : string) : world * io unit :=
  match locate_entry w from with
  | Err e => (w, Err e)
  | Ok a =>
      match locate_entry w to with
      | Err e => (w, Err e)
      | Ok b => let '(fs', r) := rename_at (w_fs w) a b in (set_fs fs' w, r)
      end
  end.

Definition remove_file (w : world) (p : string) : world * io unit :=
  match locate_entry w p with
  | Err e => (w, Err e)
  | Ok l => match node_at (w_fs w) l with
            | None => (w, Err enoent)
            | Some (Dir _ _) => (w, Err eisdir)
            | Some _ => (set_fs (delete l (w_fs w)) w, Ok tt)
            end
  end.

Definition remove_dir (w : world) (p : string) : world * io unit :=
  match locate_entry w (strip_trailing p) with
  | Err e => (w, Err e)
  | Ok l => match node_at (w_fs w) l with
            | None => (w, Err enoent)
            | Some (Dir _ _) =>
                match children (w_fs w) l with
                | [] => (set_fs (delete l (w_fs w)) w, Ok tt)
                | _ => (w, Err enotempty)
                end
            | Some _ => (w, Err enotdir)
            end
  end.

Definition set_entropy (e : list (result string string)) (w : world) : world :=
  World (w_fs w) (w_cwd w) (w_clock w) (w_instant w) e (w_pid w) (w_counter w) (w_env w)
    (w_locks w) (w_unique w) (w_counters w) (w_processes w) (w_command w).
Definition set_counter (c : N) (w : world) : world :=
  World (w_fs w) (w_cwd w) (w_clock w) (w_instant w) (w_entropy w) (w_pid w) c (w_env w)
    (w_locks w) (w_unique w) (w_counters w) (w_processes w) (w_command w).
Definition set_locks (locks : gset string) (w : world) : world :=
  World (w_fs w) (w_cwd w) (w_clock w) (w_instant w) (w_entropy w) (w_pid w) (w_counter w) (w_env w)
    locks (w_unique w) (w_counters w) (w_processes w) (w_command w).
Definition set_unique (c : N) (w : world) : world :=
  World (w_fs w) (w_cwd w) (w_clock w) (w_instant w) (w_entropy w) (w_pid w) (w_counter w) (w_env w)
    (w_locks w) c (w_counters w) (w_processes w) (w_command w).

Definition set_counters (c : gmap string N) (w : world) : world :=
  World (w_fs w) (w_cwd w) (w_clock w) (w_instant w) (w_entropy w) (w_pid w) (w_counter w) (w_env w)
    (w_locks w) (w_unique w) c (w_processes w) (w_command w).

(** Time passes by [nanos]. *)
Definition advance_time (nanos : N) (w : world) : world :=
  World (w_fs w) (w_cwd w) (w_clock w + nanos) (w_instant w + nanos) (w_entropy w) (w_pid w)
    (w_counter w) (w_env w) (w_locks w) (w_unique w) (w_counters w) (w_processes w) (w_command w).

Definition set_processes (p : processes) (w : world) : world :=
  World (w_fs w) (w_cwd w) (w_clock w) (w_instant w) (w_entropy w) (w_pid w) (w_counter w) (w_env w)
    (w_locks w) (w_unique w) (w_counters w) p (w_command w).

(** [SystemTime::now().duration_since(UNIX_EPOCH)] in milliseconds, clamped
    to [u64]. *)
Definition clock_millis (w : world) : N := to_u64_or_max (w_clock w / 1000000).

(** [File::open(p)]: reading needs no more than the entry. *)
Definition open_read (w : world) (p : string) : io string :=
  match resolve w true p with
  | Err e => Err e
  | Ok l => match node_at (w_fs w) l with
            | Some _ => Ok (render l)
            | None => Err enoent
            end
  end.

(** [OpenOptions] with [create(true)] and write access: an existing file is
    opened (through a final link), a missing one is created. *)
Definition open_create (w : world) (p : string) : world * io string :=
  match resolve w true p with
  | Ok l => (w, match node_at (w_fs w) l with
                | Some (Dir _ _) => Err eisdir
                | Some _ => Ok (render l)
                | None => Err enoent
                end)
  | Err e =>
      if decide (io_error_kind e = NotFound) then create_new w p else (w, Err e)
  end.

(** [File::try_lock]: the lock belongs to the open file, named by its
    canonical path. *)
Definition try_lock (w : world) (handle : string) : world * result unit try_lock_error :=
  if decide (handle ∈ w_locks w) then (w, Err WouldBlock)
  else (set_locks ({[handle]} ∪ w_locks w) w, Ok tt).

Definition unlock (w : world) (handle : string) : world := set_locks (w_locks w ∖ {[handle]}) w.

(** [chmod]: the file-type bits stay. *)
Definition chmod (mode : N) (a : attributes) : attributes :=
  Attributes (at_modified a) (at_created a) (N.lor (N.ldiff (at_mode a) 4095) (N.land mode 4095)).

Definition set_permissions (w : world) (p : string) (mode : N) : world * io unit :=
  match resolve w true p with
  | Err e => (w, Err e)
  | Ok l => match node_at (w_fs w) l with
            | Some (File c a) => (set_fs (<[l := File c (chmod mode a)]> (w_fs w)) w, Ok tt)
            | Some (Dir n a) => (set_fs (<[l := Dir n (chmod mode a)]> (w_fs w)) w, Ok tt)
            | Some _ => (w, Ok tt)
            | None => (w, Err enoent)
            end
  end.

(** ** Child processes *)

Definition esrch : io_error := IoError OtherKind "No such process (os error 3)".

Definition spawn (w : world) (program : string) (args : list string) (cwd : string) (env : list (string * string))
    : world * io N :=
  match pr_script (w_processes w) program args cwd env with
  | Err e => (w, Err e)
  | Ok s =>
      let id := fresh (dom (pr_children (w_processes w))) in
      (set_processes (Processes (<[id := Child s (w_instant w) false]> (pr_children (w_processes w)))
         (pr_flags (w_processes w)) (pr_script (w_processes w))) w, Ok id)
  end.

(** The status of a child that has exited by now. *)
Definition exited (w : world) (c : child) : option exit_status :=
  match sc_exit (ch_script c) with
  | Some (after, status) =>
      if (ch_started c + after <=? w_instant w)%N then Some status else if ch_killed c then Some None else None
  | None => if ch_killed c then Some None else None
  end.

Definition kill_child (w : world) (id : N) : world * io unit :=
  match pr_children (w_processes w) !! id with
  | None => (w, Err esrch)
  | Some c =>
      (set_processes (Processes (<[id := Child (ch_script c) (ch_started c) true]> (pr_children (w_processes w)))
         (pr_flags (w_processes w)) (pr_script (w_processes w))) w, Ok tt)
  end.

(** Waiting for a child lets time pass until it exits; a child that never
    does would block the program: there is no such answer, and an error
    stands for it. *)
Definition wait_child (w : world) (id : N) : world * io exit_status :=
  match pr_children (w_processes w) !! id with
  | None => (w, Err esrch)
  | Some c =>
      match exited w c with
      | Some status => (w, Ok status)
      | None =>
          match sc_exit (ch_script c) with
          | Some (after, status) => (advance_time (ch_started c + after - w_instant w) w, Ok status)
          | None => (w, Err esrch)
          end
      end
  end.

(** How long [recv_timeout] waits: its whole limit when it times out, and no
    longer otherwise. *)
Definition drain_time (d : drain) (wait limit : N) : N :=
  match dr_end d with DrainTimedOut => limit | _ => N.min wait limit end.

Definition script_stream (s : script) (stream : string) : drain * N :=
  if (stream =? "stdout")%string then (sc_stdout s, sc_stdout_wait s) else (sc_stderr s, sc_stderr_wait s).

Definition drain_stream (w : world) (id : N) (stream : string) (limit : N) : world * drain :=
  match pr_children (w_processes w) !! id with
  | None => (w, Drain [] DrainDisconnected false)
  | Some c => let '(d, wait) := script_stream (ch_script c) stream in (advance_time (drain_time d wait limit) w, d)
  end.

Definition store_flag (w : world) (flag : string) : world :=
  set_processes (Processes (pr_children (w_processes w)) ({[flag]} ∪ pr_flags (w_processes w))
    (pr_script (w_processes w))) w.

(** ** The meaning of the calls *)

Definition exec {R : Set} (c : syscall R) (w : world) : world * R :=
  match c in syscall R return world * R with
  | SymlinkMetadata p => (w, stat w false p)
  | FollowMetadata p => (w, stat w true p)
  | Canonicalize p => (w, canonicalize w p)
  | ReadFile p => (w, read_file w p)
  | ReadDir p => (w, read_dir w p)
  | CreateDir p => create_dir w p
  | CreateDirAll p => create_dir_all (String.length p) w p
  | CreateNew p => create_new w p
  | WriteAll h b => write_all w h b
  | Flush _ => (w, Ok tt)
  | SyncAll _ => (w, Ok tt)
  | Rename a b => rename w a b
  | RemoveFile p => remove_file w p
  | SystemTimeMillis => (w, clock_millis w)
  | InstantNow => (w, w_instant w)
  | RandomBytes n =>
      match w_entropy w with
      | [] => (w, Err "no entropy"%string)
      | e :: es => (set_entropy es w, e)
      end
  | ProcessId => (w, w_pid w)
  | FetchAddCounter => (set_counter ((w_counter w + 1) mod 18446744073709551616)%N w, w_counter w)
  | EnvVar name => (w, w_env w !! name)
  | OpenRead p => (w, open_read w p)
  | ReadHandle h => (w, read_file w h)
  | OpenCreate p => open_create w p
  | TryLock h => try_lock w h
  | Unlock h => (unlock w h, Ok tt)
  | CloseFile h => (unlock w h, tt)
  | SetPermissions p mode => set_permissions w p mode
  | SystemTime => (w, Ok (w_clock w))
  | FetchAddUnique => (set_unique ((w_unique w + 1) mod 18446744073709551616)%N w, w_unique w)
  | RunCommand program args cwd => (w, w_command w (w_fs w) program args cwd)
  | HandleMetadata h => (w, stat w false h)
  | FetchAddNamed name =>
      let n := default 0%N (w_counters w !! name) in
      (set_counters (<[name := ((n + 1) mod 18446744073709551616)%N]> (w_counters w)) w, n)
  | Sleep nanos => (advance_time nanos w, tt)
  | Spawn program args cwd env => spawn w program args cwd env
  | TryWait id =>
      (w, match pr_children (w_processes w) !! id with Some c => Ok (exited w c) | None => Err esrch end)
  | KillChild id => kill_child w id
  | WaitChild id => wait_child w id
  | DrainStream id stream limit => drain_stream w id stream limit
  | RemoveDir p => remove_dir w p
  | LoadFlag flag => (w, bool_decide (flag ∈ pr_flags (w_processes w)))
  | StoreFlag flag => (store_flag w flag, tt)
  end.

Inductive outcome (A : Type) := Done (a : A) | Panicked (message : string).
Arguments Done {A} a.
Arguments Panicked {A} message.

Fixpoint run {A} (m : IO A) (w : world) : world * outcome A :=
  match m with
  | Ret a => (w, Done a)
  | Panic s => (w, Panicked s)
  | Sys c k => let '(w', r) := exec c w in run (k r) w'
  end.

(** The answer alone, for programs that only observe. *)
Definition eval {A} (m : IO A) (w : world) : outcome A := snd (run m w).

(** [I] holds after every call of the run. *)
Fixpoint always {A} (I : world -> Prop) (m : IO A) (w : world) : Prop :=
  match m with
  | Ret _ | Panic _ => True
  | Sys c k => let '(w', r) := exec c w in I w' /\ always I (k r) w'
  end.

(** ** Interleaving

    Several threads share the world; a step is one call of one thread. *)
Inductive pool_step {A} : world * list (IO A) -> world * list (IO A) -> Prop :=
| pool_step_call w pool i (R : Set) (c : syscall R) k w' r :
    pool !! i = Some (Sys c k) ->
    exec c w = (w', r) ->
    pool_step (w, pool) (w', <[i := k r]> pool).

Inductive steps {S} (step : S -> S -> Prop) : S -> S -> Prop :=
| steps_refl s : steps step s s
| steps_cons s t u : step s t -> steps step t u -> steps step s u.

(** ** Laws of [run] *)

Lemma run_bind {A B} (m : IO A) (f : A -> IO B) w :
  run (bind m f) w =
  match run m w with
  | (w', Done a) => run (f a) w'
  | (w', Panicked s) => (w', Panicked s)
  end.
Proof.
  revert w. induction m as [a|s|R c k IH]; intros w; simpl; [done..|].
  destruct (exec c w) as [w' r]. apply IH.
Qed.

Lemma run_sys {R : Set} (c : syscall R) w :
  run (sys c) w = let '(w', r) := exec c w in (w', Done r).
Proof. reflexivity. Qed.

Lemma must_run {A} (m : IO A) (P : A -> Prop) w w' a :
  must (An := any_answer) m P -> run m w = (w', Done a) -> P a.
Proof.
  revert w. induction m as [b|s|R c k IH]; intros w Hm Hr; simpl in *.
  - by simplify_eq.
  - done.
  - destruct (exec c w) as [w1 r]. eapply IH; [by apply Hm|done].
Qed.

Lemma observes_world {R : Set} (c : syscall R) w :
  observes c = true -> fst (exec c w) = w.
Proof. by destruct c. Qed.

Lemma read_only_run {A} (m : IO A) w : read_only m -> fst (run m w) = w.
Proof.
  revert w. induction m as [b|s|R c k IH]; intros w Hm; simpl; [done..|].
  destruct Hm as [Hc Hk]. pose proof (observes_world c w Hc) as Hw.
  destruct (exec c w) as [w1 r]. simpl in Hw. subst. apply IH, Hk.
Qed.

Lemma read_only_run_eq {A} (m : IO A) w : read_only m -> run m w = (w, eval m w).
Proof.
  intros H. unfold eval. rewrite <- (read_only_run m w H) at 2. by destruct (run m w).
Qed.

(** What the calls answer as long as the world is [w]. *)
Definition in_world (w : world) : Answers := fun R c r => snd (exec c w) = r.

Lemma must_eval {A} (m : IO A) (P : A -> Prop) w a :
  must (An := in_world w) m P -> read_only m -> eval m w = Done a -> P a.
Proof.
  induction m as [b|s|R c k IH]; simpl; intros Hm Ho; unfold eval in *; simpl.
  - by intros [= <-].
  - done.
  - destruct Ho as [Hc Hk]. pose proof (observes_world c w Hc) as Hw.
    specialize (Hm (snd (exec c w)) eq_refl). specialize (Hk (snd (exec c w))).
    destruct (exec c w) as [w1 r]. simpl in *. subst. by apply IH.
Qed.

Lemma no_panic_run {A} (m : IO A) w : no_panic m -> exists a, snd (run m w) = Done a.
Proof.
  revert w. induction m as [a|s|R c k IH]; intros w Hm; simpl in *; [by exists a|done|].
  destruct (exec c w) as [w' r]. apply IH, Hm.
Qed.

Lemma always_mono {A} (I J : world -> Prop) (m : IO A) w :
  (forall w', I w' -> J w') -> always I m w -> always J m w.
Proof.
  intros HIJ. revert w. induction m as [a|s|R c k IH]; intros w Hm; simpl in *; [done..|].
  destruct (exec c w) as [w' r]. destruct Hm; auto.
Qed.

Lemma steps_inv {S} (step : S -> S -> Prop) (I : S -> Prop) s t :
  (forall s t, I s -> step s t -> I t) -> I s -> steps step s t -> I t.
Proof. intros Hi Hs. induction 1; eauto. Qed.
