(* ===== verification/Model.v ===== *)
(** * The policy protocol's data ([opticcode-policy/src/model.rs])

    Modes, origins, workspaces, actions, requests, decisions and reports,
    with the source's constructors and bounds.  Paths are raw [string]s
    (UnixPath.v); [u32], [u64] and [usize] are [N]. *)

From stdpp Require Import base list strings.
From Stdlib Require Import NArith String.
From S2P Require Import Prelude Bytes UnixPath.

Local Open Scope string_scope.
Local Open Scope N_scope.

(** ** Constants *)

Definition POLICY_PROTOCOL_ID : string := "opticcode.policy".
Definition POLICY_SCHEMA_VERSION : N := 1.
Definition POLICY_VERSION : string := "opticcode.default.v1".

Definition MAX_POLICY_REQUEST_ID_BYTES : N := 128.
Definition MAX_POLICY_IDENTIFIER_BYTES : N := 160.
Definition MAX_POLICY_ACTIONS : N := 128.
Definition MAX_POLICY_PATHS : N := 512.
Definition MAX_POLICY_ARGUMENTS : N := 256.
Definition MAX_POLICY_ARGUMENT_BYTES : N := 8 * 1024.
Definition MAX_POLICY_ENVIRONMENT_KEYS : N := 32.
Definition MAX_POLICY_TIMEOUT_MS : N := 60 * 60 * 1000.
Definition MAX_POLICY_OUTPUT_BYTES : N := 16 * 1024 * 1024.

(** ** Modes and origins *)

Inductive PolicyMode := ReadOnly | WorktreeEdit | ApprovedApply.
#[export] Instance PolicyMode_eq_dec : EqDecision PolicyMode.
Proof. solve_decision. Defined.

Definition PolicyMode_as_str (m : PolicyMode) : string :=
  match m with
  | ReadOnly => "read_only"
  | WorktreeEdit => "worktree_edit"
  | ApprovedApply => "approved_apply"
  end.

Inductive ActionOrigin := User | Chat | Extension | Cli | Recovery | OriginModel | UnknownOrigin.
#[export] Instance ActionOrigin_eq_dec : EqDecision ActionOrigin.
Proof. solve_decision. Defined.

Record PolicyClient := { client_name : string; client_version : string }.

(** ** Workspace and Git boundary *)

Record GitRepositoryBoundary := {
  grb_worktree_root : string;
  grb_git_dir : string;
  grb_common_dir : string;
  grb_index : string;
  grb_object_dir : string;
  grb_head : string;
  grb_main_worktree : bool;
}.

Record ActiveWorktree := {
  aw_run_id : string;
  aw_owner_workspace_id : string;
  aw_owner_request_id : string;
  aw_root : string;
  aw_source_root : string;
  aw_base_head : string;
  aw_git_dir : string;
  aw_common_dir : string;
}.

Record PolicyWorkspace := {
  workspace_id : string;
  workspace_root : string;
  repository : option GitRepositoryBoundary;
  active_worktree : option ActiveWorktree;
  working_tree_digest : option string;
  repository_clean : option bool;
}.

(** ** Action payloads *)

Record TextPosition := { tp_line : N; tp_character : N }.
Record TextRange := { tr_start : TextPosition; tr_end : TextPosition }.

Record PathTarget := {
  pt_root : string;
  pt_path : string;
  pt_range : option TextRange;
  pt_expected_hash : option string;
}.

Record SearchAction := { sa_root : string; sa_query_hash : string; sa_paths : list string }.
Record ContextAction := { ca_root : string; ca_task_hash : string; ca_candidate_paths : list string }.
Record RagAction := { ra_index_root : string; ra_source_ids : list string; ra_query_hash : string }.
Record DeleteAction := { da_target : PathTarget; da_recursive : bool }.

Record ApplyPatchAction := {
  ap_root : string;
  ap_paths : list string;
  ap_created_paths : list string;
  ap_diff_hash : string;
  ap_files_hash : string;
  ap_transaction_id : string;
  ap_base_head : string;
}.

Inductive NetworkIntent := NetDenied | NetDeclared | NetRequired | NetUndeclared.
#[export] Instance NetworkIntent_eq_dec : EqDecision NetworkIntent.
Proof. solve_decision. Defined.

Inductive ProcessLaunch := Direct | WindowsCommandScript | Shell.
#[export] Instance ProcessLaunch_eq_dec : EqDecision ProcessLaunch.
Proof. solve_decision. Defined.

Record RunProcessAction := {
  rp_executable : string;
  rp_arguments : list string;
  rp_cwd : string;
  rp_timeout_ms : N;
  rp_output_limit_bytes : N;
  rp_network : NetworkIntent;
  rp_launch : ProcessLaunch;
  rp_environment_allowlist : list string;
}.

Record CreateWorktreeAction := {
  cw_repository_root : string;
  cw_destination : string;
  cw_base_head : string;
  cw_run_id : string;
  cw_detached : bool;
}.

Record CleanupWorktreeAction := {
  cl_repository_root : string;
  cl_worktree_root : string;
  cl_run_id : string;
}.

Inductive GitReadOperation :=
| GitStatus | GitDiff | GitLog | GitShow | GitRevParse | GitListFiles | GitReadUnknown.
#[export] Instance GitReadOperation_eq_dec : EqDecision GitReadOperation.
Proof. solve_decision. Defined.

Inductive GitWriteOperation :=
| GitAdd | GitRestore | GitCheckout | GitMerge | GitWorktreeAdd | GitWorktreeRemove
| GitTag | GitBranch | GitWriteUnknown.
#[export] Instance GitWriteOperation_eq_dec : EqDecision GitWriteOperation.
Proof. solve_decision. Defined.

Record GitReadAction := { gr_repository_root : string; gr_operation : GitReadOperation; gr_paths : list string }.
Record GitWriteAction := { gw_repository_root : string; gw_operation : GitWriteOperation; gw_paths : list string }.
Record GitCommitAction := { gc_repository_root : string; gc_tree_hash : string; gc_message_hash : string }.
Record TransactionAction := { ta_workspace_root : string; ta_transaction_id : string; ta_expected_state_hash : string }.

(** ** Actions *)

Inductive PolicyAction :=
| ReadFileAction (t : PathTarget)
| ReadDirectory (t : PathTarget)
| Search (a : SearchAction)
| BuildContext (a : ContextAction)
| UseRag (a : RagAction)
| WriteFile (t : PathTarget)
| CreateFile (t : PathTarget)
| DeleteFile (a : DeleteAction)
| ApplyPatch (a : ApplyPatchAction)
| RunProcess (a : RunProcessAction)
| CreateWorktree (a : CreateWorktreeAction)
| CleanupWorktree (a : CleanupWorktreeAction)
| GitRead (a : GitReadAction)
| GitWrite (a : GitWriteAction)
| GitCommit (a : GitCommitAction)
| GitPush (a : GitWriteAction)
| NetworkAccess (destination_hash purpose : string)
| PackageInstall (ecosystem package_set_hash : string)
| Publish (target artifact_hash : string)
| RecoverTransaction (a : TransactionAction)
| RollbackTransaction (a : TransactionAction)
| ModifyPolicy
| ElevatePrivileges
| UnknownAction.

(** [PolicyAction::kind] *)
Definition action_kind (a : PolicyAction) : string :=
  match a with
  | ReadFileAction _ => "read_file"
  | ReadDirectory _ => "read_directory"
  | Search _ => "search"
  | BuildContext _ => "build_context"
  | UseRag _ => "use_rag"
  | WriteFile _ => "write_file"
  | CreateFile _ => "create_file"
  | DeleteFile _ => "delete_file"
  | ApplyPatch _ => "apply_patch"
  | RunProcess _ => "run_process"
  | CreateWorktree _ => "create_worktree"
  | CleanupWorktree _ => "cleanup_worktree"
  | GitRead _ => "git_read"
  | GitWrite _ => "git_write"
  | GitCommit _ => "git_commit"
  | GitPush _ => "git_push"
  | NetworkAccess _ _ => "network_access"
  | PackageInstall _ _ => "package_install"
  | Publish _ _ => "publish"
  | RecoverTransaction _ => "recover_transaction"
  | RollbackTransaction _ => "rollback_transaction"
  | ModifyPolicy => "modify_policy"
  | ElevatePrivileges => "elevate_privileges"
  | UnknownAction => "unknown"
  end.

(** ** Requests *)

Record PolicyRequest := {
  rq_schema_version : N;
  rq_protocol : string;
  rq_request_id : string;
  rq_action_id : string;
  rq_origin : ActionOrigin;
  rq_profile : string;
  rq_client : PolicyClient;
  rq_mode : PolicyMode;
  rq_workspace : PolicyWorkspace;
  rq_action : PolicyAction;
  rq_approval_id : option string;
}.

(** [PolicyRequest::new]; the client version is [CARGO_PKG_VERSION], set by
    the build. *)
Definition PolicyRequest_new (cargo_pkg_version request_id action_id : string)
    (mode : PolicyMode) (workspace : PolicyWorkspace) (action : PolicyAction) : PolicyRequest := {|
  rq_schema_version := POLICY_SCHEMA_VERSION;
  rq_protocol := POLICY_PROTOCOL_ID;
  rq_request_id := request_id;
  rq_action_id := action_id;
  rq_origin := Cli;
  rq_profile := "default";
  rq_client := {| client_name := "opticcode-cli"; client_version := cargo_pkg_version |};
  rq_mode := mode;
  rq_workspace := workspace;
  rq_action := action;
  rq_approval_id := None;
|}.

(** ** Decisions and reports *)

Inductive RiskLevel := Low | Medium | High | Critical.
#[export] Instance RiskLevel_eq_dec : EqDecision RiskLevel.
Proof. solve_decision. Defined.

Inductive PolicyDecision :=
| Allow (rule_id : string) (risk : RiskLevel) (scope : string) (conditions : list string)
| RequireApproval (rule_id reason : string) (risk : RiskLevel) (summary : string)
| Deny (rule_id reason : string) (risk : RiskLevel).
#[export] Instance PolicyDecision_eq_dec : EqDecision PolicyDecision.
Proof. solve_decision. Defined.

Definition decision_kind (d : PolicyDecision) : string :=
  match d with
  | Allow _ _ _ _ => "allow"
  | RequireApproval _ _ _ _ => "require_approval"
  | Deny _ _ _ => "deny"
  end.

Definition decision_rule_id (d : PolicyDecision) : string :=
  match d with
  | Allow r _ _ _ | RequireApproval r _ _ _ | Deny r _ _ => r
  end.

Definition decision_risk (d : PolicyDecision) : RiskLevel :=
  match d with
  | Allow _ r _ _ | RequireApproval _ _ r _ | Deny _ _ r => r
  end.

Record PolicyReport := {
  rep_schema_version : N;
  rep_protocol : string;
  rep_policy_version : string;
  rep_request_id : string;
  rep_action_id : string;
  rep_action_kind : string;
  rep_action_hash : string;
  rep_workspace_hash : string;
  rep_decision : PolicyDecision;
  rep_user_reason : string;
  rep_technical_reason : string;
  rep_recommended_action : string;
  rep_retriable : bool;
  rep_revalidation_required : bool;
  rep_audit_event_id : option string;
}.

Definition is_allow (d : PolicyDecision) : bool :=
  match d with Allow _ _ _ _ => true | _ => false end.
Definition is_require_approval (d : PolicyDecision) : bool :=
  match d with RequireApproval _ _ _ _ => true | _ => false end.
Definition is_deny (d : PolicyDecision) : bool :=
  match d with Deny _ _ _ => true | _ => false end.

(** [PolicyReport::allowed] *)
Definition allowed_report (r : PolicyReport) : bool := is_allow (rep_decision r).
