(* ===== verification/Paths.v ===== *)
(** * Path safety ([opticcode-policy/src/paths.rs])

    The inspection every filesystem action goes through: a real root
    directory, a relative target of normal components, no sensitive name,
    no nested repository, no symbolic link on the way, and a fingerprint
    that binds the content. *)

From stdpp Require Import base list strings.
From Stdlib Require Import NArith Ascii String.
From S2P Require Import Prelude Bytes UnixPath IO Model.

Local Open Scope string_scope.
Local Open Scope N_scope.

(** [blake3::hash(bytes).to_hex()], a third-party function. *)
Class Blake3 := blake3_hex : string -> string.

(** Its documented result: 64 lower-case hexadecimal digits. *)
Class Blake3Hex `{Blake3} : Prop :=
  blake3_hex_digits : forall s,
    strlen (blake3_hex s) = 64 /\ all_bytes is_ascii_hexdigit (blake3_hex s) = true.

Definition MAX_POLICY_HASH_FILE_BYTES : N := 16 * 1024 * 1024.

Inductive PathExpectation := ExpectFile | ExpectDirectory | ExistingEntry | NewFile.
#[export] Instance PathExpectation_eq_dec : EqDecision PathExpectation.
Proof. solve_decision. Defined.

Record PathFingerprint := {
  metadata_hash : string;
  content_hash : option string;
  fp_bytes : N;
  modified_unix_nanos : N;
}.
#[export] Instance PathFingerprint_eq_dec : EqDecision PathFingerprint.
Proof. solve_decision. Defined.

Record PathSafetyReport := {
  psr_root : string;
  psr_target : string;
  relative_path : string;
  psr_exists : bool;
  fingerprint_of : PathFingerprint;
}.

(** The derived [PartialEq]: paths compare by components. *)
Definition psr_eqb (a b : PathSafetyReport) : bool :=
  path_eqb (psr_root a) (psr_root b) && path_eqb (psr_target a) (psr_target b) &&
  path_eqb (relative_path a) (relative_path b) && Bool.eqb (psr_exists a) (psr_exists b) &&
  bool_decide (fingerprint_of a = fingerprint_of b).

Record PathSafetyError := PSE { pse_rule_id : string; pse_message : string }.
#[export] Instance PathSafetyError_eq_dec : EqDecision PathSafetyError.
Proof. solve_decision. Defined.

(** [Display] *)
Definition pse_display (e : PathSafetyError) : string := pse_rule_id e ++ ": " ++ pse_message e.

Abbreviation safe A := (result A PathSafetyError).

Definition metadata_is_link_or_reparse (m : metadata) : bool := is_symlink m.
Definition metadata_attributes (m : metadata) : N := 0.

(** A system call whose error is replaced by a fixed one. *)
Definition sys_or {A : Set} (c : syscall (result A io_error)) (e : PathSafetyError) : IO (safe A) :=
  io_map_err (fun _ => e) (sys c).

Definition fail {A} (rule message : string) : safe A := Err (PSE rule message).

(** [return Err(..)] when the condition holds. *)
Definition reject_if (b : bool) (rule message : string) : safe unit :=
  if b then fail rule message else Ok tt.

(** ** Sensitive names *)

Definition SENSITIVE_NAMES : list string :=
  [".git"; ".npmrc"; ".pypirc"; ".netrc"; "_netrc"; "auth.json"; ".ssh"; ".gnupg"; ".aws";
   ".azure"; ".kube"; "credentials"; "credentials.json"; "id_rsa"; "id_rsa.pub"; "id_dsa";
   "id_dsa.pub"; "id_ecdsa"; "id_ecdsa.pub"; "id_ed25519"; "id_ed25519.pub"].

Definition SENSITIVE_SUFFIXES : list string :=
  [".pem"; ".key"; ".p12"; ".pfx"; ".jks"; ".keystore"; ".kdbx"].

Definition SENSITIVE_STEMS : list string :=
  ["credential"; "credentials"; "secret"; "secrets"; "token"; "tokens"].

Definition is_sensitive_name (name : string) : bool :=
  if (name =?s ".env") || starts_with ".env." name || starts_with ".env-" name then true
  else if existsb (String.eqb name) SENSITIVE_NAMES then true
  else if existsb (fun suffix => ends_with suffix name) SENSITIVE_SUFFIXES then true
  else
    let stem := match rsplit_once "."%char name with Some (stem, _) => stem | None => name end in
    existsb (fun prefix =>
      (stem =?s prefix) || starts_with (prefix ++ "-") stem || starts_with (prefix ++ "_") stem)
      SENSITIVE_STEMS
    || starts_with "service-account" stem || starts_with "service_account" stem.

Definition reject_sensitive_path (relative : string) : safe unit :=
  reject_if
    (existsb (fun c => is_sensitive_name (to_ascii_lowercase (to_string_lossy (component_str c))))
       (components relative))
    "path.sensitive" "action target is covered by the sensitive-path policy".

(** ** Relative targets *)

Definition relative_target (root requested : string) : safe string :=
  relative <- (if is_absolute requested then
                 ok_or (PSE "path.outside_root" "absolute action target is outside its declared root")
                   (strip_prefix requested root)
               else Ok requested) ;?
  _ <- reject_if (is_empty relative)
         "path.root_target" "the root itself is not a valid file action target" ;?
  _ <- reject_if (existsb (fun c => negb (is_normal c)) (components relative))
         "path.invalid_relative" "action target must contain only normal relative components" ;?
  Ok relative.

(** ** Nested repositories *)

Fixpoint reject_nested_from (current : string) (cs : list component) : IO (safe unit) :=
  match cs with
  | [] => Ret (Ok tt)
  | c :: cs' =>
      let current := join current (component_str c) in
      r <- sys (SymlinkMetadata (join current ".git")) ;;
      match r with
      | Ok m =>
          if is_dir m || is_file m || metadata_is_link_or_reparse m
          then Ret (fail "git.nested_repository"
                      "action target crosses a nested repository or submodule boundary")
          else reject_nested_from current cs'
      | Err _ => reject_nested_from current cs'
      end
  end.

Definition reject_nested_repository (root relative : string) : IO (safe unit) :=
  reject_nested_from root (components relative).

(** ** Component walk *)

Fixpoint inspect_components_from (current : string) (cs : list component)
    (expectation : PathExpectation) : IO (safe (bool * option metadata)) :=
  match cs with
  | [] => Ret (fail "path.invalid_relative" "action target has no usable path component")
  | c :: cs' =>
      let current := join current (component_str c) in
      let last := match cs' with [] => true | _ => false end in
      r <- sys (SymlinkMetadata current) ;;
      match r with
      | Ok m =>
          if metadata_is_link_or_reparse m then
            Ret (fail "path.symlink_or_reparse"
                   "action target contains a symlink, junction, or reparse point")
          else if negb last && negb (is_dir m) then
            Ret (fail "path.invalid_component"
                   "an intermediate action path component is not a directory")
          else if last then Ret (Ok (true, Some m))
          else inspect_components_from current cs' expectation
      | Err e =>
          if bool_decide (io_error_kind e = NotFound) && bool_decide (expectation = NewFile) && last
          then Ret (Ok (false, None))
          else Ret (fail "path.not_found"
                      "action path component does not exist or cannot be inspected")
      end
  end.

Definition inspect_components (root relative : string) (expectation : PathExpectation)
    : IO (safe (bool * option metadata)) :=
  inspect_components_from root (components relative) expectation.

(** ** Fingerprints *)

Section Hashing.
Context `{Blake3}.

Definition metadata_value (m : metadata) : string :=
  dec (md_len m) ++ ":" ++ dec (default 0 (md_modified m)) ++ ":" ++
  bool_display (is_file m) ++ ":" ++ dec (metadata_attributes m).

Definition fingerprint (md : option metadata) (path : string) (expected_hash : option string)
    : IO (safe PathFingerprint) :=
  match md with
  | None => Ret (Ok {| metadata_hash := blake3_hex "missing"; content_hash := None;
                       fp_bytes := 0; modified_unix_nanos := 0 |})
  | Some m =>
      content <-?
        (if is_file m && (is_some expected_hash || (md_len m <=? MAX_POLICY_HASH_FILE_BYTES)) then
           lift (reject_if (MAX_POLICY_HASH_FILE_BYTES <? md_len m) "path.hash_limit"
                   "file is too large for a policy content-hash precondition") ;;?
           bytes <-? sys_or (ReadFile path)
                       (PSE "path.read_failed" "file cannot be hashed for policy validation") ;;
           let actual := blake3_hex bytes in
           lift (reject_if (is_some_and (fun expected => negb (expected =?s actual)) expected_hash)
                   "path.hash_mismatch" "file content no longer matches the expected hash") ;;?
           Ret (Ok (Some actual))
         else Ret (Ok None)) ;;
      Ret (Ok {| metadata_hash := blake3_hex (metadata_value m);
                 content_hash := content;
                 fp_bytes := md_len m;
                 modified_unix_nanos := default 0 (md_modified m) |})
  end.

(** The check of the expectation against what the walk found. *)
Definition check_expectation (md : option metadata) (expectation : PathExpectation) : safe unit :=
  match md with
  | Some m =>
      match expectation with
      | ExpectFile =>
          reject_if (negb (is_file m)) "path.not_file" "action target is not a regular file"
      | ExpectDirectory =>
          reject_if (negb (is_dir m)) "path.not_directory" "action target is not a directory"
      | NewFile => fail "path.already_exists" "new-file target already exists"
      | ExistingEntry => Ok tt
      end
  | None =>
      reject_if (negb (bool_decide (expectation = NewFile))) "path.not_found"
        "action target does not exist"
  end.

Definition inspect_path (target : PathTarget) (expectation : PathExpectation)
    : IO (safe PathSafetyReport) :=
  root_metadata <-? sys_or (SymlinkMetadata (pt_root target))
                      (PSE "path.root_unavailable" "action root cannot be inspected") ;;
  lift (reject_if (negb (is_dir root_metadata) || metadata_is_link_or_reparse root_metadata)
          "path.root_reparse" "action root must be a real directory") ;;?
  root <-? sys_or (Canonicalize (pt_root target))
             (PSE "path.root_unavailable" "action root cannot be resolved") ;;
  relative <-? lift (relative_target root (pt_path target)) ;;
  lift (reject_sensitive_path relative) ;;?
  reject_nested_repository root relative ;;?
  let candidate := join root relative in
  found <-? inspect_components root relative expectation ;;
  let '(exists_, md) := found in
  resolved_target <-?
    (if exists_ : bool then
       resolved <-? sys_or (Canonicalize candidate)
                      (PSE "path.resolve_failed" "action target cannot be resolved") ;;
       lift (reject_if (negb (path_starts_with resolved root))
               "path.outside_root" "action target resolves outside its declared root") ;;?
       Ret (Ok resolved)
     else Ret (Ok candidate)) ;;
  lift (check_expectation md expectation) ;;?
  fp <-? fingerprint md resolved_target (pt_expected_hash target) ;;
  Ret (Ok {| psr_root := root; psr_target := resolved_target; relative_path := relative;
             psr_exists := exists_; fingerprint_of := fp |}).

Definition inspect_root (path : string) : IO (safe string) :=
  md <-? sys_or (SymlinkMetadata path)
           (PSE "path.root_unavailable" "workspace root cannot be inspected") ;;
  lift (reject_if (negb (is_dir md) || metadata_is_link_or_reparse md)
          "path.root_reparse" "workspace root must be a real directory") ;;?
  canonical <-? sys_or (Canonicalize path)
                  (PSE "path.root_unavailable" "workspace root cannot be resolved") ;;
  canonical_md <-? sys_or (SymlinkMetadata canonical)
                     (PSE "path.root_unavailable" "canonical workspace root cannot be inspected") ;;
  lift (reject_if (negb (is_dir canonical_md) || metadata_is_link_or_reparse canonical_md)
          "path.root_reparse" "canonical workspace root must be a real directory") ;;?
  Ret (Ok canonical).

Definition revalidate (report : PathSafetyReport) : IO (safe PathSafetyReport) :=
  inspect_path
    {| pt_root := psr_root report; pt_path := relative_path report; pt_range := None;
       pt_expected_hash := content_hash (fingerprint_of report) |}
    (if psr_exists report then ExistingEntry else NewFile).
End Hashing.

(** ** Reasoning about checked programs *)

Section MustRules.
Context {An : Answers} {A B : Type} (Q : B -> Prop).

Lemma must_check b rule message (k : IO (safe B)) :
  (b = false -> must k (ok_post Q)) ->
  must (lift (reject_if b rule message) ;;? k) (ok_post Q).
Proof. intros Hk. destruct b; simpl; auto. Qed.

Lemma must_pure {E} (r : result A E) (k : A -> IO (result B E)) :
  (forall a, r = Ok a -> must (k a) (ok_post Q)) ->
  must (a <-? lift r ;; k a) (ok_post Q).
Proof. intros Hk. destruct r as [a|e]; [by apply Hk|done]. Qed.

(** Nothing is known about the answer. *)
Lemma must_any {E} (m : IO (result A E)) (k : A -> IO (result B E)) :
  (forall a, must (k a) (ok_post Q)) -> must (a <-? m ;; k a) (ok_post Q).
Proof.
  intros Hk. eapply must_try_ok with (P := fun _ => True); [|auto].
  apply must_true. by intros [].
Qed.

Lemma must_sys_or {E : Set} (c : syscall (result E io_error)) e (k : E -> IO (safe B)) :
  (forall a, answers c (Ok a) -> must (k a) (ok_post Q)) ->
  must (a <-? sys_or c e ;; k a) (ok_post Q).
Proof. intros Hk. simpl. intros [a|err] Ha; simpl; [by apply Hk|done]. Qed.

Lemma must_any_bind (m : IO A) (k : A -> IO B) :
  (forall a, must (k a) Q) -> must (a <- m ;; k a) Q.
Proof. intros Hk. eapply must_bind with (P := fun _ => True); [by apply must_true|auto]. Qed.
End MustRules.

Lemma reject_if_ok b rule message u : reject_if b rule message = Ok u <-> b = false.
Proof. unfold reject_if, fail. destruct b, u; naive_solver. Qed.
#[export] Hint Rewrite reject_if_ok : opt_ok.

(** ** What a successful inspection guarantees *)

(** The paths the component walk visits. *)
Fixpoint steps_from (current : string) (cs : list component) : list string :=
  match cs with
  | [] => []
  | c :: cs' => let current := join current (component_str c) in current :: steps_from current cs'
  end.

Section Guarantee.
Context `{Blake3} {An : Answers}.

(** A call answered that the path is an entry, and not a link. *)
Definition seen_unlinked (p : string) : Prop :=
  exists m, answers (SymlinkMetadata p) (Ok m) /\ is_symlink m = false.
Definition seen_directory (p : string) : Prop :=
  exists m, answers (SymlinkMetadata p) (Ok m) /\ is_dir m = true /\ is_symlink m = false.
Definition seen_missing (p : string) : Prop :=
  exists e, answers (SymlinkMetadata p) (Err e) /\ io_error_kind e = NotFound.
(** Not the top of a nested repository. *)
Definition seen_not_repository (p : string) : Prop :=
  exists r, answers (SymlinkMetadata (join p ".git")) r /\
    match r with
    | Ok m => is_dir m = false /\ is_file m = false /\ is_symlink m = false
    | Err _ => True
    end.

(** The walk from [current]: directories that are no links, then the
    target, present and no link, or missing. *)
Fixpoint walked (current : string) (cs : list component) (present : bool) : Prop :=
  match cs with
  | [] => False
  | [c] => let p := join current (component_str c) in
           if present then seen_unlinked p else seen_missing p
  | c :: cs' => let p := join current (component_str c) in
                seen_directory p /\ walked p cs' present
  end.

Record safe_report (target : PathTarget) (expectation : PathExpectation)
    (report : PathSafetyReport) : Prop := {
  safe_root : seen_directory (pt_root target) /\
    answers (Canonicalize (pt_root target)) (Ok (psr_root report));
  safe_relative : relative_target (psr_root report) (pt_path target) = Ok (relative_path report);
  safe_normal : Forall (fun c => is_normal c = true) (components (relative_path report));
  safe_not_sensitive :
    Forall (fun c => is_sensitive_name (to_ascii_lowercase (to_string_lossy (component_str c))) = false)
      (components (relative_path report));
  safe_not_nested :
    Forall seen_not_repository (steps_from (psr_root report) (components (relative_path report)));
  safe_walked :
    walked (psr_root report) (components (relative_path report)) (psr_exists report);
  safe_confined : psr_exists report = true ->
    answers (Canonicalize (join (psr_root report) (relative_path report))) (Ok (psr_target report)) /\
    path_starts_with (psr_target report) (psr_root report) = true;
  safe_missing : psr_exists report = false ->
    psr_target report = join (psr_root report) (relative_path report) /\
    content_hash (fingerprint_of report) = None;
  safe_existence : psr_exists report = negb (bool_decide (expectation = NewFile));
  safe_content : forall h, content_hash (fingerprint_of report) = Some h ->
    exists bytes, answers (ReadFile (psr_target report)) (Ok bytes) /\ h = blake3_hex bytes;
  safe_hash : forall h, expectation = ExpectFile -> pt_expected_hash target = Some h ->
    content_hash (fingerprint_of report) = Some h;
}.
End Guarantee.

Lemma existsb_false_Forall {A} (f : A -> bool) l :
  existsb f l = false <-> Forall (fun x => f x = false) l.
Proof.
  induction l as [|x l IH]; simpl; [by split|].
  rewrite orb_false_iff, IH. split; [intros []; by constructor|by inversion 1].
Qed.

Lemma relative_target_ok root requested relative :
  relative_target root requested = Ok relative ->
  is_empty relative = false /\ Forall (fun c => is_normal c = true) (components relative).
Proof.
  unfold relative_target. rewrite rbind_ok. intros (a & _ & H).
  apply rbind_ok in H as (? & He & H). apply rbind_ok in H as (? & Hr & H).
  apply reject_if_ok in He, Hr. simplify_eq. split; [done|]. apply existsb_false_Forall in Hr.
  eapply Forall_impl; [exact Hr|]. intros c Hc. by apply negb_false_iff in Hc.
Qed.

Section Inspection.
Context `{Blake3} {An : Answers}.

Lemma reject_nested_must current cs :
  must (reject_nested_from current cs)
    (ok_post (fun _ => Forall seen_not_repository (steps_from current cs))).
Proof.
  revert current. induction cs as [|c cs IH]; intros current; simpl; [constructor|].
  assert (forall r, answers (SymlinkMetadata (join (join current (component_str c)) ".git")) r ->
    match r with
    | Ok m => is_dir m = false /\ is_file m = false /\ is_symlink m = false
    | Err _ => True
    end -> must (reject_nested_from (join current (component_str c)) cs)
             (ok_post (fun _ => Forall seen_not_repository
                (join current (component_str c) :: steps_from (join current (component_str c)) cs)))) as Hgo.
  { intros r Hr Hm. eapply must_mono; [apply IH|]. intros [u|]; simpl; [|done].
    intros Hf. constructor; [|done]. by exists r. }
  intros [m|e] Hr; [|by eapply Hgo].
  destruct (_ || _) eqn:E; simpl; [done|]. unfold metadata_is_link_or_reparse in E. split_bools.
  by eapply Hgo.
Qed.

Lemma inspect_components_must current cs expectation :
  must (inspect_components_from current cs expectation)
    (ok_post (fun r => walked current cs (fst r) /\
       match r with
       | (true, Some m) => is_symlink m = false
       | (false, None) => expectation = NewFile
       | _ => False
       end)).
Proof.
  revert current. induction cs as [|c cs IH]; intros current; simpl; [done|].
  intros [m|e] Hr; unfold metadata_is_link_or_reparse.
  - destruct (is_symlink m) eqn:Hl; simpl; [done|].
    destruct cs as [|c' cs]; [simpl; split; [|done]; by exists m|].
    destruct (is_dir m) eqn:Hd; simpl negb; cbn match; [|done].
    eapply must_mono; [apply (IH (join current (component_str c)))|].
    intros [[b md]|]; simpl; [|done]. intros [Hw Hmd]. split; [|done]. split; [|done]. by exists m.
  - case_bool_decide as Hk; simpl; [|done]. case_bool_decide; simpl; [|done].
    destruct cs; simpl; [|done]. split; [by exists e|done].
Qed.

Lemma fingerprint_must m path expected :
  must (fingerprint (Some m) path expected)
    (ok_post (fun fp =>
       (forall h, content_hash fp = Some h ->
          exists bytes, answers (ReadFile path) (Ok bytes) /\ h = blake3_hex bytes) /\
       (forall h, is_file m = true -> expected = Some h -> content_hash fp = Some h))).
Proof.
  unfold fingerprint. eapply must_try_ok with (P := fun c =>
    (forall h, c = Some h -> exists bytes, answers (ReadFile path) (Ok bytes) /\ h = blake3_hex bytes) /\
    (forall h, is_file m = true -> expected = Some h -> c = Some h)).
  2:{ intros c Hc. simpl. done. }
  destruct (is_file m) eqn:Hf; simpl; [|done].
  destruct expected as [h|]; simpl.
  2:{ destruct (_ <=? _); [|done]. apply must_check; intros _. apply must_sys_or; intros bytes Hb.
      simpl. split; [|done]. intros h [= <-]. by exists bytes. }
  apply must_check; intros _. apply must_sys_or; intros bytes Hb.
  apply must_check; intros Hh. simpl. split; [intros h' [= <-]; by exists bytes|]. intros h' _ [= <-].
  apply negb_false_iff, String.eqb_eq in Hh. by subst.
Qed.

Lemma check_expectation_ok md expectation u :
  check_expectation md expectation = Ok u ->
  match md with
  | Some m => expectation <> NewFile /\ (expectation = ExpectFile -> is_file m = true)
  | None => expectation = NewFile
  end.
Proof.
  destruct md as [m|]; simpl.
  - destruct expectation; rewrite ?reject_if_ok; intros Hc; try done; split; try done; intros _.
    by apply negb_false_iff in Hc.
  - rewrite reject_if_ok. intros Hc. by apply negb_false_iff, bool_decide_eq_true in Hc.
Qed.

(** The resolved target and its fingerprint, once the walk has ended. *)
Lemma resolved_must root relative present :
  must (if present : bool then
          resolved <-? sys_or (Canonicalize (join root relative))
                         (PSE "path.resolve_failed" "action target cannot be resolved") ;;
          lift (reject_if (negb (path_starts_with resolved root))
                  "path.outside_root" "action target resolves outside its declared root") ;;?
          Ret (Ok resolved)
        else Ret (Ok (join root relative)))
    (ok_post (fun resolved =>
       (present = true -> answers (Canonicalize (join root relative)) (Ok resolved) /\
          path_starts_with resolved root = true) /\
       (present = false -> resolved = join root relative))).
Proof.
  destruct present; [|done]. apply must_sys_or; intros resolved Hres. apply must_check; intros Hc.
  apply negb_false_iff in Hc. done.
Qed.

Lemma inspect_path_must target expectation :
  must (inspect_path target expectation) (ok_post (safe_report target expectation)).
Proof.
  unfold inspect_path. apply must_sys_or; intros root_md Hmd. apply must_check; intros Hdir.
  apply must_sys_or; intros root Hroot. apply must_pure; intros relative Hrel.
  apply must_check; intros Hsens.
  eapply must_try_ok; [apply reject_nested_must|]. intros un Hnested.
  eapply must_try_ok; [apply inspect_components_must|]. intros [ex md] [Hw Hmd']. simpl in Hw.
  eapply must_try_ok; [apply resolved_must|].
  intros resolved [Hpresent Habsent]. apply must_pure; intros u Hexp. apply check_expectation_ok in Hexp.
  pose proof (relative_target_ok _ _ _ Hrel) as [_ Hnorm]. apply existsb_false_Forall in Hsens.
  eapply must_try_ok with (P := fun fp =>
    (forall h, content_hash fp = Some h ->
       exists bytes, answers (ReadFile resolved) (Ok bytes) /\ h = blake3_hex bytes) /\
    (forall h, expectation = ExpectFile ->
       pt_expected_hash target = Some h -> content_hash fp = Some h) /\
    (md = None -> content_hash fp = None)).
  { destruct md as [m|]; [|simpl; split; [done|split; [intros h ->; done|done]]].
    eapply must_mono; [apply fingerprint_must|]. intros [fp|]; simpl; [|done].
    intros [Hc Hfp]. split; [done|]. split; [|done]. intros h He Hh. apply Hfp; [|done]. by apply Hexp. }
  intros fp (Hfp & Hfp' & Hnone). unfold metadata_is_link_or_reparse in *. split_bools.
  split; simpl; try done.
  - split; [by exists root_md|done].
  - intros ->. split; [by apply Habsent|]. apply Hnone. by destruct md.
  - destruct ex, md as [m|]; try done; simpl.
    + by rewrite bool_decide_eq_false_2 by apply Hexp.
    + by rewrite bool_decide_eq_true_2.
Qed.

(** A root is a directory that is no link, before and after resolution. *)
Definition root_of (path root : string) : Prop :=
  seen_directory path /\ answers (Canonicalize path) (Ok root) /\ seen_directory root.

Lemma inspect_root_must path : must (inspect_root path) (ok_post (root_of path)).
Proof.
  unfold inspect_root. apply must_sys_or; intros md Hmd. apply must_check; intros Hd.
  apply must_sys_or; intros root Hroot. apply must_sys_or; intros md' Hmd'. apply must_check; intros Hd'.
  unfold metadata_is_link_or_reparse in *. split_bools. simpl. split; [by exists md|].
  split; [done|by exists md'].
Qed.
End Inspection.
