(* ===== verification/RagPolicy.v ===== *)
(** * The RAG corpus policy (rag/policy.rs, rag/schema.rs)

    Which files of a source root may enter the corpus: the deny lists for
    directories and file names, the allowlist of extensions, the inventory
    walk and the stable, scanned read of a candidate. *)

From stdpp Require Import base list strings.
From Stdlib Require Import NArith Ascii String Lia.
From S2P Require Import Prelude Bytes Text UnixPath IO Anyhow Secrets Paths.

Local Open Scope string_scope.
Local Open Scope N_scope.

Definition RAG_POLICY_VERSION : string := "rag-safe-v1".
Definition DEFAULT_RAG_MAX_FILE_BYTES : N := 512 * 1024.
Definition MAX_RAG_ENTRIES : N := 500000.
Definition MAX_RAG_EXCLUSIONS : N := 100000.

Definition ALLOWED_EXTENSIONS : list string :=
  ["gradle"; "groovy"; "java"; "json"; "kt"; "kts"; "lang"; "mcmeta"; "md"; "patch"; "properties";
   "rs"; "toml"; "txt"; "xml"; "yaml"; "yml"].

(** The letter of "idées-vrac", U+00E9. *)
Definition e_acute : string := String (byte 195) (String (byte 169) "").

Definition DENIED_DIRECTORIES : list (string * string * string) := [
  (".git", "path.directory.git", "repository_metadata");
  (".opticcode", "path.directory.opticcode", "agent_metadata");
  (".gradle", "path.directory.gradle", "build_cache");
  (".idea", "path.directory.idea", "editor_metadata");
  (".settings", "path.directory.settings", "editor_metadata");
  (".vscode", "path.directory.vscode", "editor_metadata");
  (".cache", "path.directory.cache", "cache");
  (".cargo", "path.directory.cargo", "credential_or_cache");
  (".m2", "path.directory.maven", "credential_or_cache");
  (".npm", "path.directory.npm", "credential_or_cache");
  (".ssh", "path.directory.ssh", "private_key");
  (".next", "path.directory.next", "build_output");
  (".pytest_cache", "path.directory.pytest", "cache");
  (".venv", "path.directory.venv", "dependency_cache");
  ("__pycache__", "path.directory.pycache", "cache");
  ("target", "path.directory.target", "build_output");
  ("build", "path.directory.build", "build_output");
  ("bin", "path.directory.bin", "build_output");
  ("classes", "path.directory.classes", "build_output");
  ("out", "path.directory.out", "build_output");
  ("dist", "path.directory.dist", "build_output");
  ("coverage", "path.directory.coverage", "generated_output");
  ("lib", "path.directory.lib", "dependency_cache");
  ("libs", "path.directory.libs", "dependency_cache");
  ("node_modules", "path.directory.node_modules", "dependency_cache");
  ("models", "path.directory.models", "model_artifact");
  ("data", "path.directory.data", "generated_or_private_data");
  ("id" ++ e_acute ++ "es-vrac", "path.directory.private_notes", "private_notes");
  ("idees-vrac", "path.directory.private_notes", "private_notes")].

(** ** Records (rag/schema.rs, rag/policy.rs) *)

Record RagPosition := { rp_line : N; rp_column : N }.

Record RagExclusionRecord := {
  re_collection : string;
  re_source : string;
  re_relative_path : string;
  re_entry_kind : string;
  re_rule_id : string;
  re_category : string;
  re_decision : string;
  re_position : option RagPosition;
}.

Record RagRuleDescriptor := { rd_rule_id : string; rd_category : string; rd_decision : string }.

Record RagSourceManifest := {
  rs_collection : string;
  rs_profile : string;
  rs_source : string;
  rs_source_label : string;
  rs_source_kind : string;
  rs_root_fingerprint : string;
  rs_source_version : option string;
}.

Record RagSourceDescriptor := { src_root : string; src_manifest : RagSourceManifest }.

Record RagCandidate := {
  c_absolute_path : string;
  c_relative_path : string;
  c_content_type : string;
  c_allow_rule : string;
}.

Record RagInventory := {
  inv_total_files : N;
  inv_skipped_large_files : N;
  inv_extensions : list (string * N);
  inv_important_files : list string;
  inv_candidates : list RagCandidate;
  inv_exclusions : list RagExclusionRecord;
  inv_scan_us : N;
}.

Record StableContent := {
  st_text : string;
  st_bytes : N;
  st_chars : N;
  st_blake3 : string;
  st_source_modified_unix_ms : option N;
}.

Record RagReadOutcome := {
  ro_content : option StableContent;
  ro_exclusion : option RagExclusionRecord;
  ro_stable_read_us : N;
  ro_secret_scan_us : N;
}.

(** ** Metadata *)

Definition metadata_has_reparse_attribute (m : metadata) : bool := false.
Definition metadata_is_link_or_reparse (m : metadata) : bool :=
  if is_symlink m then true else metadata_has_reparse_attribute m.

Definition metadata_attributes (m : metadata) : N := 0.

Record FileFingerprint := {
  ff_len : N;
  ff_modified : option N;
  ff_created : option N;
  ff_attributes : N;
}.
#[export] Instance FileFingerprint_eq_dec : EqDecision FileFingerprint.
Proof. solve_decision. Defined.

Definition fingerprint (m : metadata) : FileFingerprint := {|
  ff_len := md_len m; ff_modified := md_modified m; ff_created := md_created m;
  ff_attributes := metadata_attributes m |}.

(** [time.duration_since(UNIX_EPOCH).ok()] in milliseconds. *)
Definition modified_unix_ms (value : option N) : option N :=
  option_map (fun nanos => N.min (nanos / 1000000) u64_max) value.

(** [duration_us(started.elapsed())] *)
Definition elapsed_us (started : N) : IO N :=
  now <- sys InstantNow ;; Ret (N.min ((now - started) / 1000) u64_max).

(** ** Rules on paths *)

Definition normalized_relative (path : string) : string := replace_backslash (to_string_lossy path).
Definition normalized_absolute (path : string) : string := normalized_relative path.

Definition denied_directory (name : string) : option (string * string) :=
  let lower := to_lowercase name in
  if starts_with ".staging-" lower || starts_with ".opticcode-rag-" lower
  then Some ("path.directory.rag_staging", "generated_output")
  else option_map (fun '(_, rule_id, category) => (rule_id, category))
         (find (fun '(candidate, _, _) => (lower =? candidate)%string) DENIED_DIRECTORIES).

Definition denied_relative_directory (path : string) : option (string * string) :=
  let normalized := to_lowercase (normalized_relative path) in
  if (normalized =? "benchmarks/runs")%string || ends_with "/benchmarks/runs" normalized
  then Some ("path.directory.benchmark_runs", "generated_output") else None.

Definition credential_stores : list string := [".npmrc"; ".pypirc"; ".netrc"; "_netrc"; "auth.json"].
Definition private_key_names : list string :=
  ["id_rsa"; "id_rsa.pub"; "id_dsa"; "id_dsa.pub"; "id_ecdsa"; "id_ecdsa.pub"; "id_ed25519"; "id_ed25519.pub"].
Definition private_key_extensions : list string := ["pem"; "key"; "p12"; "pfx"; "jks"; "keystore"; "kdbx"].
Definition credential_stems : list string :=
  ["credential"; "credentials"; "secret"; "secrets"; "token"; "tokens"].

Definition is_credential_stem (stem : string) : bool :=
  existsb (fun prefix => (stem =? prefix)%string || starts_with (prefix ++ "-") stem
                         || starts_with (prefix ++ "_") stem) credential_stems
  || starts_with "service-account" stem || starts_with "service_account" stem.

Definition sensitive_file_name (path : string) : option (string * string) :=
  match file_name path with
  | None => None
  | Some n =>
      let name := to_ascii_lowercase (to_string_lossy n) in
      if (name =? ".env")%string || starts_with ".env." name
      then Some ("path.file.environment", "credential_file")
      else if existsb (String.eqb name) credential_stores
      then Some ("path.file.credential_store", "credential_store")
      else if existsb (String.eqb name) private_key_names
      then Some ("path.file.private_key", "private_key")
      else if is_some_and (fun e => existsb (String.eqb e) private_key_extensions)
                (option_map to_ascii_lowercase (extension path ≫= to_str))
      then Some ("path.file.private_key", "private_key")
      else if is_credential_stem (to_ascii_lowercase (default "" (file_stem path ≫= to_str)))
      then Some ("path.file.credential", "credential_file")
      else None
  end.

Definition allow_rule_for_extension (extension : string) : string :=
  if existsb (String.eqb extension)
       ["java"; "kt"; "kts"; "groovy"; "gradle"; "xml"; "yml"; "yaml"; "properties"; "json"; "mcmeta";
        "lang"; "md"; "txt"; "patch"; "toml"; "rs"]
  then "allow.extension." ++ extension else "allow.extension.unknown".

Definition content_types : list (string * string) := [
  ("java", "java"); ("kt", "kotlin"); ("kts", "kotlin"); ("groovy", "gradle"); ("gradle", "gradle");
  ("xml", "xml"); ("yml", "yaml"); ("yaml", "yaml"); ("properties", "properties"); ("json", "json");
  ("mcmeta", "json"); ("lang", "minecraft_lang"); ("md", "markdown"); ("txt", "text");
  ("patch", "patch"); ("toml", "toml"); ("rs", "rust")].

Definition allowlisted_content_type (extension : string) : option (string * string) :=
  option_map (fun '(_, content_type) => (content_type, allow_rule_for_extension extension))
    (find (fun '(e, _) => (extension =? e)%string) content_types).

Definition extension_label (path : string) : string :=
  default "<none>" (option_map to_ascii_lowercase (extension path ≫= to_str)).

(** The components but the last are no denied directory. *)
Fixpoint parents_denied (unreadable : bool) (cs : list component) : bool :=
  match cs with
  | [] | [_] => false
  | c :: cs' =>
      match to_str (component_str c) with
      | None => unreadable
      | Some name => is_some (denied_directory name)
      end || parents_denied unreadable cs'
  end.

Definition record_matches_allow_policy (relative_path content_type allow_rule : string) : bool :=
  if is_some (sensitive_file_name relative_path) then false
  else if parents_denied true (components relative_path) then false
  else is_some_and (fun '(expected_type, expected_rule) =>
         (content_type =? expected_type)%string && (allow_rule =? expected_rule)%string)
       (allowlisted_content_type (extension_label relative_path)).

Definition important_names : list string :=
  ["pom.xml"; "plugin.yml"; "paper-plugin.yml"; "bukkit.yml"; "build.gradle"; "build.gradle.kts";
   "gradle.properties"; "settings.gradle"; "settings.gradle.kts"; "readme.md"].

Definition is_important_file (path : string) : bool :=
  let normalized := to_ascii_lowercase (normalized_relative path) in
  let file_name := default "" (option_map to_ascii_lowercase (file_name path ≫= to_str)) in
  existsb (String.eqb file_name) important_names
  || starts_with "patches/" normalized || str_contains "/patches/" normalized
  || starts_with "src/main/resources/" normalized.

(** ** Exclusions *)

Definition exclusion (source : RagSourceDescriptor) (relative entry_kind rule_id category : string)
    (position : option RagPosition) : RagExclusionRecord := {|
  re_collection := rs_collection (src_manifest source);
  re_source := rs_source (src_manifest source);
  re_relative_path := normalized_relative relative;
  re_entry_kind := entry_kind;
  re_rule_id := rule_id;
  re_category := category;
  re_decision := "excluded";
  re_position := position |}.

Definition push_exclusion (exclusions : list RagExclusionRecord) (e : RagExclusionRecord)
    : res (list RagExclusionRecord) :=
  if MAX_RAG_EXCLUSIONS <=? N.of_nat (List.length exclusions)
  then bail ("RAG source exceeds the bounded exclusion limit of " ++ dec MAX_RAG_EXCLUSIONS)
  else Ok (exclusions ++ [e])%list.

Definition exclusion_cmp (l r : RagExclusionRecord) : comparison :=
  then_with (str_cmp (re_relative_path l) (re_relative_path r)) (str_cmp (re_rule_id l) (re_rule_id r)).

Definition rule (rule_id category : string) : RagRuleDescriptor :=
  {| rd_rule_id := rule_id; rd_category := category; rd_decision := "exclude" |}.

Definition base_rules : list RagRuleDescriptor := [
  rule "path.symlink_or_reparse" "path_safety"; rule "path.escape" "path_safety";
  rule "path.non_utf8" "path_safety"; rule "path.unsupported_entry" "path_safety";
  rule "path.directory.rag_staging" "generated_output"; rule "path.directory.benchmark_runs" "generated_output";
  rule "type.extensionless" "content_type"; rule "type.not_allowlisted" "content_type";
  rule "size.too_large" "resource_limit"; rule "content.invalid_utf8" "content_type";
  rule "content.changed_during_read" "consistency"; rule "io.metadata_failed" "io"; rule "io.read_failed" "io";
  rule "path.file.environment" "credential_file"; rule "path.file.credential" "credential_file";
  rule "path.file.private_key" "private_key"; rule "path.file.credential_store" "credential_store"].

(** [Vec::dedup_by] on the rule identifier. *)
Fixpoint dedup_rules (l : list RagRuleDescriptor) : list RagRuleDescriptor :=
  match l with
  | r :: l' =>
      match dedup_rules l' with
      | r' :: k => if (rd_rule_id r' =? rd_rule_id r)%string then r :: k else r :: r' :: k
      | [] => [r]
      end
  | [] => []
  end.

Definition exclusion_rules : list RagRuleDescriptor :=
  dedup_rules (sort_by (fun l r => str_cmp (rd_rule_id l) (rd_rule_id r))
    (base_rules ++ map (fun '(_, rule_id, category) => rule rule_id category) DENIED_DIRECTORIES
     ++ map (fun '(rule_id, category, decision) =>
               {| rd_rule_id := rule_id; rd_category := category; rd_decision := decision |})
            secret_rule_descriptors)).

(** [HashSet::insert] over (source, path, rule). *)
Definition ensure_unique_paths (records : list RagExclusionRecord) : bool :=
  bool_decide (NoDup (map (fun r => (re_source r, re_relative_path r, re_rule_id r)) records)).

(** ** Sources *)

Definition detect_source_kind (root : string) : IO string :=
  let normalized := to_ascii_lowercase (normalized_absolute root) in
  pack <- path_exists (join root "pack.mcmeta") ;;
  if pack : bool then Ret "resource-pack" else
  if str_contains "pandaspigot" normalized then Ret "pandaspigot" else
  plugin <- path_exists (join root "src/main/resources/plugin.yml") ;;
  if plugin : bool then Ret "plugin" else
  cargo <- path_exists (join root "Cargo.toml") ;;
  if negb cargo then Ret "external" else
  docs <- path_exists (join root "docs") ;;
  Ret (if docs : bool then "opticcode" else "external").

(** [&value[..n]], which panics beyond the end. *)
Definition slice_or_panic (value : string) (n : N) : IO string :=
  match slice_to value n with
  | Some s => Ret s
  | None => Panic "byte index out of bounds"
  end.

Section Sources.
Context `{Blake3}.

Definition prepare_source (root : string) : IO (res RagSourceDescriptor) :=
  original_metadata <-? io_context ("failed to inspect RAG source root: " ++ display root) (SymlinkMetadata root) ;;
  if metadata_is_link_or_reparse original_metadata || negb (is_dir original_metadata)
  then Ret (bail ("RAG source root must be a real directory, not a symlink or reparse point: " ++ display root)) else
  canonical <-? io_context ("failed to resolve RAG source root: " ++ display root) (Canonicalize root) ;;
  canonical_metadata <-? io_context ("failed to inspect canonical RAG source root: " ++ display canonical)
                           (SymlinkMetadata canonical) ;;
  if metadata_is_link_or_reparse canonical_metadata || negb (is_dir canonical_metadata)
  then Ret (bail ("canonical RAG source root is unsafe: " ++ display canonical)) else
  let root_fingerprint := blake3_hex (normalized_absolute canonical) in
  prefix16 <- slice_or_panic root_fingerprint 16 ;;
  source_kind <- detect_source_kind canonical ;;
  prefix12 <- slice_or_panic root_fingerprint 12 ;;
  Ret (Ok {|
    src_root := canonical;
    src_manifest := {|
      rs_collection := source_kind ++ "-" ++ prefix12;
      rs_profile := RAG_POLICY_VERSION;
      rs_source := "source-" ++ prefix16;
      rs_source_label := default "root" (file_name canonical ≫= to_str);
      rs_source_kind := source_kind;
      rs_root_fingerprint := root_fingerprint;
      rs_source_version := None |} |}).

Fixpoint prepare_each (roots : list string) : IO (res (list RagSourceDescriptor)) :=
  match roots with
  | [] => Ret (Ok [])
  | root :: roots' =>
      source <-? prepare_source root ;;
      sources <-? prepare_each roots' ;;
      Ret (Ok (source :: sources))
  end.

Definition roots_overlap (l r : string) : bool :=
  path_eqb l r || path_starts_with l r || path_starts_with r l.

(** The first pair, in the order of the two loops, whose roots overlap. *)
Fixpoint first_overlap (roots : list string) : option (string * string) :=
  match roots with
  | [] => None
  | l :: roots' =>
      match find (roots_overlap l) roots' with
      | Some r => Some (l, r)
      | None => first_overlap roots'
      end
  end.

Definition source_cmp (l r : RagSourceDescriptor) : comparison :=
  str_cmp (rs_source (src_manifest l)) (rs_source (src_manifest r)).

Definition prepare_sources (roots : list string) : IO (res (list RagSourceDescriptor)) :=
  match roots with
  | [] => Ret (bail "at least one explicitly authorized RAG source root is required")
  | _ =>
      sources <-? prepare_each roots ;;
      let sources := sort_by source_cmp sources in
      Ret (match first_overlap (map src_root sources) with
           | Some (l, r) =>
               bail ("RAG source roots must be distinct and non-overlapping: " ++ display l
                     ++ " and " ++ display r)
           | None => Ok sources
           end)
  end.
End Sources.

(** ** The inventory walk *)

Record scan := {
  sc_directories : list string;
  sc_total_entries : N;
  sc_inventory : RagInventory;
}.

Definition with_exclusions (es : list RagExclusionRecord) (i : RagInventory) : RagInventory := {|
  inv_total_files := inv_total_files i; inv_skipped_large_files := inv_skipped_large_files i;
  inv_extensions := inv_extensions i; inv_important_files := inv_important_files i;
  inv_candidates := inv_candidates i; inv_exclusions := es; inv_scan_us := inv_scan_us i |}.

(** [push_exclusion(&mut exclusions, ..)?; continue] *)
Definition excluded_entry (s : scan) (e : RagExclusionRecord) : res scan :=
  es <- push_exclusion (inv_exclusions (sc_inventory s)) e ;?
  Ok {| sc_directories := sc_directories s; sc_total_entries := sc_total_entries s;
        sc_inventory := with_exclusions es (sc_inventory s) |}.

Definition counted_file (extension : string) (i : RagInventory) : RagInventory := {|
  inv_total_files := inv_total_files i + 1; inv_skipped_large_files := inv_skipped_large_files i;
  inv_extensions := map_update extension (fun n => default 0 n + 1) (inv_extensions i);
  inv_important_files := inv_important_files i; inv_candidates := inv_candidates i;
  inv_exclusions := inv_exclusions i; inv_scan_us := inv_scan_us i |}.

Definition skipped_large_file (i : RagInventory) : RagInventory := {|
  inv_total_files := inv_total_files i; inv_skipped_large_files := inv_skipped_large_files i + 1;
  inv_extensions := inv_extensions i; inv_important_files := inv_important_files i;
  inv_candidates := inv_candidates i; inv_exclusions := inv_exclusions i; inv_scan_us := inv_scan_us i |}.

Definition add_candidate (important : list string) (c : RagCandidate) (i : RagInventory) : RagInventory := {|
  inv_total_files := inv_total_files i; inv_skipped_large_files := inv_skipped_large_files i;
  inv_extensions := inv_extensions i; inv_important_files := (inv_important_files i ++ important)%list;
  inv_candidates := (inv_candidates i ++ [c])%list; inv_exclusions := inv_exclusions i;
  inv_scan_us := inv_scan_us i |}.

Definition with_inventory (i : RagInventory) (s : scan) : scan :=
  {| sc_directories := sc_directories s; sc_total_entries := sc_total_entries s; sc_inventory := i |}.

(** A regular file: its name, its type, its size and its path decide. *)
Definition scan_file (source : RagSourceDescriptor) (path relative : string) (m : metadata) (s : scan) : res scan :=
  let extension := extension_label path in
  let s := with_inventory (counted_file extension (sc_inventory s)) s in
  let excluded := fun rule_id category => excluded_entry s (exclusion source relative "file" rule_id category None) in
  match sensitive_file_name relative with
  | Some (rule_id, category) => excluded rule_id category
  | None =>
      match allowlisted_content_type extension with
      | None =>
          excluded (if (extension =? "<none>")%string then "type.extensionless" else "type.not_allowlisted")
            "content_type"
      | Some (content_type, allow_rule) =>
          if DEFAULT_RAG_MAX_FILE_BYTES <? md_len m then
            excluded_entry (with_inventory (skipped_large_file (sc_inventory s)) s)
              (exclusion source relative "file" "size.too_large" "resource_limit" None)
          else
            match option_map replace_backslash (to_str relative) with
            | None => excluded "path.non_utf8" "path_safety"
            | Some relative_path =>
                Ok (with_inventory
                     (add_candidate (if is_important_file relative then [relative] else [])
                        {| c_absolute_path := path; c_relative_path := relative_path;
                           c_content_type := content_type; c_allow_rule := allow_rule |}
                        (sc_inventory s)) s)
            end
      end
  end.

Definition entry_name (path : string) : string := default "" (file_name path).

Definition scan_entry (source : RagSourceDescriptor) (path : string) (s : scan) : IO (res scan) :=
  let s := {| sc_directories := sc_directories s; sc_total_entries := saturating_add64 (sc_total_entries s) 1;
              sc_inventory := sc_inventory s |} in
  if MAX_RAG_ENTRIES <? sc_total_entries s
  then Ret (bail ("RAG source exceeds the bounded entry limit of " ++ dec MAX_RAG_ENTRIES)) else
  match strip_prefix path (src_root source) with
  | None => Ret (excluded_entry s (exclusion source "<outside-root>" "unknown" "path.escape" "path_safety" None))
  | Some relative =>
      metadata <- sys (SymlinkMetadata path) ;;
      Ret (match metadata with
      | Err _ => excluded_entry s (exclusion source relative "unknown" "io.metadata_failed" "io" None)
      | Ok m =>
          if metadata_is_link_or_reparse m then
            excluded_entry s (exclusion source relative (if is_dir m then "directory" else "file")
                                "path.symlink_or_reparse" "path_safety" None)
          else if is_dir m then
            match (match denied_relative_directory relative with
                   | Some d => Some d
                   | None => denied_directory (to_string_lossy (entry_name path))
                   end) with
            | Some (rule_id, category) =>
                excluded_entry s (exclusion source relative "directory" rule_id category None)
            | None =>
                Ok {| sc_directories := (sc_directories s ++ [path])%list;
                      sc_total_entries := sc_total_entries s; sc_inventory := sc_inventory s |}
            end
          else if negb (is_file m) then
            excluded_entry s (exclusion source relative "other" "path.unsupported_entry" "path_safety" None)
          else scan_file source path relative m s
      end)
  end.

Fixpoint scan_entries (source : RagSourceDescriptor) (paths : list string) (s : scan) : IO (res scan) :=
  match paths with
  | [] => Ret (Ok s)
  | path :: paths' => s <-? scan_entry source path s ;; scan_entries source paths' s
  end.

(** [collect::<Result<Vec<_>, _>>()] *)
Fixpoint collect_entries (entries : list (io string)) : res (list string) :=
  match entries with
  | [] => Ok []
  | Err e :: _ => Err (of_io e)
  | Ok p :: entries' => ps <- collect_entries entries' ;? Ok (p :: ps)
  end.

Definition entry_key (path : string) : string := to_ascii_lowercase (to_string_lossy (entry_name path)).

(** [directories.pop()] takes the last one.  One unit of [fuel] per
    directory; [S MAX_RAG_ENTRIES] units are enough, since every directory
    but the root was counted as an entry. *)
Fixpoint scan_directories (fuel : nat) (source : RagSourceDescriptor) (s : scan) : IO (res scan) :=
  match rev (sc_directories s) with
  | [] => Ret (Ok s)
  | directory :: rest =>
      match fuel with
      | O => Panic "out of fuel"
      | S fuel' =>
          entries <-? io_context ("failed to enumerate RAG directory: " ++ display directory) (ReadDir directory) ;;
          paths <-? Ret (collect_entries entries) ;;
          s <-? scan_entries source (sort_by (fun p q => str_cmp (entry_key p) (entry_key q)) paths)
                 {| sc_directories := rev rest; sc_total_entries := sc_total_entries s;
                    sc_inventory := sc_inventory s |} ;;
          scan_directories fuel' source s
      end
  end.

Definition empty_inventory : RagInventory := {|
  inv_total_files := 0; inv_skipped_large_files := 0; inv_extensions := []; inv_important_files := [];
  inv_candidates := []; inv_exclusions := []; inv_scan_us := 0 |}.

Definition scan_fuel : nat := N.to_nat (MAX_RAG_ENTRIES + 1).

Definition collect_inventory (source : RagSourceDescriptor) : IO (res RagInventory) :=
  started <- sys InstantNow ;;
  s <-? scan_directories scan_fuel source
         {| sc_directories := [src_root source]; sc_total_entries := 0; sc_inventory := empty_inventory |} ;;
  let i := sc_inventory s in
  scan_us <- elapsed_us started ;;
  Ret (Ok {|
    inv_total_files := inv_total_files i;
    inv_skipped_large_files := inv_skipped_large_files i;
    inv_extensions := inv_extensions i;
    inv_important_files := sort_by path_cmp (inv_important_files i);
    inv_candidates := sort_by (fun l r => str_cmp (c_relative_path l) (c_relative_path r)) (inv_candidates i);
    inv_exclusions := sort_by exclusion_cmp (inv_exclusions i);
    inv_scan_us := scan_us |}).

(** ** The stable read of a candidate *)

Section Read.
Context `{Blake3, Regex}.
Context (source : RagSourceDescriptor) (candidate : RagCandidate).

Definition excluded (read_started : N) (rule_id category : string) : IO RagReadOutcome :=
  stable_read_us <- elapsed_us read_started ;;
  Ret {| ro_content := None;
         ro_exclusion := Some (exclusion source (c_relative_path candidate) "file" rule_id category None);
         ro_stable_read_us := stable_read_us;
         ro_secret_scan_us := 0 |}.

(** [path_has_link_or_reparse(root, absolute)] *)
Fixpoint components_link (current : string) (cs : list component) : IO (res bool) :=
  match cs with
  | [] => Ret (Ok false)
  | c :: cs' =>
      let current := join current (component_str c) in
      m <-? io_context ("failed to inspect RAG path component: " ++ display current) (SymlinkMetadata current) ;;
      if metadata_is_link_or_reparse m then Ret (Ok true) else components_link current cs'
  end.

Definition path_has_link_or_reparse (root absolute : string) : IO (res bool) :=
  match strip_prefix absolute root with
  | None => Ret (bail "RAG candidate escaped its canonical source root")
  | Some relative => components_link root (components relative)
  end.

(** [Ok(value) if value.is_file() && !metadata_is_link_or_reparse(&value)] *)
Definition regular (m : io metadata) : option metadata :=
  match m with
  | Ok m => if is_file m && negb (metadata_is_link_or_reparse m) then Some m else None
  | Err _ => None
  end.

(** [Ok(value) if value.strip_prefix(&source.root).is_ok()] *)
Definition inside (p : io string) : option string :=
  match p with
  | Ok p => if is_some (strip_prefix p (src_root source)) then Some p else None
  | Err _ => None
  end.

(** The text that was read, scanned and described. *)
Definition scan_text (read_started : N) (before_metadata : metadata) (text : string) : IO RagReadOutcome :=
  stable_read_us <- elapsed_us read_started ;;
  secret_started <- sys InstantNow ;;
  detection <- detect_secret text ;;
  secret_scan_us <- elapsed_us secret_started ;;
  Ret match detection with
  | Some d => {|
      ro_content := None;
      ro_exclusion := Some (exclusion source (c_relative_path candidate) "file" (sd_rule_id d) (sd_category d)
                              (Some {| rp_line := sd_line d; rp_column := sd_column d |}));
      ro_stable_read_us := stable_read_us;
      ro_secret_scan_us := secret_scan_us |}
  | None => {|
      ro_content := Some {|
        st_text := text; st_bytes := strlen text; st_chars := char_count text; st_blake3 := blake3_hex text;
        st_source_modified_unix_ms := modified_unix_ms (md_modified before_metadata) |};
      ro_exclusion := None;
      ro_stable_read_us := stable_read_us;
      ro_secret_scan_us := secret_scan_us |}
  end.

(** After the bytes were read: the handle and the path are inspected
    again. *)
Definition recheck_candidate (read_started : N) (before_metadata : metadata) (before_canonical file bytes : string)
    : IO RagReadOutcome :=
  if DEFAULT_RAG_MAX_FILE_BYTES <? strlen bytes then excluded read_started "size.too_large" "resource_limit" else
  handle_after <- sys (HandleMetadata file) ;;
  match handle_after with
  | Err _ => excluded read_started "io.metadata_failed" "io"
  | Ok handle_after =>
      path_after <- sys (SymlinkMetadata (c_absolute_path candidate)) ;;
      match regular path_after with
      | None => excluded read_started "path.symlink_or_reparse" "path_safety"
      | Some path_after =>
          after_canonical <- sys (Canonicalize (c_absolute_path candidate)) ;;
          match inside after_canonical with
          | None => excluded read_started "path.escape" "path_safety"
          | Some after_canonical =>
              if negb (path_eqb before_canonical after_canonical)
                 || bool_decide (fingerprint before_metadata <> fingerprint handle_after)
                 || bool_decide (fingerprint before_metadata <> fingerprint path_after)
              then excluded read_started "content.changed_during_read" "consistency" else
              if utf8_valid bytes then scan_text read_started before_metadata bytes
              else excluded read_started "content.invalid_utf8" "content_type"
          end
      end
  end.

Definition read_stable_candidate_with_hook (after_read : string -> IO unit) : IO RagReadOutcome :=
  read_started <- sys InstantNow ;;
  before <- sys (SymlinkMetadata (c_absolute_path candidate)) ;;
  match regular before with
  | None => excluded read_started "path.symlink_or_reparse" "path_safety"
  | Some before_metadata =>
      if DEFAULT_RAG_MAX_FILE_BYTES <? md_len before_metadata
      then excluded read_started "size.too_large" "resource_limit" else
      before_canonical <- sys (Canonicalize (c_absolute_path candidate)) ;;
      match inside before_canonical with
      | None => excluded read_started "path.escape" "path_safety"
      | Some before_canonical =>
          linked <- path_has_link_or_reparse (src_root source) before_canonical ;;
          if match linked with Ok b => b | Err _ => true end
          then excluded read_started "path.symlink_or_reparse" "path_safety" else
          file <- sys (OpenRead (c_absolute_path candidate)) ;;
          match file with
          | Err _ => excluded read_started "io.read_failed" "io"
          | Ok file =>
              handle_before <- sys (HandleMetadata file) ;;
              match handle_before with
              | Err _ => excluded read_started "io.metadata_failed" "io"
              | Ok handle_before =>
                  if bool_decide (fingerprint handle_before <> fingerprint before_metadata)
                  then excluded read_started "content.changed_during_read" "consistency" else
                  read <- sys (ReadHandle file) ;;
                  match read with
                  | Err _ => excluded read_started "io.read_failed" "io"
                  | Ok content =>
                      after_read (c_absolute_path candidate) ;;
                      recheck_candidate read_started before_metadata before_canonical file
                        (take_bytes (N.to_nat (DEFAULT_RAG_MAX_FILE_BYTES + 1)) content)
                  end
              end
          end
      end
  end.

Definition read_stable_candidate : IO RagReadOutcome := read_stable_candidate_with_hook (fun _ => Ret tt).
End Read.
