(* ===== verification/Reference.v ===== *)
(** * Safe workspace references (rag/reference.rs)

    The read every edit and every explicit file reference goes through: the
    requested path is made relative, the deny lists are consulted, every
    component is inspected before and after the read, and the content is
    UTF-8 text without a detected secret. *)

From stdpp Require Import base list strings.
From Stdlib Require Import NArith Ascii String Lia.
From S2P Require Import Prelude Bytes Text UnixPath IO Secrets Paths RagPolicy.

Local Open Scope string_scope.
Local Open Scope N_scope.

Definition MAX_SAFE_REFERENCE_FILE_BYTES : N := 2 * 1024 * 1024.

Record SafeWorkspaceFile := {
  sf_relative_path : string;
  sf_bytes : N;
  sf_chars : N;
  sf_content_hash : string;
  sf_content : string;
}.

Record SafeReferenceError := RefError { ref_rule_id : string; ref_message : string }.
Abbreviation refer A := (result A SafeReferenceError).

(** [Display for SafeReferenceError] *)
Definition safe_reference_error_display (e : SafeReferenceError) : string := ref_rule_id e ++ ": " ++ ref_message e.

Definition refuse {A} (rule_id message : string) : refer A := Err (RefError rule_id message).

(** [call.map_err(|_| SafeReferenceError::new(rule_id, message))] *)
Definition sys_refuse {A : Set} (c : syscall (io A)) (rule_id message : string) : IO (refer A) :=
  io_map_err (fun _ => RefError rule_id message) (sys c).

Definition relative_request_path (canonical_root requested_path : string) : refer string :=
  relative <- (if is_absolute requested_path
               then ok_or (RefError "path.escape" "absolute reference is outside the workspace")
                      (strip_prefix requested_path canonical_root)
               else Ok requested_path) ;?
  if is_empty relative then refuse "path.not_file" "workspace root is not a file reference" else
  if forallb is_normal (components relative) then Ok relative
  else refuse "path.invalid_relative" "reference path must contain only normal relative components".

(** The first component but the last that names a denied directory. *)
Fixpoint denied_parent (cs : list component) : option string :=
  match cs with
  | [] | [_] => None
  | c :: cs' =>
      match to_str (component_str c) ≫= denied_directory with
      | Some (rule_id, _) => Some rule_id
      | None => denied_parent cs'
      end
  end.

Definition reject_sensitive_path (relative : string) : refer unit :=
  match denied_relative_directory relative with
  | Some (rule_id, _) => refuse rule_id "reference points into an excluded generated directory"
  | None =>
      match denied_parent (components relative) with
      | Some rule_id => refuse rule_id "reference points into an excluded directory"
      | None =>
          match sensitive_file_name relative with
          | Some (rule_id, _) => refuse rule_id "reference points to a sensitive file name"
          | None => Ok tt
          end
      end
  end.

Fixpoint validate_components_from (current : string) (cs : list component) : IO (refer unit) :=
  match cs with
  | [] => Ret (Ok tt)
  | c :: cs' =>
      let current := join current (component_str c) in
      m <-? sys_refuse (SymlinkMetadata current) "path.not_found" "reference path component does not exist" ;;
      if metadata_is_link_or_reparse m
      then Ret (refuse "path.symlink_or_reparse" "reference path contains a symlink, junction, or reparse point")
      else validate_components_from current cs'
  end.

Definition validate_components (root relative : string) : IO (refer unit) :=
  validate_components_from root (components relative).

Definition changed {A} (message : string) : refer A := refuse "content.changed_during_read" message.

Section Read.
Context `{Blake3, Regex}.

(** The checks after the bytes were read. *)
Definition recheck_reference (root relative candidate file : string) (before : FileFingerprint)
    (before_canonical : string) : IO (refer unit) :=
  validate_components root relative ;;?
  handle_after <-? sys_refuse (HandleMetadata file) "io.metadata_failed" "open file cannot be re-inspected" ;;
  after_metadata <-? sys_refuse (SymlinkMetadata candidate) "content.changed_during_read" "referenced file disappeared" ;;
  after_canonical <-? sys_refuse (Canonicalize candidate) "content.changed_during_read" "referenced file moved" ;;
  Ret (if metadata_is_link_or_reparse after_metadata
          || negb (path_eqb before_canonical after_canonical)
          || bool_decide (before <> fingerprint handle_after)
          || bool_decide (before <> fingerprint after_metadata)
       then changed "referenced file changed while it was being read" else Ok tt).

(** The content that was read, as text. *)
Definition accept_reference (relative bytes : string) : IO (refer SafeWorkspaceFile) :=
  if negb (utf8_valid bytes)
  then Ret (refuse "content.invalid_utf8" "referenced file is not UTF-8 text") else
  secret <- detect_secret bytes ;;
  Ret match secret with
  | Some d =>
      refuse (sd_rule_id d)
        ("referenced file was excluded by secret scanning at line " ++ dec (sd_line d)
         ++ ", column " ++ dec (sd_column d))
  | None => Ok {|
      sf_relative_path := normalized_relative relative;
      sf_bytes := strlen bytes;
      sf_chars := char_count bytes;
      sf_content_hash := blake3_hex bytes;
      sf_content := bytes |}
  end.

Definition inspect_workspace_root (workspace : string) : IO (refer string) :=
  m <-? sys_refuse (SymlinkMetadata workspace) "io.workspace_metadata" "workspace cannot be inspected" ;;
  if negb (is_dir m) || metadata_is_link_or_reparse m
  then Ret (refuse "path.workspace_reparse" "workspace root must be a real directory") else
  sys_refuse (Canonicalize workspace) "io.workspace_resolve" "workspace cannot be resolved".

Definition read_candidate (root relative : string) (max_bytes : N) : IO (refer SafeWorkspaceFile) :=
  let candidate := join root relative in
  validate_components root relative ;;?
  before_metadata <-? sys_refuse (SymlinkMetadata candidate) "path.not_found" "referenced file does not exist" ;;
  if negb (is_file before_metadata) || metadata_is_link_or_reparse before_metadata
  then Ret (refuse "path.symlink_or_reparse" "reference is not a regular file") else
  if max_bytes <? md_len before_metadata
  then Ret (refuse "size.too_large" ("referenced file exceeds the " ++ dec max_bytes ++ "-byte limit")) else
  before_canonical <-? sys_refuse (Canonicalize candidate) "path.resolve_failed" "referenced file cannot be resolved" ;;
  if negb (path_starts_with before_canonical root)
  then Ret (refuse "path.escape" "referenced file resolves outside the workspace") else
  let before := fingerprint before_metadata in
  file <-? sys_refuse (OpenRead candidate) "io.read_failed" "referenced file cannot be opened" ;;
  handle_before <-? sys_refuse (HandleMetadata file) "io.metadata_failed" "open file cannot be inspected" ;;
  if bool_decide (fingerprint handle_before <> before)
  then Ret (changed "referenced file changed before it could be read") else
  content <-? sys_refuse (ReadHandle file) "io.read_failed" "referenced file could not be read" ;;
  let bytes := take_bytes (N.to_nat (saturating_add64 max_bytes 1)) content in
  if max_bytes <? strlen bytes
  then Ret (refuse "size.too_large" ("referenced file exceeds the " ++ dec max_bytes ++ "-byte limit")) else
  recheck_reference root relative candidate file before before_canonical ;;?
  accept_reference relative bytes.

Definition read_safe_workspace_file (workspace requested_path : string) (max_bytes : N)
    : IO (refer SafeWorkspaceFile) :=
  if (max_bytes =? 0) || (MAX_SAFE_REFERENCE_FILE_BYTES <? max_bytes)
  then Ret (refuse "size.invalid_limit"
              ("reference byte limit must be between 1 and " ++ dec MAX_SAFE_REFERENCE_FILE_BYTES)) else
  root <-? inspect_workspace_root workspace ;;
  relative <-? Ret (relative_request_path root requested_path) ;;
  Ret (reject_sensitive_path relative) ;;?
  read_candidate root relative max_bytes.
End Read.
