(* ===== verification/Grounding.v ===== *)
(** * Grounding: scope, manifests, evidence (opticcode-core: grounding.rs)

    The sources a chat answer may use: the effective scope of a request, the
    manifest of what is injected into the prompt, the prompt itself, and the
    validation of the citations of an answer against the manifest. *)

From stdpp Require Import base list strings gmap.
From Stdlib Require Import NArith ZArith Ascii String Lia.
From S2P Require Import Prelude Bytes Text IO Anyhow Paths.

Local Open Scope string_scope.
Local Open Scope N_scope.

Definition GROUNDING_SCHEMA_VERSION : N := 1.
Definition GROUNDING_PROMPT_VERSION : string := "opticcode-grounding-prompt-v2".

Inductive ChatContextScope := Automatic | ReferencesPreferred | ReferencesOnly.
Inductive ChatScopeReason := ExplicitSetting | ExplicitPromptRestriction | DefaultSetting | ServerDowngrade.
Inductive ChatEvidenceMode := Optional | Required.
Inductive GroundingRoute := AutomaticAssistant | ReferenceLlm | DocumentFacts.

#[export] Instance ChatContextScope_eq_dec : EqDecision ChatContextScope.
Proof. solve_decision. Defined.
#[export] Instance ChatScopeReason_eq_dec : EqDecision ChatScopeReason.
Proof. solve_decision. Defined.
#[export] Instance ChatEvidenceMode_eq_dec : EqDecision ChatEvidenceMode.
Proof. solve_decision. Defined.
#[export] Instance GroundingRoute_eq_dec : EqDecision GroundingRoute.
Proof. solve_decision. Defined.

Definition ChatContextScope_as_str (s : ChatContextScope) : string :=
  match s with
  | Automatic => "automatic"
  | ReferencesPreferred => "references_preferred"
  | ReferencesOnly => "references_only"
  end.
Definition ChatScopeReason_as_str (r : ChatScopeReason) : string :=
  match r with
  | ExplicitSetting => "explicit_setting"
  | ExplicitPromptRestriction => "explicit_prompt_restriction"
  | DefaultSetting => "default_setting"
  | ServerDowngrade => "server_downgrade"
  end.
Definition ChatEvidenceMode_as_str (m : ChatEvidenceMode) : string :=
  match m with Optional => "optional" | Required => "required" end.
Definition GroundingRoute_as_str (r : GroundingRoute) : string :=
  match r with
  | AutomaticAssistant => "automatic_assistant"
  | ReferenceLlm => "reference_llm"
  | DocumentFacts => "document_facts"
  end.

(** ** Manifests *)

Record ContextManifestRange := {
  start_line : N;
  end_line : N;
  start_byte : N;
  end_byte : N;
}.

Record ContextManifestEntry := {
  en_reference_id : string;
  en_path : string;
  en_origin : string;
  en_hash : string;
  en_injected_hash : string;
  en_size_bytes : N;
  en_encoding : string;
  en_line_ending : string;
  en_ranges : list ContextManifestRange;
  en_bytes_injected : N;
  en_reason : string;
  en_git_state : string;
  en_workspace_id : string;
}.

Record ContextManifest := {
  mf_schema_version : N;
  mf_context_scope : ChatContextScope;
  mf_workspace_id : string;
  mf_request_id : string;
  mf_prompt_version : string;
  mf_profile : string;
  mf_entries : list ContextManifestEntry;
  mf_total_bytes : N;
  mf_estimated_tokens : N;
  mf_fingerprint : string;
}.

Record ReferenceSnapshot := {
  sn_reference_id : string;
  sn_path : string;
  sn_origin : string;
  sn_file_hash : string;
  sn_injected_hash : string;
  sn_file_size : N;
  sn_encoding : string;
  sn_line_ending : string;
  sn_range : ContextManifestRange;
  sn_content : string;
  sn_reason : string;
  sn_git_state : string;
  sn_workspace_id : string;
}.

Definition estimate_tokens (value : string) : N := saturating_add64 (char_count value) 3 / 4.

(** [n.to_le_bytes()] of a [u64] *)
Fixpoint le_bytes (k : nat) (n : N) : string :=
  match k with
  | O => ""
  | S k' => String (byte (n mod 256)) (le_bytes k' (n / 256))
  end.

(** What [hash_field] feeds to the hasher. *)
Definition hash_field (name value : string) : string :=
  le_bytes 8 (strlen name) ++ name ++ le_bytes 8 (strlen value) ++ value.

Definition hash_fields (fields : list (string * string)) : string :=
  String.concat "" (map (fun p => hash_field p.1 p.2) fields).

Definition sum_of {A} (f : A -> N) (l : list A) : N := foldr (fun a n => f a + n) 0 l.

Definition manifest_entry (s : ReferenceSnapshot) : ContextManifestEntry := {|
  en_reference_id := sn_reference_id s;
  en_path := sn_path s;
  en_origin := sn_origin s;
  en_hash := sn_file_hash s;
  en_injected_hash := sn_injected_hash s;
  en_size_bytes := sn_file_size s;
  en_encoding := sn_encoding s;
  en_line_ending := sn_line_ending s;
  en_ranges := [sn_range s];
  en_bytes_injected := strlen (sn_content s);
  en_reason := sn_reason s;
  en_git_state := sn_git_state s;
  en_workspace_id := sn_workspace_id s |}.

(** The fields of one snapshot in the fingerprint. *)
Definition snapshot_fields (s : ReferenceSnapshot) : list (string * string) :=
  let r := sn_range s in
  [("reference_id", sn_reference_id s);
   ("path", sn_path s);
   ("file_hash", sn_file_hash s);
   ("injected_hash", sn_injected_hash s);
   ("range", dec (start_line r) ++ ":" ++ dec (end_line r) ++ ":" ++ dec (start_byte r) ++ ":" ++ dec (end_byte r));
   ("content", sn_content s)].

Definition manifest_fields (scope : ChatContextScope) (workspace_id profile : string) (snapshots : list ReferenceSnapshot)
    : list (string * string) :=
  ([("schema", dec GROUNDING_SCHEMA_VERSION);
    ("scope", ChatContextScope_as_str scope);
    ("workspace", workspace_id);
    ("prompt_version", GROUNDING_PROMPT_VERSION);
    ("profile", profile)] ++ List.concat (map snapshot_fields snapshots))%list.

Definition build_context_manifest `{Blake3} (scope : ChatContextScope) (workspace_id request_id profile : string)
    (snapshots : list ReferenceSnapshot) : ContextManifest := {|
  mf_schema_version := GROUNDING_SCHEMA_VERSION;
  mf_context_scope := scope;
  mf_workspace_id := workspace_id;
  mf_request_id := request_id;
  mf_prompt_version := GROUNDING_PROMPT_VERSION;
  mf_profile := profile;
  mf_entries := map manifest_entry snapshots;
  mf_total_bytes := sum_of (fun s => strlen (sn_content s)) snapshots;
  mf_estimated_tokens := sum_of (fun s => estimate_tokens (sn_content s)) snapshots;
  mf_fingerprint := blake3_hex (hash_fields (manifest_fields scope workspace_id profile snapshots)) |}.

(** Floating point numbers, of which the code asks little: the text of a
    temperature and whether it is finite and between 0 and 2, and the rate of
    tokens per millisecond times 1000. *)
Class Floats := {
  f32 : Type;
  f32_debug : f32 -> string;
  f32_is_finite : f32 -> bool;
  f32_up_to_two : f32 -> bool;
  f32_zero : f32;
  f64 : Type;
  f64_per_second : N -> N -> f64;
}.

Definition option_debug {A} (debug : A -> string) (o : option A) : string :=
  match o with Some a => "Some(" ++ debug a ++ ")" | None => "None" end.
Definition int_display (z : Z) : string :=
  match z with
  | Zneg p => "-" ++ dec (Npos p)
  | Z0 => "0"
  | Zpos p => dec (Npos p)
  end.

Record PromptFingerprintInput `{Floats} := {
  pf_task : string;
  pf_manifest : ContextManifest;
  pf_evidence_mode : ChatEvidenceMode;
  pf_command : string;
  pf_model : string;
  pf_temperature : option f32;
  pf_seed : option Z;
  pf_cache_dimensions : list (string * string);
}.

Definition prompt_fields `{Floats} (input : PromptFingerprintInput) : list (string * string) :=
  ([("schema", dec GROUNDING_SCHEMA_VERSION);
    ("prompt_version", GROUNDING_PROMPT_VERSION);
    ("command", pf_command input);
    ("task", pf_task input);
    ("context", mf_fingerprint (pf_manifest input));
    ("evidence", ChatEvidenceMode_as_str (pf_evidence_mode input));
    ("model", pf_model input);
    ("temperature", option_debug f32_debug (pf_temperature input));
    ("seed", option_debug int_display (pf_seed input))] ++ pf_cache_dimensions input)%list.

Definition prompt_fingerprint `{Blake3, Floats} (input : PromptFingerprintInput) : string :=
  blake3_hex (hash_fields (prompt_fields input)).

(** ** The effective scope *)

(** An accented letter of French without its accent; quotes as spaces. *)
Definition fold_char (c : string) : string :=
  match c with
  | String a "" => if one_of "'`" a || (byte_n a =? 34) then " " else c
  | String a (String b "") =>
      let n := byte_n b in
      if byte_n a =? 195 then
        if (n =? 160) || (n =? 161) || (n =? 162) || (n =? 164) then "a" else
        if n =? 167 then "c" else
        if in_range 168 171 b then "e" else
        if in_range 172 175 b then "i" else
        if (n =? 178) || (n =? 179) || (n =? 180) || (n =? 182) then "o" else
        if in_range 185 188 b then "u" else c
      else if (byte_n a =? 194) && ((n =? 171) || (n =? 187)) then " " else c
  | String a (String b (String d "")) =>
      if (byte_n a =? 226) && (byte_n b =? 128) && (byte_n d =? 153) then " " else c
  | _ => c
  end.

Definition contains_any (needles : list string) (s : string) : bool := existsb (fun n => str_contains n s) needles.

Definition restriction_phrases : list string := [
  "uniquement le fichier"; "seulement ce fichier"; "uniquement ce fichier"; "ne lis aucun autre fichier";
  "ne parle d aucun autre fichier"; "use only the attached file"; "only the attached file"; "only this file";
  "only this selection"; "do not read any other file"].

Section Scope.
Context `{Unicode}.

Definition normalize_for_intent (value : string) : string :=
  join_with " " (split_whitespace (String.concat "" (map fold_char (chars (lowercase value))))).

Definition prompt_requires_references_only (prompt : string) : bool :=
  contains_any restriction_phrases (normalize_for_intent prompt).

Definition effective_context_scope (requested : ChatContextScope) (requested_reason : ChatScopeReason) (prompt : string)
    : ChatContextScope * ChatScopeReason :=
  if prompt_requires_references_only prompt && negb (bool_decide (requested = ReferencesOnly))
  then (ReferencesOnly, ServerDowngrade)
  else (requested,
        if bool_decide (requested = ReferencesOnly) && prompt_requires_references_only prompt
        then ExplicitPromptRestriction else requested_reason).
End Scope.

(** ** Answers and their evidence *)

Inductive ClaimClassification := Observed | Inferred | GeneralKnowledge | InsufficientEvidence.
#[export] Instance ClaimClassification_eq_dec : EqDecision ClaimClassification.
Proof. solve_decision. Defined.

Record EvidenceCitation := {
  ct_path : string;
  ct_start_line : N;
  ct_end_line : N;
  ct_content_hash : string;
}.

Record GroundedClaim := {
  cl_claim_id : string;
  cl_text : string;
  cl_classification : ClaimClassification;
  cl_evidence : list EvidenceCitation;
}.

Record GroundedResponse := {
  gr_schema_version : N;
  gr_answer : string;
  gr_claims : list GroundedClaim;
  gr_missing_information : list string;
  gr_used_general_knowledge : bool;
}.

Record EvidenceValidationReport := {
  ev_valid : bool;
  ev_claims_checked : N;
  ev_citations_checked : N;
  ev_errors : list string;
}.

(** ** The schema of an answer *)

Definition citation_schema : Value := closed_object ["path"; "start_line"; "end_line"; "content_hash"] [
  ("path", schema_type "string"); ("start_line", schema_type "integer"); ("end_line", schema_type "integer");
  ("content_hash", schema_type "string")].
Definition claim_schema : Value := closed_object ["claim_id"; "text"; "classification"; "evidence"] [
  ("claim_id", schema_type "string"); ("text", schema_type "string");
  ("classification", json_object [type_field "string";
     ("enum", json_strings ["observed"; "inferred"; "general_knowledge"; "insufficient_evidence"])]);
  ("evidence", array_of citation_schema)].
Definition grounded_response_schema : Value :=
  closed_object ["schema_version"; "answer"; "claims"; "missing_information"; "used_general_knowledge"] [
    ("schema_version", json_object [type_field "integer"; ("enum", VArray [VNumber 1])]);
    ("answer", schema_type "string");
    ("claims", array_of claim_schema);
    ("missing_information", array_of (schema_type "string"));
    ("used_general_knowledge", schema_type "boolean")].

Definition error_if (b : bool) (message : string) : list string := if b then [message] else [].

(** The entries by path; of two entries for a path the last one counts. *)
Definition entries_by_path (manifest : ContextManifest) : gmap string ContextManifestEntry :=
  list_to_map (rev (map (fun e => (en_path e, e)) (mf_entries manifest))).

Definition in_range_of (citation : EvidenceCitation) (r : ContextManifestRange) : bool :=
  (start_line r <=? ct_start_line citation) && (ct_end_line citation <=? end_line r)
  && (ct_start_line citation <=? ct_end_line citation).

Definition citation_errors (manifest : ContextManifest) (claim_id : string) (citation : EvidenceCitation) : list string :=
  match entries_by_path manifest !! ct_path citation with
  | None => [(claim_id ++ " cites a non-injected path " ++ ct_path citation)%string]
  | Some entry =>
      error_if (negb (ct_content_hash citation =? en_injected_hash entry)%string)
        (claim_id ++ " cites a stale or invalid hash")%string
      ++ error_if (negb (existsb (in_range_of citation) (en_ranges entry)))
           (claim_id ++ " cites an uninjected line range")%string
      ++ error_if (negb (en_workspace_id entry =? mf_workspace_id manifest)%string)
           (claim_id ++ " cites another workspace")%string
  end%list.

Definition evidence_required (mode : ChatEvidenceMode) (c : ClaimClassification) : bool :=
  match c with Observed | Inferred => true | _ => false end
  || (bool_decide (mode = Required) && negb (bool_decide (c = InsufficientEvidence))).

(** The errors of one claim; [seen] are the claim IDs before it. *)
Definition claim_errors (response : GroundedResponse) (manifest : ContextManifest) (mode : ChatEvidenceMode)
    (seen : list string) (claim : GroundedClaim) : list string :=
  let id := cl_claim_id claim in
  let general := bool_decide (cl_classification claim = GeneralKnowledge) in
  (error_if (is_empty (trim id) || set_contains seen id) "claim IDs must be non-empty and unique"
   ++ error_if (evidence_required mode (cl_classification claim) && match cl_evidence claim with [] => true | _ => false end)
        (id ++ " has no evidence")%string
   ++ error_if (general && bool_decide (mf_context_scope manifest = ReferencesOnly))
        (id ++ " uses forbidden general knowledge")%string
   ++ error_if (general && negb (gr_used_general_knowledge response))
        (id ++ " is general knowledge but the response flag is false")%string
   ++ List.concat (map (citation_errors manifest id) (cl_evidence claim)))%list.

(** [claim_ids.insert] is not reached for an ID that is blank. *)
Definition note_claim (seen : list string) (claim : GroundedClaim) : list string :=
  if is_empty (trim (cl_claim_id claim)) then seen else cl_claim_id claim :: seen.

Fixpoint claims_errors (response : GroundedResponse) (manifest : ContextManifest) (mode : ChatEvidenceMode)
    (seen : list string) (claims : list GroundedClaim) : list string :=
  match claims with
  | [] => []
  | claim :: rest =>
      (claim_errors response manifest mode seen claim
       ++ claims_errors response manifest mode (note_claim seen claim) rest)%list
  end.

Definition response_errors (response : GroundedResponse) (manifest : ContextManifest) (mode : ChatEvidenceMode) : list string :=
  (error_if (negb (gr_schema_version response =? GROUNDING_SCHEMA_VERSION)) "unsupported evidence schema version"
   ++ error_if (bool_decide (mf_context_scope manifest = ReferencesOnly) && gr_used_general_knowledge response)
        "general knowledge is forbidden by references_only"
   ++ error_if (bool_decide (mode = Required) && negb (is_empty (trim (gr_answer response)))
                && match gr_claims response with [] => true | _ => false end)
        "a non-empty answer has no machine-verifiable claims")%list.

Definition list_len {A} (l : list A) : N := N.of_nat (List.length l).

Definition validate_evidence (response : GroundedResponse) (manifest : ContextManifest) (mode : ChatEvidenceMode)
    : EvidenceValidationReport :=
  let errors := (response_errors response manifest mode
                 ++ claims_errors response manifest mode [] (gr_claims response))%list in {|
  ev_valid := match errors with [] => true | _ => false end;
  ev_claims_checked := list_len (gr_claims response);
  ev_citations_checked := N.min u64_max (sum_of (fun c => list_len (cl_evidence c)) (gr_claims response));
  ev_errors := errors |}.
