(* ===== verification/DocumentFacts.v ===== *)
(** * Document facts (opticcode-core: grounding.rs)

    Questions about the keys of a structured document are answered without a
    model: the question is read ([DocumentQuery]), the document is parsed with
    the lines of its keys, and the answer is built claim by claim, each with
    the lines that prove it.  Slices at positions that [char_indices] or a
    search for an ASCII byte returned are at boundaries; the others are
    checked ([slice]), so that a panic of the code is [Panic] here. *)

From stdpp Require Import base list strings gmap.
From Stdlib Require Import NArith ZArith Ascii String Lia.
From S2P Require Import Prelude Bytes Text UnixPath IO Anyhow Paths Grounding.

Local Open Scope string_scope.
Local Open Scope N_scope.

(** ** The question *)

Record DocumentQuery := {
  q_root_keys : bool;
  q_presence_keys : list string;
  q_value_keys : list string;
}.

Definition dquote : ascii := byte 34.
Definition dquote_s : string := String dquote "".
Definition guillemet_open : string := String (byte 194) (String (byte 171) "").
Definition guillemet_close : string := String (byte 194) (String (byte 187) "").

Section Query.
Context `{Unicode}.

Definition is_key_candidate (value : string) : bool :=
  negb (is_empty value) && (strlen value <=? 128) && forallb (fun c => alphanumeric c || char_in "-_." c) (chars value).

(** The texts between two marks; [open] is what was read since the opening one. *)
Fixpoint quoted_between (opening closing : string) (open : option string) (cs : list string) : list string :=
  match cs with
  | [] => []
  | c :: cs' =>
      match open with
      | None => quoted_between opening closing (if (c =? opening)%string then Some "" else None) cs'
      | Some text =>
          if (c =? closing)%string then
            let candidate := trim text in
            ((if is_key_candidate candidate then [candidate] else []) ++ quoted_between opening closing None cs')%list
          else quoted_between opening closing (Some (text ++ c)) cs'
      end
  end.

Definition quoted_identifiers (value : string) : list string :=
  let between p := quoted_between p.1 p.2 None (chars value) in
  dedup (sort_by str_cmp (List.concat (map between [("`", "`"); (dquote_s, dquote_s); (guillemet_open, guillemet_close)]))).

Definition canonical_query_key (value : string) : string :=
  trim_chars (fun c => existsb (String.eqb c) ["`"; dquote_s; guillemet_open; guillemet_close]) (trim value).

Definition root_key_phrases : list string :=
  ["cles de premier niveau"; "cles racine"; "root keys"; "top level keys"; "top-level keys"].
Definition presence_words : list string := ["absent"; "present"; "existe"; "exists"].

(** Where a quoted key goes. *)
Definition ask_candidate (normalized : string) (keys : list string * list string) (candidate : string)
    : list string * list string :=
  let '(presence, values) := keys in
  let key := trim candidate in
  let lowered := lowercase key in
  if contains_any ["valeur de " ++ lowered; "value of " ++ lowered; lowered ++ " value"] normalized
  then (presence, values ++ [key])%list
  else if contains_any (presence_words ++ ["containing"])%list normalized
  then (presence ++ [key], values)%list
  else keys.

(** The two keys that need no quotes. *)
Definition ask_marker (normalized : string) (keys : list string * list string) (marker : string)
    : list string * list string :=
  let '(presence, values) := keys in
  if str_contains marker normalized && negb (set_contains presence marker) && negb (set_contains values marker) then
    if contains_any ["valeur"; "value"] normalized then (presence, values ++ [marker])%list
    else if contains_any presence_words normalized then (presence ++ [marker], values)%list
    else keys
  else keys.

Definition from_task (task : string) : DocumentQuery :=
  let normalized := normalize_for_intent task in
  let keys := fold_left (ask_candidate normalized) (quoted_identifiers task) ([], []) in
  let keys := fold_left (ask_marker normalized) ["api-version"; "main"] keys in {|
  q_root_keys := contains_any root_key_phrases normalized;
  q_presence_keys := dedup (sort_by str_cmp keys.1);
  q_value_keys := dedup (sort_by str_cmp keys.2) |}.

Definition is_document_fact_query (q : DocumentQuery) : bool :=
  q_root_keys q || match q_presence_keys q with [] => false | _ => true end
  || match q_value_keys q with [] => false | _ => true end.
End Query.

(** ** Documents *)

Record DocumentLocation := {
  loc_line : N;
  loc_source : string;
}.
Abbreviation Locations := (list (string * DocumentLocation)).
Abbreviation Values := (list (string * string)).

Record ParsedDocument := {
  pd_format : string;
  pd_root_order : list string;
  pd_values : Values;
  pd_locations : Locations;
}.

(** [n as u32], for a count of lines. *)
Definition as_u32 (n : N) : N := n mod 4294967296.
(** The line number of the [index]-th line. *)
Definition line_number (index : N) : N := as_u32 (index + 1).

Definition has_key {V} (m : list (string * V)) (k : string) : bool := is_some (map_get k m).
Definition put {V} (k : string) (v : V) (m : list (string * V)) : list (string * V) := map_update k (fun _ => v) m.
(** [map.entry(k).or_insert(v)] *)
Definition or_insert {V} (k : string) (v : V) (m : list (string * V)) : list (string * V) :=
  map_update k (fun o => default v o) m.

(** [content.lines().enumerate()] *)
Definition enumerate {A} (l : list A) : list (N * A) := zip (map N.of_nat (seq 0 (List.length l))) l.

(** The first [needle] outside quotes; a backslash protects the character
    after it. *)
Fixpoint unquoted_from (needle : ascii) (quote : option ascii) (escaped : bool) (s : string) : option nat :=
  match s with
  | EmptyString => None
  | String c s' =>
      if escaped then option_map S (unquoted_from needle quote false s')
      else if Ascii.eqb c backslash then option_map S (unquoted_from needle quote true s')
      else if Ascii.eqb c "'" || Ascii.eqb c dquote then
        let quote' := match quote with
                      | Some q => if Ascii.eqb q c then None else quote
                      | None => Some c
                      end in
        option_map S (unquoted_from needle quote' false s')
      else if Ascii.eqb c needle && negb (is_some quote) then Some O
      else option_map S (unquoted_from needle quote false s')
  end.
Definition find_unquoted (value : string) (needle : ascii) : option nat := unquoted_from needle None false value.

Definition strip_comment (value : string) (marker : ascii) : string :=
  match find_unquoted value marker with Some index => take_bytes index value | None => value end.

Definition unquote_key (value : string) : IO (res string) :=
  let trimmed := trim value in
  let quoted q := starts_with q trimmed && ends_with q trimmed in
  unquoted <- (if quoted dquote_s || quoted "'" then slice trimmed 1 (strlen trimmed - 1) else Ret trimmed) ;;
  Ret (if is_empty unquoted then bail "empty structured key" else Ok unquoted).

(** [l.map(unquote_key).collect::<Result<Vec<_>>>()] *)
Fixpoint unquote_keys (l : list string) : IO (res (list string)) :=
  match l with
  | [] => Ret (Ok [])
  | x :: l' => key <-? unquote_key x ;; keys <-? unquote_keys l' ;; Ret (Ok (key :: keys))
  end.

(** ** Assignments, line by line *)

Definition located (index : N) (raw : string) : DocumentLocation :=
  {| loc_line := line_number index; loc_source := raw |}.

(** [s.trim_matches(c)] for the double quote *)
Definition trim_dquotes (s : string) : string := trim_matches (Ascii.eqb dquote) s.

Record TomlState := {
  tm_root_order : list string;
  tm_locations : Locations;
  tm_values : Values;
  tm_table : list string;
}.

(** One line that starts with a bracket *)
Definition toml_table (index : N) (raw line : string) (st : TomlState) : IO (res TomlState) :=
  if negb (ends_with "]" line) || starts_with "[[" line
  then Ret (bail ("unsupported or invalid TOML table at line " ++ dec (index + 1))) else
  inner <- slice line 1 (strlen line - 1) ;;
  let name := trim inner in
  if is_empty name then Ret (bail ("empty TOML table at line " ++ dec (index + 1))) else
  table <-? unquote_keys (split_on "." name) ;;
  Ret (Ok match table with
          | root :: _ =>
              if set_contains (tm_root_order st) root
              then {| tm_root_order := tm_root_order st; tm_locations := tm_locations st; tm_values := tm_values st;
                      tm_table := table |}
              else {| tm_root_order := (tm_root_order st ++ [root])%list;
                      tm_locations := put root (located index raw) (tm_locations st);
                      tm_values := tm_values st; tm_table := table |}
          | [] => {| tm_root_order := tm_root_order st; tm_locations := tm_locations st; tm_values := tm_values st;
                     tm_table := [] |}
          end).

(** One assignment *)
Definition toml_assignment (index : N) (raw line : string) (st : TomlState) : IO (res TomlState) :=
  match find_unquoted line "=" with
  | None => Ret (bail ("invalid TOML assignment at line " ++ dec (index + 1)))
  | Some separator =>
      key <-? unquote_key (trim (take_bytes separator line)) ;;
      let path := join_with "." (tm_table st ++ [key])%list in
      if has_key (tm_locations st) path then Ret (bail ("duplicate TOML key `" ++ path ++ "`")) else
      Ret (Ok {|
        tm_root_order :=
          if match tm_table st with [] => true | _ => false end && negb (set_contains (tm_root_order st) key)
          then (tm_root_order st ++ [key])%list else tm_root_order st;
        tm_locations := put path (located index raw) (tm_locations st);
        tm_values := put path (trim_dquotes (trim (drop_bytes (S separator) line))) (tm_values st);
        tm_table := tm_table st |})
  end.

Fixpoint toml_lines (l : list (N * string)) (st : TomlState) : IO (res TomlState) :=
  match l with
  | [] => Ret (Ok st)
  | (index, raw) :: l' =>
      let line := trim (strip_comment raw "#") in
      if is_empty line then toml_lines l' st else
      st <-? (if starts_with "[" line then toml_table index raw line st else toml_assignment index raw line st) ;;
      toml_lines l' st
  end.

Definition parse_toml (content : string) : IO (res ParsedDocument) :=
  st <-? toml_lines (enumerate (lines content)) {| tm_root_order := []; tm_locations := []; tm_values := []; tm_table := [] |} ;;
  Ret (Ok {| pd_format := "toml"; pd_root_order := tm_root_order st; pd_values := tm_values st; pd_locations := tm_locations st |}).

(** [line.find(char::is_whitespace)] *)
Fixpoint find_whitespace (at_byte : N) (cs : list string) : option N :=
  match cs with
  | [] => None
  | c :: cs' => if is_whitespace c then Some at_byte else find_whitespace (at_byte + strlen c) cs'
  end.

Definition properties_separator (line : string) : option N :=
  match find_byte (one_of "=:") line with
  | Some offset => Some (N.of_nat offset)
  | None => find_whitespace 0 (chars line)
  end.

Fixpoint properties_lines (l : list (N * string)) (doc : ParsedDocument) : IO (res ParsedDocument) :=
  match l with
  | [] => Ret (Ok doc)
  | (index, raw) :: l' =>
      let line := trim raw in
      if is_empty line || starts_with "#" line || starts_with "!" line then properties_lines l' doc else
      match properties_separator line with
      | None => Ret (bail "invalid properties assignment")
      | Some separator =>
          key <- slice_until line separator ;;
          let key := trim key in
          if is_empty key || has_key (pd_locations doc) key
          then Ret (bail ("empty or duplicate properties key at line " ++ dec (index + 1))) else
          value <- slice_from line (separator + 1) ;;
          properties_lines l' {|
            pd_format := pd_format doc;
            pd_root_order := (pd_root_order doc ++ [key])%list;
            pd_locations := put key (located index raw) (pd_locations doc);
            pd_values := put key (trim value) (pd_values doc) |}
      end
  end.

Definition parse_properties (content : string) : IO (res ParsedDocument) :=
  properties_lines (enumerate (lines content))
    {| pd_format := "properties"; pd_root_order := []; pd_locations := []; pd_values := [] |}.

(** [s.trim_start()] *)
Definition trim_start (s : string) : string := String.concat "" (drop_while is_whitespace (chars s)).

(** [while stack.last().is_some_and(|(level, _)| *level >= indent) { stack.pop(); }]; the
    stack is kept with its last component first. *)
Fixpoint pop_stack (indent : N) (stack : list (N * string)) : list (N * string) :=
  match stack with
  | (level, component) :: stack' => if indent <=? level then pop_stack indent stack' else stack
  | [] => []
  end.

Fixpoint indented_lines (separator : ascii) (yaml : bool) (l : list (N * string)) (locations : Locations) (values : Values)
    (stack : list (N * string)) : IO (res (Locations * Values)) :=
  match l with
  | [] => Ret (Ok (locations, values))
  | (index, raw) :: l' =>
      let without_comment := if yaml then strip_comment raw "#" else raw in
      if is_empty (trim without_comment) || starts_with "-" (trim_start without_comment)
      then indented_lines separator yaml l' locations values stack else
      let indent := strlen without_comment - strlen (trim_start without_comment) in
      let trimmed := trim_start without_comment in
      match find_unquoted trimmed separator with
      | None => indented_lines separator yaml l' locations values stack
      | Some position =>
          key <-? unquote_key (trim (take_bytes position trimmed)) ;;
          let stack := pop_stack indent stack in
          let path := join_with "." (rev (map snd stack) ++ [key])%list in
          if has_key locations path
          then Ret (bail ("duplicate structured key `" ++ path ++ "` at line " ++ dec (index + 1))) else
          let value := trim_matches (fun c => Ascii.eqb c "'" || Ascii.eqb c dquote) (trim (drop_bytes (S position) trimmed)) in
          indented_lines separator yaml l' (put path (located index raw) locations) (put path value values)
            ((indent, key) :: stack)
      end
  end.

Definition scan_indented_assignments (content : string) (separator : ascii) (yaml : bool) : IO (res (Locations * Values)) :=
  indented_lines separator yaml (enumerate (lines content)) [] [] [].

Definition reject_duplicate_root_keys (root_order : list string) (locations : Locations) : res unit :=
  let roots := filter (fun p => negb (any_byte (Ascii.eqb ".") p.1)) locations in
  if (List.length roots =? List.length root_order)%nat then Ok tt else bail "duplicate or unlocated root key".

(** What the code reads of a YAML value: the keys of a mapping, in order,
    those that are strings. *)
Inductive YamlValue := YamlMapping (keys : list (option string)) | YamlOther.
Class Yaml := yaml_from_str : string -> result YamlValue string.

(** [key.as_str().context(..)?] for every key *)
Fixpoint string_keys (keys : list (option string)) : res (list string) :=
  match keys with
  | [] => Ok []
  | None :: _ => bail "YAML mapping keys must be strings"
  | Some key :: keys' => rest <- string_keys keys' ;? Ok (key :: rest)
  end.

Definition parse_yaml `{Yaml} (content : string) : IO (res ParsedDocument) :=
  match yaml_from_str content with
  | Err e => Ret (Err (with_context "invalid YAML" (failure e)))
  | Ok YamlOther => Ret (bail "YAML root must be a mapping")
  | Ok (YamlMapping keys) =>
      root_order <-? lift (string_keys keys) ;;
      scan <-? scan_indented_assignments content ":" true ;;
      lift (reject_duplicate_root_keys root_order scan.1) ;;?
      Ret (Ok {| pd_format := "yaml"; pd_root_order := root_order; pd_values := scan.2; pd_locations := scan.1 |})
  end.

(** ** JSON

    [serde_json] checks the document and decodes its strings; the positions
    come from a scan of the bytes. *)

Class Json := {
  (** [serde_json::from_str::<Value>], of which the code only asks whether it is an object *)
  json_is_object : string -> result bool string;
  (** [serde_json::from_str::<String>] *)
  json_string : string -> result string string;
}.

(** [u8::is_ascii_whitespace] *)
Definition is_ascii_whitespace (c : ascii) : bool :=
  let n := byte_n c in (n =? 32) || (n =? 9) || (n =? 10) || (n =? 12) || (n =? 13).

Fixpoint whitespace_run (s : string) : nat :=
  match s with
  | String c s' => if is_ascii_whitespace c then S (whitespace_run s') else O
  | EmptyString => O
  end.
(** [while i < bytes.len() && bytes[i].is_ascii_whitespace() { i += 1; }] *)
Definition skip_whitespace (content : string) (i : nat) : nat := (i + whitespace_run (drop_bytes i content))%nat.

(** The offset of the quote that ends a string. *)
Fixpoint string_end (escaped : bool) (s : string) : option nat :=
  match s with
  | EmptyString => None
  | String c s' =>
      if escaped then option_map S (string_end false s')
      else if Ascii.eqb c backslash then option_map S (string_end true s')
      else if Ascii.eqb c dquote then Some O
      else option_map S (string_end false s')
  end.

Section Json.
Context `{Json}.

(** The string that starts at [start], and the position after it. *)
Definition parse_json_string (content : string) (start : nat) : res (string * nat) :=
  match string_end false (drop_bytes (S start) content) with
  | None => bail "unterminated JSON string"
  | Some offset =>
      let index := (S start + offset)%nat in
      value <- map_err failure (json_string (take_bytes (S index - start) (drop_bytes start content))) ;?
      Ok (value, S index)
  end.

Definition json_scalar_preview (content : string) (start : nat) : res string :=
  match String.get start content with
  | None => bail "missing JSON value"
  | Some c =>
      if Ascii.eqb c dquote then value <- parse_json_string content start ;? Ok value.1
      else
        let tail := drop_bytes start content in
        Ok (trim match find_byte (one_of ",}]") tail with Some end_ => take_bytes end_ tail | None => tail end)
  end.

Record JsonScan := {
  js_root_order : list string;
  js_locations : Locations;
  js_values : Values;
  js_path : list string;
  js_depth : nat;
  js_line : N;
}.

(** [content.lines().nth(line as usize - 1).unwrap_or_default()] *)
Definition source_line (content : string) (line : N) : string := default "" (lines content !! N.to_nat (line - 1)).

(** A string inside an object, at [index]: the next position and state. *)
Definition scan_key (content : string) (index : nat) (st : JsonScan) : res (nat * JsonScan) :=
  let? (key, next) := parse_json_string content index in
  let cursor := skip_whitespace content next in
  if negb (match String.get cursor content with Some c => Ascii.eqb c ":" | None => false end) then Ok (next, st) else
  let value_start := skip_whitespace content (S cursor) in
  let key_path := join_with "." (js_path st ++ [key])%list in
  if has_key (js_locations st) key_path then bail ("duplicate JSON key `" ++ key_path ++ "`") else
  value <- json_scalar_preview content value_start ;?
  Ok (next, {|
    js_root_order := if (js_depth st =? 1)%nat then (js_root_order st ++ [key])%list else js_root_order st;
    js_locations := put key_path {| loc_line := js_line st; loc_source := source_line content (js_line st) |} (js_locations st);
    js_values := put key_path value (js_values st);
    js_path := if match String.get value_start content with Some c => Ascii.eqb c "{" | None => false end
               then (take (js_depth st - 1) (js_path st) ++ [key])%list else js_path st;
    js_depth := js_depth st;
    js_line := js_line st |}).

(** One byte [c] at [index] *)
Definition scan_byte (content : string) (index : nat) (c : ascii) (st : JsonScan) : res (nat * JsonScan) :=
  let at_path path depth line := {|
    js_root_order := js_root_order st; js_locations := js_locations st; js_values := js_values st;
    js_path := path; js_depth := depth; js_line := line |} in
  if Ascii.eqb c line_feed then Ok (S index, at_path (js_path st) (js_depth st) (N.min u32_max (js_line st + 1)))
  else if Ascii.eqb c "{" then Ok (S index, at_path (js_path st) (S (js_depth st)) (js_line st))
  else if Ascii.eqb c "}" then
    let depth := (js_depth st - 1)%nat in
    Ok (S index, at_path (if (depth <=? List.length (js_path st))%nat then take (depth - 1) (js_path st) else js_path st)
                   depth (js_line st))
  else if Ascii.eqb c dquote then
    if (0 <? js_depth st)%nat then scan_key content index st
    else let? (_, next) := parse_json_string content index in Ok (next, st)
  else Ok (S index, st).

(** The scan; every step moves forward, so that [fuel] above the length is
    enough. *)
Fixpoint scan_from (fuel : nat) (content : string) (index : nat) (st : JsonScan) : res JsonScan :=
  match String.get index content with
  | None => Ok st
  | Some c =>
      match fuel with
      | O => bail "out of fuel"
      | S fuel' =>
          let? (next, st') := scan_byte content index c st in
          scan_from fuel' content next st'
      end
  end.

Definition scan_json_object (content : string) : res JsonScan :=
  scan_from (String.length content) content 0
    {| js_root_order := []; js_locations := []; js_values := []; js_path := []; js_depth := 0; js_line := 1 |}.

Definition parse_json (content : string) : res ParsedDocument :=
  match json_is_object content with
  | Err e => Err (with_context "invalid JSON" (failure e))
  | Ok false => bail "JSON root must be an object"
  | Ok true =>
      scan <- scan_json_object content ;?
      Ok {| pd_format := "json"; pd_root_order := js_root_order scan; pd_values := js_values scan;
            pd_locations := js_locations scan |}
  end.
End Json.

(** ** XML

    What the code reads of an element: the name of its tag, where it starts,
    its first text, its child elements. *)

Inductive XmlElement := Xml (name : string) (start : N) (text : option string) (children : list XmlElement).
Definition tag_name (e : XmlElement) : string := match e with Xml name _ _ _ => name end.
Definition xml_children (e : XmlElement) : list XmlElement := match e with Xml _ _ _ children => children end.

(** [roxmltree::Document::parse] and [root_element] *)
Class XmlParser := xml_parse : string -> result XmlElement string.

Definition count_lines_before (content : string) (start : N) : N :=
  1 + as_u32 (count_byte line_feed (take_bytes (N.to_nat start) content)).

Fixpoint collect_xml_element (content : string) (node : XmlElement) (path : string) (found : Values * Locations) {struct node}
    : Values * Locations :=
  match node with
  | Xml _ start text children =>
      let line := count_lines_before content (N.min start (strlen content)) in
      let locations := or_insert path {| loc_line := line; loc_source := source_line content line |} found.2 in
      let values := match option_map trim text with
                    | Some text => if is_empty text then found.1 else or_insert path text found.1
                    | None => found.1
                    end in
      fold_left (fun found child => collect_xml_element content child (path ++ "." ++ tag_name child) found)
        children (values, locations)
  end.

Definition parse_xml `{XmlParser} (content : string) : res ParsedDocument :=
  match xml_parse content with
  | Err e => Err (with_context "invalid XML" (failure e))
  | Ok root =>
      let step '(root_order, found) child :=
        let key := tag_name child in
        (if set_contains root_order key then root_order else (root_order ++ [key])%list,
         collect_xml_element content child key found) in
      let '(root_order, found) := fold_left step (xml_children root) ([], ([], [])) in
      Ok {| pd_format := "xml"; pd_root_order := root_order; pd_values := found.1; pd_locations := found.2 |}
  end.

(** ** The answer *)

Definition citation (snapshot : ReferenceSnapshot) (start end_ : N) : EvidenceCitation := {|
  ct_path := sn_path snapshot;
  ct_start_line := start;
  ct_end_line := end_;
  ct_content_hash := sn_injected_hash snapshot |}.

Record DocumentFactsResult := {
  df_schema_version : N;
  df_format : string;
  df_response : GroundedResponse;
  df_exact_match_route : bool;
  df_model_calls : N;
}.

(** [Path::new(path).extension().and_then(to_str).unwrap_or_default().to_ascii_lowercase()] *)
Definition extension_of (path : string) : string :=
  to_ascii_lowercase match extension path with Some e => default "" (to_str e) | None => "" end.

Definition is_document_extension (e : string) : bool :=
  existsb (String.eqb e) ["yml"; "yaml"; "json"; "toml"; "properties"; "xml"].

(** The answer's lines and its claims *)
Record FactsAnswer := {
  fa_answer : list string;
  fa_claims : list GroundedClaim;
}.

Definition observed (id text : string) (evidence : EvidenceCitation) : GroundedClaim := {|
  cl_claim_id := id;
  cl_text := text;
  cl_classification := Observed;
  cl_evidence := [evidence] |}.

(** One more answer line, with a claim numbered by the claims before it *)
Definition add_fact (line prefix text : string) (evidence : EvidenceCitation) (a : FactsAnswer) : FactsAnswer := {|
  fa_answer := (fa_answer a ++ [line])%list;
  fa_claims := (fa_claims a ++ [observed (prefix ++ dec (list_len (fa_claims a) + 1)) text evidence])%list |}.

Section Facts.
Context (snapshot : ReferenceSnapshot) (locations : Locations) (values : Values).

Let whole := citation snapshot (start_line (sn_range snapshot)) (end_line (sn_range snapshot)).
Let at_line (l : DocumentLocation) := citation snapshot (loc_line l) (loc_line l).

(** The claims of the root keys; the answer's lines are added before them. *)
Fixpoint root_claims (index : N) (keys : list string) : res (list GroundedClaim) :=
  match keys with
  | [] => Ok []
  | key :: keys' =>
      match map_get key locations with
      | None => bail ("structured key `" ++ key ++ "` has no authoritative source location")
      | Some location =>
          rest <- root_claims (index + 1) keys' ;?
          Ok (observed ("root-key-" ++ dec (index + 1)) ("The root key `" ++ key ++ "` is present.") (at_line location) :: rest)
      end
  end.

Definition presence_fact (a : FactsAnswer) (key : string) : FactsAnswer :=
  match map_get (canonical_query_key key) locations with
  | Some location =>
      add_fact (trim (loc_source location)) "key-present-" ("The key `" ++ key ++ "` is present.") (at_line location) a
  | None => add_fact (key ++ " absent") "key-absent-" ("The key `" ++ key ++ "` is absent.") whole a
  end.

Definition value_fact (a : FactsAnswer) (key : string) : FactsAnswer :=
  let key_path := canonical_query_key key in
  match map_get key_path values, map_get key_path locations with
  | Some value, Some location =>
      add_fact (key ++ " = " ++ value) "key-value-" ("The value of `" ++ key ++ "` is `" ++ value ++ "`.") (at_line location) a
  | _, _ =>
      add_fact (key ++ " absent") "key-value-missing-"
        ("The value of `" ++ key ++ "` is unavailable because the key is absent.") whole a
  end.

Definition facts (query : DocumentQuery) (root_order : list string) : res FactsAnswer :=
  a <- (if q_root_keys query then
          claims <- root_claims 0 root_order ;?
          Ok {| fa_answer := root_order; fa_claims := claims |}
        else Ok {| fa_answer := []; fa_claims := [] |}) ;?
  Ok (fold_left value_fact (q_value_keys query) (fold_left presence_fact (q_presence_keys query) a)).
End Facts.

(** Every location, moved down by [offset] lines *)
Definition move_locations (offset : N) (locations : Locations) : Locations :=
  map (fun p => (p.1, {| loc_line := N.min u32_max (loc_line p.2 + offset); loc_source := loc_source p.2 |})) locations.

Section Inspect.
Context `{Unicode, Yaml, Json, XmlParser}.

Definition parse_document (extension content : string) : IO (res ParsedDocument) :=
  if (extension =? "yml")%string || (extension =? "yaml")%string then parse_yaml content
  else if (extension =? "json")%string then lift (parse_json content)
  else if (extension =? "toml")%string then parse_toml content
  else if (extension =? "properties")%string then parse_properties content
  else if (extension =? "xml")%string then lift (parse_xml content)
  else Ret (bail "unsupported deterministic document format").

Definition inspect_document_facts (task : string) (snapshot : ReferenceSnapshot) (force : bool)
    : IO (res (option DocumentFactsResult)) :=
  let query := from_task task in
  if negb force && negb (is_document_fact_query query) then Ret (Ok None) else
  let ext := extension_of (sn_path snapshot) in
  if negb (is_document_extension ext) then Ret (Ok None) else
  parsed <-? parse_document ext (sn_content snapshot) ;;
  let locations := move_locations (start_line (sn_range snapshot) - 1) (pd_locations parsed) in
  a <-? lift (facts snapshot locations (pd_values parsed) query (pd_root_order parsed)) ;;
  Ret (Ok match fa_answer a with
          | [] => None
          | answer => Some {|
              df_schema_version := GROUNDING_SCHEMA_VERSION;
              df_format := pd_format parsed;
              df_response := {|
                gr_schema_version := GROUNDING_SCHEMA_VERSION;
                gr_answer := join_with (String line_feed "") answer;
                gr_claims := fa_claims a;
                gr_missing_information := [];
                gr_used_general_knowledge := false |};
              df_exact_match_route := true;
              df_model_calls := 0 |}
          end).
End Inspect.
