(* ===== verification/EditPlan.v ===== *)
(** * Edit plans (opticcode-edit: schema.rs, validation.rs)

    A model's structured edit plan and its validation: the envelope against
    the trusted request, bounded texts and lists, limits, paths and
    extensions, the operations of one file as a group, and the snapshot
    each group materialises. *)

From stdpp Require Import base list strings.
From Stdlib Require Import NArith Ascii String Lia.
From S2P Require Import Prelude Bytes Text UnixPath IO Paths Secrets Reference.

Local Open Scope string_scope.
Local Open Scope N_scope.

(** ** Constants (schema.rs, lib.rs) *)

Definition EDIT_PLAN_SCHEMA_VERSION : N := 1.
Definition MAX_EDIT_FILES : N := 5.
Definition MAX_EDIT_CREATED_FILES : N := 1.
Definition MAX_EDIT_FILE_BYTES : N := 512 * 1024.
Definition MAX_EDIT_PROPOSAL_BYTES : N := 2 * 1024 * 1024.
Definition MAX_EDIT_HUNKS : N := 64.
Definition MAX_EDIT_ADDED_LINES : N := 1500.
Definition MAX_EDIT_DELETED_LINES : N := 1500.
Definition MAX_EDIT_CHANGED_LINES : N := 2000.
Definition MAX_EDIT_GLOBAL_TIMEOUT_SECONDS : N := 15 * 60.
Definition DEFAULT_PROPOSAL_TTL_SECONDS : N := 24 * 60 * 60.
Definition DEFAULT_TRANSACTION_REPORT_TTL_SECONDS : N := 7 * 24 * 60 * 60.
Definition MAX_EDIT_IDENTIFIER_BYTES : N := 160.
Definition MAX_EDIT_REASON_CHARS : N := 2048.
Definition MAX_EDIT_LIST_ITEMS : N := 64.
Definition MAX_EXPECTED_OLD_BYTES : N := 128 * 1024.

Definition ALLOWED_EDIT_EXTENSIONS : list string :=
  ["java"; "xml"; "yml"; "yaml"; "json"; "toml"; "properties"; "gradle"; "md"; "txt"].

(** ** Data (schema.rs) *)

Inductive ProviderId := Ollama.
Definition ProviderId_as_str (p : ProviderId) : string := match p with Ollama => "ollama" end.
#[export] Instance ProviderId_eq_dec : EqDecision ProviderId.
Proof. solve_decision. Defined.

Inductive TextEncoding := Utf8.
#[export] Instance TextEncoding_eq_dec : EqDecision TextEncoding.
Proof. solve_decision. Defined.

Inductive LineEnding := NoEnding | Lf | Crlf.
#[export] Instance LineEnding_eq_dec : EqDecision LineEnding.
Proof. solve_decision. Defined.

Definition line_ending_as_str (l : LineEnding) : string :=
  match l with NoEnding => "none" | Lf => "lf" | Crlf => "crlf" end.

Record ByteRange := { br_start : N; br_end : N }.
#[export] Instance ByteRange_eq_dec : EqDecision ByteRange.
Proof. solve_decision. Defined.

Record EditContextReference := { ecr_source : string; ecr_provenance : string; ecr_content_hash : option string }.
#[export] Instance EditContextReference_eq_dec : EqDecision EditContextReference.
Proof. solve_decision. Defined.

Record EditUserReference := {
  eur_reference_id : string;
  eur_kind : string;
  eur_path : option string;
  eur_provenance : string;
}.
#[export] Instance EditUserReference_eq_dec : EqDecision EditUserReference.
Proof. solve_decision. Defined.

Inductive EditValidationKind := ReparseJava | BuildOffline | TestOffline.
#[export] Instance EditValidationKind_eq_dec : EqDecision EditValidationKind.
Proof. solve_decision. Defined.

Record EditPlanLimits := {
  max_files : N;
  max_created_files : N;
  max_file_bytes : N;
  max_proposal_bytes : N;
  max_hunks : N;
  max_added_lines : N;
  max_deleted_lines : N;
  max_changed_lines : N;
  global_timeout_seconds : N;
}.
#[export] Instance EditPlanLimits_eq_dec : EqDecision EditPlanLimits.
Proof. solve_decision. Defined.

Definition hard_maxima : EditPlanLimits := {|
  max_files := MAX_EDIT_FILES;
  max_created_files := MAX_EDIT_CREATED_FILES;
  max_file_bytes := MAX_EDIT_FILE_BYTES;
  max_proposal_bytes := MAX_EDIT_PROPOSAL_BYTES;
  max_hunks := MAX_EDIT_HUNKS;
  max_added_lines := MAX_EDIT_ADDED_LINES;
  max_deleted_lines := MAX_EDIT_DELETED_LINES;
  max_changed_lines := MAX_EDIT_CHANGED_LINES;
  global_timeout_seconds := MAX_EDIT_GLOBAL_TIMEOUT_SECONDS |}.

Definition bounded_by_hard_maxima (l : EditPlanLimits) : bool :=
  (0 <? max_files l) && (max_files l <=? MAX_EDIT_FILES)
  && (max_created_files l <=? MAX_EDIT_CREATED_FILES)
  && (0 <? max_file_bytes l) && (max_file_bytes l <=? MAX_EDIT_FILE_BYTES)
  && (0 <? max_proposal_bytes l) && (max_proposal_bytes l <=? MAX_EDIT_PROPOSAL_BYTES)
  && (0 <? max_hunks l) && (max_hunks l <=? MAX_EDIT_HUNKS)
  && (max_added_lines l <=? MAX_EDIT_ADDED_LINES)
  && (max_deleted_lines l <=? MAX_EDIT_DELETED_LINES)
  && (max_changed_lines l <=? MAX_EDIT_CHANGED_LINES)
  && (0 <? global_timeout_seconds l) && (global_timeout_seconds l <=? MAX_EDIT_GLOBAL_TIMEOUT_SECONDS).

(** The fields of [EditOperation::Modify] and [EditOperation::Create]. *)
Record Modification := {
  m_path : string;
  m_expected_file_hash : string;
  m_encoding : TextEncoding;
  m_line_ending : LineEnding;
  m_range : ByteRange;
  m_expected_old : string;
  m_replacement : string;
  m_reason : string;
  m_symbol : option string;
  m_provenance : list string;
}.
Record Creation := {
  n_path : string;
  n_extension : string;
  n_encoding : TextEncoding;
  n_line_ending : LineEnding;
  n_content : string;
  n_reason : string;
  n_provenance : list string;
  n_expected_absent : bool;
  n_declared_size : N;
}.

Inductive EditOperation :=
| Modify (m : Modification)
| Create (n : Creation).
#[export] Instance Modification_eq_dec : EqDecision Modification.
Proof. solve_decision. Defined.
#[export] Instance Creation_eq_dec : EqDecision Creation.
Proof. solve_decision. Defined.
#[export] Instance EditOperation_eq_dec : EqDecision EditOperation.
Proof. solve_decision. Defined.

Definition operation_path (o : EditOperation) : string :=
  match o with Modify m => m_path m | Create n => n_path n end.
Definition is_creation (o : EditOperation) : bool :=
  match o with Modify _ => false | Create _ => true end.

Record EditPlan := {
  p_schema_version : N;
  p_plan_id : string;
  p_request_id : string;
  p_workspace_id : string;
  p_workspace_root_hash : string;
  p_profile : string;
  p_provider : ProviderId;
  p_model : string;
  p_base_head : string;
  p_working_tree_digest : string;
  p_context_used : list EditContextReference;
  p_user_references : list EditUserReference;
  p_summary : string;
  p_rationale_summary : string;
  p_operations : list EditOperation;
  p_validations : list EditValidationKind;
  p_risks : list string;
  p_limitations : list string;
  p_limits : EditPlanLimits;
  p_expires_at_unix_ms : N;
}.

Definition new_empty_plan : EditPlan := {|
  p_schema_version := EDIT_PLAN_SCHEMA_VERSION; p_plan_id := ""; p_request_id := ""; p_workspace_id := "";
  p_workspace_root_hash := ""; p_profile := ""; p_provider := Ollama; p_model := ""; p_base_head := "";
  p_working_tree_digest := ""; p_context_used := []; p_user_references := []; p_summary := "";
  p_rationale_summary := ""; p_operations := []; p_validations := []; p_risks := []; p_limitations := [];
  p_limits := hard_maxima; p_expires_at_unix_ms := 0 |}.

Record EditPlanExpectations := {
  x_request_id : string;
  x_plan_id : string;
  x_workspace_id : string;
  x_workspace_root : string;
  x_workspace_root_hash : string;
  x_profile : string;
  x_provider : ProviderId;
  x_model : string;
  x_base_head : string;
  x_working_tree_digest : string;
  x_now_unix_ms : N;
  x_limits : EditPlanLimits;
}.

Inductive ProposalFileStatus := Modified | Created.
#[export] Instance ProposalFileStatus_eq_dec : EqDecision ProposalFileStatus.
Proof. solve_decision. Defined.

Record ProposalFileSnapshot := {
  f_path : string;
  f_status : ProposalFileStatus;
  f_encoding : TextEncoding;
  f_line_ending : LineEnding;
  f_base_content : option string;
  f_base_hash : option string;
  f_proposed_content : string;
  f_proposed_hash : string;
  f_proposed_bytes : N;
}.

Record ValidatedEditPlan := {
  v_plan : EditPlan;
  v_files : list ProposalFileSnapshot;
  v_estimated_added_lines : N;
  v_estimated_deleted_lines : N;
  v_total_snapshot_bytes : N;
}.

(** ** The proposal life cycle *)

Inductive ProposalState :=
| Generated | Validated | WorktreePrepared | WorktreeApplied | BuildRunning | Verified
| VerificationFailed | ApprovalPending | Applying | Applied | RollbackAvailable | RollingBack
| RolledBack | Discarded | Expired | Failed.
#[export] Instance ProposalState_eq_dec : EqDecision ProposalState.
Proof. solve_decision. Defined.

Definition can_transition_to (s next : ProposalState) : bool :=
  match s, next with
  | Generated, Validated
  | Validated, (WorktreePrepared | VerificationFailed | Failed | Expired | Discarded)
  | WorktreePrepared, (WorktreeApplied | VerificationFailed | Failed)
  | WorktreeApplied, (BuildRunning | VerificationFailed | Failed)
  | BuildRunning, (Verified | VerificationFailed | Failed)
  | Verified, (WorktreePrepared | VerificationFailed | ApprovalPending | Applying | Expired | Discarded)
  | VerificationFailed, (WorktreePrepared | Expired | Discarded)
  | ApprovalPending, (Applying | Verified | Expired | Discarded)
  | Applying, (Applied | Verified | Failed)
  | Applied, (RollbackAvailable | RollingBack | Failed)
  | RollbackAvailable, (RollingBack | Expired)
  | RollingBack, (RolledBack | RollbackAvailable | Failed) => true
  | _, _ => bool_decide (s = next)
  end.

Definition is_terminal (s : ProposalState) : bool :=
  match s with RolledBack | Discarded | Expired | Failed => true | _ => false end.

Record ProposalTransition := {
  t_sequence : N;
  t_state : ProposalState;
  t_recorded_at_unix_ms : N;
  t_reason : string;
}.

(** ** Errors *)

Record EditPlanError := PlanError { pe_code : string; pe_message : string }.
Abbreviation edit A := (result A EditPlanError).

(** [Display for EditPlanError] *)
Definition edit_plan_error_display (e : EditPlanError) : string := pe_code e ++ ": " ++ pe_message e.

Definition invalid {A} (code message : string) : edit A := Err (PlanError code message).
Definition invalid_if (b : bool) (code message : string) : edit unit := if b then invalid code message else Ok tt.

Definition has_nul (s : string) : bool := any_byte (fun c => byte_n c =? 0) s.
Definition list_len {A} (l : list A) : N := N.of_nat (List.length l).

(** Running a check over a list, as the [for] loops do. *)
Fixpoint check_each {A E} (check : A -> result unit E) (l : list A) : result unit E :=
  match l with
  | [] => Ok tt
  | x :: l' => check x ;? check_each check l'
  end.

(** ** Parsing: the JSON reader is [serde_json]'s *)

Class EditPlanSerde := edit_plan_from_str : string -> result EditPlan string.

Definition parse_edit_plan_json `{EditPlanSerde} (raw : string) : edit EditPlan :=
  if is_empty raw || (MAX_EDIT_PROPOSAL_BYTES <? strlen raw)
  then invalid "plan.size" "structured edit output is empty or exceeds the proposal byte limit" else
  let trimmed := trim raw in
  if negb (starts_with "{" trimmed) || negb (ends_with "}" trimmed)
  then invalid "plan.trailing_text"
         "the model output must contain exactly one JSON object and no prose or code fence" else
  map_err (fun error => PlanError "plan.invalid_json" ("the edit plan does not match schema v1: " ++ error))
    (edit_plan_from_str trimmed).

(** ** Texts and identifiers *)

Definition is_hash (value : string) : bool := (strlen value =? 64) && all_bytes is_ascii_hexdigit value.
Definition is_git_oid (value : string) : bool :=
  ((strlen value =? 40) || (strlen value =? 64)) && all_bytes is_ascii_hexdigit value.

Definition validate_bounded_text (value name : string) : edit unit :=
  invalid_if (is_empty (trim value) || (MAX_EDIT_REASON_CHARS <? char_count value) || has_nul value)
    "plan.text_limit" (name ++ " is empty, too long, or contains NUL").

Definition validate_string_list (values : list string) (name : string) : edit unit :=
  invalid_if (MAX_EDIT_LIST_ITEMS <? list_len values) "plan.list_limit" (name ++ " exceeds its item limit") ;?
  check_each (fun value => validate_bounded_text value name) values.

Definition validate_operation_metadata (reason : string) (provenance : list string) (symbol : option string)
    : edit unit :=
  validate_bounded_text reason "operation reason" ;?
  invalid_if (bool_decide (provenance = []) || (MAX_EDIT_LIST_ITEMS <? list_len provenance))
    "operation.provenance" "every operation needs a bounded non-empty provenance list" ;?
  validate_string_list provenance "operation provenance" ;?
  invalid_if (is_some_and (fun value => is_empty value || (512 <? char_count value)) symbol)
    "operation.symbol" "target symbol is empty or too long".

(** ** Paths *)

Definition normalize_relative (value : string) : string := replace_backslash value.

Definition windows_device_names : list string := ["CON"; "PRN"; "AUX"; "NUL"].
Definition windows_port_suffixes : list string := ["1"; "2"; "3"; "4"; "5"; "6"; "7"; "8"; "9"].

Definition windows_reserved_name (value : string) : bool :=
  let stem := to_ascii_uppercase (first_part "."%char (trim_end_matches (one_of " .") value)) in
  existsb (String.eqb stem) windows_device_names
  || is_some_and (fun suffix => existsb (String.eqb suffix) windows_port_suffixes)
       (match str_strip_prefix "COM" stem with
        | Some suffix => Some suffix
        | None => str_strip_prefix "LPT" stem
        end).

Definition wrapper_names : list string := ["mvnw"; "mvnw.cmd"; "gradlew"; "gradlew.bat"].

Definition sensitive_path (value : string) : bool :=
  let normalized := to_ascii_lowercase (replace_backslash value) in
  let name := last_part slash normalized in
  (normalized =? ".git")%string || starts_with ".git/" normalized || str_contains "/.git/" normalized
  || (normalized =? ".opticcode")%string || starts_with ".opticcode/" normalized
  || starts_with ".mvn/" normalized || starts_with "gradle/wrapper/" normalized
  || existsb (String.eqb name) wrapper_names
  || starts_with ".env" name
  || ends_with ".key" name || ends_with ".pem" name || ends_with ".pfx" name || ends_with ".p12" name
  || str_contains "credential" name || str_contains "secret" name || str_contains "token" name
  || (name =? "id_rsa")%string || (name =? "id_ed25519")%string.

Definition validate_component (c : component) : edit unit :=
  match c with
  | Normal name =>
      let text := to_string_lossy name in
      invalid_if (is_empty text || any_byte (Ascii.eqb ":"%char) text || windows_reserved_name text)
        "path.windows_unsafe" "edit path contains a Windows-unsafe component"
  | _ => invalid "path.traversal"
           "edit path contains traversal, root, prefix, or current-directory components"
  end.

Definition validate_relative_path (value : string) : edit unit :=
  invalid_if (is_empty value || (1024 <? strlen value) || has_control value) "path.invalid"
    "edit path is empty, too long, or contains control characters" ;?
  invalid_if (is_absolute value) "path.absolute" "absolute edit paths are refused" ;?
  check_each validate_component (components value) ;?
  invalid_if ((list_len (components value) =? 0) || sensitive_path value) "path.sensitive"
    "Git metadata, build wrappers, executable files, and secret-like names are refused".

Definition validate_extension (value : string) : edit unit :=
  let extension := default "" (option_map to_ascii_lowercase (extension value ≫= to_str)) in
  invalid_if (negb (existsb (String.eqb extension) ALLOWED_EDIT_EXTENSIONS)) "path.extension_refused"
    ("file extension for " ++ value ++ " is outside the Minecraft V1 text allowlist").

(** ** Line endings and line counts *)

Fixpoint count_endings (previous : option ascii) (s : string) : N * N :=
  match s with
  | EmptyString => (0, 0)
  | String c s' =>
      let '(crlf, lf) := count_endings (Some c) s' in
      if Ascii.eqb c line_feed then
        if bool_decide (previous = Some carriage_return) then (crlf + 1, lf) else (crlf, lf + 1)
      else (crlf, lf)
  end.

Definition detect_line_ending (value : string) : edit LineEnding :=
  let '(crlf, lf) := count_endings None value in
  if (0 <? crlf) && (0 <? lf)
  then invalid "file.mixed_line_endings" "mixed CRLF and LF line endings are not editable in CHAT-EDIT-001"
  else Ok (if 0 <? crlf then Crlf else if 0 <? lf then Lf else NoEnding).

Definition line_count (value : string) : N :=
  if is_empty value then 0 else saturating_add64 (count_byte line_feed value) 1.

Definition estimate_group_lines (operations : list EditOperation) : N * N :=
  foldl (fun '(added, deleted) operation =>
    match operation with
    | Modify m => (saturating_add64 added (line_count (m_replacement m)),
                   saturating_add64 deleted (line_count (m_expected_old m)))
    | Create n => (saturating_add64 added (line_count (n_content n)), deleted)
    end) (0, 0) operations.

(** ** Ranges *)

(** [source.get(start..end)] *)
Definition str_get (source : string) (start end_ : N) : option string :=
  if (start <=? end_) && is_char_boundary source start && is_char_boundary source end_
  then Some (take_bytes (N.to_nat (end_ - start)) (drop_bytes (N.to_nat start) source))
  else None.

(** [String::replace_range], which panics outside the text or inside a
    character. *)
Definition replace_range (s : string) (r : ByteRange) (with_ : string) : IO string :=
  if (br_start r <=? br_end r) && is_char_boundary s (br_start r) && is_char_boundary s (br_end r)
  then Ret (take_bytes (N.to_nat (br_start r)) s ++ with_ ++ drop_bytes (N.to_nat (br_end r)) s)
  else Panic "replace_range: not a char boundary".

Definition validate_range (source : string) (range : ByteRange) (expected_old : string) : edit unit :=
  invalid_if ((br_end range <? br_start range) || (strlen source <? br_end range)
              || negb (is_char_boundary source (br_start range))
              || negb (is_char_boundary source (br_end range)))
    "operation.range_invalid" "byte range is reversed, out of bounds, or splits UTF-8" ;?
  invalid_if (bool_decide (str_get source (br_start range) (br_end range) <> Some expected_old))
    "operation.expected_old_mismatch" "expected old content does not match the exact byte range".

Definition range_cmp (l r : ByteRange) : comparison :=
  then_with (N.compare (br_start l) (br_start r)) (N.compare (br_end l) (br_end r)).

(** The key of the second sort, of which [Reverse] is taken. *)
Definition operation_range (o : EditOperation) : ByteRange :=
  match o with Modify m => m_range m | Create _ => {| br_start := 0; br_end := 0 |} end.
Definition reverse_range_cmp (l r : EditOperation) : comparison :=
  range_cmp (operation_range r) (operation_range l).

(** ** Directories *)

Definition metadata_is_link_or_reparse (m : metadata) : bool := is_symlink m.

Definition canonical_real_directory (path : string) : IO (edit string) :=
  m <-? io_map_err (fun e => PlanError "path.inspect_failed"
          ("failed to inspect " ++ to_string_lossy path ++ ": " ++ io_error_display e)) (sys (SymlinkMetadata path)) ;;
  if negb (is_dir m) || metadata_is_link_or_reparse m
  then Ret (invalid "path.reparse_refused"
         ("directory is a symlink, junction, reparse point, or non-directory: " ++ to_string_lossy path)) else
  io_map_err (fun e => PlanError "path.resolve_failed"
    ("failed to resolve " ++ to_string_lossy path ++ ": " ++ io_error_display e)) (sys (Canonicalize path)).

(** ** The envelope *)

Definition plan_identifiers (plan : EditPlan) (expected : EditPlanExpectations) : list (string * string * string) := [
  ("plan_id", p_plan_id plan, x_plan_id expected);
  ("request_id", p_request_id plan, x_request_id expected);
  ("workspace_id", p_workspace_id plan, x_workspace_id expected);
  ("profile", p_profile plan, x_profile expected);
  ("model", p_model plan, x_model expected);
  ("base_head", p_base_head plan, x_base_head expected);
  ("working_tree_digest", p_working_tree_digest plan, x_working_tree_digest expected);
  ("workspace_root_hash", p_workspace_root_hash plan, x_workspace_root_hash expected)].

Definition check_identifier (i : string * string * string) : edit unit :=
  let '(name, actual, trusted) := i in
  invalid_if (is_empty actual || (MAX_EDIT_IDENTIFIER_BYTES <? strlen actual) || has_control actual
              || negb (actual =? trusted)%string)
    ("plan." ++ name ++ "_mismatch") (name ++ " does not match the trusted request state").

Definition validate_envelope (plan : EditPlan) (expected : EditPlanExpectations) : edit unit :=
  invalid_if (negb (p_schema_version plan =? EDIT_PLAN_SCHEMA_VERSION)) "plan.schema_version"
    ("unsupported edit plan schema version " ++ dec (p_schema_version plan)) ;?
  check_each check_identifier (plan_identifiers plan expected) ;?
  invalid_if (bool_decide (p_provider plan <> x_provider expected)) "plan.provider_mismatch"
    "provider does not match the trusted request" ;?
  invalid_if (negb (is_hash (p_workspace_root_hash plan)) || negb (is_hash (p_working_tree_digest plan)))
    "plan.hash_invalid" "workspace and working-tree digests must be 64 hexadecimal BLAKE3 values" ;?
  invalid_if (negb (is_git_oid (p_base_head plan))) "plan.head_invalid"
    "base HEAD must be a 40- or 64-character hexadecimal object ID" ;?
  let max_expiry := saturating_add64 (x_now_unix_ms expected) (saturating_mul64 DEFAULT_PROPOSAL_TTL_SECONDS 1000) in
  invalid_if ((p_expires_at_unix_ms plan <=? x_now_unix_ms expected) || (max_expiry <? p_expires_at_unix_ms plan))
    "plan.expiry_invalid" "proposal expiry must be in the future and no more than 24 hours away".

Definition limits_exceed (l r : EditPlanLimits) : bool :=
  (max_files r <? max_files l) || (max_created_files r <? max_created_files l)
  || (max_file_bytes r <? max_file_bytes l) || (max_proposal_bytes r <? max_proposal_bytes l)
  || (max_hunks r <? max_hunks l) || (max_added_lines r <? max_added_lines l)
  || (max_deleted_lines r <? max_deleted_lines l) || (max_changed_lines r <? max_changed_lines l)
  || (global_timeout_seconds r <? global_timeout_seconds l).

Definition exceeds_effective_limits (plan : EditPlan) (expected : EditPlanExpectations) : bool :=
  limits_exceed (p_limits plan) (x_limits expected).

(** The checks before any file is read. *)
Definition validate_plan_fields (plan : EditPlan) (expected : EditPlanExpectations) : edit unit :=
  validate_envelope plan expected ;?
  validate_bounded_text (p_summary plan) "summary" ;?
  validate_bounded_text (p_rationale_summary plan) "rationale_summary" ;?
  validate_string_list (p_risks plan) "risks" ;?
  validate_string_list (p_limitations plan) "limitations" ;?
  invalid_if ((MAX_EDIT_LIST_ITEMS <? list_len (p_context_used plan))
              || (MAX_EDIT_LIST_ITEMS <? list_len (p_user_references plan))
              || (MAX_EDIT_LIST_ITEMS <? list_len (p_validations plan)))
    "plan.list_limit" "context, references, validations, risks, or limitations exceed runtime bounds" ;?
  let validations := btree_set (p_validations plan) in
  invalid_if (negb (list_len validations =? list_len (p_validations plan))
              || bool_decide (ReparseJava ∉ validations) || bool_decide (BuildOffline ∉ validations))
    "plan.validation_contract" "every edit plan must request unique reparse_java and build_offline validations" ;?
  invalid_if (negb (bounded_by_hard_maxima (p_limits plan)) || exceeds_effective_limits plan expected)
    "plan.limit_escalation" "the plan attempted to raise or invalidate a trusted runtime limit" ;?
  invalid_if (bool_decide (p_operations plan = []) || (max_hunks (p_limits plan) <? list_len (p_operations plan)))
    "plan.operation_limit" "the plan must contain a bounded non-empty operation list".

(** ** Grouping by file *)

Definition check_operation_path (o : EditOperation) : edit unit :=
  validate_relative_path (operation_path o) ;? validate_extension (operation_path o).

Definition group_operation (grouped : list (string * list EditOperation)) (o : EditOperation)
    : list (string * list EditOperation) :=
  map_update (normalize_relative (operation_path o)) (fun ops => default [] ops ++ [o])%list grouped.

Definition group_operations (operations : list EditOperation) : list (string * list EditOperation) :=
  foldl group_operation [] operations.

(** ** One file *)

Section Groups.
Context `{Blake3, Regex}.

Definition content_hash (bytes : string) : string := blake3_hex bytes.

Definition mixed_operations {A} : edit A :=
  invalid "plan.mixed_operations" "a path cannot be both created and modified in one proposal".

(** One operation of the first loop of [validate_modification_group]. *)
Definition validate_modification (path base actual_hash : string) (actual_line_ending : LineEnding)
    (o : EditOperation) : IO (edit unit) :=
  match o with
  | Create _ => Ret mixed_operations
  | Modify m =>
      Ret (invalid_if (bool_decide (m_encoding m <> Utf8) || bool_decide (m_line_ending m <> actual_line_ending))
             "file.encoding_or_line_ending" ("encoding or line ending expectation does not match " ++ path)) ;;?
      Ret (invalid_if (negb (m_expected_file_hash m =? actual_hash)%string || negb (is_hash (m_expected_file_hash m)))
             "file.hash_mismatch" ("expected BLAKE3 hash does not match " ++ path)) ;;?
      Ret (validate_operation_metadata (m_reason m) (m_provenance m) (m_symbol m)) ;;?
      Ret (validate_range base (m_range m) (m_expected_old m)) ;;?
      Ret (invalid_if (MAX_EXPECTED_OLD_BYTES <? strlen (m_expected_old m)) "operation.expected_old_limit"
             "expected old content exceeds its bounded size") ;;?
      secret <- inspect_sensitive_text (m_replacement m) ;;
      Ret (invalid_if (is_some secret) "secret.replacement_content"
             ("replacement for " ++ path ++ " contains secret-like material"))
  end.

Fixpoint validate_modifications (path base actual_hash : string) (actual_line_ending : LineEnding)
    (os : list EditOperation) : IO (edit unit) :=
  match os with
  | [] => Ret (Ok tt)
  | o :: os' =>
      validate_modification path base actual_hash actual_line_ending o ;;?
      validate_modifications path base actual_hash actual_line_ending os'
  end.

Definition ranges_overlap (operations : list EditOperation) : bool :=
  windows2_any (fun l r => br_start r <? br_end l) (sort_by range_cmp (map operation_range operations)).

(** The replacements, from the last range to the first. *)
Fixpoint apply_replacements (proposed : string) (sorted : list EditOperation) : IO string :=
  match sorted with
  | [] => Ret proposed
  | Modify m :: sorted' =>
      proposed <- replace_range proposed (m_range m) (m_replacement m) ;;
      apply_replacements proposed sorted'
  | Create _ :: sorted' => apply_replacements proposed sorted'
  end.

Definition validate_modification_group (root path : string) (operations : list EditOperation) (plan : EditPlan)
    : IO (edit ProposalFileSnapshot) :=
  file <-? io_map_err (fun e => PlanError (ref_rule_id e) (ref_message e))
             (read_safe_workspace_file root path (max_file_bytes (p_limits plan))) ;;
  let base := sf_content file in
  secret <- inspect_sensitive_text base ;;
  Ret (invalid_if (is_some secret) "secret.source_content"
         ("source file " ++ path ++ " contains material excluded by secret scanning")) ;;?
  let actual_hash := content_hash base in
  actual_line_ending <-? Ret (detect_line_ending base) ;;
  validate_modifications path base actual_hash actual_line_ending operations ;;?
  Ret (invalid_if (ranges_overlap operations) "operation.overlap" ("byte ranges overlap in " ++ path)) ;;?
  proposed <- apply_replacements base (sort_by reverse_range_cmp operations) ;;
  Ret (invalid_if (max_file_bytes (p_limits plan) <? strlen proposed) "file.size_after"
         ("proposed file " ++ path ++ " exceeds the file byte limit")) ;;?
  proposed_line_ending <-? Ret (detect_line_ending proposed) ;;
  Ret (invalid_if (bool_decide (actual_line_ending <> NoEnding)
                   && bool_decide (proposed_line_ending <> actual_line_ending))
         "file.line_ending_changed" ("proposal changes the line-ending convention of " ++ path)) ;;?
  Ret (Ok {|
    f_path := path;
    f_status := Modified;
    f_encoding := Utf8;
    f_line_ending := actual_line_ending;
    f_base_hash := Some actual_hash;
    f_base_content := Some base;
    f_proposed_hash := content_hash proposed;
    f_proposed_bytes := strlen proposed;
    f_proposed_content := proposed |}).

(** The target of a creation does not exist; its parent is a directory
    inside the workspace. *)
Definition validate_new_target (root path : string) : IO (edit unit) :=
  let absolute := join root path in
  present <- sys (SymlinkMetadata absolute) ;;
  Ret match present with
      | Ok _ => invalid "creation.already_exists" ("new file target already exists: " ++ path)
      | Err e =>
          if decide (io_error_kind e = NotFound) then Ok tt
          else invalid "creation.inspect_failed"
                 ("cannot inspect new file target " ++ path ++ ": " ++ io_error_display e)
      end ;;?
  parent <-? Ret (ok_or (PlanError "creation.parent" "new file has no workspace parent") (parent absolute)) ;;
  parent <-? canonical_real_directory parent ;;
  Ret (invalid_if (negb (path_starts_with parent root)) "path.outside_workspace"
         "new file parent resolves outside the workspace").

Definition validate_creation_fields (path : string) (n : Creation) (plan : EditPlan) : IO (edit unit) :=
  Ret (validate_operation_metadata (n_reason n) (n_provenance n) None) ;;?
  Ret (invalid_if (bool_decide (n_encoding n <> Utf8) || negb (n_expected_absent n)
                   || negb (n_declared_size n =? strlen (n_content n)))
         "creation.contract" "new file encoding, expected-absent marker, or declared byte size is invalid") ;;?
  let actual_extension := to_ascii_lowercase (default "" (extension path ≫= to_str)) in
  Ret (invalid_if (negb (to_ascii_lowercase (trim_start_matches (one_of ".") (n_extension n)) =? actual_extension)%string)
         "creation.extension_mismatch" "declared extension does not match the new file path") ;;?
  secret <- (if max_file_bytes (p_limits plan) <? strlen (n_content n) then Ret true
             else secret <- inspect_sensitive_text (n_content n) ;; Ret (is_some secret)) ;;
  Ret (invalid_if secret "creation.content_refused"
         "new file content exceeds bounds or contains secret-like material") ;;?
  line_ending <-? Ret (detect_line_ending (n_content n)) ;;
  Ret (invalid_if (bool_decide (line_ending <> n_line_ending n)) "creation.line_ending_mismatch"
         "declared line ending does not match new file content").

Definition validate_creation_group (root path : string) (operations : list EditOperation) (plan : EditPlan)
    : IO (edit ProposalFileSnapshot) :=
  match operations with
  | [Create n] =>
      validate_creation_fields path n plan ;;?
      validate_new_target root path ;;?
      Ret (Ok {|
        f_path := path;
        f_status := Created;
        f_encoding := Utf8;
        f_line_ending := n_line_ending n;
        f_base_content := None;
        f_base_hash := None;
        f_proposed_hash := content_hash (n_content n);
        f_proposed_bytes := strlen (n_content n);
        f_proposed_content := n_content n |})
  | [Modify _] => Ret mixed_operations
  | _ => Ret (invalid "plan.creation_duplicate"
                "a new file must be represented by exactly one creation operation")
  end.

(** ** The plan *)

Record totals := { tt_added : N; tt_deleted : N; tt_bytes : N }.

Definition snapshot_bytes (f : ProposalFileSnapshot) : N := default 0 (option_map strlen (f_base_content f)).

Fixpoint validate_groups (root : string) (plan : EditPlan) (grouped : list (string * list EditOperation)) (t : totals)
    : IO (edit (list ProposalFileSnapshot * totals)) :=
  match grouped with
  | [] => Ret (Ok ([], t))
  | (path, operations) :: grouped' =>
      snapshot <-? (if existsb is_creation operations
                    then validate_creation_group root path operations plan
                    else validate_modification_group root path operations plan) ;;
      let '(added, deleted) := estimate_group_lines operations in
      let t := {|
        tt_added := saturating_add64 (tt_added t) added;
        tt_deleted := saturating_add64 (tt_deleted t) deleted;
        tt_bytes := saturating_add64 (saturating_add64 (tt_bytes t) (snapshot_bytes snapshot))
                      (strlen (f_proposed_content snapshot)) |} in
      let!? (snapshots, t) := validate_groups root plan grouped' t in
      Ret (Ok (snapshot :: snapshots, t))
  end.

Definition check_totals (plan : EditPlan) (t : totals) : edit unit :=
  let limits := p_limits plan in
  invalid_if ((max_added_lines limits <? tt_added t) || (max_deleted_lines limits <? tt_deleted t)
              || (max_changed_lines limits <? saturating_add64 (tt_added t) (tt_deleted t)))
    "plan.line_limit"
    ("proposal line estimate is +" ++ dec (tt_added t) ++ "/-" ++ dec (tt_deleted t)
     ++ " and exceeds configured bounds") ;?
  invalid_if (saturating_mul64 (max_proposal_bytes limits) 2 <? tt_bytes t) "plan.snapshot_limit"
    "base and proposed review snapshots exceed the bounded storage limit".

Definition check_group_limits (plan : EditPlan) (grouped : list (string * list EditOperation)) : edit unit :=
  let limits := p_limits plan in
  invalid_if (max_files limits <? list_len grouped) "plan.file_limit"
    ("proposal touches " ++ dec (list_len grouped) ++ " files; maximum is " ++ dec (max_files limits)) ;?
  let creations := list_len (List.filter is_creation (p_operations plan)) in
  invalid_if (max_created_files limits <? creations) "plan.creation_limit"
    ("proposal creates " ++ dec creations ++ " files; maximum is " ++ dec (max_created_files limits)).

Definition validate_edit_plan (plan : EditPlan) (expected : EditPlanExpectations) : IO (edit ValidatedEditPlan) :=
  Ret (validate_plan_fields plan expected) ;;?
  root <-? canonical_real_directory (x_workspace_root expected) ;;
  Ret (check_each check_operation_path (p_operations plan)) ;;?
  let grouped := group_operations (p_operations plan) in
  Ret (check_group_limits plan grouped) ;;?
  let!? (snapshots, t) := validate_groups root plan grouped {| tt_added := 0; tt_deleted := 0; tt_bytes := 0 |} in
  Ret (check_totals plan t) ;;?
  Ret (Ok {|
    v_plan := plan;
    v_files := snapshots;
    v_estimated_added_lines := tt_added t;
    v_estimated_deleted_lines := tt_deleted t;
    v_total_snapshot_bytes := tt_bytes t |}).

(** [canonical_root_hash], on Unix. *)
Definition canonical_root_hash (path : string) : IO (edit string) :=
  canonical <-? canonical_real_directory path ;;
  Ret (Ok (content_hash (replace_backslash (to_string_lossy canonical)))).
End Groups.

(** [working_tree_digest]: the state without its metrics, as [serde_json]
    reads and writes it ([None] when it is no JSON object). *)
Class StateJson := without_metrics : string -> option string.

Definition digest_prefix : string := "opticcode-working-tree-v1" ++ String (byte 0) "".

Definition working_tree_digest `{Blake3, StateJson} (root_hash head state_json : string) : string :=
  blake3_hex (digest_prefix ++ root_hash ++ String (byte 0) "" ++ head ++ String (byte 0) ""
              ++ default state_json (without_metrics state_json)).
