(* ===== verification/EditIntent.v ===== *)
(** * Edit intents (opticcode-edit: intent.rs)

    What the trusted runtime allows a plan to touch: targets with their
    hashes and references, operations, extensions, limits and life time;
    the binding of a validated intent to a stored proposal; and the check of
    a validated plan against either. *)

From stdpp Require Import base list strings.
From Stdlib Require Import NArith Ascii String Lia.
From S2P Require Import Prelude Bytes Text UnixPath Paths EditPlan.

Local Open Scope string_scope.
Local Open Scope N_scope.

(** ** Constants and data *)

Definition EDIT_INTENT_SCHEMA_VERSION : N := 1.
Definition MAX_EDIT_INTENT_TARGETS : N := 16.
Definition MAX_EDIT_INTENT_TASK_BYTES : N := 64 * 1024.
Definition MAX_EDIT_INTENT_JSON_BYTES : N := 512 * 1024.
Definition MAX_EDIT_INTENT_REFERENCES_PER_TARGET : N := 32.
Definition MAX_EDIT_INTENT_PATH_BYTES : N := 4 * 1024.
Definition DEFAULT_EDIT_INTENT_TTL_SECONDS : N := 15 * 60.
Definition MAX_EDIT_INTENT_AGE_SECONDS : N := 5 * 60.
Definition MAX_EDIT_INTENT_CLOCK_SKEW_SECONDS : N := 60.

Inductive EditIntentSelectionMode := ExplicitReferences | ResolvedContext | Hybrid.
#[export] Instance EditIntentSelectionMode_eq_dec : EqDecision EditIntentSelectionMode.
Proof. solve_decision. Defined.

Inductive EditIntentOperationKind := ModifyExisting | CreateTextFile.
#[export] Instance EditIntentOperationKind_eq_dec : EqDecision EditIntentOperationKind.
Proof. solve_decision. Defined.

Inductive EditIntentTargetProvenance :=
  UserReference | ResolvedReference | ContextManifest | UserRequestedCreation.
#[export] Instance EditIntentTargetProvenance_eq_dec : EqDecision EditIntentTargetProvenance.
Proof. solve_decision. Defined.

Inductive EditOffsetEncoding := Utf8Bytes.
#[export] Instance EditOffsetEncoding_eq_dec : EqDecision EditOffsetEncoding.
Proof. solve_decision. Defined.

Inductive EditIntentTarget :=
| ExistingFile (path content_hash : string) (reference_ids : list string) (provenance : EditIntentTargetProvenance)
| ProspectiveFile (path extension : string) (reference_ids : list string) (provenance : EditIntentTargetProvenance).
#[export] Instance EditIntentTarget_eq_dec : EqDecision EditIntentTarget.
Proof. solve_decision. Defined.

Definition target_path (t : EditIntentTarget) : string :=
  match t with ExistingFile p _ _ _ | ProspectiveFile p _ _ _ => p end.
Definition operation_kind (t : EditIntentTarget) : EditIntentOperationKind :=
  match t with ExistingFile _ _ _ _ => ModifyExisting | ProspectiveFile _ _ _ _ => CreateTextFile end.
Definition reference_ids (t : EditIntentTarget) : list string :=
  match t with ExistingFile _ _ r _ | ProspectiveFile _ _ r _ => r end.
Definition target_provenance (t : EditIntentTarget) : EditIntentTargetProvenance :=
  match t with ExistingFile _ _ _ p | ProspectiveFile _ _ _ p => p end.
Definition sort_rank (t : EditIntentTarget) : N :=
  match t with ExistingFile _ _ _ _ => 0 | ProspectiveFile _ _ _ _ => 1 end.
Definition map_reference_ids (f : list string -> list string) (t : EditIntentTarget) : EditIntentTarget :=
  match t with
  | ExistingFile p h r v => ExistingFile p h (f r) v
  | ProspectiveFile p e r v => ProspectiveFile p e (f r) v
  end.

Record EditIntentConstraints := {
  k_allowed_operations : list EditIntentOperationKind;
  k_allowed_extensions : list string;
  k_limits : EditPlanLimits;
  k_offset_encoding : EditOffsetEncoding;
  k_require_clean_worktree : bool;
  k_require_offline_verification : bool;
  k_require_native_confirmation : bool;
}.
#[export] Instance EditIntentConstraints_eq_dec : EqDecision EditIntentConstraints.
Proof. solve_decision. Defined.

Definition no_creation (l : EditPlanLimits) : EditPlanLimits := {|
  max_files := max_files l; max_created_files := 0; max_file_bytes := max_file_bytes l;
  max_proposal_bytes := max_proposal_bytes l; max_hunks := max_hunks l; max_added_lines := max_added_lines l;
  max_deleted_lines := max_deleted_lines l; max_changed_lines := max_changed_lines l;
  global_timeout_seconds := global_timeout_seconds l |}.

Definition modify_only (limits : EditPlanLimits) : EditIntentConstraints := {|
  k_allowed_operations := [ModifyExisting];
  k_allowed_extensions := ALLOWED_EDIT_EXTENSIONS;
  k_limits := no_creation limits;
  k_offset_encoding := Utf8Bytes;
  k_require_clean_worktree := true;
  k_require_offline_verification := true;
  k_require_native_confirmation := true |}.

Definition modify_and_create (limits : EditPlanLimits) : EditIntentConstraints := {|
  k_allowed_operations := [ModifyExisting; CreateTextFile];
  k_allowed_extensions := ALLOWED_EDIT_EXTENSIONS;
  k_limits := limits;
  k_offset_encoding := Utf8Bytes;
  k_require_clean_worktree := true;
  k_require_offline_verification := true;
  k_require_native_confirmation := true |}.

Record EditIntent := {
  i_schema_version : N;
  i_intent_id : string;
  i_request_id : string;
  i_workspace_id : string;
  i_workspace_root_hash : string;
  i_base_head : string;
  i_working_tree_digest : string;
  i_task : string;
  i_selection_mode : EditIntentSelectionMode;
  i_targets : list EditIntentTarget;
  i_constraints : EditIntentConstraints;
  i_created_at_unix_ms : N;
  i_expires_at_unix_ms : N;
}.

Record EditIntentAllowedExistingTarget := { ae_path : string; ae_content_hash : string; ae_reference_ids : list string }.
Record EditIntentAllowedCreateTarget := { ac_path : string; ac_reference_ids : list string }.

Record EditIntentExpectations := {
  ix_request_id : string;
  ix_workspace_id : string;
  ix_workspace_root_hash : string;
  ix_base_head : string;
  ix_working_tree_digest : string;
  ix_now_unix_ms : N;
  ix_limits : EditPlanLimits;
  ix_allowed_existing_targets : list EditIntentAllowedExistingTarget;
  ix_allowed_create_targets : list EditIntentAllowedCreateTarget;
}.

Record ValidatedEditIntent := { vi_intent : EditIntent; vi_intent_hash : string; vi_canonical_json : string }.

Record ProposalIntentBinding := {
  b_schema_version : N;
  b_intent_id : string;
  b_intent_hash : string;
  b_binding_hash : string;
  b_request_id : string;
  b_workspace_id : string;
  b_workspace_root_hash : string;
  b_base_head : string;
  b_working_tree_digest : string;
  b_task_hash : string;
  b_selection_mode : EditIntentSelectionMode;
  b_targets : list EditIntentTarget;
  b_constraints : EditIntentConstraints;
  b_created_at_unix_ms : N;
  b_expires_at_unix_ms : N;
}.

(** [ProposalIntentBindingPayload]: the binding without its own hash. *)
Record ProposalIntentBindingPayload := {
  bp_schema_version : N;
  bp_intent_id : string;
  bp_intent_hash : string;
  bp_request_id : string;
  bp_workspace_id : string;
  bp_workspace_root_hash : string;
  bp_base_head : string;
  bp_working_tree_digest : string;
  bp_task_hash : string;
  bp_selection_mode : EditIntentSelectionMode;
  bp_targets : list EditIntentTarget;
  bp_constraints : EditIntentConstraints;
  bp_created_at_unix_ms : N;
  bp_expires_at_unix_ms : N;
}.

(** [EditIntentError] has the fields of [EditPlanError]. *)
Record EditIntentError := IntentError { ie_code : string; ie_message : string }.
Abbreviation intent A := (result A EditIntentError).

Definition edit_intent_error_display (e : EditIntentError) : string := ie_code e ++ ": " ++ ie_message e.

Definition reject {A} (code message : string) : intent A := Err (IntentError code message).
Definition reject_if (b : bool) (code message : string) : intent unit := if b then reject code message else Ok tt.

(** The JSON of [serde_json]. *)
Class IntentSerde := {
  edit_intent_from_str : string -> result EditIntent string;
  edit_intent_to_string : EditIntent -> result string string;
  binding_payload_to_vec : ProposalIntentBindingPayload -> result string string;
}.

Definition parse_edit_intent_json `{IntentSerde} (raw : string) : intent EditIntent :=
  if is_empty raw || (MAX_EDIT_INTENT_JSON_BYTES <? strlen raw)
  then reject "intent.size" "edit intent JSON is empty or exceeds the bounded payload limit" else
  let trimmed := trim raw in
  if negb (starts_with "{" trimmed) || negb (ends_with "}" trimmed)
  then reject "intent.trailing_text" "edit intent input must contain exactly one JSON object" else
  map_err (fun error => IntentError "intent.invalid_json" ("edit intent does not match schema v1: " ++ error))
    (edit_intent_from_str trimmed).

(** ** Identifiers, hashes and paths *)

Definition is_hash (value : string) : bool := (strlen value =? 64) && all_bytes is_ascii_hexdigit value.
Definition is_git_oid (value : string) : bool :=
  ((strlen value =? 40) || (strlen value =? 64)) && all_bytes is_ascii_hexdigit value.

Definition validate_identifier (name value : string) : intent unit :=
  reject_if (is_empty value || (MAX_EDIT_IDENTIFIER_BYTES <? strlen value) || existsb is_control (chars value))
    ("intent." ++ name) (name ++ " is empty, too long, or contains control characters").

Definition is_reserved_windows_name (part : string) : bool :=
  let stem := to_ascii_uppercase (trim_end_matches (one_of " .") (first_part "."%char part)) in
  existsb (String.eqb stem) windows_device_names
  || ((strlen stem =? 4) && (starts_with "COM" stem || starts_with "LPT" stem)
      && match String.get 3 stem with
         | Some c => is_ascii_digit c && negb (Ascii.eqb c "0"%char)
         | None => false
         end).

Definition backtick : string := "`".

Fixpoint path_parts (path : string) (cs : list component) : intent (list string) :=
  match cs with
  | [] => Ok []
  | Normal part :: cs' =>
      part <- ok_or (IntentError "intent.path" ("path " ++ backtick ++ path ++ backtick ++ " is not valid UTF-8"))
                (to_str part) ;?
      reject_if (is_empty part || (255 <? strlen part) || ends_with " " part || ends_with "." part
                 || is_reserved_windows_name part)
        "intent.path" ("path component " ++ backtick ++ part ++ backtick ++ " is not portable") ;?
      parts <- path_parts path cs' ;?
      Ok (part :: parts)
  | _ :: _ => reject "intent.path" ("path " ++ backtick ++ path ++ backtick ++ " contains a forbidden component")
  end.

Definition validate_relative_path (path : string) : intent string :=
  let quoted := "path " ++ backtick ++ path ++ backtick in
  reject_if (is_empty path || (MAX_EDIT_INTENT_PATH_BYTES <? strlen path)
             || any_byte (fun c => Ascii.eqb c backslash || (byte_n c =? 0) || Ascii.eqb c ":"%char) path
             || existsb is_control (chars path))
    "intent.path" (quoted ++ " is empty, oversized, non-portable, or contains control data") ;?
  reject_if (is_absolute path) "intent.path" (quoted ++ " must be relative") ;?
  parts <- path_parts path (components path) ;?
  let normalized := join_with "/" parts in
  reject_if (negb (normalized =? path)%string) "intent.path"
    (quoted ++ " is not in canonical workspace-relative form") ;?
  reject_if (is_some_and (fun first => existsb (String.eqb first) [".git"; ".opticcode"])
               (option_map to_ascii_lowercase (head parts)))
    "intent.path" (quoted ++ " targets protected repository metadata") ;?
  Ok normalized.

Definition extension_for_path (path : string) : intent string :=
  ok_or (IntentError "intent.target_extension"
           ("target " ++ backtick ++ path ++ backtick ++ " has no valid extension"))
    (option_map to_ascii_lowercase (extension path ≫= to_str)).

Definition operation_name (k : EditIntentOperationKind) : string :=
  match k with ModifyExisting => "modify_existing" | CreateTextFile => "create_text_file" end.

(** A set is its list without repetitions; insertion fails on a second
    occurrence. *)
Fixpoint inventory_from (seen references : list string) : intent (list string) :=
  match references with
  | [] => Ok seen
  | id :: references' =>
      validate_identifier "reference_id" id ;?
      match set_insert id seen with
      | None => reject "intent.reference_duplicate" ("reference ID " ++ backtick ++ id ++ backtick ++ " is duplicated")
      | Some seen => inventory_from seen references'
      end
  end.

Definition validate_reference_inventory (references : list string) : intent (list string) :=
  reject_if (MAX_EDIT_INTENT_REFERENCES_PER_TARGET <? list_len references) "intent.reference_limit"
    ("target references exceed the per-target limit of " ++ dec MAX_EDIT_INTENT_REFERENCES_PER_TARGET) ;?
  inventory_from [] references.

Definition ensure_reference_subset (path : string) (references allowed : list string) : intent unit :=
  match find (fun id => negb (set_contains allowed id)) references with
  | Some id => reject "intent.reference_not_trusted"
                 ("target " ++ backtick ++ path ++ backtick ++ " uses untrusted reference ID " ++ backtick ++ id ++ backtick)
  | None => Ok tt
  end.

(** ** The envelope *)

Definition intent_identities (i : EditIntent) (x : EditIntentExpectations) : list (string * string * string) := [
  ("request_id", i_request_id i, ix_request_id x);
  ("workspace_id", i_workspace_id i, ix_workspace_id x);
  ("workspace_root_hash", i_workspace_root_hash i, ix_workspace_root_hash x);
  ("base_head", i_base_head i, ix_base_head x);
  ("working_tree_digest", i_working_tree_digest i, ix_working_tree_digest x)].

Definition check_identity (e : string * string * string) : intent unit :=
  let '(name, actual, trusted) := e in
  validate_identifier name actual ;?
  reject_if (negb (actual =? trusted)%string) ("intent." ++ name ++ "_mismatch")
    (name ++ " does not match the trusted request state").

Definition validate_envelope (i : EditIntent) (x : EditIntentExpectations) : intent unit :=
  reject_if (negb (i_schema_version i =? EDIT_INTENT_SCHEMA_VERSION)) "intent.schema_version"
    ("unsupported edit intent schema version " ++ dec (i_schema_version i)) ;?
  validate_identifier "intent_id" (i_intent_id i) ;?
  check_each check_identity (intent_identities i x) ;?
  reject_if (negb (is_hash (i_workspace_root_hash i)) || negb (is_hash (i_working_tree_digest i)))
    "intent.hash_invalid"
    "workspace_root_hash and working_tree_digest must be 64-character hexadecimal BLAKE3 values" ;?
  reject_if (negb (is_git_oid (i_base_head i))) "intent.head_invalid"
    "base_head must be a 40- or 64-character hexadecimal Git object ID".

Definition validate_task (task : string) : intent unit :=
  reject_if (is_empty (trim task) || (MAX_EDIT_INTENT_TASK_BYTES <? strlen task)) "intent.task"
    "edit intent task is empty or exceeds the 64 KiB byte limit" ;?
  reject_if (has_nul task) "intent.task" "edit intent task contains a NUL byte".

Definition validate_timestamps (i : EditIntent) (now_unix_ms : N) : intent unit :=
  let skew_ms := saturating_mul64 MAX_EDIT_INTENT_CLOCK_SKEW_SECONDS 1000 in
  let max_age_ms := saturating_mul64 MAX_EDIT_INTENT_AGE_SECONDS 1000 in
  let max_ttl_ms := saturating_mul64 DEFAULT_EDIT_INTENT_TTL_SECONDS 1000 in
  reject_if (saturating_add64 now_unix_ms skew_ms <? i_created_at_unix_ms i) "intent.created_at"
    "edit intent creation time is too far in the future" ;?
  reject_if (saturating_add64 (i_created_at_unix_ms i) max_age_ms <? now_unix_ms) "intent.stale"
    "edit intent is older than the allowed validation window" ;?
  reject_if ((i_expires_at_unix_ms i <=? now_unix_ms) || (i_expires_at_unix_ms i <=? i_created_at_unix_ms i)
             || (saturating_add64 (i_created_at_unix_ms i) max_ttl_ms <? i_expires_at_unix_ms i))
    "intent.expiry" "edit intent expiry is invalid or exceeds the 15-minute TTL".

(** ** Constraints *)

Definition extension_error (extension : string) : EditIntentError :=
  IntentError "intent.extension_contract"
    ("extension " ++ backtick ++ extension ++ backtick ++ " is invalid, duplicated, or not allowlisted").

Fixpoint check_extensions (seen extensions : list string) : intent unit :=
  match extensions with
  | [] => Ok tt
  | extension :: extensions' =>
      if is_empty extension || negb (extension =? to_ascii_lowercase extension)%string
         || starts_with "." extension || negb (existsb (String.eqb extension) ALLOWED_EDIT_EXTENSIONS)
      then Err (extension_error extension)
      else match set_insert extension seen with
           | None => Err (extension_error extension)
           | Some seen => check_extensions seen extensions'
           end
  end.

Definition validate_constraints (c : EditIntentConstraints) (expected_limits : EditPlanLimits)
    : intent (list EditIntentOperationKind) :=
  reject_if (bool_decide (k_offset_encoding c <> Utf8Bytes)) "intent.offset_encoding"
    "edit intent v1 requires utf8_bytes offsets" ;?
  reject_if (negb (k_require_clean_worktree c) || negb (k_require_offline_verification c)
             || negb (k_require_native_confirmation c))
    "intent.security_constraints"
    "edit intent v1 requires a clean worktree, offline verification, and native confirmation" ;?
  reject_if (negb (bounded_by_hard_maxima (k_limits c)) || limits_exceed (k_limits c) expected_limits)
    "intent.limit_escalation" "edit intent attempted to raise or invalidate trusted runtime limits" ;?
  let operations := btree_set (k_allowed_operations c) in
  reject_if (bool_decide (operations = []) || negb (list_len operations =? list_len (k_allowed_operations c)))
    "intent.operation_contract" "allowed_operations must be non-empty and contain no duplicates" ;?
  (if decide (CreateTextFile ∈ operations) then
     reject_if (max_created_files (k_limits c) =? 0) "intent.creation_contract"
       "create_text_file is enabled while max_created_files is zero"
   else
     reject_if (negb (max_created_files (k_limits c) =? 0)) "intent.creation_contract"
       "max_created_files must be zero when create_text_file is disabled") ;?
  reject_if (bool_decide (k_allowed_extensions c = [])
             || (list_len ALLOWED_EDIT_EXTENSIONS <? list_len (k_allowed_extensions c)))
    "intent.extension_contract" "allowed_extensions is empty or exceeds the runtime extension inventory" ;?
  check_extensions [] (k_allowed_extensions c) ;?
  Ok operations.

(** ** The trusted targets *)

Record TrustedExistingTarget := { te_content_hash : string; te_reference_ids : list string }.
Record TrustedTargets := {
  tr_existing : list (string * TrustedExistingTarget);
  tr_prospective : list (string * list string);
}.

Definition trusted_error (message : string) : EditIntentError := IntentError "intent.trusted_state_invalid" message.

Definition quoted (path : string) : string := backtick ++ path ++ backtick.

Fixpoint trusted_existing (targets : list EditIntentAllowedExistingTarget)
    (existing : list (string * TrustedExistingTarget)) : intent (list (string * TrustedExistingTarget)) :=
  match targets with
  | [] => Ok existing
  | t :: targets' =>
      path <- map_err (fun e => trusted_error ("trusted existing target is invalid: " ++ edit_intent_error_display e))
                (validate_relative_path (ae_path t)) ;?
      (if is_hash (ae_content_hash t) then Ok tt
       else Err (trusted_error ("trusted existing target " ++ quoted path ++ " has an invalid content hash"))) ;?
      ids <- map_err (fun e => trusted_error ("trusted existing target " ++ quoted path ++ " is invalid: "
                                              ++ edit_intent_error_display e))
               (validate_reference_inventory (ae_reference_ids t)) ;?
      let '(existing, replaced) :=
        map_insert path {| te_content_hash := ae_content_hash t; te_reference_ids := ids |} existing in
      if is_some replaced
      then Err (trusted_error ("trusted existing target " ++ quoted path ++ " is duplicated"))
      else trusted_existing targets' existing
  end.

Fixpoint trusted_prospective (targets : list EditIntentAllowedCreateTarget) (prospective : list (string * list string))
    : intent (list (string * list string)) :=
  match targets with
  | [] => Ok prospective
  | t :: targets' =>
      path <- map_err (fun e => trusted_error ("trusted create target is invalid: " ++ edit_intent_error_display e))
                (validate_relative_path (ac_path t)) ;?
      ids <- map_err (fun e => trusted_error ("trusted create target " ++ quoted path ++ " is invalid: "
                                              ++ edit_intent_error_display e))
               (validate_reference_inventory (ac_reference_ids t)) ;?
      let '(prospective, replaced) := map_insert path ids prospective in
      if is_some replaced
      then Err (trusted_error ("trusted create target " ++ quoted path ++ " is duplicated"))
      else trusted_prospective targets' prospective
  end.

Definition validate_trusted_targets (x : EditIntentExpectations) : intent TrustedTargets :=
  existing <- trusted_existing (ix_allowed_existing_targets x) [] ;?
  prospective <- trusted_prospective (ix_allowed_create_targets x) [] ;?
  Ok {| tr_existing := existing; tr_prospective := prospective |}.

(** ** The targets of an intent *)

(** What the loop over the targets has seen. *)
Record seen_targets := {
  se_paths : list string;
  se_existing : bool;
  se_prospective : bool;
  se_explicit : bool;
}.
Definition nothing_seen : seen_targets :=
  {| se_paths := []; se_existing := false; se_prospective := false; se_explicit := false |}.
Definition saw (paths references : list string) (t : EditIntentTarget) (s : seen_targets) : seen_targets := {|
  se_paths := paths;
  se_existing := se_existing s || bool_decide (operation_kind t = ModifyExisting);
  se_prospective := se_prospective s || bool_decide (operation_kind t = CreateTextFile);
  se_explicit := se_explicit s || negb (bool_decide (references = [])) |}.

Definition check_existing_target (trusted : TrustedTargets) (path hash : string) (references : list string)
    (provenance : EditIntentTargetProvenance) : intent unit :=
  reject_if (bool_decide (provenance = UserRequestedCreation)) "intent.target_provenance"
    ("existing target " ++ quoted path ++ " has creation-only provenance") ;?
  reject_if (bool_decide (provenance = UserReference) && bool_decide (references = [])) "intent.target_provenance"
    ("user-reference target " ++ quoted path ++ " has no reference IDs") ;?
  reject_if (negb (is_hash hash)) "intent.target_hash" ("existing target " ++ quoted path ++ " has an invalid content hash") ;?
  allowed <- ok_or (IntentError "intent.target_not_trusted"
                      ("existing target " ++ quoted path ++ " was not resolved by the trusted runtime"))
               (map_get path (tr_existing trusted)) ;?
  reject_if (negb (hash =? te_content_hash allowed)%string) "intent.target_hash_mismatch"
    ("existing target " ++ quoted path ++ " no longer matches trusted content") ;?
  ensure_reference_subset path references (te_reference_ids allowed).

Definition check_prospective_target (allowed_extensions : list string) (trusted : TrustedTargets)
    (path extension : string) (references : list string) (provenance : EditIntentTargetProvenance) : intent unit :=
  reject_if (bool_decide (provenance <> UserRequestedCreation)) "intent.target_provenance"
    ("prospective target " ++ quoted path ++ " requires user_requested_creation") ;?
  actual_extension <- extension_for_path path ;?
  reject_if (negb (extension =? actual_extension)%string || negb (set_contains allowed_extensions extension))
    "intent.target_extension" ("prospective target " ++ quoted path ++ " has an invalid or disallowed extension") ;?
  allowed <- ok_or (IntentError "intent.target_not_trusted"
                      ("prospective target " ++ quoted path ++ " was not explicitly allowed by the trusted runtime"))
               (map_get path (tr_prospective trusted)) ;?
  ensure_reference_subset path references allowed.

Definition check_target (operations : list EditIntentOperationKind) (allowed_extensions : list string)
    (trusted : TrustedTargets) (t : EditIntentTarget) (s : seen_targets) : intent seen_targets :=
  path <- validate_relative_path (target_path t) ;?
  paths <- ok_or (IntentError "intent.target_duplicate" ("target " ++ quoted path ++ " appears more than once"))
             (set_insert path (se_paths s)) ;?
  reject_if (bool_decide (operation_kind t ∉ operations)) "intent.target_operation"
    ("target " ++ quoted path ++ " requires operation " ++ quoted (operation_name (operation_kind t))
     ++ " which is not allowed") ;?
  references <- validate_reference_inventory (reference_ids t) ;?
  match t with
  | ExistingFile _ hash _ provenance => check_existing_target trusted path hash references provenance
  | ProspectiveFile _ extension _ provenance =>
      check_prospective_target allowed_extensions trusted path extension references provenance
  end ;?
  target_extension <- extension_for_path path ;?
  reject_if (negb (set_contains allowed_extensions target_extension)) "intent.target_extension"
    ("target " ++ quoted path ++ " uses a disallowed extension") ;?
  Ok (saw paths references t s).

Fixpoint fold_targets (check : EditIntentTarget -> seen_targets -> intent seen_targets)
    (targets : list EditIntentTarget) (s : seen_targets) : intent seen_targets :=
  match targets with
  | [] => Ok s
  | t :: targets' => s <- check t s ;? fold_targets check targets' s
  end.

Definition all_referenced (targets : list EditIntentTarget) : bool :=
  forallb (fun t => negb (bool_decide (reference_ids t = []))) targets.

(** The code and the messages differ between an intent and a stored binding. *)
Definition check_selection_mode (code explicit_message hybrid_message : string) (mode : EditIntentSelectionMode)
    (targets : list EditIntentTarget) (has_explicit_reference : bool) : intent unit :=
  match mode with
  | ExplicitReferences => reject_if (negb (all_referenced targets)) code explicit_message
  | Hybrid => reject_if (negb has_explicit_reference) code hybrid_message
  | ResolvedContext => Ok tt
  end.

Definition validate_targets (i : EditIntent) (operations : list EditIntentOperationKind) (trusted : TrustedTargets)
    : intent unit :=
  reject_if (bool_decide (i_targets i = []) || (MAX_EDIT_INTENT_TARGETS <? list_len (i_targets i)))
    "intent.target_limit"
    ("edit intent must contain between 1 and " ++ dec MAX_EDIT_INTENT_TARGETS ++ " targets") ;?
  s <- fold_targets (check_target operations (k_allowed_extensions (i_constraints i)) trusted)
         (i_targets i) nothing_seen ;?
  reject_if (negb (Bool.eqb (bool_decide (ModifyExisting ∈ operations)) (se_existing s))) "intent.operation_targets"
    "modify_existing must correspond to at least one existing_file target" ;?
  reject_if (negb (Bool.eqb (bool_decide (CreateTextFile ∈ operations)) (se_prospective s))) "intent.operation_targets"
    "create_text_file must correspond to at least one prospective_file target" ;?
  check_selection_mode "intent.selection_mode"
    "explicit_references mode requires reference IDs on every target"
    "hybrid mode requires at least one explicit reference"
    (i_selection_mode i) (i_targets i) (se_explicit s).

(** ** Canonical form *)

Definition operation_kind_cmp (a b : EditIntentOperationKind) : comparison :=
  match a, b with
  | ModifyExisting, CreateTextFile => Lt
  | CreateTextFile, ModifyExisting => Gt
  | _, _ => Eq
  end.

Definition target_cmp (l r : EditIntentTarget) : comparison :=
  then_with (str_cmp (target_path l) (target_path r)) (N.compare (sort_rank l) (sort_rank r)).

Definition canonicalize_targets (targets : list EditIntentTarget) : list EditIntentTarget :=
  sort_by target_cmp (map (map_reference_ids (sort_by str_cmp)) targets).

Definition canonicalize_constraints (c : EditIntentConstraints) : EditIntentConstraints := {|
  k_allowed_operations := sort_by operation_kind_cmp (k_allowed_operations c);
  k_allowed_extensions := sort_by str_cmp (k_allowed_extensions c);
  k_limits := k_limits c;
  k_offset_encoding := k_offset_encoding c;
  k_require_clean_worktree := k_require_clean_worktree c;
  k_require_offline_verification := k_require_offline_verification c;
  k_require_native_confirmation := k_require_native_confirmation c |}.

Definition canonicalize_intent (i : EditIntent) : EditIntent := {|
  i_schema_version := i_schema_version i;
  i_intent_id := i_intent_id i;
  i_request_id := i_request_id i;
  i_workspace_id := i_workspace_id i;
  i_workspace_root_hash := i_workspace_root_hash i;
  i_base_head := i_base_head i;
  i_working_tree_digest := i_working_tree_digest i;
  i_task := i_task i;
  i_selection_mode := i_selection_mode i;
  i_targets := canonicalize_targets (i_targets i);
  i_constraints := canonicalize_constraints (i_constraints i);
  i_created_at_unix_ms := i_created_at_unix_ms i;
  i_expires_at_unix_ms := i_expires_at_unix_ms i |}.

Section Hashing.
Context `{Blake3, IntentSerde}.

Definition validate_edit_intent (i : EditIntent) (x : EditIntentExpectations) : intent ValidatedEditIntent :=
  validate_envelope i x ;?
  validate_task (i_task i) ;?
  validate_timestamps i (ix_now_unix_ms x) ;?
  operations <- validate_constraints (i_constraints i) (ix_limits x) ;?
  trusted <- validate_trusted_targets x ;?
  validate_targets i operations trusted ;?
  let canonical_intent := canonicalize_intent i in
  canonical_json <- map_err (fun e => IntentError "intent.canonicalization"
                               ("edit intent canonical serialization failed: " ++ e))
                      (edit_intent_to_string canonical_intent) ;?
  Ok {| vi_intent := canonical_intent;
        vi_intent_hash := blake3_hex canonical_json;
        vi_canonical_json := canonical_json |}.

(** ** The binding of an intent to a stored proposal *)

Definition payload_of (b : ProposalIntentBinding) : ProposalIntentBindingPayload := {|
  bp_schema_version := b_schema_version b;
  bp_intent_id := b_intent_id b;
  bp_intent_hash := b_intent_hash b;
  bp_request_id := b_request_id b;
  bp_workspace_id := b_workspace_id b;
  bp_workspace_root_hash := b_workspace_root_hash b;
  bp_base_head := b_base_head b;
  bp_working_tree_digest := b_working_tree_digest b;
  bp_task_hash := b_task_hash b;
  bp_selection_mode := b_selection_mode b;
  bp_targets := b_targets b;
  bp_constraints := b_constraints b;
  bp_created_at_unix_ms := b_created_at_unix_ms b;
  bp_expires_at_unix_ms := b_expires_at_unix_ms b |}.

Definition calculate_binding_hash (b : ProposalIntentBinding) : intent string :=
  bytes <- map_err (fun e => IntentError "intent.binding_serialization"
                      ("stored intent binding could not be serialized: " ++ e))
             (binding_payload_to_vec (payload_of b)) ;?
  Ok (blake3_hex bytes).

Definition with_binding_hash (h : string) (b : ProposalIntentBinding) : ProposalIntentBinding := {|
  b_schema_version := b_schema_version b;
  b_intent_id := b_intent_id b;
  b_intent_hash := b_intent_hash b;
  b_binding_hash := h;
  b_request_id := b_request_id b;
  b_workspace_id := b_workspace_id b;
  b_workspace_root_hash := b_workspace_root_hash b;
  b_base_head := b_base_head b;
  b_working_tree_digest := b_working_tree_digest b;
  b_task_hash := b_task_hash b;
  b_selection_mode := b_selection_mode b;
  b_targets := b_targets b;
  b_constraints := b_constraints b;
  b_created_at_unix_ms := b_created_at_unix_ms b;
  b_expires_at_unix_ms := b_expires_at_unix_ms b |}.

Definition from_validated (v : ValidatedEditIntent) : intent ProposalIntentBinding :=
  let i := vi_intent v in
  let b := {|
    b_schema_version := EDIT_INTENT_SCHEMA_VERSION;
    b_intent_id := i_intent_id i;
    b_intent_hash := vi_intent_hash v;
    b_binding_hash := "";
    b_request_id := i_request_id i;
    b_workspace_id := i_workspace_id i;
    b_workspace_root_hash := i_workspace_root_hash i;
    b_base_head := i_base_head i;
    b_working_tree_digest := i_working_tree_digest i;
    b_task_hash := blake3_hex (i_task i);
    b_selection_mode := i_selection_mode i;
    b_targets := i_targets i;
    b_constraints := i_constraints i;
    b_created_at_unix_ms := i_created_at_unix_ms i;
    b_expires_at_unix_ms := i_expires_at_unix_ms i |} in
  h <- calculate_binding_hash b ;?
  Ok (with_binding_hash h b).

Definition check_binding_target (operations : list EditIntentOperationKind) (allowed_extensions : list string)
    (t : EditIntentTarget) (s : seen_targets) : intent seen_targets :=
  path <- validate_relative_path (target_path t) ;?
  paths <- ok_or (IntentError "intent.binding_target_duplicate"
                    ("stored intent binding target " ++ quoted path ++ " is duplicated"))
             (set_insert path (se_paths s)) ;?
  reject_if (bool_decide (operation_kind t ∉ operations)) "intent.binding_target_operation"
    ("stored intent binding target " ++ quoted path ++ " has no operation permission") ;?
  references <- validate_reference_inventory (reference_ids t) ;?
  path_extension <- extension_for_path path ;?
  reject_if (negb (set_contains allowed_extensions path_extension)) "intent.binding_target_extension"
    ("stored intent binding target " ++ quoted path ++ " uses a disallowed extension") ;?
  match t with
  | ExistingFile _ hash _ provenance =>
      reject_if (negb (is_hash hash) || bool_decide (provenance = UserRequestedCreation)
                 || bool_decide (provenance = UserReference) && bool_decide (references = []))
        "intent.binding_existing_target" ("stored existing target " ++ quoted path ++ " is inconsistent")
  | ProspectiveFile _ extension _ provenance =>
      reject_if (negb (extension =? path_extension)%string || bool_decide (provenance <> UserRequestedCreation))
        "intent.binding_prospective_target" ("stored prospective target " ++ quoted path ++ " is inconsistent")
  end ;?
  Ok (saw paths references t s).

Definition validate_binding_targets (targets : list EditIntentTarget) (operations : list EditIntentOperationKind)
    (allowed_extensions : list string) (selection_mode : EditIntentSelectionMode) : intent unit :=
  reject_if (bool_decide (targets = []) || (MAX_EDIT_INTENT_TARGETS <? list_len targets)) "intent.binding_targets"
    "stored intent binding target inventory is empty or oversized" ;?
  s <- fold_targets (check_binding_target operations allowed_extensions) targets nothing_seen ;?
  reject_if (negb (Bool.eqb (bool_decide (ModifyExisting ∈ operations)) (se_existing s))
             || negb (Bool.eqb (bool_decide (CreateTextFile ∈ operations)) (se_prospective s)))
    "intent.binding_operation_targets" "stored intent binding operations do not match their target kinds" ;?
  check_selection_mode "intent.binding_selection_mode"
    "explicit_references binding requires reference IDs on every target"
    "hybrid binding requires at least one explicit reference"
    selection_mode targets (se_explicit s).

Definition binding_identifiers (b : ProposalIntentBinding) : list (string * string) :=
  [("intent_id", b_intent_id b); ("request_id", b_request_id b); ("workspace_id", b_workspace_id b)].
Definition binding_hashes (b : ProposalIntentBinding) : list (string * string) :=
  [("intent_hash", b_intent_hash b); ("binding_hash", b_binding_hash b);
   ("workspace_root_hash", b_workspace_root_hash b); ("working_tree_digest", b_working_tree_digest b);
   ("task_hash", b_task_hash b)].

(** [ProposalIntentBinding::validate] *)
Definition validate_binding (b : ProposalIntentBinding) : intent unit :=
  reject_if (negb (b_schema_version b =? EDIT_INTENT_SCHEMA_VERSION)) "intent.binding_schema"
    "stored intent binding uses an unsupported schema version" ;?
  check_each (fun '(name, value) => validate_identifier name value) (binding_identifiers b) ;?
  check_each (fun '(name, value) => reject_if (negb (is_hash value)) ("intent.binding_" ++ name)
                ("stored intent binding " ++ name ++ " is not a BLAKE3 hash")) (binding_hashes b) ;?
  reject_if (negb (is_git_oid (b_base_head b))) "intent.binding_head"
    "stored intent binding base_head is not a Git object ID" ;?
  reject_if (bool_decide (b_targets b = []) || (MAX_EDIT_INTENT_TARGETS <? list_len (b_targets b)))
    "intent.binding_targets" "stored intent binding target inventory is empty or oversized" ;?
  reject_if ((b_expires_at_unix_ms b <=? b_created_at_unix_ms b)
             || (saturating_add64 (b_created_at_unix_ms b) (saturating_mul64 DEFAULT_EDIT_INTENT_TTL_SECONDS 1000)
                 <? b_expires_at_unix_ms b))
    "intent.binding_expiry" "stored intent binding timestamps are inconsistent" ;?
  operations <- validate_constraints (b_constraints b) hard_maxima ;?
  validate_binding_targets (b_targets b) operations (k_allowed_extensions (b_constraints b)) (b_selection_mode b) ;?
  reject_if (bool_decide (canonicalize_targets (b_targets b) <> b_targets b)
             || bool_decide (canonicalize_constraints (b_constraints b) <> b_constraints b))
    "intent.binding_canonical" "stored intent binding is not in canonical form" ;?
  calculated_hash <- calculate_binding_hash b ;?
  reject_if (negb (calculated_hash =? b_binding_hash b)%string) "intent.binding_hash"
    "stored intent binding hash does not match its canonical payload".

(** ** A plan against its authority *)

(** [collect::<BTreeMap<_, _>>()]: the last target of a path. *)
Definition targets_by_path (targets : list EditIntentTarget) : list (string * EditIntentTarget) :=
  foldl (fun m t => fst (map_insert (target_path t) t m)) [] targets.

Definition check_plan_operation (targets : list (string * EditIntentTarget))
    (allowed_operations : list EditIntentOperationKind) (o : EditOperation) : intent unit :=
  path <- validate_relative_path (operation_path o) ;?
  target <- ok_or (IntentError "intent.plan_target_not_allowed"
                     ("edit plan targets " ++ quoted path ++ " outside the trusted intent"))
              (map_get path targets) ;?
  match o, target with
  | Modify m, ExistingFile _ hash _ _ =>
      reject_if (bool_decide (ModifyExisting ∉ allowed_operations)) "intent.plan_operation_not_allowed"
        ("edit plan modifies " ++ quoted path ++ " without modify_existing permission") ;?
      reject_if (negb (m_expected_file_hash m =? hash)%string) "intent.plan_hash_mismatch"
        ("edit plan hash for " ++ quoted path ++ " differs from the trusted intent")
  | Create n, ProspectiveFile _ trusted_extension _ _ =>
      reject_if (bool_decide (CreateTextFile ∉ allowed_operations)) "intent.plan_operation_not_allowed"
        ("edit plan creates " ++ quoted path ++ " without create_text_file permission") ;?
      reject_if (negb (n_extension n =? trusted_extension)%string || negb (n_expected_absent n))
        "intent.plan_creation_mismatch"
        ("edit plan creation for " ++ quoted path ++ " differs from the trusted intent")
  | _, _ => reject "intent.plan_target_kind"
              ("edit plan operation kind does not match target " ++ quoted path)
  end.

Definition check_plan_snapshot (targets : list (string * EditIntentTarget)) (f : ProposalFileSnapshot) : intent unit :=
  path <- validate_relative_path (f_path f) ;?
  target <- ok_or (IntentError "intent.plan_snapshot_not_allowed"
                     ("materialized snapshot " ++ quoted path ++ " is outside the trusted intent"))
              (map_get path targets) ;?
  let matches :=
    match f_status f, target with
    | Modified, ExistingFile _ hash _ _ => bool_decide (f_base_hash f = Some hash)
    | Created, ProspectiveFile _ _ _ _ => negb (is_some (f_base_hash f)) && negb (is_some (f_base_content f))
    | _, _ => false
    end in
  reject_if (negb matches) "intent.plan_snapshot_mismatch"
    ("materialized snapshot for " ++ quoted path ++ " differs from the trusted intent").

Definition authority_identities (plan : EditPlan)
    (request_id workspace_id workspace_root_hash base_head working_tree_digest : string)
    : list (string * string * string) := [
  ("request_id", p_request_id plan, request_id);
  ("workspace_id", p_workspace_id plan, workspace_id);
  ("workspace_root_hash", p_workspace_root_hash plan, workspace_root_hash);
  ("base_head", p_base_head plan, base_head);
  ("working_tree_digest", p_working_tree_digest plan, working_tree_digest)].

Definition validate_edit_plan_against_authority (v : ValidatedEditPlan)
    (request_id workspace_id workspace_root_hash base_head working_tree_digest : string)
    (trusted_targets : list EditIntentTarget) (trusted_constraints : EditIntentConstraints) : intent unit :=
  check_each (fun '(name, actual, expected) =>
      reject_if (negb (actual =? expected)%string) ("intent.plan_" ++ name ++ "_mismatch")
        ("validated edit plan " ++ name ++ " is not bound to the trusted intent"))
    (authority_identities (v_plan v) request_id workspace_id workspace_root_hash base_head working_tree_digest) ;?
  reject_if (limits_exceed (p_limits (v_plan v)) (k_limits trusted_constraints)) "intent.plan_limit_escalation"
    "validated edit plan raises limits above the trusted intent" ;?
  let allowed_operations := btree_set (k_allowed_operations trusted_constraints) in
  let targets := targets_by_path trusted_targets in
  check_each (check_plan_operation targets allowed_operations) (p_operations (v_plan v)) ;?
  check_each (check_plan_snapshot targets) (v_files v).

Definition validate_edit_plan_against_intent (v : ValidatedEditPlan) (i : ValidatedEditIntent) : intent unit :=
  binding <- from_validated i ;?
  validate_binding binding ;?
  validate_edit_plan_against_authority v (i_request_id (vi_intent i)) (i_workspace_id (vi_intent i))
    (i_workspace_root_hash (vi_intent i)) (i_base_head (vi_intent i)) (i_working_tree_digest (vi_intent i))
    (i_targets (vi_intent i)) (i_constraints (vi_intent i)).

Definition validate_edit_plan_against_binding (v : ValidatedEditPlan) (b : ProposalIntentBinding) : intent unit :=
  validate_binding b ;?
  validate_edit_plan_against_authority v (b_request_id b) (b_workspace_id b) (b_workspace_root_hash b)
    (b_base_head b) (b_working_tree_digest b) (b_targets b) (b_constraints b).
End Hashing.
