(* ===== verification/ChatProtocol.v ===== *)
(** * The chat protocol (opticcode-core: chat_protocol.rs)

    What an editor sends and receives: requests with their references,
    history and budgets, and the events of an answer, numbered, bounded, and
    ended by one terminal event.  The emitter is used from one task at a
    time; the delivery of an event into the channel is the channel's affair
    ([Delivery]). *)

From stdpp Require Import base list strings.
From Stdlib Require Import NArith ZArith Ascii String Lia.
From S2P Require Import Prelude Bytes EditPlan EditIntent Text IO Anyhow Paths Grounding DocumentFacts Compliance.

Local Open Scope string_scope.
Local Open Scope N_scope.

Definition CHAT_PROTOCOL_ID : string := "opticcode.chat".
Definition CHAT_PROTOCOL_SCHEMA_VERSION : N := 1.
Definition MAX_CHAT_REQUEST_ID_BYTES : N := 128.
Definition MAX_CHAT_PROMPT_CHARS : N := 64 * 1024.
Definition MAX_CHAT_HISTORY_TURNS : N := 32.
Definition MAX_CHAT_HISTORY_CHARS : N := 128 * 1024.
Definition MAX_CHAT_HISTORY_TOKENS : N := 32 * 1024.
Definition MAX_CHAT_REFERENCES : N := 64.
Definition MAX_CHAT_REFERENCE_BYTES : N := 2 * 1024 * 1024.
Definition MAX_CHAT_OUTPUT_TOKENS : N := 4096.
Definition MAX_CHAT_EVENT_TEXT_BYTES : N := 256 * 1024.
Definition MAX_CHAT_EVENT_CAPACITY : N := 4096.

(** ** Requests *)

Inductive ContextMode := LegacyMode | SymbolMode | CompareMode.
#[export] Instance ContextMode_eq_dec : EqDecision ContextMode.
Proof. solve_decision. Defined.
Definition ContextMode_as_str (m : ContextMode) : string :=
  match m with LegacyMode => "legacy" | SymbolMode => "symbol" | CompareMode => "compare" end.

Inductive ChatCommand :=
| Ask | Plan | Context | Analyze | Index | Legacy | Inspect | Fix | Verify | Diff | Apply | Rollback | Status | Runs | Help | Unknown.
#[export] Instance ChatCommand_eq_dec : EqDecision ChatCommand.
Proof. solve_decision. Defined.

Definition ChatCommand_as_str (c : ChatCommand) : string :=
  match c with
  | Ask => "ask" | Plan => "plan" | Context => "context" | Analyze => "analyze" | Index => "index" | Legacy => "legacy"
  | Inspect => "inspect" | Fix => "fix" | Verify => "verify" | Diff => "diff" | Apply => "apply" | Rollback => "rollback"
  | Status => "status" | Runs => "runs" | Help => "help" | Unknown => "unknown"
  end.
Definition requires_prompt (c : ChatCommand) : bool :=
  match c with Ask | Plan | Context | Inspect | Fix => true | _ => false end.

Inductive ChatSecurityMode := ReadOnlyMode | WorktreeEditMode | ApprovedApplyMode.
#[export] Instance ChatSecurityMode_eq_dec : EqDecision ChatSecurityMode.
Proof. solve_decision. Defined.

Record ChatNativeConfirmation := {
  nc_client : string;
  nc_confirmation_id : string;
  nc_approval_request_id : string;
}.
Record ChatEditControl := {
  ec_proposal_id : option string;
  ec_transaction_id : option string;
  ec_native_confirmation : option ChatNativeConfirmation;
  ec_discard : bool;
}.
Record ChatBudgets := {
  bg_max_history_turns : N;
  bg_max_history_chars : N;
  bg_max_history_tokens : N;
  bg_max_references : N;
  bg_max_reference_bytes : N;
  bg_max_prompt_tokens : N;
  bg_rag_hits : N;
}.
Record ChatGenerationOptions `{Floats} := {
  gn_max_output_tokens : N;
  gn_temperature : option f32;
  gn_seed : option Z;
  gn_brief : bool;
  gn_compare_generate : bool;
}.
Record ChatClientMetadata := {
  cm_name : string;
  cm_version : string;
  cm_vscode_version : string;
  cm_session_id : string;
  cm_locale : string;
  cm_recent_run_ids : list string;
  cm_previous_repository_state : option string;
}.
Record ChatExpectedProtocols := {
  xp_chat : N;
  xp_assistant : N;
  xp_discovery : N;
  xp_llm : N;
}.

Inductive ChatHistoryRole := User | Assistant.
Definition ChatHistoryRole_debug (r : ChatHistoryRole) : string := match r with User => "User" | Assistant => "Assistant" end.
Record ChatHistoryTurn := {
  ht_role : ChatHistoryRole;
  ht_content : string;
  ht_command : option ChatCommand;
  ht_result_id : option string;
  ht_source_scope : option ChatContextScope;
  ht_workspace_id : option string;
  ht_context_fingerprint : option string;
  ht_grounding_status : option string;
}.

Record ChatTextPosition := { ps_line : N; ps_character : N }.
Record ChatTextRange := { tr_start : ChatTextPosition; tr_end : ChatTextPosition }.

Inductive ChatReferenceTarget :=
| FileTarget (path : string)
| RangeTarget (path : string) (range : ChatTextRange)
| SelectionTarget (path : string) (range : ChatTextRange)
| SymbolTarget (path symbol : string) (range : option ChatTextRange)
| ActiveFileTarget (path : string)
| FindingTarget (finding_id : string) (path : option string) (range : option ChatTextRange)
| RunTarget (run_id : string)
| DiffTarget (proposal_id : string).

Definition target_kind (t : ChatReferenceTarget) : string :=
  match t with
  | FileTarget _ => "file"
  | RangeTarget _ _ => "range"
  | SelectionTarget _ _ => "selection"
  | SymbolTarget _ _ _ => "symbol"
  | ActiveFileTarget _ => "active_file"
  | FindingTarget _ _ _ => "finding"
  | RunTarget _ => "run"
  | DiffTarget _ => "diff"
  end.
Definition target_path (t : ChatReferenceTarget) : option string :=
  match t with
  | FileTarget path | RangeTarget path _ | SelectionTarget path _ | SymbolTarget path _ _ | ActiveFileTarget path => Some path
  | FindingTarget _ path _ => path
  | RunTarget _ | DiffTarget _ => None
  end.
Definition target_range (t : ChatReferenceTarget) : option ChatTextRange :=
  match t with
  | RangeTarget _ range | SelectionTarget _ range => Some range
  | SymbolTarget _ _ range | FindingTarget _ _ range => range
  | _ => None
  end.

Record ChatReference := {
  rf_reference_id : string;
  rf_inclusion_reason : string;
  rf_target : ChatReferenceTarget;
}.

Record ChatRequest `{Floats} := {
  cq_schema_version : N;
  cq_protocol : string;
  cq_request_id : string;
  cq_workspace_id : string;
  cq_workspace_root : string;
  cq_command : ChatCommand;
  cq_prompt : string;
  cq_profile : string;
  cq_provider : ProviderId;
  cq_model : string;
  cq_context_mode : ContextMode;
  cq_context_scope : ChatContextScope;
  cq_scope_reason : ChatScopeReason;
  cq_evidence_mode : ChatEvidenceMode;
  cq_references : list ChatReference;
  cq_history : list ChatHistoryTurn;
  cq_budgets : ChatBudgets;
  cq_generation : ChatGenerationOptions;
  cq_security_mode : ChatSecurityMode;
  cq_client : ChatClientMetadata;
  cq_expected_protocols : ChatExpectedProtocols;
  cq_edit : option ChatEditControl;
}.

(** ** Events *)

Record ChatResolvedReference := {
  rr_reference_id : string;
  rr_kind : string;
  rr_path : option string;
  rr_range : option ChatTextRange;
  rr_inclusion_reason : string;
  rr_provenance : string;
  rr_bytes : N;
  rr_content_hash : option string;
  rr_origin : string;
  rr_resolution : string;
  rr_security_decision : string;
  rr_injection : string;
  rr_bytes_injected : N;
  rr_reason : string;
  rr_full_content_hash : option string;
}.
Record ChatRejectedReference := {
  rj_reference_id : string;
  rj_kind : string;
  rj_rule_id : string;
  rj_reason : string;
  rj_path : option string;
  rj_origin : string;
  rj_injection : string;
  rj_reason_code : string;
}.
Record ChatContextFile := { cf_path : string; cf_snippets : N; cf_provenance : string }.
Record ChatTimingPhase := { tp_name : string; tp_duration_ms : N; tp_measured_by : string; tp_includes : list string }.
Record ChatTimingReport := {
  tg_schema_version : N;
  tg_request_id : string;
  tg_run_id : string;
  tg_workspace_id : string;
  tg_command : string;
  tg_unit : string;
  tg_clock : string;
  tg_phases : list ChatTimingPhase;
}.
Record ChatMetrics `{Floats} := {
  me_preparation_ms : N;
  me_total_ms : N;
  me_estimated_prompt_tokens : N;
  me_prompt_tokens : option N;
  me_generated_tokens : option N;
  me_generated_tokens_per_second : option f64;
  me_timing : option ChatTimingReport;
  me_route : string;
}.
Record ChatGroundingSummary := {
  gs_schema_version : N;
  gs_route : GroundingRoute;
  gs_requested_scope : ChatContextScope;
  gs_effective_scope : ChatContextScope;
  gs_scope_reason : ChatScopeReason;
  gs_evidence_mode : ChatEvidenceMode;
  gs_selected_references : N;
  gs_resolved_references : N;
  gs_injected_references : N;
  gs_refused_references : N;
  gs_discovered_files : N;
  gs_rag_hits : N;
  gs_historical_turns : N;
  gs_prompt_fingerprint : string;
  gs_manifest : ContextManifest;
  gs_response : option GroundedResponse;
  gs_evidence : option EvidenceValidationReport;
  gs_compliance : option ComplianceReport;
}.
Record ChatCompletionSummary `{Floats} := {
  su_command : ChatCommand;
  su_success : bool;
  su_model : string;
  su_requested_context_mode : ContextMode;
  su_used_context_mode : option ContextMode;
  su_references : list ChatResolvedReference;
  su_rejected_references : N;
  su_context_files : list ChatContextFile;
  su_warnings : list string;
  su_metrics : ChatMetrics;
  su_repository_state : string;
  su_run_id : string;
  su_grounding : option ChatGroundingSummary;
}.
Record ChatProtocolError := { er_code : string; er_stage : string; er_message : string; er_retriable : bool }.
Record ChatEditReviewFile := {
  rv_path : string;
  rv_status : string;
  rv_line_ending : string;
  rv_base_content : option string;
  rv_base_hash : option string;
  rv_proposed_content : string;
  rv_proposed_hash : string;
  rv_proposed_bytes : N;
  rv_additions : N;
  rv_deletions : N;
  rv_hunks : N;
}.

Inductive ChatProtocolEventPayload `{Floats} :=
| RequestAccepted (command : ChatCommand) (requested_security_mode security_mode effective_security_mode : ChatSecurityMode)
    (policy_version policy_decision policy_rule_id : string)
| ReferencesResolving (count : N)
| ReferencesResolved (accepted : list ChatResolvedReference) (rejected : list ChatRejectedReference)
| ReferenceSelected (reference_id kind : string) (path : option string) (origin : string)
| ReferenceResolved (reference : ChatResolvedReference)
| ReferenceInjected (reference : ChatResolvedReference)
| ReferenceRefused (reference : ChatRejectedReference)
| ContextManifestReady (manifest : ContextManifest) (prompt_fingerprint : string)
| ContextStarted (requested_mode : ContextMode)
| ContextReady (requested_mode : ContextMode) (used_mode : option ContextMode) (analysis_complete : bool) (estimated_tokens : N)
    (files : list ChatContextFile)
| RetrievalProgress (query_count hit_count : N)
| ProviderStarted (provider : ProviderId) (model : string) (context_mode : ContextMode)
| TokenDelta (text : string)
| Finding (finding_id severity message path : string) (range : option ChatTextRange)
| Warning (code message : string)
| Metrics (metrics : ChatMetrics)
| GroundingValidationStarted (route : GroundingRoute) (evidence_mode : ChatEvidenceMode)
| GroundingValidationCompleted (evidence : EvidenceValidationReport) (compliance : ComplianceReport)
| TaskComplianceFailed (errors : list string)
| InternalContextLeakDetected (markers : list string)
| DocumentInspectionCompleted (format : string) (facts model_calls : N)
| TimingMetrics (metrics : ChatMetrics)
| EditIntentStarted (intent_id : string) (intent_schema_version : N)
| EditIntentReady (intent_id : string) (intent_schema_version : N) (intent_hash selection_mode : string)
    (target_count expires_at_unix_ms : N)
| EditPlanStarted (plan_id : string)
| EditPlanReady (plan_id summary : string) (file_count : N)
| PolicyDecisionMade (proposal_id : option string) (stage action_kind decision rule_id : string) (audit_event_id : option string)
| ProposalStored (proposal_id state : string) (expires_at_unix_ms : N) (intent_id : string) (intent_schema_version : N)
    (intent_hash : string)
| VerificationStarted (proposal_id : string)
| WorktreeCreated (proposal_id run_id : string)
| EditAppliedInWorktree (proposal_id : string) (success : bool)
| BuildStarted (proposal_id : string) (offline : bool)
| BuildCompleted (proposal_id : string) (success : bool) (build tests : string)
| VerificationCompleted (proposal_id : string) (success : bool) (build tests : string)
| DiffReady (proposal_id : string) (files additions deletions : N) (display_patch : string) (display_truncated : bool)
    (changes : list ChatEditReviewFile)
| ApprovalRequired (proposal_id approval_request_id operation summary : string)
| ApplyStarted (proposal_id transaction_id : string)
| ApplyCompleted (proposal_id transaction_id : string) (success : bool)
| RollbackAvailable (proposal_id transaction_id : string)
| RollbackStarted (proposal_id transaction_id : string)
| RollbackCompleted (proposal_id transaction_id : string) (success already_rolled_back : bool)
| ProposalDiscarded (proposal_id : string)
| Completed (summary : ChatCompletionSummary)
| Cancelled (reason : string)
| Failed (error : ChatProtocolError).

Definition valid_edit_event_identifier (value : string) : bool :=
  negb (is_empty value) && (strlen value <=? 160) && all_bytes (fun c => is_ascii_alphanumeric c || one_of "-_.:" c) value.
Definition valid_blake3_hash (value : string) : bool := (strlen value =? 64) && all_bytes is_ascii_hexdigit value.

Definition bail_if (b : bool) (message : string) : res unit := if b then bail message else Ok tt.

Section Events.
Context `{Floats}.

Definition is_terminal (p : ChatProtocolEventPayload) : bool :=
  match p with Completed _ | Cancelled _ | Failed _ => true | _ => false end.

(** The text an event carries, if it is bounded. *)
Definition event_text (p : ChatProtocolEventPayload) : option string :=
  match p with
  | TokenDelta text => Some text
  | Warning _ message | Finding _ _ message _ _ | EditPlanReady _ message _ | ApprovalRequired _ _ _ message => Some message
  | Cancelled reason => Some reason
  | Failed error => Some (er_message error)
  | _ => None
  end.

(** The identities of the edit events. *)
Definition validate_edit_event (p : ChatProtocolEventPayload) : res unit :=
  match p with
  | EditIntentStarted intent_id version =>
      bail_if (negb (version =? EDIT_INTENT_SCHEMA_VERSION) || negb (valid_edit_event_identifier intent_id))
        "chat edit intent started event has an invalid identity or schema"
  | EditIntentReady intent_id version intent_hash selection_mode target_count expires_at =>
      bail_if (negb (version =? EDIT_INTENT_SCHEMA_VERSION) || negb (valid_edit_event_identifier intent_id)
               || negb (valid_blake3_hash intent_hash)
               || negb (existsb (String.eqb selection_mode) ["explicit_references"; "resolved_context"; "hybrid"])
               || (target_count =? 0) || (MAX_EDIT_INTENT_TARGETS <? target_count) || (expires_at =? 0))
        "chat edit intent ready event exceeds its trusted protocol contract"
  | ProposalStored _ _ _ intent_id version intent_hash =>
      bail_if (negb (version =? EDIT_INTENT_SCHEMA_VERSION) || negb (valid_edit_event_identifier intent_id)
               || negb (valid_blake3_hash intent_hash))
        "stored proposal event has an invalid edit intent binding"
  | _ => Ok tt
  end.

Definition validate_diagnostics (p : ChatProtocolEventPayload) : res unit :=
  match p with
  | TaskComplianceFailed errors | InternalContextLeakDetected errors =>
      bail_if ((128 <? list_len errors) || (MAX_CHAT_EVENT_TEXT_BYTES <? sum_of strlen errors))
        "chat grounding diagnostics exceed their bounded payload limit"
  | _ => Ok tt
  end.

Definition review_file_too_large (file : ChatEditReviewFile) : bool :=
  (4 * 1024 <? strlen (rv_path file)) || (512 * 1024 <? strlen (rv_proposed_content file))
  || is_some_and (fun content => 512 * 1024 <? strlen content) (rv_base_content file).

(** [changes.iter().try_fold(0, ..)] *)
Fixpoint review_bytes (total : N) (changes : list ChatEditReviewFile) : res N :=
  match changes with
  | [] => Ok total
  | file :: changes' =>
      if review_file_too_large file then bail "chat diff review file exceeds its bounded payload limit" else
      review_bytes (saturating_add64 (saturating_add64 total (strlen (rv_proposed_content file)))
                      (match rv_base_content file with Some content => strlen content | None => 0 end)) changes'
  end.

Definition validate_diff_event (p : ChatProtocolEventPayload) : res unit :=
  match p with
  | DiffReady _ _ _ _ display_patch _ changes =>
      bail_if ((1024 * 1024 <? strlen display_patch) || (5 <? list_len changes))
        "chat diff review event exceeds its bounded collection or patch limit" ;?
      snapshot_bytes <- review_bytes 0 changes ;?
      bail_if (4 * 1024 * 1024 <? snapshot_bytes) "chat diff review snapshots exceed their aggregate payload limit"
  | _ => Ok tt
  end.

Definition validate_bounds (p : ChatProtocolEventPayload) : res unit :=
  bail_if (is_some_and (fun value => MAX_CHAT_EVENT_TEXT_BYTES <? strlen value) (event_text p))
    "chat event text exceeds its bounded payload limit" ;?
  validate_edit_event p ;?
  validate_diagnostics p ;?
  validate_diff_event p.

Record ChatProtocolEvent := {
  ev_schema_version : N;
  ev_protocol : string;
  ev_request_id : string;
  ev_sequence : N;
  ev_elapsed_ms : N;
  ev_payload : ChatProtocolEventPayload;
}.

Definition output_delta (e : ChatProtocolEvent) : option string :=
  match ev_payload e with TokenDelta text => Some text | _ => None end.
End Events.

(** ** Identifiers and channels *)

Definition validate_chat_request_id (value : string) : res unit :=
  bail_if (is_empty value || (MAX_CHAT_REQUEST_ID_BYTES <? strlen value)
           || any_byte (fun c => negb (is_ascii_alphanumeric c || one_of "-_.:" c)) value)
    ("chat request id must contain 1-" ++ dec MAX_CHAT_REQUEST_ID_BYTES ++ " ASCII letters, digits, '-', '_', '.' or ':'").

Definition chat_event_channel (capacity : N) : res N :=
  if (capacity =? 0) || (MAX_CHAT_EVENT_CAPACITY <? capacity)
  then bail ("chat event channel capacity must be between 1 and " ++ dec MAX_CHAT_EVENT_CAPACITY)
  else Ok capacity.

Definition chat_setup_failure_event `{Floats} (request_id code message : string) : ChatProtocolEvent := {|
  ev_schema_version := CHAT_PROTOCOL_SCHEMA_VERSION;
  ev_protocol := CHAT_PROTOCOL_ID;
  ev_request_id := request_id;
  ev_sequence := 0;
  ev_elapsed_ms := 0;
  ev_payload := Failed {| er_code := code; er_stage := "request_decode"; er_message := message; er_retriable := false |} |}.

(** ** The emitter *)

(** What becomes of the event with a sequence number: delivered, or the text
    of the error (the receiver is gone, or took too long). *)
Class Delivery := deliver : N -> result unit string.

(** The emitter's atomics, and what the receiver got so far. *)
Record ChatEventEmitter `{Floats} := {
  em_request_id : string;
  em_sequence : N;
  em_terminal : bool;
  em_started : N;
  em_delivered : list ChatProtocolEvent;
}.

(** [instant.elapsed().as_millis().min(u64::MAX) as u64] *)
Definition elapsed_ms (started : N) : IO N := now <- sys InstantNow ;; Ret (N.min u64_max ((now - started) / 1000000)).

Section Emitter.
Context `{Floats, Delivery}.

Definition new_emitter (request_id : string) : IO (res ChatEventEmitter) :=
  lift (validate_chat_request_id request_id) ;;?
  started <- sys InstantNow ;;
  Ret (Ok {| em_request_id := request_id; em_sequence := 0; em_terminal := false; em_started := started; em_delivered := [] |}).

(** [ChatEventEmitter::send] *)
Definition emit (payload : ChatProtocolEventPayload) (em : ChatEventEmitter) : IO (ChatEventEmitter * res unit) :=
  match validate_bounds payload with
  | Err e => Ret (em, Err e)
  | Ok _ =>
      if em_terminal em then Ret (em, bail "chat protocol cannot emit an event after its terminal event") else
      let sequence := em_sequence em in
      elapsed <- elapsed_ms (em_started em) ;;
      let event := {|
        ev_schema_version := CHAT_PROTOCOL_SCHEMA_VERSION;
        ev_protocol := CHAT_PROTOCOL_ID;
        ev_request_id := em_request_id em;
        ev_sequence := sequence;
        ev_elapsed_ms := elapsed;
        ev_payload := payload |} in
      let sent delivered := {|
        em_request_id := em_request_id em;
        em_sequence := (sequence + 1) mod (u64_max + 1);
        em_terminal := is_terminal payload;
        em_started := em_started em;
        em_delivered := delivered |} in
      Ret match deliver sequence with
          | Ok _ => (sent (em_delivered em ++ [event])%list, Ok tt)
          | Err message => (sent (em_delivered em), Err (failure message))
          end
  end.
End Emitter.
