(* ===== verification/ChatValidation.v ===== *)
(** * The validation of a chat request (opticcode-core: chat_runtime.rs)

    Everything that is refused before a reference is read: versions,
    identifiers, budgets, generation options, edit controls, duplicate
    references. *)

From stdpp Require Import base list strings.
From Stdlib Require Import NArith ZArith Ascii String Lia.
From S2P Require Import Prelude Bytes Text IO Anyhow TextFacts Paths Grounding DocumentFacts Compliance ChatProtocol.

Local Open Scope string_scope.
Local Open Scope N_scope.

Definition MAX_ID_BYTES : N := 128.
Definition MAX_MODEL_BYTES : N := 256.
Definition MAX_PROFILE_BYTES : N := 96.
Definition MAX_HISTORY_TURN_CHARS : N := 8 * 1024.
Definition MAX_REFERENCE_REASON_CHARS : N := 512.
Definition MAX_SYMBOL_CHARS : N := 256.
Definition MAX_WARNING_COUNT : nat := 64.
Definition OUTPUT_CHUNK_BYTES : N := 16 * 1024.
Definition ASSISTANT_PROTOCOL_SCHEMA_VERSION : N := 1.

Definition bounded_text (value : string) (max_chars : N) : string :=
  take_chars (N.to_nat max_chars) value ++ (if max_chars <? char_count value then "...[truncated]" else "").

(** The bound of a failure's message: 8192 characters of at most four bytes,
    and the mark of a truncation. *)
Definition MAX_FAILURE_CHARS : N := 8 * 1024.
Definition MAX_FAILURE_BYTES : N := 4 * MAX_FAILURE_CHARS + 14.

Lemma bounded_text_le value max_chars : strlen (bounded_text value max_chars) <= 4 * max_chars + 14.
Proof.
  unfold bounded_text. rewrite strlen_app. pose proof (strlen_take_chars (N.to_nat max_chars) value).
  destruct (max_chars <? char_count value); unfold strlen in *; cbn [String.length]; lia.
Qed.

(** The fields are private, and [new] is the only constructor: every failure
    has a bounded message. *)
Record RuntimeFailure := {
  fl_code : string;
  fl_stage : string;
  fl_message : string;
  fl_retriable : bool;
  fl_bounded : strlen fl_message <= MAX_FAILURE_BYTES;
}.
Definition new_failure (code stage message : string) : RuntimeFailure := {|
  fl_code := code; fl_stage := stage; fl_message := bounded_text message MAX_FAILURE_CHARS; fl_retriable := false;
  fl_bounded := bounded_text_le message MAX_FAILURE_CHARS |}.
Definition retriable (f : RuntimeFailure) (b : bool) : RuntimeFailure := {|
  fl_code := fl_code f; fl_stage := fl_stage f; fl_message := fl_message f; fl_retriable := b; fl_bounded := fl_bounded f |}.
Definition protocol_error (f : RuntimeFailure) : ChatProtocolError := {|
  er_code := fl_code f; er_stage := fl_stage f; er_message := fl_message f; er_retriable := fl_retriable f |}.

Abbreviation run A := (result A RuntimeFailure).
Definition fail {A} (code stage message : string) : run A := Err (new_failure code stage message).
Definition invalid_if (b : bool) (code message : string) : run unit := if b then fail code "request_validation" message else Ok tt.

Definition validate_identifier (field value : string) (max_bytes : N) : run unit :=
  invalid_if (is_empty value || (max_bytes <? strlen value)
              || negb (all_bytes (fun c => is_ascii_alphanumeric c || one_of "-_.:" c) value))
    "invalid_identifier" (field ++ " contains unsupported characters or exceeds its limit").

(** A budget outside 1..=max *)
Definition out_of_bounds (n max : N) : bool := (n =? 0) || (max <? n).

Section Validation.
Context `{Floats}.

Definition validate_budgets (request : ChatRequest) : run unit :=
  let b := cq_budgets request in
  invalid_if
    (out_of_bounds (bg_max_history_turns b) MAX_CHAT_HISTORY_TURNS
     || out_of_bounds (bg_max_history_chars b) MAX_CHAT_HISTORY_CHARS
     || out_of_bounds (bg_max_history_tokens b) MAX_CHAT_HISTORY_TOKENS
     || out_of_bounds (bg_max_references b) MAX_CHAT_REFERENCES
     || out_of_bounds (bg_max_reference_bytes b) MAX_CHAT_REFERENCE_BYTES
     || out_of_bounds (bg_max_prompt_tokens b) (64 * 1024)
     || (12 <? bg_rag_hits b)
     || (bg_max_references b <? list_len (cq_references request)))
    "invalid_budgets" "chat budgets exceed hard runtime limits".

Definition is_edit_command (c : ChatCommand) : bool :=
  match c with Fix | Verify | Diff | Apply | Rollback => true | _ => false end.

(** [if let Some(value) = option { check(value)?; }] *)
Definition for_some {A} (o : option A) (check : A -> run unit) : run unit :=
  match o with Some a => check a | None => Ok tt end.

Definition validate_confirmation (command : ChatCommand) (c : ChatNativeConfirmation) : run unit :=
  invalid_if (negb match command with Apply | Rollback => true | _ => false end)
    "invalid_native_confirmation" "native confirmation is accepted only for apply or rollback" ;?
  validate_identifier "confirmation.client" (nc_client c) 96 ;?
  validate_identifier "confirmation.confirmation_id" (nc_confirmation_id c) 160 ;?
  validate_identifier "confirmation.approval_request_id" (nc_approval_request_id c) 160.

Definition validate_edit (command : ChatCommand) (edit : ChatEditControl) : run unit :=
  invalid_if (negb (is_edit_command command))
    "invalid_edit_control" "structured edit controls are valid only for chat edit commands" ;?
  for_some (ec_proposal_id edit) (fun id => validate_identifier "proposal_id" id 160) ;?
  for_some (ec_transaction_id edit) (fun id => validate_identifier "transaction_id" id 160) ;?
  invalid_if (ec_discard edit && negb (bool_decide (command = Diff)))
    "invalid_edit_control" "proposal discard is accepted only through the read-only diff command" ;?
  for_some (ec_native_confirmation edit) (validate_confirmation command).

(** The references, with the identifiers of those before. *)
Fixpoint validate_references (ids : list string) (references : list ChatReference) : run unit :=
  match references with
  | [] => Ok tt
  | reference :: references' =>
      validate_identifier "reference_id" (rf_reference_id reference) MAX_ID_BYTES ;?
      invalid_if (set_contains ids (rf_reference_id reference))
        "duplicate_reference" "reference IDs must be unique within a request" ;?
      invalid_if (MAX_REFERENCE_REASON_CHARS <? char_count (rf_inclusion_reason reference))
        "reference_reason_too_large" "reference inclusion reason is too long" ;?
      validate_references (rf_reference_id reference :: ids) references'
  end.

Definition validate_protocols (request : ChatRequest) : run unit :=
  let x := cq_expected_protocols request in
  invalid_if (negb (xp_chat x =? CHAT_PROTOCOL_SCHEMA_VERSION) || negb (xp_assistant x =? ASSISTANT_PROTOCOL_SCHEMA_VERSION)
              || negb (xp_discovery x =? 1) || negb (xp_llm x =? 1))
    "protocol_incompatible" "client protocol expectations do not match this OpticCode build".

Definition validate_generation (request : ChatRequest) : run unit :=
  let g := cq_generation request in
  invalid_if (out_of_bounds (gn_max_output_tokens g) MAX_CHAT_OUTPUT_TOKENS)
    "invalid_generation_options" ("max_output_tokens must be between 1 and " ++ dec MAX_CHAT_OUTPUT_TOKENS) ;?
  invalid_if (is_some_and (fun value => negb (f32_is_finite value) || negb (f32_up_to_two value)) (gn_temperature g))
    "invalid_generation_options" "temperature must be finite and between 0 and 2" ;?
  invalid_if (gn_compare_generate g && negb (bool_decide (cq_context_mode request = CompareMode)))
    "invalid_generation_options" "compare_generate is valid only with compare context mode".

Definition validate_request (request : ChatRequest) : run unit :=
  invalid_if (negb (cq_schema_version request =? CHAT_PROTOCOL_SCHEMA_VERSION)
              || negb (cq_protocol request =? CHAT_PROTOCOL_ID)%string)
    "protocol_incompatible" ("expected " ++ CHAT_PROTOCOL_ID ++ " schema " ++ dec CHAT_PROTOCOL_SCHEMA_VERSION) ;?
  map_err (fun e => new_failure "invalid_request_id" "request_validation" (to_string e))
    (validate_chat_request_id (cq_request_id request)) ;?
  validate_identifier "workspace_id" (cq_workspace_id request) MAX_ID_BYTES ;?
  validate_identifier "session_id" (cm_session_id (cq_client request)) MAX_ID_BYTES ;?
  invalid_if (bool_decide (cq_command request = Unknown))
    "unknown_command" "the requested chat command is not supported" ;?
  validate_protocols request ;?
  invalid_if (MAX_CHAT_PROMPT_CHARS <? char_count (cq_prompt request))
    "prompt_too_large" ("chat prompt exceeds " ++ dec MAX_CHAT_PROMPT_CHARS ++ " characters") ;?
  invalid_if (requires_prompt (cq_command request) && is_empty (trim (cq_prompt request)))
    "prompt_required" ("/" ++ ChatCommand_as_str (cq_command request) ++ " requires a non-empty prompt") ;?
  invalid_if (is_empty (trim (cq_model request)) || (MAX_MODEL_BYTES <? strlen (cq_model request)))
    "invalid_model" "model identifier is empty or too long" ;?
  invalid_if (is_empty (cq_profile request) || (MAX_PROFILE_BYTES <? strlen (cq_profile request))
              || negb (all_bytes (fun c => is_ascii_alphanumeric c || one_of "-_." c) (cq_profile request)))
    "invalid_profile" "profile identifier is invalid" ;?
  validate_budgets request ;?
  validate_generation request ;?
  for_some (cq_edit request) (validate_edit (cq_command request)) ;?
  validate_references [] (cq_references request).
End Validation.
