(* ===== verification/EditRuntime.v ===== *)
(** * Reports of the edit runtime (opticcode-edit: runtime.rs, diff.rs)

    The options of a run, the reports of its stages, and the verified diff a
    proposal stores. *)

From stdpp Require Import base list strings.
From Stdlib Require Import NArith Ascii String Lia.
From S2P Require Import Prelude Bytes Text UnixPath IO EditPlan.

Local Open Scope string_scope.
Local Open Scope N_scope.

Definition CHAT_EDIT_REPORT_SCHEMA_VERSION : N := 1.
Definition MAX_EDIT_DIFF_DISPLAY_BYTES : N := 1024 * 1024.

(** ** runtime.rs *)

(** Timeouts in nanoseconds. *)
Record EditRuntimeOptions := {
  o_workspace_root : string;
  o_workspace_id : string;
  o_request_id : string;
  o_profile : string;
  o_client_name : string;
  o_client_version : string;
  o_git_timeout : N;
  o_build_timeout : N;
  o_output_limit_bytes : N;
}.

(** [version] is the crate's own, from the build. *)
Definition EditRuntimeOptions_new (version workspace_root workspace_id request_id profile : string)
    : EditRuntimeOptions := {|
  o_workspace_root := workspace_root;
  o_workspace_id := workspace_id;
  o_request_id := request_id;
  o_profile := profile;
  o_client_name := "opticcode-runtime";
  o_client_version := version;
  o_git_timeout := 3 * 60 * 1000000000;
  o_build_timeout := MAX_EDIT_GLOBAL_TIMEOUT_SECONDS * 1000000000;
  o_output_limit_bytes := 1024 * 1024 |}.

Inductive EditStageStatus := NotRun | Running | Passed | StageFailed | Cancelled | Unavailable.
#[export] Instance EditStageStatus_eq_dec : EqDecision EditStageStatus.
Proof. solve_decision. Defined.

Record EditStageReport := {
  es_status : EditStageStatus;
  es_duration_ms : N;
  es_summary : string;
  es_errors : list string;
}.
#[export] Instance EditStageReport_eq_dec : EqDecision EditStageReport.
Proof. solve_decision. Defined.

Definition stage_passed (summary : string) (duration_ms : N) : EditStageReport :=
  {| es_status := Passed; es_duration_ms := duration_ms; es_summary := summary; es_errors := [] |}.
Definition stage_failed (summary : string) (duration_ms : N) (error : string) : EditStageReport :=
  {| es_status := StageFailed; es_duration_ms := duration_ms; es_summary := summary; es_errors := [error] |}.
Definition not_run (summary : string) : EditStageReport :=
  {| es_status := NotRun; es_duration_ms := 0; es_summary := summary; es_errors := [] |}.

Record PolicyDecisionRecord := {
  d_stage : string;
  d_action_kind : string;
  d_decision : string;
  d_rule_id : string;
  d_action_hash : string;
  d_audit_event_id : option string;
}.

Record EditProcessReport := {
  ep_tool : string;
  ep_executable : string;
  ep_arguments : list string;
  ep_status : string;
  ep_exit_code : option Z;
  ep_duration_ms : N;
  ep_timed_out : bool;
  ep_cancelled : bool;
  ep_output_truncated : bool;
  ep_stdout_tail : string;
  ep_stderr_tail : string;
}.

Record ChatEditVerificationReport := {
  cv_schema_version : N;
  cv_request_id : string;
  cv_proposal_id : string;
  cv_base_head : string;
  cv_working_tree_digest : string;
  cv_worktree_run_id : option string;
  cv_success : bool;
  cv_source_unchanged : bool;
  cv_lease_recovery_required : bool;
  cv_worktree : EditStageReport;
  cv_apply : EditStageReport;
  cv_reparse : EditStageReport;
  cv_build : EditStageReport;
  cv_tests : EditStageReport;
  cv_diff : EditStageReport;
  cv_cleanup : EditStageReport;
  cv_processes : list EditProcessReport;
  cv_policy : list PolicyDecisionRecord;
  cv_verified_at_unix_ms : option N;
  cv_warnings : list string;
  cv_errors : list string;
}.

Record ChatEditApplyReport := {
  ca_schema_version : N;
  ca_request_id : string;
  ca_proposal_id : string;
  ca_transaction_id : string;
  ca_success : bool;
  ca_approval_id : string;
  ca_approval_consumed : bool;
  ca_post_reparse : EditStageReport;
  ca_post_build : EditStageReport;
  ca_rollback_attempted : bool;
  ca_rollback_success : option bool;
  ca_policy : list PolicyDecisionRecord;
  ca_applied_at_unix_ms : option N;
  ca_errors : list string;
}.

Record ChatEditRollbackReport := {
  cr_schema_version : N;
  cr_request_id : string;
  cr_proposal_id : string;
  cr_transaction_id : string;
  cr_success : bool;
  cr_already_rolled_back : bool;
  cr_approval_id : string;
  cr_approval_consumed : bool;
  cr_reparse : EditStageReport;
  cr_policy : list PolicyDecisionRecord;
  cr_rolled_back_at_unix_ms : option N;
  cr_errors : list string;
}.

(** ** diff.rs *)

Record DiffStatistics := {
  ds_files : N;
  ds_added_files : N;
  ds_modified_files : N;
  ds_deleted_files : N;
  ds_renamed_files : N;
  ds_binary_files : N;
  ds_additions : N;
  ds_deletions : N;
  ds_hunks : N;
  ds_patch_bytes : N;
}.
#[export] Instance DiffStatistics_eq_dec : EqDecision DiffStatistics.
Proof. solve_decision. Defined.

Record DiffFileStatistics := {
  df_path : string;
  df_status : ProposalFileStatus;
  df_additions : N;
  df_deletions : N;
  df_hunks : N;
  df_binary : bool;
  df_base_hash : option string;
  df_proposed_hash : string;
  df_proposed_bytes : N;
}.
#[export] Instance DiffFileStatistics_eq_dec : EqDecision DiffFileStatistics.
Proof. solve_decision. Defined.

Record VerifiedDiff := {
  vd_schema_version : N;
  vd_patch : string;
  vd_patch_hash : string;
  vd_display_patch : string;
  vd_display_truncated : bool;
  vd_statistics : DiffStatistics;
  vd_files : list DiffFileStatistics;
}.
#[export] Instance VerifiedDiff_eq_dec : EqDecision VerifiedDiff.
Proof. solve_decision. Defined.

(** The line count of diff.rs, exact where that of validation.rs only
    estimates. *)
Definition diff_line_count (value : string) : N :=
  if is_empty value then 0
  else count_byte line_feed value + (if ends_with (String line_feed "") value then 0 else 1).

(** [str::split_inclusive('\n')] *)
Fixpoint split_inclusive (s : string) : list string :=
  match s with
  | EmptyString => []
  | String c s' =>
      if Ascii.eqb c line_feed then String c "" :: split_inclusive s'
      else match split_inclusive s' with
           | p :: ps => String c p :: ps
           | [] => [String c ""]
           end
  end.

Definition nl : string := String line_feed "".

Definition created_file_patch (file : ProposalFileSnapshot) : string :=
  let path := replace_backslash (f_path file) in
  let content := f_proposed_content file in
  "diff --git a/" ++ path ++ " b/" ++ path ++ nl
  ++ "new file mode 100644" ++ nl
  ++ "--- /dev/null" ++ nl
  ++ "+++ b/" ++ path ++ nl
  ++ "@@ -0,0 +1," ++ dec (diff_line_count content) ++ " @@" ++ nl
  ++ String.concat "" (map (fun line => "+" ++ line) (split_inclusive content))
  ++ (if negb (is_empty content) && negb (ends_with nl content)
      then nl ++ "\ No newline at end of file" ++ nl else "").

Definition count_hunks (patch : string) : N :=
  N.of_nat (List.length (List.filter (starts_with "@@ ") (lines patch))).

(** The largest character boundary not above [end_]. *)
Fixpoint floor_char_boundary (value : string) (end_ : nat) : nat :=
  match end_ with
  | O => O
  | S e => if is_char_boundary value (N.of_nat end_) then end_ else floor_char_boundary value e
  end.

Definition truncation_notice : string :=
  nl ++ "[display truncated; stored patch hash remains authoritative]" ++ nl.

Definition truncate_utf8 (value : string) (limit : N) : string * bool :=
  if strlen value <=? limit then (value, false)
  else (take_bytes (floor_char_boundary value (N.to_nat limit)) value ++ truncation_notice, true).

Definition normalize_path (value : string) : string := replace_backslash value.

Definition is_transaction_state_path (value : string) : bool :=
  let normalized := normalize_path value in
  (normalized =? ".opticcode")%string || starts_with ".opticcode/" normalized.
