(* ===== verification/ProposalStore.v ===== *)
(** * The proposal store (opticcode-edit: store.rs)

    One directory per proposal, one file per record generation; an update
    takes the store's lock, reads the newest valid generation, changes it
    and publishes the next one by rename. *)

From stdpp Require Import base list strings.
From Stdlib Require Import NArith Ascii String Lia.
From S2P Require Import Prelude Bytes Text UnixPath IO Anyhow Paths EditPlan EditIntent EditRuntime.

Local Open Scope string_scope.
Local Open Scope N_scope.

Definition PROPOSAL_STORE_SCHEMA_VERSION : N := 1.
Definition STORE_DIRECTORY : string := "proposals-v1".
Definition RECORDS_DIRECTORY : string := "records".
Definition WORKSPACE_LOCK_FILE : string := ".store.lock".
Definition MAX_RECORD_BYTES : N := 12 * 1024 * 1024.
Definition MAX_RECORD_GENERATIONS : N := 4096.
(** Nanoseconds. *)
Definition STORE_LOCK_WAIT : N := 5 * 1000000000.
Definition STORE_LOCK_RETRY : N := 10 * 1000000.
Definition STORE_COUNTER : string := "STORE_COUNTER".

Record ProposalRecord := {
  r_schema_version : N;
  r_proposal_id : string;
  r_workspace_id : string;
  r_workspace_root_hash : string;
  r_sequence : N;
  r_state : ProposalState;
  r_created_at_unix_ms : N;
  r_updated_at_unix_ms : N;
  r_expires_at_unix_ms : N;
  r_transaction_report_expires_at_unix_ms : N;
  r_intent : option ProposalIntentBinding;
  r_plan : EditPlan;
  r_files : list ProposalFileSnapshot;
  r_transitions : list ProposalTransition;
  r_policy : list PolicyDecisionRecord;
  r_verification : option ChatEditVerificationReport;
  r_verified_diff : option VerifiedDiff;
  r_apply : option ChatEditApplyReport;
  r_rollback : option ChatEditRollbackReport;
}.

(** The fields an update can change. *)
Definition set_progress (state : ProposalState) (transitions : list ProposalTransition) (r : ProposalRecord)
    : ProposalRecord := {|
  r_schema_version := r_schema_version r; r_proposal_id := r_proposal_id r; r_workspace_id := r_workspace_id r;
  r_workspace_root_hash := r_workspace_root_hash r; r_sequence := r_sequence r; r_state := state;
  r_created_at_unix_ms := r_created_at_unix_ms r; r_updated_at_unix_ms := r_updated_at_unix_ms r;
  r_expires_at_unix_ms := r_expires_at_unix_ms r;
  r_transaction_report_expires_at_unix_ms := r_transaction_report_expires_at_unix_ms r;
  r_intent := r_intent r; r_plan := r_plan r; r_files := r_files r; r_transitions := transitions;
  r_policy := r_policy r; r_verification := r_verification r; r_verified_diff := r_verified_diff r;
  r_apply := r_apply r; r_rollback := r_rollback r |}.
Definition set_reports (policy : list PolicyDecisionRecord) (verification : option ChatEditVerificationReport)
    (diff : option VerifiedDiff) (apply : option ChatEditApplyReport) (rollback : option ChatEditRollbackReport)
    (r : ProposalRecord) : ProposalRecord := {|
  r_schema_version := r_schema_version r; r_proposal_id := r_proposal_id r; r_workspace_id := r_workspace_id r;
  r_workspace_root_hash := r_workspace_root_hash r; r_sequence := r_sequence r; r_state := r_state r;
  r_created_at_unix_ms := r_created_at_unix_ms r; r_updated_at_unix_ms := r_updated_at_unix_ms r;
  r_expires_at_unix_ms := r_expires_at_unix_ms r;
  r_transaction_report_expires_at_unix_ms := r_transaction_report_expires_at_unix_ms r;
  r_intent := r_intent r; r_plan := r_plan r; r_files := r_files r; r_transitions := r_transitions r;
  r_policy := policy; r_verification := verification; r_verified_diff := diff; r_apply := apply;
  r_rollback := rollback |}.
Definition set_generation (sequence updated_at : N) (r : ProposalRecord) : ProposalRecord := {|
  r_schema_version := r_schema_version r; r_proposal_id := r_proposal_id r; r_workspace_id := r_workspace_id r;
  r_workspace_root_hash := r_workspace_root_hash r; r_sequence := sequence; r_state := r_state r;
  r_created_at_unix_ms := r_created_at_unix_ms r; r_updated_at_unix_ms := updated_at;
  r_expires_at_unix_ms := r_expires_at_unix_ms r;
  r_transaction_report_expires_at_unix_ms := r_transaction_report_expires_at_unix_ms r;
  r_intent := r_intent r; r_plan := r_plan r; r_files := r_files r; r_transitions := r_transitions r;
  r_policy := r_policy r; r_verification := r_verification r; r_verified_diff := r_verified_diff r;
  r_apply := r_apply r; r_rollback := r_rollback r |}.

(** [ProposalRecord::expired] *)
Definition expired (r : ProposalRecord) (now_unix_ms : N) : bool :=
  (r_expires_at_unix_ms r <? now_unix_ms)
  && match r_state r with Applied | RollbackAvailable | RollingBack | RolledBack => false | _ => true end.

Record ProposalStore := { s_root : string; s_workspace_hash : string; s_workspace_dir : string }.

Class StoreSerde := {
  record_to_vec : ProposalRecord -> result string string;
  record_from_slice : string -> option ProposalRecord;
}.

(** [anyhow::Error::new(error)] of an intent error. *)
Definition of_intent (e : EditIntentError) : anyhow := failure (edit_intent_error_display e).

(** ** Identifiers *)

Definition is_id_byte (c : ascii) : bool := is_ascii_alphanumeric c || one_of "-_." c.

Definition validate_identifier (value name : string) : res unit :=
  if is_empty value || (160 <? strlen value) || negb (all_bytes is_id_byte value)
  then bail (name ++ " is invalid") else Ok tt.

Definition validate_hash (value name : string) : res unit :=
  if negb (strlen value =? 64) || negb (all_bytes is_ascii_hexdigit value)
  then bail (name ++ " is not a 64-character hexadecimal hash") else Ok tt.

Definition metadata_is_link_or_reparse (m : metadata) : bool := is_symlink m.
Definition plain_dir (m : metadata) : bool := is_dir m && negb (metadata_is_link_or_reparse m).
Definition plain_file (m : metadata) : bool := is_file m && negb (metadata_is_link_or_reparse m).

(** ** Directories *)

Definition ensure_real_directory (path : string) : IO (res string) :=
  m <- sys (SymlinkMetadata path) ;;
  match m with
  | Ok m => Ret (if plain_dir m then Ok tt else bail "proposal state root is not a regular directory")
  | Err e =>
      if decide (io_error_kind e = NotFound) then io_call (CreateDirAll path) else Ret (Err (of_io e))
  end ;;?
  canonical <-? io_call (Canonicalize path) ;;
  m <-? io_call (SymlinkMetadata canonical) ;;
  Ret (if plain_dir m then Ok canonical else bail "proposal state root resolves through an unsafe entry").

Definition ensure_child_directory (parent_ name : string) : IO (res string) :=
  Ret (validate_identifier name "storage directory") ;;?
  parent_ <-? ensure_real_directory parent_ ;;
  let child := join parent_ name in
  created <- sys (CreateDir child) ;;
  Ret match created with
      | Ok _ => Ok tt
      | Err e => if decide (io_error_kind e = AlreadyExists) then Ok tt else Err (of_io e)
      end ;;?
  m <-? io_call (SymlinkMetadata child) ;;
  if negb (plain_dir m) then Ret (bail "proposal storage child is not a regular directory") else
  canonical <-? io_call (Canonicalize child) ;;
  Ret (if opt_path_eqb (parent canonical) (Some parent_) then Ok canonical
       else bail "proposal storage child escaped its parent").

Definition default_state_root : IO (res string) :=
  xdg <- sys (EnvVar "XDG_STATE_HOME") ;;
  base <- match xdg with
          | Some base => Ret (Some base)
          | None => home <- sys (EnvVar "HOME") ;; Ret (option_map (fun home => join home ".local/state") home)
          end ;;
  Ret match base with
      | Some base => Ok (join base "OpticCode")
      | None => bail "local application state directory is unavailable"
      end.

Definition ProposalStore_open (state_root workspace_hash : string) : IO (res ProposalStore) :=
  Ret (validate_hash workspace_hash "workspace hash") ;;?
  ensure_real_directory state_root ;;?
  root <-? ensure_child_directory state_root STORE_DIRECTORY ;;
  workspace_dir <-? ensure_child_directory root workspace_hash ;;
  Ret (Ok {| s_root := root; s_workspace_hash := workspace_hash; s_workspace_dir := workspace_dir |}).

Definition ProposalStore_default_store (workspace_hash : string) : IO (res ProposalStore) :=
  root <-? default_state_root ;; ProposalStore_open root workspace_hash.

Definition recognized_proposal_dir (workspace_dir proposal_id : string) : IO (res string) :=
  let path := join workspace_dir proposal_id in
  m <-? io_context "proposal does not exist" (SymlinkMetadata path) ;;
  if negb (plain_dir m) then Ret (bail "proposal path is not a regular directory") else
  canonical <-? io_call (Canonicalize path) ;;
  Ret (if opt_path_eqb (parent canonical) (Some workspace_dir) then Ok canonical
       else bail "proposal path escapes its workspace namespace").

Definition recognized_records_dir (proposal_dir : string) : IO (res string) :=
  let path := join proposal_dir RECORDS_DIRECTORY in
  m <-? io_call (SymlinkMetadata path) ;;
  if negb (plain_dir m) then Ret (bail "proposal records path is not a regular directory") else
  canonical <-? io_call (Canonicalize path) ;;
  Ret (if opt_path_eqb (parent canonical) (Some proposal_dir) then Ok canonical
       else bail "proposal records path escapes its proposal directory").

(** ** The lock *)

(** The loop around [try_lock].  Every round but the last sleeps at least
    10 ms, so [lock_rounds] rounds reach the deadline, 5 s after the
    start. *)
Fixpoint wait_for_lock (fuel : nat) (file : string) (deadline : N) : IO (res unit) :=
  match fuel with
  | O => Panic "out of fuel"
  | S fuel' =>
      locked <- sys (TryLock file) ;;
      match locked with
      | Ok _ => Ret (Ok tt)
      | Err (LockError e) => Ret (Err (with_context "failed to acquire proposal store lock" (of_io e)))
      | Err WouldBlock =>
          now <- sys InstantNow ;;
          if now <? deadline then sys (Sleep STORE_LOCK_RETRY) ;; wait_for_lock fuel' file deadline
          else Ret (bail "proposal store remained busy for this workspace")
      end
  end.

Definition lock_rounds : nat := 501.

Definition StoreLock_acquire (workspace_dir : string) : IO (res string) :=
  let path := join workspace_dir WORKSPACE_LOCK_FILE in
  m <- sys (SymlinkMetadata path) ;;
  if match m with Ok m => negb (plain_file m) | Err _ => false end
  then Ret (bail "proposal store lock is not a regular file") else
  file <-? io_call (OpenCreate path) ;;
  now <- sys InstantNow ;;
  wait_for_lock lock_rounds file (now + STORE_LOCK_WAIT) ;;?
  Ret (Ok file).

(** The guard lives until the end of the function: closing the file gives
    the lock back. *)
Definition with_store_lock {A} (workspace_dir : string) (body : IO (res A)) : IO (res A) :=
  file <-? StoreLock_acquire workspace_dir ;;
  r <- body ;;
  sys (CloseFile file) ;;
  Ret r.

(** ** Records *)

Fixpoint transitions_valid (index : N) (previous : option ProposalState) (l : list ProposalTransition) : res unit :=
  match l with
  | [] => Ok tt
  | t :: l' =>
      if negb (t_sequence t =? index) then bail "proposal transition sequence is inconsistent" else
      if match previous with Some p => negb (can_transition_to p (t_state t)) | None => false end
      then bail "proposal transition history contains an invalid transition"
      else transitions_valid (index + 1) (Some (t_state t)) l'
  end.

Definition record_fields_inconsistent (r : ProposalRecord) (proposal_id workspace_hash : string) : bool :=
  negb (r_schema_version r =? PROPOSAL_STORE_SCHEMA_VERSION)
  || negb (r_proposal_id r =? proposal_id)%string
  || negb (p_plan_id (r_plan r) =? proposal_id)%string
  || negb (r_workspace_root_hash r =? workspace_hash)%string
  || negb (p_workspace_root_hash (r_plan r) =? workspace_hash)%string
  || negb (r_workspace_id r =? p_workspace_id (r_plan r))%string
  || (r_updated_at_unix_ms r <? r_created_at_unix_ms r)
  || (r_expires_at_unix_ms r <? r_created_at_unix_ms r)
  || bool_decide (r_transitions r = [])
  || bool_decide (option_map t_state (last (r_transitions r)) <> Some (r_state r)).

Section Store.
Context `{Blake3, IntentSerde, StoreSerde}.

Definition total_snapshot_bytes (files : list ProposalFileSnapshot) : N :=
  foldl (fun total f => saturating_add64 (saturating_add64 total (snapshot_bytes f)) (strlen (f_proposed_content f)))
    0 files.

Definition persisted_plan (r : ProposalRecord) : ValidatedEditPlan := {|
  v_plan := r_plan r; v_files := r_files r; v_estimated_added_lines := 0; v_estimated_deleted_lines := 0;
  v_total_snapshot_bytes := total_snapshot_bytes (r_files r) |}.

Definition validate_record_binding (r : ProposalRecord) (b : ProposalIntentBinding) : res unit :=
  map_err of_intent (validate_binding b) ;?
  (if negb (b_request_id b =? p_request_id (r_plan r))%string
      || negb (b_workspace_id b =? r_workspace_id r)%string
      || negb (b_workspace_root_hash b =? r_workspace_root_hash r)%string
      || negb (b_base_head b =? p_base_head (r_plan r))%string
      || negb (b_working_tree_digest b =? p_working_tree_digest (r_plan r))%string
   then bail "proposal record intent binding does not match its persisted plan" else Ok tt) ;?
  map_err of_intent (validate_edit_plan_against_binding (persisted_plan r) b).

Definition validate_record (r : ProposalRecord) (proposal_id workspace_hash : string) : res unit :=
  (if record_fields_inconsistent r proposal_id workspace_hash
   then bail "proposal record identity, state, or timestamps are inconsistent" else Ok tt) ;?
  match r_intent r with
  | Some b => validate_record_binding r b
  | None => Ok tt
  end ;?
  transitions_valid 0 None (r_transitions r).

(** ** Publication *)

Definition record_file_name (sequence : N) : string := "record-" ++ dec_pad 10 sequence ++ ".json".

Definition publish_record (records : string) (r : ProposalRecord) : IO (res unit) :=
  bytes <-? Ret (map_err failure (record_to_vec r)) ;;
  let bytes := bytes ++ String line_feed "" in
  if MAX_RECORD_BYTES <? strlen bytes then Ret (bail "proposal record exceeds its bounded storage size") else
  let final_path := join records (record_file_name (r_sequence r)) in
  taken <- path_exists final_path ;;
  if taken : bool then Ret (bail "proposal record generation already exists") else
  pid <- sys ProcessId ;;
  counter <- sys (FetchAddNamed STORE_COUNTER) ;;
  let temp := join records (".record-" ++ dec_pad 10 (r_sequence r) ++ "-" ++ dec pid ++ "-" ++ dec counter ++ ".tmp") in
  file <-? io_call (CreateNew temp) ;;
  io_call (WriteAll file bytes) ;;?
  io_call (Flush file) ;;?
  io_call (SyncAll file) ;;?
  renamed <- sys (Rename temp final_path) ;;
  match renamed with
  | Ok _ => Ret (Ok tt)
  | Err e =>
      sys (RemoveFile temp) ;;
      Ret (Err (with_context "failed to atomically publish proposal record" (of_io e)))
  end.

Definition parse_record_sequence (name : string) : option N :=
  match str_strip_prefix "record-" name with
  | Some rest => match str_strip_suffix ".json" rest with Some digits => parse_u32 digits | None => None end
  | None => None
  end.

(** A readable entry whose name is a generation. *)
Definition generation_of (entry : io string) : option (N * string) :=
  match entry with
  | Ok path =>
      match (file_name path ≫= to_str) ≫= parse_record_sequence with
      | Some sequence => Some (sequence, path)
      | None => None
      end
  | Err _ => None
  end.

Fixpoint first_valid_generation (candidates : list (N * string)) (proposal_id workspace_hash : string)
    : IO (res ProposalRecord) :=
  match candidates with
  | [] => Ret (bail "proposal has no valid published record generation")
  | (sequence, path) :: candidates' =>
      m <- sys (SymlinkMetadata path) ;;
      if match m with Ok m => negb (plain_file m) || (MAX_RECORD_BYTES <? md_len m) | Err _ => true end
      then first_valid_generation candidates' proposal_id workspace_hash else
      bytes <- sys (ReadFile path) ;;
      match match bytes with Ok bytes => record_from_slice bytes | Err _ => None end with
      | Some r =>
          if (r_sequence r =? sequence) && is_ok (validate_record r proposal_id workspace_hash)
          then Ret (Ok r) else first_valid_generation candidates' proposal_id workspace_hash
      | None => first_valid_generation candidates' proposal_id workspace_hash
      end
  end.

(** [sort_by_key(|c| Reverse(c.0))] *)
Definition newest_first (a b : N * string) : comparison := N.compare (fst b) (fst a).

Definition load_latest_valid_record (records proposal_id workspace_hash : string) : IO (res ProposalRecord) :=
  entries <-? io_call (ReadDir records) ;;
  let candidates := omap generation_of entries in
  if MAX_RECORD_GENERATIONS <? list_len candidates
  then Ret (bail "proposal record generation limit exceeded") else
  first_valid_generation (sort_by newest_first candidates) proposal_id workspace_hash.

(** ** Operations *)

Context (store : ProposalStore).

Definition unix_millis : IO N := sys SystemTimeMillis.

Definition generated_transition (now : N) : ProposalTransition := {|
  t_sequence := 0; t_state := Generated; t_recorded_at_unix_ms := now;
  t_reason := "structured edit plan generated" |}.
Definition validated_transition (now : N) : ProposalTransition := {|
  t_sequence := 1; t_state := Validated; t_recorded_at_unix_ms := now;
  t_reason := "untrusted plan passed strict runtime validation" |}.

Definition new_record (v : ValidatedEditPlan) (intent : option ProposalIntentBinding) (now : N) : ProposalRecord := {|
  r_schema_version := PROPOSAL_STORE_SCHEMA_VERSION;
  r_proposal_id := p_plan_id (v_plan v);
  r_workspace_id := p_workspace_id (v_plan v);
  r_workspace_root_hash := s_workspace_hash store;
  r_sequence := 0;
  r_state := Validated;
  r_created_at_unix_ms := now;
  r_updated_at_unix_ms := now;
  r_expires_at_unix_ms := p_expires_at_unix_ms (v_plan v);
  r_transaction_report_expires_at_unix_ms :=
    saturating_add64 now (saturating_mul64 DEFAULT_TRANSACTION_REPORT_TTL_SECONDS 1000);
  r_intent := intent;
  r_plan := v_plan v;
  r_files := v_files v;
  r_transitions := [generated_transition now; validated_transition now];
  r_policy := [];
  r_verification := None;
  r_verified_diff := None;
  r_apply := None;
  r_rollback := None |}.

Definition create_record (v : ValidatedEditPlan) (intent : option ProposalIntentBinding) : IO (res ProposalRecord) :=
  with_store_lock (s_workspace_dir store) (
    now <- unix_millis ;;
    let proposal_id := p_plan_id (v_plan v) in
    Ret (validate_identifier proposal_id "proposal ID") ;;?
    let proposal_dir := join (s_workspace_dir store) proposal_id in
    created <- sys (CreateDir proposal_dir) ;;
    Ret match created with
        | Ok _ => Ok tt
        | Err e =>
            if decide (io_error_kind e = AlreadyExists) then bail ("proposal already exists: " ++ proposal_id)
            else Err (with_context "failed to create proposal directory" (of_io e))
        end ;;?
    proposal_dir <-? io_call (Canonicalize proposal_dir) ;;
    if negb (opt_path_eqb (parent proposal_dir) (Some (s_workspace_dir store)))
    then Ret (bail "proposal directory escaped its workspace namespace") else
    records <-? ensure_child_directory proposal_dir RECORDS_DIRECTORY ;;
    let record := new_record v intent now in
    publish_record records record ;;?
    Ret (Ok record)).

Definition create (v : ValidatedEditPlan) : IO (res ProposalRecord) := create_record v None.

Definition create_with_intent (v : ValidatedEditPlan) (i : ValidatedEditIntent) : IO (res ProposalRecord) :=
  Ret (map_err of_intent (validate_edit_plan_against_intent v i)) ;;?
  binding <-? Ret (map_err of_intent (from_validated i)) ;;
  Ret (map_err of_intent (validate_binding binding)) ;;?
  create_record v (Some binding).

Definition load (proposal_id : string) : IO (res ProposalRecord) :=
  Ret (validate_identifier proposal_id "proposal ID") ;;?
  proposal_dir <-? recognized_proposal_dir (s_workspace_dir store) proposal_id ;;
  records <-? recognized_records_dir proposal_dir ;;
  record <-? load_latest_valid_record records proposal_id (s_workspace_hash store) ;;
  Ret (validate_record record proposal_id (s_workspace_hash store)) ;;?
  Ret (Ok record).

(** The records of the entries whose name is a proposal identifier and that
    load; an entry that cannot be read is an error. *)
Fixpoint load_entries (skip_lock : bool) (entries : list (io string)) : IO (res (list ProposalRecord)) :=
  match entries with
  | [] => Ret (Ok [])
  | Err e :: _ => Ret (Err (of_io e))
  | Ok path :: entries' =>
      let name := default "" (file_name path) in
      if skip_lock && (name =? WORKSPACE_LOCK_FILE)%string then load_entries skip_lock entries' else
      match to_str name with
      | None => load_entries skip_lock entries'
      | Some name =>
          if is_ok (validate_identifier name "proposal ID") then
            record <- load name ;;
            records <-? load_entries skip_lock entries' ;;
            Ret (Ok match record with Ok r => r :: records | Err _ => records end)
          else load_entries skip_lock entries'
      end
  end.

Definition latest_cmp (l r : ProposalRecord) : comparison :=
  then_with (N.compare (r_updated_at_unix_ms r) (r_updated_at_unix_ms l))
    (str_cmp (r_proposal_id r) (r_proposal_id l)).

Definition latest : IO (res (option ProposalRecord)) :=
  entries <-? io_call (ReadDir (s_workspace_dir store)) ;;
  candidates <-? load_entries true entries ;;
  Ret (Ok (head (sort_by latest_cmp candidates))).

Definition applied_by (transaction_id : string) (r : ProposalRecord) : bool :=
  is_some_and (fun report => (ca_transaction_id report =? transaction_id)%string) (r_apply r).

Definition find_by_transaction_id (transaction_id : string) : IO (res (option ProposalRecord)) :=
  Ret (validate_identifier transaction_id "transaction ID") ;;?
  entries <-? io_call (ReadDir (s_workspace_dir store)) ;;
  records <-? load_entries false entries ;;
  let matches := sort_by (fun l r => N.compare (r_updated_at_unix_ms r) (r_updated_at_unix_ms l))
                   (List.filter (applied_by transaction_id) records) in
  Ret (if 1 <? list_len matches
       then bail "transaction ID is associated with multiple proposal records"
       else Ok (head matches)).

Definition update (proposal_id : string) (f : ProposalRecord -> IO (res ProposalRecord)) : IO (res ProposalRecord) :=
  Ret (validate_identifier proposal_id "proposal ID") ;;?
  with_store_lock (s_workspace_dir store) (
    proposal_dir <-? recognized_proposal_dir (s_workspace_dir store) proposal_id ;;
    records <-? recognized_records_dir proposal_dir ;;
    record <-? load_latest_valid_record records proposal_id (s_workspace_hash store) ;;
    record <-? f record ;;
    if u32_max <=? r_sequence record then Ret (bail "proposal sequence exhausted") else
    now <- unix_millis ;;
    let record := set_generation (r_sequence record + 1) now record in
    Ret (validate_record record proposal_id (s_workspace_hash store)) ;;?
    publish_record records record ;;?
    Ret (Ok record)).

Definition state_debug (s : ProposalState) : string :=
  match s with
  | Generated => "Generated" | Validated => "Validated" | WorktreePrepared => "WorktreePrepared"
  | WorktreeApplied => "WorktreeApplied" | BuildRunning => "BuildRunning" | Verified => "Verified"
  | VerificationFailed => "VerificationFailed" | ApprovalPending => "ApprovalPending" | Applying => "Applying"
  | Applied => "Applied" | RollbackAvailable => "RollbackAvailable" | RollingBack => "RollingBack"
  | RolledBack => "RolledBack" | Discarded => "Discarded" | Expired => "Expired" | Failed => "Failed"
  end.

(** The closure of [transition]. *)
Definition push_transition (next : ProposalState) (reason : string) (r : ProposalRecord) : IO (res ProposalRecord) :=
  if negb (can_transition_to (r_state r) next)
  then Ret (bail ("invalid proposal transition: " ++ state_debug (r_state r) ++ " -> " ++ state_debug next)) else
  now <- unix_millis ;;
  Ret (Ok (set_progress next
    (r_transitions r ++ [{| t_sequence := N.min (list_len (r_transitions r)) u32_max;
                            t_state := next; t_recorded_at_unix_ms := now; t_reason := reason |}])%list r)).

Definition transition (proposal_id : string) (next : ProposalState) (reason : string) : IO (res ProposalRecord) :=
  if is_empty (trim reason) || (4 * 1024 <? strlen reason)
  then Ret (bail "proposal transition reason is empty or too large")
  else update proposal_id (push_transition next reason).

Definition record_policy (proposal_id : string) (decisions : list PolicyDecisionRecord) : IO (res ProposalRecord) :=
  update proposal_id (fun r =>
    let policy := (r_policy r ++ decisions)%list in
    Ret (if 512 <? list_len policy then bail "proposal policy audit references exceed their bound"
         else Ok (set_reports policy (r_verification r) (r_verified_diff r) (r_apply r) (r_rollback r) r))).

Definition record_verification (proposal_id : string) (report : ChatEditVerificationReport)
    (diff : option VerifiedDiff) : IO (res ProposalRecord) :=
  update proposal_id (fun r =>
    Ret (if negb (cv_proposal_id report =? r_proposal_id r)%string
         then bail "verification report belongs to another proposal"
         else Ok (set_reports (r_policy r) (Some report) diff (r_apply r) (r_rollback r) r))).

Definition record_apply (proposal_id : string) (report : ChatEditApplyReport) : IO (res ProposalRecord) :=
  update proposal_id (fun r =>
    Ret (if negb (ca_proposal_id report =? r_proposal_id r)%string
         then bail "apply report belongs to another proposal"
         else Ok (set_reports (r_policy r) (r_verification r) (r_verified_diff r) (Some report) (r_rollback r) r))).

Definition record_rollback (proposal_id : string) (report : ChatEditRollbackReport) : IO (res ProposalRecord) :=
  update proposal_id (fun r =>
    Ret (if negb (cr_proposal_id report =? r_proposal_id r)%string
         then bail "rollback report belongs to another proposal"
         else Ok (set_reports (r_policy r) (r_verification r) (r_verified_diff r) (r_apply r) (Some report) r))).

Definition discard (proposal_id : string) : IO (res ProposalRecord) :=
  transition proposal_id Discarded "proposal discarded by explicit client command".

Definition expire_if_needed (proposal_id : string) (now : N) : IO (res ProposalRecord) :=
  record <-? load proposal_id ;;
  if expired record now && negb (bool_decide (r_state record = Expired))
  then transition proposal_id Expired "proposal TTL elapsed"
  else Ret (Ok record).
End Store.
