(* ===== verification/EditGeneration.v ===== *)
(** * Prompts and schemas of an edit (opticcode-edit: generation.rs)

    What the local model is given for an edit: the trusted files with their
    line anchors, the contract of the plan, the validated intent, and the
    JSON schema that constrains its output to the targets of the intent.
    The identifiers of the same source file are in EditTransaction.v. *)

From stdpp Require Import base list strings.
From Stdlib Require Import NArith Ascii String Lia.
From S2P Require Import Prelude Bytes Text UnixPath IO Anyhow Paths EditPlan EditIntent EditRuntime ProposalStore.

Local Open Scope string_scope.
Local Open Scope N_scope.

Record TrustedEditLine := { tl_start : N; tl_end : N; tl_content : string }.
Record TrustedEditFile := {
  tf_path : string;
  tf_content_hash : string;
  tf_bytes : N;
  tf_line_ending : LineEnding;
  tf_line_anchors : list TrustedEditLine;
}.

Record EditGenerationInput := {
  gi_task : string;
  gi_policy_summary : string;
  gi_selected_context : string;
  gi_user_references : string;
  gi_available_files : list string;
  gi_trusted_files : list TrustedEditFile;
  gi_expected : EditPlanExpectations;
}.
Record BoundEditGenerationInput := { bi_base : EditGenerationInput; bi_intent : ValidatedEditIntent }.

(** [serde_json::to_string_pretty] of a value and of the trusted files *)
Class JsonPretty := {
  value_to_string_pretty : Value -> result string string;
  trusted_files_to_string_pretty : list TrustedEditFile -> result string string;
}.

Definition expires_at (expected : EditPlanExpectations) : N :=
  saturating_add64 (x_now_unix_ms expected) (saturating_mul64 DEFAULT_PROPOSAL_TTL_SECONDS 1000).

(** [while end > 0 && !value.is_char_boundary(end) { end -= 1; }] is
    [floor_char_boundary] of EditRuntime.v. *)
Definition bounded (value : string) (max_bytes : N) : string :=
  if strlen value <=? max_bytes then value
  else take_bytes (floor_char_boundary value (N.to_nat max_bytes)) value ++ nl ++ "[bounded]".

(** ** Trusted files *)

(** The anchors follow one another from [next] on; the end of the last. *)
Fixpoint anchors_end (next : N) (anchors : list TrustedEditLine) : option N :=
  match anchors with
  | [] => Some next
  | anchor :: anchors' =>
      if negb (tl_start anchor =? next) || (tl_end anchor <=? tl_start anchor)
         || negb (tl_end anchor - tl_start anchor =? strlen (tl_content anchor))
      then None else anchors_end (tl_end anchor) anchors'
  end.

Definition valid_line_anchors (file : TrustedEditFile) : bool :=
  if tf_bytes file =? 0 then match tf_line_anchors file with [] => true | _ => false end
  else match anchors_end 0 (tf_line_anchors file) with Some next => next =? tf_bytes file | None => false end.

Definition invalid_metadata (file : TrustedEditFile) : bool :=
  is_empty (tf_path file) || (4096 <? strlen (tf_path file))
  || negb (strlen (tf_content_hash file) =? 64) || negb (all_bytes is_ascii_hexdigit (tf_content_hash file))
  || (MAX_EDIT_FILE_BYTES <? tf_bytes file) || negb (valid_line_anchors file).

Definition render_trusted_files `{JsonPretty} (files : list TrustedEditFile) : res string :=
  if MAX_EDIT_FILES <? list_len files
  then bail "trusted edit file inventory exceeds the runtime file limit" else
  if existsb invalid_metadata files then bail "trusted edit file inventory contains invalid metadata" else
  match files with
  | [] => Ok "[]"
  | _ =>
      rendered <- map_err (fun e => with_context "failed to render trusted edit file inventory" (failure e))
                    (trusted_files_to_string_pretty files) ;?
      if MAX_EDIT_PROPOSAL_BYTES <? strlen rendered
      then bail "trusted edit file inventory exceeds its 2 MiB prompt bound" else Ok rendered
  end.

(** ** The contract *)

Definition limits_value (l : EditPlanLimits) : Value := json_object [
  ("max_files", VNumber (max_files l)); ("max_created_files", VNumber (max_created_files l));
  ("max_file_bytes", VNumber (max_file_bytes l)); ("max_proposal_bytes", VNumber (max_proposal_bytes l));
  ("max_hunks", VNumber (max_hunks l)); ("max_added_lines", VNumber (max_added_lines l));
  ("max_deleted_lines", VNumber (max_deleted_lines l)); ("max_changed_lines", VNumber (max_changed_lines l));
  ("global_timeout_seconds", VNumber (global_timeout_seconds l))].

Definition contract_value (expected : EditPlanExpectations) (limits : EditPlanLimits) : Value := json_object [
  ("schema_version", VNumber EDIT_PLAN_SCHEMA_VERSION);
  ("plan_id", VString (x_plan_id expected));
  ("request_id", VString (x_request_id expected));
  ("workspace_id", VString (x_workspace_id expected));
  ("workspace_root_hash", VString (x_workspace_root_hash expected));
  ("profile", VString (x_profile expected));
  ("provider", VString (ProviderId_as_str (x_provider expected)));
  ("model", VString (x_model expected));
  ("base_head", VString (x_base_head expected));
  ("working_tree_digest", VString (x_working_tree_digest expected));
  ("context_used", VArray [json_object [
     ("source", VString "relative source identifier"); ("provenance", VString "symbol|rag|user_reference");
     ("content_hash", VNull)]]);
  ("user_references", VArray [json_object [
     ("reference_id", VString "id"); ("kind", VString "file|range|selection|symbol");
     ("path", VString "relative/path.java"); ("provenance", VString "user_reference")]]);
  ("summary", VString "short user-facing summary");
  ("rationale_summary", VString "short decision summary without private chain-of-thought");
  ("operations", VArray []);
  ("validations", json_strings ["reparse_java"; "build_offline"; "test_offline"]);
  ("risks", json_strings ["bounded risk"]);
  ("limitations", json_strings ["bounded limitation"]);
  ("limits", limits_value limits);
  ("expires_at_unix_ms", VNumber (expires_at expected))].

Definition edit_plan_contract_json_with_limits `{JsonPretty} (expected : EditPlanExpectations) (limits : EditPlanLimits)
    : res string :=
  map_err (fun e => with_context "failed to render edit plan contract" (failure e))
    (value_to_string_pretty (contract_value expected limits)).
Definition edit_plan_contract_json `{JsonPretty} (expected : EditPlanExpectations) : res string :=
  edit_plan_contract_json_with_limits expected (x_limits expected).

(** ** Prompts *)

Definition TRUSTED_MARKER : string := "[TRUSTED_FILE_SNAPSHOTS]".
(** A section: its title on a line, its body, and an empty line *)
Definition section (title body : string) : string := title ++ nl ++ body ++ nl ++ nl.
(** [name=value] on a line *)
Definition setting (name value : string) : string := name ++ "=" ++ value ++ nl.

Definition system_instructions : string :=
  "[SYSTEM]" ++ nl
  ++ "You are OpticCode's local structured edit planner for Java 8 and Minecraft 1.8.8. "
  ++ "Return exactly one JSON object. Do not use Markdown, prose, comments, or code fences. "
  ++ "The runtime treats every byte as untrusted and will reject any mismatch." ++ nl ++ nl.

Definition security_policy (policy_summary : string) : string :=
  "[SECURITY_POLICY]" ++ nl ++ bounded policy_summary (16 * 1024) ++ nl
  ++ "Only modify existing UTF-8 text files or create at most one allowlisted UTF-8 text file. "
  ++ "Never delete, rename, move, download, install, edit build wrappers, touch .git/.opticcode, "
  ++ "or request network access. Use UTF-8 byte offsets, never guessed line numbers. "
  ++ "A modify operation is permitted only for a path listed in TRUSTED_FILE_SNAPSHOTS. "
  ++ "Copy its path, full-file BLAKE3 hash, and line ending exactly; never calculate or invent them. "
  ++ "Prefer replacing one or more complete line_anchors: copy start, end, and content exactly "
  ++ "into range and expected_old, then alter only replacement. The runtime rejects guessed offsets." ++ nl ++ nl
  ++ "A modify object has exactly these fields: type=modify, path, expected_file_hash, "
  ++ "encoding=utf8, line_ending, range={start,end}, expected_old, replacement, reason, "
  ++ "optional symbol, and provenance." ++ nl ++ nl
  ++ "For a create operation, replace the modify object with only these fields: "
  ++ "type=create, path, extension, encoding, line_ending, content, reason, provenance, "
  ++ "expected_absent=true, and declared_size. Never add helper or alternative fields." ++ nl ++ nl.

Definition trusted_identities (expected : EditPlanExpectations) : string :=
  "[TRUSTED_IDENTITIES]" ++ nl
  ++ setting "plan_id" (x_plan_id expected) ++ setting "request_id" (x_request_id expected)
  ++ setting "workspace_id" (x_workspace_id expected) ++ setting "workspace_root_hash" (x_workspace_root_hash expected)
  ++ setting "profile" (x_profile expected) ++ setting "provider" (ProviderId_as_str (x_provider expected))
  ++ setting "model" (x_model expected) ++ setting "base_head" (x_base_head expected)
  ++ setting "working_tree_digest" (x_working_tree_digest expected)
  ++ setting "expires_at_unix_ms" (dec (expires_at expected)) ++ nl.

Section Prompts.
Context `{Blake3, IntentSerde, JsonPretty}.

Definition build_edit_generation_prompt (input : EditGenerationInput) : res string :=
  let expected := gi_expected input in
  schema <- edit_plan_contract_json expected ;?
  trusted_files <- render_trusted_files (gi_trusted_files input) ;?
  let files := take 2000 (dedup (sort_by str_cmp (gi_available_files input))) in
  let prompt :=
    system_instructions
    ++ security_policy (gi_policy_summary input)
    ++ trusted_identities expected
    ++ section TRUSTED_MARKER trusted_files
    ++ section "[EDIT_PLAN_JSON_CONTRACT]" schema
    ++ section "[AVAILABLE_FILES]" (join_with nl files)
    ++ section "[USER_REFERENCES]" (bounded (gi_user_references input) (256 * 1024))
    ++ section "[SELECTED_CONTEXT]" (bounded (gi_selected_context input) (1024 * 1024))
    ++ section "[TASK]" (bounded (gi_task input) (64 * 1024))
    ++ "[FINAL_INSTRUCTION]" ++ nl ++ "Return exactly one complete EditPlan JSON object matching the contract." in
  if 4 * 1024 * 1024 <? strlen prompt then bail "structured edit prompt exceeds its 4 MiB runtime bound" else Ok prompt.

Definition build_format_correction_prompt (invalid_output error_code error_message : string)
    (expected : EditPlanExpectations) (trusted_files : list TrustedEditFile) : res string :=
  schema <- edit_plan_contract_json expected ;?
  trusted_files <- render_trusted_files trusted_files ;?
  Ok ("[SYSTEM]" ++ nl
    ++ "Correct only the JSON formatting/schema error in the previous EditPlan. "
    ++ "Do not change the requested behavior, operations, paths, ranges, old content, or new content. "
    ++ "Do not add context. Return exactly one JSON object and nothing else." ++ nl ++ nl
    ++ "[STRUCTURED_ERROR]" ++ nl ++ setting "code" (bounded error_code 256)
    ++ setting "message" (bounded error_message (8 * 1024)) ++ nl
    ++ section TRUSTED_MARKER trusted_files
    ++ section "[REQUIRED_CONTRACT]" schema
    ++ section "[PREVIOUS_OUTPUT]" (bounded invalid_output MAX_EDIT_PROPOSAL_BYTES)
    ++ "[FINAL_INSTRUCTION]" ++ nl ++ "Return the same plan corrected to exactly match the contract.").

(** The identities the expectations share with an intent *)
Definition bound_identities (expected : EditPlanExpectations) (i : EditIntent) : list (string * string * string) := [
  ("request_id", x_request_id expected, i_request_id i);
  ("workspace_id", x_workspace_id expected, i_workspace_id i);
  ("workspace_root_hash", x_workspace_root_hash expected, i_workspace_root_hash i);
  ("base_head", x_base_head expected, i_base_head i);
  ("working_tree_digest", x_working_tree_digest expected, i_working_tree_digest i)].

Definition validate_generation_intent_binding (expected : EditPlanExpectations) (intent : ValidatedEditIntent) : res unit :=
  binding <- map_err of_intent (from_validated intent) ;?
  map_err of_intent (validate_binding binding) ;?
  check_each (fun '(name, actual, trusted) =>
      if negb (actual =? trusted)%string
      then bail ("validated edit intent " ++ name ++ " is not bound to the generation expectations") else Ok tt)
    (bound_identities expected (vi_intent intent)).

(** The section put before the trusted files *)
Definition intent_section (intent : ValidatedEditIntent) : string :=
  "[VALIDATED_EDIT_INTENT]" ++ nl
  ++ setting "intent_hash" (vi_intent_hash intent)
  ++ vi_canonical_json intent ++ nl
  ++ "This validated intent is authoritative. AVAILABLE_FILES is discovery only, "
  ++ "never authorization. Emit operations only for exact intent targets and kinds." ++ nl ++ nl
  ++ TRUSTED_MARKER.

Definition bind_prompt_to_intent (prompt : string) (expected : EditPlanExpectations) (intent : ValidatedEditIntent) : res string :=
  legacy_contract <- edit_plan_contract_json expected ;?
  bound_contract <- edit_plan_contract_json_with_limits expected (k_limits (i_constraints (vi_intent intent))) ;?
  if negb (str_contains legacy_contract prompt)
  then bail "structured edit prompt is missing its EditPlan contract marker" else
  let prompt := replace_first legacy_contract bound_contract prompt in
  if negb (str_contains TRUSTED_MARKER prompt)
  then bail "structured edit prompt is missing its trusted snapshot marker" else
  let prompt := replace_first TRUSTED_MARKER (intent_section intent) prompt in
  if 4 * 1024 * 1024 <? strlen prompt then bail "intent-bound edit prompt exceeds its 4 MiB runtime bound" else Ok prompt.

Definition build_bound_edit_generation_prompt (input : BoundEditGenerationInput) : res string :=
  let expected := gi_expected (bi_base input) in
  validate_generation_intent_binding expected (bi_intent input) ;?
  prompt <- build_edit_generation_prompt (bi_base input) ;?
  bind_prompt_to_intent prompt expected (bi_intent input).

Definition build_bound_format_correction_prompt (invalid_output error_code error_message : string)
    (expected : EditPlanExpectations) (trusted_files : list TrustedEditFile) (intent : ValidatedEditIntent) : res string :=
  validate_generation_intent_binding expected intent ;?
  prompt <- build_format_correction_prompt invalid_output error_code error_message expected trusted_files ;?
  bind_prompt_to_intent prompt expected intent.
End Prompts.

(** ** The schema of the output *)

Definition const (v : Value) : Value := json_object [("const", v)].
Definition string_array : Value := array_of (schema_type "string").

Definition modify_operation_schema (file : TrustedEditFile) : Value :=
  closed_object ["type"; "path"; "expected_file_hash"; "encoding"; "line_ending"; "range"; "expected_old"; "replacement";
                 "reason"; "provenance"] [
    ("type", const (VString "modify"));
    ("path", const (VString (tf_path file)));
    ("expected_file_hash", const (VString (tf_content_hash file)));
    ("encoding", const (VString "utf8"));
    ("line_ending", const (VString (line_ending_as_str (tf_line_ending file))));
    ("range", closed_object ["start"; "end"] [("start", schema_type "integer"); ("end", schema_type "integer")]);
    ("expected_old", schema_type "string");
    ("replacement", schema_type "string");
    ("reason", schema_type "string");
    ("symbol", schema_type "string");
    ("provenance", string_array)].

(** The schema of a creation, of any path or of one *)
Definition creation_schema (path extension : Value) : Value :=
  closed_object ["type"; "path"; "extension"; "encoding"; "line_ending"; "content"; "reason"; "provenance";
                 "expected_absent"; "declared_size"] [
    ("type", const (VString "create"));
    ("path", path);
    ("extension", extension);
    ("encoding", const (VString "utf8"));
    ("line_ending", json_object [("enum", json_strings ["none"; "lf"; "crlf"])]);
    ("content", schema_type "string");
    ("reason", schema_type "string");
    ("provenance", string_array);
    ("expected_absent", const (VBool true));
    ("declared_size", schema_type "integer")].
Definition create_operation_schema : Value :=
  creation_schema (schema_type "string") (json_object [("enum", json_strings ALLOWED_EDIT_EXTENSIONS)]).
Definition create_operation_schema_for_target (path extension : string) : Value :=
  creation_schema (const (VString path)) (const (VString extension)).

Definition plan_fields : list string := [
  "schema_version"; "plan_id"; "request_id"; "workspace_id"; "workspace_root_hash"; "profile"; "provider"; "model";
  "base_head"; "working_tree_digest"; "context_used"; "user_references"; "summary"; "rationale_summary"; "operations";
  "validations"; "risks"; "limitations"; "limits"; "expires_at_unix_ms"].

Definition edit_plan_output_schema (expected : EditPlanExpectations) (trusted_files : list TrustedEditFile) : Value :=
  let operation_variants := (map modify_operation_schema trusted_files ++ [create_operation_schema])%list in
  let bounded_text := schema_type "string" in
  closed_object plan_fields [
    ("schema_version", const (VNumber EDIT_PLAN_SCHEMA_VERSION));
    ("plan_id", const (VString (x_plan_id expected)));
    ("request_id", const (VString (x_request_id expected)));
    ("workspace_id", const (VString (x_workspace_id expected)));
    ("workspace_root_hash", const (VString (x_workspace_root_hash expected)));
    ("profile", const (VString (x_profile expected)));
    ("provider", const (VString (ProviderId_as_str (x_provider expected))));
    ("model", const (VString (x_model expected)));
    ("base_head", const (VString (x_base_head expected)));
    ("working_tree_digest", const (VString (x_working_tree_digest expected)));
    ("context_used", array_of (closed_object ["source"; "provenance"] [
       ("source", bounded_text); ("provenance", bounded_text); ("content_hash", schema_type "string")]));
    ("user_references", array_of (closed_object ["reference_id"; "kind"; "provenance"] [
       ("reference_id", bounded_text); ("kind", bounded_text); ("path", bounded_text); ("provenance", bounded_text)]));
    ("summary", bounded_text);
    ("rationale_summary", bounded_text);
    ("operations", array_of (json_object [("oneOf", VArray operation_variants)]));
    ("validations", array_of (json_object [("enum", json_strings ["reparse_java"; "build_offline"; "test_offline"])]));
    ("risks", array_of bounded_text);
    ("limitations", array_of bounded_text);
    ("limits", const (limits_value (x_limits expected)));
    ("expires_at_unix_ms", const (VNumber (expires_at expected)))].

(** The operation a target allows *)
Definition target_schema (allowed_operations : list EditIntentOperationKind) (trusted_files : list TrustedEditFile)
    (target : EditIntentTarget) : res Value :=
  match target with
  | ExistingFile path content_hash _ _ =>
      if bool_decide (ModifyExisting ∉ allowed_operations)
      then bail "validated intent contains an existing target without modify permission" else
      match find (fun file => (tf_path file =? path)%string) trusted_files with
      | None => bail ("validated intent target " ++ path ++ " has no trusted file snapshot")
      | Some trusted =>
          if negb (tf_content_hash trusted =? content_hash)%string
          then bail ("validated intent target " ++ path ++ " does not match its trusted file hash")
          else Ok (modify_operation_schema trusted)
      end
  | ProspectiveFile path extension _ _ =>
      if bool_decide (CreateTextFile ∉ allowed_operations)
      then bail "validated intent contains a prospective target without create permission"
      else Ok (create_operation_schema_for_target path extension)
  end.

Fixpoint target_schemas (allowed_operations : list EditIntentOperationKind) (trusted_files : list TrustedEditFile)
    (targets : list EditIntentTarget) : res (list Value) :=
  match targets with
  | [] => Ok []
  | target :: targets' =>
      variant <- target_schema allowed_operations trusted_files target ;?
      variants <- target_schemas allowed_operations trusted_files targets' ;?
      Ok (variant :: variants)
  end.

Definition OPERATIONS_PATH : list string := ["properties"; "operations"; "items"; "oneOf"].
Definition LIMITS_PATH : list string := ["properties"; "limits"].

Definition edit_plan_output_schema_for_intent `{Blake3, IntentSerde} (expected : EditPlanExpectations)
    (trusted_files : list TrustedEditFile) (intent : ValidatedEditIntent) : res Value :=
  validate_generation_intent_binding expected intent ;?
  let constraints := i_constraints (vi_intent intent) in
  let allowed_operations := btree_set (k_allowed_operations constraints) in
  operation_variants <- target_schemas allowed_operations trusted_files (i_targets (vi_intent intent)) ;?
  match operation_variants with
  | [] => bail "validated edit intent exposes no generation operation"
  | _ =>
      Ok (set_path LIMITS_PATH (const (limits_value (k_limits constraints)))
            (set_path OPERATIONS_PATH (VArray operation_variants) (edit_plan_output_schema expected trusted_files)))
  end.
