(* ===== verification/ProcessRunner.v ===== *)
(** * The process runner (opticcode-tools: process_runner.rs), on Unix

    A child process with a time limit, a cancellation token and a bounded
    capture of its two output streams.  The reader thread of a stream is seen
    through [DrainStream]: the chunks it had read when the wait for its
    completion ended, and how it ended. *)

From stdpp Require Import base list strings.
From Stdlib Require Import NArith Ascii String Lia.
From S2P Require Import Prelude Bytes IO Anyhow.

Local Open Scope string_scope.
Local Open Scope N_scope.

(** Durations are nanoseconds. *)
Definition seconds (n : N) : N := n * 1000000000.
Definition DEFAULT_PROCESS_TIMEOUT_SECONDS : N := 10 * 60.
Definition DEFAULT_PROCESS_TIMEOUT : N := seconds DEFAULT_PROCESS_TIMEOUT_SECONDS.
Definition MAX_PROCESS_TIMEOUT_SECONDS : N := 60 * 60.
Definition MAX_PROCESS_TIMEOUT : N := seconds MAX_PROCESS_TIMEOUT_SECONDS.
Definition DEFAULT_PROCESS_OUTPUT_LIMIT_BYTES : N := 1024 * 1024.
Definition MAX_PROCESS_OUTPUT_LIMIT_BYTES : N := 16 * 1024 * 1024.
Definition PROCESS_POLL_INTERVAL : N := 20 * 1000000.
Definition OUTPUT_DRAIN_TIMEOUT : N := seconds 2.

Inductive ProcessLaunchMode := Direct | WindowsCommandScript.
#[export] Instance ProcessLaunchMode_eq_dec : EqDecision ProcessLaunchMode.
Proof. solve_decision. Defined.

Record ProcessRequest := {
  pq_program : string;
  pq_args : list string;
  pq_working_directory : string;
  pq_timeout : N;
  pq_output_limit_bytes : N;
  pq_launch_mode : ProcessLaunchMode;
  pq_environment : list (string * string);
}.

Definition ProcessRequest_new (program working_directory : string) : ProcessRequest := {|
  pq_program := program;
  pq_args := [];
  pq_working_directory := working_directory;
  pq_timeout := DEFAULT_PROCESS_TIMEOUT;
  pq_output_limit_bytes := DEFAULT_PROCESS_OUTPUT_LIMIT_BYTES;
  pq_launch_mode := Direct;
  pq_environment := [] |}.

Inductive ProcessStatus := Success | Failed | TimedOut | Cancelled.
#[export] Instance ProcessStatus_eq_dec : EqDecision ProcessStatus.
Proof. solve_decision. Defined.

Definition ProcessStatus_as_str (s : ProcessStatus) : string :=
  match s with
  | Success => "success"
  | Failed => "failed"
  | TimedOut => "timed_out"
  | Cancelled => "cancelled"
  end.

Inductive ProcessTreeStrategy := WindowsJobObject | DirectChild.

Definition ProcessTreeStrategy_as_str (s : ProcessTreeStrategy) : string :=
  match s with WindowsJobObject => "windows_job_object" | DirectChild => "direct_child" end.

Record ProcessTermination := {
  t_attempted : bool;
  t_succeeded : bool;
  t_strategy : ProcessTreeStrategy;
  t_error : option string;
}.

Record ProcessOutputStats := {
  os_limit_bytes_per_stream : N;
  os_stdout_bytes : N;
  os_stderr_bytes : N;
  os_stdout_retained_bytes : N;
  os_stderr_retained_bytes : N;
  os_stdout_truncated : bool;
  os_stderr_truncated : bool;
  os_output_truncated : bool;
  os_capture_errors : list string;
}.

Record ProcessResult := {
  pr_process_id : option N;
  pr_status : ProcessStatus;
  pr_exit_code : option N;
  pr_duration : N;
  pr_stdout : string;
  pr_stderr : string;
  pr_output : ProcessOutputStats;
  pr_termination : ProcessTermination;
}.

Definition success (r : ProcessResult) : bool := bool_decide (pr_status r = Success).
Definition timed_out (r : ProcessResult) : bool := bool_decide (pr_status r = TimedOut).
Definition cancelled (r : ProcessResult) : bool := bool_decide (pr_status r = Cancelled).

(** ** Cancellation: a token is the name of its shared flag *)

Definition cancel (token : string) : IO unit := sys (StoreFlag token).
Definition is_cancelled (token : string) : IO bool := sys (LoadFlag token).

(** [cancellation.is_some_and(CancellationToken::is_cancelled)] *)
Definition cancellation_requested (cancellation : option string) : IO bool :=
  match cancellation with Some token => is_cancelled token | None => Ret false end.

(** ** The request *)

(** The text of a floating-point number of seconds, [as_secs_f64] of a
    duration in nanoseconds. *)
Class SecondsDisplay := seconds_display : N -> string.

Definition validate_request `{SecondsDisplay} (request : ProcessRequest) : res unit :=
  if is_empty (pq_program request) then bail "process program cannot be empty" else
  if pq_timeout request =? 0 then bail "process timeout must be greater than zero" else
  if MAX_PROCESS_TIMEOUT <? pq_timeout request then
    bail ("process timeout " ++ seconds_display (pq_timeout request) ++ " seconds exceeds the maximum of "
          ++ dec MAX_PROCESS_TIMEOUT_SECONDS ++ " seconds") else
  if pq_output_limit_bytes request =? 0 then bail "process output limit must be greater than zero" else
  if MAX_PROCESS_OUTPUT_LIMIT_BYTES <? pq_output_limit_bytes request then
    bail ("process output limit " ++ dec (pq_output_limit_bytes request) ++ " exceeds the maximum of "
          ++ dec MAX_PROCESS_OUTPUT_LIMIT_BYTES ++ " bytes per stream") else
  Ok tt.

(** The program and the arguments that are launched. *)
Definition build_command (request : ProcessRequest) : string * list string :=
  (pq_program request, pq_args request).

(** [ExitStatus::success] and [ExitStatus::code] *)
Definition exit_success (status : exit_status) : bool := bool_decide (status = Some 0).

Definition status_from_exit (status : option exit_status) : ProcessStatus :=
  if is_some_and exit_success status then Success else Failed.

Definition empty_output_stats (limit : N) : ProcessOutputStats := {|
  os_limit_bytes_per_stream := limit;
  os_stdout_bytes := 0;
  os_stderr_bytes := 0;
  os_stdout_retained_bytes := 0;
  os_stderr_retained_bytes := 0;
  os_stdout_truncated := false;
  os_stderr_truncated := false;
  os_output_truncated := false;
  os_capture_errors := [] |}.

Definition platform_tree_strategy : ProcessTreeStrategy := DirectChild.

(** The guard of the process tree, which on Unix is the direct child. *)
Definition ProcessTree_assign (child : N) : result unit io_error := Ok tt.
Definition ProcessTree_terminate (child : N) : IO (io unit) := sys (KillChild child).

(** ** Capture *)

Record BoundedTail := { bt_bytes : string; bt_total_bytes : N; bt_limit : N }.

Definition BoundedTail_new (limit : N) : BoundedTail :=
  {| bt_bytes := ""; bt_total_bytes := 0; bt_limit := limit |}.

Definition push (tail : BoundedTail) (chunk : string) : BoundedTail :=
  let total := saturating_add64 (bt_total_bytes tail) (strlen chunk) in
  if bt_limit tail <=? strlen chunk then
    {| bt_bytes := drop_bytes (N.to_nat (strlen chunk - bt_limit tail)) chunk;
       bt_total_bytes := total; bt_limit := bt_limit tail |}
  else
    let overflow := saturating_add64 (strlen (bt_bytes tail)) (strlen chunk) - bt_limit tail in
    {| bt_bytes := (if 0 <? overflow then drop_bytes (N.to_nat overflow) (bt_bytes tail) else bt_bytes tail) ++ chunk;
       bt_total_bytes := total; bt_limit := bt_limit tail |}.

Record CaptureSnapshot := { cs_bytes : string; cs_total_bytes : N; cs_truncated : bool }.

Definition snapshot (tail : BoundedTail) : CaptureSnapshot := {|
  cs_bytes := bt_bytes tail;
  cs_total_bytes := bt_total_bytes tail;
  cs_truncated := strlen (bt_bytes tail) <? bt_total_bytes tail |}.

(** The tail after a reader has pushed the chunks it read. *)
Definition drain_reader (chunks : list string) (state : BoundedTail) : BoundedTail :=
  fold_left push chunks state.

Record FinishedCapture := { fc_snapshot : CaptureSnapshot; fc_error : option string }.

Definition capture_error (stream_name : string) (d : drain) : option string :=
  match dr_end d with
  | DrainTimedOut =>
      Some (stream_name ++ " capture did not close within " ++ dec (OUTPUT_DRAIN_TIMEOUT / 1000000) ++ " ms")
  | _ =>
      if dr_panicked d then Some (stream_name ++ " capture thread panicked") else
      match dr_end d with
      | DrainFailed error => Some (stream_name ++ " capture failed: " ++ io_error_display error)
      | DrainDisconnected => Some (stream_name ++ " capture thread disconnected")
      | _ => None
      end
  end.

(** [CaptureTask::start] and [CaptureTask::finish] of one stream. *)
Definition finish_capture (child : N) (stream_name : string) (limit : N) : IO FinishedCapture :=
  d <- sys (DrainStream child stream_name OUTPUT_DRAIN_TIMEOUT) ;;
  Ret {| fc_snapshot := snapshot (drain_reader (dr_chunks d) (BoundedTail_new limit));
         fc_error := capture_error stream_name d |}.

(** ** The run *)

(** The loop around [try_wait]: the exit status, or the reason to stop the
    child.  Every round but the last two sleeps a whole interval, so
    [poll_rounds] rounds reach the time limit. *)
Fixpoint poll_child (fuel : nat) (request : ProcessRequest) (cancellation : option string) (child started_at : N)
    : IO (res (option exit_status * option ProcessStatus)) :=
  match fuel with
  | O => Panic "out of fuel"
  | S fuel' =>
      polled <-? io_context ("failed to poll process " ++ dec child) (TryWait child) ;;
      match polled with
      | Some status => Ret (Ok (Some status, None))
      | None =>
          stop <- cancellation_requested cancellation ;;
          if stop : bool then Ret (Ok (None, Some Cancelled)) else
          now <- sys InstantNow ;;
          if pq_timeout request <=? now - started_at then Ret (Ok (None, Some TimedOut)) else
          now <- sys InstantNow ;;
          let remaining := pq_timeout request - (now - started_at) in
          sys (Sleep (N.min PROCESS_POLL_INTERVAL remaining)) ;;
          poll_child fuel' request cancellation child started_at
      end
  end.

Definition poll_rounds (request : ProcessRequest) : nat :=
  S (S (N.to_nat (pq_timeout request / PROCESS_POLL_INTERVAL))).

(** The child is attached to the guard of its tree: whether it is, and its
    status if it had already exited; a child that cannot be is killed. *)
Definition attach (child : N) : IO (res (bool * option exit_status)) :=
  match ProcessTree_assign child with
  | Ok _ => Ret (Ok (true, None))
  | Err assign_error =>
      polled <- sys (TryWait child) ;;
      match polled with
      | Ok (Some status) => Ret (Ok (false, Some status))
      | _ =>
          sys (KillChild child) ;;
          sys (WaitChild child) ;;
          Ret (bail ("failed to attach process " ++ dec child ++ " to its tree guard: "
                     ++ io_error_display assign_error))
      end
  end.

Definition strategy_of (tree_attached : bool) : ProcessTreeStrategy :=
  if tree_attached then platform_tree_strategy else DirectChild.

(** The child is stopped and waited for. *)
Definition stop_child (child : N) (tree_attached : bool) : IO (res (exit_status * ProcessTermination)) :=
  terminated <- ProcessTree_terminate child ;;
  error <- (match terminated with
            | Ok _ => Ret None
            | Err error =>
                fallback <- sys (KillChild child) ;;
                Ret (Some (match fallback with
                           | Ok _ => io_error_display error
                           | Err fallback_error =>
                               io_error_display error ++ "; direct-child fallback failed: "
                               ++ io_error_display fallback_error
                           end))
            end) ;;
  status <-? io_context ("failed to wait for terminated process " ++ dec child) (WaitChild child) ;;
  Ret (Ok (status, {| t_attempted := true; t_succeeded := is_ok terminated;
                      t_strategy := strategy_of tree_attached; t_error := error |})).

Definition not_terminated (strategy : ProcessTreeStrategy) : ProcessTermination :=
  {| t_attempted := false; t_succeeded := false; t_strategy := strategy; t_error := None |}.

Definition process_result (request : ProcessRequest) (child : N) (requested : option ProcessStatus)
    (final_exit : option exit_status) (out err : FinishedCapture) (duration : N) (termination : ProcessTermination)
    : ProcessResult :=
  let capture_errors := (option_list (fc_error out) ++ option_list (fc_error err))%list in
  let status := match requested with Some s => s | None => status_from_exit final_exit end in
  let status := if bool_decide (status = Success) && negb (bool_decide (capture_errors = [])) then Failed else status in
  {| pr_process_id := Some child;
     pr_status := status;
     pr_exit_code := match final_exit with Some code => code | None => None end;
     pr_duration := duration;
     pr_stdout := to_string_lossy (cs_bytes (fc_snapshot out));
     pr_stderr := to_string_lossy (cs_bytes (fc_snapshot err));
     pr_output := {|
       os_limit_bytes_per_stream := pq_output_limit_bytes request;
       os_stdout_bytes := cs_total_bytes (fc_snapshot out);
       os_stderr_bytes := cs_total_bytes (fc_snapshot err);
       os_stdout_retained_bytes := strlen (cs_bytes (fc_snapshot out));
       os_stderr_retained_bytes := strlen (cs_bytes (fc_snapshot err));
       os_stdout_truncated := cs_truncated (fc_snapshot out);
       os_stderr_truncated := cs_truncated (fc_snapshot err);
       os_output_truncated := cs_truncated (fc_snapshot out) || cs_truncated (fc_snapshot err);
       os_capture_errors := capture_errors |};
     pr_termination := termination |}.

Definition cancelled_before_start (request : ProcessRequest) (duration : N) : ProcessResult := {|
  pr_process_id := None;
  pr_status := Cancelled;
  pr_exit_code := None;
  pr_duration := duration;
  pr_stdout := "";
  pr_stderr := "";
  pr_output := empty_output_stats (pq_output_limit_bytes request);
  pr_termination := not_terminated platform_tree_strategy |}.

(** What follows the launch. *)
Definition supervise (request : ProcessRequest) (cancellation : option string) (child started_at : N)
    : IO (res ProcessResult) :=
  let!? (tree_attached, initial_exit) := attach child in
  let!? (exit_status, requested) :=
    (match initial_exit with
     | Some status => Ret (Ok (Some status, None))
     | None => poll_child (poll_rounds request) request cancellation child started_at
     end) in
  let!? (final_exit, termination) :=
    (match requested with
     | Some _ => let!? (status, t) := stop_child child tree_attached in Ret (Ok (Some status, t))
     | None => Ret (Ok (exit_status, not_terminated (strategy_of tree_attached)))
     end) in
  out <- finish_capture child "stdout" (pq_output_limit_bytes request) ;;
  err <- finish_capture child "stderr" (pq_output_limit_bytes request) ;;
  now <- sys InstantNow ;;
  Ret (Ok (process_result request child requested final_exit out err (now - started_at) termination)).

Definition run_process_with_cancellation `{SecondsDisplay} (request : ProcessRequest) (cancellation : option string)
    : IO (res ProcessResult) :=
  Ret (validate_request request) ;;?
  started_at <- sys InstantNow ;;
  stop <- cancellation_requested cancellation ;;
  if stop : bool then now <- sys InstantNow ;; Ret (Ok (cancelled_before_start request (now - started_at))) else
  let '(program, args) := build_command request in
  child <-? io_context ("failed to start process `" ++ display (pq_program request) ++ "` in "
                        ++ display (pq_working_directory request))
              (Spawn program args (pq_working_directory request) (pq_environment request)) ;;
  supervise request cancellation child started_at.

Definition run_process `{SecondsDisplay} (request : ProcessRequest) : IO (res ProcessResult) :=
  run_process_with_cancellation request None.
