(* ===== verification/GitState.v ===== *)
(** * Git worktree snapshots ([opticcode-tools/src/git_state.rs])

    The parser of [git status --porcelain=v1 -z], the snapshot of a worktree
    with the fingerprints of its changed files, the comparison of two
    snapshots and the strict build guard.  Git itself is a third-party
    program: its runs are [RunCommand] calls. *)

From stdpp Require Import base list strings.
From Stdlib Require Import NArith Ascii String.
From S2P Require Import Prelude Bytes UnixPath IO Anyhow Paths.

Local Open Scope string_scope.
Local Open Scope N_scope.

Definition GIT_STATUS_ARGS : list string :=
  ["-c"; "core.quotepath=false"; "-c"; "status.relativePaths=false"; "status"; "--porcelain=v1"; "-z";
   "--untracked-files=all"].

(** ** Data *)

Inductive GitChangeKind :=
| Modified | Added | Deleted | Renamed | Copied | Untracked | TypeChanged | Unmerged | Ignored | Unknown.
#[export] Instance GitChangeKind_eq_dec : EqDecision GitChangeKind.
Proof. solve_decision. Defined.

Record GitChange := {
  index_status : ascii;
  worktree_status : ascii;
  change_kind : GitChangeKind;
  change_path : string;
  original_path : option string;
  content_fingerprint : option string;
}.
#[export] Instance GitChange_eq_dec : EqDecision GitChange.
Proof. solve_decision. Defined.

Record GitSnapshotMetrics := {
  duration_us : N;
  status_entries : N;
  fingerprinted_files : N;
  fingerprinted_bytes : N;
}.

Record GitStateSnapshot := {
  snapshot_schema_version : N;
  snapshot_root : string;
  snapshot_changes : list GitChange;
  snapshot_metrics : GitSnapshotMetrics;
}.

Inductive GitChangeOrigin := PreExisting | BuildGenerated | TrackedChanged | UntrackedGenerated | UnknownOrigin.
#[export] Instance GitChangeOrigin_eq_dec : EqDecision GitChangeOrigin.
Proof. solve_decision. Defined.

Record ClassifiedGitChange := {
  cg_change : GitChange;
  cg_before : option GitChange;
  cg_origin : GitChangeOrigin;
  existed_before : bool;
  changed_during_build : bool;
  tracked_was_clean_before : bool;
}.

Record GitStateDiffCounts := {
  n_before : N;
  n_after : N;
  n_pre_existing : N;
  n_build_generated : N;
  n_tracked_changed : N;
  n_untracked_generated : N;
  n_unknown : N;
  n_changed_during_build : N;
  n_resolved_pre_existing : N;
  n_strict_candidates : N;
}.

Record GitStateDiff := {
  changes_after : list ClassifiedGitChange;
  resolved_pre_existing : list GitChange;
  diff_counts : GitStateDiffCounts;
}.

Inductive GitGuardStatus := Captured | Unavailable.

Record GitStrictPolicy := { strict_enabled : bool; strict_passed : bool; policy_reasons : list string }.

Record BuildGitReport := {
  report_schema_version : N;
  report_status : GitGuardStatus;
  report_message : option string;
  report_before : option GitStateSnapshot;
  report_after : option GitStateSnapshot;
  report_diff : option GitStateDiff;
  strict_policy : GitStrictPolicy;
}.

Definition GitChangeKind_as_str (k : GitChangeKind) : string :=
  match k with
  | Modified => "modified" | Added => "added" | Deleted => "deleted" | Renamed => "renamed"
  | Copied => "copied" | Untracked => "untracked" | TypeChanged => "type_changed"
  | Unmerged => "unmerged" | Ignored => "ignored" | Unknown => "unknown"
  end.

Definition GitChangeOrigin_as_str (o : GitChangeOrigin) : string :=
  match o with
  | PreExisting => "pre_existing" | BuildGenerated => "build_generated"
  | TrackedChanged => "tracked_changed" | UntrackedGenerated => "untracked_generated"
  | UnknownOrigin => "unknown"
  end.

Definition is_tracked (c : GitChange) : bool :=
  match change_kind c with Untracked | Ignored => false | _ => true end.

Definition display_path (c : GitChange) : string :=
  match original_path c with
  | None => change_path c
  | Some original => original ++ " -> " ++ change_path c
  end.

(** ** The porcelain parser *)

(** The position of the first NUL byte. *)
Fixpoint find_nul (s : string) : option nat :=
  match s with
  | EmptyString => None
  | String c s' => if byte_n c =? 0 then Some O else option_map S (find_nul s')
  end.

(** The field at the cursor, and the cursor after its NUL. *)
Definition read_nul_field (input : string) (cursor : nat) (label : string) : res (string * nat) :=
  let remaining := drop_bytes cursor input in
  match find_nul remaining with
  | None => bail ("truncated porcelain v1 output: missing NUL after " ++ label)
  | Some length => Ok (take_bytes length remaining, cursor + length + 1)%nat
  end.

Definition decode_path (bytes label : string) : res string :=
  if is_empty bytes then bail ("invalid porcelain v1 output: empty " ++ label)
  else from_utf8 (label ++ " is not valid UTF-8") bytes.

Definition is_unmerged (index worktree : ascii) : bool :=
  existsb (fun p => Ascii.eqb index (fst p) && Ascii.eqb worktree (snd p))
    [("D", "D"); ("A", "U"); ("U", "D"); ("U", "A"); ("D", "U"); ("A", "A"); ("U", "U")]%char.

Definition classify_kind (index worktree : ascii) : GitChangeKind :=
  let pair_is c := Ascii.eqb index c && Ascii.eqb worktree c in
  let contains c := Ascii.eqb index c || Ascii.eqb worktree c in
  if pair_is "?"%char then Untracked
  else if pair_is "!"%char then Ignored
  else if is_unmerged index worktree then Unmerged
  else if contains "R"%char then Renamed
  else if contains "C"%char then Copied
  else if contains "D"%char then Deleted
  else if contains "A"%char then Added
  else if contains "T"%char then TypeChanged
  else if contains "M"%char then Modified
  else Unknown.

Definition is_ascii (c : ascii) : bool := byte_n c <? 128.

Definition renamed_or_copied (k : GitChangeKind) : bool :=
  match k with Renamed | Copied => true | _ => false end.

(** One entry, from the cursor: the change, and the cursor after it. *)
Definition parse_entry (input : string) (cursor : nat) : res (GitChange * nat) :=
  let? (record, cursor) := read_nul_field input cursor "status entry" in
  match record with
  | String x (String y (String sp ((String _ _) as rest))) =>
      if negb (Ascii.eqb sp " "%char) then
        bail "invalid porcelain v1 entry: missing separator after XY status"
      else if negb (is_ascii x) || negb (is_ascii y) then
        bail "invalid porcelain v1 entry: status bytes must be ASCII"
      else
        path <- decode_path rest "path" ;?
        let kind := classify_kind x y in
        let? (original, cursor) :=
          if renamed_or_copied kind then
            let? (field, cursor) := read_nul_field input cursor "rename/copy source path" in
            original <- decode_path field "rename/copy source path" ;?
            Ok (Some original, cursor)
          else Ok (None, cursor) in
        Ok ({| index_status := x; worktree_status := y; change_kind := kind; change_path := path;
               original_path := original; content_fingerprint := None |}, cursor)
  | _ => bail "invalid porcelain v1 entry: expected XY, space, and path"
  end.

(** [while cursor < input.len()]: one unit of fuel per iteration; [None] is
    an exhausted fuel. *)
Fixpoint parse_loop (fuel : nat) (input : string) (cursor : nat) (changes : list GitChange) :
    option (res (list GitChange)) :=
  if (cursor <? String.length input)%nat then
    match fuel with
    | O => None
    | S f =>
        match parse_entry input cursor with
        | Err e => Some (Err e)
        | Ok (change, cursor') => parse_loop f input cursor' (changes ++ [change])
        end
    end
  else Some (Ok changes).

(** Every entry takes at least a byte, so one unit per byte is enough. *)
Definition parse_porcelain_v1_z (input : string) : res (list GitChange) :=
  default (bail "out of fuel") (parse_loop (String.length input) input 0 []).

(** ** Capturing a snapshot *)

(** [text.trim_end_matches(['\r', '\n'])] *)
Definition trim_end_newlines (s : string) : string :=
  string_of_list_ascii
    (rev (drop_while (fun c => (byte_n c =? 13) || (byte_n c =? 10)) (rev (list_ascii_of_string s)))).

Definition discover_git_root (path : string) : IO (res string) :=
  output <-? io_context ("failed to discover Git root from " ++ display path)
    (RunCommand "git" ["rev-parse"; "--show-toplevel"] path) ;;
  if negb (out_success output) then
    Ret (bail ("not a Git worktree from " ++ display path ++ ": " ++ trim (to_string_lossy (out_stderr output))))
  else
    stdout <-? lift (from_utf8 "Git root is not valid UTF-8" (out_stdout output)) ;;
    let root := trim_end_newlines stdout in
    if is_empty root then Ret (bail "Git returned an empty worktree root")
    else io_context ("failed to resolve Git root: " ++ root) (Canonicalize root).

Definition run_git_status (root : string) : IO (res string) :=
  output <-? io_context ("failed to capture Git status in " ++ display root)
    (RunCommand "git" GIT_STATUS_ARGS root) ;;
  if negb (out_success output) then
    Ret (bail ("git status failed in " ++ display root ++ ": " ++ trim (to_string_lossy (out_stderr output))))
  else Ret (Ok (out_stdout output)).

(** [duration.as_micros().min(u64::MAX)] of the time since [started]. *)
Definition elapsed_us (started now : N) : N := N.min u64_max ((now - started) / 1000).

Definition set_fingerprint (value : string) (c : GitChange) : GitChange := {|
  index_status := index_status c; worktree_status := worktree_status c; change_kind := change_kind c;
  change_path := change_path c; original_path := original_path c; content_fingerprint := Some value |}.

(** [left.path.cmp(&right.path).then_with(|| left.original_path.cmp(..))] *)
Definition opt_str_cmp (a b : option string) : comparison :=
  match a, b with
  | None, None => Eq
  | None, Some _ => Lt
  | Some _, None => Gt
  | Some x, Some y => str_cmp x y
  end.
Definition change_cmp (a b : GitChange) : comparison :=
  then_with (str_cmp (change_path a) (change_path b)) (opt_str_cmp (original_path a) (original_path b)).

Section Capture.
Context `{Blake3}.

(** The text of a fingerprint and the bytes read; the read loop up to the
    end of the file is one [ReadHandle]. *)
Definition fingerprint_worktree_path (root relative : string) : IO (option (string * N)) :=
  opened <- sys (OpenRead (join root relative)) ;;
  match opened with
  | Err _ => Ret None
  | Ok handle =>
      bytes <- sys (ReadHandle handle) ;;
      match bytes with
      | Err _ => Ret None
      | Ok bytes =>
          let length := strlen bytes in
          Ret (Some ("blake3:" ++ dec length ++ ":" ++ blake3_hex bytes, length))
      end
  end.

Fixpoint fingerprint_changes (root : string) (changes : list GitChange) (files bytes : N) :
    IO (list GitChange * N * N) :=
  match changes with
  | [] => Ret ([], files, bytes)
  | change :: rest =>
      fingerprint <- fingerprint_worktree_path root (change_path change) ;;
      let! (rest', files', bytes') :=
        match fingerprint with
        | Some (_, read) => fingerprint_changes root rest (files + 1) (saturating_add64 bytes read)
        | None => fingerprint_changes root rest files bytes
        end in
      Ret (match fingerprint with Some (value, _) => set_fingerprint value change | None => change end :: rest',
           files', bytes')
  end.

Definition capture_git_state (path : string) : IO (res GitStateSnapshot) :=
  started_at <- sys InstantNow ;;
  root <-? discover_git_root path ;;
  output <-? run_git_status root ;;
  changes <-? lift (parse_porcelain_v1_z output) ;;
  let! (changes, files, bytes) := fingerprint_changes root changes 0 0 in
  let changes := sort_by change_cmp changes in
  now <- sys InstantNow ;;
  Ret (Ok {|
    snapshot_schema_version := 1;
    snapshot_root := root;
    snapshot_changes := changes;
    snapshot_metrics := {|
      duration_us := elapsed_us started_at now;
      status_entries := N.of_nat (List.length changes);
      fingerprinted_files := files;
      fingerprinted_bytes := bytes |} |}).
End Capture.

(** ** Comparing two snapshots *)

(** Both spellings of a path are compared with forward slashes; on Unix the
    case counts. *)
Definition normalize_comparison_path (path : string) : string := replace_backslash path.

Definition affected_paths (c : GitChange) : list string :=
  btree_set (normalize_comparison_path (change_path c) ::
    match original_path c with Some p => [normalize_comparison_path p] | None => [] end).

Definition changes_overlap (left right : GitChange) : bool :=
  existsb (fun p => existsb (String.eqb p) (affected_paths right)) (affected_paths left).

(** The file names and directory names builds are expected to write. *)
Definition GENERATED_FILES : list string :=
  ["dependency-reduced-pom.xml"; ".flattened-pom.xml"; "pom.xml.versionsbackup"; "pom.xml.releasebackup";
   "release.properties"; "buildnumber.properties"].
Definition GENERATED_DIRECTORIES : list string :=
  ["target"; "build"; "out"; ".gradle"; "generated-sources"; "generated-test-sources"; "surefire-reports";
   "test-results"; "reports"].

Definition is_expected_build_generated_path (path : string) : bool :=
  let normalized := to_ascii_lowercase (replace_backslash path) in
  let components := split_on slash normalized in
  existsb (String.eqb (List.last components normalized)) GENERATED_FILES ||
  existsb (fun c => existsb (String.eqb c) GENERATED_DIRECTORIES) components.

Definition classify_origin (change : GitChange) (existed changed : bool) : GitChangeOrigin :=
  if existed && negb changed then PreExisting else
  match change_kind change with
  | Unknown | Unmerged => UnknownOrigin
  | Untracked => UntrackedGenerated
  | _ =>
      if is_expected_build_generated_path (change_path change) then BuildGenerated
      else if is_tracked change then TrackedChanged
      else UnknownOrigin
  end.

Definition strict_candidate (c : ClassifiedGitChange) : bool :=
  changed_during_build c && is_tracked (cg_change c).

(** [iter().enumerate().find(..)]: the first change not matched yet that
    shares a path. *)
Fixpoint find_match (index : nat) (before : list GitChange) (matched : list nat) (after : GitChange) :
    option (nat * GitChange) :=
  match before with
  | [] => None
  | b :: rest =>
      if negb (bool_decide (index ∈ matched)) && changes_overlap b after then Some (index, b)
      else find_match (S index) rest matched after
  end.

Definition classify (previous : option GitChange) (after : GitChange) : ClassifiedGitChange :=
  let existed := is_some previous in
  let changed := negb (is_some_and (fun b => bool_decide (b = after)) previous) in
  {| cg_change := after;
     cg_before := previous;
     cg_origin := classify_origin after existed changed;
     existed_before := existed;
     changed_during_build := changed;
     tracked_was_clean_before := negb existed && is_tracked after |}.

(** The loop over the changes after the build, with [matched_before]. *)
Fixpoint match_changes (before : list GitChange) (matched : list nat) (after : list GitChange) :
    list ClassifiedGitChange * list nat :=
  match after with
  | [] => ([], matched)
  | a :: rest =>
      let found := find_match 0 before matched a in
      let matched' := match found with Some (i, _) => i :: matched | None => matched end in
      let '(classified, final) := match_changes before matched' rest in
      (classify (option_map snd found) a :: classified, final)
  end.

Fixpoint unmatched (index : nat) (before : list GitChange) (matched : list nat) : list GitChange :=
  match before with
  | [] => []
  | b :: rest =>
      if bool_decide (index ∈ matched) then unmatched (S index) rest matched
      else b :: unmatched (S index) rest matched
  end.

Definition count_if {A} (f : A -> bool) (l : list A) : N := N.of_nat (List.length (List.filter f l)).
Definition has_origin (o : GitChangeOrigin) (c : ClassifiedGitChange) : bool :=
  bool_decide (cg_origin c = o).

Definition count_diff (before after : GitStateSnapshot) (changes : list ClassifiedGitChange)
    (resolved : list GitChange) : GitStateDiffCounts := {|
  n_before := N.of_nat (List.length (snapshot_changes before));
  n_after := N.of_nat (List.length (snapshot_changes after));
  n_pre_existing := count_if (has_origin PreExisting) changes;
  n_build_generated := count_if (has_origin BuildGenerated) changes;
  n_tracked_changed := count_if (has_origin TrackedChanged) changes;
  n_untracked_generated := count_if (has_origin UntrackedGenerated) changes;
  n_unknown := count_if (has_origin UnknownOrigin) changes;
  n_changed_during_build :=
    saturating_add64 (count_if changed_during_build changes) (N.of_nat (List.length resolved));
  n_resolved_pre_existing := N.of_nat (List.length resolved);
  n_strict_candidates := saturating_add64 (count_if strict_candidate changes) (count_if is_tracked resolved);
|}.

Definition compare_git_states (before after : GitStateSnapshot) : res GitStateDiff :=
  if negb (path_eqb (snapshot_root before) (snapshot_root after)) then
    bail ("Git root changed during build: " ++ display (snapshot_root before) ++ " -> " ++
          display (snapshot_root after))
  else
    let '(classified, matched) := match_changes (snapshot_changes before) [] (snapshot_changes after) in
    let resolved := unmatched 0 (snapshot_changes before) matched in
    Ok {| changes_after := classified;
          resolved_pre_existing := resolved;
          diff_counts := count_diff before after classified resolved |}.

(** ** The build guard *)

Definition candidate_reason (c : ClassifiedGitChange) : string :=
  (if tracked_was_clean_before c then "tracked file was clean before build and changed: "
   else "tracked file changed again during build: ") ++
  GitChangeKind_as_str (change_kind (cg_change c)) ++ " " ++ display_path (cg_change c) ++
  " (origin=" ++ GitChangeOrigin_as_str (cg_origin c) ++ ")".

Definition resolved_reason (c : GitChange) : string :=
  "tracked pre-existing change was removed or restored during build: " ++
  GitChangeKind_as_str (change_kind c) ++ " " ++ display_path c.

Definition strict_reasons (diff : GitStateDiff) : list string :=
  (map candidate_reason (List.filter strict_candidate (changes_after diff)) ++
   map resolved_reason (List.filter is_tracked (resolved_pre_existing diff)))%list.

Definition policy_of (strict : bool) (reasons : list string) : GitStrictPolicy := {|
  strict_enabled := strict;
  strict_passed := match reasons with [] => true | _ => false end;
  policy_reasons := reasons |}.

Definition from_snapshots (before after : GitStateSnapshot) (strict : bool) : res BuildGitReport :=
  diff <- compare_git_states before after ;?
  Ok {| report_schema_version := 1;
        report_status := Captured;
        report_message := None;
        report_before := Some before;
        report_after := Some after;
        report_diff := Some diff;
        strict_policy := policy_of strict (if strict then strict_reasons diff else []) |}.

Definition unavailable (message : string) (strict : bool) : BuildGitReport := {|
  report_schema_version := 1;
  report_status := Unavailable;
  report_message := Some message;
  report_before := None;
  report_after := None;
  report_diff := None;
  strict_policy := policy_of strict
    (if strict then ["strict Git guard could not verify the worktree: " ++ message] else []) |}.

Definition capture_message (label : string) (r : res GitStateSnapshot) : list string :=
  match r with Ok _ => [] | Err e => [label ++ alternate e] end.

Definition from_capture_results (before after : res GitStateSnapshot) (strict : bool) : BuildGitReport :=
  match before, after with
  | Ok before, Ok after =>
      match from_snapshots before after strict with
      | Ok report => report
      | Err e => unavailable (to_string e) strict
      end
  | _, _ =>
      unavailable (join_with "; "
        (capture_message "before build: " before ++ capture_message "after build: " after)) strict
  end.

Definition strict_violation (r : BuildGitReport) : bool :=
  strict_enabled (strict_policy r) && negb (strict_passed (strict_policy r)).
