(* ===== verification/ChatReferences.v ===== *)
(** * The references and the history of a chat (opticcode-core: chat_runtime.rs)

    From the attachments of a request to what the prompt shows of them: the
    UTF-16 positions of the editor become byte positions, the file is read
    twice through the safe reader, and the old turns are kept within their
    budgets.  The inspection of the workspace, of which the prompt shows a
    summary (opticcode-tools: lib.rs), is here as well. *)

From stdpp Require Import base list strings.
From Stdlib Require Import NArith ZArith Ascii String Lia.
From S2P Require Import Prelude Bytes GitState Text UnixPath IO Anyhow Paths Secrets RagPolicy Reference.
From S2P Require Import Grounding DocumentFacts Compliance ChatProtocol ChatValidation.

Local Open Scope string_scope.
Local Open Scope N_scope.

Definition unresolved {A} (code message : string) : run A := fail code "reference_resolution" message.
Definition invalid_range {A} (message : string) : run A := unresolved "reference.invalid_range" message.

(** ** Positions *)

Definition find_feed (s : string) : option nat := find_byte (Ascii.eqb line_feed) s.

(** The start of the line [n] lines below the one at [start]. *)
Fixpoint line_start_from (n : nat) (content : string) (start : nat) : run nat :=
  match n with
  | O => Ok start
  | S n' =>
      match find_feed (drop_bytes start content) with
      | Some relative => line_start_from n' content (start + relative + 1)
      | None => invalid_range "range line is outside the referenced file"
      end
  end.

(** The byte of a UTF-16 column, from byte [at_byte] at column [utf16]. *)
Fixpoint column_from (target utf16 : N) (at_byte end_byte : nat) (cs : list string) : run nat :=
  match cs with
  | [] => if utf16 =? target then Ok end_byte else invalid_range "range column is outside the referenced line"
  | c :: cs' =>
      if utf16 =? target then Ok at_byte else
      let utf16 := utf16 + len_utf16 c in
      if target <? utf16 then invalid_range "UTF-16 column splits a surrogate pair"
      else column_from target utf16 (at_byte + String.length c) end_byte cs'
  end.

(** A line's text ends before its line feed, and before a carriage return there. *)
Definition line_text (content : string) (line_start : nat) : string :=
  let rest := drop_bytes line_start content in
  drop_return match find_feed rest with Some offset => take_bytes offset rest | None => rest end.

Definition position_to_byte (content : string) (position : ChatTextPosition) : run nat :=
  line_start <- line_start_from (N.to_nat (ps_line position)) content 0 ;?
  let line := line_text content line_start in
  column_from (ps_character position) 0 line_start (line_start + String.length line) (chars line).

(** ** Ranges *)

Definition feeds_before (content : string) (end_ : N) : IO N :=
  prefix <- slice_until content end_ ;; Ret (as_u32 (count_byte line_feed prefix)).

Definition manifest_range_from_bytes (content : string) (start_byte end_byte : N) : IO ContextManifestRange :=
  before <- feeds_before content (N.min start_byte (strlen content)) ;;
  let start_line := 1 + before in
  let end_anchor := N.min (end_byte - 1) (strlen content) in
  end_line <- (if end_byte =? 0 then Ret start_line else before <- feeds_before content end_anchor ;; Ret (1 + before)) ;;
  Ret {| start_line := start_line; end_line := N.max end_line start_line; start_byte := start_byte; end_byte := end_byte |}.

Definition extract_utf16_range_snapshot (content : string) (range : ChatTextRange) : IO (run (string * ContextManifestRange)) :=
  start <-? lift (position_to_byte content (tr_start range)) ;;
  end_ <-? lift (position_to_byte content (tr_end range)) ;;
  if (end_ <? start)%nat then Ret (invalid_range "range start is after range end") else
  text <- slice content (N.of_nat start) (N.of_nat end_) ;;
  r <- manifest_range_from_bytes content (N.of_nat start) (N.of_nat end_) ;;
  Ret (Ok (text, r)).

(** [s.rfind('\n')] *)
Definition rfind_feed (s : string) : option nat :=
  match rsplit_once line_feed s with Some (before, _) => Some (String.length before) | None => None end.

Definition extract_symbol_context (content symbol : string) : run string :=
  match find_str symbol content with
  | None => unresolved "reference.symbol_not_found" "symbol was not found in its referenced file snapshot"
  | Some offset =>
      let offset := N.to_nat offset in
      let line_start := match rfind_feed (take_bytes offset content) with Some value => S value | None => O end in
      let line_end := match find_feed (drop_bytes offset content) with
                      | Some value => (offset + value)%nat
                      | None => String.length content
                      end in
      Ok (take_bytes (line_end - line_start) (drop_bytes line_start content))
  end.

(** [content.matches("\r\n").count()] *)
Fixpoint count_crlf (s : string) : N :=
  match s with
  | String a (String b _ as s') => (if Ascii.eqb a carriage_return && Ascii.eqb b line_feed then 1 else 0) + count_crlf s'
  | _ => 0
  end.

Definition detect_line_ending (content : string) : string :=
  let crlf := count_crlf content in
  let lf := count_byte line_feed content in
  if crlf =? 0 then (if lf - crlf =? 0 then "none" else "lf")
  else if lf - crlf =? 0 then "crlf" else "mixed".

(** ** References *)

Record ReferenceMaterial := {
  rm_summary : ChatResolvedReference;
  rm_prompt_content : string;
  rm_snapshot : option ReferenceSnapshot;
}.

Definition metadata_reference (reference : ChatReference) (prompt_content : string) : ReferenceMaterial := {|
  rm_summary := {|
    rr_reference_id := rf_reference_id reference;
    rr_kind := target_kind (rf_target reference);
    rr_path := None;
    rr_range := None;
    rr_inclusion_reason := bounded_text (rf_inclusion_reason reference) MAX_REFERENCE_REASON_CHARS;
    rr_provenance := "user_reference";
    rr_bytes := 0;
    rr_content_hash := None;
    rr_origin := "user_attachment";
    rr_resolution := "resolved";
    rr_security_decision := "allow";
    rr_injection := "identity_only";
    rr_bytes_injected := 0;
    rr_reason := "metadata_identity_only";
    rr_full_content_hash := None |};
  rm_prompt_content := prompt_content;
  rm_snapshot := None |}.

Definition rejected_reference (reference : ChatReference) (rule_id reason : string) : ChatRejectedReference := {|
  rj_reference_id := rf_reference_id reference;
  rj_kind := target_kind (rf_target reference);
  rj_rule_id := bounded_text rule_id 128;
  rj_reason := bounded_text reason (2 * 1024);
  rj_path := target_path (rf_target reference);
  rj_origin := "user_attachment";
  rj_injection := "refused";
  rj_reason_code := bounded_text rule_id 128 |}.

Definition render_material (item : ReferenceMaterial) : string :=
  "reference_id: " ++ rr_reference_id (rm_summary item) ++ eol
  ++ "kind: " ++ rr_kind (rm_summary item) ++ eol
  ++ "path: " ++ default "metadata-only" (rr_path (rm_summary item)) ++ eol
  ++ "reason: " ++ rr_inclusion_reason (rm_summary item) ++ eol
  ++ "content:" ++ eol ++ rm_prompt_content item.
Definition render_reference_material (material : list ReferenceMaterial) : string :=
  match material with [] => "none" | _ => join_with (eol ++ eol) (map render_material material) end.

Section References.
Context `{Blake3, Regex}.

Definition safe_read (stage workspace path : string) : IO (run SafeWorkspaceFile) :=
  io_map_err (fun e => new_failure (ref_rule_id e) stage (ref_message e))
    (read_safe_workspace_file workspace path MAX_SAFE_REFERENCE_FILE_BYTES).

Definition reference_git_state (workspace path : string) : IO string :=
  let normalized := replace_backslash path in
  state <- capture_git_state workspace ;;
  Ret match state with
      | Err _ => "clean_or_untracked"
      | Ok state =>
          match find (fun change => (replace_backslash (change_path change) =? normalized)%string) (snapshot_changes state) with
          | Some change => "changed:" ++ String (index_status change) (String (worktree_status change) "")
          | None => "clean_or_untracked"
          end
      end.

(** The part of a file that a target names, with its place in the file. *)
Definition target_content (target : ChatReferenceTarget) (content : string) : IO (run (string * ContextManifestRange)) :=
  let whole := r <- manifest_range_from_bytes content 0 (strlen content) ;; Ret (Ok (content, r)) in
  match target with
  | RangeTarget _ range | SelectionTarget _ range => extract_utf16_range_snapshot content range
  | SymbolTarget _ symbol range =>
      if is_empty symbol || (MAX_SYMBOL_CHARS <? char_count symbol)
      then Ret (unresolved "reference.invalid_symbol" "symbol identity is empty or too long") else
      match range with
      | Some range => extract_utf16_range_snapshot content range
      | None =>
          extracted <-? lift (extract_symbol_context content symbol) ;;
          match find_str extracted content with
          | None => Ret (unresolved "reference.symbol_location" "materialized symbol could not be located in its source snapshot")
          | Some start =>
              let end_ := saturating_add64 start (strlen extracted) in
              r <- manifest_range_from_bytes content start end_ ;;
              Ret (Ok (extracted, r))
          end
      end
  | FindingTarget _ _ (Some range) => extract_utf16_range_snapshot content range
  | _ => whole
  end.

(** A target that names a file. *)
Definition resolve_file (workspace workspace_id : string) (reference : ChatReference) (path : string)
    : IO (run ReferenceMaterial) :=
  let target := rf_target reference in
  file <-? safe_read "reference_resolution" workspace path ;;
  let full_hash := blake3_hex (sf_content file) in
  let!? (content, range) := target_content target (sf_content file) in
  if MAX_SAFE_REFERENCE_FILE_BYTES <? strlen content
  then Ret (unresolved "size.reference_material" "materialized reference exceeds the hard byte limit") else
  let injected_hash := blake3_hex content in
  stable <-? safe_read "reference_revalidation" workspace path ;;
  if negb (blake3_hex (sf_content stable) =? full_hash)%string
  then Ret (fail "reference_changed_during_read" "reference_revalidation"
              "reference changed while its authoritative snapshot was being prepared") else
  git_state <- reference_git_state workspace path ;;
  Ret (Ok {|
    rm_summary := {|
      rr_reference_id := rf_reference_id reference;
      rr_kind := target_kind target;
      rr_path := Some (sf_relative_path file);
      rr_range := target_range target;
      rr_inclusion_reason := bounded_text (rf_inclusion_reason reference) MAX_REFERENCE_REASON_CHARS;
      rr_provenance := "user_reference";
      rr_bytes := strlen content;
      rr_content_hash := Some injected_hash;
      rr_origin := "user_attachment";
      rr_resolution := "resolved";
      rr_security_decision := "allow";
      rr_injection := "accepted";
      rr_bytes_injected := 0;
      rr_reason := "explicit_user_reference";
      rr_full_content_hash := Some full_hash |};
    rm_prompt_content := content;
    rm_snapshot := Some {|
      sn_reference_id := rf_reference_id reference;
      sn_path := sf_relative_path file;
      sn_origin := "user_attachment";
      sn_file_hash := full_hash;
      sn_injected_hash := injected_hash;
      sn_file_size := strlen (sf_content file);
      sn_encoding := "utf-8";
      sn_line_ending := detect_line_ending (sf_content file);
      sn_range := range;
      sn_content := content;
      sn_reason := "explicit_user_reference";
      sn_git_state := git_state;
      sn_workspace_id := workspace_id |} |}).

Definition resolve_reference (workspace workspace_id : string) (reference : ChatReference) : IO (run ReferenceMaterial) :=
  match rf_target reference with
  | RunTarget run_id =>
      lift (validate_identifier "run_id" run_id MAX_ID_BYTES) ;;?
      Ret (Ok (metadata_reference reference
        ("Previous run `" ++ run_id ++ "` (summary only; report content was not reinjected).")))
  | DiffTarget proposal_id =>
      lift (validate_identifier "proposal_id" proposal_id MAX_ID_BYTES) ;;?
      Ret (Ok (metadata_reference reference
        ("Previous proposal `" ++ proposal_id ++ "` (identity only; large diff content was not reinjected).")))
  | target =>
      match target_path target with
      | None => Ret (unresolved "reference.metadata_unavailable" "reference does not identify a readable workspace file")
      | Some path => resolve_file workspace workspace_id reference path
      end
  end.
End References.

(** ** History *)

Definition looks_like_large_diff_or_report (content : string) : bool :=
  (4 * 1024 <? strlen content)
  && contains_any ["diff --git"; "@@ -"; dquote_s ++ "context_files" ++ dquote_s; "# Full Report"] content.

(** What was kept so far, newest turn first, and the budgets used. *)
Record History := {
  hy_selected : list string;
  hy_chars : N;
  hy_tokens : N;
  hy_warnings : list string;
}.

Definition warn (message : string) (h : History) : History := {|
  hy_selected := hy_selected h; hy_chars := hy_chars h; hy_tokens := hy_tokens h; hy_warnings := (hy_warnings h ++ [message])%list |}.

Section Histories.
Context `{Floats, Regex}.

(** A turn of another workspace, without grounding, or of a wider scope. *)
Definition incompatible_turn (request : ChatRequest) (effective_scope : ChatContextScope) (turn : ChatHistoryTurn) : bool :=
  let other_workspace w := negb (w =? cq_workspace_id request)%string in
  let strict_metadata_missing :=
    negb (bool_decide (effective_scope = Automatic))
    && (match ht_workspace_id turn with Some w => other_workspace w | None => true end
        || negb (bool_decide (ht_grounding_status turn = Some "grounded"))
        || match ht_context_fingerprint turn with Some f => is_empty f | None => true end) in
  strict_metadata_missing
  || is_some_and other_workspace (ht_workspace_id turn)
  || is_some_and (fun status => negb (status =? "grounded")%string) (ht_grounding_status turn)
  || is_some_and (fun scope => bool_decide (effective_scope = ReferencesPreferred) && bool_decide (scope = Automatic))
       (ht_source_scope turn).

(** The text of a turn that is shown, and the warning about what is not. *)
Definition turn_content (turn : ChatHistoryTurn) : IO (string * list string) :=
  let content := bounded_text (ht_content turn) MAX_HISTORY_TURN_CHARS in
  sensitive <- inspect_sensitive_text content ;;
  Ret match sensitive with
      | Some _ => ("[historical content omitted by secret scanning]", ["sensitive historical content was not reinjected"])
      | None =>
          if looks_like_large_diff_or_report content
          then ("[large historical diff/report omitted; result_id=" ++ default "unknown" (ht_result_id turn) ++ "]",
                ["a large historical diff/report was summarized"])
          else (content, [])
      end.

Definition turn_text (turn : ChatHistoryTurn) (content : string) : string :=
  "role: " ++ ChatHistoryRole_debug (ht_role turn) ++ eol
  ++ "command: " ++ match ht_command turn with Some c => ChatCommand_as_str c | None => "none" end ++ eol
  ++ "content:" ++ eol ++ content.

(** The turns from the newest to the oldest. *)
Fixpoint select_turns (request : ChatRequest) (effective_scope : ChatContextScope) (turns : list ChatHistoryTurn) (h : History)
    : IO History :=
  match turns with
  | [] => Ret h
  | turn :: turns' =>
      let b := cq_budgets request in
      if incompatible_turn request effective_scope turn
      then select_turns request effective_scope turns' (warn "an incompatible or ungrounded historical turn was omitted" h)
      else if bg_max_history_turns b <=? list_len (hy_selected h)
      then Ret (warn "older chat turns were omitted by the turn budget" h) else
      let! (content, warnings) := turn_content turn in
      let h := fold_left (fun h w => warn w h) warnings h in
      let turn_chars := char_count content in
      let turn_tokens := estimate_tokens content in
      if (bg_max_history_chars b <? saturating_add64 (hy_chars h) turn_chars)
         || (bg_max_history_tokens b <? saturating_add64 (hy_tokens h) turn_tokens)
      then Ret (warn "older chat turns were omitted by the character/token budget" h) else
      select_turns request effective_scope turns' {|
        hy_selected := turn_text turn content :: hy_selected h;
        hy_chars := hy_chars h + turn_chars;
        hy_tokens := hy_tokens h + turn_tokens;
        hy_warnings := hy_warnings h |}
  end.

Definition bounded_history (request : ChatRequest) (effective_scope : ChatContextScope) : IO (string * list string * N) :=
  match cq_history request with
  | [] => Ret ("none", [], 0)
  | turns =>
      h <- select_turns request effective_scope (rev turns)
             {| hy_selected := []; hy_chars := 0; hy_tokens := 0; hy_warnings := [] |} ;;
      Ret (join_with (eol ++ eol) (hy_selected h), hy_warnings h, list_len (hy_selected h))
  end.
End Histories.

(** ** The project *)

Definition MAX_INSPECT_FILES : N := 2000.

Record WorkspaceReport := {
  wr_root : string;
  wr_total_files_seen : N;
  wr_sampled_files : list string;
  wr_extensions : list (string * N);
  wr_has_git : bool;
  wr_has_maven : bool;
  wr_has_gradle : bool;
}.

(** An entry of the [walkdir] crate: its path, its depth below the root of
    the walk, and whether it is a regular file. *)
Record WalkEntry := { we_path : string; we_depth : N; we_is_file : bool }.

(** [WalkDir::new(root).sort_by_file_name().into_iter().filter_entry(f)
    .filter_map(Result::ok)]: the entries that [f] lets in, in order. *)
Class WalkDir := walk_dir : (WalkEntry -> bool) -> string -> IO (list WalkEntry).

Definition ignored_names : list string :=
  [".git"; ".opticcode"; "target"; "build"; ".gradle"; ".idea"; ".vscode"; "node_modules"; "models"; "data"].

(** [entry.file_name()]: the last component, or the whole path. *)
Definition entry_name (entry : WalkEntry) : string := default (we_path entry) (file_name (we_path entry)).

Definition should_enter (entry : WalkEntry) : bool :=
  (we_depth entry =? 0) || negb (existsb (String.eqb (to_string_lossy (entry_name entry))) ignored_names).

Definition to_relative (root path : string) : string := default path (strip_prefix path root).

(** One regular file of the walk *)
Definition count_file (root : string) (report : WorkspaceReport) (entry : WalkEntry) : WorkspaceReport :=
  let ext := match extension (we_path entry) ≫= to_str with Some value => to_ascii_lowercase value | None => "<none>" end in {|
  wr_root := wr_root report;
  wr_total_files_seen := wr_total_files_seen report + 1;
  wr_sampled_files :=
    if list_len (wr_sampled_files report) <? MAX_INSPECT_FILES
    then (wr_sampled_files report ++ [to_relative root (we_path entry)])%list else wr_sampled_files report;
  wr_extensions := map_update ext (fun n => default 0 n + 1) (wr_extensions report);
  wr_has_git := wr_has_git report;
  wr_has_maven := wr_has_maven report;
  wr_has_gradle := wr_has_gradle report |}.

(** opticcode-tools: lib.rs *)
Definition inspect_workspace `{WalkDir} (root : string) : IO (res WorkspaceReport) :=
  root <-? io_context ("failed to resolve workspace path: " ++ display root) (Canonicalize root) ;;
  has_git <- path_exists (join root ".git") ;;
  has_maven <- path_exists (join root "pom.xml") ;;
  has_gradle <- path_exists (join root "build.gradle") ;;
  has_kotlin_gradle <- (if has_gradle : bool then Ret true else path_exists (join root "build.gradle.kts")) ;;
  entries <- walk_dir should_enter root ;;
  Ret (Ok (foldl (count_file root) {|
    wr_root := root; wr_total_files_seen := 0; wr_sampled_files := []; wr_extensions := [];
    wr_has_git := has_git; wr_has_maven := has_maven; wr_has_gradle := has_kotlin_gradle |}
    (List.filter we_is_file entries))).

(** What [project_summary] feeds to the hasher for one change. *)
Definition change_bytes (change : GitChange) : string :=
  change_path change ++ String (index_status change) (String (worktree_status change) "")
  ++ default "" (content_fingerprint change).

Definition project_summary `{Blake3, WalkDir} (workspace : string) : IO (string * string) :=
  report <- inspect_workspace workspace ;;
  git <- capture_git_state workspace ;;
  let changes := match git with Ok snapshot => snapshot_changes snapshot | Err _ => [] end in
  let digest := "state-" ++ take_bytes 24 (blake3_hex (to_string_lossy workspace ++ String.concat "" (map change_bytes changes))) in
  let label := match file_name workspace with Some name => default "workspace" (to_str name) | None => "workspace" end in
  let head := "workspace: " ++ label ++ eol ++ "repository_state: " ++ digest ++ eol in
  Ret (match report with
       | Err _ => head ++ "project inventory: unavailable"
       | Ok report =>
           head ++ "files_seen: " ++ dec (wr_total_files_seen report) ++ eol
           ++ "git_changes: " ++ dec (list_len changes) ++ eol
           ++ "build: maven=" ++ bool_display (wr_has_maven report) ++ ", gradle=" ++ bool_display (wr_has_gradle report)
       end, digest).
