(* ===== verification/DisposableWorktree.v ===== *)
(** * Disposable worktrees (opticcode-tools: worktree.rs), on Unix

    The storage of worktrees and leases below the system's temporary
    directory, the Git commands, the run of an operation in a detached
    worktree with its cleanup, and the listing and cleaning of what a crash
    left behind.  The closures a run is given share captured state
    (Anyhow.v). *)

From stdpp Require Import base list strings.
From Stdlib Require Import NArith Ascii String Lia.
From S2P Require Import Prelude Bytes Text UnixPath IO Anyhow Paths GitState ProcessRunner.

Local Open Scope string_scope.
Local Open Scope N_scope.

Definition WORKTREE_VERIFICATION_SCHEMA_VERSION : N := 1.
Definition WORKTREE_LEASE_SCHEMA_VERSION : N := 1.
Definition DEFAULT_WORKTREE_GIT_TIMEOUT_SECONDS : N := 3 * 60.
Definition WORKTREE_STORAGE_DIRECTORY : string := "opticcode-worktrees".
Definition WORKTREE_RUNS_DIRECTORY : string := "runs".
Definition WORKTREE_LEASES_DIRECTORY : string := "leases".
Definition GIT_LIST_OUTPUT_LIMIT_BYTES : N := 4 * 1024 * 1024.
Definition RUN_COUNTER : string := "worktree::RUN_COUNTER".

Record WorktreeVerificationOptions := {
  wo_build_timeout : N;
  wo_git_timeout : N;
  wo_output_limit_bytes : N;
}.

Definition default_options : WorktreeVerificationOptions := {|
  wo_build_timeout := DEFAULT_PROCESS_TIMEOUT;
  wo_git_timeout := seconds DEFAULT_WORKTREE_GIT_TIMEOUT_SECONDS;
  wo_output_limit_bytes := DEFAULT_PROCESS_OUTPUT_LIMIT_BYTES |}.

Definition operation_error (kind : WorktreeOperationErrorKind) (message : string) : anyhow :=
  Anyhow [message] (WorktreeError kind).
Definition refuse {A} (kind : WorktreeOperationErrorKind) (message : string) : res A :=
  Err (operation_error kind message).
Definition worktree_operation_error_kind (e : anyhow) : option WorktreeOperationErrorKind :=
  match root_cause e with WorktreeError kind => Some kind | _ => None end.

(** ** Reports and leases *)

Record BoundedCommandReport := {
  bc_command : string;
  bc_success : bool;
  bc_process_id : option N;
  bc_status : ProcessStatus;
  bc_exit_code : option N;
  bc_duration_ms : N;
  bc_stdout_tail : string;
  bc_stderr_tail : string;
  bc_output : ProcessOutputStats;
  bc_termination : ProcessTermination;
}.

(** [duration.as_millis().min(u64::MAX)] *)
Definition duration_ms (nanos : N) : N := to_u64_or_max (nanos / 1000000).

Definition tail_lines (value : string) (limit : nat) : string :=
  let ls := lines value in
  join_with (String line_feed "") (drop (List.length ls - limit) ls).

Definition from_process (command : string) (process : ProcessResult) : BoundedCommandReport := {|
  bc_command := command;
  bc_success := success process;
  bc_process_id := pr_process_id process;
  bc_status := pr_status process;
  bc_exit_code := pr_exit_code process;
  bc_duration_ms := duration_ms (pr_duration process);
  bc_stdout_tail := tail_lines (pr_stdout process) 30;
  bc_stderr_tail := tail_lines (pr_stderr process) 30;
  bc_output := pr_output process;
  bc_termination := pr_termination process |}.

Record WorktreeCleanupReport := {
  wc_schema_version : N;
  wc_operation : string;
  wc_operation_success : bool;
  wc_run_id : string;
  wc_worktree : string;
  wc_attempted : bool;
  wc_already_cleaned : bool;
  wc_success : bool;
  wc_registered : option bool;
  wc_descriptor_removed : bool;
  wc_command : option BoundedCommandReport;
  wc_errors : list string;
}.

Record WorktreeLease := {
  wl_schema_version : N;
  wl_run_id : string;
  wl_owner_workspace_id : string;
  wl_owner_request_id : string;
  wl_process_id : N;
  wl_created_unix_ms : N;
  wl_source_git_root : string;
  wl_source_project : string;
  wl_source_commit : string;
  wl_worktree_path : string;
}.

(** [serde_json] on a lease. *)
Class WorktreeLeaseSerde := {
  lease_to_json : WorktreeLease -> result string string;
  lease_from_json : string -> result WorktreeLease string;
}.

Record WorktreeOwner := { wo_workspace_id : string; wo_request_id : string }.

Record DisposableWorktreeIntent := {
  in_run_id : string;
  in_owner : WorktreeOwner;
  in_source_root : string;
  in_destination : string;
  in_base_head : string;
}.

Record DisposableWorktreeContext := {
  cx_run_id : string;
  cx_owner : WorktreeOwner;
  cx_source_root : string;
  cx_source_project : string;
  cx_worktree_root : string;
  cx_worktree_project : string;
  cx_base_head : string;
  cx_git_dir : string;
  cx_common_dir : string;
  cx_lease_path : string;
}.

Record DisposableWorktreeRun (T : Type) := {
  rn_context : DisposableWorktreeContext;
  rn_creation : BoundedCommandReport;
  rn_operation : option T;
  rn_operation_error : option string;
  rn_cleanup : WorktreeCleanupReport;
  rn_source_after : option GitStateSnapshot;
  rn_source_unchanged : bool;
  rn_errors : list string;
}.
Arguments rn_context {T}. Arguments rn_creation {T}. Arguments rn_operation {T}. Arguments rn_operation_error {T}.
Arguments rn_cleanup {T}. Arguments rn_source_after {T}. Arguments rn_source_unchanged {T}. Arguments rn_errors {T}.

Definition operation_succeeded {T} (run : DisposableWorktreeRun T) : bool :=
  is_some (rn_operation run) && negb (is_some (rn_operation_error run)).
Definition run_success {T} (run : DisposableWorktreeRun T) : bool :=
  operation_succeeded run && wc_success (rn_cleanup run) && rn_source_unchanged run.

Record WorktreeLeaseInspection := {
  li_descriptor : string;
  li_valid : bool;
  li_lease : option WorktreeLease;
  li_target_exists : bool;
  li_registered : option bool;
  li_errors : list string;
}.

(** ** Validation *)

Definition is_run_byte (c : ascii) : bool := is_ascii_alphanumeric c || one_of "-_" c.
Definition is_owner_byte (c : ascii) : bool := is_ascii_alphanumeric c || one_of "-_." c.

Definition validate_owner_id (value label : string) : res unit :=
  if (1 <=? strlen value) && (strlen value <=? 160) && all_bytes is_owner_byte value then Ok tt
  else refuse WtPrecondition (label ++ " must contain only ASCII letters, digits, '-', '_' or '.'").

Definition validate_run_id (run_id : string) : res unit :=
  if (1 <=? strlen run_id) && (strlen run_id <=? 96) && all_bytes is_run_byte run_id then Ok tt
  else refuse InvalidRunId "worktree run id must contain only ASCII letters, digits, '-' or '_'".

Definition WorktreeOwner_new (workspace_id request_id : string) : res WorktreeOwner :=
  validate_owner_id workspace_id "workspace owner" ;?
  validate_owner_id request_id "request owner" ;?
  Ok {| wo_workspace_id := workspace_id; wo_request_id := request_id |}.

Definition validate_options (options : WorktreeVerificationOptions) : res unit :=
  if (wo_build_timeout options =? 0) || (wo_git_timeout options =? 0) then
    refuse WtPrecondition "worktree and build timeouts must be greater than zero" else
  if (MAX_PROCESS_TIMEOUT <? wo_build_timeout options) || (MAX_PROCESS_TIMEOUT <? wo_git_timeout options) then
    refuse WtPrecondition ("worktree and build timeouts cannot exceed " ++ dec (MAX_PROCESS_TIMEOUT / 1000000000) ++ " seconds") else
  if wo_output_limit_bytes options =? 0 then
    refuse WtPrecondition "process output limit must be greater than zero" else
  if MAX_PROCESS_OUTPUT_LIMIT_BYTES <? wo_output_limit_bytes options then
    refuse WtPrecondition ("process output limit cannot exceed " ++ dec MAX_PROCESS_OUTPUT_LIMIT_BYTES ++ " bytes per stream") else
  Ok tt.

(** ** Storage *)

Record WorktreeStorage := { st_runs : string; st_leases : string }.

Definition worktree_path (storage : WorktreeStorage) (run_id : string) : string := join (st_runs storage) run_id.
Definition lease_path (storage : WorktreeStorage) (run_id : string) : string :=
  join (st_leases storage) (run_id ++ ".json").

(** [fs::canonicalize(path)?] *)
Definition canonical (path : string) : IO (res string) := io_call (Canonicalize path).

Definition path_is_reparse_point (path : string) : IO (res bool) :=
  m <-? io_context ("failed to inspect path metadata: " ++ display path) (SymlinkMetadata path) ;;
  Ret (Ok (is_symlink m)).

(** [condition || f(path)?] *)
Definition or_reparse (condition : bool) (path : string) : IO (res bool) :=
  if condition then Ret (Ok true) else path_is_reparse_point path.

Definition directory_is_empty (path : string) : IO (res bool) :=
  entries <-? io_context ("failed to inspect directory: " ++ display path) (ReadDir path) ;;
  Ret (Ok (match entries with [] => true | _ => false end)).

Definition create_controlled_directory (path : string) : IO (res unit) :=
  created <- sys (CreateDir path) ;;
  Ret (match created with
       | Ok _ => Ok tt
       | Err e => if bool_decide (io_error_kind e = AlreadyExists) then Ok tt
                  else refuse WtStorage ("failed to create controlled directory " ++ display path ++ ": " ++ io_error_display e)
       end) ;;?
  directory <- path_is_dir path ;;
  unsafe <-? or_reparse (negb directory) path ;;
  Ret (if unsafe : bool
       then refuse WtStorage ("controlled directory is not a normal directory: " ++ display path) else Ok tt).

(** [std::env::temp_dir()] *)
Definition temp_dir : IO string := value <- sys (EnvVar "TMPDIR") ;; Ret (default "/tmp" value).

Definition resolve_temp_dir : IO (res string) :=
  path <- temp_dir ;;
  io_context "failed to resolve the system temporary directory" (Canonicalize path).

Definition not_direct_child (base : string) : res unit :=
  refuse WtStorage ("worktree storage is not a direct child of the temporary directory: " ++ display base).

Definition prepare (base : string) (required_parent : option string) : IO (res WorktreeStorage) :=
  create_controlled_directory base ;;?
  base <-? io_context ("failed to resolve worktree storage: " ++ display base) (Canonicalize base) ;;
  Ret (match required_parent with
       | Some p => if opt_path_eqb (parent base) (Some p) then Ok tt else not_direct_child base
       | None => Ok tt
       end) ;;?
  let runs := join base WORKTREE_RUNS_DIRECTORY in
  let leases := join base WORKTREE_LEASES_DIRECTORY in
  create_controlled_directory runs ;;?
  create_controlled_directory leases ;;?
  runs <-? canonical runs ;;
  leases <-? canonical leases ;;
  Ret (if negb (opt_path_eqb (parent runs) (Some base)) || negb (opt_path_eqb (parent leases) (Some base))
       then refuse WtStorage "worktree storage subdirectories escaped their controlled parent"
       else Ok {| st_runs := runs; st_leases := leases |}).

Definition default_storage : IO (res WorktreeStorage) :=
  temp <-? resolve_temp_dir ;;
  prepare (join temp WORKTREE_STORAGE_DIRECTORY) (Some temp).

Definition open_existing_controlled_directory (path parent_path : string) : IO (res string) :=
  m <-? io_context ("failed to inspect controlled worktree directory: " ++ display path) (SymlinkMetadata path) ;;
  unsafe <-? or_reparse (negb (is_dir m)) path ;;
  if unsafe : bool
  then Ret (refuse WtStorage ("controlled worktree path is not a normal directory: " ++ display path)) else
  resolved <-? canonical path ;;
  Ret (if opt_path_eqb (parent resolved) (Some parent_path) then Ok resolved
       else refuse WtStorage ("controlled worktree directory escaped its parent: " ++ display resolved)).

(** Whether the storage exists as a normal directory. *)
Definition storage_exists (base : string) : IO (res bool) :=
  m <- sys (SymlinkMetadata base) ;;
  match m with
  | Ok m =>
      unsafe <-? or_reparse (negb (is_dir m)) base ;;
      Ret (if unsafe : bool then refuse WtStorage ("worktree storage is not a normal directory: " ++ display base) else Ok true)
  | Err e =>
      Ret (if bool_decide (io_error_kind e = NotFound) then Ok false
           else refuse WtStorage ("failed to inspect worktree storage " ++ display base ++ ": " ++ io_error_display e))
  end.

Definition open_existing : IO (res (option WorktreeStorage)) :=
  temp <-? resolve_temp_dir ;;
  let base := join temp WORKTREE_STORAGE_DIRECTORY in
  present <-? storage_exists base ;;
  if negb present then Ret (Ok None) else
  base <-? canonical base ;;
  Ret (if opt_path_eqb (parent base) (Some temp) then Ok tt else not_direct_child base) ;;?
  runs <-? open_existing_controlled_directory (join base WORKTREE_RUNS_DIRECTORY) base ;;
  leases <-? open_existing_controlled_directory (join base WORKTREE_LEASES_DIRECTORY) base ;;
  Ret (Ok (Some {| st_runs := runs; st_leases := leases |})).

Definition unix_millis : IO N := sys SystemTimeMillis.

Definition new_run_id : IO string :=
  now <- unix_millis ;;
  pid <- sys ProcessId ;;
  n <- sys (FetchAddNamed RUN_COUNTER) ;;
  Ret ("verify-" ++ dec now ++ "-" ++ dec pid ++ "-" ++ dec n).

(** ** Git *)

Section Git.
Context `{SecondsDisplay}.

Definition run_git (working_directory : string) (args : list string) (timeout output_limit_bytes : N)
    (cancellation : option string) : IO (res ProcessResult) :=
  run_process_with_cancellation
    {| pq_program := "git"; pq_args := args; pq_working_directory := working_directory; pq_timeout := timeout;
       pq_output_limit_bytes := output_limit_bytes; pq_launch_mode := Direct;
       pq_environment := [("GIT_TERMINAL_PROMPT", "0")] |} cancellation.

Definition process_error_summary (process : ProcessResult) : string :=
  let stderr := trim (pr_stderr process) in
  let stdout := trim (pr_stdout process) in
  if negb (is_empty stderr) then stderr else
  if negb (is_empty stdout) then stdout else
  "status=" ++ ProcessStatus_as_str (pr_status process) ++ ", exit_code="
  ++ match pr_exit_code process with Some code => dec code | None => "unknown" end.

Definition quote : string := String (byte 34) "".
Definition quote_path (path : string) : string := quote ++ display path ++ quote.

Definition add_worktree (git_root worktree_root commit : string) (options : WorktreeVerificationOptions)
    (cancellation : string) : IO (res (ProcessResult * string)) :=
  process <-? run_git git_root ["worktree"; "add"; "--detach"; worktree_root; commit]
                (wo_git_timeout options) (wo_output_limit_bytes options) (Some cancellation) ;;
  Ret (Ok (process, "git worktree add --detach " ++ quote_path worktree_root ++ " " ++ commit)).

Definition resolve_git_directory (worktree_root argument : string) (timeout output_limit_bytes : N)
    (cancellation : string) : IO (res string) :=
  process <-? run_git worktree_root ["rev-parse"; argument] timeout output_limit_bytes (Some cancellation) ;;
  if negb (success process) || os_stdout_truncated (pr_output process)
  then Ret (bail ("git rev-parse " ++ argument ++ " failed: " ++ process_error_summary process)) else
  let value := trim (pr_stdout process) in
  let value := if is_absolute value then value else join worktree_root value in
  io_context ("failed to resolve Git directory " ++ display value) (Canonicalize value).

Definition resolve_worktree_git_directories (worktree_root : string) (timeout output_limit_bytes : N)
    (cancellation : string) : IO (res (string * string)) :=
  git_dir <-? resolve_git_directory worktree_root "--absolute-git-dir" timeout output_limit_bytes cancellation ;;
  common_dir <-? resolve_git_directory worktree_root "--git-common-dir" timeout output_limit_bytes cancellation ;;
  Ret (if path_eqb git_dir common_dir || negb (path_starts_with git_dir common_dir)
       then bail "disposable worktree Git directories do not share a safe boundary" else Ok (git_dir, common_dir)).

Context `{StringDebug}.

Definition is_object_id (commit : string) : bool :=
  ((strlen commit =? 40) || (strlen commit =? 64)) && all_bytes is_ascii_hexdigit commit.

Definition resolve_head (git_root : string) (timeout output_limit_bytes : N) (cancellation : option string)
    : IO (res string) :=
  process <-? io_map_err (fun e => operation_error WtGit ("failed to start git rev-parse: " ++ alternate e))
                (run_git git_root ["rev-parse"; "--verify"; "HEAD^{commit}"] timeout output_limit_bytes cancellation) ;;
  Ret (if negb (success process) then
         refuse WtGit ("failed to resolve source HEAD: " ++ process_error_summary process) else
       if os_stdout_truncated (pr_output process) then
         refuse WtGit "git rev-parse output was unexpectedly truncated" else
       let commit := trim (pr_stdout process) in
       if negb (is_object_id commit) then
         refuse WtGit ("git rev-parse returned an invalid commit id: " ++ string_debug commit) else
       Ok (to_ascii_lowercase commit)).

Definition capture_refs_fingerprint `{Blake3} (git_root : string) (timeout output_limit_bytes : N)
    (cancellation : option string) : IO (res string) :=
  process <-? io_map_err (fun e => operation_error WtGit ("failed to start git for-each-ref: " ++ alternate e))
                (run_git git_root ["for-each-ref"; "--sort=refname"; "--format=%(refname)%00%(objectname)%00%(symref)"]
                   timeout output_limit_bytes cancellation) ;;
  Ret (if negb (success process) then
         refuse WtGit ("failed to capture source refs: " ++ process_error_summary process) else
       if os_stdout_truncated (pr_output process) then
         refuse WtGit "git for-each-ref output exceeded the configured output limit" else
       Ok ("blake3:" ++ dec (strlen (pr_stdout process)) ++ ":" ++ blake3_hex (pr_stdout process))).

Definition head_is_detached (worktree_root : string) (timeout output_limit_bytes : N) (cancellation : option string)
    : IO (res bool) :=
  process <-? run_git worktree_root ["symbolic-ref"; "--quiet"; "HEAD"] timeout output_limit_bytes cancellation ;;
  Ret (if success process then Ok false else
       if bool_decide (pr_status process = Failed) && bool_decide (pr_exit_code process = Some 1) then Ok true else
       refuse WtGit ("git symbolic-ref could not determine HEAD state: " ++ process_error_summary process)).

Definition paths_match_without_canonicalization (left right : string) : bool := path_eqb left right.

Definition paths_match (left right : string) : IO bool :=
  l <- sys (Canonicalize left) ;;
  r <- sys (Canonicalize right) ;;
  Ret (match l, r with
       | Ok l, Ok r => paths_match_without_canonicalization l r
       | _, _ => paths_match_without_canonicalization left right
       end).

Fixpoint any_path_matches (paths : list string) (target : string) : IO bool :=
  match paths with
  | [] => Ret false
  | path :: rest =>
      matches <- paths_match path target ;;
      if matches : bool then Ret true else any_path_matches rest target
  end.

(** The worktrees of [git worktree list --porcelain -z]. *)
Definition listed_worktrees (stdout : string) : list string :=
  omap (str_strip_prefix "worktree ") (split_on (byte 0) stdout).

Definition worktree_is_registered (source_git_root target : string) (timeout output_limit_bytes : N)
    : IO (res bool) :=
  process <-? run_git source_git_root ["worktree"; "list"; "--porcelain"; "-z"] timeout output_limit_bytes None ;;
  if negb (success process) then Ret (bail ("git worktree list failed: " ++ process_error_summary process)) else
  if os_output_truncated (pr_output process) then Ret (bail "git worktree list output was truncated") else
  found <- any_path_matches (listed_worktrees (pr_stdout process)) target ;;
  Ret (Ok found).
End Git.

(** ** Leases *)

Section Leases.
Context `{WorktreeLeaseSerde}.

Definition resolved_inside (storage : WorktreeStorage) (path : string) : IO (res unit) :=
  present <- path_exists path ;;
  if negb present then Ret (Ok tt) else
  resolved <-? io_context ("failed to resolve leased worktree path: " ++ display path) (Canonicalize path) ;;
  if negb (path_starts_with resolved (st_runs storage)) || path_eqb resolved (st_runs storage)
  then Ret (refuse WtStorage ("leased worktree escapes controlled storage: " ++ display resolved)) else
  reparse <-? path_is_reparse_point path ;;
  Ret (if reparse : bool
       then refuse WtStorage ("leased worktree is a symlink or reparse point: " ++ display path) else Ok tt).

Definition validate_lease (storage : WorktreeStorage) (lease : WorktreeLease) : IO (res unit) :=
  Ret (validate_run_id (wl_run_id lease)) ;;?
  Ret (validate_owner_id (wl_owner_workspace_id lease) "workspace owner") ;;?
  Ret (validate_owner_id (wl_owner_request_id lease) "request owner") ;;?
  if negb (wl_schema_version lease =? WORKTREE_LEASE_SCHEMA_VERSION)
  then Ret (refuse WtStorage ("unsupported worktree lease schema version " ++ dec (wl_schema_version lease))) else
  let expected := worktree_path storage (wl_run_id lease) in
  if negb (paths_match_without_canonicalization expected (wl_worktree_path lease))
  then Ret (refuse WtStorage ("lease worktree path does not match controlled path: "
                              ++ display (wl_worktree_path lease) ++ " != " ++ display expected)) else
  resolved_inside storage (wl_worktree_path lease).

Definition write_lease (storage : WorktreeStorage) (lease : WorktreeLease) : IO (res unit) :=
  Ret (validate_run_id (wl_run_id lease)) ;;?
  let final_path := lease_path storage (wl_run_id lease) in
  file <-? io_context ("failed to create worktree lease: " ++ display final_path) (CreateNew final_path) ;;
  written <- (json <-? Ret (map_err failure (lease_to_json lease)) ;;
              io_call (WriteAll file (json ++ String line_feed "")) ;;?
              io_call (Flush file) ;;?
              io_call (SyncAll file)) ;;
  match written with
  | Ok _ => Ret (Ok tt)
  | Err e => sys (RemoveFile final_path) ;; Ret (Err e)
  end.

Definition read_lease (storage : WorktreeStorage) (run_id : string) : IO (res WorktreeLease) :=
  Ret (validate_run_id run_id) ;;?
  let path := lease_path storage run_id in
  reparse <- path_is_reparse_point path ;;
  if match reparse with Ok b => b | Err _ => false end
  then Ret (refuse WtStorage ("lease descriptor is a symlink or reparse point: " ++ display path)) else
  file <-? io_map_err (fun e => operation_error InvalidRunId
             ("failed to open worktree lease " ++ display path ++ ": " ++ io_error_display e)) (sys (OpenRead path)) ;;
  content <- sys (ReadHandle file) ;;
  lease <-? Ret (match content with
                 | Ok bytes => map_err (fun e => operation_error WtStorage
                                 ("invalid worktree lease " ++ display path ++ ": " ++ e)) (lease_from_json bytes)
                 | Err e => refuse WtStorage ("invalid worktree lease " ++ display path ++ ": " ++ io_error_display e)
                 end) ;;
  validate_lease storage lease ;;?
  Ret (Ok lease).

(** ** Cleanup *)

Definition skipped_cleanup_report (lease : WorktreeLease) (error : string) : WorktreeCleanupReport := {|
  wc_schema_version := WORKTREE_VERIFICATION_SCHEMA_VERSION;
  wc_operation := "worktree_cleanup";
  wc_operation_success := false;
  wc_run_id := wl_run_id lease;
  wc_worktree := wl_worktree_path lease;
  wc_attempted := false;
  wc_already_cleaned := false;
  wc_success := false;
  wc_registered := None;
  wc_descriptor_removed := false;
  wc_command := None;
  wc_errors := [error] |}.

(** The report of a cleanup that was attempted; [error] is why it stopped. *)
Definition cleanup_report (lease : WorktreeLease) (registered : option bool) (command : option BoundedCommandReport)
    (error : option string) : WorktreeCleanupReport := {|
  wc_schema_version := WORKTREE_VERIFICATION_SCHEMA_VERSION;
  wc_operation := "worktree_cleanup";
  wc_operation_success := negb (is_some error);
  wc_run_id := wl_run_id lease;
  wc_worktree := wl_worktree_path lease;
  wc_attempted := true;
  wc_already_cleaned := false;
  wc_success := negb (is_some error);
  wc_registered := registered;
  wc_descriptor_removed := negb (is_some error);
  wc_command := command;
  wc_errors := option_list error |}.

Context `{SecondsDisplay}.

(** The tree goes: a registered worktree by Git, a reserved directory when
    it is empty.  The command that ran, and why it stopped. *)
Definition remove_worktree (lease : WorktreeLease) (registered : bool) (timeout output_limit_bytes : N)
    : IO (res (option BoundedCommandReport * option string)) :=
  let path := wl_worktree_path lease in
  if registered then
    process <- run_git (wl_source_git_root lease) ["worktree"; "remove"; "--force"; path] timeout output_limit_bytes None ;;
    Ret (Ok (match process with
             | Ok process =>
                 let command := from_process ("git worktree remove --force " ++ quote_path path) process in
                 (Some command, if bc_success command then None
                                else Some ("git worktree remove failed: " ++ process_error_summary process))
             | Err e => (None, Some ("failed to start git worktree remove: " ++ alternate e))
             end))
  else
    present <- path_exists path ;;
    if negb present then Ret (Ok (None, None)) else
    empty <-? directory_is_empty path ;;
    if negb empty
    then Ret (Ok (None, Some ("refusing to remove unregistered non-empty directory " ++ display path))) else
    removed <- sys (RemoveDir path) ;;
    Ret (Ok (None, match removed with
                   | Ok _ => None
                   | Err e => Some ("failed to remove empty reserved directory " ++ display path ++ ": " ++ io_error_display e)
                   end)).

(** The last steps: the tree is gone, Git has forgotten it, and the lease
    goes. *)
Definition release_lease (storage : WorktreeStorage) (lease : WorktreeLease) (timeout output_limit_bytes : N)
    : IO (option string) :=
  let path := wl_worktree_path lease in
  present <- path_exists path ;;
  if present : bool then Ret (Some ("worktree path still exists after cleanup: " ++ display path)) else
  still <- worktree_is_registered (wl_source_git_root lease) path timeout (N.max output_limit_bytes GIT_LIST_OUTPUT_LIMIT_BYTES) ;;
  match still with
  | Err e => Ret (Some ("failed to verify worktree removal in Git metadata: " ++ alternate e))
  | Ok true => Ret (Some "worktree remains registered after cleanup")
  | Ok false =>
      let descriptor := lease_path storage (wl_run_id lease) in
      removed <- sys (RemoveFile descriptor) ;;
      Ret (match removed with
           | Ok _ => None
           | Err e => if bool_decide (io_error_kind e = NotFound) then None
                      else Some ("worktree was removed, but lease descriptor " ++ display descriptor
                                 ++ " could not be removed: " ++ io_error_display e)
           end)
  end.

Definition cleanup_lease (storage : WorktreeStorage) (lease : WorktreeLease) (timeout output_limit_bytes : N)
    : IO (res WorktreeCleanupReport) :=
  validate_lease storage lease ;;?
  registered <- worktree_is_registered (wl_source_git_root lease) (wl_worktree_path lease) timeout
                  (N.max output_limit_bytes GIT_LIST_OUTPUT_LIMIT_BYTES) ;;
  match registered with
  | Err e => Ret (Ok (cleanup_report lease None None (Some ("failed to verify Git worktree registration: " ++ alternate e))))
  | Ok registered =>
      let!? (command, error) := remove_worktree lease registered timeout output_limit_bytes in
      match error with
      | Some _ => Ret (Ok (cleanup_report lease (Some registered) command error))
      | None =>
          error <- release_lease storage lease timeout output_limit_bytes ;;
          Ret (Ok (cleanup_report lease (Some registered) command error))
      end
  end.

(** What is reported when the lease is already gone. *)
Definition cleanup_without_lease (run_id worktree : string) (target_exists : bool) : WorktreeCleanupReport := {|
  wc_schema_version := WORKTREE_VERIFICATION_SCHEMA_VERSION;
  wc_operation := "worktree_cleanup";
  wc_operation_success := negb target_exists;
  wc_run_id := run_id;
  wc_worktree := worktree;
  wc_attempted := false;
  wc_already_cleaned := negb target_exists;
  wc_success := negb target_exists;
  wc_registered := None;
  wc_descriptor_removed := true;
  wc_command := None;
  wc_errors := if target_exists
               then ["worktree path exists without its lease; refusing cleanup because the source repository cannot be verified"]
               else [] |}.

Definition cleanup_disposable_worktree_in (storage : WorktreeStorage) (run_id : string) : IO (res WorktreeCleanupReport) :=
  Ret (validate_run_id run_id) ;;?
  let descriptor := lease_path storage run_id in
  m <- sys (SymlinkMetadata descriptor) ;;
  match m with
  | Err e =>
      if bool_decide (io_error_kind e = NotFound) then
        let worktree := worktree_path storage run_id in
        target_exists <- path_exists worktree ;;
        Ret (Ok (cleanup_without_lease run_id worktree target_exists))
      else Ret (refuse WtStorage ("failed to inspect worktree lease " ++ display descriptor ++ ": " ++ io_error_display e))
  | Ok _ =>
      lease <-? read_lease storage run_id ;;
      cleanup_lease storage lease (seconds DEFAULT_WORKTREE_GIT_TIMEOUT_SECONDS) DEFAULT_PROCESS_OUTPUT_LIMIT_BYTES
  end.

Definition cleanup_disposable_worktree (run_id : string) : IO (res WorktreeCleanupReport) :=
  Ret (validate_run_id run_id) ;;?
  storage <-? default_storage ;;
  cleanup_disposable_worktree_in storage run_id.

(** ** Listing *)

Definition inspection (descriptor : string) (valid : bool) (lease : option WorktreeLease) (target_exists : bool)
    (registered : option bool) (errors : list string) : WorktreeLeaseInspection := {|
  li_descriptor := descriptor; li_valid := valid; li_lease := lease; li_target_exists := target_exists;
  li_registered := registered; li_errors := errors |}.

Definition inspect_read_lease (storage : WorktreeStorage) (descriptor : string) (lease : WorktreeLease)
    : IO WorktreeLeaseInspection :=
  target_exists <- path_exists (wl_worktree_path lease) ;;
  valid <- validate_lease storage lease ;;
  match valid with
  | Err e => Ret (inspection descriptor false (Some lease) target_exists None [alternate e])
  | Ok _ =>
      registered <- worktree_is_registered (wl_source_git_root lease) (wl_worktree_path lease)
                      (seconds DEFAULT_WORKTREE_GIT_TIMEOUT_SECONDS) GIT_LIST_OUTPUT_LIMIT_BYTES ;;
      Ret (match registered with
           | Ok registered => inspection descriptor true (Some lease) target_exists (Some registered) []
           | Err e => inspection descriptor false (Some lease) target_exists None
                        ["could not inspect Git registration: " ++ alternate e]
           end)
  end.

Definition inspect_lease (storage : WorktreeStorage) (descriptor : string) : IO WorktreeLeaseInspection :=
  let unreadable (error : string) := inspection descriptor false None false None [error] in
  reparse <- path_is_reparse_point descriptor ;;
  if match reparse with Ok b => b | Err _ => true end
  then Ret (unreadable "lease descriptor is a symlink or reparse point") else
  opened <- sys (OpenRead descriptor) ;;
  match opened with
  | Err e => Ret (unreadable ("failed to open descriptor: " ++ io_error_display e))
  | Ok file =>
      content <- sys (ReadHandle file) ;;
      match content with
      | Err e => Ret (unreadable ("invalid lease JSON: " ++ io_error_display e))
      | Ok bytes =>
          match lease_from_json bytes with
          | Err e => Ret (unreadable ("invalid lease JSON: " ++ e))
          | Ok lease => inspect_read_lease storage descriptor lease
          end
      end
  end.

Fixpoint inspect_each (storage : WorktreeStorage) (descriptors : list string) : IO (list WorktreeLeaseInspection) :=
  match descriptors with
  | [] => Ret []
  | d :: rest => i <- inspect_lease storage d ;; more <- inspect_each storage rest ;; Ret (i :: more)
  end.

Definition list_disposable_worktrees_in (storage : WorktreeStorage) : IO (res (list WorktreeLeaseInspection)) :=
  entries <-? io_context ("failed to list worktree leases: " ++ display (st_leases storage)) (ReadDir (st_leases storage)) ;;
  let descriptors := List.filter (fun p => bool_decide (extension p = Some "json")) (omap ok entries) in
  inspections <- inspect_each storage (sort_by path_cmp descriptors) ;;
  Ret (Ok inspections).

Definition list_disposable_worktrees : IO (res (list WorktreeLeaseInspection)) :=
  storage <-? default_storage ;; list_disposable_worktrees_in storage.

Definition inspect_disposable_worktrees_read_only : IO (res (list WorktreeLeaseInspection)) :=
  storage <-? open_existing ;;
  match storage with
  | None => Ret (Ok [])
  | Some storage => list_disposable_worktrees_in storage
  end.
End Leases.

(** ** The run of an operation in a disposable worktree *)

Section Run.
Context `{Blake3, WorktreeLeaseSerde, SecondsDisplay, StringDebug}.
Context (options : WorktreeVerificationOptions) (cancellation : string).

Abbreviation timeout := (wo_git_timeout options).
Abbreviation output_limit := (wo_output_limit_bytes options).

(** What is observed of the source before anything is created. *)
Record SourceBefore := {
  sb_project : string;
  sb_state : GitStateSnapshot;
  sb_relative_project : string;
  sb_base_head : string;
  sb_refs : string;
}.
Definition sb_root (s : SourceBefore) : string := snapshot_root (sb_state s).

Definition observe_source (source_project : string) : IO (res SourceBefore) :=
  project <-? io_map_err (fun e => operation_error WtPrecondition
               ("failed to resolve source project " ++ display source_project ++ ": " ++ io_error_display e))
               (sys (Canonicalize source_project)) ;;
  before <-? io_map_err (fun e => operation_error WtPrecondition
               ("source project must be a Git worktree: " ++ alternate e)) (capture_git_state project) ;;
  Ret (match snapshot_changes before with
       | [] => Ok tt
       | changes => refuse WtPrecondition ("source Git worktree must be clean; found "
                      ++ dec (N.of_nat (List.length changes)) ++ " change(s)")
       end) ;;?
  relative <-? Ret (match strip_prefix project (snapshot_root before) with
                    | Some relative => Ok relative
                    | None => refuse WtPrecondition "source project is outside its Git worktree root"
                    end) ;;
  head <-? resolve_head (snapshot_root before) timeout output_limit (Some cancellation) ;;
  refs <-? capture_refs_fingerprint (snapshot_root before) timeout output_limit (Some cancellation) ;;
  Ret (Ok {| sb_project := project; sb_state := before; sb_relative_project := relative;
             sb_base_head := head; sb_refs := refs |}).

Definition new_lease (source : SourceBefore) (owner : WorktreeOwner) (run_id destination : string) : IO WorktreeLease :=
  pid <- sys ProcessId ;;
  now <- unix_millis ;;
  Ret {| wl_schema_version := WORKTREE_LEASE_SCHEMA_VERSION;
         wl_run_id := run_id;
         wl_owner_workspace_id := wo_workspace_id owner;
         wl_owner_request_id := wo_request_id owner;
         wl_process_id := pid;
         wl_created_unix_ms := now;
         wl_source_git_root := sb_root source;
         wl_source_project := sb_project source;
         wl_source_commit := sb_base_head source;
         wl_worktree_path := destination |}.

(** The lease is written, then its directory is created. *)
Definition reserve (storage : WorktreeStorage) (lease : WorktreeLease) : IO (res unit) :=
  write_lease storage lease ;;?
  created <- sys (CreateDir (wl_worktree_path lease)) ;;
  match created with
  | Ok _ => Ret (Ok tt)
  | Err e =>
      sys (RemoveFile (lease_path storage (wl_run_id lease))) ;;
      Ret (refuse WtStorage ("failed to reserve disposable worktree " ++ display (wl_worktree_path lease)
                             ++ ": " ++ io_error_display e))
  end.

Definition cleanup_run (storage : WorktreeStorage) (lease : WorktreeLease) : IO (res WorktreeCleanupReport) :=
  cleanup_lease storage lease timeout output_limit.

(** Git creates the worktree; a failure cleans up. *)
Definition create_worktree (storage : WorktreeStorage) (lease : WorktreeLease) : IO (res BoundedCommandReport) :=
  added <- add_worktree (wl_source_git_root lease) (wl_worktree_path lease) (wl_source_commit lease) options cancellation ;;
  match added with
  | Err e =>
      cleanup_run storage lease ;;
      Ret (Err (with_context "failed to start detached worktree creation" e))
  | Ok (process, command) =>
      let creation := from_process command process in
      if bc_success creation then Ret (Ok creation) else
      cleanup <-? cleanup_run storage lease ;;
      Ret (refuse WtGit ("git worktree add failed: " ++ process_error_summary process
                         ++ "; cleanup_success=" ++ bool_display (wc_success cleanup)))
  end.

(** The new worktree is clean, detached and at the base commit. *)
Definition check_worktree (destination base_head : string) : IO (res (string * string)) :=
  state <-? capture_git_state destination ;;
  Ret (match snapshot_changes state with [] => Ok tt | _ => bail "new disposable worktree is not clean" end) ;;?
  head <-? resolve_head destination timeout output_limit (Some cancellation) ;;
  if negb (head =? base_head)%string
  then Ret (bail ("disposable worktree HEAD mismatch: expected " ++ base_head ++ ", got " ++ head)) else
  detached <-? head_is_detached destination timeout output_limit (Some cancellation) ;;
  if negb detached then Ret (bail "disposable worktree is unexpectedly attached to a branch") else
  resolve_worktree_git_directories destination timeout output_limit cancellation.

Definition set_up_worktree (storage : WorktreeStorage) (lease : WorktreeLease) : IO (res (string * string)) :=
  setup <- check_worktree (wl_worktree_path lease) (wl_source_commit lease) ;;
  match setup with
  | Ok directories => Ret (Ok directories)
  | Err e =>
      cleanup <-? cleanup_run storage lease ;;
      Ret (Err (with_context ("disposable worktree setup failed; cleanup_success=" ++ bool_display (wc_success cleanup)) e))
  end.

Definition context_of (source : SourceBefore) (owner : WorktreeOwner) (storage : WorktreeStorage)
    (lease : WorktreeLease) (git_dir common_dir : string) : DisposableWorktreeContext := {|
  cx_run_id := wl_run_id lease;
  cx_owner := owner;
  cx_source_root := sb_root source;
  cx_source_project := sb_project source;
  cx_worktree_root := wl_worktree_path lease;
  cx_worktree_project := join (wl_worktree_path lease) (sb_relative_project source);
  cx_base_head := sb_base_head source;
  cx_git_dir := git_dir;
  cx_common_dir := common_dir;
  cx_lease_path := lease_path storage (wl_run_id lease) |}.

(** An observation after the run, and the error it adds when it fails. *)
Definition observed_again {A} (what : string) (r : res A) : option A * list string :=
  match r with
  | Ok a => (Some a, [])
  | Err e => (None, ["failed to recapture source " ++ what ++ ": " ++ alternate e])
  end.

Definition guard_passes (before : GitStateSnapshot) (after : option GitStateSnapshot) : bool :=
  match after with
  | Some after => match from_snapshots before after true with Ok guard => negb (strict_violation guard) | Err _ => false end
  | None => false
  end.

(** The source is observed again: its state, whether it is unchanged, and
    the errors. *)
Definition check_source (source : SourceBefore) : IO (option GitStateSnapshot * bool * list string) :=
  state <- capture_git_state (sb_root source) ;;
  head <- resolve_head (sb_root source) timeout output_limit None ;;
  refs <- capture_refs_fingerprint (sb_root source) timeout output_limit None ;;
  let '(state, state_errors) := observed_again "Git state" state in
  let '(head, head_errors) := observed_again "HEAD" head in
  let '(refs, refs_errors) := observed_again "refs" refs in
  let unchanged := guard_passes (sb_state source) state
                   && bool_decide (head = Some (sb_base_head source))
                   && bool_decide (refs = Some (sb_refs source)) in
  Ret (state, unchanged, (state_errors ++ head_errors ++ refs_errors
         ++ if unchanged then [] else ["source Git worktree or refs changed during disposable verification"])%list).

Context {S T : Type}.
Context (before_create : DisposableWorktreeIntent -> stage S unit)
        (operation : DisposableWorktreeContext -> stage S T)
        (before_cleanup : DisposableWorktreeContext -> stage S unit).

(** The cleanup runs only when it is authorised. *)
Definition authorised_cleanup (storage : WorktreeStorage) (lease : WorktreeLease) (context : DisposableWorktreeContext)
    : stage S (WorktreeCleanupReport * list string) :=
  permitted <-! stage_try (before_cleanup context) ;;
  match permitted with
  | Ok _ =>
      cleanup <-! stage_io (cleanup_run storage lease) ;;
      stage_ret (Ok (cleanup, []))
  | Err e =>
      let message := "worktree cleanup authorization failed: " ++ alternate e in
      stage_ret (Ok (skipped_cleanup_report lease message, [message]))
  end.

(** The operation, the cleanup and the second observation of the source. *)
Definition operate (source : SourceBefore) (storage : WorktreeStorage) (lease : WorktreeLease)
    (creation : BoundedCommandReport) (context : DisposableWorktreeContext) : stage S (DisposableWorktreeRun T) :=
  result <-! stage_try (operation context) ;;
  cleaned <-! authorised_cleanup storage lease context ;;
  let '(cleanup, errors) := cleaned in
  let errors := (errors ++ if wc_success cleanup then [] else wc_errors cleanup)%list in
  checked <-! stage_io (r <- check_source source ;; Ret (Ok r)) ;;
  let '(source_after, unchanged, source_errors) := checked in
  stage_ret (Ok {|
    rn_context := context;
    rn_creation := creation;
    rn_operation := ok result;
    rn_operation_error := match result with Ok _ => None | Err e => Some (alternate e) end;
    rn_cleanup := cleanup;
    rn_source_after := source_after;
    rn_source_unchanged := unchanged;
    rn_errors := (errors ++ source_errors)%list |}).

Definition run_in_disposable_worktree (source_project : string) (owner : WorktreeOwner)
    : stage S (DisposableWorktreeRun T) :=
  stage_ret (validate_options options) ;;!
  stage_ret (validate_owner_id (wo_workspace_id owner) "workspace owner") ;;!
  stage_ret (validate_owner_id (wo_request_id owner) "request owner") ;;!
  source <-! stage_io (observe_source source_project) ;;
  storage <-! stage_io default_storage ;;
  run_id <-! stage_io (id <- new_run_id ;; Ret (Ok id)) ;;
  let destination := worktree_path storage run_id in
  before_create {| in_run_id := run_id; in_owner := owner; in_source_root := sb_root source;
                   in_destination := destination; in_base_head := sb_base_head source |} ;;!
  lease <-! stage_io (lease <- new_lease source owner run_id destination ;; Ret (Ok lease)) ;;
  stage_io (reserve storage lease) ;;!
  creation <-! stage_io (create_worktree storage lease) ;;
  directories <-! stage_io (set_up_worktree storage lease) ;;
  let '(git_dir, common_dir) := directories in
  operate source storage lease creation (context_of source owner storage lease git_dir common_dir).
End Run.
