(* ===== verification/GitStateFacts.v ===== *)
(** * Properties of the Git snapshots

    The porcelain parser accepts exactly the printed lists of well-formed
    entries and always ends; the comparison accounts for every change once;
    the strict guard. *)

From stdpp Require Import base list strings.
From Stdlib Require Import NArith Ascii String Lia.
From S2P Require Import Prelude Bytes UnixPath IO Anyhow Paths GitState.

Local Open Scope string_scope.
Local Open Scope N_scope.

(** ** NUL-terminated fields *)

Definition nul : ascii := byte 0.
Definition no_nul (s : string) : bool := negb (any_byte (fun c => byte_n c =? 0) s).

Lemma drop_bytes_app a b : drop_bytes (String.length a) (a ++ b) = b.
Proof. induction a as [|c a IH]; [done|]. rewrite append_cons. exact IH. Qed.

Lemma take_bytes_app a b : take_bytes (String.length a) (a ++ b) = a.
Proof. induction a as [|c a IH]; [by destruct b|]. rewrite append_cons. simpl. by rewrite IH. Qed.

Lemma drop_bytes_plus n m s : drop_bytes (n + m) s = drop_bytes m (drop_bytes n s).
Proof.
  revert s. induction n as [|n IH]; intros s; [done|]. destruct s as [|c s]; [by destruct m|]. simpl. apply IH.
Qed.

Lemma nul_byte c : byte_n c = 0 -> c = nul.
Proof. intros E. unfold nul, byte. rewrite <- E. unfold byte_n. by rewrite ascii_N_embedding. Qed.

Lemma find_nul_none s : find_nul s = None <-> no_nul s = true.
Proof.
  unfold no_nul. induction s as [|c s IH]; simpl; [done|].
  destruct (byte_n c =? 0); simpl; [done|]. rewrite <- IH. by destruct (find_nul s).
Qed.

Lemma find_nul_app a b : no_nul a = true -> find_nul (a ++ String nul b) = Some (String.length a).
Proof.
  unfold no_nul. induction a as [|c a IH]; [done|]. rewrite append_cons. simpl.
  destruct (byte_n c =? 0); simpl; [done|]. intros Ha. by rewrite IH.
Qed.

Lemma find_nul_some s n :
  find_nul s = Some n -> no_nul (take_bytes n s) = true /\ s = take_bytes n s ++ String nul (drop_bytes (n + 1) s).
Proof.
  revert n. induction s as [|c s IH]; intros n; simpl; [done|].
  destruct (byte_n c =? 0) eqn:E; [intros [= <-]|].
  - apply N.eqb_eq, nul_byte in E as ->. by destruct s.
  - destruct (find_nul s) as [m|]; [|done]. intros [= <-]. destruct (IH m eq_refl) as [H1 H2].
    split; [unfold no_nul in *; simpl; by rewrite E|]. simpl. rewrite append_cons. by f_equal.
Qed.

(** Reading a field from the cursor, as a statement about what is left. *)
Lemma read_nul_field_ok input cursor label field cursor' :
  read_nul_field input cursor label = Ok (field, cursor') <->
  no_nul field = true /\ cursor' = (cursor + String.length field + 1)%nat /\
  drop_bytes cursor input = field ++ String nul (drop_bytes cursor' input).
Proof.
  unfold read_nul_field. destruct (find_nul (drop_bytes cursor input)) as [n|] eqn:E.
  - destruct (find_nul_some _ _ E) as [H1 H2]. split.
    + intros [= <- <-]. split; [done|].
      assert (String.length (take_bytes n (drop_bytes cursor input)) = n) as Hlen.
      { clear E H1. revert H2. generalize (drop_bytes cursor input) as s. intros s H2.
        rewrite length_take_bytes. apply (f_equal String.length) in H2. rewrite length_append in H2.
        rewrite length_take_bytes in H2. cbn [String.length] in H2. lia. }
      rewrite Hlen. split; [lia|].
      rewrite H2 at 1. by rewrite <- drop_bytes_plus, (Nat.add_assoc cursor n 1).
    + intros (Hf & -> & Hs). rewrite Hs, find_nul_app in E by done. injection E as <-.
      rewrite Hs at 1. rewrite take_bytes_app. f_equal.
  - split; [done|]. intros (Hf & -> & Hs). rewrite Hs, find_nul_app in E by done. done.
Qed.

(** ** The entries *)

(** The text Git prints for a change: the record, and the source of a rename
    or copy. *)
Definition entry_record (c : GitChange) : string :=
  String (index_status c) (String (worktree_status c) (String " " (change_path c))).
Definition source_text (c : GitChange) : string :=
  match original_path c with Some p => p ++ String nul "" | None => "" end.
Definition print_entry (c : GitChange) : string := entry_record c ++ String nul (source_text c).

Definition print_status (l : list GitChange) : string := String.concat "" (map print_entry l).

(** A path Git can print: non-empty UTF-8 without a NUL. *)
Definition printable (p : string) : bool := negb (is_empty p) && utf8_valid p && no_nul p.

(** A status byte: ASCII, not NUL. *)
Definition status_byte (c : ascii) : bool := is_ascii c && negb (byte_n c =? 0).

(** What the parser yields: the kind is that of the status bytes, a source
    path accompanies exactly renames and copies, no fingerprint yet. *)
Record well_formed (c : GitChange) : Prop := {
  wf_index : status_byte (index_status c) = true;
  wf_worktree : status_byte (worktree_status c) = true;
  wf_kind : change_kind c = classify_kind (index_status c) (worktree_status c);
  wf_path : printable (change_path c) = true;
  wf_original : match original_path c with
                | Some p => renamed_or_copied (change_kind c) = true /\ printable p = true
                | None => renamed_or_copied (change_kind c) = false
                end;
  wf_fingerprint : content_fingerprint c = None;
}.

Lemma decode_path_ok bytes label r :
  no_nul bytes = true -> decode_path bytes label = Ok r <-> printable bytes = true /\ r = bytes.
Proof.
  intros Hn. unfold decode_path, printable. rewrite Hn. destruct (is_empty bytes); [naive_solver|].
  rewrite from_utf8_ok, andb_true_r. naive_solver.
Qed.

Lemma no_nul_cons c s : no_nul (String c s) = negb (byte_n c =? 0) && no_nul s.
Proof. unfold no_nul. simpl. by rewrite negb_orb. Qed.

Lemma print_entry_cons c l :
  print_status (c :: l) = print_entry c ++ print_status l.
Proof. exact (concat_cons _ _). Qed.

Lemma print_entry_app c s : print_entry c ++ s = entry_record c ++ String nul (source_text c ++ s).
Proof. unfold print_entry. by rewrite append_assoc, (append_cons nul). Qed.

Lemma length_print_entry c : (1 <= String.length (print_entry c))%nat.
Proof. unfold print_entry. rewrite length_append. simpl. lia. Qed.

(** One entry parsed is one entry printed. *)
Lemma parse_entry_ok input cursor c cursor' :
  parse_entry input cursor = Ok (c, cursor') <->
  well_formed c /\ (cursor' = cursor + String.length (print_entry c))%nat /\
  drop_bytes cursor input = print_entry c ++ drop_bytes cursor' input.
Proof.
  unfold parse_entry. rewrite rbind_ok. split.
  - intros ([record c1] & Hr & H). apply read_nul_field_ok in Hr as (Hnul & -> & Hrest).
    destruct record as [|x [|y [|sp [|p0 rest]]]]; try done.
    rewrite !no_nul_cons in Hnul. split_bools.
    destruct (negb (Ascii.eqb sp " ")) eqn:Esp; [done|]. apply negb_false_iff, Ascii.eqb_eq in Esp as ->.
    destruct (negb (is_ascii x) || negb (is_ascii y)) eqn:Exy; [done|]. split_bools.
    apply rbind_ok in H as (path & Hpath & H). apply decode_path_ok in Hpath as [Hpath ->];
      [|rewrite no_nul_cons; apply andb_true_iff; split; [by apply negb_true_iff|done]].
    apply rbind_ok in H as ([original c2] & Ho & H). injection H as <- <-.
    destruct (renamed_or_copied (classify_kind x y)) eqn:Ek.
    + apply rbind_ok in Ho as ([field c3] & Hf & Ho). apply rbind_ok in Ho as (o & Hd & [= <- <-]).
      apply read_nul_field_ok in Hf as (Hfn & -> & Hfr). apply decode_path_ok in Hd as [Hp ->]; [|done].
      split; [split; simpl; try done; unfold status_byte; split_and?; by rewrite ?andb_true_iff, ?negb_true_iff|].
      unfold print_entry, entry_record, source_text. cbn [index_status worktree_status change_path original_path].
      rewrite !length_append. cbn [String.length]. rewrite length_append. cbn [String.length].
      split; [lia|]. rewrite Hrest, Hfr, append_assoc. f_equal.
      by rewrite append_cons, append_assoc, append_cons, append_nil.
    + injection Ho as <- <-.
      split; [split; simpl; try done; unfold status_byte; split_and?; by rewrite ?andb_true_iff, ?negb_true_iff|].
      unfold print_entry, entry_record, source_text. cbn [index_status worktree_status change_path original_path].
      rewrite !length_append. cbn [String.length]. split; [lia|].
      rewrite Hrest, append_assoc. by f_equal.
  - intros (Hwf & -> & Hs). rewrite print_entry_app in Hs. unfold print_entry, entry_record, source_text in *.
    destruct c as [x y kind path original fp]. destruct Hwf as [Hx Hy Hk Hp Ho Hf].
    cbn [index_status worktree_status change_path original_path change_kind content_fingerprint] in *. subst.
    unfold status_byte in *. split_bools.
    assert (no_nul path = true) as Hpn by (unfold printable in Hp; by split_bools).
    set (record := String x (String y (String " " path))) in *.
    pose proof (drop_bytes_app record) as Hdrop.
    assert (forall r, drop_bytes cursor input = record ++ String nul r ->
      drop_bytes (cursor + String.length record + 1) input = r) as Hafter.
    { intros r E. by rewrite <- Nat.add_assoc, drop_bytes_plus, E, drop_bytes_plus, Hdrop. }
    exists (record, cursor + String.length record + 1)%nat. split.
    { apply read_nul_field_ok. split; [|split; [done|]].
      { unfold record. rewrite !no_nul_cons, Hpn. repeat (apply andb_true_iff; split; try done); by apply negb_true_iff. }
      rewrite Hs. do 2 f_equal. symmetry. by apply Hafter. }
    unfold record at 1. destruct path as [|p0 rest] eqn:Epath; [done|]. rewrite <- Epath in *.
    change (negb (Ascii.eqb " " " ")) with false. cbn iota.
    assert (negb (is_ascii x) || negb (is_ascii y) = false) as ->
      by (apply orb_false_iff; split; by apply negb_false_iff).
    apply rbind_ok. exists path. split; [by apply decode_path_ok|].
    apply rbind_ok. rewrite length_append. cbn [String.length].
    destruct original as [o|]; [destruct Ho as [-> Ho]|rewrite Ho].
    + assert (no_nul o = true) as Hon by (unfold printable in Ho; by split_bools).
      exists (Some o, cursor + String.length record + 1 + String.length o + 1)%nat. split.
      * apply rbind_ok. eexists (o, _). split.
        { apply read_nul_field_ok. split; [done|]. split; [reflexivity|].
          rewrite append_assoc, append_cons, append_nil in Hs. rewrite (Hafter _ Hs). do 2 f_equal.
          f_equal. rewrite length_append. cbn [String.length]. rewrite length_append. cbn [String.length]. lia. }
        apply rbind_ok. exists o. split; [by apply decode_path_ok|reflexivity].
      * rewrite length_append. cbn [String.length]. do 2 f_equal. lia.
    + eexists (None, _). split; [reflexivity|]. cbn [String.length]. do 2 f_equal. lia.
Qed.

(** ** The whole output *)

(** The porcelain parser always ends: one unit of fuel per byte is enough,
    and more fuel changes nothing. *)
Theorem parse_loop_terminates input cursor changes fuel :
  (String.length input - cursor <= fuel)%nat ->
  exists r, parse_loop fuel input cursor changes = Some r /\
    forall more, parse_loop (fuel + more) input cursor changes = Some r.
Proof.
  revert cursor changes. induction fuel as [|fuel IH]; intros cursor changes Hf;
    cbn [parse_loop Nat.add]; destruct (cursor <? String.length input)%nat eqn:E.
  1: apply Nat.ltb_lt in E; lia.
  1: exists (Ok changes); split; [done|]; intros [|more]; simpl; by rewrite E.
  - destruct (parse_entry input cursor) as [[c cursor']|e] eqn:Ep; [|by eexists].
    apply parse_entry_ok in Ep as (_ & -> & _). pose proof (length_print_entry c). apply IH. lia.
  - by eexists.
Qed.

Lemma parse_loop_ok fuel input cursor changes l :
  (cursor <= String.length input)%nat ->
  parse_loop fuel input cursor changes = Some (Ok l) ->
  exists k, l = (changes ++ k)%list /\ Forall well_formed k /\ drop_bytes cursor input = print_status k.
Proof.
  revert cursor changes. induction fuel as [|fuel IH]; intros cursor changes Hc; cbn [parse_loop];
    destruct (cursor <? String.length input)%nat eqn:E; [done| |
      destruct (parse_entry input cursor) as [[c cursor']|e] eqn:Ep; [|done] |].
  2:{ apply parse_entry_ok in Ep as (Hwf & -> & Hs). intros Hl.
      apply IH in Hl as (k & -> & Hk & Hrest).
      - exists (c :: k). split; [by rewrite <- app_assoc|]. split; [by constructor|].
        by rewrite print_entry_cons, Hs, Hrest.
      - apply (f_equal String.length) in Hs. rewrite length_append, !length_drop_bytes in Hs.
        pose proof (length_print_entry c). lia. }
  all: apply Nat.ltb_ge in E; intros [= <-]; exists []; split; [by rewrite app_nil_r|]; split; [done|].
  all: assert (cursor = String.length input) as -> by lia.
  all: pose proof (length_drop_bytes (String.length input) input) as Hd; rewrite Nat.sub_diag in Hd.
  all: by destruct (drop_bytes _ _).
Qed.

Lemma parse_loop_print fuel input cursor changes k :
  Forall well_formed k -> drop_bytes cursor input = print_status k ->
  (String.length input - cursor <= fuel)%nat ->
  parse_loop fuel input cursor changes = Some (Ok (changes ++ k)%list).
Proof.
  intros Hk. revert fuel cursor changes. induction Hk as [|c k Hc Hk IH]; intros fuel cursor changes Hs Hf.
  - apply (f_equal String.length) in Hs. rewrite length_drop_bytes in Hs. simpl in Hs.
    assert ((cursor <? String.length input)%nat = false) as E by (apply Nat.ltb_ge; lia).
    destruct fuel; simpl; rewrite E; by rewrite app_nil_r.
  - rewrite print_entry_cons in Hs. pose proof (length_print_entry c) as Hl.
    pose proof (f_equal String.length Hs) as Hlen. rewrite length_append, length_drop_bytes in Hlen.
    assert ((cursor <? String.length input)%nat = true) as E by (apply Nat.ltb_lt; lia).
    destruct fuel as [|fuel]; [lia|]. cbn [parse_loop]. rewrite E.
    assert (drop_bytes (cursor + String.length (print_entry c)) input = print_status k) as Hrest
      by (by rewrite drop_bytes_plus, Hs, drop_bytes_app).
    assert (parse_entry input cursor = Ok (c, (cursor + String.length (print_entry c))%nat)) as ->.
    { apply parse_entry_ok. by rewrite Hrest. }
    rewrite IH; [|done|lia]. by rewrite <- app_assoc.
Qed.

(** C30: the porcelain parser is exact: it accepts a text precisely when the
    text is the printing of a list of well-formed changes, and yields that
    list; parsing and printing are inverse of each other. *)
Theorem parse_porcelain_exact input l :
  parse_porcelain_v1_z input = Ok l <-> Forall well_formed l /\ input = print_status l.
Proof.
  unfold parse_porcelain_v1_z. split.
  - destruct (parse_loop _ _ _ _) as [r|] eqn:E; [|done]. intros Hr. simpl in Hr. subst r.
    apply parse_loop_ok in E as (k & -> & Hk & Hs); [|lia]. done.
  - intros [Hl ->]. by rewrite (parse_loop_print _ _ _ [] l) by (done || lia).
Qed.

(** A rename and an untracked file. *)
Definition demo_status : string :=
  "R  new.txt" ++ String nul ("old.txt" ++ String nul ("?? a b" ++ String nul "")).
Definition demo_changes : list GitChange :=
  [{| index_status := "R"; worktree_status := " "; change_kind := Renamed; change_path := "new.txt";
      original_path := Some "old.txt"; content_fingerprint := None |};
   {| index_status := "?"; worktree_status := "?"; change_kind := Untracked; change_path := "a b";
      original_path := None; content_fingerprint := None |}].

Example demo_status_parsed :
  parse_porcelain_v1_z demo_status = Ok demo_changes /\ print_status demo_changes = demo_status /\
  parse_porcelain_v1_z "?? a" = bail "truncated porcelain v1 output: missing NUL after status entry".
Proof. split; [vm_compute; reflexivity|]. split; vm_compute; reflexivity. Qed.

Lemma parse_loop_terminates_witness :
  exists r, parse_loop 28 demo_status 0 [] = Some r /\
    forall more, parse_loop (28 + more) demo_status 0 [] = Some r.
Proof. apply (parse_loop_terminates demo_status 0 [] 28). vm_compute. lia. Defined.

(** ** Matching *)

Lemma find_match_some index before matched after i b :
  find_match index before matched after = Some (i, b) ->
  (index <= i < index + List.length before)%nat /\ before !! (i - index)%nat = Some b /\ (i ∉ matched) /\
  changes_overlap b after = true.
Proof.
  revert index. induction before as [|c before IH]; intros index; simpl; [done|].
  destruct (negb (bool_decide (index ∈ matched)) && changes_overlap c after) eqn:E.
  - intros [= <- <-]. split_bools. rewrite Nat.sub_diag. split; [lia|done].
  - intros (H1 & H2 & H3)%IH. split; [lia|]. split; [|done].
    replace (i - index)%nat with (S (i - S index)) by lia. done.
Qed.

(** The changes reported are those after the build, in order, each with an
    earlier change that shares a path, used once. *)
Record matching (before : list GitChange) (matched : list nat) (after : list GitChange)
    (classified : list ClassifiedGitChange) (final : list nat) : Prop := {
  matching_changes : map cg_change classified = after;
  matching_classify : forall c, c ∈ classified -> c = classify (cg_before c) (cg_change c);
  matching_before : forall c b, c ∈ classified -> cg_before c = Some b ->
    b ∈ before /\ changes_overlap b (cg_change c) = true;
  matching_keeps : forall i, i ∈ matched -> i ∈ final;
  matching_indices : NoDup final /\ Forall (fun i => (i < List.length before)%nat) final;
  matching_used : forall i, i ∈ final -> i ∈ matched \/
    exists c b, c ∈ classified /\ cg_before c = Some b /\ before !! i = Some b;
  matching_length : List.length final =
    (List.length matched + List.length (List.filter existed_before classified))%nat;
}.

Lemma match_changes_spec before matched after classified final :
  match_changes before matched after = (classified, final) ->
  NoDup matched -> Forall (fun i => (i < List.length before)%nat) matched ->
  matching before matched after classified final.
Proof.
  revert matched classified final. induction after as [|a after IH]; intros matched classified final; simpl.
  - intros [= <- <-] Hn Hf. split; simpl; auto; try (by intros ? ?%not_elem_of_nil); try (by intros ? ? ?%not_elem_of_nil).
  - destruct (match_changes _ _ after) as [cs fin] eqn:E. intros [= <- <-] Hn Hf.
    assert (matching before (match find_match 0 before matched a with Some (i, _) => i :: matched | None => matched end)
      after cs fin) as [M1 M2 M3 M4 M5 M6 M7].
    { apply IH; [done|..]; destruct (find_match 0 before matched a) as [[i b]|] eqn:Ef; try done;
        apply find_match_some in Ef as (? & _ & ? & _); constructor; try done; simpl in *; lia. }
    split; simpl.
    + by rewrite M1.
    + intros c [->|Hc]%elem_of_cons; [done|auto].
    + intros c b [->|Hc]%elem_of_cons Hb; [|by apply M3]. simpl in *.
      destruct (find_match 0 before matched a) as [[i b']|] eqn:Ef; [|done]. injection Hb as ->.
      apply find_match_some in Ef as (_ & Hb & _ & Ho). split; [|done]. by eapply list_elem_of_lookup_2.
    + intros i Hi. apply M4. destruct (find_match _ _ _ _) as [[]|]; [by apply elem_of_cons; right|done].
    + done.
    + intros i [Hi|(c & b & Hc & Hb)]%M6; [|right; exists c, b; by rewrite elem_of_cons; split; [right|]].
      destruct (find_match 0 before matched a) as [[j b]|] eqn:Ef; [|by left].
      apply elem_of_cons in Hi as [->|Hi]; [|by left]. right.
      apply find_match_some in Ef as (_ & Hb & _). rewrite Nat.sub_0_r in Hb.
      eexists (classify _ a), b. rewrite elem_of_cons. split; [by left|]. done.
    + rewrite M7. destruct (find_match 0 before matched a) as [[]|]; simpl; lia.
Qed.

(** What is left unmatched. *)
Lemma elem_of_unmatched index before matched b :
  b ∈ unmatched index before matched <->
  exists i, before !! i = Some b /\ (index + i)%nat ∉ matched.
Proof.
  revert index. induction before as [|c before IH]; intros index; simpl.
  { split; [by intros ?%not_elem_of_nil|by intros (i & ? & _)]. }
  case_bool_decide as Hin; rewrite ?elem_of_cons, IH; split.
  - intros (i & Hi & Hm). exists (S i). by rewrite <- plus_n_Sm.
  - intros ([|i] & Hi & Hm); [by rewrite Nat.add_0_r in Hm|]. exists i. by rewrite <- plus_n_Sm in Hm.
  - intros [->|(i & Hi & Hm)]; [exists 0%nat; by rewrite Nat.add_0_r|exists (S i); by rewrite <- plus_n_Sm].
  - intros ([|i] & Hi & Hm); [injection Hi; auto|]. right. exists i. by rewrite <- plus_n_Sm in Hm.
Qed.

Lemma unmatched_count index before matched :
  List.length (unmatched index before matched) =
  List.length (List.filter (fun i => negb (bool_decide (i ∈ matched))) (seq index (List.length before))).
Proof.
  revert index. induction before as [|c before IH]; intros index; simpl; [done|].
  case_bool_decide; simpl; by rewrite IH.
Qed.

Lemma filter_negb_length {A} (f : A -> bool) l :
  (List.length (List.filter f l) + List.length (List.filter (fun x => negb (f x)) l) = List.length l)%nat.
Proof. induction l as [|x l IH]; simpl; [done|]. destruct (f x); simpl; lia. Qed.

Lemma unmatched_length before matched :
  NoDup matched -> Forall (fun i => (i < List.length before)%nat) matched ->
  (List.length matched + List.length (unmatched 0 before matched) = List.length before)%nat.
Proof.
  intros Hn Hf. rewrite unmatched_count.
  pose proof (filter_negb_length (fun i => bool_decide (i ∈ matched)) (seq 0 (List.length before))) as E.
  rewrite length_seq in E. symmetry. rewrite <- E at 1. symmetry. f_equal.
  assert (matched ≡ₚ List.filter (fun i => bool_decide (i ∈ matched)) (seq 0 (List.length before))) as Hp.
  { apply NoDup_Permutation; [done|apply NoDup_ListNoDup, List.NoDup_filter, NoDup_ListNoDup, NoDup_seq|].
    intros i. rewrite (list_elem_of_In (List.filter _ _)), filter_In, bool_decide_eq_true.
    rewrite <- list_elem_of_In, elem_of_seq. rewrite Forall_forall in Hf. split; [|tauto].
    intros Hi. specialize (Hf i Hi). split; [lia|done]. }
  by apply Permutation_length.
Qed.

(** ** The comparison and the strict guard *)

Lemma compare_spec before after diff :
  compare_git_states before after = Ok diff ->
  path_eqb (snapshot_root before) (snapshot_root after) = true /\
  exists final, matching (snapshot_changes before) [] (snapshot_changes after) (changes_after diff) final /\
    resolved_pre_existing diff = unmatched 0 (snapshot_changes before) final /\
    diff_counts diff = count_diff before after (changes_after diff) (resolved_pre_existing diff).
Proof.
  unfold compare_git_states. destruct (path_eqb _ _); simpl; [|done].
  destruct (match_changes _ _ _) as [cs final] eqn:E. intros [= <-]. split; [done|].
  exists final. split; [|done]. eapply match_changes_spec; [exact E|constructor|constructor].
Qed.

Lemma count_if_le {A} (f : A -> bool) l : count_if f l <= N.of_nat (List.length l).
Proof. unfold count_if. pose proof (filter_negb_length f l). lia. Qed.

Lemma count_if_cons {A} (f : A -> bool) x l : count_if f (x :: l) = (if f x then 1 else 0) + count_if f l.
Proof. unfold count_if. simpl. destruct (f x); cbn [List.length]; lia. Qed.

Lemma origins_partition l :
  count_if (has_origin PreExisting) l + count_if (has_origin BuildGenerated) l +
  count_if (has_origin TrackedChanged) l + count_if (has_origin UntrackedGenerated) l +
  count_if (has_origin UnknownOrigin) l = N.of_nat (List.length l).
Proof.
  induction l as [|c l IH]; [done|]. rewrite !count_if_cons. cbn [List.length]. unfold has_origin at 1 3 5 7 9.
  destruct (cg_origin c); repeat case_bool_decide; try done; lia.
Qed.

(** The comparison of two snapshots accounts for every change once: the
    report lists the changes after the build in order, each with its origin,
    the five origins add up to their number, and the earlier changes are
    those matched, each once, and those resolved. *)
Theorem compare_accounts before after diff :
  compare_git_states before after = Ok diff ->
  let c := diff_counts diff in
  map cg_change (changes_after diff) = snapshot_changes after /\
  n_pre_existing c + n_build_generated c + n_tracked_changed c + n_untracked_generated c + n_unknown c =
    n_after c /\
  count_if existed_before (changes_after diff) + n_resolved_pre_existing c = n_before c /\
  (forall b, b ∈ resolved_pre_existing diff -> b ∈ snapshot_changes before).
Proof.
  intros (_ & final & M & Hr & Hc)%compare_spec. cbv zeta. rewrite Hc. unfold count_diff.
  cbn [n_before n_after n_pre_existing n_build_generated n_tracked_changed n_untracked_generated n_unknown
    n_resolved_pre_existing].
  pose proof (matching_changes _ _ _ _ _ M) as Hmap. split; [done|]. split; [|split].
  - rewrite origins_partition. rewrite <- Hmap. by rewrite length_map.
  - rewrite Hr. destruct (matching_indices _ _ _ _ _ M) as [Hn Hf].
    pose proof (unmatched_length _ _ Hn Hf) as E. rewrite (matching_length _ _ _ _ _ M) in E.
    unfold count_if. cbn [List.length] in E. lia.
  - intros b. rewrite Hr. intros (i & Hi & _)%elem_of_unmatched. by eapply list_elem_of_lookup_2.
Qed.

(** Identical lists match index by index. *)
Lemma overlap_refl c : changes_overlap c c = true.
Proof.
  unfold changes_overlap. apply existsb_exists.
  exists (normalize_comparison_path (change_path c)).
  assert (normalize_comparison_path (change_path c) ∈ affected_paths c) as Hin
    by (unfold affected_paths, btree_set; apply elem_of_remove_dups, elem_of_cons; by left).
  rewrite list_elem_of_In in Hin. split; [done|]. apply existsb_exists. eexists. split; [done|]. apply String.eqb_refl.
Qed.

Lemma find_match_here index done_before rest a matched :
  (forall j, (index <= j < index + List.length done_before)%nat -> j ∈ matched) ->
  (index + List.length done_before)%nat ∉ matched ->
  find_match index (done_before ++ a :: rest) matched a = Some ((index + List.length done_before)%nat, a).
Proof.
  rename done_before into k. revert index. induction k as [|b l IH]; intros index Hm Hn; simpl.
  - rewrite Nat.add_0_r in *. rewrite bool_decide_false by done. by rewrite overlap_refl.
  - rewrite bool_decide_true by (apply Hm; simpl; lia). cbn [negb andb].
    cbn [List.length] in Hn. rewrite <- Nat.add_succ_comm in *. apply IH; [|done]. intros j Hj. apply Hm. simpl. lia.
Qed.

Lemma match_identical done_before rest matched :
  (forall j, j ∈ matched <-> (j < List.length done_before)%nat) ->
  exists final, match_changes (done_before ++ rest) matched rest =
    (map (fun c => classify (Some c) c) rest, final) /\
    forall j, j ∈ final <-> (j < List.length done_before + List.length rest)%nat.
Proof.
  rename done_before into l. revert l matched. induction rest as [|a rest IH]; intros l matched Hm; simpl.
  { exists matched. split; [done|]. intros j. rewrite Hm. lia. }
  rewrite (find_match_here 0 l rest a matched); [|intros j Hj; apply Hm; lia|rewrite Hm; lia].
  simpl. replace (l ++ a :: rest)%list with ((l ++ [a]) ++ rest)%list by (by rewrite <- app_assoc).
  destruct (IH (l ++ [a])%list (List.length l :: matched)) as (final & -> & Hf).
  { intros j. rewrite elem_of_cons, Hm, length_app. simpl. lia. }
  exists final. split; [done|]. intros j. rewrite Hf, length_app. simpl. lia.
Qed.

Lemma unmatched_all index before matched :
  (forall j, (index <= j < index + List.length before)%nat -> j ∈ matched) -> unmatched index before matched = [].
Proof.
  revert index. induction before as [|b l IH]; intros index Hm; simpl; [done|].
  rewrite bool_decide_true by (apply Hm; simpl; lia). apply IH. intros j Hj. apply Hm. simpl. lia.
Qed.

(** A build that leaves the worktree as it was passes the strict guard:
    with the same root and the same changes, every change is reported as
    pre-existing, none as resolved, and there is no violation. *)
Theorem unchanged_worktree_passes before after :
  path_eqb (snapshot_root before) (snapshot_root after) = true ->
  snapshot_changes before = snapshot_changes after ->
  exists report diff, from_snapshots before after true = Ok report /\ report_diff report = Some diff /\
    strict_violation report = false /\ resolved_pre_existing diff = [] /\
    changes_after diff = map (fun c => classify (Some c) c) (snapshot_changes after) /\
    Forall (fun c => cg_origin c = PreExisting /\ changed_during_build c = false) (changes_after diff).
Proof.
  intros Hroot Hsame. unfold from_snapshots, compare_git_states. rewrite Hroot. cbn [negb].
  rewrite Hsame. destruct (match_identical [] (snapshot_changes after) []) as (final & E & Hf).
  { intros j. rewrite elem_of_nil. simpl. lia. }
  simpl app in E. rewrite E. cbn [rbind]. eexists _, _. split; [reflexivity|]. split; [reflexivity|].
  cbn [report_diff strict_policy changes_after resolved_pre_existing].
  assert (unmatched 0 (snapshot_changes after) final = []) as Hu.
  { apply unmatched_all. intros j Hj. apply Hf. simpl in *. lia. }
  assert (Forall (fun c => cg_origin c = PreExisting /\ changed_during_build c = false)
    (map (fun c => classify (Some c) c) (snapshot_changes after))) as Hall.
  { apply Forall_forall. intros c (a & -> & _)%list_elem_of_fmap. simpl. by rewrite bool_decide_true. }
  split; [|done]. unfold strict_violation, strict_policy, strict_reasons.
  cbn [strict_policy changes_after resolved_pre_existing strict_passed policy_of]. rewrite Hu.
  assert (List.filter strict_candidate (map (fun c => classify (Some c) c) (snapshot_changes after)) = []) as ->; [|done].
  clear -Hall. induction Hall as [|c l [_ Hc] Hl IH]; simpl; [done|]. unfold strict_candidate at 1. by rewrite Hc, IH.
Qed.

(** What a strict pass means: a tracked change after the build is exactly,
    its fingerprint included, a change that was there before, and every
    tracked change from before shares a path with a change after. *)
Theorem strict_pass_sound before after report :
  from_snapshots before after true = Ok report -> strict_violation report = false ->
  (forall a, a ∈ snapshot_changes after -> is_tracked a = true -> a ∈ snapshot_changes before) /\
  (forall b, b ∈ snapshot_changes before -> is_tracked b = true ->
     exists a, a ∈ snapshot_changes after /\ changes_overlap b a = true).
Proof.
  unfold from_snapshots. intros (diff & Hd & [= <-])%rbind_ok. unfold strict_violation.
  cbn [strict_policy policy_of strict_enabled strict_passed andb]. intros Hp.
  apply compare_spec in Hd as (_ & final & M & Hr & _).
  assert (strict_reasons diff = []) as Hnil by (by destruct (strict_reasons diff)).
  unfold strict_reasons in Hnil. apply app_eq_nil in Hnil as [H1%map_eq_nil H2%map_eq_nil].
  assert (forall c, c ∈ changes_after diff -> strict_candidate c = false) as Hc.
  { intros c Hin. destruct (strict_candidate c) eqn:E; [|done].
    assert (In c []) as []. rewrite <- H1. apply filter_In. by rewrite <- list_elem_of_In. }
  assert (forall b, b ∈ resolved_pre_existing diff -> is_tracked b = false) as Hb.
  { intros b Hin. destruct (is_tracked b) eqn:E; [|done].
    assert (In b []) as []. rewrite <- H2. apply filter_In. by rewrite <- list_elem_of_In. }
  split.
  - intros a Ha Ht. rewrite <- (matching_changes _ _ _ _ _ M) in Ha. apply list_elem_of_fmap in Ha as (c & -> & Hin).
    specialize (Hc c Hin). unfold strict_candidate in Hc. rewrite Ht, andb_true_r in Hc.
    rewrite (matching_classify _ _ _ _ _ M c Hin) in Hc. unfold classify in Hc.
    cbn [changed_during_build] in Hc. apply negb_false_iff in Hc. destruct (cg_before c) as [b|] eqn:Eb; [|done].
    simpl in Hc. apply bool_decide_eq_true in Hc as <-. by eapply (matching_before _ _ _ _ _ M).
  - intros b (i & Hi)%list_elem_of_lookup_1 Ht. destruct (decide (i ∈ final)) as [Hf|Hf].
    + apply (matching_used _ _ _ _ _ M) in Hf as [Hf|(c & b' & Hin & Hcb & Hb')]; [by apply elem_of_nil in Hf|].
      rewrite Hi in Hb'. injection Hb' as <-.
      exists (cg_change c). rewrite <- (matching_changes _ _ _ _ _ M). split; [by apply list_elem_of_fmap_2|].
      by eapply (matching_before _ _ _ _ _ M).
    + exfalso. assert (is_tracked b = false); [|congruence]. apply Hb. rewrite Hr. apply elem_of_unmatched. by exists i.
Qed.

(** ** Concrete snapshots *)

Definition demo_change (x y : ascii) (path : string) (fingerprint : option string) : GitChange := {|
  index_status := x; worktree_status := y; change_kind := classify_kind x y; change_path := path;
  original_path := None; content_fingerprint := fingerprint |}.

Definition demo_snapshot (changes : list GitChange) : GitStateSnapshot := {|
  snapshot_schema_version := 1; snapshot_root := "/repo"; snapshot_changes := changes;
  snapshot_metrics := {| duration_us := 0; status_entries := 0; fingerprinted_files := 0; fingerprinted_bytes := 0 |} |}.

Definition demo_before : GitStateSnapshot :=
  demo_snapshot [demo_change " " "M" "pom.xml" (Some "h1"); demo_change "A" " " "src/New.java" (Some "h2")].
Definition demo_after : GitStateSnapshot :=
  demo_snapshot [demo_change " " "M" "pom.xml" (Some "h1"); demo_change "A" " " "src/New.java" (Some "h2");
                 demo_change "?" "?" "target/x.class" None].

Definition report_of (r : res BuildGitReport) : BuildGitReport :=
  match r with Ok r => r | Err e => unavailable (to_string e) true end.
Definition diff_of (r : res GitStateDiff) : GitStateDiff :=
  match r with
  | Ok d => d
  | Err _ => {| changes_after := []; resolved_pre_existing := [];
                diff_counts := count_diff demo_before demo_before [] [] |}
  end.

Lemma compare_accounts_witness :
  let diff := diff_of (compare_git_states demo_before demo_after) in
  count_if existed_before (changes_after diff) + n_resolved_pre_existing (diff_counts diff) = 2 /\
  n_untracked_generated (diff_counts diff) = 1.
Proof.
  destruct (compare_accounts demo_before demo_after (diff_of (compare_git_states demo_before demo_after)) eq_refl)
    as (_ & _ & H & _).
  split; [exact H|vm_compute; reflexivity].
Defined.

Lemma unchanged_worktree_passes_witness :
  exists report diff, from_snapshots demo_before demo_before true = Ok report /\ report_diff report = Some diff /\
    strict_violation report = false /\ resolved_pre_existing diff = [] /\
    changes_after diff = map (fun c => classify (Some c) c) (snapshot_changes demo_before) /\
    Forall (fun c => cg_origin c = PreExisting /\ changed_during_build c = false) (changes_after diff).
Proof. apply (unchanged_worktree_passes demo_before demo_before); reflexivity. Defined.

Lemma strict_pass_sound_witness :
  strict_violation (report_of (from_snapshots demo_before demo_after true)) = false /\
  forall a, a ∈ snapshot_changes demo_after -> is_tracked a = true -> a ∈ snapshot_changes demo_before.
Proof.
  split; [vm_compute; reflexivity|].
  apply (strict_pass_sound demo_before demo_after (report_of (from_snapshots demo_before demo_after true)));
    vm_compute; reflexivity.
Defined.

(** A file that was staged before the build and is untracked after it: the
    strict guard passes, though the tracked change is gone from the index. *)
Example strict_misses_untracked :
  strict_violation (report_of (from_snapshots
    (demo_snapshot [demo_change "A" " " "src/New.java" (Some "h")])
    (demo_snapshot [demo_change "?" "?" "src/New.java" (Some "h")]) true)) = false.
Proof. vm_compute. reflexivity. Qed.
