(* ===== verification/Transaction.v ===== *)
(** * Apply transactions: data and pure rules
    ([opticcode-tools/src/apply_transaction.rs])

    States and their transitions, mutations, requests, manifests, events,
    results and inspections; the validation of identifiers and relative
    paths; the rules an event and a manifest must satisfy. *)

From stdpp Require Import base list strings.
From Stdlib Require Import NArith Ascii String.
From S2P Require Import Prelude Bytes UnixPath IO Anyhow Paths GitState.

Local Open Scope string_scope.
Local Open Scope N_scope.

Definition APPLY_TRANSACTION_SCHEMA_VERSION : N := 1.
Definition MANIFEST_FILE : string := "manifest.json".
Definition PATCH_FILE : string := "patch.diff".
Definition EVENTS_DIR : string := "events".
Definition BACKUPS_DIR : string := "backups".
Definition WORKSPACE_LOCK_FILE : string := "apply.lock".

(** ** States *)

Inductive ApplyTransactionState :=
| Prepared | Applying | Applied | Finalizing | Committed | RollbackStarted | RolledBack | RollbackFailed.
#[export] Instance ApplyTransactionState_eq_dec : EqDecision ApplyTransactionState.
Proof. solve_decision. Defined.

Definition state_as_str (s : ApplyTransactionState) : string :=
  match s with
  | Prepared => "prepared"
  | Applying => "applying"
  | Applied => "applied"
  | Finalizing => "finalizing"
  | Committed => "committed"
  | RollbackStarted => "rollback_started"
  | RolledBack => "rolled_back"
  | RollbackFailed => "rollback_failed"
  end.

Definition is_terminal (s : ApplyTransactionState) : bool :=
  match s with Committed | RolledBack => true | _ => false end.

Definition valid_transition (current : option ApplyTransactionState) (next : ApplyTransactionState) : bool :=
  match current, next with
  | None, Prepared
  | Some Prepared, Applying
  | Some Prepared, RollbackStarted
  | Some Applying, Applied
  | Some Applying, RollbackStarted
  | Some Applied, Finalizing
  | Some Applied, RollbackStarted
  | Some Finalizing, Committed
  | Some Finalizing, RollbackStarted
  | Some Committed, RollbackStarted
  | Some RollbackStarted, RolledBack
  | Some RollbackStarted, RollbackFailed
  | Some RollbackFailed, RollbackStarted => true
  | _, _ => false
  end.

Definition state_name (s : option ApplyTransactionState) : string :=
  match s with None => "none" | Some s => state_as_str s end.

(** ** Data *)

Inductive ApplyGitPolicy := RequireClean | AllowDirty | Optional.
#[export] Instance ApplyGitPolicy_eq_dec : EqDecision ApplyGitPolicy.
Proof. solve_decision. Defined.

(** [None] is the absence of the file. *)
Record FileMutation := {
  mutation_path : string;
  expected_before : option string;
  desired_after : option string;
}.

Definition replace_mutation (path before after : string) : FileMutation :=
  {| mutation_path := path; expected_before := Some before; desired_after := Some after |}.
Definition create_mutation (path after : string) : FileMutation :=
  {| mutation_path := path; expected_before := None; desired_after := Some after |}.
Definition delete_mutation (path before : string) : FileMutation :=
  {| mutation_path := path; expected_before := Some before; desired_after := None |}.

Record ApplyTransactionRequest := {
  req_workspace : string;
  req_patch : string;
  req_mutations : list FileMutation;
  req_git_policy : ApplyGitPolicy;
  req_copied_from : option string;
  requested_id : option string;
}.

Definition ApplyTransactionRequest_new (workspace patch : string) (mutations : list FileMutation) :
    ApplyTransactionRequest := {|
  req_workspace := workspace; req_patch := patch; req_mutations := mutations;
  req_git_policy := RequireClean; req_copied_from := None; requested_id := None |}.

Record ApplyTransactionValidation := {
  v_git_policy : ApplyGitPolicy;
  v_git_captured : bool;
  v_git_clean : bool;
  v_pre_existing_changes : N;
  v_expected_contents_verified : bool;
}.

Record ApplyTransactionFile := {
  file_path : string;
  file_existed_before : bool;
  before_hash : option string;
  before_bytes : N;
  after_hash : option string;
  after_bytes : N;
  backup_path : option string;
  file_readonly : option bool;
  file_unix_mode : option N;
}.

Record ApplyTransactionManifest := {
  m_schema_version : N;
  m_transaction_id : string;
  m_workspace : string;
  m_copied_from : option string;
  m_created_at_unix_ms : N;
  m_patch_hash : string;
  m_patch_path : string;
  m_files : list ApplyTransactionFile;
  m_validation : ApplyTransactionValidation;
  m_git_before : option GitStateSnapshot;
}.

Record ApplyTransactionEvent := {
  e_schema_version : N;
  e_transaction_id : string;
  e_sequence : N;
  e_recorded_at_unix_ms : N;
  e_state : ApplyTransactionState;
  e_message : string;
  e_files : list string;
  e_errors : list string;
  e_elapsed_ms : N;
  e_git_snapshot : option GitStateSnapshot;
}.

Record ApplyTransactionResult := {
  r_schema_version : N;
  r_transaction_id : string;
  r_workspace : string;
  operation_success : bool;
  r_final_state : ApplyTransactionState;
  rollback_attempted : bool;
  rollback_success : option bool;
  planned_files : list string;
  modified_files : list string;
  restored_files : list string;
  r_errors : list string;
  r_warnings : list string;
  r_duration_ms : N;
  git_restored : option bool;
  transaction_dir : string;
}.

Definition committed (r : ApplyTransactionResult) : bool :=
  operation_success r && bool_decide (r_final_state r = Committed).
Definition rolled_back (r : ApplyTransactionResult) : bool :=
  bool_decide (r_final_state r = RolledBack) && bool_decide (rollback_success r = Some true).
Definition rollback_failed (r : ApplyTransactionResult) : bool :=
  bool_decide (r_final_state r = RollbackFailed).

Record ApplyTransactionInspection := {
  i_schema_version : N;
  i_transaction_id : string;
  i_valid : bool;
  i_legacy : bool;
  i_manifest : option ApplyTransactionManifest;
  i_events : list ApplyTransactionEvent;
  i_final_state : option ApplyTransactionState;
  i_recoverable : bool;
  i_recovery_reasons : list string;
  i_errors : list string;
}.

(** The points at which the tests inject faults; the program runs with
    [NoFaultInjector].  An injector answers by point. *)
Inductive ApplyFaultPoint :=
| AfterFirstBackup | AfterPrepared | BeforeFirstTargetWrite | AfterTargetStaged | AfterFirstTargetWrite
| AfterAllTargetWrites | BeforeFinalization | DuringFinalization | AtRollbackStarted | AfterFirstRestore.

Definition ApplyFaultInjector : Type := ApplyFaultPoint -> res unit.
Definition NoFaultInjector : ApplyFaultInjector := fun _ => Ok tt.

(** [serde_json]'s encoders and decoders, third-party functions; an error is
    its text. *)
Class TransactionSerde := {
  manifest_to_vec : ApplyTransactionManifest -> result string string;
  manifest_from_slice : string -> result ApplyTransactionManifest string;
  event_to_vec : ApplyTransactionEvent -> result string string;
  event_from_slice : string -> result ApplyTransactionEvent string;
}.

(** What is written is read back, trailing newline included. *)
Definition newline : string := String (byte 10) "".
Class TransactionRoundTrip `{TransactionSerde} : Prop := {
  manifest_roundtrip m bytes : manifest_to_vec m = Ok bytes -> manifest_from_slice (bytes ++ newline) = Ok m;
  event_roundtrip e bytes : event_to_vec e = Ok bytes -> event_from_slice (bytes ++ newline) = Ok e;
}.

(** ** Errors *)

Definition transaction_error (kind : ApplyTransactionErrorKind) (message : string) : anyhow :=
  Anyhow [message] (TransactionError kind).
Definition reject {A} (kind : ApplyTransactionErrorKind) (message : string) : res A :=
  Err (transaction_error kind message).

Definition apply_transaction_error_kind (e : anyhow) : option ApplyTransactionErrorKind :=
  match root_cause e with TransactionError kind => Some kind | _ => None end.

(** ** Identifiers and paths *)

Definition is_id_byte (c : ascii) : bool := is_ascii_alphanumeric c || one_of "-_" c.

(** The characters of the identifier are its bytes as soon as they are all
    ASCII, and a byte that is not makes the test fail either way. *)
Definition validate_transaction_id (id : string) : res unit :=
  if is_empty id then reject InvalidTransaction "transaction id is empty"
  else if 160 <? strlen id then reject InvalidTransaction "transaction id is too long"
  else if negb (all_bytes is_id_byte id) then
    reject InvalidTransaction ("transaction id contains invalid characters: " ++ id)
  else Ok tt.

(** The loop over the components; [push] is [join]. *)
Fixpoint normalize_components (path : string) (normalized : string) (cs : list component) : res string :=
  match cs with
  | [] => Ok normalized
  | Normal value :: rest => normalize_components path (join normalized value) rest
  | CurDir :: rest => normalize_components path normalized rest
  | _ => reject Precondition ("transaction path escapes its workspace: " ++ display path)
  end.

Definition validate_relative_path (path : string) : res string :=
  if is_empty path || is_absolute path then
    reject Precondition ("transaction path must be a non-empty relative path: " ++ display path)
  else
    normalized <- normalize_components path "" (components path) ;?
    if is_empty normalized ||
       existsb (fun c => component_str c =?s ".opticcode") (components normalized) then
      reject Precondition ("transaction path is reserved or empty: " ++ display path)
    else if negb (utf8_valid normalized) then
      reject Precondition ("transaction path is not valid Unicode: " ++ display path)
    else Ok normalized.

Definition path_to_portable_string (path : string) : res string :=
  match to_str path with
  | None => reject Precondition ("path is not valid Unicode: " ++ display path)
  | Some value => Ok (replace_backslash value)
  end.

Definition transaction_run_dir (workspace id : string) : string :=
  join (join (join workspace ".opticcode") "runs") id.

Definition relative_transaction_dir (workspace run_dir : string) : string :=
  display (default run_dir (strip_prefix run_dir workspace)).

(** [format!("{sequence:08}-{state}.json")] *)
Definition event_file_name (sequence : N) (state : ApplyTransactionState) : string :=
  dec_pad 8 sequence ++ "-" ++ state_as_str state ++ ".json".

Definition backup_file_name (index : nat) : string := dec_pad 8 (N.of_nat index) ++ ".bin".

(** [usize] to [u64], and [Duration::as_millis] clamped to [u64]. *)
Definition len_u64 (s : string) : N := to_u64_or_max (strlen s).
Definition duration_ms (nanos : N) : N := N.min u64_max (nanos / 1000000).

Definition fingerprint_bytes `{Blake3} (bytes : string) : string :=
  "blake3:" ++ dec (strlen bytes) ++ ":" ++ blake3_hex bytes.

(** ** Git changes *)

Definition effective_git_changes (s : GitStateSnapshot) : list GitChange :=
  List.filter (fun c => negb (existsb (String.eqb ".opticcode") (split_on slash (replace_backslash (change_path c)))))
    (snapshot_changes s).

Definition unrelated_git_changes (s : GitStateSnapshot) (managed : list string) : list GitChange :=
  List.filter (fun c =>
      negb (existsb (String.eqb (replace_backslash (change_path c))) managed) &&
      negb (is_some_and (fun p => existsb (String.eqb (replace_backslash p)) managed) (original_path c)))
    (effective_git_changes s).

(** The portable paths of the managed files below the Git root. *)
Fixpoint managed_paths (workspace root : string) (files : list ApplyTransactionFile) : res (list string) :=
  match files with
  | [] => Ok []
  | file :: rest =>
      relative <- validate_relative_path (file_path file) ;?
      let absolute := join workspace relative in
      match strip_prefix absolute root with
      | None => reject Precondition ("managed transaction file is outside the Git root: " ++ display absolute)
      | Some below =>
          portable <- path_to_portable_string below ;?
          paths <- managed_paths workspace root rest ;?
          Ok (portable :: paths)
      end
  end.

Definition verify_git_state_for_commit (manifest : ApplyTransactionManifest) (after : option GitStateSnapshot) :
    res unit :=
  match m_git_before manifest with
  | None => Ok tt
  | Some before =>
      match after with
      | None => reject Precondition "Git state disappeared before transaction commit"
      | Some after =>
          if negb (path_eqb (snapshot_root before) (snapshot_root after)) then
            reject Precondition ("Git root changed before transaction commit: " ++
              display (snapshot_root before) ++ " -> " ++ display (snapshot_root after))
          else
            managed <- managed_paths (m_workspace manifest) (snapshot_root before) (m_files manifest) ;?
            if bool_decide (unrelated_git_changes before managed = unrelated_git_changes after managed)
            then Ok tt
            else reject Precondition
              "unrelated Git worktree changes appeared or changed during transaction"
      end
  end.

(** ** The rules of a persisted event

    Each rule is a message that is reported when it is broken. *)

Definition report_if (b : bool) (message : string) : list string := if b then [message] else [].

Definition subset (l k : list string) : bool := forallb (fun x => existsb (String.eqb x) k) l.
Definition same_set (l k : list string) : bool := subset l k && subset k l.

Definition claims_no_file (s : ApplyTransactionState) : bool :=
  match s with Prepared | Applying => true | _ => false end.
Definition claims_every_file (s : ApplyTransactionState) : bool :=
  match s with Applied | Finalizing | Committed | RolledBack => true | _ => false end.

Definition validate_event_semantics (event : ApplyTransactionEvent) (manifest : ApplyTransactionManifest)
    (path : string) : list string :=
  let planned := btree_set (map file_path (m_files manifest)) in
  let event_files := btree_set (e_files event) in
  let state := e_state event in
  let snapshot_differs := negb (Bool.eqb (is_some (e_git_snapshot event)) (is_some (m_git_before manifest))) in
  (report_if (negb (List.length event_files =? List.length (e_files event))%nat)
     ("event contains duplicate file paths: " ++ display path) ++
   report_if (negb (subset event_files planned))
     ("event contains a file outside its manifest: " ++ display path) ++
   report_if (claims_no_file state && negb (List.length (e_files event) =? 0)%nat)
     ("event state " ++ state_as_str state ++ " must not claim modified files: " ++ display path) ++
   report_if (claims_every_file state && negb (same_set event_files planned))
     ("event state " ++ state_as_str state ++ " must contain every planned file: " ++ display path) ++
   report_if (is_terminal state && negb (List.length (e_errors event) =? 0)%nat)
     ("successful terminal event contains errors: " ++ display path) ++
   report_if (bool_decide (state = RollbackFailed) && (List.length (e_errors event) =? 0)%nat)
     ("rollback_failed event has no recorded error: " ++ display path) ++
   report_if (bool_decide (state = Committed) && snapshot_differs)
     ("committed event Git snapshot does not match manifest policy: " ++ display path) ++
   report_if (bool_decide (state = RolledBack) && snapshot_differs)
     ("rolled_back event Git snapshot does not match manifest policy: " ++ display path))%list.

(** The checks of the manifest's own fields. *)
Definition manifest_field_errors (manifest : ApplyTransactionManifest) : list string :=
  let v := m_validation manifest in
  (report_if (List.length (m_files manifest) =? 0)%nat "transaction manifest has no planned file" ++
   report_if (negb (Bool.eqb (v_git_captured v) (is_some (m_git_before manifest))))
     "manifest Git capture flag does not match its snapshot" ++
   report_if (negb (v_expected_contents_verified v)) "manifest did not verify expected file contents" ++
   report_if (negb (Bool.eqb (v_git_clean v) (v_pre_existing_changes v =? 0)))
     "manifest Git cleanliness metadata is inconsistent" ++
   report_if (bool_decide (v_git_policy v = RequireClean) && (negb (v_git_captured v) || negb (v_git_clean v)))
     "clean-Git transaction manifest contains an invalid Git state")%list.

(** The result of a run that ended with the given state. *)
Definition result_from_manifest (manifest : ApplyTransactionManifest) (run_dir : string) (success : bool)
    (final_state : ApplyTransactionState) (attempted : bool) (rollback_ok : option bool)
    (modified restored errors warnings : list string) (git : option bool) (duration : N) :
    ApplyTransactionResult := {|
  r_schema_version := APPLY_TRANSACTION_SCHEMA_VERSION;
  r_transaction_id := m_transaction_id manifest;
  r_workspace := m_workspace manifest;
  operation_success := success;
  r_final_state := final_state;
  rollback_attempted := attempted;
  rollback_success := rollback_ok;
  planned_files := map file_path (m_files manifest);
  modified_files := modified;
  restored_files := restored;
  r_errors := errors;
  r_warnings := warnings;
  r_duration_ms := duration_ms duration;
  git_restored := git;
  transaction_dir := relative_transaction_dir (m_workspace manifest) run_dir |}.

Definition invalid_inspection (id error : string) : ApplyTransactionInspection := {|
  i_schema_version := APPLY_TRANSACTION_SCHEMA_VERSION;
  i_transaction_id := id;
  i_valid := false;
  i_legacy := false;
  i_manifest := None;
  i_events := [];
  i_final_state := None;
  i_recoverable := false;
  i_recovery_reasons := [];
  i_errors := [error] |}.
