(* ===== verification/TransactionFs.v ===== *)
(** * Apply transactions: the file operations
    ([opticcode-tools/src/apply_transaction.rs])

    Validation of target locations, reads of targets, staged atomic writes,
    permissions, the workspace lock and the transaction directory, as [IO]
    programs. *)

From stdpp Require Import base list strings.
From Stdlib Require Import NArith Ascii String.
From S2P Require Import Prelude Bytes UnixPath IO Anyhow Paths GitState Transaction.

Local Open Scope string_scope.
Local Open Scope N_scope.

(** ** Small calls *)

Definition metadata_is_link_or_reparse (m : metadata) : bool := is_symlink m.

Definition plain_file (m : metadata) : bool := negb (metadata_is_link_or_reparse m) && is_file m.
Definition plain_dir (m : metadata) : bool := negb (metadata_is_link_or_reparse m) && is_dir m.

Definition is_regular_artifact (path : string) : IO bool :=
  m <- sys (SymlinkMetadata path) ;;
  Ret (match m with Ok m => plain_file m | Err _ => false end).

(** Opening the directory and syncing the handle. *)
Definition sync_directory (path : string) : IO (res unit) :=
  io_map_err (fun e => with_context ("failed to sync directory: " ++ display path) (of_io e))
    (directory <-? sys (OpenRead path) ;; sys (SyncAll directory)).

Definition sync_parent_directory (path : string) : IO (res unit) :=
  match parent path with
  | Some parent => sync_directory parent
  | None => Ret (Ok tt)
  end.

Definition not_found (e : io_error) : bool := bool_decide (io_error_kind e = NotFound).

Definition unix_time_nanos : IO (res N) :=
  io_map_err (fun e => with_context "system time should be after Unix epoch" (failure e)) (sys SystemTime).

Definition unix_time_ms : IO (res N) :=
  nanos <-? unix_time_nanos ;;
  let millis := nanos / 1000000 in
  Ret (if millis <=? u64_max then Ok millis
       else Err (with_context "system timestamp does not fit in u64"
                   (failure "out of range integral type conversion attempted"))).

(** ** Targets *)

(** The loop over the components of the relative path. *)
Fixpoint validate_components (current : string) (cs : list component) : IO (res unit) :=
  match cs with
  | [] => Ret (Ok tt)
  | c :: rest =>
      let current := join current (component_str c) in
      let is_target := match rest with [] => true | _ => false end in
      m <- sys (SymlinkMetadata current) ;;
      match m with
      | Ok m =>
          if metadata_is_link_or_reparse m then
            Ret (reject Precondition ("transaction path contains a symlink or reparse point: " ++ display current))
          else if (negb is_target && negb (is_dir m)) || (is_target && negb (is_file m)) then
            Ret (reject Precondition ("transaction path component has an invalid type: " ++ display current))
          else validate_components current rest
      | Err e =>
          if not_found e then
            if is_target then Ret (Ok tt)
            else Ret (reject Precondition ("transaction target parent must already exist: " ++ display current))
          else Ret (Err (with_context ("failed to inspect transaction path: " ++ display current) (of_io e)))
      end
  end.

Definition validate_target_location (workspace relative : string) : IO (res unit) :=
  relative <-? lift (validate_relative_path relative) ;;
  let target := join workspace relative in
  validate_components workspace (components relative) ;;?
  match parent target with
  | None => Ret (reject Precondition ("transaction target has no parent: " ++ display target))
  | Some parent =>
      dir <- path_is_dir parent ;;
      if negb dir then
        Ret (reject Precondition ("transaction target parent must already exist: " ++ display parent))
      else
        canonical <- sys (Canonicalize parent) ;;
        match canonical with
        | Err e =>
            Ret (reject Precondition ("failed to resolve target parent " ++ display parent ++ ": " ++ io_error_display e))
        | Ok canonical_parent =>
            if negb (path_starts_with canonical_parent workspace) then
              Ret (reject Precondition ("transaction target escapes workspace: " ++ display target))
            else Ret (Ok tt)
        end
  end.

Definition read_optional_regular_file (path : string) : IO (res (option string)) :=
  m <- sys (SymlinkMetadata path) ;;
  match m with
  | Ok m =>
      if negb (plain_file m) then
        Ret (reject Precondition ("transaction path is not a regular file: " ++ display path))
      else
        bytes <-? io_context ("failed to read transaction file: " ++ display path) (ReadFile path) ;;
        Ret (Ok (Some bytes))
  | Err e =>
      if not_found e then Ret (Ok None)
      else Ret (Err (with_context ("failed to inspect transaction file: " ++ display path) (of_io e)))
  end.

Definition read_validated_target (workspace relative : string) : IO (res (option string)) :=
  validate_target_location workspace relative ;;?
  read_optional_regular_file (join workspace relative).

(** ** Staged writes *)

Definition unique_temp_path (directory label : string) : IO string :=
  counter <- sys FetchAddUnique ;;
  pid <- sys ProcessId ;;
  Ret (join directory (".opticcode-" ++ label ++ "-" ++ dec pid ++ "-" ++ dec counter ++ ".tmp")).

Definition write_synced_file (path bytes : string) : IO (res unit) :=
  file <-? io_context ("failed to create temporary file: " ++ display path) (CreateNew path) ;;
  io_context ("failed to write temporary file: " ++ display path) (WriteAll file bytes) ;;?
  io_call (Flush file) ;;?
  io_context ("failed to sync temporary file: " ++ display path) (SyncAll file) ;;?
  Ret (Ok tt).

(** On Unix both publications are [fs::rename]. *)
Definition move_new_file (source destination : string) : IO (io unit) := sys (Rename source destination).
Definition replace_existing_file (source destination : string) : IO (io unit) := sys (Rename source destination).

(** [let _ = fs::remove_file(&temp); return Err(error)] *)
Definition discard {A} (temp : string) (e : anyhow) : IO (res A) :=
  sys (RemoveFile temp) ;; Ret (Err e).

Definition write_new_atomic (path bytes : string) : IO (res unit) :=
  exists_already <- path_exists path ;;
  if exists_already then
    Ret (reject Collision ("refusing to overwrite existing transaction artifact: " ++ display path))
  else
    match parent path with
    | None => Ret (reject Io ("transaction artifact has no parent: " ++ display path))
    | Some directory =>
        let label := match file_name path with
                     | Some name => default "artifact" (to_str name)
                     | None => "artifact"
                     end in
        temp <- unique_temp_path directory label ;;
        write_synced_file temp bytes ;;?
        moved <- move_new_file temp path ;;
        match moved with
        | Err e =>
            discard temp (with_context ("failed to publish transaction artifact " ++ display path) (of_io e))
        | Ok _ => sync_directory directory
        end
    end.

Definition atomic_replace_bytes_checked (workspace relative bytes : string) (expected_current : option string)
    (staged_faults : option ApplyFaultInjector) : IO (res unit) :=
  validate_target_location workspace relative ;;?
  let path := join workspace relative in
  match parent path with
  | None => Ret (reject Io ("target file has no parent: " ++ display path))
  | Some directory =>
      temp <- unique_temp_path directory "target" ;;
      write_synced_file temp bytes ;;?
      match (match staged_faults with Some faults => faults AfterTargetStaged | None => Ok tt end) with
      | Err e => discard temp e
      | Ok _ =>
          read <- read_validated_target workspace relative ;;
          match read with
          | Err e => discard temp e
          | Ok current =>
              if negb (bool_decide (current = expected_current)) then
                discard temp (transaction_error Precondition
                  ("concurrent file change detected after staging temporary content: " ++ display relative))
              else
                moved <- (if is_some current then replace_existing_file temp path else move_new_file temp path) ;;
                match moved with
                | Err e => discard temp (with_context ("failed to replace " ++ display path) (of_io e))
                | Ok _ => sync_directory directory
                end
          end
      end
  end.

(** ** Permissions *)

Definition unix_mode (m : metadata) : option N := Some (permissions_mode m).

(** [permissions.set_readonly(readonly); set_unix_mode(&mut permissions, ..)] *)
Definition restored_mode (readonly : bool) (recorded : option N) (mode : N) : N :=
  default (mode_set_readonly readonly mode) recorded.

Definition restore_permissions (workspace relative : string) (record : ApplyTransactionFile) : IO (res unit) :=
  match file_readonly record with
  | None => Ret (Ok tt)
  | Some readonly =>
      validate_target_location workspace relative ;;?
      let path := join workspace relative in
      m <-? io_call (FollowMetadata path) ;;
      io_context ("failed to restore permissions: " ++ display path)
        (SetPermissions path (restored_mode readonly (file_unix_mode record) (permissions_mode m)))
  end.

(** ** JSON artifacts *)

Definition write_json_new_atomic (path : string) (encoded : result string string) : IO (res unit) :=
  bytes <-? lift (map_err failure encoded) ;;
  write_new_atomic path (bytes ++ newline).

Definition read_json {T} (decode : string -> result T string) (path : string) : IO (res T) :=
  bytes <-? io_context ("failed to read " ++ display path) (ReadFile path) ;;
  Ret (map_err (fun e => with_context ("failed to parse " ++ display path) (failure e)) (decode bytes)).

Definition fingerprint_file `{Blake3} (path : string) : IO (res string) :=
  bytes <-? io_context ("failed to hash " ++ display path) (ReadFile path) ;;
  Ret (Ok (fingerprint_bytes bytes)).

(** ** The workspace lock *)

(** [.opticcode] as a directory, created when it is missing. *)
Definition ensure_metadata_root (workspace opticcode_dir : string) : IO (res unit) :=
  m <- sys (SymlinkMetadata opticcode_dir) ;;
  match m with
  | Ok m =>
      if metadata_is_link_or_reparse m || negb (is_dir m) then
        Ret (reject Precondition
          ("transaction metadata root is not a regular directory: " ++ display opticcode_dir))
      else Ret (Ok tt)
  | Err e =>
      if not_found e then
        io_context ("failed to create transaction metadata root: " ++ display opticcode_dir)
          (CreateDir opticcode_dir) ;;?
        sync_directory workspace
      else Ret (Err (with_context
        ("failed to inspect transaction metadata root: " ++ display opticcode_dir) (of_io e)))
  end.

(** After the lock is taken; a failure closes the file and with it releases
    the lock. *)
Definition sync_lock (lock_path opticcode_dir file : string) : IO (res unit) :=
  synced <- (io_context ("failed to sync transaction lock: " ++ display lock_path) (SyncAll file) ;;?
             sync_directory opticcode_dir) ;;
  match synced with
  | Ok _ => Ret (Ok tt)
  | Err e => sys (CloseFile file) ;; Ret (Err e)
  end.

Definition acquire (workspace : string) : IO (res string) :=
  let opticcode_dir := join workspace ".opticcode" in
  ensure_metadata_root workspace opticcode_dir ;;?
  canonical <-? io_context ("failed to resolve transaction metadata root: " ++ display opticcode_dir)
    (Canonicalize opticcode_dir) ;;
  if negb (path_starts_with canonical workspace) then
    Ret (reject Precondition ("transaction metadata root escapes workspace: " ++ display opticcode_dir))
  else
    let lock_path := join opticcode_dir WORKSPACE_LOCK_FILE in
    m <- sys (SymlinkMetadata lock_path) ;;
    if (match m with Ok m => metadata_is_link_or_reparse m || negb (is_file m) | Err _ => false end) then
      Ret (reject Precondition ("transaction lock is not a regular file: " ++ display lock_path))
    else
      file <-? io_context ("failed to open transaction lock: " ++ display lock_path) (OpenCreate lock_path) ;;
      locked <- sys (TryLock file) ;;
      match locked with
      | Err WouldBlock =>
          Ret (reject Precondition ("workspace already has an active apply or recovery: " ++ display workspace))
      | Err (LockError e) =>
          Ret (reject Io ("failed to acquire transaction lock " ++ display lock_path ++ ": " ++ io_error_display e))
      | Ok _ =>
          sync_lock lock_path opticcode_dir file ;;?
          Ret (Ok file)
      end.

(** A scope that holds the lock: the guard is dropped on every way out. *)
Definition with_lock {A} (file : string) (body : IO (res A)) : IO (res A) :=
  r <- body ;;
  sys (Unlock file) ;;
  Ret r.

(** ** The transaction directory *)

Definition verify_workspace_directory (workspace path label : string) : IO (res unit) :=
  m <-? io_context ("failed to inspect " ++ label ++ ": " ++ display path) (SymlinkMetadata path) ;;
  if metadata_is_link_or_reparse m || negb (is_dir m) then
    Ret (reject Precondition (label ++ " is not a regular directory: " ++ display path))
  else
    canonical <-? io_context ("failed to resolve " ++ label ++ ": " ++ display path) (Canonicalize path) ;;
    if negb (path_starts_with canonical workspace) then
      Ret (reject Precondition (label ++ " escapes workspace: " ++ display path))
    else sync_directory path.

Definition ensure_workspace_directory (workspace path label : string) : IO (res unit) :=
  m <- sys (SymlinkMetadata path) ;;
  match m with
  | Ok _ => verify_workspace_directory workspace path label
  | Err e =>
      if not_found e then
        io_context ("failed to create " ++ label ++ ": " ++ display path) (CreateDir path) ;;?
        match parent path with Some parent => sync_directory parent | None => Ret (Ok tt) end ;;?
        verify_workspace_directory workspace path label
      else Ret (Err (with_context ("failed to inspect " ++ label ++ ": " ++ display path) (of_io e)))
  end.

(** [fs::create_dir] of the run directory: [None] when the name is taken. *)
Definition create_run_directory (workspace runs_dir run_dir : string) : IO (res bool) :=
  made <- sys (CreateDir run_dir) ;;
  match made with
  | Ok _ =>
      sync_directory runs_dir ;;?
      verify_workspace_directory workspace run_dir "transaction directory" ;;?
      Ret (Ok true)
  | Err e =>
      if bool_decide (io_error_kind e = AlreadyExists) then Ret (Ok false)
      else Ret (Err (with_context "failed to create transaction directory" (of_io e)))
  end.

(** [for _ in 0..100] *)
Fixpoint generate_transaction_id (attempts : nat) (workspace runs_dir : string) : IO (res (string * string)) :=
  match attempts with
  | O => Ret (reject Collision "could not allocate a unique transaction identifier")
  | S attempts =>
      counter <- sys FetchAddUnique ;;
      nanos <-? unix_time_nanos ;;
      pid <- sys ProcessId ;;
      let id := "apply-" ++ dec nanos ++ "-" ++ dec pid ++ "-" ++ dec counter in
      let run_dir := join runs_dir id in
      made <-? create_run_directory workspace runs_dir run_dir ;;
      if made : bool then Ret (Ok (id, run_dir)) else generate_transaction_id attempts workspace runs_dir
  end.

Definition create_transaction_directory (workspace : string) (requested : option string) :
    IO (res (string * string)) :=
  let runs_dir := join (join workspace ".opticcode") "runs" in
  ensure_workspace_directory workspace runs_dir "transaction runs directory" ;;?
  match requested with
  | Some id =>
      lift (validate_transaction_id id) ;;?
      let run_dir := join runs_dir id in
      made <-? create_run_directory workspace runs_dir run_dir ;;
      if made : bool then Ret (Ok (id, run_dir))
      else Ret (reject Collision ("transaction already exists: " ++ id))
  | None => generate_transaction_id 100 workspace runs_dir
  end.
