(* ===== verification/TransactionRun.v ===== *)
(** * Apply transactions: the operations
    ([opticcode-tools/src/apply_transaction.rs])

    The journal, the preparation and execution of a transaction, the
    inspection of a run directory, rollback and recovery, the listing and
    the apply log. *)

From stdpp Require Import base list strings.
From Stdlib Require Import NArith Ascii String.
From S2P Require Import Prelude Bytes UnixPath IO Anyhow Paths GitState Transaction TransactionFs.

Local Open Scope string_scope.
Local Open Scope N_scope.

(** ** The journal

    [&mut self] methods return the journal they leave. *)

Record TransactionJournal := {
  j_transaction_id : string;
  j_events_dir : string;
  j_started_at : N;
  j_current_state : option ApplyTransactionState;
  j_next_sequence : N;
}.

Definition advance (j : TransactionJournal) (state : ApplyTransactionState) (next : N) : TransactionJournal := {|
  j_transaction_id := j_transaction_id j; j_events_dir := j_events_dir j; j_started_at := j_started_at j;
  j_current_state := Some state; j_next_sequence := next |}.

(** [next_sequence] as [checked_add(1)] leaves it. *)
Definition after_event (j : TransactionJournal) (state : ApplyTransactionState) :
    TransactionJournal * res unit :=
  if j_next_sequence j <? u32_max then (advance j state (j_next_sequence j + 1), Ok tt)
  else (advance j state (j_next_sequence j),
        reject InvalidTransaction "transaction event sequence overflow").

Definition transition `{TransactionSerde} (j : TransactionJournal) (next_state : ApplyTransactionState)
    (message : string) (files errors : list string) (git : option GitStateSnapshot) :
    IO (TransactionJournal * res unit) :=
  if negb (valid_transition (j_current_state j) next_state) then
    Ret (j, reject InvalidTransaction ("invalid transaction state transition: " ++
      state_name (j_current_state j) ++ " -> " ++ state_as_str next_state))
  else
    recorded_at <- unix_time_ms ;;
    match recorded_at with
    | Err e => Ret (j, Err e)
    | Ok recorded_at =>
        now <- sys InstantNow ;;
        let event := {|
          e_schema_version := APPLY_TRANSACTION_SCHEMA_VERSION;
          e_transaction_id := j_transaction_id j;
          e_sequence := j_next_sequence j;
          e_recorded_at_unix_ms := recorded_at;
          e_state := next_state;
          e_message := message;
          e_files := files;
          e_errors := errors;
          e_elapsed_ms := duration_ms (now - j_started_at j);
          e_git_snapshot := git |} in
        let path := join (j_events_dir j) (event_file_name (j_next_sequence j) next_state) in
        written <- write_json_new_atomic path (event_to_vec event) ;;
        match written with
        | Err e => Ret (j, Err (with_context ("failed to append transaction event: " ++ display path) e))
        | Ok _ => Ret (after_event j next_state)
        end
    end.

(** ** Git at the ends of a transaction *)

Section Git.
Context `{Blake3}.

Definition capture_git_for_policy (workspace : string) (policy : ApplyGitPolicy) :
    IO (res (option GitStateSnapshot)) :=
  captured <- capture_git_state workspace ;;
  Ret (match captured with
       | Ok snapshot => Ok (Some snapshot)
       | Err e =>
           if bool_decide (policy = Optional) then Ok None
           else reject Precondition ("transaction requires a Git worktree: " ++ alternate e)
       end).

Definition capture_git_for_manifest (manifest : ApplyTransactionManifest) : IO (res (option GitStateSnapshot)) :=
  match m_git_before manifest with
  | None => Ret (Ok None)
  | Some _ =>
      snapshot <-? capture_git_state (m_workspace manifest) ;;
      Ret (Ok (Some snapshot))
  end.

Definition verify_git_restored (manifest : ApplyTransactionManifest) :
    IO (res (option bool * option GitStateSnapshot)) :=
  match m_git_before manifest with
  | None => Ret (Ok (None, None))
  | Some before =>
      after <-? capture_git_state (m_workspace manifest) ;;
      let restored := bool_decide (effective_git_changes before = effective_git_changes after) in
      Ret (Ok (Some restored, Some after))
  end.
End Git.

(** ** Mutations *)

(** The loop of [validate_and_sort_mutations], before the sort. *)
Fixpoint validate_mutations (workspace : string) (seen : list string) (mutations : list FileMutation) :
    IO (res (list FileMutation)) :=
  match mutations with
  | [] => Ret (Ok [])
  | mutation :: rest =>
      path <-? lift (validate_relative_path (mutation_path mutation)) ;;
      validate_target_location workspace path ;;?
      portable <-? lift (path_to_portable_string path) ;;
      if existsb (String.eqb portable) seen then
        Ret (reject Precondition ("duplicate transaction file: " ++ portable))
      else if bool_decide (expected_before mutation = desired_after mutation) then
        Ret (reject Precondition ("transaction mutation has no content change: " ++ portable))
      else
        normalized <-? validate_mutations workspace (portable :: seen) rest ;;
        Ret (Ok ({| mutation_path := path; expected_before := expected_before mutation;
                    desired_after := desired_after mutation |} :: normalized))
  end.

Definition validate_and_sort_mutations (workspace : string) (mutations : list FileMutation) :
    IO (res (list FileMutation)) :=
  normalized <-? validate_mutations workspace [] mutations ;;
  Ret (Ok (sort_by (fun l r => path_cmp (mutation_path l) (mutation_path r)) normalized)).

Definition apply_mutation (workspace : string) (mutation : FileMutation) (record : ApplyTransactionFile)
    (faults : ApplyFaultInjector) : IO (res unit) :=
  let path := mutation_path mutation in
  let target := join workspace path in
  current <-? read_validated_target workspace path ;;
  if negb (bool_decide (current = expected_before mutation)) then
    Ret (reject Precondition ("concurrent file change detected immediately before apply: " ++ display path))
  else
    match desired_after mutation with
    | Some bytes =>
        io_map_err (with_context ("failed to atomically write target file: " ++ display target))
          (atomic_replace_bytes_checked workspace path bytes (expected_before mutation) (Some faults)) ;;?
        restore_permissions workspace path record ;;?
        actual <-? read_validated_target workspace path ;;
        if bool_decide (actual = Some bytes) then Ret (Ok tt)
        else Ret (reject Io ("target verification failed after write: " ++ display target))
    | None =>
        latest <-? read_validated_target workspace path ;;
        if negb (bool_decide (latest = expected_before mutation)) then
          Ret (reject Precondition ("concurrent file change detected immediately before delete: " ++ display path))
        else
          io_context ("failed to delete target file: " ++ display target) (RemoveFile target) ;;?
          sync_parent_directory target ;;?
          remaining <-? read_validated_target workspace path ;;
          if is_some remaining then Ret (reject Io ("delete target still exists: " ++ display target))
          else Ret (Ok tt)
    end.

Fixpoint verify_mutations_applied (workspace : string) (mutations : list FileMutation) : IO (res unit) :=
  match mutations with
  | [] => Ret (Ok tt)
  | mutation :: rest =>
      current <-? read_validated_target workspace (mutation_path mutation) ;;
      if bool_decide (current = desired_after mutation) then verify_mutations_applied workspace rest
      else Ret (reject Precondition
        ("transaction target changed before finalization: " ++ display (mutation_path mutation)))
  end.

(** ** Preparation *)

Record PreparedTransaction := {
  p_workspace : string;
  p_run_dir : string;
  p_manifest : ApplyTransactionManifest;
  p_mutations : list FileMutation;
  p_journal : TransactionJournal;
  p_started_at : N;
  p_lock : string;
}.

Definition prepared_result (p : PreparedTransaction) (elapsed : N) (success : bool)
    (final_state : ApplyTransactionState) (attempted : bool) (rollback_ok : option bool)
    (modified restored errors warnings : list string) (git : option bool) : ApplyTransactionResult := {|
  r_schema_version := APPLY_TRANSACTION_SCHEMA_VERSION;
  r_transaction_id := m_transaction_id (p_manifest p);
  r_workspace := display (p_workspace p);
  operation_success := success;
  r_final_state := final_state;
  rollback_attempted := attempted;
  rollback_success := rollback_ok;
  planned_files := map file_path (m_files (p_manifest p));
  modified_files := modified;
  restored_files := restored;
  r_errors := errors;
  r_warnings := warnings;
  r_duration_ms := duration_ms elapsed;
  git_restored := git;
  transaction_dir := relative_transaction_dir (p_workspace p) (p_run_dir p) |}.

Section Prepare.
Context `{Blake3, TransactionSerde}.
Context (faults : ApplyFaultInjector).

(** The record of one mutation, its backup written. *)
Definition backup_mutation (workspace run_dir : string) (index : nat) (mutation : FileMutation) :
    IO (res ApplyTransactionFile) :=
  let absolute_path := join workspace (mutation_path mutation) in
  before <-? read_optional_regular_file absolute_path ;;
  if negb (bool_decide (before = expected_before mutation)) then
    Ret (reject Precondition ("file changed after patch planning or did not match its expected state: " ++
      display (mutation_path mutation)))
  else
    m <- sys (FollowMetadata absolute_path) ;;
    let metadata := ok m in
    let relative := join BACKUPS_DIR (backup_file_name index) in
    match before with
    | None => Ret (Ok tt)
    | Some bytes =>
        io_map_err (with_context ("failed to persist transaction backup for " ++ display (mutation_path mutation)))
          (write_new_atomic (join run_dir relative) bytes)
    end ;;?
    portable <-? lift (path_to_portable_string (mutation_path mutation)) ;;
    backup <-? lift (match before with
                     | None => Ok None
                     | Some _ => map_ok Some (path_to_portable_string relative)
                     end) ;;
    Ret (Ok {|
      file_path := portable;
      file_existed_before := is_some before;
      before_hash := option_map fingerprint_bytes before;
      before_bytes := match before with Some bytes => len_u64 bytes | None => 0 end;
      after_hash := option_map fingerprint_bytes (desired_after mutation);
      after_bytes := match desired_after mutation with Some bytes => len_u64 bytes | None => 0 end;
      backup_path := backup;
      file_readonly := option_map (fun m => mode_readonly (permissions_mode m)) metadata;
      file_unix_mode := match metadata with Some m => unix_mode m | None => None end |}).

Fixpoint backup_mutations (workspace run_dir : string) (index : nat) (mutations : list FileMutation) :
    IO (res (list ApplyTransactionFile)) :=
  match mutations with
  | [] => Ret (Ok [])
  | mutation :: rest =>
      file <-? backup_mutation workspace run_dir index mutation ;;
      (match index with
       | O => lift (faults AfterFirstBackup)
       | S _ => Ret (Ok tt)
       end) ;;?
      files <-? backup_mutations workspace run_dir (S index) rest ;;
      Ret (Ok (file :: files))
  end.

Definition dirty_message (count : N) : string :=
  "transaction requires a clean Git worktree; found " ++ dec count ++
  " pre-existing change(s) outside .opticcode".

Definition change_count (s : GitStateSnapshot) : N := N.of_nat (List.length (effective_git_changes s)).

(** The directories and the patch of a new transaction. *)
Definition create_run_layout (run_dir patch : string) : IO (res unit) :=
  let backups_dir := join run_dir BACKUPS_DIR in
  let events_dir := join run_dir EVENTS_DIR in
  let patch_path := join run_dir PATCH_FILE in
  io_context ("failed to create transaction backups: " ++ display backups_dir) (CreateDir backups_dir) ;;?
  io_context ("failed to create transaction events: " ++ display events_dir) (CreateDir events_dir) ;;?
  sync_directory run_dir ;;?
  io_map_err (with_context ("failed to persist transaction patch: " ++ display patch_path))
    (write_new_atomic patch_path patch).

(** Everything after the lock. *)
Definition prepare_locked (request : ApplyTransactionRequest) (started_at : N) (workspace : string)
    (mutations : list FileMutation) (lock : string) : IO (res PreparedTransaction) :=
  let policy := req_git_policy request in
  git_before <-? capture_git_for_policy workspace policy ;;
  let pre_existing := match git_before with Some s => change_count s | None => 0 end in
  let git_clean := pre_existing =? 0 in
  if bool_decide (policy = RequireClean) && negb git_clean then
    Ret (reject Precondition (dirty_message pre_existing))
  else
    let!? (id, run_dir) := create_transaction_directory workspace (requested_id request) in
    create_run_layout run_dir (req_patch request) ;;?
    files <-? backup_mutations workspace run_dir 0 mutations ;;
    created_at <-? unix_time_ms ;;
    let manifest := {|
      m_schema_version := APPLY_TRANSACTION_SCHEMA_VERSION;
      m_transaction_id := id;
      m_workspace := display workspace;
      m_copied_from := option_map display (req_copied_from request);
      m_created_at_unix_ms := created_at;
      m_patch_hash := fingerprint_bytes (req_patch request);
      m_patch_path := PATCH_FILE;
      m_files := files;
      m_validation := {| v_git_policy := policy; v_git_captured := is_some git_before;
                         v_git_clean := git_clean; v_pre_existing_changes := pre_existing;
                         v_expected_contents_verified := true |};
      m_git_before := git_before |} in
    io_map_err (with_context ("failed to persist transaction manifest: " ++ display run_dir))
      (write_json_new_atomic (join run_dir MANIFEST_FILE) (manifest_to_vec manifest)) ;;?
    let journal := {| j_transaction_id := id; j_events_dir := join run_dir EVENTS_DIR;
                      j_started_at := started_at; j_current_state := None; j_next_sequence := 0 |} in
    let! (journal, prepared) :=
      transition journal Prepared "patch, manifest and rollback backups durably prepared" [] [] None in
    match prepared with
    | Err e => Ret (Err e)
    | Ok _ =>
        Ret (Ok {| p_workspace := workspace; p_run_dir := run_dir; p_manifest := manifest;
                   p_mutations := mutations; p_journal := journal; p_started_at := started_at;
                   p_lock := lock |})
    end.

(** With a required clean worktree, Git is asked before the lock as well. *)
Definition git_preflight (workspace : string) (policy : ApplyGitPolicy) : IO (res unit) :=
  if bool_decide (policy = RequireClean) then
    preflight <-? capture_git_for_policy workspace policy ;;
    match preflight with
    | None => Panic "required Git policy should capture a snapshot"
    | Some snapshot =>
        if change_count snapshot =? 0 then Ret (Ok tt)
        else Ret (reject Precondition (dirty_message (change_count snapshot)))
    end
  else Ret (Ok tt).

(** The lock is in the prepared transaction; a failure drops it. *)
Definition prepare_transaction (request : ApplyTransactionRequest) : IO (res PreparedTransaction) :=
  started_at <- sys InstantNow ;;
  canonical <- sys (Canonicalize (req_workspace request)) ;;
  match canonical with
  | Err e =>
      Ret (reject Precondition ("failed to resolve transaction workspace " ++ display (req_workspace request) ++
        ": " ++ io_error_display e))
  | Ok workspace =>
      dir <- path_is_dir workspace ;;
      if negb dir then
        Ret (reject Precondition ("transaction workspace is not a directory: " ++ display workspace))
      else match req_mutations request with
      | [] => Ret (reject Precondition "transaction must contain at least one file mutation")
      | _ =>
          mutations <-? validate_and_sort_mutations workspace (req_mutations request) ;;
          git_preflight workspace (req_git_policy request) ;;?
          lock <-? acquire workspace ;;
          prepared <- prepare_locked request started_at workspace mutations lock ;;
          match prepared with
          | Ok p => Ret (Ok p)
          | Err e => sys (Unlock lock) ;; Ret (Err e)
          end
      end
  end.
End Prepare.

(** ** Rollback *)

Section Restore.
Context `{Blake3}.

(** The target whose content is that of after the transaction gets its
    backup back. *)
Definition restore_backup (workspace run_dir : string) (file : ApplyTransactionFile) (relative : string)
    (current : option string) : IO (res unit) :=
  let target := join workspace relative in
  backup_relative <-? lift (ok_or (transaction_error InvalidTransaction
    ("backup path is missing for " ++ file_path file)) (backup_path file)) ;;
  backup_relative <-? lift (validate_relative_path backup_relative) ;;
  let backup := join run_dir backup_relative in
  if negb (path_starts_with backup run_dir) then
    Ret (reject InvalidTransaction ("backup escapes transaction directory: " ++ file_path file))
  else
    bytes <-? io_context ("failed to read backup: " ++ display backup) (ReadFile backup) ;;
    expected_hash <-? lift (ok_or (transaction_error InvalidTransaction
      ("backup hash is missing for " ++ file_path file)) (before_hash file)) ;;
    if negb (fingerprint_bytes bytes =?s expected_hash) then
      Ret (reject InvalidTransaction ("backup hash mismatch for " ++ file_path file))
    else
      io_map_err (with_context ("failed to restore target: " ++ display target))
        (atomic_replace_bytes_checked workspace relative bytes current None) ;;?
      restore_permissions workspace relative file ;;?
      restored <-? read_validated_target workspace relative ;;
      if bool_decide (option_map fingerprint_bytes restored = Some expected_hash) then Ret (Ok tt)
      else Ret (reject Io ("restored file hash mismatch for " ++ file_path file)).

(** The file the transaction created is removed. *)
Definition remove_created (workspace : string) (file : ApplyTransactionFile) (relative : string)
    (current : option string) : IO (res unit) :=
  let target := join workspace relative in
  latest <-? read_validated_target workspace relative ;;
  if negb (bool_decide (latest = current)) then
    Ret (reject Precondition
      ("refusing to remove a transaction-created file changed concurrently: " ++ file_path file))
  else
    io_context ("failed to remove transaction-created file: " ++ display target) (RemoveFile target) ;;?
    sync_parent_directory target.

Definition restore_transaction_file (workspace run_dir : string) (file : ApplyTransactionFile) : IO (res unit) :=
  relative <-? lift (validate_relative_path (file_path file)) ;;
  current <-? read_validated_target workspace relative ;;
  let current_hash := option_map fingerprint_bytes current in
  if bool_decide (current_hash = before_hash file) then
    if file_existed_before file then restore_permissions workspace relative file else Ret (Ok tt)
  else if negb (bool_decide (current_hash = after_hash file)) then
    Ret (reject Precondition
      ("refusing to overwrite a file changed outside the transaction: " ++ file_path file))
  else if file_existed_before file then restore_backup workspace run_dir file relative current
  else match current with
       | Some _ => remove_created workspace file relative current
       | None => Ret (Ok tt)
       end.

(** The loop over the files in reverse; it stops at the first failure.  The
    files restored, and the errors. *)
Fixpoint restore_files (faults : ApplyFaultInjector) (workspace run_dir : string) (first : bool)
    (reversed : list ApplyTransactionFile) (restored : list string) : IO (list string * list string) :=
  match reversed with
  | [] => Ret (restored, [])
  | file :: rest =>
      outcome <- restore_transaction_file workspace run_dir file ;;
      match outcome with
      | Err e => Ret (restored, ["failed to restore " ++ file_path file ++ ": " ++ alternate e])
      | Ok _ =>
          let restored := (restored ++ [file_path file])%list in
          match (if first then faults AfterFirstRestore else Ok tt) with
          | Err e => Ret (restored, ["rollback restoration interrupted: " ++ alternate e])
          | Ok _ => restore_files faults workspace run_dir false rest restored
          end
      end
  end.

Fixpoint verify_manifest_files_restored (workspace : string) (files : list ApplyTransactionFile) : IO (res bool) :=
  match files with
  | [] => Ret (Ok true)
  | file :: rest =>
      relative <-? lift (validate_relative_path (file_path file)) ;;
      current <-? read_validated_target workspace relative ;;
      if negb (bool_decide (option_map fingerprint_bytes current = before_hash file)) then Ret (Ok false)
      else if file_existed_before file then
        m <-? io_call (SymlinkMetadata (join workspace relative)) ;;
        if negb (bool_decide (file_readonly file = Some (mode_readonly (permissions_mode m)))) ||
           negb (bool_decide (file_unix_mode file = unix_mode m)) then Ret (Ok false)
        else verify_manifest_files_restored workspace rest
      else verify_manifest_files_restored workspace rest
  end.

Definition git_differs_message : string := "Git state after rollback differs from the pre-transaction state".

Definition rollback_manifest `{TransactionSerde} (faults : ApplyFaultInjector) (workspace run_dir : string)
    (manifest : ApplyTransactionManifest) (journal : TransactionJournal) (modified : list string)
    (reason : string) (rollback_operation : bool) (started_at : N) :
    IO (TransactionJournal * res ApplyTransactionResult) :=
  let! (journal, start_errors) :=
    if bool_decide (j_current_state journal = Some RollbackStarted) then Ret (journal, []) else
      let! (journal, started) :=
        transition journal RollbackStarted "automatic or explicit rollback started" modified [reason] None in
      Ret (journal, match started with
                    | Ok _ => []
                    | Err e => ["failed to journal rollback start: " ++ alternate e]
                    end) in
  let! (restored, restore_errors) :=
    match faults AtRollbackStarted with
    | Err e => Ret ([], ["rollback start failed: " ++ alternate e])
    | Ok _ => restore_files faults workspace run_dir true (rev (m_files manifest)) []
    end in
  verified <- verify_git_restored manifest ;;
  let '(git, snapshot, git_errors) :=
    match verified with
    | Ok (git, snapshot) => (git, snapshot, [])
    | Err e => (Some false, None, ["failed to verify Git state after rollback: " ++ alternate e])
    end in
  let errors := (start_errors ++ restore_errors ++ git_errors)%list in
  let errors := (errors ++ report_if
    (bool_decide (git = Some false) && negb (existsb (str_contains "Git state") errors)) git_differs_message)%list in
  let content_rollback_ok := (List.length errors =? 0)%nat && negb (bool_decide (git = Some false)) in
  let! (journal, journaled) :=
    transition journal (if content_rollback_ok then RolledBack else RollbackFailed)
      (if content_rollback_ok then "rollback completed and verified" else "rollback did not complete cleanly")
      restored (if content_rollback_ok then [] else errors) snapshot in
  let errors := (errors ++ match journaled with
                           | Ok _ => []
                           | Err e => [("failed to journal rollback result: " ++ alternate e)%string]
                           end)%list in
  let rollback_ok := content_rollback_ok && (List.length errors =? 0)%nat in
  now <- sys InstantNow ;;
  Ret (journal, Ok (result_from_manifest manifest run_dir (rollback_operation && rollback_ok)
    (if rollback_ok then RolledBack else RollbackFailed) true (Some rollback_ok) modified restored
    ((if rollback_operation then [] else [reason]) ++ errors) [] git (now - started_at))).
End Restore.

(** ** Execution

    The closure that applies the mutations changes the journal and the list
    of modified files, and stops at the first error: a state and error
    monad over [IO]. *)

Definition progress : Type := TransactionJournal * list string.
Definition phase (A : Type) : Type := progress -> IO (progress * res A).

Definition phase_ret {A} (r : res A) : phase A := fun s => Ret (s, r).
Definition phase_bind {A B} (m : phase A) (f : A -> phase B) : phase B := fun s =>
  let! (s, r) := m s in
  match r with Ok a => f a s | Err e => Ret (s, Err e) end.
Definition phase_io {A} (m : IO (res A)) : phase A := fun s => r <- m ;; Ret (s, r).

Declare Scope phase_scope.
Delimit Scope phase_scope with phase.
Notation "x <~ m ;; k" := (phase_bind m (fun x => k))
  (at level 100, m at next level, right associativity) : phase_scope.
Notation "m ;;~ k" := (phase_bind m (fun _ => k))
  (at level 100, right associativity) : phase_scope.
Local Open Scope phase_scope.

(** [context.journal.transition(state, message, modified_files.clone(), ..)] *)
Definition phase_transition `{TransactionSerde} (state : ApplyTransactionState) (message : string)
    (with_files : bool) (git : option GitStateSnapshot) : phase unit := fun s =>
  let! (journal, r) := transition s.1 state message (if with_files then s.2 else []) [] git in
  Ret ((journal, s.2), r).

(** [modified_files.push(..)] *)
Definition phase_push (path : string) : phase unit := fun s => Ret ((s.1, (s.2 ++ [path])%list), Ok tt).

Section Execute.
Context `{Blake3, TransactionSerde}.
Context (faults : ApplyFaultInjector).

Definition at_first (index : nat) (point : ApplyFaultPoint) : phase unit :=
  phase_ret (match index with O => faults point | S _ => Ok tt end).

Fixpoint apply_mutations (workspace : string) (index : nat) (mutations : list FileMutation)
    (records : list ApplyTransactionFile) : phase unit :=
  match mutations with
  | [] => phase_ret (Ok tt)
  | mutation :: rest =>
      at_first index BeforeFirstTargetWrite ;;~
      match records with
      | [] => fun _ => Panic "index out of bounds"
      | record :: records =>
          phase_io (apply_mutation workspace mutation record faults) ;;~
          portable <~ phase_ret (path_to_portable_string (mutation_path mutation)) ;;
          phase_push portable ;;~
          at_first index AfterFirstTargetWrite ;;~
          apply_mutations workspace (S index) rest records
      end
  end.

Definition apply_phase (p : PreparedTransaction) : phase unit :=
  phase_ret (faults AfterPrepared) ;;~
  phase_transition Applying "target file application started" false None ;;~
  apply_mutations (p_workspace p) 0 (p_mutations p) (m_files (p_manifest p)) ;;~
  phase_ret (faults AfterAllTargetWrites) ;;~
  phase_io (verify_mutations_applied (p_workspace p) (p_mutations p)) ;;~
  phase_transition Applied "all planned target files were applied and verified" true None ;;~
  phase_ret (faults BeforeFinalization) ;;~
  phase_transition Finalizing "transaction finalization started" true None ;;~
  phase_ret (faults DuringFinalization) ;;~
  git_after <~ phase_io (capture_git_for_manifest (p_manifest p)) ;;
  phase_ret (verify_git_state_for_commit (p_manifest p) git_after) ;;~
  phase_io (verify_mutations_applied (p_workspace p) (p_mutations p)) ;;~
  phase_transition Committed "transaction committed" true git_after.

Definition rollback_prepared_context (p : PreparedTransaction) (journal : TransactionJournal)
    (modified : list string) (reason : string) (rollback_operation : bool) :
    IO (TransactionJournal * res ApplyTransactionResult) :=
  rollback_manifest faults (p_workspace p) (p_run_dir p) (p_manifest p) journal modified reason
    rollback_operation (p_started_at p).

(** The prepared transaction holds the lock until the function returns. *)
Definition execute_prepared (p : PreparedTransaction) : IO (res ApplyTransactionResult) :=
  let! ((journal, modified), applied) := apply_phase p (p_journal p, []) in
  match applied with
  | Ok _ =>
      now <- sys InstantNow ;;
      Ret (Ok (prepared_result p (now - p_started_at p) true Committed false None modified [] [] [] None))
  | Err e =>
      let! (_, r) := rollback_prepared_context p journal modified (alternate e) false in
      Ret r
  end.

Definition execute_apply_transaction_with_faults (request : ApplyTransactionRequest) :
    IO (res ApplyTransactionResult) :=
  p <-? prepare_transaction faults request ;;
  with_lock (p_lock p) (execute_prepared p).
End Execute.

Definition execute_apply_transaction `{Blake3, TransactionSerde} (request : ApplyTransactionRequest) :
    IO (res ApplyTransactionResult) :=
  execute_apply_transaction_with_faults NoFaultInjector request.

(** ** Inspection *)

Section Inspect.
Context `{Blake3, TransactionSerde}.

(** The checks of one recorded file and its backup. *)
Definition file_path_errors (seen : list string) (file : ApplyTransactionFile) : list string * list string :=
  match validate_relative_path (file_path file) with
  | Ok path =>
      let portable := replace_backslash (to_string_lossy path) in
      if existsb (String.eqb portable) seen
      then (seen, ["duplicate manifest file path: " ++ file_path file])
      else (portable :: seen, [])
  | Err e => (seen, ["invalid manifest file path `" ++ file_path file ++ "`: " ++ alternate e])
  end.

Definition backup_errors (run_dir : string) (index : nat) (file : ApplyTransactionFile) : IO (list string) :=
  if file_existed_before file then
    let expected_backup := BACKUPS_DIR ++ "/" ++ backup_file_name index in
    if negb (bool_decide (backup_path file = Some expected_backup)) then
      Ret ["manifest backup path is missing or unexpected for " ++ file_path file]
    else match before_hash file with
    | None => Ret ["manifest backup hash is missing for " ++ file_path file]
    | Some expected_hash =>
        let backup := join run_dir expected_backup in
        regular <- is_regular_artifact backup ;;
        if negb regular then
          Ret ["manifest backup is a symlink, reparse point, or non-file for " ++ file_path file]
        else
          bytes <- sys (ReadFile backup) ;;
          Ret (match bytes with
               | Ok bytes =>
                   report_if (negb (len_u64 bytes =? before_bytes file))
                     ("manifest backup size differs for " ++ file_path file) ++
                   report_if (negb (fingerprint_bytes bytes =?s expected_hash))
                     ("manifest backup BLAKE3 differs for " ++ file_path file)
               | Err e => [("manifest backup cannot be read for " ++ file_path file ++ ": " ++ io_error_display e)%string]
               end)%list
    end
  else
    Ret (report_if (is_some (before_hash file) || negb (before_bytes file =? 0) || is_some (backup_path file) ||
                    is_some (file_readonly file) || is_some (file_unix_mode file))
      ("new file contains inconsistent pre-transaction metadata: " ++ file_path file)).

Fixpoint file_record_errors (run_dir : string) (index : nat) (seen : list string)
    (files : list ApplyTransactionFile) : IO (list string) :=
  match files with
  | [] => Ret []
  | file :: rest =>
      let '(seen, path_errors) := file_path_errors seen file in
      backup <- backup_errors run_dir index file ;;
      others <- file_record_errors run_dir (S index) seen rest ;;
      Ret (path_errors ++
           report_if (negb (is_some (after_hash file)) && negb (after_bytes file =? 0))
             ("deleted file has inconsistent post-apply size: " ++ file_path file) ++
           backup ++ others)%list
  end.

Definition validate_manifest_artifacts (run_dir : string) (manifest : ApplyTransactionManifest) :
    IO (list string) :=
  let backups_dir := join run_dir BACKUPS_DIR in
  m <- sys (SymlinkMetadata backups_dir) ;;
  match m with
  | Ok m =>
      if plain_dir m then
        errors <- file_record_errors run_dir 0 [] (m_files manifest) ;;
        Ret (manifest_field_errors manifest ++ errors)%list
      else Ret (manifest_field_errors manifest ++
        ["transaction backups directory is a symlink, reparse point, or non-directory"])%list
  | Err e => Ret (manifest_field_errors manifest ++
      [("transaction backups directory cannot be inspected: " ++ io_error_display e)%string])%list
  end.

(** The patch artifact against its recorded hash. *)
Definition patch_errors (run_dir : string) (manifest : ApplyTransactionManifest) : IO (list string) :=
  if negb (m_patch_path manifest =?s PATCH_FILE) then
    Ret ["transaction patch path must be `" ++ PATCH_FILE ++ "`, found `" ++ m_patch_path manifest ++ "`"]
  else
    regular <- is_regular_artifact (join run_dir PATCH_FILE) ;;
    same <- (if negb regular then Ret false else
      hash <- fingerprint_file (join run_dir PATCH_FILE) ;;
      Ret (bool_decide (ok hash = Some (m_patch_hash manifest)))) ;;
    Ret (report_if (negb same) "transaction patch is missing or its BLAKE3 hash differs").

Definition manifest_errors (workspace id run_dir : string) (manifest : ApplyTransactionManifest) :
    IO (list string) :=
  patch <- patch_errors run_dir manifest ;;
  artifacts <- validate_manifest_artifacts run_dir manifest ;;
  Ret (report_if (negb (m_schema_version manifest =? APPLY_TRANSACTION_SCHEMA_VERSION))
         ("unsupported transaction schema version: " ++ dec (m_schema_version manifest)) ++
       report_if (negb (m_transaction_id manifest =?s id))
         "manifest transaction id does not match its directory" ++
       report_if (negb (path_eqb (m_workspace manifest) workspace))
         ("manifest workspace does not match inspected workspace: " ++ m_workspace manifest) ++
       patch ++ artifacts)%list.

(** The loop over the event files, with the sequence number expected next
    and the state reached. *)
Definition event_errors (id path : string) (manifest : option ApplyTransactionManifest) (expected : N)
    (current : option ApplyTransactionState) (event : ApplyTransactionEvent) : list string :=
  (report_if (negb (e_schema_version event =? APPLY_TRANSACTION_SCHEMA_VERSION))
     ("event " ++ display path ++ " has unsupported schema version " ++ dec (e_schema_version event)) ++
   report_if (negb (e_transaction_id event =?s id))
     ("event " ++ display path ++ " has a mismatched transaction id") ++
   report_if (negb (e_sequence event =? expected))
     ("event sequence mismatch: expected " ++ dec expected ++ ", found " ++ dec (e_sequence event)) ++
   report_if (negb (valid_transition current (e_state event)))
     ("invalid persisted transition: " ++ state_name current ++ " -> " ++ state_as_str (e_state event)) ++
   report_if (negb (bool_decide (match file_name path with Some n => to_str n | None => None end =
                                 Some (event_file_name (e_sequence event) (e_state event)))))
     ("event filename does not match its sequence/state: " ++ display path) ++
   match manifest with Some m => validate_event_semantics event m path | None => [] end)%list.

Definition next_expected (event : ApplyTransactionEvent) : N := N.min u32_max (e_sequence event + 1).

Fixpoint inspect_events (id : string) (manifest : option ApplyTransactionManifest) (expected : N)
    (current : option ApplyTransactionState) (paths : list string) :
    IO (list ApplyTransactionEvent * list string) :=
  match paths with
  | [] => Ret ([], [])
  | path :: rest =>
      regular <- is_regular_artifact path ;;
      if negb regular then
        let! (events, errors) := inspect_events id manifest expected current rest in
        Ret (events, ("transaction event is a symlink, reparse point, or non-file: " ++ display path) :: errors)
      else
        decoded <- read_json event_from_slice path ;;
        match decoded with
        | Err e =>
            let! (events, errors) := inspect_events id manifest expected current rest in
            Ret (events, ("invalid or truncated transaction event " ++ display path ++ ": " ++ alternate e) :: errors)
        | Ok event =>
            let! (events, errors) :=
              inspect_events id manifest (next_expected event) (Some (e_state event)) rest in
            Ret (event :: events, (event_errors id path manifest expected current event ++ errors)%list)
        end
  end.

Definition is_json (path : string) : bool := bool_decide (extension path = Some "json").

Definition inspect_journal (id run_dir : string) (manifest : option ApplyTransactionManifest) :
    IO (list ApplyTransactionEvent * list string) :=
  let events_dir := join run_dir EVENTS_DIR in
  m <- sys (SymlinkMetadata events_dir) ;;
  if (match m with Ok m => plain_dir m | Err _ => false end) then
    listed <- sys (ReadDir events_dir) ;;
    let '(paths, list_errors) :=
      match listed with
      | Ok entries => (List.filter is_json (omap ok entries), [])
      | Err e => ([], ["failed to read transaction events: " ++ io_error_display e])
      end in
    let! (events, errors) := inspect_events id manifest 0 None (sort_by path_cmp paths) in
    Ret (events, (list_errors ++ errors ++
      report_if (List.length events =? 0)%nat "transaction has no readable state event")%list)
  else Ret ([], ["transaction events directory is missing"]).

Definition recoverable_state (s : option ApplyTransactionState) : bool :=
  match s with Some s => negb (is_terminal s) | None => false end.

(** A run directory without a manifest: a legacy run has only its patch. *)
Definition inspect_legacy (id run_dir : string) : IO ApplyTransactionInspection :=
  patch <- is_regular_artifact (join run_dir PATCH_FILE) ;;
  backups <- (if patch then path_exists (join run_dir BACKUPS_DIR) else Ret true) ;;
  events <- (if patch && negb backups then path_exists (join run_dir EVENTS_DIR) else Ret true) ;;
  let legacy := patch && negb backups && negb events in
  Ret {| i_schema_version := APPLY_TRANSACTION_SCHEMA_VERSION;
         i_transaction_id := id;
         i_valid := legacy;
         i_legacy := legacy;
         i_manifest := None;
         i_events := [];
         i_final_state := None;
         i_recoverable := false;
         i_recovery_reasons := if legacy then ["legacy apply run can only use reverse-patch undo"] else [];
         i_errors := if legacy then [] else ["transaction manifest is missing"] |}.

Definition inspect_with_manifest (workspace id run_dir : string) : IO ApplyTransactionInspection :=
  decoded <- read_json manifest_from_slice (join run_dir MANIFEST_FILE) ;;
  let manifest := ok decoded in
  m_errors <- match decoded with
              | Ok m => manifest_errors workspace id run_dir m
              | Err e => Ret ["invalid transaction manifest: " ++ alternate e]
              end ;;
  let! (events, e_errors) := inspect_journal id run_dir manifest in
  let errors := (m_errors ++ e_errors)%list in
  let final_state := option_map e_state (last events) in
  let valid := (List.length errors =? 0)%nat in
  let recoverable := valid && recoverable_state final_state in
  Ret {| i_schema_version := APPLY_TRANSACTION_SCHEMA_VERSION;
         i_transaction_id := id;
         i_valid := valid;
         i_legacy := false;
         i_manifest := manifest;
         i_events := events;
         i_final_state := final_state;
         i_recoverable := recoverable;
         i_recovery_reasons :=
           if recoverable then
             [("transaction ended in non-terminal state `" ++ state_name final_state ++
              "` and has validated backups")%string]
           else [];
         i_errors := errors |}.

Definition inspect_run_directory (workspace id run_dir : string) : IO ApplyTransactionInspection :=
  m <- sys (SymlinkMetadata run_dir) ;;
  match m with
  | Err e => Ret (invalid_inspection id ("failed to inspect transaction directory: " ++ io_error_display e))
  | Ok m =>
      if negb (plain_dir m) then
        Ret (invalid_inspection id "transaction directory is a symlink, reparse point, or non-directory")
      else
        m <- sys (SymlinkMetadata (join run_dir MANIFEST_FILE)) ;;
        match m with
        | Err e =>
            if not_found e then inspect_legacy id run_dir
            else Ret (invalid_inspection id ("failed to inspect transaction manifest: " ++ io_error_display e))
        | Ok m =>
            if negb (plain_file m) then
              Ret (invalid_inspection id "transaction manifest is a symlink, reparse point, or non-file")
            else inspect_with_manifest workspace id run_dir
        end
  end.

Definition unresolved {A} (e : io_error) : res A :=
  reject InvalidTransaction ("failed to resolve transaction workspace: " ++ io_error_display e).

Definition inspect_apply_transaction (workspace id : string) : IO (res ApplyTransactionInspection) :=
  lift (validate_transaction_id id) ;;?
  canonical <- sys (Canonicalize workspace) ;;
  match canonical with
  | Err e => Ret (unresolved e)
  | Ok workspace =>
      let run_dir := transaction_run_dir workspace id in
      m <- sys (SymlinkMetadata run_dir) ;;
      match m with
      | Ok _ => inspection <- inspect_run_directory workspace id run_dir ;; Ret (Ok inspection)
      | Err e =>
          Ret (if not_found e then reject InvalidTransaction ("transaction not found: " ++ id)
               else Err (with_context ("failed to inspect transaction: " ++ display run_dir) (of_io e)))
      end
  end.

(** The entries of the runs directory, in directory order. *)
Fixpoint list_entries (workspace : string) (entries : list (io string)) :
    IO (res (list ApplyTransactionInspection)) :=
  match entries with
  | [] => Ret (Ok [])
  | entry :: rest =>
      path <-? lift (map_err of_io entry) ;;
      m <-? io_call (SymlinkMetadata path) ;;
      if negb (is_dir m) && negb (metadata_is_link_or_reparse m) then list_entries workspace rest
      else
        let id := to_string_lossy (default "" (file_name path)) in
        inspection <- (if is_ok (validate_transaction_id id) then inspect_run_directory workspace id path
                       else Ret (invalid_inspection id "transaction directory has an invalid identifier")) ;;
        others <-? list_entries workspace rest ;;
        Ret (Ok (inspection :: others))
  end.

Definition list_apply_transactions (workspace : string) : IO (res (list ApplyTransactionInspection)) :=
  canonical <- sys (Canonicalize workspace) ;;
  match canonical with
  | Err e => Ret (unresolved e)
  | Ok workspace =>
      let runs_dir := join (join workspace ".opticcode") "runs" in
      dir <- path_is_dir runs_dir ;;
      if negb dir then Ret (Ok []) else
      entries <-? io_context ("failed to list transactions: " ++ display runs_dir) (ReadDir runs_dir) ;;
      transactions <-? list_entries workspace entries ;;
      Ret (Ok (sort_by (fun l r => str_cmp (i_transaction_id l) (i_transaction_id r)) transactions))
  end.

(** ** Rollback and recovery of a persisted transaction *)

(** A transaction that is rolled back already: only verified. *)
Definition already_rolled_back (workspace run_dir : string) (manifest : ApplyTransactionManifest) :
    IO (res ApplyTransactionResult) :=
  restored <-? verify_manifest_files_restored workspace (m_files manifest) ;;
  if negb restored then
    Ret (reject Precondition "transaction was rolled back, but a managed file changed afterwards")
  else
    let!? (git, _) := verify_git_restored manifest in
    if bool_decide (git = Some false) then
      Ret (reject Precondition "transaction was rolled back, but Git state changed afterwards")
    else
      Ret (Ok (result_from_manifest manifest run_dir true RolledBack false (Some true) []
        (map file_path (m_files manifest)) [] ["transaction was already rolled back"] git 0)).

(** What is done once the inspection is there. *)
Definition rollback_inspected (faults : ApplyFaultInjector) (workspace id reason : string)
    (inspection : ApplyTransactionInspection) : IO (res ApplyTransactionResult) :=
  if i_legacy inspection then
    Ret (reject InvalidTransaction "legacy apply run requires reverse-patch undo")
  else if negb (i_valid inspection) then
    Ret (reject InvalidTransaction ("transaction is invalid: " ++ join_with "; " (i_errors inspection)))
  else match i_manifest inspection with
  | None => Ret (reject InvalidTransaction "transaction manifest is unavailable")
  | Some manifest =>
      let run_dir := transaction_run_dir workspace id in
      match i_final_state inspection with
      | None => Ret (reject InvalidTransaction "transaction has no state event")
      | Some final_state =>
          if bool_decide (final_state = RolledBack) then already_rolled_back workspace run_dir manifest
          else if bool_decide (final_state = Committed) && str_contains "recovery" reason then
            Ret (reject Precondition "committed transaction is not incomplete; use explicit apply --undo")
          else
            started_at <- sys InstantNow ;;
            let count := N.of_nat (List.length (i_events inspection)) in
            if u32_max <? count then Ret (reject InvalidTransaction "too many transaction events") else
            let journal := {| j_transaction_id := id; j_events_dir := join run_dir EVENTS_DIR;
                              j_started_at := started_at; j_current_state := Some final_state;
                              j_next_sequence := count |} in
            let! (_, r) :=
              rollback_manifest faults workspace run_dir manifest journal [] reason true started_at in
            Ret r
      end
  end.

Definition rollback_apply_transaction_with_faults (faults : ApplyFaultInjector) (workspace id reason : string) :
    IO (res ApplyTransactionResult) :=
  lift (validate_transaction_id id) ;;?
  canonical <- sys (Canonicalize workspace) ;;
  match canonical with
  | Err e => Ret (unresolved e)
  | Ok workspace =>
      lock <-? acquire workspace ;;
      with_lock lock (
        inspection <-? inspect_apply_transaction workspace id ;;
        rollback_inspected faults workspace id reason inspection)
  end.

Definition rollback_apply_transaction (workspace id : string) : IO (res ApplyTransactionResult) :=
  rollback_apply_transaction_with_faults NoFaultInjector workspace id "explicit rollback requested".

Definition recover_apply_transaction (workspace id : string) : IO (res ApplyTransactionResult) :=
  rollback_apply_transaction_with_faults NoFaultInjector workspace id "recovery rollback requested".
End Inspect.

(** ** The apply log *)

Definition append_to_log (log_path json : string) : IO (res unit) :=
  m <- sys (SymlinkMetadata log_path) ;;
  (match m with
   | Ok m =>
       if plain_file m then Ret (Ok tt)
       else Ret (reject Precondition
         ("apply-log index is a symlink, reparse point, or non-file: " ++ display log_path))
   | Err e =>
       if not_found e then Ret (Ok tt)
       else Ret (Err (with_context ("failed to inspect apply-log: " ++ display log_path) (of_io e)))
   end) ;;?
  log <-? io_context ("failed to open apply-log: " ++ display log_path) (OpenCreate log_path) ;;
  io_call (WriteAll log json) ;;?
  io_call (WriteAll log newline) ;;?
  io_call (Flush log) ;;?
  io_call (SyncAll log) ;;?
  sync_parent_directory log_path ;;?
  Ret (Ok tt).

Definition append_apply_log_index (workspace json : string) : IO (res unit) :=
  canonical <- sys (Canonicalize workspace) ;;
  match canonical with
  | Err e => Ret (reject Io ("failed to resolve apply-log workspace: " ++ io_error_display e))
  | Ok workspace =>
      lock <-? acquire workspace ;;
      with_lock lock (append_to_log (join (join workspace ".opticcode") "apply-log.jsonl") json)
  end.
