(* ===== verification/TransactionFacts.v ===== *)
(** * Apply transactions: paths, journals and inspections

    The exact set of relative paths a transaction accepts; the journal as a
    path of the state machine; and what a valid inspection guarantees, for
    every possible answer of the file system. *)

From stdpp Require Import base list strings.
From Stdlib Require Import NArith Ascii String Lia.
From S2P Require Import Prelude Bytes UnixPath IO Anyhow Paths GitState Transaction TransactionFs TransactionRun.

Local Open Scope string_scope.
Local Open Scope N_scope.

(** ** Relative paths *)

(** The names of a path: its normal components. *)
Definition path_names (p : string) : list string :=
  omap (fun c => match c with Normal n => Some n | _ => None end) (components p).

(** The text of a relative path. *)
Abbreviation rel := (join_with "/").

Lemma body_segments_free p : Forall (fun x => any_byte (Ascii.eqb slash) x = false) (body_segments p).
Proof.
  unfold body_segments, segments. pose proof (split_on_free slash p) as Hf.
  destruct (is_absolute p); [by destruct (split_on slash p); [|inversion Hf]|].
  destruct (split_on slash p) as [|[|[b0 b1 b2 b3 b4 b5 b6 b7] s] l]; [done..|].
  repeat match goal with b : bool |- _ => destruct b end; try done; destruct s; [by inversion Hf|done].
Qed.

Lemma path_names_valid p : valid_names (path_names p).
Proof.
  unfold path_names, components. rewrite omap_app. apply Forall_app. split.
  { destruct (is_absolute p), (leading_cur_dir p); simpl; constructor. }
  pose proof (body_segments_free p) as Hf. induction Hf as [|s l Hs Hl IH]; simpl; [constructor|].
  destruct (skipped s) eqn:E; simpl; [done|]. unfold seg_component at 1.
  destruct (s =?s "..") eqn:Ed; [done|]. simpl. constructor; [|done]. unfold valid_name. by rewrite E, Ed, Hs.
Qed.

Lemma starts_not_slash n s : valid_name n = true -> is_absolute (n ++ s) = false.
Proof.
  intros (Hn & _ & _ & Hs)%valid_name_spec. destruct n as [|c n]; [done|]. rewrite append_cons. simpl in *.
  apply orb_false_iff in Hs as [Hs _]. by rewrite Ascii.eqb_sym.
Qed.

Lemma rel_relative l : valid_names l -> is_absolute (rel l) = false.
Proof.
  intros [|n k Hn Hk]; [done|].
  assert (rel (n :: k) = n ++ match k with [] => "" | _ => "/" ++ rel k end) as ->; [|by apply starts_not_slash].
  destruct k; [|done]. simpl. clear Hn Hk. induction n as [|c n IH]; [done|]. by rewrite append_cons, <- IH.
Qed.

Lemma rel_body l : valid_names l -> l <> [] -> body_segments (rel l) = l /\ leading_cur_dir (rel l) = false.
Proof.
  intros Hv Hl. unfold body_segments, leading_cur_dir. rewrite (rel_relative l Hv). unfold segments.
  rewrite split_join by done. destruct Hv as [|n k (_ & Hdot & _)%valid_name_spec Hk]; [done|].
  destruct n as [|[b0 b1 b2 b3 b4 b5 b6 b7] s]; [done|].
  repeat match goal with b : bool |- _ => destruct b end; try done; by destruct s.
Qed.

Lemma seg_component_valid l : valid_names l -> map seg_component l = map Normal l.
Proof.
  intros Hv. apply map_ext_in. intros n Hn. rewrite <- list_elem_of_In in Hn.
  unfold valid_names in Hv. rewrite Forall_forall in Hv. apply Hv, valid_name_spec in Hn as (_ & _ & Hd & _).
  unfold seg_component. by rewrite (proj2 (String.eqb_neq _ _) Hd).
Qed.

Lemma components_rel l : valid_names l -> components (rel l) = map Normal l.
Proof.
  intros Hv. destruct (decide (l = [])) as [->|Hl]; [done|].
  unfold components. destruct (rel_body l Hv Hl) as [-> ->]. rewrite (rel_relative l Hv). simpl.
  rewrite filter_unskipped by done. by apply seg_component_valid.
Qed.

Lemma path_names_rel l : valid_names l -> path_names (rel l) = l.
Proof. intros Hv. unfold path_names. rewrite components_rel by done. clear Hv. induction l as [|n l IH]; [done|]. cbn. f_equal. exact IH. Qed.

Lemma rel_nonempty l : valid_names l -> l <> [] -> is_empty (rel l) = false.
Proof.
  intros Hv Hl. apply String.eqb_neq. intros E. pose proof (components_rel l Hv) as Hc. rewrite E in Hc.
  destruct l; [done|]. by vm_compute in Hc.
Qed.

Lemma rel_no_trailing l : valid_names l -> ends_with "/" (rel l) = false.
Proof.
  intros Hv. destruct (decide (l = [])) as [->|Hl]; [done|]. destruct (exists_last Hl) as (k & m & ->).
  apply Forall_app in Hv as [Hk Hm]. apply Forall_inv in Hm.
  destruct (decide (k = [])) as [->|Hk']; [by apply (ends_with_slash_snoc "")|].
  rewrite join_with_snoc, <- append_assoc by done. by apply ends_with_slash_snoc.
Qed.

Lemma join_rel l n : valid_names l -> valid_name n = true -> join (rel l) n = rel (l ++ [n]).
Proof.
  intros Hv Hn. unfold join. assert (is_absolute n = false) as ->.
  { pose proof (starts_not_slash n "" Hn) as E. by rewrite append_empty in E. }
  destruct (decide (l = [])) as [->|Hl]; [done|].
  rewrite rel_nonempty, rel_no_trailing by done. by rewrite join_with_snoc.
Qed.

(** Pushing the normal components one by one. *)
Lemma normalize_components_ok p l cs r :
  valid_names l -> Forall (fun c => forall n, c = Normal n -> valid_name n = true) cs ->
  normalize_components p (rel l) cs = Ok r <->
  (RootDir ∉ cs) /\ (ParentDir ∉ cs) /\
  r = rel (l ++ omap (fun c => match c with Normal n => Some n | _ => None end) cs).
Proof.
  intros Hl Hcs. revert l Hl. induction Hcs as [|c cs Hc Hcs IH]; intros l Hl; cbn [normalize_components omap list_omap].
  - rewrite app_nil_r. split; [intros [= <-]; by rewrite !elem_of_nil; auto|by intros (_ & _ & ->)].
  - rewrite !not_elem_of_cons. destruct c as [| | |n]; simpl.
    + split; [done|]. by intros ([] & _).
    + rewrite IH by done. split; [intros (? & ? & ->)|intros ([] & [] & ->)]; auto.
    + split; [done|]. by intros (_ & [] & _).
    + pose proof (Hc n eq_refl) as Hn. rewrite join_rel by done. rewrite IH by (apply Forall_app; by repeat constructor).
      rewrite <- app_assoc. simpl. split; [intros (? & ? & ->)|intros ([] & [] & ->)]; auto.
Qed.

Lemma components_valid p : Forall (fun c => forall n, c = Normal n -> valid_name n = true) (components p).
Proof.
  pose proof (proj1 (Forall_forall _ _) (path_names_valid p)) as Hv.
  apply Forall_forall. intros c Hc n ->. apply Hv, list_elem_of_omap. by exists (Normal n).
Qed.

(** A relative path is accepted when it stays below its base, names
    something, avoids [.opticcode] and is Unicode; the answer is its
    normalised text. *)
Definition admissible (p : string) : Prop :=
  is_absolute p = false /\ (ParentDir ∉ components p) /\ path_names p <> [] /\
  (".opticcode" ∉ path_names p) /\ utf8_valid (rel (path_names p)) = true.

Lemma not_root_dir p : is_absolute p = false -> RootDir ∉ components p.
Proof.
  unfold components. intros ->. rewrite elem_of_app. intros [Hin|Hin].
  - destruct (leading_cur_dir p); [by apply list_elem_of_singleton in Hin|by apply elem_of_nil in Hin].
  - apply list_elem_of_fmap in Hin as (s & E & _). unfold seg_component in E. by destruct (s =?s "..").
Qed.

Lemma reserved_names l :
  valid_names l ->
  existsb (fun c => component_str c =?s ".opticcode") (components (rel l)) = true <-> ".opticcode" ∈ l.
Proof.
  intros Hv. rewrite components_rel by done. rewrite existsb_exists, list_elem_of_In. split.
  - intros (c & (n & <- & Hn)%in_map_iff & E). simpl in E. apply String.eqb_eq in E as ->. done.
  - intros Hin. exists (Normal ".opticcode"). split; [by apply in_map|done].
Qed.

Lemma validate_relative_path_ok p r :
  validate_relative_path p = Ok r <-> admissible p /\ r = rel (path_names p).
Proof.
  unfold validate_relative_path, admissible. pose proof (path_names_valid p) as Hv.
  assert (is_empty p = true -> path_names p = []) as Hempty by (intros ->%String.eqb_eq; done).
  destruct (is_empty p || is_absolute p) eqn:E.
  { split; [done|]. intros [(Ha & _ & Hn & _) _]. rewrite Ha, orb_false_r in E. by apply Hempty in E. }
  apply orb_false_iff in E as [Hne Ha]. rewrite rbind_ok.
  pose proof (fun n => normalize_components_ok p [] (components p) n ltac:(constructor) (components_valid p)) as Hnorm.
  fold (path_names p) in Hnorm. change (rel []) with "" in Hnorm. simpl app in Hnorm. split.
  - intros (n & (_ & Hp & ->)%Hnorm & H).
    destruct (is_empty (rel (path_names p)) || _) eqn:E1; [done|]. apply orb_false_iff in E1 as [E1 E2].
    destruct (utf8_valid _) eqn:Eu; [|done]. simpl in H. injection H as <-.
    split; [|done]. repeat (split; [done|]). split; [intros Hn; by rewrite Hn in E1|]. split; [|done].
    intros Hin. apply reserved_names in Hin; [|done]. by rewrite Hin in E2.
  - intros [(_ & Hp & Hn & Ho & Hu) ->]. exists (rel (path_names p)). split.
    { apply Hnorm. split; [by apply not_root_dir|done]. }
    rewrite rel_nonempty by done. cbn [orb].
    destruct (existsb _ _) eqn:E; [apply reserved_names in E; [by destruct Ho|done]|]. by rewrite Hu.
Qed.

(** [validate_relative_path] accepts exactly the relative paths that stay
    below their base, name something, avoid [.opticcode] and are Unicode, and
    answers the text of their normal components; the answer is accepted
    again, unchanged. *)
Theorem validate_relative_path_exact p r :
  (validate_relative_path p = Ok r <-> admissible p /\ r = rel (path_names p)) /\
  (validate_relative_path p = Ok r -> validate_relative_path r = Ok r).
Proof.
  split; [apply validate_relative_path_ok|].
  intros [(Ha & Hp & Hn & Ho & Hu) ->]%validate_relative_path_ok. apply validate_relative_path_ok.
  pose proof (path_names_valid p) as Hv. unfold admissible. rewrite path_names_rel by done.
  split; [|done]. split; [by apply rel_relative|]. split; [|done].
  rewrite components_rel by done. by intros (n & ? & _)%list_elem_of_fmap.
Qed.

(** ** The state machine *)

(** A list of states each of which the previous one allows. *)
Fixpoint valid_path (from : option ApplyTransactionState) (l : list ApplyTransactionState) : bool :=
  match l with
  | [] => true
  | s :: l => valid_transition from s && valid_path (Some s) l
  end.

Lemma valid_path_app from l k :
  valid_path from (l ++ k) = valid_path from l && valid_path (match last l with Some s => Some s | None => from end) k.
Proof.
  revert from. induction l as [|s l IH]; intros from; [done|]. simpl. rewrite IH, andb_assoc. f_equal.
  destruct l as [|x l]; [done|]. change (last (s :: x :: l)) with (last (x :: l)). by destruct (last (x :: l)) eqn:E;
    [|apply last_None in E].
Qed.

(** Once a rollback has started, the transaction never commits. *)
Definition undoing (s : ApplyTransactionState) : bool :=
  match s with RollbackStarted | RolledBack | RollbackFailed => true | _ => false end.

Lemma undoing_stays s l : undoing s = true -> valid_path (Some s) l = true -> Forall (fun s => undoing s = true) l.
Proof.
  revert s. induction l as [|x l IH]; intros s Hs Hp; [constructor|]. simpl in Hp. split_bools.
  assert (undoing x = true) as Hx by (by destruct s, x). constructor; [done|]. by apply (IH x).
Qed.

Definition forward : list ApplyTransactionState := [Prepared; Applying; Applied; Finalizing; Committed].

(** From the start, a path is a prefix of the forward states followed by
    states of a rollback. *)
Lemma path_shape l :
  valid_path None l = true ->
  exists n k, l = (take n forward ++ k)%list /\ Forall (fun s => undoing s = true) k /\ (k <> [] -> n <> 0%nat).
Proof.
  assert (forall n s, forward !! n = Some s -> forall l, valid_path (Some s) l = true ->
    exists m k, l = (take m (drop (S n) forward) ++ k)%list /\ Forall (fun s => undoing s = true) k) as Hstep.
  { intros n s Hn l'. revert n s Hn. induction l' as [|x l' IH]; intros n s Hn Hp; [by exists 0%nat, []|].
    simpl in Hp. split_bools. destruct (undoing x) eqn:Ex.
    - exists 0%nat, (x :: l'). split; [done|]. constructor; [done|]. by apply (undoing_stays x).
    - destruct n as [|[|[|[|[|n]]]]]; [injection Hn as <-..|done]; destruct x; try done.
      + destruct (IH 1%nat Applying eq_refl) as (m & k & -> & Hk); [done|]. by exists (S m), k.
      + destruct (IH 2%nat Applied eq_refl) as (m & k & -> & Hk); [done|]. by exists (S m), k.
      + destruct (IH 3%nat Finalizing eq_refl) as (m & k & -> & Hk); [done|]. by exists (S m), k.
      + destruct (IH 4%nat Committed eq_refl) as (m & k & -> & Hk); [done|]. by exists (S m), k. }
  destruct l as [|x l]; [by exists 0%nat, []|]. intros Hp. simpl in Hp. split_bools. destruct x; try done.
  destruct (Hstep 0%nat Prepared eq_refl l) as (m & k & -> & Hk); [done|].
  exists (S m), k. split; [done|]. split; [done|]. lia.
Qed.

Lemma committed_path l :
  valid_path None l = true -> last l = Some Committed -> l = forward.
Proof.
  intros (n & k & -> & Hk & _)%path_shape Hlast. destruct (decide (k = [])) as [->|Hne].
  - rewrite app_nil_r in Hlast |- *. destruct n as [|[|[|[|[|n]]]]]; try done. simpl. by rewrite take_nil.
  - destruct (exists_last Hne) as (k' & x & ->). rewrite app_assoc, last_snoc in Hlast. injection Hlast as ->.
    apply Forall_app in Hk as [_ Hk]. by inversion Hk.
Qed.

(** ** Inspections *)

Lemma report_if_nil b m : report_if b m = [] <-> b = false.
Proof. by destruct b. Qed.

Lemma negb_eq_false b : negb b = false <-> b = true.
Proof. by destruct b. Qed.

Create Rewrite HintDb inspected.
#[export] Hint Rewrite report_if_nil negb_eq_false @app_nil orb_false_iff String.eqb_eq N.eqb_eq Nat.eqb_eq
  @length_zero_iff_nil : inspected.

(** The journal a valid inspection accepts: the events in sequence, each
    belonging to the transaction and consistent with its manifest. *)
Record event_ok (id : string) (manifest : ApplyTransactionManifest) (expected : N)
    (current : option ApplyTransactionState) (event : ApplyTransactionEvent) : Prop := {
  eok_schema : e_schema_version event = APPLY_TRANSACTION_SCHEMA_VERSION;
  eok_id : e_transaction_id event = id;
  eok_sequence : e_sequence event = expected;
  eok_transition : valid_transition current (e_state event) = true;
  eok_semantics : exists path, validate_event_semantics event manifest path = [];
}.

Inductive journal_ok (id : string) (manifest : ApplyTransactionManifest) :
    N -> option ApplyTransactionState -> list ApplyTransactionEvent -> Prop :=
| journal_ok_nil expected current : journal_ok id manifest expected current []
| journal_ok_cons expected current event events :
    event_ok id manifest expected current event ->
    journal_ok id manifest (next_expected event) (Some (e_state event)) events ->
    journal_ok id manifest expected current (event :: events).

Lemma journal_ok_path id manifest expected current events :
  journal_ok id manifest expected current events -> valid_path current (map e_state events) = true.
Proof.
  induction 1 as [|expected current event events [] Hj IH]; [done|]. simpl. apply andb_true_iff. done.
Qed.

Lemma journal_ok_sequence id manifest expected current events k e :
  expected <= u32_max -> journal_ok id manifest expected current events -> events !! k = Some e ->
  e_sequence e = N.min u32_max (expected + N.of_nat k).
Proof.
  intros He Hj. revert k He. induction Hj as [|expected current event events [] Hj IH]; intros k He Hk; [done|].
  destruct k as [|k]; [injection Hk as <-; lia|].
  rewrite (IH k); [unfold next_expected; lia|unfold next_expected; lia|done].
Qed.

Section Inspections.
Context `{Blake3, TransactionSerde} {An : Answers}.

(** What a valid inspection has checked of the [index]-th file: its path, and
    the backup with the recorded hash, or the absence of any trace. *)
Record file_checked (run_dir : string) (index : nat) (file : ApplyTransactionFile) : Prop := {
  fc_path : exists r, validate_relative_path (file_path file) = Ok r;
  fc_deleted : after_hash file = None -> after_bytes file = 0;
  fc_backup :
    if file_existed_before file then
      backup_path file = Some (BACKUPS_DIR ++ "/" ++ backup_file_name index) /\
      exists bytes, answers (ReadFile (join run_dir (BACKUPS_DIR ++ "/" ++ backup_file_name index))) (Ok bytes) /\
        before_hash file = Some (fingerprint_bytes bytes) /\ len_u64 bytes = before_bytes file
    else before_hash file = None /\ before_bytes file = 0 /\ backup_path file = None /\
         file_readonly file = None /\ file_unix_mode file = None;
}.

Fixpoint files_checked (run_dir : string) (index : nat) (files : list ApplyTransactionFile) : Prop :=
  match files with
  | [] => True
  | file :: rest => file_checked run_dir index file /\ files_checked run_dir (S index) rest
  end.

Lemma must_skip {A B} (m : IO A) (f : A -> IO B) (Q : B -> Prop) :
  (forall a, must (f a) Q) -> must (bind m f) Q.
Proof. intros Hf. eapply must_bind; [by apply (must_true _ (fun _ => True))|auto]. Qed.

Lemma must_sys {A} {R : Set} (c : syscall R) (f : R -> IO A) (Q : A -> Prop) :
  (forall r, answers c r -> must (f r) Q) -> must (bind (sys c) f) Q.
Proof. done. Qed.

Lemma is_some_false {A} (o : option A) : is_some o = false -> o = None.
Proof. by destruct o. Qed.

Lemma backup_errors_must run_dir index file :
  must (backup_errors run_dir index file) (fun errors => errors = [] ->
    if file_existed_before file then
      backup_path file = Some (BACKUPS_DIR ++ "/" ++ backup_file_name index) /\
      exists bytes, answers (ReadFile (join run_dir (BACKUPS_DIR ++ "/" ++ backup_file_name index))) (Ok bytes) /\
        before_hash file = Some (fingerprint_bytes bytes) /\ len_u64 bytes = before_bytes file
    else before_hash file = None /\ before_bytes file = 0 /\ backup_path file = None /\
         file_readonly file = None /\ file_unix_mode file = None).
Proof.
  unfold backup_errors. destruct (file_existed_before file).
  - case_bool_decide as Hb; cbn [negb]; cbn iota; [|done]. destruct (before_hash file) as [h|] eqn:Eh; [|done].
    apply must_skip. intros regular. destruct regular; cbn [negb]; cbn iota; [|done].
    apply must_sys. intros [bytes|e] Hr; [|done]. cbn [must]. autorewrite with inspected. intros [Hl Hh].
    split; [done|]. exists bytes. by rewrite Hh.
  - cbn [must]. autorewrite with inspected. intros ((((H1 & H2) & H3) & H4) & H5). apply is_some_false in H1, H3, H4, H5. done.
Qed.

Lemma file_record_errors_must run_dir index seen files :
  must (file_record_errors run_dir index seen files)
    (fun errors => errors = [] -> files_checked run_dir index files).
Proof.
  revert index seen. induction files as [|file files IH]; intros index seen; [done|]. cbn [file_record_errors].
  destruct (file_path_errors seen file) as [seen' path_errors] eqn:Ep.
  eapply must_bind; [apply backup_errors_must|]. intros backup Hb.
  eapply must_bind; [apply (IH (S index) seen')|]. intros others Ho. cbn [must].
  autorewrite with inspected. intros (-> & Hd & -> & ->). split; [|by apply Ho]. split.
  - unfold file_path_errors in Ep. destruct (validate_relative_path _) as [r|e]; [by exists r|done].
  - intros Hn. rewrite Hn in Hd. simpl in Hd. by autorewrite with inspected in Hd.
  - by apply Hb.
Qed.

Lemma validate_manifest_artifacts_must run_dir manifest :
  must (validate_manifest_artifacts run_dir manifest)
    (fun errors => errors = [] -> manifest_field_errors manifest = [] /\ files_checked run_dir 0 (m_files manifest)).
Proof.
  unfold validate_manifest_artifacts.
  apply must_sys. intros [m|e] _; [|cbn [must]; autorewrite with inspected; by intros [_ ?]].
  destruct (plain_dir m); [|cbn [must]; autorewrite with inspected; by intros [_ ?]].
  eapply must_bind; [apply file_record_errors_must|]. intros errors He. cbn [must].
  autorewrite with inspected. intros [-> ->]. auto.
Qed.

Lemma manifest_errors_must workspace id run_dir manifest :
  must (manifest_errors workspace id run_dir manifest) (fun errors => errors = [] ->
    m_schema_version manifest = APPLY_TRANSACTION_SCHEMA_VERSION /\ m_transaction_id manifest = id /\
    path_eqb (m_workspace manifest) workspace = true /\
    manifest_field_errors manifest = [] /\ files_checked run_dir 0 (m_files manifest)).
Proof.
  unfold manifest_errors. apply must_skip. intros patch.
  eapply must_bind; [apply validate_manifest_artifacts_must|]. intros artifacts Ha. cbn [must].
  autorewrite with inspected. intros (H1 & H2 & H3 & _ & ->). destruct Ha; auto.
Qed.

Lemma inspect_events_must id manifest expected current paths :
  must (inspect_events id (Some manifest) expected current paths)
    (fun r => r.2 = [] -> journal_ok id manifest expected current r.1).
Proof.
  revert expected current. induction paths as [|path paths IH]; intros expected current; [constructor|].
  cbn [inspect_events]. apply must_skip. intros regular. destruct regular; cbn [negb]; cbn iota.
  - apply must_skip. intros [event|e].
    + eapply must_bind; [apply (IH (next_expected event) (Some (e_state event)))|]. intros [events errors] Hj. cbn [must fst snd] in *.
      unfold event_errors. autorewrite with inspected.
      intros ((H1 & H2 & H3 & H4 & H5 & H6) & ->). constructor; [|by apply Hj]. split; try done. by exists path.
    + apply must_skip. by intros [events errors].
  - apply must_skip. by intros [events errors].
Qed.

Lemma inspect_journal_must id run_dir manifest :
  must (inspect_journal id run_dir (Some manifest))
    (fun r => r.2 = [] -> journal_ok id manifest 0 None r.1 /\ r.1 <> []).
Proof.
  unfold inspect_journal. apply must_sys. intros m _. destruct (match m with Ok m => plain_dir m | Err _ => false end); [|done].
  apply must_sys. intros listed _.
  destruct (match listed with Ok _ => _ | Err _ => _ end) as [paths errors].
  eapply must_bind; [apply inspect_events_must|]. intros [events errors'] Hj. cbn [must fst snd] in *.
  autorewrite with inspected. intros (_ & -> & Hne). split; [by apply Hj|]. intros ->. done.
Qed.

(** What a valid inspection of a run with a manifest guarantees. *)
Record inspected_ok (workspace id run_dir : string) (i : ApplyTransactionInspection)
    (manifest : ApplyTransactionManifest) : Prop := {
  io_manifest : i_manifest i = Some manifest;
  io_not_legacy : i_legacy i = false;
  io_schema : m_schema_version manifest = APPLY_TRANSACTION_SCHEMA_VERSION;
  io_id : m_transaction_id manifest = id;
  io_workspace : path_eqb (m_workspace manifest) workspace = true;
  io_fields : manifest_field_errors manifest = [];
  io_files : files_checked run_dir 0 (m_files manifest);
  io_journal : journal_ok id manifest 0 None (i_events i) /\ i_events i <> [];
  io_final : i_final_state i = option_map e_state (last (i_events i));
  io_recoverable : i_recoverable i = recoverable_state (i_final_state i);
}.

Lemma inspect_run_directory_must workspace id run_dir :
  must (inspect_run_directory workspace id run_dir) (fun i => i_valid i = true ->
    (i_legacy i = true /\ i_manifest i = None /\ i_events i = [] /\ i_recoverable i = false) \/
    exists manifest, inspected_ok workspace id run_dir i manifest).
Proof.
  unfold inspect_run_directory. apply must_sys. intros [m|e] _; [|done].
  destruct (plain_dir m); cbn [negb]; cbn iota; [|done]. apply must_sys. intros [m'|e] _.
  - destruct (plain_file m'); cbn [negb]; cbn iota; [|done]. unfold inspect_with_manifest.
    apply must_skip. intros [manifest|e]; cbn [ok].
    + eapply must_bind; [apply manifest_errors_must|]. intros errors Hm.
      eapply must_bind; [apply inspect_journal_must|]. intros [events errors'] Hj. cbn [must fst snd i_valid] in *.
      autorewrite with inspected. intros [-> ->]. right. exists manifest.
      destruct (Hm eq_refl) as (H1 & H2 & H3 & H4 & H5). specialize (Hj eq_refl). by split.
    + cbn [bind]. apply must_skip. by intros [events errors'].
  - destruct (not_found e); [|done]. unfold inspect_legacy.
    apply must_skip. intros patch. apply must_skip. intros backups.
    apply must_skip. intros events. simpl. intros ->. by left.
Qed.
End Inspections.

(** What a valid inspection guarantees, whatever the file system answers:
    either a legacy run that has no journal and is not recoverable, or a
    manifest of this transaction and workspace, whose files have admissible
    paths and backups read with the recorded hash, and a journal whose events
    are numbered from zero, belong to the transaction, claim the files their
    state may claim and follow the state machine from [Prepared]; the run is
    recoverable exactly when its last state is not terminal. *)
Theorem inspection_sound `{Blake3, TransactionSerde} {An : Answers} workspace id run_dir :
  must (inspect_run_directory workspace id run_dir) (fun i => i_valid i = true ->
    (i_legacy i = true /\ i_manifest i = None /\ i_events i = [] /\ i_recoverable i = false) \/
    exists manifest, inspected_ok workspace id run_dir i manifest /\
      valid_path None (map e_state (i_events i)) = true /\
      forall k e, i_events i !! k = Some e -> e_sequence e = N.min u32_max (N.of_nat k)).
Proof.
  eapply must_mono; [apply inspect_run_directory_must|]. intros i Hi Hv.
  destruct (Hi Hv) as [Hl|[manifest Hm]]; [by left|]. right. exists manifest. split; [done|].
  destruct (io_journal _ _ _ _ _ Hm) as [Hj _]. split; [by eapply journal_ok_path|].
  intros k e Hk. by apply (journal_ok_sequence _ _ _ _ _ k e) in Hj.
Qed.

(** What the journal of a transaction tells of its history. *)
Record history (manifest : ApplyTransactionManifest) (i : ApplyTransactionInspection) : Prop := {
  hi_committed : i_final_state i = Some Committed -> map e_state (i_events i) = forward;
  hi_undoing : forall l k, map e_state (i_events i) = (l ++ RollbackStarted :: k)%list -> Forall (fun s => undoing s = true) k;
  hi_files : forall e, e ∈ i_events i -> claims_every_file (e_state e) = true ->
    same_set (btree_set (e_files e)) (btree_set (map file_path (m_files manifest))) = true;
}.

Lemma inspected_history `{Blake3, TransactionSerde} {An : Answers} workspace id run_dir i manifest :
  inspected_ok workspace id run_dir i manifest -> history manifest i.
Proof.
  intros Hi. destruct (io_journal _ _ _ _ _ Hi) as [Hj _]. pose proof (journal_ok_path _ _ _ _ _ Hj) as Hp. split.
  - rewrite (io_final _ _ _ _ _ Hi). intros Hf. apply committed_path; [done|].
    rewrite <- Hf. destruct (i_events i) as [|e l] using rev_ind; [done|].
    rewrite map_app. cbn [map]. by rewrite !last_snoc.
  - intros l k E. rewrite E, valid_path_app in Hp. simpl in Hp. split_bools. by apply (undoing_stays RollbackStarted).
  - clear Hp Hi. intros e Hin Hc. induction Hj as [|expected current event events He Hj IH]; [by apply elem_of_nil in Hin|].
    apply elem_of_cons in Hin as [->|Hin]; [|by apply IH].
    destruct (eok_semantics _ _ _ _ _ He) as [path Hs]. unfold validate_event_semantics in Hs.
    autorewrite with inspected in Hs. destruct Hs as (_ & _ & _ & Hs & _). rewrite Hc in Hs. by apply negb_false_iff in Hs.
Qed.

(** A transaction that a valid inspection shows as committed went through
    exactly the five forward states, without any rollback, and every event
    after [Applying] claims exactly the planned files; one that was rolled
    back never committed after its rollback began. *)
Theorem committed_history `{Blake3, TransactionSerde} {An : Answers} workspace id run_dir :
  must (inspect_run_directory workspace id run_dir) (fun i => i_valid i = true -> i_legacy i = false ->
    exists manifest, i_manifest i = Some manifest /\ history manifest i).
Proof.
  eapply must_mono; [apply inspect_run_directory_must|]. intros i Hi Hv Hl.
  destruct (Hi Hv) as [(Hlegacy & _)|[manifest Hm]]; [congruence|].
  exists manifest. split; [apply Hm|by eapply inspected_history].
Qed.

