(* ===== verification/AuditLog.v ===== *)
(** * Audit store ([opticcode-policy/src/audit.rs])

    One JSON file per event below a per-workspace namespace, published by an
    atomic rename and bounded by rotation; and the storage helpers the
    approval store shares. *)

From stdpp Require Import base list strings.
From Stdlib Require Import NArith Ascii String.
From S2P Require Import Prelude Bytes UnixPath IO Model.

Local Open Scope string_scope.
Local Open Scope N_scope.

(** ** [anyhow::Error]

    Its outermost message, and whether its chain holds an I/O error of kind
    [NotFound]; the code reads nothing else of it. *)
Record any_error := AnyError { ae_message : string; ae_not_found : bool }.
Abbreviation any A := (result A any_error).

Definition bail {A} (message : string) : any A := Err (AnyError message false).
Definition bail_if (b : bool) (message : string) : any unit := if b then bail message else Ok tt.

(** [?] on an I/O result. *)
Definition any_of_io (e : io_error) : any_error :=
  AnyError (io_error_display e) (bool_decide (io_error_kind e = NotFound)).
Definition sys_any {A : Set} (c : syscall (result A io_error)) : IO (any A) :=
  io_map_err any_of_io (sys c).

(** [.context(message)] and [.with_context(..)] *)
Definition context (message : string) (e : any_error) : any_error :=
  AnyError message (ae_not_found e).
Definition sys_context {A : Set} (message : string) (c : syscall (result A io_error)) : IO (any A) :=
  io_map_err (context message) (sys_any c).

Definition is_not_found_chain (e : any_error) : bool := ae_not_found e.

(** ** Constants and data *)

Definition AUDIT_SCHEMA_VERSION : N := 1.
Definition MAX_AUDIT_EVENTS : N := 2048.
Definition MAX_AUDIT_BYTES : N := 32 * 1024 * 1024.
Definition MAX_AUDIT_RECORD_BYTES : N := 64 * 1024.
Definition POLICY_DIRECTORY : string := "policy-v1".

Record AuditEvent := {
  ev_schema_version : N;
  ev_event_id : string;
  ev_timestamp_unix_ms : N;
  ev_request_id : string;
  ev_action_id_hash : string;
  ev_action_kind : string;
  ev_action_hash : string;
  ev_rule_id : string;
  ev_decision : string;
  ev_risk : RiskLevel;
  ev_workspace_hash : string;
  ev_origin : ActionOrigin;
  ev_approval_state : string;
  ev_approval_hash : option string;
  ev_transaction_hash : option string;
  ev_result : string;
  ev_duration_us : N;
}.

Definition with_event_id (id : string) (e : AuditEvent) : AuditEvent := {|
  ev_schema_version := ev_schema_version e;
  ev_event_id := id;
  ev_timestamp_unix_ms := ev_timestamp_unix_ms e;
  ev_request_id := ev_request_id e;
  ev_action_id_hash := ev_action_id_hash e;
  ev_action_kind := ev_action_kind e;
  ev_action_hash := ev_action_hash e;
  ev_rule_id := ev_rule_id e;
  ev_decision := ev_decision e;
  ev_risk := ev_risk e;
  ev_workspace_hash := ev_workspace_hash e;
  ev_origin := ev_origin e;
  ev_approval_state := ev_approval_state e;
  ev_approval_hash := ev_approval_hash e;
  ev_transaction_hash := ev_transaction_hash e;
  ev_result := ev_result e;
  ev_duration_us := ev_duration_us e;
|}.

Record AuditQuery := {
  q_limit : N;
  q_workspace_hash : option string;
  q_action_kind : option string;
}.

Record AuditStoreReport := {
  asr_schema_version : N;
  asr_storage : string;
  asr_events : list AuditEvent;
  asr_ignored_partial_records : N;
  asr_bounded : bool;
}.

Record AuditStore := { state_root : string; workspaces_dir : string }.

(** [serde_json] on events, a third-party function; [None] is its error. *)
Class AuditSerde := {
  event_to_vec : AuditEvent -> option string;
  event_from_slice : string -> option AuditEvent;
}.

(** ** Validators *)

Definition is_id_byte (c : ascii) : bool := is_ascii_alphanumeric c || one_of "-_" c.

Definition validate_storage_id (value : string) : any unit :=
  bail_if (is_empty value || (160 <? strlen value) || negb (all_bytes is_id_byte value))
    "invalid policy state identifier".

Definition validate_directory_name (name : string) : any unit :=
  bail_if (is_empty name || (64 <? strlen name) || negb (all_bytes is_id_byte name))
    "invalid policy state directory name".

Definition is_hash (value : string) : bool :=
  (strlen value =? 64) && all_bytes is_ascii_hexdigit value.

Definition validate_hash (value label : string) : any unit :=
  bail_if (negb (is_hash value)) (label ++ " must be a 64-character hexadecimal digest").

Definition event_bounded_fields (e : AuditEvent) : list string :=
  [ev_request_id e; ev_action_id_hash e; ev_action_kind e; ev_action_hash e; ev_rule_id e;
   ev_decision e; ev_workspace_hash e; ev_approval_state e; ev_result e].

Definition validate_event (e : AuditEvent) : any unit :=
  _ <- bail_if (negb (ev_schema_version e =? AUDIT_SCHEMA_VERSION))
         "unsupported policy audit schema" ;?
  _ <- bail_if (existsb (fun v => is_empty v || (256 <? strlen v) || has_control v)
                  (event_bounded_fields e))
         "policy audit event contains an invalid bounded field" ;?
  _ <- (if is_empty (ev_event_id e) then Ok tt else validate_storage_id (ev_event_id e)) ;?
  _ <- validate_hash (ev_action_id_hash e) "audit action ID digest" ;?
  _ <- validate_hash (ev_action_hash e) "audit action digest" ;?
  _ <- validate_hash (ev_workspace_hash e) "audit workspace digest" ;?
  _ <- match ev_approval_hash e with
       | Some v => validate_hash v "audit approval digest"
       | None => Ok tt
       end ;?
  match ev_transaction_hash e with
  | Some v => validate_hash v "audit transaction digest"
  | None => Ok tt
  end.

(** ** Identifiers *)

Fixpoint hex (bytes : string) : string :=
  match bytes with
  | EmptyString => EmptyString
  | String c s =>
      String (hex_digit (N.shiftr (byte_n c) 4)) (String (hex_digit (N.land (byte_n c) 15)) (hex s))
  end.

Definition unix_millis : IO N := sys SystemTimeMillis.

Definition format_storage_id (millis pid counter : N) (random : string) : string :=
  dec_pad 20 millis ++ "-" ++ dec_pad 10 pid ++ "-" ++ hex16 counter ++ "-" ++ hex random.

Definition new_storage_id (prefix : string) : IO (any string) :=
  lift (validate_directory_name prefix) ;;?
  random <-? io_map_err (fun e => AnyError ("failed to obtain OS randomness: " ++ e) false)
               (sys (RandomBytes 12)) ;;
  counter <- sys FetchAddCounter ;;
  millis <- unix_millis ;;
  pid <- sys ProcessId ;;
  Ret (Ok (format_storage_id millis pid counter random)).

(** ** Controlled directories *)

Definition metadata_is_link_or_reparse (m : metadata) : bool := is_symlink m.
Definition unsafe_directory (m : metadata) : bool :=
  negb (is_dir m) || metadata_is_link_or_reparse m.

Definition ensure_controlled_directory (path : string) : IO (any unit) :=
  there <- path_exists path ;;
  if there : bool then
    md <-? sys_context ("failed to inspect state directory: " ++ to_string_lossy path)
             (SymlinkMetadata path) ;;
    lift (bail_if (unsafe_directory md) "policy state root must be a real directory")
  else
    parent_ <-? lift (ok_or (AnyError "policy state root has no parent directory" false)
                        (parent path)) ;;
    parent_there <- path_exists parent_ ;;
    (if parent_there : bool then Ret (Ok tt)
     else sys_context ("failed to prepare state root parent: " ++ to_string_lossy parent_)
            (CreateDirAll parent_)) ;;?
    sys_context ("failed to create policy state root: " ++ to_string_lossy path)
      (CreateDir path) ;;?
    md <-? sys_any (SymlinkMetadata path) ;;
    lift (bail_if (unsafe_directory md) "created policy state root is unsafe").

(** [match fs::create_dir(..) { Ok | Err(AlreadyExists) => .., Err(e) => .. }] *)
Definition create_dir_if_missing (on_error : io_error -> any_error) (child : string) : IO (any unit) :=
  r <- sys (CreateDir child) ;;
  match r with
  | Ok _ => Ret (Ok tt)
  | Err e => if bool_decide (io_error_kind e = AlreadyExists) then Ret (Ok tt)
             else Ret (Err (on_error e))
  end.

Definition ensure_controlled_child (parent_ child : string) : IO (any unit) :=
  canonical_parent <-? sys_context ("failed to resolve controlled parent: " ++ to_string_lossy parent_)
                         (Canonicalize parent_) ;;
  create_dir_if_missing
    (fun e => context ("failed to create " ++ to_string_lossy child) (any_of_io e)) child ;;?
  md <-? sys_context ("failed to inspect controlled child: " ++ to_string_lossy child)
           (SymlinkMetadata child) ;;
  lift (bail_if (unsafe_directory md) "policy state directory is a symlink or reparse point") ;;?
  canonical <-? sys_any (Canonicalize child) ;;
  lift (bail_if (negb (opt_path_eqb (parent canonical) (Some canonical_parent)))
          "policy state directory escaped its controlled parent").

Definition policy_subdirectory (root name : string) : IO (any string) :=
  lift (validate_directory_name name) ;;?
  ensure_controlled_directory root ;;?
  let policy_root := join root POLICY_DIRECTORY in
  ensure_controlled_child root policy_root ;;?
  let directory := join policy_root name in
  ensure_controlled_child policy_root directory ;;?
  Ret (Ok directory).

Definition default_policy_state_dir : IO (any string) :=
  configured <- sys (EnvVar "OPTICCODE_POLICY_STATE_DIR") ;;
  match configured with
  | Some path =>
      if is_empty path then Ret (bail "OPTICCODE_POLICY_STATE_DIR cannot be empty")
      else Ret (Ok path)
  | None =>
      xdg <- sys (EnvVar "XDG_STATE_HOME") ;;
      match xdg with
      | Some base => Ret (Ok (join base "opticcode"))
      | None =>
          home <- sys (EnvVar "HOME") ;;
          match home with
          | Some home => Ret (Ok (join (join (join home ".local") "state") "opticcode"))
          | None => Ret (bail "HOME is required for OpticCode policy state")
          end
      end
  end.

(** ** Atomic publication *)

Definition atomic_create (parent_ final_path bytes : string) : IO (any unit) :=
  canonical_parent <-? sys_context ("failed to resolve state directory: " ++ to_string_lossy parent_)
                         (Canonicalize parent_) ;;
  final_parent <-? lift (ok_or (AnyError "state record has no parent directory" false)
                           (parent final_path)) ;;
  canonical_final_parent <-?
    sys_context ("failed to resolve state record parent: " ++ to_string_lossy final_parent)
      (Canonicalize final_parent) ;;
  lift (bail_if (negb (path_eqb canonical_final_parent canonical_parent))
          "state record parent escaped its controlled directory") ;;?
  temp_id <-? new_storage_id "tmp" ;;
  let temp_path := join canonical_parent ("." ++ temp_id ++ ".tmp") in
  file <-? sys_context ("failed to create temporary state record: " ++ to_string_lossy temp_path)
             (CreateNew temp_path) ;;
  outcome <-
    (sys_any (WriteAll file bytes) ;;?
     sys_any (Flush file) ;;?
     sys_any (SyncAll file) ;;?
     sys_context ("failed to publish state record " ++ to_string_lossy final_path)
       (Rename temp_path final_path)) ;;
  match outcome with
  | Ok _ => Ret (Ok tt)
  | Err e => sys (RemoveFile temp_path) ;; Ret (Err e)
  end.

(** ** Enumeration *)

(** [entry?] on each directory entry, then a filter. *)
Fixpoint json_entries (canonical : string) (entries : list (io string)) : any (list string) :=
  match entries with
  | [] => Ok []
  | Err e :: _ => Err (any_of_io e)
  | Ok path :: rest =>
      let keep :=
        opt_path_eqb (parent path) (Some canonical) &&
        match extension path with
        | Some ext => match to_str ext with Some ext => ext =?s "json" | None => false end
        | None => false
        end &&
        match file_stem path with
        | Some stem => match to_str stem with
                       | Some stem => is_ok (validate_storage_id stem)
                       | None => false
                       end
        | None => false
        end in
      paths <- json_entries canonical rest ;?
      Ok (if keep then path :: paths else paths)
  end.

Definition controlled_json_files (directory : string) : IO (any (list string)) :=
  canonical <-? sys_context ("failed to resolve policy state directory: " ++ to_string_lossy directory)
                  (Canonicalize directory) ;;
  entries <-? sys_context ("failed to enumerate policy state directory: " ++ to_string_lossy canonical)
                (ReadDir canonical) ;;
  Ret (json_entries canonical entries).

Fixpoint event_directories (canonical : string) (entries : list (io string)) (paths : list string)
    : IO (any (list string)) :=
  match entries with
  | [] => Ret (Ok paths)
  | Err e :: _ => Ret (Err (any_of_io e))
  | Ok path :: rest =>
      match match file_name path with Some n => to_str n | None => None end with
      | None => event_directories canonical rest paths
      | Some name =>
          if negb (is_ok (validate_hash name "audit workspace digest"))
          then event_directories canonical rest paths else
          md <-? sys_any (SymlinkMetadata path) ;;
          if unsafe_directory md then event_directories canonical rest paths else
          resolved <-? sys_any (Canonicalize path) ;;
          if negb (opt_path_eqb (parent resolved) (Some canonical))
          then event_directories canonical rest paths else
          let events := join resolved "events" in
          r <- sys (SymlinkMetadata events) ;;
          match r with
          | Err _ => event_directories canonical rest paths
          | Ok emd =>
              if unsafe_directory emd then event_directories canonical rest paths else
              events <-? sys_any (Canonicalize events) ;;
              event_directories canonical rest
                (if opt_path_eqb (parent events) (Some resolved) then paths ++ [events] else paths)
          end
      end
  end.

Definition controlled_workspace_event_directories (directory : string) : IO (any (list string)) :=
  canonical <-? sys_context ("failed to resolve audit workspace directory: " ++ to_string_lossy directory)
                  (Canonicalize directory) ;;
  entries <-? sys_any (ReadDir canonical) ;;
  paths <-? event_directories canonical entries [] ;;
  Ret (Ok (sort_by path_cmp paths)).

(** ** Rotation *)

(** [filter_map] over the files: regular ones with their length. *)
Fixpoint measured_files (paths : list string) : IO (list (string * N)) :=
  match paths with
  | [] => Ret []
  | path :: rest =>
      r <- sys (SymlinkMetadata path) ;;
      entries <- measured_files rest ;;
      Ret (match r with
           | Ok m => if is_file m && negb (metadata_is_link_or_reparse m)
                     then (path, md_len m) :: entries else entries
           | Err _ => entries
           end)
  end.

Definition total_bytes_of (entries : list (string * N)) : N :=
  fold_left (fun sum e => saturating_add64 sum (snd e)) entries 0.

Fixpoint rotate_loop (entries : list (string * N)) (remove_count total_bytes max_bytes : N)
    : IO (any unit) :=
  match entries with
  | [] => Ret (Ok tt)
  | (path, bytes) :: rest =>
      if (remove_count =? 0) && (total_bytes <=? max_bytes) then Ret (Ok tt) else
      r <- sys (RemoveFile path) ;;
      match r with
      | Err e =>
          if bool_decide (io_error_kind e = NotFound)
          then rotate_loop rest (saturating_sub64 remove_count 1) (saturating_sub64 total_bytes bytes) max_bytes
          else Ret (Err (context ("failed to rotate policy audit record: " ++ to_string_lossy path)
                           (any_of_io e)))
      | Ok _ =>
          rotate_loop rest (saturating_sub64 remove_count 1) (saturating_sub64 total_bytes bytes) max_bytes
      end
  end.

Definition rotate_to_limits (events_dir : string) (max_events max_bytes : N) : IO (any unit) :=
  files <-? controlled_json_files events_dir ;;
  measured <- measured_files files ;;
  let entries := sort_by (fun a b => path_cmp (fst a) (fst b)) measured in
  rotate_loop entries (saturating_sub64 (N.of_nat (List.length entries)) max_events)
    (total_bytes_of entries) max_bytes.

(** ** The store *)

Definition workspace_events_dir (store : AuditStore) (workspace_hash : string) (create : bool)
    : IO (any string) :=
  lift (validate_hash workspace_hash "audit workspace digest") ;;?
  let workspace := join (workspaces_dir store) workspace_hash in
  let events := join workspace "events" in
  if create then
    ensure_controlled_child (workspaces_dir store) workspace ;;?
    ensure_controlled_child workspace events ;;?
    Ret (Ok events)
  else
    canonical_workspace <-?
      sys_context ("audit workspace namespace is unavailable: " ++ workspace_hash)
        (Canonicalize workspace) ;;
    canonical_workspaces <-? sys_any (Canonicalize (workspaces_dir store)) ;;
    lift (bail_if (negb (opt_path_eqb (parent canonical_workspace) (Some canonical_workspaces)))
            "audit workspace namespace escaped its controlled parent") ;;?
    md <-? sys_any (SymlinkMetadata canonical_workspace) ;;
    lift (bail_if (unsafe_directory md) "audit workspace namespace is unsafe") ;;?
    canonical_events <-?
      sys_context ("audit event namespace is unavailable: " ++ workspace_hash)
        (Canonicalize events) ;;
    lift (bail_if (negb (opt_path_eqb (parent canonical_events) (Some canonical_workspace)))
            "audit event namespace escaped its workspace") ;;?
    Ret (Ok canonical_events).

Definition AuditStore_open (root : string) : IO (any AuditStore) :=
  ensure_controlled_directory root ;;?
  let policy_root := join root POLICY_DIRECTORY in
  ensure_controlled_child root policy_root ;;?
  let audit_root := join policy_root "audit" in
  ensure_controlled_child policy_root audit_root ;;?
  let workspaces := join audit_root "workspaces" in
  ensure_controlled_child audit_root workspaces ;;?
  Ret (Ok {| state_root := root; workspaces_dir := workspaces |}).

Definition AuditStore_default_store : IO (any AuditStore) :=
  dir <-? default_policy_state_dir ;; AuditStore_open dir.

Definition rotate (events_dir : string) : IO (any unit) :=
  rotate_to_limits events_dir MAX_AUDIT_EVENTS MAX_AUDIT_BYTES.

Section Store.
Context `{AuditSerde}.

Definition record (store : AuditStore) (event : AuditEvent) : IO (any string) :=
  lift (validate_event event) ;;?
  event <-? (if is_empty (ev_event_id event) then
               id <-? new_storage_id "audit" ;; Ret (Ok (with_event_id id event))
             else Ret (Ok event)) ;;
  lift (validate_storage_id (ev_event_id event)) ;;?
  json <-? lift (ok_or (AnyError "failed to serialize policy audit event" false)
                   (event_to_vec event)) ;;
  let bytes := json ++ String (byte 10) "" in
  lift (bail_if (MAX_AUDIT_RECORD_BYTES <? strlen bytes)
          "policy audit event exceeds the bounded record size") ;;?
  events_dir <-? workspace_events_dir store (ev_workspace_hash event) true ;;
  let path := join events_dir (ev_event_id event ++ ".json") in
  atomic_create events_dir path bytes ;;?
  rotate events_dir ;;?
  Ret (Ok (ev_event_id event)).

(** One file of [list]: [None] when it is ignored as partial. *)
Definition load_event (path : string) : IO (option AuditEvent) :=
  r <- sys (SymlinkMetadata path) ;;
  match r with
  | Ok m =>
      if is_file m && negb (metadata_is_link_or_reparse m) && (md_len m <=? MAX_AUDIT_RECORD_BYTES) then
        content <- sys (ReadFile path) ;;
        match content with
        | Err _ => Ret None
        | Ok bytes =>
            match event_from_slice bytes with
            | Some event => if is_ok (validate_event event) then Ret (Some event) else Ret None
            | None => Ret None
            end
        end
      else Ret None
  | Err _ => Ret None
  end.

Definition matches_query (query : AuditQuery) (event : AuditEvent) : bool :=
  negb (is_some_and (fun expected => negb (expected =?s ev_workspace_hash event))
          (q_workspace_hash query)) &&
  negb (is_some_and (fun expected => negb (expected =?s ev_action_kind event))
          (q_action_kind query)).

(** The loop over the files, newest first, until [limit] events are found. *)
Fixpoint collect_events (query : AuditQuery) (limit : N) (paths : list string)
    (events : list AuditEvent) (ignored : N) : IO (list AuditEvent * N) :=
  match paths with
  | [] => Ret (events, ignored)
  | path :: rest =>
      loaded <- load_event path ;;
      match loaded with
      | None => collect_events query limit rest events (ignored + 1)
      | Some event =>
          if negb (matches_query query event) then collect_events query limit rest events ignored
          else
            let events := (events ++ [event])%list in
            if N.of_nat (List.length events) =? limit then Ret (events, ignored)
            else collect_events query limit rest events ignored
      end
  end.

Definition event_cmp (l r : AuditEvent) : comparison :=
  then_with (N.compare (ev_timestamp_unix_ms l) (ev_timestamp_unix_ms r))
    (str_cmp (ev_event_id l) (ev_event_id r)).

Definition clamp (v lo hi : N) : N := N.min (N.max v lo) hi.

Fixpoint all_json_files (dirs : list string) : IO (any (list string)) :=
  match dirs with
  | [] => Ret (Ok [])
  | d :: rest =>
      files <-? controlled_json_files d ;;
      more <-? all_json_files rest ;;
      Ret (Ok (files ++ more)%list)
  end.

(** Where [list] looks, and the files it finds. *)
Definition list_sources (store : AuditStore) (query : AuditQuery) : IO (any (string * list string)) :=
  match q_workspace_hash query with
  | Some workspace_hash =>
      lift (validate_hash workspace_hash "audit workspace digest") ;;?
      r <- workspace_events_dir store workspace_hash false ;;
      match r with
      | Ok events => files <-? controlled_json_files events ;; Ret (Ok (events, files))
      | Err e =>
          if is_not_found_chain e
          then Ret (Ok (join (join (workspaces_dir store) workspace_hash) "events", []))
          else Ret (Err e)
      end
  | None =>
      dirs <-? controlled_workspace_event_directories (workspaces_dir store) ;;
      files <-? all_json_files dirs ;;
      Ret (Ok (workspaces_dir store, files))
  end.

Definition list_events (store : AuditStore) (query : AuditQuery) : IO (any AuditStoreReport) :=
  let limit := clamp (q_limit query) 1 MAX_AUDIT_EVENTS in
  sources <-? list_sources store query ;;
  let '(storage, paths) := sources in
  collected <- collect_events query limit (rev (sort_by path_cmp paths)) [] 0 ;;
  let '(events, ignored) := collected in
  Ret (Ok {| asr_schema_version := AUDIT_SCHEMA_VERSION;
             asr_storage := storage;
             asr_events := sort_by event_cmp events;
             asr_ignored_partial_records := ignored;
             asr_bounded := true |}).

Definition list_scoped (store : AuditStore) (authority_workspace_hash : string) (query : AuditQuery)
    : IO (any AuditStoreReport) :=
  lift (validate_hash authority_workspace_hash "audit authority workspace digest") ;;?
  lift (bail_if (negb (bool_decide (q_workspace_hash query = Some authority_workspace_hash)))
          "audit query is not scoped to the authorized workspace") ;;?
  list_events store query.
End Store.
