(* ===== verification/Approval.v ===== *)
(** * One-shot approvals ([opticcode-policy/src/approval.rs])

    A grant binds a native confirmation to the exact request, workspace
    state, diff, files and actions.  It is a file in [active]; consuming it
    creates a claim, moves the record to [used] and compares every field. *)

From stdpp Require Import base list strings.
From Stdlib Require Import NArith Ascii String.
From S2P Require Import Prelude Bytes UnixPath IO Model Paths AuditLog.

Local Open Scope string_scope.
Local Open Scope N_scope.

Definition APPROVAL_SCHEMA_VERSION : N := 1.
Definition DEFAULT_APPROVAL_TTL_SECONDS : N := 10 * 60.
Definition MAX_APPROVAL_TTL_SECONDS : N := 30 * 60.
Definition MAX_APPROVAL_RECORD_BYTES : N := 256 * 1024.
Definition MAX_APPROVAL_FILES : N := 512.
Definition MAX_APPROVAL_ACTIONS : N := 128.

(** ** Data *)

Record ApprovalFileBinding := { path_hash : string; expected_hash : string }.
#[export] Instance ApprovalFileBinding_eq_dec : EqDecision ApprovalFileBinding.
Proof. solve_decision. Defined.

Record ApprovalBinding := {
  ab_request_id : string;
  ab_workspace_id : string;
  ab_workspace_root_hash : string;
  ab_mode : PolicyMode;
  ab_base_head : string;
  ab_working_tree_digest : string;
  ab_diff_hash : string;
  ab_files_hash : string;
  ab_files : list ApprovalFileBinding;
  ab_action_hashes : list string;
  ab_transaction_id : string;
}.
#[export] Instance ApprovalBinding_eq_dec : EqDecision ApprovalBinding.
Proof. solve_decision. Defined.

(** The fields are private: [explicit] is the only constructor. *)
Record NativeConfirmation := { nc_client : string; nc_confirmation_id : string }.

Inductive ApprovalState := Available | Consumed.

Record ApprovalGrant := {
  ag_schema_version : N;
  ag_approval_id : string;
  ag_issued_unix_ms : N;
  ag_expires_unix_ms : N;
  ag_binding_hash : string;
  ag_state : ApprovalState;
}.

Inductive ApprovalError :=
| Missing | Expired | Reused | WrongRequest | WrongWorkspace | WrongMode | HeadChanged
| WorkingTreeChanged | DiffChanged | FilesChanged | ActionsChanged | TransactionChanged
| InvalidRecord.
#[export] Instance ApprovalError_eq_dec : EqDecision ApprovalError.
Proof. solve_decision. Defined.

(** [Display] *)
Definition approval_error_display (e : ApprovalError) : string :=
  match e with
  | Missing => "approval does not exist"
  | Expired => "approval expired"
  | Reused => "approval was already consumed"
  | WrongRequest => "approval belongs to another request"
  | WrongWorkspace => "approval belongs to another workspace"
  | WrongMode => "approval belongs to another policy mode"
  | HeadChanged => "repository HEAD changed after approval"
  | WorkingTreeChanged => "working tree changed after approval"
  | DiffChanged => "verified diff changed after approval"
  | FilesChanged => "approved file set or hashes changed"
  | ActionsChanged => "approved action list changed"
  | TransactionChanged => "transaction binding changed"
  | InvalidRecord => "approval record is invalid"
  end.

Record ApprovalStore := { active_dir : string; used_dir : string }.

Record ApprovalRecord := {
  ar_schema_version : N;
  ar_issued_unix_ms : N;
  ar_expires_unix_ms : N;
  ar_confirmation_hash : string;
  ar_binding_hash : string;
  ar_binding : ApprovalBinding;
}.

(** [serde_json] on approval data, third-party; a failed [to_vec] carries
    the text of its error. *)
Class ApprovalSerde := {
  record_to_vec : ApprovalRecord -> result string string;
  record_from_slice : string -> option ApprovalRecord;
  binding_to_vec : ApprovalBinding -> result string string;
}.

(** ** Validation *)

Definition validate_hash (value : string) : any unit :=
  bail_if (negb (is_hash value)) "approval binding contains an invalid hash".

Definition validate_bounded_identifier (value : string) (max : N) : any unit :=
  bail_if (is_empty value || (max <? strlen value) || has_control value)
    "approval binding contains an invalid identifier".

(** [for x in l { check(x)? }] *)
Fixpoint for_each {A E} (check : A -> result unit E) (l : list A) : result unit E :=
  match l with
  | [] => Ok tt
  | x :: l' => check x ;? for_each check l'
  end.

Definition validate_binding (b : ApprovalBinding) : any unit :=
  _ <- validate_bounded_identifier (ab_request_id b) 160 ;?
  _ <- validate_bounded_identifier (ab_workspace_id b) 160 ;?
  _ <- validate_hash (ab_workspace_root_hash b) ;?
  _ <- validate_hash (ab_working_tree_digest b) ;?
  _ <- validate_hash (ab_diff_hash b) ;?
  _ <- validate_hash (ab_files_hash b) ;?
  _ <- validate_bounded_identifier (ab_base_head b) 160 ;?
  _ <- validate_bounded_identifier (ab_transaction_id b) 160 ;?
  _ <- bail_if (bool_decide (ab_files b = []) || (MAX_APPROVAL_FILES <? N.of_nat (List.length (ab_files b))))
         "approval must bind a bounded non-empty file list" ;?
  _ <- bail_if (bool_decide (ab_action_hashes b = [])
                || (MAX_APPROVAL_ACTIONS <? N.of_nat (List.length (ab_action_hashes b))))
         "approval must bind a bounded non-empty action list" ;?
  _ <- for_each (fun f => validate_hash (path_hash f) ;? validate_hash (expected_hash f)) (ab_files b) ;?
  for_each validate_hash (ab_action_hashes b).

(** [ApprovalBinding::normalized] *)
Definition normalized (b : ApprovalBinding) : any ApprovalBinding :=
  _ <- validate_binding b ;?
  _ <- bail_if (negb (List.length (btree_set (ab_files b)) =? List.length (ab_files b))%nat)
         "approval file bindings must be unique" ;?
  _ <- bail_if (negb (List.length (btree_set (ab_action_hashes b)) =? List.length (ab_action_hashes b))%nat)
         "approval action hashes must be unique" ;?
  Ok b.

(** [NativeConfirmation::explicit] *)
Definition explicit (client confirmation_id : string) : any NativeConfirmation :=
  _ <- validate_bounded_identifier client 96 ;?
  _ <- validate_bounded_identifier confirmation_id 160 ;?
  Ok {| nc_client := client; nc_confirmation_id := confirmation_id |}.

(** The first field that differs decides the error. *)
Definition compare_binding (expected observed : ApprovalBinding) : result unit ApprovalError :=
  let differs (b : bool) (e : ApprovalError) : result unit ApprovalError :=
    if b then Err e else Ok tt in
  _ <- differs (negb (ab_request_id expected =?s ab_request_id observed)) WrongRequest ;?
  _ <- differs (negb (ab_workspace_id expected =?s ab_workspace_id observed)
                || negb (ab_workspace_root_hash expected =?s ab_workspace_root_hash observed))
         WrongWorkspace ;?
  _ <- differs (negb (bool_decide (ab_mode expected = ab_mode observed))) WrongMode ;?
  _ <- differs (negb (ab_base_head expected =?s ab_base_head observed)) HeadChanged ;?
  _ <- differs (negb (ab_working_tree_digest expected =?s ab_working_tree_digest observed))
         WorkingTreeChanged ;?
  _ <- differs (negb (ab_diff_hash expected =?s ab_diff_hash observed)) DiffChanged ;?
  _ <- differs (negb (ab_files_hash expected =?s ab_files_hash observed)
                || negb (bool_decide (ab_files expected = ab_files observed))) FilesChanged ;?
  _ <- differs (negb (ab_transaction_id expected =?s ab_transaction_id observed)) TransactionChanged ;?
  differs (negb (bool_decide (ab_action_hashes expected = ab_action_hashes observed))) ActionsChanged.

(** ** The store *)

Definition ensure_child (parent_ child : string) : IO (any unit) :=
  canonical_parent <-? sys_any (Canonicalize parent_) ;;
  create_dir_if_missing any_of_io child ;;?
  md <-? sys_any (SymlinkMetadata child) ;;
  lift (bail_if (negb (is_dir md) || is_symlink md) "approval state directory is unsafe") ;;?
  canonical <-? sys_any (Canonicalize child) ;;
  lift (bail_if (negb (opt_path_eqb (parent canonical) (Some canonical_parent)))
          "approval state directory escaped its parent").

Definition ApprovalStore_open (root : string) : IO (any ApprovalStore) :=
  approval_root <-? policy_subdirectory root "approvals" ;;
  let active := join approval_root "active" in
  ensure_child approval_root active ;;?
  let used := join approval_root "used" in
  ensure_child approval_root used ;;?
  Ret (Ok {| active_dir := active; used_dir := used |}).

Definition ApprovalStore_default_store : IO (any ApprovalStore) :=
  dir <-? default_policy_state_dir ;; ApprovalStore_open dir.

Abbreviation claimed A := (result A ApprovalError).

(** [.map_err(|_| ApprovalError::InvalidRecord)] *)
Definition sys_invalid {A : Set} (c : syscall (result A io_error)) : IO (claimed A) :=
  io_map_err (fun _ => InvalidRecord) (sys c).

Section Store.
Context `{Blake3, ApprovalSerde}.

(** [hash_json] at a binding. *)
Definition hash_binding (b : ApprovalBinding) : any string :=
  map_err (fun e => AnyError e false) (map_ok blake3_hex (binding_to_vec b)).

Definition read_record (path : string) : IO (claimed ApprovalRecord) :=
  md <-? sys_invalid (SymlinkMetadata path) ;;
  lift (if negb (is_file md) || is_symlink md || (MAX_APPROVAL_RECORD_BYTES <? md_len md)
        then Err InvalidRecord else Ok tt) ;;?
  bytes <-? sys_invalid (ReadFile path) ;;
  Ret (ok_or InvalidRecord (record_from_slice bytes)).

Definition confirmation_hash_of (c : NativeConfirmation) : string :=
  blake3_hex (nc_client c ++ ":" ++ nc_confirmation_id c).

Definition issue_at (store : ApprovalStore) (binding : ApprovalBinding)
    (confirmation : NativeConfirmation) (ttl_seconds now_ms : N) : IO (any ApprovalGrant) :=
  lift (bail_if ((ttl_seconds =? 0) || (MAX_APPROVAL_TTL_SECONDS <? ttl_seconds))
          ("approval TTL must be between 1 and " ++ dec MAX_APPROVAL_TTL_SECONDS ++ " seconds")) ;;?
  binding <-? lift (normalized binding) ;;
  binding_hash <-? lift (hash_binding binding) ;;
  storage_id <-? new_storage_id "grant" ;;
  let approval_id := "approval-" ++ storage_id in
  lift (validate_storage_id approval_id) ;;?
  let expires := saturating_add64 now_ms (saturating_mul64 ttl_seconds 1000) in
  let record := {|
    ar_schema_version := APPROVAL_SCHEMA_VERSION;
    ar_issued_unix_ms := now_ms;
    ar_expires_unix_ms := expires;
    ar_confirmation_hash := confirmation_hash_of confirmation;
    ar_binding_hash := binding_hash;
    ar_binding := binding |} in
  json <-? lift (map_err (fun _ => AnyError "failed to serialize approval record" false)
                   (record_to_vec record)) ;;
  let bytes := json ++ String (byte 10) "" in
  lift (bail_if (MAX_APPROVAL_RECORD_BYTES <? strlen bytes)
          "approval record exceeds its bounded size") ;;?
  atomic_create (active_dir store) (join (active_dir store) (approval_id ++ ".json")) bytes ;;?
  Ret (Ok {| ag_schema_version := APPROVAL_SCHEMA_VERSION; ag_approval_id := approval_id;
             ag_issued_unix_ms := now_ms; ag_expires_unix_ms := expires;
             ag_binding_hash := binding_hash; ag_state := Available |}).

Definition issue (store : ApprovalStore) (binding : ApprovalBinding)
    (confirmation : NativeConfirmation) (ttl_seconds : N) : IO (any ApprovalGrant) :=
  now <- unix_millis ;; issue_at store binding confirmation ttl_seconds now.

(** The files of one approval. *)
Definition active_path (store : ApprovalStore) (id : string) : string :=
  join (active_dir store) (id ++ ".json").
Definition used_path (store : ApprovalStore) (id : string) : string :=
  join (used_dir store) (id ++ ".json").
Definition consuming_path (store : ApprovalStore) (id : string) : string :=
  join (used_dir store) (id ++ "-consuming.json").
Definition claim_path (store : ApprovalStore) (id : string) : string :=
  join (used_dir store) (id ++ ".claim").

(** The checks of the closure in [consume_at], on the record it read. *)
Definition check_record (approval_id : string) (observed : ApprovalBinding) (now_ms : N)
    (record : ApprovalRecord) : claimed ApprovalGrant :=
  observed <- map_err (fun _ => InvalidRecord) (normalized observed) ;?
  binding_hash <- map_err (fun _ => InvalidRecord) (hash_binding (ar_binding record)) ;?
  if negb (ar_schema_version record =? APPROVAL_SCHEMA_VERSION)
     || negb (ar_binding_hash record =?s binding_hash)
     || (ar_expires_unix_ms record <? ar_issued_unix_ms record)
     || negb (strlen (ar_confirmation_hash record) =? 64)
  then Err InvalidRecord
  else if ar_expires_unix_ms record <? now_ms then Err Expired
  else
    _ <- compare_binding (ar_binding record) observed ;?
    Ok {| ag_schema_version := APPROVAL_SCHEMA_VERSION;
          ag_approval_id := approval_id;
          ag_issued_unix_ms := ar_issued_unix_ms record;
          ag_expires_unix_ms := ar_expires_unix_ms record;
          ag_binding_hash := ar_binding_hash record;
          ag_state := Consumed |}.

(** [claim.exists() || used.exists() || consuming.exists()], in order. *)
Definition already_claimed (store : ApprovalStore) (id : string) : IO bool :=
  claim_there <- path_exists (claim_path store id) ;;
  if claim_there : bool then Ret true else
  used_there <- path_exists (used_path store id) ;;
  if used_there : bool then Ret true else
  path_exists (consuming_path store id).

(** Creating the claim: the atomic step that elects the consumer. *)
Definition take_claim (store : ApprovalStore) (id : string) : IO (claimed unit) :=
  r <- sys (CreateNew (claim_path store id)) ;;
  match r with
  | Ok file =>
      synced <- sys (SyncAll file) ;;
      match synced with
      | Ok _ => Ret (Ok tt)
      | Err _ => Ret (Err InvalidRecord)
      end
  | Err e => if bool_decide (io_error_kind e = AlreadyExists) then Ret (Err Reused)
             else Ret (Err InvalidRecord)
  end.

Definition take_record (store : ApprovalStore) (id : string) : IO (claimed unit) :=
  r <- sys (Rename (active_path store id) (consuming_path store id)) ;;
  match r with
  | Ok _ => Ret (Ok tt)
  | Err e => if bool_decide (io_error_kind e = NotFound) then Ret (Err Reused)
             else Ret (Err InvalidRecord)
  end.

Definition consume_at (store : ApprovalStore) (approval_id : string) (observed : ApprovalBinding)
    (now_ms : N) : IO (claimed ApprovalGrant) :=
  lift (map_err (fun _ => InvalidRecord) (validate_storage_id approval_id)) ;;?
  reused <- already_claimed store approval_id ;;
  if reused : bool then Ret (Err Reused) else
  active_there <- path_exists (active_path store approval_id) ;;
  if negb active_there then Ret (Err Missing) else
  take_claim store approval_id ;;?
  take_record store approval_id ;;?
  outcome <- (record <-? read_record (consuming_path store approval_id) ;;
              lift (check_record approval_id observed now_ms record)) ;;
  moved <- sys (Rename (consuming_path store approval_id) (used_path store approval_id)) ;;
  match moved with
  | Err _ => Ret (Err InvalidRecord)
  | Ok _ => Ret outcome
  end.

Definition consume (store : ApprovalStore) (approval_id : string) (observed : ApprovalBinding)
    : IO (claimed ApprovalGrant) :=
  now <- unix_millis ;; consume_at store approval_id observed now.
End Store.
