(* ===== verification/Rules.v ===== *)
(** * Rule outcomes and validators ([opticcode-policy/src/engine.rs])

    The pure parts of the engine: the outcomes the rules return, the
    validators of hashes, identifiers, path lists and environments, and the
    predicates on build commands. *)

From stdpp Require Import base list strings.
From Stdlib Require Import NArith Ascii String.
From S2P Require Import Prelude Bytes UnixPath IO Model Paths.

Local Open Scope string_scope.
Local Open Scope N_scope.

Definition MAX_TECHNICAL_REASON_BYTES : N := 2 * 1024.
Definition MAX_USER_REASON_BYTES : N := 512.

(** The crate is built for Unix here. *)
Definition cfg_windows : bool := false.

Inductive PolicyError :=
| InvalidRequest (message : string)
| Storage (message : string).

(** [Display] *)
Definition policy_error_display (e : PolicyError) : string :=
  match e with
  | InvalidRequest m => "invalid policy request: " ++ m
  | Storage m => "policy storage failure: " ++ m
  end.

Abbreviation policy A := (result A PolicyError).

Definition invalid_path_request (e : PathSafetyError) : PolicyError :=
  InvalidRequest (pse_display e).

(** ** Outcomes *)

(** (decision, user reason, technical reason, recommended action, retriable) *)
Definition RuleOutcome : Type := PolicyDecision * string * string * string * bool.

Definition outcome_decision (o : RuleOutcome) : PolicyDecision :=
  let '(d, _, _, _, _) := o in d.

Definition allowed (rule_id scope : string) (conditions : list string)
    (user_reason technical_reason : string) : RuleOutcome :=
  (Allow rule_id Low scope conditions, user_reason, technical_reason,
   "Proceed through the structured executor and revalidate before and after.", false).

Definition approval_required (rule_id : string) (risk : RiskLevel)
    (user_reason technical_reason recommended : string) : RuleOutcome :=
  (RequireApproval rule_id user_reason risk technical_reason, user_reason, technical_reason,
   recommended, true).

Definition denied (rule_id : string) (risk : RiskLevel)
    (user_reason technical_reason recommended : string) (retriable : bool) : RuleOutcome :=
  (Deny rule_id user_reason risk, user_reason, technical_reason, recommended, retriable).

Definition read_only_write_denied : RuleOutcome :=
  denied "mode.read_only_write_denied" High
    "The current read_only mode cannot write or mutate state."
    "No approval can widen read_only mode implicitly."
    "Start an explicit worktree proposal or approved apply flow." true.

Definition outside_scope_denied : RuleOutcome :=
  denied "path.outside_authorized_root" Critical
    "The action target is outside its authorized root."
    "The target is neither the canonical workspace nor its active leased worktree."
    "Use a path inside the current workspace or active proposal worktree." false.

(** ** Validators *)

Definition is_hex_string (value : string) : bool := all_bytes is_ascii_hexdigit value.

Definition validate_hash_value (value label : string) : safe unit :=
  reject_if (negb (strlen value =? 64) || negb (is_hex_string value))
    "action.hash_invalid" (label ++ " is not a 64-character hexadecimal digest").

Definition is_git_oid (value : string) : bool :=
  ((strlen value =? 40) || (strlen value =? 64)) && is_hex_string value.

Definition validate_git_oid (value label : string) : safe unit :=
  reject_if (negb (is_git_oid value))
    "git.oid_invalid" (label ++ " is not a full hexadecimal Git object ID").

Definition validate_identifier_value (value label : string) : safe unit :=
  reject_if (is_empty value || (MAX_POLICY_IDENTIFIER_BYTES <? strlen value) || has_control value)
    "action.identifier_invalid"
    (label ++ " is empty, too long, or contains control characters").

Definition validate_worktree_run_id (value : string) : safe unit :=
  reject_if (negb ((1 <=? strlen value) && (strlen value <=? 96))
             || negb (all_bytes (fun c => is_ascii_alphanumeric c || one_of "-_" c) value))
    "worktree.run_id" "worktree run ID must contain only ASCII letters, digits, '-' or '_'".

Definition validate_request_identifier (value : string) (max : N) (label : string) : policy unit :=
  if is_empty value || (max <? strlen value)
     || negb (all_bytes (fun c => is_ascii_alphanumeric c || one_of "-_.:" c) value)
  then Err (InvalidRequest (label ++ " contains unsupported characters or exceeds its bound"))
  else Ok tt.

(** One path of a list: relative, normal components only. *)
Definition normal_relative (path : string) : bool :=
  negb (is_absolute path) && forallb is_normal (components path).

Fixpoint normalized_paths (paths : list string) : safe (list string) :=
  match paths with
  | [] => Ok []
  | path :: rest =>
      _ <- reject_if (negb (normal_relative path))
             "path.invalid_relative" "file lists must contain normal relative paths" ;?
      more <- normalized_paths rest ;?
      Ok (replace_backslash (to_string_lossy path) :: more)
  end.

Definition validate_sorted_paths (paths : list string) : safe unit :=
  normalized <- normalized_paths paths ;?
  reject_if (windows2_any str_ge normalized)
    "action.path_order" "file lists must be unique and sorted deterministically".

Definition require_working_tree_digest (request : PolicyRequest) : safe unit :=
  match working_tree_digest (rq_workspace request) with
  | None => fail "git.working_tree_unobserved"
              "working-tree digest is required for this mutating action"
  | Some digest => validate_hash_value digest "working-tree digest"
  end.

(** ** Build commands *)

Definition ALLOWED_ENVIRONMENT : list string :=
  ["CI"; "GRADLE_USER_HOME"; "JAVA_HOME"; "MAVEN_USER_HOME"; "NO_COLOR"].

Definition environment_name_denied (name : string) : bool :=
  is_empty name || (64 <? strlen name)
  || negb (all_bytes (fun c => is_ascii_uppercase c || is_ascii_digit c || Ascii.eqb c "_"%char) name)
  || negb (existsb (String.eqb name) ALLOWED_ENVIRONMENT).

Definition validate_environment_allowlist (environment : list string) : option RuleOutcome :=
  if MAX_POLICY_ENVIRONMENT_KEYS <? N.of_nat (List.length environment) then
    Some (denied "process.environment_limit" High
            "The process environment allowlist is too large."
            "Only a bounded set of inherited environment names may reach a child process."
            "Reduce the environment allowlist." true)
  else if windows2_any str_ge environment then
    Some (denied "process.environment_order" High
            "The process environment allowlist must be unique and sorted."
            "Deterministic ordering prevents ambiguous or duplicated inherited variables."
            "Sort and deduplicate the environment names." true)
  else if existsb environment_name_denied environment then
    Some (denied "process.environment_denied" Critical
            "The process requested an environment variable outside the allowlist."
            "Secrets, shell configuration, JVM option injection, and arbitrary variables are not inherited."
            "Use only the documented non-secret build environment names." false)
  else None.

Definition OPERATORS : list string := ["&"; "&&"; "|"; "||"; ";"; ">"; ">>"; "<"; "2>"].
Definition is_operator (s : string) : bool := existsb (String.eqb s) OPERATORS.

Definition unsafe_argument (argument : string) (launch : ProcessLaunch) : bool :=
  is_empty argument || has_control argument
  || any_byte (fun c => byte_n c =? 96) argument
  || str_contains "$(" argument
  || is_operator (trim argument)
  || existsb is_operator (split_whitespace argument)
  || (bool_decide (launch = WindowsCommandScript) && any_byte (one_of "&|<>^%!") argument).

Definition is_shell_executable (name : string) : bool :=
  existsb (String.eqb name)
    ["cmd"; "cmd.exe"; "powershell"; "powershell.exe"; "pwsh"; "pwsh.exe"; "bash"; "bash.exe";
     "sh"; "sh.exe"; "wsl"; "wsl.exe"].

Definition package_install_goal (tool : string) (arguments : list string) : bool :=
  existsb (fun argument =>
    let lower := to_ascii_lowercase argument in
    ((tool =?s "maven")
     && ((lower =?s "install") || (lower =?s "deploy")
         || str_contains "dependency:get" lower || str_contains "wrapper:" lower))
    || ((tool =?s "gradle")
        && ((lower =?s "wrapper") || str_contains "publish" lower
            || str_contains "dependencyupdates" lower))) arguments.

Definition MAVEN_DENIED_OPTIONS : list string :=
  ["-f"; "--file"; "-s"; "--settings"; "-gs"; "--global-settings"; "-t"; "--toolchains"].
Definition MAVEN_DENIED_PREFIXES : list string :=
  ["-dmaven.ext.class.path="; "-dmaven.home="; "-dmaven.multimoduleprojectdirectory="].
Definition GRADLE_DENIED_OPTIONS : list string :=
  ["-b"; "--build-file"; "-c"; "--settings-file"; "-p"; "--project-dir"; "-g";
   "--gradle-user-home"; "--init-script"; "--include-build"].
Definition GRADLE_DENIED_PREFIXES : list string :=
  ["--build-file="; "--settings-file="; "--project-dir="; "--gradle-user-home=";
   "--init-script="; "--include-build="].

Definition dangerous_build_option (tool : string) (arguments : list string) : bool :=
  existsb (fun argument =>
    let lower := to_ascii_lowercase argument in
    if starts_with "@" lower then true
    else if tool =?s "maven" then
      existsb (String.eqb lower) MAVEN_DENIED_OPTIONS
      || existsb (fun p => starts_with p lower) MAVEN_DENIED_PREFIXES
    else
      (argument =?s "-I")
      || existsb (String.eqb lower) GRADLE_DENIED_OPTIONS
      || existsb (fun p => starts_with p lower) GRADLE_DENIED_PREFIXES) arguments.

Definition MAVEN_GOALS : list string :=
  ["clean"; "compile"; "test"; "verify"; "package"; "checkstyle:check"].
Definition GRADLE_GOALS : list string :=
  ["clean"; "compilejava"; "test"; "check"; "build"; "assemble"].

Definition goal_allowed (tool goal : string) : bool :=
  if tool =?s "maven" then existsb (String.eqb goal) MAVEN_GOALS
  else existsb (String.eqb goal) GRADLE_GOALS
       || ends_with ":test" goal || ends_with ":check" goal || ends_with ":build" goal.

Definition build_goals (arguments : list string) : list string :=
  btree_set (map to_ascii_lowercase
               (List.filter (fun a => negb (starts_with "-" a)) arguments)).

Definition allowed_build_goals (tool : string) (arguments : list string) : bool :=
  match build_goals arguments with
  | [] => false
  | goals => forallb (goal_allowed tool) goals
  end.

(** ** Text *)

Definition normalized_absolute (path : string) : string :=
  to_ascii_lowercase (replace_backslash (to_string_lossy path)).

(** The largest character boundary at most [end_]. *)
Fixpoint floor_boundary (value : string) (end_ : nat) : nat :=
  match end_ with
  | O => O
  | S e => if is_char_boundary value (N.of_nat end_) then end_ else floor_boundary value e
  end.

Definition bounded (value : string) (max : N) : string :=
  if strlen value <=? max then value else
  let end_ := floor_boundary value (N.to_nat (N.min (max - 16) (strlen value))) in
  take_bytes end_ value ++ "...[truncated]".

Definition transaction_id (action : PolicyAction) : option string :=
  match action with
  | ApplyPatch a => Some (ap_transaction_id a)
  | RecoverTransaction a | RollbackTransaction a => Some (ta_transaction_id a)
  | _ => None
  end.

(** [u64::try_from(started.elapsed().as_micros()).unwrap_or(u64::MAX)], from
    two readings of the monotonic clock in nanoseconds. *)
Definition duration_us (started now : N) : N := to_u64_or_max ((now - started) / 1000).

Section Hashing.
Context `{Blake3}.
Definition hash_text (value : string) : string := blake3_hex value.
End Hashing.
