(* ===== verification/Worktree.v ===== *)
(** * Worktree leases and Git boundaries ([opticcode-policy/src/engine.rs])

    What the engine checks before it trusts a disposable worktree, a Git
    boundary or an installed executable, and the scopes built on it. *)

From stdpp Require Import base list strings.
From Stdlib Require Import NArith Ascii String.
From S2P Require Import Prelude Bytes UnixPath IO Model Paths Rules.

Local Open Scope string_scope.
Local Open Scope N_scope.

Definition WORKTREE_STORAGE_DIRECTORY : string := "opticcode-worktrees".
Definition WORKTREE_RUNS_DIRECTORY : string := "runs".
Definition WORKTREE_LEASES_DIRECTORY : string := "leases".
Definition MAX_LEASE_BYTES : N := 64 * 1024.

Record WorktreeLeaseWire := {
  lw_schema_version : N;
  lw_run_id : string;
  lw_owner_workspace_id : string;
  lw_owner_request_id : string;
  lw_process_id : N;
  lw_created_unix_ms : N;
  lw_source_git_root : string;
  lw_source_project : string;
  lw_source_commit : string;
  lw_worktree_path : string;
}.

(** [serde_json::from_slice] at the lease type, third-party. *)
Class LeaseSerde := lease_from_slice : string -> option WorktreeLeaseWire.

(** [fs::canonicalize(p).ok().as_deref() == Some(expected)] *)
Definition canonical_is (p expected : string) : IO bool :=
  r <- sys (Canonicalize p) ;; Ret (opt_path_eqb (ok r) (Some expected)).

(** [p.parent().and_then(|parent| fs::canonicalize(parent).ok())] *)
Definition canonical_parent (p : string) : IO (option string) :=
  match parent p with
  | None => Ret None
  | Some q => r <- sys (Canonicalize q) ;; Ret (ok r)
  end.

(** [p.file_name().and_then(|v| v.to_str())] *)
Definition file_name_str (p : string) : option string :=
  match file_name p with Some n => to_str n | None => None end.

(** [std::env::temp_dir()] *)
Definition temp_dir : IO string :=
  v <- sys (EnvVar "TMPDIR") ;; Ret (default "/tmp" v).

Definition controlled_worktree_storage : IO (safe string) :=
  dir <- temp_dir ;; inspect_root (join dir WORKTREE_STORAGE_DIRECTORY).

(** A bounded regular file. *)
Definition bounded_regular (m : metadata) (max : N) : bool :=
  is_file m && negb (metadata_is_link_or_reparse m) && (md_len m <=? max).

(** [fs::read_to_string] *)
Definition read_to_string (path : string) (e : PathSafetyError) : IO (safe string) :=
  bytes <-? sys_or (ReadFile path) e ;;
  Ret (ok_or e (to_str bytes)).

(** ** The runtime lease *)

(** The conditions of the lease comparison, in order; each [||] of the
    source stops at the first that holds. *)
Definition lease_differs (lease : WorktreeLeaseWire) (descriptor : ActiveWorktree)
    (root workspace_root workspace_id request_id : string) : IO bool :=
  if negb (lw_schema_version lease =? 1) || negb (lw_run_id lease =?s aw_run_id descriptor)
  then Ret true else
  source_ok <- canonical_is (lw_source_git_root lease) workspace_root ;;
  if negb source_ok then Ret true else
  worktree_ok <- canonical_is (lw_worktree_path lease) root ;;
  if negb worktree_ok then Ret true else
  Ret (negb (lw_source_commit lease =?s aw_base_head descriptor)
       || negb (lw_owner_workspace_id lease =?s workspace_id)
       || negb (lw_owner_request_id lease =?s request_id)).

Section Lease.
Context `{LeaseSerde}.

Definition validate_worktree_lease (storage : string) (descriptor : ActiveWorktree)
    (root workspace_root workspace_id request_id : string) : IO (safe unit) :=
  let lease_path := join (join storage WORKTREE_LEASES_DIRECTORY) (aw_run_id descriptor ++ ".json") in
  md <-? sys_or (SymlinkMetadata lease_path)
           (PSE "worktree.lease_missing" "active worktree has no runtime lease") ;;
  lift (reject_if (negb (bounded_regular md MAX_LEASE_BYTES)) "worktree.lease_invalid"
          "active worktree lease is not a bounded regular file") ;;?
  bytes <-? sys_or (ReadFile lease_path)
              (PSE "worktree.lease_invalid" "active worktree lease cannot be read") ;;
  lease <-? lift (ok_or (PSE "worktree.lease_invalid" "active worktree lease schema is invalid")
                    (lease_from_slice bytes)) ;;
  differs <- lease_differs lease descriptor root workspace_root workspace_id request_id ;;
  lift (reject_if differs "worktree.lease_mismatch"
          "active worktree does not match its runtime lease").
End Lease.

(** ** The [.git] indirection *)

(** A relative path is resolved against the directory holding the file. *)
Definition absolute_from (base path : string) : string :=
  if is_absolute path then path else join base path.

Definition validate_git_file (root : string) (descriptor : ActiveWorktree) : IO (safe unit) :=
  let git_file := join root ".git" in
  md <-? sys_or (SymlinkMetadata git_file)
           (PSE "git.worktree_file_missing" "active worktree is missing its .git indirection file") ;;
  lift (reject_if (negb (bounded_regular md (8 * 1024))) "git.worktree_file_invalid"
          "worktree .git indirection is unsafe") ;;?
  content <-? read_to_string git_file
                (PSE "git.worktree_file_invalid" "worktree .git indirection cannot be read") ;;
  path <-? lift (ok_or (PSE "git.worktree_file_invalid"
                          "worktree .git indirection has an invalid format")
                   (match str_strip_prefix "gitdir:" (trim content) with
                    | Some rest => Some (trim rest)
                    | None => None
                    end)) ;;
  git_dir <-? sys_or (Canonicalize (absolute_from root path))
                (PSE "git.worktree_gitdir_invalid" "worktree gitdir cannot be resolved") ;;
  expected_git_dir <-? sys_or (Canonicalize (aw_git_dir descriptor))
                         (PSE "git.worktree_gitdir_invalid"
                            "declared worktree gitdir cannot be resolved") ;;
  common_dir <-? sys_or (Canonicalize (aw_common_dir descriptor))
                   (PSE "git.commondir_invalid"
                      "declared Git common directory cannot be resolved") ;;
  lift (reject_if (negb (path_eqb git_dir expected_git_dir) || path_eqb git_dir common_dir
                   || negb (path_starts_with git_dir common_dir))
          "git.boundary_mismatch"
          "worktree gitdir and common Git directory boundaries do not match") ;;?
  let commondir_file := join git_dir "commondir" in
  md <-? sys_or (SymlinkMetadata commondir_file)
           (PSE "git.commondir_invalid" "worktree gitdir is missing its commondir file") ;;
  lift (reject_if (negb (bounded_regular md (8 * 1024))) "git.commondir_invalid"
          "worktree commondir indirection is unsafe") ;;?
  value <-? read_to_string commondir_file
              (PSE "git.commondir_invalid" "worktree commondir indirection cannot be read") ;;
  matches_ <- canonical_is (absolute_from git_dir (trim value)) common_dir ;;
  lift (reject_if (negb matches_) "git.commondir_invalid"
          "worktree commondir file differs from the declared Git boundary").

(** ** The active worktree *)

Section Active.
Context `{LeaseSerde}.

Definition validate_active_descriptor (descriptor : option ActiveWorktree)
    (workspace_root workspace_id request_id : string) : IO (safe (option string)) :=
  match descriptor with
  | None => Ret (Ok None)
  | Some descriptor =>
      lift (validate_worktree_run_id (aw_run_id descriptor)) ;;?
      lift (validate_identifier_value (aw_owner_workspace_id descriptor)
              "worktree owner workspace ID") ;;?
      lift (validate_identifier_value (aw_owner_request_id descriptor)
              "worktree owner request ID") ;;?
      lift (validate_git_oid (aw_base_head descriptor) "worktree base HEAD") ;;?
      lift (reject_if (negb (aw_owner_workspace_id descriptor =?s workspace_id)
                       || negb (aw_owner_request_id descriptor =?s request_id))
              "worktree.owner_mismatch"
              "active worktree does not belong to this workspace and request") ;;?
      source <-? inspect_root (aw_source_root descriptor) ;;
      lift (reject_if (negb (path_eqb source workspace_root)) "worktree.source_mismatch"
              "active worktree source does not match the workspace") ;;?
      root <-? inspect_root (aw_root descriptor) ;;
      storage <-? controlled_worktree_storage ;;
      expected <-? sys_or (Canonicalize (join (join storage WORKTREE_RUNS_DIRECTORY)
                                           (aw_run_id descriptor)))
                     (PSE "worktree.storage_mismatch"
                        "active worktree is not in controlled temporary storage") ;;
      lift (reject_if (negb (path_eqb root expected)) "worktree.storage_mismatch"
              "active worktree path does not match its controlled run ID") ;;?
      validate_worktree_lease storage descriptor root workspace_root workspace_id request_id ;;?
      validate_git_file root descriptor ;;?
      Ret (Ok (Some root))
  end.

(** The source repository's state when a worktree is declared. *)
Definition require_source_state (request : PolicyRequest) : safe unit :=
  match active_worktree (rq_workspace request) with
  | None => Ok tt
  | Some descriptor =>
      match repository (rq_workspace request) with
      | None => fail "worktree.source_state_missing"
                  "active worktree requires an observed source repository boundary"
      | Some repository =>
          _ <- reject_if (negb (grb_head repository =?s aw_base_head descriptor))
                 "worktree.source_head_drift"
                 "source HEAD changed after the worktree lease was created" ;?
          _ <- reject_if (negb (bool_decide (repository_clean (rq_workspace request) = Some true)))
                 "worktree.source_dirty"
                 "source repository is dirty or its cleanliness is unobserved" ;?
          require_working_tree_digest request
      end
  end.

Definition validated_active_worktree (request : PolicyRequest) (workspace_root : string)
    : IO (safe (option string)) :=
  active <-? validate_active_descriptor (active_worktree (rq_workspace request)) workspace_root
               (workspace_id (rq_workspace request)) (rq_request_id request) ;;
  lift (require_source_state request) ;;?
  Ret (Ok active).

(** ** Scopes *)

Definition require_read_scope (request : PolicyRequest) (workspace_root action_root : string)
    : IO (safe unit) :=
  if path_eqb action_root workspace_root then Ret (Ok tt) else
  active <-? validated_active_worktree request workspace_root ;;
  lift (reject_if (negb (opt_path_eqb active (Some action_root))) "path.outside_workspace"
          "read root is outside the workspace and active worktree").

Definition require_workspace_or_active_root (request : PolicyRequest)
    (workspace_root action_root : string) : IO (safe unit) :=
  require_read_scope request workspace_root action_root.
End Active.

(** ** Worktree creation *)

Definition validate_worktree_destination (destination run_id : string) : IO (safe unit) :=
  lift (validate_worktree_run_id run_id) ;;?
  storage <-? controlled_worktree_storage ;;
  runs <-? sys_or (Canonicalize (join storage WORKTREE_RUNS_DIRECTORY))
             (PSE "worktree.storage_unavailable"
                "controlled worktree runs directory is unavailable") ;;
  destination_parent <- canonical_parent destination ;;
  lift (reject_if (negb (opt_path_eqb destination_parent (Some runs))
                   || negb (bool_decide (file_name_str destination = Some run_id)))
          "worktree.destination_denied"
          "worktree destination is outside the controlled run directory") ;;?
  there <- sys (FollowMetadata destination) ;;
  lift (reject_if (is_ok there) "worktree.destination_exists"
          "worktree destination already exists").

(** ** Repository boundary *)

(** The condition on the index file, whose parent is canonicalised last. *)
Definition index_misplaced (md : metadata) (index git_dir : string) : IO bool :=
  if negb (is_file md) || metadata_is_link_or_reparse md
     || negb (bool_decide (file_name_str index = Some "index"))
  then Ret true else
  index_parent <- canonical_parent index ;;
  Ret (negb (opt_path_eqb index_parent (Some git_dir))).

Definition validate_repository_boundary (boundary : option GitRepositoryBoundary) (workspace : string)
    : IO (safe unit) :=
  match boundary with
  | None => Ret (Ok tt)
  | Some boundary =>
      workspace <-? inspect_root workspace ;;
      worktree <-? inspect_root (grb_worktree_root boundary) ;;
      lift (reject_if (negb (path_eqb workspace worktree)) "git.workspace_mismatch"
              "declared repository root differs from the workspace root") ;;?
      git_dir <-? inspect_root (grb_git_dir boundary) ;;
      common_dir <-? inspect_root (grb_common_dir boundary) ;;
      object_dir <-? inspect_root (grb_object_dir boundary) ;;
      lift (reject_if (grb_main_worktree boundary && negb (path_eqb git_dir common_dir))
              "git.boundary_mismatch" "main worktree gitdir must match its common directory") ;;?
      main_ok <- (if grb_main_worktree boundary then canonical_is (join workspace ".git") git_dir
                  else Ret true) ;;
      lift (reject_if (negb main_ok) "git.boundary_mismatch"
              "main Git directory is not the workspace .git directory") ;;?
      lift (reject_if (negb (grb_main_worktree boundary)
                       && (path_eqb git_dir common_dir || negb (path_starts_with git_dir common_dir)))
              "git.boundary_mismatch"
              "linked worktree gitdir is outside the declared common directory") ;;?
      lift (reject_if (negb (path_eqb object_dir (join common_dir "objects")))
              "git.object_boundary_mismatch"
              "Git object directory is not the exact common objects directory") ;;?
      lift (reject_if (negb (is_git_oid (grb_head boundary))) "git.head_invalid"
              "repository HEAD is not a full hexadecimal object ID") ;;?
      md <-? sys_or (SymlinkMetadata (grb_index boundary))
               (PSE "git.index_missing"
                  "Git index boundary does not exist or cannot be inspected") ;;
      misplaced <- index_misplaced md (grb_index boundary) git_dir ;;
      lift (reject_if misplaced "git.index_missing"
              "Git index boundary is empty or outside the worktree gitdir")
  end.

(** ** Installed executables *)

Definition INSTALL_ROOTS : list string := ["/usr/bin"; "/usr/local/bin"; "/opt"].

Section Hashing.
Context `{Blake3}.

Definition target_in (root path : string) : PathTarget :=
  {| pt_root := root; pt_path := path; pt_range := None; pt_expected_hash := None |}.

Fixpoint find_installed (canonical : string) (roots : list string)
    : IO (safe (option PathSafetyReport)) :=
  match roots with
  | [] => Ret (Ok None)
  | root :: rest =>
      r <- inspect_root root ;;
      match r with
      | Err _ => find_installed canonical rest
      | Ok root =>
          if path_starts_with canonical root then
            report <-? inspect_path (target_in root canonical) ExpectFile ;;
            Ret (Ok (Some report))
          else find_installed canonical rest
      end
  end.

Definition inspect_installed_executable (executable : string)
    : IO (safe (option PathSafetyReport)) :=
  if negb (is_absolute executable) then Ret (Ok None) else
  r <- sys (Canonicalize executable) ;;
  match r with
  | Err _ => Ret (Ok None)
  | Ok canonical => find_installed canonical INSTALL_ROOTS
  end.
End Hashing.

(** ** Transactions *)

Definition validate_transaction_action (action : TransactionAction) (workspace_root : string)
    : IO (safe unit) :=
  root <-? inspect_root (ta_workspace_root action) ;;
  lift (reject_if (negb (path_eqb root workspace_root)) "transaction.workspace_mismatch"
          "transaction belongs to a different workspace") ;;?
  lift (validate_identifier_value (ta_transaction_id action) "transaction ID") ;;?
  lift (validate_hash_value (ta_expected_state_hash action) "transaction state hash").
