(* ===== verification/Actions.v ===== *)
(** * The rules, action by action ([opticcode-policy/src/engine.rs])

    [evaluate_action] and the handlers it dispatches to.  The out-parameter
    [paths] of the source is threaded through every handler, because it
    keeps what was pushed even when a later check fails. *)

From stdpp Require Import base list strings.
From Stdlib Require Import NArith Ascii String.
From S2P Require Import Prelude Bytes UnixPath IO Model Paths Rules Worktree.

Local Open Scope string_scope.
Local Open Scope N_scope.

(** ** Handlers *)

(** A handler takes the reports pushed so far and returns the reports and
    its result. *)
Definition handler (A : Type) : Type :=
  list PathSafetyReport -> IO (list PathSafetyReport * safe A).

Definition h_ret {A} (a : A) : handler A := fun paths => Ret (paths, Ok a).
Definition h_io {A} (m : IO (safe A)) : handler A := fun paths => r <- m ;; Ret (paths, r).
Definition h_safe {A} (r : safe A) : handler A := fun paths => Ret (paths, r).
Definition h_push (p : PathSafetyReport) : handler unit :=
  fun paths => Ret ((paths ++ [p])%list, Ok tt).
Definition h_bind {A B} (m : handler A) (f : A -> handler B) : handler B :=
  fun paths =>
    pr <- m paths ;;
    match snd pr with
    | Ok a => f a (fst pr)
    | Err e => Ret (fst pr, Err e)
    end.

Declare Scope handler_scope.
Delimit Scope handler_scope with handler.
Notation "x <~ m ;~ k" := (h_bind m (fun x => k))
  (at level 100, m at next level, right associativity) : handler_scope.
Notation "m ;~ k" := (h_bind m (fun _ => k))
  (at level 100, right associativity) : handler_scope.
Open Scope handler_scope.

(** [if c { return Ok(outcome) }], then the rest. *)
Definition h_stop_if (c : bool) (outcome : RuleOutcome) (k : handler RuleOutcome) : handler RuleOutcome :=
  if c then h_ret outcome else k.

Section Handlers.
Context `{Blake3, LeaseSerde}.

(** [for path in input { paths.push(inspect_path(..)?) }] *)
Fixpoint push_inspected (root : string) (input : list string) (expectation : PathExpectation)
    : handler unit :=
  match input with
  | [] => h_ret tt
  | path :: rest =>
      report <~ h_io (inspect_path (target_in root path) expectation) ;~
      h_push report ;~
      push_inspected root rest expectation
  end.

Definition inspect_path_list (root : string) (input : list string) : handler unit :=
  h_safe (reject_if (MAX_POLICY_PATHS <? N.of_nat (List.length input))
            "action.path_limit" "action contains too many paths") ;~
  h_safe (validate_sorted_paths input) ;~
  push_inspected root input ExistingEntry.

(** *** Reads *)

Definition evaluate_read_file (request : PolicyRequest) (workspace_root : string)
    (target : PathTarget) : handler RuleOutcome :=
  report <~ h_io (inspect_path target ExpectFile) ;~
  h_io (require_read_scope request workspace_root (psr_root report)) ;~
  h_push report ;~
  h_ret (allowed "read.safe_workspace_file" "workspace_source"
    ["regular path"; "inside workspace"; "secret path denied"; "TOCTOU revalidation"]
    "Safe workspace source may be read."
    "The file passed canonicalization, root, reparse, nested-repository, and sensitive-path checks.").

Definition evaluate_read_directory (request : PolicyRequest) (workspace_root : string)
    (target : PathTarget) : handler RuleOutcome :=
  report <~ h_io (inspect_path target ExpectDirectory) ;~
  h_io (require_read_scope request workspace_root (psr_root report)) ;~
  h_push report ;~
  h_ret (allowed "read.safe_workspace_directory" "workspace_directory"
    ["regular path"; "inside workspace"; "bounded traversal required"]
    "The safe workspace directory may be inspected."
    "Directory traversal remains bounded and cannot cross links or repository boundaries.").

Definition evaluate_search (request : PolicyRequest) (workspace_root : string)
    (action : SearchAction) : handler RuleOutcome :=
  root <~ h_io (inspect_root (sa_root action)) ;~
  h_io (require_read_scope request workspace_root root) ;~
  h_safe (validate_hash_value (sa_query_hash action) "search query hash") ;~
  inspect_path_list root (sa_paths action) ;~
  h_ret (allowed "analysis.search_read_only" "workspace_search"
    ["bounded query"; "safe source types"; "no writes"]
    "Read-only workspace search is allowed."
    "Search is constrained to the canonical workspace and safe paths.").

Definition evaluate_context (request : PolicyRequest) (workspace_root : string)
    (action : ContextAction) : handler RuleOutcome :=
  root <~ h_io (inspect_root (ca_root action)) ;~
  h_io (require_read_scope request workspace_root root) ;~
  h_safe (validate_hash_value (ca_task_hash action) "context task hash") ;~
  inspect_path_list root (ca_candidate_paths action) ;~
  h_ret (allowed "analysis.context_read_only" "workspace_context"
    ["bounded context"; "safe source reads"; "no writes"]
    "Java and project context may be built."
    "Context construction is a read-only action over validated roots.").

Definition evaluate_rag (workspace_root : string) (action : RagAction) : handler RuleOutcome :=
  h_safe (validate_hash_value (ra_query_hash action) "RAG query hash") ;~
  root <~ h_io (inspect_root (ra_index_root action)) ;~
  h_stop_if (negb (path_starts_with root workspace_root))
    (denied "rag.index_outside_workspace" High
       "The RAG index is outside the authorized workspace."
       "This policy version only trusts a workspace-owned validated index."
       "Use the configured OpticCode RAG v2 index inside the workspace." false)
  (h_ret (allowed "rag.safe_index_read" "rag_v2"
    ["validated index"; "bounded hits"; "secret exclusions"]
    "The validated local RAG index may be queried."
    "RAG access is local and read-only; source policy still applies.")).

(** *** Writes *)

Definition evaluate_write (request : PolicyRequest) (workspace_root : string) (target : PathTarget)
    (expectation : PathExpectation) (creation : bool) : handler RuleOutcome :=
  report <~ h_io (inspect_path target expectation) ;~
  active <~ h_io (validated_active_worktree request workspace_root) ;~
  h_stop_if (bool_decide (rq_mode request = ReadOnly)) read_only_write_denied (
  h_stop_if (negb (opt_path_eqb active (Some (psr_root report))))
    (denied "write.original_requires_apply" Critical
       "Direct writes to the original workspace are blocked."
       "Original changes must use a verified ApplyPatch action and one-shot approval."
       "Create and verify a proposal in an active OpticCode worktree first." false) (
  h_push report ;~
  h_ret (if creation then
    allowed "write.active_worktree_create" "active_opticcode_worktree"
      ["validated lease"; "controlled temporary root";
       "new path validated by the proposal contract"; "transactional write"]
      "The new file may be created inside the active disposable worktree."
      "The original workspace remains untouched until a separate approved apply."
  else
    allowed "write.active_worktree" "active_opticcode_worktree"
      ["validated lease"; "controlled temporary root"; "expected file hash"; "transactional write"]
      "The existing file may be changed inside the active disposable worktree."
      "The original workspace is outside the target root and remains untouched."))).

Definition evaluate_delete (request : PolicyRequest) (workspace_root : string)
    (action : DeleteAction) : handler RuleOutcome :=
  h_stop_if (da_recursive action)
    (denied "delete.recursive_denied" Critical
       "Recursive deletion is not available."
       "The action requested a recursive filesystem delete."
       "Review and delete individual files manually if still necessary." false) (
  report <~ h_io (inspect_path (da_target action) ExpectFile) ;~
  h_io (require_workspace_or_active_root request workspace_root (psr_root report)) ;~
  h_stop_if (bool_decide (rq_mode request = ReadOnly)) read_only_write_denied (
  h_stop_if (path_eqb (psr_root report) workspace_root)
    (denied "delete.original_requires_apply" Critical
       "Direct deletion from the original workspace is blocked."
       "Original deletions must be represented by a verified transactional patch."
       "Create and verify the deletion in a disposable worktree first." false) (
  h_push report ;~
  h_ret (approval_required "delete.worktree_file_requires_approval" High
    "Deleting a proposal file requires explicit confirmation."
    "The deletion is confined to the disposable worktree but remains destructive."
    "Review the exact worktree file and approve the one-shot action.")))).

(** The checks of a patch on the original workspace. *)
Definition evaluate_apply_original (request : PolicyRequest) (action : ApplyPatchAction)
    : handler RuleOutcome :=
  h_stop_if (negb (bool_decide (rq_mode request = ApprovedApply)))
    (denied "apply.mode_required" Critical
       "Applying to the original workspace requires approved_apply mode."
       "The request did not enter the narrow state-bound apply mode."
       "Verify the proposal, obtain native confirmation, then retry once." true) (
  match repository (rq_workspace request) with
  | None => h_ret (denied "apply.git_boundary_required" Critical
      "Applying to the original workspace requires a complete Git boundary."
      "The runtime cannot bind approval to an observed repository HEAD without Git metadata."
      "Rebuild the verified proposal state from the repository adapter." true)
  | Some repository =>
  h_stop_if (negb (grb_head repository =?s ap_base_head action))
    (denied "apply.head_mismatch" Critical
       "Repository HEAD no longer matches the verified proposal."
       "The apply action base commit differs from the currently observed Git boundary."
       "Re-verify the proposal against the current HEAD." true) (
  h_stop_if (negb (bool_decide (repository_clean (rq_workspace request) = Some true)))
    (denied "apply.repository_dirty" Critical
       "Applying to a dirty or unobserved repository is blocked."
       "approved_apply requires an explicit clean observation from Git State Guard."
       "Refresh Git state and resolve all pre-existing changes before approval." true) (
  h_safe (require_working_tree_digest request) ;~
  h_ret (approval_required "apply.original_requires_approval" High
    "Applying verified changes to the original workspace requires confirmation."
    "The approval binds request, workspace, mode, HEAD, working tree, diff, files, actions, and transaction."
    "Review the verified diff in the IDE and confirm the native modal.")))
  end).

Definition evaluate_apply_patch (request : PolicyRequest) (workspace_root : string)
    (action : ApplyPatchAction) : handler RuleOutcome :=
  h_safe (validate_hash_value (ap_diff_hash action) "diff hash") ;~
  h_safe (validate_hash_value (ap_files_hash action) "file-set hash") ;~
  h_safe (validate_identifier_value (ap_transaction_id action) "transaction ID") ;~
  h_safe (validate_git_oid (ap_base_head action) "base HEAD") ;~
  h_safe (validate_sorted_paths (ap_paths action)) ;~
  h_safe (validate_sorted_paths (ap_created_paths action)) ;~
  h_stop_if (MAX_POLICY_PATHS <? saturating_add64 (N.of_nat (List.length (ap_paths action)))
                                   (N.of_nat (List.length (ap_created_paths action))))
    (denied "action.path_limit" High
       "The patch contains too many paths."
       "The structured patch exceeded the policy path bound."
       "Split the proposal into smaller reviewed transactions." true) (
  root <~ h_io (inspect_root (ap_root action)) ;~
  active <~ h_io (validated_active_worktree request workspace_root) ;~
  push_inspected root (ap_paths action) ExpectFile ;~
  push_inspected root (ap_created_paths action) NewFile ;~
  if path_eqb root workspace_root then evaluate_apply_original request action else
  h_stop_if (opt_path_eqb active (Some root) && bool_decide (rq_mode request = WorktreeEdit))
    (allowed "apply.active_worktree" "active_opticcode_worktree"
       ["validated lease"; "transactional patch"; "bounded file set";
        "created paths validated by the proposal contract"; "post-apply verification"]
       "The patch may be applied transactionally inside the disposable worktree."
       "The original workspace is outside the target transaction.")
  (h_ret outside_scope_denied)).

(** *** Processes

    [evaluate_process] in five stages, in the source's order. *)

Definition process_timeout_denied : RuleOutcome :=
  denied "process.timeout_invalid" High
    "The process timeout is outside policy bounds."
    "A bounded timeout is mandatory for every child process."
    "Use a timeout between 1 ms and one hour." true.
Definition process_output_denied : RuleOutcome :=
  denied "process.output_limit_invalid" High
    "The process output bound is invalid."
    "Bounded stdout and stderr capture is mandatory."
    "Use an output limit up to 16 MiB per stream." true.
Definition process_arguments_denied : RuleOutcome :=
  denied "process.arguments_too_large" High
    "The process argument list exceeds policy bounds."
    "Arguments must remain separately represented and bounded."
    "Reduce the argument list." true.
Definition process_metacharacter_denied : RuleOutcome :=
  denied "process.metacharacter_denied" Critical
    "Shell composition and control characters are blocked."
    "At least one argument contains a shell operator, newline, NUL, or command substitution."
    "Pass plain, separate build-tool arguments only." false.
Definition network_undeclared_denied : RuleOutcome :=
  denied "network.undeclared" Critical
    "Undeclared network access is blocked."
    "Every process must declare whether it may contact the network."
    "Declare denied, declared, or required network intent." true.

Definition argument_bytes (arguments : list string) : N :=
  fold_right (fun a n => strlen a + n) 0 arguments.

(** Stage 2: bounds, environment, metacharacters, network intent; [None]
    lets the evaluation go on. *)
Definition process_bounds (action : RunProcessAction) : option RuleOutcome :=
  if (rp_timeout_ms action =? 0) || (MAX_POLICY_TIMEOUT_MS <? rp_timeout_ms action)
  then Some process_timeout_denied
  else if (rp_output_limit_bytes action =? 0) || (MAX_POLICY_OUTPUT_BYTES <? rp_output_limit_bytes action)
  then Some process_output_denied
  else if (MAX_POLICY_ARGUMENTS <? N.of_nat (List.length (rp_arguments action)))
          || (MAX_POLICY_ARGUMENT_BYTES <? argument_bytes (rp_arguments action))
  then Some process_arguments_denied
  else match validate_environment_allowlist (rp_environment_allowlist action) with
  | Some rule => Some rule
  | None =>
  if existsb (fun a => unsafe_argument a (rp_launch action)) (rp_arguments action)
  then Some process_metacharacter_denied
  else if bool_decide (rp_network action = NetUndeclared)
  then Some network_undeclared_denied
  else None
  end.

(** [action.executable.file_name().and_then(to_str).unwrap_or("")], lower case *)
Definition executable_name (action : RunProcessAction) : string :=
  to_ascii_lowercase (default "" (file_name_str (rp_executable action))).

(** Stage 3: the tool an executable name selects and whether it is the
    project's own wrapper. *)
Definition classify_tool (name : string) : result (string * bool) RuleOutcome :=
  if existsb (String.eqb name) ["mvn"; "mvn.exe"; "mvn.cmd"] then Ok ("maven", false)
  else if existsb (String.eqb name) ["mvnw"; "mvnw.cmd"] then Ok ("maven", true)
  else if existsb (String.eqb name) ["gradle"; "gradle.exe"; "gradle.bat"] then Ok ("gradle", false)
  else if existsb (String.eqb name) ["gradlew"; "gradlew.bat"] then Ok ("gradle", true)
  else if existsb (String.eqb name) ["java"; "java.exe"; "javac"; "javac.exe"] then
    Err (denied "process.java_runtime_denied" Critical
      "Direct Java execution is not enabled by this policy version."
      "A generic Java or javac command can load arbitrary classes or annotation processors."
      "Use an allowlisted Maven or Gradle verification task in the disposable worktree." false)
  else
    Err (denied "process.executable_unknown" Critical
      "The executable is not in the build allowlist."
      "Only Maven and Gradle verification executables are supported."
      "Use the project Maven or Gradle wrapper with bounded arguments." false).

Definition select_tool (action : RunProcessAction) : result (string * bool) RuleOutcome :=
  if is_shell_executable (executable_name action) || bool_decide (rp_launch action = Shell) then
    Err (denied "process.shell_denied" Critical
      "Arbitrary shell execution is blocked."
      "PowerShell, cmd, bash, and composed shell launch are outside the process allowlist."
      "Use a supported build executable with separate arguments." false)
  else classify_tool (executable_name action).

Definition expected_launch (name : string) (scripts : list string) : ProcessLaunch :=
  if cfg_windows && existsb (String.eqb name) scripts then WindowsCommandScript else Direct.

(** Stage 4: the executable itself.  [None] lets the evaluation go on. *)
Definition check_wrapper (workspace_root active cwd : string) (action : RunProcessAction)
    : handler (option RuleOutcome) :=
  wrapper <~ h_io (inspect_path (target_in active (absolute_from cwd (rp_executable action))) ExpectFile) ;~
  source_wrapper <~ h_io (inspect_path (target_in workspace_root (relative_path wrapper)) ExpectFile) ;~
  if negb (bool_decide (content_hash (fingerprint_of wrapper)
                        = content_hash (fingerprint_of source_wrapper))) then
    h_ret (Some (denied "process.wrapper_drift" Critical
      "A modified project build wrapper cannot be executed."
      "The wrapper content in the disposable worktree differs from the observed source wrapper."
      "Restore the wrapper and keep proposal edits outside build launchers." false))
  else
  h_push wrapper ;~
  h_push source_wrapper ;~
  h_ret (if negb (bool_decide (rp_launch action
                    = expected_launch (executable_name action) ["mvnw.cmd"; "gradlew.bat"])) then
    Some (denied "process.wrapper_launch_invalid" High
      "The project build wrapper launch mode is invalid."
      "Windows command scripts use the dedicated launcher; executable wrappers launch directly."
      "Use the launch mode associated with the validated wrapper type." true)
  else None).

Definition check_installed (action : RunProcessAction) : handler (option RuleOutcome) :=
  found <~ h_io (inspect_installed_executable (rp_executable action)) ;~
  match found with
  | None => h_ret (Some (denied "process.executable_untrusted" Critical
      "The installed build executable is not from a trusted absolute location."
      "Bare PATH lookup and executables outside system installation roots can be shadowed."
      "Use the validated project wrapper or an absolute Maven/Gradle installation path." false))
  | Some report =>
      h_push report ;~
      h_ret (if negb (bool_decide (rp_launch action
                        = expected_launch (executable_name action) ["mvn.cmd"; "gradle.bat"])) then
        Some (denied "process.installed_launch_invalid" High
          "The installed build executable launch mode is invalid."
          "Native executables use direct launch; validated Windows scripts use the dedicated script launcher."
          "Use the launch mode associated with the validated executable type." true)
      else None)
  end.

(** Stage 5: goals, options and the network decision. *)
Definition process_goals (tool : string) (action : RunProcessAction) : RuleOutcome :=
  if package_install_goal tool (rp_arguments action) then
    denied "process.package_install_denied" Critical
      "Install and dependency-management goals are blocked."
      "The build invocation requests a machine or dependency state mutation."
      "Use compile, test, verify, package, or check goals." false
  else if dangerous_build_option tool (rp_arguments action) then
    denied "process.option_denied" Critical
      "The build command contains an option outside the verification allowlist."
      "Project, settings, init-script, extension, response-file, or tool-home overrides can escape the reviewed build boundary."
      "Use the project defaults and ordinary verification flags only." false
  else if negb (allowed_build_goals tool (rp_arguments action)) then
    denied "process.goal_unknown" High
      "The build goal is not in the verification allowlist."
      "Only compile, test, verify, package, and check-style tasks are supported."
      "Select an allowlisted verification goal." true
  else
    let offline := existsb (fun a => (a =?s "-o") || (a =?s "--offline")) (rp_arguments action) in
    if offline && bool_decide (rp_network action = NetDenied) then
      allowed "process.build_offline" "active_worktree_build"
        ["Maven or Gradle allowlist"; "offline"; "bounded timeout"; "bounded output";
         "active worktree cwd"]
        "The offline build or test may run in the disposable worktree."
        "Executable, arguments, cwd, timeout, output, and network intent passed policy."
    else if bool_decide (rp_network action = NetDenied) then
      denied "process.offline_required" High
        "A network-denied build must explicitly use offline mode."
        "The process requested network denial without Maven or Gradle's offline flag."
        "Add --offline (or -o) or declare the exact network requirement for approval." true
    else
      approval_required "process.build_network_requires_approval" Medium
        "This Maven or Gradle verification may access the network."
        "The invocation is bounded but is not provably offline."
        "Confirm the exact build command and declared network access.".

(** Stage 1: the working directory, pushed unless it is the worktree. *)
Definition push_cwd (active cwd : string) : handler unit :=
  if path_eqb cwd active then h_ret tt else
  relative <~ h_safe (ok_or (PSE "process.cwd_outside_worktree"
                               "process cwd is outside the active worktree")
                        (strip_prefix cwd active)) ;~
  report <~ h_io (inspect_path (target_in active relative) ExpectDirectory) ;~
  h_push report.

Definition evaluate_process (request : PolicyRequest) (workspace_root : string)
    (action : RunProcessAction) : handler RuleOutcome :=
  h_stop_if (negb (bool_decide (rq_mode request = WorktreeEdit))) read_only_write_denied (
  active <~ h_io (validated_active_worktree request workspace_root) ;~
  match active with
  | None => h_ret outside_scope_denied
  | Some active =>
  cwd <~ h_io (inspect_root (rp_cwd action)) ;~
  h_stop_if (negb (path_starts_with cwd active)) outside_scope_denied (
  push_cwd active cwd ;~
  match process_bounds action with
  | Some rule => h_ret rule
  | None =>
  match select_tool action with
  | Err rule => h_ret rule
  | Ok (tool, project_wrapper) =>
  stopped <~ (if project_wrapper : bool then check_wrapper workspace_root active cwd action
              else check_installed action) ;~
  match stopped with
  | Some rule => h_ret rule
  | None => h_ret (process_goals tool action)
  end
  end
  end)
  end).

(** *** Worktrees *)

Definition evaluate_create_worktree (request : PolicyRequest) (workspace_root : string)
    (action : CreateWorktreeAction) : handler RuleOutcome :=
  root <~ h_io (inspect_root (cw_repository_root action)) ;~
  h_stop_if (negb (path_eqb root workspace_root)) outside_scope_denied (
  h_safe (validate_git_oid (cw_base_head action) "worktree base HEAD") ;~
  h_io (validate_worktree_destination (cw_destination action) (cw_run_id action)) ;~
  h_stop_if (negb (cw_detached action))
    (denied "worktree.detached_required" High
       "OpticCode worktrees must use detached HEAD."
       "Creating or moving a user branch is outside the disposable-worktree scope."
       "Create the worktree at the exact base commit with detached HEAD." false) (
  h_stop_if (negb (bool_decide (rq_mode request = WorktreeEdit))) read_only_write_denied (
  match repository (rq_workspace request) with
  | None => h_ret (denied "worktree.git_boundary_required" High
      "Creating a worktree requires an observed Git boundary."
      "The source HEAD and repository layout were not supplied by the trusted Git adapter."
      "Refresh repository state before creating the disposable worktree." true)
  | Some boundary =>
  h_stop_if (negb (grb_head boundary =?s cw_base_head action))
    (denied "worktree.head_mismatch" High
       "The source HEAD changed before worktree creation."
       "The requested base commit differs from the observed repository boundary."
       "Refresh and recreate the proposal from the current HEAD." true) (
  h_stop_if (negb (bool_decide (repository_clean (rq_workspace request) = Some true)))
    (denied "worktree.source_dirty" High
       "The source repository must be clean before worktree creation."
       "A missing or false cleanliness observation fails closed."
       "Commit, stash, or otherwise resolve source changes, then refresh Git state." true) (
  h_safe (require_working_tree_digest request) ;~
  h_ret (allowed "worktree.create_disposable" "opticcode_temp_worktree"
    ["detached HEAD"; "controlled temporary root"; "exact base commit"; "recoverable lease"]
    "A disposable OpticCode worktree may be created."
    "The destination is a direct child of controlled temporary storage.")))
  end))).

Definition evaluate_cleanup (request : PolicyRequest) (workspace_root : string)
    (action : CleanupWorktreeAction) : handler RuleOutcome :=
  h_safe (validate_worktree_run_id (cl_run_id action)) ;~
  h_stop_if (bool_decide (rq_mode request = ReadOnly)) read_only_write_denied (
  root <~ h_io (inspect_root (cl_repository_root action)) ;~
  h_stop_if (negb (path_eqb root workspace_root)) outside_scope_denied (
  active <~ h_io (validated_active_worktree request workspace_root) ;~
  worktree_root <~ h_io (inspect_root (cl_worktree_root action)) ;~
  h_stop_if (opt_path_eqb active (Some worktree_root)
             && bool_decide (rq_mode request = WorktreeEdit)
             && is_some_and (fun w => aw_run_id w =?s cl_run_id action)
                  (active_worktree (rq_workspace request)))
    (allowed "worktree.cleanup_active" "active_opticcode_worktree"
       ["validated lease"; "targeted removal"; "registration recheck"]
       "The active disposable worktree may be cleaned up."
       "Cleanup is restricted to the exact leased worktree and never uses global prune.")
  (h_ret (approval_required "worktree.recovery_requires_approval" High
    "Recovering an abandoned worktree requires confirmation."
    "The target is not the current active worktree for this request."
    "Inspect the lease and approve targeted recovery.")))).

(** *** Git *)

Definition evaluate_git_read (request : PolicyRequest) (workspace_root : string)
    (action : GitReadAction) : handler RuleOutcome :=
  h_stop_if (bool_decide (gr_operation action = GitReadUnknown))
    (denied "git.read_operation_unknown" High
       "Unknown Git operations are blocked."
       "The Git read operation is outside the closed allowlist."
       "Use status, diff, log, show, rev-parse, or list-files." false) (
  root <~ h_io (inspect_root (gr_repository_root action)) ;~
  h_io (require_workspace_or_active_root request workspace_root root) ;~
  inspect_path_list root (gr_paths action) ;~
  h_ret (allowed "git.read_allowlist" "repository_read"
    ["read-only Git operation"; "no ref mutation"; "no network"]
    "The requested Git inspection is allowed."
    "The operation is in the closed read-only Git allowlist.")).

Definition evaluate_git_write (action : GitWriteAction) : RuleOutcome :=
  if bool_decide (gw_operation action = GitWriteUnknown) then
    denied "git.write_operation_unknown" Critical
      "Unknown Git writes are blocked."
      "The requested Git mutation is not represented by a safe dedicated action."
      "Use a dedicated worktree or transaction operation." false
  else
    denied "git.generic_write_denied" High
      "Generic Git writes are not available."
      "Worktree and apply mutations must use their dedicated structured actions."
      "Use CreateWorktree, CleanupWorktree, ApplyPatch, or GitCommit." false.

Definition evaluate_git_commit (request : PolicyRequest) (workspace_root : string)
    (action : GitCommitAction) : handler RuleOutcome :=
  h_safe (validate_hash_value (gc_tree_hash action) "Git tree hash") ;~
  h_safe (validate_hash_value (gc_message_hash action) "commit message hash") ;~
  root <~ h_io (inspect_root (gc_repository_root action)) ;~
  h_io (require_workspace_or_active_root request workspace_root root) ;~
  h_ret (if bool_decide (rq_mode request = ReadOnly) then read_only_write_denied else
    approval_required "git.local_commit_requires_approval" High
      "Creating a local commit requires explicit confirmation."
      "A commit changes repository refs even without network access."
      "Review the staged tree and approve the exact one-shot commit.").

(** *** Transactions *)

Definition evaluate_transaction (request : PolicyRequest) (workspace_root : string)
    (action : TransactionAction) (outcome : RuleOutcome) : handler RuleOutcome :=
  h_io (validate_transaction_action action workspace_root) ;~
  h_stop_if (bool_decide (rq_mode request = ReadOnly)) read_only_write_denied (h_ret outcome).

(** *** Dispatch *)

Definition evaluate_action (request : PolicyRequest) (workspace_root : string) : handler RuleOutcome :=
  match rq_action request with
  | UnknownAction => h_ret (denied "action.unknown" Critical
      "Unknown actions are never authorized."
      "The closed policy action enum did not recognize this action."
      "Upgrade the client or use a supported structured action." false)
  | ModifyPolicy => h_ret (denied "policy.modification_denied" Critical
      "The model cannot modify its authorization policy."
      "Policy changes are outside all runtime action scopes."
      "Change policy source manually and review it as code." false)
  | ElevatePrivileges => h_ret (denied "process.elevation_denied" Critical
      "Privilege elevation is not available."
      "Elevated execution is excluded from OpticCode runtime capabilities."
      "Run any administrative maintenance manually outside OpticCode." false)
  | ReadFileAction target => evaluate_read_file request workspace_root target
  | ReadDirectory target => evaluate_read_directory request workspace_root target
  | Search action => evaluate_search request workspace_root action
  | BuildContext action => evaluate_context request workspace_root action
  | UseRag action => evaluate_rag workspace_root action
  | WriteFile target => evaluate_write request workspace_root target ExpectFile false
  | CreateFile target => evaluate_write request workspace_root target NewFile true
  | DeleteFile action => evaluate_delete request workspace_root action
  | ApplyPatch action => evaluate_apply_patch request workspace_root action
  | RunProcess action => evaluate_process request workspace_root action
  | CreateWorktree action => evaluate_create_worktree request workspace_root action
  | CleanupWorktree action => evaluate_cleanup request workspace_root action
  | GitRead action => evaluate_git_read request workspace_root action
  | GitWrite action => h_ret (evaluate_git_write action)
  | GitCommit action => evaluate_git_commit request workspace_root action
  | GitPush _ => h_ret (denied "git.push_denied" Critical
      "Git push is never performed by this policy version."
      "Remote ref mutation is outside OpticCode local-agent capabilities."
      "Push manually after reviewing local changes and commits." false)
  | NetworkAccess _ _ => h_ret (denied "network.standalone_denied" Critical
      "Standalone network access is unavailable."
      "Network access must be tied to an explicitly approved bounded operation."
      "Use local data, or approve a supported Maven/Gradle verification action." false)
  | PackageInstall _ _ => h_ret (denied "package.install_denied" Critical
      "Automatic package installation is disabled."
      "Package installation changes the machine outside the project transaction boundary."
      "Install reviewed dependencies manually." false)
  | Publish _ _ => h_ret (denied "publish.denied" Critical
      "Publishing and releases are disabled."
      "The action would expose or distribute an artifact outside the local workspace."
      "Publish manually after reviewing the verified artifact." false)
  | RecoverTransaction action =>
      evaluate_transaction request workspace_root action
        (approval_required "transaction.recovery_requires_approval" High
           "Targeted recovery requires explicit confirmation."
           "Recovery may mutate files or remove abandoned controlled resources."
           "Inspect the transaction, then approve this exact one-shot recovery.")
  | RollbackTransaction action =>
      evaluate_transaction request workspace_root action
        (approval_required "transaction.rollback_requires_approval" High
           "Rolling back an applied transaction requires explicit confirmation."
           "Rollback rewrites the exact files recorded by a previous transaction."
           "Inspect transaction state and approve this exact one-shot rollback.")
  end.
End Handlers.
