(* ===== verification/Engine.v ===== *)
(** * The policy engine ([opticcode-policy/src/engine.rs])

    [evaluate] turns a request into a report; [explain] returns it, [check]
    consumes an approval when one is needed and records the decision,
    [issue_approval] creates a grant, and [revalidate_observed] repeats the
    evaluation immediately before execution. *)

From stdpp Require Import base list strings.
From Stdlib Require Import NArith Ascii String.
From S2P Require Import Prelude Bytes UnixPath IO Model Paths AuditLog Approval Rules Worktree Actions.

Local Open Scope string_scope.
Local Open Scope N_scope.

(** [serde_json::to_vec] at the types the engine hashes, third-party; an
    error carries its text. *)
Class EngineSerde := {
  action_to_vec : PolicyAction -> result string string;
  request_to_vec : PolicyRequest -> result string string;
  files_to_vec : list ApprovalFileBinding -> result string string;
}.

Record PolicyEngine := { audit : AuditStore; approvals : ApprovalStore }.

Record PolicyPreflight := {
  pf_report : PolicyReport;
  pf_paths : list PathSafetyReport;
  pf_request : PolicyRequest;
  pf_base_rule_id : string;
  pf_security_context_hash : string;
}.

Record Evaluation := { evn_report : PolicyReport; evn_paths : list PathSafetyReport }.

(** ** Reports *)

Definition set_decision (d : PolicyDecision) (user technical recommended : string)
    (retriable : bool) (r : PolicyReport) : PolicyReport := {|
  rep_schema_version := rep_schema_version r;
  rep_protocol := rep_protocol r;
  rep_policy_version := rep_policy_version r;
  rep_request_id := rep_request_id r;
  rep_action_id := rep_action_id r;
  rep_action_kind := rep_action_kind r;
  rep_action_hash := rep_action_hash r;
  rep_workspace_hash := rep_workspace_hash r;
  rep_decision := d;
  rep_user_reason := user;
  rep_technical_reason := technical;
  rep_recommended_action := recommended;
  rep_retriable := retriable;
  rep_revalidation_required := rep_revalidation_required r;
  rep_audit_event_id := rep_audit_event_id r;
|}.

Definition set_audit_event_id (id : option string) (r : PolicyReport) : PolicyReport := {|
  rep_schema_version := rep_schema_version r;
  rep_protocol := rep_protocol r;
  rep_policy_version := rep_policy_version r;
  rep_request_id := rep_request_id r;
  rep_action_id := rep_action_id r;
  rep_action_kind := rep_action_kind r;
  rep_action_hash := rep_action_hash r;
  rep_workspace_hash := rep_workspace_hash r;
  rep_decision := rep_decision r;
  rep_user_reason := rep_user_reason r;
  rep_technical_reason := rep_technical_reason r;
  rep_recommended_action := rep_recommended_action r;
  rep_retriable := rep_retriable r;
  rep_revalidation_required := rep_revalidation_required r;
  rep_audit_event_id := id;
|}.

(** The rule and retriability of each approval failure. *)
Definition approval_failure_rule (e : ApprovalError) : string * bool :=
  match e with
  | Expired => ("approval.expired", true)
  | Reused => ("approval.reused", false)
  | WrongRequest => ("approval.request_drift", false)
  | WrongWorkspace => ("approval.workspace_drift", false)
  | WrongMode => ("approval.mode_drift", false)
  | HeadChanged => ("approval.head_drift", true)
  | WorkingTreeChanged => ("approval.working_tree_drift", true)
  | DiffChanged => ("approval.diff_drift", true)
  | FilesChanged => ("approval.files_drift", true)
  | ActionsChanged => ("approval.actions_drift", true)
  | TransactionChanged => ("approval.transaction_drift", true)
  | Missing => ("approval.missing", true)
  | InvalidRecord => ("approval.invalid", false)
  end.

Definition apply_approval_failure (report : PolicyReport) (error : ApprovalError) : PolicyReport :=
  let '(rule_id, retriable) := approval_failure_rule error in
  set_decision (Deny rule_id (approval_error_display error) High)
    "The approval is no longer valid for this action."
    (bounded (approval_error_display error) MAX_TECHNICAL_REASON_BYTES)
    "Re-verify the proposal and request a new native confirmation."
    retriable report.

(** The report of a consumed approval. *)
Definition approved_report (kind : string) (report : PolicyReport) : PolicyReport :=
  set_decision
    (Allow "approval.one_shot" Low kind
       ["native confirmation"; "one-shot approval consumed"; "state binding matched";
        "revalidate immediately before execution"])
    "The exact approved action may run once."
    "The runtime consumed a valid state-bound approval record."
    "Execute immediately, then verify postconditions."
    false report.

(** ** Request validation *)

(** [map_err(f)?] *)
Definition policy_of_safe {A} (r : safe A) : policy A := map_err invalid_path_request r.

Definition approval_id_malformed (value : string) : bool :=
  is_empty value || (MAX_POLICY_IDENTIFIER_BYTES <? strlen value)
  || negb (all_bytes (fun c => is_ascii_alphanumeric c || one_of "-_" c) value).

Definition validate_request_fields (request : PolicyRequest) : policy unit :=
  _ <- (if negb (rq_schema_version request =? POLICY_SCHEMA_VERSION)
           || negb (rq_protocol request =?s POLICY_PROTOCOL_ID)
        then Err (InvalidRequest ("expected " ++ POLICY_PROTOCOL_ID ++ " schema "
                                  ++ dec POLICY_SCHEMA_VERSION))
        else Ok tt) ;?
  _ <- validate_request_identifier (rq_request_id request) MAX_POLICY_REQUEST_ID_BYTES "request ID" ;?
  _ <- validate_request_identifier (rq_action_id request) MAX_POLICY_IDENTIFIER_BYTES "action ID" ;?
  _ <- validate_request_identifier (workspace_id (rq_workspace request))
         MAX_POLICY_IDENTIFIER_BYTES "workspace ID" ;?
  _ <- validate_request_identifier (rq_profile request) 96 "profile" ;?
  _ <- validate_request_identifier (client_name (rq_client request)) 96 "client name" ;?
  _ <- validate_request_identifier (client_version (rq_client request)) 96 "client version" ;?
  _ <- (if bool_decide (rq_origin request = UnknownOrigin)
        then Err (InvalidRequest "unknown action origin is not accepted") else Ok tt) ;?
  _ <- (if is_some_and approval_id_malformed (rq_approval_id request)
        then Err (InvalidRequest "approval ID is malformed") else Ok tt) ;?
  match working_tree_digest (rq_workspace request) with
  | Some digest => policy_of_safe (validate_hash_value digest "working-tree digest")
  | None => Ok tt
  end.

Definition validate_request (request : PolicyRequest) : IO (policy unit) :=
  lift (validate_request_fields request) ;;?
  io_map_err invalid_path_request
    (validate_repository_boundary (repository (rq_workspace request))
       (workspace_root (rq_workspace request))).

Section Engine.
Context `{Blake3, LeaseSerde, AuditSerde, ApprovalSerde, EngineSerde}.

Definition hash_json (bytes : result string string) : policy string :=
  map_err InvalidRequest (map_ok blake3_hex bytes).

Definition action_hash (action : PolicyAction) : policy string := hash_json (action_to_vec action).
Definition security_context_hash (request : PolicyRequest) : policy string :=
  hash_json (request_to_vec request).
Definition hash_file_bindings (files : list ApprovalFileBinding) : policy string :=
  hash_json (files_to_vec files).

(** ** Evaluation *)

Definition path_error_denied (error : PathSafetyError) : RuleOutcome :=
  denied (pse_rule_id error) High
    "The requested path is blocked by the safety policy."
    (pse_message error)
    "Choose a regular, non-sensitive path inside the authorized workspace." false.

Definition make_report (request : PolicyRequest) (workspace_hash hash : string)
    (outcome : RuleOutcome) (paths : list PathSafetyReport) : PolicyReport :=
  let '(decision, user_reason, technical_reason, recommended_action, retriable) := outcome in {|
    rep_schema_version := POLICY_SCHEMA_VERSION;
    rep_protocol := POLICY_PROTOCOL_ID;
    rep_policy_version := POLICY_VERSION;
    rep_request_id := rq_request_id request;
    rep_action_id := rq_action_id request;
    rep_action_kind := action_kind (rq_action request);
    rep_action_hash := hash;
    rep_workspace_hash := workspace_hash;
    rep_decision := decision;
    rep_user_reason := bounded user_reason MAX_USER_REASON_BYTES;
    rep_technical_reason := bounded technical_reason MAX_TECHNICAL_REASON_BYTES;
    rep_recommended_action := bounded recommended_action MAX_USER_REASON_BYTES;
    rep_retriable := retriable;
    rep_revalidation_required := match paths with [] => false | _ => true end;
    rep_audit_event_id := None;
  |}.

Definition inspect_workspace (request : PolicyRequest) : IO (policy string) :=
  io_map_err invalid_path_request (inspect_root (workspace_root (rq_workspace request))).

Definition evaluate (request : PolicyRequest) : IO (policy Evaluation) :=
  validate_request request ;;?
  root <-? inspect_workspace request ;;
  let workspace_hash :=
    hash_text (workspace_id (rq_workspace request) ++ ":" ++ normalized_absolute root) in
  hash <-? lift (action_hash (rq_action request)) ;;
  pr <- evaluate_action request root [] ;;
  let '(paths, outcome) := pr in
  let outcome := match outcome with Ok o => o | Err e => path_error_denied e end in
  Ret (Ok {| evn_report := make_report request workspace_hash hash outcome paths;
             evn_paths := paths |}).

(** ** Approval bindings *)

Definition file_binding (path : PathSafetyReport) : ApprovalFileBinding := {|
  path_hash := hash_text (normalized_absolute (psr_root path) ++ ":" ++
                          replace_backslash (to_string_lossy (relative_path path)));
  expected_hash := default (metadata_hash (fingerprint_of path)) (content_hash (fingerprint_of path));
|}.

Definition bound_files (root : string) (paths : list PathSafetyReport) : list ApprovalFileBinding :=
  match paths with
  | [] => [{| path_hash := hash_text (normalized_absolute root);
              expected_hash := hash_text "no_file_binding" |}]
  | _ => map file_binding paths
  end.

Definition observed_head (request : PolicyRequest) : string :=
  match repository (rq_workspace request) with
  | Some r => grb_head r
  | None => "no-head"
  end.

(** [format!("{prefix}-{}", &hash[..16])], which panics when byte 16 is
    not a character boundary of [hash]. *)
Definition short_id (prefix hash : string) : IO string :=
  match slice_to hash 16 with
  | Some short => Ret (prefix ++ "-" ++ short)
  | None => Panic "byte index 16 is out of bounds or not a char boundary"
  end.

(** (base HEAD, diff hash, files hash, transaction) of the action. *)
Definition binding_fields (request : PolicyRequest) (hash : string)
    (files : list ApprovalFileBinding) : IO (policy (string * string * string * string)) :=
  match rq_action request with
  | ApplyPatch action =>
      Ret (Ok (ap_base_head action, ap_diff_hash action, ap_files_hash action,
               ap_transaction_id action))
  | GitCommit action =>
      files_hash <-? lift (hash_file_bindings files) ;;
      short <- short_id "commit" (gc_tree_hash action) ;;
      Ret (Ok (observed_head request, gc_tree_hash action, files_hash, short))
  | RecoverTransaction action | RollbackTransaction action =>
      files_hash <-? lift (hash_file_bindings files) ;;
      Ret (Ok (observed_head request, ta_expected_state_hash action, files_hash,
               ta_transaction_id action))
  | _ =>
      files_hash <-? lift (hash_file_bindings files) ;;
      short <- short_id "action" hash ;;
      Ret (Ok (observed_head request, hash, files_hash, short))
  end.

Definition approval_binding (request : PolicyRequest) (paths : list PathSafetyReport)
    : IO (policy ApprovalBinding) :=
  hash <-? lift (action_hash (rq_action request)) ;;
  root <-? inspect_workspace request ;;
  digest <-? lift (ok_or (InvalidRequest "approval requires an observed working-tree digest")
                     (working_tree_digest (rq_workspace request))) ;;
  lift (policy_of_safe (validate_hash_value digest "working-tree digest")) ;;?
  let files := bound_files root paths in
  fields <-? binding_fields request hash files ;;
  let '(base_head, diff_hash, files_hash, transaction) := fields in
  lift (map_err (fun e => InvalidRequest (ae_message e)) (normalized {|
    ab_request_id := rq_request_id request;
    ab_workspace_id := workspace_id (rq_workspace request);
    ab_workspace_root_hash := hash_text (normalized_absolute root);
    ab_mode := rq_mode request;
    ab_base_head := base_head;
    ab_working_tree_digest := digest;
    ab_diff_hash := diff_hash;
    ab_files_hash := files_hash;
    ab_files := files;
    ab_action_hashes := [hash];
    ab_transaction_id := transaction;
  |})).

(** ** The engine's operations *)

Definition storage_error (e : any_error) : PolicyError := Storage (ae_message e).

Definition PolicyEngine_open (root : string) : IO (policy PolicyEngine) :=
  a <-? io_map_err storage_error (AuditStore_open root) ;;
  s <-? io_map_err storage_error (ApprovalStore_open root) ;;
  Ret (Ok {| audit := a; approvals := s |}).

Definition default_engine : IO (policy PolicyEngine) :=
  a <-? io_map_err storage_error AuditStore_default_store ;;
  s <-? io_map_err storage_error (ApprovalStore_open (state_root a)) ;;
  Ret (Ok {| audit := a; approvals := s |}).

Definition ensure_state_outside_workspace (engine : PolicyEngine) (request : PolicyRequest)
    : IO (policy unit) :=
  state <-? io_map_err (fun e => Storage (io_error_display e))
              (sys (Canonicalize (state_root (audit engine)))) ;;
  workspace <-? inspect_workspace request ;;
  lift (if path_starts_with state workspace || path_starts_with workspace state
        then Err (Storage "policy state must not overlap the source workspace") else Ok tt).

Definition make_preflight (request : PolicyRequest) (base_rule_id : string)
    (evaluation : Evaluation) : policy PolicyPreflight :=
  hash <- security_context_hash request ;?
  Ok {| pf_report := evn_report evaluation;
        pf_paths := evn_paths evaluation;
        pf_request := request;
        pf_base_rule_id := base_rule_id;
        pf_security_context_hash := hash |}.

Definition explain (engine : PolicyEngine) (request : PolicyRequest) : IO (policy PolicyPreflight) :=
  ensure_state_outside_workspace engine request ;;?
  evaluation <-? evaluate request ;;
  Ret (make_preflight request (decision_rule_id (rep_decision (evn_report evaluation))) evaluation).

(** The approval part of [check]: the report and the approval status. *)
Definition resolve_approval (engine : PolicyEngine) (request : PolicyRequest)
    (evaluation : Evaluation) : IO (policy (PolicyReport * string)) :=
  let report := evn_report evaluation in
  let status := if is_some (rq_approval_id request) then "present" else "none" in
  if negb (is_require_approval (rep_decision report)) then Ret (Ok (report, status)) else
  match rq_approval_id request with
  | None => Ret (Ok (report, status))
  | Some approval_id =>
      binding <-? approval_binding request (evn_paths evaluation) ;;
      consumed <- consume (approvals engine) approval_id binding ;;
      match consumed with
      | Ok _ => Ret (Ok (approved_report (action_kind (rq_action request)) report, "consumed"))
      | Err error => Ret (Ok (apply_approval_failure report error, "invalid"))
      end
  end.

Definition audit_event_of (request : PolicyRequest) (report : PolicyReport)
    (approval_status : string) (timestamp duration : N) : AuditEvent := {|
  ev_schema_version := 1;
  ev_event_id := "";
  ev_timestamp_unix_ms := timestamp;
  ev_request_id := rq_request_id request;
  ev_action_id_hash := hash_text (rq_action_id request);
  ev_action_kind := action_kind (rq_action request);
  ev_action_hash := rep_action_hash report;
  ev_rule_id := decision_rule_id (rep_decision report);
  ev_decision := decision_kind (rep_decision report);
  ev_risk := decision_risk (rep_decision report);
  ev_workspace_hash := rep_workspace_hash report;
  ev_origin := rq_origin request;
  ev_approval_state := approval_status;
  ev_approval_hash := option_map hash_text (rq_approval_id request);
  ev_transaction_hash := option_map hash_text (transaction_id (rq_action request));
  ev_result := if allowed_report report then "authorized" else "blocked";
  ev_duration_us := duration;
|}.

Definition check (engine : PolicyEngine) (request : PolicyRequest) : IO (policy PolicyPreflight) :=
  ensure_state_outside_workspace engine request ;;?
  started <- sys InstantNow ;;
  evaluation <-? evaluate request ;;
  let base_rule_id := decision_rule_id (rep_decision (evn_report evaluation)) in
  resolved <-? resolve_approval engine request evaluation ;;
  let '(report, approval_status) := resolved in
  timestamp <- unix_millis ;;
  now <- sys InstantNow ;;
  let event := audit_event_of request report approval_status timestamp (duration_us started now) in
  event_id <-? io_map_err storage_error (record (audit engine) event) ;;
  Ret (make_preflight request base_rule_id
         {| evn_report := set_audit_event_id (Some event_id) report;
            evn_paths := evn_paths evaluation |}).

Definition issue_approval (engine : PolicyEngine) (request : PolicyRequest)
    (confirmation : NativeConfirmation) (ttl_seconds : N) : IO (policy ApprovalGrant) :=
  ensure_state_outside_workspace engine request ;;?
  lift (if is_some (rq_approval_id request) then
          Err (InvalidRequest "cannot issue an approval from a request that already carries one")
        else Ok tt) ;;?
  evaluation <-? evaluate request ;;
  lift (if negb (is_require_approval (rep_decision (evn_report evaluation))) then
          Err (InvalidRequest "only require_approval decisions can receive a grant")
        else Ok tt) ;;?
  binding <-? approval_binding request (evn_paths evaluation) ;;
  io_map_err storage_error (issue (approvals engine) binding confirmation ttl_seconds).

(** [PolicyEngine::approval_binding] *)
Definition engine_approval_binding (engine : PolicyEngine) (request : PolicyRequest)
    : IO (policy ApprovalBinding) :=
  ensure_state_outside_workspace engine request ;;?
  evaluation <-? evaluate request ;;
  approval_binding request (evn_paths evaluation).

(** ** Revalidation *)

(** [a != b] on two lists of reports. *)
Fixpoint reports_eqb (a b : list PathSafetyReport) : bool :=
  match a, b with
  | [], [] => true
  | x :: a', y :: b' => psr_eqb x y && reports_eqb a' b'
  | _, _ => false
  end.

Fixpoint revalidate_paths (paths : list PathSafetyReport) : IO (policy unit) :=
  match paths with
  | [] => Ret (Ok tt)
  | before :: rest =>
      after <-? io_map_err invalid_path_request (revalidate before) ;;
      lift (if psr_eqb before after then Ok tt
            else Err (InvalidRequest "policy path changed after authorization")) ;;?
      revalidate_paths rest
  end.

Definition revalidate_observed (preflight : PolicyPreflight) (observed : PolicyRequest)
    : IO (policy unit) :=
  hash <-? lift (security_context_hash observed) ;;
  lift (if hash =?s pf_security_context_hash preflight then Ok tt
        else Err (InvalidRequest "policy security context changed after authorization")) ;;?
  fresh <-? evaluate observed ;;
  lift (if (decision_rule_id (rep_decision (evn_report fresh)) =?s pf_base_rule_id preflight)
           && reports_eqb (evn_paths fresh) (pf_paths preflight) then Ok tt
        else Err (InvalidRequest "policy decision inputs changed after authorization")) ;;?
  revalidate_paths (pf_paths preflight).

(** [PolicyPreflight::revalidate] *)
Definition preflight_revalidate (preflight : PolicyPreflight) : IO (policy unit) :=
  revalidate_observed preflight (pf_request preflight).
End Engine.
