(* ===== verification/ChatRuntime.v ===== *)
(** * The chat runtime (opticcode-core: chat_runtime.rs)

    One request from its acceptance to its terminal event.  A step of the
    runtime takes the emitter and returns it with its result, so that what
    was delivered before a failure stays delivered.  The cancellation flag is
    read anew at every check.  The local model, the Java analyses, the
    assistant and the chat edits are behind interfaces. *)

From stdpp Require Import base list strings.
From Stdlib Require Import NArith ZArith Ascii String Lia.
From S2P Require Import Prelude EditPlan Bytes Model UnixPath IO Paths AuditLog Approval Rules Worktree Engine GitState Text Anyhow Secrets RagPolicy Reference.
From S2P Require Import Grounding DocumentFacts Compliance ChatProtocol ChatValidation ChatReferences.

Local Open Scope string_scope.
Local Open Scope N_scope.

(** ** Steps of the runtime *)

Section Chat.
Context `{Floats}.

Definition chat (A : Type) : Type := ChatEventEmitter -> IO (ChatEventEmitter * run A).

Definition chat_ret {A} (r : run A) : chat A := fun em => Ret (em, r).
Definition chat_io {A} (m : IO (run A)) : chat A := fun em => r <- m ;; Ret (em, r).
Definition chat_do {A} (m : IO A) : chat A := fun em => a <- m ;; Ret (em, Ok a).
Definition chat_bind {A B} (m : chat A) (k : A -> chat B) : chat B := fun em =>
  bind (m em) (fun p => match p with
                        | (em', Ok a) => k a em'
                        | (em', Err e) => Ret (em', Err e)
                        end).
End Chat.

Declare Scope chat_scope.
Delimit Scope chat_scope with chat.
Notation "x <-: m ;; k" := (chat_bind m (fun x => k))
  (at level 100, m at next level, right associativity) : chat_scope.
Notation "m ;;: k" := (chat_bind m (fun _ => k))
  (at level 100, right associativity) : chat_scope.
Open Scope chat_scope.

Definition event_failure (e : anyhow) : RuntimeFailure :=
  retriable (new_failure "event_delivery" "chat_protocol" (to_string e)) true.

(** [cancellation.is_cancelled()] *)
Definition is_cancelled : IO bool := sys (LoadFlag "cancellation").

Section Emitting.
Context `{Floats, Delivery}.

(** [emitter.send(payload).await.map_err(event_failure)] *)
Definition send (payload : ChatProtocolEventPayload) : chat unit := fun em =>
  p <- emit payload em ;; Ret (p.1, map_err event_failure p.2).

(** [for x in l { f(x).await?; }] *)
Fixpoint send_each {A} (f : A -> chat unit) (l : list A) : chat unit :=
  match l with
  | [] => chat_ret (Ok tt)
  | x :: l' => f x ;;: send_each f l'
  end.

(** [while end > 0 && !s.is_char_boundary(end) { end -= 1; }] *)
Fixpoint boundary_before (s : string) (end_ : nat) : nat :=
  match end_ with
  | O => O
  | S e => if is_char_boundary s (N.of_nat end_) then end_ else boundary_before s e
  end.

(** Every chunk shortens the text, so that its length is fuel enough. *)
Fixpoint emit_chunks (fuel : nat) (remaining : string) : chat unit :=
  if is_empty remaining then chat_ret (Ok tt) else
  match fuel with
  | O => chat_ret (fail "out_of_fuel" "event_rendering" "")
  | S fuel' =>
      let end_ := boundary_before remaining
        (N.to_nat (N.min (strlen remaining) (N.min OUTPUT_CHUNK_BYTES MAX_CHAT_EVENT_TEXT_BYTES))) in
      if (end_ =? 0)%nat
      then chat_ret (fail "output_encoding" "event_rendering" "could not split UTF-8 output at a valid boundary") else
      send (TokenDelta (take_bytes end_ remaining)) ;;:
      emit_chunks fuel' (drop_bytes end_ remaining)
  end.
Definition emit_text (text : string) : chat unit := emit_chunks (String.length text) text.
End Emitting.

(** ** Requests to the policy engine *)

Record ChatRuntimeOptions := {
  co_rag_index : string;
  co_verify_model : bool;
  co_policy_state_root : option string;
  co_proposal_state_root : option string;
}.

Record ChatPolicyAuthorization := {
  au_policy_version : string;
  au_decision : string;
  au_rule_id : string;
  au_action_kind : string;
  au_action_hash : string;
  au_audit_event_id : option string;
  au_effective_security_mode : ChatSecurityMode;
}.

Section Authorize.
Context `{Floats, Blake3, LeaseSerde, AuditSerde, ApprovalSerde, EngineSerde}.

Definition chat_action (request : ChatRequest) : PolicyAction :=
  if bool_decide (cq_command request = ChatProtocol.Status)
  then GitRead {| gr_repository_root := cq_workspace_root request; gr_operation := GitStatus; gr_paths := [] |}
  else BuildContext {|
    ca_root := cq_workspace_root request;
    ca_task_hash := blake3_hex (ChatCommand_as_str (cq_command request) ++ ":" ++ cq_prompt request);
    ca_candidate_paths := [] |}.

Definition chat_policy_request (request : ChatRequest) : PolicyRequest := {|
  rq_schema_version := POLICY_SCHEMA_VERSION;
  rq_protocol := POLICY_PROTOCOL_ID;
  rq_request_id := cq_request_id request;
  rq_action_id := cq_request_id request ++ ":chat_context";
  rq_origin := Chat;
  rq_profile := cq_profile request;
  rq_client := {| client_name := cm_name (cq_client request); client_version := cm_version (cq_client request) |};
  rq_mode := ReadOnly;
  rq_workspace := {|
    workspace_id := cq_workspace_id request;
    workspace_root := cq_workspace_root request;
    repository := None;
    active_worktree := None;
    Model.working_tree_digest := None;
    repository_clean := None |};
  rq_action := chat_action request;
  rq_approval_id := None |}.

(** [call.map_err(|error| RuntimeFailure::new(code, "policy", ..))] *)
Definition policy_call {A} (code prefix : string) (m : IO (policy A)) : IO (run A) :=
  io_map_err (fun e => new_failure code "policy" (prefix ++ policy_error_display e)) m.

Definition authorize_chat_request (request : ChatRequest) (options : ChatRuntimeOptions)
    : IO (run ChatPolicyAuthorization) :=
  engine <-? policy_call "policy_unavailable" "deny-by-default policy runtime is unavailable: "
               (match co_policy_state_root options with
                | Some root => PolicyEngine_open root
                | None => default_engine
                end) ;;
  preflight <-? policy_call "policy_check_failed" "policy could not authorize chat context: "
                  (check engine (chat_policy_request request)) ;;
  let report := pf_report preflight in
  if negb (allowed_report report)
  then Ret (fail "policy_denied" "policy" (decision_rule_id (rep_decision report) ++ ": " ++ rep_user_reason report)) else
  policy_call "policy_revalidation_failed" "chat context changed after policy authorization: "
    (preflight_revalidate preflight) ;;?
  Ret (Ok {|
    au_policy_version := rep_policy_version report;
    au_decision := decision_kind (rep_decision report);
    au_rule_id := decision_rule_id (rep_decision report);
    au_action_kind := rep_action_kind report;
    au_action_hash := rep_action_hash report;
    au_audit_event_id := rep_audit_event_id report;
    au_effective_security_mode := ReadOnlyMode |}).
End Authorize.

(** ** The prepared request *)

Record PreparedRequest := {
  pp_workspace : string;
  pp_prompt : string;
  pp_user_prompt : string;
  pp_references : list ChatResolvedReference;
  pp_rejected : list ChatRejectedReference;
  pp_warnings : list string;
  pp_repository_state : string;
  pp_requested_scope : ChatContextScope;
  pp_effective_scope : ChatContextScope;
  pp_scope_reason : ChatScopeReason;
  pp_evidence_mode : ChatEvidenceMode;
  pp_manifest : ContextManifest;
  pp_prompt_fingerprint : string;
  pp_snapshots : list ReferenceSnapshot;
  pp_selected_references : N;
  pp_resolved_references : N;
  pp_historical_turns : N;
  pp_reference_resolution_ms : N;
  pp_prompt_build_ms : N;
}.

(** The references resolved so far. *)
Record Resolution := {
  rs_material : list ReferenceMaterial;
  rs_rejected : list ChatRejectedReference;
  rs_retained_bytes : N;
}.

Section Prepare.
Context `{Floats, Delivery, Blake3, Regex, Unicode, PromptSerde, StringDebug, WalkDir}.

(** [material.summary] once the material is accepted *)
Definition injected_summary (m : ReferenceMaterial) : ChatResolvedReference :=
  let s := rm_summary m in {|
  rr_reference_id := rr_reference_id s;
  rr_kind := rr_kind s;
  rr_path := rr_path s;
  rr_range := rr_range s;
  rr_inclusion_reason := rr_inclusion_reason s;
  rr_provenance := rr_provenance s;
  rr_bytes := rr_bytes s;
  rr_content_hash := rr_content_hash s;
  rr_origin := rr_origin s;
  rr_resolution := rr_resolution s;
  rr_security_decision := rr_security_decision s;
  rr_injection := if is_some (rm_snapshot m) then "injected" else "identity_only";
  rr_bytes_injected := if is_some (rm_snapshot m) then rr_bytes s else rr_bytes_injected s;
  rr_reason := rr_reason s;
  rr_full_content_hash := rr_full_content_hash s |}.
Definition accept_material (m : ReferenceMaterial) : ReferenceMaterial := {|
  rm_summary := injected_summary m; rm_prompt_content := rm_prompt_content m; rm_snapshot := rm_snapshot m |}.

Definition refuse_reference (refused : ChatRejectedReference) (r : Resolution) : chat Resolution :=
  send (ReferenceRefused refused) ;;:
  chat_ret (Ok {| rs_material := rs_material r; rs_rejected := (rs_rejected r ++ [refused])%list;
                  rs_retained_bytes := rs_retained_bytes r |}).

Definition resolve_one (workspace : string) (request : ChatRequest) (reference : ChatReference) (r : Resolution)
    : chat Resolution :=
  let budget := bg_max_reference_bytes (cq_budgets request) in
  resolved <-: chat_do (resolve_reference workspace (cq_workspace_id request) reference) ;;
  match resolved with
  | Ok material =>
      let retained := saturating_add64 (rs_retained_bytes r) (rr_bytes (rm_summary material)) in
      if retained <=? budget then
        let material := accept_material material in
        send (ReferenceResolved (rm_summary material)) ;;:
        chat_ret (Ok {| rs_material := (rs_material r ++ [material])%list; rs_rejected := rs_rejected r;
                        rs_retained_bytes := retained |})
      else refuse_reference (rejected_reference reference "size.total_reference_budget"
                               "reference would exceed the total attachment budget") r
  | Err error => refuse_reference (rejected_reference reference (fl_code error) (fl_message error)) r
  end.

Fixpoint resolve_references (workspace : string) (request : ChatRequest) (references : list ChatReference) (r : Resolution)
    : chat Resolution :=
  match references with
  | [] => chat_ret (Ok r)
  | reference :: references' =>
      r <-: resolve_one workspace request reference r ;;
      resolve_references workspace request references' r
  end.

Definition open_workspace (workspace_input : string) : IO (run string) :=
  metadata <-? io_map_err (fun e => new_failure "workspace_unavailable" "workspace_validation"
                             ("workspace cannot be inspected: " ++ io_error_display e)) (sys (SymlinkMetadata workspace_input)) ;;
  if negb (is_dir metadata) || is_symlink metadata
  then Ret (fail "workspace_unsafe" "workspace_validation"
              "workspace must be a real directory, not a symlink or reparse point")
  else io_map_err (fun e => new_failure "workspace_unavailable" "workspace_validation"
                     ("workspace cannot be resolved: " ++ io_error_display e)) (sys (Canonicalize workspace_input)).

Definition reference_selected (reference : ChatReference) : ChatProtocolEventPayload :=
  ReferenceSelected (rf_reference_id reference) (target_kind (rf_target reference)) (target_path (rf_target reference))
    "user_attachment".

Definition broad_prompt (summary history prompt references : string) : string :=
  "[PROJECT_SUMMARY]" ++ eol ++ summary ++ eol ++ eol
  ++ "[CHAT_HISTORY]" ++ eol ++ history ++ eol ++ eol
  ++ "[CURRENT_REQUEST]" ++ eol ++ prompt ++ eol ++ eol
  ++ "[EXPLICIT_REFERENCES]" ++ eol ++ references.

(** The prompt fingerprint's dimensions besides the task and the manifest *)
Definition cache_dimensions (request : ChatRequest) (repository_state history : string) : list (string * string) :=
  let g := cq_generation request in [
  ("repository_state", repository_state);
  ("context_mode", ContextMode_as_str (cq_context_mode request));
  ("session_namespace", cm_session_id (cq_client request));
  ("provider", ProviderId_as_str (cq_provider request));
  ("max_output_tokens", dec (gn_max_output_tokens g));
  ("brief", bool_display (gn_brief g));
  ("compare_generate", bool_display (gn_compare_generate g));
  ("rag_hits", dec (bg_rag_hits (cq_budgets request)));
  ("authorized_history", history)].

Definition request_fingerprint (request : ChatRequest) (manifest : ContextManifest) (repository_state history : string) : string :=
  prompt_fingerprint {|
    pf_task := cq_prompt request;
    pf_manifest := manifest;
    pf_evidence_mode := cq_evidence_mode request;
    pf_command := ChatCommand_as_str (cq_command request);
    pf_model := cq_model request;
    pf_temperature := gn_temperature (cq_generation request);
    pf_seed := gn_seed (cq_generation request);
    pf_cache_dimensions := cache_dimensions request repository_state history |}.
(** The prompt: of the whole project, or grounded on the references. *)
Definition build_prompt (request : ChatRequest) (broad : bool) (summary history : string) (manifest : ContextManifest)
    (material : list ReferenceMaterial) (snapshots : list ReferenceSnapshot) : run string :=
  if broad then Ok (broad_prompt summary history (cq_prompt request) (render_reference_material material))
  else map_err (fun e => new_failure "grounded_prompt_failed" "prompt_preparation" (to_string e))
         (build_grounded_prompt (cq_prompt request) manifest snapshots (cq_evidence_mode request)).

Definition allows_broad_context (scope : ChatContextScope) (snapshots : list ReferenceSnapshot) : bool :=
  match scope, snapshots with
  | Automatic, _ | ReferencesPreferred, [] => true
  | _, _ => false
  end.

(** [material.iter().filter_map(|m| m.snapshot.clone())] and the summaries of
    those that have one *)
Definition snapshots_of (material : list ReferenceMaterial) : list ReferenceSnapshot := omap rm_snapshot material.
Definition injected_references (material : list ReferenceMaterial) : list ChatResolvedReference :=
  map rm_summary (List.filter (fun m => is_some (rm_snapshot m)) material).

Definition require_references (request : ChatRequest) (scope : ChatContextScope) (snapshots : list ReferenceSnapshot) : run unit :=
  if bool_decide (scope = ReferencesOnly) && match snapshots with [] => true | _ => false end
  then fail match cq_references request with [] => "references_required" | _ => "reference_unavailable" end
         "grounding_scope" "references_only requires at least one readable reference attached to the current request"
  else Ok tt.

(** What follows the resolution: history, manifest, prompt. *)
Definition prepare_context (request : ChatRequest) (workspace : string) (scope : ChatContextScope) (reason : ChatScopeReason)
    (r : Resolution) (resolution_ms : N) : chat PreparedRequest :=
  let material := rs_material r in
  let snapshots := snapshots_of material in
  let broad := allows_broad_context scope snapshots in
  turns <-: chat_do (if broad then bounded_history request scope else Ret ("none", [], 0)) ;;
  let '(history, history_warnings, historical_turns) := turns in
  let warnings := take MAX_WARNING_COUNT
    (map (fun item => rj_rule_id item ++ ": " ++ rj_reason item)%string (rs_rejected r) ++ history_warnings)%list in
  send_each (fun warning => send (Warning "context_omission" warning)) warnings ;;:
  project <-: chat_do (project_summary workspace) ;;
  let '(summary, repository_state) := project in
  let manifest := build_context_manifest scope (cq_workspace_id request) (cq_request_id request) (cq_profile request) snapshots in
  build_started <-: chat_do (sys InstantNow) ;;
  prompt <-: chat_ret (build_prompt request broad summary history manifest material snapshots) ;;
  prompt_build_ms <-: chat_do (elapsed_ms build_started) ;;
  if bg_max_prompt_tokens (cq_budgets request) <? estimate_tokens prompt
  then chat_ret (fail "prompt_budget_exceeded" "prompt_preparation"
                   "bounded history and explicit references exceed the configured prompt budget") else
  let fingerprint := request_fingerprint request manifest repository_state history in
  send (ContextManifestReady manifest fingerprint) ;;:
  chat_ret (Ok {|
    pp_workspace := workspace;
    pp_prompt := prompt;
    pp_user_prompt := cq_prompt request;
    pp_references := injected_references material;
    pp_rejected := rs_rejected r;
    pp_warnings := warnings;
    pp_repository_state := repository_state;
    pp_requested_scope := cq_context_scope request;
    pp_effective_scope := scope;
    pp_scope_reason := reason;
    pp_evidence_mode := cq_evidence_mode request;
    pp_manifest := manifest;
    pp_prompt_fingerprint := fingerprint;
    pp_snapshots := snapshots;
    pp_selected_references := list_len (cq_references request);
    pp_resolved_references := list_len material;
    pp_historical_turns := historical_turns;
    pp_reference_resolution_ms := resolution_ms;
    pp_prompt_build_ms := prompt_build_ms |}).

Definition prepare_request (request : ChatRequest) : chat PreparedRequest :=
  workspace <-: chat_io (open_workspace (cq_workspace_root request)) ;;
  let '(scope, reason) := effective_context_scope (cq_context_scope request) (cq_scope_reason request) (cq_prompt request) in
  send_each (fun reference => send (reference_selected reference)) (cq_references request) ;;:
  send (ReferencesResolving (list_len (cq_references request))) ;;:
  started <-: chat_do (sys InstantNow) ;;
  r <-: resolve_references workspace request (cq_references request)
          {| rs_material := []; rs_rejected := []; rs_retained_bytes := 0 |} ;;
  resolution_ms <-: chat_do (elapsed_ms started) ;;
  send (ReferencesResolved (map rm_summary (rs_material r)) (rs_rejected r)) ;;:
  send_each (fun reference => send (ReferenceInjected reference)) (injected_references (rs_material r)) ;;:
  chat_ret (require_references request scope (snapshots_of (rs_material r))) ;;:
  prepare_context request workspace scope reason r resolution_ms.
End Prepare.

(** ** Outcomes and their measures *)

Section Outcomes.
Context `{Floats}.

Record CommandOutcome := {
  oc_context_files : list ChatContextFile;
  oc_used_context_mode : option ContextMode;
  oc_metrics : ChatMetrics;
  oc_warnings : list string;
  oc_route : GroundingRoute;
  oc_grounding_response : option GroundedResponse;
  oc_evidence : option EvidenceValidationReport;
  oc_compliance : option ComplianceReport;
  oc_rag_hits : N;
}.

(** What a generation reports (opticcode-llm: protocol.rs). *)
Record GenerationResult := {
  gt_output : string;
  gt_prompt_chars : N;
  gt_prompt_tokens : option N;
  gt_generated_tokens : option N;
  gt_client_ms : N;
  gt_provider_total_ms : option N;
  gt_load_ms : option N;
  gt_prompt_eval_ms : option N;
  gt_generation_ms : option N;
}.

Definition timing_phase (name : string) (duration_ms : N) (measured_by : string) (includes : list string) : ChatTimingPhase :=
  {| tp_name := name; tp_duration_ms := duration_ms; tp_measured_by := measured_by; tp_includes := includes |}.
Definition timing_report (request : ChatRequest) (phases : list ChatTimingPhase) : ChatTimingReport := {|
  tg_schema_version := 1;
  tg_request_id := cq_request_id request;
  tg_run_id := cq_request_id request;
  tg_workspace_id := cq_workspace_id request;
  tg_command := ChatCommand_as_str (cq_command request);
  tg_unit := "milliseconds";
  tg_clock := "std::time::Instant";
  tg_phases := phases |}.

Definition command_metrics (started estimated_prompt_tokens : N) : IO ChatMetrics :=
  preparation <- elapsed_ms started ;;
  total <- elapsed_ms started ;;
  Ret {|
    me_preparation_ms := preparation;
    me_total_ms := total;
    me_estimated_prompt_tokens := estimated_prompt_tokens;
    me_prompt_tokens := None;
    me_generated_tokens := None;
    me_generated_tokens_per_second := None;
    me_timing := None;
    me_route := GroundingRoute_as_str AutomaticAssistant |}.

(** The outcome of a command that asks no model *)
Definition tool_outcome (started : N) (files : list ChatContextFile) (mode : option ContextMode) (tokens : N) (warnings : list string)
    : IO (run CommandOutcome) :=
  metrics <- command_metrics started tokens ;;
  Ret (Ok {|
    oc_context_files := files;
    oc_used_context_mode := mode;
    oc_metrics := metrics;
    oc_warnings := warnings;
    oc_route := AutomaticAssistant;
    oc_grounding_response := None;
    oc_evidence := None;
    oc_compliance := None;
    oc_rag_hits := 0 |}).
Definition empty_outcome (started : N) : IO (run CommandOutcome) := tool_outcome started [] None 0 [].

Fixpoint sum_optional_u64 (values : list (option N)) : option N :=
  match values with
  | [] => None
  | value :: values' =>
      match value, sum_optional_u64 values' with
      | Some a, Some b => Some (saturating_add64 a b)
      | Some a, None => Some a
      | None, rest => rest
      end
  end.

(** [values.filter_map(..).sum::<u64>()] *)
Definition sum_present (values : list (option N)) : N := sum_of (default 0) values.

Definition provider_phases (generations : list GenerationResult) : list ChatTimingPhase :=
  match generations with
  | [] => []
  | _ => [
      timing_phase "provider_client" (sum_of gt_client_ms generations) "opticcode-llm" ["provider_started"; "provider_completed"];
      timing_phase "provider_total" (sum_present (map gt_provider_total_ms generations)) "ollama" ["provider_reported_total"];
      timing_phase "provider_generation" (sum_present (map gt_generation_ms generations)) "ollama" ["provider_token_generation"];
      timing_phase "provider_load" (sum_present (map gt_load_ms generations)) "ollama" ["provider_model_load"];
      timing_phase "provider_prompt_eval" (sum_present (map gt_prompt_eval_ms generations)) "ollama" ["provider_prompt_evaluation"]]
  end.

Definition grounded_metrics (request : ChatRequest) (prepared : PreparedRequest) (route : GroundingRoute)
    (generations : list GenerationResult) (validation_ms started : N) : IO ChatMetrics :=
  let generated_tokens := sum_optional_u64 (map gt_generated_tokens generations) in
  let generation_ms := sum_present (map gt_generation_ms generations) in
  let phases := ([
    timing_phase "reference_resolution" (pp_reference_resolution_ms prepared) "opticcode-core"
      ["references_started"; "references_completed"];
    timing_phase "prompt_build" (pp_prompt_build_ms prepared) "opticcode-core" ["context_started"; "context_completed"]]
    ++ provider_phases generations
    ++ [timing_phase "grounding_validation" validation_ms "opticcode-core" ["validation_started"; "validation_completed"]])%list in
  total <- elapsed_ms started ;;
  Ret {|
    me_preparation_ms := saturating_add64 (pp_reference_resolution_ms prepared) (pp_prompt_build_ms prepared);
    me_total_ms := total;
    me_estimated_prompt_tokens := estimate_tokens (pp_prompt prepared);
    me_prompt_tokens := sum_optional_u64 (map gt_prompt_tokens generations);
    me_generated_tokens := generated_tokens;
    me_generated_tokens_per_second :=
      if 0 <? generation_ms then option_map (fun tokens => f64_per_second tokens generation_ms) generated_tokens else None;
    me_timing := Some (timing_report request phases);
    me_route := GroundingRoute_as_str route |}.
End Outcomes.

(** ** Grounded answers *)

Section Grounded.
Context `{Floats, Delivery, Blake3, Regex, Unicode, Yaml, Json, XmlParser}.

(** The request of one structured generation *)
Record StructuredRequest := {
  sq_request_id : string;
  sq_prompt : string;
  sq_output_schema : Value;
  sq_max_output_tokens : N;
  sq_temperature : option f32;
  sq_seed : option Z;
}.

(** The local model ([OpticCode]), with its errors as texts. *)
Record OpticCode := {
  ensure_model_available : IO (result unit string);
  generate_structured : StructuredRequest -> IO (result GenerationResult string);
}.

(** [serde_json::from_str::<GroundedResponse>] *)
Class ResponseSerde := grounded_response_from_str : string -> result GroundedResponse string.
Context `{ResponseSerde}.

Definition cancelled_at {A} (stage message : string) : chat A := chat_ret (fail "request_cancelled" stage message).

(** [if cancellation.is_cancelled() { return Err(..); }] *)
Definition unless_cancelled (stage message : string) : chat unit :=
  cancelled <-: chat_do is_cancelled ;;
  if cancelled : bool then cancelled_at stage message else chat_ret (Ok tt).

Definition parse_grounded_response (output : string) : run GroundedResponse :=
  map_err (fun e => new_failure "grounded_response_invalid" "grounded_validation"
                      ("structured grounded response is invalid after the allowed correction: " ++ e))
    (grounded_response_from_str output).

Definition correction_prompt (prompt output : string) : string :=
  prompt ++ eol ++ eol
  ++ "[FORMAT_CORRECTION]" ++ eol
  ++ "The previous output was not valid against the required JSON contract. "
  ++ "Perform only a format correction: preserve the same factual claims, use no new source, "
  ++ "and return exactly one JSON object." ++ eol
  ++ "[PREVIOUS_OUTPUT]" ++ eol ++ bounded_text output (64 * 1024).

Definition structured_request (request : ChatRequest) (suffix prompt : string) (temperature : f32) : StructuredRequest := {|
  sq_request_id := cq_request_id request ++ suffix;
  sq_prompt := prompt;
  sq_output_schema := grounded_response_schema;
  sq_max_output_tokens := gn_max_output_tokens (cq_generation request);
  sq_temperature := Some temperature;
  sq_seed := gn_seed (cq_generation request) |}.

(** One generation, and at most one correction of its format. *)
Definition generate_grounded_response (app : OpticCode) (request : ChatRequest) (prepared : PreparedRequest)
    : chat (list GenerationResult) :=
  primary <-: chat_io (io_map_err (fun e => retriable (new_failure "grounded_generation_failed" "grounded_generation"
                                                         ("structured local generation failed: " ++ e)) true)
    (generate_structured app (structured_request request ":grounded" (pp_prompt prepared)
       (default f32_zero (gn_temperature (cq_generation request)))))) ;;
  if is_ok (grounded_response_from_str (gt_output primary)) then chat_ret (Ok [primary]) else
  unless_cancelled "grounded_format_correction" "request was cancelled before the single format correction" ;;:
  corrected <-: chat_io (io_map_err (fun e => new_failure "grounded_format_correction_failed" "grounded_format_correction"
                                                ("the single format correction failed: " ++ e))
    (generate_structured app (structured_request request ":grounded-format"
       (correction_prompt (pp_prompt prepared) (gt_output primary)) f32_zero))) ;;
  chat_ret (parse_grounded_response (gt_output corrected)) ;;:
  chat_ret (Ok [primary; corrected]).

Definition refusal_message (compliance : ComplianceReport) : string :=
  if cr_internal_context_leak compliance
  then "OpticCode refused the model response because it contained unauthorized internal context"
  else if cr_cross_file_leak compliance
  then "OpticCode refused the model response because it mentioned unauthorized sources"
  else "OpticCode refused the response because its evidence or task compliance was invalid".

Definition validate_grounded_answer (prepared : PreparedRequest) (response : GroundedResponse) (route : GroundingRoute)
    : chat (EvidenceValidationReport * ComplianceReport) :=
  send (GroundingValidationStarted route (pp_evidence_mode prepared)) ;;:
  let evidence := validate_evidence response (pp_manifest prepared) (pp_evidence_mode prepared) in
  compliance <-: chat_do (validate_compliance (pp_user_prompt prepared) response (pp_manifest prepared) (pp_snapshots prepared)) ;;
  send (GroundingValidationCompleted evidence compliance) ;;:
  (if cr_internal_context_leak compliance then send (InternalContextLeakDetected ["internal_context_marker"])
   else chat_ret (Ok tt)) ;;:
  if negb (ev_valid evidence) || negb (cr_compliant compliance) then
    send (TaskComplianceFailed (take 128 (ev_errors evidence ++ cr_errors compliance)%list)) ;;:
    chat_ret (fail "task_compliance_failed" "grounding_validation" (refusal_message compliance))
  else chat_ret (Ok (evidence, compliance)).

(** Every snapshot is what the file still holds. *)
Fixpoint revalidate_snapshots (workspace : string) (snapshots : list ReferenceSnapshot) : IO (run unit) :=
  match snapshots with
  | [] => Ret (Ok tt)
  | snapshot :: snapshots' =>
      current <-? io_map_err (fun e => new_failure "reference_revalidation_failed" "grounding_revalidation"
                                        (ref_rule_id e ++ ": " ++ ref_message e))
                    (read_safe_workspace_file workspace (sn_path snapshot) MAX_SAFE_REFERENCE_FILE_BYTES) ;;
      if negb (blake3_hex (sf_content current) =? sn_file_hash snapshot)%string
         || negb (strlen (sf_content current) =? sn_file_size snapshot)
      then Ret (fail "reference_snapshot_stale" "grounding_revalidation"
                  "an injected reference changed before the grounded response could be accepted")
      else revalidate_snapshots workspace snapshots'
  end.
Definition revalidate_reference_snapshots (prepared : PreparedRequest) : IO (run unit) :=
  revalidate_snapshots (pp_workspace prepared) (pp_snapshots prepared).

Definition manifest_files (manifest : ContextManifest) : list ChatContextFile :=
  map (fun e => {| cf_path := en_path e; cf_snippets := list_len (en_ranges e); cf_provenance := en_origin e |})
    (mf_entries manifest).

Definition document_facts_of (request : ChatRequest) (prepared : PreparedRequest) : IO (run (option DocumentFactsResult)) :=
  match pp_snapshots prepared with
  | [snapshot] =>
      io_map_err (fun e => new_failure "document_inspection_failed" "document_facts"
                             ("deterministic document inspection failed: " ++ alternate e))
        (inspect_document_facts (pp_user_prompt prepared) snapshot (bool_decide (cq_command request = Inspect)))
  | _ => Ret (Ok None)
  end.

(** An answer that is validated, whose sources are read again, and that is
    then shown. *)
Definition deliver_answer (request : ChatRequest) (prepared : PreparedRequest) (route : GroundingRoute)
    (response : GroundedResponse) (generations : list GenerationResult) (started : N) : chat CommandOutcome :=
  validation_started <-: chat_do (sys InstantNow) ;;
  reports <-: validate_grounded_answer prepared response route ;;
  validation_ms <-: chat_do (elapsed_ms validation_started) ;;
  chat_io (revalidate_reference_snapshots prepared) ;;:
  emit_text (gr_answer response) ;;:
  metrics <-: chat_do (grounded_metrics request prepared route generations validation_ms started) ;;
  chat_ret (Ok {|
    oc_context_files := manifest_files (pp_manifest prepared);
    oc_used_context_mode := None;
    oc_metrics := metrics;
    oc_warnings := match generations with _ :: _ :: _ => ["one bounded JSON format correction was used"] | _ => [] end;
    oc_route := route;
    oc_grounding_response := Some response;
    oc_evidence := Some reports.1;
    oc_compliance := Some reports.2;
    oc_rag_hits := 0 |}).

Definition answer_with_facts (request : ChatRequest) (prepared : PreparedRequest) (facts : DocumentFactsResult) (started : N)
    : chat CommandOutcome :=
  send (DocumentInspectionCompleted (df_format facts) (list_len (gr_claims (df_response facts))) (df_model_calls facts)) ;;:
  deliver_answer request prepared DocumentFacts (df_response facts) [] started.

Definition answer_with_model (app : option OpticCode) (request : ChatRequest) (prepared : PreparedRequest)
    (options : ChatRuntimeOptions) (started : N) : chat CommandOutcome :=
  app <-: chat_ret (ok_or (retriable (new_failure "provider_unavailable" "provider_setup"
    "the deterministic route did not match and the configured local LLM provider is unavailable") true) app) ;;
  (if co_verify_model options then
     chat_io (io_map_err (fun e => retriable (new_failure "model_unavailable" "provider_setup"
                                                ("configured model verification failed: " ++ e)) true)
       (ensure_model_available app))
   else chat_ret (Ok tt)) ;;:
  send (ProviderStarted (cq_provider request) (cq_model request) (cq_context_mode request)) ;;:
  generations <-: generate_grounded_response app request prepared ;;
  match last generations with
  | None => fun em => Panic "grounded generation always contains at least one result"
  | Some generation =>
      response <-: chat_ret (parse_grounded_response (gt_output generation)) ;;
      unless_cancelled "grounded_generation" "request was cancelled before grounding validation" ;;:
      deliver_answer request prepared ReferenceLlm response generations started
  end.

Definition run_grounded_assistant (app : option OpticCode) (request : ChatRequest) (prepared : PreparedRequest)
    (options : ChatRuntimeOptions) (started : N) : chat CommandOutcome :=
  send (ContextStarted (cq_context_mode request)) ;;:
  send (ContextReady (cq_context_mode request) None true (mf_estimated_tokens (pp_manifest prepared))
          (manifest_files (pp_manifest prepared))) ;;:
  send (RetrievalProgress 0 0) ;;:
  unless_cancelled "grounded_context" "request was cancelled before grounded answer generation" ;;:
  facts <-: chat_io (document_facts_of request prepared) ;;
  match facts with
  | Some facts => answer_with_facts request prepared facts started
  | None => answer_with_model app request prepared options started
  end.
End Grounded.

(** ** The commands that run a tool *)

(** What the runtime reads of the reports of the Java tools (java_syntax.rs,
    java_index.rs, java_edits.rs) and of the assistant context. *)
Record Diagnostic := { dg_message : string; dg_start_row : N; dg_start_column : N; dg_end_row : N; dg_end_column : N }.
Record SyntaxFile := { sx_path : string; sx_diagnostics : list Diagnostic; sx_symbols : N }.
Record JavaSyntaxReport := {
  sy_files : list SyntaxFile;
  sy_parsed_files : N;
  sy_syntax_error_files : N;
  sy_symbols : N;
  sy_references : N;
  sy_analysis_complete : bool;
  sy_warnings : list string;
}.
Record JavaIndexReport := {
  ix_files : list string;
  ix_symbol_files : list string;
  ix_parsed_files : N;
  ix_discovered_files : N;
  ix_declarations : N;
  ix_references : N;
  ix_exact : N;
  ix_ambiguous : N;
  ix_unresolved : N;
  ix_warnings : list string;
}.
Record JavaEditReport := {
  je_references_examined : N;
  je_legacy_candidates : N;
  je_proposals : N;
  je_files_with_proposals : N;
  je_safe_to_apply : bool;
  je_files : list (string * N);
  je_warnings : list string;
}.
Record ContextVariant := { cv_files : list (string * N); cv_estimated_tokens : N }.
Record PreparedContext := {
  pc_variants : list ContextVariant;
  pc_used_mode : option ContextMode;
  pc_analysis_complete : bool;
  pc_fallback : option string;
}.
(** A tool runs on a blocking thread, whose panic is an error of its own. *)
Inductive tool_error := JoinError (message : string) | ToolError (message : string).
Class ChatTools := {
  analyze_java_syntax : string -> IO (result JavaSyntaxReport tool_error);
  analyze_java_index : string -> IO (result JavaIndexReport tool_error);
  propose_java_edits : string -> IO (result JavaEditReport tool_error);
  prepare_assistant_context : string -> string -> ContextMode -> IO (result PreparedContext tool_error);
}.

Definition normalized_path (path : string) : string := replace_backslash (to_string_lossy path).
Definition bounded_u32 (value : N) : N := N.min value u32_max.
(** A bulleted line of a report *)
Definition item (name value : string) : string := eol ++ "- " ++ name ++ ": " ++ value.

Section Commands.
Context `{Floats, Delivery, Blake3, ChatTools}.

Definition tool {A} (join_code code stage : string) (m : IO (result A tool_error)) : chat A :=
  chat_io (io_map_err (fun e => match e with
                                | JoinError message => new_failure join_code stage message
                                | ToolError message => new_failure code stage message
                                end) m).

Definition discovered (files : list (string * N)) : list ChatContextFile :=
  map (fun f => {| cf_path := f.1; cf_snippets := f.2; cf_provenance := "context_discovery" |}) files.

Definition run_context_command (request : ChatRequest) (prepared : PreparedRequest) (started : N) : chat CommandOutcome :=
  send (ContextStarted (cq_context_mode request)) ;;:
  context <-: tool "context_join" "context_failed" "context"
    (prepare_assistant_context (pp_workspace prepared) (cq_prompt request) (cq_context_mode request)) ;;
  let files := discovered (List.concat (map cv_files (pc_variants context))) in
  let tokens := sum_of cv_estimated_tokens (pc_variants context) in
  send (ContextReady (cq_context_mode request) (pc_used_mode context) (pc_analysis_complete context) tokens files) ;;:
  let line f := eol ++ "- `" ++ cf_path f ++ "` (" ++ dec (cf_snippets f) ++ " snippet(s))" in
  emit_text ("Context `" ++ ContextMode_as_str (default (cq_context_mode request) (pc_used_mode context)) ++ "` prepared: "
    ++ dec (list_len files) ++ " file(s), about " ++ dec tokens ++ " tokens."
    ++ String.concat "" (map line (take 20 files))) ;;:
  chat_io (tool_outcome started files (pc_used_mode context) tokens
    match pc_fallback context with Some warning => [warning] | None => [] end).

Definition finding (request : ChatRequest) (p : N * (string * Diagnostic)) : ChatProtocolEventPayload :=
  let '(index, (path, d)) := p in
  Finding (cq_request_id request ++ "-diagnostic-" ++ dec index) "error" (dg_message d) (normalized_path path)
    (Some {| tr_start := {| ps_line := bounded_u32 (dg_start_row d); ps_character := bounded_u32 (dg_start_column d) |};
             tr_end := {| ps_line := bounded_u32 (dg_end_row d); ps_character := bounded_u32 (dg_end_column d) |} |}).

Definition run_analyze_command (request : ChatRequest) (prepared : PreparedRequest) (started : N) : chat CommandOutcome :=
  report <-: tool "analysis_join" "analysis_failed" "java_syntax" (analyze_java_syntax (pp_workspace prepared)) ;;
  let diagnostics := List.concat (map (fun f => map (fun d => (sx_path f, d)) (sx_diagnostics f)) (sy_files report)) in
  send_each (fun p => send (finding request p)) (enumerate (take 32 diagnostics)) ;;:
  emit_text ("Java analysis completed in read-only mode." ++ eol
    ++ item "files parsed" (dec (sy_parsed_files report)) ++ item "syntax error files" (dec (sy_syntax_error_files report))
    ++ item "symbols" (dec (sy_symbols report)) ++ item "references" (dec (sy_references report))
    ++ item "complete" (bool_display (sy_analysis_complete report))) ;;:
  chat_io (tool_outcome started
    (map (fun f => {| cf_path := normalized_path (sx_path f); cf_snippets := sx_symbols f; cf_provenance := "java_analysis" |})
       (take 64 (sy_files report))) None 0 (sy_warnings report)).

Definition run_index_command (prepared : PreparedRequest) (started : N) : chat CommandOutcome :=
  report <-: tool "index_join" "index_failed" "java_index" (analyze_java_index (pp_workspace prepared)) ;;
  emit_text ("Java symbol index built in memory (read-only)." ++ eol
    ++ item "files" (dec (ix_parsed_files report) ++ "/" ++ dec (ix_discovered_files report) ++ " parsed")
    ++ item "declarations" (dec (ix_declarations report)) ++ item "references" (dec (ix_references report))
    ++ item "exact" (dec (ix_exact report)) ++ item "ambiguous" (dec (ix_ambiguous report))
    ++ item "unresolved" (dec (ix_unresolved report))) ;;:
  let symbols path := list_len (List.filter (String.eqb path) (ix_symbol_files report)) in
  chat_io (tool_outcome started
    (map (fun f => {| cf_path := normalized_path f; cf_snippets := symbols f; cf_provenance := "java_index" |})
       (take 64 (ix_files report))) None 0 (ix_warnings report)).

Definition run_legacy_command (prepared : PreparedRequest) (started : N) : chat CommandOutcome :=
  report <-: tool "legacy_join" "legacy_failed" "java_edits" (propose_java_edits (pp_workspace prepared)) ;;
  emit_text ("Legacy scan completed without writing files." ++ eol
    ++ item "references examined" (dec (je_references_examined report))
    ++ item "legacy candidates" (dec (je_legacy_candidates report))
    ++ item "verified proposals" (dec (je_proposals report) ++ " in " ++ dec (je_files_with_proposals report) ++ " file(s)")
    ++ item "safe downstream" (bool_display (je_safe_to_apply report))) ;;:
  chat_io (tool_outcome started
    (map (fun f => {| cf_path := normalized_path f.1; cf_snippets := f.2; cf_provenance := "legacy_analysis" |}) (je_files report))
    None 0 (je_warnings report)).

Definition backquoted (s : string) : string := "`" ++ s ++ "`".

Definition run_status_command (request : ChatRequest) (prepared : PreparedRequest) (started : N) : chat CommandOutcome :=
  git <-: chat_do (capture_git_state (pp_workspace prepared)) ;;
  let changes := match git with Ok snapshot => list_len (snapshot_changes snapshot) | Err _ => 0 end in
  emit_text ("OpticCode chat status" ++ eol
    ++ item "security mode" (backquoted "read_only") ++ item "provider" (backquoted (ProviderId_as_str (cq_provider request)))
    ++ item "model" (backquoted (cq_model request)) ++ item "context" (backquoted (ContextMode_as_str (cq_context_mode request)))
    ++ item "repository state" (backquoted (pp_repository_state prepared)) ++ item "Git changes" (dec changes)
    ++ item "policy" "deny-by-default POLICY-001 active"
    ++ item "chat edits" "verified worktree proposals with native approval for original apply") ;;:
  chat_io (tool_outcome started [] None 0 []).

Definition run_runs_command (request : ChatRequest) (started : N) : chat CommandOutcome :=
  emit_text (match cm_recent_run_ids (cq_client request) with
             | [] => "No bounded run IDs are recorded for this workspace session. Open the Runs view for the dashboard."
             | ids => "Recent run IDs for this workspace session:" ++ eol
                      ++ join_with eol (map (fun id => "- " ++ backquoted (bounded_text id MAX_ID_BYTES)) (take 20 ids))
             end) ;;:
  chat_io (empty_outcome started).

Definition help_text : string :=
  "OpticCode Local is protected by the deny-by-default POLICY-001 runtime." ++ eol
  ++ item "`/ask`" "answer with bounded project, RAG, history, and explicit references"
  ++ item "`/plan`" "produce a plan without writing"
  ++ item "`/inspect`" "inspect deterministic facts in an attached structured document"
  ++ item "`/context`" "inspect legacy/symbol context"
  ++ item "`/analyze`, `/index`, `/legacy`" "run read-only Java analysis"
  ++ item "`/status`, `/runs`" "inspect local state"
  ++ item "`/fix`" "generate and verify a bounded edit proposal in a disposable worktree"
  ++ item "`/verify`, `/diff`" "revalidate or review a stored proposal"
  ++ item "`/apply`, `/rollback`" "require a native VS Code modal and one-shot Policy approval"
  ++ eol ++ eol ++ "Attached files are never implicit write permission. "
  ++ "Sensitive files, paths outside the workspace, and symlinks/junctions are refused.".

Definition run_help_command (started : N) : chat CommandOutcome :=
  emit_text help_text ;;: chat_io (empty_outcome started).
End Commands.

(** ** The assistant

    An assistant run is what the runtime sees of it: the events it sends, in
    order, and its report; its options are those that vary with the request.
    Dropping a run whose events are refused is not observable here. *)

Section AssistantCommand.
Context `{Floats, Delivery}.

(** [LlmProtocolEvent], as far as it is read *)
Record LlmEvent := { le_started : bool; le_output_delta : option string }.
Inductive AssistantProtocolEventPayload :=
| AssistantStarted
| ContextPrepared (requested : ContextMode) (used : option ContextMode) (analysis_complete : bool)
| ProviderEvent (context_mode : ContextMode) (event : LlmEvent)
| AssistantCompleted | AssistantFailed | AssistantCancelled.
Record AssistantProtocolEvent := { ae_sequence : N; ae_payload : AssistantProtocolEventPayload }.
Definition assistant_terminal (e : AssistantProtocolEvent) : bool :=
  match ae_payload e with AssistantCompleted | AssistantFailed | AssistantCancelled => true | _ => false end.

Record RunMetrics := {
  um_client_ms : N;
  um_ollama_total_ms : option N;
  um_generation_ms : option N;
  um_prompt_eval_count : option N;
  um_generated_tokens : option N;
  um_generated_tokens_per_second : option f64;
}.
Record AssistantRun := { ar_generated : bool; ar_estimated_tokens : N; ar_metrics : option RunMetrics }.
Record ContextComparison := {
  cc_legacy_estimated_tokens : N;
  cc_legacy_files : N;
  cc_symbol_estimated_tokens : N;
  cc_symbol_files : N;
  cc_estimated_token_delta : Z;
}.
Record AssistantCommandReport := {
  ac_success : bool;
  ac_errors : list (string * string);
  ac_runs : list AssistantRun;
  ac_comparison : option ContextComparison;
  ac_files : list (string * N);
  ac_preparation_duration_us : N;
  ac_used_context_mode : option ContextMode;
  ac_warnings : list string;
  ac_rag_hits : N;
}.
Record AssistantOptions := {
  ao_plan : bool;
  ao_workspace : string;
  ao_prompt : string;
  ao_profile : string;
  ao_include_rag : bool;
  ao_rag_index : string;
  ao_rag_limit : N;
  ao_brief : bool;
  ao_max_tokens : N;
  ao_temperature : option f32;
  ao_seed : option Z;
  ao_context_mode : ContextMode;
  ao_compare_generate : bool;
  ao_verify_model : bool;
}.
Class AssistantRuns := assistant : AssistantOptions -> IO (list AssistantProtocolEvent * result AssistantCommandReport string).
Context `{AssistantRuns}.

Definition translate_assistant_event (request : ChatRequest) (payload : AssistantProtocolEventPayload) : chat unit :=
  match payload with
  | ContextPrepared requested used analysis_complete =>
      send (ContextReady requested used analysis_complete 0 []) ;;:
      send (RetrievalProgress 0 0)
  | ProviderEvent context_mode event =>
      if le_started event then send (ProviderStarted (cq_provider request) (cq_model request) context_mode)
      else match le_output_delta event with Some delta => emit_text delta | None => chat_ret (Ok tt) end
  | _ => chat_ret (Ok tt)
  end.

(** The events in order, with the number of terminal ones. *)
Fixpoint assistant_events (request : ChatRequest) (next_sequence terminal_count : N) (events : list AssistantProtocolEvent) : chat N :=
  match events with
  | [] => chat_ret (Ok terminal_count)
  | event :: events' =>
      if negb (ae_sequence event =? next_sequence)
      then chat_ret (fail "assistant_sequence_mismatch" "assistant_stream"
                       ("expected assistant sequence " ++ dec next_sequence ++ ", received " ++ dec (ae_sequence event)))
      else if negb (assistant_terminal event) && (0 <? terminal_count)
      then chat_ret (fail "assistant_event_after_terminal" "assistant_stream"
                       "assistant emitted an event after its terminal event") else
      translate_assistant_event request (ae_payload event) ;;:
      assistant_events request (saturating_add64 next_sequence 1)
        (if assistant_terminal event then terminal_count + 1 else terminal_count) events'
  end.

Definition assistant_options (request : ChatRequest) (prepared : PreparedRequest) (options : ChatRuntimeOptions) : AssistantOptions :=
  let g := cq_generation request in {|
  ao_plan := bool_decide (cq_command request = Plan);
  ao_workspace := pp_workspace prepared;
  ao_prompt := pp_prompt prepared;
  ao_profile := cq_profile request;
  ao_include_rag := 0 <? bg_rag_hits (cq_budgets request);
  ao_rag_index := co_rag_index options;
  ao_rag_limit := bg_rag_hits (cq_budgets request);
  ao_brief := gn_brief g;
  ao_max_tokens := gn_max_output_tokens g;
  ao_temperature := gn_temperature g;
  ao_seed := gn_seed g;
  ao_context_mode := cq_context_mode request;
  ao_compare_generate := gn_compare_generate g;
  ao_verify_model := co_verify_model options |}.

Definition comparison_text (comparison : option ContextComparison) : string :=
  "Context comparison completed without model generation."
  ++ match comparison with
     | None => ""
     | Some c =>
         let line name tokens files := item name (dec tokens ++ " estimated tokens, " ++ dec files ++ " files") in
         eol ++ line "legacy" (cc_legacy_estimated_tokens c) (cc_legacy_files c)
         ++ line "symbol" (cc_symbol_estimated_tokens c) (cc_symbol_files c)
         ++ item "estimated delta" (int_display (cc_estimated_token_delta c) ++ " tokens")
     end.

Definition generated_run (report : AssistantCommandReport) : option AssistantRun := find ar_generated (ac_runs report).

(** The phase of a measure that was reported *)
Definition phase_if (name : string) (duration : option N) (event : string) : list ChatTimingPhase :=
  match duration with Some ms => [timing_phase name ms "ollama" [event]] | None => [] end.

Definition assistant_phases (preparation_ms : N) (metrics : option RunMetrics) : list ChatTimingPhase :=
  (timing_phase "context_build" preparation_ms "opticcode-core" ["context_started"; "context_completed"]
   :: match metrics with
      | None => []
      | Some m =>
          timing_phase "provider_client" (um_client_ms m) "opticcode-llm" ["provider_started"; "provider_completed"]
          :: phase_if "provider_total" (um_ollama_total_ms m) "provider_reported_total"
          ++ phase_if "provider_generation" (um_generation_ms m) "provider_token_generation"
      end)%list.

Definition assistant_outcome (request : ChatRequest) (report : AssistantCommandReport) (started : N) : IO (run CommandOutcome) :=
  let generated := generated_run report in
  let metrics := generated ≫= ar_metrics in
  let preparation_ms := saturating_add64 (ac_preparation_duration_us report) 999 / 1000 in
  total <- elapsed_ms started ;;
  Ret (Ok {|
    oc_context_files := discovered (ac_files report);
    oc_used_context_mode := ac_used_context_mode report;
    oc_metrics := {|
      me_preparation_ms := preparation_ms;
      me_total_ms := total;
      me_estimated_prompt_tokens :=
        match generated, ac_runs report with
        | Some run, _ | None, run :: _ => ar_estimated_tokens run
        | None, [] => 0
        end;
      me_prompt_tokens := metrics ≫= um_prompt_eval_count;
      me_generated_tokens := metrics ≫= um_generated_tokens;
      me_generated_tokens_per_second := metrics ≫= um_generated_tokens_per_second;
      me_timing := Some (timing_report request (assistant_phases preparation_ms metrics));
      me_route := GroundingRoute_as_str AutomaticAssistant |};
    oc_warnings := ac_warnings report;
    oc_route := AutomaticAssistant;
    oc_grounding_response := None;
    oc_evidence := None;
    oc_compliance := None;
    oc_rag_hits := ac_rag_hits report |}).

Definition failed_report (report : AssistantCommandReport) : RuntimeFailure :=
  let cancelled := existsb (fun e => str_contains "cancel" e.1) (ac_errors report) in
  retriable (new_failure (if cancelled then "request_cancelled" else "assistant_failed") "assistant_runtime"
    (join_with "; " (map (fun e => e.1 ++ ": " ++ e.2) (ac_errors report)))) (negb cancelled).

Definition run_assistant (request : ChatRequest) (prepared : PreparedRequest) (options : ChatRuntimeOptions) (started : N)
    : chat CommandOutcome :=
  send (ContextStarted (cq_context_mode request)) ;;:
  execution <-: chat_do (assistant (assistant_options request prepared options)) ;;
  let '(events, result) := execution in
  terminal_count <-: assistant_events request 0 0 events ;;
  if negb (terminal_count =? 1)
  then chat_ret (fail "assistant_terminal_mismatch" "assistant_stream"
                   ("assistant emitted " ++ dec terminal_count ++ " terminal events")) else
  report <-: chat_ret (map_err (fun e => retriable (new_failure "assistant_failed" "assistant_runtime" e) true) result) ;;
  if negb (ac_success report) then chat_ret (Err (failed_report report)) else
  (if existsb ar_generated (ac_runs report) then chat_ret (Ok tt) else emit_text (comparison_text (ac_comparison report))) ;;:
  chat_io (assistant_outcome request report started).
End AssistantCommand.

(** ** One request *)

Inductive ChatExecutionStatus := ExecutionCompleted | ExecutionFailed | ExecutionCancelled.
Record ChatExecutionReport := {
  xr_request_id : string;
  xr_status : ChatExecutionStatus;
  xr_repository_state : string;
}.

Section Execute.
Context `{Floats, Delivery, Blake3, Regex, Unicode, Yaml, Json, XmlParser, ResponseSerde, PromptSerde, StringDebug}.
Context `{WalkDir, ChatTools, LeaseSerde, AuditSerde, ApprovalSerde, EngineSerde, !AssistantRuns}.
(** [chat_edit_runtime::run_chat_edit] *)
Context (run_chat_edit : option OpticCode -> ChatRequest -> PreparedRequest -> ChatPolicyAuthorization -> ChatRuntimeOptions -> N
                         -> chat CommandOutcome).

Definition accepted (request : ChatRequest) (a : ChatPolicyAuthorization) : ChatProtocolEventPayload :=
  RequestAccepted (cq_command request) (cq_security_mode request) (au_effective_security_mode a) (au_effective_security_mode a)
    (au_policy_version a) (au_decision a) (au_rule_id a).

Definition is_grounded (prepared : PreparedRequest) : bool :=
  negb (bool_decide (pp_effective_scope prepared = Automatic))
  && match pp_snapshots prepared with [] => false | _ => true end.

Definition dispatch (app : option OpticCode) (request : ChatRequest) (prepared : PreparedRequest)
    (authorization : ChatPolicyAuthorization) (options : ChatRuntimeOptions) (started : N) : chat CommandOutcome :=
  match cq_command request with
  | Ask | Plan =>
      if is_grounded prepared then run_grounded_assistant app request prepared options started else
      chat_ret (ok_or (retriable (new_failure "provider_unavailable" "provider_setup"
                                    "the configured local LLM provider is unavailable") true) app) ;;:
      run_assistant request prepared options started
  | Inspect => run_grounded_assistant app request prepared options started
  | Context => run_context_command request prepared started
  | Analyze => run_analyze_command request prepared started
  | Index => run_index_command prepared started
  | Legacy => run_legacy_command prepared started
  | ChatProtocol.Status => run_status_command request prepared started
  | Runs => run_runs_command request started
  | Help => run_help_command started
  | Fix | Verify | Diff | Apply | Rollback => run_chat_edit app request prepared authorization options started
  | Unknown => chat_ret (fail "unknown_command" "request_validation" "unknown OpticCode chat slash command")
  end.

Definition execute_chat_inner (app : option OpticCode) (request : ChatRequest) (options : ChatRuntimeOptions) (started : N)
    : chat (PreparedRequest * CommandOutcome) :=
  chat_ret (validate_request request) ;;:
  authorization <-: chat_io (authorize_chat_request request options) ;;
  send (accepted request authorization) ;;:
  (if bool_decide (cq_security_mode request = ReadOnlyMode) then chat_ret (Ok tt)
   else chat_ret (fail "security_mode_unavailable" "policy"
     "clients must request read_only; only the Rust runtime may perform scoped worktree_edit or approved_apply transitions")) ;;:
  unless_cancelled "request_acceptance" "request was cancelled before reference resolution" ;;:
  prepared <-: prepare_request request ;;
  cancelled <-: chat_do is_cancelled ;;
  if cancelled : bool then outcome <-: chat_io (empty_outcome started) ;; chat_ret (Ok (prepared, outcome)) else
  outcome <-: dispatch app request prepared authorization options started ;;
  chat_ret (Ok (prepared, outcome)).

(** The metrics of the whole request *)
Definition final_metrics (request : ChatRequest) (outcome : CommandOutcome) (total_ms : N) : ChatMetrics :=
  let m := oc_metrics outcome in
  let timing := default (timing_report request []) (me_timing m) in {|
  me_preparation_ms := me_preparation_ms m;
  me_total_ms := total_ms;
  me_estimated_prompt_tokens := me_estimated_prompt_tokens m;
  me_prompt_tokens := me_prompt_tokens m;
  me_generated_tokens := me_generated_tokens m;
  me_generated_tokens_per_second := me_generated_tokens_per_second m;
  me_timing := Some {|
    tg_schema_version := tg_schema_version timing;
    tg_request_id := tg_request_id timing;
    tg_run_id := tg_run_id timing;
    tg_workspace_id := tg_workspace_id timing;
    tg_command := tg_command timing;
    tg_unit := tg_unit timing;
    tg_clock := tg_clock timing;
    tg_phases := (List.filter (fun p => negb (tp_name p =? "runtime_total")%string) (tg_phases timing)
      ++ [timing_phase "runtime_total" total_ms "opticcode-core" ["request_received"; "terminal_preparation"]])%list |};
  me_route := GroundingRoute_as_str (oc_route outcome) |}.

Definition grounding_summary (prepared : PreparedRequest) (outcome : CommandOutcome) : ChatGroundingSummary := {|
  gs_schema_version := GROUNDING_SCHEMA_VERSION;
  gs_route := oc_route outcome;
  gs_requested_scope := pp_requested_scope prepared;
  gs_effective_scope := pp_effective_scope prepared;
  gs_scope_reason := pp_scope_reason prepared;
  gs_evidence_mode := pp_evidence_mode prepared;
  gs_selected_references := pp_selected_references prepared;
  gs_resolved_references := pp_resolved_references prepared;
  gs_injected_references := list_len (mf_entries (pp_manifest prepared));
  gs_refused_references := list_len (pp_rejected prepared);
  gs_discovered_files := if bool_decide (oc_route outcome = AutomaticAssistant) then list_len (oc_context_files outcome) else 0;
  gs_rag_hits := oc_rag_hits outcome;
  gs_historical_turns := pp_historical_turns prepared;
  gs_prompt_fingerprint := pp_prompt_fingerprint prepared;
  gs_manifest := pp_manifest prepared;
  gs_response := oc_grounding_response outcome;
  gs_evidence := oc_evidence outcome;
  gs_compliance := oc_compliance outcome |}.

Definition completion_summary (request : ChatRequest) (prepared : PreparedRequest) (outcome : CommandOutcome) (metrics : ChatMetrics)
    : ChatCompletionSummary := {|
  su_command := cq_command request;
  su_success := true;
  su_model := cq_model request;
  su_requested_context_mode := cq_context_mode request;
  su_used_context_mode := oc_used_context_mode outcome;
  su_references := pp_references prepared;
  su_rejected_references := list_len (pp_rejected prepared);
  su_context_files := oc_context_files outcome;
  su_warnings := take MAX_WARNING_COUNT (pp_warnings prepared ++ oc_warnings outcome)%list;
  su_metrics := metrics;
  su_repository_state := pp_repository_state prepared;
  su_run_id := cq_request_id request;
  su_grounding := Some (grounding_summary prepared outcome) |}.

(** The report, once the terminal event is sent; a delivery error is the
    error of the whole call. *)
Definition finish (payload : ChatProtocolEventPayload) (status : ChatExecutionStatus) (state : string) (em : ChatEventEmitter)
    : IO (ChatEventEmitter * res ChatExecutionReport) :=
  p <- emit payload em ;;
  Ret (p.1, map_ok (fun _ => {| xr_request_id := em_request_id em; xr_status := status; xr_repository_state := state |}) p.2).

Definition complete (request : ChatRequest) (prepared : PreparedRequest) (outcome : CommandOutcome) (started : N)
    (em : ChatEventEmitter) : IO (ChatEventEmitter * res ChatExecutionReport) :=
  total <- elapsed_ms started ;;
  let metrics := final_metrics request outcome total in
  let! (em, sent) := emit (Metrics metrics) em in
  match sent with
  | Err e => Ret (em, Err e)
  | Ok _ =>
      let! (em, sent) := emit (TimingMetrics metrics) em in
      match sent with
      | Err e => Ret (em, Err e)
      | Ok _ =>
          finish (Completed (completion_summary request prepared outcome metrics)) ExecutionCompleted
            (pp_repository_state prepared) em
      end
  end.

Definition execute_chat (app : option OpticCode) (request : ChatRequest) (session_request_id : string) (options : ChatRuntimeOptions)
    : IO (res (ChatEventEmitter * res ChatExecutionReport)) :=
  emitter <-? new_emitter session_request_id ;;
  started <- sys InstantNow ;;
  let! (em, result) := execute_chat_inner app request options started emitter in
  cancelled <- is_cancelled ;;
  finished <- (match result, cancelled : bool with
               | Ok (prepared, _), true =>
                   finish (Cancelled "request cancellation was confirmed") ExecutionCancelled (pp_repository_state prepared) em
               | Ok (prepared, outcome), false => complete request prepared outcome started em
               | Err failure, true =>
                   finish (Cancelled (bounded_text (fl_message failure) (4 * 1024))) ExecutionCancelled "unavailable" em
               | Err failure, false => finish (Failed (protocol_error failure)) ExecutionFailed "unavailable" em
               end) ;;
  Ret (Ok finished).
End Execute.
