(* ===== verification/PolicyAdapter.v ===== *)
(** * The policy adapter of the edits crate (opticcode-edit: policy_adapter.rs)

    The observation of the repository an edit is bound to, and the session
    through which every step of an edit is submitted to the policy engine. *)

From stdpp Require Import base list strings.
From Stdlib Require Import NArith Ascii String Lia.
From S2P Require Import Prelude Bytes UnixPath IO Model Paths AuditLog Approval Rules Worktree Engine.
From S2P Require Import Anyhow Text GitState ProcessRunner DisposableWorktree EditPlan EditRuntime.

Local Open Scope string_scope.
Local Open Scope N_scope.

Record ObservedRepository := {
  or_root : string;
  or_root_hash : string;
  or_boundary : GitRepositoryBoundary;
  or_working_tree_digest : string;
  or_clean : bool;
}.

Record EditWorkspaceObservation := {
  eo_root : string;
  eo_root_hash : string;
  eo_base_head : string;
  eo_working_tree_digest : string;
  eo_clean : bool;
}.

(** [serde_json::to_vec] of a Git state. *)
Class GitStateSerde := git_state_to_vec : GitStateSnapshot -> result string string.

(** [?] on an error of the validation and on one of the policy engine. *)
Definition of_plan (e : EditPlanError) : anyhow := failure (edit_plan_error_display e).
Definition of_policy (e : PolicyError) : anyhow := failure (policy_error_display e).

(** ** Observing the repository *)

Section Observe.
Context `{Blake3, SecondsDisplay, StateJson, GitStateSerde}.

Definition run_git_value (root : string) (args : list string) (options : EditRuntimeOptions) (cancellation : string)
    : IO (res string) :=
  result <-? run_process_with_cancellation
    {| pq_program := "git"; pq_args := args; pq_working_directory := root; pq_timeout := o_git_timeout options;
       pq_output_limit_bytes := N.min (o_output_limit_bytes options) (256 * 1024);
       pq_launch_mode := ProcessRunner.Direct; pq_environment := [("GIT_TERMINAL_PROMPT", "0")] |}
    (Some cancellation) ;;
  Ret (if negb (success result) || os_output_truncated (pr_output result)
       then bail ("bounded Git observation failed: status=" ++ ProcessStatus_as_str (pr_status result)
                  ++ ", stderr=" ++ trim (pr_stderr result))
       else
         let value := trim (pr_stdout result) in
         if is_empty value then bail "bounded Git observation returned an empty value" else Ok value).

Definition run_git_path (root : string) (args : list string) (options : EditRuntimeOptions) (cancellation : string)
    : IO (res string) :=
  value <-? run_git_value root args options cancellation ;;
  let value := if is_absolute value then value else join root value in
  io_context ("failed to resolve Git path " ++ display value) (Canonicalize value).

(** The state without the changes of OpticCode's own directory. *)
Definition without_transaction_state (state : GitStateSnapshot) : GitStateSnapshot := {|
  snapshot_schema_version := snapshot_schema_version state;
  snapshot_root := snapshot_root state;
  snapshot_changes := List.filter (fun c => negb (is_transaction_state_path (change_path c))) (snapshot_changes state);
  snapshot_metrics := snapshot_metrics state |}.

Definition observe_repository (options : EditRuntimeOptions) (cancellation : string) : IO (res ObservedRepository) :=
  requested <-? io_context ("failed to resolve workspace " ++ display (o_workspace_root options))
                  (Canonicalize (o_workspace_root options)) ;;
  state <-? io_map_err (with_context "failed to capture workspace Git state") (capture_git_state requested) ;;
  let state := without_transaction_state state in
  if negb (path_eqb (snapshot_root state) requested)
  then Ret (bail "edit workspace must be the root of its main Git worktree") else
  head <-? run_git_value requested ["rev-parse"; "--verify"; "HEAD^{commit}"] options cancellation ;;
  if negb (is_object_id head) then Ret (bail "Git returned an invalid HEAD object id") else
  git_dir <-? run_git_path requested ["rev-parse"; "--absolute-git-dir"] options cancellation ;;
  common_dir <-? run_git_path requested ["rev-parse"; "--git-common-dir"] options cancellation ;;
  index <-? run_git_path requested ["rev-parse"; "--git-path"; "index"] options cancellation ;;
  object_dir <-? run_git_path requested ["rev-parse"; "--git-path"; "objects"] options cancellation ;;
  main_worktree <- (if path_eqb git_dir common_dir then path_is_dir (join requested ".git") else Ret false) ;;
  if negb main_worktree then Ret (bail "editing the original project requires its main Git worktree") else
  state_json <-? Ret (map_err (fun e => with_context "failed to serialize Git state" (failure e)) (git_state_to_vec state)) ;;
  root_hash <-? io_map_err of_plan (canonical_root_hash requested) ;;
  Ret (Ok {|
    or_root := requested;
    or_root_hash := root_hash;
    or_boundary := {|
      grb_worktree_root := requested;
      grb_git_dir := git_dir;
      grb_common_dir := common_dir;
      grb_index := index;
      grb_object_dir := object_dir;
      grb_head := to_ascii_lowercase head;
      grb_main_worktree := true |};
    or_working_tree_digest := EditPlan.working_tree_digest root_hash head state_json;
    or_clean := match snapshot_changes state with [] => true | _ => false end |}).

Definition inspect_edit_workspace (options : EditRuntimeOptions) (cancellation : string)
    : IO (res EditWorkspaceObservation) :=
  observed <-? observe_repository options cancellation ;;
  Ret (Ok {| eo_root := or_root observed;
             eo_root_hash := or_root_hash observed;
             eo_base_head := grb_head (or_boundary observed);
             eo_working_tree_digest := or_working_tree_digest observed;
             eo_clean := or_clean observed |}).
End Observe.

(** ** The policy session *)

Record PolicySession := {
  ps_engine : PolicyEngine;
  ps_options : EditRuntimeOptions;
  ps_observed : ObservedRepository;
}.

Definition active_worktree_of (context : DisposableWorktreeContext) : ActiveWorktree := {|
  aw_run_id := cx_run_id context;
  aw_owner_workspace_id := wo_workspace_id (cx_owner context);
  aw_owner_request_id := wo_request_id (cx_owner context);
  aw_root := cx_worktree_root context;
  aw_source_root := cx_source_root context;
  aw_base_head := cx_base_head context;
  aw_git_dir := cx_git_dir context;
  aw_common_dir := cx_common_dir context |}.

Definition session_request (session : PolicySession) (mode : PolicyMode) (action : PolicyAction)
    (active : option DisposableWorktreeContext) (approval_id : option string) (stage_name : string) (sequence : N)
    : PolicyRequest :=
  let options := ps_options session in
  let observed := ps_observed session in {|
  rq_schema_version := POLICY_SCHEMA_VERSION;
  rq_protocol := POLICY_PROTOCOL_ID;
  rq_request_id := o_request_id options;
  rq_action_id := o_request_id options ++ "-" ++ stage_name ++ "-" ++ dec sequence;
  rq_origin := Chat;
  rq_profile := o_profile options;
  rq_client := {| client_name := o_client_name options; client_version := o_client_version options |};
  rq_mode := mode;
  rq_workspace := {|
    workspace_id := o_workspace_id options;
    workspace_root := or_root observed;
    repository := Some (or_boundary observed);
    active_worktree := option_map active_worktree_of active;
    Model.working_tree_digest := Some (or_working_tree_digest observed);
    repository_clean := Some (or_clean observed) |};
  rq_action := action;
  rq_approval_id := approval_id |}.

Definition policy_record (stage_name : string) (report : PolicyReport) : PolicyDecisionRecord := {|
  d_stage := stage_name;
  d_action_kind := rep_action_kind report;
  d_decision := decision_kind (rep_decision report);
  d_rule_id := decision_rule_id (rep_decision report);
  d_action_hash := rep_action_hash report;
  d_audit_event_id := rep_audit_event_id report |}.

Section Session.
Context `{Blake3, LeaseSerde, AuditSerde, ApprovalSerde, EngineSerde}.

(** The records the caller lends are returned with the result. *)
Definition authorize (session : PolicySession) (mode : PolicyMode) (action : PolicyAction)
    (active : option DisposableWorktreeContext) (approval_id : option string) (stage_name : string)
    (records : list PolicyDecisionRecord) : IO (list PolicyDecisionRecord * res unit) :=
  let request := session_request session mode action active approval_id stage_name (N.of_nat (List.length records)) in
  checked <- check (ps_engine session) request ;;
  match checked with
  | Err e => Ret (records, Err (with_context ("policy check failed for " ++ stage_name) (of_policy e)))
  | Ok preflight =>
      let report := pf_report preflight in
      let records := (records ++ [policy_record stage_name report])%list in
      if negb (allowed_report report) then
        Ret (records, bail ("policy denied " ++ stage_name ++ ": " ++ decision_rule_id (rep_decision report) ++ ": "
                            ++ rep_user_reason report)) else
      revalidated <- preflight_revalidate preflight ;;
      Ret (records, map_err (fun e => with_context ("policy inputs drifted before " ++ stage_name) (of_policy e)) revalidated)
  end.
End Session.
