(* ===== verification/EditTransaction.v ===== *)
(** * From a proposal to a transaction (opticcode-edit: transaction.rs)

    The mutations a proposal stands for, the contract bytes and hashes that
    name it, the checks that a tree holds its base or its proposed contents,
    and the syntax check of its Java files. *)

From stdpp Require Import base list strings.
From Stdlib Require Import NArith Ascii String Lia.
From S2P Require Import Transaction.
From S2P Require Import Prelude Bytes Text UnixPath IO Anyhow Paths EditPlan EditRuntime ProposalStore.

Local Open Scope string_scope.
Local Open Scope N_scope.

(** What the edits read of the analysis of a Java source, which a
    third-party parser makes: whether the syntax is valid and how many
    diagnostics there are. *)
Class JavaSyntax := analyze_java_source : string -> string -> res (bool * N).

(** [serde_json::to_vec] of the contract: the version, the identifier, the
    base commit, the digest of the working tree, and for each file its path,
    status, two hashes and length. *)
Class ContractSerde := contract_to_vec :
  N -> string -> string -> string -> list (string * ProposalFileStatus * option string * string * N) -> result string string.

(** [value.replace("\r\n", "\n")] *)
Fixpoint normalize_line_endings (s : string) : string :=
  match s with
  | String c ((String d s') as rest) =>
      if Ascii.eqb c carriage_return && Ascii.eqb d line_feed then String d (normalize_line_endings s')
      else String c (normalize_line_endings rest)
  | _ => s
  end.

Definition line_endings_equivalent (left right : string) : bool :=
  utf8_valid left && utf8_valid right && (normalize_line_endings left =? normalize_line_endings right)%string.

(** [fs::read_to_string(path)] *)
Definition read_to_string (path : string) : IO (res string) :=
  bytes <-? io_call (ReadFile path) ;;
  Ret (match to_str bytes with Some s => Ok s | None => bail "stream did not contain valid UTF-8" end).

Definition proposal_mutation (file : ProposalFileSnapshot) : Transaction.FileMutation :=
  match f_status file with
  | Modified => Transaction.replace_mutation (f_path file) (default "" (f_base_content file)) (f_proposed_content file)
  | Created => Transaction.create_mutation (f_path file) (f_proposed_content file)
  end.

Definition proposal_mutations (files : list ProposalFileSnapshot) : list Transaction.FileMutation :=
  map proposal_mutation files.

(** The bytes of a base file in a worktree, where Git may have changed the
    line endings. *)
Definition read_worktree_base (root : string) (file : ProposalFileSnapshot) : IO (res string) :=
  actual <-? io_context ("failed to read worktree base " ++ f_path file) (ReadFile (join root (f_path file))) ;;
  Ret (match f_base_content file with
       | None => bail "modified proposal snapshot has no base content"
       | Some base =>
           if negb (actual =? base)%string && negb (line_endings_equivalent actual base)
           then bail (f_path file ++ " differs from the source beyond Git line-ending checkout") else Ok actual
       end).

Definition already_exists (file : ProposalFileSnapshot) : string :=
  "created proposal path already exists in worktree: " ++ f_path file.

Definition worktree_mutation (root : string) (file : ProposalFileSnapshot) : IO (res Transaction.FileMutation) :=
  match f_status file with
  | Modified =>
      actual <-? read_worktree_base root file ;;
      Ret (Ok (Transaction.replace_mutation (f_path file) actual (f_proposed_content file)))
  | Created =>
      present <- path_exists (join root (f_path file)) ;;
      Ret (if present : bool then bail (already_exists file)
           else Ok (Transaction.create_mutation (f_path file) (f_proposed_content file)))
  end.

Fixpoint worktree_mutations (root : string) (files : list ProposalFileSnapshot) : IO (res (list Transaction.FileMutation)) :=
  match files with
  | [] => Ret (Ok [])
  | file :: rest =>
      m <-? worktree_mutation root file ;;
      ms <-? worktree_mutations root rest ;;
      Ret (Ok (m :: ms))
  end.

Definition proposal_paths (files : list ProposalFileSnapshot) : list string * list string :=
  let paths status := sort_by path_cmp (map f_path (List.filter (fun f => bool_decide (f_status f = status)) files)) in
  (paths Modified, paths Created).

Definition status_debug (s : ProposalFileStatus) : string :=
  match s with Modified => "Modified" | Created => "Created" end.

Fixpoint verify_worktree_base_at (root : string) (files : list ProposalFileSnapshot) : IO (res unit) :=
  match files with
  | [] => Ret (Ok tt)
  | file :: rest =>
      (match f_status file with
       | Created =>
           present <- path_exists (join root (f_path file)) ;;
           Ret (if present : bool then bail (already_exists file) else Ok tt)
       | Modified => read_worktree_base root file ;;? Ret (Ok tt)
       end) ;;?
      verify_worktree_base_at root rest
  end.

Section Hashes.
Context `{Blake3}.

Definition worktree_expected_hash (root : string) (file : ProposalFileSnapshot) : IO (res (option string)) :=
  match f_status file with
  | Created => Ret (Ok None)
  | Modified => actual <-? read_worktree_base root file ;; Ret (Ok (Some (content_hash actual)))
  end.

Definition proposal_contract_bytes `{ContractSerde} (record : ProposalRecord) : res string :=
  bytes <- map_err failure (contract_to_vec (r_schema_version record) (r_proposal_id record)
             (p_base_head (r_plan record)) (p_working_tree_digest (r_plan record))
             (map (fun f => (f_path f, f_status f, f_base_hash f, f_proposed_hash f, f_proposed_bytes f)) (r_files record))) ;?
  Ok (bytes ++ nl).

Definition nul : string := String (byte 0) "".

Definition file_entry (file : ProposalFileSnapshot) : string :=
  f_path file ++ nul ++ status_debug (f_status file) ++ nul ++ default "absent" (f_base_hash file) ++ nul ++ f_proposed_hash file.

Definition proposal_files_hash (files : list ProposalFileSnapshot) : string :=
  content_hash (join_with nl (sort_by str_cmp (map file_entry files))).

(** The contents and the hash a path is expected to have. *)
Definition expected_content (proposed : bool) (file : ProposalFileSnapshot) : option string :=
  if proposed then Some (f_proposed_content file) else f_base_content file.
Definition expected_hash (proposed : bool) (file : ProposalFileSnapshot) : option string :=
  if proposed then Some (f_proposed_hash file) else f_base_hash file.

Definition verify_snapshot_at (root : string) (proposed : bool) (file : ProposalFileSnapshot) : IO (res unit) :=
  read <- sys (ReadFile (join root (f_path file))) ;;
  actual <-? Ret (match read with
                  | Ok bytes => Ok (Some bytes)
                  | Err e => if bool_decide (io_error_kind e = NotFound) then Ok None
                             else Err (with_context ("failed to read snapshot path " ++ f_path file) (of_io e))
                  end) ;;
  if negb (bool_decide (actual = expected_content proposed file))
  then Ret (bail (f_path file ++ " no longer matches the " ++ (if proposed then "proposed" else "base") ++ " snapshot")) else
  Ret (match actual, expected_hash proposed file with
       | Some bytes, Some hash =>
           if (content_hash bytes =? hash)%string then Ok tt
           else bail (f_path file ++ " no longer matches its expected content hash")
       | _, _ => Ok tt
       end).

Fixpoint verify_snapshots_at (root : string) (files : list ProposalFileSnapshot) (proposed : bool) : IO (res unit) :=
  match files with
  | [] => Ret (Ok tt)
  | file :: rest => verify_snapshot_at root proposed file ;;? verify_snapshots_at root rest proposed
  end.
End Hashes.

(** ** The syntax check *)

Section Reparse.
Context `{JavaSyntax}.

Definition reparse_file (root : string) (file : ProposalFileSnapshot) : IO (list string) :=
  source <- io_map_err (with_context ("failed to read Java file " ++ f_path file)) (read_to_string (join root (f_path file))) ;;
  Ret (match rbind source (analyze_java_source (f_path file)) with
       | Ok (true, _) => []
       | Ok (false, diagnostics) => [f_path file ++ " has " ++ dec diagnostics ++ " syntax diagnostic(s)"]
       | Err e => [f_path file ++ ": " ++ alternate e]
       end).

Fixpoint reparse_files (root : string) (files : list ProposalFileSnapshot) : IO (list string) :=
  match files with
  | [] => Ret []
  | file :: rest => errors <- reparse_file root file ;; more <- reparse_files root rest ;; Ret (errors ++ more)%list
  end.

Definition is_java (file : ProposalFileSnapshot) : bool := ends_with ".java" (f_path file).

Definition reparse_java_files (root : string) (files : list ProposalFileSnapshot) : IO EditStageReport :=
  started <- sys InstantNow ;;
  let java := List.filter is_java files in
  errors <- reparse_files root java ;;
  now <- sys InstantNow ;;
  let duration := to_u64_or_max ((now - started) / 1000000) in
  Ret (match errors with
       | [] => stage_passed ("Tree-sitter parsed " ++ dec (list_len java) ++ " Java file(s)") duration
       | _ => {| es_status := StageFailed; es_duration_ms := duration;
                 es_summary := "Tree-sitter rejected " ++ dec (list_len errors) ++ " Java file(s)"; es_errors := errors |}
       end).
End Reparse.

(** ** Identifiers (generation.rs) *)

Definition is_prefix_byte (c : ascii) : bool := is_ascii_lowercase c || Ascii.eqb c "-"%char.

(** [format!("{byte:02x}")] of every byte *)
Fixpoint hex_bytes (s : string) : string :=
  match s with EmptyString => "" | String c s' => digits 16 2 (byte_n c) ++ hex_bytes s' end.

Definition new_edit_id (prefix : string) : IO (res string) :=
  if is_empty prefix || (32 <? strlen prefix) || negb (all_bytes is_prefix_byte prefix)
  then Ret (bail "edit ID prefix is invalid") else
  random <- sys (RandomBytes 16) ;;
  Ret (match random with
       | Ok bytes => Ok (prefix ++ "-" ++ hex_bytes bytes)
       | Err e => Err (with_context "failed to obtain random bytes for edit identity" (failure e))
       end).
