(* ===== verification/EditDiff.v ===== *)
(** * The verified diff (opticcode-edit: diff.rs)

    The diff Git reports for the files of a proposal: the set of changed
    paths must be the proposal's, every file must hold its proposed contents,
    and no patch may be binary or too large. *)

From stdpp Require Import base list strings.
From Stdlib Require Import NArith Ascii String Lia.
From S2P Require Import Prelude Bytes Text UnixPath IO Anyhow Paths GitState ProcessRunner DisposableWorktree.
From S2P Require Import EditPlan EditRuntime.

Local Open Scope string_scope.
Local Open Scope N_scope.

Definition tab : ascii := byte 9.

(** The text of a [ParseIntError] of [usize]. *)
Fixpoint digits_error (acc : N) (s : string) : string :=
  match s with
  | EmptyString => ""
  | String c s' =>
      if is_ascii_digit c then
        let n := acc * 10 + (byte_n c - 48) in
        if n <=? u64_max then digits_error n s' else "number too large to fit in target type"
      else "invalid digit found in string"
  end.
Definition parse_int_error (s : string) : string :=
  if is_empty s then "cannot parse integer from empty string" else
  if (s =? "+")%string then "invalid digit found in string" else
  digits_error 0 (match s with String "+"%char d => d | _ => s end).

(** [field.parse::<usize>().context(message)] *)
Definition parse_field (message field : string) : res N :=
  match parse_usize field with
  | Some n => Ok n
  | None => Err (with_context message (failure (parse_int_error field)))
  end.

(** The sum of [usize] values, as an optimised build computes it. *)
Definition usize_sum (l : list N) : N := foldr (fun a b => (a + b) mod 18446744073709551616) 0 l.

(** [iter.collect::<BTreeMap<_, _>>()] *)
Definition collect_map {V} (entries : list (string * V)) : list (string * V) :=
  fold_left (fun m e => fst (map_insert e.1 e.2 m)) entries [].

Section Diff.
Context `{Blake3, SecondsDisplay, StringDebug}.

(** A list of strings as [{:?}] shows it. *)
Definition debug_list (l : list string) : string := "[" ++ join_with ", " (map string_debug l) ++ "]".

Definition run_git_diff (root : string) (args : list string) (timeout output_limit : N) (cancellation : string)
    : IO (res ProcessResult) :=
  result <-? run_process_with_cancellation
    {| pq_program := "git"; pq_args := args; pq_working_directory := root; pq_timeout := timeout;
       pq_output_limit_bytes := output_limit; pq_launch_mode := Direct; pq_environment := [] |} (Some cancellation) ;;
  Ret (match pr_status result with
       | TimedOut | ProcessRunner.Cancelled => bail ("bounded Git command ended with " ++ ProcessStatus_as_str (pr_status result))
       | _ => Ok result
       end).

Definition git_diff_for_path (root path : string) (timeout output_limit : N) (cancellation : string) : IO (res string) :=
  result <-? run_git_diff root ["--no-pager"; "diff"; "--no-ext-diff"; "--no-color"; "--binary"; "HEAD"; "--"; path]
               timeout output_limit cancellation ;;
  Ret (if negb (success result) || os_output_truncated (pr_output result)
       then bail ("git diff failed for " ++ path ++ ": status=" ++ ProcessStatus_as_str (pr_status result)
                  ++ ", stderr=" ++ trim (pr_stderr result)) else
       if is_empty (pr_stdout result) then bail ("Git produced no patch for modified file " ++ path) else
       Ok (pr_stdout result)).

(** The row of [git diff --numstat]. *)
Definition parse_numstat (stdout : string) : res (N * N) :=
  match lines stdout with
  | [] => bail "git numstat returned no row"
  | line :: _ =>
      match split_on tab line with
      | [] => bail "git numstat additions are missing"
      | additions :: rest =>
          additions <- parse_field "binary or invalid additions in git numstat" additions ;?
          match rest with
          | [] => bail "git numstat deletions are missing"
          | deletions :: _ =>
              deletions <- parse_field "binary or invalid deletions in git numstat" deletions ;?
              Ok (additions, deletions)
          end
      end
  end.

Definition git_numstat_for_path (root path : string) (timeout : N) (cancellation : string) : IO (res (N * N)) :=
  result <-? run_git_diff root ["diff"; "--numstat"; "HEAD"; "--"; path] timeout (64 * 1024) cancellation ;;
  Ret (if negb (success result) || os_output_truncated (pr_output result)
       then bail ("git numstat failed for " ++ path) else parse_numstat (pr_stdout result)).

(** ** One file *)

Definition kind_matches (file : ProposalFileSnapshot) (change : GitChange) : res unit :=
  match f_status file with
  | EditPlan.Modified =>
      if bool_decide (change_kind change = GitState.Modified) || bool_decide (change_kind change = TypeChanged) then Ok tt
      else bail (f_path file ++ " is not reported by Git as a modified file")
  | Created =>
      if bool_decide (change_kind change = Untracked) || bool_decide (change_kind change = Added) then Ok tt
      else bail (f_path file ++ " is not reported by Git as a created file")
  end.

(** The patch of a file, and its added and deleted lines. *)
Definition file_patch (worktree_root : string) (file : ProposalFileSnapshot) (timeout : N) (cancellation : string)
    : IO (res (string * (N * N))) :=
  match f_status file with
  | EditPlan.Modified =>
      patch <-? git_diff_for_path worktree_root (f_path file) timeout MAX_EDIT_PROPOSAL_BYTES cancellation ;;
      counts <-? git_numstat_for_path worktree_root (f_path file) timeout cancellation ;;
      Ret (Ok (patch, counts))
  | Created => Ret (Ok (created_file_patch file, (diff_line_count (f_proposed_content file), 0)))
  end.

Definition is_binary_patch (patch : string) : bool :=
  str_contains "GIT binary patch" patch || str_contains "Binary files " patch.

Definition file_statistics (file : ProposalFileSnapshot) (patch : string) (counts : N * N) : DiffFileStatistics := {|
  df_path := f_path file;
  df_status := f_status file;
  df_additions := counts.1;
  df_deletions := counts.2;
  df_hunks := count_hunks patch;
  df_binary := false;
  df_base_hash := f_base_hash file;
  df_proposed_hash := f_proposed_hash file;
  df_proposed_bytes := f_proposed_bytes file |}.

Definition diff_file (worktree_root : string) (observed : list (string * GitChange)) (timeout : N)
    (cancellation : string) (file : ProposalFileSnapshot) : IO (res (string * DiffFileStatistics)) :=
  stop <- is_cancelled cancellation ;;
  if stop : bool then Ret (bail "diff capture was cancelled") else
  match map_get (normalize_path (f_path file)) observed with
  | None => Ret (bail "validated path disappeared from Git state")
  | Some change =>
      Ret (kind_matches file change) ;;?
      actual <-? io_context ("failed to read proposed file " ++ f_path file) (ReadFile (join worktree_root (f_path file))) ;;
      if negb (actual =? f_proposed_content file)%string || negb (content_hash actual =? f_proposed_hash file)%string
      then Ret (bail ("proposed file drifted before diff capture: " ++ f_path file)) else
      let!? (patch, counts) := file_patch worktree_root file timeout cancellation in
      Ret (if is_binary_patch patch then bail ("binary diff is refused for " ++ f_path file)
           else Ok (if ends_with nl patch then patch else patch ++ nl, file_statistics file patch counts))
  end.

Fixpoint diff_files (worktree_root : string) (observed : list (string * GitChange)) (timeout : N)
    (cancellation : string) (files : list ProposalFileSnapshot) : IO (res (string * list DiffFileStatistics)) :=
  match files with
  | [] => Ret (Ok ("", []))
  | file :: rest =>
      let!? (patch, stats) := diff_file worktree_root observed timeout cancellation file in
      let!? (patches, more) := diff_files worktree_root observed timeout cancellation rest in
      Ret (Ok (patch ++ patches, stats :: more))
  end.

(** ** The diff *)

Definition diff_statistics (stats : list DiffFileStatistics) (patch : string) : DiffStatistics :=
  let count (status : ProposalFileStatus) :=
    list_len (List.filter (fun s => bool_decide (df_status s = status)) stats) in {|
  ds_files := list_len stats;
  ds_added_files := count Created;
  ds_modified_files := count EditPlan.Modified;
  ds_deleted_files := 0;
  ds_renamed_files := 0;
  ds_binary_files := 0;
  ds_additions := usize_sum (map df_additions stats);
  ds_deletions := usize_sum (map df_deletions stats);
  ds_hunks := usize_sum (map df_hunks stats);
  ds_patch_bytes := strlen patch |}.

Definition verified_diff (patch : string) (stats : list DiffFileStatistics) : VerifiedDiff :=
  let '(display_patch, truncated) := truncate_utf8 patch MAX_EDIT_DIFF_DISPLAY_BYTES in {|
  vd_schema_version := 1;
  vd_patch := patch;
  vd_patch_hash := content_hash patch;
  vd_display_patch := display_patch;
  vd_display_truncated := truncated;
  vd_statistics := diff_statistics stats patch;
  vd_files := stats |}.

(** The changes by normalised path, without OpticCode's own. *)
Definition observed_changes (state : GitStateSnapshot) : list (string * GitChange) :=
  collect_map (map (fun c => (normalize_path (change_path c), c))
    (List.filter (fun c => negb (is_transaction_state_path (change_path c))) (snapshot_changes state))).
Definition expected_files (files : list ProposalFileSnapshot) : list (string * ProposalFileSnapshot) :=
  collect_map (map (fun f => (normalize_path (f_path f), f)) files).

Definition capture_verified_diff (worktree_root : string) (files : list ProposalFileSnapshot) (git_timeout : N)
    (cancellation : string) : IO (res VerifiedDiff) :=
  state <-? io_map_err (with_context "failed to inspect edited worktree") (capture_git_state worktree_root) ;;
  let expected := expected_files files in
  let observed := observed_changes state in
  if negb (bool_decide (map fst expected = map fst observed))
  then Ret (bail ("worktree diff path set differs from the validated proposal: expected "
                  ++ debug_list (map fst expected) ++ ", observed " ++ debug_list (map fst observed))) else
  let!? (patch, stats) := diff_files worktree_root observed git_timeout cancellation files in
  Ret (if MAX_EDIT_PROPOSAL_BYTES <? strlen patch then bail "verified Git patch exceeds the proposal byte limit"
       else Ok (verified_diff patch stats)).
End Diff.
