(* ===== verification/OfflineBuild.v ===== *)
(** * The offline build (opticcode-edit: build.rs), on Unix

    The discovery of an installed Maven or Gradle, the policy action of its
    run, and the bounded run itself between two observations of the Git
    state. *)

From stdpp Require Import base list strings.
From Stdlib Require Import NArith Ascii String Lia.
From S2P Require Import Prelude Bytes Text UnixPath IO Model Anyhow Paths GitState ProcessRunner DisposableWorktree.
From S2P Require Import EditPlan EditRuntime.

Local Open Scope string_scope.
Local Open Scope N_scope.

Record OfflineBuildInvocation := {
  bi_tool : string;
  bi_executable : string;
  bi_arguments : list string;
  bi_launch : ProcessLaunch;
}.

Record OfflineBuildResult := {
  br_build : EditStageReport;
  br_tests : EditStageReport;
  br_process : EditProcessReport;
}.

Definition policy_action (invocation : OfflineBuildInvocation) (cwd : string) (options : EditRuntimeOptions)
    : RunProcessAction := {|
  rp_executable := bi_executable invocation;
  rp_arguments := bi_arguments invocation;
  rp_cwd := cwd;
  rp_timeout_ms := to_u64_or_max (o_build_timeout options / 1000000);
  rp_output_limit_bytes := o_output_limit_bytes options;
  rp_network := NetDenied;
  rp_launch := bi_launch invocation;
  rp_environment_allowlist := ["JAVA_HOME"] |}.

(** On Unix every executable is launched directly. *)
Definition launch_for (executable : string) : ProcessLaunch := Model.Direct.

(** ** Discovery *)

(** [root.join(name)], when it is a regular file and no link. *)
Definition executable_at (root name : string) : IO (option string) :=
  let candidate := join root name in
  m <- sys (SymlinkMetadata candidate) ;;
  match m with
  | Ok m =>
      if negb (is_file m) || is_symlink m then Ret None else
      resolved <- sys (Canonicalize candidate) ;; Ret (ok resolved)
  | Err _ => Ret None
  end.

(** [iter.find_map(f)] *)
Fixpoint find_map_io {A B} (f : A -> IO (option B)) (l : list A) : IO (option B) :=
  match l with
  | [] => Ret None
  | x :: l' => found <- f x ;; match found with Some b => Ret (Some b) | None => find_map_io f l' end
  end.

Definition home_root (variable : string) : IO (list string) :=
  value <- sys (EnvVar variable) ;;
  Ret (match value with Some value => [join value "bin"] | None => [] end).

Fixpoint home_roots (variables : list string) : IO (list string) :=
  match variables with
  | [] => Ret []
  | v :: vs => r <- home_root v ;; rs <- home_roots vs ;; Ret (r ++ rs)%list
  end.

Definition find_installed_executable (names : list string) : IO (option string) :=
  homes <- home_roots ["MAVEN_HOME"; "M2_HOME"; "GRADLE_HOME"] ;;
  path <- sys (EnvVar "PATH") ;;
  let roots := (homes ++ match path with Some path => split_on ":"%char path | None => [] end)%list in
  find_map_io (fun root => find_map_io (executable_at root) names) roots.

(** [path.is_file()] *)
Definition path_is_file (path : string) : IO bool :=
  m <- sys (FollowMetadata path) ;; Ret (match m with Ok m => is_file m | Err _ => false end).

Definition maven_arguments (tests : bool) : list string :=
  ["-o"; "-q"] ++ (if tests then ["verify"] else ["-DskipTests"; "package"]).

Definition discover_offline_build (root : string) (validations : list EditValidationKind)
    : IO (res OfflineBuildInvocation) :=
  let tests := bool_decide (TestOffline ∈ validations) in
  maven <- path_is_file (join root "pom.xml") ;;
  if maven : bool then
    found <- find_installed_executable ["mvn.cmd"; "mvn.exe"; "mvn"] ;;
    Ret (match found with
         | None => bail "Maven executable was not found in the installed toolchain"
         | Some executable => Ok {| bi_tool := "maven"; bi_executable := executable;
                                    bi_arguments := maven_arguments tests; bi_launch := launch_for executable |}
         end)
  else
    groovy <- path_is_file (join root "build.gradle") ;;
    gradle <- (if groovy : bool then Ret true else path_is_file (join root "build.gradle.kts")) ;;
    if negb gradle then Ret (bail "no supported Maven or Gradle build manifest was found") else
    found <- find_installed_executable ["gradle.bat"; "gradle.exe"; "gradle"] ;;
    Ret (match found with
         | None => bail "Gradle executable was not found in the installed toolchain"
         | Some executable => Ok {| bi_tool := "gradle"; bi_executable := executable;
                                    bi_arguments := ["--offline"; "build"]; bi_launch := launch_for executable |}
         end).

(** ** The run *)

Section Build.
Context `{Blake3, SecondsDisplay}.

Definition process_launch_mode (launch : ProcessLaunch) : res ProcessLaunchMode :=
  match launch with
  | Model.Direct => Ok ProcessRunner.Direct
  | Model.WindowsCommandScript => Ok ProcessRunner.WindowsCommandScript
  | Shell => bail "shell build launch is forbidden"
  end.

(** [{:?}] of an optional exit code *)
Definition exit_code_debug (code : option N) : string :=
  match code with Some code => "Some(" ++ dec code ++ ")" | None => "None" end.

Definition process_report (invocation : OfflineBuildInvocation) (result : ProcessResult) : EditProcessReport := {|
  ep_tool := bi_tool invocation;
  ep_executable := display (bi_executable invocation);
  ep_arguments := bi_arguments invocation;
  ep_status := ProcessStatus_as_str (pr_status result);
  ep_exit_code := option_map Z.of_N (pr_exit_code result);
  ep_duration_ms := duration_ms (pr_duration result);
  ep_timed_out := timed_out result;
  ep_cancelled := cancelled result;
  ep_output_truncated := os_output_truncated (pr_output result);
  ep_stdout_tail := tail_lines (pr_stdout result) 40;
  ep_stderr_tail := tail_lines (pr_stderr result) 40 |}.

(** A build succeeds when the process did, its output was read whole and
    the strict guard finds no violation. *)
Definition build_success (result : ProcessResult) (guard : BuildGitReport) : bool :=
  success result && negb (os_output_truncated (pr_output result)) && negb (strict_violation guard).

Definition build_failure (result : ProcessResult) (guard : BuildGitReport) : string :=
  if os_output_truncated (pr_output result) then "build output exceeded its configured bound" else
  if strict_violation guard then "build changed tracked files outside the verified proposal" else
  if cancelled result then "offline build was cancelled" else
  if timed_out result then "offline build timed out" else
  "offline build failed with status " ++ ProcessStatus_as_str (pr_status result)
  ++ " and exit code " ++ exit_code_debug (pr_exit_code result).

Definition build_result (invocation : OfflineBuildInvocation) (validations : list EditValidationKind)
    (result : ProcessResult) (guard : BuildGitReport) : OfflineBuildResult :=
  let duration := duration_ms (pr_duration result) in
  let passed := build_success result guard in
  let failure := build_failure result guard in {|
  br_build := if passed then stage_passed (bi_tool invocation ++ " offline verification passed") duration
              else stage_failed "offline build failed" duration failure;
  br_tests := if negb (bool_decide (TestOffline ∈ validations))
              then not_run "tests were not requested by the validated plan"
              else if passed then stage_passed "offline test lifecycle passed" duration
              else stage_failed "offline tests did not pass" duration failure;
  br_process := process_report invocation result |}.

Definition build_environment : IO (list (string * string)) :=
  value <- sys (EnvVar "JAVA_HOME") ;;
  Ret (match value with Some value => [("JAVA_HOME", value)] | None => [] end).

Definition run_offline_build (root : string) (invocation : OfflineBuildInvocation)
    (validations : list EditValidationKind) (options : EditRuntimeOptions) (cancellation : string)
    : IO (res OfflineBuildResult) :=
  before <-? io_map_err (with_context "failed to capture pre-build Git state") (capture_git_state root) ;;
  mode <-? Ret (process_launch_mode (bi_launch invocation)) ;;
  environment <- build_environment ;;
  result <-? run_process_with_cancellation
    {| pq_program := bi_executable invocation; pq_args := bi_arguments invocation; pq_working_directory := root;
       pq_timeout := o_build_timeout options; pq_output_limit_bytes := o_output_limit_bytes options;
       pq_launch_mode := mode; pq_environment := environment |} (Some cancellation) ;;
  after <-? io_map_err (with_context "failed to capture post-build Git state") (capture_git_state root) ;;
  guard <-? Ret (from_snapshots before after true) ;;
  Ret (Ok (build_result invocation validations result guard)).
End Build.
