(* ===== verification/EditVerification.v ===== *)
(** * The verification of a proposal (opticcode-edit: verification.rs)

    A proposal is applied, parsed, compared and built in a disposable
    worktree, every step submitted to the policy engine, and its record
    moved through the states of the life cycle. *)

From stdpp Require Import base list strings.
From Stdlib Require Import NArith Ascii String Lia.
From S2P Require Import Transaction TransactionRun.
From S2P Require Import Prelude Bytes UnixPath IO Model Paths AuditLog Approval Rules Worktree Engine.
From S2P Require Import Anyhow Text GitState ProcessRunner DisposableWorktree EditPlan EditIntent EditRuntime ProposalStore.
From S2P Require Import PolicyAdapter EditTransaction EditDiff OfflineBuild.

Local Open Scope string_scope.
Local Open Scope N_scope.

Record VerificationProgress := {
  vp_apply : EditStageReport;
  vp_reparse : EditStageReport;
  vp_build : EditStageReport;
  vp_tests : EditStageReport;
  vp_diff : EditStageReport;
  vp_processes : list EditProcessReport;
  vp_verified_diff : option VerifiedDiff;
}.

Definition default_progress : VerificationProgress := {|
  vp_apply := not_run "transactional worktree apply did not run";
  vp_reparse := not_run "Tree-sitter reparse did not run";
  vp_build := not_run "offline build did not run";
  vp_tests := not_run "offline tests did not run";
  vp_diff := not_run "verified Git diff was not captured";
  vp_processes := [];
  vp_verified_diff := None |}.

(** What the closures share: the policy decisions and the progress. *)
Record Shared := { sh_decisions : list PolicyDecisionRecord; sh_progress : VerificationProgress }.

Definition initial_shared : Shared := {| sh_decisions := []; sh_progress := default_progress |}.

Definition set_decisions (decisions : list PolicyDecisionRecord) (s : Shared) : Shared :=
  {| sh_decisions := decisions; sh_progress := sh_progress s |}.
Definition update_progress (f : VerificationProgress -> VerificationProgress) : stage Shared unit :=
  stage_modify (fun s => {| sh_decisions := sh_decisions s; sh_progress := f (sh_progress s) |}).

Definition set_apply (r : EditStageReport) (p : VerificationProgress) : VerificationProgress := {|
  vp_apply := r; vp_reparse := vp_reparse p; vp_build := vp_build p; vp_tests := vp_tests p; vp_diff := vp_diff p;
  vp_processes := vp_processes p; vp_verified_diff := vp_verified_diff p |}.
Definition set_reparse (r : EditStageReport) (p : VerificationProgress) : VerificationProgress := {|
  vp_apply := vp_apply p; vp_reparse := r; vp_build := vp_build p; vp_tests := vp_tests p; vp_diff := vp_diff p;
  vp_processes := vp_processes p; vp_verified_diff := vp_verified_diff p |}.
Definition set_diff (r : EditStageReport) (diff : VerifiedDiff) (p : VerificationProgress) : VerificationProgress := {|
  vp_apply := vp_apply p; vp_reparse := vp_reparse p; vp_build := vp_build p; vp_tests := vp_tests p; vp_diff := r;
  vp_processes := vp_processes p; vp_verified_diff := Some diff |}.
Definition set_build (b : OfflineBuildResult) (p : VerificationProgress) : VerificationProgress := {|
  vp_apply := vp_apply p; vp_reparse := vp_reparse p; vp_build := br_build b; vp_tests := br_tests b; vp_diff := vp_diff p;
  vp_processes := (vp_processes p ++ [br_process b])%list; vp_verified_diff := vp_verified_diff p |}.

(** ** Checks *)

Definition status_is (status : EditStageStatus) (r : EditStageReport) : bool := bool_decide (es_status r = status).

Definition validate_verification_preconditions (record : ProposalRecord) (options : EditRuntimeOptions) : IO (res unit) :=
  if negb (r_workspace_id record =? o_workspace_id options)%string
     || negb (p_profile (r_plan record) =? o_profile options)%string
  then Ret (bail "proposal belongs to another workspace, request, or profile") else
  match r_state record with
  | Validated | Verified | VerificationFailed =>
      now <- ProposalStore.unix_millis ;;
      Ret (if expired record now then bail "proposal expired before verification" else Ok tt)
  | state => Ret (bail ("proposal state " ++ state_debug state ++ " cannot be verified"))
  end.

Definition diff_exceeds (limits : EditPlanLimits) (s : DiffStatistics) : bool :=
  (max_files limits <? ds_files s)
  || (max_created_files limits <? ds_added_files s)
  || (max_hunks limits <? ds_hunks s)
  || (max_added_lines limits <? ds_additions s)
  || (max_deleted_lines limits <? ds_deletions s)
  || (max_changed_lines limits <? saturating_add64 (ds_additions s) (ds_deletions s))
  || (max_proposal_bytes limits <? ds_patch_bytes s)
  || negb (ds_deleted_files s =? 0) || negb (ds_renamed_files s =? 0) || negb (ds_binary_files s =? 0).

Definition enforce_actual_diff_limits (record : ProposalRecord) (diff : VerifiedDiff) : res unit :=
  if diff_exceeds (p_limits (r_plan record)) (vd_statistics diff)
  then bail "actual Git diff exceeds the immutable EditPlan limits" else Ok tt.

(** The repository is as the plan was validated against it. *)
Definition drifted (record : ProposalRecord) (observed : ObservedRepository) : bool :=
  negb (or_clean observed)
  || negb (grb_head (or_boundary observed) =? p_base_head (r_plan record))%string
  || negb (or_working_tree_digest observed =? p_working_tree_digest (r_plan record))%string
  || negb (or_root_hash observed =? r_workspace_root_hash record)%string.

Definition verification_success (progress : VerificationProgress) (cleanup_success source_unchanged : bool)
    (errors : list string) : bool :=
  match errors with [] => true | _ => false end
  && cleanup_success && source_unchanged
  && status_is Passed (vp_apply progress) && status_is Passed (vp_reparse progress)
  && status_is Passed (vp_build progress) && status_is Passed (vp_diff progress).

Section Verify.
Context `{Blake3, IntentSerde, StoreSerde, TransactionSerde, LeaseSerde, AuditSerde, ApprovalSerde, EngineSerde}.
Context `{WorktreeLeaseSerde, SecondsDisplay, StringDebug, StateJson, GitStateSerde, ContractSerde, JavaSyntax}.
Context (store : ProposalStore) (policy : PolicyEngine) (options : EditRuntimeOptions) (cancellation : string).

(** ** The end of a verification *)

Definition finish_verification (record : ProposalRecord) (shared : Shared) (run_id : option string)
    (operation_error : option string) (cleanup_success source_unchanged : bool) (errors : list string)
    : IO (res ProposalRecord) :=
  let errors := (errors ++ option_list operation_error)%list in
  let progress := sh_progress shared in
  let passed := verification_success progress cleanup_success source_unchanged errors in
  let cleanup := if cleanup_success then stage_passed "disposable worktree and lease removed" 0
                 else stage_failed "disposable worktree cleanup requires recovery" 0 "targeted cleanup did not complete" in
  let worktree := if is_some run_id then stage_passed "detached owned worktree prepared" 0
                  else stage_failed "disposable worktree setup failed" 0 (default "unknown setup failure" (head errors)) in
  ProposalStore.transition store (r_proposal_id record) (if passed then Verified else VerificationFailed)
    (if passed then "worktree apply, reparse, offline build, diff, cleanup, and source guard passed"
     else "proposal verification failed closed") ;;?
  record_policy store (r_proposal_id record) (sh_decisions shared) ;;?
  verified_at <- (if passed then now <- ProposalStore.unix_millis ;; Ret (Some now) else Ret None) ;;
  record_verification store (r_proposal_id record) {|
    cv_schema_version := CHAT_EDIT_REPORT_SCHEMA_VERSION;
    cv_request_id := o_request_id options;
    cv_proposal_id := r_proposal_id record;
    cv_base_head := p_base_head (r_plan record);
    cv_working_tree_digest := p_working_tree_digest (r_plan record);
    cv_worktree_run_id := run_id;
    cv_success := passed;
    cv_source_unchanged := source_unchanged;
    cv_lease_recovery_required := negb cleanup_success;
    cv_worktree := worktree;
    cv_apply := vp_apply progress;
    cv_reparse := vp_reparse progress;
    cv_build := vp_build progress;
    cv_tests := vp_tests progress;
    cv_diff := vp_diff progress;
    cv_cleanup := cleanup;
    cv_processes := vp_processes progress;
    cv_policy := sh_decisions shared;
    cv_verified_at_unix_ms := verified_at;
    cv_warnings := [];
    cv_errors := errors |} (if passed then vp_verified_diff progress else None).
(** ** The steps in the worktree *)

Context (proposal_id : string) (record : ProposalRecord) (observed : ObservedRepository).

Abbreviation files := (r_files record).
Definition session : PolicySession := {| ps_engine := policy; ps_options := options; ps_observed := observed |}.

Definition authorized (action : PolicyAction) (active : option DisposableWorktreeContext) (stage_name : string)
    : stage Shared unit := fun s =>
  bind (authorize session WorktreeEdit action active None stage_name (sh_decisions s))
    (fun p => Ret (set_decisions p.1 s, p.2)).

Definition advance_to (next : ProposalState) (reason : string) : stage Shared unit :=
  stage_io (ProposalStore.transition store proposal_id next reason ;;? Ret (Ok tt)).

Definition write_action (context : DisposableWorktreeContext) (file : ProposalFileSnapshot) : IO (res PolicyAction) :=
  let target expected := {| pt_root := cx_worktree_root context; pt_path := f_path file; pt_range := None;
                            pt_expected_hash := expected |} in
  match f_status file with
  | EditPlan.Modified =>
      expected <-? worktree_expected_hash (cx_worktree_root context) file ;;
      Ret (Ok (WriteFile (target expected)))
  | Created => Ret (Ok (CreateFile (target None)))
  end.

Definition authorize_write (context : DisposableWorktreeContext) (file : ProposalFileSnapshot) : stage Shared unit :=
  action <-! stage_io (write_action context file) ;;
  authorized action (Some context) "worktree_write".

Definition worktree_request (root contract transaction_id : string) (mutations : list FileMutation)
    : ApplyTransactionRequest := {|
  req_workspace := root; req_patch := contract; req_mutations := mutations; req_git_policy := RequireClean;
  req_copied_from := Some (or_root observed); requested_id := Some transaction_id |}.

Definition apply_report (apply : ApplyTransactionResult) : EditStageReport :=
  if committed apply
  then stage_passed ("APPLY-001 committed " ++ dec (list_len (modified_files apply)) ++ " file(s)") (r_duration_ms apply)
  else {| es_status := StageFailed; es_duration_ms := r_duration_ms apply;
          es_summary := "APPLY-001 did not commit the worktree proposal"; es_errors := r_errors apply |}.

(** The transaction that applies the proposal to the worktree. *)
Definition apply_step (contract transaction_id : string) (context : DisposableWorktreeContext) : stage Shared unit :=
  let root := cx_worktree_root context in
  let '(existing, created) := proposal_paths files in
  authorized (ApplyPatch {| ap_root := root; ap_paths := existing; ap_created_paths := created;
                            ap_diff_hash := content_hash contract; ap_files_hash := proposal_files_hash files;
                            ap_transaction_id := transaction_id; ap_base_head := p_base_head (r_plan record) |})
    (Some context) "worktree_apply" ;;!
  mutations <-! stage_io (worktree_mutations root files) ;;
  apply <-! stage_io (execute_apply_transaction (worktree_request root contract transaction_id mutations)) ;;
  update_progress (set_apply (apply_report apply)) ;;!
  if negb (committed apply) then stage_ret (bail "transactional worktree apply failed") else
  advance_to WorktreeApplied "validated snapshots applied transactionally in disposable worktree" ;;!
  stage_io (verify_snapshots_at root files true).

Definition reparse_step (context : DisposableWorktreeContext) : stage Shared unit :=
  reparse <-! stage_io (r <- reparse_java_files (cx_worktree_root context) files ;; Ret (Ok r)) ;;
  update_progress (set_reparse reparse) ;;!
  stage_ret (if status_is Passed reparse then Ok tt else bail "Tree-sitter rejected the proposed Java source").

Definition elapsed_ms (started now : N) : N := to_u64_or_max ((now - started) / 1000000).

(** The statistics and the report of a captured diff. *)
Definition diff_report (diff : VerifiedDiff) (duration : N) : EditStageReport :=
  let s := vd_statistics diff in
  stage_passed ("verified " ++ dec (ds_files s) ++ " file(s), +" ++ dec (ds_additions s) ++ " -"
                ++ dec (ds_deletions s) ++ ", " ++ dec (ds_hunks s) ++ " hunk(s)") duration.

Definition diff_step (context : DisposableWorktreeContext) : stage Shared unit :=
  let root := cx_worktree_root context in
  let '(existing, created) := proposal_paths files in
  authorized (GitRead {| gr_repository_root := root; gr_operation := GitDiff;
                         gr_paths := sort_by path_cmp (existing ++ created)%list |}) (Some context) "worktree_diff" ;;!
  started <-! stage_io (now <- sys InstantNow ;; Ret (Ok now)) ;;
  diff <-! stage_io (capture_verified_diff root files (o_git_timeout options) cancellation) ;;
  stage_ret (enforce_actual_diff_limits record diff) ;;!
  now <-! stage_io (now <- sys InstantNow ;; Ret (Ok now)) ;;
  update_progress (set_diff (diff_report diff (elapsed_ms started now)) diff).

Definition build_passed (b : OfflineBuildResult) : bool :=
  status_is Passed (br_build b)
  && negb (status_is StageFailed (br_tests b) || status_is EditRuntime.Cancelled (br_tests b)).

Definition build_step (context : DisposableWorktreeContext) : stage Shared unit :=
  let project := cx_worktree_project context in
  let validations := p_validations (r_plan record) in
  advance_to BuildRunning "offline allowlisted build started in disposable worktree" ;;!
  invocation <-! stage_io (discover_offline_build project validations) ;;
  authorized (RunProcess (policy_action invocation project options)) (Some context) "offline_build" ;;!
  build <-! stage_io (run_offline_build project invocation validations options cancellation) ;;
  update_progress (set_build build) ;;!
  stage_io (verify_snapshots_at (cx_worktree_root context) files true) ;;!
  stage_ret (if build_passed build then Ok tt else bail "offline build or required tests failed").

(** The three closures of the run. *)
Definition before_create (intent : DisposableWorktreeIntent) : stage Shared unit :=
  authorized (CreateWorktree {| cw_repository_root := or_root observed; cw_destination := in_destination intent;
                                cw_base_head := in_base_head intent; cw_run_id := in_run_id intent;
                                cw_detached := true |}) None "worktree_create".

Definition operation (contract transaction_id : string) (context : DisposableWorktreeContext) : stage Shared unit :=
  advance_to WorktreePrepared ("disposable worktree " ++ cx_run_id context ++ " prepared") ;;!
  stage_io (verify_worktree_base_at (cx_worktree_root context) files) ;;!
  stage_each (authorize_write context) files ;;!
  apply_step contract transaction_id context ;;!
  reparse_step context ;;!
  diff_step context ;;!
  build_step context.

Definition before_cleanup (context : DisposableWorktreeContext) : stage Shared unit :=
  authorized (CleanupWorktree {| cl_repository_root := or_root observed; cl_worktree_root := cx_worktree_root context;
                                 cl_run_id := cx_run_id context |}) (Some context) "worktree_cleanup".

Definition worktree_options : WorktreeVerificationOptions := {|
  wo_build_timeout := o_build_timeout options;
  wo_git_timeout := o_git_timeout options;
  wo_output_limit_bytes := o_output_limit_bytes options |}.

Definition verify_in_worktree : IO (res ProposalRecord) :=
  contract <-? Ret (proposal_contract_bytes record) ;;
  transaction_id <-? new_edit_id "worktree" ;;
  owner <-? Ret (WorktreeOwner_new (o_workspace_id options) (o_request_id options)) ;;
  let! (shared, run) := run_in_disposable_worktree worktree_options cancellation before_create
                          (operation contract transaction_id) before_cleanup (or_root observed) owner initial_shared in
  match run with
  | Ok run =>
      finish_verification record shared (Some (cx_run_id (rn_context run))) (rn_operation_error run)
        (wc_success (rn_cleanup run)) (rn_source_unchanged run) (rn_errors run)
  | Err e => finish_verification record shared None (Some (alternate e)) false false []
  end.
End Verify.

Section VerifyProposal.
Context `{Blake3, IntentSerde, StoreSerde, TransactionSerde, LeaseSerde, AuditSerde, ApprovalSerde, EngineSerde}.
Context `{WorktreeLeaseSerde, SecondsDisplay, StringDebug, StateJson, GitStateSerde, ContractSerde, JavaSyntax}.

Definition verify_edit_proposal (store : ProposalStore) (proposal_id : string) (policy : PolicyEngine)
    (options : EditRuntimeOptions) (cancellation : string) : IO (res ProposalRecord) :=
  now <- ProposalStore.unix_millis ;;
  record <-? expire_if_needed store proposal_id now ;;
  validate_verification_preconditions record options ;;?
  observed <-? observe_repository options cancellation ;;
  if drifted record observed
  then Ret (bail "workspace HEAD, digest, cleanliness, or identity drifted after plan validation") else
  verify_in_worktree store policy options cancellation proposal_id record observed.
End VerifyProposal.
