(* ===== verification/EditApply.v ===== *)
(** * Applying and rolling back a verified proposal (opticcode-edit: apply.rs, rollback.rs)

    A verified proposal is applied to the original workspace under a one-shot
    approval, as one transaction, and checked afterwards; an applied one is
    rolled back, under another approval. *)

From stdpp Require Import base list strings.
From Stdlib Require Import NArith Ascii String Lia.
From S2P Require Import Transaction TransactionRun.
From S2P Require Import Prelude Bytes UnixPath IO Model Paths AuditLog Approval Rules Worktree Engine.
From S2P Require Import Anyhow Text GitState ProcessRunner DisposableWorktree EditPlan EditIntent EditRuntime ProposalStore.
From S2P Require Import PolicyAdapter EditTransaction EditDiff OfflineBuild EditVerification.

Local Open Scope string_scope.
Local Open Scope N_scope.

(** [unit] in place of the record an update of the store returns. *)
Definition ignore {A} (m : IO (res A)) : IO (res unit) := m ;;? Ret (Ok tt).

(** [verify_snapshots_at(..).is_ok()] *)
Definition is_ok_io {A} (m : IO (res A)) : IO bool := r <- m ;; Ret (is_ok r).

Section Reports.
Context (options : EditRuntimeOptions) (proposal_id transaction_id approval_id : string).

(** The report of an application that did not reach its postconditions. *)
Definition apply_report_failed (post_reparse post_build : EditStageReport) (attempted : bool) (restored : option bool)
    (policy : list PolicyDecisionRecord) (errors : list string) : ChatEditApplyReport := {|
  ca_schema_version := CHAT_EDIT_REPORT_SCHEMA_VERSION;
  ca_request_id := o_request_id options;
  ca_proposal_id := proposal_id;
  ca_transaction_id := transaction_id;
  ca_success := false;
  ca_approval_id := approval_id;
  ca_approval_consumed := true;
  ca_post_reparse := post_reparse;
  ca_post_build := post_build;
  ca_rollback_attempted := attempted;
  ca_rollback_success := restored;
  ca_policy := policy;
  ca_applied_at_unix_ms := None;
  ca_errors := errors |}.

Definition apply_report_succeeded (post_reparse post_build : EditStageReport) (applied_at : N)
    (policy : list PolicyDecisionRecord) : ChatEditApplyReport := {|
  ca_schema_version := CHAT_EDIT_REPORT_SCHEMA_VERSION;
  ca_request_id := o_request_id options;
  ca_proposal_id := proposal_id;
  ca_transaction_id := transaction_id;
  ca_success := true;
  ca_approval_id := approval_id;
  ca_approval_consumed := true;
  ca_post_reparse := post_reparse;
  ca_post_build := post_build;
  ca_rollback_attempted := false;
  ca_rollback_success := None;
  ca_policy := policy;
  ca_applied_at_unix_ms := Some applied_at;
  ca_errors := [] |}.
End Reports.

Definition reparse_not_run : EditStageReport := not_run "post-apply Tree-sitter reparse did not run".
Definition build_not_run : EditStageReport := not_run "post-apply validation did not run".

Definition build_binding (record : ProposalRecord) (exact_diff : bool) : EditStageReport :=
  if is_some_and (fun v => status_is Passed (cv_build v)) (r_verification record) && exact_diff
  then stage_passed "exact verified snapshots retain the successful offline worktree build result" 0
  else stage_failed "post-apply build binding failed" 0
         "the verified offline build or exact post-apply diff is unavailable".

Definition validate_apply_preconditions (record : ProposalRecord) (options : EditRuntimeOptions) : IO (res unit) :=
  let refused := Ret (bail "proposal is not a current, successful, cleanup-complete verification") in
  if negb (bool_decide (r_state record = Verified)) || negb (r_workspace_id record =? o_workspace_id options)%string
  then refused else
  now <- ProposalStore.unix_millis ;;
  if expired record now
     || negb (is_some_and (fun v => cv_success v && negb (cv_lease_recovery_required v)) (r_verification record))
  then refused else Ret (Ok tt).

Section Apply.
Context `{Blake3, IntentSerde, StoreSerde, TransactionSerde, LeaseSerde, AuditSerde, ApprovalSerde, EngineSerde}.
Context `{SecondsDisplay, StringDebug, StateJson, GitStateSerde, JavaSyntax}.
Context (store : ProposalStore) (proposal_id : string) (policy : PolicyEngine) (options : EditRuntimeOptions).

Definition move_to (next : ProposalState) (reason : string) : IO (res unit) :=
  ignore (ProposalStore.transition store proposal_id next reason).

(** The decisions are recorded, then the report. *)
Definition record_outcome (decisions : list PolicyDecisionRecord) (report : ChatEditApplyReport) : IO (res ProposalRecord) :=
  ignore (record_policy store proposal_id decisions) ;;?
  record_apply store proposal_id report.

Definition finish_failed_apply (decisions : list PolicyDecisionRecord) (report : ChatEditApplyReport) (restored : bool)
    : IO (res ProposalRecord) :=
  move_to (if restored then Verified else EditPlan.Failed) "transactional apply failed closed" ;;?
  ignore (record_outcome decisions report) ;;?
  load store proposal_id.

Definition session_of (observed : ObservedRepository) : PolicySession :=
  {| ps_engine := policy; ps_options := options; ps_observed := observed |}.

Definition approval_request (observed : ObservedRepository) (action : PolicyAction) (stage_name : string) : PolicyRequest :=
  session_request (session_of observed) ApprovedApply action None None stage_name 0.

(** The policy must ask for an approval. *)
Definition require_approval (request : PolicyRequest) (stage_name failed refused : string)
    : IO (res (list PolicyDecisionRecord)) :=
  preflight <-? io_map_err (fun e => with_context failed (of_policy e)) (check policy request) ;;
  let report := pf_report preflight in
  Ret (if is_require_approval (rep_decision report) then Ok [policy_record stage_name report]
       else bail (refused ++ decision_rule_id (rep_decision report))).

(** The second check consumes the grant. *)
Definition consume_grant (observed : ObservedRepository) (action : PolicyAction) (grant : ApprovalGrant)
    (stage_name : string) (decisions : list PolicyDecisionRecord) : IO (list PolicyDecisionRecord * res unit) :=
  authorize (session_of observed) ApprovedApply action None (Some (ag_approval_id grant)) stage_name decisions.

(** ** Applying *)

Definition apply_action (record : ProposalRecord) (observed : ObservedRepository) (diff : VerifiedDiff)
    (transaction_id : string) : PolicyAction :=
  let '(existing, created) := proposal_paths (r_files record) in
  ApplyPatch {| ap_root := or_root observed; ap_paths := existing; ap_created_paths := created;
                ap_diff_hash := vd_patch_hash diff; ap_files_hash := proposal_files_hash (r_files record);
                ap_transaction_id := transaction_id; ap_base_head := p_base_head (r_plan record) |}.

Definition apply_request (record : ProposalRecord) (observed : ObservedRepository) (diff : VerifiedDiff)
    (transaction_id : string) : ApplyTransactionRequest := {|
  req_workspace := or_root observed; req_patch := vd_patch diff;
  req_mutations := proposal_mutations (r_files record);
  req_git_policy := RequireClean; req_copied_from := None; requested_id := Some transaction_id |}.

(** The grant is issued, and the proposal is being applied. *)
Definition issue_apply_grant (request : PolicyRequest) (confirmation : NativeConfirmation) (transaction_id : string)
    : IO (res ApprovalGrant) :=
  move_to ApprovalPending "native confirmation received; issuing state-bound one-shot approval" ;;?
  issued <- issue_approval policy request confirmation DEFAULT_APPROVAL_TTL_SECONDS ;;
  match issued with
  | Ok grant =>
      move_to Applying ("applying with transaction " ++ transaction_id) ;;?
      Ret (Ok grant)
  | Err e =>
      move_to Verified "approval issuance failed before any workspace mutation" ;;?
      Ret (Err (with_context "failed to issue one-shot apply approval" (of_policy e)))
  end.

(** Whether the diff after the application is the verified one. *)
Definition post_diff (record : ProposalRecord) (observed : ObservedRepository) (diff : VerifiedDiff) (cancellation : string)
    : IO (bool * list string) :=
  captured <- capture_verified_diff (or_root observed) (r_files record) (o_git_timeout options) cancellation ;;
  Ret (match captured with
       | Ok actual => if bool_decide (actual = diff) then (true, [])
                      else (false, ["post-apply Git diff differs from the verified diff"])
       | Err e => (false, ["post-apply Git verification failed: " ++ alternate e])
       end).

(** The automatic rollback after failed postconditions: whether it restored
    the files, and the errors to report. *)
Definition roll_back_application (record : ProposalRecord) (observed : ObservedRepository) (transaction_id : string)
    : IO (res (bool * list string)) :=
  rollback <- rollback_apply_transaction (or_root observed) transaction_id ;;
  match rollback with
  | Ok rollback =>
      let restored := rolled_back rollback in
      base <- (if restored then is_ok_io (verify_snapshots_at (or_root observed) (r_files record) false) else Ret false) ;;
      (if base : bool
       then move_to Verified "post-apply validation failed and automatic rollback restored the base"
       else move_to EditPlan.Failed "post-apply validation and automatic rollback failed") ;;?
      Ret (Ok (restored, r_errors rollback))
  | Err e =>
      move_to EditPlan.Failed "post-apply validation failed and rollback could not complete" ;;?
      Ret (Ok (false, ["automatic rollback failed: " ++ alternate e]))
  end.

(** What follows a committed transaction. *)
Definition finish_committed_apply (record : ProposalRecord) (observed : ObservedRepository) (diff : VerifiedDiff)
    (transaction_id approval_id committed_id : string) (decisions : list PolicyDecisionRecord) (cancellation : string)
    : IO (res ProposalRecord) :=
  reparse <- reparse_java_files (or_root observed) (r_files record) ;;
  let! (exact_diff, errors) := post_diff record observed diff cancellation in
  let build := build_binding record exact_diff in
  if status_is Passed reparse && status_is Passed build && exact_diff then
    applied_at <- ProposalStore.unix_millis ;;
    move_to Applied ("transaction " ++ transaction_id ++ " committed and passed postconditions") ;;?
    move_to RollbackAvailable ("transaction " ++ transaction_id ++ " is available for exact rollback") ;;?
    record_outcome decisions (apply_report_succeeded options proposal_id transaction_id approval_id reparse build applied_at decisions)
  else
    let!? (restored, rollback_errors) := roll_back_application record observed committed_id in
    record_outcome decisions (apply_report_failed options proposal_id transaction_id approval_id reparse build true
      (Some restored) decisions (errors ++ rollback_errors)%list).

(** The transaction, once its grant is consumed. *)
Definition run_apply (record : ProposalRecord) (observed : ObservedRepository) (diff : VerifiedDiff)
    (transaction_id approval_id : string) (decisions : list PolicyDecisionRecord) (cancellation : string)
    : IO (res ProposalRecord) :=
  let failed attempted restored errors :=
    unchanged <- is_ok_io (verify_snapshots_at (or_root observed) (r_files record) false) ;;
    finish_failed_apply decisions
      (apply_report_failed options proposal_id transaction_id approval_id reparse_not_run build_not_run attempted restored
         decisions errors) unchanged in
  transaction <- execute_apply_transaction (apply_request record observed diff transaction_id) ;;
  match transaction with
  | Ok transaction =>
      if committed transaction
      then finish_committed_apply record observed diff transaction_id approval_id (r_transaction_id transaction) decisions cancellation
      else failed (rollback_attempted transaction) (rollback_success transaction) (r_errors transaction)
  | Err e => failed false None ["APPLY-001 failed: " ++ alternate e]
  end.

(** What is established of a proposal and its workspace before an approval
    is asked for. *)
Definition check_apply (cancellation : string) : IO (res (ProposalRecord * ObservedRepository * VerifiedDiff)) :=
  now <- ProposalStore.unix_millis ;;
  record <-? expire_if_needed store proposal_id now ;;
  validate_apply_preconditions record options ;;?
  observed <-? observe_repository options cancellation ;;
  if drifted record observed
  then Ret (bail "workspace drifted after verification; re-verify before applying") else
  verify_snapshots_at (or_root observed) (r_files record) false ;;?
  diff <-? Ret (match r_verified_diff record with
                | Some diff => Ok diff
                | None => bail "verified proposal has no stored diff"
                end) ;;
  Ret (if (content_hash (vd_patch diff) =? vd_patch_hash diff)%string then Ok (record, observed, diff)
       else bail "stored verified diff failed its integrity check").

Definition apply_verified_proposal_with_transaction_id (confirmation : NativeConfirmation) (cancellation transaction_id : string)
    : IO (res ProposalRecord) :=
  let!? (record, observed, diff) := check_apply cancellation in
  let action := apply_action record observed diff transaction_id in
  let request := approval_request observed action "apply_approval" in
  decisions <-? require_approval request "apply_approval" "failed to evaluate original apply approval"
                  "original apply did not produce the required approval decision: " ;;
  grant <-? issue_apply_grant request confirmation transaction_id ;;
  let! (decisions, consumed) := consume_grant observed action grant "apply_consume" decisions in
  match consumed with
  | Err e =>
      move_to Verified "one-shot approval was not consumed; original workspace remained unchanged" ;;?
      ignore (record_policy store proposal_id decisions) ;;?
      Ret (Err e)
  | Ok _ => run_apply record observed diff transaction_id (ag_approval_id grant) decisions cancellation
  end.

Definition apply_verified_proposal (confirmation : NativeConfirmation) (cancellation : string) : IO (res ProposalRecord) :=
  transaction_id <-? new_edit_id "apply" ;;
  apply_verified_proposal_with_transaction_id confirmation cancellation transaction_id.

(** ** Rolling back *)

(** What is established before the approval of a rollback. *)
Definition check_rollback (record : ProposalRecord) (cancellation : string)
    : IO (res (ChatEditApplyReport * ObservedRepository * VerifiedDiff)) :=
  if negb (bool_decide (r_state record = RollbackAvailable) || bool_decide (r_state record = Applied))
     || negb (r_workspace_id record =? o_workspace_id options)%string
  then Ret (bail "proposal does not expose a rollbackable transaction in this workspace") else
  apply <-? Ret (match r_apply record with
                 | Some report => if ca_success report then Ok report else bail "proposal has no successful apply report"
                 | None => bail "proposal has no successful apply report"
                 end) ;;
  diff <-? Ret (match r_verified_diff record with
                | Some diff => Ok diff
                | None => bail "proposal has no verified diff for rollback binding"
                end) ;;
  observed <-? observe_repository options cancellation ;;
  if negb (grb_head (or_boundary observed) =? p_base_head (r_plan record))%string
     || negb (or_root_hash observed =? r_workspace_root_hash record)%string
  then Ret (bail "workspace identity or HEAD changed after the applied transaction") else
  verify_snapshots_at (or_root observed) (r_files record) true ;;?
  current <-? capture_verified_diff (or_root observed) (r_files record) (o_git_timeout options) cancellation ;;
  Ret (if bool_decide (current = diff) then Ok (apply, observed, diff)
       else bail "workspace no longer matches the exact applied transaction diff").

Definition rollback_action (observed : ObservedRepository) (diff : VerifiedDiff) (transaction_id : string) : PolicyAction :=
  RollbackTransaction {| ta_workspace_root := or_root observed; ta_transaction_id := transaction_id;
                         ta_expected_state_hash := vd_patch_hash diff |}.

Definition rollback_report (transaction_id approval_id : string) (reparse : EditStageReport)
    (policy : list PolicyDecisionRecord) (rolled_back_at : option N) (errors : list string) : ChatEditRollbackReport := {|
  cr_schema_version := CHAT_EDIT_REPORT_SCHEMA_VERSION;
  cr_request_id := o_request_id options;
  cr_proposal_id := proposal_id;
  cr_transaction_id := transaction_id;
  cr_success := is_some rolled_back_at;
  cr_already_rolled_back := false;
  cr_approval_id := approval_id;
  cr_approval_consumed := true;
  cr_reparse := reparse;
  cr_policy := policy;
  cr_rolled_back_at_unix_ms := rolled_back_at;
  cr_errors := errors |}.

Definition rollback_reparse_not_run : EditStageReport := not_run "post-rollback Tree-sitter reparse did not run".

(** The workspace is again as the proposal found it. *)
Definition restored_exactly (record : ProposalRecord) (reparse : EditStageReport) (after : ObservedRepository) : bool :=
  status_is Passed reparse && or_clean after
  && (grb_head (or_boundary after) =? p_base_head (r_plan record))%string
  && (or_working_tree_digest after =? p_working_tree_digest (r_plan record))%string.

(** What follows a transaction that was rolled back: the syntax check, when
    the workspace was restored, and the errors. *)
Definition check_restored (record : ProposalRecord) (observed : ObservedRepository) (transaction_id cancellation : string)
    : IO (res (EditStageReport * option N * list string)) :=
  verify_snapshots_at (or_root observed) (r_files record) false ;;?
  reparse <- reparse_java_files (or_root observed) (r_files record) ;;
  after <-? observe_repository options cancellation ;;
  if restored_exactly record reparse after then
    now <- ProposalStore.unix_millis ;;
    move_to RolledBack ("transaction " ++ transaction_id ++ " rolled back exactly") ;;?
    Ret (Ok (reparse, Some now, []))
  else
    move_to EditPlan.Failed "transaction rolled back but postconditions failed" ;;?
    Ret (Ok (reparse, None, ["rollback completed but source postconditions did not match the base proposal"])).

Definition run_rollback (record : ProposalRecord) (observed : ObservedRepository) (transaction_id cancellation : string)
    : IO (res (EditStageReport * option N * list string)) :=
  rollback <- rollback_apply_transaction (or_root observed) transaction_id ;;
  match rollback with
  | Ok result =>
      if rolled_back result then check_restored record observed transaction_id cancellation else
      move_to RollbackAvailable "transaction rollback failed and remains recoverable" ;;?
      Ret (Ok (rollback_reparse_not_run, None, r_errors result))
  | Err e =>
      move_to RollbackAvailable "transaction rollback could not start and remains recoverable" ;;?
      Ret (Ok (rollback_reparse_not_run, None, ["APPLY-001 rollback failed: " ++ alternate e]))
  end.

Definition roll_back_applied (record : ProposalRecord) (confirmation : NativeConfirmation) (cancellation : string)
    : IO (res ProposalRecord) :=
  let!? (apply, observed, diff) := check_rollback record cancellation in
  let transaction_id := ca_transaction_id apply in
  let action := rollback_action observed diff transaction_id in
  let request := approval_request observed action "rollback_approval" in
  decisions <-? require_approval request "rollback_approval" "failed to evaluate rollback approval"
                  "rollback did not produce the required approval decision: " ;;
  grant <-? io_map_err of_policy (issue_approval policy request confirmation DEFAULT_APPROVAL_TTL_SECONDS) ;;
  move_to RollingBack ("rolling back exact transaction " ++ transaction_id) ;;?
  let! (decisions, consumed) := consume_grant observed action grant "rollback_consume" decisions in
  match consumed with
  | Err e =>
      move_to RollbackAvailable "rollback approval was not consumed; workspace remained applied" ;;?
      ignore (record_policy store proposal_id decisions) ;;?
      Ret (Err e)
  | Ok _ =>
      let!? (reparse, rolled_back_at, errors) := run_rollback record observed transaction_id cancellation in
      ignore (record_policy store proposal_id decisions) ;;?
      record_rollback store proposal_id
        (rollback_report transaction_id (ag_approval_id grant) reparse decisions rolled_back_at errors)
  end.

Definition rollback_edit_proposal (confirmation : NativeConfirmation) (cancellation : string) : IO (res ProposalRecord) :=
  record <-? load store proposal_id ;;
  if bool_decide (r_state record = RolledBack) then Ret (Ok record) else
  roll_back_applied record confirmation cancellation.
End Apply.
