(* ===== verification/ChatEdit.v ===== *)
(** * Chat edits (opticcode-core: chat_edit_runtime.rs)

    The commands of the chat that propose, verify, show, apply and roll back
    an edit.  Each runs the operations of the edits crate on a blocking
    thread and tells the editor what happened; an application and a rollback
    start only with the native confirmation of exactly that operation. *)

From stdpp Require Import base list strings.
From Stdlib Require Import NArith ZArith Ascii String Lia.
From S2P Require Import Transaction TransactionRun.
From S2P Require Import Prelude Bytes Model UnixPath IO Paths AuditLog Approval Rules Worktree Engine.
From S2P Require Import Text Anyhow Secrets RagPolicy Reference GitState ProcessRunner DisposableWorktree.
From S2P Require Import EditPlan EditIntent EditRuntime ProposalStore EditGeneration PolicyAdapter EditTransaction EditDiff OfflineBuild EditVerification EditApply.
From S2P Require Import Grounding DocumentFacts Compliance ChatProtocol ChatValidation ChatReferences ChatRuntime.

Local Open Scope string_scope.
Local Open Scope N_scope.

Definition EDIT_POLICY_SUMMARY : string :=
  "Deny by default. Existing allowlisted UTF-8 text modifications and at most one "
  ++ "allowlisted UTF-8 text creation may be verified only in an owned disposable worktree. "
  ++ "No delete, rename, binary, secret, wrapper, network, dependency installation, shell, "
  ++ "symlink, junction, reparse point, or path outside the workspace is permitted. "
  ++ "Original workspace apply and rollback require native confirmation and one-shot Policy approval.".

Definition event_failure (error : anyhow) : RuntimeFailure :=
  new_failure "chat_event_delivery" "event_delivery" (to_string error).
Definition edit_failure (stage summary : string) (error : anyhow) : RuntimeFailure :=
  new_failure "chat_edit_failed" stage (summary ++ ": " ++ alternate error).

(** [option.context(message)] *)
Definition context {A} (message : string) (o : option A) : res A := ok_or (failure message) o.

(** ** Small functions *)

Definition stage_label (status : EditStageStatus) : string :=
  match status with
  | NotRun => "not_run" | Running => "running" | Passed => "passed" | StageFailed => "failed"
  | EditRuntime.Cancelled => "cancelled" | Unavailable => "unavailable"
  end.
Definition stage_name (status : EditStageStatus) : string := stage_label status.

(** The [serde] name of a state *)
Definition state_name (state : ProposalState) : string :=
  match state with
  | Generated => "generated" | Validated => "validated" | WorktreePrepared => "worktree_prepared"
  | WorktreeApplied => "worktree_applied" | BuildRunning => "build_running" | Verified => "verified"
  | VerificationFailed => "verification_failed" | ApprovalPending => "approval_pending" | Applying => "applying"
  | Applied => "applied" | EditPlan.RollbackAvailable => "rollback_available" | RollingBack => "rolling_back"
  | RolledBack => "rolled_back" | Discarded => "discarded" | Expired => "expired" | EditPlan.Failed => "failed"
  end.

Definition edit_intent_selection_mode_name (mode : EditIntentSelectionMode) : string :=
  match mode with
  | ExplicitReferences => "explicit_references" | ResolvedContext => "resolved_context" | Hybrid => "hybrid"
  end.

Definition bounded_identifier (value : string) : option string :=
  if negb (is_empty value) && (strlen value <=? 160)
     && all_bytes (fun c => is_ascii_alphanumeric c || one_of "-_.:" c) value
  then Some value else None.

Definition format_correctable (error : EditPlanError) : bool :=
  existsb (String.eqb (pe_code error)) ["plan.trailing_text"; "plan.invalid_json"].

Definition verification_warning (record : ProposalRecord) : option string :=
  match r_verification record with
  | Some report => if negb (cv_success report)
                   then Some "proposal verification failed closed; apply is unavailable" else None
  | None => None
  end.

(** [+additions / -deletions] *)
Definition line_counts (additions deletions : N) : string := "+" ++ dec additions ++ " / -" ++ dec deletions.

Definition verification_markdown (record : ProposalRecord) : string :=
  match r_verification record with
  | None => "Proposal `" ++ r_proposal_id record ++ "` has no verification report."
  | Some report =>
      if cv_success report then
        let statistics (f : DiffStatistics -> N) := match r_verified_diff record with Some diff => f (vd_statistics diff) | None => 0 end in
        "Proposal `" ++ r_proposal_id record ++ "` is **verified** in an isolated worktree: "
        ++ dec (statistics ds_files) ++ " file(s), " ++ line_counts (statistics ds_additions) (statistics ds_deletions)
        ++ ". The original workspace remained unchanged."
      else
        "Proposal `" ++ r_proposal_id record ++ "` is **verification_failed**. Build: " ++ stage_label (es_status (cv_build report))
        ++ "; cleanup: " ++ stage_label (es_status (cv_cleanup report)) ++ "; the Apply action is unavailable."
  end.

Definition diff_markdown (record : ProposalRecord) : string :=
  match r_verified_diff record with
  | None => "Proposal `" ++ r_proposal_id record ++ "` has no verified diff."
  | Some diff =>
      let s := vd_statistics diff in
      join_with eol
        (("**Verified diff `" ++ r_proposal_id record ++ "`:** " ++ dec (ds_files s) ++ " file(s), "
          ++ line_counts (ds_additions s) (ds_deletions s) ++ ".")
         :: map (fun file => "- `" ++ df_path file ++ "` " ++ line_counts (df_additions file) (df_deletions file)
                             ++ " (" ++ status_debug (df_status file) ++ ")") (vd_files diff))
  end.

Definition ensure_reviewable (record : ProposalRecord) : IO (run unit) :=
  now <- ProposalStore.unix_millis ;;
  Ret (if expired record now
          || match r_state record with Expired | Discarded | EditPlan.Failed => true | _ => false end
          || negb (is_some (r_verified_diff record)) || negb (is_some (r_verification record))
       then fail "proposal_not_reviewable" "diff_review"
              "proposal is expired, discarded, failed, or has no successful verified diff"
       else Ok tt).

Section Outcomes.
Context `{Floats}.

(** [ChatMetrics::default()] *)
Definition no_metrics : ChatMetrics := {|
  me_preparation_ms := 0; me_total_ms := 0; me_estimated_prompt_tokens := 0; me_prompt_tokens := None;
  me_generated_tokens := None; me_generated_tokens_per_second := None; me_timing := None; me_route := "" |}.

Definition edit_outcome_with (mode : option ContextMode) (metrics : ChatMetrics) (warnings : list string) : CommandOutcome := {|
  oc_context_files := [];
  oc_used_context_mode := mode;
  oc_metrics := metrics;
  oc_warnings := warnings;
  oc_route := AutomaticAssistant;
  oc_grounding_response := None;
  oc_evidence := None;
  oc_compliance := None;
  oc_rag_hits := 0 |}.
Definition edit_outcome (mode : option ContextMode) (warnings : list string) : CommandOutcome :=
  edit_outcome_with mode no_metrics warnings.

Definition outcome_from_generation (mode : ContextMode) (generation : GenerationResult) (record : ProposalRecord) : CommandOutcome :=
  let generation_ms := default 0 (gt_generation_ms generation) in
  edit_outcome_with (Some mode) {|
      me_preparation_ms := 0;
      me_total_ms := gt_client_ms generation;
      me_estimated_prompt_tokens := (gt_prompt_chars generation + 3) / 4;
      me_prompt_tokens := gt_prompt_tokens generation;
      me_generated_tokens := gt_generated_tokens generation;
      me_generated_tokens_per_second :=
        if 0 <? generation_ms then option_map (fun tokens => f64_per_second tokens generation_ms) (gt_generated_tokens generation)
        else None;
      me_timing := None;
      me_route := GroundingRoute_as_str AutomaticAssistant |}
    (option_list (verification_warning record)).
End Outcomes.

(** ** Blocking operations *)

(** The panic of a [spawn_blocking] task, as its [JoinError]. *)
Fixpoint catch_panic {A} (m : IO A) : IO (result A string) :=
  match m with
  | Ret a => Ret (Ok a)
  | Panic message => Ret (Err message)
  | Sys c k => Sys c (fun r => catch_panic (k r))
  end.

(** How a [JoinError] is displayed, and the JSON of the references *)
Class JoinErrors := join_error_display : string -> string.
Class ReferencesJson := references_to_string : list ChatReference -> result string string.

(** The token of the tools, which a monitor task sets after the request's. *)
Definition tool_cancellation : string := "tool_cancellation".

Section Blocking.
Context `{Floats, Delivery, JoinErrors}.

Definition run_blocking_edit {A} (stage : string) (operation : string -> IO (res A)) : chat A := chat_io (
  finished <- catch_panic (operation tool_cancellation) ;;
  Ret match finished with
      | Ok (Ok value) => Ok value
      | Ok (Err error) => Err (edit_failure stage "bounded edit operation failed" error)
      | Err panic => fail "edit_worker_failed" stage ("bounded edit worker could not complete: " ++ join_error_display panic)
      end).

(** [emitter.send(payload).await.map_err(event_failure)], with the failure
    of this file *)
Definition tell (payload : ChatProtocolEventPayload) : chat unit := fun em =>
  p <- emit payload em ;; Ret (p.1, map_err event_failure p.2).

Fixpoint tell_each {A} (payload : A -> ChatProtocolEventPayload) (l : list A) : chat unit :=
  match l with
  | [] => chat_ret (Ok tt)
  | x :: l' => tell (payload x) ;;: tell_each payload l'
  end.

(** [m.map_err(|error| edit_failure(stage, summary, error))] *)
Definition edit_io {A} (stage summary : string) (m : IO (res A)) : chat A := chat_io (io_map_err (edit_failure stage summary) m).
Definition edit_ret {A} (stage summary : string) (r : res A) : chat A := chat_ret (map_err (edit_failure stage summary) r).
End Blocking.

(** ** Events about a proposal *)

Section Events.
Context `{Floats, Delivery, Blake3}.

Definition policy_event (proposal_id : option string) (policy : PolicyDecisionRecord) : ChatProtocolEventPayload :=
  PolicyDecisionMade proposal_id (d_stage policy) (d_action_kind policy) (d_decision policy) (d_rule_id policy)
    (d_audit_event_id policy).
Definition emit_policy (proposal_id : option string) (policy : PolicyDecisionRecord) : chat unit :=
  tell (policy_event proposal_id policy).
Definition emit_policy_records (record : ProposalRecord) (offset : nat) : chat unit :=
  tell_each (policy_event (Some (r_proposal_id record))) (drop offset (r_policy record)).

Definition review_file (diff : VerifiedDiff) (file : ProposalFileSnapshot) : res ChatEditReviewFile :=
  stats <- context ("verified diff has no statistics for " ++ f_path file)
             (find (fun candidate => (df_path candidate =? f_path file)%string) (vd_files diff)) ;?
  Ok {| rv_path := f_path file;
        rv_status := match f_status file with EditPlan.Modified => "modified" | Created => "created" end;
        rv_line_ending := line_ending_as_str (f_line_ending file);
        rv_base_content := f_base_content file;
        rv_base_hash := f_base_hash file;
        rv_proposed_content := f_proposed_content file;
        rv_proposed_hash := f_proposed_hash file;
        rv_proposed_bytes := f_proposed_bytes file;
        rv_additions := df_additions stats;
        rv_deletions := df_deletions stats;
        rv_hunks := df_hunks stats |}.

Fixpoint review_files (diff : VerifiedDiff) (files : list ProposalFileSnapshot) : res (list ChatEditReviewFile) :=
  match files with
  | [] => Ok []
  | file :: files' =>
      change <- review_file diff file ;?
      changes <- review_files diff files' ;?
      Ok (change :: changes)
  end.

Definition emit_diff (record : ProposalRecord) : chat unit :=
  diff <-: edit_ret "diff_review" "verified diff is unavailable" (context "proposal has no verified diff" (r_verified_diff record)) ;;
  changes <-: edit_ret "diff_review" "verified diff statistics are incomplete" (review_files diff (r_files record)) ;;
  let s := vd_statistics diff in
  tell (DiffReady (r_proposal_id record) (ds_files s) (ds_additions s) (ds_deletions s) (vd_display_patch diff)
          (vd_display_truncated diff) changes).

(** What a confirmation of an operation is bound to: the transaction of a
    rollback, the verified patch of an application. *)
Definition confirmation_binding (record : ProposalRecord) (operation : string) : res string :=
  if (operation =? "rollback")%string
  then context "rollback approval has no transaction binding" (option_map ca_transaction_id (r_apply record))
  else context "apply approval has no verified diff binding" (option_map vd_patch_hash (r_verified_diff record)).

Definition approval_request_id (record : ProposalRecord) (operation : string) : IO (res string) :=
  binding <-? lift (confirmation_binding record operation) ;;
  let digest := blake3_hex ("chat-edit-confirmation-v1" ++ nul ++ operation ++ nul ++ r_proposal_id record ++ nul ++ binding) in
  short <- slice_until digest 32 ;;
  Ret (Ok (operation ++ "-confirmation-" ++ short)).

Definition emit_approval_required (record : ProposalRecord) (operation : string) : chat unit :=
  diff <-: edit_ret "approval_precondition" "approval binding is incomplete"
             (context "approval requires a verified diff" (r_verified_diff record)) ;;
  let s := vd_statistics diff in
  let summary :=
    (if (operation =? "rollback")%string then "Rollback" else "Apply") ++ " " ++ dec (ds_files s) ++ " verified file(s), "
    ++ line_counts (ds_additions s) (ds_deletions s) ++ ", HEAD " ++ p_base_head (r_plan record) ++ "; offline build "
    ++ match r_verification record with Some report => stage_label (es_status (cv_build report)) | None => "unavailable" end ++ "." in
  approval_request_id <-: edit_io "approval_precondition" "approval binding could not be created"
                            (approval_request_id record operation) ;;
  tell (ApprovalRequired (r_proposal_id record) approval_request_id operation summary).

Definition emit_verification_stages (record : ProposalRecord) (report : ChatEditVerificationReport) : chat unit :=
  let id := r_proposal_id record in
  let build := es_status (cv_build report) in
  let tests := es_status (cv_tests report) in
  (match cv_worktree_run_id report with
   | Some run_id => tell (WorktreeCreated id run_id)
   | None => chat_ret (Ok tt)
   end) ;;:
  tell (EditAppliedInWorktree id (status_is Passed (cv_apply report))) ;;:
  (if negb (bool_decide (build = NotRun)) then
     tell (BuildStarted id true) ;;:
     tell (BuildCompleted id (bool_decide (build = Passed) && negb (bool_decide (tests = StageFailed)))
             (stage_name build) (stage_name tests))
   else chat_ret (Ok tt)).
End Events.

(** ** The trusted files and the intent *)

Section Intent.
Context `{Blake3, Regex, IntentSerde}.

(** The anchors of the lines, the first of which starts at [start]. *)
Fixpoint line_anchors (start : N) (lines : list string) : list TrustedEditLine :=
  match lines with
  | [] => []
  | line :: lines' =>
      let end_ := saturating_add64 start (strlen line) in
      {| tl_start := start; tl_end := end_; tl_content := line |} :: line_anchors end_ lines'
  end.
Definition trusted_line_anchors (content : string) : list TrustedEditLine := line_anchors 0 (split_inclusive content).

Definition trusted_edit_file (root path : string) : IO (res TrustedEditFile) :=
  file <-? io_map_err (fun e => with_context ("failed to read trusted edit file " ++ path) (failure (safe_reference_error_display e)))
             (read_safe_workspace_file root path MAX_EDIT_FILE_BYTES) ;;
  line_ending <-? lift (map_err (fun error => failure (pe_code error ++ ": " ++ pe_message error))
                          (EditPlan.detect_line_ending (sf_content file))) ;;
  Ret (Ok {|
    tf_path := sf_relative_path file;
    tf_content_hash := EditPlan.content_hash (sf_content file);
    tf_bytes := strlen (sf_content file);
    tf_line_ending := line_ending;
    tf_line_anchors := trusted_line_anchors (sf_content file) |}).

Fixpoint read_trusted_files (root : string) (paths : list string) : IO (res (list TrustedEditFile)) :=
  match paths with
  | [] => Ret (Ok [])
  | path :: paths' =>
      file <-? trusted_edit_file root path ;;
      files <-? read_trusted_files root paths' ;;
      Ret (Ok (file :: files))
  end.

Definition trusted_edit_files (root : string) (references : list ChatResolvedReference) : IO (res (list TrustedEditFile)) :=
  let paths := dedup (sort_by str_cmp (omap rr_path references)) in
  if MAX_EDIT_FILES <? list_len paths
  then Ret (bail ("resolved edit references exceed the " ++ dec MAX_EDIT_FILES ++ " file runtime limit"))
  else read_trusted_files root paths.

(** A sampled file that can be edited, by its path below the root *)
Definition available_path (root path : string) : option string :=
  relative ← strip_prefix path root;
  name ← extension relative;
  ext ← to_str name;
  if existsb (String.eqb (to_ascii_lowercase ext)) ALLOWED_EDIT_EXTENSIONS
  then Some (replace_backslash (to_string_lossy relative)) else None.

Definition available_edit_files `{WalkDir} (root : string) : IO (res (list string)) :=
  report <-? inspect_workspace root ;;
  Ret (Ok (take 2000 (dedup (sort_by str_cmp (omap (available_path root) (wr_sampled_files report)))))).

(** The identities of the references to a file *)
Definition reference_ids_of (references : list ChatResolvedReference) (path : string) : list string :=
  dedup (sort_by str_cmp (map rr_reference_id (List.filter (fun r => bool_decide (rr_path r = Some path)) references))).

Fixpoint intent_targets (references : list ChatResolvedReference) (files : list TrustedEditFile)
    : res (list (EditIntentAllowedExistingTarget * EditIntentTarget)) :=
  match files with
  | [] => Ok []
  | file :: files' =>
      let ids := reference_ids_of references (tf_path file) in
      (match ids with
       | [] => bail ("trusted edit file " ++ tf_path file ++ " has no bound resolved reference identity")
       | _ => Ok tt
       end) ;?
      targets <- intent_targets references files' ;?
      Ok (({| ae_path := tf_path file; ae_content_hash := tf_content_hash file; ae_reference_ids := ids |},
           ExistingFile (tf_path file) (tf_content_hash file) ids UserReference) :: targets)
  end.

Definition runtime_expectations (expected : EditPlanExpectations) (allowed : list EditIntentAllowedExistingTarget)
    : EditIntentExpectations := {|
  ix_request_id := x_request_id expected;
  ix_workspace_id := x_workspace_id expected;
  ix_workspace_root_hash := x_workspace_root_hash expected;
  ix_base_head := x_base_head expected;
  ix_working_tree_digest := x_working_tree_digest expected;
  ix_now_unix_ms := x_now_unix_ms expected;
  ix_limits := x_limits expected;
  ix_allowed_existing_targets := allowed;
  ix_allowed_create_targets := [] |}.

Definition runtime_intent (prompt : string) (expected : EditPlanExpectations) (targets : list EditIntentTarget) (intent_id : string)
    : EditIntent := {|
  i_schema_version := EditIntent.EDIT_INTENT_SCHEMA_VERSION;
  i_intent_id := intent_id;
  i_request_id := x_request_id expected;
  i_workspace_id := x_workspace_id expected;
  i_workspace_root_hash := x_workspace_root_hash expected;
  i_base_head := x_base_head expected;
  i_working_tree_digest := x_working_tree_digest expected;
  i_task := prompt;
  i_selection_mode := ExplicitReferences;
  i_targets := targets;
  i_constraints := modify_only (x_limits expected);
  i_created_at_unix_ms := x_now_unix_ms expected;
  i_expires_at_unix_ms := saturating_add64 (x_now_unix_ms expected) (saturating_mul64 DEFAULT_EDIT_INTENT_TTL_SECONDS 1000) |}.

Definition build_runtime_edit_intent (prompt : string) (expected : EditPlanExpectations) (trusted_files : list TrustedEditFile)
    (references : list ChatResolvedReference) (intent_id : string) : res ValidatedEditIntent :=
  (match trusted_files with
   | [] => bail "edit intent requires at least one resolved, trusted file reference"
   | _ => Ok tt
   end) ;?
  targets <- intent_targets references trusted_files ;?
  map_err (fun error => failure (ie_code error ++ ": " ++ ie_message error))
    (validate_edit_intent (runtime_intent prompt expected (map snd targets) intent_id)
       (runtime_expectations expected (map fst targets))).
End Intent.

(** ** The proposal a command is about *)

Section Resolve.
Context `{Floats, Blake3, IntentSerde, StoreSerde}.

Definition proposal_store (options : ChatRuntimeOptions) (workspace_hash : string) : IO (res ProposalStore) :=
  match co_proposal_state_root options with
  | Some root => ProposalStore_open root workspace_hash
  | None => ProposalStore_default_store workspace_hash
  end.

Definition open_policy `{LeaseSerde, AuditSerde, ApprovalSerde} (state_root : option string) : IO (res PolicyEngine) :=
  io_map_err of_policy (match state_root with Some root => PolicyEngine_open root | None => default_engine end).

(** The fields that the caller sets replace those of the constructor. *)
Definition edit_options (request : ChatRequest) (prepared : PreparedRequest) : EditRuntimeOptions :=
  let o := EditRuntimeOptions_new "" (pp_workspace prepared) (cq_workspace_id request) (cq_request_id request) (cq_profile request) in {|
  o_workspace_root := o_workspace_root o;
  o_workspace_id := o_workspace_id o;
  o_request_id := o_request_id o;
  o_profile := o_profile o;
  o_client_name := cm_name (cq_client request);
  o_client_version := cm_version (cq_client request);
  o_git_timeout := o_git_timeout o;
  o_build_timeout := o_build_timeout o;
  o_output_limit_bytes := o_output_limit_bytes o |}.

Definition diff_target (reference : ChatReference) : option string :=
  match rf_target reference with DiffTarget proposal_id => Some proposal_id | _ => None end.

Definition explicit_proposal (request : ChatRequest) : option string :=
  match cq_edit request ≫= ec_proposal_id with
  | Some id => Some id
  | None => head (omap diff_target (cq_references request))
  end.
Definition explicit_transaction (request : ChatRequest) : option string := cq_edit request ≫= ec_transaction_id.
Definition native_confirmation (request : ChatRequest) : option ChatNativeConfirmation := cq_edit request ≫= ec_native_confirmation.

Definition latest_proposal (store : ProposalStore) : IO (res ProposalRecord) :=
  record <-? latest store ;; Ret (context "no proposal exists in this workspace" record).

Definition requested_proposal (store : ProposalStore) (request : ChatRequest) (transaction_preferred : bool)
    : IO (res ProposalRecord) :=
  match explicit_proposal request, explicit_transaction request, bounded_identifier (trim (cq_prompt request)) with
  | Some proposal_id, _, _ => load store proposal_id
  | None, Some transaction_id, _ =>
      record <-? find_by_transaction_id store transaction_id ;;
      Ret (context "transaction is not known in this workspace" record)
  | None, None, Some identifier =>
      if transaction_preferred then
        found <-? find_by_transaction_id store identifier ;;
        match found with Some record => Ret (Ok record) | None => load store identifier end
      else load store identifier
  | None, None, None => latest_proposal store
  end.

Definition check_proposal (request : ChatRequest) (root_hash : string) (record : ProposalRecord) : run unit :=
  if negb (r_workspace_id record =? cq_workspace_id request)%string || negb (r_workspace_root_hash record =? root_hash)%string
  then fail "proposal_workspace_mismatch" "proposal_resolution" "proposal belongs to another workspace identity" else
  match explicit_transaction request with
  | Some transaction_id =>
      if negb (bool_decide (option_map ca_transaction_id (r_apply record) = Some transaction_id))
      then fail "transaction_proposal_mismatch" "proposal_resolution"
             "transaction ID is not the exact transaction bound to this proposal"
      else Ok tt
  | None => Ok tt
  end.

Definition resolve_proposal (request : ChatRequest) (prepared : PreparedRequest) (options : ChatRuntimeOptions)
    (transaction_preferred : bool) : IO (run (ProposalStore * ProposalRecord)) :=
  root_hash <-? io_map_err (fun e => new_failure "workspace_identity" "proposal_store"
                              ("workspace identity could not be established: " ++ edit_plan_error_display e))
                  (canonical_root_hash (pp_workspace prepared)) ;;
  store <-? io_map_err (edit_failure "proposal_store" "proposal store could not be opened") (proposal_store options root_hash) ;;
  record <-? io_map_err (edit_failure "proposal_resolution" "requested proposal could not be resolved")
               (requested_proposal store request transaction_preferred) ;;
  lift (check_proposal request root_hash record) ;;?
  Ret (Ok (store, record)).

Definition validate_native_confirmation (request : ChatRequest) (confirmation : ChatNativeConfirmation)
    (expected_approval_request_id : string) : run unit :=
  if negb (cm_name (cq_client request) =? "opticcode-vscode")%string
     || negb (ChatProtocol.nc_client confirmation =? cm_name (cq_client request))%string
     || negb (nc_approval_request_id confirmation =? expected_approval_request_id)%string
  then fail "native_confirmation_mismatch" "native_confirmation"
         "confirmation is not bound to this VS Code client, proposal, and operation"
  else Ok tt.
End Resolve.

(** ** The commands *)

Section Commands.
Context `{Floats, Delivery, Blake3, Regex, Unicode, JoinErrors, ReferencesJson, EditPlanSerde, JsonPretty, WalkDir}.
Context `{IntentSerde, StoreSerde, TransactionSerde, LeaseSerde, AuditSerde, ApprovalSerde, EngineSerde}.
Context `{WorktreeLeaseSerde, SecondsDisplay, StringDebug, StateJson, GitStateSerde, ContractSerde, JavaSyntax}.

Definition verify_and_emit (store : ProposalStore) (proposal_id : string) (request : ChatRequest) (prepared : PreparedRequest)
    (options : ChatRuntimeOptions) : chat ProposalRecord :=
  before <-: edit_io "proposal_store" "proposal could not be loaded before verification" (load store proposal_id) ;;
  tell (VerificationStarted proposal_id) ;;:
  verified <-: run_blocking_edit "edit_verification" (fun tool_cancel =>
                 policy <-? open_policy (co_policy_state_root options) ;;
                 verify_edit_proposal store proposal_id policy (edit_options request prepared) tool_cancel) ;;
  emit_policy_records verified (List.length (r_policy before)) ;;:
  report <-: edit_ret "verification_report" "verification report is missing"
               (context "verification completed without a persisted report" (r_verification verified)) ;;
  emit_verification_stages verified report ;;:
  (if is_some (r_verified_diff verified) then emit_diff verified else chat_ret (Ok tt)) ;;:
  tell (VerificationCompleted (r_proposal_id verified) (cv_success report) (stage_name (es_status (cv_build report)))
          (stage_name (es_status (cv_tests report)))) ;;:
  (if cv_success report then emit_approval_required verified "apply" else chat_ret (Ok tt)) ;;:
  emit_text (verification_markdown verified) ;;:
  chat_ret (Ok verified).

Definition run_verify (request : ChatRequest) (prepared : PreparedRequest) (options : ChatRuntimeOptions) : chat CommandOutcome :=
  resolved <-: chat_io (resolve_proposal request prepared options false) ;;
  verified <-: verify_and_emit resolved.1 (r_proposal_id resolved.2) request prepared options ;;
  chat_ret (Ok (edit_outcome None (option_list (verification_warning verified)))).

Definition discard_proposal (store : ProposalStore) (record : ProposalRecord) : chat CommandOutcome :=
  discarded <-: edit_io "proposal_discard" "proposal could not be discarded" (discard store (r_proposal_id record)) ;;
  tell (ProposalDiscarded (r_proposal_id discarded)) ;;:
  emit_text ("Proposal `" ++ r_proposal_id discarded ++ "` was discarded locally.") ;;:
  chat_ret (Ok (edit_outcome None [])).

Definition run_diff (request : ChatRequest) (prepared : PreparedRequest) (options : ChatRuntimeOptions) : chat CommandOutcome :=
  resolved <-: chat_io (resolve_proposal request prepared options false) ;;
  let '(store, record) := resolved in
  if is_some_and ec_discard (cq_edit request) then discard_proposal store record else
  record <-: edit_io "proposal_store" "proposal expiry check failed"
               (now <- ProposalStore.unix_millis ;; expire_if_needed store (r_proposal_id record) now) ;;
  chat_io (ensure_reviewable record) ;;:
  emit_diff record ;;:
  (if bool_decide (r_state record = Verified) then emit_approval_required record "apply" else chat_ret (Ok tt)) ;;:
  emit_text (diff_markdown record) ;;:
  chat_ret (Ok (edit_outcome None [])).

(** The confirmation the edits crate is given, once it is the one that is
    expected. *)
Definition accept_confirmation (request : ChatRequest) (confirmation : ChatNativeConfirmation) (expected summary : string)
    : run NativeConfirmation :=
  validate_native_confirmation request confirmation expected ;?
  map_err (edit_failure "native_confirmation" summary)
    (map_err (fun e => failure (AuditLog.ae_message e))
       (explicit (ChatProtocol.nc_client confirmation) (ChatProtocol.nc_confirmation_id confirmation))).

Definition warn_unless (success : bool) (warning : string) : CommandOutcome := edit_outcome None (if success then [] else [warning]).

(** An application that was confirmed *)
Definition apply_confirmed (store : ProposalStore) (record : ProposalRecord) (native : NativeConfirmation)
    (request : ChatRequest) (prepared : PreparedRequest) (options : ChatRuntimeOptions) : chat CommandOutcome :=
  transaction_id <-: edit_io "apply_transaction" "transaction identity creation failed" (new_edit_id "apply") ;;
  tell (ApplyStarted (r_proposal_id record) transaction_id) ;;:
  applied <-: run_blocking_edit "apply_transaction" (fun tool_cancel =>
                policy <-? open_policy (co_policy_state_root options) ;;
                apply_verified_proposal_with_transaction_id store (r_proposal_id record) policy (edit_options request prepared)
                  native tool_cancel transaction_id) ;;
  emit_policy_records applied (List.length (r_policy record)) ;;:
  report <-: edit_ret "apply_report" "apply report is missing"
               (context "apply completed without a persisted report" (r_apply applied)) ;;
  tell (ApplyCompleted (r_proposal_id applied) (ca_transaction_id report) (ca_success report)) ;;:
  (if ca_success report then tell (ChatProtocol.RollbackAvailable (r_proposal_id applied) (ca_transaction_id report))
   else chat_ret (Ok tt)) ;;:
  emit_text (if ca_success report
             then "The verified transaction was applied to the original workspace. Exact rollback is available."
             else "The original apply failed closed; inspect the persisted report before retrying.") ;;:
  chat_ret (Ok (warn_unless (ca_success report) "transactional apply did not complete")).

Definition run_apply (request : ChatRequest) (prepared : PreparedRequest) (options : ChatRuntimeOptions) : chat CommandOutcome :=
  resolved <-: chat_io (resolve_proposal request prepared options false) ;;
  let '(store, record) := resolved in
  chat_io (ensure_reviewable record) ;;:
  expected <-: edit_io "approval_precondition" "apply approval binding could not be created" (approval_request_id record "apply") ;;
  match native_confirmation request with
  | None =>
      emit_diff record ;;:
      emit_approval_required record "apply" ;;:
      emit_text ("The verified proposal is ready. Use the native **Apply Verified Changes** confirmation; typed Chat consent "
                 ++ "never applies files.") ;;:
      chat_ret (Ok (edit_outcome None []))
  | Some confirmation =>
      native <-: chat_ret (accept_confirmation request confirmation expected "native apply confirmation is invalid") ;;
      apply_confirmed store record native request prepared options
  end.

(** A rollback that was confirmed *)
Definition rollback_confirmed (store : ProposalStore) (record : ProposalRecord) (transaction_id : string)
    (native : NativeConfirmation) (request : ChatRequest) (prepared : PreparedRequest) (options : ChatRuntimeOptions)
    : chat CommandOutcome :=
  tell (RollbackStarted (r_proposal_id record) transaction_id) ;;:
  rolled_back <-: run_blocking_edit "rollback_transaction" (fun tool_cancel =>
                    policy <-? open_policy (co_policy_state_root options) ;;
                    rollback_edit_proposal store (r_proposal_id record) policy (edit_options request prepared) native tool_cancel) ;;
  emit_policy_records rolled_back (List.length (r_policy record)) ;;:
  let success := bool_decide (r_state rolled_back = RolledBack) in
  tell (RollbackCompleted (r_proposal_id rolled_back) transaction_id success (bool_decide (r_state record = RolledBack))) ;;:
  emit_text (if success
             then "The exact OpticCode transaction was rolled back and the base snapshots were restored."
             else "Rollback did not complete; the targeted transaction remains recoverable.") ;;:
  chat_ret (Ok (warn_unless success "transaction rollback did not complete")).

Definition run_rollback (request : ChatRequest) (prepared : PreparedRequest) (options : ChatRuntimeOptions) : chat CommandOutcome :=
  resolved <-: chat_io (resolve_proposal request prepared options true) ;;
  let '(store, record) := resolved in
  transaction_id <-: edit_ret "rollback_precondition" "rollback transaction is unavailable"
                       (context "proposal has no applied transaction" (option_map ca_transaction_id (r_apply record))) ;;
  expected <-: edit_io "approval_precondition" "rollback approval binding could not be created"
                 (approval_request_id record "rollback") ;;
  match native_confirmation request with
  | None =>
      emit_approval_required record "rollback" ;;:
      emit_text ("Exact rollback is ready. Use the native **Rollback Transaction** confirmation; typed Chat consent is "
                 ++ "ignored.") ;;:
      chat_ret (Ok (edit_outcome None []))
  | Some confirmation =>
      native <-: chat_ret (accept_confirmation request confirmation expected "native rollback confirmation is invalid") ;;
      rollback_confirmed store record transaction_id native request prepared options
  end.

(** ** Generating a plan *)

Definition parse_and_validate (output : string) (expected : EditPlanExpectations) : IO (edit ValidatedEditPlan) :=
  plan <-? lift (parse_edit_plan_json output) ;; validate_edit_plan plan expected.

Definition validate_plan_intent_binding (plan : ValidatedEditPlan) (intent : ValidatedEditIntent) : run unit :=
  map_err (fun error => new_failure "edit_plan_intent_mismatch" "edit_intent_validation" (ie_code error ++ ": " ++ ie_message error))
    (validate_edit_plan_against_intent plan intent).

Definition generation_request (request : ChatRequest) (id prompt : string) (schema : Value) (temperature : f32) : StructuredRequest := {|
  sq_request_id := id;
  sq_prompt := prompt;
  sq_output_schema := schema;
  sq_max_output_tokens := gn_max_output_tokens (cq_generation request);
  sq_temperature := Some temperature;
  sq_seed := gn_seed (cq_generation request) |}.

(** The one correction of an output that is not a plan *)
Definition correct_format (app : OpticCode) (request : ChatRequest) (expected : EditPlanExpectations)
    (trusted_files : list TrustedEditFile) (intent : ValidatedEditIntent) (schema : Value) (output : string) (error : EditPlanError)
    : chat (ValidatedEditPlan * GenerationResult * bool) :=
  correction_prompt <-: edit_ret "edit_format_correction" "format correction prompt failed"
    (build_bound_format_correction_prompt output (pe_code error) (pe_message error) expected trusted_files intent) ;;
  correction_id <-: edit_io "edit_format_correction" "correction identity creation failed" (new_edit_id "llm-correction") ;;
  corrected <-: edit_io "edit_format_correction" "single format correction generation failed"
    (io_map_err failure (generate_structured app (generation_request request correction_id correction_prompt schema f32_zero))) ;;
  validated <-: chat_io (io_map_err (fun e => new_failure "edit_plan_invalid" "edit_validation"
                            ("the single allowed correction remained invalid: " ++ pe_code e ++ ": " ++ pe_message e))
                  (parse_and_validate (gt_output corrected) expected)) ;;
  chat_ret (validate_plan_intent_binding validated intent) ;;:
  chat_ret (Ok (validated, corrected, true)).

Definition generate_validated_plan (app : OpticCode) (request : ChatRequest) (expected : EditPlanExpectations)
    (trusted_files : list TrustedEditFile) (intent : ValidatedEditIntent) (prompt : string)
    : chat (ValidatedEditPlan * GenerationResult * bool) :=
  generation_id <-: edit_io "edit_generation" "generation identity creation failed" (new_edit_id "llm") ;;
  schema <-: edit_ret "edit_intent_schema" "intent-bound output schema creation failed"
               (edit_plan_output_schema_for_intent expected trusted_files intent) ;;
  primary <-: chat_io (io_map_err (fun e => retriable (edit_failure "edit_generation" "structured local generation failed" (failure e)) true)
    (generate_structured app (generation_request request generation_id prompt schema
       (default f32_zero (gn_temperature (cq_generation request)))))) ;;
  parsed <-: chat_do (parse_and_validate (gt_output primary) expected) ;;
  match parsed with
  | Ok validated =>
      chat_ret (validate_plan_intent_binding validated intent) ;;:
      chat_ret (Ok (validated, primary, false))
  | Err error =>
      if format_correctable error
      then correct_format app request expected trusted_files intent schema (gt_output primary) error
      else chat_ret (fail "edit_plan_invalid" "edit_validation" (pe_code error ++ ": " ++ pe_message error))
  end.

(** ** Fixing *)

Definition plan_expectations (request : ChatRequest) (observed : EditWorkspaceObservation) (plan_id : string) (now : N)
    : EditPlanExpectations := {|
  x_request_id := cq_request_id request;
  x_plan_id := plan_id;
  x_workspace_id := cq_workspace_id request;
  x_workspace_root := eo_root observed;
  x_workspace_root_hash := eo_root_hash observed;
  x_profile := cq_profile request;
  x_provider := cq_provider request;
  x_model := cq_model request;
  x_base_head := eo_base_head observed;
  x_working_tree_digest := eo_working_tree_digest observed;
  x_now_unix_ms := now;
  x_limits := hard_maxima |}.

Definition intent_ready (intent : ValidatedEditIntent) : ChatProtocolEventPayload :=
  let i := vi_intent intent in
  EditIntentReady (i_intent_id i) (i_schema_version i) (vi_intent_hash intent)
    (edit_intent_selection_mode_name (i_selection_mode i)) (list_len (i_targets i)) (i_expires_at_unix_ms i).

Definition generation_policy (initial : ChatPolicyAuthorization) : PolicyDecisionRecord := {|
  d_stage := "generation_context";
  d_action_kind := au_action_kind initial;
  d_decision := au_decision initial;
  d_rule_id := au_rule_id initial;
  d_action_hash := au_action_hash initial;
  d_audit_event_id := au_audit_event_id initial |}.

(** The observed workspace, the store of its proposals, and the trusted
    files *)
Record FixContext := {
  fx_observed : EditWorkspaceObservation;
  fx_store : ProposalStore;
  fx_plan_id : string;
  fx_expected : EditPlanExpectations;
  fx_available : list string;
  fx_trusted : list TrustedEditFile;
  fx_intent_id : string;
}.

Definition observe_fix (request : ChatRequest) (prepared : PreparedRequest) (options : ChatRuntimeOptions) : chat FixContext :=
  observed <-: run_blocking_edit "edit_observation" (inspect_edit_workspace (edit_options request prepared)) ;;
  if negb (eo_clean observed)
  then chat_ret (fail "workspace_not_clean" "edit_observation" "edit proposals require a clean main Git worktree") else
  store <-: edit_io "proposal_store" "proposal store could not be opened" (proposal_store options (eo_root_hash observed)) ;;
  plan_id <-: edit_io "edit_generation" "plan ID creation failed" (new_edit_id "plan") ;;
  now <-: chat_do ProposalStore.unix_millis ;;
  available_files <-: edit_io "edit_context" "available edit file inventory failed" (available_edit_files (eo_root observed)) ;;
  trusted_files <-: edit_io "edit_context" "trusted edit file inventory failed"
                      (trusted_edit_files (eo_root observed) (pp_references prepared)) ;;
  intent_id <-: edit_io "edit_intent" "intent ID creation failed" (new_edit_id "intent") ;;
  chat_ret (Ok {| fx_observed := observed; fx_store := store; fx_plan_id := plan_id;
                  fx_expected := plan_expectations request observed plan_id now; fx_available := available_files;
                  fx_trusted := trusted_files; fx_intent_id := intent_id |}).

(** The intent, told before and after it is made *)
Definition tell_intent (request : ChatRequest) (prepared : PreparedRequest) (fx : FixContext) : chat ValidatedEditIntent :=
  tell (EditIntentStarted (fx_intent_id fx) EditIntent.EDIT_INTENT_SCHEMA_VERSION) ;;:
  intent <-: edit_ret "edit_intent" "trusted edit intent creation failed"
    (build_runtime_edit_intent (cq_prompt request) (fx_expected fx) (fx_trusted fx) (pp_references prepared) (fx_intent_id fx)) ;;
  tell (intent_ready intent) ;;:
  chat_ret (Ok intent).

Definition fix_prompt (request : ChatRequest) (prepared : PreparedRequest) (fx : FixContext) (intent : ValidatedEditIntent)
    : chat string :=
  user_references <-: edit_ret "edit_context" "user reference serialization failed"
                        (map_err failure (references_to_string (cq_references request))) ;;
  edit_ret "edit_generation" "edit prompt creation failed"
    (build_bound_edit_generation_prompt {|
       bi_base := {|
         gi_task := cq_prompt request;
         gi_policy_summary := EDIT_POLICY_SUMMARY;
         gi_selected_context := pp_prompt prepared;
         gi_user_references := user_references;
         gi_available_files := fx_available fx;
         gi_trusted_files := fx_trusted fx;
         gi_expected := fx_expected fx |};
       bi_intent := intent |}).

(** A validated plan becomes a stored proposal. *)
Definition store_proposal (store : ProposalStore) (plan_id : string) (validated : ValidatedEditPlan) (intent : ValidatedEditIntent)
    (initial : ChatPolicyAuthorization) : chat ProposalRecord :=
  record <-: edit_io "proposal_store" "validated proposal could not be published" (create_with_intent store validated intent) ;;
  let id := r_proposal_id record in
  edit_io "proposal_store" "generation Policy reference could not be stored"
    (record_policy store id [generation_policy initial]) ;;:
  emit_policy (Some id) (generation_policy initial) ;;:
  tell (EditPlanReady plan_id (p_summary (v_plan validated)) (list_len (v_files validated))) ;;:
  stored <-: chat_ret (ok_or (new_failure "proposal_intent_missing" "proposal_store"
               "intent-bound proposal was stored without its trusted intent binding") (r_intent record)) ;;
  tell (ProposalStored id (state_name (r_state record)) (r_expires_at_unix_ms record) (b_intent_id stored)
          (b_schema_version stored) (b_intent_hash stored)) ;;:
  chat_ret (Ok record).

(** The intent and the plan that is generated for it *)
Definition plan_fix (app : OpticCode) (request : ChatRequest) (prepared : PreparedRequest) (fx : FixContext)
    : chat (ValidatedEditIntent * (ValidatedEditPlan * GenerationResult * bool)) :=
  intent <-: tell_intent request prepared fx ;;
  prompt <-: fix_prompt request prepared fx intent ;;
  tell (EditPlanStarted (fx_plan_id fx)) ;;:
  tell (ProviderStarted (cq_provider request) (cq_model request) (cq_context_mode request)) ;;:
  generated <-: generate_validated_plan app request (fx_expected fx) (fx_trusted fx) intent prompt ;;
  chat_ret (Ok (intent, generated)).

Definition run_fix (app : OpticCode) (request : ChatRequest) (prepared : PreparedRequest) (initial : ChatPolicyAuthorization)
    (options : ChatRuntimeOptions) : chat CommandOutcome :=
  fx <-: observe_fix request prepared options ;;
  planned <-: plan_fix app request prepared fx ;;
  let '(intent, (validated, generation, corrected)) := planned in
  (if corrected : bool
   then tell (Warning "edit_plan_format_corrected" "The single allowed schema-format correction produced a valid EditPlan.")
   else chat_ret (Ok tt)) ;;:
  record <-: store_proposal (fx_store fx) (fx_plan_id fx) validated intent initial ;;
  verified <-: verify_and_emit (fx_store fx) (r_proposal_id record) request prepared options ;;
  chat_ret (Ok (outcome_from_generation (cq_context_mode request) generation verified)).

Definition run_chat_edit (app : option OpticCode) (request : ChatRequest) (prepared : PreparedRequest)
    (initial : ChatPolicyAuthorization) (options : ChatRuntimeOptions) (started : N) : chat CommandOutcome :=
  match cq_command request with
  | Fix =>
      app <-: chat_ret (ok_or (retriable (new_failure "provider_unavailable" "edit_generation"
                                            "the configured local LLM provider is unavailable") true) app) ;;
      run_fix app request prepared initial options
  | Verify => run_verify request prepared options
  | Diff => run_diff request prepared options
  | Apply => run_apply request prepared options
  | Rollback => run_rollback request prepared options
  | _ => chat_ret (fail "invalid_edit_command" "edit_dispatch" "chat edit runtime received a non-edit command")
  end.
End Commands.

(** ** A whole request, with the chat edits *)

Section Whole.
Context `{Floats, Delivery, Blake3, Regex, Unicode, Yaml, Json, XmlParser, ResponseSerde, PromptSerde, StringDebug}.
Context `{WalkDir, ChatTools, LeaseSerde, AuditSerde, ApprovalSerde, EngineSerde, !AssistantRuns}.
Context `{JoinErrors, ReferencesJson, EditPlanSerde, JsonPretty, IntentSerde, StoreSerde, TransactionSerde}.
Context `{WorktreeLeaseSerde, SecondsDisplay, StateJson, GitStateSerde, ContractSerde, JavaSyntax}.

Definition execute_chat_request (app : option OpticCode) (request : ChatRequest) (session_request_id : string)
    (options : ChatRuntimeOptions) : IO (res (ChatEventEmitter * res ChatExecutionReport)) :=
  execute_chat run_chat_edit app request session_request_id options.
End Whole.
