(* ===== verification/ActionFacts.v ===== *)
(** * What the rules guarantee

    Theorems about [evaluate_action] (Actions.v) that hold for every answer
    of every system call: whatever the file system contains and however it
    changes during the evaluation. *)

From stdpp Require Import base list strings.
From Stdlib Require Import NArith Ascii String Sorted Lia.
From S2P Require Import Prelude Bytes UnixPath IO Model Paths Rules Worktree Actions.

Local Open Scope string_scope.
Local Open Scope N_scope.

(** ** Reasoning about handlers *)

Definition h_post {A} (Q : list PathSafetyReport -> A -> Prop)
    (pr : list PathSafetyReport * safe A) : Prop :=
  match snd pr with Ok a => Q (fst pr) a | Err _ => True end.

Definition h_must {An : Answers} {A} (m : handler A) (paths : list PathSafetyReport)
    (Q : list PathSafetyReport -> A -> Prop) : Prop :=
  must (m paths) (h_post Q).

Section HandlerRules.
Context {An : Answers} {A : Type} {B : Type} (Q : list PathSafetyReport -> B -> Prop) (paths : list PathSafetyReport).

Lemma h_must_bind (m : handler A) (f : A -> handler B) (P : list PathSafetyReport -> A -> Prop) :
  h_must m paths P -> (forall ps a, P ps a -> h_must (f a) ps Q) ->
  h_must (a <~ m ;~ f a) paths Q.
Proof.
  intros Hm Hf. unfold h_must, h_bind. eapply must_bind; [exact Hm|].
  intros [ps [a|e]] HP; simpl; [by apply Hf|done].
Qed.

Lemma h_must_any (m : handler A) (f : A -> handler B) :
  (forall ps a, h_must (f a) ps Q) -> h_must (a <~ m ;~ f a) paths Q.
Proof.
  intros Hf. eapply h_must_bind with (P := fun _ _ => True); [|auto].
  apply must_true. by intros [? []].
Qed.

Lemma h_must_io (m : IO (safe A)) (f : A -> handler B) (P : A -> Prop) :
  must m (ok_post P) -> (forall a, P a -> h_must (f a) paths Q) ->
  h_must (a <~ h_io m ;~ f a) paths Q.
Proof.
  intros Hm Hf. eapply h_must_bind with (P := fun ps a => ps = paths /\ P a).
  - unfold h_must, h_io. eapply must_bind; [exact Hm|]. intros [a|e]; simpl; [by split|done].
  - intros ps a [-> HP]. by apply Hf.
Qed.

Lemma h_must_io_any (m : IO (safe A)) (f : A -> handler B) :
  (forall a, h_must (f a) paths Q) -> h_must (a <~ h_io m ;~ f a) paths Q.
Proof.
  intros Hf. eapply h_must_io with (P := fun _ => True); [|auto].
  apply must_true. by intros [].
Qed.

Lemma h_must_safe (r : safe A) (f : A -> handler B) :
  (forall a, r = Ok a -> h_must (f a) paths Q) -> h_must (a <~ h_safe r ;~ f a) paths Q.
Proof. intros Hf. destruct r; [by apply Hf|done]. Qed.
End HandlerRules.

Lemma h_must_ret {An : Answers} {A} (a : A) paths (Q : list PathSafetyReport -> A -> Prop) :
  Q paths a -> h_must (h_ret a) paths Q.
Proof. done. Qed.

Lemma h_must_push {An : Answers} {A} p (k : handler A) paths (Q : list PathSafetyReport -> A -> Prop) :
  h_must k (paths ++ [p])%list Q -> h_must (h_push p ;~ k) paths Q.
Proof. done. Qed.

Lemma h_must_stop {An : Answers} c outcome (k : handler RuleOutcome) paths Q :
  (c = true -> Q paths outcome) -> (c = false -> h_must k paths Q) ->
  h_must (h_stop_if c outcome k) paths Q.
Proof. intros H1 H2. destruct c; simpl; [by apply h_must_ret, H1|by apply H2]. Qed.

Lemma h_must_mono {An : Answers} {A} (m : handler A) paths (P Q : list PathSafetyReport -> A -> Prop) :
  h_must m paths P -> (forall ps a, P ps a -> Q ps a) -> h_must m paths Q.
Proof.
  intros Hm HPQ. eapply must_mono; [exact Hm|]. intros [ps [a|e]]; unfold h_post; simpl; auto.
Qed.

(** One rule of the calculus, chosen by the head of the handler; what the
    checks establish is kept in the context. *)
Ltac h_step :=
  lazymatch goal with
  | |- h_must (h_bind (h_safe _) _) _ _ => apply h_must_safe; intros ? ?
  | |- h_must (h_bind (h_io _) _) _ _ => apply h_must_io_any; intros ?
  | |- h_must (h_bind (h_push _) _) _ _ => apply h_must_push
  | |- h_must (h_bind _ _) _ _ => apply h_must_any; intros ? ?
  | |- h_must (h_stop_if _ _ _) _ _ => apply h_must_stop; intros ?
  | |- h_must (h_ret _) _ _ => apply h_must_ret
  | |- h_must (match ?x with _ => _ end) _ _ => destruct x eqn:?
  end.
Ltac h_steps := repeat h_step.

(** ** The authority of an active worktree *)

Definition valid_hash (value : string) : Prop := strlen value = 64 /\ is_hex_string value = true.

(** [p] resolved to [q], up to path equality. *)
Definition resolves_to {An : Answers} (p q : string) : Prop :=
  exists r, answers (Canonicalize p) (Ok r) /\ path_eqb r q = true.

Section Authority.
Context `{LeaseSerde} {An : Answers}.

(** The lease read from the controlled storage names this run, source,
    worktree, commit and owner. *)
Definition leased (storage : string) (d : ActiveWorktree) (root workspace_root workspace_id
    request_id : string) : Prop :=
  exists bytes lease,
    answers (ReadFile (join (join storage WORKTREE_LEASES_DIRECTORY) (aw_run_id d ++ ".json"))) (Ok bytes) /\
    lease_from_slice bytes = Some lease /\
    lw_schema_version lease = 1 /\ lw_run_id lease = aw_run_id d /\
    lw_source_commit lease = aw_base_head d /\
    lw_owner_workspace_id lease = workspace_id /\ lw_owner_request_id lease = request_id /\
    resolves_to (lw_source_git_root lease) workspace_root /\
    resolves_to (lw_worktree_path lease) root.

(** The [.git] file of the worktree leads to the declared git directory,
    which lies strictly below the declared common directory and points
    back to it. *)
Definition git_linked (root : string) (d : ActiveWorktree) : Prop :=
  exists content rest git_dir common_dir back,
    answers (ReadFile (join root ".git")) (Ok content) /\
    str_strip_prefix "gitdir:" (trim content) = Some rest /\
    answers (Canonicalize (absolute_from root (trim rest))) (Ok git_dir) /\
    resolves_to (aw_git_dir d) git_dir /\
    answers (Canonicalize (aw_common_dir d)) (Ok common_dir) /\
    path_eqb git_dir common_dir = false /\ path_starts_with git_dir common_dir = true /\
    answers (ReadFile (join git_dir "commondir")) (Ok back) /\
    resolves_to (absolute_from git_dir (trim back)) common_dir.

(** The descriptor belongs to the request, and the file system agrees. *)
Record descriptor_authority (d : ActiveWorktree) (workspace_root workspace_id request_id root : string)
    : Prop := {
  authority_owner : aw_owner_workspace_id d = workspace_id /\ aw_owner_request_id d = request_id;
  authority_head : is_git_oid (aw_base_head d) = true;
  authority_root : root_of (aw_root d) root;
  authority_source : exists source, root_of (aw_source_root d) source /\
    path_eqb source workspace_root = true;
  authority_storage : exists tmp storage,
    answers (EnvVar "TMPDIR") tmp /\
    root_of (join (default "/tmp" tmp) WORKTREE_STORAGE_DIRECTORY) storage /\
    (exists expected,
      answers (Canonicalize (join (join storage WORKTREE_RUNS_DIRECTORY) (aw_run_id d))) (Ok expected) /\
      path_eqb root expected = true) /\
    leased storage d root workspace_root workspace_id request_id;
  authority_git : git_linked root d;
}.

(** The source repository was observed clean, at the HEAD of the lease. *)
Record worktree_authority (request : PolicyRequest) (workspace_root root : string) : Prop := {
  authority_descriptor : exists d, active_worktree (rq_workspace request) = Some d /\
    descriptor_authority d workspace_root (workspace_id (rq_workspace request)) (rq_request_id request) root /\
    exists boundary, repository (rq_workspace request) = Some boundary /\
      grb_head boundary = aw_base_head d;
  authority_clean : repository_clean (rq_workspace request) = Some true;
  authority_digest : exists digest,
    working_tree_digest (rq_workspace request) = Some digest /\ valid_hash digest;
}.
End Authority.

Lemma validate_hash_value_ok value label u :
  validate_hash_value value label = Ok u <-> valid_hash value.
Proof.
  unfold validate_hash_value, valid_hash. rewrite reject_if_ok, orb_false_iff, !negb_false_iff, N.eqb_eq. done.
Qed.

Lemma require_working_tree_digest_ok request u :
  require_working_tree_digest request = Ok u ->
  exists digest, working_tree_digest (rq_workspace request) = Some digest /\ valid_hash digest.
Proof.
  unfold require_working_tree_digest. destruct (working_tree_digest _); [|done].
  rewrite validate_hash_value_ok. eauto.
Qed.

Lemma require_source_state_ok request descriptor u :
  require_source_state request = Ok u ->
  active_worktree (rq_workspace request) = Some descriptor ->
  (exists boundary, repository (rq_workspace request) = Some boundary /\
     grb_head boundary = aw_base_head descriptor) /\
  repository_clean (rq_workspace request) = Some true /\
  exists digest, working_tree_digest (rq_workspace request) = Some digest /\ valid_hash digest.
Proof.
  unfold require_source_state. intros H E. rewrite E in H. destruct (repository _) as [b|]; [|done].
  apply rbind_ok in H as (? & Hhead & H). apply rbind_ok in H as (? & Hclean & H).
  apply reject_if_ok in Hhead, Hclean. split_bools. apply String.eqb_eq in Hhead.
  apply require_working_tree_digest_ok in H. eauto.
Qed.

(** The canonicalisation of [p] gave [q]. *)
Lemma canonical_is_must {An : Answers} p q :
  must (canonical_is p q) (fun b => b = true -> resolves_to p q).
Proof. intros [r|e] Hr; simpl; [|done]. intros Hb. by exists r. Qed.

Lemma read_to_string_must {An : Answers} p e :
  must (read_to_string p e) (ok_post (fun content => answers (ReadFile p) (Ok content))).
Proof.
  unfold read_to_string. apply must_sys_or; intros bytes Hb. unfold to_str.
  by destruct (utf8_valid bytes).
Qed.

Section Worktree.
Context `{LeaseSerde} {An : Answers}.

Lemma lease_differs_must lease d root workspace_root workspace_id request_id :
  must (lease_differs lease d root workspace_root workspace_id request_id) (fun b => b = false ->
    lw_schema_version lease = 1 /\ lw_run_id lease = aw_run_id d /\
    lw_source_commit lease = aw_base_head d /\
    lw_owner_workspace_id lease = workspace_id /\ lw_owner_request_id lease = request_id /\
    resolves_to (lw_source_git_root lease) workspace_root /\
    resolves_to (lw_worktree_path lease) root).
Proof.
  unfold lease_differs. destruct (_ || _) eqn:E; [done|].
  eapply must_bind; [apply canonical_is_must|]. intros [] H1; [|done]. specialize (H1 eq_refl).
  eapply must_bind; [apply canonical_is_must|]. intros [] H2; [|done]. specialize (H2 eq_refl).
  simpl. intros Hf. split_bools. rewrite ?String.eqb_eq, ?N.eqb_eq in *. done.
Qed.

Lemma validate_worktree_lease_must storage d root workspace_root workspace_id request_id :
  must (validate_worktree_lease storage d root workspace_root workspace_id request_id)
    (ok_post (fun _ => leased storage d root workspace_root workspace_id request_id)).
Proof.
  unfold validate_worktree_lease. apply must_any; intros md. apply must_check; intros _.
  apply must_sys_or; intros bytes Hbytes. apply must_pure; intros lease Hlease.
  eapply must_bind; [apply lease_differs_must|]. intros [] Hd; simpl; [done|].
  exists bytes, lease. split; [done|]. split; [|by apply Hd].
  by destruct (lease_from_slice bytes); simplify_eq/=.
Qed.

Lemma validate_git_file_must root d :
  must (validate_git_file root d) (ok_post (fun _ => git_linked root d)).
Proof.
  unfold validate_git_file. apply must_any; intros md. apply must_check; intros _.
  eapply must_try_ok; [apply read_to_string_must|]. intros content Hcontent.
  apply must_pure; intros path Hpath. apply must_sys_or; intros git_dir Hgit.
  apply must_sys_or; intros expected Hexpected. apply must_sys_or; intros common Hcommon.
  apply must_check; intros Hb. apply must_any; intros md2. apply must_check; intros _.
  eapply must_try_ok; [apply read_to_string_must|]. intros back Hback.
  eapply must_bind; [apply canonical_is_must|]. intros [] Hc; simpl; [|done].
  destruct (str_strip_prefix _ _) as [rest|] eqn:Hrest; simplify_eq/=. split_bools.
  exists content, rest, git_dir, common, back. split_and!; try done; [|by apply Hc].
  exists expected. split; [done|]. unfold path_eqb in *. by rewrite bool_decide_eq_true in *.
Qed.

Lemma controlled_worktree_storage_must :
  must controlled_worktree_storage (ok_post (fun storage => exists tmp,
    answers (EnvVar "TMPDIR") tmp /\
    root_of (join (default "/tmp" tmp) WORKTREE_STORAGE_DIRECTORY) storage)).
Proof.
  unfold controlled_worktree_storage, temp_dir. intros tmp Htmp.
  eapply must_mono; [apply inspect_root_must|]. intros [storage|]; simpl; [|done]. eauto.
Qed.

Lemma validate_active_descriptor_must descriptor workspace_root workspace_id request_id :
  must (validate_active_descriptor descriptor workspace_root workspace_id request_id)
    (ok_post (fun active => match active with
      | None => descriptor = None
      | Some root => exists d, descriptor = Some d /\
          descriptor_authority d workspace_root workspace_id request_id root
      end)).
Proof.
  destruct descriptor as [d|]; simpl validate_active_descriptor; [|done].
  apply must_pure; intros ? _. apply must_pure; intros ? _. apply must_pure; intros ? _.
  apply must_pure; intros ? Hoid. apply must_check; intros Howner.
  eapply must_try_ok; [apply inspect_root_must|]. intros source Hsource. apply must_check; intros Heq.
  eapply must_try_ok; [apply inspect_root_must|]. intros root Hroot.
  eapply must_try_ok; [apply controlled_worktree_storage_must|]. intros storage (tmp & Htmp & Hstorage).
  apply must_sys_or; intros expected Hexp. apply must_check; intros Heq'.
  eapply must_try_ok; [apply validate_worktree_lease_must|]. intros u1 Hlease.
  eapply must_try_ok; [apply validate_git_file_must|]. intros u2 Hgit. simpl.
  unfold validate_git_oid in Hoid. apply reject_if_ok, negb_false_iff in Hoid.
  split_bools. rewrite !String.eqb_eq in *. exists d. split; [done|].
  split; [done|done|done|by exists source| |done].
  exists tmp, storage. split; [done|]. split; [done|]. split; [by exists expected|done].
Qed.

Lemma validated_active_worktree_must request workspace_root :
  must (validated_active_worktree request workspace_root)
    (ok_post (fun active => forall root, active = Some root ->
       worktree_authority request workspace_root root)).
Proof.
  unfold validated_active_worktree.
  eapply must_try_ok; [apply validate_active_descriptor_must|].
  intros active Hactive. apply must_pure; intros u Hstate. simpl.
  intros root ->. destruct Hactive as (d & Hd & Hauth).
  destruct (require_source_state_ok _ _ _ Hstate Hd) as (Hb & ? & ?).
  split; [exists d; split; [done|by split]|done|done].
Qed.
End Worktree.

Lemma opt_path_eqb_some active q :
  opt_path_eqb active (Some q) = true -> exists r, active = Some r /\ path_eqb r q = true.
Proof. destruct active as [r|]; [|done]. by exists r. Qed.

(** ** Admission of a build process *)

Definition offline_flag (arguments : list string) : bool :=
  existsb (fun a => (a =?s "-o") || (a =?s "--offline")) arguments.

(** The executable is the project's own wrapper, with the content hash of the
    source workspace's (both may be absent), or lies in a system installation
    root. *)
Definition trusted_executable `{Blake3} {An : Answers} (workspace_root active cwd : string)
    (action : RunProcessAction) (wrapper : bool) : Prop :=
  if wrapper then
    exists w s,
      safe_report (target_in active (absolute_from cwd (rp_executable action))) ExpectFile w /\
      safe_report (target_in workspace_root (relative_path w)) ExpectFile s /\
      content_hash (fingerprint_of w) = content_hash (fingerprint_of s)
  else
    is_absolute (rp_executable action) = true /\
    exists canonical install root report,
      answers (Canonicalize (rp_executable action)) (Ok canonical) /\
      In install INSTALL_ROOTS /\ root_of install root /\
      safe_report (target_in root canonical) ExpectFile report.

(** Every bound, filter, denylist and allowlist a build command has passed. *)
Record process_admitted `{Blake3} {An : Answers} (workspace_root active cwd : string)
    (action : RunProcessAction) : Prop := {
  admitted_timeout : 1 <= rp_timeout_ms action <= MAX_POLICY_TIMEOUT_MS;
  admitted_output : 1 <= rp_output_limit_bytes action <= MAX_POLICY_OUTPUT_BYTES;
  admitted_argument_count : N.of_nat (List.length (rp_arguments action)) <= MAX_POLICY_ARGUMENTS;
  admitted_argument_bytes : argument_bytes (rp_arguments action) <= MAX_POLICY_ARGUMENT_BYTES;
  admitted_arguments :
    Forall (fun a => unsafe_argument a (rp_launch action) = false) (rp_arguments action);
  admitted_environment :
    StronglySorted str_lt_prop (rp_environment_allowlist action) /\
    Forall (fun name => In name ALLOWED_ENVIRONMENT) (rp_environment_allowlist action);
  admitted_network : rp_network action <> NetUndeclared;
  admitted_launch : rp_launch action = Direct;
  admitted_tool : exists tool wrapper,
    classify_tool (executable_name action) = Ok (tool, wrapper) /\
    is_shell_executable (executable_name action) = false /\
    trusted_executable workspace_root active cwd action wrapper /\
    package_install_goal tool (rp_arguments action) = false /\
    dangerous_build_option tool (rp_arguments action) = false /\
    allowed_build_goals tool (rp_arguments action) = true;
}.

Lemma existsb_eqb_In x l : existsb (String.eqb x) l = true <-> In x l.
Proof.
  rewrite existsb_exists. split; [intros (y & Hy & E); apply String.eqb_eq in E; by subst|].
  intros Hx. exists x. split; [done|apply String.eqb_refl].
Qed.

Lemma validate_environment_none environment :
  validate_environment_allowlist environment = None ->
  N.of_nat (List.length environment) <= MAX_POLICY_ENVIRONMENT_KEYS /\
  StronglySorted str_lt_prop environment /\
  Forall (fun name => In name ALLOWED_ENVIRONMENT) environment.
Proof.
  unfold validate_environment_allowlist. destruct (_ <? _) eqn:Hlen; [done|].
  destruct (windows2_any _ _) eqn:Hw; [done|]. destruct (existsb _ _) eqn:Hd; [done|]. intros _.
  apply N.ltb_ge in Hlen. apply windows2_str_sorted in Hw. split; [done|]. split; [done|].
  apply existsb_false_Forall in Hd. eapply Forall_impl; [exact Hd|]. intros name Hn.
  unfold environment_name_denied in Hn. split_bools. by apply existsb_eqb_In.
Qed.

Section Process.
Context `{Blake3, LeaseSerde} {An : Answers}.

Lemma process_bounds_none action :
  process_bounds action = None ->
  1 <= rp_timeout_ms action <= MAX_POLICY_TIMEOUT_MS /\
  1 <= rp_output_limit_bytes action <= MAX_POLICY_OUTPUT_BYTES /\
  N.of_nat (List.length (rp_arguments action)) <= MAX_POLICY_ARGUMENTS /\
  argument_bytes (rp_arguments action) <= MAX_POLICY_ARGUMENT_BYTES /\
  Forall (fun a => unsafe_argument a (rp_launch action) = false) (rp_arguments action) /\
  validate_environment_allowlist (rp_environment_allowlist action) = None /\
  rp_network action <> NetUndeclared.
Proof.
  unfold process_bounds. intros Hb.
  destruct ((rp_timeout_ms action =? 0) || _) eqn:Ht; [done|].
  destruct ((rp_output_limit_bytes action =? 0) || _) eqn:Ho; [done|].
  destruct ((MAX_POLICY_ARGUMENTS <? _) || _) eqn:Ha; [done|].
  destruct (validate_environment_allowlist _) eqn:He; [done|].
  destruct (existsb _ _) eqn:Hu; [done|]. case_bool_decide as Hn; [done|].
  split_bools. rewrite ?N.eqb_neq, ?N.ltb_ge in *. apply existsb_false_Forall in Hu.
  split_and!; try done; lia.
Qed.

Lemma process_bounds_some action rule :
  process_bounds action = Some rule -> is_deny (outcome_decision rule) = true.
Proof.
  unfold process_bounds, validate_environment_allowlist.
  repeat case_match; intros; simplify_eq; reflexivity.
Qed.

(** Outside Windows only direct launches are expected. *)
Lemma expected_launch_direct name scripts : expected_launch name scripts = Direct.
Proof. reflexivity. Qed.

Lemma find_installed_must canonical roots :
  must (find_installed canonical roots) (ok_post (fun found => match found with
    | Some report => exists install root, In install roots /\ root_of install root /\
        safe_report (target_in root canonical) ExpectFile report
    | None => True
    end)).
Proof.
  induction roots as [|install roots IH]; cbn [find_installed]; [done|].
  assert (must (find_installed canonical roots) (ok_post (fun found => match found with
    | Some report => exists i root, In i (install :: roots) /\ root_of i root /\
        safe_report (target_in root canonical) ExpectFile report
    | None => True
    end))) as Hrest.
  { eapply must_mono; [exact IH|]. intros [[report|]|]; simpl; try done.
    intros (i & root & ? & ?). eauto. }
  eapply must_bind; [apply inspect_root_must|]. intros [root|e] Hroot; [|exact Hrest].
  destruct (path_starts_with canonical root); [|exact Hrest].
  eapply must_try_ok; [apply inspect_path_must|]. intros report Hreport. simpl.
  exists install, root. split; [by left|done].
Qed.

Lemma check_wrapper_must workspace_root active cwd action paths :
  h_must (check_wrapper workspace_root active cwd action) paths
    (fun _ stopped => match stopped with
       | Some rule => is_deny (outcome_decision rule) = true
       | None => rp_launch action = Direct /\ trusted_executable workspace_root active cwd action true
       end).
Proof.
  unfold check_wrapper. eapply h_must_io; [apply inspect_path_must|]. intros w Hw.
  eapply h_must_io; [apply inspect_path_must|]. intros s Hs.
  destruct (bool_decide (content_hash _ = _)) eqn:Hh; simpl negb; cbn match; [|by h_step].
  apply bool_decide_eq_true in Hh. h_steps.
  rewrite expected_launch_direct. destruct (bool_decide (rp_launch action = Direct)) eqn:E; simpl; [|done].
  apply bool_decide_eq_true in E. split; [done|]. by exists w, s.
Qed.

Lemma check_installed_must action workspace_root active cwd paths :
  h_must (check_installed action) paths
    (fun _ stopped => match stopped with
       | Some rule => is_deny (outcome_decision rule) = true
       | None => rp_launch action = Direct /\ trusted_executable workspace_root active cwd action false
       end).
Proof.
  unfold check_installed. eapply h_must_io with (P := fun found => match found with
    | Some report => trusted_executable workspace_root active cwd action false
    | None => True
    end).
  { unfold inspect_installed_executable. destruct (is_absolute _) eqn:Habs; [|done].
    intros [canonical|e] Hc; [|done].
    eapply must_mono; [apply (find_installed_must canonical INSTALL_ROOTS)|].
    intros [[report|]|]; simpl; try done. intros (i & root & ? & ? & ?). split; [done|].
    by exists canonical, i, root, report. }
  intros [report|] Ht; h_steps; [|done].
  rewrite expected_launch_direct. destruct (bool_decide (rp_launch action = Direct)) eqn:E; simpl; [|done].
  by apply bool_decide_eq_true in E.
Qed.

Lemma select_tool_spec action :
  match select_tool action with
  | Ok (tool, wrapper) => classify_tool (executable_name action) = Ok (tool, wrapper) /\
      is_shell_executable (executable_name action) = false
  | Err rule => is_deny (outcome_decision rule) = true
  end.
Proof.
  unfold select_tool. destruct (is_shell_executable _) eqn:Hs; simpl; [done|].
  case_bool_decide; simpl; [done|].
  destruct (classify_tool _) as [[tool wrapper]|rule] eqn:Hc; [done|].
  unfold classify_tool in Hc. cases.
Qed.

(** The goals stage: never denied means every filter passed, and allowed
    means offline. *)
Lemma process_goals_spec tool action :
  is_deny (outcome_decision (process_goals tool action)) = false ->
  package_install_goal tool (rp_arguments action) = false /\
  dangerous_build_option tool (rp_arguments action) = false /\
  allowed_build_goals tool (rp_arguments action) = true /\
  (is_allow (outcome_decision (process_goals tool action)) = true ->
   offline_flag (rp_arguments action) = true /\ rp_network action = NetDenied) /\
  (is_require_approval (outcome_decision (process_goals tool action)) = true ->
   rp_network action <> NetDenied).
Proof.
  unfold process_goals, offline_flag.
  destruct (package_install_goal _ _); [done|]. destruct (dangerous_build_option _ _); [done|].
  destruct (allowed_build_goals _ _); [|done]. simpl.
  destruct (existsb _ _); case_bool_decide; simpl; naive_solver.
Qed.

Lemma evaluate_process_must request workspace_root action paths :
  h_must (evaluate_process request workspace_root action) paths
    (fun _ o => is_deny (outcome_decision o) = false ->
       rq_mode request = WorktreeEdit /\
       (exists active cwd, worktree_authority request workspace_root active /\
          root_of (rp_cwd action) cwd /\ path_starts_with cwd active = true /\
          process_admitted workspace_root active cwd action) /\
       (is_allow (outcome_decision o) = true ->
        offline_flag (rp_arguments action) = true /\ rp_network action = NetDenied) /\
       (is_require_approval (outcome_decision o) = true -> rp_network action <> NetDenied)).
Proof.
  unfold evaluate_process. apply h_must_stop; [done|intros Hmode].
  apply negb_false_iff, bool_decide_eq_true in Hmode.
  eapply h_must_io; [apply validated_active_worktree_must|].
  intros [active|] Hauth; [|h_step; done]. specialize (Hauth active eq_refl).
  eapply h_must_io; [apply inspect_root_must|]. intros cwd Hcwd.
  apply h_must_stop; [done|intros Hin%negb_false_iff]. h_step.
  destruct (process_bounds action) as [rule|] eqn:Hb.
  { h_step. by rewrite (process_bounds_some _ _ Hb). }
  apply process_bounds_none in Hb as (?&?&?&?&?&Henv&?).
  apply validate_environment_none in Henv as (_ & Henv).
  pose proof (select_tool_spec action) as Hsel.
  destruct (select_tool action) as [[tool wrapper]|rule]; [|h_step; by rewrite Hsel].
  destruct Hsel as [Hcl Hsh].
  eapply h_must_bind with (P := fun _ stopped => match stopped with
       | Some rule => is_deny (outcome_decision rule) = true
       | None => rp_launch action = Direct /\ trusted_executable workspace_root active cwd action wrapper
       end).
  { destruct wrapper; [apply check_wrapper_must|apply check_installed_must]. }
  intros ps2 [rule|] Hstop; h_step; [by rewrite Hstop|]. destruct Hstop as [Hlaunch Htrust].
  intros Hd. apply process_goals_spec in Hd as (?&?&?&?&?).
  split; [done|]. split; [|by split]. exists active, cwd. split; [done|]. split; [done|].
  split; [done|]. constructor; try done. by exists tool, wrapper.
Qed.
End Process.

(** ** Grounds

    What an [Allow] and a [RequireApproval] establish, action by action.
    [reports] are the paths the caller must revalidate, [workspace_root] the
    canonical workspace. *)

(** [root] is the active worktree of the request, validated. *)
Definition in_worktree `{LeaseSerde} {An : Answers} (request : PolicyRequest)
    (workspace_root root : string) : Prop :=
  exists active, worktree_authority request workspace_root active /\ path_eqb active root = true.

Definition in_scope `{LeaseSerde} {An : Answers} (request : PolicyRequest)
    (workspace_root root : string) : Prop :=
  path_eqb root workspace_root = true \/ in_worktree request workspace_root root.

Definition sorted_paths (paths : list string) : Prop :=
  Forall (fun p => normal_relative p = true) paths /\
  StronglySorted str_lt_prop (map (fun p => replace_backslash (to_string_lossy p)) paths).

Section Grounds.
Context `{Blake3, LeaseSerde} {An : Answers}.

Definition safe_reports (root : string) (expectation : PathExpectation) (paths : list string)
    (reports : list PathSafetyReport) : Prop :=
  Forall2 (fun p r => safe_report (target_in root p) expectation r) paths reports.

Definition listed_in_scope (request : PolicyRequest) (workspace_root declared : string)
    (paths : list string) (reports : list PathSafetyReport) : Prop :=
  N.of_nat (List.length paths) <= MAX_POLICY_PATHS /\ sorted_paths paths /\
  exists root, root_of declared root /\ in_scope request workspace_root root /\
    safe_reports root ExistingEntry paths reports.

(** A free direct child of the controlled runs directory, named by the run. *)
Definition fresh_destination (destination run_id : string) : Prop :=
  exists tmp storage runs destination_parent e,
    answers (EnvVar "TMPDIR") tmp /\
    root_of (join (default "/tmp" tmp) WORKTREE_STORAGE_DIRECTORY) storage /\
    answers (Canonicalize (join storage WORKTREE_RUNS_DIRECTORY)) (Ok runs) /\
    parent destination = Some destination_parent /\ resolves_to destination_parent runs /\
    file_name_str destination = Some run_id /\
    answers (FollowMetadata destination) (Err e).

Definition patch_reports (action : ApplyPatchAction) (root : string)
    (reports : list PathSafetyReport) : Prop :=
  exists existing created, reports = (existing ++ created)%list /\
    safe_reports root ExpectFile (ap_paths action) existing /\
    safe_reports root NewFile (ap_created_paths action) created.

Definition patch_bound (action : ApplyPatchAction) : Prop :=
  valid_hash (ap_diff_hash action) /\ valid_hash (ap_files_hash action) /\
  is_git_oid (ap_base_head action) = true /\
  sorted_paths (ap_paths action) /\ sorted_paths (ap_created_paths action).

(** The observed state of the source repository: HEAD, cleanliness, digest. *)
Definition observed_state (request : PolicyRequest) (base_head : string) : Prop :=
  (exists boundary, repository (rq_workspace request) = Some boundary /\
     grb_head boundary = base_head) /\
  repository_clean (rq_workspace request) = Some true /\
  exists digest, working_tree_digest (rq_workspace request) = Some digest /\ valid_hash digest.

Definition allow_grounds (request : PolicyRequest) (workspace_root : string)
    (reports : list PathSafetyReport) : Prop :=
  match rq_action request with
  | ReadFileAction target => exists r, reports = [r] /\ safe_report target ExpectFile r /\
      in_scope request workspace_root (psr_root r)
  | ReadDirectory target => exists r, reports = [r] /\ safe_report target ExpectDirectory r /\
      in_scope request workspace_root (psr_root r)
  | Search action => valid_hash (sa_query_hash action) /\
      listed_in_scope request workspace_root (sa_root action) (sa_paths action) reports
  | BuildContext action => valid_hash (ca_task_hash action) /\
      listed_in_scope request workspace_root (ca_root action) (ca_candidate_paths action) reports
  | UseRag action => valid_hash (ra_query_hash action) /\ reports = [] /\
      exists root, root_of (ra_index_root action) root /\ path_starts_with root workspace_root = true
  | GitRead action => gr_operation action <> GitReadUnknown /\
      listed_in_scope request workspace_root (gr_repository_root action) (gr_paths action) reports
  | WriteFile target => rq_mode request <> ReadOnly /\
      exists r, reports = [r] /\ safe_report target ExpectFile r /\
        in_worktree request workspace_root (psr_root r)
  | CreateFile target => rq_mode request <> ReadOnly /\
      exists r, reports = [r] /\ safe_report target NewFile r /\
        in_worktree request workspace_root (psr_root r)
  | ApplyPatch action => rq_mode request = WorktreeEdit /\ patch_bound action /\
      exists root, root_of (ap_root action) root /\ path_eqb root workspace_root = false /\
        in_worktree request workspace_root root /\ patch_reports action root reports
  | RunProcess action => rq_mode request = WorktreeEdit /\
      (exists active cwd, worktree_authority request workspace_root active /\
         root_of (rp_cwd action) cwd /\ path_starts_with cwd active = true /\
         process_admitted workspace_root active cwd action) /\
      offline_flag (rp_arguments action) = true /\ rp_network action = NetDenied
  | CreateWorktree action => rq_mode request = WorktreeEdit /\ cw_detached action = true /\
      observed_state request (cw_base_head action) /\ reports = [] /\
      fresh_destination (cw_destination action) (cw_run_id action) /\
      exists root, root_of (cw_repository_root action) root /\ path_eqb root workspace_root = true
  | CleanupWorktree action => rq_mode request = WorktreeEdit /\ reports = [] /\
      exists root w, root_of (cl_worktree_root action) root /\
        in_worktree request workspace_root root /\
        active_worktree (rq_workspace request) = Some w /\ aw_run_id w = cl_run_id action
  | _ => False
  end.

Definition approval_grounds (request : PolicyRequest) (workspace_root : string)
    (reports : list PathSafetyReport) : Prop :=
  match rq_action request with
  | DeleteFile action => rq_mode request <> ReadOnly /\ da_recursive action = false /\
      exists r, reports = [r] /\ safe_report (da_target action) ExpectFile r /\
        in_worktree request workspace_root (psr_root r) /\
        path_eqb (psr_root r) workspace_root = false
  | ApplyPatch action => rq_mode request = ApprovedApply /\ patch_bound action /\
      observed_state request (ap_base_head action) /\
      exists root, root_of (ap_root action) root /\ path_eqb root workspace_root = true /\
        patch_reports action root reports
  | RunProcess action => rq_mode request = WorktreeEdit /\
      (exists active cwd, worktree_authority request workspace_root active /\
         root_of (rp_cwd action) cwd /\ path_starts_with cwd active = true /\
         process_admitted workspace_root active cwd action) /\
      rp_network action <> NetDenied
  | CleanupWorktree action => rq_mode request <> ReadOnly /\ reports = [] /\
      exists root, root_of (cl_repository_root action) root /\ path_eqb root workspace_root = true
  | GitCommit action => rq_mode request <> ReadOnly /\ valid_hash (gc_tree_hash action) /\
      valid_hash (gc_message_hash action) /\ reports = [] /\
      exists root, root_of (gc_repository_root action) root /\ in_scope request workspace_root root
  | RecoverTransaction action | RollbackTransaction action =>
      rq_mode request <> ReadOnly /\ valid_hash (ta_expected_state_hash action) /\ reports = [] /\
      exists root, root_of (ta_workspace_root action) root /\ path_eqb root workspace_root = true
  | _ => False
  end.

Definition grounded (request : PolicyRequest) (workspace_root : string)
    (reports : list PathSafetyReport) (decision : PolicyDecision) : Prop :=
  match decision with
  | Allow _ _ _ _ => allow_grounds request workspace_root reports
  | RequireApproval _ _ _ _ => approval_grounds request workspace_root reports
  | Deny _ _ _ => True
  end.
End Grounds.

Section GroundsFacts.
Context `{Blake3, LeaseSerde} {An : Answers}.

(** The decision of an outcome is grounded. *)
Definition grounded_outcome (request : PolicyRequest) (workspace_root : string)
    (reports : list PathSafetyReport) (o : RuleOutcome) : Prop :=
  grounded request workspace_root reports (outcome_decision o).

Lemma push_inspected_must root input expectation paths :
  h_must (push_inspected root input expectation) paths
    (fun ps _ => exists reports, ps = (paths ++ reports)%list /\
       safe_reports root expectation input reports).
Proof.
  revert paths. induction input as [|p input IH]; intros paths.
  { apply h_must_ret. exists []. split; [by rewrite app_nil_r|constructor]. }
  simpl. eapply h_must_io; [apply inspect_path_must|]. intros r Hr. apply h_must_push.
  eapply h_must_mono; [apply IH|]. intros ps _ (rs & -> & Hrs). exists (r :: rs).
  split; [by rewrite <- app_assoc|]. by constructor.
Qed.

Lemma normalized_paths_ok paths normalized :
  normalized_paths paths = Ok normalized ->
  normalized = map (fun p => replace_backslash (to_string_lossy p)) paths /\
  Forall (fun p => normal_relative p = true) paths.
Proof.
  revert normalized. induction paths as [|p paths IH]; simpl; intros normalized Hn.
  { by simplify_eq. }
  apply rbind_ok in Hn as (? & Hp & Hn). apply rbind_ok in Hn as (more & Hm & Hn).
  apply reject_if_ok, negb_false_iff in Hp. apply IH in Hm as [-> ?]. simplify_eq. by split; [|constructor].
Qed.

Lemma validate_sorted_paths_ok paths u : validate_sorted_paths paths = Ok u -> sorted_paths paths.
Proof.
  unfold validate_sorted_paths. intros Hs. apply rbind_ok in Hs as (normalized & Hn & Hs).
  apply normalized_paths_ok in Hn as [-> Hn]. apply reject_if_ok, windows2_str_sorted in Hs.
  by split.
Qed.

Lemma inspect_path_list_must root input paths :
  h_must (inspect_path_list root input) paths
    (fun ps _ => N.of_nat (List.length input) <= MAX_POLICY_PATHS /\ sorted_paths input /\
       exists reports, ps = (paths ++ reports)%list /\ safe_reports root ExistingEntry input reports).
Proof.
  unfold inspect_path_list. apply h_must_safe; intros ? Hlen. apply reject_if_ok, N.ltb_ge in Hlen.
  apply h_must_safe; intros ? Hs. apply validate_sorted_paths_ok in Hs.
  eapply h_must_mono; [apply push_inspected_must|]. auto.
Qed.

Lemma require_read_scope_must request workspace_root root :
  must (require_read_scope request workspace_root root)
    (ok_post (fun _ => in_scope request workspace_root root)).
Proof.
  unfold require_read_scope, in_scope. destruct (path_eqb root workspace_root) eqn:E; [by left|].
  eapply must_try_ok; [apply validated_active_worktree_must|]. intros active Hactive. simpl.
  destruct (opt_path_eqb active (Some root)) eqn:Ha; simpl; [|done]. right.
  apply opt_path_eqb_some in Ha as (r & -> & Hr). exists r. by split; [apply Hactive|].
Qed.

(** The active worktree a handler compares with is the validated one. *)
Lemma in_worktree_intro request workspace_root active root :
  (forall r, active = Some r -> worktree_authority request workspace_root r) ->
  opt_path_eqb active (Some root) = true -> in_worktree request workspace_root root.
Proof. intros Hauth (r & -> & Hr)%opt_path_eqb_some. exists r. auto. Qed.

(** The handlers over a list of paths share their shape. *)
Lemma listed_must request workspace_root declared root hash label paths input
    (k : handler RuleOutcome) Q :
  root_of declared root ->
  (forall reports, valid_hash hash -> listed_in_scope request workspace_root declared input reports ->
     h_must k (paths ++ reports)%list Q) ->
  h_must (h_io (require_read_scope request workspace_root root) ;~
          h_safe (validate_hash_value hash label) ;~
          inspect_path_list root input ;~ k) paths Q.
Proof.
  intros Hroot Hk. eapply h_must_io; [apply require_read_scope_must|]. intros ? Hscope.
  apply h_must_safe; intros ? Hh. apply validate_hash_value_ok in Hh.
  eapply h_must_bind; [apply inspect_path_list_must|]. intros ps _ (? & ? & reports & -> & ?).
  apply Hk; [done|]. split; [done|]. split; [done|]. by exists root.
Qed.

Lemma canonical_parent_must p :
  must (canonical_parent p) (fun r => forall q, opt_path_eqb r (Some q) = true ->
    exists q', parent p = Some q' /\ resolves_to q' q).
Proof.
  unfold canonical_parent. destruct (parent p) as [q'|]; [|done]. intros [r|e] Hr; [|done].
  intros q Hq. exists q'. split; [done|]. by exists r.
Qed.

Lemma validate_worktree_destination_must destination run_id :
  must (validate_worktree_destination destination run_id)
    (ok_post (fun _ => fresh_destination destination run_id)).
Proof.
  unfold validate_worktree_destination. apply must_pure; intros ? _.
  eapply must_try_ok; [apply controlled_worktree_storage_must|]. intros storage (tmp & Htmp & Hstorage).
  apply must_sys_or; intros runs Hruns.
  eapply must_bind; [apply canonical_parent_must|]. intros dp Hdp.
  apply must_check; intros Hd. split_bools. destruct (Hdp runs) as (q & ? & ?); [done|].
  intros [m|e] Hm; simpl; [done|]. by exists tmp, storage, runs, q, e.
Qed.

Lemma observed_state_intro request boundary base_head u :
  repository (rq_workspace request) = Some boundary ->
  negb (grb_head boundary =?s base_head) = false ->
  negb (bool_decide (repository_clean (rq_workspace request) = Some true)) = false ->
  require_working_tree_digest request = Ok u ->
  observed_state request base_head.
Proof.
  intros Hb Hh Hc Hd. split_bools. apply String.eqb_eq in Hh.
  apply require_working_tree_digest_ok in Hd. split; [by exists boundary|]. by split.
Qed.

Lemma mode_not_read_only request :
  bool_decide (rq_mode request = ReadOnly) = false -> rq_mode request <> ReadOnly.
Proof. by rewrite bool_decide_eq_false. Qed.
End GroundsFacts.

Section HandlerGrounds.
Context `{Blake3, LeaseSerde} {An : Answers}.

Lemma read_file_grounds request ws target :
  rq_action request = ReadFileAction target ->
  h_must (evaluate_read_file request ws target) [] (grounded_outcome request ws).
Proof.
  intros Ha. unfold evaluate_read_file. eapply h_must_io; [apply inspect_path_must|]. intros r Hr.
  eapply h_must_io; [apply require_read_scope_must|]. intros u Hs. h_steps.
  unfold grounded_outcome; simpl. unfold allow_grounds. rewrite Ha. by exists r.
Qed.

Lemma read_directory_grounds request ws target :
  rq_action request = ReadDirectory target ->
  h_must (evaluate_read_directory request ws target) [] (grounded_outcome request ws).
Proof.
  intros Ha. unfold evaluate_read_directory. eapply h_must_io; [apply inspect_path_must|]. intros r Hr.
  eapply h_must_io; [apply require_read_scope_must|]. intros u Hs. h_steps.
  unfold grounded_outcome; simpl. unfold allow_grounds. rewrite Ha. by exists r.
Qed.

Lemma search_grounds request ws action :
  rq_action request = Search action ->
  h_must (evaluate_search request ws action) [] (grounded_outcome request ws).
Proof.
  intros Ha. unfold evaluate_search. eapply h_must_io; [apply inspect_root_must|]. intros root Hroot.
  eapply listed_must; [exact Hroot|]. intros reports Hh Hl. h_step.
  unfold grounded_outcome; simpl. unfold allow_grounds. by rewrite Ha.
Qed.

Lemma context_grounds request ws action :
  rq_action request = BuildContext action ->
  h_must (evaluate_context request ws action) [] (grounded_outcome request ws).
Proof.
  intros Ha. unfold evaluate_context. eapply h_must_io; [apply inspect_root_must|]. intros root Hroot.
  eapply listed_must; [exact Hroot|]. intros reports Hh Hl. h_step.
  unfold grounded_outcome; simpl. unfold allow_grounds. by rewrite Ha.
Qed.

Lemma rag_grounds request ws action :
  rq_action request = UseRag action ->
  h_must (evaluate_rag ws action) [] (grounded_outcome request ws).
Proof.
  intros Ha. unfold evaluate_rag. apply h_must_safe; intros ? Hh. apply validate_hash_value_ok in Hh.
  eapply h_must_io; [apply inspect_root_must|]. intros root Hroot.
  apply h_must_stop; [done|]. intros Hin%negb_false_iff. h_step.
  unfold grounded_outcome; simpl. unfold allow_grounds. rewrite Ha. split; [done|]. split; [done|].
  by exists root.
Qed.

Lemma write_grounds request ws target expectation creation :
  rq_action request =
    (if creation : bool then CreateFile target else WriteFile target) ->
  expectation = (if creation then NewFile else ExpectFile) ->
  h_must (evaluate_write request ws target expectation creation) [] (grounded_outcome request ws).
Proof.
  intros Ha He. unfold evaluate_write. eapply h_must_io; [apply inspect_path_must|]. intros r Hr.
  eapply h_must_io; [apply validated_active_worktree_must|]. intros active Hauth.
  apply h_must_stop; [done|]. intros Hmode%mode_not_read_only.
  apply h_must_stop; [done|]. intros Hroot%negb_false_iff.
  pose proof (in_worktree_intro _ _ _ _ Hauth Hroot).
  h_steps. unfold grounded_outcome. subst expectation.
  destruct creation; simpl; unfold allow_grounds; rewrite Ha; split; [done|by exists r|done|by exists r].
Qed.

Lemma delete_grounds request ws action :
  rq_action request = DeleteFile action ->
  h_must (evaluate_delete request ws action) [] (grounded_outcome request ws).
Proof.
  intros Ha. unfold evaluate_delete. apply h_must_stop; [done|]. intros Hrec.
  eapply h_must_io; [apply inspect_path_must|]. intros r Hr.
  eapply h_must_io; [apply require_read_scope_must|]. intros u [Hs|Hs];
    (apply h_must_stop; [done|]; intros Hmode%mode_not_read_only;
     apply h_must_stop; [done|]; intros Hroot); [congruence|].
  h_steps. unfold grounded_outcome; simpl. unfold approval_grounds. rewrite Ha.
  split; [done|]. split; [done|]. by exists r.
Qed.

Lemma apply_original_grounds request action paths (P : list PathSafetyReport -> RuleOutcome -> Prop) :
  (forall o, is_deny (outcome_decision o) = true -> P paths o) ->
  (forall o, is_require_approval (outcome_decision o) = true ->
     rq_mode request = ApprovedApply -> observed_state request (ap_base_head action) -> P paths o) ->
  h_must (evaluate_apply_original request action) paths P.
Proof.
  intros Hdeny Hreq. unfold evaluate_apply_original.
  apply h_must_stop; [intros _; by apply Hdeny|]. intros Hmode%negb_false_iff%bool_decide_eq_true.
  destruct (repository _) as [b|] eqn:Hb; [|by apply h_must_ret, Hdeny].
  apply h_must_stop; [intros _; by apply Hdeny|]. intros Hhead.
  apply h_must_stop; [intros _; by apply Hdeny|]. intros Hclean.
  apply h_must_safe; intros u Hd. apply h_must_ret, Hreq; [done..|].
  by eapply observed_state_intro.
Qed.

Lemma apply_patch_grounds request ws action :
  rq_action request = ApplyPatch action ->
  h_must (evaluate_apply_patch request ws action) [] (grounded_outcome request ws).
Proof.
  intros Ha. unfold evaluate_apply_patch.
  apply h_must_safe; intros ? Hd%validate_hash_value_ok.
  apply h_must_safe; intros ? Hf%validate_hash_value_ok.
  apply h_must_safe; intros ? _. apply h_must_safe; intros ? Ho%reject_if_ok%negb_false_iff.
  apply h_must_safe; intros ? Hp%validate_sorted_paths_ok.
  apply h_must_safe; intros ? Hc%validate_sorted_paths_ok.
  assert (patch_bound action) as Hbound by done.
  apply h_must_stop; [done|intros _].
  eapply h_must_io; [apply inspect_root_must|]. intros root Hdeclared.
  eapply h_must_io; [apply validated_active_worktree_must|]. intros active Hauth.
  eapply h_must_bind; [apply push_inspected_must|]. intros ps u (existing & -> & Hex).
  eapply h_must_bind; [apply push_inspected_must|]. intros ps u' (created & -> & Hcr).
  assert (patch_reports action root (existing ++ created)%list) as Hr by (by exists existing, created).
  unfold grounded_outcome. destruct (path_eqb root ws) eqn:Hroot.
  - apply apply_original_grounds.
    + by intros [[[[[] ?] ?] ?] ?].
    + intros [[[[[] ?] ?] ?] ?] Hq Hm Hs; try done. simpl. unfold approval_grounds. rewrite Ha.
      split; [done|]. split; [done|]. split; [done|]. by exists root.
  - apply h_must_stop; [|intros _; by apply h_must_ret]. intros Hact. split_bools. simpl.
    unfold allow_grounds. rewrite Ha. split; [done|]. split; [done|]. exists root. split; [done|].
    split; [done|]. split; [by apply (in_worktree_intro _ _ _ _ Hauth)|done].
Qed.

Lemma process_grounds request ws action :
  rq_action request = RunProcess action ->
  h_must (evaluate_process request ws action) [] (grounded_outcome request ws).
Proof.
  intros Ha. eapply h_must_mono; [apply evaluate_process_must|].
  intros ps [[[[d ?] ?] ?] ?] Hd. unfold grounded_outcome, grounded. simpl in *.
  destruct d; simpl in *; unfold allow_grounds, approval_grounds; rewrite ?Ha; naive_solver.
Qed.

Lemma create_worktree_grounds request ws action :
  rq_action request = CreateWorktree action ->
  h_must (evaluate_create_worktree request ws action) [] (grounded_outcome request ws).
Proof.
  intros Ha. unfold evaluate_create_worktree.
  eapply h_must_io; [apply inspect_root_must|]. intros root Hroot.
  apply h_must_stop; [done|intros Heq%negb_false_iff]. h_step.
  eapply h_must_io; [apply validate_worktree_destination_must|]. intros u' Hfresh.
  apply h_must_stop; [done|intros Hdet%negb_false_iff].
  apply h_must_stop; [done|intros Hmode%negb_false_iff%bool_decide_eq_true].
  destruct (repository _) as [b|] eqn:Hb; [|by apply h_must_ret].
  apply h_must_stop; [done|intros Hhead]. apply h_must_stop; [done|intros Hclean].
  apply h_must_safe; intros u Hd. apply h_must_ret. unfold grounded_outcome; simpl.
  unfold allow_grounds. rewrite Ha. split; [done|]. split; [done|].
  split; [by eapply observed_state_intro|]. split; [done|]. split; [done|by exists root].
Qed.

Lemma cleanup_grounds request ws action :
  rq_action request = CleanupWorktree action ->
  h_must (evaluate_cleanup request ws action) [] (grounded_outcome request ws).
Proof.
  intros Ha. unfold evaluate_cleanup. h_step.
  apply h_must_stop; [done|intros Hmode%mode_not_read_only].
  eapply h_must_io; [apply inspect_root_must|]. intros root Hroot.
  apply h_must_stop; [done|intros Heq%negb_false_iff].
  eapply h_must_io; [apply validated_active_worktree_must|]. intros active Hauth.
  eapply h_must_io; [apply inspect_root_must|]. intros target Htarget. unfold grounded_outcome.
  apply h_must_stop; [|intros _; apply h_must_ret; simpl; unfold approval_grounds; rewrite Ha;
    split; [done|split; [done|by exists root]]].
  intros Hc. split_bools. simpl. unfold allow_grounds. rewrite Ha. split; [done|]. split; [done|].
  destruct (active_worktree _) as [w|]; [|done]. exists target, w. split; [done|].
  split; [by apply (in_worktree_intro _ _ _ _ Hauth)|]. split; [done|]. by apply String.eqb_eq.
Qed.

Lemma git_read_grounds request ws action :
  rq_action request = GitRead action ->
  h_must (evaluate_git_read request ws action) [] (grounded_outcome request ws).
Proof.
  intros Ha. unfold evaluate_git_read.
  apply h_must_stop; [done|intros Hop%bool_decide_eq_false].
  eapply h_must_io; [apply inspect_root_must|]. intros root Hroot.
  eapply h_must_io; [apply require_read_scope_must|]. intros u Hs.
  eapply h_must_bind; [apply inspect_path_list_must|]. intros ps u' (? & ? & reports & -> & ?).
  h_step. unfold grounded_outcome; simpl. unfold allow_grounds. rewrite Ha. split; [done|].
  split; [done|]. split; [done|]. by exists root.
Qed.

Lemma git_commit_grounds request ws action :
  rq_action request = GitCommit action ->
  h_must (evaluate_git_commit request ws action) [] (grounded_outcome request ws).
Proof.
  intros Ha. unfold evaluate_git_commit.
  apply h_must_safe; intros ? Ht%validate_hash_value_ok.
  apply h_must_safe; intros ? Hm%validate_hash_value_ok.
  eapply h_must_io; [apply inspect_root_must|]. intros root Hroot.
  eapply h_must_io; [apply require_read_scope_must|]. intros u Hs. h_step.
  unfold grounded_outcome. case_bool_decide; simpl; [done|].
  unfold approval_grounds. rewrite Ha. split_and!; try done. by exists root.
Qed.

Lemma transaction_grounds request ws action outcome :
  rq_action request = RecoverTransaction action \/ rq_action request = RollbackTransaction action ->
  is_require_approval (outcome_decision outcome) = true ->
  h_must (evaluate_transaction request ws action outcome) [] (grounded_outcome request ws).
Proof.
  intros Ha Ho. unfold evaluate_transaction.
  eapply h_must_io with (P := fun _ => valid_hash (ta_expected_state_hash action) /\
    exists root, root_of (ta_workspace_root action) root /\ path_eqb root ws = true).
  { unfold validate_transaction_action. eapply must_try_ok; [apply inspect_root_must|].
    intros root Hroot. apply must_check; intros Heq%negb_false_iff. apply must_pure; intros ? _.
    destruct (validate_hash_value _ _) eqn:Hh; simpl; [|done].
    split; [by eapply validate_hash_value_ok|by exists root]. }
  intros _ [Hh Hroot]. apply h_must_stop; [done|intros Hmode%mode_not_read_only]. apply h_must_ret.
  unfold grounded_outcome. destruct outcome as [[[[[] ?] ?] ?] ?]; try done. simpl.
  unfold approval_grounds. by destruct Ha as [-> | ->].
Qed.

(** Every decision of [evaluate_action] is grounded; in particular the
    closed actions are only ever denied. *)
Lemma evaluate_action_grounded request ws :
  h_must (evaluate_action request ws) [] (grounded_outcome request ws).
Proof.
  unfold evaluate_action. destruct (rq_action request) eqn:Ha;
    try (apply h_must_ret; exact I).
  - by apply read_file_grounds.
  - by apply read_directory_grounds.
  - by apply search_grounds.
  - by apply context_grounds.
  - by apply rag_grounds.
  - by apply write_grounds.
  - by apply write_grounds.
  - by apply delete_grounds.
  - by apply apply_patch_grounds.
  - by apply process_grounds.
  - by apply create_worktree_grounds.
  - by apply cleanup_grounds.
  - by apply git_read_grounds.
  - apply h_must_ret. unfold grounded_outcome, evaluate_git_write. by case_bool_decide.
  - by apply git_commit_grounds.
  - apply transaction_grounds; auto.
  - apply transaction_grounds; auto.
Qed.
End HandlerGrounds.
