(* ===== verification/Observers.v ===== *)
(** * Programs that only observe

    Evaluating a request reads the file system, the clock and the
    environment, never writes and never panics.  This file proves it
    bottom-up, from the path inspection to [evaluate]. *)

From stdpp Require Import base list strings.
From Stdlib Require Import NArith Ascii String.
From S2P Require Import Prelude Bytes UnixPath IO Model Paths AuditLog Approval Rules Worktree Actions Engine.

(** Only observing calls, and no panic, whatever the answers. *)
Definition observer {A} (m : IO A) : Prop := read_only m /\ no_panic m.

Lemma observer_ret {A} (a : A) : observer (Ret a).
Proof. done. Qed.

Lemma observer_sys {R : Set} (c : syscall R) : observes c = true -> observer (sys c).
Proof. by repeat split. Qed.

Lemma observer_bind {A B} (m : IO A) (f : A -> IO B) :
  observer m -> (forall a, observer (f a)) -> observer (bind m f).
Proof.
  intros [? ?] Hf. split.
  - apply calls_bind; [done|]. intros a; apply Hf.
  - apply no_panic_bind; [done|]. intros a; apply Hf.
Qed.

Lemma observer_call {A} {R : Set} (c : syscall R) (k : R -> IO A) :
  observes c = true -> (forall r, observer (k r)) -> observer (Sys c k).
Proof. intros Hc Hk. split; simpl; [split; [done|]|]; intros r; apply Hk. Qed.

Lemma observer_try {A B E} (m : IO (result A E)) (f : A -> IO (result B E)) :
  observer m -> (forall a, observer (f a)) -> observer (try_bind m f).
Proof. intros. apply observer_bind; [done|]. by intros []. Qed.

Lemma observer_map_err {A E F} (g : E -> F) (m : IO (result A E)) :
  observer m -> observer (io_map_err g m).
Proof. intros. by apply observer_bind. Qed.

Lemma observer_lift {A E} (r : result A E) : observer (lift r).
Proof. done. Qed.

Create HintDb observer.
#[export] Hint Resolve observer_ret observer_lift : observer.

(** Follows the structure of a program; leaves its own functions to the
    hint database. *)
Ltac observe :=
  repeat first
    [ solve [auto with observer nocore]
    | apply observer_try; [|intros ?]
    | apply observer_bind; [|intros ?]
    | apply observer_map_err
    | apply observer_sys; reflexivity
    | apply observer_call; [reflexivity|intros ?]
    | match goal with |- observer (match ?x with _ => _ end) => destruct x end ].

(** ** Path inspection *)

Lemma reject_nested_observer root relative : observer (reject_nested_repository root relative).
Proof.
  unfold reject_nested_repository. generalize (components relative) as cs. intros cs. revert root.
  induction cs as [|c cs IH]; intros root; simpl; observe; apply IH.
Qed.

Lemma inspect_components_observer root relative e : observer (inspect_components root relative e).
Proof.
  unfold inspect_components. generalize (components relative) as cs. intros cs. revert root.
  induction cs as [|c cs IH]; intros root; simpl; observe; apply IH.
Qed.

Lemma sys_or_observer {A : Set} (c : syscall (result A io_error)) e :
  observes c = true -> observer (sys_or c e).
Proof. intros. apply observer_map_err, observer_sys. done. Qed.
#[export] Hint Resolve reject_nested_observer inspect_components_observer : observer.
#[export] Hint Extern 1 (observer (sys_or _ _)) => apply sys_or_observer; reflexivity : observer.

Lemma fingerprint_observer `{Blake3} md path h : observer (fingerprint md path h).
Proof. unfold fingerprint. observe. Qed.
#[export] Hint Resolve fingerprint_observer : observer.

Lemma inspect_path_observer `{Blake3} t e : observer (inspect_path t e).
Proof. unfold inspect_path. observe. Qed.

Lemma inspect_root_observer p : observer (inspect_root p).
Proof. unfold inspect_root. observe. Qed.
#[export] Hint Resolve inspect_path_observer inspect_root_observer : observer.

Lemma revalidate_observer `{Blake3} r : observer (revalidate r).
Proof. apply inspect_path_observer. Qed.
#[export] Hint Resolve revalidate_observer : observer.

(** ** Worktrees and boundaries *)

Lemma canonical_is_observer p q : observer (canonical_is p q).
Proof. unfold canonical_is. observe. Qed.
Lemma canonical_parent_observer p : observer (canonical_parent p).
Proof. unfold canonical_parent. observe. Qed.
Lemma storage_observer : observer controlled_worktree_storage.
Proof. unfold controlled_worktree_storage, temp_dir. observe. Qed.
Lemma read_to_string_observer p e : observer (read_to_string p e).
Proof. unfold read_to_string. observe. Qed.
#[export] Hint Resolve canonical_is_observer canonical_parent_observer storage_observer
  read_to_string_observer : observer.

Lemma lease_observer `{LeaseSerde} s d r w i q : observer (validate_worktree_lease s d r w i q).
Proof. unfold validate_worktree_lease, lease_differs. observe. Qed.
Lemma git_file_observer r d : observer (validate_git_file r d).
Proof. unfold validate_git_file. observe. Qed.
#[export] Hint Resolve lease_observer git_file_observer : observer.

Lemma active_observer `{LeaseSerde} request w : observer (validated_active_worktree request w).
Proof. unfold validated_active_worktree, validate_active_descriptor. observe. Qed.
#[export] Hint Resolve active_observer : observer.

Lemma read_scope_observer `{LeaseSerde} request w r : observer (require_read_scope request w r).
Proof. unfold require_read_scope. observe. Qed.
Lemma destination_observer d r : observer (validate_worktree_destination d r).
Proof. unfold validate_worktree_destination. observe. Qed.
Lemma boundary_observer b w : observer (validate_repository_boundary b w).
Proof. unfold validate_repository_boundary, index_misplaced. observe. Qed.
Lemma transaction_observer a w : observer (validate_transaction_action a w).
Proof. unfold validate_transaction_action. observe. Qed.
#[export] Hint Resolve read_scope_observer destination_observer boundary_observer
  transaction_observer : observer.

Lemma installed_observer `{Blake3} p : observer (inspect_installed_executable p).
Proof.
  unfold inspect_installed_executable. observe.
Qed.
#[export] Hint Resolve installed_observer : observer.

(** ** Handlers *)

Definition h_observer {A} (m : handler A) : Prop := forall paths, observer (m paths).

Lemma h_observer_ret {A} (a : A) : h_observer (h_ret a).
Proof. done. Qed.
Lemma h_observer_safe {A} (r : safe A) : h_observer (h_safe r).
Proof. done. Qed.
Lemma h_observer_push p : h_observer (h_push p).
Proof. done. Qed.
Lemma h_observer_io {A} (m : IO (safe A)) : observer m -> h_observer (h_io m).
Proof. intros Hm paths. by apply observer_bind. Qed.
Lemma h_observer_bind {A B} (m : handler A) (f : A -> handler B) :
  h_observer m -> (forall a, h_observer (f a)) -> h_observer (h_bind m f).
Proof.
  intros Hm Hf paths. apply observer_bind; [apply Hm|]. intros [ps [a|e]]; simpl; [apply Hf|done].
Qed.
#[export] Hint Resolve h_observer_ret h_observer_safe h_observer_push : observer.

Ltac h_observe :=
  repeat first
    [ solve [auto with observer nocore]
    | apply h_observer_bind; [|intros ?]
    | apply h_observer_io; observe
    | match goal with |- h_observer (match ?x with _ => _ end) => destruct x end ].

Section Handlers.
Context `{Blake3, LeaseSerde}.

Lemma push_inspected_observer root input e : h_observer (push_inspected root input e).
Proof. induction input; simpl; h_observe; done. Qed.
Lemma inspect_path_list_observer root input : h_observer (inspect_path_list root input).
Proof. unfold inspect_path_list. h_observe. apply push_inspected_observer. Qed.

Lemma evaluate_action_observer request w : h_observer (evaluate_action request w).
Proof.
  pose proof push_inspected_observer. pose proof inspect_path_list_observer.
  unfold evaluate_action. destruct (rq_action request);
    unfold evaluate_read_file, evaluate_read_directory, evaluate_search, evaluate_context,
      evaluate_rag, evaluate_write, evaluate_delete, evaluate_apply_patch, evaluate_apply_original,
      evaluate_process, evaluate_create_worktree, evaluate_cleanup, evaluate_git_read,
      evaluate_git_commit, evaluate_transaction, check_wrapper, check_installed, push_cwd,
      require_workspace_or_active_root, h_stop_if;
    h_observe; done.
Qed.
End Handlers.

(** ** Evaluation *)

Section Engine.
Context `{Blake3, LeaseSerde, AuditSerde, ApprovalSerde, EngineSerde}.

Lemma validate_request_observer request : observer (validate_request request).
Proof. unfold validate_request. observe. Qed.
Lemma inspect_workspace_observer request : observer (inspect_workspace request).
Proof. unfold inspect_workspace. observe. Qed.

Lemma evaluate_observes request : observer (evaluate request).
Proof.
  pose proof validate_request_observer. pose proof inspect_workspace_observer.
  unfold evaluate. observe; try done. apply evaluate_action_observer.
Qed.

Lemma ensure_state_observer engine request :
  observer (ensure_state_outside_workspace engine request).
Proof.
  pose proof inspect_workspace_observer. unfold ensure_state_outside_workspace. observe; done.
Qed.

Lemma revalidate_paths_observer paths : observer (revalidate_paths paths).
Proof. induction paths; simpl; observe; done. Qed.
End Engine.
#[export] Hint Resolve validate_request_observer inspect_workspace_observer evaluate_observes
  ensure_state_observer revalidate_paths_observer : observer.
