(* ===== verification/ReferenceFacts.v ===== *)
(** * Safe workspace references: what a successful read guarantees

    Whatever the file system answers, a reference that is read names an
    unlinked regular file inside the root, whose fingerprint was the same
    before and after, and its content is the whole file: UTF-8 text within
    the limit, without a detected secret. *)

From stdpp Require Import base list strings.
From Stdlib Require Import NArith Ascii String Lia.
From S2P Require Import Prelude Bytes Text UnixPath IO Paths Anyhow TextFacts Secrets RagPolicy Reference Observers.

Local Open Scope string_scope.
Local Open Scope N_scope.

(** ** The reads only observe *)

Section Observes.
Context `{Blake3, RegexBoundary}.

Lemma detect_secret_observer content : observer (detect_secret content).
Proof. destruct (detect_secret_total content) as (? & -> & _). apply observer_ret. Qed.

Lemma inspect_sensitive_observer content : observer (inspect_sensitive_text content).
Proof. apply detect_secret_observer. Qed.

Lemma sys_refuse_observer {A : Set} (c : syscall (io A)) r m : observes c = true -> observer (sys_refuse c r m).
Proof. intros. by apply observer_map_err, observer_sys. Qed.

Lemma validate_components_observer root relative : observer (validate_components root relative).
Proof.
  unfold validate_components. generalize (components relative) as cs. intros cs. revert root.
  induction cs as [|c cs IH]; intros root; cbn [validate_components_from]; [done|].
  apply observer_try; [by apply sys_refuse_observer|]. intros m. destruct (metadata_is_link_or_reparse m); [done|apply IH].
Qed.
#[local] Hint Resolve detect_secret_observer validate_components_observer : observer.
#[local] Hint Extern 1 (observer (sys_refuse _ _ _)) => apply sys_refuse_observer; reflexivity : observer.

Lemma read_reference_observer workspace requested max_bytes :
  observer (read_safe_workspace_file workspace requested max_bytes).
Proof.
  unfold read_safe_workspace_file, inspect_workspace_root, read_candidate, recheck_reference, accept_reference.
  cbv zeta. observe.
Qed.
End Observes.

(** ** What a success means *)

Section Reads.
Context {An : Answers} `{Blake3, Regex}.

(** Every component, followed from [current], answered as something other
    than a link. *)
Fixpoint unlinked_from (current : string) (cs : list component) : Prop :=
  match cs with
  | [] => True
  | c :: cs' =>
      let current := join current (component_str c) in
      (exists m, answers (SymlinkMetadata current) (Ok m) /\ is_symlink m = false) /\ unlinked_from current cs'
  end.

Lemma link_is_symlink m : RagPolicy.metadata_is_link_or_reparse m = is_symlink m.
Proof. unfold metadata_is_link_or_reparse. by destruct (is_symlink m). Qed.

Lemma validate_components_must root relative :
  must (validate_components root relative) (ok_post (fun _ => unlinked_from root (components relative))).
Proof.
  unfold validate_components. generalize (components relative) as cs. intros cs. revert root.
  induction cs as [|c cs IH]; intros root; cbn [validate_components_from unlinked_from]; [done|].
  intros r Hr. destruct r as [m|e]; [|done]. simpl.
  destruct (metadata_is_link_or_reparse m) eqn:Hl; [done|].
  eapply must_mono; [apply IH|]. intros [[]|] Hu; [|done]. rewrite link_is_symlink in Hl. split; [exists m; by split|exact Hu].
Qed.

(** The candidate's metadata, its canonical path and the content of the
    handle, as answered during one read. *)
Record read_witness (root relative : string) (max_bytes : N) (f : SafeWorkspaceFile) : Prop := {
  rw_unlinked : unlinked_from root (components relative);
  rw_file : exists before after handle canonical,
    answers (SymlinkMetadata (join root relative)) (Ok before)
    /\ answers (SymlinkMetadata (join root relative)) (Ok after)
    /\ answers (Canonicalize (join root relative)) (Ok canonical)
    /\ answers (OpenRead (join root relative)) (Ok handle)
    /\ answers (ReadHandle handle) (Ok (sf_content f))
    /\ is_file before = true /\ is_symlink after = false
    /\ path_starts_with canonical root = true
    /\ fingerprint before = fingerprint after;
  rw_size : strlen (sf_content f) <= max_bytes;
  rw_utf8 : utf8_valid (sf_content f) = true;
  rw_secret : detect_secret (sf_content f) = Ret None;
  rw_hash : sf_content_hash f = blake3_hex (sf_content f);
  rw_counts : sf_bytes f = strlen (sf_content f) /\ sf_chars f = char_count (sf_content f);
  rw_path : sf_relative_path f = normalized_relative relative;
}.

Lemma must_refuse {A : Set} (c : syscall (io A)) r m (Q : A -> Prop) :
  (forall a, answers c (Ok a) -> Q a) -> must (sys_refuse c r m) (ok_post Q).
Proof. intros HQ [a|e] Hr; [by apply HQ|done]. Qed.

Lemma detect_none content : must (detect_secret content) (fun s => s = None -> detect_secret content = Ret None).
Proof.
  unfold detect_secret. induction token_patterns as [|[[r c] p] ps IH]; simpl.
  - by intros ->.
  - destruct (regex_find p content); [|exact IH]. unfold bounded_position.
    destruct (slice_to _ _); [|done]. simpl. done.
Qed.

Lemma accept_reference_must relative bytes :
  must (accept_reference relative bytes) (ok_post (fun f =>
    sf_content f = bytes /\ utf8_valid bytes = true /\ detect_secret bytes = Ret None
    /\ sf_content_hash f = blake3_hex bytes /\ sf_bytes f = strlen bytes /\ sf_chars f = char_count bytes
    /\ sf_relative_path f = normalized_relative relative)).
Proof.
  unfold accept_reference. destruct (utf8_valid bytes) eqn:Hu; [|done]. simpl.
  eapply must_bind; [apply detect_none|]. intros [d|] Hs; [done|]. simpl. naive_solver.
Qed.

Lemma recheck_reference_must root relative candidate file before canonical :
  must (recheck_reference root relative candidate file before canonical) (ok_post (fun _ =>
    unlinked_from root (components relative)
    /\ exists after, answers (SymlinkMetadata candidate) (Ok after) /\ is_symlink after = false
       /\ before = fingerprint after)).
Proof.
  unfold recheck_reference. eapply must_try_ok; [apply validate_components_must|]. intros [] Hu.
  eapply must_try_ok; [apply (must_refuse _ _ _ (fun _ => True)); auto|]. intros ha _.
  eapply must_try_ok; [apply (must_refuse _ _ _ (fun m => answers (SymlinkMetadata candidate) (Ok m))); auto|].
  intros am Ham. eapply must_try_ok; [apply (must_refuse _ _ _ (fun _ => True)); auto|]. intros ac _. simpl.
  destruct (_ || _) eqn:E; [done|]. rewrite link_is_symlink in E. split_bools. split; [done|]. exists am. split_and!; [done..|].
  destruct (decide (before = fingerprint am)); [done|contradiction].
Qed.

Lemma take_whole n s : strlen (take_bytes (N.to_nat (n + 1)) s) <= n -> take_bytes (N.to_nat (n + 1)) s = s.
Proof. unfold strlen. rewrite length_take_bytes. intros. apply take_bytes_all. lia. Qed.

Lemma read_candidate_must root relative max_bytes :
  max_bytes < u64_max ->
  must (read_candidate root relative max_bytes) (ok_post (read_witness root relative max_bytes)).
Proof.
  intros Hmax. unfold read_candidate. set (candidate := join root relative).
  eapply must_try_ok; [apply validate_components_must|]. intros [] Hu.
  eapply must_try_ok; [apply (must_refuse _ _ _ (fun m => answers (SymlinkMetadata candidate) (Ok m))); auto|].
  intros before Hbefore. destruct (_ || _) eqn:Hf; [done|]. destruct (_ <? _); [done|].
  eapply must_try_ok; [apply (must_refuse _ _ _ (fun c => answers (Canonicalize candidate) (Ok c))); auto|].
  intros canonical Hcan. destruct (path_starts_with canonical root) eqn:Hin; [|done]. cbn [negb].
  eapply must_try_ok; [apply (must_refuse _ _ _ (fun h => answers (OpenRead candidate) (Ok h))); auto|].
  intros file Hfile. eapply must_try_ok; [apply (must_refuse _ _ _ (fun _ => True)); auto|]. intros hb _.
  destruct (bool_decide _); [done|].
  eapply must_try_ok; [apply (must_refuse _ _ _ (fun c => answers (ReadHandle file) (Ok c))); auto|].
  intros content Hcontent. cbv zeta.
  assert (saturating_add64 max_bytes 1 = max_bytes + 1) as -> by (unfold saturating_add64; lia).
  destruct (_ <? _) eqn:Hlen; [done|]. apply N.ltb_ge in Hlen. rewrite take_whole in * by done.
  eapply must_try_ok; [apply recheck_reference_must|]. intros [] (_ & after & Hafter & Hal & Hfp).
  eapply must_mono; [apply accept_reference_must|]. intros [f|] Hok; [|done].
  destruct Hok as (<- & Hu8 & Hs & Hh & Hb & Hc & Hp). split_bools.
  split; try done. exists before, after, file, canonical. by split_and!.
Qed.
End Reads.

(** ** The whole read *)

Section Workspace.
Context {An : Answers} `{Blake3, Regex}.

Lemma workspace_root_must workspace :
  must (inspect_workspace_root workspace) (ok_post (fun root =>
    answers (Canonicalize workspace) (Ok root)
    /\ exists m, answers (SymlinkMetadata workspace) (Ok m) /\ is_dir m = true)).
Proof.
  unfold inspect_workspace_root.
  eapply must_try_ok; [apply (must_refuse _ _ _ (fun m => answers (SymlinkMetadata workspace) (Ok m))); auto|].
  intros m Hm. destruct (_ || _) eqn:E; [done|]. split_bools. intros [root|] Hr; [|done]. split; [exact Hr|]. exists m. by split.
Qed.

Lemma read_reference_must workspace requested max_bytes :
  must (read_safe_workspace_file workspace requested max_bytes) (ok_post (fun f =>
    exists root relative,
      answers (Canonicalize workspace) (Ok root)
      /\ relative_request_path root requested = Ok relative /\ reject_sensitive_path relative = Ok tt
      /\ 0 < max_bytes <= MAX_SAFE_REFERENCE_FILE_BYTES /\ read_witness root relative max_bytes f)).
Proof.
  unfold read_safe_workspace_file. destruct (_ || _) eqn:Hl; [done|]. split_bools.
  rewrite N.eqb_neq in *. rewrite N.ltb_ge in *.
  eapply must_try_ok; [apply workspace_root_must|]. intros root (Hroot & _).
  destruct (relative_request_path root requested) as [relative|] eqn:Hr; [|done].
  change (must (try_bind (Ret (reject_sensitive_path relative)) (fun _ => read_candidate root relative max_bytes))
    (ok_post (fun f => exists root0 relative0, answers (Canonicalize workspace) (Ok root0)
      /\ relative_request_path root0 requested = Ok relative0 /\ reject_sensitive_path relative0 = Ok tt
      /\ 0 < max_bytes <= MAX_SAFE_REFERENCE_FILE_BYTES /\ read_witness root0 relative0 max_bytes f))).
  destruct (reject_sensitive_path relative) as [[]|] eqn:Hs; [|done]. cbn [try_bind bind].
  assert (max_bytes < u64_max) by (unfold MAX_SAFE_REFERENCE_FILE_BYTES, u64_max in *; lia).
  eapply must_mono; [by apply read_candidate_must|]. intros [f|] Hf; [|done]. simpl in *.
  exists root, relative. split_and!; try done. lia.
Qed.

Lemma relative_request_normal root requested relative :
  relative_request_path root requested = Ok relative ->
  relative <> "" /\ forallb is_normal (components relative) = true.
Proof.
  unfold relative_request_path. intros (r & _ & E)%rbind_ok. destruct r as [|c r]; [done|].
  cbn [is_empty] in E. destruct (forallb is_normal (components (String c r))) eqn:En; [|done].
  injection E as <-. done.
Qed.

Lemma reject_sensitive_ok relative :
  reject_sensitive_path relative = Ok tt ->
  denied_relative_directory relative = None /\ denied_parent (components relative) = None
  /\ sensitive_file_name relative = None.
Proof.
  unfold reject_sensitive_path. destruct (denied_relative_directory relative) as [[]|]; [done|].
  destruct (denied_parent _); [done|]. destruct (sensitive_file_name relative) as [[]|]; done.
Qed.
End Workspace.

(** A reference that is read is confined and whole, whatever the file
    system answers and however it changes between two calls: its path inside
    the canonical workspace consists of normal components, none of them a
    denied directory, and names no sensitive file; no component was a link,
    neither before nor after; the target was a regular file whose canonical
    path is under the root and whose fingerprint did not change; and the
    content is everything the handle held, valid UTF-8 within the limit (at
    most 2 MiB), without a detected secret, under its own hash. *)
Theorem safe_reference_read {An : Answers} `{Blake3, Regex} workspace requested max_bytes :
  must (read_safe_workspace_file workspace requested max_bytes) (ok_post (fun f =>
    exists root relative,
      answers (Canonicalize workspace) (Ok root)
      /\ (relative <> "" /\ forallb is_normal (components relative) = true)
      /\ (denied_relative_directory relative = None /\ denied_parent (components relative) = None
          /\ sensitive_file_name relative = None)
      /\ 0 < max_bytes <= MAX_SAFE_REFERENCE_FILE_BYTES /\ read_witness root relative max_bytes f)).
Proof.
  eapply must_mono; [apply read_reference_must|]. intros [f|] Hf; [|done].
  destruct Hf as (root & relative & Hc & Hr & Hs & Hm & Hw). exists root, relative. split_and!; try done.
  - by eapply relative_request_normal.
  - by eapply relative_request_normal.
  - by eapply reject_sensitive_ok.
  - by eapply reject_sensitive_ok.
  - by eapply reject_sensitive_ok.
  - lia.
  - lia.
Qed.

(** Reading a reference changes nothing and cannot panic, for every
    regular-expression engine that reports matches at character
    boundaries. *)
Theorem safe_reference_observes `{Blake3, RegexBoundary} workspace requested max_bytes :
  read_only (read_safe_workspace_file workspace requested max_bytes)
  /\ no_panic (read_safe_workspace_file workspace requested max_bytes).
Proof. exact (read_reference_observer workspace requested max_bytes). Qed.
