(* ===== verification/GroundingFacts.v ===== *)
(** * What the evidence checks and the fingerprints guarantee

    [validate_evidence] accepts exactly the well-formed answers; the text a
    manifest's fingerprint hashes determines the manifest. *)

From stdpp Require Import base list strings gmap pretty.
From Stdlib Require Import NArith ZArith Ascii String Lia.
From S2P Require Import Prelude Bytes Text IO Anyhow Paths TextFacts Grounding.

Local Open Scope string_scope.
Local Open Scope N_scope.

(** ** Evidence *)

(** The entry that counts for a path: the last one of the manifest. *)
Definition injected (manifest : ContextManifest) (path : string) (entry : ContextManifestEntry) : Prop :=
  en_path entry = path /\ exists before after,
    mf_entries manifest = (before ++ entry :: after)%list /\ Forall (fun e => en_path e <> path) after.

Definition proves (manifest : ContextManifest) (citation : EvidenceCitation) : Prop :=
  exists entry, injected manifest (ct_path citation) entry
    /\ ct_content_hash citation = en_injected_hash entry
    /\ en_workspace_id entry = mf_workspace_id manifest
    /\ exists r, In r (en_ranges entry)
         /\ start_line r <= ct_start_line citation <= ct_end_line citation /\ ct_end_line citation <= end_line r.

(** What is asked of one claim, its identifier apart. *)
Definition sound_claim (response : GroundedResponse) (manifest : ContextManifest) (mode : ChatEvidenceMode) (claim : GroundedClaim)
    : Prop :=
  let c := cl_classification claim in
  (c = Observed \/ c = Inferred \/ mode = Required /\ c <> InsufficientEvidence -> cl_evidence claim <> [])
  /\ (c = GeneralKnowledge -> mf_context_scope manifest <> ReferencesOnly /\ gr_used_general_knowledge response = true)
  /\ Forall (proves manifest) (cl_evidence claim).

Definition sound_response (response : GroundedResponse) (manifest : ContextManifest) (mode : ChatEvidenceMode) : Prop :=
  gr_schema_version response = GROUNDING_SCHEMA_VERSION
  /\ (mf_context_scope manifest = ReferencesOnly -> gr_used_general_knowledge response = false)
  /\ (mode = Required -> trim (gr_answer response) <> "" -> gr_claims response <> [])
  /\ NoDup (map cl_claim_id (gr_claims response))
  /\ Forall (fun c => trim (cl_claim_id c) <> "" /\ sound_claim response manifest mode c) (gr_claims response).

Lemma error_if_nil b message : error_if b message = [] <-> b = false.
Proof. by destruct b. Qed.

Lemma concat_nil {A} (l : list (list A)) : List.concat l = [] <-> Forall (fun x => x = []) l.
Proof.
  induction l as [|x l IH]; simpl; [done|]. rewrite app_nil, IH, Forall_cons. done.
Qed.

Lemma Forall_List_map {A B} (f : A -> B) (P : B -> Prop) l : Forall P (map f l) <-> Forall (fun x => P (f x)) l.
Proof. apply Forall_fmap. Qed.

Lemma entries_by_path_last (entries : list ContextManifestEntry) path :
  (list_to_map (rev (map (fun e => (en_path e, e)) entries)) : gmap string ContextManifestEntry) !! path
  = last (filter (fun e => en_path e = path) entries).
Proof.
  induction entries as [|e entries IH] using rev_ind; [done|].
  rewrite map_app, rev_app_distr, filter_app. simpl. rewrite filter_cons, filter_nil.
  destruct (decide (en_path e = path)) as [<-|Hne].
  - by rewrite lookup_insert_eq, last_snoc.
  - by rewrite lookup_insert_ne, app_nil_r.
Qed.

Lemma injected_iff manifest path entry : entries_by_path manifest !! path = Some entry <-> injected manifest path entry.
Proof.
  unfold entries_by_path, injected. rewrite entries_by_path_last. induction (mf_entries manifest) as [|e l IH] using rev_ind.
  - split; [done|]. intros (_ & before & after & Hl & _). by apply app_cons_not_nil in Hl.
  - rewrite filter_app, filter_cons, filter_nil. case_decide as He.
    + rewrite last_snoc. split.
      * intros [= ->]. split; [done|]. exists l, []. by rewrite Forall_nil.
      * intros (Hp & before & after & Hl & Ha). destruct after as [|a after _] using rev_ind.
        { apply app_inj_tail in Hl as [_ ->]. done. }
        rewrite app_comm_cons, app_assoc in Hl. apply app_inj_tail in Hl as [_ ->].
        apply Forall_app in Ha as [_ Ha]. by inversion_clear Ha.
    + rewrite app_nil_r, IH. split; intros (Hp & before & after & Hl & Ha); (split; [done|]).
      * exists before, (after ++ [e])%list. rewrite Hl, <- app_assoc. split; [done|]. apply Forall_app. by rewrite Forall_singleton.
      * destruct after as [|a after _] using rev_ind.
        { apply app_inj_tail in Hl as [_ ->]. done. }
        rewrite app_comm_cons, app_assoc in Hl. apply app_inj_tail in Hl as [-> ->].
        exists before, after. split; [done|]. by apply Forall_app in Ha as [Ha _].
Qed.

Lemma in_range_iff citation r :
  in_range_of citation r = true <->
  start_line r <= ct_start_line citation <= ct_end_line citation /\ ct_end_line citation <= end_line r.
Proof. unfold in_range_of. rewrite !andb_true_iff, !N.leb_le. tauto. Qed.

Lemma citation_errors_nil manifest id citation : citation_errors manifest id citation = [] <-> proves manifest citation.
Proof.
  unfold citation_errors, proves. destruct (_ !! _) as [entry|] eqn:Hl.
  - rewrite !app_nil, !error_if_nil, !negb_false_iff, !String.eqb_eq, existsb_exists.
    setoid_rewrite in_range_iff. setoid_rewrite <- injected_iff. rewrite Hl. naive_solver.
  - setoid_rewrite <- injected_iff. rewrite Hl. naive_solver.
Qed.

Lemma nonempty_iff {A} (l : list A) : (match l with [] => true | _ => false end = false) <-> l <> [].
Proof. by destruct l. Qed.

Lemma evidence_required_iff mode c :
  evidence_required mode c = true <-> c = Observed \/ c = Inferred \/ mode = Required /\ c <> InsufficientEvidence.
Proof. destruct mode, c; vm_compute; naive_solver. Qed.

Lemma and_iff_false b c (B C : Prop) : (b = true <-> B) -> (c = true <-> C) -> (b && c = false <-> (B -> ~ C)).
Proof. destruct b, c; naive_solver. Qed.

Lemma true_iff (b : bool) : b = true <-> b = true.
Proof. done. Qed.

Lemma empty_evidence_iff {A} (l : list A) : (match l with [] => true | _ => false end = true) <-> l = [].
Proof. by destruct l. Qed.

Lemma decide_true_iff (P : Prop) `{Decision P} : bool_decide P = true <-> P.
Proof. apply bool_decide_eq_true. Qed.

Lemma claim_errors_nil response manifest mode seen claim :
  claim_errors response manifest mode seen claim = [] <->
  trim (cl_claim_id claim) <> "" /\ cl_claim_id claim ∉ seen /\ sound_claim response manifest mode claim.
Proof.
  unfold claim_errors, sound_claim. rewrite !app_nil, !error_if_nil, concat_nil, Forall_List_map, orb_false_iff.
  rewrite (and_iff_false _ _ _ _ (evidence_required_iff _ _) (empty_evidence_iff _)).
  rewrite (and_iff_false _ _ _ _ (decide_true_iff _) (decide_true_iff _)).
  rewrite (and_iff_false _ _ _ _ (decide_true_iff _) (true_iff _)).
  setoid_rewrite citation_errors_nil.
  rewrite <- !not_true_iff_false, set_contains_iff. unfold is_empty. rewrite String.eqb_eq, negb_true_iff.
  destruct (gr_used_general_knowledge response); split; intros Hc; split_and?; tauto || (intuition congruence).
Qed.

Lemma claims_errors_nil response manifest mode seen claims :
  claims_errors response manifest mode seen claims = [] <->
  NoDup (map cl_claim_id claims) /\ (forall c, In c claims -> cl_claim_id c ∉ seen)
  /\ Forall (fun c => trim (cl_claim_id c) <> "" /\ sound_claim response manifest mode c) claims.
Proof.
  revert seen. induction claims as [|c claims IH]; intros seen; simpl; [rewrite NoDup_nil, Forall_nil; naive_solver|].
  rewrite app_nil, IH, claim_errors_nil, NoDup_cons, Forall_cons. unfold note_claim.
  destruct (is_empty (trim (cl_claim_id c))) eqn:He; [apply String.eqb_eq in He; naive_solver|].
  assert (trim (cl_claim_id c) <> "") by (intros Ht; by rewrite Ht in He).
  assert (cl_claim_id c ∉ map cl_claim_id claims <-> forall d, In d claims -> cl_claim_id d <> cl_claim_id c) as ->.
  { rewrite list_elem_of_In, in_map_iff. naive_solver. }
  setoid_rewrite not_elem_of_cons. split; [intros ((Ht & Hs & Hc) & Hd & Hseen & Hf)|intros ([Hd Hn] & Hseen & [Ht Hc] & Hf)].
  - split; [split; [|done]|split; [|split; [by split|done]]].
    + intros d Hi. by apply Hseen.
    + intros d [<-|Hi]; [done|by apply Hseen].
  - split; [split; [done|split; [by apply Hseen; left|done]]|split; [done|split; [|done]]].
    intros d Hi. split; [by apply Hd|apply Hseen; by right].
Qed.

Lemma response_errors_nil response manifest mode :
  response_errors response manifest mode = [] <->
  gr_schema_version response = GROUNDING_SCHEMA_VERSION
  /\ (mf_context_scope manifest = ReferencesOnly -> gr_used_general_knowledge response = false)
  /\ (mode = Required -> trim (gr_answer response) <> "" -> gr_claims response <> []).
Proof.
  unfold response_errors. rewrite !app_nil, !error_if_nil, negb_false_iff, N.eqb_eq.
  rewrite (and_iff_false _ _ _ _ (decide_true_iff _) (true_iff _)), <- andb_assoc.
  rewrite (and_iff_false _ _ _ _ (decide_true_iff (mode = Required)) (andb_true_iff _ _)).
  rewrite negb_true_iff, empty_evidence_iff, <- not_true_iff_false. unfold is_empty. rewrite String.eqb_eq.
  destruct (gr_used_general_knowledge response); intuition congruence.
Qed.

Lemma evidence_valid response manifest mode :
  ev_valid (validate_evidence response manifest mode) = true <->
  response_errors response manifest mode = [] /\ claims_errors response manifest mode [] (gr_claims response) = [].
Proof. unfold validate_evidence. cbv [ev_valid]. rewrite <- app_nil. by destruct (_ ++ _)%list. Qed.

(** C26: [validate_evidence] accepts an answer exactly when it has the current
    schema version; under [references_only], its flag says that it uses no
    general knowledge; it makes claims when it says something and evidence is
    required; every claim has an identifier of its own, the evidence its
    classification and the mode ask for, and citations that each name a path
    of the manifest with the hash and a line range of what was injected, in
    the manifest's workspace; and a claim of general knowledge is made only
    outside [references_only], and only when the flag of the answer says that
    it uses general knowledge. *)
Theorem evidence_iff response manifest mode :
  ev_valid (validate_evidence response manifest mode) = true <-> sound_response response manifest mode.
Proof.
  rewrite evidence_valid, response_errors_nil, claims_errors_nil. unfold sound_response.
  setoid_rewrite elem_of_nil. intuition.
Qed.

(** ** Fingerprints *)

Definition fits (p : string * string) : Prop := strlen p.1 <= u64_max /\ strlen p.2 <= u64_max.

Lemma append_inj (a b x y : string) : String.length a = String.length b -> a ++ x = b ++ y -> a = b /\ x = y.
Proof.
  revert b. induction a as [|c a IH]; intros [|d b]; try done.
  rewrite !append_cons. simpl. intros [= Hl] [= -> He]. by destruct (IH b Hl He) as [-> ->].
Qed.

Lemma length_le_bytes k n : String.length (le_bytes k n) = k.
Proof. revert n. induction k; simpl; auto. Qed.

Lemma le_bytes_inj k n m : n < 256 ^ N.of_nat k -> m < 256 ^ N.of_nat k -> le_bytes k n = le_bytes k m -> n = m.
Proof.
  revert n m. induction k as [|k IH]; intros n m Hn Hm E; [change (256 ^ N.of_nat 0) with 1 in *; lia|].
  rewrite Nat2N.inj_succ, N.pow_succ_r' in Hn, Hm. cbn [le_bytes] in E. injection E as Eh Et.
  apply IH in Et; [|apply N.Div0.div_lt_upper_bound; lia..].
  apply (f_equal N_of_ascii) in Eh. unfold byte in Eh.
  rewrite !N_ascii_embedding in Eh by (apply N.mod_lt; lia).
  rewrite (N.div_mod n 256), (N.div_mod m 256) by lia. lia.
Qed.

(** A length and a text of that length can be read back. *)
Lemma framed_inj (a b x y : string) : strlen a <= u64_max -> strlen b <= u64_max ->
  le_bytes 8 (strlen a) ++ a ++ x = le_bytes 8 (strlen b) ++ b ++ y -> a = b /\ x = y.
Proof.
  intros Ha Hb E. apply append_inj in E as [El E]; [|by rewrite !length_le_bytes].
  apply le_bytes_inj in El; [|change (256 ^ N.of_nat 8) with (u64_max + 1); lia..].
  apply append_inj in E; [done|]. unfold strlen in El. lia.
Qed.

Lemma hash_fields_inj l k : Forall fits l -> Forall fits k -> hash_fields l = hash_fields k -> l = k.
Proof.
  revert k. induction l as [|p l IH]; intros [|q k] Hl Hk E; [done|exfalso..|].
  - unfold hash_fields in E. cbn [map] in E. rewrite concat_cons in E. unfold hash_field in E. discriminate E.
  - unfold hash_fields in E. cbn [map] in E. rewrite concat_cons in E. unfold hash_field in E. discriminate E.
  - unfold hash_fields in E. cbn [map] in E. rewrite !concat_cons in E. unfold hash_field in E. rewrite !append_assoc in E.
    inversion_clear Hl as [|? ? [Hp1 Hp2] Hl']. inversion_clear Hk as [|? ? [Hq1 Hq2] Hk'].
    apply framed_inj in E as [En E]; [|done..]. apply framed_inj in E as [Ev E]; [|done..].
    destruct p, q. cbn [fst snd] in *. subst. f_equal. by apply IH.
Qed.

(** What the prompt shows of a snapshot. *)
Definition shown (s : ReferenceSnapshot) : string * string * string * string * ContextManifestRange * string :=
  (sn_reference_id s, sn_path s, sn_file_hash s, sn_injected_hash s, sn_range s, sn_content s).

Lemma range_text_inj a b x y : dec a ++ ":" ++ x = dec b ++ ":" ++ y -> a = b /\ x = y.
Proof.
  assert (forall (p q x y : string), any_byte (Ascii.eqb ":") p = false -> any_byte (Ascii.eqb ":") q = false ->
    p ++ ":" ++ x = q ++ ":" ++ y -> p = q /\ x = y) as Hu.
  { induction p as [|c p IH]; intros [|d q] x' y' Hp Hq E; rewrite ?append_nil, ?append_cons in E.
    - by injection E.
    - injection E as <- _. by cbn in Hq.
    - injection E as -> _. by cbn in Hp.
    - cbn [any_byte] in Hp, Hq. apply orb_false_iff in Hp as [_ Hp], Hq as [_ Hq].
      injection E as -> E. by destruct (IH q x' y' Hp Hq E) as [-> ->]. }
  intros E. apply Hu in E as [E ->]; [|by apply dec_free..]. by apply (inj dec) in E.
Qed.

Lemma snapshot_fields_inj s t : snapshot_fields s = snapshot_fields t -> shown s = shown t.
Proof.
  unfold snapshot_fields, shown. intros [= -> -> -> -> Hr ->].
  destruct (sn_range s), (sn_range t). simpl in *.
  apply range_text_inj in Hr as [-> Hr]. apply range_text_inj in Hr as [-> Hr].
  apply range_text_inj in Hr as [-> Hr]. apply (inj dec) in Hr as ->. done.
Qed.

Lemma snapshots_fields_inj l k : List.concat (map snapshot_fields l) = List.concat (map snapshot_fields k) -> map shown l = map shown k.
Proof.
  revert k. induction l as [|s l IH]; intros [|t k] E; [done|discriminate E..|].
  cbn [map List.concat] in *. apply app_inj_1 in E as [Es E]; [|done].
  apply snapshot_fields_inj in Es as ->. f_equal. by apply IH.
Qed.

#[export] Instance scope_text_inj : Inj (=) (=) ChatContextScope_as_str.
Proof. by intros [] []. Qed.

(** Two manifests with the same fingerprint show the same: the same
    scope, workspace and profile, and the same snapshots in the same order,
    with their identifiers, paths, hashes, ranges and contents; or else two
    different texts have the same BLAKE3 hash. *)
Theorem fingerprint_determines_manifest `{Blake3} scope workspace request profile snapshots
    scope' workspace' request' profile' snapshots'
    (Hfits : Forall fits (manifest_fields scope workspace profile snapshots))
    (Hfits' : Forall fits (manifest_fields scope' workspace' profile' snapshots'))
    (Hsame : mf_fingerprint (build_context_manifest scope workspace request profile snapshots)
             = mf_fingerprint (build_context_manifest scope' workspace' request' profile' snapshots')) :
  scope = scope' /\ workspace = workspace' /\ profile = profile' /\ map shown snapshots = map shown snapshots'
  \/ exists x y, x <> y /\ blake3_hex x = blake3_hex y.
Proof.
  cbn [mf_fingerprint build_context_manifest] in Hsame.
  destruct (decide (hash_fields (manifest_fields scope workspace profile snapshots)
                    = hash_fields (manifest_fields scope' workspace' profile' snapshots'))) as [E|E]; [left|right; eauto].
  apply hash_fields_inj in E; [|done..]. unfold manifest_fields in E. cbn [app] in E.
  injection E as Es -> -> E. apply (inj ChatContextScope_as_str) in Es as ->.
  apply snapshots_fields_inj in E. done.
Qed.

(** Two manifests of one attached file, for two requests, under a hash that
    is the text itself. *)
Definition example_snapshot : ReferenceSnapshot := {|
  sn_reference_id := "ref-1"; sn_path := "plugin.yml"; sn_origin := "user_attachment";
  sn_file_hash := "h"; sn_injected_hash := "h"; sn_file_size := 17; sn_encoding := "utf-8"; sn_line_ending := "lf";
  sn_range := {| start_line := 1; end_line := 2; start_byte := 0; end_byte := 17 |};
  sn_content := "name: One" ++ String (byte 10) "main: A"; sn_reason := "explicit_user_reference";
  sn_git_state := "untracked"; sn_workspace_id := "workspace-1" |}.

Lemma fingerprint_determines_manifest_witness :
  let H : Blake3 := fun s => s in
  ReferencesOnly = ReferencesOnly /\ "workspace-1" = "workspace-1" /\ "none" = "none"
  /\ map shown [example_snapshot] = map shown [example_snapshot]
  \/ exists x y, x <> y /\ blake3_hex x = blake3_hex y.
Proof.
  intros H. apply (fingerprint_determines_manifest ReferencesOnly "workspace-1" "request-1" "none" [example_snapshot]
    ReferencesOnly "workspace-1" "request-2" "none" [example_snapshot]);
    [repeat constructor; cbv; discriminate..|reflexivity].
Defined.
