(* ===== verification/DocumentProofs.v ===== *)
(** * The answers of the document facts are grounded

    Every key of a parsed document is located at a line of the document, with
    the text of that line; every claim of an answer cites lines of the
    snapshot, so that the answer passes the evidence check against the
    manifest of its snapshot.  The last part is about compliant answers. *)

From stdpp Require Import base list strings gmap pretty.
From Stdlib Require Import NArith ZArith Ascii String Lia.
From S2P Require Import Prelude Bytes Text UnixPath IO Anyhow Paths TextFacts Grounding DocumentFacts Compliance GroundingFacts.

Local Open Scope string_scope.
Local Open Scope N_scope.

(** ** Lines *)

Definition line_count (s : string) : nat := List.length (lines s).

Lemma split_on_nonempty c s : exists p l, split_on c s = p :: l.
Proof. destruct s as [|d s]; simpl; [eauto|]. destruct (Ascii.eqb c d); [eauto|]. destruct (split_on c s); eauto. Qed.

Lemma split_on_feed c s : split_on c (String c s) = "" :: split_on c s.
Proof. simpl. by rewrite Ascii.eqb_refl. Qed.

Lemma split_on_other c d s p l : Ascii.eqb c d = false -> split_on c s = p :: l -> split_on c (String d s) = String d p :: l.
Proof. intros Hd Hs. simpl. by rewrite Hd, Hs. Qed.

(** A byte before a text adds a line when it is a line feed, and otherwise
    only when there was none. *)
Lemma line_count_cons c s :
  line_count (String c s) = if Ascii.eqb line_feed c then S (line_count s) else Nat.max 1 (line_count s).
Proof.
  unfold line_count, lines. destruct (split_on_nonempty line_feed s) as (p & l & Hs). destruct (Ascii.eqb line_feed c) eqn:Hc.
  - apply Ascii.eqb_eq in Hc as <-. rewrite split_on_feed, Hs. done.
  - rewrite (split_on_other _ _ _ _ _ Hc Hs), Hs. destruct l as [|q l]; [|done]. simpl. by destruct (is_empty p).
Qed.

(** The lines before a position that is not the end. *)
Lemma lines_before i s : (i < String.length s)%nat ->
  (N.to_nat (count_byte line_feed (take_bytes i s)) < line_count s)%nat.
Proof.
  revert i. induction s as [|c s IH]; intros i Hi; [simpl in Hi; lia|].
  rewrite line_count_cons. destruct i as [|i]; [cbn [take_bytes count_byte]; destruct (Ascii.eqb line_feed c); lia|].
  simpl in Hi. assert (Hi' : (i < String.length s)%nat) by lia. specialize (IH i Hi').
  cbn [take_bytes count_byte]. destruct (Ascii.eqb line_feed c); lia.
Qed.

Lemma line_count_le s : (line_count s <= String.length s)%nat.
Proof. induction s as [|c s IH]; [done|]. rewrite line_count_cons. cbn [String.length]. destruct (Ascii.eqb line_feed c); lia. Qed.

(** A location that names a line of the document. *)
Definition real_line (content : string) (l : DocumentLocation) : Prop :=
  1 <= loc_line l /\ lines content !! N.to_nat (loc_line l - 1) = Some (loc_source l).
Definition located_in (content : string) (locations : Locations) : Prop :=
  Forall (fun p => real_line content p.2) locations.

Lemma real_line_bound content l : real_line content l -> loc_line l <= N.of_nat (line_count content).
Proof. intros [H1 Hl]. apply lookup_lt_Some in Hl. unfold line_count. lia. Qed.

Lemma located_put content k l locations : located_in content locations -> real_line content l -> located_in content (put k l locations).
Proof. intros Hm Hl. by apply map_update_entries. Qed.

Lemma located_or_insert content k l locations :
  located_in content locations -> real_line content l -> located_in content (or_insert k l locations).
Proof. intros Hm Hl. apply map_update_entries; [done|]. intros [v|] Hv; simpl; [by apply Hv|done]. Qed.

(** [source_line] of a line that exists *)
Lemma source_line_real content line : 1 <= line <= N.of_nat (line_count content) ->
  real_line content {| loc_line := line; loc_source := source_line content line |}.
Proof.
  intros Hl. split; [simpl; lia|]. cbn [loc_line loc_source]. unfold source_line.
  destruct (lines content !! _) eqn:E; [done|]. apply lookup_ge_None in E. unfold line_count in Hl. lia.
Qed.

Section Documents.
Context {An : Answers} (content : string) (Hsmall : strlen content < 4294967296).

Definition of_document (p : N * string) : Prop := lines content !! N.to_nat p.1 = Some p.2.

Lemma enumerate_lines : Forall of_document (enumerate (lines content)).
Proof.
  apply Forall_forall. intros [i s] Hi. unfold enumerate in Hi.
  apply list_elem_of_lookup in Hi as [j Hj]. apply lookup_zip_Some in Hj as [H1 H2].
  unfold of_document. cbn [fst snd]. rewrite list_lookup_fmap in H1.
  destruct (seq 0 _ !! j) eqn:E; [|done]. apply lookup_seq in E as [-> _]. injection H1 as <-. by rewrite Nat2N.id.
Qed.

Lemma located_real index raw : of_document (index, raw) -> real_line content (located index raw).
Proof.
  unfold of_document. cbn [fst snd]. intros Hi. pose proof (lookup_lt_Some _ _ _ Hi) as Hlt.
  pose proof (line_count_le content) as Hc. unfold line_count in Hc. unfold strlen in Hsmall.
  unfold real_line, located, line_number, as_u32. cbn [loc_line loc_source].
  rewrite N.mod_small by lia. split; [lia|]. by replace (index + 1 - 1) with index by lia.
Qed.

(** *** TOML *)

Lemma toml_lines_located l st : Forall of_document l -> located_in content (tm_locations st) ->
  must (toml_lines l st) (ok_post (fun st => located_in content (tm_locations st))).
Proof.
  revert st. induction l as [|[index raw] l IH]; intros st Hl Hst; [done|].
  inversion_clear Hl as [|? ? Hr Hl']. pose proof (located_real _ _ Hr) as Hreal.
  cbn [toml_lines]. destruct (is_empty _); [by apply IH|].
  eapply (must_try_ok _ _ (fun st => located_in content (tm_locations st))); [|intros st' Hst'; by apply IH].
  destruct (starts_with "[" _).
  - unfold toml_table. destruct (_ || _); [done|]. eapply (must_bind _ _ (fun _ => True)); [by apply must_true|]. intros inner _.
    destruct (is_empty _); [done|]. eapply (must_try_ok _ _ (fun _ => True)); [apply must_true; by intros []|].
    intros [|root table] _; [done|]. cbn [must ok_post]. destruct (set_contains _ _); [done|]. by apply located_put.
  - unfold toml_assignment. destruct (find_unquoted _ _); [|done].
    eapply (must_try_ok _ _ (fun _ => True)); [apply must_true; by intros []|]. intros key _.
    destruct (has_key _ _); [done|]. by apply located_put.
Qed.

(** *** Properties *)

Lemma properties_lines_located l doc : Forall of_document l -> located_in content (pd_locations doc) ->
  must (properties_lines l doc) (ok_post (fun doc => located_in content (pd_locations doc))).
Proof.
  revert doc. induction l as [|[index raw] l IH]; intros doc Hl Hd; [done|].
  inversion_clear Hl as [|? ? Hr Hl']. pose proof (located_real _ _ Hr) as Hreal.
  cbn [properties_lines]. destruct (_ || _); [by apply IH|]. destruct (properties_separator _); [|done].
  eapply (must_bind _ _ (fun _ => True)); [by apply must_true|]. intros key _. destruct (_ || _); [done|].
  eapply (must_bind _ _ (fun _ => True)); [by apply must_true|]. intros value _. apply IH; [done|]. by apply located_put.
Qed.

(** *** YAML *)

Lemma indented_lines_located separator yaml l locations values stack :
  Forall of_document l -> located_in content locations ->
  must (indented_lines separator yaml l locations values stack) (ok_post (fun scan => located_in content scan.1)).
Proof.
  revert locations values stack. induction l as [|[index raw] l IH]; intros locations values stack Hl Hm; [done|].
  inversion_clear Hl as [|? ? Hr Hl']. pose proof (located_real _ _ Hr) as Hreal.
  cbn [indented_lines]. destruct (_ || _); [by apply IH|]. destruct (find_unquoted _ _); [|by apply IH].
  eapply (must_try_ok _ _ (fun _ => True)); [apply must_true; by intros []|]. intros key _.
  destruct (has_key _ _); [done|]. apply IH; [done|]. by apply located_put.
Qed.
End Documents.

(** ** JSON *)

Lemma count_take_le i j s : (i <= j)%nat -> count_byte line_feed (take_bytes i s) <= count_byte line_feed (take_bytes j s).
Proof.
  revert i s. induction j as [|j IH]; intros [|i] s Hij; [done|lia|simpl; lia|].
  destruct s as [|c s]; [done|]. cbn [take_bytes count_byte]. apply N.add_le_mono_l, IH. lia.
Qed.

Lemma count_take_S i s c : String.get i s = Some c ->
  count_byte line_feed (take_bytes (S i) s)
  = (if Ascii.eqb line_feed c then 1 else 0) + count_byte line_feed (take_bytes i s).
Proof.
  revert s. induction i as [|i IH]; intros [|d s]; try done; [intros [= <-]; simpl; lia|].
  intros Hg. change (take_bytes (S (S i)) (String d s)) with (String d (take_bytes (S i) s)).
  change (take_bytes (S i) (String d s)) with (String d (take_bytes i s)).
  cbn [count_byte]. rewrite IH by done. lia.
Qed.

Lemma get_lt i s c : String.get i s = Some c -> (i < String.length s)%nat.
Proof. revert s. induction i as [|i IH]; intros [|d s]; simpl; try done; [lia|]. intros Hg%IH. lia. Qed.

Section JsonFacts.
Context `{Json} (content : string).

Definition json_invariant (index : nat) (st : JsonScan) : Prop :=
  located_in content (js_locations st) /\ 1 <= js_line st <= 1 + count_byte line_feed (take_bytes index content).

Lemma parse_json_string_next start key next : parse_json_string content start = Ok (key, next) -> (start < next)%nat.
Proof.
  unfold parse_json_string. destruct (string_end _ _); [|done]. intros (v & _ & [= _ <-])%rbind_ok. lia.
Qed.

Lemma json_invariant_le i j st : (i <= j)%nat -> json_invariant i st -> json_invariant j st.
Proof. intros Hij [Hl Hn]. split; [done|]. pose proof (count_take_le i j content Hij). lia. Qed.

Lemma scan_key_step index c st next st' : String.get index content = Some c -> json_invariant index st ->
  scan_key content index st = Ok (next, st') -> (index < next)%nat /\ json_invariant next st'.
Proof.
  intros Hget Hinv. unfold scan_key. intros ([key after] & Hs & Hk)%rbind_ok.
  pose proof (parse_json_string_next _ _ _ Hs) as Hlt. destruct (negb _).
  { injection Hk as <- <-. split; [done|]. eapply json_invariant_le; [|exact Hinv]. lia. }
  destruct (has_key _ _); [done|]. apply rbind_ok in Hk as (value & _ & [= <- <-]).
  split; [done|]. apply (json_invariant_le index); [lia|]. destruct Hinv as [Hl Hn]. split; [|done].
  apply located_put; [done|]. apply source_line_real.
  pose proof (lines_before index content (get_lt _ _ _ Hget)). lia.
Qed.

Lemma scan_byte_step index c st next st' : String.get index content = Some c -> json_invariant index st ->
  scan_byte content index c st = Ok (next, st') -> (index < next)%nat /\ json_invariant next st'.
Proof.
  intros Hget Hinv. pose proof (count_take_S _ _ _ Hget) as Hcount. unfold scan_byte.
  assert (Hsame : json_invariant (S index) st) by (eapply json_invariant_le; [|exact Hinv]; lia).
  rewrite (Ascii.eqb_sym c line_feed). destruct (Ascii.eqb line_feed c) eqn:Ec.
  { intros [= <- <-]. split; [lia|]. destruct Hinv as [Hl Hn]. split; [done|]. cbn [js_line]. unfold u32_max. lia. }
  destruct (Ascii.eqb c "{"); [intros [= <- <-]; split; [lia|exact Hsame]|].
  destruct (Ascii.eqb c "}"); [intros [= <- <-]; split; [lia|exact Hsame]|].
  destruct (Ascii.eqb c dquote); [|intros [= <- <-]; split; [lia|exact Hsame]].
  destruct (0 <? js_depth st)%nat; [by eapply scan_key_step|].
  intros ([key after] & Hs & [= <- <-])%rbind_ok. pose proof (parse_json_string_next _ _ _ Hs).
  split; [done|]. eapply json_invariant_le; [|exact Hinv]. lia.
Qed.

Lemma scan_from_located fuel index st scan : json_invariant index st -> scan_from fuel content index st = Ok scan ->
  located_in content (js_locations scan).
Proof.
  revert index st. induction fuel as [|fuel IH]; intros index st Hinv; cbn [scan_from].
  { destruct (String.get _ _); [done|]. intros [= <-]. apply Hinv. }
  destruct (String.get index content) as [c|] eqn:Hget; [|intros [= <-]; apply Hinv].
  intros ([next st'] & Hs & Hf)%rbind_ok. eapply IH; [|exact Hf]. by eapply scan_byte_step.
Qed.

Lemma parse_json_located doc : parse_json content = Ok doc -> located_in content (pd_locations doc).
Proof.
  unfold parse_json. destruct (json_is_object content) as [[]|]; try done.
  intros (scan & Hs & [= <-])%rbind_ok. eapply scan_from_located; [|exact Hs].
  split; [by apply Forall_nil|]. cbn [js_line]. lia.
Qed.
End JsonFacts.

(** ** XML *)

Section XmlInduction.
Context (P : XmlElement -> Prop) (Hstep : forall name start text children, Forall P children -> P (Xml name start text children)).

Fixpoint xml_ind (e : XmlElement) : P e :=
  match e with
  | Xml name start text children =>
      Hstep name start text children
        ((fix all (l : list XmlElement) : Forall P l :=
            match l with [] => Forall_nil_2 P | x :: l' => Forall_cons_2 P x l' (xml_ind x) (all l') end) children)
  end.
End XmlInduction.

(** Every element starts inside the document. *)
Fixpoint starts_inside (content : string) (e : XmlElement) : Prop :=
  match e with
  | Xml _ start _ children => start < strlen content /\ fold_right (fun c P => starts_inside content c /\ P) True children
  end.
Class XmlPositions `{XmlParser} : Prop := {
  xml_starts_inside content root : xml_parse content = Ok root -> starts_inside content root
}.

Lemma fold_left_invariant {A B} (I : A -> Prop) (f : A -> B -> A) l a :
  I a -> (forall a x, In x l -> I a -> I (f a x)) -> I (fold_left f l a).
Proof.
  revert a. induction l as [|x l IH]; intros a Ha Hf; [done|]. simpl.
  apply IH; [by apply Hf; [left|]|]. intros b y Hy. apply Hf. by right.
Qed.

Section Xml.
Context (content : string) (Hsmall : strlen content < 4294967296).

Lemma starts_inside_children e : starts_inside content e -> forall c, In c (xml_children e) -> starts_inside content c.
Proof.
  destruct e as [name start text children]. cbn [starts_inside xml_children]. intros [_ Hc].
  induction children as [|x l IH]; [done|]. simpl in Hc. destruct Hc as [Hx Hl]. intros c [<-|Hi]; [done|by apply IH].
Qed.

Lemma collect_located e : forall path found, starts_inside content e -> located_in content found.2 ->
  located_in content (collect_xml_element content e path found).2.
Proof.
  induction e as [name start text children IH] using xml_ind. intros path found Hs Hf.
  pose proof (starts_inside_children _ Hs) as Hc. cbn [xml_children] in Hc. destruct Hs as [Hstart _].
  cbn [collect_xml_element]. apply (fold_left_invariant (fun f => located_in content f.2)).
  - cbn [snd]. apply located_or_insert; [done|]. apply source_line_real. unfold count_lines_before, as_u32.
    rewrite N.min_l by lia. pose proof (lines_before (N.to_nat start) content) as Hl.
    pose proof (line_count_le content) as Hle. unfold strlen in Hsmall, Hstart.
    rewrite N.mod_small by lia. lia.
  - intros f x Hx Hfound. rewrite Forall_forall in IH. apply IH; [by apply list_elem_of_In|by apply Hc|done].
Qed.

Lemma parse_xml_located `{XmlPositions} doc : parse_xml content = Ok doc -> located_in content (pd_locations doc).
Proof.
  unfold parse_xml. destruct (xml_parse content) as [root|] eqn:E; [|done].
  pose proof (starts_inside_children _ (xml_starts_inside _ _ E)) as Hc. destruct (fold_left _ _ _) as [order found] eqn:Ef.
  intros [= <-]. cbn [pd_locations]. revert Ef. match goal with |- ?l = _ -> _ => intros Ef;
    assert (located_in content l.2.2) as Hl by
      (apply (fold_left_invariant (fun f => located_in content f.2.2)); [by apply Forall_nil|];
       intros [o f] x Hx Hf; apply collect_located; [by apply Hc|done]) end.
  by rewrite Ef in Hl.
Qed.
End Xml.

(** ** Every format *)

Lemma parse_document_located `{An : Answers, Unicode, Yaml, Json, XmlPositions} ext content
    (Hsmall : strlen content < 4294967296) :
  must (parse_document ext content) (ok_post (fun doc => located_in content (pd_locations doc))).
Proof.
  pose proof (enumerate_lines content) as Hlines. unfold parse_document. destruct (_ || _).
  { unfold parse_yaml. destruct (yaml_from_str content) as [[keys|]|]; [|done..].
    apply must_ret_try. intros order _. eapply must_try_ok.
    { apply (indented_lines_located content Hsmall ":" true); [exact Hlines|by apply Forall_nil]. }
    intros scan Hscan. apply must_ret_try. by intros [] _. }
  destruct (ext =? "json")%string.
  { unfold lift. cbn [must]. destruct (parse_json content) eqn:E; [|done]. by eapply parse_json_located. }
  destruct (ext =? "toml")%string.
  { unfold parse_toml. eapply must_try_ok; [apply (toml_lines_located content Hsmall); [exact Hlines|by apply Forall_nil]|]. by intros st Hst. }
  destruct (ext =? "properties")%string; [apply (properties_lines_located content Hsmall); [exact Hlines|by apply Forall_nil]|].
  destruct (ext =? "xml")%string; [|done].
  unfold lift. cbn [must]. destruct (parse_xml content) eqn:E; [|done]. by eapply parse_xml_located.
Qed.

(** ** The claims of an answer *)

Section Claims.
Context (snapshot : ReferenceSnapshot).

(** A snapshot whose range holds the lines of its content. *)
Definition covers_content : Prop :=
  strlen (sn_content snapshot) < 4294967296
  /\ 1 <= start_line (sn_range snapshot) <= end_line (sn_range snapshot)
  /\ start_line (sn_range snapshot) + N.of_nat (line_count (sn_content snapshot)) <= end_line (sn_range snapshot) + 1
  /\ end_line (sn_range snapshot) <= u32_max.

Definition inside (a b : N) : Prop := start_line (sn_range snapshot) <= a <= b /\ b <= end_line (sn_range snapshot).
Definition id_prefixes : list string := ["root-key"; "key-present"; "key-absent"; "key-value"; "key-value-missing"].

(** The claim at position [i] of an answer *)
Definition numbered_claim (i : nat) (c : GroundedClaim) : Prop :=
  (exists p, In p id_prefixes /\ cl_claim_id c = p ++ String "-" (dec (N.of_nat i + 1)))
  /\ cl_classification c = Observed
  /\ exists a b, cl_evidence c = [citation snapshot a b] /\ inside a b.
Definition numbered_from (i : nat) (claims : list GroundedClaim) : Prop :=
  forall j c, claims !! j = Some c -> numbered_claim (i + j) c.

Lemma numbered_snoc claims c : numbered_from 0 claims -> numbered_claim (List.length claims) c -> numbered_from 0 (claims ++ [c])%list.
Proof.
  intros Hc Hn j d Hj. apply lookup_app_Some in Hj as [Hj|[Hle Hj]]; [by apply Hc|].
  destruct (j - List.length claims)%nat eqn:E; [|done]. injection Hj as <-. by replace j with (List.length claims) by lia.
Qed.

Context (Hcovers : covers_content) (locations : Locations)
  (Hlocations : Forall (fun p => inside (loc_line p.2) (loc_line p.2)) locations).

Lemma location_inside key l : map_get key locations = Some l -> inside (loc_line l) (loc_line l).
Proof. intros Hl%map_get_member. rewrite Forall_forall in Hlocations. by apply (Hlocations (key, l)). Qed.

Lemma whole_inside : inside (start_line (sn_range snapshot)) (end_line (sn_range snapshot)).
Proof. destruct Hcovers as (_ & H1 & _). unfold inside. lia. Qed.

Lemma numbered_fact line p text a b (answer : FactsAnswer) : In p id_prefixes -> inside a b ->
  numbered_from 0 (fa_claims answer) ->
  numbered_from 0 (fa_claims (add_fact line (p ++ "-") text (citation snapshot a b) answer)).
Proof.
  intros Hp Hi Hn. cbn [fa_claims add_fact]. apply numbered_snoc; [done|]. split_and!.
  - exists p. split; [done|]. cbn [cl_claim_id observed]. by rewrite append_assoc.
  - done.
  - by exists a, b.
Qed.

Lemma presence_numbered answer key :
  numbered_from 0 (fa_claims answer) -> numbered_from 0 (fa_claims (presence_fact snapshot locations answer key)).
Proof.
  intros Hn. unfold presence_fact. destruct (map_get _ _) as [l|] eqn:E.
  - apply (numbered_fact _ "key-present"); [simpl; tauto|by eapply location_inside|done].
  - apply (numbered_fact _ "key-absent"); [simpl; tauto|apply whole_inside|done].
Qed.

Lemma value_numbered values answer key :
  numbered_from 0 (fa_claims answer) -> numbered_from 0 (fa_claims (value_fact snapshot locations values answer key)).
Proof.
  intros Hn. unfold value_fact. cbv zeta.
  destruct (map_get (canonical_query_key key) values), (map_get (canonical_query_key key) locations) as [l|] eqn:E.
  1: apply (numbered_fact _ "key-value"); [simpl; tauto|by eapply location_inside|done].
  all: apply (numbered_fact _ "key-value-missing"); [simpl; tauto|apply whole_inside|done].
Qed.

Lemma root_claims_numbered keys i claims : root_claims snapshot locations (N.of_nat i) keys = Ok claims -> numbered_from i claims.
Proof.
  revert i claims. induction keys as [|key keys IH]; intros i claims; simpl; [by intros [= <-] j c|].
  destruct (map_get key locations) as [l|] eqn:E; [|done]. intros (rest & Hr & [= <-])%rbind_ok.
  replace (N.of_nat i + 1) with (N.of_nat (S i)) in Hr by lia. specialize (IH _ _ Hr).
  intros [|j] c; simpl.
  - intros [= <-]. rewrite Nat.add_0_r. split_and!; [exists "root-key"; split; [simpl; tauto|done]|done|].
    exists (loc_line l), (loc_line l). split; [done|]. by eapply location_inside.
  - intros Hj%IH. by rewrite <- plus_n_Sm.
Qed.

Lemma facts_numbered values query order answer :
  facts snapshot locations values query order = Ok answer -> numbered_from 0 (fa_claims answer).
Proof.
  unfold facts. intros (a & Ha & [= <-])%rbind_ok.
  assert (numbered_from 0 (fa_claims a)) as Hn.
  { destruct (q_root_keys query); [|injection Ha as <-; by intros j c].
    apply rbind_ok in Ha as (claims & Hc & [= <-]). by apply (root_claims_numbered order 0). }
  apply (fold_left_invariant (fun a => numbered_from 0 (fa_claims a))); [|intros; by apply value_numbered].
  apply (fold_left_invariant (fun a => numbered_from 0 (fa_claims a))); [done|intros; by apply presence_numbered].
Qed.
End Claims.

(** Identifiers that end in different numbers are different. *)
Lemma numbered_NoDup snapshot claims : numbered_from snapshot 0 claims -> NoDup (map cl_claim_id claims).
Proof.
  intros Hn. apply NoDup_alt. intros i j id Hi Hj. rewrite list_lookup_fmap in Hi, Hj.
  destruct (claims !! i) as [c|] eqn:Ei, (claims !! j) as [d|] eqn:Ej; try done.
  injection Hi as Hi. injection Hj as Hj. apply Hn in Ei as ((p & _ & Hp) & _), Ej as ((q & _ & Hq) & _).
  rewrite Hi in Hp. rewrite Hj, Hp in Hq. apply (f_equal (rsplit_once "-")) in Hq.
  rewrite !rsplit_once_app in Hq by (by apply dec_free). injection Hq as _ Hq. unfold dec in Hq.
  apply (inj pretty) in Hq. lia.
Qed.

(** A text that begins with an ASCII character other than white space is not blank. *)
Lemma trim_nonempty c s : (byte_n c <? 128) = true -> is_whitespace (String c "") = false -> trim (String c s) <> "".
Proof.
  intros Hc Hw. unfold trim. rewrite utf8_chars_cons. unfold utf8_step. rewrite Hc. cbn [fst snd drop_while take_bytes].
  rewrite Hw. cbn [rev]. match goal with |- context [drop_while ?f (?l ++ [?x])%list] => destruct (drop_while_snoc f l x) as [k ->] end.
  { exact Hw. }
  rewrite rev_app_distr. cbn [rev app map snd]. rewrite concat_cons. discriminate.
Qed.

Lemma numbered_nonblank snapshot i c : numbered_claim snapshot i c -> trim (cl_claim_id c) <> "".
Proof.
  intros ((p & Hp & ->) & _). simpl in Hp.
  repeat (destruct Hp as [<-|Hp]; [rewrite !append_cons; by apply trim_nonempty|]). done.
Qed.

Lemma numbered_evidence `{Blake3} snapshot scope workspace request profile mode claims :
  workspace = sn_workspace_id snapshot -> numbered_from snapshot 0 claims ->
  claims_errors {| gr_schema_version := GROUNDING_SCHEMA_VERSION; gr_answer := ""; gr_claims := claims;
                   gr_missing_information := []; gr_used_general_knowledge := false |}
    (build_context_manifest scope workspace request profile [snapshot]) mode [] claims = [].
Proof.
  intros -> Hn. apply claims_errors_nil. split; [by eapply numbered_NoDup|]. split; [by intros c _ ?%elem_of_nil|].
  apply Forall_forall. intros c Hc%list_elem_of_lookup. destruct Hc as [i Hi]. apply Hn in Hi.
  split; [by eapply numbered_nonblank|]. destruct Hi as (_ & Hk & a & b & He & Hin).
  split_and!; [by rewrite He|by rewrite Hk|]. rewrite He. apply Forall_singleton.
  exists (manifest_entry snapshot). split_and!; [|done..|].
  - split; [done|]. exists [], []. by rewrite Forall_nil.
  - exists (sn_range snapshot). split; [by left|]. exact Hin.
Qed.

Lemma claims_errors_flag response response' manifest mode seen claims :
  gr_used_general_knowledge response = gr_used_general_knowledge response' ->
  claims_errors response manifest mode seen claims = claims_errors response' manifest mode seen claims.
Proof.
  intros Hf. revert seen. induction claims as [|c claims IH]; intros seen; [done|]. simpl. rewrite IH.
  unfold claim_errors. by rewrite Hf.
Qed.

Lemma moved_inside snapshot doc : covers_content snapshot -> located_in (sn_content snapshot) (pd_locations doc) ->
  Forall (fun p => inside snapshot (loc_line p.2) (loc_line p.2))
    (move_locations (start_line (sn_range snapshot) - 1) (pd_locations doc)).
Proof.
  intros (_ & H1 & H2 & H3) Hd. unfold move_locations. apply Forall_List_map.
  eapply Forall_impl; [exact Hd|]. intros [key l] Hl. cbn [snd] in Hl |- *. pose proof (real_line_bound _ _ Hl) as Hb.
  destruct Hl as [Hl _]. unfold inside. cbn [loc_line snd]. lia.
Qed.

(** Every line of an answer has its claim. *)
Lemma root_claims_length snapshot locations index keys claims :
  root_claims snapshot locations index keys = Ok claims -> List.length claims = List.length keys.
Proof.
  revert index claims. induction keys as [|key keys IH]; intros index claims; simpl; [by intros [= <-]|].
  destruct (map_get key locations); [|done]. intros (rest & Hr & [= <-])%rbind_ok. simpl. f_equal. by eapply IH.
Qed.

Definition balanced (a : FactsAnswer) : Prop := List.length (fa_answer a) = List.length (fa_claims a).

Lemma balanced_add line prefix text evidence a : balanced a -> balanced (add_fact line prefix text evidence a).
Proof. unfold balanced. simpl. rewrite !length_app. simpl. lia. Qed.

Lemma facts_balanced snapshot locations values query order a : facts snapshot locations values query order = Ok a -> balanced a.
Proof.
  unfold facts. intros (b & Hb & [= <-])%rbind_ok. apply (fold_left_invariant balanced).
  - apply (fold_left_invariant balanced).
    + destruct (q_root_keys query); [|by injection Hb as <-].
      apply rbind_ok in Hb as (claims & Hc & [= <-]). symmetry. by eapply root_claims_length.
    + intros c key _ Hc. unfold presence_fact. destruct (map_get _ _); by apply balanced_add.
  - intros c key _ Hc. unfold value_fact. cbv zeta.
    destruct (map_get (canonical_query_key key) values), (map_get (canonical_query_key key) locations); by apply balanced_add.
Qed.

(** C27: An answer of the document facts passes the evidence check against a
    manifest of its snapshot, in either evidence mode and under any scope: for
    a snapshot whose range covers its content, whatever the task and the
    document, its claims have distinct identifiers and cite lines that were
    injected, under the hash that was injected; and no model was called. *)
Theorem document_facts_are_grounded `{An : Answers, Unicode, Yaml, Json, XmlPositions, Blake3}
    task snapshot force scope request profile mode (Hcovers : covers_content snapshot) :
  must (inspect_document_facts task snapshot force) (ok_post (fun result => forall facts, result = Some facts ->
    ev_valid (validate_evidence (df_response facts)
      (build_context_manifest scope (sn_workspace_id snapshot) request profile [snapshot]) mode) = true
    /\ df_model_calls facts = 0)).
Proof.
  unfold inspect_document_facts. cbv zeta. destruct (_ && _); [done|]. destruct (negb _); [done|].
  eapply must_try_ok; [apply parse_document_located, Hcovers|]. intros parsed Hparsed.
  apply must_ret_try. intros a Ha. pose proof (moved_inside _ _ Hcovers Hparsed) as Hmoved.
  pose proof (facts_balanced _ _ _ _ _ _ Ha) as Hlen. unfold balanced in Hlen.
  apply facts_numbered in Ha; [|done..]. intros result Hresult. destruct (fa_answer a) as [|line answer]; [done|].
  injection Hresult as <-. split; [|done]. apply evidence_valid. cbn [df_response gr_claims]. split.
  - apply response_errors_nil. cbn [gr_schema_version gr_used_general_knowledge gr_claims]. split_and!; [done..|].
    intros _ _ Hclaims. rewrite Hclaims in Hlen. discriminate Hlen.
  - etransitivity; [|exact (numbered_evidence snapshot scope _ request profile mode (fa_claims a) eq_refl Ha)].
    by apply claims_errors_flag.
Qed.

(** ** Concrete documents

    Toy parsers: the keys of the unindented lines, strings without escapes. *)

Definition demo_yaml : Yaml := fun content =>
  Ok (YamlMapping (map (fun l => Some (first_part ":" l)) (List.filter (fun l => negb (starts_with " " l)) (lines content)))).
Definition demo_json : Json := {|
  json_is_object := fun content => Ok (starts_with "{" content);
  json_string := fun s => Ok (trim_dquotes s) |}.
Definition demo_xml : XmlParser := fun _ => Err "no XML".
Lemma demo_xml_positions : XmlPositions (H := demo_xml).
Proof. by split. Qed.

Definition text_of (l : list string) : string := String.concat "" (map (fun x => x ++ String line_feed "") l).
Definition demo_snapshot (path content : string) : ReferenceSnapshot := {|
  sn_reference_id := "ref-1"; sn_path := path; sn_origin := "user_attachment"; sn_file_hash := "h"; sn_injected_hash := "h";
  sn_file_size := strlen content; sn_encoding := "utf-8"; sn_line_ending := "lf";
  sn_range := {| start_line := 1; end_line := N.max 1 (N.of_nat (line_count content)); start_byte := 0; end_byte := strlen content |};
  sn_content := content; sn_reason := "explicit_user_reference"; sn_git_state := "untracked"; sn_workspace_id := "workspace-1" |}.

Section Demo.
#[local] Existing Instance ascii_unicode.
#[local] Existing Instance demo_yaml.
#[local] Existing Instance demo_json.
#[local] Existing Instance demo_xml.

Definition demo_answer (task path content : string) : IO (res (option string)) :=
  r <-? inspect_document_facts task (demo_snapshot path content) false ;;
  Ret (Ok (option_map (fun f => gr_answer (df_response f)) r)).

Definition demo_plugin : string := text_of [
  "name: OutilsEvolutif"; "main: dev.example.Main"; "version: 1.0"; "commands:"; "  outil:"; "    description: 'Test: ok'"].

Example yaml_answer :
  demo_answer "List the root keys and say whether `api-version` exists." "plugin.yml" demo_plugin
  = Ret (Ok (Some (join_with (String line_feed "") ["name"; "main"; "version"; "commands"; "api-version absent"]))).
Proof. vm_compute. reflexivity. Qed.

Example toml_answer :
  demo_answer "What is the value of `server.port`?" "config.toml" (text_of ["name = 'Optic'"; "[server]"; "port = 25565"])
  = Ret (Ok (Some "server.port = 25565")).
Proof. vm_compute. reflexivity. Qed.

Definition quoted (s : string) : string := String dquote s ++ String dquote "".

Example json_answer :
  demo_answer "What is the value of `nested.flag`?" "config.json"
    ("{" ++ quoted "name" ++ ": " ++ quoted "x" ++ ", " ++ quoted "nested" ++ ": {" ++ quoted "flag" ++ ": true}}")
  = Ret (Ok (Some "nested.flag = true")).
Proof. vm_compute. reflexivity. Qed.

(** Objects in an array repeat a path, which the scan takes for a duplicate
    key. *)
Example json_array_refused :
  demo_answer "List the root keys" "config.json"
    ("{" ++ quoted "a" ++ ":[{" ++ quoted "b" ++ ":1},{" ++ quoted "b" ++ ":2}]}")
  = Ret (bail "duplicate JSON key `b`").
Proof. vm_compute. reflexivity. Qed.

(** A separator of two bytes, a no-break space, is cut in the middle. *)
Example properties_panic :
  demo_answer "List the root keys" "app.properties" ("name" ++ String (byte 194) (String (byte 160) "value"))
  = Panic "byte index is not a char boundary".
Proof. vm_compute. reflexivity. Qed.

(** A quoted TOML table name with a dot is split at it, and a lone quote is
    taken for a quoted name. *)
Example toml_panic :
  demo_answer "List the root keys" "config.toml" ("[" ++ quoted "." ++ "]") = Panic "byte index is not a char boundary".
Proof. vm_compute. reflexivity. Qed.

Lemma document_facts_are_grounded_witness :
  let An := any_answer in let B : Blake3 := fun s => s in
  covers_content (demo_snapshot "plugin.yml" demo_plugin) /\
  must (inspect_document_facts "List the root keys" (demo_snapshot "plugin.yml" demo_plugin) false)
    (ok_post (fun result => forall facts, result = Some facts ->
      ev_valid (validate_evidence (df_response facts)
        (build_context_manifest ReferencesOnly "workspace-1" "request-1" "none" [demo_snapshot "plugin.yml" demo_plugin]) Required) = true
      /\ df_model_calls facts = 0)).
Proof.
  intros An B. assert (covers_content (demo_snapshot "plugin.yml" demo_plugin)) as Hc.
  { vm_compute. repeat split; discriminate. }
  split; [exact Hc|]. pose proof demo_xml_positions.
  apply (document_facts_are_grounded "List the root keys" (demo_snapshot "plugin.yml" demo_plugin) false
    ReferencesOnly "request-1" "none" Required Hc).
Defined.
End Demo.

(** * What a compliant answer says

    An answer that [validate_compliance] accepts tells nothing of the
    program's own instructions, names no other file, and supports every code
    token of its factual claims by the sources or the task. *)

Lemma report_compliant found : cr_compliant (report_of found) = true <-> found = [].
Proof. by destruct found. Qed.

Lemma if_nil {A} (b : bool) (x : A) : (if b then [x] else []) = [] <-> b = false.
Proof. by destruct b. Qed.

Lemma concat_map_nil {A B} (f : A -> list B) l : List.concat (map f l) = [] <-> forall x, In x l -> f x = [].
Proof. rewrite concat_nil, Forall_List_map, Forall_forall. setoid_rewrite list_elem_of_In. done. Qed.

Section Facts.
Context {An : Answers} `{Unicode, Yaml, Json, XmlParser}.
Context (task : string) (response : GroundedResponse) (manifest : ContextManifest) (snapshots : list ReferenceSnapshot).

(** The text of the sources, lower-cased: of each, and of all together. *)
Definition sources_lower : string := join_with eol (map (fun s => lowercase (sn_content s)) snapshots).
Definition source_text : string := lowercase (join_with eol (map sn_content snapshots)).

(** No phrase of the program's own prompts, scripts or fixtures, unless the sources have it. *)
Definition no_internal_text : Prop :=
  forall marker, In marker internal_markers -> str_contains marker (lowercase (gr_answer response)) = true ->
  str_contains marker sources_lower = true.

(** No file name but those of the manifest and the sources. *)
Definition no_other_file : Prop :=
  mf_context_scope manifest = ReferencesOnly ->
  forall token suffix, In token (split_whitespace (lowercase (gr_answer response))) -> In suffix file_suffixes ->
  ends_with suffix (file_candidate token) = true ->
  (exists entry, In entry (mf_entries manifest) /\ ends_with (file_candidate token) (lowercase (en_path entry)) = true)
  \/ str_contains (file_candidate token) sources_lower = true.

(** Every code token of a factual claim is in the sources, or, when the claim
    is one of absence or the task asks for keys, in the task. *)
Definition tokens_supported : Prop :=
  forall claim token, In claim (gr_claims response) -> is_factual (cl_classification claim) = true ->
  In token (significant_code_tokens (cl_text claim)) ->
  str_contains (lowercase token) source_text = true
  \/ (contains_any ["absent"; "not present"; "missing"] (lowercase (cl_text claim)) = true
      \/ is_document_fact_query (from_task (lowercase task)) = true)
     /\ str_contains (lowercase token) (lowercase task) = true.

Lemma internal_leaks_nil : internal_leaks (lowercase (gr_answer response)) sources_lower = [] -> no_internal_text.
Proof.
  unfold internal_leaks. rewrite concat_map_nil. intros Hn marker Hm Ha. specialize (Hn marker Hm).
  apply if_nil in Hn. rewrite Ha in Hn. by apply negb_false_iff in Hn.
Qed.

Lemma other_files_nil : other_files (lowercase (gr_answer response)) sources_lower manifest = [] -> no_other_file.
Proof.
  unfold other_files, no_other_file. intros Hn Hs. rewrite bool_decide_eq_true_2 in Hn by done. rewrite concat_map_nil in Hn.
  intros token suffix Ht Hf He. specialize (Hn token Ht). cbv zeta in Hn. apply if_nil in Hn.
  assert (existsb (fun suffix => ends_with suffix (file_candidate token)) file_suffixes = true) as Hx by (apply existsb_exists; eauto).
  rewrite Hx in Hn. simpl in Hn. apply andb_false_iff in Hn as [Hn|Hn]; apply negb_false_iff in Hn; [left|by right].
  apply existsb_exists in Hn as (p & Hp & He'). apply in_map_iff in Hp as (entry & <- & Hi). eauto.
Qed.

Lemma claim_tokens_nil : validate_claim_tokens task response snapshots = [] -> tokens_supported.
Proof.
  unfold validate_claim_tokens. cbv zeta. rewrite concat_map_nil. intros Hn claim token Hc Hf Ht. specialize (Hn claim Hc).
  apply if_nil in Hn. rewrite Hf in Hn. simpl in Hn. apply negb_false_iff in Hn.
  unfold claim_tokens_supported in Hn. cbv zeta in Hn. rewrite forallb_forall in Hn. specialize (Hn token Ht).
  apply orb_true_iff in Hn as [Hn|Hn]; [by left|right]. apply andb_true_iff in Hn as [Ho Hi]. by apply orb_true_iff in Ho.
Qed.

(** A compliant answer is not blank, repeats no internal phrase that the
    sources do not have, names under [references_only] no file but the
    injected ones, and every code token of its observed or inferred claims is
    in the sources (or, for absence claims and questions about keys, in the
    task). *)
Theorem compliant_answers :
  must (validate_compliance task response manifest snapshots) (fun report => cr_compliant report = true ->
    trim (gr_answer response) <> "" /\ no_internal_text /\ no_other_file /\ tokens_supported).
Proof.
  unfold validate_compliance. cbv zeta. eapply (must_bind _ _ (fun _ => True)); [by apply must_true|]. intros requested _.
  cbn [must]. intros Hc%report_compliant. apply app_nil in Hc as [Hi Hc]. apply app_nil in Hc as [_ Hc].
  apply app_nil in Hc as [Ho Hc]. apply app_nil in Hc as [_ Hc]. apply app_nil in Hc as [He Hc]. apply app_nil in Hc as [_ Ht].
  apply if_nil in He. split_and!; [|by apply internal_leaks_nil|by apply other_files_nil|by apply claim_tokens_nil].
  intros E. by rewrite E in He.
Qed.
End Facts.
