(* ===== verification/EditPlanFacts.v ===== *)
(** * Validated edit plans: what validation establishes

    The replacements of one file as a splice of its base text, the typing of
    the snapshots, and the bounds of an accepted plan. *)

From stdpp Require Import base list strings sorting.
From Stdlib Require Import NArith Ascii String Sorted Lia.
From S2P Require Import Prelude Bytes Text TextFacts UnixPath IO Paths Anyhow Secrets RagPolicy Reference EditPlan Observers ReferenceFacts.

Local Open Scope string_scope.
Local Open Scope N_scope.

(** ** The reference: splicing *)

Definition slice (base : string) (i j : N) : string := take_bytes (N.to_nat (j - i)) (drop_bytes (N.to_nat i) base).

(** The text of [base] from [at_] to [stop], with the ranges of [edits], in
    ascending order, replaced. *)
Fixpoint splice (base : string) (at_ : N) (edits : list (ByteRange * string)) (stop : N) : string :=
  match edits with
  | [] => slice base at_ stop
  | (r, text) :: edits' => slice base at_ (br_start r) ++ text ++ splice base (br_end r) edits' stop
  end.

Definition replacement_of (o : EditOperation) : string :=
  match o with Modify m => m_replacement m | Create _ => "" end.
Definition edit_of (o : EditOperation) : ByteRange * string := (operation_range o, replacement_of o).

(** The order the replacements end up in: by range, and at one position in
    the reverse of the plan's order. *)
Definition in_order (operations : list EditOperation) : list EditOperation :=
  rev (sort_by reverse_range_cmp operations).

Lemma splice_snoc base at_ edits r text stop :
  splice base at_ (edits ++ [(r, text)])%list stop
  = splice base at_ edits (br_start r) ++ text ++ slice base (br_end r) stop.
Proof.
  revert at_. induction edits as [|[r' t'] edits IH]; intros at_; [done|].
  simpl. by rewrite IH, !append_assoc.
Qed.

(** ** One replacement *)

Definition range_ok (base : string) (r : ByteRange) : Prop :=
  br_start r <= br_end r /\ is_char_boundary base (br_start r) = true /\ is_char_boundary base (br_end r) = true.

Lemma boundary_le s i : is_char_boundary s i = true -> (N.to_nat i <= String.length s)%nat.
Proof. intros [Hi _]%char_boundary_iff. unfold strlen in Hi. lia. Qed.

Lemma starts_ok_app s t : starts_ok s = true -> starts_ok t = true -> starts_ok (s ++ t) = true.
Proof. by destruct s. Qed.

Lemma boundary_starts s i : utf8_valid s = true -> is_char_boundary s i = true -> starts_ok (drop_bytes (N.to_nat i) s) = true.
Proof. intros Hv [_ [->|Hs]]%char_boundary_iff; [|done]. by apply utf8_valid_starts. Qed.

(** A boundary of a text is one of any text that agrees with it up to
    there, when what follows starts a character. *)
Lemma boundary_prefix base e tail i :
  utf8_valid base = true -> is_char_boundary base e = true -> is_char_boundary base i = true -> i <= e ->
  starts_ok tail = true -> is_char_boundary (take_bytes (N.to_nat e) base ++ tail) i = true.
Proof.
  intros Hv He Hi Hie Ht. pose proof (boundary_le _ _ He) as Hle.
  assert (String.length (take_bytes (N.to_nat e) base) = N.to_nat e) as Hlen by (rewrite length_take_bytes; lia).
  apply char_boundary_iff. split; [unfold strlen; rewrite length_append, Hlen; lia|].
  right. rewrite drop_bytes_app_le by (rewrite Hlen; lia).
  destruct (drop_bytes (N.to_nat i) (take_bytes (N.to_nat e) base)) as [|c r] eqn:E; [done|].
  assert (starts_ok (drop_bytes (N.to_nat i) base) = true) as Hs by by apply boundary_starts.
  rewrite <- (app_take_drop_bytes (N.to_nat e) base) in Hs.
  rewrite drop_bytes_app_le, E in Hs by (rewrite Hlen; lia). exact Hs.
Qed.

Lemma slice_boundary base i j tail :
  utf8_valid base = true -> is_char_boundary base i = true -> is_char_boundary base j = true -> i <= j ->
  starts_ok tail = true -> starts_ok (slice base i j ++ tail) = true.
Proof.
  intros Hv Hi Hj Hij Ht. pose proof (boundary_starts _ _ Hv Hi) as Hs. unfold slice.
  destruct (N.to_nat (j - i)) as [|n]; [by rewrite take_bytes_0|].
  by destruct (drop_bytes (N.to_nat i) base).
Qed.

Lemma replace_range_splice base e tail r text :
  utf8_valid base = true -> is_char_boundary base e = true -> starts_ok tail = true ->
  range_ok base r -> br_end r <= e ->
  replace_range (take_bytes (N.to_nat e) base ++ tail) r text
  = Ret (take_bytes (N.to_nat (br_start r)) base ++ (text ++ slice base (br_end r) e ++ tail)).
Proof.
  intros Hv He Ht (Hr & Hs & Hend) Hle. unfold replace_range.
  rewrite !boundary_prefix by (done || lia). rewrite (proj2 (N.leb_le _ _)) by done. cbn [andb].
  pose proof (boundary_le _ _ He) as Hl.
  assert (String.length (take_bytes (N.to_nat e) base) = N.to_nat e) as Hlen by (rewrite length_take_bytes; lia).
  rewrite take_bytes_app_le, drop_bytes_app_le by (rewrite Hlen; lia).
  rewrite take_take_bytes by lia. do 3 f_equal. unfold slice.
  f_equal. replace (N.to_nat e) with (N.to_nat (br_end r) + N.to_nat (e - br_end r))%nat by lia.
  apply drop_take_bytes.
Qed.

(** ** All replacements of a file, from the last to the first *)

(** Each range of a descending list ends where the one before it starts, or
    earlier. *)
Fixpoint below (base : string) (e : N) (sorted : list EditOperation) : Prop :=
  match sorted with
  | [] => True
  | o :: sorted' =>
      range_ok base (operation_range o) /\ br_end (operation_range o) <= e
      /\ utf8_valid (replacement_of o) = true /\ is_creation o = false
      /\ below base (br_start (operation_range o)) sorted'
  end.

Lemma apply_replacements_splice base sorted : forall e tail,
  utf8_valid base = true -> is_char_boundary base e = true -> starts_ok tail = true -> below base e sorted ->
  apply_replacements (take_bytes (N.to_nat e) base ++ tail) sorted
  = Ret (splice base 0 (map edit_of (rev sorted)) e ++ tail).
Proof.
  induction sorted as [|[m|n] sorted IH]; intros e tail Hv He Ht Hb; simpl in Hb.
  - simpl. unfold slice. by rewrite N.sub_0_r.
  - destruct Hb as (Hr & Hle & Ht' & _ & Hb). cbn [apply_replacements].
    rewrite replace_range_splice by done. cbn [bind]. destruct Hr as (Hse & Hs & Hend).
    rewrite IH; [|done..| |done].
    + cbn [rev]. rewrite map_app. unfold edit_of at 3. simpl map. rewrite splice_snoc. simpl. by rewrite !append_assoc.
    + apply starts_ok_app; [by apply utf8_valid_starts|]. by apply slice_boundary.
  - by destruct Hb as (_ & _ & _ & ? & _).
Qed.

Lemma slice_valid base i j :
  utf8_valid base = true -> is_char_boundary base i = true -> is_char_boundary base j = true -> i <= j ->
  utf8_valid (slice base i j) = true.
Proof.
  intros Hv Hi Hj Hij. unfold slice.
  destruct (utf8_boundary_split _ _ Hv Hi) as [_ Hd].
  rewrite <- (app_take_drop_bytes (N.to_nat (j - i)) (drop_bytes (N.to_nat i) base)) in Hd.
  rewrite drop_drop_bytes in Hd. replace (N.to_nat (j - i) + N.to_nat i)%nat with (N.to_nat j) in Hd by lia.
  by apply utf8_valid_split in Hd as [? _]; [|by apply boundary_starts].
Qed.

Lemma splice_valid base sorted e :
  utf8_valid base = true -> is_char_boundary base e = true -> below base e sorted ->
  utf8_valid (splice base 0 (map edit_of (rev sorted)) e) = true.
Proof.
  revert e. induction sorted as [|o sorted IH]; intros e Hv He Hb; simpl in Hb.
  - apply slice_valid; [done..|lia].
  - destruct Hb as ((Hse & Hs & Hend) & Hle & Ht & _ & Hb). cbn [rev]. rewrite map_app. simpl map.
    unfold edit_of at 2. rewrite splice_snoc. apply utf8_valid_app; [by apply IH|].
    apply utf8_valid_app; [done|]. by apply slice_valid.
Qed.

(** ** Sorting the ranges *)

#[export] Instance range_cmp_linear : LinearCmp range_cmp.
Proof.
  pose proof (linear_pair N.compare N.compare) as [O E T]. split.
  - intros [a b] [a' b']. exact (O (a, b) (a', b')).
  - intros [a b] [a' b'] Hc. specialize (E (a, b) (a', b') Hc). congruence.
  - intros [a b] [a' b'] [a'' b'']. exact (T (a, b) (a', b') (a'', b'')).
Qed.

#[export] Instance range_cmp_total : TotalCmp range_cmp.
Proof. exact (linear_total id range_cmp). Qed.

#[export] Instance reverse_range_cmp_total : TotalCmp reverse_range_cmp.
Proof.
  pose proof (linear_total operation_range range_cmp) as [F T]. split.
  - intros x y. exact (F y x).
  - intros x y z Hxy Hyz. exact (T z y x Hyz Hxy).
Qed.

#[export] Instance range_le_antisymm : AntiSymm eq (cmp_le range_cmp).
Proof. intros x y. apply linear_antisymm, range_cmp_linear. Qed.

Lemma StronglySorted_reverse {A} (R : A -> A -> Prop) l :
  StronglySorted (flip R) l -> StronglySorted R (rev l).
Proof.
  induction 1 as [|x l Hs IH Hx]; [constructor|]. cbn [rev]. apply StronglySorted_app. split_and!; [|done|by repeat constructor].
  intros y z Hy ->%list_elem_of_singleton. rewrite Forall_forall in Hx. apply Hx. by rewrite (Permutation_rev l).
Qed.

(** The ranges in ascending order, and the operations in the order they are
    applied, are the same list read from both ends. *)
Lemma sorted_ranges_rev operations :
  sort_by range_cmp (map operation_range operations)
  = map operation_range (in_order operations).
Proof.
  eapply (StronglySorted_unique (cmp_le range_cmp)).
  - apply sort_by_sorted, range_cmp_total.
  - unfold in_order. rewrite map_rev. apply StronglySorted_reverse.
    pose proof (sort_by_sorted reverse_range_cmp operations) as Hs. revert Hs.
    generalize (sort_by reverse_range_cmp operations) as l. intros l. induction 1 as [|o l Hs IH Ho]; [constructor|].
    simpl. constructor; [done|]. by apply Forall_map.
  - unfold in_order. by rewrite !sort_by_perm, <- Permutation_rev.
Qed.

Lemma windows2_snoc {A} (f : A -> A -> bool) l x :
  windows2_any f (l ++ [x])%list = windows2_any f l || is_some_and (fun y => f y x) (last l).
Proof.
  induction l as [|y l IH]; [done|]. destruct l as [|z l]; [simpl; by rewrite orb_false_r|].
  change (f y z || windows2_any f ((z :: l) ++ [x])%list = f y z || windows2_any f (z :: l) || is_some_and (fun y => f y x) (last (z :: l))).
  by rewrite IH, orb_assoc.
Qed.

(** A modification that passed its checks against the base text. *)
Definition modifies `{Regex} (base actual_hash : string) (ending : LineEnding) (o : EditOperation) : Prop :=
  exists m, o = Modify m /\ m_encoding m = Utf8 /\ m_line_ending m = ending
    /\ m_expected_file_hash m = actual_hash /\ range_ok base (m_range m)
    /\ slice base (br_start (m_range m)) (br_end (m_range m)) = m_expected_old m
    /\ detect_secret (m_replacement m) = Ret None.

Lemma below_of_ranges base l e :
  windows2_any (fun x y => br_start y <? br_end x) (map operation_range (rev l)) = false ->
  Forall (fun o => range_ok base (operation_range o) /\ utf8_valid (replacement_of o) = true /\ is_creation o = false) l ->
  (forall o, head l = Some o -> br_end (operation_range o) <= e) ->
  below base e l.
Proof.
  revert e. induction l as [|o l IH]; intros e Hw Hf He; [done|]. cbn [rev] in Hw. rewrite map_app in Hw. simpl map in Hw.
  rewrite windows2_snoc in Hw. apply orb_false_iff in Hw as [Hw Hl].
  inversion Hf as [|?? (Hr & Ht & Hc) Hf']; subst. simpl. split_and!; try done; [by apply He|].
  apply IH; [done..|]. intros p Hp. destruct l as [|q l]; [done|]. injection Hp as ->.
  cbn [rev] in Hl. rewrite map_app, last_app in Hl. simpl in Hl. by apply N.ltb_ge in Hl.
Qed.

Section Groups.
Context `{Blake3, Regex}.

Lemma ranges_below base actual_hash ending operations :
  ranges_overlap operations = false ->
  Forall (modifies base actual_hash ending) operations ->
  Forall (fun o => utf8_valid (replacement_of o) = true) operations ->
  below base (strlen base) (sort_by reverse_range_cmp operations).
Proof.
  unfold ranges_overlap. intros Hw Hm Ht. rewrite sorted_ranges_rev in Hw.
  apply below_of_ranges; [exact Hw| |].
  - rewrite sort_by_perm. rewrite Forall_forall in *. intros o Ho.
    destruct (Hm o Ho) as (m & -> & _ & _ & _ & Hr & _). split_and!; [exact Hr|exact (Ht _ Ho)|done].
  - intros o Ho. assert (o ∈ operations) as Hin.
    { rewrite <- (sort_by_perm reverse_range_cmp). destruct (sort_by _ _); [done|]. injection Ho as ->. left. }
    rewrite Forall_forall in Hm. destruct (Hm o Hin) as (m & -> & _ & _ & _ & (_ & _ & Hb) & _).
    by apply char_boundary_iff in Hb as [? _].
Qed.

(** Applying the replacements from the last to the first is the splice of
    the base text, and it is valid again. *)
Lemma apply_replacements_ok base actual_hash ending operations :
  utf8_valid base = true ->
  ranges_overlap operations = false ->
  Forall (modifies base actual_hash ending) operations ->
  Forall (fun o => utf8_valid (replacement_of o) = true) operations ->
  apply_replacements base (sort_by reverse_range_cmp operations)
  = Ret (splice base 0 (map edit_of (in_order operations)) (strlen base))
  /\ utf8_valid (splice base 0 (map edit_of (in_order operations)) (strlen base)) = true.
Proof.
  intros Hv Hw Hm Ht. pose proof (ranges_below _ _ _ _ Hw Hm Ht) as Hb. split.
  - pose proof (apply_replacements_splice base _ (strlen base) "" Hv (strlen_boundary base) eq_refl Hb) as E.
    rewrite take_bytes_all, !append_empty in E by (unfold strlen; lia). exact E.
  - apply splice_valid; [done|apply strlen_boundary|done].
Qed.

(** ** The checks of a group *)

Lemma invalid_if_ok b c m u : invalid_if b c m = Ok u <-> b = false.
Proof. destruct b, u; unfold invalid_if, invalid; naive_solver. Qed.

Lemma validate_range_ok base r old u :
  validate_range base r old = Ok u -> range_ok base r /\ slice base (br_start r) (br_end r) = old.
Proof.
  unfold validate_range. intros ([] & E & E')%rbind_ok. rewrite invalid_if_ok in E, E'. split_bools.
  rewrite N.ltb_ge in *. assert (range_ok base r) as Hr by by split_and!. split; [done|].
  apply dec_stable in E'. unfold str_get in E'. destruct Hr as (Hr & Hs & He).
  rewrite Hs, He, (proj2 (N.leb_le _ _)) in E' by done. injection E' as <-. done.
Qed.

Lemma inspect_none_must {An : Answers} content :
  must (inspect_sensitive_text content) (fun s => is_some s = false -> detect_secret content = Ret None).
Proof. eapply must_mono; [apply detect_none|]. intros [] Hs; naive_solver. Qed.

Lemma validate_modification_must {An : Answers} path base actual_hash ending o :
  must (validate_modification path base actual_hash ending o) (ok_post (fun _ => modifies base actual_hash ending o)).
Proof.
  destruct o as [m|n]; [|done]. cbn [validate_modification].
  apply must_ret_try. intros [] E1%invalid_if_ok. apply must_ret_try. intros [] E2%invalid_if_ok.
  apply must_ret_try. intros [] _. apply must_ret_try. intros [] [Hr Ho]%validate_range_ok.
  apply must_ret_try. intros [] _. eapply must_bind; [apply inspect_none_must|]. intros s Hs.
  destruct (is_some s) eqn:Es; [done|]. simpl. split_bools. exists m.
  split_and!; first [done|by apply dec_stable|by apply String.eqb_eq|by apply Hs].
Qed.

Lemma validate_modifications_must {An : Answers} path base actual_hash ending os :
  must (validate_modifications path base actual_hash ending os)
    (ok_post (fun _ => Forall (modifies base actual_hash ending) os)).
Proof.
  induction os as [|o os IH]; cbn [validate_modifications]; [by constructor|].
  eapply must_try_ok; [apply validate_modification_must|]. intros [] Ho.
  eapply must_mono; [exact IH|]. intros [[]|] Hos; [|done]. by constructor.
Qed.
End Groups.

(** ** The snapshot of a group *)

(** A text that Rust holds as a [String]. *)
Definition text_ok (s : string) : Prop := utf8_valid s = true.

(** A well-typed snapshot: its texts are UTF-8, its hashes and its size are
    those of its texts, its line ending is the one of the text it starts
    from, and a modified file has a base while a created one has none. *)
Definition snapshot_ok `{Blake3} (f : ProposalFileSnapshot) : Prop :=
  text_ok (f_proposed_content f)
  /\ f_proposed_hash f = blake3_hex (f_proposed_content f)
  /\ f_proposed_bytes f = strlen (f_proposed_content f)
  /\ match f_status f with
     | Modified => exists base, f_base_content f = Some base /\ f_base_hash f = Some (blake3_hex base)
                   /\ text_ok base /\ detect_line_ending base = Ok (f_line_ending f)
     | Created => f_base_content f = None /\ f_base_hash f = None
                  /\ detect_line_ending (f_proposed_content f) = Ok (f_line_ending f)
     end.

(** The texts an operation carries. *)
Definition operation_text_ok (o : EditOperation) : Prop :=
  match o with Modify m => text_ok (m_replacement m) | Create n => text_ok (n_content n) end.

Section Snapshot.
Context `{Blake3, Regex}.

(** What a group of modifications materialises. *)
Definition modification_snapshot (path : string) (operations : list EditOperation) (plan : EditPlan)
    (f : ProposalFileSnapshot) : Prop :=
  exists base ending,
    f_path f = path /\ f_status f = Modified /\ f_base_content f = Some base
    /\ Forall (modifies base (blake3_hex base) ending) operations
    /\ ranges_overlap operations = false
    /\ f_proposed_content f = splice base 0 (map edit_of (in_order operations)) (strlen base)
    /\ (ending = NoEnding \/ detect_line_ending (f_proposed_content f) = Ok ending)
    /\ detect_secret base = Ret None
    /\ strlen base <= max_file_bytes (p_limits plan)
    /\ strlen (f_proposed_content f) <= max_file_bytes (p_limits plan).

Lemma replacements_text operations :
  Forall operation_text_ok operations -> Forall (fun o => utf8_valid (replacement_of o) = true) operations.
Proof. intros Ht. eapply Forall_impl; [exact Ht|]. by intros []. Qed.

Lemma read_base_must {An : Answers} root path limit :
  must (io_map_err (fun e => PlanError (ref_rule_id e) (ref_message e)) (read_safe_workspace_file root path limit))
    (ok_post (fun file => utf8_valid (sf_content file) = true /\ strlen (sf_content file) <= limit)).
Proof.
  apply must_map_err. eapply must_mono; [apply read_reference_must|]. intros [file|] Hf; [|done].
  destruct Hf as (rt & rel & _ & _ & _ & _ & Hw). split; apply Hw.
Qed.

Lemma modification_group_must {An : Answers} root path operations plan :
  Forall operation_text_ok operations ->
  must (validate_modification_group root path operations plan)
    (ok_post (fun f => modification_snapshot path operations plan f /\ snapshot_ok f)).
Proof.
  intros Ht. unfold validate_modification_group.
  eapply must_try_ok; [apply read_base_must|]. intros file [Hv Hsize].
  eapply must_bind; [apply inspect_none_must|]. intros secret Hsecret.
  apply must_ret_try. intros [] Hs%invalid_if_ok. apply must_ret_try. intros ending Hend.
  eapply must_try_ok; [apply validate_modifications_must|]. intros [] Hm.
  apply must_ret_try. intros [] Ho%invalid_if_ok.
  destruct (apply_replacements_ok _ _ _ _ Hv Ho Hm (replacements_text _ Ht)) as [-> Hpv]. cbn [bind].
  apply must_ret_try. intros [] Hp%invalid_if_ok. apply must_ret_try. intros proposed_ending Hpe.
  apply must_ret_try. intros [] He%invalid_if_ok. simpl. split.
  - exists (sf_content file), ending. simpl. split_and!; try done.
    + apply andb_false_iff in He as [He|He]; apply bool_decide_eq_false, dec_stable in He; [by left|right]. by subst.
    + by apply Hsecret.
    + by apply N.ltb_ge.
  - split_and!; try done. simpl. exists (sf_content file). by split_and!.
Qed.

Lemma creation_group_must {An : Answers} root path operations plan :
  Forall operation_text_ok operations ->
  must (validate_creation_group root path operations plan)
    (ok_post (fun f => exists n, operations = [Create n] /\ f_path f = path /\ f_status f = Created
       /\ f_proposed_content f = n_content n /\ n_expected_absent n = true
       /\ strlen (n_content n) <= max_file_bytes (p_limits plan)
       /\ detect_secret (n_content n) = Ret None
       /\ (exists e, answers (SymlinkMetadata (join root path)) (Err e) /\ io_error_kind e = NotFound)
       /\ snapshot_ok f)).
Proof.
  intros Ht. unfold validate_creation_group. destruct operations as [|[m|n] [|]]; try done.
  apply must_try_ok with (P := fun _ => n_expected_absent n = true /\ strlen (n_content n) <= max_file_bytes (p_limits plan)
    /\ detect_secret (n_content n) = Ret None /\ detect_line_ending (n_content n) = Ok (n_line_ending n)).
  { unfold validate_creation_fields. apply must_ret_try. intros [] _. apply must_ret_try. intros [] E1%invalid_if_ok.
    cbv zeta. apply must_ret_try. intros [] _. split_bools.
    eapply must_bind with (P := fun b => b = false -> strlen (n_content n) <= max_file_bytes (p_limits plan)
      /\ detect_secret (n_content n) = Ret None).
    - destruct (_ <? _) eqn:Hl; [by intros ?|]. eapply must_bind; [apply inspect_none_must|]. intros s Hs Hn.
      apply N.ltb_ge in Hl. split; [done|by apply Hs].
    - intros b Hb. apply must_ret_try. intros [] [? ?]%invalid_if_ok%Hb. apply must_ret_try. intros ending Hend.
      simpl. unfold invalid_if. destruct (bool_decide _) eqn:Hd; [done|]. simpl. split_bools.
      apply dec_stable in Hd. subst. by split_and!. }
  intros [] (Ha & Hl & Hs & Hend).
  apply must_try_ok with (P := fun _ => exists e, answers (SymlinkMetadata (join root path)) (Err e) /\ io_error_kind e = NotFound).
  { unfold validate_new_target. intros present Hpresent. destruct present as [m|e]; [done|].
    apply must_ret_try. intros [] Hn. destruct (decide _) as [Hk|]; [|done].
    apply must_true. intros [[]|]; [|done]. simpl. eauto. }
  intros [] He. apply Forall_inv in Ht. simpl. exists n. split_and!; done.
Qed.
End Snapshot.

(** ** Grouping by file *)

(** A group holds the operations of one path, in plan order, and is not
    empty. *)
Definition group_of (operations : list EditOperation) (g : string * list EditOperation) : Prop :=
  snd g = List.filter (fun o => (normalize_relative (operation_path o) =? fst g)%string) operations
  /\ snd g <> [].


Definition on_path (path : string) (o : EditOperation) : bool := (normalize_relative (operation_path o) =? path)%string.

Lemma group_operations_sorted operations : StronglySorted str_lt_prop (map fst (group_operations operations)).
Proof.
  unfold group_operations. induction operations as [|o os IH] using rev_ind; [constructor|].
  rewrite foldl_snoc. by apply map_update_sorted.
Qed.

(** The groups are exactly the paths of the plan with their operations. *)
Lemma group_operations_iff operations path os :
  (path, os) ∈ group_operations operations <-> os = List.filter (on_path path) operations /\ os <> [].
Proof.
  revert path os. induction operations as [|o operations IH] using rev_ind; intros path os.
  { simpl. rewrite elem_of_nil. naive_solver. }
  pose proof (group_operations_sorted operations) as Hs. unfold group_operations in *. rewrite foldl_snoc.
  set (g := foldl group_operation [] operations) in *. unfold group_operation at 1.
  set (key := normalize_relative (operation_path o)). rewrite map_update_lookup by done.
  assert (default [] (map_get key g) = List.filter (on_path key) operations) as ->.
  { destruct (map_get key g) as [v|] eqn:E.
    - rewrite map_get_iff in E by done. apply IH in E as [-> _]. done.
    - rewrite map_get_none in E. destruct (List.filter (on_path key) operations) as [|x l] eqn:Ef; [done|].
      exfalso. apply E. apply (list_elem_of_fmap_2 fst g (key, x :: l)). by apply IH. }
  rewrite filter_snoc, IH. unfold on_path at 4. fold key. split.
  - intros [(Hne & -> & Hnil)|[-> ->]].
    + assert ((key =? path)%string = false) as -> by by apply String.eqb_neq. by rewrite app_nil_r.
    + rewrite String.eqb_refl. split; [done|]. by destruct (List.filter _ _).
  - intros [-> Hnil]. destruct (String.eqb_spec key path) as [<-|Hne]; [by right|left].
    rewrite app_nil_r in *. split; [by intros ->|done].
Qed.

Lemma group_text operations path os :
  (path, os) ∈ group_operations operations -> Forall operation_text_ok operations -> Forall operation_text_ok os.
Proof.
  intros [-> _]%group_operations_iff Ht. rewrite Forall_forall in *. intros o Ho. apply Ht.
  apply list_elem_of_In in Ho. apply filter_In in Ho as [Ho _]. by apply list_elem_of_In.
Qed.

Lemma group_operations_perm operations : mjoin (map snd (group_operations operations)) ≡ₚ operations.
Proof.
  unfold group_operations. induction operations as [|o os IH] using rev_ind; [done|].
  rewrite foldl_snoc. unfold group_operation at 1. rewrite map_update_concat, IH. apply Permutation_cons_append.
Qed.

(** ** The totals are exact as long as they pass the limits *)

Lemma saturating_exact a b : saturating_add64 a b < u64_max -> saturating_add64 a b = a + b.
Proof. unfold saturating_add64. lia. Qed.

Definition added_of (o : EditOperation) : N :=
  match o with Modify m => line_count (m_replacement m) | Create n => line_count (n_content n) end.
Definition deleted_of (o : EditOperation) : N :=
  match o with Modify m => line_count (m_expected_old m) | Create _ => 0 end.
Definition both_bytes (f : ProposalFileSnapshot) : N := snapshot_bytes f + strlen (f_proposed_content f).

Lemma estimate_exact operations :
  (fst (estimate_group_lines operations) < u64_max ->
     fst (estimate_group_lines operations) = sum_N (map added_of operations))
  /\ (snd (estimate_group_lines operations) < u64_max ->
     snd (estimate_group_lines operations) = sum_N (map deleted_of operations)).
Proof.
  unfold estimate_group_lines. induction operations as [|o os IH] using rev_ind; [done|].
  rewrite !foldl_snoc, !map_app, !sum_N_app. simpl.
  destruct (foldl _ (0, 0) os) as [added deleted]. simpl in IH. destruct IH as [IHa IHd].
  destruct o as [m|n]; simpl; unfold saturating_add64 in *; split; intros; lia.
Qed.

Section Plan.
Context `{Blake3, Regex}.

(** The snapshot a group of the plan materialises. *)
Definition group_snapshot (plan : EditPlan) (g : string * list EditOperation) (f : ProposalFileSnapshot) : Prop :=
  f_path f = fst g /\ snapshot_ok f /\ strlen (f_proposed_content f) <= max_file_bytes (p_limits plan)
  /\ if existsb is_creation (snd g)
     then exists n, snd g = [Create n] /\ f_status f = Created /\ f_proposed_content f = n_content n
     else modification_snapshot (fst g) (snd g) plan f.

Lemma validate_group_must {An : Answers} root path operations plan :
  Forall operation_text_ok operations ->
  must (if existsb is_creation operations
        then validate_creation_group root path operations plan
        else validate_modification_group root path operations plan)
    (ok_post (group_snapshot plan (path, operations))).
Proof.
  intros Ht. unfold group_snapshot. simpl. destruct (existsb is_creation operations).
  - eapply must_mono; [by apply creation_group_must|]. intros [f|] Hf; [|done]. simpl in *.
    destruct Hf as (n & -> & Hp & Hst & Hc & _ & Hl & _ & _ & Hok). rewrite Hc. split_and!; try done. by exists n.
  - eapply must_mono; [by apply modification_group_must|]. intros [f|] Hf; [|done]. simpl in *.
    destruct Hf as [Hm Hok]. pose proof Hm as (b & e & Hp & _ & _ & _ & _ & _ & _ & _ & _ & Hl). by split_and!.
Qed.

Definition totals_exact (grouped : list (string * list EditOperation)) (fs : list ProposalFileSnapshot)
    (t t' : totals) : Prop :=
  (tt_added t' < u64_max -> tt_added t' = tt_added t + sum_N (map added_of (mjoin (map snd grouped))))
  /\ (tt_deleted t' < u64_max -> tt_deleted t' = tt_deleted t + sum_N (map deleted_of (mjoin (map snd grouped))))
  /\ (tt_bytes t' < u64_max -> tt_bytes t' = tt_bytes t + sum_N (map both_bytes fs)).

Lemma validate_groups_must {An : Answers} root plan grouped t :
  Forall (fun g => Forall operation_text_ok (snd g)) grouped ->
  must (validate_groups root plan grouped t) (ok_post (fun '(fs, t') =>
    Forall2 (group_snapshot plan) grouped fs /\ totals_exact grouped fs t t')).
Proof.
  intros Hg. revert t. induction Hg as [|[path os] grouped Ho Hg IH]; intros t; cbn [validate_groups].
  { simpl. split; [constructor|]. unfold totals_exact. simpl. lia. }
  eapply must_try_ok; [by apply validate_group_must|]. intros f Hf.
  pose proof (estimate_exact os) as Hest. destruct (estimate_group_lines os) as [added deleted] eqn:Ee.
  eapply must_try_ok; [apply IH|]. intros [fs t'] [Hfs Ht]. simpl. split; [by constructor|].
  unfold totals_exact, both_bytes in *. simpl in *. rewrite !map_app, !sum_N_app.
  destruct Ht as (Ha & Hd & Hb), Hest as [Hea Hed]. unfold saturating_add64 in *. split_and!; intros; lia.
Qed.

Lemma check_each_ok {A E} (check : A -> result unit E) l u :
  check_each check l = Ok u <-> Forall (fun x => check x = Ok tt) l.
Proof.
  induction l as [|x l IH]; cbn [check_each]; [destruct u; split; [by constructor|done]|].
  rewrite Forall_cons, <- IH, rbind_ok. split; [intros ([] & ? & ?)|intros [? ?]; exists tt]; done.
Qed.

Lemma validate_plan_fields_ok plan expected u :
  validate_plan_fields plan expected = Ok u ->
  bounded_by_hard_maxima (p_limits plan) = true /\ limits_exceed (p_limits plan) (x_limits expected) = false
  /\ p_operations plan <> [] /\ list_len (p_operations plan) <= max_hunks (p_limits plan)
  /\ Forall (fun i => check_identifier i = Ok tt) (plan_identifiers plan expected).
Proof.
  unfold validate_plan_fields. intros E. repeat (apply rbind_ok in E as ([] & ?E & E)).
  rewrite invalid_if_ok in *. split_bools.
  match goal with H : validate_envelope _ _ = _ |- _ => rename H into Henv end.
  unfold validate_envelope in Henv. repeat (apply rbind_ok in Henv as ([] & ?E & Henv)).
  match goal with H : check_each check_identifier _ = _ |- _ => rewrite check_each_ok in H end.
  rewrite N.ltb_ge in *. unfold exceeds_effective_limits in *. by split_and!.
Qed.
End Plan.

Section Validation.
Context {An : Answers} `{Blake3, Regex}.

Definition plan_text_ok (plan : EditPlan) : Prop := Forall operation_text_ok (p_operations plan).

(** What a validated plan is, as one statement. *)
Definition validated (plan : EditPlan) (expected : EditPlanExpectations) (v : ValidatedEditPlan) : Prop :=
  let grouped := group_operations (p_operations plan) in
  v_plan v = plan
  /\ Forall2 (group_snapshot plan) grouped (v_files v)
  /\ validate_plan_fields plan expected = Ok tt
  /\ Forall (fun o => check_operation_path o = Ok tt) (p_operations plan)
  /\ check_group_limits plan grouped = Ok tt
  /\ totals_exact grouped (v_files v) {| tt_added := 0; tt_deleted := 0; tt_bytes := 0 |}
       {| tt_added := v_estimated_added_lines v; tt_deleted := v_estimated_deleted_lines v;
          tt_bytes := v_total_snapshot_bytes v |}
  /\ check_totals plan {| tt_added := v_estimated_added_lines v; tt_deleted := v_estimated_deleted_lines v;
                          tt_bytes := v_total_snapshot_bytes v |} = Ok tt.

Lemma grouped_text plan :
  plan_text_ok plan -> Forall (fun g => Forall operation_text_ok (snd g)) (group_operations (p_operations plan)).
Proof. intros Ht. apply Forall_forall. intros [path os] Hg. by eapply group_text. Qed.

Lemma validate_edit_plan_must plan expected :
  plan_text_ok plan -> must (validate_edit_plan plan expected) (ok_post (validated plan expected)).
Proof.
  intros Ht. unfold validate_edit_plan. apply must_ret_try. intros [] Hf.
  eapply must_try_ok with (P := fun _ => True); [apply must_true; by intros []|]. intros root _.
  apply must_ret_try. intros [] Hp%check_each_ok. cbv zeta. apply must_ret_try. intros [] Hl.
  eapply must_try_ok; [apply validate_groups_must, grouped_text, Ht|]. intros [fs t] [Hfs Htot].
  apply must_ret_try. intros [] Hc. destruct t as [a d b]. unfold validated. simpl. by split_and!.
Qed.

Lemma group_limits_ok plan grouped :
  check_group_limits plan grouped = Ok tt ->
  list_len grouped <= max_files (p_limits plan)
  /\ list_len (List.filter is_creation (p_operations plan)) <= max_created_files (p_limits plan).
Proof.
  unfold check_group_limits. intros ([] & E & E')%rbind_ok. rewrite invalid_if_ok, N.ltb_ge in *. done.
Qed.

Lemma check_totals_ok plan t :
  check_totals plan t = Ok tt ->
  tt_added t <= max_added_lines (p_limits plan) /\ tt_deleted t <= max_deleted_lines (p_limits plan)
  /\ saturating_add64 (tt_added t) (tt_deleted t) <= max_changed_lines (p_limits plan)
  /\ tt_bytes t <= saturating_mul64 (max_proposal_bytes (p_limits plan)) 2.
Proof.
  unfold check_totals. intros ([] & E & E')%rbind_ok. rewrite invalid_if_ok in *. split_bools.
  rewrite N.ltb_ge in *. done.
Qed.
End Validation.

(** ** The properties of validation *)

(** C21: a validated plan is the plan it was given, with exactly one snapshot
    per path, in path order; a modified file's proposed text is its base text
    with each range replaced (a splice, whatever the order of the operations
    in the plan), every range being the expected old text of a base whose
    hash every operation names, ranges do not overlap, neither the base nor a
    replacement holds a detected secret and the line ending is kept; a
    created file's text is that of its only operation. *)
Theorem validated_plan_splices {An : Answers} `{Blake3, Regex} plan expected (Ht : plan_text_ok plan) :
  must (validate_edit_plan plan expected) (ok_post (fun v =>
    v_plan v = plan /\ Forall2 (group_snapshot plan) (group_operations (p_operations plan)) (v_files v))).
Proof. eapply must_mono; [by apply validate_edit_plan_must|]. intros [v|] Hv; [|done]. by destruct Hv as (? & ? & _). Qed.

(** The snapshots of a validated plan are well typed, and their paths, as they
    are spelled, strictly ascending.  Two spellings of one path are two
    paths. *)
Theorem validated_snapshots_typed {An : Answers} `{Blake3, Regex} plan expected (Ht : plan_text_ok plan) :
  must (validate_edit_plan plan expected) (ok_post (fun v =>
    Forall snapshot_ok (v_files v) /\ StronglySorted str_lt_prop (map f_path (v_files v)))).
Proof.
  eapply must_mono; [by apply validate_edit_plan_must|]. intros [v|] Hv; [|done]. destruct Hv as (_ & Hf & _). simpl. split.
  - induction Hf as [|g f gs fs Hgf Hf IH]; constructor; [apply Hgf|done].
  - replace (map f_path (v_files v)) with (map fst (group_operations (p_operations plan)));
      [apply group_operations_sorted|].
    induction Hf as [|g f gs fs Hgf Hf IH]; [done|]. simpl. f_equal; [|done]. symmetry. apply Hgf.
Qed.

(** C37: a validated plan is bounded by the hard maxima, whatever limits the
    model asked for: at most 64 operations on at most 5 files of at most
    512 KiB, at most one of them new; the recorded totals are the exact sums
    over the operations and the snapshots, without saturation, and stay
    within 1500 added, 1500 deleted and 2000 changed lines and 4 MiB. *)
Theorem validated_plan_bounded {An : Answers} `{Blake3, Regex} plan expected (Ht : plan_text_ok plan) :
  must (validate_edit_plan plan expected) (ok_post (fun v =>
    1 <= list_len (p_operations plan) <= 64
    /\ list_len (v_files v) <= 5
    /\ list_len (List.filter is_creation (p_operations plan)) <= 1
    /\ Forall (fun f => strlen (f_proposed_content f) <= 524288) (v_files v)
    /\ v_estimated_added_lines v = sum_N (map added_of (p_operations plan)) /\ v_estimated_added_lines v <= 1500
    /\ v_estimated_deleted_lines v = sum_N (map deleted_of (p_operations plan)) /\ v_estimated_deleted_lines v <= 1500
    /\ v_estimated_added_lines v + v_estimated_deleted_lines v <= 2000
    /\ v_total_snapshot_bytes v = sum_N (map both_bytes (v_files v)) /\ v_total_snapshot_bytes v <= 4194304)).
Proof.
  eapply must_mono; [by apply validate_edit_plan_must|]. intros [v|] Hv; [|done].
  destruct Hv as (_ & Hf & Hfields & _ & Hg & Htot & Hc).
  apply validate_plan_fields_ok in Hfields as (Hb & _ & Hne & Hops & _). apply group_limits_ok in Hg as [Hfiles Hnew].
  apply check_totals_ok in Hc as (Ha & Hd & Hch & Hby). destruct Htot as (Ea & Ed & Eb).
  unfold bounded_by_hard_maxima in Hb. split_bools. rewrite N.leb_le in *. rewrite N.ltb_lt in *.
  unfold MAX_EDIT_FILES, MAX_EDIT_CREATED_FILES, MAX_EDIT_FILE_BYTES, MAX_EDIT_PROPOSAL_BYTES, MAX_EDIT_HUNKS,
    MAX_EDIT_ADDED_LINES, MAX_EDIT_DELETED_LINES, MAX_EDIT_CHANGED_LINES, saturating_add64, saturating_mul64,
    u64_max, list_len in *. simpl in *. rewrite group_operations_perm in Ea, Ed.
  assert (List.length (p_operations plan) <> 0%nat) by (by intros ?%length_zero_iff_nil).
  assert (Hlen : List.length (v_files v) = List.length (group_operations (p_operations plan)))
    by (symmetry; by eapply Forall2_length). split_and!; try lia.
  assert (Hfb : max_file_bytes (p_limits plan) <= 524288) by lia.
  clear -Hf Hfb. induction Hf as [|g f gs fs Hgf Hf IH]; constructor; [|done]. destruct Hgf as (_ & _ & Hl & _). lia.
Qed.

(** ** Validation observes and does not panic *)

Section Observing.
Context `{Blake3, RegexBoundary}.

Lemma read_base_observer {F} (g : SafeReferenceError -> F) root path limit :
  observer (io_map_err g (read_safe_workspace_file root path limit)).
Proof. apply observer_map_err, read_reference_observer. Qed.
#[local] Hint Resolve read_base_observer inspect_sensitive_observer : observer.

Lemma canonical_directory_observer path : observer (canonical_real_directory path).
Proof. unfold canonical_real_directory. observe. Qed.

Lemma modifications_observer path base hash ending os : observer (validate_modifications path base hash ending os).
Proof.
  induction os as [|o os IH]; cbn [validate_modifications]; [done|]. apply observer_try; [|intros _; exact IH].
  destruct o; cbn [validate_modification]; observe.
Qed.
#[local] Hint Resolve canonical_directory_observer modifications_observer : observer.

Lemma creation_group_observer root path os plan : observer (validate_creation_group root path os plan).
Proof. unfold validate_creation_group, validate_creation_fields, validate_new_target. cbv zeta. observe. Qed.

Lemma apply_replacements_reads base os : read_only (apply_replacements base os).
Proof.
  revert base. induction os as [|[m|n] os IH]; intros base; cbn [apply_replacements]; [done| |apply IH].
  apply calls_bind; [|apply IH]. unfold replace_range. by destruct (_ && _).
Qed.

Lemma modification_group_reads root path os plan : read_only (validate_modification_group root path os plan).
Proof.
  unfold validate_modification_group. apply calls_try; [apply read_base_observer|intros file]. cbv zeta.
  apply calls_bind; [apply inspect_sensitive_observer|intros secret]. apply calls_try; [done|intros _].
  apply calls_try; [done|intros ending]. apply calls_try; [apply modifications_observer|intros _].
  apply calls_try; [done|intros _]. apply calls_bind; [apply apply_replacements_reads|intros proposed].
  by repeat (apply calls_try; [done|intros ?]).
Qed.

Lemma modification_group_calm root path os plan :
  Forall operation_text_ok os -> no_panic (validate_modification_group root path os plan).
Proof.
  intros Ht. unfold validate_modification_group.
  eapply no_panic_try_must; [apply read_base_observer|apply read_base_must|]. intros file [Hv _]. cbv zeta.
  apply no_panic_bind; [apply inspect_sensitive_observer|intros secret]. apply no_panic_try; [done|intros _].
  apply no_panic_try; [done|intros ending].
  eapply no_panic_try_must; [apply modifications_observer|apply validate_modifications_must|]. intros [] Hm.
  apply no_panic_ret_try. intros [] Ho%invalid_if_ok.
  destruct (apply_replacements_ok _ _ _ _ Hv Ho Hm (replacements_text _ Ht)) as [-> _]. cbn [bind].
  by repeat (apply no_panic_try; [done|intros ?]).
Qed.

Lemma validate_groups_observer root plan grouped t :
  Forall (fun g => Forall operation_text_ok (snd g)) grouped -> observer (validate_groups root plan grouped t).
Proof.
  intros Hg. revert t. induction Hg as [|[path os] grouped Ho Hg IH]; intros t; cbn [validate_groups]; [done|].
  apply observer_try.
  - destruct (existsb is_creation os); [apply creation_group_observer|].
    split; [apply modification_group_reads|by apply modification_group_calm].
  - intros f. destruct (estimate_group_lines os). apply observer_try; [apply IH|]. by intros [].
Qed.
End Observing.

(** Validating a plan changes nothing and does not panic, whatever the
    file system answers: the replacements are always made at character
    boundaries of the text they are applied to. *)
Theorem validate_edit_plan_observes `{Blake3, RegexBoundary} plan expected (Ht : plan_text_ok plan) :
  read_only (validate_edit_plan plan expected) /\ no_panic (validate_edit_plan plan expected).
Proof.
  change (observer (validate_edit_plan plan expected)). unfold validate_edit_plan.
  apply observer_try; [done|intros _]. apply observer_try; [apply canonical_directory_observer|intros root].
  apply observer_try; [done|intros _]. cbv zeta. apply observer_try; [done|intros _].
  apply observer_try; [by apply validate_groups_observer, grouped_text|]. intros [fs t].
  by apply observer_try.
Qed.

(** ** The order of the plan *)

Lemma sort_same operations operations' :
  operations ≡ₚ operations' -> NoDup (map operation_range operations) ->
  sort_by reverse_range_cmp operations = sort_by reverse_range_cmp operations'.
Proof.
  intros Hp Hn. apply sort_by_same; [apply reverse_range_cmp_total| |done]. intros x y Hx Hy Hxy Hyx.
  assert (operation_range x = operation_range y) as E by by apply (anti_symm (cmp_le range_cmp)).
  apply list_elem_of_lookup in Hx as [i Hi], Hy as [j Hj].
  assert (i = j) as ->; [|congruence].
  eapply (NoDup_lookup (map operation_range operations)); [done|..]; rewrite list_lookup_fmap.
  - by rewrite Hi.
  - rewrite Hj. simpl. by rewrite E.
Qed.

(** What a group of modifications produces does not depend on the order
    in which the plan lists them, as long as no two of them name the same
    range; only insertions at one position are sensitive to it. *)
Theorem replacements_order_irrelevant base operations operations'
    (Hp : operations ≡ₚ operations') (Hn : NoDup (map operation_range operations)) :
  apply_replacements base (sort_by reverse_range_cmp operations)
  = apply_replacements base (sort_by reverse_range_cmp operations').
Proof. by rewrite (sort_same _ _ Hp Hn). Qed.

(** Two insertions at one position come out in the reverse of the order in
    which the plan lists them. *)
Definition insertion (at_ : N) (text : string) : EditOperation := Modify {|
  m_path := "notes.txt"; m_expected_file_hash := ""; m_encoding := Utf8; m_line_ending := NoEnding;
  m_range := {| br_start := at_; br_end := at_ |}; m_expected_old := ""; m_replacement := text;
  m_reason := "insert"; m_symbol := None; m_provenance := ["user"] |}.

Example insertions_reverse :
  apply_replacements "[]" (sort_by reverse_range_cmp [insertion 1 "first"; insertion 1 "second"])
  = Ret "[secondfirst]".
Proof. vm_compute. reflexivity. Qed.

(** On Unix a backslash is an ordinary byte of a name: a path that hides a
    parent directory behind backslashes is one normal component when it is
    validated, and becomes a parent directory when it is normalized. *)
Definition hidden_parent : string :=
  "src" ++ String backslash "" ++ ".." ++ String backslash "" ++ ".opticcode" ++ String backslash "" ++ "evil.txt".

Example hidden_parent_accepted :
  (validate_relative_path hidden_parent, normalize_relative hidden_parent) = (Ok tt, "src/../.opticcode/evil.txt").
Proof. vm_compute. reflexivity. Qed.
