(* ===== verification/EditIntentFacts.v ===== *)
(** * Edit intents: authority, canonical form, bindings

    What a validated intent and its stored binding say, that the canonical
    form does not depend on the order of the lists, and that a plan accepted
    against either touches nothing else. *)

From stdpp Require Import base list strings sorting sets.
From Stdlib Require Import NArith Ascii String Sorted Lia.
From S2P Require Import Prelude Bytes Text TextFacts UnixPath Paths EditPlan EditIntent EditPlanFacts.

Local Open Scope string_scope.
Local Open Scope N_scope.

(** ** Pieces *)

Lemma reject_if_passes b c m u : reject_if b c m = Ok u <-> b = false.
Proof. destruct b, u; unfold reject_if, reject; naive_solver. Qed.

Lemma ok_or_ok {A E} (e : E) (o : option A) a : ok_or e o = Ok a <-> o = Some a.
Proof. destruct o; simpl; naive_solver. Qed.

Create Rewrite HintDb intent.
#[export] Hint Rewrite reject_if_passes @ok_or_ok : intent.

(** Splits a chain of checks in a hypothesis. *)
Ltac chain E :=
  repeat (apply rbind_ok in E as (?a & ?E & E)).

Lemma relative_path_id path p : EditIntent.validate_relative_path path = Ok p -> p = path.
Proof.
  unfold EditIntent.validate_relative_path. cbv zeta. intros E. chain E.
  autorewrite with intent in *. apply negb_false_iff, String.eqb_eq in E3. congruence.
Qed.

Lemma inventory_from_ok refs seen out :
  inventory_from seen refs = Ok out <->
  Forall (fun id => validate_identifier "reference_id" id = Ok tt) refs /\ NoDup refs /\ (forall id, id ∈ refs -> id ∉ seen)
  /\ out = foldl (fun s id => sort_insert str_cmp id s) seen refs.
Proof.
  revert seen. induction refs as [|id refs IH]; intros seen; cbn [inventory_from foldl].
  { split; [intros [= <-]; split_and!; [constructor|constructor|set_solver|done]|by intros (_ & _ & _ & ->)]. }
  rewrite Forall_cons, NoDup_cons. split.
  - intros E. chain E. destruct a. destruct (set_insert id seen) as [seen'|] eqn:Ei; [|done].
    apply set_insert_some in Ei as [Hid ->]. apply IH in E as (Hv & Hn & Hd & ->).
    split_and!; try done.
    + intros Hin. apply (Hd id Hin). rewrite sort_insert_perm. left.
    + intros j [->|Hj]%elem_of_cons; [done|]. intros Hs. apply (Hd j Hj). rewrite sort_insert_perm. by right.
  - intros ((Hv & Hvs) & (Hid & Hn) & Hd & ->). rewrite Hv. simpl.
    assert (set_insert id seen = Some (sort_insert str_cmp id seen)) as ->.
    { apply set_insert_some. split; [apply Hd; left|done]. }
    apply IH. split_and!; try done. intros j Hj. rewrite sort_insert_perm, not_elem_of_cons.
    split; [by intros ->|apply Hd; by right].
Qed.

(** An inventory of reference identifiers. *)
Definition references_ok (refs : list string) : Prop :=
  list_len refs <= MAX_EDIT_INTENT_REFERENCES_PER_TARGET
  /\ Forall (fun id => validate_identifier "reference_id" id = Ok tt) refs /\ NoDup refs.

Lemma inserted_perm refs seen : foldl (fun s id => sort_insert str_cmp id s) seen refs ≡ₚ refs ++ seen.
Proof.
  revert seen. induction refs as [|id refs IH]; intros seen; simpl; [done|].
  rewrite IH, sort_insert_perm. symmetry. apply Permutation_middle.
Qed.

Lemma reference_inventory_ok refs out :
  validate_reference_inventory refs = Ok out -> references_ok refs /\ out ≡ₚ refs.
Proof.
  unfold validate_reference_inventory. intros E. chain E. autorewrite with intent in *. apply N.ltb_ge in E0.
  apply inventory_from_ok in E as (Hv & Hn & _ & ->). split; [by split_and!|].
  by rewrite inserted_perm, app_nil_r.
Qed.

Lemma reference_inventory_total refs :
  references_ok refs -> exists out, validate_reference_inventory refs = Ok out /\ out ≡ₚ refs.
Proof.
  intros (Hl & Hv & Hn). unfold validate_reference_inventory.
  rewrite (proj2 (N.ltb_ge _ _)) by done. simpl. eexists. split.
  - apply inventory_from_ok. split_and!; try done. intros id _. apply not_elem_of_nil.
  - by rewrite inserted_perm, app_nil_r.
Qed.

Lemma references_ok_perm refs refs' : refs ≡ₚ refs' -> references_ok refs -> references_ok refs'.
Proof.
  intros Hp (Hl & Hv & Hn). unfold references_ok, list_len in *. rewrite Hp in Hl, Hn.
  split_and!; [done| |done]. by rewrite <- Hp.
Qed.

(** ** One target *)

(** The checks of a target that do not depend on the others: those of an
    intent and those of a stored binding come to the same. *)
Definition target_ok (operations : list EditIntentOperationKind) (extensions : list string) (t : EditIntentTarget) : Prop :=
  EditIntent.validate_relative_path (target_path t) = Ok (target_path t)
  /\ operation_kind t ∈ operations
  /\ references_ok (reference_ids t)
  /\ (exists e, extension_for_path (target_path t) = Ok e /\ e ∈ extensions)
  /\ match t with
     | ExistingFile _ hash refs provenance =>
         EditIntent.is_hash hash = true /\ provenance <> UserRequestedCreation
         /\ (provenance = UserReference -> refs <> [])
     | ProspectiveFile path extension _ provenance =>
         extension_for_path path = Ok extension /\ provenance = UserRequestedCreation
     end.

(** What a target adds to what was seen. *)
Definition seen_after (t : EditIntentTarget) (s s' : seen_targets) : Prop :=
  exists refs, s' = saw (sort_insert str_cmp (target_path t) (se_paths s)) refs t s /\ refs ≡ₚ reference_ids t.

Lemma ensure_subset_ok path refs allowed u :
  ensure_reference_subset path refs allowed = Ok u -> refs ⊆ allowed.
Proof.
  unfold ensure_reference_subset. destruct (find _ refs) eqn:E; [done|]. intros _ id Hid.
  eapply find_none in E; [|by apply list_elem_of_In]. apply negb_false_iff in E. by apply set_contains_iff.
Qed.

(** The target is one the runtime trusts: a file with the same content hash,
    or a creation that was asked for, with no other references. *)
Definition trusted_target (trusted : TrustedTargets) (t : EditIntentTarget) : Prop :=
  match t with
  | ExistingFile path hash refs _ =>
      exists allowed, map_get path (tr_existing trusted) = Some allowed
        /\ te_content_hash allowed = hash /\ refs ⊆ te_reference_ids allowed
  | ProspectiveFile path _ refs _ =>
      exists allowed, map_get path (tr_prospective trusted) = Some allowed /\ refs ⊆ allowed
  end.

Lemma check_existing_ok trusted path hash refs prov u :
  check_existing_target trusted path hash refs prov = Ok u ->
  prov <> UserRequestedCreation /\ (prov = UserReference -> refs <> []) /\ EditIntent.is_hash hash = true
  /\ exists allowed, map_get path (tr_existing trusted) = Some allowed
     /\ te_content_hash allowed = hash /\ refs ⊆ te_reference_ids allowed.
Proof.
  unfold check_existing_target. intros E. chain E. autorewrite with intent in *. apply ensure_subset_ok in E.
  repeat match goal with H : negb _ = false |- _ => apply negb_false_iff in H | H : bool_decide _ = false |- _ => apply bool_decide_eq_false in H
    | H : (_ =? _)%string = true |- _ => apply String.eqb_eq in H end.
  split_and!; try done; [|by eexists].
  match goal with H : _ && _ = false |- _ => intros -> ->; apply andb_false_iff in H as [H|H]; by apply bool_decide_eq_false in H end.
Qed.

Lemma check_prospective_ok extensions trusted path extension refs prov u :
  check_prospective_target extensions trusted path extension refs prov = Ok u ->
  prov = UserRequestedCreation /\ extension_for_path path = Ok extension
  /\ exists allowed, map_get path (tr_prospective trusted) = Some allowed /\ refs ⊆ allowed.
Proof.
  unfold check_prospective_target. intros E. chain E. autorewrite with intent in *. apply ensure_subset_ok in E.
  split_bools. repeat match goal with H : ~ (_ <> _) |- _ => apply dec_stable in H
    | H : (_ =? _)%string = true |- _ => apply String.eqb_eq in H end. subst.
  split_and!; [done|done|by eexists].
Qed.

Lemma check_target_ok operations extensions trusted t s s' :
  check_target operations extensions trusted t s = Ok s' ->
  target_ok operations extensions t /\ trusted_target trusted t /\ (target_path t ∉ se_paths s) /\ seen_after t s s'.
Proof.
  unfold check_target. intros E. chain E. autorewrite with intent in *. injection E as <-.
  pose proof (relative_path_id _ _ E0) as ->. apply set_insert_some in E1 as [Hp ->].
  apply reference_inventory_ok in E3 as [Hr Hperm]. apply negb_false_iff, set_contains_iff in E6.
  apply bool_decide_eq_false, dec_stable in E2.
  assert (seen_after t s (saw (sort_insert str_cmp (target_path t) (se_paths s)) a2 t s)) as Hs by by exists a2.
  destruct t as [path hash refs prov|path ext refs prov]; cbn [target_path reference_ids operation_kind] in *.
  - apply check_existing_ok in E4 as (Hprov & Hrefs & Hh & allowed & Ha & Hc & Hsub).
    split; [|split; [exists allowed; split_and!; [done|done|by rewrite <- Hperm]|done]].
    split_and!; try done; [by eexists|]. intros Hu ->. apply Permutation_nil_r in Hperm. by apply Hrefs in Hu.
  - apply check_prospective_ok in E4 as (Hprov & Hext & allowed & Ha & Hsub).
    split; [|split; [exists allowed; split_and!; [done|by rewrite <- Hperm]|done]].
    split_and!; try done. by eexists.
Qed.

Lemma check_binding_target_total operations extensions t s :
  target_ok operations extensions t -> target_path t ∉ se_paths s ->
  exists s', check_binding_target operations extensions t s = Ok s' /\ seen_after t s s'.
Proof.
  intros (Hp & Hop & Hr & (e & He & Hin) & Ht) Hs. unfold check_binding_target. rewrite Hp. cbn [rbind].
  rewrite (proj2 (set_insert_some _ _ _) (conj Hs eq_refl)). cbn [ok_or rbind].
  rewrite (bool_decide_eq_false_2 (operation_kind t ∉ operations)) by tauto. cbn [reject_if rbind].
  destruct (reference_inventory_total _ Hr) as (refs & -> & Hperm). cbn [rbind]. rewrite He. cbn [rbind].
  rewrite (proj2 (set_contains_iff _ _) Hin). cbn [negb reject_if rbind].
  eexists. split; [|by exists refs]. destruct t as [path hash ids prov|path ext ids prov]; simpl in *.
  - destruct Ht as (-> & Hprov & Hu). rewrite (bool_decide_eq_false_2 (prov = _)) by done.
    assert (bool_decide (prov = UserReference) && bool_decide (refs = []) = false) as ->; [|done].
    apply andb_false_iff. destruct (decide (prov = UserReference)) as [->|]; [right|left; by apply bool_decide_eq_false].
    apply bool_decide_eq_false. intros ->. apply Permutation_nil in Hperm. by apply Hu.
  - destruct Ht as [Hext ->]. rewrite Hext in He. injection He as ->. by rewrite String.eqb_refl.
Qed.

(** ** All targets *)

Definition has_existing (ts : list EditIntentTarget) : bool :=
  existsb (fun t => bool_decide (operation_kind t = ModifyExisting)) ts.
Definition has_prospective (ts : list EditIntentTarget) : bool :=
  existsb (fun t => bool_decide (operation_kind t = CreateTextFile)) ts.
Definition has_explicit (ts : list EditIntentTarget) : bool :=
  existsb (fun t => negb (bool_decide (reference_ids t = []))) ts.

(** The state after all of them. *)
Definition seen_all (ts : list EditIntentTarget) (s s' : seen_targets) : Prop :=
  se_existing s' = se_existing s || has_existing ts /\ se_prospective s' = se_prospective s || has_prospective ts
  /\ se_explicit s' = se_explicit s || has_explicit ts.

Lemma nil_perm_bool {A} `{EqDecision A} (l k : list A) : l ≡ₚ k -> bool_decide (l = []) = bool_decide (k = []).
Proof.
  intros Hp. apply bool_decide_ext. split; intros ->; [by apply Permutation_nil in Hp|by apply Permutation_nil_r in Hp].
Qed.

Lemma seen_all_cons t ts s s1 s' : seen_after t s s1 -> seen_all ts s1 s' -> seen_all (t :: ts) s s'.
Proof.
  intros (refs & -> & Hp) (E1 & E2 & E3). unfold seen_all. rewrite E1, E2, E3.
  unfold has_existing, has_prospective, has_explicit. simpl. by rewrite (nil_perm_bool _ _ Hp), !orb_assoc.
Qed.

Section Fold.
Context (check : EditIntentTarget -> seen_targets -> intent seen_targets) (P : EditIntentTarget -> Prop).

Lemma fold_targets_ok ts s s' :
  (forall t s s', check t s = Ok s' -> P t /\ (target_path t ∉ se_paths s) /\ seen_after t s s') ->
  fold_targets check ts s = Ok s' ->
  Forall P ts /\ NoDup (map target_path ts) /\ (forall t, t ∈ ts -> target_path t ∉ se_paths s) /\ seen_all ts s s'.
Proof.
  intros Hc. revert s. induction ts as [|t ts IH]; intros s; cbn [fold_targets].
  { intros [= <-]. split_and!; [constructor|constructor|set_solver|]. unfold seen_all. simpl. by rewrite !orb_false_r. }
  intros (s1 & E1 & E)%rbind_ok. apply Hc in E1 as (Ht & Hs & Hafter). apply IH in E as (Hts & Hn & Hd & Hall).
  pose proof Hafter as (refs & Hs1 & _). assert (se_paths s1 = sort_insert str_cmp (target_path t) (se_paths s)) as Hps by by rewrite Hs1.
  rewrite Hps in Hd. split_and!.
  - by constructor.
  - simpl. apply NoDup_cons. split; [|done]. intros (u & Hu & Hin)%list_elem_of_fmap_1. apply (Hd u Hin).
    rewrite sort_insert_perm, <- Hu. left.
  - intros u [->|Hu]%elem_of_cons; [done|]. intros Hin. apply (Hd u Hu). rewrite sort_insert_perm. by right.
  - by eapply seen_all_cons.
Qed.

Lemma fold_targets_total ts s :
  (forall t s, P t -> target_path t ∉ se_paths s -> exists s', check t s = Ok s' /\ seen_after t s s') ->
  Forall P ts -> NoDup (map target_path ts) -> (forall t, t ∈ ts -> target_path t ∉ se_paths s) ->
  exists s', fold_targets check ts s = Ok s' /\ seen_all ts s s'.
Proof.
  intros Hc Hts. revert s. induction Hts as [|t ts Ht Hts IH]; intros s Hn Hd; cbn [fold_targets].
  { exists s. split; [done|]. unfold seen_all. simpl. by rewrite !orb_false_r. }
  simpl in Hn. apply NoDup_cons in Hn as [Hnt Hn].
  destruct (Hc t s Ht (Hd t ltac:(left))) as (s1 & -> & Hafter). cbn [rbind].
  pose proof Hafter as (refs & Hs1 & _). assert (se_paths s1 = sort_insert str_cmp (target_path t) (se_paths s)) as Hps by by rewrite Hs1.
  destruct (IH s1 Hn) as (s' & -> & Hall).
  { intros u Hu. rewrite Hps, sort_insert_perm, not_elem_of_cons. split; [|apply Hd; by right].
    intros E. apply Hnt. rewrite <- E. by apply list_elem_of_fmap_2. }
  exists s'. split; [done|]. by eapply seen_all_cons.
Qed.
End Fold.

(** ** The canonical form *)

Definition sort_references : EditIntentTarget -> EditIntentTarget := map_reference_ids (sort_by str_cmp).

#[export] Instance target_cmp_total : TotalCmp target_cmp.
Proof. exact (linear_total (fun t => (target_path t, sort_rank t)) (fun x y => then_with (str_cmp x.1 y.1) (N.compare x.2 y.2))). Qed.

#[export] Instance operation_kind_cmp_linear : LinearCmp operation_kind_cmp.
Proof. split; [intros [] []|intros [] []|intros [] [] []]; done. Qed.
#[export] Instance operation_kind_cmp_total : TotalCmp operation_kind_cmp.
Proof. exact (linear_total id operation_kind_cmp). Qed.

Lemma sort_references_idem t : sort_references (sort_references t) = sort_references t.
Proof. destruct t; simpl; by rewrite (sort_by_idem str_cmp). Qed.

Lemma sort_references_ids t : reference_ids (sort_references t) ≡ₚ reference_ids t.
Proof. destruct t; simpl; by rewrite sort_by_perm. Qed.

Lemma sort_references_path t : target_path (sort_references t) = target_path t.
Proof. by destruct t. Qed.
Lemma sort_references_kind t : operation_kind (sort_references t) = operation_kind t.
Proof. by destruct t. Qed.

Lemma canonical_targets_perm ts : canonicalize_targets ts ≡ₚ map sort_references ts.
Proof. apply sort_by_perm. Qed.

Lemma canonicalize_targets_idem ts : canonicalize_targets (canonicalize_targets ts) = canonicalize_targets ts.
Proof.
  unfold canonicalize_targets. fold sort_references.
  assert (map sort_references (sort_by target_cmp (map sort_references ts)) = sort_by target_cmp (map sort_references ts)) as ->.
  { assert (Forall (fun t => sort_references t = t) (sort_by target_cmp (map sort_references ts))) as Hf.
    { rewrite sort_by_perm. apply Forall_map. apply Forall_true. intros t. apply sort_references_idem. }
    induction Hf as [|t l Ht Hf IH]; simpl; [done|]. by rewrite Ht, IH. }
  apply sort_by_idem, target_cmp_total.
Qed.

Lemma canonicalize_constraints_idem c : canonicalize_constraints (canonicalize_constraints c) = canonicalize_constraints c.
Proof. unfold canonicalize_constraints. simpl. by rewrite !sort_by_idem by apply _. Qed.

Lemma target_ok_sorted operations extensions t :
  target_ok operations extensions t -> target_ok operations extensions (sort_references t).
Proof.
  intros (Hp & Hop & Hr & He & Ht). unfold target_ok. rewrite sort_references_path, sort_references_kind.
  split_and!; try done.
  - eapply references_ok_perm; [|exact Hr]. symmetry. apply sort_references_ids.
  - destruct t as [path hash ids prov|]; simpl in *; [|done]. destruct Ht as (? & ? & Hu). split_and!; try done.
    intros Hprov E. apply (Hu Hprov), Permutation_nil. by rewrite <- E, sort_by_perm.
Qed.

Lemma existsb_perm {A} (f : A -> bool) l k : l ≡ₚ k -> existsb f l = existsb f k.
Proof. induction 1; simpl; [done|by f_equal|by rewrite !orb_assoc, (orb_comm (f y))|congruence]. Qed.

Lemma forallb_perm {A} (f : A -> bool) l k : l ≡ₚ k -> forallb f l = forallb f k.
Proof. induction 1; simpl; [done|by f_equal|by rewrite !andb_assoc, (andb_comm (f y))|congruence]. Qed.

(** The flags and the paths are those of the canonical targets. *)
Lemma canonical_flags ts :
  has_existing (canonicalize_targets ts) = has_existing ts /\ has_prospective (canonicalize_targets ts) = has_prospective ts
  /\ has_explicit (canonicalize_targets ts) = has_explicit ts /\ all_referenced (canonicalize_targets ts) = all_referenced ts
  /\ map target_path (canonicalize_targets ts) ≡ₚ map target_path ts
  /\ list_len (canonicalize_targets ts) = list_len ts.
Proof.
  pose proof (canonical_targets_perm ts) as Hp.
  unfold has_existing, has_prospective, has_explicit, all_referenced, list_len.
  rewrite !(existsb_perm _ _ _ Hp), (forallb_perm _ _ _ Hp), Hp, length_map. clear Hp.
  assert (forall t, bool_decide (reference_ids (sort_references t) = []) = bool_decide (reference_ids t = [])) as Hr
    by (intros t; apply nil_perm_bool, sort_references_ids).
  split_and!; [induction ts as [|t ts IH]; simpl; rewrite ?IH, ?Hr, ?sort_references_kind, ?sort_references_path; done..|done].
Qed.

(** ** Constraints *)

Definition extension_ok (extension : string) : Prop :=
  is_empty extension = false /\ extension = to_ascii_lowercase extension /\ starts_with "." extension = false
  /\ extension ∈ ALLOWED_EDIT_EXTENSIONS.

(** Constraints an intent can carry, the limits of the runtime apart. *)
Definition constraints_ok (c : EditIntentConstraints) : Prop :=
  k_offset_encoding c = Utf8Bytes
  /\ (k_require_clean_worktree c = true /\ k_require_offline_verification c = true
      /\ k_require_native_confirmation c = true)
  /\ bounded_by_hard_maxima (k_limits c) = true
  /\ (k_allowed_operations c <> [] /\ NoDup (k_allowed_operations c))
  /\ (CreateTextFile ∈ k_allowed_operations c <-> max_created_files (k_limits c) <> 0)
  /\ k_allowed_extensions c <> [] /\ list_len (k_allowed_extensions c) <= list_len ALLOWED_EDIT_EXTENSIONS
  /\ Forall extension_ok (k_allowed_extensions c) /\ NoDup (k_allowed_extensions c).

Lemma check_extensions_ok extensions seen u :
  check_extensions seen extensions = Ok u <->
  Forall extension_ok extensions /\ NoDup extensions /\ (forall e, e ∈ extensions -> e ∉ seen).
Proof.
  revert seen. induction extensions as [|e extensions IH]; intros seen; cbn [check_extensions].
  { destruct u. split; [intros _; split_and!; [constructor|constructor|set_solver]|done]. }
  rewrite Forall_cons, NoDup_cons. destruct (_ || _) eqn:Hb.
  { split; [done|]. intros ((( He & Hlow & Hdot & Hin) & _) & _). exfalso.
    apply orb_true_iff in Hb as [[[Hb|Hb]%orb_true_iff|Hb]%orb_true_iff|Hb]; [congruence| |congruence|].
    - rewrite <- Hlow, String.eqb_refl in Hb. done.
    - apply (set_contains_iff ALLOWED_EDIT_EXTENSIONS) in Hin. unfold set_contains in Hin. by rewrite Hin in Hb. }
  split_bools. match goal with H : existsb _ _ = true |- _ => apply (set_contains_iff ALLOWED_EDIT_EXTENSIONS) in H end.
  match goal with H : (e =? _)%string = true |- _ => apply String.eqb_eq in H end.
  assert (extension_ok e) as He by by split_and!.
  destruct (set_insert e seen) as [seen'|] eqn:Ei.
  - apply set_insert_some in Ei as [Hid ->]. rewrite IH. split.
    + intros (Hv & Hn & Hd). split_and!; try done.
      * intros Hin. apply (Hd e Hin). rewrite sort_insert_perm. left.
      * intros j [->|Hj]%elem_of_cons; [done|]. intros Hs. apply (Hd j Hj). rewrite sort_insert_perm. by right.
    + intros ((_ & Hv) & (Hnin & Hn) & Hd). split_and!; try done. intros j Hj.
      rewrite sort_insert_perm, not_elem_of_cons. split; [by intros ->|apply Hd; by right].
  - split; [done|]. intros (_ & _ & Hd). exfalso. assert (e ∉ seen) as Hnin by (apply Hd; left).
    assert (set_insert e seen = Some (sort_insert str_cmp e seen)) by by apply set_insert_some. congruence.
Qed.

Lemma validate_constraints_ok c limits operations :
  validate_constraints c limits = Ok operations <->
  constraints_ok c /\ limits_exceed (k_limits c) limits = false /\ operations = btree_set (k_allowed_operations c).
Proof.
  unfold validate_constraints, constraints_ok. cbv zeta. split.
  - intros E. chain E. autorewrite with intent in *. injection E as <-. apply check_extensions_ok in E6 as (Hf & Hn & _).
    repeat match goal with H : _ || _ = false |- _ => apply orb_false_iff in H as [? ?]
      | H : negb _ = false |- _ => apply negb_false_iff in H | H : bool_decide _ = false |- _ => apply bool_decide_eq_false in H end.
    match goal with H : (list_len _ =? list_len _) = true |- _ => apply N.eqb_eq in H; rename H into Hlen end.
    unfold list_len in Hlen. apply Nat2N.inj, btree_set_full in Hlen.
    assert (k_allowed_operations c <> []) as Hne by (intros E; match goal with H : btree_set _ <> [] |- _ => by rewrite E in H end).
    rewrite N.ltb_ge in *. split_and!; try done; [by apply dec_stable|..].
    + destruct (decide _) as [Hd|Hd] in E4; autorewrite with intent in E4; rewrite elem_of_btree_set in Hd; split; try done.
      * intros _. by apply N.eqb_neq.
      * apply negb_false_iff, N.eqb_eq in E4. done.
  - intros ((He & (H1 & H2 & H3) & Hb & [Hne Hn] & Hcreate & Hext & Hl & Hf & Hnd) & Hlim & ->).
    rewrite He, H1, H2, H3, Hb, Hlim. cbn [negb orb reject_if rbind].
    rewrite bool_decide_eq_false_2 by tauto. cbn [reject_if rbind].
    assert ((list_len (btree_set (k_allowed_operations c)) =? list_len (k_allowed_operations c)) = true) as ->
      by (apply N.eqb_eq; unfold list_len; f_equal; by apply btree_set_full).
    rewrite bool_decide_eq_false_2 by (intros E; apply Hne, length_zero_iff_nil; rewrite <- (proj2 (btree_set_full _) Hn), E; done).
    cbn [negb orb reject_if rbind]. rewrite (bool_decide_eq_false_2 _ Hext), (proj2 (N.ltb_ge _ _) Hl).
    rewrite (proj2 (check_extensions_ok (k_allowed_extensions c) [] tt)) by (split_and!; [done|done|set_solver]).
    destruct (decide _) as [Hd|Hd]; rewrite elem_of_btree_set in Hd.
    + apply Hcreate, N.eqb_neq in Hd as ->. done.
    + destruct (max_created_files (k_limits c) =? 0) eqn:E0; [done|]. apply N.eqb_neq, Hcreate in E0. done.
Qed.

Lemma constraints_ok_canonical c : constraints_ok c -> constraints_ok (canonicalize_constraints c).
Proof.
  intros (He & Hreq & Hb & [Hne Hn] & Hcreate & Hext & Hl & Hf & Hnd). unfold constraints_ok, list_len in *. simpl.
  pose proof (sort_by_perm operation_kind_cmp (k_allowed_operations c)) as Po.
  pose proof (sort_by_perm str_cmp (k_allowed_extensions c)) as Pe.
  split_and!; try done; try apply Hreq; try (by rewrite ?Po, ?Pe).
  - intros E. rewrite E in Po. by apply Permutation_nil in Po.
  - intros E. rewrite E in Pe. by apply Permutation_nil in Pe.
Qed.

Lemma hard_maxima_bound l : bounded_by_hard_maxima l = true -> limits_exceed l hard_maxima = false.
Proof.
  unfold bounded_by_hard_maxima, limits_exceed. simpl. intros Hb. split_bools. rewrite N.leb_le in *.
  rewrite !orb_false_iff, !N.ltb_ge. by split_and!.
Qed.

(** ** Validated intents *)

Definition mode_ok (mode : EditIntentSelectionMode) (ts : list EditIntentTarget) : Prop :=
  match mode with
  | ExplicitReferences => all_referenced ts = true
  | Hybrid => has_explicit ts = true
  | ResolvedContext => True
  end.

Lemma check_mode_ok code m1 m2 mode ts u :
  check_selection_mode code m1 m2 mode ts (has_explicit ts) = Ok u <-> mode_ok mode ts.
Proof. destruct u, mode; simpl; rewrite ?reject_if_passes, ?negb_false_iff; done. Qed.

(** Targets and constraints that belong together: distinct paths, every
    target permitted, every permission used, the selection mode kept. *)
Definition contents_ok (ts : list EditIntentTarget) (c : EditIntentConstraints) (mode : EditIntentSelectionMode) : Prop :=
  constraints_ok c
  /\ ts <> [] /\ list_len ts <= MAX_EDIT_INTENT_TARGETS
  /\ Forall (target_ok (k_allowed_operations c) (k_allowed_extensions c)) ts /\ NoDup (map target_path ts)
  /\ bool_decide (ModifyExisting ∈ k_allowed_operations c) = has_existing ts
  /\ bool_decide (CreateTextFile ∈ k_allowed_operations c) = has_prospective ts
  /\ mode_ok mode ts.

Lemma target_ok_mono operations operations' extensions extensions' t :
  operations ⊆ operations' -> extensions ⊆ extensions' ->
  target_ok operations extensions t -> target_ok operations' extensions' t.
Proof. intros Ho He (? & ? & ? & (e & ? & ?) & ?). split_and!; eauto. Qed.

Lemma btree_member {A} `{EqDecision A} (l : list A) x : bool_decide (x ∈ btree_set l) = bool_decide (x ∈ l).
Proof. apply bool_decide_ext, elem_of_btree_set. Qed.

Lemma eqb_negb a b : negb (Bool.eqb a b) = false <-> a = b.
Proof. rewrite negb_false_iff. apply Bool.eqb_true_iff. Qed.

Section Intents.
Context `{Blake3, IntentSerde}.

(** An accepted intent: its identities are the trusted ones, its contents
    are consistent and trusted, its life time is bounded; what is kept is
    its canonical form and the hash of that form's JSON. *)
Definition intent_ok (i : EditIntent) (x : EditIntentExpectations) (v : ValidatedEditIntent) : Prop :=
  (validate_identifier "intent_id" (i_intent_id i) = Ok tt /\ Forall (fun e => check_identity e = Ok tt) (intent_identities i x))
  /\ (EditIntent.is_hash (i_workspace_root_hash i) = true /\ EditIntent.is_hash (i_working_tree_digest i) = true
      /\ EditIntent.is_git_oid (i_base_head i) = true)
  /\ validate_task (i_task i) = Ok tt
  /\ i_created_at_unix_ms i < i_expires_at_unix_ms i <= saturating_add64 (i_created_at_unix_ms i) 900000
  /\ ix_now_unix_ms x < i_expires_at_unix_ms i
  /\ contents_ok (i_targets i) (i_constraints i) (i_selection_mode i)
  /\ limits_exceed (k_limits (i_constraints i)) (ix_limits x) = false
  /\ (exists trusted, validate_trusted_targets x = Ok trusted /\ Forall (trusted_target trusted) (i_targets i))
  /\ vi_intent v = canonicalize_intent i
  /\ edit_intent_to_string (canonicalize_intent i) = Ok (vi_canonical_json v)
  /\ vi_intent_hash v = blake3_hex (vi_canonical_json v).

Lemma validate_targets_ok i operations trusted u :
  validate_targets i operations trusted = Ok u -> operations = btree_set (k_allowed_operations (i_constraints i)) ->
  constraints_ok (i_constraints i) ->
  contents_ok (i_targets i) (i_constraints i) (i_selection_mode i) /\ Forall (trusted_target trusted) (i_targets i).
Proof.
  unfold validate_targets. intros E -> Hc. chain E. autorewrite with intent in *. split_bools. rewrite N.ltb_ge in *.
  apply (fold_targets_ok _ (fun t => target_ok (btree_set (k_allowed_operations (i_constraints i)))
    (k_allowed_extensions (i_constraints i)) t /\ trusted_target trusted t)) in E1 as (Hall & Hn & _ & He & Hp & Hx).
  2:{ intros t s s' Ht. apply check_target_ok in Ht as (? & ? & ? & ?). by split_and!. }
  rewrite Forall_and in Hall. destruct Hall as [Hok Htr]. apply (proj1 (Bool.eqb_true_iff _ _)) in E2, E3.
  rewrite He in E2. rewrite Hp in E3. rewrite Hx in E. simpl in E2, E3, E. rewrite btree_member in E2, E3.
  split; [|done]. split_and!; try done; [|by eapply check_mode_ok].
  eapply Forall_impl; [exact Hok|]. intros t. apply target_ok_mono; [|done]. intros k. by rewrite elem_of_btree_set.
Qed.

Lemma validate_edit_intent_ok i x v : validate_edit_intent i x = Ok v -> intent_ok i x v.
Proof.
  unfold validate_edit_intent. cbv zeta. intros E. chain E. injection E as <-.
  apply validate_constraints_ok in E3 as (Hc & Hlim & ->). apply map_err_ok in E6.
  destruct a, a0. apply validate_targets_ok in E5 as [Hcont Htr]; [|done..].
  unfold EditIntent.validate_envelope in E0. chain E0. unfold validate_timestamps in E2. cbv zeta in E2. chain E2.
  autorewrite with intent in *. split_bools. rewrite ?N.leb_gt, ?N.ltb_ge in *. apply check_each_ok in E7.
  destruct a0. unfold intent_ok. simpl. split_and!; try done. by exists a3.
Qed.
End Intents.

(** ** Bindings *)

Section Bindings.
Context `{Blake3, IntentSerde}.

Lemma contents_ok_canonical ts c mode :
  contents_ok ts c mode -> contents_ok (canonicalize_targets ts) (canonicalize_constraints c) mode.
Proof.
  intros (Hc & Hne & Hl & Hok & Hn & He & Hp & Hm).
  destruct (canonical_flags ts) as (Fe & Fp & Fx & Fr & Fn & Fl). pose proof (canonical_targets_perm ts) as Perm.
  assert (forall k, k ∈ k_allowed_operations (canonicalize_constraints c) <-> k ∈ k_allowed_operations c) as Hops
    by (intros k; simpl; by rewrite sort_by_perm).
  assert (forall e, e ∈ k_allowed_extensions (canonicalize_constraints c) <-> e ∈ k_allowed_extensions c) as Hexts
    by (intros e; simpl; by rewrite sort_by_perm).
  split_and!.
  - by apply constraints_ok_canonical.
  - intros E. apply Hne. rewrite E in Perm. apply Permutation_nil in Perm. by destruct ts.
  - by rewrite Fl.
  - rewrite Perm. apply Forall_map. eapply Forall_impl; [exact Hok|]. intros t Ht.
    apply target_ok_sorted in Ht. eapply target_ok_mono; [..|exact Ht]; intros z; [by rewrite Hops|by rewrite Hexts].
  - by rewrite Fn.
  - rewrite Fe, <- He. apply bool_decide_ext, Hops.
  - rewrite Fp, <- Hp. apply bool_decide_ext, Hops.
  - unfold mode_ok in *. by rewrite Fr, Fx.
Qed.

Lemma validate_binding_targets_total ts c mode :
  contents_ok ts c mode ->
  validate_binding_targets ts (btree_set (k_allowed_operations c)) (k_allowed_extensions c) mode = Ok tt.
Proof.
  intros (Hc & Hne & Hl & Hok & Hn & He & Hp & Hm). unfold validate_binding_targets.
  rewrite (bool_decide_eq_false_2 _ Hne), (proj2 (N.ltb_ge _ _) Hl). cbn [orb reject_if rbind].
  destruct (fold_targets_total
    (check_binding_target (btree_set (k_allowed_operations c)) (k_allowed_extensions c))
    (target_ok (btree_set (k_allowed_operations c)) (k_allowed_extensions c)) ts nothing_seen) as (s & -> & Fe & Fp & Fx).
  - intros t s Ht Hs. by apply check_binding_target_total.
  - eapply Forall_impl; [exact Hok|]. intros t. apply target_ok_mono; [|done]. intros k. by rewrite elem_of_btree_set.
  - done.
  - intros t _. apply not_elem_of_nil.
  - cbn [rbind]. simpl in Fe, Fp, Fx. rewrite !btree_member, He, Hp, Fe, Fp, Fx, !Bool.eqb_reflx.
    cbn [negb orb reject_if rbind]. by apply check_mode_ok.
Qed.

Lemma hex_is_hash `{!Blake3Hex} s : EditIntent.is_hash (blake3_hex s) = true.
Proof. destruct (blake3_hex_digits s) as [Hl Hx]. unfold EditIntent.is_hash. by rewrite Hl, Hx. Qed.

Lemma identity_valid i x :
  Forall (fun e => check_identity e = Ok tt) (intent_identities i x) ->
  validate_identifier "request_id" (i_request_id i) = Ok tt /\ validate_identifier "workspace_id" (i_workspace_id i) = Ok tt.
Proof.
  unfold intent_identities. intros Hf. inversion Hf as [|?? H1 Hf']; subst. inversion Hf' as [|?? H2 _]; subst.
  unfold check_identity in H1, H2. apply rbind_ok in H1 as ([] & -> & _), H2 as ([] & -> & _). done.
Qed.

(** The binding of an intent whose contents are consistent. *)
Lemma binding_total `{!Blake3Hex} i x v b :
  intent_ok i x v -> from_validated v = Ok b -> validate_binding b = Ok tt.
Proof.
  intros ([Hid Hids] & (Hw & Htree & Hhead) & _ & [Hlt Hexp] & _ & Hcont & _ & _ & Hvi & _ & Hhash) E.
  unfold from_validated in E. rewrite Hvi in E. cbv zeta in E. apply rbind_ok in E as (h & Eh & [= <-]).
  pose proof (contents_ok_canonical _ _ _ Hcont) as Hcan. pose proof Hcan as (Hc & Hne & Hl & _).
  apply identity_valid in Hids as [Hreq Hws]. unfold calculate_binding_hash in Eh.
  apply rbind_ok in Eh as (bytes & Eb & [= <-]). rewrite Hhash in Eb.
  unfold validate_binding, calculate_binding_hash, binding_identifiers, binding_hashes, with_binding_hash.
  cbn [b_schema_version b_intent_id b_intent_hash b_binding_hash b_request_id b_workspace_id b_workspace_root_hash
    b_base_head b_working_tree_digest b_task_hash b_selection_mode b_targets b_constraints b_created_at_unix_ms
    b_expires_at_unix_ms canonicalize_intent i_intent_id i_request_id i_workspace_id i_workspace_root_hash i_base_head
    i_working_tree_digest i_task i_selection_mode i_targets i_constraints i_created_at_unix_ms i_expires_at_unix_ms
    check_each payload_of].
  rewrite Hid, Hreq, Hws, Hhash, !hex_is_hash, Hw, Htree, Hhead, N.eqb_refl. cbn [negb reject_if rbind].
  rewrite (bool_decide_eq_false_2 _ Hne), (proj2 (N.ltb_ge _ _) Hl). cbn [orb reject_if rbind].
  rewrite (proj2 (N.leb_gt _ _) Hlt).
  assert (saturating_mul64 DEFAULT_EDIT_INTENT_TTL_SECONDS 1000 = 900000) as -> by reflexivity.
  rewrite (proj2 (N.ltb_ge _ _) Hexp). cbn [orb reject_if rbind].
  rewrite (proj2 (validate_constraints_ok _ hard_maxima _) (conj Hc (conj (hard_maxima_bound _ (proj1 (proj2 (proj2 Hc)))) eq_refl))).
  cbn [rbind]. rewrite (validate_binding_targets_total _ _ _ Hcan). cbn [rbind].
  rewrite canonicalize_targets_idem, canonicalize_constraints_idem, !bool_decide_eq_false_2 by tauto. cbn [orb reject_if rbind].
  lazymatch goal with |- rbind ?r _ = _ => assert (r = Ok (blake3_hex bytes)) as -> end.
  { exact (eq_trans (f_equal (fun z => rbind z (fun bytes => Ok (blake3_hex bytes))) Eb) eq_refl). }
  cbn [rbind]. by rewrite String.eqb_refl.
Qed.
End Bindings.

(** ** The order of the lists *)

(** Two intents that differ in the order of their targets, of the references
    of a target and of the permissions only. *)
Definition reordered (i i' : EditIntent) : Prop :=
  i_schema_version i = i_schema_version i' /\ i_intent_id i = i_intent_id i' /\ i_request_id i = i_request_id i'
  /\ i_workspace_id i = i_workspace_id i' /\ i_workspace_root_hash i = i_workspace_root_hash i'
  /\ i_base_head i = i_base_head i' /\ i_working_tree_digest i = i_working_tree_digest i' /\ i_task i = i_task i'
  /\ i_selection_mode i = i_selection_mode i' /\ i_created_at_unix_ms i = i_created_at_unix_ms i'
  /\ i_expires_at_unix_ms i = i_expires_at_unix_ms i'
  /\ map sort_references (i_targets i) ≡ₚ map sort_references (i_targets i')
  /\ (k_allowed_operations (i_constraints i) ≡ₚ k_allowed_operations (i_constraints i')
      /\ k_allowed_extensions (i_constraints i) ≡ₚ k_allowed_extensions (i_constraints i')
      /\ k_limits (i_constraints i) = k_limits (i_constraints i')
      /\ k_offset_encoding (i_constraints i) = k_offset_encoding (i_constraints i')
      /\ k_require_clean_worktree (i_constraints i) = k_require_clean_worktree (i_constraints i')
      /\ k_require_offline_verification (i_constraints i) = k_require_offline_verification (i_constraints i')
      /\ k_require_native_confirmation (i_constraints i) = k_require_native_confirmation (i_constraints i')).

Lemma canonical_targets_same ts ts' :
  NoDup (map target_path ts) -> map sort_references ts ≡ₚ map sort_references ts' ->
  canonicalize_targets ts = canonicalize_targets ts'.
Proof.
  intros Hn Hp. unfold canonicalize_targets. fold sort_references.
  apply sort_by_same; [apply target_cmp_total| |done]. intros a b Ha Hb Hab Hba.
  assert (target_path a = target_path b) as E.
  { assert ((target_path a, sort_rank a) = (target_path b, sort_rank b)) as [= ? _]; [|done].
    exact (linear_antisymm (fun p q : string * N => then_with (str_cmp p.1 q.1) (N.compare p.2 q.2))
      (target_path a, sort_rank a) (target_path b, sort_rank b) Hab Hba). }
  apply list_elem_of_fmap_1 in Ha as (t & -> & Ht), Hb as (u & -> & Hu). rewrite !sort_references_path in E.
  apply list_elem_of_lookup in Ht as [j Hj], Hu as [k Hk].
  assert (j = k) as ->; [|congruence].
  eapply (NoDup_lookup (map target_path ts)); [done|..]; rewrite list_lookup_fmap; [by rewrite Hj|by rewrite Hk, E].
Qed.

Lemma canonical_constraints_same c c' :
  k_allowed_operations c ≡ₚ k_allowed_operations c' -> k_allowed_extensions c ≡ₚ k_allowed_extensions c' ->
  sort_by operation_kind_cmp (k_allowed_operations c) = sort_by operation_kind_cmp (k_allowed_operations c')
  /\ sort_by str_cmp (k_allowed_extensions c) = sort_by str_cmp (k_allowed_extensions c').
Proof.
  intros Ho He. split; (apply sort_by_same; [apply _| |done]); intros x y _ _; apply linear_antisymm, _.
Qed.

Lemma canonical_intent_same i i' :
  NoDup (map target_path (i_targets i)) -> reordered i i' -> canonicalize_intent i = canonicalize_intent i'.
Proof.
  intros Hn (? & ? & ? & ? & ? & ? & ? & ? & ? & ? & ? & Ht & Ho & He & ? & ? & ? & ? & ?).
  destruct (canonical_constraints_same _ _ Ho He) as [Eo Ee]. pose proof (canonical_targets_same _ _ Hn Ht) as Et.
  unfold canonicalize_intent, canonicalize_constraints. rewrite Et, Eo, Ee. repeat (f_equal; try assumption).
Qed.

(** ** The properties of intents *)

(** The hash of an accepted intent, and everything else that is kept of
    it, does not depend on the order in which its targets, the references of
    a target, the operations and the extensions are listed. *)
Theorem intent_order_irrelevant `{Blake3, IntentSerde} i i' x v v'
    (Hr : reordered i i') (Hv : validate_edit_intent i x = Ok v) (Hv' : validate_edit_intent i' x = Ok v') :
  v = v'.
Proof.
  apply validate_edit_intent_ok in Hv as (_ & _ & _ & _ & _ & (_ & _ & _ & _ & Hn & _) & _ & _ & Hi & Hj & Hh).
  apply validate_edit_intent_ok in Hv' as (_ & _ & _ & _ & _ & _ & _ & _ & Hi' & Hj' & Hh').
  rewrite <- (canonical_intent_same _ _ Hn Hr) in Hi', Hj'. destruct v, v'. simpl in *. congruence.
Qed.

(** The binding made from an accepted intent is accepted again when a
    stored record is read: its identifiers, hashes, life time, constraints
    and targets pass, it is in canonical form and its hash is the hash of
    its payload. *)
Theorem binding_round_trip `{Blake3, IntentSerde, !Blake3Hex} i x v b
    (Hv : validate_edit_intent i x = Ok v) (Hb : from_validated v = Ok b) :
  validate_binding b = Ok tt
  /\ b_targets b = canonicalize_targets (i_targets i)
  /\ b_constraints b = canonicalize_constraints (i_constraints i)
  /\ b_intent_hash b = vi_intent_hash v.
Proof.
  apply validate_edit_intent_ok in Hv. split; [by eapply binding_total|].
  destruct Hv as (_ & _ & _ & _ & _ & _ & _ & _ & Hvi & _ & _). unfold from_validated in Hb. cbv zeta in Hb.
  apply rbind_ok in Hb as (h & _ & [= <-]). simpl. by rewrite Hvi.
Qed.

(** A plan is accepted against an accepted intent exactly when it is
    accepted against the binding stored for that intent, with the same
    error otherwise. *)
Theorem authority_equivalent `{Blake3, IntentSerde, !Blake3Hex} plan i x v b
    (Hv : validate_edit_intent i x = Ok v) (Hb : from_validated v = Ok b) :
  validate_edit_plan_against_intent plan v = validate_edit_plan_against_binding plan b.
Proof.
  apply validate_edit_intent_ok in Hv. pose proof (binding_total _ _ _ _ Hv Hb) as Hok.
  unfold validate_edit_plan_against_intent, validate_edit_plan_against_binding. rewrite Hb. cbn [rbind].
  rewrite Hok. cbn [rbind]. unfold from_validated in Hb. cbv zeta in Hb. by apply rbind_ok in Hb as (h & _ & [= <-]).
Qed.

(** ** What an accepted plan may touch *)

Lemma targets_by_path_member ts path t :
  map_get path (targets_by_path ts) = Some t -> t ∈ ts /\ target_path t = path.
Proof.
  intros Hm%map_get_member. unfold targets_by_path in Hm.
  enough (Forall (fun p : string * EditIntentTarget => snd p ∈ ts /\ target_path (snd p) = fst p)
    (foldl (fun m t => fst (map_insert (target_path t) t m)) [] ts)) as Hf by (rewrite Forall_forall in Hf; exact (Hf _ Hm)).
  clear Hm. induction ts as [|u ts IH] using rev_ind; [constructor|]. rewrite foldl_snoc. unfold map_insert at 1. simpl.
  apply map_update_entries; [|intros _ _; simpl; set_solver].
  eapply Forall_impl; [exact IH|]. intros [k v]. simpl. set_solver.
Qed.

(** An operation the trusted targets allow. *)
Definition operation_allowed (ts : list EditIntentTarget) (c : EditIntentConstraints) (o : EditOperation) : Prop :=
  exists t, t ∈ ts /\ target_path t = operation_path o /\ operation_kind t ∈ k_allowed_operations c
  /\ match o, t with
     | Modify m, ExistingFile _ hash _ _ => m_expected_file_hash m = hash
     | Create n, ProspectiveFile _ extension _ _ => n_extension n = extension /\ n_expected_absent n = true
     | _, _ => False
     end.

(** A snapshot of a trusted target. *)
Definition snapshot_allowed (ts : list EditIntentTarget) (f : ProposalFileSnapshot) : Prop :=
  exists t, t ∈ ts /\ target_path t = f_path f
  /\ match f_status f, t with
     | Modified, ExistingFile _ hash _ _ => f_base_hash f = Some hash
     | Created, ProspectiveFile _ _ _ _ => f_base_hash f = None /\ f_base_content f = None
     | _, _ => False
     end.

Lemma check_plan_operation_ok ts c o u :
  check_plan_operation (targets_by_path ts) (btree_set (k_allowed_operations c)) o = Ok u -> operation_allowed ts c o.
Proof.
  unfold check_plan_operation. intros (path & Ep & E)%rbind_ok. apply relative_path_id in Ep as ->.
  apply rbind_ok in E as (t & Et & E). apply ok_or_ok, targets_by_path_member in Et as [Hin Hp].
  exists t. destruct o as [m|n], t as [p h r v|p e r v]; try done; apply rbind_ok in E as ([] & E1 & E2);
    autorewrite with intent in *; apply bool_decide_eq_false, dec_stable in E1; rewrite elem_of_btree_set in E1.
  - apply negb_false_iff, String.eqb_eq in E2. by split_and!.
  - split_bools. match goal with H : (_ =? _)%string = true |- _ => apply String.eqb_eq in H end. by split_and!.
Qed.

Lemma check_plan_snapshot_ok ts f u : check_plan_snapshot (targets_by_path ts) f = Ok u -> snapshot_allowed ts f.
Proof.
  unfold check_plan_snapshot. intros (path & Ep & E)%rbind_ok. apply relative_path_id in Ep as ->.
  apply rbind_ok in E as (t & Et & E). apply ok_or_ok, targets_by_path_member in Et as [Hin Hp].
  exists t. cbv zeta in E. autorewrite with intent in E. apply negb_false_iff in E.
  split_and!; [done|done|]. destruct (f_status f), t; try done.
  - by apply bool_decide_eq_true in E.
  - destruct (f_base_hash f), (f_base_content f); done.
Qed.

(** What acceptance against an authority means. *)
Definition authorized (v : ValidatedEditPlan) (request workspace root head tree : string)
    (ts : list EditIntentTarget) (c : EditIntentConstraints) : Prop :=
  (p_request_id (v_plan v) = request /\ p_workspace_id (v_plan v) = workspace
   /\ p_workspace_root_hash (v_plan v) = root /\ p_base_head (v_plan v) = head
   /\ p_working_tree_digest (v_plan v) = tree)
  /\ limits_exceed (p_limits (v_plan v)) (k_limits c) = false
  /\ Forall (operation_allowed ts c) (p_operations (v_plan v))
  /\ Forall (snapshot_allowed ts) (v_files v).

Lemma authority_ok v request workspace root head tree ts c u :
  validate_edit_plan_against_authority v request workspace root head tree ts c = Ok u ->
  authorized v request workspace root head tree ts c.
Proof.
  unfold validate_edit_plan_against_authority. cbv zeta. intros E. chain E. autorewrite with intent in *.
  apply check_each_ok in E0, E2, E. unfold authority_identities in E0. split; [|split; [done|split]].
  - repeat (apply Forall_cons in E0 as [? E0]).
    autorewrite with intent in *.
    repeat match goal with H : negb (_ =? _)%string = false |- _ => apply negb_false_iff, String.eqb_eq in H end.
    by split_and!.
  - eapply Forall_impl; [eassumption|]. intros o. apply check_plan_operation_ok.
  - eapply Forall_impl; [eassumption|]. intros f. apply check_plan_snapshot_ok.
Qed.

(** C23: a plan that passes against the binding of a stored proposal is bound
    to its request, workspace, commit and working tree, raises no limit, and
    each of its operations and of its materialised snapshots is about a
    trusted target of the same kind: a modification of the file whose
    content hash the runtime recorded, or a creation it was asked for. *)
Theorem binding_authorizes `{Blake3, IntentSerde} v b
    (Hv : validate_edit_plan_against_binding v b = Ok tt) :
  authorized v (b_request_id b) (b_workspace_id b) (b_workspace_root_hash b) (b_base_head b)
    (b_working_tree_digest b) (b_targets b) (b_constraints b).
Proof. unfold validate_edit_plan_against_binding in Hv. apply rbind_ok in Hv as (? & _ & Hv). by eapply authority_ok. Qed.
