(* ===== verification/Trace.v ===== *)
(** * Traces: what a program did, call by call

    [traced m] is [m] with its own history as part of the answer.  A [must]
    theorem about [traced m] says what every execution of [m] has done to
    the world, and in which order, whatever the answers were. *)

From stdpp Require Import base list strings.
From Stdlib Require Import NArith String.
From S2P Require Import Prelude IO World Paths AuditLog Anyhow.



Inductive event : Type := Ev (R : Set) (c : syscall R) (r : R).
Arguments Ev {R} c r.

Fixpoint traced {A} (m : IO A) : IO (A * list event) :=
  match m with
  | Ret a => Ret (a, [])
  | Panic s => Panic s
  | Sys c k => Sys c (fun r => bind (traced (k r)) (fun '(a, t) => Ret (a, Ev c r :: t)))
  end.

(** [trace_must m P]: [P] holds of every answer and its trace. *)
Definition trace_must {An : Answers} {A} (m : IO A) (P : A -> list event -> Prop) : Prop :=
  must (traced m) (fun '(a, t) => P a t).

Lemma must_bind_iff {An : Answers} {A B} (m : IO A) (f : A -> IO B) P :
  must (bind m f) P <-> must m (fun a => must (f a) P).
Proof.
  induction m as [a|s|R c k IH]; simpl; [done|done|].
  split; intros Hm r Hr; apply IH; auto.
Qed.

Lemma trace_must_call_iff {An : Answers} {A} {R : Set} (c : syscall R) (k : R -> IO A) P :
  trace_must (Sys c k) P <->
  forall r, answers c r -> trace_must (k r) (fun a t => P a (Ev c r :: t)).
Proof.
  unfold trace_must. simpl. split; intros Hm r Hr; specialize (Hm r Hr).
  - rewrite must_bind_iff in Hm. eapply must_mono; [exact Hm|]. by intros [].
  - rewrite must_bind_iff. eapply must_mono; [exact Hm|]. by intros [].
Qed.

(** Nothing need be known of the answer. *)
Lemma trace_must_call {An : Answers} {A} {R : Set} (c : syscall R) (k : R -> IO A) P :
  (forall r, trace_must (k r) (fun a t => P a (Ev c r :: t))) -> trace_must (Sys c k) P.
Proof. intros Hk. apply trace_must_call_iff. auto. Qed.

Lemma trace_must_mono {An : Answers} {A} (m : IO A) (P Q : A -> list event -> Prop) :
  trace_must m P -> (forall a t, P a t -> Q a t) -> trace_must m Q.
Proof. intros Hm HPQ. eapply must_mono; [exact Hm|]. intros [a t]. apply HPQ. Qed.

Lemma trace_must_and {An : Answers} {A} (m : IO A) (P Q : A -> list event -> Prop) :
  trace_must m P -> trace_must m Q -> trace_must m (fun a t => P a t /\ Q a t).
Proof.
  intros HP HQ. eapply must_mono; [by apply must_and; [exact HP|exact HQ]|]. by intros [].
Qed.

(** A theorem about the answers holds of the traced program. *)
Lemma trace_must_of {An : Answers} {A} (m : IO A) (P : A -> Prop) : must m P -> trace_must m (fun a _ => P a).
Proof.
  unfold trace_must. induction m as [a|s|R c k IH]; simpl; [done|done|].
  intros Hm r Hr. rewrite must_bind_iff. eapply must_mono; [apply IH; auto|]. by intros [].
Qed.

Lemma must_of_trace {An : Answers} {A} (m : IO A) (P : A -> Prop) : trace_must m (fun a _ => P a) -> must m P.
Proof.
  unfold trace_must. induction m as [a|s|R c k IH]; simpl; [done|done|].
  intros Hm r Hr. specialize (Hm r Hr). rewrite must_bind_iff in Hm. apply IH.
  eapply must_mono; [exact Hm|]. by intros [].
Qed.

Lemma trace_must_bind {An : Answers} {A B} (m : IO A) (f : A -> IO B) P (Q : B -> list event -> Prop) :
  trace_must m P ->
  (forall a t, P a t -> trace_must (f a) (fun b u => Q b (t ++ u))) ->
  trace_must (bind m f) Q.
Proof.
  revert P Q. induction m as [a|s|R c k IH]; intros P Q Hm Hf; simpl.
  - by apply (Hf a []).
  - done.
  - apply trace_must_call_iff. intros r Hr. rewrite trace_must_call_iff in Hm.
    apply (IH r _ _ (Hm r Hr)). intros a t HP. by apply (Hf a (Ev c r :: t)).
Qed.

(** [?]: an error ends the program with the trace so far. *)
Lemma trace_must_try {An : Answers} {A B E} (m : IO (result A E)) (f : A -> IO (result B E)) P Q :
  trace_must m (fun r t => match r with Ok a => P a t | Err e => Q (Err e) t end) ->
  (forall a t, P a t -> trace_must (f a) (fun b u => Q b (t ++ u))) ->
  trace_must (try_bind m f) Q.
Proof.
  intros Hm Hf. eapply trace_must_bind; [exact Hm|]. intros [a|e] t HP; [by apply Hf|].
  unfold trace_must. simpl. by rewrite app_nil_r.
Qed.

(** Only the successful executions matter. *)
Definition ok_trace {A E} (Q : A -> list event -> Prop) (r : result A E) (t : list event) : Prop :=
  match r with Ok a => Q a t | Err _ => True end.

Lemma trace_try_ok {An : Answers} {A B E} (m : IO (result A E)) (f : A -> IO (result B E)) P Q :
  trace_must m (ok_trace P) ->
  (forall a t, P a t -> trace_must (f a) (ok_trace (fun b u => Q b (t ++ u)))) ->
  trace_must (try_bind m f) (ok_trace Q).
Proof.
  intros Hm Hf. eapply trace_must_try; [|exact Hf].
  eapply trace_must_mono; [exact Hm|]. by intros [].
Qed.

Lemma trace_map_err {An : Answers} {A E F} (g : E -> F) (m : IO (result A E)) Q :
  trace_must m (ok_trace Q) -> trace_must (io_map_err g m) (ok_trace Q).
Proof.
  intros Hm. eapply trace_must_bind; [exact Hm|]. intros [a|e] t Ht; unfold trace_must; simpl; [|done].
  by rewrite app_nil_r.
Qed.

Lemma trace_must_ok {An : Answers} {A E} (m : IO (result A E)) (Q : A -> Prop) :
  must m (ok_post Q) -> trace_must m (ok_trace (fun a _ => Q a)).
Proof.
  intros Hm. eapply trace_must_mono; [apply trace_must_of, Hm|]. by intros [].
Qed.

(** Nothing is known of the first program but that it succeeded. *)
Lemma trace_try_any {An : Answers} {A B E} (m : IO (result A E)) (f : A -> IO (result B E)) Q :
  (forall a t, trace_must (f a) (ok_trace (fun b u => Q b (t ++ u)))) ->
  trace_must (try_bind m f) (ok_trace Q).
Proof.
  intros Hf. eapply trace_try_ok with (P := fun _ _ => True); [|auto].
  apply must_true. by intros [[] ?].
Qed.

Lemma trace_pure {An : Answers} {A B E} (r : result A E) (f : A -> IO (result B E)) Q :
  (forall a, r = Ok a -> trace_must (f a) (ok_trace Q)) ->
  trace_must (a <-? lift r ;; f a) (ok_trace Q).
Proof. intros Hf. destruct r; [by apply Hf|done]. Qed.

(** A program whose error is replaced, called first. *)
Lemma trace_sys_map {An : Answers} {A : Set} {B E F} (c : syscall (result A E)) (g : E -> F)
    (f : A -> IO (result B F)) Q :
  (forall a, trace_must (f a) (ok_trace (fun b u => Q b (Ev c (Ok a) :: u)))) ->
  trace_must (a <-? io_map_err g (sys c) ;; f a) (ok_trace Q).
Proof.
  intros Hf. apply trace_must_call. intros [a|e]; simpl; [apply Hf|done].
Qed.

Lemma trace_sys {An : Answers} {R : Set} {A} (c : syscall R) (k : R -> IO A) Q :
  (forall r, trace_must (k r) (fun a u => Q a (Ev c r :: u))) -> trace_must (r <- sys c ;; k r) Q.
Proof. intros Hk. apply trace_must_call. apply Hk. Qed.

Lemma trace_ret {An : Answers} {A} (a : A) (Q : A -> list event -> Prop) : Q a [] -> trace_must (Ret a) Q.
Proof. done. Qed.

(** Calls that may change the file system; what another program does is its
    own affair. *)
Definition mutates {R} (c : syscall R) : bool :=
  match c with
  | CreateDir _ | CreateDirAll _ | CreateNew _ | WriteAll _ _ | Rename _ _ | RemoveFile _
  | RemoveDir _ | OpenCreate _ | SetPermissions _ _ | RunCommand _ _ _ | Spawn _ _ _ _ => true
  | _ => false
  end.

Definition quiet (e : event) : Prop := match e with Ev c _ => mutates c = false end.

Lemma quiet_must {An : Answers} {A} (m : IO A) :
  calls (fun _ c => mutates c = false) m -> trace_must m (fun _ t => Forall quiet t).
Proof.
  induction m as [a|s|R c k IH]; simpl; [constructor|done|]. intros [Hc Hk].
  apply trace_must_call. intros r. eapply trace_must_mono; [by apply IH|].
  intros a t Ht. by constructor.
Qed.

Lemma observes_quiet {R : Set} (c : syscall R) : observes c = true -> mutates c = false.
Proof. by destruct c. Qed.

Lemma read_only_quiet {An : Answers} {A} (m : IO A) : read_only m -> trace_must m (fun _ t => Forall quiet t).
Proof.
  intros Hm. apply quiet_must. eapply calls_mono; [|exact Hm]. intros R c. apply observes_quiet.
Qed.

(** ** Traces of executions *)

(** The answer and the trace of an execution. *)
Definition traced_run {A} (m : IO A) (w : world) : outcome (A * list event) := snd (run (traced m) w).

Lemma trace_must_run {A} (m : IO A) (P : A -> list event -> Prop) w a t :
  trace_must (An := any_answer) m P -> traced_run m w = Done (a, t) -> P a t.
Proof.
  unfold trace_must, traced_run. intros Hm Hr. destruct (run (traced m) w) as [w' o] eqn:E.
  simpl in Hr. subst o. exact (must_run (traced m) _ w w' (a, t) Hm E).
Qed.

(** * The runs of a program

    [runs m a t]: the program [m] can return [a] after the calls [t], each
    answered as [answers] allows.  It is the dual of [trace_must]: what a
    program must satisfy holds of each of its runs.  A run of a long program is
    the concatenation of runs of its parts, so that what is known of a result
    can be traced to the part that established it. *)

Fixpoint runs {An : Answers} {A} (m : IO A) (a : A) (t : list event) : Prop :=
  match m with
  | Ret b => b = a /\ t = []
  | Panic _ => False
  | Sys c k => exists r t', answers c r /\ t = Ev c r :: t' /\ runs (k r) a t'
  end.

Section Laws.
Context {An : Answers}.

Lemma runs_trace_must {A} (m : IO A) P : trace_must m P <-> forall a t, runs m a t -> P a t.
Proof.
  revert P. induction m as [b|s|R c k IH]; intros P; simpl.
  - split; [by intros H a t [-> ->]|]. intros H. by apply H.
  - split; [by intros _ a t []|done].
  - rewrite trace_must_call_iff. split.
    + intros H a t (r & t' & Hr & -> & Hk). by apply (proj1 (IH r _) (H r Hr)).
    + intros H r Hr. apply IH. intros a t Hk. apply H. by exists r, t.
Qed.

Lemma runs_trace {A} (m : IO A) P a t : trace_must m P -> runs m a t -> P a t.
Proof. intros Hm. by apply runs_trace_must. Qed.

Lemma runs_must {A} (m : IO A) (P : A -> Prop) a t : must m P -> runs m a t -> P a.
Proof. intros Hm. by apply (runs_trace m (fun a _ => P a)), trace_must_of. Qed.

Lemma must_runs {A} (m : IO A) (P : A -> Prop) : (forall a t, runs m a t -> P a) -> must m P.
Proof.
  induction m as [b|s|R c k IH]; simpl; [intros H; by apply (H b [])|done|].
  intros H r Hr. apply IH. intros a t Hk. apply (H a (Ev c r :: t)). by exists r, t.
Qed.

Lemma runs_bind {A B} (m : IO A) (f : A -> IO B) b t :
  runs (bind m f) b t <-> exists a t1 t2, runs m a t1 /\ runs (f a) b t2 /\ t = (t1 ++ t2)%list.
Proof.
  revert t. induction m as [a|s|R c k IH]; intros t; simpl.
  - split; [intros H; by exists a, [], t|]. by intros (? & ? & t2 & [-> ->] & H & ->).
  - split; [done|by intros (? & ? & ? & ? & ?)].
  - split.
    + intros (r & t' & Hr & -> & H). apply IH in H as (a & t1 & t2 & Ha & Hb & ->).
      exists a, (Ev c r :: t1), t2. split_and!; [by exists r, t1|done|done].
    + intros (a & t1 & t2 & (r & t' & Hr & -> & Ha) & Hb & ->).
      exists r, (t' ++ t2)%list. split_and!; [done|done|]. apply IH. by exists a, t', t2.
Qed.

Lemma runs_try {A B E} (m : IO (result A E)) (f : A -> IO (result B E)) b t :
  runs (try_bind m f) (Ok b) t <-> exists a t1 t2, runs m (Ok a) t1 /\ runs (f a) (Ok b) t2 /\ t = (t1 ++ t2)%list.
Proof.
  unfold try_bind. rewrite runs_bind. split.
  - intros ([a|e] & t1 & t2 & Hm & Hf & ->); [by exists a, t1, t2|by destruct Hf].
  - intros (a & t1 & t2 & Hm & Hf & ->). by exists (Ok a), t1, t2.
Qed.

(** An error is that of the first part or of what follows it. *)
Lemma runs_try_err {A B E} (m : IO (result A E)) (f : A -> IO (result B E)) e t :
  runs (try_bind m f) (Err e) t <->
  runs m (Err e) t \/ exists a t1 t2, runs m (Ok a) t1 /\ runs (f a) (Err e) t2 /\ t = (t1 ++ t2)%list.
Proof.
  unfold try_bind. rewrite runs_bind. split.
  - intros ([a|e'] & t1 & t2 & Hm & Hf & ->); [right; by exists a, t1, t2|].
    destruct Hf as [[= ->] ->]. left. by rewrite app_nil_r.
  - intros [Hm|(a & t1 & t2 & Hm & Hf & ->)]; [exists (Err e), t, []; by rewrite app_nil_r|by exists (Ok a), t1, t2].
Qed.

(** An early error, or what follows the first part. *)
Lemma runs_try_cases {A B E} (m : IO (result A E)) (f : A -> IO (result B E)) r t :
  runs (try_bind m f) r t ->
  (exists e, r = Err e /\ runs m (Err e) t)
  \/ exists a t1 t2, runs m (Ok a) t1 /\ runs (f a) r t2 /\ t = (t1 ++ t2)%list.
Proof.
  destruct r as [b|e]; intros Hr; [right; by apply runs_try|].
  apply runs_try_err in Hr as [Hr|Hr]; [left; by exists e|by right].
Qed.

Lemma runs_ret {A} (a b : A) t : runs (Ret a) b t <-> a = b /\ t = [].
Proof. done. Qed.

Lemma runs_sys {R : Set} (c : syscall R) r t : runs (sys c) r t <-> answers c r /\ t = [Ev c r].
Proof.
  simpl. split; [by intros (? & ? & ? & -> & -> & ->)|]. intros [Ha ->]. by exists r, [].
Qed.

Lemma runs_map_err {A E F} (g : E -> F) (m : IO (result A E)) a t :
  runs (io_map_err g m) (Ok a) t <-> runs m (Ok a) t.
Proof.
  unfold io_map_err. rewrite runs_bind. split.
  - intros ([b|e] & t1 & t2 & Hm & [[= ->] ->] & ->). by rewrite app_nil_r.
  - intros Hm. exists (Ok a), t, []. by rewrite app_nil_r.
Qed.

(** ** Stages *)

Lemma runs_stage_bind {S A B} (m : stage S A) (k : A -> stage S B) s s' b t :
  runs (stage_bind m k s) (s', Ok b) t <->
  exists s1 a t1 t2, runs (m s) (s1, Ok a) t1 /\ runs (k a s1) (s', Ok b) t2 /\ t = (t1 ++ t2)%list.
Proof.
  unfold stage_bind. rewrite runs_bind. split.
  - intros ([s1 [a|e]] & t1 & t2 & Hm & Hk & ->); [by exists s1, a, t1, t2|by destruct Hk].
  - intros (s1 & a & t1 & t2 & Hm & Hk & ->). by exists (s1, Ok a), t1, t2.
Qed.

Lemma runs_stage_io {S A} (m : IO (res A)) (s s' : S) r t : runs (stage_io m s) (s', r) t <-> s' = s /\ runs m r t.
Proof.
  unfold stage_io. rewrite runs_bind. split.
  - intros (r' & t1 & t2 & Hm & [[= <- <-] ->] & ->). by rewrite app_nil_r.
  - intros [-> Hm]. exists r, t, []. by rewrite app_nil_r.
Qed.

Lemma runs_stage_try {S A} (m : stage S A) s s' r t :
  runs (stage_try m s) (s', r) t <-> exists r', r = Ok r' /\ runs (m s) (s', r') t.
Proof.
  unfold stage_try. rewrite runs_bind. split.
  - intros ([s1 r1] & t1 & t2 & Hm & [[= <- <-] ->] & ->). exists r1. by rewrite app_nil_r.
  - intros (r' & -> & Hm). exists (s', r'), t, []. by rewrite app_nil_r.
Qed.
End Laws.

(** [m] returned [a] at some moment of the calls [t]. *)
Definition ran_in {An : Answers} {A} (m : IO A) (a : A) (t : list event) : Prop :=
  exists before during after, t = (before ++ during ++ after)%list /\ runs m a during.

Section RanIn.
Context {An : Answers} {A : Type} (m : IO A) (a : A).

Lemma ran_in_all t : runs m a t -> ran_in m a t.
Proof. intros H. exists [], t, []. by rewrite app_nil_r. Qed.

Lemma ran_in_r t1 t2 : ran_in m a t2 -> ran_in m a (t1 ++ t2).
Proof. intros (b & d & c & -> & H). exists (t1 ++ b)%list, d, c. by rewrite app_assoc. Qed.

Lemma ran_in_l t1 t2 : ran_in m a t1 -> ran_in m a (t1 ++ t2).
Proof. intros (b & d & c & -> & H). exists b, d, (c ++ t2)%list. by rewrite <- !app_assoc. Qed.
End RanIn.

(** What was answered in [t], and nothing else.  A [must] theorem about these
    answers says that the calls it mentions were made in [t]. *)
Definition in_trace (t : list event) : Answers := fun R c r => In (Ev c r) t.

Section Located.
Context {An : Answers} {A : Type} (m : IO A).

Lemma runs_located a t u : runs m a t -> incl t u -> runs (An := in_trace u) m a t.
Proof.
  revert t. induction m as [b|s|R c k IH]; intros t; simpl; [done..|]. intros (r & t' & _ & -> & Hk) Hu.
  exists r, t'. split_and!; [apply Hu; by left|done|]. apply IH; [done|]. intros e He. apply Hu. by right.
Qed.

Lemma runs_in_trace (P : A -> Prop) a t u : must (An := in_trace u) m P -> runs m a t -> incl t u -> P a.
Proof. intros Hm Hr Hu. by eapply (runs_must (An := in_trace u)), runs_located. Qed.

Lemma runs_here (P : A -> Prop) a t : must (An := in_trace t) m P -> runs m a t -> P a.
Proof. intros Hm Hr. by eapply runs_in_trace, incl_refl. Qed.
End Located.

(** ** What a program consists of *)

(** The calls of a trace are those of a sequence of runs of some parts. *)
Inductive made_of {An : Answers} (part : forall A : Type, IO A -> Prop) : list event -> Prop :=
  | made_nil : made_of part []
  | made_part A (m : IO A) a t u : part A m -> runs m a t -> made_of part u -> made_of part (t ++ u).

(** Every run of a program, whatever it returns, is a sequence of runs of
    some parts. *)
Definition consists {An : Answers} (part : forall A : Type, IO A -> Prop) {A} (m : IO A) : Prop :=
  forall a t, runs m a t -> made_of part t.

Section Consists.
Context {An : Answers} (part : forall A : Type, IO A -> Prop).

Lemma made_app t u : made_of part t -> made_of part u -> made_of part (t ++ u).
Proof. induction 1 as [|A m a t1 t2 Hp Hr _ IH]; intros Hu; [done|]. rewrite <- app_assoc. eapply made_part; eauto. Qed.

Lemma made_mono (part' : forall A : Type, IO A -> Prop) t :
  made_of part t -> (forall A m, part A m -> part' A m) -> made_of part' t.
Proof. intros Ht Hp. induction Ht as [|A m a t u Hm Hr _ IH]; [constructor|]. eapply made_part; eauto. Qed.

Lemma made_by {A} (m : IO A) a t : runs m a t -> consists part m -> made_of part t.
Proof. intros Hr Hm. by eapply Hm. Qed.

Lemma consists_part {A} (m : IO A) : part A m -> consists part m.
Proof. intros Hm a t Hr. rewrite <- (app_nil_r t). eapply made_part; [exact Hm|exact Hr|constructor]. Qed.

Lemma consists_ret {A} (a : A) : consists part (Ret a).
Proof. intros b t [_ ->]. constructor. Qed.

Lemma consists_bind {A B} (m : IO A) (f : A -> IO B) :
  consists part m -> (forall a, consists part (f a)) -> consists part (bind m f).
Proof. intros Hm Hf b t (a & t1 & t2 & H1 & H2 & ->)%runs_bind. apply made_app; [by eapply Hm|by eapply Hf]. Qed.

Lemma consists_try {A B E} (m : IO (result A E)) (f : A -> IO (result B E)) :
  consists part m -> (forall a, consists part (f a)) -> consists part (try_bind m f).
Proof. intros Hm Hf. apply consists_bind; [done|]. intros [a|e]; [apply Hf|apply consists_ret]. Qed.

Lemma consists_stage_bind {S A B} (m : stage S A) (k : A -> stage S B) s :
  consists part (m s) -> (forall a s', consists part (k a s')) -> consists part (stage_bind m k s).
Proof. intros Hm Hk. apply consists_bind; [done|]. intros [s' [a|e]]; [apply Hk|apply consists_ret]. Qed.

Lemma consists_stage_io {S A} (m : IO (res A)) (s : S) : consists part m -> consists part (stage_io m s).
Proof. intros Hm. apply consists_bind; [done|]. intros r. apply consists_ret. Qed.

Lemma consists_stage_try {S A} (m : stage S A) s : consists part (m s) -> consists part (stage_try m s).
Proof. intros Hm. apply consists_bind; [done|]. intros [s' r]. apply consists_ret. Qed.

Lemma consists_stage_each {S A} (f : A -> stage S unit) l s :
  (forall x s', consists part (f x s')) -> consists part (stage_each f l s).
Proof.
  intros Hf. revert s. induction l as [|x l IH]; intros s; cbn [stage_each]; [apply consists_ret|].
  apply consists_stage_bind; [apply Hf|]. intros [] s'. apply IH.
Qed.
End Consists.

(** The steps of a program, one by one. *)
Ltac consist :=
  repeat lazymatch goal with
    | |- consists _ (Ret _) => apply consists_ret
    | |- consists _ (stage_ret _ _) => apply consists_ret
    | |- consists _ (stage_bind _ _ _) => apply consists_stage_bind; [|intros]
    | |- consists _ (stage_io _ _) => apply consists_stage_io
    | |- consists _ (stage_try _ _) => apply consists_stage_try
    | |- consists _ (stage_each _ _ _) => apply consists_stage_each; intros
    | |- consists _ (try_bind _ _) => apply consists_try; [|intros]
    | |- consists _ (bind _ _) => apply consists_bind; [|intros]
    | |- consists _ (if ?b then _ else _) => destruct b
    | |- consists _ (match ?p with (_, _) => _ end) => destruct p
    | |- consists _ (match ?p with (_, _) => _ end _) => destruct p
    | |- consists _ ((if ?b then _ else _) _) => destruct b
    | |- consists _ (match ?r with Ok _ => _ | Err _ => _ end) => destruct r
    | |- consists _ (match ?r with Ok _ => _ | Err _ => _ end _) => destruct r
    end.

(** Show [ran_in m a t] by a run [H] of [m], or [ran_in m a u], in a part of [t]. *)
Ltac ran_by H :=
  let rec go u :=
    lazymatch goal with
    | |- ran_in _ _ u => lazymatch type of H with runs _ _ _ => apply ran_in_all; exact H | ran_in _ _ _ => exact H end
    | |- ran_in _ _ (_ ++ _) => first [apply ran_in_l; go u | apply ran_in_r; go u]
    end in
  lazymatch type of H with runs _ _ ?u => go u | ran_in _ _ ?u => go u end.

(** An execution on a world is a run. *)
Lemma runs_run {A} (m : IO A) w w' a : run m w = (w', Done a) -> exists t, runs (An := any_answer) m a t.
Proof.
  revert w. induction m as [b|s|R c k IH]; intros w Hr; simpl in *; [simplify_eq; by exists []|done|].
  destruct (exec c w) as [w1 r]. apply IH in Hr as [t Ht]. by exists (Ev c r :: t), r, t.
Qed.

(** Split a hypothesis [H : runs m a t] at the first step of [m]. *)
Tactic Notation "unbind" hyp(H) "as" simple_intropattern(x) simple_intropattern(t) simple_intropattern(Hx) :=
  lazymatch type of H with
  | runs (stage_bind _ _ _) _ _ => apply runs_stage_bind in H as (? & x & t & ? & Hx & H & ->)
  | runs (try_bind _ _) _ _ => apply runs_try in H as (x & t & ? & Hx & H & ->)
  | _ => apply runs_bind in H as (x & t & ? & Hx & H & ->)
  end.
