(* ===== verification/AuditFacts.v ===== *)
(** * What the audit store guarantees

    Identifiers, publication, rotation and listing (AuditLog.v). *)

From stdpp Require Import base list strings.
From Stdlib Require Import NArith Ascii String Sorted Lia.
From S2P Require Import Prelude Bytes UnixPath IO World Model Paths AuditLog Observers Trace.

Local Open Scope string_scope.
Local Open Scope N_scope.

(** ** Definitions of the statements *)

(** The calls of a successful publication, from the creation of the
    temporary file on. *)
Definition publication (temp handle final bytes : string) : list event :=
  [Ev (CreateNew temp) (Ok handle); Ev (WriteAll handle bytes) (Ok tt); Ev (Flush handle) (Ok tt);
   Ev (SyncAll handle) (Ok tt); Ev (Rename temp final) (Ok tt)].

(** [t] publishes [bytes] as [final], atomically and durably, and changes
    nothing before. *)
Definition published (final bytes : string) (t : list event) : Prop :=
  exists before temp handle, Forall quiet before /\
    t = (before ++ publication temp handle final bytes)%list.

Definition file_bytes (entries : list (string * N)) : N :=
  fold_right (fun e sum => snd e + sum) 0 entries.

(** Whether a directory holding [entries] respects the limits. *)
Definition within_limits (max_events max_bytes : N) (entries : list (string * N)) : Prop :=
  N.of_nat (List.length entries) <= max_events /\ file_bytes entries <= max_bytes.

(** The event put a file at [final]. *)
Definition renamed_onto (final : string) (e : event) : bool :=
  match e with
  | Ev c r =>
      match c in syscall R return R -> bool with
      | Rename _ to => fun r => (to =?s final) && is_ok r
      | _ => fun _ => false
      end r
  end.

Definition removes (path : string) (e : event) : Prop :=
  exists answer, e = Ev (RemoveFile path) answer.

(** ** Identifiers *)

Lemma is_empty_strlen s : is_empty s = (strlen s =? 0).
Proof. by destruct s. Qed.

Lemma new_storage_id_quiet prefix : calls (fun _ c => mutates c = false) (new_storage_id prefix).
Proof.
  unfold new_storage_id. apply calls_try; [done|]. intros _. apply calls_try; [by simpl|].
  intros random. by repeat split.
Qed.

Lemma hexdigit_id_byte c : is_ascii_hexdigit c = true -> is_id_byte c = true.
Proof.
  unfold is_ascii_hexdigit, is_id_byte, is_ascii_alphanumeric, is_ascii_uppercase, is_ascii_lowercase, in_range.
  rewrite !orb_true_iff, !andb_true_iff, !N.leb_le. intros [[?|?]|?]; left.
  - left; by left.
  - left; right; lia.
  - right; lia.
Qed.

Lemma digits_id_bytes base w n : 0 < base <= 16 -> all_bytes is_id_byte (digits base w n) = true.
Proof. intros. eapply all_bytes_impl; [exact hexdigit_id_byte|]. by apply all_hexdigits. Qed.

Lemma byte_n_bound c : byte_n c < 256.
Proof. apply N_ascii_bounded. Qed.

Lemma hex_id_bytes s : all_bytes is_id_byte (hex s) = true.
Proof.
  induction s as [|c s IH]; [done|]. simpl. pose proof (byte_n_bound c).
  rewrite !hexdigit_id_byte, IH; [done|..]; apply hex_digit_hexdigit.
  - change 15 with (N.ones 4). rewrite N.land_ones. by apply N.mod_lt.
  - rewrite N.shiftr_div_pow2. by apply N.Div0.div_lt_upper_bound.
Qed.

Lemma strlen_hex s : strlen (hex s) = 2 * strlen s.
Proof. unfold strlen. induction s as [|c s IH]; simpl String.length in *; lia. Qed.

Lemma strlen_digits base w n : strlen (digits base w n) = N.of_nat w.
Proof. unfold strlen. by rewrite length_digits. Qed.

Lemma dec_pad_digits w n : n < 10 ^ N.of_nat w -> dec_pad w n = digits 10 w n.
Proof. intros Hn. unfold dec_pad. by rewrite (proj2 (N.ltb_lt _ _) Hn). Qed.

(** ** Publication *)

Lemma quiet_not_renamed final t : Forall quiet t -> existsb (renamed_onto final) t = false.
Proof.
  induction 1 as [|[R c r] t Hq Ht IH]; simpl; [done|]. rewrite IH, orb_false_r. by destruct c.
Qed.

Lemma publish_trace {An : Answers} temp final bytes creating publishing :
  trace_must
    (file <-? sys_context creating (CreateNew temp) ;;
     outcome <-
       (sys_any (WriteAll file bytes) ;;?
        sys_any (Flush file) ;;?
        sys_any (SyncAll file) ;;?
        sys_context publishing (Rename temp final)) ;;
     match outcome with
     | Ok _ => Ret (Ok tt)
     | Err e => sys (RemoveFile temp) ;; Ret (Err e)
     end)
    (fun (r : any unit) t => match r with
     | Ok _ => exists handle, t = publication temp handle final bytes
     | Err _ => existsb (renamed_onto final) t = false
     end).
Proof.
  apply trace_must_call; intros [h|?]; [|done]. cbn -[trace_must].
  do 4 (apply trace_must_call; intros [[]|?]; cbn -[trace_must];
        [|apply trace_must_call; intros ?; apply trace_ret; simpl; by rewrite ?andb_false_r]).
  apply trace_ret. by exists h.
Qed.

Lemma atomic_create_trace {An : Answers} parent_ final bytes :
  trace_must (atomic_create parent_ final bytes)
    (fun r t => match r with
     | Ok _ => published final bytes t
     | Err _ => existsb (renamed_onto final) t = false
     end).
Proof.
  apply trace_must_call; intros [canonical|?]; [|done]. cbn -[trace_must].
  destruct (parent final) as [final_parent|]; [|done]. simpl ok_or.
  apply trace_must_call; intros [cfp|?]; [|done]. cbn -[trace_must bail_if publish_trace].
  destruct (negb _); [done|]. simpl bail_if.
  eapply trace_must_try.
  { eapply trace_must_mono; [apply quiet_must, new_storage_id_quiet|].
    intros [id|e] t Ht; [exact Ht|]. simpl. by apply quiet_not_renamed. }
  intros id t Hq. eapply trace_must_mono; [apply publish_trace|].
  intros [u|e] t' Ht; simpl.
  - destruct Ht as (h & ->). eexists _, _, h. split; [|by rewrite !app_comm_cons]. by repeat constructor.
  - rewrite existsb_app, Ht, orb_false_r. by apply quiet_not_renamed.
Qed.

(** ** Rotation *)

Lemma rotate_loop_trace {An : Answers} max_events max_bytes entries :
  trace_must
    (rotate_loop entries (saturating_sub64 (N.of_nat (List.length entries)) max_events)
       (file_bytes entries) max_bytes)
    (fun r t => exists k, Forall2 removes (map fst (take k entries)) t /\
       (forall j, (j < k)%nat -> ~ within_limits max_events max_bytes (drop j entries)) /\
       (is_ok r = true -> within_limits max_events max_bytes (drop k entries))).
Proof.
  induction entries as [|[path bytes] rest IH].
  { apply trace_ret. exists 0%nat. split; [constructor|]. split; [lia|]. intros _. split; simpl; lia. }
  cbn [rotate_loop]. unfold saturating_sub64 in *. destruct (_ && _) eqn:Hstop.
  { apply trace_ret. exists 0%nat. split; [constructor|]. split; [lia|]. intros _.
    split_bools. rewrite N.eqb_eq, N.leb_le in *. split; simpl drop; lia. }
  assert (~ within_limits max_events max_bytes ((path, bytes) :: rest)) as Hover.
  { intros [Hl Hb]. apply andb_false_iff in Hstop as [F|F].
    - apply N.eqb_neq in F. lia.
    - apply N.leb_gt in F. lia. }
  replace (N.of_nat (List.length ((path, bytes) :: rest)) - max_events - 1)
    with (N.of_nat (List.length rest) - max_events) by (simpl List.length; lia).
  replace (file_bytes ((path, bytes) :: rest) - bytes) with (file_bytes rest) by (simpl; lia).
  assert (forall answer, trace_must
    (rotate_loop rest (N.of_nat (List.length rest) - max_events) (file_bytes rest) max_bytes)
    (fun r u => exists k,
       Forall2 removes (map fst (take k ((path, bytes) :: rest))) (Ev (RemoveFile path) answer :: u) /\
       (forall j, (j < k)%nat -> ~ within_limits max_events max_bytes (drop j ((path, bytes) :: rest))) /\
       (is_ok r = true -> within_limits max_events max_bytes (drop k ((path, bytes) :: rest))))) as Hgo.
  { intros answer. eapply trace_must_mono; [exact IH|]. intros r u (k & Hk & Hmin & Hend).
    exists (S k). simpl. split; [constructor; [by eexists|done]|]. split; [|done].
    intros [|j] Hj; [done|]. simpl. apply Hmin. lia. }
  apply trace_must_call. intros [[]|e]; [apply Hgo|].
  destruct (bool_decide _); [apply Hgo|]. apply trace_ret. exists 1%nat. simpl.
  split; [repeat constructor; by eexists|]. split; [|done].
  intros [|j] Hj; [done|lia].
Qed.

Lemma saturating_fold acc entries :
  acc + file_bytes entries <= u64_max ->
  fold_left (fun sum e => saturating_add64 sum (snd e)) entries acc = acc + file_bytes entries.
Proof.
  revert acc. induction entries as [|[path bytes] rest IH]; intros acc Hmax; simpl in *; [lia|].
  unfold saturating_add64 at 2. rewrite N.min_r by lia. rewrite IH; lia.
Qed.

Lemma total_bytes_exact entries :
  file_bytes entries <= u64_max -> total_bytes_of entries = file_bytes entries.
Proof. intros Hmax. unfold total_bytes_of. by rewrite saturating_fold. Qed.

(** The entry a call measured: a regular file and its length. *)
Definition regular_of (e : event) : option (string * N) :=
  match e with
  | Ev c r =>
      match c in syscall R return R -> option (string * N) with
      | SymlinkMetadata path => fun r =>
          match r with
          | Ok m => if is_file m && negb (is_symlink m) then Some (path, md_len m) else None
          | Err _ => None
          end
      | _ => fun _ => None
      end r
  end.

Definition inspects (path : string) (e : event) : Prop :=
  exists answer, e = Ev (SymlinkMetadata path) answer.

Lemma measured_files_trace {An : Answers} paths :
  trace_must (measured_files paths) (fun entries t => Forall2 inspects paths t /\ entries = omap regular_of t).
Proof.
  induction paths as [|path rest IH]; [by apply trace_ret|]. simpl.
  apply trace_must_call. intros r. simpl. eapply trace_must_bind; [exact IH|].
  intros entries t [Hq ->]. apply trace_ret. rewrite app_nil_r. split; [by constructor; [eexists|]|].
  simpl. destruct r as [m|e]; [|done]. by destruct (is_file m && _).
Qed.

Lemma controlled_json_files_trace {An : Answers} dir :
  trace_must (controlled_json_files dir) (fun r t =>
    match r with
    | Ok paths => exists canonical names, json_entries canonical names = Ok paths /\
        t = [Ev (Canonicalize dir) (Ok canonical); Ev (ReadDir canonical) (Ok names)]
    | Err _ => Forall quiet t
    end).
Proof.
  unfold controlled_json_files. apply trace_must_call. intros [canonical|e]; [|by repeat constructor].
  apply trace_must_call. intros [names|e]; [|by repeat constructor]. apply trace_ret. simpl.
  destruct (json_entries canonical names) as [paths|] eqn:E; [by exists canonical, names|by repeat constructor].
Qed.

Lemma controlled_json_files_observe dir : read_only (controlled_json_files dir).
Proof. unfold controlled_json_files. simpl. repeat (split; [done|]; intros []; simpl); done. Qed.

(** The files in the order rotation considers them: by path. *)
Definition by_path (l r : string * N) : Prop := path_cmp (fst l) (fst r) <> Gt.

#[export] Instance entry_cmp_total : TotalCmp (fun a b : string * N => path_cmp (fst a) (fst b)).
Proof. exact (linear_total (fun e => components (fst e)) (list_cmp component_cmp)). Qed.

#[export] Instance event_cmp_total : TotalCmp event_cmp.
Proof.
  exact (linear_total (fun e => (ev_timestamp_unix_ms e, ev_event_id e))
           (fun x y => then_with (N.compare x.1 y.1) (str_cmp x.2 y.2))).
Qed.

(** ** Listing *)

Section Listing.
Context `{AuditSerde} {An : Answers}.

Definition listed (query : AuditQuery) (e : AuditEvent) : Prop :=
  matches_query query e = true /\ is_ok (validate_event e) = true.

Lemma load_event_must path :
  must (load_event path) (fun r => match r with
    | Some e => is_ok (validate_event e) = true
    | None => True
    end).
Proof.
  unfold load_event. simpl. intros [m|] _; simpl; [|done]. destruct (_ && _); simpl; [|done].
  intros [bytes|] _; simpl; [|done]. destruct (event_from_slice bytes) as [e|]; [|done].
  by destruct (is_ok (validate_event e)) eqn:E.
Qed.

Lemma load_event_observer path : observer (load_event path).
Proof. unfold load_event. observe. Qed.

(** What [load_event] finds in a world. *)
Definition loaded_in (w : world) (path : string) : option AuditEvent :=
  match eval (load_event path) w with Done r => r | Panicked _ => None end.

Lemma load_event_run w path : run (load_event path) w = (w, Done (loaded_in w path)).
Proof.
  rewrite read_only_run_eq by apply load_event_observer. unfold loaded_in.
  pose proof (no_panic_run (load_event path) w (proj2 (load_event_observer path))) as [r Hr].
  unfold eval. by rewrite Hr.
Qed.

(** The matches among the loaded events, in the order of the files. *)
Definition matches_in (w : world) (query : AuditQuery) (paths : list string) : list AuditEvent :=
  List.filter (matches_query query) (omap (loaded_in w) paths).

Lemma collect_events_run w query limit paths events ignored :
  (List.length events < limit)%nat ->
  exists ignored', run (collect_events query (N.of_nat limit) paths events ignored) w =
    (w, Done ((events ++ take (limit - List.length events) (matches_in w query paths))%list, ignored')).
Proof.
  revert events ignored. induction paths as [|path rest IH]; intros events ignored Hl; cbn [collect_events].
  { exists ignored. unfold matches_in. simpl. by rewrite take_nil, app_nil_r. }
  rewrite run_bind, load_event_run. unfold matches_in. simpl.
  destruct (loaded_in w path) as [e|]; [|by apply IH]. simpl.
  destruct (matches_query query e); simpl; [|by apply IH].
  destruct (_ =? _) eqn:Heq; rewrite length_app in Heq; simpl in Heq.
  - apply N.eqb_eq in Heq. replace (limit - List.length events)%nat with 1%nat by lia.
    simpl. rewrite take_0. by exists ignored.
  - apply N.eqb_neq in Heq. destruct (IH (events ++ [e])%list ignored) as [ignored' ->].
    { rewrite length_app; simpl; lia. }
    exists ignored'. rewrite length_app, <- app_assoc. simpl.
    replace (limit - List.length events)%nat with (S (limit - (List.length events + 1))) by lia. done.
Qed.

Lemma collect_events_must query limit paths events ignored :
  N.of_nat (List.length events) < limit -> Forall (listed query) events ->
  must (collect_events query limit paths events ignored) (fun r =>
    N.of_nat (List.length (fst r)) <= limit /\ Forall (listed query) (fst r)).
Proof.
  revert events ignored. induction paths as [|path rest IH]; intros events ignored Hl Hf; cbn [collect_events].
  { split; simpl; [lia|done]. }
  eapply must_bind; [apply load_event_must|]. intros [e|] He; [|by apply IH].
  destruct (matches_query query e) eqn:Hm; simpl; [|by apply IH].
  assert (N.of_nat (List.length (events ++ [e])) = N.of_nat (List.length events) + 1) as Hlen
    by (rewrite length_app; simpl; lia).
  assert (Forall (listed query) (events ++ [e])) as Hf' by (apply Forall_app; by repeat constructor).
  destruct (_ =? limit) eqn:Heq; simpl.
  - apply N.eqb_eq in Heq. split; [lia|done].
  - apply N.eqb_neq in Heq. apply IH; [lia|done].
Qed.

Lemma list_events_must store query :
  must (list_events store query) (ok_post (fun report =>
    N.of_nat (List.length (asr_events report)) <= clamp (q_limit query) 1 MAX_AUDIT_EVENTS /\
    Forall (listed query) (asr_events report) /\
    StronglySorted (cmp_le event_cmp) (asr_events report))).
Proof.
  unfold list_events. apply must_any; intros [storage paths].
  eapply must_bind.
  { apply collect_events_must; [|constructor]. change (N.of_nat (List.length [])) with 0. unfold clamp, MAX_AUDIT_EVENTS. lia. }
  intros [events ignored] [Hl Hf]. simpl in *. rewrite length_sort_by. split; [done|].
  split; [by rewrite sort_by_perm|apply sort_by_sorted, _].
Qed.

Lemma list_scoped_must store authority query :
  must (list_scoped store authority query) (ok_post (fun report =>
    is_hash authority = true /\
    Forall (fun e => ev_workspace_hash e = authority) (asr_events report))).
Proof.
  unfold list_scoped. apply must_pure; intros ? Hhash. apply must_pure; intros ? Hscope.
  unfold validate_hash, bail_if in Hhash. destruct (is_hash authority); [|done].
  unfold bail_if in Hscope. case_bool_decide as Hq; [|done].
  eapply must_mono; [apply list_events_must|]. intros [report|]; simpl; [|done].
  intros (_ & Hf & _). split; [done|]. eapply Forall_impl; [exact Hf|].
  intros e [Hm _]. unfold matches_query in Hm. rewrite Hq in Hm. simpl in Hm. split_bools.
  by apply String.eqb_eq in H0.
Qed.
End Listing.

(** ** Recording *)

Section Recording.
Context `{AuditSerde} {An : Answers}.

(** The event as it is stored, under its identifier. *)
Definition stored_event (id : string) (e : AuditEvent) : AuditEvent :=
  if is_empty (ev_event_id e) then with_event_id id e else e.

Definition event_path (store : AuditStore) (e : AuditEvent) (id : string) : string :=
  join (join (join (workspaces_dir store) (ev_workspace_hash e)) "events") (id ++ ".json").

(** [t] publishes the event under [id], and what follows is rotation. *)
Definition recorded (store : AuditStore) (e : AuditEvent) (id : string) (t : list event) : Prop :=
  ev_event_id (stored_event id e) = id /\ is_ok (validate_storage_id id) = true /\
  exists json before temp handle rotation,
    event_to_vec (stored_event id e) = Some json /\
    strlen json < MAX_AUDIT_RECORD_BYTES /\
    t = (before ++ publication temp handle (event_path store e id) (json ++ String (byte 10) "")
         ++ rotation)%list.

Lemma workspace_events_dir_create store hash :
  must (workspace_events_dir store hash true)
    (ok_post (fun d => d = join (join (workspaces_dir store) hash) "events")).
Proof.
  unfold workspace_events_dir. apply must_pure; intros ? _. do 2 (apply must_any; intros ?). done.
Qed.

Lemma record_trace store e :
  trace_must (record store e) (ok_trace (fun id t =>
    is_ok (validate_event e) = true /\ recorded store e id t)).
Proof.
  unfold record. apply trace_pure; intros ? Hvalid.
  eapply trace_try_ok with (P := fun stored _ => stored = stored_event (ev_event_id stored) e).
  { unfold stored_event. destruct (is_empty (ev_event_id e)); [|by apply trace_ret].
    apply trace_try_any. intros id t. by apply trace_ret. }
  intros stored before1 Hstored. apply trace_pure; intros ? Hid. apply trace_pure; intros json Hjson.
  apply trace_pure; intros ? Hsize. unfold bail_if in Hsize. destruct (_ <? _) eqn:Hlt; [done|].
  apply N.ltb_ge in Hlt. rewrite strlen_app in Hlt. change (strlen (String (byte 10) "")) with 1 in Hlt.
  eapply trace_try_ok; [apply trace_must_ok, workspace_events_dir_create|]. intros dir before2 ->.
  eapply trace_try_ok; [eapply trace_must_mono; [apply atomic_create_trace|];
                        intros [] ?; [intros Hp; exact Hp|done]|].
  intros ? t (before3 & temp & handle & _ & ->).
  apply trace_try_any. intros ? rotation. apply trace_ret. split; [by rewrite Hvalid|].
  assert (ev_workspace_hash stored = ev_workspace_hash e) as Hw.
  { rewrite Hstored. unfold stored_event. by destruct (is_empty _). }
  split; [by rewrite <- Hstored|]. split; [by rewrite Hid|].
  exists json, (before1 ++ before2 ++ before3)%list, temp, handle, rotation.
  rewrite <- Hstored. split; [by destruct (event_to_vec stored); simplify_eq/=|]. split; [lia|].
  unfold event_path. rewrite Hw. by rewrite app_nil_r, <- !app_assoc.
Qed.
End Recording.

(** ** Properties *)

(** Identifiers built from a 64-bit time, a 32-bit process id, a 64-bit
    counter and the 12 random bytes asked of the system have a fixed width
    and always pass [validate_storage_id]. *)
Theorem storage_id_valid millis pid counter random :
  millis <= u64_max -> pid <= u32_max -> strlen random = 12 ->
  strlen (format_storage_id millis pid counter random) = 73 /\
  validate_storage_id (format_storage_id millis pid counter random) = Ok tt.
Proof.
  intros Hm Hp Hr. unfold format_storage_id, hex16, u64_max, u32_max in *.
  rewrite !dec_pad_digits by (simpl; lia).
  split; [rewrite !strlen_app, !strlen_digits, strlen_hex, Hr; reflexivity|].
  unfold validate_storage_id. rewrite is_empty_strlen.
  rewrite !strlen_app, !strlen_digits, strlen_hex, Hr, !all_bytes_app, !digits_id_bytes, hex_id_bytes by lia.
  reflexivity.
Qed.

Lemma storage_id_valid_witness :
  strlen (format_storage_id 1722470400000 4242 7 "abcdefghijkl") = 73 /\
  validate_storage_id (format_storage_id 1722470400000 4242 7 "abcdefghijkl") = Ok tt.
Proof. apply storage_id_valid; vm_compute; done. Defined.

(** File names of audit records sort by creation time: an identifier
    of an earlier millisecond is smaller, byte by byte, whatever process,
    counter and randomness follow. *)
Theorem storage_ids_chronological millis millis' pid pid' counter counter' random random' :
  millis < millis' -> millis' <= u64_max ->
  str_lt (format_storage_id millis pid counter random)
         (format_storage_id millis' pid' counter' random') = true.
Proof.
  intros Hlt Hmax. unfold format_storage_id, u64_max in *.
  rewrite !(dec_pad_digits 20) by (simpl; lia).
  apply str_lt_app_lt; [by rewrite !length_digits|]. apply digits_lt; simpl; lia.
Qed.

Lemma storage_ids_chronological_witness :
  str_lt (format_storage_id 1722470400000 4242 9 "zzzzzzzzzzzz")
         (format_storage_id 1722470400001 17 3 "abcdefghijkl") = true.
Proof. apply storage_ids_chronological; vm_compute; done. Defined.

(** Publication is atomic and durable: a success wrote the whole bytes
    to a fresh temporary file, flushed and synchronised it, and only then
    renamed it onto the final path; a failure never renamed onto it. *)
Theorem atomic_create_publishes {An : Answers} parent_ final bytes :
  trace_must (atomic_create parent_ final bytes)
    (fun r t => match r with
     | Ok _ => published final bytes t
     | Err _ => existsb (renamed_onto final) t = false
     end).
Proof. apply atomic_create_trace. Qed.

(** Rotation lists the records of the directory, measures each of them,
    and removes, oldest path first, the shortest prefix that brings their
    number and total size within the limits; a failure stops inside that
    prefix. *)
Theorem rotation_minimal {An : Answers} events_dir max_events max_bytes :
  trace_must (rotate_to_limits events_dir max_events max_bytes) (fun r t =>
    (is_ok r = false /\ Forall quiet t) \/
    exists canonical names paths inspected entries removed,
      t = Ev (Canonicalize events_dir) (Ok canonical) :: Ev (ReadDir canonical) (Ok names) ::
          (inspected ++ removed)%list /\
      json_entries canonical names = Ok paths /\ Forall2 inspects paths inspected /\
      entries ≡ₚ omap regular_of inspected /\ StronglySorted by_path entries /\
      (file_bytes entries <= u64_max ->
       exists k, Forall2 removes (map fst (take k entries)) removed /\
         (forall j, (j < k)%nat -> ~ within_limits max_events max_bytes (drop j entries)) /\
         (is_ok r = true -> within_limits max_events max_bytes (drop k entries)))).
Proof.
  unfold rotate_to_limits. eapply trace_must_try.
  { eapply trace_must_mono; [apply controlled_json_files_trace|].
    intros [files|e] t Ht; [exact Ht|by left]. }
  intros files t (canonical & names & Hjson & ->).
  eapply trace_must_bind; [apply measured_files_trace|]. intros entries inspected [Hin ->].
  set (sorted := sort_by _ _).
  assert (sorted ≡ₚ omap regular_of inspected) as Hperm by apply sort_by_perm.
  assert (StronglySorted by_path sorted) as Hsort by apply sort_by_sorted, _.
  eapply trace_must_mono with (P := fun r removed => file_bytes sorted <= u64_max -> _).
  2: { intros r removed Hk. right. by exists canonical, names, files, inspected, sorted, removed. }
  destruct (N.le_gt_cases (file_bytes sorted) u64_max) as [Hle|Hgt].
  - rewrite total_bytes_exact by done. eapply trace_must_mono; [apply rotate_loop_trace|]. auto.
  - eapply trace_must_mono; [by apply (trace_must_of _ (fun _ => True)), must_true|]. lia.
Qed.

(** Recording an event validates it, gives it an identifier when it has
    none, bounds its size and publishes it atomically in the directory of its
    workspace, before any rotation; the returned identifier names the file. *)
Theorem record_publishes `{AuditSerde} {An : Answers} store e :
  trace_must (record store e) (ok_trace (fun id t =>
    is_ok (validate_event e) = true /\ recorded store e id t)).
Proof. apply record_trace. Qed.

(** A listing is bounded by the clamped limit and by
    [MAX_AUDIT_EVENTS], sorted by time then identifier, and holds only valid
    events that match the query. *)
Theorem list_events_bounded_sorted `{AuditSerde} {An : Answers} store query :
  must (list_events store query) (ok_post (fun report =>
    N.of_nat (List.length (asr_events report)) <= clamp (q_limit query) 1 MAX_AUDIT_EVENTS /\
    Forall (listed query) (asr_events report) /\
    StronglySorted (cmp_le event_cmp) (asr_events report))).
Proof. apply list_events_must. Qed.

(** A scoped listing only succeeds for a query on the authorised
    workspace, and every event it returns belongs to that workspace. *)
Theorem list_scoped_confined `{AuditSerde} {An : Answers} store authority query :
  must (list_scoped store authority query) (ok_post (fun report =>
    is_hash authority = true /\
    Forall (fun e => ev_workspace_hash e = authority) (asr_events report))).
Proof. apply list_scoped_must. Qed.

(** The listing loop with its early exit computes the reference: the
    first [limit] matching events in the order of the files. *)
Theorem collect_events_reference `{AuditSerde} w query limit paths :
  exists ignored, run (collect_events query (N.of_nat (S limit)) paths [] 0) w =
    (w, Done (take (S limit) (matches_in w query paths), ignored)).
Proof.
  destruct (collect_events_run w query (S limit) paths [] 0) as [ignored E]; [simpl; lia|].
  exists ignored. by rewrite E.
Qed.
