(* ===== verification/WorldFacts.v ===== *)
(** * Facts about the concrete file system

    Path resolution in a region of real directories: what the calls answer
    and how they change the tree, on rendered locations; and the weakest
    preconditions of programs on a world. *)

From stdpp Require Import base list strings gmap.
From Stdlib Require Import NArith Ascii String Lia.
From S2P Require Import Prelude Bytes UnixPath IO World Model Paths AuditLog Observers.

(** ** Real directories *)

Definition is_dir_at (fs : fsys) (l : loc) : Prop := exists n t, node_at fs l = Some (Dir n t).

(** Every ancestor of [l], and [l] itself, is a directory and no link. *)
Definition real_dir (fs : fsys) (l : loc) : Prop :=
  valid_names l /\ forall k m, l = k ++ m -> is_dir_at fs k.

Definition not_link (n : node) : Prop := match n with Link _ _ => False | _ => True end.

Lemma real_dir_prefix fs k m : real_dir fs (k ++ m) -> real_dir fs k.
Proof.
  intros [Hv Hd]. apply Forall_app in Hv as [Hk _]. split; [done|].
  intros a b ->. apply (Hd a (b ++ m)). by rewrite app_assoc.
Qed.

Lemma real_dir_is_dir fs l : real_dir fs l -> is_dir_at fs l.
Proof. intros [_ Hd]. apply (Hd l []). by rewrite app_nil_r. Qed.

Lemma real_dir_snoc fs l n :
  real_dir fs l -> valid_name n = true -> is_dir_at fs (l ++ [n]) -> real_dir fs (l ++ [n]).
Proof.
  intros [Hv Hd] Hn Hdir. split; [apply Forall_app; by repeat constructor|].
  intros k m E. destruct (decide (m = [])) as [->|Hm].
  - by rewrite app_nil_r in E; subst.
  - destruct (exists_last Hm) as (m' & x & ->). rewrite app_assoc in E.
    apply app_inj_tail in E as [-> ->]. by eapply Hd.
Qed.

Lemma node_at_snoc fs l n : node_at fs (l ++ [n]) = fs !! (l ++ [n]).
Proof. by destruct l. Qed.

(** ** Walking *)

Lemma walk_nil fuel fs follow cur : walk fuel fs follow cur [] = Ok cur.
Proof. by destruct fuel. Qed.

(** One step through a directory entry that is not a link. *)
Lemma walk_step fuel fs follow cur n rest :
  valid_name n = true ->
  walk fuel fs follow cur (n :: rest) =
  match node_at fs (cur ++ [n]) with
  | None => Err enoent
  | Some (Link target _) =>
      if negb follow && match rest with [] => true | _ => false end then Ok (cur ++ [n]) else
      match fuel with
      | O => Err eloop
      | S f => walk f fs follow (walk_base cur target) (os_names target ++ rest)
      end
  | Some (Dir _ _) => walk fuel fs follow (cur ++ [n]) rest
  | Some _ => match rest with [] => Ok (cur ++ [n]) | _ => Err enotdir end
  end.
Proof.
  intros (_ & H1 & H2 & _)%valid_name_spec.
  destruct fuel; simpl;
    rewrite (proj2 (String.eqb_neq n ".") H1), (proj2 (String.eqb_neq n "..") H2); done.
Qed.

#[global] Arguments walk : simpl never.

(** A path through real directories is walked name by name. *)
Lemma walk_real fuel fs follow l rest :
  forall cur, real_dir fs (cur ++ l) -> walk fuel fs follow cur (l ++ rest) = walk fuel fs follow (cur ++ l) rest.
Proof.
  induction l as [|n l IH]; intros cur Hreal; [by rewrite app_nil_r|].
  replace (cur ++ n :: l) with ((cur ++ [n]) ++ l) in * by (by rewrite <- app_assoc).
  rewrite <- IH by done. simpl app. rewrite walk_step.
  - apply real_dir_prefix, real_dir_is_dir in Hreal as (len & t & ->). done.
  - destruct Hreal as [Hv _]. apply Forall_app in Hv as [Hv _]. apply Forall_app in Hv as [_ Hv].
    by apply Forall_inv in Hv.
Qed.

Lemma walk_self fuel fs follow l : real_dir fs l -> walk fuel fs follow [] l = Ok l.
Proof.
  intros Hreal. pose proof (walk_real fuel fs follow l [] [] Hreal) as E.
  rewrite app_nil_r in E. by rewrite E, walk_nil.
Qed.

Lemma os_names_render l : valid_names l -> os_names (render l) = l.
Proof.
  intros Hv. unfold os_names. destruct (decide (l = [])) as [->|Hne]; [done|].
  rewrite segments_render by done.
  assert (List.filter (fun s => negb (s =? "")%string) ("" :: l) = l) as ->.
  { simpl. induction Hv as [|n l Hn Hl IH]; [done|]. simpl.
    apply valid_name_spec in Hn as (Hn & _). rewrite (proj2 (String.eqb_neq _ _) Hn). simpl. f_equal.
    destruct (decide (l = [])) as [->|]; [done|auto]. }
  assert (ends_with "/" (render l) = false) as ->; [|by rewrite app_nil_r].
  destruct (exists_last Hne) as (k & m & ->). apply Forall_app in Hv as [Hk Hm]. apply Forall_inv in Hm.
  by apply render_no_trailing.
Qed.

(** A rendered location resolves to itself when its ancestors are real and
    it is present and no link (or links are not followed). *)
Lemma resolve_render w follow l n node :
  real_dir (w_fs w) l -> valid_name n = true -> w_fs w !! (l ++ [n]) = Some node ->
  (follow = false \/ not_link node) ->
  resolve w follow (render (l ++ [n])) = Ok (l ++ [n]).
Proof.
  intros Hreal Hn Hnode Hlink. assert (valid_names (l ++ [n])) as Hv.
  { apply Forall_app; split; [apply Hreal|by repeat constructor]. }
  unfold resolve. change (is_empty _) with false. cbn match. rewrite os_names_render by done.
  change (walk_base (w_cwd w) (render (l ++ [n]))) with (@nil string).
  rewrite walk_real by done. simpl app. rewrite walk_step by done. rewrite node_at_snoc, Hnode.
  destruct node; try done. destruct Hlink as [->|[]]. done.
Qed.

Lemma resolve_dir w follow l : real_dir (w_fs w) l -> resolve w follow (render l) = Ok l.
Proof.
  intros Hreal. unfold resolve. change (is_empty _) with false. cbn match.
  rewrite os_names_render by apply Hreal. change (walk_base (w_cwd w) (render l)) with (@nil string).
  by apply walk_self.
Qed.

Lemma resolve_missing w follow l n :
  real_dir (w_fs w) l -> valid_name n = true -> w_fs w !! (l ++ [n]) = None ->
  resolve w follow (render (l ++ [n])) = Err enoent.
Proof.
  intros Hreal Hn Hnode. assert (valid_names (l ++ [n])) as Hv.
  { apply Forall_app; split; [apply Hreal|by repeat constructor]. }
  unfold resolve. change (is_empty _) with false. cbn match. rewrite os_names_render by done.
  change (walk_base (w_cwd w) (render (l ++ [n]))) with (@nil string).
  rewrite walk_real by done. simpl app. rewrite walk_step by done. by rewrite node_at_snoc, Hnode.
Qed.

(** Where an entry is created or replaced. *)
Lemma locate_render w l n :
  real_dir (w_fs w) l -> valid_name n = true -> locate_entry w (render (l ++ [n])) = Ok (l ++ [n]).
Proof.
  intros Hreal Hn. assert (valid_names (l ++ [n])) as Hv.
  { apply Forall_app; split; [apply Hreal|by repeat constructor]. }
  unfold locate_entry. rewrite os_names_render, rev_app_distr by done. simpl.
  apply valid_name_spec in Hn as (_ & H1 & H2 & _).
  rewrite (proj2 (String.eqb_neq n ".") H1), (proj2 (String.eqb_neq n "..") H2). simpl.
  change (walk_base (w_cwd w) (render (l ++ [n]))) with (@nil string). rewrite rev_involutive.
  rewrite walk_self by done.
  by destruct (real_dir_is_dir _ _ Hreal) as (len & t & ->).
Qed.

(** ** Changes outside the directories *)

(** Adding, replacing or removing an entry that is no directory leaves the
    real directories real. *)
Lemma real_dir_alter fs fs' l x :
  real_dir fs l -> ~ is_dir_at fs x -> (forall k, k <> x -> fs' !! k = fs !! k) -> real_dir fs' l.
Proof.
  intros [Hv Hd] Hx Hfs. split; [done|]. intros k m ->. destruct (Hd k m eq_refl) as (len & t & Hk).
  exists len, t. destruct k as [|a k]; [done|]. simpl in *. rewrite Hfs; [done|].
  intros <-. apply Hx. by exists len, t.
Qed.

(** ** Executions

    [wp I m w Q]: run from [w], [m] does not panic, [I] holds after every
    call and [Q] holds of the final world and answer. *)
Fixpoint wp {A} (I : world -> Prop) (m : IO A) (w : world) (Q : world -> A -> Prop) : Prop :=
  match m with
  | Ret a => Q w a
  | Panic _ => False
  | Sys c k => let '(w', r) := exec c w in I w' /\ wp I (k r) w' Q
  end.

Lemma wp_bind {A B} I (m : IO A) (f : A -> IO B) w P Q :
  wp I m w P -> (forall w' a, P w' a -> wp I (f a) w' Q) -> wp I (bind m f) w Q.
Proof.
  revert w. induction m as [a|s|R c k IH]; intros w Hm Hf; simpl in *; [auto|done|].
  destruct (exec c w) as [w' r]. destruct Hm as [? Hm]. split; [done|]. by apply IH.
Qed.

Lemma wp_call {A} {R : Set} I (c : syscall R) (k : R -> IO A) w w' r Q :
  exec c w = (w', r) -> I w' -> wp I (k r) w' Q -> wp I (Sys c k) w Q.
Proof. intros E HI Hk. simpl. by rewrite E. Qed.

Lemma wp_mono {A} (I J : world -> Prop) (m : IO A) w (P Q : world -> A -> Prop) :
  wp I m w P -> (forall w', I w' -> J w') -> (forall w' a, P w' a -> Q w' a) -> wp J m w Q.
Proof.
  revert w. induction m as [a|s|R c k IH]; intros w Hm HIJ HPQ; simpl in *; [auto|done|].
  destruct (exec c w) as [w' r]. destruct Hm. split; auto.
Qed.

Lemma wp_always {A} I (m : IO A) w Q : wp I m w Q -> always I m w.
Proof.
  revert w. induction m as [a|s|R c k IH]; intros w Hm; simpl in *; [done..|].
  destruct (exec c w) as [w' r]. destruct Hm; auto.
Qed.

Lemma wp_run {A} I (m : IO A) w Q :
  wp I m w Q -> exists w' a, run m w = (w', Done a) /\ Q w' a.
Proof.
  revert w. induction m as [a|s|R c k IH]; intros w Hm; simpl in *; [eauto|done|].
  destruct (exec c w) as [w' r]. destruct Hm; auto.
Qed.

(** ** What the calls answer on rendered locations *)

Lemma exec_canonicalize_dir w l :
  real_dir (w_fs w) l -> exec (Canonicalize (render l)) w = (w, Ok (render l)).
Proof. intros Hreal. simpl. unfold canonicalize. by rewrite resolve_dir. Qed.

Lemma exec_create_new w l n :
  real_dir (w_fs w) l -> valid_name n = true ->
  exec (CreateNew (render (l ++ [n]))) w =
  match w_fs w !! (l ++ [n]) with
  | Some _ => (w, Err eexist)
  | None => (set_fs (<[l ++ [n] := File "" (fresh_file w)]> (w_fs w)) w, Ok (render (l ++ [n])))
  end.
Proof. intros Hreal Hn. simpl. unfold create_new. by rewrite locate_render, node_at_snoc. Qed.

Lemma exec_write_all w l n c t bytes :
  real_dir (w_fs w) l -> valid_name n = true -> w_fs w !! (l ++ [n]) = Some (File c t) ->
  exec (WriteAll (render (l ++ [n])) bytes) w =
  (set_fs (<[l ++ [n] := File (c ++ bytes) (touched w t)]> (w_fs w)) w, Ok tt).
Proof.
  intros Hreal Hn Hnode. simpl. unfold write_all.
  rewrite (resolve_render _ _ _ _ _ Hreal Hn Hnode) by auto. by rewrite node_at_snoc, Hnode.
Qed.

(** Renaming a file over nothing, or over something that is no directory. *)
Lemma exec_rename_file w l n l' n' c t :
  real_dir (w_fs w) l -> real_dir (w_fs w) l' -> valid_name n = true -> valid_name n' = true ->
  l ++ [n] <> l' ++ [n'] -> w_fs w !! (l ++ [n]) = Some (File c t) ->
  ~ is_dir_at (w_fs w) (l' ++ [n']) ->
  exec (Rename (render (l ++ [n])) (render (l' ++ [n']))) w =
  (set_fs (<[l' ++ [n'] := File c t]> (delete (l ++ [n]) (w_fs w))) w, Ok tt).
Proof.
  intros Hl Hl' Hn Hn' Hne Hnode Hdir. simpl. unfold rename. rewrite !locate_render by done.
  unfold rename_at. rewrite node_at_snoc, Hnode. rewrite decide_False by done.
  destruct (node_at (w_fs w) (l' ++ [n'])) as [[]|] eqn:E; try done. destruct Hdir. by repeat eexists.
Qed.

Lemma exec_rename_onto_dir w l n l' n' c t :
  real_dir (w_fs w) l -> real_dir (w_fs w) l' -> valid_name n = true -> valid_name n' = true ->
  l ++ [n] <> l' ++ [n'] -> w_fs w !! (l ++ [n]) = Some (File c t) ->
  is_dir_at (w_fs w) (l' ++ [n']) ->
  exec (Rename (render (l ++ [n])) (render (l' ++ [n']))) w = (set_fs (w_fs w) w, Err eisdir).
Proof.
  intros Hl Hl' Hn Hn' Hne Hnode (k & u & Hdir). simpl. unfold rename. rewrite !locate_render by done.
  unfold rename_at. rewrite node_at_snoc, Hnode. rewrite decide_False by done. by rewrite Hdir.
Qed.

Lemma exec_remove_file w l n c t :
  real_dir (w_fs w) l -> valid_name n = true -> w_fs w !! (l ++ [n]) = Some (File c t) ->
  exec (RemoveFile (render (l ++ [n]))) w = (set_fs (delete (l ++ [n]) (w_fs w)) w, Ok tt).
Proof.
  intros Hl Hn Hnode. simpl. unfold remove_file. by rewrite locate_render, node_at_snoc, Hnode.
Qed.

Lemma set_fs_self w : set_fs (w_fs w) w = w.
Proof. by destruct w. Qed.

Lemma is_dir_at_dec fs l : is_dir_at fs l \/ ~ is_dir_at fs l.
Proof.
  unfold is_dir_at. destruct (node_at fs l) as [[]|] eqn:E; [right|left; eauto|right..]; by intros (? & ? & ?).
Qed.

(** An entry below a real directory is not on the way to it. *)
Lemma real_dir_insert fs l x v :
  real_dir fs l -> ~ is_dir_at fs x -> real_dir (<[x := v]> fs) l.
Proof. intros Hl Hx. apply (real_dir_alter fs _ l x); [done..|]. intros k Hk. by rewrite lookup_insert_ne. Qed.
Lemma real_dir_delete fs l x : real_dir fs l -> ~ is_dir_at fs x -> real_dir (delete x fs) l.
Proof. intros Hl Hx. apply (real_dir_alter fs _ l x); [done..|]. intros k Hk. by rewrite lookup_delete_ne. Qed.

Lemma file_not_dir fs l n c t : fs !! (l ++ [n]) = Some (File c t) -> ~ is_dir_at fs (l ++ [n]).
Proof. intros E (k & u & F). rewrite node_at_snoc in F. congruence. Qed.
Lemma missing_not_dir fs l n : fs !! (l ++ [n]) = None -> ~ is_dir_at fs (l ++ [n]).
Proof. intros E (k & u & F). rewrite node_at_snoc in F. congruence. Qed.

(** ** Deciding real directories *)

Fixpoint real_from (fs : fsys) (cur l : loc) : bool :=
  match l with
  | [] => true
  | n :: l' =>
      valid_name n &&
      match fs !! (cur ++ [n]) with Some (Dir _ _) => true | _ => false end &&
      real_from fs (cur ++ [n]) l'
  end.

Lemma real_dir_root fs : real_dir fs [].
Proof.
  split; [constructor|]. intros k m E. symmetry in E. apply app_nil in E as [-> _]. by exists 4096%N, no_attributes.
Qed.

Lemma real_from_ok fs l cur : real_dir fs cur -> real_from fs cur l = true -> real_dir fs (cur ++ l).
Proof.
  revert cur. induction l as [|n l IH]; intros cur Hcur Hl; [by rewrite app_nil_r|].
  simpl in Hl. split_bools. replace (cur ++ n :: l) with ((cur ++ [n]) ++ l) by (by rewrite <- app_assoc).
  apply IH; [|done]. apply real_dir_snoc; [done..|].
  destruct (fs !! (cur ++ [n])) as [[]|] eqn:E; try done. eexists _, _. rewrite node_at_snoc. exact E.
Qed.

Lemma real_dir_check fs l : real_from fs [] l = true -> real_dir fs l.
Proof. apply (real_from_ok fs l []), real_dir_root. Qed.

(** ** Calls on entries of a real directory *)

Section Entries.
Context (w : world) (dir : loc) (n : string).
Context (Hreal : real_dir (w_fs w) dir) (Hn : valid_name n = true).

Lemma exec_metadata_file c t follow :
  w_fs w !! (dir ++ [n])%list = Some (File c t) ->
  stat w follow (render (dir ++ [n])) = Ok (Metadata RegularFile (strlen c) t).
Proof.
  intros E. unfold stat. rewrite (resolve_render _ _ _ _ _ Hreal Hn E) by (by right).
  by rewrite node_at_snoc, E.
Qed.

Lemma exec_metadata_missing follow :
  w_fs w !! (dir ++ [n])%list = None -> stat w follow (render (dir ++ [n])) = Err enoent.
Proof. intros E. unfold stat. by rewrite (resolve_missing _ _ _ _ Hreal Hn E). Qed.

Lemma exec_read_file c t :
  w_fs w !! (dir ++ [n])%list = Some (File c t) ->
  read_file w (render (dir ++ [n])) = Ok c.
Proof.
  intros E. unfold read_file. rewrite (resolve_render _ _ _ _ _ Hreal Hn E) by (by right).
  by rewrite node_at_snoc, E.
Qed.
End Entries.

Section Directories.
Context (w : world) (dir : loc) (Hreal : real_dir (w_fs w) dir).

Lemma stat_dir follow : exists m, stat w follow (render dir) = Ok m /\ md_type m = Directory.
Proof.
  unfold stat. rewrite resolve_dir by done.
  destruct (real_dir_is_dir _ _ Hreal) as (len & t & ->). by eexists.
Qed.

Lemma open_read_dir : open_read w (render dir) = Ok (render dir).
Proof.
  unfold open_read. rewrite resolve_dir by done.
  by destruct (real_dir_is_dir _ _ Hreal) as (len & t & ->).
Qed.

Lemma read_dir_dir :
  read_dir w (render dir) = Ok (map (fun n => Ok (join (render dir) n)) (children (w_fs w) dir)).
Proof.
  unfold read_dir. rewrite resolve_dir by done.
  by destruct (real_dir_is_dir _ _ Hreal) as (len & t & ->).
Qed.
End Directories.

(** The names in a directory. *)
Lemma elem_of_children fs dir n : n ∈ children fs dir <-> is_Some (fs !! (dir ++ [n])).
Proof.
  unfold children. rewrite list_elem_of_omap. split.
  - intros ([l x] & Hin%elem_of_map_to_list & E). destruct (decide _) as [[Hr Hne]|]; [|done].
    destruct (exists_last Hne) as (k & m & ->). rewrite last_snoc in E. injection E as ->.
    rewrite removelast_last in Hr. subst. by exists x.
  - intros [x Hx]. exists (dir ++ [n], x). split; [by apply elem_of_map_to_list|].
    rewrite decide_True; [by rewrite last_snoc|]. rewrite removelast_last. split; [done|]. by destruct dir.
Qed.

Lemma children_NoDup fs dir : NoDup (children fs dir).
Proof.
  unfold children. pose proof (NoDup_fst_map_to_list fs) as Hn.
  induction (map_to_list fs) as [|[l x] k IH]; simpl; [constructor|].
  apply NoDup_cons in Hn as [Hl Hn]. specialize (IH Hn).
  destruct (decide _) as [[Hr Hne]|]; [|done]. destruct (exists_last Hne) as (d & m & ->).
  rewrite last_snoc. constructor; [|done]. intros ([l' x'] & Hin & E)%list_elem_of_omap.
  destruct (decide _) as [[Hr' Hne']|]; [|done]. destruct (exists_last Hne') as (d' & m' & ->).
  rewrite last_snoc in E. injection E as ->. rewrite removelast_last in *. subst.
  apply Hl. by apply (list_elem_of_fmap_2 fst) in Hin.
Qed.

(** ** Programs that leave the world as it is

    Reads, clocks and commands (a command of a world only answers). *)
Definition quiet {R} (c : syscall R) : bool :=
  observes c || match c with RunCommand _ _ _ => true | _ => false end.
Definition still {A} (m : IO A) : Prop := calls (fun R c => quiet c = true) m.

Lemma quiet_world {R : Set} (c : syscall R) w : quiet c = true -> fst (exec c w) = w.
Proof. by destruct c. Qed.

Lemma wp_still {A} I (m : IO A) w a Q :
  still m -> eval m w = Done a -> I w -> Q w a -> wp I m w Q.
Proof.
  intros Hs He HI HQ. induction m as [b|s|R c k IH]; unfold eval in *; simpl in *; [by injection He as ->|done|].
  destruct Hs as [Hc Hk]. pose proof (quiet_world c w Hc) as Hw. destruct (exec c w) as [w' r] eqn:E. simpl in Hw. subst.
  split; [done|]. apply IH; [apply Hk|done].
Qed.

Lemma read_only_still {A} (m : IO A) : read_only m -> still m.
Proof. apply calls_mono. intros R c Hc. unfold quiet. by rewrite Hc. Qed.

(** Sequencing rules for the forms programs take. *)
Lemma wp_sys {A} {R : Set} I (c : syscall R) (f : R -> IO A) w w' r Q :
  exec c w = (w', r) -> I w' -> wp I (f r) w' Q -> wp I (bind (sys c) f) w Q.
Proof. intros E HI Hf. simpl. by rewrite E. Qed.

Lemma wp_try {A B E} I (m : IO (result A E)) (f : A -> IO (result B E)) w Q :
  wp I m w (fun w' r => match r with Ok a => wp I (f a) w' Q | Err e => Q w' (Err e) end) ->
  wp I (try_bind m f) w Q.
Proof. intros Hm. unfold try_bind. eapply wp_bind; [exact Hm|]. by intros w' [a|e]. Qed.

Lemma wp_map_err {A E F} I (g : E -> F) (m : IO (result A E)) w Q :
  wp I m w (fun w' r => Q w' (map_err g r)) -> wp I (io_map_err g m) w Q.
Proof. intros Hm. unfold io_map_err. eapply wp_bind; [exact Hm|]. by intros. Qed.

(** ** Programs with a known answer that leave the world as it is *)
Definition reads {A} (m : IO A) (w : world) (a : A) : Prop :=
  forall (I : world -> Prop) (Q : world -> A -> Prop), I w -> Q w a -> wp I m w Q.

Lemma reads_ret {A} w (a : A) : reads (Ret a) w a.
Proof. by intros I Q _ HQ. Qed.

Lemma reads_bind {A B} (m : IO A) (f : A -> IO B) w a b :
  reads m w a -> reads (f a) w b -> reads (bind m f) w b.
Proof.
  intros Hm Hf I Q HI HQ. eapply wp_bind; [apply (Hm I (fun w' a' => w' = w /\ a' = a)); done|].
  intros ? ? [-> ->]. by apply Hf.
Qed.

Lemma reads_sys {A} {R : Set} (c : syscall R) (f : R -> IO A) w r a :
  exec c w = (w, r) -> reads (f r) w a -> reads (bind (sys c) f) w a.
Proof. intros E Hf I Q HI HQ. eapply wp_sys; [exact E|done|]. by apply Hf. Qed.

Lemma reads_try {A B E} (m : IO (result A E)) (f : A -> IO (result B E)) w a b :
  reads m w (Ok a) -> reads (f a) w b -> reads (try_bind m f) w b.
Proof. intros Hm Hf. unfold try_bind. by eapply reads_bind. Qed.

Lemma reads_map_err {A E F} (g : E -> F) (m : IO (result A E)) w a :
  reads m w (Ok a) -> reads (io_map_err g m) w (Ok a).
Proof. intros Hm. unfold io_map_err. eapply reads_bind; [exact Hm|apply reads_ret]. Qed.

Lemma wp_reads {A B} I (m : IO A) (f : A -> IO B) w a Q :
  reads m w a -> I w -> wp I (f a) w Q -> wp I (bind m f) w Q.
Proof.
  intros Hm HI Hf. eapply wp_bind; [apply (Hm I (fun w' a' => w' = w /\ a' = a)); done|].
  by intros ? ? [-> ->].
Qed.

Lemma wp_reads_try {A B E} I (m : IO (result A E)) (f : A -> IO (result B E)) w a Q :
  reads m w (Ok a) -> I w -> wp I (f a) w Q -> wp I (try_bind m f) w Q.
Proof. intros Hm HI Hf. unfold try_bind. by eapply wp_reads. Qed.
