(* ===== verification/ProcessFacts.v ===== *)
(** * The process runner: its theorems

    What the bounded capture retains, how long a run takes and how it ends,
    and what a reported success means. *)

From stdpp Require Import base list strings gmap sets.
From Stdlib Require Import NArith Ascii String Lia.
From S2P Require Import Prelude Bytes IO World Anyhow WorldFacts ProcessRunner.

Local Open Scope string_scope.
Local Open Scope N_scope.

(** ** The bounded capture *)

Lemma drop_bytes_beyond n s : (String.length s <= n)%nat -> drop_bytes n s = "".
Proof. revert s. induction n as [|n IH]; intros [|c s] Hn; simpl in *; [done|lia|done|]. apply IH. lia. Qed.

Lemma drop_bytes_append n a b : drop_bytes n (a ++ b) = drop_bytes n a ++ drop_bytes (n - String.length a) b.
Proof.
  revert a. induction n as [|n IH]; intros [|c a]; try done.
  rewrite append_cons. cbn [drop_bytes String.length Nat.sub]. apply IH.
Qed.

Lemma drop_bytes_drop n m s : drop_bytes n (drop_bytes m s) = drop_bytes (m + n) s.
Proof. revert s. induction m as [|m IH]; intros [|c s]; simpl; [done..|by destruct n|apply IH]. Qed.

(** The last [limit] bytes. *)
Definition last_bytes (limit : N) (s : string) : string := drop_bytes (N.to_nat (strlen s - limit)) s.

Lemma strlen_last_bytes limit s : strlen (last_bytes limit s) = N.min limit (strlen s).
Proof. unfold last_bytes, strlen. rewrite length_drop_bytes. lia. Qed.

(** The state of a capture after the bytes [s]. *)
Definition holds (limit : N) (s : string) (tail : BoundedTail) : Prop :=
  bt_limit tail = limit /\ bt_bytes tail = last_bytes limit s /\ bt_total_bytes tail = N.min u64_max (strlen s).

Lemma push_holds limit s chunk tail :
  limit + strlen chunk <= u64_max -> holds limit s tail -> holds limit (s ++ chunk) (push tail chunk).
Proof.
  intros Hmax (Hl & Hb & Ht). unfold push, holds. rewrite Hl, Hb, Ht. pose proof (strlen_app s chunk) as Happ.
  assert (Htotal : saturating_add64 (N.min u64_max (strlen s)) (strlen chunk) = N.min u64_max (strlen (s ++ chunk))).
  { rewrite Happ. unfold saturating_add64. lia. }
  destruct (N.leb_spec limit (strlen chunk)) as [Hle|Hlt]; cbn [bt_limit bt_bytes bt_total_bytes].
  - split_and!; [done| |done]. unfold last_bytes. rewrite Happ, drop_bytes_append.
    rewrite (drop_bytes_beyond _ s) by (unfold strlen in *; lia). rewrite append_nil. f_equal. unfold strlen. lia.
  - split_and!; [done| |done]. pose proof (strlen_last_bytes limit s) as Hlen.
    unfold saturating_add64. rewrite Hlen, N.min_r by lia.
    unfold last_bytes at 3. rewrite Happ, drop_bytes_append. f_equal.
    + destruct (N.ltb_spec 0 (N.min limit (strlen s) + strlen chunk - limit)) as [H0|H0].
      * unfold last_bytes. rewrite drop_bytes_drop. f_equal. lia.
      * unfold last_bytes. f_equal. lia.
    + replace (_ - String.length s)%nat with 0%nat by (unfold strlen in *; lia). done.
Qed.

Lemma drain_holds limit chunks : forall s tail,
  Forall (fun c => limit + strlen c <= u64_max) chunks -> holds limit s tail ->
  holds limit (s ++ String.concat "" chunks) (drain_reader chunks tail).
Proof.
  induction chunks as [|c chunks IH]; intros s tail Hc Ht.
  - cbn. by rewrite append_empty.
  - inversion Hc; subst. rewrite concat_cons, <- append_assoc.
    apply (IH (s ++ c) (push tail c)); [done|]. by apply push_holds.
Qed.

(** C32: whatever chunks a stream arrives in, the capture retains exactly the
    last [limit] bytes of their concatenation, counts all of them (up to the
    largest u64), and says that it truncated exactly when it dropped some. *)
Theorem capture_keeps_the_tail limit chunks
    (Hc : Forall (fun c => limit + strlen c <= u64_max) chunks) :
  let s := String.concat "" chunks in
  let captured := snapshot (drain_reader chunks (BoundedTail_new limit)) in
  cs_bytes captured = last_bytes limit s
  /\ strlen (cs_bytes captured) = N.min limit (strlen s)
  /\ cs_total_bytes captured = N.min u64_max (strlen s)
  /\ (strlen s <= u64_max -> cs_truncated captured = (limit <? strlen s)).
Proof.
  cbv zeta. destruct (drain_holds limit chunks "" (BoundedTail_new limit) Hc) as (_ & Hb & Ht); [done|].
  rewrite append_nil in Hb, Ht. unfold snapshot. cbn [cs_bytes cs_total_bytes cs_truncated].
  rewrite Hb, Ht, strlen_last_bytes. split_and!; [done..|]. intros Hs.
  apply eq_iff_eq_true. rewrite !N.ltb_lt. lia.
Qed.

Lemma capture_keeps_the_tail_witness :
  cs_bytes (snapshot (drain_reader ["BUILD"; " "; "FAILED"] (BoundedTail_new 8))) = "D FAILED".
Proof.
  assert (Hc : Forall (fun c => 8 + strlen c <= u64_max) ["BUILD"; " "; "FAILED"])
    by (repeat constructor; vm_compute; discriminate).
  destruct (capture_keeps_the_tail 8 ["BUILD"; " "; "FAILED"] Hc) as (E & _). exact E.
Defined.

(** ** What a reported success means *)

(** How the polling of a child can end: with the status it was answered, or
    with a reason to stop it. *)
Definition polled_ok {An : Answers} (child : N) (r : option exit_status * option ProcessStatus) : Prop :=
  match r with
  | (Some status, None) => answers (TryWait child) (Ok (Some status))
  | (None, Some reason) => reason = Cancelled \/ reason = TimedOut
  | _ => False
  end.

Lemma poll_child_must {An : Answers} fuel request cancellation child started_at :
  must (poll_child fuel request cancellation child started_at) (ok_post (polled_ok child)).
Proof.
  induction fuel as [|fuel IH]; cbn [poll_child]; [done|].
  eapply must_try_ok with (P := fun polled => answers (TryWait child) (Ok polled)).
  { intros [p|e] Ha; simpl; [exact Ha|done]. }
  intros [status|] Ha; [exact Ha|].
  apply must_bind with (P := fun _ => True); [by apply must_true|]. intros [] _; [by left|].
  intros now _. cbn [bind]. destruct (_ <=? _); [by right|]. intros now' _ u _. exact IH.
Qed.

Lemma stop_child_must {An : Answers} child attached :
  must (stop_child child attached) (ok_post (fun p => t_attempted p.2 = true)).
Proof.
  intros terminated _. cbn [bind]. apply must_bind with (P := fun _ => True); [by apply must_true|].
  intros e _ [s|x] _; done.
Qed.

Definition captured {An : Answers} (child : N) (stream : string) (limit : N) (text : string) (bytes : N) : Prop :=
  exists d, answers (DrainStream child stream OUTPUT_DRAIN_TIMEOUT) d /\ dr_end d = Drained /\ dr_panicked d = false
  /\ text = to_string_lossy (bt_bytes (drain_reader (dr_chunks d) (BoundedTail_new limit)))
  /\ bytes = bt_total_bytes (drain_reader (dr_chunks d) (BoundedTail_new limit)).

Lemma finish_capture_must {An : Answers} child stream limit :
  must (finish_capture child stream limit) (fun f => fc_error f = None ->
    captured child stream limit (to_string_lossy (cs_bytes (fc_snapshot f))) (cs_total_bytes (fc_snapshot f))).
Proof.
  intros d Hd. cbn [fc_error fc_snapshot]. unfold capture_error. intros He. exists d.
  destruct (dr_end d), (dr_panicked d); done.
Qed.

(** What a successful result was made from. *)
Definition succeeded {An : Answers} (request : ProcessRequest) (r : ProcessResult) : Prop :=
  success r = true ->
  pr_exit_code r = Some 0 /\ t_attempted (pr_termination r) = false /\ os_capture_errors (pr_output r) = []
  /\ exists child,
       pr_process_id r = Some child
       /\ answers (Spawn (pq_program request) (pq_args request) (pq_working_directory request) (pq_environment request)) (Ok child)
       /\ answers (TryWait child) (Ok (Some (Some 0)))
       /\ captured child "stdout" (pq_output_limit_bytes request) (pr_stdout r) (os_stdout_bytes (pr_output r))
       /\ captured child "stderr" (pq_output_limit_bytes request) (pr_stderr r) (os_stderr_bytes (pr_output r)).

Lemma process_result_success request child requested final_exit out err duration t :
  success (process_result request child requested final_exit out err duration t) = true ->
  (requested = Some Success \/ requested = None /\ final_exit = Some (Some 0)) /\ fc_error out = None /\ fc_error err = None.
Proof.
  unfold success, process_result, status_from_exit, exit_success. cbn [pr_status]. intros Hs%bool_decide_eq_true.
  destruct (fc_error out), (fc_error err);
    try (cbn [option_list app] in Hs; rewrite andb_true_r in Hs; exfalso;
         match type of Hs with (if ?b then _ else _) = _ => destruct b eqn:E; [done|by apply bool_decide_eq_false in E] end).
  cbn in Hs. rewrite andb_false_r in Hs. split_and!; [|done..].
  destruct requested; [by left; f_equal|right]. split; [done|].
  destruct final_exit as [status|]; cbn in Hs; [|done]. f_equal. by case_bool_decide.
Qed.

Lemma supervise_must {An : Answers} request cancellation child started_at :
  answers (Spawn (pq_program request) (pq_args request) (pq_working_directory request) (pq_environment request)) (Ok child) ->
  must (supervise request cancellation child started_at) (ok_post (succeeded request)).
Proof.
  intros Hspawn. unfold supervise, attach, ProcessTree_assign. cbn -[must poll_child stop_child finish_capture].
  eapply must_try_ok; [apply poll_child_must|]. intros [exit_status requested] Hpolled.
  eapply must_try_ok with (P := fun p => requested = None -> p = (exit_status, not_terminated (strategy_of true))).
  { destruct requested; [|done]. eapply must_try_ok; [apply stop_child_must|]. by intros [] _. }
  intros [final_exit t] Ht. eapply must_bind; [apply finish_capture_must|]. intros out Hout.
  eapply must_bind; [apply finish_capture_must|]. intros err Herr now _. cbn [bind must ok_post]. intros Hs.
  apply process_result_success in Hs as Hs'. destruct Hs' as ([->|[-> ->]] & Hoe & Hee).
  { destruct exit_status; [done|]. by destruct Hpolled. }
  injection (Ht eq_refl) as <- ->. unfold process_result.
  cbn [pr_exit_code pr_termination pr_output os_capture_errors pr_process_id os_stdout_bytes os_stderr_bytes pr_stdout pr_stderr].
  rewrite Hoe, Hee. split_and!; [done..|]. exists child. split_and!; [done|done|done|by apply Hout|by apply Herr].
Qed.

(** A process is reported as successful only when it is: whatever the
    system answers, the child was spawned from the program, arguments,
    directory and environment of the request, it exited by itself with code
    0, and both of its streams were read to their end; the texts returned are
    the bounded captures of what was read. *)
Theorem success_means_success {An : Answers} `{SecondsDisplay} request cancellation :
  must (run_process_with_cancellation request cancellation) (ok_post (succeeded request)).
Proof.
  apply must_ret_try. intros [] _. intros now _. cbn [bind].
  apply must_bind with (P := fun _ => True); [by apply must_true|]. intros [] _; [by intros later _ [=]|].
  cbn [build_command]. eapply must_try_ok with (P := fun child => answers (Spawn _ _ _ _) (Ok child)).
  { intros [child|e] Ha; [exact Ha|done]. }
  intros child Hc. by apply supervise_must.
Qed.

(** ** How long a run takes *)

(** No token is set that could cancel the run. *)
Definition not_cancelled (cancellation : option string) (w : world) : Prop :=
  match cancellation with Some token => token ∉ pr_flags (w_processes w) | None => True end.

(** When a child exits by itself within a time, and how. *)
Definition exits_within (s : script) (limit : N) : option (N * exit_status) :=
  match sc_exit s with
  | Some (after, status) => if after <=? limit then Some (after, status) else None
  | None => None
  end.

Lemma exited_running w s started :
  match exited w (Child s started false) with
  | Some status => exists after, sc_exit s = Some (after, status) /\ started + after <= w_instant w
  | None => forall after status, sc_exit s = Some (after, status) -> w_instant w < started + after
  end.
Proof.
  unfold exited. cbn. destruct (sc_exit s) as [[after status]|]; [|done].
  destruct (N.leb_spec (started + after) (w_instant w)); [by exists after|]. by intros ?? [= -> ->].
Qed.

Lemma run_cancellation cancellation w :
  not_cancelled cancellation w -> run (cancellation_requested cancellation) w = (w, Done false).
Proof. destruct cancellation as [token|]; [|done]. intros Hn. cbn. by rewrite bool_decide_eq_false_2. Qed.

Section Polling.
Context (request : ProcessRequest) (cancellation : option string) (child : N) (s : script) (started : N).

Abbreviation limit := (pq_timeout request).

(** The child, as it runs in [w]. *)
Definition running (w : world) : Prop :=
  pr_children (w_processes w) !! child = Some (Child s started false)
  /\ not_cancelled cancellation w /\ started <= w_instant w <= started + limit
  /\ (forall after status, sc_exit s = Some (after, status) -> w_instant w < started + after + PROCESS_POLL_INTERVAL).

(** How the polling of a running child ends. *)
Definition polled (w w' : world) (r : option exit_status * option ProcessStatus) : Prop :=
  w_fs w' = w_fs w /\ w_processes w' = w_processes w
  /\ match exits_within s limit with
     | Some (after, status) => r = (Some status, None)
         /\ started + after <= w_instant w' <= started + limit /\ w_instant w' < started + after + PROCESS_POLL_INTERVAL
     | None => r = (None, Some TimedOut) /\ w_instant w' = started + limit
     end.

Lemma polled_exit w status : running w -> exited w (Child s started false) = Some status -> polled w w (Some status, None).
Proof.
  intros (_ & _ & Hi & Hlate) Hex. pose proof (exited_running w s started) as E. rewrite Hex in E. destruct E as (after & Es & Ha).
  specialize (Hlate _ _ Es). split_and!; [done..|]. unfold exits_within. rewrite Es, (proj2 (N.leb_le _ _)) by lia.
  split_and!; [done|lia..].
Qed.

Lemma polled_timeout w :
  running w -> exited w (Child s started false) = None -> limit <= w_instant w - started -> polled w w (None, Some TimedOut).
Proof.
  intros (_ & _ & Hi & _) Hex Hl. pose proof (exited_running w s started) as E. rewrite Hex in E.
  split_and!; [done..|]. unfold exits_within. destruct (sc_exit s) as [[after status]|].
  - specialize (E _ _ eq_refl). rewrite (proj2 (N.leb_gt _ _)) by lia. split; [done|lia].
  - split; [done|lia].
Qed.

(** The world after a round's sleep. *)
Definition slept (w : world) : world :=
  advance_time (N.min PROCESS_POLL_INTERVAL (limit - (w_instant w - started))) w.

Lemma running_slept w : running w -> exited w (Child s started false) = None -> running (slept w).
Proof.
  intros (Hc & Hn & Hi & Hlate) Hex. pose proof (exited_running w s started) as E. rewrite Hex in E.
  split_and!; [done|done|simpl; lia..|]. intros after status Es. specialize (E _ _ Es). simpl. lia.
Qed.

Lemma poll_run fuel w :
  running w -> started + limit <= w_instant w + N.of_nat fuel * PROCESS_POLL_INTERVAL ->
  exists w' r, run (poll_child (S fuel) request cancellation child started) w = (w', Done (Ok r)) /\ polled w w' r.
Proof.
  revert w. induction fuel as [|fuel IH]; intros w Hr Hf;
    cbn [poll_child]; unfold try_bind, io_context, io_call, io_map_err;
    cbn [sys bind run exec]; rewrite (proj1 Hr); cbn [map_err bind run].
  all: destruct (exited w _) as [status|] eqn:Hex; cbn [bind run]; [exists w, (Some status, None); by split; [|apply polled_exit]|].
  all: rewrite run_bind, run_cancellation by apply Hr; cbn [bind run exec sys].
  all: destruct (N.leb_spec limit (w_instant w - started)) as [Hl|Hl]; cbn [run];
    [exists w, (None, Some TimedOut); by split; [|apply polled_timeout]|].
  - exfalso. destruct Hr as (_ & _ & Hi & _). lia.
  - cbn [exec bind]. destruct (IH (slept w)) as (w' & r & E & Hp).
    + by apply running_slept.
    + destruct Hr as (_ & _ & Hi & _). unfold slept, PROCESS_POLL_INTERVAL in *. simpl. lia.
    + exists w', r. split; [exact E|exact Hp].
Qed.
End Polling.

(** The streams of a child that were read to their end. *)
Definition drained (d : drain) : Prop := dr_end d = Drained /\ dr_panicked d = false.

(** How long the readers of a child are waited for after its end. *)
Definition drains (s : script) : N :=
  drain_time (sc_stdout s) (sc_stdout_wait s) OUTPUT_DRAIN_TIMEOUT + drain_time (sc_stderr s) (sc_stderr_wait s) OUTPUT_DRAIN_TIMEOUT.

Lemma drain_time_le d wait limit : drain_time d wait limit <= limit.
Proof. unfold drain_time. destruct (dr_end d); lia. Qed.

Lemma drains_le s : drains s <= 2 * OUTPUT_DRAIN_TIMEOUT.
Proof.
  unfold drains. pose proof (drain_time_le (sc_stdout s) (sc_stdout_wait s) OUTPUT_DRAIN_TIMEOUT).
  pose proof (drain_time_le (sc_stderr s) (sc_stderr_wait s) OUTPUT_DRAIN_TIMEOUT). lia.
Qed.

(** How a supervised run ends. *)
Definition run_ends (request : ProcessRequest) (s : script) (r : ProcessResult) : Prop :=
  pr_duration r <= pq_timeout request + 2 * OUTPUT_DRAIN_TIMEOUT
  /\ match exits_within s (pq_timeout request) with
  | Some (after, status) =>
      pr_exit_code r = status /\ t_attempted (pr_termination r) = false
      /\ after + drains s <= pr_duration r < after + PROCESS_POLL_INTERVAL + drains s
      /\ (success r = true <-> status = Some 0 /\ drained (sc_stdout s) /\ drained (sc_stderr s))
  | None =>
      pr_status r = TimedOut /\ pr_exit_code r = None /\ pr_duration r = pq_timeout request + drains s
      /\ t_attempted (pr_termination r) = true /\ t_succeeded (pr_termination r) = true
  end.

Lemma capture_error_none stream d : capture_error stream d = None <-> drained d.
Proof. unfold capture_error, drained. destruct (dr_end d), (dr_panicked d); naive_solver. Qed.

Lemma result_success request child status out err duration t :
  success (process_result request child None (Some status) out err duration t) = true
  <-> status = Some 0 /\ fc_error out = None /\ fc_error err = None.
Proof.
  split; [by intros ([?|[_ [=]]] & ? & ?)%process_result_success|].
  intros (-> & Ho & He). unfold process_result, success. cbn [pr_status]. rewrite Ho, He. reflexivity.
Qed.

Definition killed (c : World.child) : World.child := Child (ch_script c) (ch_started c) true.

Lemma stop_child_run child c status attached w :
  pr_children (w_processes w) !! child = Some c -> exited w (killed c) = Some status ->
  exists w', run (stop_child child attached) w = (w', Done (Ok (status,
      {| t_attempted := true; t_succeeded := true; t_strategy := strategy_of attached; t_error := None |})))
  /\ w_fs w' = w_fs w /\ w_instant w' = w_instant w /\ pr_children (w_processes w') !! child = Some (killed c).
Proof.
  intros Hc Hex. unfold stop_child, ProcessTree_terminate, try_bind, io_context, io_call, io_map_err.
  cbn [sys bind run exec]. unfold kill_child. rewrite Hc. fold (killed c). set (w1 := set_processes _ w).
  assert (H1 : pr_children (w_processes w1) !! child = Some (killed c)) by (unfold w1; cbn; by rewrite lookup_insert_eq).
  cbn [run bind exec]. unfold wait_child. rewrite H1. change (exited w1 (killed c)) with (exited w (killed c)). rewrite Hex.
  cbn [run bind map_err]. by exists w1.
Qed.

(** The capture of a stream of a script *)
Definition captured_of (s : script) (stream : string) (limit : N) : FinishedCapture :=
  let d := fst (script_stream s stream) in
  {| fc_snapshot := snapshot (drain_reader (dr_chunks d) (BoundedTail_new limit)); fc_error := capture_error stream d |}.

Definition stream_time (s : script) (stream : string) : N :=
  let '(d, wait) := script_stream s stream in drain_time d wait OUTPUT_DRAIN_TIMEOUT.

Lemma finish_capture_run child c stream limit w :
  pr_children (w_processes w) !! child = Some c ->
  run (finish_capture child stream limit) w
  = (advance_time (stream_time (ch_script c) stream) w, Done (captured_of (ch_script c) stream limit)).
Proof.
  intros Hc. unfold finish_capture, captured_of, stream_time. cbn [sys bind run exec]. unfold drain_stream. rewrite Hc.
  by destruct (script_stream (ch_script c) stream).
Qed.

Lemma finish_captures_run {A} child c limit w (k : FinishedCapture -> FinishedCapture -> N -> IO A) :
  pr_children (w_processes w) !! child = Some c ->
  exists w', run (out <- finish_capture child "stdout" limit ;; err <- finish_capture child "stderr" limit ;;
                  now <- sys InstantNow ;; k out err now) w
    = run (k (captured_of (ch_script c) "stdout" limit) (captured_of (ch_script c) "stderr" limit) (w_instant w + drains (ch_script c))) w'
  /\ w_fs w' = w_fs w.
Proof.
  intros Hc. rewrite run_bind, (finish_capture_run _ _ _ _ _ Hc), run_bind, (finish_capture_run _ c) by exact Hc.
  set (w' := advance_time _ (advance_time _ w)). exists w'. cbn [sys bind run exec]. split; [|done].
  replace (w_instant w') with (w_instant w + drains (ch_script c)); [done|]. unfold w', drains. simpl. unfold stream_time. simpl. lia.
Qed.

Lemma supervise_run request cancellation child s w :
  running request cancellation child s (w_instant w) w ->
  exists w' r, run (supervise request cancellation child (w_instant w)) w = (w', Done (Ok r))
  /\ w_fs w' = w_fs w /\ run_ends request s r.
Proof.
  intros Hr. unfold supervise, attach, ProcessTree_assign. cbn -[run poll_child stop_child finish_capture process_result].
  destruct (poll_run request cancellation child s (w_instant w) (S (N.to_nat (pq_timeout request / PROCESS_POLL_INTERVAL))) w Hr)
    as (w1 & [st reason] & E & Hfs & Hpr & Hp).
  { pose proof (N.mul_succ_div_gt (pq_timeout request) PROCESS_POLL_INTERVAL ltac:(done)). unfold PROCESS_POLL_INTERVAL in *. lia. }
  unfold try_bind at 1. rewrite run_bind. unfold poll_rounds. rewrite E. clear E. unfold run_ends.
  assert (Hchild : pr_children (w_processes w1) !! child = Some (Child s (w_instant w) false)) by (rewrite Hpr; apply Hr).
  destruct (exits_within s (pq_timeout request)) as [[after status]|] eqn:Es.
  - destruct Hp as [[= -> ->] Ht]. pose proof (drains_le s) as Hd.
    destruct (finish_captures_run child _ (pq_output_limit_bytes request) w1 (fun out err now => Ret (Ok (E := anyhow) (process_result request child
      None (Some status) out err (now - w_instant w) (not_terminated (strategy_of true))))) Hchild) as (w2 & E & Hfs2).
    eexists w2, _. split; [etransitivity; [exact E|reflexivity]|]. split; [congruence|].
    rewrite result_success. unfold captured_of. cbn -[capture_error drain_reader drains]. rewrite !capture_error_none.
    split_and!; try done; lia.
  - destruct Hp as [[= -> ->] Ht].
    assert (Hex : exited w1 (Child s (w_instant w) true) = Some None).
    { unfold exited. cbn. unfold exits_within in Es. destruct (sc_exit s) as [[after status]|]; [|done].
      destruct (N.leb_spec after (pq_timeout request)); [done|]. by rewrite (proj2 (N.leb_gt _ _)) by lia. }
    destruct (stop_child_run child _ None true w1 Hchild Hex) as (w2 & E & Hfs2 & Hi & Hc2).
    pose proof (drains_le s) as Hd. cbn -[process_result finish_capture stop_child run]. unfold try_bind. rewrite !run_bind, E.
    pose (stopped := {| t_attempted := true; t_succeeded := true; t_strategy := strategy_of true; t_error := None |}).
    destruct (finish_captures_run child _ (pq_output_limit_bytes request) w2 (fun out err now => Ret (Ok (E := anyhow) (process_result request child
        (Some TimedOut) (Some None) out err (now - w_instant w) stopped))) Hc2) as (w3 & E3 & Hfs3).
    eexists w3, _. split; [etransitivity; [exact E3|reflexivity]|]. split; [congruence|].
    unfold process_result. cbn -[drains]. split_and!; [lia|by rewrite bool_decide_eq_false_2|done|lia|done|done].
Qed.

(** C31: A run whose child can be started and whose cancellation token is not
    set ends, at most four seconds after the time limit of the request: the
    polling loop never runs out of its rounds, and each of the two readers is
    waited for at most two seconds.  A child that exits within the limit is
    noticed less than 20 ms later and reported, once its readers were waited
    for, with its exit code, as a success exactly when the code is 0 and both
    streams were read to their end; one that does not is killed once the
    limit is reached and reported as timed out.  The files are untouched by
    the runner itself.  Time passes while the runner sleeps or waits for a
    reader; starting, killing and reaping a child are instantaneous. *)
Theorem run_process_ends `{SecondsDisplay} request cancellation w s
    (Hv : validate_request request = Ok tt) (Hn : not_cancelled cancellation w)
    (Hs : pr_script (w_processes w) (pq_program request) (pq_args request) (pq_working_directory request)
            (pq_environment request) = Ok s) :
  exists w' r, run (run_process_with_cancellation request cancellation) w = (w', Done (Ok r))
  /\ w_fs w' = w_fs w /\ run_ends request s r.
Proof.
  unfold run_process_with_cancellation. rewrite Hv. cbn [try_bind bind sys run exec]. rewrite run_bind, run_cancellation by done.
  unfold try_bind, io_context, io_call, io_map_err. cbn [build_command bind sys run exec]. unfold spawn. rewrite Hs.
  set (id := fresh (dom (pr_children (w_processes w)))). set (w1 := set_processes _ w). cbn [map_err bind run].
  change (w_instant w) with (w_instant w1). change (w_fs w) with (w_fs w1). apply supervise_run.
  split_and!; [unfold w1; cbn; by rewrite lookup_insert_eq|done|lia..|]. intros. unfold PROCESS_POLL_INTERVAL. lia.
Qed.

(** A world in which every program sleeps for five seconds. *)
Definition demo_seconds : SecondsDisplay := fun nanos => dec (nanos / 1000000000).
Definition sleepy_script : script :=
  Script (Some (seconds 5, Some 0)) (Drain ["awake"] Drained false) (Drain [] Drained false) (seconds 1) 0.
Definition sleepy_world : world :=
  World ∅ [] 0 0 [] 1 0 ∅ ∅ 0 ∅ (Processes ∅ ∅ (fun _ _ _ _ => Ok sleepy_script)) (fun _ _ _ _ => Err enoent).

Lemma run_process_ends_witness :
  exists w' r, run (run_process_with_cancellation (H := demo_seconds) (ProcessRequest_new "sleep" "/") None) sleepy_world
    = (w', Done (Ok r)) /\ w_fs w' = ∅ /\ pr_exit_code r = Some 0 /\ success r = true /\ 6000000000 <= pr_duration r < 6020000000.
Proof.
  destruct (run_process_ends (H := demo_seconds) (ProcessRequest_new "sleep" "/") None sleepy_world sleepy_script)
    as (w' & r & E & Hfs & Hr); [reflexivity|exact I|reflexivity|].
  exists w', r. destruct Hr as (_ & Hc & _ & Hd & Hs). split_and!; [exact E|exact Hfs|exact Hc| |apply Hd|apply Hd].
  apply Hs. split; [reflexivity|]. split; split; reflexivity.
Defined.
