(* ===== verification/Publication.v ===== *)
(** * Atomic publication on the file system

    [atomic_create] (AuditLog.v) executed on a world: at every moment of its
    run, a crash included, the final path holds what it held before or the
    whole new content. *)

From stdpp Require Import base list strings gmap.
From Stdlib Require Import NArith Ascii String Lia.
From S2P Require Import Prelude Bytes UnixPath IO World Model Paths AuditLog Observers Trace AuditFacts WorldFacts.

Local Open Scope string_scope.
Local Open Scope N_scope.

(** ** Temporary names *)

Lemma id_byte_not_slash c : is_id_byte c = true -> Ascii.eqb slash c = false.
Proof. intros Hc. destruct (Ascii.eqb_spec slash c) as [<-|]; [|done]. by vm_compute in Hc. Qed.

Lemma id_bytes_no_slash s : all_bytes is_id_byte s = true -> any_byte (Ascii.eqb slash) s = false.
Proof.
  induction s as [|c s IH]; cbn [any_byte all_bytes]; [done|]. intros Hs. split_bools.
  by rewrite id_byte_not_slash, IH.
Qed.

Lemma format_id_bytes millis pid counter random :
  millis <= u64_max -> pid <= u32_max ->
  all_bytes is_id_byte (format_storage_id millis pid counter random) = true.
Proof.
  intros Hm Hp. unfold format_storage_id, hex16, u64_max, u32_max in *.
  rewrite !dec_pad_digits by (simpl; lia).
  by rewrite !all_bytes_app, !digits_id_bytes, hex_id_bytes by lia.
Qed.

Definition temp_name (id : string) : string := "." ++ id ++ ".tmp".

Lemma temp_name_valid id : all_bytes is_id_byte id = true -> valid_name (temp_name id) = true.
Proof.
  intros Hid. unfold valid_name, skipped, temp_name.
  rewrite !any_byte_app, (id_bytes_no_slash id Hid).
  assert (forall s, (String.length s < 3)%nat -> ("." ++ id ++ ".tmp" =?s s) = false) as Hs.
  { intros s Hs. apply String.eqb_neq. intros E. apply (f_equal String.length) in E.
    rewrite !length_append in E. simpl in E. lia. }
  by rewrite !Hs by (simpl; lia).
Qed.

(** ** Names of identifiers *)

(** The random source answers, with [n] bytes. *)
Definition random_ready (w : world) (random : string) : Prop := head (w_entropy w) = Some (Ok random).

Lemma format_id_length millis pid counter random :
  millis <= u64_max -> pid <= u32_max ->
  strlen (format_storage_id millis pid counter random) = 49 + 2 * strlen random.
Proof.
  intros Hm Hp. unfold format_storage_id, hex16, u64_max, u32_max in *.
  rewrite !dec_pad_digits by (simpl; lia). rewrite !strlen_app, !strlen_digits, strlen_hex.
  change (strlen "-") with 1. lia.
Qed.

(** What a new identifier leaves and yields. *)
Record new_id (w w' : world) (r : any string) : Prop := {
  new_id_fs : w_fs w' = w_fs w;
  new_id_clock : w_clock w' = w_clock w;
  new_id_pid : w_pid w' = w_pid w;
  new_id_entropy : w_entropy w' = tail (w_entropy w);
  new_id_ok : forall id, r = Ok id -> all_bytes is_id_byte id = true /\
    forall random, random_ready w random -> strlen id = 49 + 2 * strlen random;
  new_id_err : is_ok r = false -> forall random, ~ random_ready w random;
}.

Lemma wp_new_storage_id (I : world -> Prop) prefix w :
  validate_directory_name prefix = Ok tt -> w_pid w <= u32_max ->
  (forall w', w_fs w' = w_fs w -> I w') ->
  wp I (new_storage_id prefix) w (new_id w).
Proof.
  intros Hprefix Hpid HI. unfold new_storage_id. rewrite Hprefix.
  assert (clock_millis w <= u64_max) as Hclock by (unfold clock_millis, to_u64_or_max; lia).
  cbn -[format_storage_id]. destruct (w_entropy w) as [|[random|e] es] eqn:He; cbn -[format_storage_id].
  - split; [by apply HI|]. split; try done; [by rewrite He|].
    intros _ random. unfold random_ready. by rewrite He.
  - do 4 (split; [by apply HI|]). split; try done; [by rewrite He|]. intros id [= <-].
    split; [by apply format_id_bytes|]. intros random' E. unfold random_ready in E. rewrite He in E.
    injection E as <-. by apply format_id_length.
  - split; [by apply HI|]. split; try done; [by rewrite He|].
    intros _ random. unfold random_ready. by rewrite He.
Qed.

(** ** The publication *)

(** What a reader of the final path can see while the publication runs. *)
Definition untouched_or_complete (fs : fsys) (final : loc) (bytes : string) (fs' : fsys) : Prop :=
  fs' !! final = fs !! final \/ exists t, fs' !! final = Some (File bytes t).

Section Publish.
Context (w : world) (dir : loc) (name bytes : string).
Context (Hreal : real_dir (w_fs w) dir) (Hname : valid_name name = true).
Context (Hdot : starts_with "." name = false).

Let final : loc := (dir ++ [name])%list.
Let I (w' : world) : Prop :=
  real_dir (w_fs w') dir /\ untouched_or_complete (w_fs w) final bytes (w_fs w').

(** Enough for a publication to succeed: a working random source, no file
    left by an earlier crash, and no directory in the way. *)
Definition can_publish : Prop :=
  (exists random, random_ready w random) /\ ~ is_dir_at (w_fs w) final /\
  forall id, w_fs w !! (dir ++ [temp_name id])%list = None.

Definition publish_post (w' : world) (r : any unit) : Prop :=
  match r with
  | Ok _ => (exists t, w_fs w' !! final = Some (File bytes t)) /\
      forall k, k <> final -> w_fs w' !! k = w_fs w !! k
  | Err _ => w_fs w' = w_fs w /\ ~ can_publish
  end.

Lemma temp_not_final id : (dir ++ [temp_name id])%list <> final.
Proof.
  intros [_ E]%app_inj_tail. rewrite <- E in Hdot. unfold temp_name in Hdot.
  rewrite append_cons in Hdot. simpl in Hdot. by destruct (_ ++ _).
Qed.

Lemma I_unchanged w' : w_fs w' = w_fs w -> I w'.
Proof. intros E. unfold I, untouched_or_complete. rewrite E. auto. Qed.

(** The temporary file exists, with some content. *)
Let J (id c : string) (w' : world) : Prop :=
  exists t, w_fs w' = <[(dir ++ [temp_name id])%list := File c t]> (w_fs w).

Lemma J_I id c w' :
  w_fs w !! (dir ++ [temp_name id])%list = None -> J id c w' -> I w'.
Proof.
  intros Hnone [t E]. unfold I, untouched_or_complete. rewrite E. split.
  - apply real_dir_insert; [done|]. by apply missing_not_dir.
  - left. apply lookup_insert_ne, temp_not_final.
Qed.

Lemma J_real id c w' : w_fs w !! (dir ++ [temp_name id])%list = None -> J id c w' -> real_dir (w_fs w') dir.
Proof. intros Hnone HJ. exact (proj1 (J_I id c w' Hnone HJ)). Qed.

(** The rename, from the world where the temporary file is complete. *)
Lemma rename_wp id w1 message temp_path :
  temp_path = render (dir ++ [temp_name id]) -> all_bytes is_id_byte id = true ->
  w_fs w !! (dir ++ [temp_name id])%list = None -> J id bytes w1 ->
  wp I (outcome <- sys_context message (Rename temp_path (render final)) ;;
        match outcome with
        | Ok _ => Ret (Ok tt)
        | Err e => sys (RemoveFile temp_path) ;; Ret (Err e)
        end) w1 publish_post.
Proof.
  intros -> Hid Hnone HJ. pose proof (J_real _ _ _ Hnone HJ) as Hreal1. destruct HJ as [t E].
  assert (w_fs w1 !! (dir ++ [temp_name id])%list = Some (File bytes t)) as Htemp
    by (rewrite E; by rewrite lookup_insert_eq).
  pose proof (temp_name_valid id Hid) as Hvalid.
  destruct (is_dir_at_dec (w_fs w1) final) as [Hdir|Hdir].
  - eapply wp_call; [by apply (exec_rename_onto_dir _ _ _ _ _ bytes t); try done; apply temp_not_final| |].
    { rewrite set_fs_self. apply (J_I id bytes); [done|by exists t]. }
    rewrite set_fs_self. cbn [bind map_err]. eapply wp_call; [by eapply exec_remove_file| |].
    { apply I_unchanged. simpl. rewrite E. by rewrite delete_insert_id. }
    simpl. split; [rewrite E; by rewrite delete_insert_id|]. intros (_ & Hno & _). apply Hno.
    destruct Hdir as (len & u & F). exists len, u. unfold final in *. rewrite node_at_snoc in *.
    rewrite E, lookup_insert_ne in F; [done|]. apply temp_not_final.
  - eapply wp_call; [by apply (exec_rename_file _ _ _ _ _ bytes t); try done; apply temp_not_final| |].
    + split; simpl.
      * apply real_dir_insert; [apply real_dir_delete; [done|by eapply file_not_dir]|].
        intros (k & u & F). apply Hdir. exists k, u. unfold final in *. rewrite node_at_snoc in *.
        rewrite lookup_delete_ne in F; [done|]. intros E'. by apply (temp_not_final id).
      * right. exists t. by rewrite lookup_insert_eq.
    + simpl. split; [exists t; by rewrite lookup_insert_eq|]. intros k Hk.
      rewrite lookup_insert_ne by done. rewrite E. by rewrite delete_insert_id.
Qed.

Lemma atomic_create_wp :
  w_pid w <= u32_max -> wp I (atomic_create (render dir) (render final) bytes) w publish_post.
Proof.
  intros Hpid. unfold atomic_create.
  eapply wp_call; [by apply exec_canonicalize_dir|by apply I_unchanged|]. cbn [map_err any_of_io].
  unfold final. rewrite parent_render by (apply Hreal || done). cbn [ok_or lift try_bind bind].
  eapply wp_call; [by apply exec_canonicalize_dir|by apply I_unchanged|].
  cbn [map_err bind io_map_err try_bind]. rewrite path_eqb_refl. cbn [negb bail_if lift try_bind bind].
  eapply wp_bind; [by apply (wp_new_storage_id I); auto using I_unchanged|].
  intros w0 [id|e] [Hfs _ _ _ Hok Herr]; [|split; [done|]; intros [[random Hr] _]; by eapply Herr].
  destruct (Hok id eq_refl) as [Hid _]. clear Hok Herr.
  pose proof (temp_name_valid id Hid) as Hvalid.
  change ("." ++ id ++ ".tmp") with (temp_name id). cbv zeta. rewrite join_render by (apply Hreal || done).
  assert (real_dir (w_fs w0) dir) as Hreal0 by (by rewrite Hfs).
  destruct (w_fs w !! (dir ++ [temp_name id])%list) as [n|] eqn:Hnone.
  { eapply wp_call; [rewrite exec_create_new by done; by rewrite Hfs, Hnone|by apply I_unchanged|].
    split; [done|]. intros (_ & _ & Hno). by rewrite Hno in Hnone. }
  eapply wp_call; [rewrite exec_create_new by done; by rewrite Hfs, Hnone| |].
  { apply (J_I id ""); [done|]. by eexists. }
  set (w1 := set_fs _ w0). assert (J id "" w1) as HJ1 by (eexists; reflexivity).
  pose proof (J_real _ _ _ Hnone HJ1) as Hreal1. destruct HJ1 as [t1 E1].
  clearbody w1.
  cbn [map_err bind io_map_err try_bind sys_any sys].
  assert (w_fs w1 !! (dir ++ [temp_name id])%list = Some (File "" t1)) as Htemp1
    by (rewrite E1; apply lookup_insert_eq).
  eapply wp_call; [by apply (exec_write_all w1 dir (temp_name id) "" t1)| |].
  { apply (J_I id bytes); [done|]. eexists. simpl. rewrite E1. by rewrite insert_insert_eq. }
  set (w2 := set_fs _ w1). assert (J id bytes w2) as HJ2.
  { eexists. simpl. rewrite E1. by rewrite insert_insert_eq. }
  assert (I w2) as HI2 by (by eapply J_I).
  eapply wp_call; [reflexivity|exact HI2|]. eapply wp_call; [reflexivity|exact HI2|].
  by eapply (rename_wp id w2).
Qed.
End Publish.

(** ** Properties *)

(** C29: in a real directory, publication is atomic: after every call of the
    run, the final path still holds what it held or already holds the whole
    content; the run ends without a panic, a success leaves exactly that one
    change, a failure leaves the file system as it was, and there is no
    failure when the random source works, no temporary file was left behind
    and no directory is in the way. *)
Theorem atomic_create_atomic w dir name bytes :
  real_dir (w_fs w) dir -> valid_name name = true -> starts_with "." name = false ->
  w_pid w <= u32_max ->
  always (fun w' => untouched_or_complete (w_fs w) (dir ++ [name]) bytes (w_fs w'))
    (atomic_create (render dir) (render (dir ++ [name])) bytes) w /\
  exists w' r, run (atomic_create (render dir) (render (dir ++ [name])) bytes) w = (w', Done r) /\
    publish_post w dir name bytes w' r.
Proof.
  intros Hreal Hname Hdot Hpid. pose proof (atomic_create_wp w dir name bytes Hreal Hname Hdot Hpid) as Hwp.
  split; [|by eapply wp_run].
  eapply always_mono; [|by eapply wp_always]. by intros w' [_ ?].
Qed.

(** A directory with an older file of the same name. *)
Definition publication_world : world :=
  World (<[["s"] := Dir 0 no_attributes]> {[ ["s"; "r.json"] := File "old" no_attributes ]})
    ["s"] 5000000 0 [Ok "abcdefghijkl"] 77 3 ∅ ∅ 0 ∅ no_processes (fun _ _ _ _ => Err enoent).

Lemma atomic_create_atomic_witness :
  always (fun w' => untouched_or_complete (w_fs publication_world) ["s"; "r.json"] "new" (w_fs w'))
    (atomic_create "/s" "/s/r.json" "new") publication_world /\
  exists w' r, run (atomic_create "/s" "/s/r.json" "new") publication_world = (w', Done r) /\
    publish_post publication_world ["s"] "r.json" "new" w' r.
Proof.
  apply (atomic_create_atomic publication_world ["s"] "r.json" "new");
    [apply real_dir_check; vm_compute; reflexivity|vm_compute; reflexivity|vm_compute; reflexivity|].
  vm_compute. discriminate.
Defined.
