(* ===== verification/ProposalFacts.v ===== *)
(** * The proposal store: loading, updating, publishing

    The life cycle of a proposal is a relation on its states; what the store returns is its newest valid generation; an update is one
    more generation, published atomically; and the history of a record only
    grows by permitted transitions. *)

From stdpp Require Import base list strings sorting gmap sets.
From Stdlib Require Import NArith Ascii String Sorted Lia.
From S2P Require Import Prelude Bytes Text TextFacts UnixPath IO World WorldFacts Paths Anyhow Observers Trace AuditFacts Publication EditPlan EditIntent EditPlanFacts EditIntentFacts EditRuntime ProposalStore.

Local Open Scope list_scope.

(** * The life cycle of a proposal

    [can_transition_to] as a step relation, the histories it allows, and the
    milestones every history must have passed. *)

(** ** Histories *)

(** The states a proposal went through, oldest first: it is created as
    generated and validated, and then changes by permitted transitions. *)
Inductive reachable : list ProposalState -> Prop :=
| reachable_created : reachable [Generated; Validated]
| reachable_step h s next :
    reachable h -> last h = Some s -> can_transition_to s next = true -> reachable (h ++ [next]).

(** The states a proposal has been in when it is in a state. *)
Definition milestones (s : ProposalState) : list ProposalState :=
  let verified := [Generated; Validated; WorktreePrepared; WorktreeApplied; BuildRunning; Verified] in
  match s with
  | Generated => [Generated]
  | Validated | VerificationFailed | Discarded | Expired | Failed => [Generated; Validated]
  | WorktreePrepared => [Generated; Validated; WorktreePrepared]
  | WorktreeApplied => [Generated; Validated; WorktreePrepared; WorktreeApplied]
  | BuildRunning => [Generated; Validated; WorktreePrepared; WorktreeApplied; BuildRunning]
  | Verified | ApprovalPending => verified
  | Applying => verified ++ [Applying]
  | Applied | RollbackAvailable => verified ++ [Applying; Applied]
  | RollingBack => verified ++ [Applying; Applied; RollingBack]
  | RolledBack => verified ++ [Applying; Applied; RollingBack; RolledBack]
  end.

(** ** Subsequences, decided *)

Fixpoint is_subsequence {A} `{EqDecision A} (l k : list A) : bool :=
  match l, k with
  | [], _ => true
  | _ :: _, [] => false
  | x :: l', y :: k' => if decide (x = y) then is_subsequence l' k' else is_subsequence l k'
  end.

Lemma is_subsequence_ok {A} `{EqDecision A} (l k : list A) : is_subsequence l k = true -> sublist l k.
Proof.
  revert l. induction k as [|y k IH]; intros [|x l]; simpl; try done; [intros _; apply sublist_nil_l|].
  destruct (decide (x = y)) as [->|_]; intros Hs; [by apply sublist_skip, IH|by apply sublist_cons, IH].
Qed.

Definition all_states : list ProposalState :=
  [Generated; Validated; WorktreePrepared; WorktreeApplied; BuildRunning; Verified; VerificationFailed;
   ApprovalPending; Applying; Applied; RollbackAvailable; RollingBack; RolledBack; Discarded; Expired; Failed].

Lemma all_states_complete s : s ∈ all_states.
Proof. destruct s; unfold all_states; rewrite !elem_of_cons; tauto. Qed.

(** Every permitted step keeps the milestones. *)
Definition steps_keep_milestones : bool :=
  forallb (fun s => forallb (fun next =>
    negb (can_transition_to s next) || is_subsequence (milestones next) (milestones s ++ [next])) all_states) all_states.

Lemma step_milestones s next :
  can_transition_to s next = true -> sublist (milestones next) (milestones s ++ [next]).
Proof.
  intros Hc. assert (steps_keep_milestones = true) as Hall by (vm_compute; reflexivity).
  unfold steps_keep_milestones in Hall. rewrite forallb_forall in Hall.
  specialize (Hall s (proj1 (list_elem_of_In _ _) (all_states_complete s))). rewrite forallb_forall in Hall.
  specialize (Hall next (proj1 (list_elem_of_In _ _) (all_states_complete next))).
  rewrite Hc in Hall. by apply is_subsequence_ok.
Qed.

Lemma terminal_step s next : is_terminal s = true -> can_transition_to s next = true -> next = s.
Proof. by destruct s, next. Qed.

(** C33: a proposal reaches a state only through its milestones, in order:
    applying needs a verification, and that a build of the plan in a prepared
    worktree; a rollback needs an application.  No path of the life cycle
    skips one. *)
Theorem history_passes_milestones h s (Hr : reachable h) (Hs : last h = Some s) : sublist (milestones s) h.
Proof.
  revert s Hs. induction Hr as [|h s0 next Hr IH Hl Hc]; intros s Hs.
  - injection Hs as <-. reflexivity.
  - rewrite last_snoc in Hs. injection Hs as <-. etransitivity; [by apply step_milestones|].
    apply sublist_app; [by apply IH|reflexivity].
Qed.

(** The terminal states are final: once a proposal is rolled back,
    discarded, expired or failed, every later state of its history is the
    same. *)
Theorem terminal_states_final h t s
    (Hr : reachable (h ++ t)) (Hs : last h = Some s) (Ht : is_terminal s = true) (Hne : reachable h) :
  Forall (eq s) t.
Proof.
  induction t as [|next t IH] using rev_ind; [constructor|].
  rewrite app_assoc in Hr. inversion Hr as [E|k p q Hk Hp Hc E].
  - exfalso. destruct h as [|a h]; [done|]. destruct Hne as [|h' ? ? Hh' ? ?].
    + simpl in E. destruct t; done.
    + assert (List.length ((h' ++ [next0]) ++ t ++ [next]) = 2%nat) as El by (rewrite app_assoc, <- E; done).
      rewrite !length_app in El. simpl in El. destruct h'; [by inversion Hh'; destruct h|simpl in El; lia].
  - apply app_inj_tail in E as [-> ->]. specialize (IH Hk). apply Forall_app. split; [done|].
    constructor; [|done]. assert (p = s) as ->.
    { destruct t as [|x t _] using rev_ind; [rewrite app_nil_r in Hp; congruence|].
      rewrite app_assoc, last_snoc in Hp. injection Hp as ->. apply Forall_app in IH as [_ IH]. by inversion IH. }
    symmetry. by apply terminal_step.
Qed.


(** * The store of the proposals *)

Local Open Scope string_scope.
Local Open Scope N_scope.

(** ** Validity of a record *)

Definition history (r : ProposalRecord) : list ProposalState := map t_state (r_transitions r).

(** Each state of the list follows from the one before it. *)
Fixpoint chained (previous : option ProposalState) (l : list ProposalState) : Prop :=
  match l with
  | [] => True
  | s :: l' => match previous with Some p => can_transition_to p s = true | None => True end /\ chained (Some s) l'
  end.

Lemma transitions_valid_ok index previous l u :
  transitions_valid index previous l = Ok u ->
  chained previous (map t_state l)
  /\ map t_sequence l = map (fun k => index + N.of_nat k) (seq 0 (List.length l)).
Proof.
  revert index previous. induction l as [|t l IH]; intros index previous; cbn [transitions_valid]; [done|].
  destruct (t_sequence t =? index) eqn:Hs; [|done]. apply N.eqb_eq in Hs. cbn [negb].
  destruct (match previous with Some p => negb (can_transition_to p (t_state t)) | None => false end) eqn:Hp; [done|].
  intros [Hc Hseq]%IH. simpl. split.
  - split; [|done]. destruct previous; [|done]. by apply negb_false_iff.
  - f_equal; [lia|]. rewrite Hseq, <- seq_shift, map_map. apply map_ext. intros k. lia.
Qed.

Section Records.
Context `{Blake3, IntentSerde, StoreSerde}.

(** What a stored record that is accepted says about itself. *)
Record valid_record (id hash : string) (r : ProposalRecord) : Prop := {
  vr_identity : r_proposal_id r = id /\ p_plan_id (r_plan r) = id
    /\ r_workspace_root_hash r = hash /\ p_workspace_root_hash (r_plan r) = hash
    /\ r_workspace_id r = p_workspace_id (r_plan r);
  vr_times : r_created_at_unix_ms r <= r_updated_at_unix_ms r /\ r_created_at_unix_ms r <= r_expires_at_unix_ms r;
  vr_state : last (history r) = Some (r_state r);
  vr_chain : chained None (history r);
  vr_binding : forall b, r_intent r = Some b ->
    validate_binding b = Ok tt
    /\ authorized (persisted_plan r) (b_request_id b) (b_workspace_id b) (b_workspace_root_hash b) (b_base_head b)
         (b_working_tree_digest b) (b_targets b) (b_constraints b);
}.

Lemma validate_record_ok r id hash u : validate_record r id hash = Ok u -> valid_record id hash r.
Proof.
  unfold validate_record. intros ([] & E1 & E)%rbind_ok. apply rbind_ok in E as ([] & E2 & E3).
  destruct (record_fields_inconsistent r id hash) eqn:Hf; [done|]. unfold record_fields_inconsistent in Hf. split_bools.
  repeat match goal with H : (_ =? _)%string = true |- _ => apply String.eqb_eq in H end. rewrite ?N.ltb_ge in *.
  apply transitions_valid_ok in E3 as [Hc _]. split; try done.
  - unfold history. change (map t_state (r_transitions r)) with (t_state <$> r_transitions r). rewrite fmap_last. by apply dec_stable.
  - intros b Hb. rewrite Hb in E2. unfold validate_record_binding in E2.
    apply rbind_ok in E2 as ([] & Eb & E2). apply rbind_ok in E2 as (? & _ & Ea).
    apply map_err_ok in Eb, Ea. split; [done|]. unfold validate_edit_plan_against_binding in Ea.
    apply rbind_ok in Ea as (? & _ & Ea). by eapply authority_ok.
Qed.

(** ** The newest valid generation *)

Section Loading.
Context {An : Answers}.

(** A generation that could not be used: its entry is no small regular file,
    or its bytes are no valid record of this generation. *)
Definition unusable (id hash : string) (c : N * string) : Prop :=
  (exists m, answers (SymlinkMetadata (snd c)) m
     /\ match m with Ok m => negb (plain_file m) || (MAX_RECORD_BYTES <? md_len m) | Err _ => true end = true)
  \/ exists bytes, answers (ReadFile (snd c)) bytes
     /\ forall r, match bytes with Ok bytes => record_from_slice bytes | Err _ => None end = Some r ->
          r_sequence r <> fst c \/ exists e, validate_record r id hash = Err e.

(** [r] was read from the entry [c]. *)
Definition read_from (id hash : string) (c : N * string) (r : ProposalRecord) : Prop :=
  fst c = r_sequence r /\ valid_record id hash r /\ validate_record r id hash = Ok tt
  /\ exists bytes, answers (ReadFile (snd c)) (Ok bytes) /\ record_from_slice bytes = Some r.

Lemma first_valid_must id hash candidates :
  must (first_valid_generation candidates id hash) (ok_post (fun r =>
    exists newer c older, candidates = (newer ++ c :: older)%list /\ Forall (unusable id hash) newer /\ read_from id hash c r)).
Proof.
  induction candidates as [|[sequence path] candidates IH]; cbn [first_valid_generation]; [done|].
  assert (Hnext : unusable id hash (sequence, path) -> must (first_valid_generation candidates id hash) (ok_post (fun r =>
    exists newer c older, ((sequence, path) :: candidates) = (newer ++ c :: older)%list
      /\ Forall (unusable id hash) newer /\ read_from id hash c r))).
  { intros Hu. eapply must_mono; [exact IH|]. intros [r|] Hr; [|done]. destruct Hr as (newer & c & older & -> & Hn & Hc).
    exists ((sequence, path) :: newer), c, older. split_and!; [done|by constructor|done]. }
  intros m Hm. cbn [bind]. destruct (match m with Ok m => negb (plain_file m) || (MAX_RECORD_BYTES <? md_len m) | Err _ => true end) eqn:Hfit.
  { apply Hnext. left. by exists m. }
  intros bytes Hbytes. cbn [bind].
  destruct (match bytes with Ok bytes => record_from_slice bytes | Err _ => None end) as [r|] eqn:Er.
  2:{ apply Hnext. right. exists bytes. split; [done|]. intros r Hr. congruence. }
  destruct (_ && _) eqn:Hok.
  - apply andb_true_iff in Hok as [Hs Hv]. apply N.eqb_eq in Hs.
    destruct (validate_record r id hash) as [[]|] eqn:Hvr; [|done]. destruct bytes as [bytes|]; [|done].
    exists [], (sequence, path), candidates. split_and!; [done|constructor|]. split_and!; [done| |done|by exists bytes].
    by eapply validate_record_ok.
  - apply Hnext. right. exists bytes. split; [done|]. intros r' Hr'. assert (r' = r) as -> by congruence.
    apply andb_false_iff in Hok as [Hs|Hv]; [left; by apply N.eqb_neq in Hs|right].
    destruct (validate_record r id hash) as [|e]; [done|by exists e].
Qed.

#[export] Instance newest_first_total : TotalCmp newest_first.
Proof.
  pose proof (linear_total (fst : N * string -> N) N.compare) as [F T]. split.
  - intros x y. exact (F y x).
  - intros x y z Hxy Hyz. exact (T z y x Hyz Hxy).
Qed.

(** The record comes from the newest generation that can be used. *)
Definition newest_valid (records id hash : string) (r : ProposalRecord) : Prop :=
  exists entries path,
    answers (ReadDir records) (Ok entries)
    /\ list_len (omap generation_of entries) <= MAX_RECORD_GENERATIONS
    /\ (r_sequence r, path) ∈ omap generation_of entries
    /\ read_from id hash (r_sequence r, path) r
    /\ forall c, c ∈ omap generation_of entries -> r_sequence r < fst c -> unusable id hash c.

Lemma load_latest_must records id hash :
  must (load_latest_valid_record records id hash) (ok_post (newest_valid records id hash)).
Proof.
  unfold load_latest_valid_record. apply must_try_ok with (P := fun entries => answers (ReadDir records) (Ok entries)).
  { intros [entries|e] Hr; [exact Hr|done]. }
  intros entries Hentries. cbv zeta. destruct (_ <? _) eqn:Hl; [done|]. apply N.ltb_ge in Hl.
  eapply must_mono; [apply first_valid_must|]. intros [r|] Hr; [|done].
  destruct Hr as (newer & [sequence path] & older & Hsort & Hnewer & Hread). pose proof Hread as (Hseq & _). simpl in Hseq. subst.
  pose proof (sort_by_sorted newest_first (omap generation_of entries)) as Hs. rewrite Hsort in Hs.
  exists entries, path. split_and!; try done.
  - rewrite <- (sort_by_perm newest_first), Hsort. apply elem_of_app. right. left.
  - intros c Hc Hlt. rewrite <- (sort_by_perm newest_first), Hsort in Hc.
    apply elem_of_app in Hc as [Hc|Hc]; [by rewrite Forall_forall in Hnewer; apply Hnewer|]. exfalso.
    apply elem_of_cons in Hc as [->|Hc]; [simpl in Hlt; lia|].
    apply StronglySorted_app in Hs as (_ & _ & Hs). inversion Hs as [|?? _ Hf]; subst.
    rewrite Forall_forall in Hf. specialize (Hf c Hc). unfold cmp_le, newest_first in Hf. simpl in Hf.
    rewrite N.compare_gt_iff in Hf. lia.
Qed.
End Loading.
End Records.

(** ** Operations *)

Section Operations.
Context {An : Answers} `{Blake3, IntentSerde, StoreSerde} (store : ProposalStore).

(** [records] is the records directory of the proposal, found step by step
    below the directory of the workspace. *)
Definition records_of (id records : string) : Prop :=
  exists dir,
    answers (Canonicalize (join (s_workspace_dir store) id)) (Ok dir)
    /\ opt_path_eqb (parent dir) (Some (s_workspace_dir store)) = true
    /\ answers (Canonicalize (join dir RECORDS_DIRECTORY)) (Ok records)
    /\ opt_path_eqb (parent records) (Some dir) = true.

(** The record the store has for [id]. *)
Definition current (id : string) (r : ProposalRecord) : Prop :=
  exists records, records_of id records /\ newest_valid records id (s_workspace_hash store) r.

Lemma must_io_call {A : Set} (c : syscall (io A)) (Q : A -> Prop) :
  (forall a, answers c (Ok a) -> Q a) -> must (io_call c) (ok_post Q).
Proof. intros HQ [a|e] Hr; [by apply HQ|done]. Qed.

Lemma must_io_context {A : Set} m (c : syscall (io A)) (Q : A -> Prop) :
  (forall a, answers c (Ok a) -> Q a) -> must (io_context m c) (ok_post Q).
Proof. intros HQ [a|e] Hr; [by apply HQ|done]. Qed.

(** A directory found below a given one. *)
Lemma proposal_dir_must id :
  must (recognized_proposal_dir (s_workspace_dir store) id) (ok_post (fun dir =>
    answers (Canonicalize (join (s_workspace_dir store) id)) (Ok dir)
    /\ opt_path_eqb (parent dir) (Some (s_workspace_dir store)) = true)).
Proof.
  unfold recognized_proposal_dir. cbv zeta.
  eapply must_try_ok; [apply (must_io_context _ _ (fun _ => True)); auto|]. intros m _. destruct (negb _); [done|].
  eapply must_try_ok; [apply (must_io_call _ (fun c => answers (Canonicalize (join (s_workspace_dir store) id)) (Ok c))); auto|].
  intros dir Hdir. destruct (opt_path_eqb _ _) eqn:E; [|done]. by split.
Qed.

Lemma records_dir_must dir :
  must (recognized_records_dir dir) (ok_post (fun records =>
    answers (Canonicalize (join dir RECORDS_DIRECTORY)) (Ok records) /\ opt_path_eqb (parent records) (Some dir) = true)).
Proof.
  unfold recognized_records_dir. cbv zeta.
  eapply must_try_ok; [apply (must_io_call _ (fun _ => True)); auto|]. intros m _. destruct (negb _); [done|].
  eapply must_try_ok; [apply (must_io_call _ (fun c => answers (Canonicalize (join dir RECORDS_DIRECTORY)) (Ok c))); auto|].
  intros records Hrec. destruct (opt_path_eqb _ _) eqn:E; [|done]. by split.
Qed.

Lemma load_must id : must (load store id) (ok_post (current id)).
Proof.
  unfold load. apply must_ret_try. intros [] _.
  eapply must_try_ok; [apply proposal_dir_must|]. intros dir [Hd Hp].
  eapply must_try_ok; [apply records_dir_must|]. intros records [Hr Hrp].
  eapply must_try_ok; [apply load_latest_must|]. intros r Hnew. apply must_ret_try. intros [] _.
  exists records. split; [|exact Hnew]. by exists dir.
Qed.

Lemma with_lock_must {A} dir (body : IO (res A)) (Q : A -> Prop) :
  must body (ok_post Q) -> must (with_store_lock dir body) (ok_post Q).
Proof.
  intros Hb. unfold with_store_lock. apply must_try_ok with (P := fun _ => True); [apply must_true; by intros []|].
  intros file _. eapply must_bind; [exact Hb|]. intros r Hr u Hu. exact Hr.
Qed.

(** [r'] is the next generation of [r1], accepted as a record of [id]. *)
Definition next_generation (id : string) (r1 r' : ProposalRecord) : Prop :=
  r_sequence r1 < u32_max /\ (exists now, r' = set_generation (r_sequence r1 + 1) now r1)
  /\ valid_record id (s_workspace_hash store) r'.

Lemma update_must id f (P : ProposalRecord -> ProposalRecord -> Prop) :
  (forall r, must (f r) (ok_post (P r))) ->
  must (update store id f) (ok_post (fun r' => exists r r1, current id r /\ P r r1 /\ next_generation id r1 r')).
Proof.
  intros Hf. unfold update. apply must_ret_try. intros [] _. apply with_lock_must.
  eapply must_try_ok; [apply proposal_dir_must|]. intros dir [Hd Hp].
  eapply must_try_ok; [apply records_dir_must|]. intros records [Hr Hrp].
  eapply must_try_ok; [apply load_latest_must|]. intros r Hnew.
  eapply must_try_ok; [apply Hf|]. intros r1 HP. destruct (u32_max <=? r_sequence r1) eqn:Hs; [done|].
  apply N.leb_gt in Hs. intros now _. cbn [bind]. apply must_ret_try. intros [] Hv%validate_record_ok.
  apply must_try_ok with (P := fun _ => True); [apply must_true; by intros []|]. intros [] _.
  exists r, r1. split_and!; [|done|split_and!; [done|by exists now|done]]. exists records. split; [|exact Hnew]. by exists dir.
Qed.

Lemma push_transition_must next reason r :
  must (push_transition next reason r) (ok_post (fun r1 =>
    can_transition_to (r_state r) next = true /\ r_state r1 = next /\ history r1 = (history r ++ [next])%list
    /\ r_sequence r1 = r_sequence r)).
Proof.
  unfold push_transition. destruct (can_transition_to (r_state r) next) eqn:Hc; [|done]. cbn [negb].
  intros now _. simpl. split_and!; try done. unfold history. simpl. by rewrite map_app.
Qed.

(** ** The operations that change a record *)

Inductive record_update :=
| UTransition (next : ProposalState) (reason : string)
| UPolicy (decisions : list PolicyDecisionRecord)
| UVerification (report : ChatEditVerificationReport) (diff : option VerifiedDiff)
| UApply (report : ChatEditApplyReport)
| URollback (report : ChatEditRollbackReport)
| UDiscard
| UExpire (now : N).

Definition perform (id : string) (u : record_update) : IO (res ProposalRecord) :=
  match u with
  | UTransition next reason => transition store id next reason
  | UPolicy decisions => record_policy store id decisions
  | UVerification report diff => record_verification store id report diff
  | UApply report => record_apply store id report
  | URollback report => record_rollback store id report
  | UDiscard => discard store id
  | UExpire now => expire_if_needed store id now
  end.

(** The history stays, or grows by one permitted transition. *)
Definition history_step (r r' : ProposalRecord) : Prop :=
  (history r' = history r /\ r_state r' = r_state r)
  \/ exists next, history r' = (history r ++ [next])%list /\ r_state r' = next /\ can_transition_to (r_state r) next = true.

Definition advanced (id : string) (r' : ProposalRecord) : Prop :=
  exists r, current id r /\ valid_record id (s_workspace_hash store) r' /\ history_step r r'
    /\ (r' = r \/ r_sequence r' = r_sequence r + 1).

Lemma update_advances id f :
  (forall r, must (f r) (ok_post (fun r1 => history_step r r1 /\ r_sequence r1 = r_sequence r))) ->
  must (update store id f) (ok_post (advanced id)).
Proof.
  intros Hf. eapply must_mono; [exact (update_must id f (fun r r1 => history_step r r1 /\ r_sequence r1 = r_sequence r) Hf)|]. intros [r'|] Hr; [|done].
  destruct Hr as (r & r1 & Hcur & [Hstep Hseq] & Hlt & (now & ->) & Hvalid). exists r. split_and!; [done|done| |].
  - destruct Hstep as [[Hh Hst]|(next & Hh & Hst & Hc)]; [left; by split|right; by exists next].
  - right. simpl. by rewrite Hseq.
Qed.

Lemma transition_advances id next reason : must (transition store id next reason) (ok_post (advanced id)).
Proof.
  unfold transition. destruct (_ || _); [done|]. apply update_advances. intros r.
  eapply must_mono; [apply push_transition_must|]. intros [r1|] Hr; [|done]. destruct Hr as (Hc & Hst & Hh & Hs).
  split; [|done]. right. by exists next.
Qed.

Lemma perform_advances id u : must (perform id u) (ok_post (advanced id)).
Proof.
  assert (forall policy verification diff apply rollback r,
    history_step r (set_reports policy verification diff apply rollback r)) as Hset by (intros; left; by split).
  destruct u; cbn [perform].
  - apply transition_advances.
  - apply update_advances. intros r. cbv zeta. destruct (_ <? _); [done|]. by split.
  - apply update_advances. intros r. destruct (negb _); [done|]. by split.
  - apply update_advances. intros r. destruct (negb _); [done|]. by split.
  - apply update_advances. intros r. destruct (negb _); [done|]. by split.
  - apply transition_advances.
  - unfold expire_if_needed. eapply must_try_ok; [apply load_must|]. intros r Hr.
    destruct (_ && _); [apply transition_advances|]. exists r. split_and!; [done| |left; by split|by left].
    destruct Hr as (records & _ & entries & path & _ & _ & _ & (_ & Hv & _) & _). exact Hv.
Qed.
End Operations.

(** ** Publication *)

Section Publishing.
Context {An : Answers} `{Blake3, IntentSerde, StoreSerde}.

Definition generation_path (records : string) (r : ProposalRecord) : string := join records (record_file_name (r_sequence r)).

(** What a publication did: the record's bytes were written to a temporary
    file, synchronised and renamed to the path of the generation, which the
    call just before found to be free; a failure renamed nothing there. *)
Definition publication_of (records : string) (r : ProposalRecord) (res_ : res unit) (t : list event) : Prop :=
  match res_ with
  | Ok _ => exists bytes e t', record_to_vec r = Ok bytes
      /\ strlen (bytes ++ String line_feed "") <= MAX_RECORD_BYTES
      /\ t = Ev (FollowMetadata (generation_path records r)) (Err e) :: t'
      /\ published (generation_path records r) (bytes ++ String line_feed "") t'
  | Err _ => existsb (renamed_onto (generation_path records r)) t = false
  end.

Lemma publish_record_trace records r : trace_must (publish_record records r) (publication_of records r).
Proof.
  unfold publish_record. destruct (record_to_vec r) as [bytes|e] eqn:Eb; [|by apply trace_ret].
  cbn [map_err try_bind bind]. destruct (_ <? _) eqn:Hl; [by apply trace_ret|]. apply N.ltb_ge in Hl. cbv zeta.
  fold (generation_path records r). unfold path_exists. set (final := generation_path records r).
  apply trace_must_call; intros m. cbn -[trace_must]. destruct m as [m|e]; [by apply trace_ret|]. cbn -[trace_must].
  do 2 (apply trace_must_call; intros ?; cbn -[trace_must]).
  apply trace_must_call; intros [h|?]; cbn -[trace_must]; [|by apply trace_ret].
  do 3 (apply trace_must_call; intros [[]|?]; cbn -[trace_must]; [|by apply trace_ret]).
  apply trace_must_call; intros [[]|?]; cbn -[trace_must].
  - apply trace_ret. exists bytes, e. eexists. split_and!; [done|done|reflexivity|]. eexists [_; _], _, h. split; [|reflexivity].
    by repeat constructor.
  - apply trace_must_call; intros ?. apply trace_ret. simpl. by rewrite ?andb_false_r.
Qed.

(** ** The lock *)

(** A successful operation opened the lock file, took the lock, ran its body
    and closed the file. *)
Definition locked (dir : string) (t inside : list event) : Prop :=
  exists before file waiting, Forall Trace.quiet before /\ Forall Trace.quiet waiting
    /\ t = (before ++ Ev (OpenCreate (join dir WORKSPACE_LOCK_FILE)) (Ok file) :: waiting
             ++ Ev (TryLock file) (Ok tt) :: inside ++ [Ev (CloseFile file) tt])%list.

Lemma wait_for_lock_trace fuel file deadline :
  trace_must (wait_for_lock fuel file deadline) (ok_trace (fun _ t =>
    exists before, Forall Trace.quiet before /\ t = (before ++ [Ev (TryLock file) (Ok tt)])%list)).
Proof.
  induction fuel as [|fuel IH]; cbn [wait_for_lock]; [done|].
  apply trace_must_call; intros [[]|[|e]]; cbn -[trace_must wait_for_lock]; [apply trace_ret; by exists []| |done].
  apply trace_must_call; intros now. cbn -[trace_must wait_for_lock]. destruct (now <? deadline); [|done].
  cbn -[trace_must wait_for_lock].
  apply trace_must_call; intros []. cbn -[trace_must wait_for_lock]. eapply trace_must_mono; [exact IH|].
  intros [[]|] t Ht; [|done]. destruct Ht as (before & Hq & ->).
  eexists (_ :: _ :: _ :: before). split; [|reflexivity]. by repeat constructor.
Qed.

Lemma with_lock_trace {A} dir (body : IO (res A)) (Q : A -> list event -> Prop) :
  trace_must body (ok_trace Q) ->
  trace_must (with_store_lock dir body) (ok_trace (fun a t => exists inside, locked dir t inside /\ Q a inside)).
Proof.
  intros Hb. unfold with_store_lock, StoreLock_acquire. cbv zeta.
  eapply trace_try_ok with (P := fun file t => exists before waiting, Forall Trace.quiet before /\ Forall Trace.quiet waiting
    /\ t = (before ++ Ev (OpenCreate (join dir WORKSPACE_LOCK_FILE)) (Ok file) :: waiting ++ [Ev (TryLock file) (Ok tt)])%list).
  - apply trace_must_call; intros m. cbn -[trace_must wait_for_lock].
    destruct (match m with Ok m => negb (plain_file m) | Err _ => false end); [done|].
    apply trace_must_call; intros [file|?]; cbn -[trace_must wait_for_lock]; [|done].
    apply trace_must_call; intros now. cbn -[trace_must wait_for_lock].
    eapply trace_try_ok; [apply wait_for_lock_trace|]. intros [] t (waiting & Hq & ->). apply trace_ret.
    eexists [_], (_ :: waiting). split_and!; [| |rewrite app_nil_r; reflexivity]; by repeat constructor.
  - intros file t (before & waiting & Hq & Hw & ->). eapply trace_must_bind; [exact Hb|]. intros r inside Hr.
    apply trace_must_call; intros []. apply trace_ret. destruct r as [a|]; [|done].
    exists inside. split; [|exact Hr]. exists before, file, waiting. split_and!; [done|done|].
    rewrite <- !app_assoc. simpl. by rewrite <- !app_assoc.
Qed.
End Publishing.

(** ** Reading changes nothing *)

Section Reading.
Context `{Blake3, IntentSerde, StoreSerde} (store : ProposalStore).

Lemma io_call_observer {A : Set} (c : syscall (io A)) : observes c = true -> observer (io_call c).
Proof. intros. by apply observer_map_err, observer_sys. Qed.
Lemma io_context_observer {A : Set} m (c : syscall (io A)) : observes c = true -> observer (io_context m c).
Proof. intros. by apply observer_map_err, io_call_observer. Qed.
#[local] Hint Extern 1 (observer (io_call _)) => apply io_call_observer; reflexivity : observer.
#[local] Hint Extern 1 (observer (io_context _ _)) => apply io_context_observer; reflexivity : observer.

Lemma proposal_dir_observer id : observer (recognized_proposal_dir (s_workspace_dir store) id).
Proof. unfold recognized_proposal_dir. cbv zeta. observe. Qed.
Lemma records_dir_observer dir : observer (recognized_records_dir dir).
Proof. unfold recognized_records_dir. cbv zeta. observe. Qed.

Lemma first_valid_observer candidates id hash : observer (first_valid_generation candidates id hash).
Proof.
  induction candidates as [|[sequence path] candidates IH]; cbn [first_valid_generation]; [done|].
  apply observer_call; [done|]. intros m. cbn [bind]. destruct (match m with Ok _ => _ | Err _ => _ end); [exact IH|].
  apply observer_call; [done|]. intros bytes. cbn [bind].
  destruct (match bytes with Ok _ => _ | Err _ => _ end); [|exact IH]. destruct (_ && _); [done|exact IH].
Qed.

Lemma load_latest_observer records id hash : observer (load_latest_valid_record records id hash).
Proof.
  unfold load_latest_valid_record. cbv zeta. apply observer_try; [auto with observer|intros entries].
  destruct (_ <? _); [done|apply first_valid_observer].
Qed.
#[local] Hint Resolve proposal_dir_observer records_dir_observer load_latest_observer : observer.

Lemma load_observer id : observer (load store id).
Proof. unfold load. observe. Qed.
#[local] Hint Resolve load_observer : observer.

Lemma load_entries_observer skip entries : observer (load_entries store skip entries).
Proof.
  induction entries as [|[path|e] entries IH]; cbn [load_entries]; [done| |done]. cbv zeta.
  destruct (_ && _); [exact IH|]. destruct (to_str _); [|exact IH]. destruct (is_ok _); [|exact IH].
  apply observer_bind; [auto with observer|intros r]. apply observer_try; [exact IH|done].
Qed.

Lemma latest_observer : observer (latest store).
Proof. unfold latest. apply observer_try; [auto with observer|intros entries]. by apply observer_try; [apply load_entries_observer|]. Qed.

Lemma find_observer id : observer (find_by_transaction_id store id).
Proof.
  unfold find_by_transaction_id. apply observer_try; [done|intros _]. apply observer_try; [auto with observer|intros entries].
  by apply observer_try; [apply load_entries_observer|].
Qed.

(** ** What an update did *)

Lemma trace_quiet_try {An : Answers} {A B E} (m : IO (result A E)) (f : A -> IO (result B E)) (Q : B -> list event -> Prop) :
  observer m ->
  (forall a t, Forall Trace.quiet t -> trace_must (f a) (ok_trace (fun b u => Q b (t ++ u)%list))) ->
  trace_must (try_bind m f) (ok_trace Q).
Proof.
  intros [Hm _] Hf. eapply trace_try_ok with (P := fun _ t => Forall Trace.quiet t); [|exact Hf].
  eapply trace_must_mono; [apply (read_only_quiet _ Hm)|]. by intros [].
Qed.

Definition update_trace (r' : ProposalRecord) (t : list event) : Prop :=
  exists inside quiet_part pub records,
    locked (s_workspace_dir store) t inside /\ inside = (quiet_part ++ pub)%list /\ Forall Trace.quiet quiet_part
    /\ publication_of records r' (Ok tt) pub.

Lemma update_trace_ok {An : Answers} id f :
  (forall r, observer (f r)) -> trace_must (update store id f) (ok_trace update_trace).
Proof.
  intros Hf. unfold update. apply trace_pure. intros [] _.
  eapply trace_must_mono; [apply with_lock_trace with (Q := fun r' inside => exists quiet_part pub records,
    inside = (quiet_part ++ pub)%list /\ Forall Trace.quiet quiet_part /\ publication_of records r' (Ok tt) pub)|].
  2:{ intros [r'|] t Ht; [|done]. destruct Ht as (inside & Hl & q & pub & records & -> & Hq & Hp).
      by exists (q ++ pub)%list, q, pub, records. }
  apply trace_quiet_try; [apply proposal_dir_observer|]. intros dir t1 Q1.
  apply trace_quiet_try; [apply records_dir_observer|]. intros records t2 Q2.
  apply trace_quiet_try; [apply load_latest_observer|]. intros r t3 Q3.
  apply trace_quiet_try; [apply Hf|]. intros r1 t4 Q4. destruct (u32_max <=? r_sequence r1); [done|].
  apply trace_must_call. intros now. cbn -[trace_must publish_record validate_record set_generation].
  apply trace_pure. intros [] _. eapply trace_try_ok with (P := fun _ pub => publication_of records
    (set_generation (r_sequence r1 + 1) now r1) (Ok tt) pub).
  { eapply trace_must_mono; [apply publish_record_trace|]. intros [[]|] t Ht; [exact Ht|done]. }
  intros [] pub Hpub. apply trace_ret. exists (t1 ++ t2 ++ t3 ++ t4 ++ [Ev SystemTimeMillis now])%list, pub, records.
  rewrite app_nil_r, <- !app_assoc. split_and!; [done| |exact Hpub].
  rewrite !Forall_app. split_and!; try done. by repeat constructor.
Qed.
End Reading.

(** ** Waiting for the lock *)

Section Waiting.

(** A free lock is taken at once; a lock that another process keeps is
    given up when the deadline has passed.  Each round sleeps 10 ms, so a
    wait of [fuel] rounds needs [fuel - 1] sleeps. *)
Lemma wait_free fuel file deadline w :
  file ∉ w_locks w ->
  exists w', run (wait_for_lock (S fuel) file deadline) w = (w', Done (Ok tt)) /\ file ∈ w_locks w' /\ w_fs w' = w_fs w.
Proof.
  intros Hfree. cbn [wait_for_lock bind sys run]. simpl. unfold try_lock. rewrite decide_False by done. cbn [run].
  eexists. split; [reflexivity|]. simpl. split; [set_solver|done].
Qed.

Lemma wait_busy fuel file deadline w :
  file ∈ w_locks w -> deadline <= w_instant w + N.of_nat fuel * 10000000 ->
  exists w', run (wait_for_lock (S fuel) file deadline) w
             = (w', Done (bail "proposal store remained busy for this workspace"))
    /\ deadline <= w_instant w' /\ w_fs w' = w_fs w /\ w_locks w' = w_locks w.
Proof.
  revert w. induction fuel as [|fuel IH]; intros w Hheld Hdeadline;
    cbn [wait_for_lock bind sys run exec]; unfold try_lock; rewrite decide_True by done; cbn [run exec].
  - rewrite (proj2 (N.ltb_ge _ _)) by lia. cbn [run]. exists w. split_and!; [done|lia|done|done].
  - destruct (N.ltb_spec (w_instant w) deadline) as [Hlt|Hge].
    + cbn [run exec]. destruct (IH (advance_time STORE_LOCK_RETRY w)) as (w' & E & Hd & Hfs & Hl).
      * exact Hheld.
      * simpl. unfold STORE_LOCK_RETRY. lia.
      * exists w'. split_and!; [exact E|done|done|done].
    + cbn [run]. exists w. split_and!; done.
Qed.

(** Waiting for the store's lock ends: [lock_rounds] rounds always
    suffice for the 5 seconds of the deadline, and more change nothing.  A
    free lock is taken at once, a lock that is not given back is reported as
    busy once 5 seconds have passed; the files are untouched. *)
Theorem lock_wait_terminates file w fuel (Hfuel : (lock_rounds <= fuel)%nat) :
  exists w', w_fs w' = w_fs w
  /\ run (wait_for_lock fuel file (w_instant w + STORE_LOCK_WAIT)) w
     = (w', Done (if decide (file ∈ w_locks w) then bail "proposal store remained busy for this workspace" else Ok tt))
  /\ (if decide (file ∈ w_locks w) then w_instant w + 5000000000 <= w_instant w' else file ∈ w_locks w').
Proof.
  destruct fuel as [|fuel]; [by vm_compute in Hfuel; apply Nat.nle_succ_0 in Hfuel|]. destruct (decide (file ∈ w_locks w)) as [Hheld|Hfree].
  - destruct (wait_busy fuel file (w_instant w + STORE_LOCK_WAIT) w Hheld) as (w' & E & Hd & Hfs & _).
    { unfold lock_rounds in Hfuel. unfold STORE_LOCK_WAIT. lia. }
    exists w'. by split_and!.
  - destruct (wait_free fuel file (w_instant w + STORE_LOCK_WAIT) w Hfree) as (w' & E & Hin & Hfs). by exists w'.
Qed.

Lemma lock_wait_terminates_witness :
  exists w', w_fs w' = w_fs publication_world
  /\ run (wait_for_lock 501 "/state/.store.lock" (w_instant publication_world + STORE_LOCK_WAIT)) publication_world
     = (w', Done (if decide ("/state/.store.lock" ∈ w_locks publication_world)
                  then bail "proposal store remained busy for this workspace" else Ok tt))
  /\ (if decide ("/state/.store.lock" ∈ w_locks publication_world)
      then w_instant publication_world + 5000000000 <= w_instant w' else "/state/.store.lock" ∈ w_locks w').
Proof. apply lock_wait_terminates. unfold lock_rounds. lia. Defined.
End Waiting.

(** ** The properties of the store *)

Lemma current_valid {An : Answers} `{Blake3, IntentSerde, StoreSerde} store id r :
  current store id r -> valid_record id (s_workspace_hash store) r.
Proof. intros (records & _ & entries & path & _ & _ & _ & (_ & Hv & _) & _). exact Hv. Qed.

Lemma history_step_reachable r r' :
  last (history r) = Some (r_state r) -> history_step r r' -> reachable (history r) -> reachable (history r').
Proof.
  intros Hl [[-> _]|(next & -> & _ & Hc)] Hr; [done|]. by eapply reachable_step.
Qed.

(** C35: what the store loads, whatever the file system answers, is its
    newest usable generation: the records directory was found step by step
    below the workspace's own, the record was read from an entry named for
    its sequence, every entry with a higher one could not be used, and the
    record is consistent: its identity and workspace are the requested ones,
    its history is a chain of permitted transitions that ends in its state,
    and the binding it carries authorises its plan and its snapshots.
    Loading changes nothing and does not panic. *)
Theorem load_newest_valid {An : Answers} `{Blake3, IntentSerde, StoreSerde} store id :
  must (load store id) (ok_post (fun r => current store id r /\ valid_record id (s_workspace_hash store) r))
  /\ read_only (load store id) /\ no_panic (load store id).
Proof.
  split; [|exact (load_observer store id)]. eapply must_mono; [apply load_must|]. intros [r|] Hr; [|done].
  split; [done|by apply current_valid].
Qed.

(** C22: every operation that changes a stored proposal (a transition, the
    recording of policy decisions, of a verification, of an application or
    of a rollback, the discarding and the expiry) starts from the current
    record and returns a valid record of the same proposal that is the next
    generation, or the same one; its history is unchanged or one permitted
    transition longer, so what was reachable stays so. *)
Theorem updates_keep_the_life_cycle {An : Answers} `{Blake3, IntentSerde, StoreSerde} store id u :
  must (perform store id u) (ok_post (fun r' => exists r,
    current store id r /\ valid_record id (s_workspace_hash store) r'
    /\ (r' = r \/ r_sequence r' = r_sequence r + 1)
    /\ history_step r r' /\ (reachable (history r) -> reachable (history r')))).
Proof.
  eapply must_mono; [apply perform_advances|]. intros [r'|] Hr; [|done]. destruct Hr as (r & Hc & Hv & Hs & Hseq).
  exists r. split_and!; try done. eapply history_step_reachable; [|exact Hs]. apply (current_valid _ _ _ Hc).
Qed.

(** Nothing was changed, or one update ran under the lock. *)
Definition nothing_or_update (store : ProposalStore) `{StoreSerde} (r' : ProposalRecord) (t : list event) : Prop :=
  exists quiet_part rest, t = (quiet_part ++ rest)%list /\ Forall Trace.quiet quiet_part
    /\ (rest = [] \/ update_trace store r' rest).

Lemma push_transition_observer next reason r : observer (push_transition next reason r).
Proof. unfold push_transition. destruct (negb _); [done|]. by apply observer_call. Qed.

Lemma transition_trace {An : Answers} `{Blake3, IntentSerde, StoreSerde} store id next reason :
  trace_must (transition store id next reason) (ok_trace (update_trace store)).
Proof.
  unfold transition. destruct (_ || _); [done|]. apply update_trace_ok. intros r. apply push_transition_observer.
Qed.

(** An operation on a stored proposal is atomic and exclusive: when it
    succeeds it either changed nothing, or it took the store's lock, read,
    wrote the next generation to a temporary file, synchronised it, renamed
    it to a path that the call before found to be free, and closed the lock
    file, in this order and with no other change of the file system. *)
Theorem updates_are_published {An : Answers} `{Blake3, IntentSerde, StoreSerde} store id u :
  trace_must (perform store id u) (ok_trace (nothing_or_update store)).
Proof.
  assert (Hone : forall m : IO (res ProposalRecord), trace_must m (ok_trace (update_trace store)) -> trace_must m (ok_trace (nothing_or_update store))).
  { intros m Hm. eapply trace_must_mono; [exact Hm|]. intros [r'|] t Ht; [|done]. exists [], t. split_and!; [done|done|by right]. }
  destruct u; cbn [perform].
  - apply Hone, transition_trace.
  - apply Hone, update_trace_ok. intros r. cbv zeta. by destruct (_ <? _).
  - apply Hone, update_trace_ok. intros r. by destruct (negb _).
  - apply Hone, update_trace_ok. intros r. by destruct (negb _).
  - apply Hone, update_trace_ok. intros r. by destruct (negb _).
  - apply Hone, transition_trace.
  - unfold expire_if_needed. apply trace_quiet_try; [apply load_observer|]. intros r t Ht.
    destruct (_ && _).
    + eapply trace_must_mono; [apply transition_trace|]. intros [r'|] t' Ht'; [|done]. exists t, t'. split_and!; [done|done|by right].
    + apply trace_ret. exists t, []. split_and!; [done|done|by left].
Qed.

(** ** Creation *)

Section Creation.
Context {An : Answers} `{Blake3, IntentSerde, StoreSerde} (store : ProposalStore).

(** A record was created in a directory that did not exist before. *)
Definition created (v : ValidatedEditPlan) (intent : option ProposalIntentBinding) (r : ProposalRecord) : Prop :=
  (exists now, r = new_record store v intent now)
  /\ answers (CreateDir (join (s_workspace_dir store) (p_plan_id (v_plan v)))) (Ok tt)
  /\ reachable (history r).

Lemma create_record_must v intent : must (create_record store v intent) (ok_post (created v intent)).
Proof.
  unfold create_record. apply with_lock_must. intros now _. cbn [bind]. cbv zeta. apply must_ret_try. intros [] _.
  intros c Hc. cbn [bind]. destruct c as [[]|e]; [|by destruct (decide _)]. cbn [try_bind bind].
  apply must_try_ok with (P := fun _ => True); [apply must_true; by intros []|]. intros dir _.
  destruct (negb _); [done|]. apply must_try_ok with (P := fun _ => True); [apply must_true; by intros []|]. intros records _.
  apply must_try_ok with (P := fun _ => True); [apply must_true; by intros []|]. intros [] _. simpl.
  split_and!; [by exists now|exact Hc|apply reachable_created].
Qed.
End Creation.

(** A proposal created for an intent is a new one, starts its life as
    generated and validated, holds the plan and the snapshots that were
    validated, and carries a binding that is accepted and authorises them:
    each operation and each snapshot is about a target of the intent. *)
Theorem create_with_intent_authorized {An : Answers} `{Blake3, IntentSerde, StoreSerde} store v i :
  must (create_with_intent store v i) (ok_post (fun r => exists b,
    created store v (Some b) r /\ from_validated i = Ok b /\ validate_binding b = Ok tt
    /\ authorized v (b_request_id b) (b_workspace_id b) (b_workspace_root_hash b) (b_base_head b)
         (b_working_tree_digest b) (b_targets b) (b_constraints b))).
Proof.
  unfold create_with_intent. apply must_ret_try. intros [] Ha%map_err_ok. apply must_ret_try. intros b Hb%map_err_ok.
  apply must_ret_try. intros [] Hv%map_err_ok. eapply must_mono; [apply create_record_must|]. intros [r|] Hr; [|done].
  exists b. split_and!; [exact Hr|done|done|]. unfold validate_edit_plan_against_intent in Ha.
  rewrite Hb in Ha. cbn [rbind] in Ha. rewrite Hv in Ha. cbn [rbind] in Ha.
  unfold from_validated in Hb. cbv zeta in Hb. apply rbind_ok in Hb as (h & _ & [= <-]). by eapply authority_ok.
Qed.
