(* ===== verification/ApprovalFacts.v ===== *)
(** * What the approval store guarantees

    The binding comparison, the issue of a grant and its consumption
    (Approval.v), for every answer of every call. *)

From stdpp Require Import base list strings.
From Stdlib Require Import NArith Ascii String Sorted Lia.
From S2P Require Import Prelude Bytes UnixPath IO World Model Paths AuditLog Approval Trace AuditFacts.

Local Open Scope string_scope.
Local Open Scope N_scope.

(** ** Definitions of the statements *)

Definition bounded_identifier (max : N) (value : string) : Prop :=
  1 <= strlen value <= max /\ has_control value = false.

(** The bindings [normalized] accepts. *)
Record valid_binding (b : ApprovalBinding) : Prop := {
  valid_request_id : bounded_identifier 160 (ab_request_id b);
  valid_workspace_id : bounded_identifier 160 (ab_workspace_id b);
  valid_base_head : bounded_identifier 160 (ab_base_head b);
  valid_transaction_id : bounded_identifier 160 (ab_transaction_id b);
  valid_hashes : Forall (fun h => is_hash h = true)
    [ab_workspace_root_hash b; ab_working_tree_digest b; ab_diff_hash b; ab_files_hash b];
  valid_files : 1 <= N.of_nat (List.length (ab_files b)) <= MAX_APPROVAL_FILES /\
    NoDup (ab_files b) /\
    Forall (fun f => is_hash (path_hash f) = true /\ is_hash (expected_hash f) = true) (ab_files b);
  valid_actions : 1 <= N.of_nat (List.length (ab_action_hashes b)) <= MAX_APPROVAL_ACTIONS /\
    NoDup (ab_action_hashes b) /\ Forall (fun h => is_hash h = true) (ab_action_hashes b);
}.

Section Statements.
Context `{Blake3, ApprovalSerde} {An : Answers}.

(** A stored record that grants [observed] at the time [now_ms]. *)
Record record_grants (observed : ApprovalBinding) (now_ms : N) (r : ApprovalRecord) : Prop := {
  grants_exactly : ar_binding r = observed;
  grants_valid : valid_binding observed;
  grants_integrity : hash_binding (ar_binding r) = Ok (ar_binding_hash r);
  grants_unexpired : ar_issued_unix_ms r <= ar_expires_unix_ms r /\ now_ms <= ar_expires_unix_ms r;
  grants_schema : ar_schema_version r = APPROVAL_SCHEMA_VERSION;
  grants_confirmed : strlen (ar_confirmation_hash r) = 64;
}.

Definition grant_of (id : string) (r : ApprovalRecord) (state : ApprovalState) : ApprovalGrant := {|
  ag_schema_version := APPROVAL_SCHEMA_VERSION;
  ag_approval_id := id;
  ag_issued_unix_ms := ar_issued_unix_ms r;
  ag_expires_unix_ms := ar_expires_unix_ms r;
  ag_binding_hash := ar_binding_hash r;
  ag_state := state;
|}.

(** The whole history of a successful consumption: nothing was claimed
    before, the claim was created by this call, the record was moved out
    of the active directory, read back and retired. *)
Definition consumption (store : ApprovalStore) (id bytes : string) (t : list event) : Prop :=
  exists e1 e2 e3 m handle md,
    is_file md = true /\ md_len md <= MAX_APPROVAL_RECORD_BYTES /\
    t = [Ev (FollowMetadata (claim_path store id)) (Err e1);
         Ev (FollowMetadata (used_path store id)) (Err e2);
         Ev (FollowMetadata (consuming_path store id)) (Err e3);
         Ev (FollowMetadata (active_path store id)) (Ok m);
         Ev (CreateNew (claim_path store id)) (Ok handle);
         Ev (SyncAll handle) (Ok tt);
         Ev (Rename (active_path store id) (consuming_path store id)) (Ok tt);
         Ev (SymlinkMetadata (consuming_path store id)) (Ok md);
         Ev (ReadFile (consuming_path store id)) (Ok bytes);
         Ev (Rename (consuming_path store id) (used_path store id)) (Ok tt)].

(** A grant is the result of a consumption that authorises [observed]. *)
Definition consumed_grant (store : ApprovalStore) (id : string) (observed : ApprovalBinding)
    (now_ms : N) (grant : ApprovalGrant) (t : list event) : Prop :=
  exists bytes r, consumption store id bytes t /\ record_from_slice bytes = Some r /\
    record_grants observed now_ms r /\ grant = grant_of id r Consumed.
End Statements.

(** ** Bindings *)

Lemma bail_if_ok b message u : bail_if b message = Ok u <-> b = false.
Proof. unfold bail_if, bail. destruct b, u; naive_solver. Qed.
#[export] Hint Rewrite bail_if_ok : opt_ok.

Lemma validate_bounded_identifier_ok value max u :
  validate_bounded_identifier value max = Ok u <-> bounded_identifier max value.
Proof.
  unfold validate_bounded_identifier, bounded_identifier. rewrite bail_if_ok, is_empty_strlen.
  rewrite !orb_false_iff, N.eqb_neq, N.ltb_ge. intuition lia.
Qed.

Lemma validate_hash_ok value u : validate_hash value = Ok u <-> is_hash value = true.
Proof. unfold validate_hash. by rewrite bail_if_ok, negb_false_iff. Qed.

Lemma for_each_ok {A E} (check : A -> result unit E) l u :
  for_each check l = Ok u <-> Forall (fun x => check x = Ok tt) l.
Proof.
  induction l as [|x l IH]; simpl; [by destruct u|]. rewrite rbind_ok, Forall_cons, <- IH.
  split; [by intros ([] & ? & ?)|intros []; by exists tt].
Qed.

Lemma remove_dups_length {A} `{EqDecision A} (l : list A) :
  List.length (remove_dups l) = List.length l <-> NoDup l.
Proof.
  assert (forall k : list A, List.length (remove_dups k) <= List.length k)%nat as Hle.
  { induction k as [|x k IH]; simpl; [lia|]. case_decide; simpl; lia. }
  induction l as [|x l IH]; simpl; [split; [constructor|done]|].
  rewrite NoDup_cons. specialize (Hle l). case_decide; simpl; [|rewrite <- IH; naive_solver].
  split; [lia|naive_solver].
Qed.

Lemma length_guard_ok {A} `{EqDecision A} (l : list A) max :
  bool_decide (l = []) || (max <? N.of_nat (List.length l)) = false <->
  1 <= N.of_nat (List.length l) <= max.
Proof.
  rewrite orb_false_iff, bool_decide_eq_false, N.ltb_ge. destruct l.
  - split; [by intros [? _]|simpl; lia].
  - simpl List.length. split; [intros []; lia|]. intros []; split; [done|lia].
Qed.

Lemma validate_binding_ok b u :
  validate_binding b = Ok u <->
  (bounded_identifier 160 (ab_request_id b) /\ bounded_identifier 160 (ab_workspace_id b) /\
   bounded_identifier 160 (ab_base_head b) /\ bounded_identifier 160 (ab_transaction_id b)) /\
  Forall (fun h => is_hash h = true)
    [ab_workspace_root_hash b; ab_working_tree_digest b; ab_diff_hash b; ab_files_hash b] /\
  (1 <= N.of_nat (List.length (ab_files b)) <= MAX_APPROVAL_FILES /\
   Forall (fun f => is_hash (path_hash f) = true /\ is_hash (expected_hash f) = true) (ab_files b)) /\
  (1 <= N.of_nat (List.length (ab_action_hashes b)) <= MAX_APPROVAL_ACTIONS /\
   Forall (fun h => is_hash h = true) (ab_action_hashes b)).
Proof.
  assert (forall f u, (validate_hash (path_hash f) ;? validate_hash (expected_hash f)) = Ok u <->
    is_hash (path_hash f) = true /\ is_hash (expected_hash f) = true) as Hfile.
  { intros f u'. rewrite rbind_ok. setoid_rewrite validate_hash_ok. naive_solver. }
  unfold validate_binding. rewrite !Forall_cons.
  repeat setoid_rewrite rbind_ok. repeat setoid_rewrite validate_bounded_identifier_ok.
  repeat setoid_rewrite validate_hash_ok. repeat setoid_rewrite bail_if_ok.
  repeat setoid_rewrite for_each_ok. repeat setoid_rewrite length_guard_ok.
  repeat setoid_rewrite Hfile. repeat setoid_rewrite validate_hash_ok.
  split; [naive_solver|]. intros ((?&?&?&?)&(?&?&?&?&_)&(?&?)&?&?).
  repeat (exists tt; split; [done|]). done.
Qed.

Lemma normalized_ok b b' : normalized b = Ok b' <-> b' = b /\ valid_binding b.
Proof.
  unfold normalized, btree_set. split.
  - intros Hn. apply rbind_ok in Hn as (? & Hv & Hn). apply rbind_ok in Hn as (? & Hf & Hn).
    apply rbind_ok in Hn as (? & Ha & [= <-]).
    apply validate_binding_ok in Hv as ((?&?&?&?)&?&(?&?)&?&?).
    apply bail_if_ok, negb_false_iff, Nat.eqb_eq, remove_dups_length in Hf, Ha.
    split; [done|]. by constructor; auto.
  - intros [-> []]. destruct_and!.
    assert (validate_binding b = Ok tt) as -> by (apply validate_binding_ok; split_and!; done).
    simpl. rewrite !(proj2 (Nat.eqb_eq _ _)) by (by apply remove_dups_length). done.
Qed.

Lemma compare_binding_ok expected observed :
  compare_binding expected observed = Ok tt <-> expected = observed.
Proof.
  unfold compare_binding. split; [|intros <-].
  - repeat case_match; intros; simplify_eq/=; split_bools; rewrite ?String.eqb_eq in *.
    destruct expected, observed; simpl in *. by subst.
  - by rewrite !String.eqb_refl, !bool_decide_eq_true_2.
Qed.

(** ** Consumption *)

Section Consume.
Context `{Blake3, ApprovalSerde} {An : Answers}.

Lemma check_record_ok id observed now r grant :
  check_record id observed now r = Ok grant ->
  record_grants observed now r /\ grant = grant_of id r Consumed.
Proof.
  unfold check_record. intros Hc. apply rbind_ok in Hc as (b & Hb & Hc).
  apply map_err_ok, normalized_ok in Hb as [-> Hvalid].
  apply rbind_ok in Hc as (h & Hh & Hc). apply map_err_ok in Hh.
  destruct (_ || _) eqn:Hbad; [done|]. destruct (_ <? now) eqn:Hexp; [done|].
  apply rbind_ok in Hc as ([] & Hcmp & [= <-]). apply compare_binding_ok in Hcmp.
  split_bools. rewrite ?String.eqb_eq, ?N.eqb_eq, ?N.ltb_ge in *. subst.
  split; [by constructor|done].
Qed.

Lemma check_record_complete id observed now r :
  record_grants observed now r -> check_record id observed now r = Ok (grant_of id r Consumed).
Proof.
  intros [<- Hvalid Hhash [Hissued Hexp] Hschema Hconf]. unfold check_record.
  rewrite (proj2 (normalized_ok (ar_binding r) (ar_binding r)) (conj eq_refl Hvalid)).
  cbn [map_err rbind]. rewrite Hhash. cbn [map_err rbind].
  rewrite Hschema, Hconf, !N.eqb_refl, String.eqb_refl, (proj2 (N.ltb_ge _ _) Hissued), (proj2 (N.ltb_ge _ _) Hexp).
  simpl. by rewrite (proj2 (compare_binding_ok _ _) eq_refl).
Qed.

(** Reading the record and checking it, on the trace. *)
Lemma read_check_trace store id observed now :
  trace_must (record <-? read_record (consuming_path store id) ;;
              lift (check_record id observed now record))
    (ok_trace (fun grant t => exists md bytes r,
       t = [Ev (SymlinkMetadata (consuming_path store id)) (Ok md);
            Ev (ReadFile (consuming_path store id)) (Ok bytes)] /\
       is_file md = true /\ md_len md <= MAX_APPROVAL_RECORD_BYTES /\
       record_from_slice bytes = Some r /\ record_grants observed now r /\
       grant = grant_of id r Consumed)).
Proof.
  unfold read_record. apply trace_must_call; intros [md|]; [|done]. cbn -[trace_must].
  destruct (_ || _) eqn:Hmd; [done|]. cbn -[trace_must]. split_bools. rewrite N.ltb_ge in *.
  apply trace_must_call; intros [bytes|]; [|done]. cbn -[trace_must].
  destruct (record_from_slice bytes) as [r|] eqn:Hr; [|done]. simpl ok_or.
  apply trace_ret. destruct (check_record _ _ _ _) as [grant|] eqn:Hc; [|done]. simpl.
  apply check_record_ok in Hc as [? ?]. eauto 10.
Qed.

Lemma consume_at_trace store id observed now :
  trace_must (consume_at store id observed now) (ok_trace (consumed_grant store id observed now)).
Proof.
  unfold consume_at. apply trace_pure; intros ? _.
  do 2 (apply trace_must_call; intros [?|]; [done|]). apply trace_must_call; intros [?|e3]; [done|].
  apply trace_must_call; intros [m|?]; [|done].
  apply trace_must_call; intros [handle|?]; [|simpl; by destruct (bool_decide _)].
  apply trace_must_call; intros [[]|?]; [|done].
  apply trace_must_call; intros [[]|?]; [|simpl; by destruct (bool_decide _)].
  cbn [try_bind bind]. eapply trace_must_bind; [apply read_check_trace|].
  intros [grant|err] t Ht; (apply trace_must_call; intros [[]|?]; [|done]); apply trace_ret; simpl; [|done].
  destruct Ht as (md & bytes & r & -> & ? & ? & ? & ? & ->).
  exists bytes, r. split; [|done]. by exists e, e0, e3, m, handle, md.
Qed.

(** Once the record left the active directory, its retirement is
    attempted whatever the comparison said. *)
Definition moves_record (store : ApprovalStore) (id : string) (e : event) : bool :=
  match e with
  | Ev c r =>
      match c in syscall R return R -> bool with
      | Rename from to =>
          fun r => (from =?s active_path store id) && (to =?s consuming_path store id) && is_ok r
      | _ => fun _ => false
      end r
  end.

Lemma read_check_quiet store id observed now :
  trace_must (record <-? read_record (consuming_path store id) ;;
              lift (check_record id observed now record)) (fun _ t => Forall quiet t).
Proof.
  unfold read_record. apply quiet_must. simpl. split; [done|]. intros [md|]; [|done].
  simpl. destruct (_ || _); [done|]. simpl. split; [done|]. intros [bytes|]; [|done]. simpl.
  by destruct (record_from_slice bytes).
Qed.

Lemma consume_at_burns store id observed now :
  trace_must (consume_at store id observed now) (fun _ t =>
    existsb (moves_record store id) t = true ->
    exists before answer,
      t = (before ++ [Ev (Rename (consuming_path store id) (used_path store id)) answer])%list).
Proof.
  unfold consume_at. destruct (validate_storage_id id); [|done].
  do 3 (apply trace_must_call; intros [?|?]; [done|]).
  apply trace_must_call; intros [m|?]; [|done].
  apply trace_must_call; intros [handle|?]; [|simpl; by destruct (bool_decide _)].
  apply trace_must_call; intros [[]|?]; [|done].
  apply trace_must_call; intros [[]|?].
  2:{ simpl. destruct (bool_decide _); apply trace_ret; simpl; by rewrite andb_false_r. }
  cbn [try_bind bind]. eapply trace_must_bind; [apply read_check_quiet|].
  intros outcome t _. apply trace_must_call; intros answer.
  assert (forall r : claimed ApprovalGrant, trace_must (Ret r) (fun _ u => u = [])) as Hret by done.
  destruct answer as [[]|e']; eapply trace_must_mono; [apply Hret| |apply Hret|];
    intros r u -> _; eexists (_ :: _ :: _ :: _ :: _ :: _ :: _ :: t), _; reflexivity.
Qed.
End Consume.

(** ** Issue *)

Section Issue.
Context `{Blake3, ApprovalSerde} {An : Answers}.

(** The record written by an issue. *)
Definition issued_record (binding : ApprovalBinding) (confirmation : NativeConfirmation)
    (binding_hash : string) (ttl_seconds now_ms : N) : ApprovalRecord := {|
  ar_schema_version := APPROVAL_SCHEMA_VERSION;
  ar_issued_unix_ms := now_ms;
  ar_expires_unix_ms := N.min u64_max (now_ms + ttl_seconds * 1000);
  ar_confirmation_hash := confirmation_hash_of confirmation;
  ar_binding_hash := binding_hash;
  ar_binding := binding;
|}.

Definition issued (store : ApprovalStore) (binding : ApprovalBinding)
    (confirmation : NativeConfirmation) (ttl_seconds now_ms : N) (grant : ApprovalGrant)
    (t : list event) : Prop :=
  exists binding_hash json,
    let r := issued_record binding confirmation binding_hash ttl_seconds now_ms in
    hash_binding binding = Ok binding_hash /\ record_to_vec r = Ok json /\
    strlen json < MAX_APPROVAL_RECORD_BYTES /\
    grant = grant_of (ag_approval_id grant) r Available /\
    validate_storage_id (ag_approval_id grant) = Ok tt /\
    published (active_path store (ag_approval_id grant)) (json ++ String (byte 10) "") t.

Lemma expiry_saturates now ttl :
  ttl <= MAX_APPROVAL_TTL_SECONDS ->
  saturating_add64 now (saturating_mul64 ttl 1000) = N.min u64_max (now + ttl * 1000).
Proof.
  unfold saturating_add64, saturating_mul64, MAX_APPROVAL_TTL_SECONDS. intros Ht.
  rewrite (N.min_r _ (ttl * 1000)); [done|]. unfold u64_max. lia.
Qed.

Lemma issue_at_trace store binding confirmation ttl now :
  trace_must (issue_at store binding confirmation ttl now) (ok_trace (fun grant t =>
    1 <= ttl <= MAX_APPROVAL_TTL_SECONDS /\ valid_binding binding /\
    issued store binding confirmation ttl now grant t)).
Proof.
  unfold issue_at. apply trace_pure; intros ? Httl. apply bail_if_ok in Httl. split_bools.
  rewrite N.eqb_neq, N.ltb_ge in *. rewrite expiry_saturates by done.
  apply trace_pure; intros ? Hn. apply normalized_ok in Hn as [-> Hvalid].
  apply trace_pure; intros binding_hash Hh.
  eapply trace_try_ok with (P := fun _ t => Forall quiet t).
  { eapply trace_must_mono; [apply quiet_must, new_storage_id_quiet|]. by intros []. }
  intros id t1 Hq1. apply trace_pure; intros [] Hid. apply trace_pure; intros json Hjson.
  apply map_err_ok in Hjson.
  apply trace_pure; intros ? Hsize. apply bail_if_ok, N.ltb_ge in Hsize.
  rewrite strlen_app in Hsize. change (strlen (String (byte 10) "")) with 1 in Hsize.
  eapply trace_try_ok; [eapply trace_must_mono; [apply atomic_create_trace|]|].
  { intros [] ?; [intros Hp; exact Hp|done]. }
  intros ? t (before & temp & handle & Hq & ->). apply trace_ret.
  split; [lia|]. split; [done|]. exists binding_hash, json. split; [done|]. split; [done|].
  split; [lia|]. split; [done|]. split; [done|].
  exists (t1 ++ before)%list, temp, handle. split; [by apply Forall_app|].
  by rewrite app_nil_r, <- app_assoc.
Qed.
End Issue.

(** ** Properties *)

(** [normalized] accepts exactly the valid bindings, unchanged. *)
Theorem normalized_exact b b' : normalized b = Ok b' <-> b' = b /\ valid_binding b.
Proof. apply normalized_ok. Qed.

(** The comparison of a stored binding with the observed one succeeds
    only when all eleven fields agree, that is when they are equal. *)
Theorem compare_binding_exact expected observed :
  compare_binding expected observed = Ok tt <-> expected = observed.
Proof. apply compare_binding_ok. Qed.

(** A consumption that succeeds found no earlier claim, created the
    claim file itself, moved the record out of the active directory, read
    from it an unexpired, intact record of exactly the observed binding, and
    retired it. *)
Theorem consume_exactly `{Blake3, ApprovalSerde} {An : Answers} store id observed now :
  trace_must (consume_at store id observed now) (ok_trace (consumed_grant store id observed now)).
Proof. apply consume_at_trace. Qed.

(** Drift is not a retry oracle: whenever the record has left the
    active directory, the last call retires it, whatever the outcome of the
    comparison. *)
Theorem consume_burns `{Blake3, ApprovalSerde} {An : Answers} store id observed now :
  trace_must (consume_at store id observed now) (fun _ t =>
    existsb (moves_record store id) t = true ->
    exists before answer,
      t = (before ++ [Ev (Rename (consuming_path store id) (used_path store id)) answer])%list).
Proof. apply consume_at_burns. Qed.

(** A grant is only issued for a valid binding and a lifetime between 1
    and 1800 seconds; it expires at the saturated sum and is published
    atomically under its identifier in the active directory. *)
Theorem issue_publishes `{Blake3, ApprovalSerde} {An : Answers} store binding confirmation ttl now :
  trace_must (issue_at store binding confirmation ttl now) (ok_trace (fun grant t =>
    1 <= ttl <= MAX_APPROVAL_TTL_SECONDS /\ valid_binding binding /\
    issued store binding confirmation ttl now grant t)).
Proof. apply issue_at_trace. Qed.
