(* ===== verification/TransactionWorld.v ===== *)
(** * Apply transactions on a file system: the file operations

    The operations of TransactionFs.v executed on a world, on targets below a
    real workspace directory: what they answer, the one change each makes,
    and that every intermediate tree satisfies an invariant that tolerates a
    staging file.  The workspace lock on a world closes the file. *)

From stdpp Require Import base list strings gmap pretty.
From Stdlib Require Import NArith Ascii String Lia.
From S2P Require Import Prelude Bytes UnixPath TextFacts IO World WorldFacts Anyhow Paths GitState Transaction TransactionFs TransactionRun TransactionFacts.

Local Open Scope string_scope.
Local Open Scope N_scope.
Local Open Scope list_scope.

(** ** Names *)

(** The staging files of a process. *)
Definition staging_name (label : string) (pid counter : N) : string :=
  (".opticcode-" ++ label ++ "-" ++ dec pid ++ "-" ++ dec counter ++ ".tmp")%string.

Definition not_staging (n : string) : Prop := starts_with ".opticcode-" n = false.

(** A relative location a transaction may manage; its portable form is
    itself. *)
Record manageable (t : loc) : Prop := {
  mg_valid : valid_names t;
  mg_nonempty : t <> [];
  mg_reserved : ".opticcode" ∉ t;
  mg_utf8 : utf8_valid (rel t) = true;
  mg_portable : replace_backslash (rel t) = rel t;
}.

Lemma manageable_path t : manageable t -> validate_relative_path (rel t) = Ok (rel t).
Proof.
  intros [Hv Hn Hr Hu _]. apply validate_relative_path_ok. rewrite path_names_rel by done. split; [|done].
  split; [by apply rel_relative|]. split; [|by rewrite path_names_rel].
  rewrite components_rel by done. by intros (n & ? & _)%list_elem_of_fmap.
Qed.

Lemma manageable_portable t : manageable t -> path_to_portable_string (rel t) = Ok (rel t).
Proof. intros [_ _ _ Hu Hp]. unfold path_to_portable_string, to_str. by rewrite Hu, Hp. Qed.

Lemma rel_concat l k : l <> [] -> k <> [] -> rel (l ++ k) = (rel l ++ "/" ++ rel k)%string.
Proof.
  intros Hl. revert k. induction l as [|n l IH]; [done|]. intros k Hk. destruct l as [|m l]; [by destruct k|].
  change (rel ((n :: m :: l) ++ k)) with (n ++ "/" ++ rel ((m :: l) ++ k)%list)%string.
  rewrite IH by done. change (rel (n :: m :: l)) with (n ++ "/" ++ rel (m :: l))%string. by rewrite !append_assoc.
Qed.

Lemma join_render_rel l t : valid_names l -> valid_names t -> t <> [] -> join (render l) (rel t) = render (l ++ t).
Proof.
  intros Hl Ht Hn. unfold join. rewrite rel_relative by done. change (is_empty (render l)) with false. cbn iota.
  destruct (decide (l = [])) as [->|Hne]; [done|].
  assert (ends_with "/" (render l) = false) as ->.
  { destruct (exists_last Hne) as (k & m & ->). apply Forall_app in Hl as [Hk Hm].
    apply Forall_inv in Hm. by apply render_no_trailing. }
  unfold render. rewrite rel_concat by done. by rewrite append_assoc.
Qed.

Lemma starts_with_render l k : valid_names (l ++ k) -> path_starts_with (render (l ++ k)) (render l) = true.
Proof.
  intros Hv. pose proof Hv as [Hl _]%Forall_app. unfold path_starts_with. rewrite !components_render by done.
  apply bool_decide_eq_true. simpl. rewrite length_map, map_app. by rewrite take_app_length', ?length_map by (by rewrite ?length_map).
Qed.

Lemma valid_names_snoc l n : valid_names l -> valid_name n = true -> valid_names (l ++ [n]).
Proof. intros Hl Hn. apply Forall_app. split; [done|]. by constructor. Qed.

Lemma real_valid fs l : real_dir fs l -> valid_names l.
Proof. by intros [? _]. Qed.
#[export] Hint Extern 1 (valid_names _) => (eapply real_valid; eassumption) : core.

(** ** Calls on directories *)

Section Calls.
Context (I : world -> Prop).

Lemma sync_directory_wp w d Q :
  real_dir (w_fs w) d -> I w -> Q w (Ok tt) -> wp I (sync_directory (render d)) w Q.
Proof.
  intros Hd HI HQ. unfold sync_directory. apply wp_map_err, wp_try.
  eapply wp_call; [simpl; by rewrite open_read_dir|done|]. by split.
Qed.

Lemma sync_parent_wp w d n Q :
  real_dir (w_fs w) d -> valid_name n = true -> I w -> Q w (Ok tt) ->
  wp I (sync_parent_directory (render (d ++ [n]))) w Q.
Proof.
  intros Hd Hn HI HQ. unfold sync_parent_directory. rewrite parent_render by auto. by apply sync_directory_wp.
Qed.

(** ** Targets *)

(** What is at a location, as far as a target is concerned. *)
Definition file_or_missing (fs : fsys) (l : loc) : Prop :=
  fs !! l = None \/ exists c a, fs !! l = Some (File c a).
Definition content_at (fs : fsys) (l : loc) : option string :=
  match fs !! l with Some (File c _) => Some c | _ => None end.

Lemma validate_components_wp w cur td tn Q :
  real_dir (w_fs w) (cur ++ td) -> valid_name tn = true -> file_or_missing (w_fs w) (cur ++ td ++ [tn]) ->
  I w -> Q w (Ok tt) ->
  wp I (validate_components (render cur) (map Normal (td ++ [tn]))) w Q.
Proof.
  intros Hreal Htn Hf HI HQ. revert cur Hreal Hf. induction td as [|n td IH]; intros cur Hreal Hf.
  - rewrite app_nil_r in *. cbn [app map validate_components component_str]. rewrite join_render by auto.
    destruct Hf as [Hf|(c & a & Hf)].
    + eapply wp_sys; [simpl; by rewrite exec_metadata_missing|done|]. done.
    + eapply wp_sys; [simpl; by rewrite (exec_metadata_file _ _ _ Hreal Htn _ _ _ Hf)|done|]. done.
  - cbn [app map validate_components component_str]. replace (cur ++ n :: td)%list with ((cur ++ [n]) ++ td)%list in *
      by (by rewrite <- app_assoc).
    pose proof Hreal as Hn%real_dir_prefix. pose proof (real_valid _ _ Hn) as [Hc Hn']%Forall_app.
    apply Forall_inv in Hn'. rewrite join_render by done.
    destruct (stat_dir w _ Hn false) as (m & Hm & Ht).
    eapply wp_sys; [simpl; by rewrite Hm|done|]. cbv beta iota.
    unfold metadata_is_link_or_reparse, is_symlink, is_dir, is_file. rewrite Ht.
    assert (match map Normal (td ++ [tn]) with [] => true | _ => false end = false) as -> by (by destruct td).
    apply IH; [done|]. by rewrite <- app_assoc.
Qed.

Lemma validate_target_wp w ws td tn Q :
  real_dir (w_fs w) (ws ++ td) -> manageable (td ++ [tn]) -> file_or_missing (w_fs w) (ws ++ td ++ [tn]) ->
  I w -> Q w (Ok tt) ->
  wp I (validate_target_location (render ws) (rel (td ++ [tn]))) w Q.
Proof.
  intros Hreal Hm Hf HI HQ. pose proof (mg_valid _ Hm) as [Htd Htn]%Forall_app. apply Forall_inv in Htn.
  pose proof (real_dir_prefix _ _ _ Hreal) as Hws.
  unfold validate_target_location. rewrite manageable_path by done. cbn [lift try_bind bind].
  rewrite components_rel by apply Hm. apply wp_try, validate_components_wp; [done..|].
  rewrite join_render_rel by (apply Hm || auto). rewrite app_assoc, parent_render by auto.
  unfold path_is_dir. destruct (stat_dir w _ Hreal true) as (m & Hs & Ht).
  eapply wp_call; [simpl; by rewrite Hs|done|]. cbn [bind]. unfold is_dir. rewrite Ht. cbn [bool_decide negb].
  eapply wp_call; [by apply exec_canonicalize_dir|done|]. cbn [bind].
  by rewrite starts_with_render by auto.
Qed.

Lemma read_file_wp w d n Q :
  real_dir (w_fs w) d -> valid_name n = true -> file_or_missing (w_fs w) (d ++ [n]) ->
  I w -> Q w (Ok (content_at (w_fs w) (d ++ [n]))) ->
  wp I (read_optional_regular_file (render (d ++ [n]))) w Q.
Proof.
  intros Hreal Hn Hf HI HQ. unfold read_optional_regular_file, content_at in *.
  destruct Hf as [Hf|(c & a & Hf)]; rewrite Hf in HQ.
  - eapply wp_sys; [simpl; by rewrite exec_metadata_missing|done|]. done.
  - eapply wp_sys; [simpl; by rewrite (exec_metadata_file _ _ _ Hreal Hn _ _ _ Hf)|done|].
    eapply wp_call; [simpl; by rewrite (exec_read_file _ _ _ Hreal Hn _ _ Hf)|done|]. done.
Qed.

Lemma read_target_wp w ws td tn Q :
  real_dir (w_fs w) (ws ++ td) -> manageable (td ++ [tn]) -> file_or_missing (w_fs w) (ws ++ td ++ [tn]) ->
  I w -> Q w (Ok (content_at (w_fs w) (ws ++ td ++ [tn]))) ->
  wp I (read_validated_target (render ws) (rel (td ++ [tn]))) w Q.
Proof.
  intros Hreal Hm Hf HI HQ. unfold read_validated_target. apply wp_try, validate_target_wp; [done..|].
  pose proof (mg_valid _ Hm) as [Htd Htn]%Forall_app. apply Forall_inv in Htn.
  pose proof (real_valid _ _ (real_dir_prefix _ _ _ Hreal)) as Hv.
  rewrite join_render_rel, app_assoc in * by (apply Hm || done). by apply read_file_wp.
Qed.
End Calls.

(** ** Staged writes

    An invariant of trees that survives the staging of a process: adding a
    staging file, with any content, below any directory where its name is
    free. *)

Definition staging_tolerant (pid : N) (J : fsys -> Prop) : Prop :=
  forall fs d label counter c a,
    any_byte (Ascii.eqb slash) label = false -> J fs -> fs !! (d ++ [staging_name label pid counter]) = None ->
    J (<[(d ++ [staging_name label pid counter])%list := File c a]> fs).

(** No staging file of this process is left anywhere. *)
Definition no_staging (pid : N) (fs : fsys) : Prop :=
  forall d label counter, fs !! (d ++ [staging_name label pid counter]) = None.

(** Everything but the tree, the counter and the locks. *)
Definition same_host (w w' : world) : Prop :=
  w_cwd w' = w_cwd w /\ w_clock w' = w_clock w /\ w_instant w' = w_instant w /\ w_pid w' = w_pid w /\
  w_env w' = w_env w /\ w_command w' = w_command w.
Definition same_but_tree (w w' : world) : Prop := same_host w w' /\ w_locks w' = w_locks w.

#[export] Instance same_host_refl : Reflexive same_host.
Proof. by repeat split. Qed.
#[export] Instance same_host_trans : Transitive same_host.
Proof. unfold same_host. intros x y z (?&?&?&?&?&?) (?&?&?&?&?&?). repeat split; congruence. Qed.
#[export] Instance same_but_tree_refl : Reflexive same_but_tree.
Proof. by split. Qed.
#[export] Instance same_but_tree_trans : Transitive same_but_tree.
Proof. intros x y z [? ?] [? ?]. split; [by etransitivity|congruence]. Qed.

Lemma same_clock w w' : same_but_tree w w' -> fresh_file w' = fresh_file w.
Proof. intros [(_ & Hc & _) _]. unfold fresh_file. by rewrite Hc. Qed.

Lemma same_pid w w' : same_but_tree w w' -> w_pid w' = w_pid w.
Proof. by intros [(_ & _ & _ & Hp & _) _]. Qed.

(** The change an operation makes: the tree becomes [fs]. *)
Definition becomes (w : world) (fs : fsys) (w' : world) : Prop := same_but_tree w w' /\ w_fs w' = fs.

Lemma becomes_set_fs w fs : becomes w fs (set_fs fs w).
Proof. by split. Qed.

Lemma starts_with_app p s : starts_with p (p ++ s)%string = true.
Proof.
  unfold starts_with. induction p as [|c p IH]; [by destruct s|]. rewrite append_cons. simpl.
  by destruct (ascii_dec c c).
Qed.

Lemma staging_is label pid counter : starts_with ".opticcode-" (staging_name label pid counter) = true.
Proof. apply starts_with_app. Qed.

Lemma not_staging_ne n label pid counter : not_staging n -> n <> staging_name label pid counter.
Proof. unfold not_staging. intros Hn ->. by rewrite staging_is in Hn. Qed.

Lemma staging_valid label pid counter :
  any_byte (Ascii.eqb slash) label = false -> valid_name (staging_name label pid counter) = true.
Proof.
  intros Hl. unfold valid_name. assert (any_byte (Ascii.eqb slash) (staging_name label pid counter) = false) as ->.
  { unfold staging_name. rewrite !any_byte_app, Hl, !dec_free by done. reflexivity. }
  unfold staging_name. change (".opticcode-" ++ label ++ "-" ++ dec pid ++ "-" ++ dec counter ++ ".tmp")%string
    with (String "." (String "o" ("pticcode-" ++ label ++ "-" ++ dec pid ++ "-" ++ dec counter ++ ".tmp")%string)).
  reflexivity.
Qed.

Section Staging.
Context (pid : N) (J : fsys -> Prop) (Htolerant : staging_tolerant pid J).
Let I (w : world) : Prop := J (w_fs w).

(** A staging file is written in full. *)
Lemma write_synced_wp w d label counter bytes Q :
  w_pid w = pid -> real_dir (w_fs w) d -> any_byte (Ascii.eqb slash) label = false ->
  w_fs w !! (d ++ [staging_name label (w_pid w) counter]) = None -> J (w_fs w) ->
  (forall w', becomes w (<[(d ++ [staging_name label (w_pid w) counter])%list := File bytes (fresh_file w)]> (w_fs w)) w' ->
     Q w' (Ok tt)) ->
  wp I (write_synced_file (render (d ++ [staging_name label (w_pid w) counter])) bytes) w Q.
Proof.
  intros Hpid Hd Hl Hnone HJ HQ. pose proof Htolerant as Htol. rewrite <- Hpid in Htol. pose proof (staging_valid label (w_pid w) counter Hl) as Hv.
  set (n := staging_name label (w_pid w) counter) in *. unfold write_synced_file.
  eapply wp_call; [rewrite exec_create_new by done; by rewrite Hnone|by apply Htol|]. cbn [map_err bind].
  set (w1 := set_fs _ w).
  assert (real_dir (w_fs w1) d) as Hd1 by (apply real_dir_insert; [done|by apply missing_not_dir]).
  assert (w_fs w1 !! (d ++ [n])%list = Some (File "" (fresh_file w))) as H1 by apply lookup_insert_eq.
  assert (w_fs (set_fs (<[(d ++ [n])%list := File ("" ++ bytes)%string (touched w1 (fresh_file w))]> (w_fs w1)) w1) =
          <[(d ++ [n])%list := File bytes (fresh_file w)]> (w_fs w)) as Hfs
    by (simpl; by rewrite insert_insert_eq).
  eapply wp_call; [by apply (exec_write_all w1 d n "" (fresh_file w))|unfold I; rewrite Hfs; by apply Htol|].
  eapply wp_call; [reflexivity|unfold I; rewrite Hfs; by apply Htol|].
  eapply wp_call; [reflexivity|unfold I; rewrite Hfs; by apply Htol|].
  cbn [bind map_err]. apply HQ. by split.
Qed.

(** A new artifact is published in one step. *)
Lemma write_new_wp w d n bytes Q :
  w_pid w = pid -> real_dir (w_fs w) d -> valid_name n = true -> utf8_valid n = true -> not_staging n ->
  w_fs w !! (d ++ [n]) = None -> no_staging (w_pid w) (w_fs w) ->
  J (w_fs w) -> J (<[(d ++ [n])%list := File bytes (fresh_file w)]> (w_fs w)) ->
  (forall w', becomes w (<[(d ++ [n])%list := File bytes (fresh_file w)]> (w_fs w)) w' -> Q w' (Ok tt)) ->
  wp I (write_new_atomic (render (d ++ [n])) bytes) w Q.
Proof.
  intros Hpid Hd Hn Hu Hs Hnone Hst HJ HJ' HQ. pose proof Htolerant as Htol. rewrite <- Hpid in Htol. unfold write_new_atomic, path_exists.
  eapply wp_call; [simpl; by rewrite exec_metadata_missing|done|]. cbn [bind is_ok].
  rewrite parent_render by auto. unfold file_name. rewrite components_render
    by eauto using valid_names_snoc.
  rewrite map_app. cbn [map rev]. rewrite rev_app_distr. cbn [rev app]. unfold to_str. rewrite Hu. change (default "artifact" (Some n)) with n.
  pose proof (valid_name_spec _ Hn) as (_ & _ & _ & Hslash).
  unfold unique_temp_path. eapply wp_call; [reflexivity|done|]. eapply wp_call; [reflexivity|done|]. cbn [bind].
  set (w0 := set_unique _ w). change (w_pid w0) with (w_pid w). fold (staging_name n (w_pid w) (w_unique w)).
  rewrite join_render by eauto using staging_valid.
  change (w_pid w) with (w_pid w0). apply wp_try, write_synced_wp; [done|done|done|by apply Hst|done|].
  intros w1 [Hsame Hfs]. cbv beta iota. change (fresh_file w0) with (fresh_file w) in Hfs.
  set (t := staging_name n (w_pid w0) (w_unique w)) in *. change (w_fs w0) with (w_fs w) in Hfs.
  assert (real_dir (w_fs w1) d) as Hd1.
  { rewrite Hfs. apply real_dir_insert; [done|by apply missing_not_dir, Hst]. }
  assert ((d ++ [t])%list <> (d ++ [n])%list) as Hne by (intros [_ E]%app_inj_tail; symmetry in E; by apply not_staging_ne in E).
  assert (<[(d ++ [n])%list := File bytes (fresh_file w)]> (delete (d ++ [t])%list (w_fs w1)) =
          <[(d ++ [n])%list := File bytes (fresh_file w)]> (w_fs w)) as Hfinal.
  { rewrite Hfs, delete_insert_id; [done|]. apply Hst. }
  assert (w_fs w1 !! (d ++ [t])%list = Some (File bytes (fresh_file w))) as Ht by (rewrite Hfs; apply lookup_insert_eq).
  unfold move_new_file. eapply wp_sys; [apply (exec_rename_file w1 d t d n bytes (fresh_file w)); try done| |].
  - by apply staging_valid.
  - rewrite Hfs. apply missing_not_dir. by rewrite lookup_insert_ne.
  - unfold I. cbn [w_fs set_fs]. by rewrite Hfinal.
  - apply sync_directory_wp; cbn [w_fs set_fs]; rewrite Hfinal; try done.
    { apply real_dir_insert; [done|by apply missing_not_dir]. }
    apply HQ. split; [|reflexivity]. exact (same_but_tree_trans _ _ _ Hsame (proj1 (becomes_set_fs w1 _))).
Qed.

(** A target is replaced, or created, in one step. *)
Lemma atomic_replace_wp w ws td tn bytes faults Q :
  w_pid w = pid -> real_dir (w_fs w) (ws ++ td) -> manageable (td ++ [tn]) -> not_staging tn ->
  file_or_missing (w_fs w) (ws ++ td ++ [tn]) -> no_staging (w_pid w) (w_fs w) ->
  J (w_fs w) -> J (<[(ws ++ td ++ [tn])%list := File bytes (fresh_file w)]> (w_fs w)) ->
  (forall w', becomes w (<[(ws ++ td ++ [tn])%list := File bytes (fresh_file w)]> (w_fs w)) w' -> Q w' (Ok tt)) ->
  (forall w' f e, faults = Some f -> f AfterTargetStaged = Err e -> becomes w (w_fs w) w' -> Q w' (Err e)) ->
  wp I (atomic_replace_bytes_checked (render ws) (rel (td ++ [tn])) bytes
    (content_at (w_fs w) (ws ++ td ++ [tn])) faults) w Q.
Proof.
  intros Hpid Hd Hm Hs Hf Hst HJ HJ' HQ HE. pose proof Htolerant as Htol. rewrite <- Hpid in Htol. pose proof (mg_valid _ Hm) as [Htd Htn]%Forall_app. apply Forall_inv in Htn.
  pose proof (real_dir_prefix _ _ _ Hd) as Hws.
  unfold atomic_replace_bytes_checked. apply wp_try, validate_target_wp; [done..|]. cbv beta iota.
  rewrite join_render_rel by (apply Hm || eauto). rewrite app_assoc in *. rewrite parent_render by eauto.
  unfold unique_temp_path. eapply wp_call; [reflexivity|done|]. eapply wp_call; [reflexivity|done|]. cbn [bind].
  set (w0 := set_unique _ w). change (w_pid w) with (w_pid w0) in Hst |- *.
  fold (staging_name "target" (w_pid w0) (w_unique w)).
  set (t := staging_name "target" (w_pid w0) (w_unique w)) in *.
  assert (valid_name t = true) as Ht by (by apply staging_valid).
  rewrite join_render by eauto. apply wp_try, write_synced_wp; [done|done|done|by apply Hst|done|].
  fold t. intros w1 [Hsame Hfs]. cbv beta iota. change (fresh_file w0) with (fresh_file w) in Hfs.
  change (w_fs w0) with (w_fs w) in Hfs.
  assert (w_fs w !! ((ws ++ td) ++ [t]) = None) as Hnone by apply Hst.
  assert (real_dir (w_fs w1) (ws ++ td)) as Hd1.
  { rewrite Hfs. apply real_dir_insert; [done|by apply missing_not_dir]. }
  assert ((ws ++ td) ++ [t] <> (ws ++ td) ++ [tn]) as Hne by (intros [_ E]%app_inj_tail; symmetry in E; by apply not_staging_ne in E).
  assert (w_fs w1 !! ((ws ++ td) ++ [tn]) = w_fs w !! ((ws ++ td) ++ [tn])) as Hsee by (rewrite Hfs; by apply lookup_insert_ne).
  assert (w_fs w1 !! ((ws ++ td) ++ [t]) = Some (File bytes (fresh_file w))) as Ht1 by (rewrite Hfs; apply lookup_insert_eq).
  assert (J (w_fs w1)) as HJ1 by (rewrite Hfs; by apply Htol).
  assert (delete ((ws ++ td) ++ [t]) (w_fs w1) = w_fs w) as Hdel by (rewrite Hfs; by apply delete_insert_id).
  match goal with |- context [match ?r with Ok _ => _ | Err e => discard _ e end] => destruct r as [u|e] eqn:Efault end.
  2:{ unfold discard. eapply wp_call; [by eapply exec_remove_file|unfold I; cbn [w_fs set_fs]; by rewrite Hdel|].
      destruct faults as [f|]; [|done]. apply (HE _ f e); [done|done|]. split; [exact (same_but_tree_trans _ _ _ Hsame (proj1 (becomes_set_fs w1 _)))|exact Hdel]. }
  assert (file_or_missing (w_fs w1) (ws ++ td ++ [tn])) as Hf1 by (unfold file_or_missing in *; by rewrite app_assoc, Hsee).
  eapply wp_bind; [apply (read_target_wp I w1 ws td tn (fun w' r => w' = w1 /\ r = Ok (content_at (w_fs w1) (ws ++ td ++ [tn])))); done|].
  assert (content_at (w_fs w1) (ws ++ td ++ [tn]) = content_at (w_fs w) ((ws ++ td) ++ [tn])) as Hcontent
    by (unfold content_at; by rewrite app_assoc, Hsee).
  intros ? ? [-> ->]. cbv beta iota. rewrite Hcontent, bool_decide_true by done. cbn [negb].
  assert (~ is_dir_at (w_fs w1) ((ws ++ td) ++ [tn])) as Hnd.
  { unfold file_or_missing in Hf. rewrite <- Hsee in Hf. destruct Hf as [Hf|(c & a & Hf)];
      [by apply missing_not_dir|by eapply file_not_dir]. }
  assert (forall k, wp I (moved <- sys (Rename (render ((ws ++ td) ++ [t])) (render ((ws ++ td) ++ [tn]))) ;; k moved) w1 Q <->
    (I (set_fs (<[((ws ++ td) ++ [tn])%list := File bytes (fresh_file w)]> (w_fs w)) w1) /\
     wp I (k (Ok tt)) (set_fs (<[((ws ++ td) ++ [tn])%list := File bytes (fresh_file w)]> (w_fs w)) w1) Q)) as Hren.
  { intros k. cbn [bind sys wp]. by rewrite (exec_rename_file w1 _ _ _ _ bytes (fresh_file w)), Hdel by done. }
  unfold move_new_file, replace_existing_file.
  destruct (is_some _); apply Hren; (split; [done|]); apply sync_directory_wp; try done.
  1,3: by apply real_dir_insert; [|rewrite <- Hdel; intros (k & a & E); apply Hnd; exists k, a;
    rewrite node_at_snoc in *; rewrite lookup_delete_ne in E].
  all: apply HQ; split; [|done]; exact (same_but_tree_trans _ _ _ Hsame (proj1 (becomes_set_fs w1 _))).
Qed.
End Staging.

(** ** Permissions and removal *)

Section Entries.
Context (J : fsys -> Prop).
Let I (w : world) : Prop := J (w_fs w).
Context (w : world) (ws td : loc) (tn : string).
Context (Hd : real_dir (w_fs w) (ws ++ td)) (Hm : manageable (td ++ [tn])).
Let target : loc := ws ++ td ++ [tn].

Lemma target_names : valid_names ws /\ valid_names td /\ valid_name tn = true.
Proof.
  pose proof (mg_valid _ Hm) as [Htd Htn]%Forall_app. apply Forall_inv in Htn.
  split; [|done]. eapply real_valid, real_dir_prefix, Hd.
Qed.

Lemma join_target : join (render ws) (rel (td ++ [tn])) = render target.
Proof. destruct target_names as (? & _ & _). apply join_render_rel; [done|apply Hm..]. Qed.

Lemma exec_set_permissions c a mode :
  w_fs w !! target = Some (File c a) ->
  exec (SetPermissions (render target) mode) w = (set_fs (<[target := File c (chmod mode a)]> (w_fs w)) w, Ok tt).
Proof.
  intros Hf. destruct target_names as (_ & _ & Hn). unfold target in *. rewrite app_assoc in *.
  cbn [exec]. unfold set_permissions. rewrite (resolve_render _ _ _ _ _ Hd Hn Hf) by (by right).
  by rewrite node_at_snoc, Hf.
Qed.

Lemma restore_permissions_wp c a record Q :
  w_fs w !! target = Some (File c a) -> J (w_fs w) ->
  (file_readonly record = None -> Q w (Ok tt)) ->
  (forall readonly, file_readonly record = Some readonly ->
    let a' := chmod (restored_mode readonly (file_unix_mode record) (at_mode a)) a in
    J (<[target := File c a']> (w_fs w)) /\
    forall w', becomes w (<[target := File c a']> (w_fs w)) w' -> Q w' (Ok tt)) ->
  wp I (restore_permissions (render ws) (rel (td ++ [tn])) record) w Q.
Proof.
  intros Hf HJ Hnone Hsome. unfold restore_permissions. destruct (file_readonly record) as [readonly|]; [|by apply Hnone].
  destruct (Hsome readonly eq_refl) as [HJ' HQ]. destruct target_names as (Hws & Htd & Hn).
  apply wp_try, validate_target_wp; [done|done|right; by eexists _, _|done|]. cbv beta iota.
  rewrite join_target. assert (stat w true (render target) = Ok (Metadata RegularFile (strlen c) a)) as Hstat.
  { unfold target in *. rewrite app_assoc in *. by apply exec_metadata_file. }
  eapply wp_call; [cbn [exec]; by rewrite Hstat|done|]. cbn [bind map_err md_attributes permissions_mode].
  eapply wp_call; [by apply exec_set_permissions|exact HJ'|].
  cbn [bind map_err]. apply HQ. by split.
Qed.

Lemma exec_remove_target c a :
  w_fs w !! target = Some (File c a) ->
  exec (RemoveFile (render target)) w = (set_fs (delete target (w_fs w)) w, Ok tt).
Proof.
  intros Hf. destruct target_names as (_ & _ & Hn). unfold target in *. rewrite app_assoc in *. by eapply exec_remove_file.
Qed.
End Entries.

(** Restoring a recorded mode of the same file type restores it exactly. *)
Lemma restored_exact readonly mode a :
  N.ldiff (at_mode a) 4095 = N.ldiff mode 4095 ->
  at_mode (chmod (restored_mode readonly (Some mode) (at_mode a)) a) = mode.
Proof.
  intros E. unfold restored_mode, chmod. cbn [default at_mode from_option id]. unfold id. rewrite E.
  apply N.bits_inj. intros n. rewrite N.lor_spec, N.ldiff_spec, N.land_spec.
  by destruct (N.testbit mode n), (N.testbit 4095 n).
Qed.

(** * Apply transactions on a file system: the workspace lock

    Taking the lock creates at most the metadata directory and the lock file;
    while the lock is held, every attempt to take it is refused and changes
    nothing. *)


(** ** Creating a directory *)

Lemma strip_trailing_render l : valid_names l -> l <> [] -> strip_trailing (render l) = render l.
Proof.
  intros Hv Hl. unfold strip_trailing. rewrite is_absolute_render, segments_render by done.
  cbn [List.filter]. change (negb ("" =? "")%string) with false. cbn iota. unfold render. do 2 f_equal.
  induction Hv as [|n l Hn Hv IH]; [done|]. cbn [List.filter]. apply valid_name_spec in Hn as (Hn & _).
  rewrite (proj2 (String.eqb_neq _ _) Hn). cbn [negb]. f_equal. destruct (decide (l = [])) as [->|]; [done|auto].
Qed.

Lemma exec_create_dir w d n :
  real_dir (w_fs w) d -> valid_name n = true -> w_fs w !! (d ++ [n]) = None ->
  exec (CreateDir (render (d ++ [n]))) w = (set_fs (<[(d ++ [n])%list := Dir 4096 (fresh_dir w)]> (w_fs w)) w, Ok tt).
Proof.
  intros Hd Hn Hnone. cbn [exec]. unfold create_dir.
  rewrite strip_trailing_render; [|apply valid_names_snoc; [apply Hd|done]|by destruct d].
  by rewrite locate_render, node_at_snoc, Hnone.
Qed.

Lemma exec_create_dir_taken w d n x :
  real_dir (w_fs w) d -> valid_name n = true -> w_fs w !! (d ++ [n]) = Some x ->
  exec (CreateDir (render (d ++ [n]))) w = (w, Err eexist).
Proof.
  intros Hd Hn Hx. cbn [exec]. unfold create_dir.
  rewrite strip_trailing_render; [|apply valid_names_snoc; [apply Hd|done]|by destruct d].
  by rewrite locate_render, node_at_snoc, Hx.
Qed.

Lemma real_dir_created fs d n len a :
  real_dir fs d -> valid_name n = true -> fs !! (d ++ [n]) = None -> real_dir (<[(d ++ [n])%list := Dir len a]> fs) (d ++ [n]).
Proof.
  intros Hd Hn Hnone. apply real_dir_snoc; [by apply real_dir_insert, missing_not_dir|done|].
  exists len, a. rewrite node_at_snoc. apply lookup_insert_eq.
Qed.

(** A real directory as an artifact. *)
Lemma stat_real_dir w d : real_dir (w_fs w) d ->
  exists m, exec (SymlinkMetadata (render d)) w = (w, Ok m) /\ metadata_is_link_or_reparse m = false /\ is_dir m = true.
Proof.
  intros Hd. destruct (stat_dir w d Hd false) as (m & E & Ht). exists m. cbn [exec]. rewrite E. split; [done|].
  unfold metadata_is_link_or_reparse, is_symlink, is_dir. by rewrite Ht.
Qed.

(** ** Taking the lock *)

Section Lock.
Context (ws : loc).

Definition metadata_dir : loc := ws ++ [".opticcode"].
Definition lock_loc : loc := metadata_dir ++ [WORKSPACE_LOCK_FILE].

Lemma lock_name : valid_name WORKSPACE_LOCK_FILE = true.
Proof. reflexivity. Qed.
Lemma metadata_name : valid_name ".opticcode" = true.
Proof. reflexivity. Qed.

(** What the workspace may look like before. *)
Record lockable (fs : fsys) : Prop := {
  lk_workspace : real_dir fs ws;
  lk_metadata : real_dir fs metadata_dir \/ fs !! metadata_dir = None /\ fs !! lock_loc = None;
  lk_file : file_or_missing fs lock_loc;
}.

Definition with_directory (w : world) (fs : fsys) : fsys :=
  match fs !! metadata_dir with None => <[metadata_dir := Dir 4096 (fresh_dir w)]> fs | Some _ => fs end.
Definition with_lock_file (w : world) (fs : fsys) : fsys :=
  match fs !! lock_loc with None => <[lock_loc := File "" (fresh_file w)]> fs | Some _ => fs end.

Lemma directory_present fs : real_dir fs metadata_dir -> exists n a, fs !! metadata_dir = Some (Dir n a).
Proof. intros (n & a & E)%real_dir_is_dir. exists n, a. unfold metadata_dir in *. by rewrite node_at_snoc in E. Qed.

Lemma with_directory_present w fs : real_dir fs metadata_dir -> with_directory w fs = fs.
Proof. intros (n & a & E)%directory_present. unfold with_directory. by rewrite E. Qed.

Lemma lock_not_metadata : lock_loc <> metadata_dir.
Proof. unfold lock_loc. intros E%(f_equal (@List.length _)). rewrite length_app in E. simpl in E. lia. Qed.

Lemma with_directory_real w fs : lockable fs ->
  real_dir (with_directory w fs) ws /\ real_dir (with_directory w fs) metadata_dir /\ file_or_missing (with_directory w fs) lock_loc.
Proof.
  intros [Hws [Hm|[Hm Hl]] Hf]; [by rewrite with_directory_present|]. unfold with_directory. rewrite Hm.
  split; [unfold metadata_dir in *; by apply real_dir_insert, missing_not_dir|].
  split; [unfold metadata_dir in *; by apply real_dir_created|].
  left. rewrite lookup_insert_ne; [done|]. intros E. by apply lock_not_metadata.
Qed.

Section Acquire.
Context (J : fsys -> Prop).
Let I (w : world) : Prop := J (w_fs w).

Lemma ensure_metadata_wp w Q :
  lockable (w_fs w) -> J (w_fs w) -> J (with_directory w (w_fs w)) ->
  (forall w', becomes w (with_directory w (w_fs w)) w' -> Q w' (Ok tt)) ->
  wp I (ensure_metadata_root (render ws) (render metadata_dir)) w Q.
Proof.
  intros Hl HJ HJ' HQ. pose proof (with_directory_real w _ Hl) as (Hws' & Hm' & _). destruct Hl as [Hws Hm Hf].
  unfold ensure_metadata_root. destruct Hm as [Hm|[Hm _]].
  - destruct (stat_real_dir w _ Hm) as (m & E & Hlink & Hdir). eapply wp_sys; [exact E|exact HJ|]. cbv beta iota. rewrite Hlink, Hdir.
    cbn [wp orb negb]. apply HQ. by rewrite with_directory_present by done.
  - unfold with_directory in *. rewrite Hm in *. unfold metadata_dir in *.
    eapply wp_sys; [cbn [exec]; by rewrite (exec_metadata_missing w ws _ Hws metadata_name false Hm)|exact HJ|]. cbv beta iota.
    change (not_found enoent) with true. cbn iota.
    eapply wp_call; [by apply exec_create_dir|exact HJ'|]. cbn [map_err bind].
    apply sync_directory_wp; [exact Hws'|exact HJ'|]. apply HQ. by split.
Qed.

Lemma acquire_files_wp w Q :
  lockable (w_fs w) -> render lock_loc ∉ w_locks w ->
  J (w_fs w) -> J (with_directory w (w_fs w)) -> J (with_lock_file w (with_directory w (w_fs w))) ->
  (forall w', same_host w w' -> w_fs w' = with_lock_file w (with_directory w (w_fs w)) ->
     w_locks w' = {[render lock_loc]} ∪ w_locks w -> Q w' (Ok (render lock_loc))) ->
  wp I (acquire (render ws)) w Q.
Proof.
  intros Hl Hfree HJ HJ1 HJ2 HQ. pose proof (lk_workspace _ Hl) as Hws.
  pose proof (with_directory_real w _ Hl) as (Hws1 & Hm1 & Hf1). unfold acquire. rewrite join_render by (done || apply Hws).
  fold metadata_dir. apply wp_try, ensure_metadata_wp; [done..|]. intros w1 [Hsame1 Hfs1]. cbv beta iota.
  rewrite <- Hfs1 in *. assert (I w1) as HI1 by exact HJ1.
  eapply wp_reads_try with (a := render metadata_dir); [|exact HI1|].
  { apply reads_map_err, reads_map_err. intros I' Q' HI' HQ'. eapply wp_call; [by apply exec_canonicalize_dir|done|done]. }
  assert (path_starts_with (render metadata_dir) (render ws) = true) as -> by (apply starts_with_render, Hm1).
  cbn [negb]. cbn iota. rewrite join_render by (done || apply Hm1). fold lock_loc.
  set (w2 := set_fs (with_lock_file w (w_fs w1)) w1).
  assert (exec (OpenCreate (render lock_loc)) w1 = (w2, Ok (render lock_loc)) /\
      (match stat w1 false (render lock_loc) with Ok m => metadata_is_link_or_reparse m || negb (is_file m) | Err _ => false end) = false)
    as [Hopen Hplain].
  { cbn [exec]. unfold open_create, w2, with_lock_file, lock_loc in *. rewrite <- (same_clock _ _ Hsame1).
    destruct Hf1 as [Hn|(c & a & Hc)].
    - rewrite (resolve_missing _ _ _ _ Hm1 lock_name Hn), (exec_metadata_missing _ _ _ Hm1 lock_name _ Hn), Hn.
      cbn [io_error_kind enoent]. rewrite decide_True by done. split; [|done].
      unfold create_new. rewrite locate_render by done. by rewrite node_at_snoc, Hn.
    - rewrite (resolve_render _ _ _ _ _ Hm1 lock_name Hc) by (by right). rewrite node_at_snoc, Hc, set_fs_self.
      split; [done|]. by rewrite (exec_metadata_file _ _ _ Hm1 lock_name _ _ _ Hc). }
  eapply wp_sys; [reflexivity|exact HI1|]. cbv beta. rewrite Hplain. cbn iota.
  eapply wp_call; [exact Hopen|exact HJ2|]. cbn [map_err bind].
  assert (render lock_loc ∉ w_locks w2) as Hfree2.
  { unfold w2. cbn [w_locks set_fs]. by rewrite (proj2 Hsame1). }
  eapply wp_sys; [cbn [exec]; unfold try_lock; by rewrite decide_False by done|exact HJ2|]. cbv beta iota.
  set (w3 := set_locks _ w2).
  assert (real_dir (w_fs w3) metadata_dir) as Hm3.
  { unfold w3, w2. cbn [w_fs set_fs set_locks]. unfold with_lock_file, lock_loc in *. destruct (w_fs w1 !! _) eqn:E; [done|].
    by apply real_dir_insert, missing_not_dir. }
  apply wp_try. unfold sync_lock. eapply wp_bind.
  { apply wp_try. eapply wp_call; [reflexivity|exact HJ2|]. cbn [map_err bind].
    apply (sync_directory_wp I w3 metadata_dir (fun w' r => w' = w3 /\ r = Ok tt)); done. }
  intros ? ? [-> ->]. cbv beta iota. cbn [wp]. apply HQ.
  - exact (proj1 Hsame1).
  - reflexivity.
  - unfold w3, w2. cbn [w_locks set_fs set_locks]. by rewrite (proj2 Hsame1).
Qed.
End Acquire.

(** ** The lock excludes *)

(** While the lock is held, taking it is refused as a precondition that is
    not met, and nothing changes. *)
Definition lock_busy {A} : res A :=
  reject Precondition ("workspace already has an active apply or recovery: " ++ display (render ws))%string.

Lemma acquire_refused w :
  real_dir (w_fs w) metadata_dir -> (exists c a, w_fs w !! lock_loc = Some (File c a)) -> render lock_loc ∈ w_locks w ->
  reads (acquire (render ws)) w lock_busy.
Proof.
  intros Hm (c & a & Hc) Hheld. assert (real_dir (w_fs w) ws) as Hws by (by eapply real_dir_prefix).
  unfold acquire. rewrite join_render by (done || apply Hws). fold metadata_dir.
  eapply reads_try with (a := tt).
  { destruct (stat_real_dir w _ Hm) as (m & E & Hlink & Hdir). eapply reads_sys; [exact E|]. cbv beta iota.
    rewrite Hlink, Hdir. apply reads_ret. }
  eapply reads_try with (a := render metadata_dir).
  { apply reads_map_err, reads_map_err. intros I Q HI HQ. eapply wp_call; [by apply exec_canonicalize_dir|done|done]. }
  assert (path_starts_with (render metadata_dir) (render ws) = true) as -> by (apply starts_with_render, Hm).
  cbn [negb]. cbn iota. rewrite join_render by (done || apply Hm). fold lock_loc.
  eapply reads_sys; [reflexivity|]. cbv beta. unfold lock_loc in *. rewrite (exec_metadata_file _ _ _ Hm lock_name _ _ _ Hc). cbn [metadata_is_link_or_reparse is_symlink is_file md_type orb negb].
  eapply reads_try with (a := render (metadata_dir ++ [WORKSPACE_LOCK_FILE])).
  { apply reads_map_err, reads_map_err. intros I Q HI HQ. eapply wp_call; [|done|done].
    cbn [exec]. unfold open_create. by rewrite (resolve_render _ _ _ _ _ Hm lock_name Hc), node_at_snoc, Hc by (by right). }
  eapply reads_sys; [cbn [exec]; unfold try_lock; by rewrite decide_True by done|]. apply reads_ret.
Qed.
End Lock.
