(* ===== verification/RunStore.v ===== *)
(** * Apply transactions on a file system: the run directory

    A transaction as its run directory holds it: the manifest of a plan, the
    backups, the patch and the journal.  Such a directory inspects as valid,
    with exactly its journal. *)

From stdpp Require Import base list strings gmap.
From Stdlib Require Import NArith Ascii String Sorted Lia.
From S2P Require Import Prelude Bytes UnixPath TextFacts IO World WorldFacts Anyhow Paths GitState Transaction TransactionFs TransactionRun TransactionFacts TransactionWorld.

Local Open Scope string_scope.
Local Open Scope N_scope.
Local Open Scope list_scope.

(** ** ASCII names *)

Definition ascii_only (s : string) : bool := all_bytes is_ascii s.

Lemma utf8_ascii_fuel fuel s :
  ascii_only s = true -> forallb fst (utf8_chars_fuel fuel s) = true.
Proof.
  revert s. induction fuel as [|fuel IH]; intros [|c s] Ha; try done.
  unfold ascii_only in *. cbn [all_bytes utf8_chars_fuel] in *. split_bools. unfold is_ascii in *. cbn [utf8_step].
  destruct (byte_n c <? 128); [|done]. cbn [forallb fst andb drop_bytes]. by apply IH.
Qed.

Lemma utf8_ascii s : ascii_only s = true -> utf8_valid s = true.
Proof. apply utf8_ascii_fuel. Qed.

Lemma hexdigit_ascii c : is_ascii_hexdigit c = true -> is_ascii c = true.
Proof.
  unfold is_ascii_hexdigit, is_ascii_digit, in_range, is_ascii. rewrite !orb_true_iff, !andb_true_iff, !N.leb_le, N.ltb_lt. lia.
Qed.

(** ** Numbered names *)

Definition max_events : N := 100000000.

Lemma dec_pad_8 n : n < max_events -> dec_pad 8 n = digits 10 8 n.
Proof.
  intros Hn. unfold dec_pad. change (10 ^ N.of_nat 8) with max_events. by rewrite (proj2 (N.ltb_lt _ _) Hn).
Qed.

Lemma digits_start n s : exists c r, (digits 10 8 n ++ s)%string = String c r /\ is_ascii_hexdigit c = true.
Proof.
  pose proof (all_hexdigits 10 8 n ltac:(lia)) as Ha. pose proof (length_digits 10 8 n) as Hl.
  destruct (digits 10 8 n) as [|c r]; [done|]. cbn [all_bytes] in Ha. split_bools. rewrite append_cons. by eexists _, _.
Qed.

Lemma hexdigit_not_dot c : is_ascii_hexdigit c = true -> Ascii.eqb c "." = false /\ Ascii.eqb slash c = false.
Proof.
  intros Hc. split; apply Ascii.eqb_neq; [intros ->|intros <-]; by vm_compute in Hc.
Qed.

(** A name that starts with the digits of a number, and holds no separator. *)
Lemma numbered_name n s :
  n < max_events -> ascii_only s = true -> any_byte (Ascii.eqb slash) s = false ->
  let name := (dec_pad 8 n ++ s)%string in
  valid_name name = true /\ utf8_valid name = true /\ not_staging name.
Proof.
  intros Hn Ha Hs. rewrite dec_pad_8 by done. pose proof (all_hexdigits 10 8 n ltac:(lia)) as Hd.
  cbv zeta. split; [|split].
  - unfold valid_name. rewrite any_byte_app, Hs, orb_false_r.
    assert (any_byte (Ascii.eqb slash) (digits 10 8 n) = false) as ->.
    { clear -Hd. induction (digits 10 8 n) as [|c r IH]; [done|]. cbn [all_bytes any_byte] in *. split_bools.
      rewrite IH by done. by rewrite (proj2 (hexdigit_not_dot c H)). }
    destruct (digits_start n s) as (c & r & -> & Hc). apply hexdigit_not_dot in Hc as [Hc _].
    unfold skipped. cbn [String.eqb]. by rewrite Hc.
  - apply utf8_ascii. unfold ascii_only. rewrite all_bytes_app. apply andb_true_iff. split; [|done].
    eapply all_bytes_impl; [apply hexdigit_ascii|done].
  - unfold not_staging. destruct (digits_start n s) as (c & r & -> & Hc). apply hexdigit_not_dot in Hc as [Hc _].
    unfold starts_with. cbn [String.prefix]. destruct (ascii_dec "." c) as [<-|]; [by vm_compute in Hc|done].
Qed.

Lemma event_name_good n s :
  n < max_events ->
  valid_name (event_file_name n s) = true /\ utf8_valid (event_file_name n s) = true /\
  not_staging (event_file_name n s).
Proof. intros Hn. apply numbered_name; [done|by destruct s..]. Qed.

Lemma backup_name_good i :
  N.of_nat i < max_events ->
  valid_name (backup_file_name i) = true /\ utf8_valid (backup_file_name i) = true /\
  not_staging (backup_file_name i).
Proof. intros Hn. by apply numbered_name. Qed.

(** Event names are in the order of their sequence numbers. *)
Lemma event_name_lt n m s s' :
  n < m -> m < max_events -> str_lt (event_file_name n s) (event_file_name m s') = true.
Proof.
  intros Hn Hm. unfold event_file_name. rewrite !dec_pad_8 by lia.
  apply str_lt_app_lt; [by rewrite !length_digits|]. by apply digits_lt; [lia|done|].
Qed.

(** ** Extensions *)


Lemma split_extension a b :
  a <> "" -> any_byte (Ascii.eqb "."%char) b = false -> split_file_name (a ++ String "." b)%string = (Some a, Some b).
Proof. intros Ha Hb. unfold split_file_name. rewrite rsplit_once_app by done. by destruct a. Qed.

Definition json_name (n : string) : bool := bool_decide (snd (split_file_name n) = Some "json").

Lemma is_json_render d n : valid_names d -> valid_name n = true -> is_json (render (d ++ [n])) = json_name n.
Proof.
  intros Hd Hn. unfold is_json, json_name, extension, file_name.
  rewrite components_render, map_app by eauto using valid_names_snoc. cbn [map rev]. by rewrite rev_app_distr.
Qed.

Lemma event_name_json n s : n < max_events -> json_name (event_file_name n s) = true.
Proof.
  intros Hn. unfold json_name, event_file_name. rewrite dec_pad_8 by done.
  change (digits 10 8 n ++ "-" ++ state_as_str s ++ ".json")%string
    with (digits 10 8 n ++ "-" ++ state_as_str s ++ String "." "json")%string.
  rewrite <- !append_assoc. rewrite split_extension; [done| |done].
  rewrite !append_assoc. destruct (digits_start n ("-" ++ state_as_str s)) as (c & r & -> & _). done.
Qed.

Lemma staging_not_json label pid counter : json_name (staging_name label pid counter) = false.
Proof.
  unfold json_name, staging_name.
  change (".opticcode-" ++ label ++ "-" ++ dec pid ++ "-" ++ dec counter ++ ".tmp")%string
    with (".opticcode-" ++ label ++ "-" ++ dec pid ++ "-" ++ dec counter ++ String "." "tmp")%string.
  rewrite <- !append_assoc. by rewrite split_extension by (rewrite ?append_cons; done).
Qed.

(** ** Identifiers *)

Lemma id_byte_name c : is_id_byte c = true -> is_ascii c = true /\ Ascii.eqb slash c = false /\ Ascii.eqb "." c = false.
Proof.
  intros Hc. destruct c as [b0 b1 b2 b3 b4 b5 b6 b7].
  destruct b0, b1, b2, b3, b4, b5, b6, b7; first [by vm_compute in Hc | by vm_compute].
Qed.

Lemma id_valid_name id : validate_transaction_id id = Ok tt -> valid_name id = true /\ ascii_only id = true.
Proof.
  unfold validate_transaction_id. destruct (is_empty id) eqn:Ee; [done|]. destruct (160 <? strlen id); [done|].
  destruct (all_bytes is_id_byte id) eqn:Hb; [|done]. intros _.
  assert (any_byte (Ascii.eqb slash) id = false /\ any_byte (Ascii.eqb "."%char) id = false /\ ascii_only id = true) as (Hs & Hd & Ha).
  { clear Ee. unfold ascii_only. induction id as [|c id IH]; [done|]. cbn [all_bytes any_byte] in *. split_bools.
    destruct (id_byte_name c) as (Ha & Hs & Hd); [done|]. destruct IH as (-> & -> & ->); [done|]. by rewrite Ha, Hs, Hd. }
  split; [|done]. unfold valid_name. rewrite Hs. unfold skipped. change (id =? "")%string with (is_empty id). rewrite Ee.
  destruct (String.eqb_spec id ".") as [->|]; [done|]. by destruct (String.eqb_spec id "..") as [->|].
Qed.

(** ** Plans

    What a transaction does to one target: its location below the workspace,
    its content and mode before, and its content after. *)

Record planned := {
  pl_dir : loc;
  pl_name : string;
  pl_before : option (string * N);
  pl_after : option string;
}.

Definition pl_path (p : planned) : loc := pl_dir p ++ [pl_name p].
Definition content_before (p : planned) : option string := option_map fst (pl_before p).

(** A mode of a regular file. *)
Definition regular_mode (mode : N) : Prop := N.ldiff mode 4095 = 32768.

Section Store.
Context `{Blake3, TransactionSerde}.

Definition fingerprint_of (content : option string) : option string := option_map fingerprint_bytes content.

(** The record of the [index]-th target. *)
Definition file_of (index : nat) (p : planned) : ApplyTransactionFile := {|
  file_path := rel (pl_path p);
  file_existed_before := is_some (pl_before p);
  before_hash := fingerprint_of (content_before p);
  before_bytes := match content_before p with Some c => len_u64 c | None => 0 end;
  after_hash := fingerprint_of (pl_after p);
  after_bytes := match pl_after p with Some c => len_u64 c | None => 0 end;
  backup_path := if is_some (pl_before p) then Some (BACKUPS_DIR ++ "/" ++ backup_file_name index)%string else None;
  file_readonly := option_map (fun b => mode_readonly b.2) (pl_before p);
  file_unix_mode := option_map snd (pl_before p) |}.

Fixpoint files_from (index : nat) (ps : list planned) : list ApplyTransactionFile :=
  match ps with
  | [] => []
  | p :: ps => file_of index p :: files_from (S index) ps
  end.

(** A target that can be told apart from its content before: the two
    contents have different fingerprints. *)
Record plan_ok (p : planned) : Prop := {
  po_manageable : manageable (pl_path p);
  po_name : not_staging (pl_name p);
  po_distinct : fingerprint_of (content_before p) <> fingerprint_of (pl_after p);
  po_mode : forall c m, pl_before p = Some (c, m) -> regular_mode m;
}.

(** ** The tree *)

Context (ws : loc) (id patch : string) (ps : list planned) (M : ApplyTransactionManifest).

Local Abbreviation metadata_dir := (metadata_dir ws).
Local Abbreviation lock_loc := (lock_loc ws).
Definition run_loc : loc := ws ++ [".opticcode"; "runs"; id].
Definition events_loc : loc := run_loc ++ [EVENTS_DIR].
Definition backups_loc : loc := run_loc ++ [BACKUPS_DIR].
Definition target (p : planned) : loc := ws ++ pl_path p.
Definition event_name (e : ApplyTransactionEvent) : string := event_file_name (e_sequence e) (e_state e).

(** The setting: a real workspace with a Unicode path, a valid identifier, a
    plan with distinct targets, and the manifest of the plan. *)
Record setting : Prop := {
  st_names : valid_names ws;
  st_utf8 : utf8_valid (render ws) = true;
  st_id : validate_transaction_id id = Ok tt;
  st_plan : Forall plan_ok ps;
  st_distinct : NoDup (map pl_path ps);
  st_length : N.of_nat (List.length ps) < max_events;
  st_schema : m_schema_version M = APPLY_TRANSACTION_SCHEMA_VERSION;
  st_manifest_id : m_transaction_id M = id;
  st_workspace : m_workspace M = render ws;
  st_patch_path : m_patch_path M = PATCH_FILE;
  st_patch_hash : m_patch_hash M = fingerprint_bytes patch;
  st_files : m_files M = files_from 0 ps;
  st_fields : manifest_field_errors M = [];
}.

Definition file_at (fs : fsys) (l : loc) (content : string) : Prop := exists a, fs !! l = Some (File content a).

(** An event as it is stored. *)
Definition stored (fs : fsys) (e : ApplyTransactionEvent) : Prop :=
  e_sequence e < max_events /\
  exists bytes, event_to_vec e = Ok bytes /\ file_at fs (events_loc ++ [event_name e]) (bytes ++ newline).

(** The events that may still be appended, without a failed rollback. *)
Definition pending (s : ApplyTransactionState) : N :=
  match s with
  | Prepared => 6 | Applying => 5 | Applied => 4 | Finalizing => 3
  | Committed | RollbackFailed => 2 | RollbackStarted => 1 | RolledBack => 0
  end.

(** The run directory of the transaction, with the journal [evs] that ends in
    state [s]. *)
Record run_on (fs : fsys) (evs : list ApplyTransactionEvent) (s : ApplyTransactionState) : Prop := {
  ro_backups_dir : real_dir fs backups_loc;
  ro_events_dir : real_dir fs events_loc;
  ro_manifest : exists bytes, manifest_to_vec M = Ok bytes /\ file_at fs (run_loc ++ [MANIFEST_FILE]) (bytes ++ newline);
  ro_patch : file_at fs (run_loc ++ [PATCH_FILE]) patch;
  ro_backups : forall i p c, ps !! i = Some p -> content_before p = Some c ->
    file_at fs (backups_loc ++ [backup_file_name i]) c;
  ro_stored : Forall (stored fs) evs;
  ro_names : forall n, is_Some (fs !! (events_loc ++ [n])) -> valid_name n = true;
  ro_only : forall n, is_Some (fs !! (events_loc ++ [n])) -> json_name n = true -> n ∈ map event_name evs;
  ro_journal : journal_ok id M 0 None evs;
  ro_last : last (map e_state evs) = Some s;
  ro_room : N.of_nat (List.length evs) + pending s <= max_events;
  ro_lock : file_or_missing fs lock_loc;
  ro_targets : Forall (fun p => real_dir fs (ws ++ pl_dir p)) ps;
}.

(** ** Targets *)

(** During the transaction a target has its content before or after. *)
Definition holds (fs : fsys) (p : planned) : Prop :=
  match fs !! target p with
  | None => pl_before p = None \/ pl_after p = None
  | Some (File c a) => (content_before p = Some c \/ pl_after p = Some c) /\ regular_mode (at_mode a)
  | _ => False
  end.

(** Content and mode are those of before. *)
Definition restored (fs : fsys) (p : planned) : Prop :=
  match pl_before p with
  | None => fs !! target p = None
  | Some (c, m) => exists a, fs !! target p = Some (File c a) /\ at_mode a = m
  end.

Definition applied (fs : fsys) (p : planned) : Prop := content_at fs (target p) = pl_after p /\ holds fs p.

(** What the last state of the journal says of the targets. *)
Definition targets_in (s : ApplyTransactionState) (fs : fsys) : Prop :=
  match s with
  | Committed => Forall (applied fs) ps
  | RolledBack => Forall (restored fs) ps
  | _ => Forall (holds fs) ps
  end.

(** A tree from which the transaction can be recovered. *)
Definition crash_safe (fs : fsys) : Prop := exists evs s, run_on fs evs s /\ targets_in s fs.

Lemma restored_holds fs p : plan_ok p -> restored fs p -> holds fs p.
Proof.
  intros Hp. unfold restored, holds, content_before. destruct (pl_before p) as [[c m]|] eqn:E.
  - intros (a & -> & Hm). split; [by left|]. rewrite Hm. by apply (po_mode p Hp c m).
  - intros ->. by left.
Qed.

(** ** Locations *)

Context (Hset : setting).

Lemma id_name : valid_name id = true.
Proof. by apply id_valid_name, Hset. Qed.

Lemma run_names : valid_names run_loc.
Proof.
  unfold run_loc. apply Forall_app. split; [apply Hset|].
  constructor; [done|]. constructor; [done|]. constructor; [apply id_name|constructor].
Qed.

Lemma transaction_run_dir_loc : transaction_run_dir (render ws) id = render run_loc.
Proof.
  pose proof (st_names Hset) as Hw. unfold transaction_run_dir, run_loc.
  rewrite !join_render by eauto using valid_names_snoc, id_name. by rewrite <- !app_assoc.
Qed.

Lemma join_run n : valid_name n = true -> join (render run_loc) n = render (run_loc ++ [n]).
Proof. intros Hn. apply join_render; [apply run_names|done]. Qed.

Lemma join_backup i :
  N.of_nat i < max_events ->
  join (render run_loc) (BACKUPS_DIR ++ "/" ++ backup_file_name i)%string = render (backups_loc ++ [backup_file_name i]).
Proof.
  intros Hi. destruct (backup_name_good i Hi) as (Hv & _ & _).
  change (BACKUPS_DIR ++ "/" ++ backup_file_name i)%string with (rel [BACKUPS_DIR; backup_file_name i]).
  rewrite join_render_rel; [|apply run_names|by repeat constructor|done].
  unfold backups_loc. by rewrite <- app_assoc.
Qed.

Lemma run_is_real fs evs s : run_on fs evs s -> real_dir fs run_loc.
Proof. intros Hr. eapply real_dir_prefix, Hr. Qed.

Lemma workspace_real fs evs s : run_on fs evs s -> real_dir fs ws /\ real_dir fs metadata_dir.
Proof.
  intros Hr%run_is_real. unfold run_loc in Hr.
  change [".opticcode"; "runs"; id] with ([".opticcode"] ++ ["runs"; id]) in Hr. rewrite app_assoc in Hr.
  apply real_dir_prefix in Hr. split; [by eapply real_dir_prefix|done].
Qed.

(** ** Reading artifacts *)

Section Reads.
Context (w : world) (d : loc) (n content : string).
Context (Hd : real_dir (w_fs w) d) (Hn : valid_name n = true) (Hf : file_at (w_fs w) (d ++ [n]) content).

Lemma regular_reads : reads (is_regular_artifact (render (d ++ [n]))) w true.
Proof.
  destruct Hf as [a Ha]. eapply reads_sys; [simpl; by rewrite (exec_metadata_file _ _ _ Hd Hn _ _ _ Ha)|apply reads_ret].
Qed.

Lemma read_file_reads message :
  reads (io_context message (ReadFile (render (d ++ [n])))) w (Ok content).
Proof.
  destruct Hf as [a Ha]. apply reads_map_err, reads_map_err. intros I Q HI HQ.
  eapply wp_call; [simpl; by rewrite (exec_read_file _ _ _ Hd Hn _ _ Ha)|done|done].
Qed.

Lemma fingerprint_reads : reads (fingerprint_file (render (d ++ [n]))) w (Ok (fingerprint_bytes content)).
Proof. eapply reads_try; [apply read_file_reads|apply reads_ret]. Qed.

Lemma read_json_reads {T} (decode : string -> result T string) v :
  decode content = Ok v -> reads (read_json decode (render (d ++ [n]))) w (Ok v).
Proof. intros Hv. eapply reads_try; [apply read_file_reads|]. cbn [map_err]. rewrite Hv. apply reads_ret. Qed.
End Reads.

(** ** The journal *)

Definition event_path (e : ApplyTransactionEvent) : string := render (events_loc ++ [event_name e]).

Lemma report_app_nil b m m' l l' :
  (l = [] -> l' = []) -> (report_if b m ++ l = [] -> report_if b m' ++ l' = []).
Proof. intros Hl. destruct b; [done|exact Hl]. Qed.

Lemma semantics_any_path e m path path' :
  validate_event_semantics e m path = [] -> validate_event_semantics e m path' = [].
Proof.
  unfold validate_event_semantics. cbv zeta. repeat apply report_app_nil. by rewrite !report_if_nil.
Qed.

Lemma event_accepted expected current e :
  e_sequence e < max_events -> event_ok id M expected current e ->
  event_errors id (event_path e) (Some M) expected current e = [].
Proof.
  intros Hn [H1 H2 H3 H4 [path H5]]. unfold event_errors. autorewrite with inspected.
  refine (conj H1 (conj H2 (conj H3 (conj H4 (conj _ _))))); [|by eapply semantics_any_path].
  destruct (event_name_good (e_sequence e) (e_state e)) as (Hv & Hu & _); [congruence|].
  unfold event_path, event_name, file_name. rewrite components_render.
  - rewrite map_app. cbn [map rev]. rewrite rev_app_distr. cbn [rev app]. unfold to_str. rewrite Hu. by case_bool_decide.
  - apply valid_names_snoc; [|done]. unfold events_loc. by apply valid_names_snoc; [apply run_names|].
Qed.

Context `{!TransactionRoundTrip}.

Lemma inspect_events_reads w evs expected current :
  real_dir (w_fs w) events_loc -> Forall (stored (w_fs w)) evs -> journal_ok id M expected current evs ->
  reads (inspect_events id (Some M) expected current (map event_path evs)) w (evs, []).
Proof.
  intros Hd Hs. revert expected current. induction Hs as [|e evs (Hn & bytes & Hb & Hf) Hs IH]; intros expected current Hj.
  { apply reads_ret. }
  inversion Hj as [|? ? ? ? He Hj']; subst. cbn [map inspect_events].
  destruct (event_name_good (e_sequence e) (e_state e) Hn) as (Hv & _ & _).
  eapply reads_bind; [by eapply regular_reads|]. cbn [negb]. cbn iota.
  eapply reads_bind; [eapply read_json_reads; [done..|by apply event_roundtrip]|]. cbv beta iota.
  eapply reads_bind; [by apply IH|]. rewrite (event_accepted _ _ _ Hn He). apply reads_ret.
Qed.

(** ** The listing of the journal *)

Lemma path_cmp_flip x y : path_cmp x y = Lt -> path_cmp y x = Gt.
Proof. unfold path_cmp. intros E. by rewrite (cmp_opp (components x)), E. Qed.

Lemma list_cmp_app {A} (cmp : A -> A -> comparison) `{!LinearCmp cmp} l k m :
  list_cmp cmp (l ++ k) (l ++ m) = list_cmp cmp k m.
Proof. induction l as [|x l IH]; [done|]. simpl. by rewrite cmp_refl, IH. Qed.

Lemma path_cmp_render d a b :
  valid_names d -> valid_name a = true -> valid_name b = true ->
  path_cmp (render (d ++ [a])) (render (d ++ [b])) = str_cmp a b.
Proof.
  intros Hd Ha Hb. unfold path_cmp. rewrite !components_render, !map_app by eauto using valid_names_snoc.
  change (RootDir :: map Normal d ++ map Normal [a]) with ((RootDir :: map Normal d) ++ map Normal [a]).
  change (RootDir :: map Normal d ++ map Normal [b]) with ((RootDir :: map Normal d) ++ map Normal [b]).
  rewrite list_cmp_app by apply _. simpl. by destruct (str_cmp a b).
Qed.

Lemma events_names : valid_names events_loc.
Proof. apply valid_names_snoc; [apply run_names|done]. Qed.

Definition earlier (e e' : ApplyTransactionEvent) : Prop := e_sequence e < e_sequence e' /\ e_sequence e' < max_events.

Lemma earlier_path e e' : earlier e e' -> path_cmp (event_path e) (event_path e') = Lt.
Proof.
  intros [Hl Hb]. destruct (event_name_good (e_sequence e) (e_state e)) as (Hv & _); [lia|].
  destruct (event_name_good (e_sequence e') (e_state e') Hb) as (Hv' & _). unfold event_path.
  rewrite path_cmp_render by (done || apply events_names).
  pose proof (event_name_lt _ _ (e_state e) (e_state e') Hl Hb) as E. unfold str_lt in E. unfold event_name.
  by destruct (str_cmp _ _).
Qed.

Lemma journal_sorted fs evs expected current :
  journal_ok id M expected current evs -> Forall (stored fs) evs ->
  StronglySorted earlier evs /\ Forall (fun e => expected <= e_sequence e) evs.
Proof.
  induction 1 as [|expected current e evs He Hj IH]; intros Hs; [by repeat constructor|].
  inversion Hs as [|? ? [Hn _] Hs']; subst. destruct IH as [Hsort Hmin]; [done|].
  pose proof (eok_sequence _ _ _ _ _ He) as Heq. unfold next_expected in Hmin. unfold max_events in *.
  assert (Forall (fun e' => e_sequence e < e_sequence e') evs) as Hlt.
  { eapply Forall_impl; [exact Hmin|]. unfold u32_max. simpl. intros; lia. }
  split; constructor; [done| |lia|].
  - rewrite Forall_forall in Hlt, Hs' |- *. intros e' Hin. split; [by apply Hlt|by apply Hs'].
  - eapply Forall_impl; [exact Hlt|]. simpl. intros; lia.
Qed.

Lemma StronglySorted_map {A B} (f : A -> B) (R : A -> A -> Prop) (S : B -> B -> Prop) l :
  (forall x y, R x y -> S (f x) (f y)) -> StronglySorted R l -> StronglySorted S (map f l).
Proof.
  intros HRS. induction 1 as [|x l Hs IH Hx]; simpl; constructor; [done|].
  apply Forall_fmap. eapply Forall_impl; [exact Hx|]. intros y Hy. by apply HRS.
Qed.

Lemma event_names_NoDup evs : StronglySorted earlier evs -> NoDup (map event_path evs).
Proof.
  intros Hs. apply (StronglySorted_map event_path _ (fun x y => path_cmp x y = Lt)) in Hs; [|apply earlier_path].
  eapply @StronglySorted_NoDup; [|exact Hs]. intros x Hx. pose proof (path_cmp_flip _ _ Hx). congruence.
Qed.

Lemma omap_ok_map {A} (f : A -> string) l : omap ok (map (fun n => Ok (E := io_error) (f n)) l) = map f l.
Proof. induction l as [|x l IH]; [done|]. simpl. f_equal. exact IH. Qed.

Lemma listed_paths fs evs s :
  run_on fs evs s ->
  sort_by path_cmp (List.filter is_json (omap ok (map (fun n => Ok (E := io_error) (join (render events_loc) n))
    (children fs events_loc)))) = map event_path evs.
Proof.
  intros Hr. pose proof (journal_sorted fs evs _ _ (ro_journal _ _ _ Hr) (ro_stored _ _ _ Hr)) as [Hsort _].
  rewrite omap_ok_map. apply sort_by_unique; [apply _|apply path_cmp_flip| |].
  { eapply StronglySorted_map; [|exact Hsort]. apply earlier_path. }
  assert (forall n, n ∈ children fs events_loc -> valid_name n = true) as Hvalid.
  { intros n Hn%elem_of_children. by apply (ro_names _ _ _ Hr). }
  rewrite (map_ext_in _ (fun n => render (events_loc ++ [n]))).
  2:{ intros n Hn%list_elem_of_In. apply join_render; [apply events_names|by apply Hvalid]. }
  apply NoDup_Permutation; [|by apply event_names_NoDup|].
  - apply NoDup_ListNoDup, List.NoDup_filter, NoDup_ListNoDup. apply (NoDup_fmap_2_strong (fun n => render (events_loc ++ [n]))); [|apply children_NoDup].
    intros x y Hx Hy E. assert (path_eqb (render (events_loc ++ [x])) (render (events_loc ++ [y])) = true) as Heq
      by (rewrite E; apply path_eqb_refl).
    apply render_inj in Heq; [|apply valid_names_snoc; [apply events_names|by apply Hvalid]..].
    by apply app_inj_tail in Heq as [_ ->].
  - intros x. rewrite list_elem_of_In, filter_In, in_map_iff. split.
    + intros [(n & <- & Hn) Hj]. rewrite <- list_elem_of_In in Hn. rewrite is_json_render in Hj by (apply events_names || by apply Hvalid).
      apply elem_of_children in Hn. apply (ro_only _ _ _ Hr n Hn) in Hj. apply list_elem_of_fmap in Hj as (e & -> & He).
      apply list_elem_of_fmap. by exists e.
    + intros (e & -> & He)%list_elem_of_fmap. pose proof (proj1 (Forall_forall _ _) (ro_stored _ _ _ Hr) e He) as (Hn & b & _ & a & Hf).
      destruct (event_name_good (e_sequence e) (e_state e) Hn) as (Hv & _).
      split; [|unfold event_path; rewrite is_json_render by (done || apply events_names); by apply event_name_json].
      exists (event_name e). split; [done|]. rewrite <- list_elem_of_In. apply elem_of_children. by rewrite Hf.
Qed.

(** ** The inspection *)

Lemma files_paths index qs : map file_path (files_from index qs) = map (fun p => rel (pl_path p)) qs.
Proof. revert index. induction qs as [|p qs IH]; intros index; [done|]. simpl. by rewrite IH. Qed.

Lemma to_string_lossy_rel p : plan_ok p -> to_string_lossy (rel (pl_path p)) = rel (pl_path p).
Proof. intros Hp. apply to_string_lossy_valid, Hp. Qed.

Lemma backup_reads fs w index p :
  w_fs w = fs -> real_dir fs backups_loc -> N.of_nat index < max_events ->
  (forall c, content_before p = Some c -> file_at fs (backups_loc ++ [backup_file_name index]) c) ->
  reads (backup_errors (render run_loc) index (file_of index p)) w [].
Proof.
  intros <- Hd Hi Hf. unfold backup_errors. cbn [file_of file_existed_before backup_path before_hash before_bytes
    file_readonly file_unix_mode]. unfold content_before in *. destruct (pl_before p) as [[c m]|]; [|apply reads_ret].
  cbn [is_some option_map fst fingerprint_of]. rewrite bool_decide_true by done. cbn [negb]. cbn iota. rewrite join_backup by done.
  destruct (backup_name_good index Hi) as (Hv & _). specialize (Hf c eq_refl).
  eapply reads_bind; [by eapply regular_reads|]. cbn [negb]. cbn iota.
  destruct Hf as [a Ha]. eapply reads_sys; [cbn [exec]; by rewrite (exec_read_file _ _ _ Hd Hv _ _ Ha)|].
  cbv beta iota. rewrite N.eqb_refl, String.eqb_refl. apply reads_ret.
Qed.

Lemma records_read fs w index seen qs :
  w_fs w = fs -> real_dir fs backups_loc -> N.of_nat (index + List.length qs) <= max_events ->
  (forall i p c, qs !! i = Some p -> content_before p = Some c ->
    file_at fs (backups_loc ++ [backup_file_name (index + i)]) c) ->
  Forall plan_ok qs -> NoDup (map (fun p => rel (pl_path p)) qs) ->
  (forall p, p ∈ qs -> rel (pl_path p) ∉ seen) ->
  reads (file_record_errors (render run_loc) index seen (files_from index qs)) w [].
Proof.
  intros Hw Hd Hi Hf Hq. revert index seen Hi Hf. induction Hq as [|p qs Hp Hq IH]; intros index seen Hi Hf Hnd Hseen.
  { apply reads_ret. }
  cbn [files_from file_record_errors]. unfold file_path_errors.
  cbn [file_of file_path after_hash after_bytes]. rewrite manageable_path by apply Hp.
  rewrite to_string_lossy_rel by done. rewrite (mg_portable _ (po_manageable p Hp)).
  cbn [map] in Hnd. apply NoDup_cons in Hnd as [Hnot Hnd]. cbn [List.length] in Hi.
  destruct (existsb (String.eqb (rel (pl_path p))) seen) eqn:E.
  { apply existsb_exists in E as (x & Hx & Eq%String.eqb_eq). apply list_elem_of_In in Hx. rewrite <- Eq in Hx.
    by apply (Hseen p (list_elem_of_here _ _)) in Hx. }
  eapply reads_bind.
  { eapply backup_reads; [done|done|lia|]. intros c Hc. pose proof (Hf 0%nat p c eq_refl Hc) as F.
    by rewrite Nat.add_0_r in F. }
  eapply reads_bind.
  { apply IH; [lia| |done|].
    - intros i q c Hqi Hc. pose proof (Hf (S i) q c Hqi Hc) as F. by rewrite Nat.add_succ_r in F.
    - intros q Hin [Eq|Hin']%elem_of_cons; [|by destruct (Hseen q (list_elem_of_further _ _ _ Hin))].
      apply Hnot. rewrite <- Eq. by apply (list_elem_of_fmap_2 (fun p => rel (pl_path p))). }
  destruct (pl_after p); apply reads_ret.
Qed.

Lemma rel_inj l k : valid_names l -> valid_names k -> rel l = rel k -> l = k.
Proof. intros Hl Hk E. by rewrite <- (path_names_rel l Hl), E, path_names_rel. Qed.

Lemma plan_paths_NoDup : NoDup (map (fun p => rel (pl_path p)) ps).
Proof.
  pose proof (st_plan Hset) as Hp. pose proof (st_distinct Hset) as Hnd. rewrite Forall_forall in Hp.
  change (map (fun p => rel (pl_path p)) ps) with ((fun p => rel (pl_path p)) <$> ps).
  change (map pl_path ps) with (pl_path <$> ps) in Hnd. clear -Hp Hnd. induction ps as [|p qs IH]; [constructor|].
  cbn [fmap list_fmap] in *. apply NoDup_cons in Hnd as [Hn Hnd]. constructor.
  - intros (q & E & Hq)%list_elem_of_fmap. apply Hn. apply rel_inj in E as ->.
    + by apply list_elem_of_fmap_2.
    + apply (Hp p). by left.
    + apply (Hp q). by right.
  - apply IH; [|done]. intros q Hq. apply Hp. by right.
Qed.

Section Inspection.
Context (w : world) (evs : list ApplyTransactionEvent) (s : ApplyTransactionState) (Hr : run_on (w_fs w) evs s).

Lemma artifact_dir_reads d : real_dir (w_fs w) d ->
  exists m, exec (SymlinkMetadata (render d)) w = (w, Ok m) /\ plain_dir m = true.
Proof.
  intros Hd. destruct (stat_dir w d Hd false) as (m & E & Ht). exists m. simpl. rewrite E. split; [done|].
  unfold plain_dir, metadata_is_link_or_reparse, is_symlink, is_dir. by rewrite Ht.
Qed.

Lemma manifest_reads : reads (manifest_errors (render ws) id (render run_loc) M) w [].
Proof.
  pose proof (run_is_real _ _ _ Hr) as Hd. unfold manifest_errors.
  eapply reads_bind with (a := []).
  { unfold patch_errors. rewrite (st_patch_path Hset), String.eqb_refl. cbn [negb]. cbn iota. rewrite join_run by done.
    pose proof (ro_patch _ _ _ Hr) as Hf.
    eapply reads_bind; [by eapply regular_reads|]. cbn [negb]. cbn iota.
    eapply reads_bind; [eapply reads_bind; [by eapply fingerprint_reads|apply reads_ret]|].
    cbn [ok]. rewrite (st_patch_hash Hset), bool_decide_true by done. apply reads_ret. }
  eapply reads_bind with (a := []).
  { unfold validate_manifest_artifacts. rewrite join_run by done. fold backups_loc.
    destruct (artifact_dir_reads _ (ro_backups_dir _ _ _ Hr)) as (m & E & Hm).
    eapply reads_sys; [exact E|]. cbv beta iota. rewrite Hm, (st_files Hset), (st_fields Hset).
    eapply reads_bind; [|apply reads_ret]. eapply records_read; [done|apply Hr| | |apply Hset|apply plan_paths_NoDup|].
    - pose proof (st_length Hset). lia.
    - intros i p c Hp Hc. by apply (ro_backups _ _ _ Hr i p c).
    - intros p _. apply not_elem_of_nil. }
  rewrite (st_schema Hset), (st_manifest_id Hset), (st_workspace Hset), N.eqb_refl, String.eqb_refl, path_eqb_refl.
  apply reads_ret.
Qed.

Lemma journal_nonempty : evs <> [].
Proof. intros ->. by pose proof (ro_last _ _ _ Hr). Qed.

Lemma journal_reads : reads (inspect_journal id (render run_loc) (Some M)) w (evs, []).
Proof.
  unfold inspect_journal. rewrite join_run by done. fold events_loc.
  destruct (artifact_dir_reads _ (ro_events_dir _ _ _ Hr)) as (m & E & Hm).
  eapply reads_sys; [exact E|]. cbv beta iota. rewrite Hm.
  eapply reads_sys; [cbn [exec]; by rewrite read_dir_dir by apply Hr|]. cbv beta iota.
  rewrite (listed_paths _ _ _ Hr). eapply reads_bind; [apply inspect_events_reads; apply Hr|].
  pose proof journal_nonempty. destruct evs; [done|]. apply reads_ret.
Qed.

(** What an inspection answers. *)
Definition inspection_of : ApplyTransactionInspection := {|
  i_schema_version := APPLY_TRANSACTION_SCHEMA_VERSION; i_transaction_id := id; i_valid := true; i_legacy := false;
  i_manifest := Some M; i_events := evs; i_final_state := Some s; i_recoverable := negb (is_terminal s);
  i_recovery_reasons := if is_terminal s then [] else
    [("transaction ended in non-terminal state `" ++ state_as_str s ++ "` and has validated backups")%string];
  i_errors := [] |}.

Lemma inspection_reads : reads (inspect_run_directory (render ws) id (render run_loc)) w inspection_of.
Proof.
  pose proof (run_is_real _ _ _ Hr) as Hd. unfold inspect_run_directory.
  destruct (artifact_dir_reads _ Hd) as (m & E & Hm). eapply reads_sys; [exact E|]. cbv beta iota. rewrite Hm. cbn [negb]. cbn iota.
  destruct (ro_manifest _ _ _ Hr) as (bytes & Hb & a & Ha). rewrite join_run by done.
  eapply reads_sys; [cbn [exec]; by rewrite (exec_metadata_file _ _ _ Hd (eq_refl : valid_name MANIFEST_FILE = true) _ _ _ Ha)|].
  cbv beta iota. change (plain_file (Metadata RegularFile _ _)) with true. cbn [negb]. cbn iota.
  unfold inspect_with_manifest. rewrite join_run by done.
  eapply reads_bind; [eapply read_json_reads; [done..|by exists a|by apply manifest_roundtrip]|]. cbn [ok].
  eapply reads_bind; [apply manifest_reads|]. eapply reads_bind; [apply journal_reads|]. cbv beta iota zeta.
  assert (option_map e_state (last evs) = Some s) as Hlast.
  { rewrite <- (ro_last _ _ _ Hr). clear. induction evs as [|e l IH] using rev_ind; [done|].
    rewrite map_app. cbn [map]. by rewrite !last_snoc. }
  rewrite Hlast. cbn [app List.length Nat.eqb recoverable_state andb]. unfold inspection_of. destruct (is_terminal s); apply reads_ret.
Qed.

Lemma inspect_transaction_reads : reads (inspect_apply_transaction (render ws) id) w (Ok inspection_of).
Proof.
  pose proof (run_is_real _ _ _ Hr) as Hd. unfold inspect_apply_transaction. rewrite (st_id Hset).
  eapply reads_try; [apply reads_ret|]. eapply reads_sys; [apply exec_canonicalize_dir; eapply workspace_real, Hr|].
  cbv beta iota. rewrite transaction_run_dir_loc. destruct (artifact_dir_reads _ Hd) as (m & E & _).
  eapply reads_sys; [exact E|]. cbv beta iota. eapply reads_bind; [apply inspection_reads|apply reads_ret].
Qed.
End Inspection.

(** ** Changes outside what the inspection reads *)

Definition alters (x : loc) (fs fs' : fsys) : Prop :=
  ~ is_dir_at fs x /\ forall l, l <> x -> fs' !! l = fs !! l.

Lemma alters_insert x n fs : ~ is_dir_at fs x -> alters x fs (<[x := n]> fs).
Proof. intros Hx. split; [done|]. intros l Hl. by rewrite lookup_insert_ne. Qed.
Lemma alters_delete x fs : ~ is_dir_at fs x -> alters x fs (delete x fs).
Proof. intros Hx. split; [done|]. intros l Hl. by rewrite lookup_delete_ne. Qed.

Record unread (x : loc) : Prop := {
  un_manifest : x <> run_loc ++ [MANIFEST_FILE];
  un_patch : x <> run_loc ++ [PATCH_FILE];
  un_backups : forall i, N.of_nat i < max_events -> x <> backups_loc ++ [backup_file_name i];
  un_events : forall n, x = events_loc ++ [n] -> valid_name n = true /\ json_name n = false;
}.

Lemma real_dir_alters fs fs' x l : alters x fs fs' -> real_dir fs l -> real_dir fs' l.
Proof. intros [Hx Hfs] Hl. by eapply real_dir_alter. Qed.

Lemma file_at_alters fs fs' x l c : alters x fs fs' -> x <> l -> file_at fs l c -> file_at fs' l c.
Proof. intros [_ Hfs] Hx [a Ha]. exists a. by rewrite Hfs. Qed.

Lemma stored_alters fs fs' x e :
  alters x fs fs' -> (forall n, x = events_loc ++ [n] -> valid_name n = true /\ json_name n = false) ->
  stored fs e -> stored fs' e.
Proof.
  intros Ha Hu (Hn & bytes & Hb & Hf). split; [done|]. exists bytes. split; [done|].
  eapply file_at_alters; [done| |done]. intros (_ & Hj)%Hu. unfold event_name in Hj. by rewrite event_name_json in Hj.
Qed.

Lemma run_on_alters fs fs' x evs s :
  alters x fs fs' -> unread x -> file_or_missing fs' lock_loc -> run_on fs evs s -> run_on fs' evs s.
Proof.
  intros Ha [U1 U2 U3 U4] Hlock [R1 R2 (b & Hb & R3) R4 R5 R6 R7 R8 R9 R10 R11 R12 R13].
  assert (forall n, is_Some (fs' !! (events_loc ++ [n])) ->
    (valid_name n = true /\ json_name n = false) \/ is_Some (fs !! (events_loc ++ [n]))) as Hnew.
  { intros n Hn. destruct (decide (x = events_loc ++ [n])) as [E|Hne]; [left; by apply U4|right].
    destruct Ha as [_ Ha]. by rewrite Ha in Hn. }
  split; try done.
  - by eapply real_dir_alters.
  - by eapply real_dir_alters.
  - exists b. split; [done|]. by eapply file_at_alters.
  - by eapply file_at_alters.
  - intros i p c Hp Hc. eapply file_at_alters; [done| |by eapply R5]. apply U3.
    apply lookup_lt_Some in Hp. pose proof (st_length Hset). lia.
  - eapply Forall_impl; [exact R6|]. intros e. by apply (stored_alters fs fs' x).
  - intros n [[Hv _]|Hn]%Hnew; [done|by apply R7].
  - intros n [[_ Hj]|Hn]%Hnew Hjs; [congruence|by apply R8].
  - eapply Forall_impl; [exact R13|]. intros p. by apply (real_dir_alters fs fs' x).
Qed.

Lemma lock_alters fs fs' x : alters x fs fs' -> x <> lock_loc -> file_or_missing fs lock_loc -> file_or_missing fs' lock_loc.
Proof. intros [_ Ha] Hx. unfold file_or_missing. by rewrite Ha. Qed.

Lemma staging_unread d label pid counter :
  any_byte (Ascii.eqb slash) label = false -> unread (d ++ [staging_name label pid counter]).
Proof.
  intros Hl. split.
  - intros [_ E]%app_inj_tail. symmetry in E. by apply not_staging_ne in E.
  - intros [_ E]%app_inj_tail. symmetry in E. by apply not_staging_ne in E.
  - intros i Hi [_ E]%app_inj_tail. symmetry in E. apply not_staging_ne in E; [done|]. by apply backup_name_good.
  - intros n [_ <-]%app_inj_tail. split; [by apply staging_valid|apply staging_not_json].
Qed.

Lemma staging_not_lock d label pid counter : d ++ [staging_name label pid counter] <> lock_loc.
Proof. intros [_ E]%app_inj_tail. symmetry in E. by apply not_staging_ne in E. Qed.

Lemma target_not_metadata p k : plan_ok p -> target p <> (ws ++ ".opticcode" :: k).
Proof.
  intros Hp E%app_inv_head. apply (mg_reserved _ (po_manageable p Hp)). rewrite E. left.
Qed.

Lemma target_unread p : plan_ok p -> unread (target p) /\ target p <> lock_loc.
Proof.
  intros Hp. pose proof (fun k => target_not_metadata p k Hp) as Hne. split; [split|];
    unfold events_loc, backups_loc, TransactionWorld.lock_loc, TransactionWorld.metadata_dir, run_loc; try (rewrite <- app_assoc; apply Hne).
  - intros i _. rewrite <- !app_assoc. apply Hne.
  - intros n. rewrite <- !app_assoc. by intros E%Hne.
Qed.

Lemma lock_unread : unread lock_loc.
Proof.
  assert (forall n k, metadata_dir ++ [n] <> (ws ++ [".opticcode"; "runs"; id] ++ k)) as Hne.
  { intros n k. unfold TransactionWorld.metadata_dir. rewrite <- app_assoc. by intros E%app_inv_head. }
  split; unfold events_loc, backups_loc, TransactionWorld.lock_loc, run_loc; try (rewrite <- app_assoc; apply Hne).
  - intros i _. rewrite <- !app_assoc. apply Hne.
  - intros n. rewrite <- !app_assoc. by intros E%Hne.
Qed.

(** ** Targets under changes *)

Definition same_targets (fs fs' : fsys) : Prop := forall p, p ∈ ps -> fs' !! target p = fs !! target p.

Lemma targets_same s fs fs' : same_targets fs fs' -> targets_in s fs -> targets_in s fs'.
Proof.
  intros Hs Ht. assert (forall P : fsys -> planned -> Prop,
    (forall p, fs' !! target p = fs !! target p -> P fs p -> P fs' p) -> Forall (P fs) ps -> Forall (P fs') ps) as Hall.
  { intros P HP. rewrite !Forall_forall. intros Hf p Hp. by apply HP; [apply Hs|apply Hf]. }
  assert (forall p, fs' !! target p = fs !! target p -> holds fs p -> holds fs' p) as Hh by (intros p; unfold holds; by intros ->).
  destruct s; apply (Hall _) in Ht; try done.
  - intros p E [Hc Hp]. split; [unfold content_at in *; by rewrite E|by apply Hh].
  - intros p. unfold restored. by intros ->.
Qed.

Lemma alters_same_targets x fs fs' : alters x fs fs' -> (forall p, p ∈ ps -> target p <> x) -> same_targets fs fs'.
Proof. intros [_ Hfs] Hx p Hp. by apply Hfs, Hx. Qed.

Lemma staging_not_target p d label pid counter : plan_ok p -> target p <> d ++ [staging_name label pid counter].
Proof.
  intros Hp. unfold target, pl_path. rewrite app_assoc. intros [_ E]%app_inj_tail.
  by apply (not_staging_ne _ _ _ _ (po_name p Hp)) in E.
Qed.

Lemma crash_safe_staging pid : staging_tolerant pid crash_safe.
Proof.
  intros fs d label counter c a Hl (evs & s & Hr & Ht) Hnone.
  assert (alters (d ++ [staging_name label pid counter]) fs (<[(d ++ [staging_name label pid counter]) := File c a]> fs)) as Ha
    by (by apply alters_insert, missing_not_dir).
  exists evs, s. split.
  { eapply run_on_alters; [done|by apply staging_unread| |done].
    eapply lock_alters; [done|apply staging_not_lock|apply Hr]. }
  eapply targets_same; [|done]. eapply alters_same_targets; [done|].
  intros p Hp. apply staging_not_target. by apply (proj1 (Forall_forall _ _) (st_plan Hset)).
Qed.

(** ** Appending an event *)

Lemma last_event_state evs : last (map e_state evs) = option_map e_state (last evs).
Proof. induction evs as [|e l IH] using rev_ind; [done|]. rewrite map_app. cbn [map]. by rewrite !last_snoc. Qed.

Lemma journal_ok_snoc expected current evs e :
  journal_ok id M expected current evs -> expected + N.of_nat (List.length evs) < u32_max ->
  event_ok id M (expected + N.of_nat (List.length evs))
    (match last (map e_state evs) with Some s => Some s | None => current end) e ->
  journal_ok id M expected current (evs ++ [e]).
Proof.
  induction 1 as [|expected current e' evs He Hj IH]; intros Hb Hok.
  - cbn [List.length app map last] in *. rewrite N.add_0_r in Hok. constructor; [done|]. constructor.
  - cbn [app]. constructor; [done|]. cbn [List.length] in *.
    pose proof (eok_sequence _ _ _ _ _ He) as Hs. unfold next_expected in *. rewrite Hs in *.
    apply IH; [lia|]. replace (N.min u32_max (expected + 1) + N.of_nat (List.length evs)) with (expected + N.of_nat (S (List.length evs))) by lia.
    destruct evs as [|e2 evs]; [done|]. cbn [map] in Hok |- *.
    change (last (e_state e' :: e_state e2 :: map e_state evs)) with (last (e_state e2 :: map e_state evs)) in Hok.
    by destruct (last (e_state e2 :: map e_state evs)) eqn:E; [|apply last_None in E].
Qed.

Lemma pending_room fs evs s : run_on fs evs s -> N.of_nat (List.length evs) <= max_events.
Proof. intros Hr. pose proof (ro_room _ _ _ Hr). lia. Qed.

(** The next event's file does not exist yet. *)
Lemma next_event_missing fs evs s n s' :
  run_on fs evs s -> n = N.of_nat (List.length evs) -> n < max_events ->
  fs !! (events_loc ++ [event_file_name n s']) = None.
Proof.
  intros Hr -> Hn. destruct (fs !! _) eqn:E; [|done]. exfalso.
  assert (event_file_name (N.of_nat (List.length evs)) s' ∈ map event_name evs) as Hin.
  { apply (ro_only _ _ _ Hr); [by eexists|by apply event_name_json]. }
  apply list_elem_of_fmap in Hin as (e & He & [k Hk]%list_elem_of_lookup). pose proof (lookup_lt_Some _ _ _ Hk) as Hl.
  assert (e_sequence e = N.of_nat k) as Hs.
  { rewrite (journal_ok_sequence _ _ 0 None evs k e (N.le_0_l _) (ro_journal _ _ _ Hr) Hk). unfold max_events, u32_max in *. lia. }
  pose proof (event_name_lt (e_sequence e) (N.of_nat (List.length evs)) (e_state e) s' ltac:(lia) Hn) as Hlt.
  unfold event_name in He. rewrite He in Hlt. unfold str_lt in Hlt. by rewrite (cmp_refl str_cmp) in Hlt.
Qed.

Lemma run_on_append fs evs s e bytes a :
  run_on fs evs s -> event_ok id M (N.of_nat (List.length evs)) (Some s) e -> event_to_vec e = Ok bytes ->
  pending (e_state e) < pending s ->
  run_on (<[events_loc ++ [event_name e] := File (bytes ++ newline) a]> fs) (evs ++ [e]) (e_state e).
Proof.
  intros Hr He Hb Hpend. pose proof (ro_room _ _ _ Hr) as Hroom. pose proof (eok_sequence _ _ _ _ _ He) as Hseq.
  assert (e_sequence e < max_events) as Hn by lia.
  assert (fs !! (events_loc ++ [event_name e]) = None) as Hnone by (eapply next_event_missing; done).
  set (x := events_loc ++ [event_name e]) in *. set (fs' := <[x := _]> fs).
  assert (alters x fs fs') as Ha by (by apply alters_insert, missing_not_dir).
  destruct (event_name_good (e_sequence e) (e_state e) Hn) as (Hv & _ & _).
  destruct Hr as [R1 R2 (b & Hb' & R3) R4 R5 R6 R7 R8 R9 R10 R11 R12 R13].
  assert (forall l n, l <> events_loc -> x <> (l ++ [n])) as Hdir by (intros l n Hl [E _]%app_inj_tail; by rewrite E in Hl).
  assert (forall m, run_loc <> (run_loc ++ [m])) as Hgrow
    by (intros m E; apply (f_equal (@List.length _)) in E; rewrite length_app in E; simpl in E; lia).
  split.
  - by eapply real_dir_alters.
  - by eapply real_dir_alters.
  - exists b. split; [done|]. eapply file_at_alters; [done|by apply Hdir, Hgrow|done].
  - eapply file_at_alters; [done|by apply Hdir, Hgrow|done].
  - intros i p c Hp Hc. eapply file_at_alters; [done|apply Hdir|by eapply R5]. unfold backups_loc, events_loc.
    by intros [_ E]%app_inj_tail.
  - apply Forall_app. split.
    + rewrite Forall_forall in R6 |- *. intros e' Hin. destruct (R6 e' Hin) as (Hn' & b' & Hb2 & a' & Hf). split; [done|].
      exists b'. split; [done|]. exists a'. unfold fs'. rewrite lookup_insert_ne; [done|]. intros E. rewrite <- E in Hf. congruence.
    + constructor; [|constructor]. split; [done|]. exists bytes. split; [done|]. exists a. apply lookup_insert_eq.
  - intros n Hin. destruct (decide (x = events_loc ++ [n])) as [[_ <-]%app_inj_tail|Hne]; [done|].
    apply R7. unfold fs' in Hin. by rewrite lookup_insert_ne in Hin.
  - intros n Hin Hj. rewrite map_app. apply elem_of_app.
    destruct (decide (x = events_loc ++ [n])) as [[_ <-]%app_inj_tail|Hne]; [right; by apply list_elem_of_singleton|left].
    apply R8; [|done]. unfold fs' in Hin. by rewrite lookup_insert_ne in Hin.
  - apply journal_ok_snoc; [done|unfold max_events, u32_max in *; lia|]. by rewrite R10.
  - rewrite map_app. apply last_snoc.
  - rewrite length_app. cbn [List.length]. lia.
  - unfold file_or_missing. destruct Ha as [_ Ha]. rewrite Ha; [done|]. intros E. symmetry in E. revert E. apply Hdir.
    unfold TransactionWorld.metadata_dir, events_loc, run_loc. rewrite <- app_assoc. by intros E%app_inv_head.
  - eapply Forall_impl; [exact R13|]. intros p. by apply (real_dir_alters fs fs' x).
Qed.
End Store.
