(* ===== verification/Recovery.v ===== *)
(** * Apply transactions on a file system: rollback and recovery

    From every tree an interrupted transaction can leave, recovery succeeds:
    it restores every target and journals it; and every tree it passes
    through is again one from which recovery succeeds. *)

From stdpp Require Import base list strings gmap pretty.
From Stdlib Require Import NArith Ascii String Lia.
From S2P Require Import Prelude Bytes UnixPath TextFacts IO World WorldFacts Anyhow Paths GitState Transaction TransactionFs TransactionRun TransactionFacts TransactionWorld RunStore.

Local Open Scope string_scope.
Local Open Scope N_scope.
Local Open Scope list_scope.

(** ** Staging files of different processes *)

Lemma staging_pid label pid counter label' pid' counter' :
  staging_name label pid counter = staging_name label' pid' counter' -> pid = pid'.
Proof.
  assert (forall l p c, rsplit_once "-" (staging_name l p c) = Some ((".opticcode-" ++ l ++ "-" ++ dec p)%string, (dec c ++ ".tmp")%string)) as Hlast.
  { intros l p c. unfold staging_name.
    change (".opticcode-" ++ l ++ "-" ++ dec p ++ "-" ++ dec c ++ ".tmp")%string
      with (".opticcode-" ++ l ++ "-" ++ dec p ++ String "-" (dec c ++ ".tmp"))%string.
    rewrite <- !append_assoc. apply rsplit_once_app. by rewrite any_byte_app, dec_free. }
  assert (forall l p, rsplit_once "-" (".opticcode-" ++ l ++ "-" ++ dec p)%string = Some ((".opticcode-" ++ l)%string, dec p)) as Hmid.
  { intros l p. change (".opticcode-" ++ l ++ "-" ++ dec p)%string with (".opticcode-" ++ l ++ String "-" (dec p))%string.
    rewrite <- append_assoc. apply rsplit_once_app. by rewrite dec_free. }
  intros E%(f_equal (rsplit_once "-")). rewrite !Hlast in E. apply (inj Some), (f_equal fst) in E. cbn [fst] in E.
  apply (f_equal (rsplit_once "-")) in E. rewrite !Hmid in E. apply (inj Some), (f_equal snd) in E. cbn [snd] in E. unfold dec in E. by apply (inj (A := N) pretty) in E.
Qed.

Lemma no_staging_insert pid fs d n x :
  not_staging n -> no_staging pid fs -> no_staging pid (<[(d ++ [n])%list := x]> fs).
Proof.
  intros Hn Hs d' label counter. rewrite lookup_insert_ne; [apply Hs|].
  intros [_ E]%app_inj_tail. by apply not_staging_ne in E.
Qed.

Lemma no_staging_delete pid fs l : no_staging pid fs -> no_staging pid (delete l fs).
Proof. intros Hs d label counter. apply lookup_delete_None. right. apply Hs. Qed.

(** ** Appending to a journal *)

Section Append.
Context `{TransactionSerde} (pid : N) (J : fsys -> Prop) (Htolerant : staging_tolerant pid J).

(** The event a transition records. *)
Definition event_of (w : world) (j : TransactionJournal) (next : ApplyTransactionState) (message : string)
    (files errors : list string) (git : option GitStateSnapshot) : ApplyTransactionEvent := {|
  e_schema_version := APPLY_TRANSACTION_SCHEMA_VERSION; e_transaction_id := j_transaction_id j;
  e_sequence := j_next_sequence j; e_recorded_at_unix_ms := w_clock w / 1000000; e_state := next; e_message := message;
  e_files := files; e_errors := errors; e_elapsed_ms := duration_ms (w_instant w - j_started_at j); e_git_snapshot := git |}.

(** The milliseconds since the epoch fit. *)
Lemma time_reads w : w_clock w / 1000000 <= u64_max -> reads unix_time_ms w (Ok (w_clock w / 1000000)).
Proof.
  intros Hclock. unfold unix_time_ms, unix_time_nanos. eapply reads_try.
  - apply reads_map_err. intros I' Q' HI' HQ'. eapply wp_call; [reflexivity|done|done].
  - cbv zeta. rewrite (proj2 (N.leb_le _ _) Hclock). apply reads_ret.
Qed.

Lemma transition_writes w j d next message files errors git bytes Q :
  w_pid w = pid -> w_clock w / 1000000 <= u64_max -> valid_transition (j_current_state j) next = true ->
  j_events_dir j = render d -> real_dir (w_fs w) d -> j_next_sequence j < max_events -> no_staging pid (w_fs w) ->
  let e := event_of w j next message files errors git in
  let x := d ++ [event_name e] in
  event_to_vec e = Ok bytes -> w_fs w !! x = None ->
  J (w_fs w) -> J (<[x := File (bytes ++ newline) (fresh_file w)]> (w_fs w)) ->
  (forall w', becomes w (<[x := File (bytes ++ newline) (fresh_file w)]> (w_fs w)) w' ->
     Q w' (advance j next (j_next_sequence j + 1), Ok tt)) ->
  wp (fun w => J (w_fs w)) (transition j next message files errors git) w Q.
Proof.
  intros Hpid Hclock Hvt Hdir Hd Hn Hst e x Hb Hnone HJ HJ' HQ. set (I := fun w => J (w_fs w)).
  destruct (event_name_good (j_next_sequence j) next Hn) as (Hv & Hu & Hs).
  unfold transition. rewrite Hvt. cbn [negb]. cbn iota.
  eapply wp_reads; [by apply time_reads|exact HJ|]. cbv beta iota.
  eapply wp_sys; [reflexivity|exact HJ|]. cbv beta iota zeta.
  change {| e_schema_version := APPLY_TRANSACTION_SCHEMA_VERSION; e_transaction_id := j_transaction_id j;
    e_sequence := j_next_sequence j; e_recorded_at_unix_ms := w_clock w / 1000000; e_state := next; e_message := message;
    e_files := files; e_errors := errors; e_elapsed_ms := duration_ms (w_instant w - j_started_at j); e_git_snapshot := git |} with e.
  rewrite Hdir, join_render by (done || apply Hd). unfold write_json_new_atomic. rewrite Hb. cbn [map_err lift]. cbn [try_bind bind].
  eapply wp_bind.
  { apply (write_new_wp pid J Htolerant w d (event_file_name (j_next_sequence j) next) (bytes ++ newline)
      (fun w' r => r = Ok tt /\ becomes w (<[x := File (bytes ++ newline) (fresh_file w)]> (w_fs w)) w')); try done.
    by rewrite Hpid. }
  intros w' r [-> Hw']. cbn [wp]. unfold after_event.
  assert ((j_next_sequence j <? u32_max) = true) as -> by (apply N.ltb_lt; unfold max_events, u32_max in *; lia). by apply HQ.
Qed.
End Append.

Section Recovery.
Context `{Blake3, TransactionSerde, !TransactionRoundTrip}.
Context (ws : loc) (id patch : string) (ps : list planned) (M : ApplyTransactionManifest).
Context (Hset : setting ws id patch ps M).
(** Events are encoded without failing: they hold only strings and numbers. *)
Context (Hencode : forall e, exists bytes, event_to_vec e = Ok bytes).

Local Abbreviation run_on := (run_on ws id patch ps M).
Local Abbreviation crash_safe := (crash_safe ws id patch ps M).
Local Abbreviation target := (target ws).
Local Abbreviation holds := (holds ws).
Local Abbreviation restored := (restored ws).
Local Abbreviation targets_in := (targets_in ws ps).
Local Abbreviation metadata_dir := (metadata_dir ws).
Local Abbreviation lock_loc := (lock_loc ws).
Local Abbreviation run_loc := (run_loc ws id).
Local Abbreviation events_loc := (events_loc ws id).
Local Abbreviation backups_loc := (backups_loc ws id).

(** ** The invariant

    [pid] is the running process and [fs0] the tree it started from: the
    trees it leaves are crash safe and have staging files of no other
    process than before. *)
Context (pid : N) (fs0 : fsys).

Definition fresh_for_others (fs : fsys) : Prop :=
  forall other, other <> pid -> no_staging other fs0 -> no_staging other fs.

Definition safe (fs : fsys) : Prop := crash_safe fs /\ fresh_for_others fs.
Definition safe_world (w : world) : Prop := safe (w_fs w).

Lemma safe_staging : staging_tolerant pid safe.
Proof.
  intros fs d label counter c a Hl [Hc Hf] Hnone. split; [by apply crash_safe_staging|].
  intros other Hne H0' d' label' counter'. destruct (decide ((d ++ [staging_name label pid counter])%list = (d' ++ [staging_name label' other counter'])%list)) as [E|E].
  - apply app_inj_tail in E as [_ E]. apply staging_pid in E. by symmetry in E.
  - rewrite lookup_insert_ne by done. by apply Hf.
Qed.

(** A world at work: the journal ends in state [s], and no staging file of
    the process is left. *)
Record at_work (w : world) (evs : list ApplyTransactionEvent) (s : ApplyTransactionState) : Prop := {
  aw_pid : w_pid w = pid;
  aw_run : run_on (w_fs w) evs s;
  aw_targets : targets_in s (w_fs w);
  aw_staging : no_staging pid (w_fs w);
  aw_others : fresh_for_others (w_fs w);
  aw_clock : w_clock w / 1000000 <= u64_max;
}.

Lemma at_work_safe w evs s : at_work w evs s -> safe (w_fs w).
Proof. intros [_ Hr Ht _ Hf _]. split; [by exists evs, s|done]. Qed.

Lemma fresh_insert fs d n x : not_staging n -> fresh_for_others fs -> fresh_for_others (<[(d ++ [n])%list := x]> fs).
Proof. intros Hn Hf other Hne H0'. apply no_staging_insert; [done|by apply Hf]. Qed.
Lemma fresh_delete fs l : fresh_for_others fs -> fresh_for_others (delete l fs).
Proof. intros Hf other Hne H0'. apply no_staging_delete. by apply Hf. Qed.

Lemma plan_of p : p ∈ ps -> plan_ok p.
Proof. apply (proj1 (Forall_forall _ _) (st_plan _ _ _ _ _ Hset)). Qed.

Lemma host_clock w w' : same_host w w' -> w_clock w' = w_clock w /\ w_pid w' = w_pid w.
Proof. by intros (_ & Hc & _ & Hp & _). Qed.

(** ** The journal *)

Definition journal_at (evs : list ApplyTransactionEvent) (s : ApplyTransactionState) (started : N) : TransactionJournal := {|
  j_transaction_id := id; j_events_dir := render events_loc; j_started_at := started;
  j_current_state := Some s; j_next_sequence := N.of_nat (List.length evs) |}.

(** What an event may say in a state. *)
Definition may_say (s : ApplyTransactionState) (files errors : list string) (git : option GitStateSnapshot) : Prop :=
  forall e, e_state e = s -> e_files e = files -> e_errors e = errors -> e_git_snapshot e = git ->
    validate_event_semantics e M "" = [].

Lemma transition_wp w evs s next started message files errors git Q :
  at_work w evs s -> valid_transition (Some s) next = true -> pending next < pending s ->
  may_say next files errors git -> targets_in next (w_fs w) ->
  (forall w' e, same_but_tree w w' -> e_state e = next -> at_work w' (evs ++ [e]) next ->
    alters (events_loc ++ [event_name e]) (w_fs w) (w_fs w') ->
    Q w' (journal_at (evs ++ [e]) next started, Ok tt)) ->
  wp safe_world (transition (journal_at evs s started) next message files errors git) w Q.
Proof.
  intros Hw Hvt Hpend Hsay Hnext HQ. pose proof (at_work_safe _ _ _ Hw) as HJ.
  destruct Hw as [Hpid Hr Ht Hst Hf Hclock]. set (j := journal_at evs s started).
  set (e := event_of w j next message files errors git). destruct (Hencode e) as [bytes Hb].
  pose proof (ro_room _ _ _ _ _ _ _ _ Hr) as Hroom. change (N.of_nat (List.length evs)) with (e_sequence e) in Hroom.
  assert (e_sequence e < max_events) as Hn by lia.
  destruct (event_name_good (e_sequence e) next Hn) as (_ & _ & Hs).
  assert (event_ok id M (N.of_nat (List.length evs)) (Some s) e) as Hok.
  { split; [done..|]. exists "". by apply Hsay. }
  pose proof (next_event_missing ws id patch ps M _ evs s (e_sequence e) next Hr eq_refl Hn) as Hnone.
  pose proof (fun a => run_on_append ws id patch ps M _ evs s e bytes a Hr Hok Hb Hpend) as Hrun.
  change (event_name e) with (event_file_name (e_sequence e) next) in Hrun. change (e_state e) with next in Hrun.
  set (x := (events_loc ++ [event_file_name (e_sequence e) next])%list) in *.
  assert (forall a, alters x (w_fs w) (<[x := File (bytes ++ newline) a]> (w_fs w))) as Halt
    by (intros a; by apply alters_insert, missing_not_dir).
  assert (forall fs', alters x (w_fs w) fs' -> targets_in next fs') as Hkeep.
  { intros fs' Ha. eapply targets_same; [|exact Hnext]. eapply alters_same_targets; [exact Ha|].
    intros p Hp E. pose proof (plan_of p Hp) as Hpok.
    apply (target_not_metadata ws p ["runs"; id; EVENTS_DIR; event_file_name (e_sequence e) next] Hpok).
    rewrite E. unfold x, events_loc, run_loc. by rewrite <- !app_assoc. }
  assert (forall a, at_work (set_fs (<[x := File (bytes ++ newline) a]> (w_fs w)) w) (evs ++ [e]) next) as Hdone.
  { intros a. split; cbn [w_fs w_pid w_clock set_fs]; [done|apply Hrun|by eapply Hkeep|by apply no_staging_insert|by apply fresh_insert|done]. }
  apply (transition_writes pid safe safe_staging w j events_loc next message files errors git bytes); try done.
  - apply Hr.
  - apply (at_work_safe _ _ _ (Hdone _)).
  - intros w' [Hsame Hfs].
    assert (advance j next (j_next_sequence j + 1) = journal_at (evs ++ [e]) next started) as ->.
    { unfold advance, j, journal_at. cbn. f_equal. rewrite length_app. cbn [List.length]. lia. }
    apply HQ; [done|done| |rewrite Hfs; apply Halt].
    destruct (Hdone (fresh_file w)) as [_ Hr' Ht' Hst' Hf' _]. cbn [w_fs set_fs] in *.
    destruct (host_clock _ _ (proj1 Hsame)) as [Hc Hp].
    by split; rewrite ?Hfs, ?Hc, ?Hp.
Qed.

(** ** The lock *)

(** Taking the lock only creates its file. *)
Lemma acquire_wp w evs s Q :
  at_work w evs s -> render lock_loc ∉ w_locks w ->
  (forall w', same_host w w' -> w_locks w' = {[render lock_loc]} ∪ w_locks w -> at_work w' evs s ->
     (forall l, l <> lock_loc -> w_fs w' !! l = w_fs w !! l) -> Q w' (Ok (render lock_loc))) ->
  wp safe_world (acquire (render ws)) w Q.
Proof.
  intros Hw Hfree HQ. pose proof Hw as [Hpid Hr Ht Hst Hf Hclock].
  pose proof (workspace_real _ _ _ _ _ _ _ _ Hr) as [Hws Hmeta]. pose proof (ro_lock _ _ _ _ _ _ _ _ Hr) as Hlock.
  assert (with_directory ws w (w_fs w) = w_fs w) as Edir by by apply with_directory_present.
  assert (forall l, l <> lock_loc -> with_lock_file ws w (w_fs w) !! l = w_fs w !! l) as Hsame.
  { intros l Hl. unfold with_lock_file. destruct (w_fs w !! lock_loc); [done|]. by apply lookup_insert_ne. }
  assert (forall w', same_host w w' -> w_fs w' = with_lock_file ws w (w_fs w) -> at_work w' evs s) as Hend.
  { intros w' Hhost Hfs. destruct (host_clock _ _ Hhost) as [Hc Hp]. unfold with_lock_file in Hfs.
    destruct (w_fs w !! lock_loc) eqn:E; [by split; rewrite ?Hfs, ?Hc, ?Hp|].
    assert (alters lock_loc (w_fs w) (<[lock_loc := File "" (fresh_file w)]> (w_fs w))) as Ha by (by apply alters_insert, missing_not_dir).
    split; rewrite ?Hfs, ?Hc, ?Hp; [done| | |by apply no_staging_insert|by apply fresh_insert|done].
    - eapply run_on_alters; [done..|apply lock_unread| |done]. right. exists "", (fresh_file w). apply lookup_insert_eq.
    - eapply targets_same; [|done]. eapply alters_same_targets; [done|]. intros p Hin. by apply (target_unread ws id p), plan_of. }
  apply (acquire_files_wp ws safe).
  - by split; [|left|].
  - done.
  - by eapply at_work_safe.
  - rewrite Edir. by eapply at_work_safe.
  - rewrite Edir. apply (at_work_safe (set_fs (with_lock_file ws w (w_fs w)) w) evs s). by apply Hend.
  - rewrite Edir. intros w' Hhost Hfs Hlocks. apply HQ; [done|done|by apply Hend|]. intros l Hl. rewrite Hfs. by apply Hsame.
Qed.

(** ** Changing one target *)

Lemma targets_active s fs : is_terminal s = false -> targets_in s fs = Forall (holds fs) ps.
Proof. by destruct s. Qed.

Lemma no_staging_target other p fs fs' :
  plan_ok p -> alters (target p) fs fs' -> no_staging other fs -> no_staging other fs'.
Proof.
  intros Hp [_ Ha] Hs d label counter. rewrite Ha; [apply Hs|]. intros E. symmetry in E. revert E. by apply staging_not_target.
Qed.

Lemma same_target_or fs fs' p q : alters (target p) fs fs' -> pl_path q <> pl_path p -> fs' !! target q = fs !! target q.
Proof. intros [_ Ha] Hne. apply Ha. unfold RunStore.target. by intros E%app_inv_head. Qed.

Lemma target_step w w' evs s p :
  at_work w evs s -> is_terminal s = false -> p ∈ ps -> same_but_tree w w' ->
  alters (target p) (w_fs w) (w_fs w') -> holds (w_fs w') p -> at_work w' evs s.
Proof.
  intros [Hpid Hr Ht Hst Hf Hclock] Hs Hp [Hhost _] Ha Hh. pose proof (plan_of p Hp) as Hpok.
  destruct (host_clock _ _ Hhost) as [Hc Hpd]. destruct (target_unread ws id p Hpok) as [Hun Hlock].
  split; rewrite ?Hpd, ?Hc; [done| | |by eapply no_staging_target|intros other Hne H0'; by eapply no_staging_target, Hf|done].
  - eapply run_on_alters; [done..| |done]. eapply lock_alters; [done|done|apply Hr].
  - rewrite targets_active in Ht |- * by done. rewrite Forall_forall in Ht |- *. intros q Hq.
    destruct (decide (pl_path q = pl_path p)) as [E|Hne].
    + assert (q = p) as ->; [|done]. pose proof (st_distinct _ _ _ _ _ Hset) as Hnd.
      apply list_elem_of_lookup in Hp as [i Hi], Hq as [j Hj].
      assert (i = j) as ->; [|congruence].
      apply (NoDup_lookup (pl_path <$> ps) _ _ (pl_path p) Hnd); rewrite list_lookup_fmap; [by rewrite Hi|].
      rewrite Hj. simpl. by rewrite E.
    + pose proof (Ht q Hq) as Hhq. unfold RunStore.holds in *. by rewrite (same_target_or _ _ p q Ha Hne).
Qed.

(** ** Restoring one target *)

Section One.
Context (w : world) (evs : list ApplyTransactionEvent) (s : ApplyTransactionState) (i : nat) (p : planned).
Context (Hw : at_work w evs s) (Hs : is_terminal s = false) (Hi : ps !! i = Some p).
Context (Q : world -> res unit -> Prop).
Context (HQ : forall w', same_but_tree w w' -> at_work w' evs s -> alters (target p) (w_fs w) (w_fs w') ->
  restored (w_fs w') p -> Q w' (Ok tt)).

Lemma in_plan : p ∈ ps.
Proof. by eapply list_elem_of_lookup_2. Qed.

Lemma one_facts : plan_ok p /\ real_dir (w_fs w) (ws ++ pl_dir p) /\ holds (w_fs w) p /\ safe (w_fs w).
Proof.
  split; [apply plan_of, in_plan|]. split; [|split].
  - apply (proj1 (Forall_forall _ _) (ro_targets _ _ _ _ _ _ _ _ (aw_run _ _ _ Hw)) p in_plan).
  - pose proof (aw_targets _ _ _ Hw) as Ht. rewrite targets_active in Ht by done.
    apply (proj1 (Forall_forall _ _) Ht p in_plan).
  - by eapply at_work_safe.
Qed.

Lemma holds_file : file_or_missing (w_fs w) (target p).
Proof.
  destruct one_facts as (_ & _ & Hh & _). unfold RunStore.holds in Hh. unfold file_or_missing.
  destruct (w_fs w !! target p) as [[c a| | |]|]; try done; [right; by eexists _, _|by left].
Qed.

Lemma target_not_dir fs : file_or_missing fs (target p) -> ~ is_dir_at fs (target p).
Proof.
  unfold RunStore.target, pl_path. rewrite app_assoc.
  intros [Hm|(c & a & Hf)]; [by apply missing_not_dir|by eapply file_not_dir].
Qed.

(** The mode of a file that holds the content of before is restored. *)
Lemma permissions_wp w1 c m a :
  pl_before p = Some (c, m) -> same_but_tree w w1 -> at_work w1 evs s -> alters (target p) (w_fs w) (w_fs w1) ->
  w_fs w1 !! target p = Some (File c a) -> regular_mode (at_mode a) ->
  forall Q', (forall w2, same_but_tree w w2 -> at_work w2 evs s -> alters (target p) (w_fs w) (w_fs w2) ->
    restored (w_fs w2) p -> content_at (w_fs w2) (target p) = Some c -> Q' w2 (Ok tt)) ->
  wp safe_world (restore_permissions (render ws) (rel (pl_path p)) (file_of i p)) w1 Q'.
Proof.
  intros Hb Hsame Hw1 Ha Hf Hreg Q' HQ'. destruct one_facts as (Hpok & Hdir & _ & _).
  assert (real_dir (w_fs w1) (ws ++ pl_dir p)) as Hdir1 by (by eapply real_dir_alters).
  assert (~ is_dir_at (w_fs w1) (target p)) as Hnd by (apply target_not_dir; right; by eexists _, _).
  assert (forall w2 a2, same_but_tree w w2 -> w_fs w2 = <[target p := File c a2]> (w_fs w1) -> at_mode a2 = m ->
    at_work w2 evs s /\ alters (target p) (w_fs w) (w_fs w2) /\ restored (w_fs w2) p /\ content_at (w_fs w2) (target p) = Some c) as Hend.
  { intros w2 a2 Hsame2 E Hm. assert (w_fs w2 !! target p = Some (File c a2)) as Hf2 by (rewrite E; apply lookup_insert_eq).
    assert (alters (target p) (w_fs w) (w_fs w2)) as Ha2.
    { destruct Ha as [Hn0 Ha]. split; [done|]. intros l Hl. rewrite E, lookup_insert_ne by done. by apply Ha. }
    assert (restored (w_fs w2) p) as Hres by (unfold RunStore.restored; rewrite Hb; by exists a2).
    split; [|split; [done|split; [done|by unfold content_at; rewrite Hf2]]].
    eapply target_step; [exact Hw|done|apply in_plan|done|done|by apply restored_holds]. }
  unfold pl_path. apply (restore_permissions_wp safe w1 ws (pl_dir p) (pl_name p) Hdir1 (po_manageable p Hpok) c a (file_of i p) Q').
  - exact Hf.
  - by eapply at_work_safe.
  - cbn [file_of file_readonly]. by rewrite Hb.
  - intros readonly Hro a'. cbn [file_of file_readonly] in Hro. rewrite Hb in Hro. simpl in Hro. injection Hro as <-.
    assert (at_mode a' = m) as Hm.
    { unfold a'. cbn [file_of file_unix_mode]. rewrite Hb. apply restored_exact. rewrite Hreg. symmetry. by apply (po_mode p Hpok c m). }
    split.
    + destruct (Hend (set_fs (<[target p := File c a']> (w_fs w1)) w) a') as (Hw2 & _); [by split|done|done|].
      exact (at_work_safe _ _ _ Hw2).
    + intros w2 [Hsame2 Hfs2]. assert (same_but_tree w w2) as Hsame' by (by etransitivity).
      destruct (Hend w2 a' Hsame' Hfs2 Hm) as (? & ? & ? & ?). by apply HQ'.
Qed.

Lemma backup_relative : N.of_nat i < max_events ->
  validate_relative_path (BACKUPS_DIR ++ "/" ++ backup_file_name i)%string = Ok (BACKUPS_DIR ++ "/" ++ backup_file_name i)%string.
Proof.
  intros Hlt. destruct (backup_name_good i Hlt) as (Hv & Hu & Hn).
  change (BACKUPS_DIR ++ "/" ++ backup_file_name i)%string with (rel [BACKUPS_DIR; backup_file_name i]).
  assert (valid_names [BACKUPS_DIR; backup_file_name i]) as Hvs by (by repeat constructor).
  apply validate_relative_path_ok. unfold admissible. rewrite path_names_rel, components_rel by done.
  split; [|done]. split; [by apply rel_relative|]. split; [by intros (n & ? & _)%list_elem_of_fmap|]. split; [done|].
  split.
  - intros [E|[E|E%elem_of_nil]%elem_of_cons]%elem_of_cons; [done| |done].
    unfold backup_file_name in E. rewrite dec_pad_8 in E by done.
    destruct (digits_start (N.of_nat i) ".bin") as (c & r & Hd & Hc). rewrite Hd in E. injection E as <- _. by vm_compute in Hc.
  - change (rel [BACKUPS_DIR; backup_file_name i]) with (BACKUPS_DIR ++ "/" ++ backup_file_name i)%string.
    apply utf8_ascii. unfold ascii_only, backup_file_name. rewrite !all_bytes_app, dec_pad_8 by done.
    apply andb_true_iff; split; [done|]. apply andb_true_iff; split; [done|]. apply andb_true_iff; split; [|done].
    eapply all_bytes_impl; [apply hexdigit_ascii|]. apply all_hexdigits. lia.
Qed.

Lemma index_bound : N.of_nat i < max_events.
Proof. pose proof (lookup_lt_Some _ _ _ Hi). pose proof (st_length _ _ _ _ _ Hset). lia. Qed.

(** A target that has the content of after, or is gone, gets its backup. *)
Lemma backup_wp c m :
  pl_before p = Some (c, m) ->
  wp safe_world (restore_backup (render ws) (render run_loc) (file_of i p) (rel (pl_path p)) (content_at (w_fs w) (target p))) w Q.
Proof.
  intros Hb. destruct one_facts as (Hpok & Hdir & Hh & HJ). pose proof Hw as [Hpid Hr Ht Hst Hf Hclock].
  destruct (backup_name_good i index_bound) as (Hv & _ & _). pose proof (ro_backups_dir _ _ _ _ _ _ _ _ Hr) as Hbd.
  assert (file_at (w_fs w) (backups_loc ++ [backup_file_name i]) c) as Hbackup
    by (apply (ro_backups _ _ _ _ _ _ _ _ Hr i p c Hi); unfold content_before; by rewrite Hb).
  unfold restore_backup. cbn [file_of backup_path before_hash file_path]. unfold content_before. rewrite Hb.
  cbn [is_some ok_or option_map fst fingerprint_of lift try_bind bind].
  rewrite backup_relative by apply index_bound. cbn [lift try_bind bind].
  rewrite (join_backup ws id patch ps M Hset i index_bound).
  assert (path_starts_with (render (backups_loc ++ [backup_file_name i])) (render run_loc) = true) as ->.
  { unfold backups_loc, RunStore.backups_loc. rewrite <- app_assoc. apply starts_with_render.
    rewrite app_assoc. apply valid_names_snoc; [apply Hbd|done]. }
  cbn [negb]. cbn iota. eapply wp_reads_try; [by apply (read_file_reads w backups_loc (backup_file_name i) c)|exact HJ|].
  cbv beta. rewrite String.eqb_refl. cbn [negb]. cbn iota.
  assert (pl_path p = (pl_dir p ++ [pl_name p])%list) as Hpath by done.
  assert (forall fs' a, fs' = <[target p := File c a]> (w_fs w) -> regular_mode (at_mode a) ->
    alters (target p) (w_fs w) fs' /\ holds fs' p) as Hchange.
  { intros fs' a -> Hreg. split; [apply alters_insert, target_not_dir, holds_file|].
    unfold RunStore.holds. rewrite lookup_insert_eq. split; [left; unfold content_before; by rewrite Hb|done]. }
  apply wp_try, wp_map_err. rewrite Hpath.
  apply (atomic_replace_wp pid safe safe_staging w ws (pl_dir p) (pl_name p) c None).
  - done.
  - done.
  - apply Hpok.
  - apply Hpok.
  - apply holds_file.
  - by rewrite Hpid.
  - exact HJ.
  - destruct (Hchange _ (fresh_file w) eq_refl eq_refl) as [Ha Hh1].
    refine (at_work_safe (set_fs _ w) evs s _). eapply target_step; [exact Hw|done|apply in_plan|done|exact Ha|exact Hh1].
  - intros w1 [Hsame1 Hfs1]. cbn [map_err]. destruct (Hchange _ _ Hfs1 eq_refl) as [Ha1 Hh1].
    apply wp_try. rewrite <- Hpath. apply (permissions_wp w1 c m (fresh_file w)).
    + done.
    + done.
    + eapply target_step; [exact Hw|done|apply in_plan|done..].
    + done.
    + rewrite Hfs1. apply lookup_insert_eq.
    + done.
    + intros w2 Hsame2 Hw2 Ha2 Hres Hc2. cbv beta iota.
      assert (real_dir (w_fs w2) (ws ++ pl_dir p)) as Hdir2 by (by eapply real_dir_alters).
      assert (file_or_missing (w_fs w2) (target p)) as Hf2.
      { unfold RunStore.restored in Hres. rewrite Hb in Hres. destruct Hres as (a & Hres & _). right. by eexists _, _. }
      apply wp_try. rewrite Hpath. apply read_target_wp; [done|apply Hpok|exact Hf2|by eapply at_work_safe|].
      cbv beta iota. change (ws ++ pl_dir p ++ [pl_name p])%list with (target p). rewrite Hc2.
      cbn [option_map]. rewrite bool_decide_true by done. by apply HQ.
  - by intros w' f e [=].
Qed.

(** A file the transaction created is removed. *)
Lemma remove_wp c a :
  pl_before p = None -> w_fs w !! target p = Some (File c a) ->
  wp safe_world (remove_created (render ws) (file_of i p) (rel (pl_path p)) (content_at (w_fs w) (target p))) w Q.
Proof.
  intros Hb Hf. destruct one_facts as (Hpok & Hdir & Hh & HJ).
  assert (pl_path p = (pl_dir p ++ [pl_name p])%list) as Hpath by done.
  pose proof (mg_valid _ (po_manageable p Hpok)) as Hv. rewrite Hpath in Hv. apply Forall_app in Hv as [Hvd Hvn]. apply Forall_inv in Hvn.
  assert (real_dir (w_fs w) ws) as Hws by (by eapply real_dir_prefix).
  unfold remove_created. rewrite Hpath. apply wp_try, read_target_wp; [done|apply Hpok|apply holds_file|exact HJ|].
  cbv beta iota. rewrite bool_decide_true by done. cbn [negb]. cbn iota.
  rewrite join_render_rel by (apply Hpok || auto). change (ws ++ pl_dir p ++ [pl_name p])%list with (target p).
  assert (target p = ((ws ++ pl_dir p) ++ [pl_name p])%list) as Htarget by (unfold RunStore.target; by rewrite Hpath, app_assoc).
  set (w1 := set_fs (delete (target p) (w_fs w)) w).
  assert (alters (target p) (w_fs w) (w_fs w1)) as Ha by (apply alters_delete, target_not_dir, holds_file).
  assert (w_fs w1 !! target p = None) as Hnone by apply lookup_delete_eq.
  assert (restored (w_fs w1) p) as Hres by (unfold RunStore.restored; by rewrite Hb).
  assert (at_work w1 evs s) as Hw1.
  { eapply target_step; [exact Hw|done|apply in_plan|done|exact Ha|by apply restored_holds]. }
  eapply wp_call; [by apply (exec_remove_target w ws (pl_dir p) (pl_name p) Hdir (po_manageable p Hpok) c a)|by eapply at_work_safe|].
  cbn [map_err bind]. fold w1. rewrite Htarget. apply sync_parent_wp; [by eapply real_dir_alters|done|by eapply at_work_safe|].
  by apply HQ.
Qed.

Lemma restore_one_wp : wp safe_world (restore_transaction_file (render ws) (render run_loc) (file_of i p)) w Q.
Proof.
  destruct one_facts as (Hpok & Hdir & Hh & HJ). assert (pl_path p = (pl_dir p ++ [pl_name p])%list) as Hpath by done.
  unfold restore_transaction_file. cbn [file_of file_path].
  rewrite manageable_path by apply Hpok. cbn [lift try_bind bind].
  apply wp_try. rewrite Hpath. apply read_target_wp; [done|apply Hpok|apply holds_file|exact HJ|].
  change (ws ++ pl_dir p ++ [pl_name p])%list with (target p). rewrite <- Hpath. cbv beta iota zeta.
  cbn [file_of before_hash after_hash file_existed_before]. fold (file_of i p).
  change (option_map fingerprint_bytes (content_at (w_fs w) (target p))) with (fingerprint_of (content_at (w_fs w) (target p))).
  pose proof (po_distinct p Hpok) as Hdist.
  assert (forall w', w' = w -> alters (target p) (w_fs w) (w_fs w')) as Hrefl.
  { intros w' ->. split; [apply target_not_dir, holds_file|done]. }
  unfold RunStore.holds in Hh. destruct (w_fs w !! target p) as [[c a| | |]|] eqn:Ef; try done.
  - destruct Hh as [[Hbefore|Hafter] Hreg].
    + assert (content_at (w_fs w) (target p) = content_before p) as Hc by (unfold content_at; by rewrite Ef).
      rewrite Hc, bool_decide_true by done. unfold content_before in Hbefore.
      destruct (pl_before p) as [[c0 m]|] eqn:Eb; [|done]. injection Hbefore as ->. cbn [is_some].
      eapply (permissions_wp w c m a); [done|done|done|by apply Hrefl|done|done|].
      intros w2 Hs2 Hw2 Ha2 Hr2 _. by apply HQ.
    + assert (content_at (w_fs w) (target p) = pl_after p) as Hc by (unfold content_at; by rewrite Ef).
      rewrite Hc. rewrite bool_decide_false by congruence. rewrite bool_decide_true by done. cbn [negb]. cbn iota.
      rewrite <- Hc. destruct (pl_before p) as [[c0 m]|] eqn:Eb; cbn [is_some].
      * by eapply backup_wp.
      * pose proof (remove_wp c a Eb Ef) as Hrem. rewrite Hc, Hafter in Hrem |- *. exact Hrem.
  - assert (content_at (w_fs w) (target p) = None) as Hc by (unfold content_at; by rewrite Ef).
    destruct (pl_before p) as [[c0 m]|] eqn:Eb.
    + destruct Hh as [|Hafter]; [done|].
      assert (content_before p = Some c0) as Hcb by (unfold content_before; by rewrite Eb).
      rewrite Hc, Hcb, bool_decide_false by done. rewrite Hafter, bool_decide_true by done.
      cbn [negb is_some]. cbn iota. rewrite <- Hc. by eapply backup_wp.
    + assert (content_before p = None) as Hcb by (unfold content_before; by rewrite Eb).
      rewrite Hc, Hcb, bool_decide_true by done. cbn [is_some]. apply HQ; [done|done|by apply Hrefl|].
      unfold RunStore.restored. by rewrite Eb.
Qed.
End One.

(** ** Restoring every target *)

(** Only targets change. *)
Definition only_targets (fs fs' : fsys) : Prop := forall l, (forall p, p ∈ ps -> l <> target p) -> fs' !! l = fs !! l.

Lemma alters_only_targets p fs fs' : p ∈ ps -> alters (target p) fs fs' -> only_targets fs fs'.
Proof. intros Hp [_ Ha] l Hl. by apply Ha, Hl. Qed.

Lemma only_targets_trans fs1 fs2 fs3 : only_targets fs1 fs2 -> only_targets fs2 fs3 -> only_targets fs1 fs3.
Proof. intros H12 H23 l Hl. rewrite H23, H12; done. Qed.

Lemma same_plan p q : p ∈ ps -> q ∈ ps -> pl_path q = pl_path p -> q = p.
Proof.
  intros [i Hi]%list_elem_of_lookup [j Hj]%list_elem_of_lookup E.
  assert (i = j) as ->; [|congruence].
  apply (NoDup_lookup (pl_path <$> ps) _ _ (pl_path p) (st_distinct _ _ _ _ _ Hset)); rewrite list_lookup_fmap; [by rewrite Hi|].
  rewrite Hj. simpl. by rewrite E.
Qed.

Lemma restored_stays fs fs' p q :
  p ∈ ps -> q ∈ ps -> alters (target p) fs fs' -> restored fs' p -> restored fs q -> restored fs' q.
Proof.
  intros Hp Hq Ha Hr Hrq. destruct (decide (pl_path q = pl_path p)) as [E|Hne]; [by rewrite (same_plan p q)|].
  unfold RunStore.restored in *. by rewrite (same_target_or _ _ p q Ha Hne).
Qed.

Definition record_of (ip : nat * planned) : ApplyTransactionFile := file_of ip.1 ip.2.
Definition planned_at (ip : nat * planned) : Prop := ps !! ip.1 = Some ip.2.

Lemma restore_files_wp (faults : ApplyFaultInjector) l w evs s first acc before Q :
  faults AfterFirstRestore = Ok tt -> at_work w evs s -> is_terminal s = false -> Forall planned_at l ->
  Forall (fun p => p ∈ ps /\ restored (w_fs w) p) before ->
  (forall w', same_but_tree w w' -> at_work w' evs s -> only_targets (w_fs w) (w_fs w') ->
     Forall (fun p => p ∈ ps /\ restored (w_fs w') p) (map snd l ++ before) ->
     Q w' (acc ++ map (fun ip => rel (pl_path ip.2)) l, [])) ->
  wp safe_world (restore_files faults (render ws) (render run_loc) first (map record_of l) acc) w Q.
Proof.
  intros Hfault Hw Hs Hl. revert w Hw first acc before Q. induction Hl as [|[i p] l Hip Hl IH]; intros w Hw first acc before Q Hb HQ.
  { cbn [map restore_files wp]. rewrite <- (app_nil_r acc). by apply HQ. }
  cbn [map restore_files]. change (record_of (i, p)) with (file_of i p). unfold planned_at in Hip. cbn [fst snd] in *.
  assert (p ∈ ps) as Hp by (by eapply list_elem_of_lookup_2).
  eapply wp_bind; [apply (restore_one_wp w evs s i p Hw Hs Hip (fun w' r => r = Ok tt /\ same_but_tree w w' /\ at_work w' evs s /\
    alters (target p) (w_fs w) (w_fs w') /\ restored (w_fs w') p)); done|].
  intros w1 r (-> & Hsame1 & Hw1 & Ha1 & Hr1). cbv beta iota zeta.
  assert ((if first then faults AfterFirstRestore else Ok tt) = Ok tt) as -> by (by destruct first).
  eapply (IH w1 Hw1 false _ (p :: before)).
  - constructor; [done|]. eapply Forall_impl; [exact Hb|]. intros q [Hq Hrq]. split; [done|]. by eapply (restored_stays _ _ p q).
  - intros w2 Hsame2 Hw2 Ho2 Hall. cbn [file_of file_path]. rewrite <- app_assoc. apply HQ.
    + by etransitivity.
    + done.
    + eapply only_targets_trans; [by eapply alters_only_targets|done].
    + cbn [app map]. rewrite Forall_app, Forall_cons in Hall. rewrite Forall_cons, Forall_app. tauto.
Qed.

Lemma files_indexed k qs : files_from k qs = map record_of (imap (fun i p => ((k + i)%nat, p)) qs).
Proof.
  revert k. induction qs as [|p qs IH]; intros k; [done|]. cbn [files_from imap map]. rewrite Nat.add_0_r. f_equal.
  rewrite IH. f_equal. apply imap_ext. intros i q _. simpl. by rewrite Nat.add_succ_r.
Qed.

Definition indexed_plan : list (nat * planned) := imap (fun i p => (i, p)) ps.

Lemma manifest_files : m_files M = map record_of indexed_plan.
Proof. rewrite (st_files _ _ _ _ _ Hset). apply (files_indexed 0). Qed.

Lemma indexed_planned : Forall planned_at indexed_plan.
Proof.
  apply Forall_forall. intros [i p] (j & Hj)%list_elem_of_lookup. unfold indexed_plan in Hj. rewrite list_lookup_imap in Hj.
  destruct (ps !! j) eqn:E; [|done]. injection Hj as <- <-. exact E.
Qed.

Lemma indexed_snd : map snd indexed_plan = ps.
Proof.
  unfold indexed_plan. change (map snd (imap (fun i p => (i, p)) ps)) with (snd <$> imap (fun i p => (i, p)) ps).
  rewrite fmap_imap. transitivity ((fun p => p) <$> ps); [|apply list_fmap_id].
  rewrite <- imap_const. by apply imap_ext.
Qed.

(** ** What the events of a rollback say *)

Lemma remove_dups_NoDup (l : list string) : NoDup l -> remove_dups l = l.
Proof. induction 1 as [|x l Hx Hl IH]; [done|]. simpl. destruct (decide_rel _ _ _); [done|]. by rewrite IH. Qed.

Lemma subset_spec l k : subset l k = true <-> forall x, x ∈ l -> x ∈ k.
Proof.
  unfold subset. rewrite forallb_forall. setoid_rewrite existsb_exists. split.
  - intros Hs x Hx%list_elem_of_In. destruct (Hs x Hx) as (y & Hy & ->%String.eqb_eq). by apply list_elem_of_In.
  - intros Hs x Hx. exists x. split; [|apply String.eqb_refl]. by apply list_elem_of_In, Hs, list_elem_of_In.
Qed.

Lemma planned_paths : map file_path (m_files M) = map (fun p => rel (pl_path p)) ps.
Proof. rewrite (st_files _ _ _ _ _ Hset). apply files_paths. Qed.

Lemma started_says modified reason :
  NoDup modified -> (forall x, x ∈ modified -> x ∈ map (fun p => rel (pl_path p)) ps) ->
  may_say RollbackStarted modified [reason] None.
Proof.
  intros Hnd Hin e Hstate Hfiles Herr Hgit. unfold validate_event_semantics. rewrite Hstate, Hfiles, Herr, Hgit. unfold btree_set.
  rewrite (remove_dups_NoDup modified), Nat.eqb_refl by done. cbn [negb report_if].
  assert (subset modified (remove_dups (map file_path (m_files M))) = true) as ->; [|reflexivity].
  apply subset_spec. intros x Hx. apply elem_of_remove_dups. rewrite planned_paths. by apply Hin.
Qed.

Lemma complete_says state files git :
  claims_every_file state = true -> files ≡ₚ map (fun p => rel (pl_path p)) ps ->
  is_terminal state = false \/ is_some git = is_some (m_git_before M) -> may_say state files [] git.
Proof.
  intros Hstate Hfiles Hgit e Es Ef Ee Eg. unfold validate_event_semantics. rewrite Es, Ef, Ee, Eg. unfold btree_set.
  pose proof (plan_paths_NoDup _ _ _ _ _ Hset) as Hnd.
  rewrite (remove_dups_NoDup files) by (by rewrite Hfiles). rewrite Nat.eqb_refl, planned_paths. cbn [negb report_if].
  rewrite remove_dups_NoDup by done.
  assert (subset files (map (fun p => rel (pl_path p)) ps) = true) as Hs by (apply subset_spec; intros x; by rewrite Hfiles).
  assert (subset (map (fun p => rel (pl_path p)) ps) files = true) as Hs' by (apply subset_spec; intros x; by rewrite Hfiles).
  unfold same_set. rewrite Hs, Hs'. destruct state; try done; destruct Hgit as [|Hgit]; try done; cbn; by rewrite Hgit, eqb_reflx.
Qed.

Lemma nothing_says : may_say Applying [] [] None.
Proof. intros e Es Ef Ee Eg. unfold validate_event_semantics. by rewrite Es, Ef, Ee, Eg. Qed.

(** ** Rolling back *)

(** Nothing changes but the targets and what is below [.opticcode]. *)
Definition outside_same (fs fs' : fsys) : Prop :=
  forall l, (forall p, p ∈ ps -> l <> target p) -> (forall k, l <> metadata_dir ++ k) -> fs' !! l = fs !! l.

#[export] Instance outside_same_trans : Transitive outside_same.
Proof. intros fs1 fs2 fs3 H12 H23 l Hp Hk. rewrite H23, H12; done. Qed.

Lemma only_targets_outside fs fs' : only_targets fs fs' -> outside_same fs fs'.
Proof. intros Ho l Hp _. by apply Ho. Qed.

Lemma event_outside e fs fs' : alters (events_loc ++ [event_name e]) fs fs' -> outside_same fs fs'.
Proof.
  intros [_ Ha] l _ Hk. apply Ha. intros ->. apply (Hk ["runs"; id; EVENTS_DIR; event_name e]).
  unfold RunStore.events_loc, RunStore.run_loc, TransactionWorld.metadata_dir. by rewrite <- !app_assoc.
Qed.

Lemma targets_hold s fs : targets_in s fs -> Forall (holds fs) ps.
Proof.
  assert (forall P : planned -> Prop, (forall p, p ∈ ps -> P p -> holds fs p) -> Forall P ps -> Forall (holds fs) ps) as Himp.
  { intros P HP. rewrite !Forall_forall. intros Hf p Hp. by apply HP, Hf. }
  destruct s; try done; apply Himp; intros p Hp.
  - by intros [_ ?].
  - apply restored_holds. by apply plan_of.
Qed.

(** Git agrees that the worktree is what it was before. *)
Definition git_agrees (w : world) : Prop :=
  exists git snapshot, reads (verify_git_restored M) w (Ok (git, snapshot)) /\ git <> Some false /\
    is_some snapshot = is_some (m_git_before M).

Lemma start_wp w evs s0 started modified reason Q :
  at_work w evs s0 -> s0 <> RolledBack -> may_say RollbackStarted modified [reason] None ->
  (forall w' evs', same_but_tree w w' -> at_work w' evs' RollbackStarted -> outside_same (w_fs w) (w_fs w') ->
     same_targets ws ps (w_fs w) (w_fs w') -> Q w' (journal_at evs' RollbackStarted started, [])) ->
  wp safe_world
    (if bool_decide (j_current_state (journal_at evs s0 started) = Some RollbackStarted)
     then Ret (journal_at evs s0 started, [])
     else let! (journal, started0) :=
            transition (journal_at evs s0 started) RollbackStarted "automatic or explicit rollback started" modified [reason] None in
          Ret (journal, match started0 with
                        | Ok _ => []
                        | Err e => [("failed to journal rollback start: " ++ alternate e)%string]
                        end)) w Q.
Proof.
  intros Hw Hs0 Hsay HQ. cbn [journal_at j_current_state]. case_bool_decide as E.
  { injection E as ->. apply HQ; done. }
  assert (valid_transition (Some s0) RollbackStarted = true /\ pending RollbackStarted < pending s0) as [Hvt Hpend].
  { destruct s0; try done; split; done. }
  eapply wp_bind; [apply (transition_wp w evs s0 RollbackStarted started _ modified [reason] None
    (fun w' r => exists e, r = (journal_at (evs ++ [e]) RollbackStarted started, Ok tt) /\ same_but_tree w w' /\
       at_work w' (evs ++ [e]) RollbackStarted /\ alters (events_loc ++ [event_name e]) (w_fs w) (w_fs w'))); try done|].
  - eapply targets_hold, Hw.
  - intros w' e Hsame _ Hw' Ha. by exists e.
  - intros w' r (e & -> & Hsame & Hw' & Ha). cbv beta iota zeta. apply HQ; [done|done|by eapply event_outside|].
    eapply alters_same_targets; [done|]. intros p Hp Et.
    apply (target_not_metadata ws p ["runs"; id; EVENTS_DIR; event_name e] (plan_of p Hp)).
    rewrite Et. unfold RunStore.events_loc, RunStore.run_loc. by rewrite <- !app_assoc.
Qed.

(** The result of a rollback that succeeded. *)
Record rolled_back_result (operation : bool) (modified : list string) (reason : string) (r : ApplyTransactionResult) : Prop := {
  rr_state : rolled_back r = true;
  rr_success : operation_success r = operation;
  rr_errors : r_errors r = if operation then [] else [reason];
  rr_modified : modified_files r = modified;
  rr_restored : restored_files r = map (fun p => rel (pl_path p)) (rev ps);
}.

Lemma rollback_manifest_wp (faults : ApplyFaultInjector) w evs s0 started modified reason operation started0 Q :
  faults AtRollbackStarted = Ok tt -> faults AfterFirstRestore = Ok tt ->
  at_work w evs s0 -> s0 <> RolledBack -> may_say RollbackStarted modified [reason] None ->
  (forall w', same_but_tree w w' -> outside_same (w_fs w) (w_fs w') -> Forall (restored (w_fs w')) ps -> git_agrees w') ->
  (forall w' evs' j r, same_but_tree w w' -> at_work w' evs' RolledBack -> outside_same (w_fs w) (w_fs w') ->
     rolled_back_result operation modified reason r -> Q w' (j, Ok r)) ->
  wp safe_world (rollback_manifest faults (render ws) (render run_loc) M (journal_at evs s0 started) modified reason
    operation started0) w Q.
Proof.
  intros Hstart Hfirst Hw Hs0 Hsay Hgit HQ. unfold rollback_manifest.
  eapply wp_bind; [apply (start_wp w evs s0 started modified reason (fun w' r => exists evs', r = (journal_at evs' RollbackStarted started, []) /\
    same_but_tree w w' /\ at_work w' evs' RollbackStarted /\ outside_same (w_fs w) (w_fs w'))); [done..|]|].
  { intros w' evs' Hsame Hw' Ho _. by exists evs'. }
  intros w1 r1 (evs1 & -> & Hsame1 & Hw1 & Ho1). cbv beta iota zeta. rewrite Hstart.
  rewrite manifest_files, <- map_rev.
  eapply wp_bind; [apply (restore_files_wp faults (rev indexed_plan) w1 evs1 RollbackStarted true [] []
    (fun w' r => r = (map (fun ip => rel (pl_path ip.2)) (rev indexed_plan), []) /\ same_but_tree w1 w' /\
       at_work w' evs1 RollbackStarted /\ only_targets (w_fs w1) (w_fs w') /\ Forall (restored (w_fs w')) ps)); [done|done|done| |constructor|]|].
  { apply Forall_rev, indexed_planned. }
  { intros w' Hsame Hw' Ho Hall. split; [done|]. split; [done|]. split; [done|]. split; [done|].
    rewrite app_nil_r, map_rev, indexed_snd in Hall. apply Forall_rev in Hall. rewrite rev_involutive in Hall.
    eapply Forall_impl; [exact Hall|]. by intros p [_ ?]. }
  intros w2 r2 (-> & Hsame2 & Hw2 & Ho2 & Hres). cbv beta iota zeta.
  assert (same_but_tree w w2) as Hsame by (by etransitivity).
  assert (outside_same (w_fs w) (w_fs w2)) as Ho by (etransitivity; [done|by apply only_targets_outside]).
  destruct (Hgit w2 Hsame Ho Hres) as (git & snapshot & Hread & Hok & Hsnap).
  eapply wp_reads; [exact Hread|by eapply at_work_safe|]. cbv beta iota zeta.
  rewrite (bool_decide_false (git = Some false)) by done. cbn [andb report_if app List.length Nat.eqb negb].
  assert (map (fun ip : nat * planned => rel (pl_path ip.2)) (rev indexed_plan) = map (fun p => rel (pl_path p)) (rev ps)) as ->.
  { rewrite <- indexed_snd, <- map_rev, map_map. done. }
  eapply wp_bind; [apply (transition_wp w2 evs1 RollbackStarted RolledBack started _ _ [] snapshot
    (fun w' r => exists e, r = (journal_at (evs1 ++ [e]) RolledBack started, Ok tt) /\ same_but_tree w2 w' /\
       at_work w' (evs1 ++ [e]) RolledBack /\ alters (events_loc ++ [event_name e]) (w_fs w2) (w_fs w'))); [done|done|done| |exact Hres|]|].
  - apply complete_says; [done| |by right]. rewrite map_rev. symmetry. apply Permutation_rev.
  - intros w' e Hsame' _ Hw' Ha. by exists e.
  - intros w3 r3 (e & -> & Hsame3 & Hw3 & Ha3). cbv beta iota zeta. cbn [app List.length Nat.eqb andb].
    eapply wp_sys; [reflexivity|by eapply at_work_safe|]. cbn [wp]. apply (HQ _ (evs1 ++ [e])).
    + by etransitivity.
    + done.
    + etransitivity; [done|by eapply event_outside].
    + split; [reflexivity|by destruct operation|cbn; by destruct operation|done|done].
Qed.
End Recovery.
