(* ===== verification/CrashRecovery.v ===== *)
(** * Apply transactions on a file system: crash recovery

    Whatever crash-safe tree a process finds, recovery and explicit rollback
    end with every target restored; a crash in the middle leaves a crash-safe
    tree, from which another process recovers. *)

From stdpp Require Import base list strings gmap.
From Stdlib Require Import NArith Ascii String Lia.
From S2P Require Import Prelude Bytes UnixPath IO World WorldFacts Anyhow Paths GitState Transaction TransactionFs TransactionRun TransactionFacts TransactionWorld RunStore Recovery.

Local Open Scope string_scope.
Local Open Scope N_scope.
Local Open Scope list_scope.

(** ** Moments of a run *)

(** The worlds a run passes through, from its start to any of its calls: a
    crash leaves the tree of one of them. *)
Inductive visits {A} : IO A -> world -> world -> Prop :=
| visits_here m w : visits m w w
| visits_next {R : Set} (c : syscall R) k w w1 r w2 :
    exec c w = (w1, r) -> visits (k r) w1 w2 -> visits (Sys c k) w w2.

(** The world after the first [n] calls. *)
Fixpoint after {A} (n : nat) (m : IO A) (w : world) : world :=
  match n, m with
  | S n, Sys c k => let '(w', r) := exec c w in after n (k r) w'
  | _, _ => w
  end.

Lemma after_visits {A} n (m : IO A) w : visits m w (after n m w).
Proof.
  revert m w. induction n as [|n IH]; intros m w; [constructor|]. destruct m as [a|s|R c k]; [constructor..|].
  simpl. destruct (exec c w) as [w1 r] eqn:E. eapply visits_next; [exact E|apply IH].
Qed.

Lemma always_visits {A} I (m : IO A) w w' : I w -> always I m w -> visits m w w' -> I w'.
Proof.
  intros HI Ha Hv. induction Hv as [m w|R c k w w1 r w2 E Hv IH]; [done|]. simpl in Ha. rewrite E in Ha.
  destruct Ha. by apply IH.
Qed.

Section CrashRecovery.
Context `{Blake3, TransactionSerde, !TransactionRoundTrip}.
Context (ws : loc) (id patch : string) (ps : list planned) (M : ApplyTransactionManifest).
Context (Hset : setting ws id patch ps M).
Context (Hencode : forall e, exists bytes, event_to_vec e = Ok bytes).

Local Abbreviation run_on := (run_on ws id patch ps M).
Local Abbreviation crash_safe := (crash_safe ws id patch ps M).
Local Abbreviation restored := (restored ws).
Local Abbreviation targets_in := (targets_in ws ps).
Local Abbreviation lock_loc := (lock_loc ws).
Local Abbreviation outside_same := (outside_same ws ps).

(** What Git reports when the targets are restored and nothing else changed
    outside [.opticcode]: the changes of before the transaction. *)
Definition git_unchanged (w : world) : Prop :=
  match m_git_before M with
  | None => True
  | Some before =>
      forall w', same_host w w' -> outside_same (w_fs w) (w_fs w') -> Forall (restored (w_fs w')) ps ->
      exists after, reads (capture_git_state (render ws)) w' (Ok after) /\
        effective_git_changes before = effective_git_changes after
  end.

(** A process that may start: its path leads to the workspace, the lock is
    free, none of its staging names is taken, and the clock is in range. *)
Record ready (w : world) (path : string) : Prop := {
  rd_path : canonicalize w path = Ok (render ws);
  rd_lock : render lock_loc ∉ w_locks w;
  rd_staging : no_staging (w_pid w) (w_fs w);
  rd_clock : w_clock w / 1000000 <= u64_max;
  rd_git : git_unchanged w;
}.

Lemma git_agrees_when w w' :
  git_unchanged w -> same_host w w' -> outside_same (w_fs w) (w_fs w') -> Forall (restored (w_fs w')) ps -> git_agrees M w'.
Proof.
  unfold git_unchanged, git_agrees, verify_git_restored. rewrite (st_workspace _ _ _ _ _ Hset).
  destruct (m_git_before M) as [before|]; intros Hg Hh Ho Hr.
  - destruct (Hg w' Hh Ho Hr) as (after & Hread & E). exists (Some true), (Some after).
    split; [|done]. eapply reads_try; [exact Hread|]. rewrite bool_decide_true by done. apply reads_ret.
  - exists None, None. split; [apply reads_ret|done].
Qed.

(** ** A transaction that is rolled back already *)

Lemma restored_verified k qs w :
  Forall plan_ok qs -> Forall (fun p => real_dir (w_fs w) (ws ++ pl_dir p)) qs -> Forall (restored (w_fs w)) qs ->
  reads (verify_manifest_files_restored (render ws) (files_from k qs)) w (Ok true).
Proof.
  intros Hok. revert k. induction Hok as [|p qs Hp Hok IH]; intros k Hd Hr; [apply reads_ret|].
  inversion Hd as [|? ? Hdir Hd']; inversion Hr as [|? ? Hres Hr']; subst. cbn [files_from verify_manifest_files_restored].
  assert (pl_path p = (pl_dir p ++ [pl_name p])%list) as Hpath by done.
  pose proof (mg_valid _ (po_manageable p Hp)) as Hv. rewrite Hpath in Hv. apply Forall_app in Hv as [_ Hvn]. apply Forall_inv in Hvn.
  assert (file_or_missing (w_fs w) (target ws p) /\ content_at (w_fs w) (target ws p) = content_before p) as [Hf Hc].
  { unfold RunStore.restored, file_or_missing, content_at, content_before in *. destruct (pl_before p) as [[c m]|].
    - destruct Hres as (a & -> & _). split; [right; by eexists _, _|done].
    - rewrite Hres. split; [by left|done]. }
  cbn [file_of file_path before_hash file_existed_before file_readonly file_unix_mode].
  rewrite manageable_path by apply Hp. eapply reads_try; [apply reads_ret|].
  eapply reads_try; [intros I Q HI HQ; rewrite Hpath; apply read_target_wp; [done|apply Hp|exact Hf|exact HI|exact HQ]|].
  rewrite <- Hpath. change (ws ++ pl_path p) with (target ws p). rewrite Hc.
  change (option_map fingerprint_bytes (content_before p)) with (fingerprint_of (content_before p)).
  rewrite bool_decide_true by done. cbn [negb]. cbn iota.
  unfold RunStore.restored in Hres. destruct (pl_before p) as [[c m]|]; cbn [is_some]; [|by apply IH].
  destruct Hres as (a & Ha & Hm). rewrite join_render_rel; [|by eapply real_valid, real_dir_prefix|apply Hp..].
  eapply reads_try with (a := Metadata RegularFile (strlen c) a).
  { apply reads_map_err. intros I Q HI HQ. unfold target in Ha. rewrite Hpath, app_assoc in Ha.
    eapply wp_call; [|exact HI|exact HQ]. cbn [exec]. rewrite Hpath, app_assoc. by rewrite (exec_metadata_file _ _ _ Hdir Hvn _ _ _ Ha). }
  cbn [option_map snd permissions_mode unix_mode md_attributes]. unfold unix_mode, permissions_mode. cbn [md_attributes].
  rewrite Hm, !bool_decide_true by done. cbn [negb orb]. by apply IH.
Qed.

(** ** Rollback under the lock *)

(** What rollback and recovery achieve. *)
Definition rolled_back_to (w w' : world) (r : ApplyTransactionResult) : Prop :=
  rolled_back r = true /\ operation_success r = true /\ r_errors r = [] /\
  same_host w w' /\ w_locks w' = w_locks w /\
  (exists evs, run_on (w_fs w') evs RolledBack) /\ Forall (restored (w_fs w')) ps /\ outside_same (w_fs w) (w_fs w').

(** What happens between taking the lock and dropping it, once the run
    directory has been inspected. *)
Lemma rollback_frame (w : world) (path reason : string) (evs : list ApplyTransactionEvent) (s : ApplyTransactionState) (Q : fsys -> res ApplyTransactionResult -> Prop) :
  run_on (w_fs w) evs s -> targets_in s (w_fs w) -> ready w path ->
  (forall w1, same_host w w1 -> at_work ws id patch ps M (w_pid w) (w_fs w) w1 evs s ->
     (forall l, l <> lock_loc -> w_fs w1 !! l = w_fs w !! l) ->
     wp (safe_world ws id patch ps M (w_pid w) (w_fs w))
       (rollback_inspected NoFaultInjector (render ws) id reason (inspection_of id M evs s)) w1
       (fun w' r => same_but_tree w1 w' /\ safe_world ws id patch ps M (w_pid w) (w_fs w) w' /\ Q (w_fs w') r)) ->
  wp (safe_world ws id patch ps M (w_pid w) (w_fs w))
    (rollback_apply_transaction_with_faults NoFaultInjector path id reason) w
    (fun w' r => same_but_tree w w' /\ Q (w_fs w') r).
Proof.
  intros Hr Ht Hready Hbody.
  assert (at_work ws id patch ps M (w_pid w) (w_fs w) w evs s) as Hw.
  { split; try done; [apply Hready|intros ? _; done|apply Hready]. }
  pose proof (at_work_safe _ _ _ _ _ _ _ _ _ _ Hw) as HJ.
  unfold rollback_apply_transaction_with_faults. rewrite (st_id _ _ _ _ _ Hset).
  cbn [lift try_bind bind]. eapply wp_call; [cbn [exec]; by rewrite (rd_path _ _ Hready)|exact HJ|]. cbv beta iota.
  apply wp_try. eapply acquire_wp; [done|exact Hw|apply Hready|].
  intros w1 Hh1 Hl1 Hw1 Hsame1. cbv beta iota. unfold with_lock.
  eapply wp_bind.
  { eapply wp_reads_try; [apply (inspect_transaction_reads ws id patch ps M Hset w1 evs s), Hw1|exact (at_work_safe _ _ _ _ _ _ _ _ _ _ Hw1)|].
    by apply Hbody. }
  intros w' r ([Hh' Hl'] & HJ' & HQ). eapply wp_sys; [reflexivity|exact HJ'|]. cbn [wp]. split; [|exact HQ].
  split; [by etransitivity|]. cbn [unlock w_locks set_locks]. rewrite Hl', Hl1. pose proof (rd_lock _ _ Hready). set_solver.
Qed.

Lemma rollback_wp w path reason evs s :
  run_on (w_fs w) evs s -> targets_in s (w_fs w) -> ready w path ->
  (s = Committed -> str_contains "recovery" reason = false) ->
  wp (safe_world ws id patch ps M (w_pid w) (w_fs w))
    (rollback_apply_transaction_with_faults NoFaultInjector path id reason) w
    (fun w' r => exists result, r = Ok result /\ rolled_back_to w w' result).
Proof.
  intros Hr Ht Hready Hreason. set (I := safe_world _ _ _ _ _ _ _).
  eapply wp_mono with (I := I) (P := fun w' r => same_but_tree w w' /\ exists result, r = Ok result /\ rolled_back result = true /\
    operation_success result = true /\ r_errors result = [] /\ (exists evs', run_on (w_fs w') evs' RolledBack) /\
    Forall (restored (w_fs w')) ps /\ outside_same (w_fs w) (w_fs w')); [|done|].
  2:{ intros w' r ([Hh Hl] & result & -> & R1 & R2 & R3 & R4 & R5 & R6). exists result. split; [done|].
      exact (conj R1 (conj R2 (conj R3 (conj Hh (conj Hl (conj R4 (conj R5 R6))))))). }
  apply (rollback_frame w path reason evs s (fun fs' r => exists result, r = Ok result /\ rolled_back result = true /\
    operation_success result = true /\ r_errors result = [] /\ (exists evs', run_on fs' evs' RolledBack) /\
    Forall (restored fs') ps /\ outside_same (w_fs w) fs')); [done..|].
  intros w1 Hh1 Hw1 Hsame1.
  pose proof (at_work_safe _ _ _ _ _ _ _ _ _ _ Hw1) as HJ1. pose proof (aw_run _ _ _ _ _ _ _ _ _ _ Hw1) as Hr1.
  assert (outside_same (w_fs w) (w_fs w1)) as Ho1 by (intros l _ Hk; apply Hsame1; intros ->; by apply (Hk [WORKSPACE_LOCK_FILE])).
  assert (forall w', same_but_tree w1 w' -> outside_same (w_fs w1) (w_fs w') -> Forall (restored (w_fs w')) ps -> git_agrees M w') as Hgit.
  { intros w' [Hh' _] Ho' Hres'. eapply (git_agrees_when w); [apply Hready|by etransitivity|by etransitivity|done]. }
  unfold rollback_inspected. cbn [inspection_of i_legacy i_valid negb i_manifest i_final_state i_events].
  cbn iota zeta. case_bool_decide as Erolled.
  - subst s. unfold already_rolled_back.
    assert (Forall (restored (w_fs w1)) ps) as Hres1 by apply (aw_targets _ _ _ _ _ _ _ _ _ _ Hw1).
    eapply wp_reads_try; [|exact HJ1|].
    { rewrite (st_files _ _ _ _ _ Hset). apply restored_verified; [apply Hset|apply Hr1|done]. }
    cbn [negb]. cbn iota. destruct (Hgit w1) as (git & snapshot & Hread & Hok & Hsnap); [done|done|done|].
    eapply wp_reads_try; [exact Hread|exact HJ1|]. cbv beta iota. rewrite bool_decide_false by done. cbn [wp].
    split; [done|]. split; [exact HJ1|]. eexists. split; [done|]. split; [reflexivity|]. split; [done|]. split; [done|].
    split; [by exists evs|done].
  - assert (bool_decide (s = Committed) && str_contains "recovery" reason = false) as ->.
    { case_bool_decide; [|done]. by apply Hreason. }
    eapply wp_sys; [reflexivity|exact HJ1|]. cbv beta.
    assert ((u32_max <? N.of_nat (List.length evs)) = false) as ->.
    { apply N.ltb_ge. pose proof (pending_room _ _ _ _ _ _ _ _ Hr1). unfold max_events, u32_max in *. lia. }
    rewrite (transaction_run_dir_loc ws id patch ps M Hset), (join_run ws id patch ps M Hset) by done.
    change {| j_transaction_id := id; j_events_dir := render (run_loc ws id ++ [EVENTS_DIR]); j_started_at := w_instant w1;
      j_current_state := Some s; j_next_sequence := N.of_nat (List.length evs) |} with (journal_at ws id evs s (w_instant w1)).
    eapply wp_bind; [eapply (rollback_manifest_wp ws id patch ps M Hset Hencode (w_pid w) (w_fs w) NoFaultInjector w1 evs s (w_instant w1) [] reason true _
      (fun w' r => exists result evs', snd r = Ok result /\ rolled_back_result ps true [] reason result /\ same_but_tree w1 w' /\
         at_work ws id patch ps M (w_pid w) (w_fs w) w' evs' RolledBack /\ outside_same (w_fs w1) (w_fs w')))|].
    + reflexivity.
    + reflexivity.
    + exact Hw1.
    + done.
    + eapply started_says; [exact Hset|constructor|]. by intros x ?%elem_of_nil.
    + exact Hgit.
    + intros w' evs' j r Hsame' Hw' Ho' Hres'. by exists r, evs'.
    + intros w' [j r] (result & evs' & E & Hres & Hsame' & Hw' & Ho'). cbn [snd] in E. subst r. cbv beta iota. cbn [wp].
      split; [done|]. split; [exact (at_work_safe _ _ _ _ _ _ _ _ _ _ Hw')|].
      exists result. destruct Hres as [R1 R2 R3 _ _]. split; [done|]. split; [done|]. split; [done|]. split; [done|].
      split; [exists evs'; apply Hw'|]. split; [apply (aw_targets _ _ _ _ _ _ _ _ _ _ Hw')|by etransitivity].
Qed.

(** ** The theorems *)

(** C18: recovery succeeds from every crash-safe tree whose journal does not
    end with a commit: it terminates with the result of a rollback without
    errors, every target has its content and mode of before the transaction,
    the journal ends with [rolled_back], the lock is free again, and nothing
    else changed outside [.opticcode]. *)
Theorem recovery_restores w path evs s :
  run_on (w_fs w) evs s -> targets_in s (w_fs w) -> s <> Committed -> ready w path ->
  exists w' result, run (recover_apply_transaction path id) w = (w', Done (Ok result)) /\ rolled_back_to w w' result.
Proof.
  intros Hr Ht Hs Hready.
  destruct (wp_run _ _ _ _ (rollback_wp w path "recovery rollback requested" evs s Hr Ht Hready (fun E => match Hs E with end)))
    as (w' & r & Hrun & result & -> & Hrb). by exists w', result.
Qed.

(** Explicit rollback succeeds from every crash-safe tree, that of a
    committed transaction included, and repeating it succeeds again. *)
Theorem rollback_restores w path evs s :
  run_on (w_fs w) evs s -> targets_in s (w_fs w) -> ready w path ->
  exists w' result, run (rollback_apply_transaction path id) w = (w', Done (Ok result)) /\ rolled_back_to w w' result /\
    (ready w' path -> exists w2 result2, run (rollback_apply_transaction path id) w' = (w2, Done (Ok result2)) /\
       rolled_back_to w' w2 result2).
Proof.
  intros Hr Ht Hready.
  destruct (wp_run _ _ _ _ (rollback_wp w path "explicit rollback requested" evs s Hr Ht Hready (fun _ => eq_refl)))
    as (w' & r & Hrun & result & -> & Hrb). exists w', result. split; [done|]. split; [done|]. intros Hready'.
  destruct Hrb as (_ & _ & _ & _ & _ & (evs' & Hr') & Hres & _).
  destruct (wp_run _ _ _ _ (rollback_wp w' path "explicit rollback requested" evs' RolledBack Hr' Hres Hready' (fun _ => eq_refl)))
    as (w2 & r2 & Hrun2 & result2 & -> & Hrb2). by exists w2, result2.
Qed.

(** At every moment of a rollback or recovery the tree is crash safe, and
    it holds staging files of no other process than before; so when the
    process dies at any of its calls, another process with a fresh identifier
    rolls the transaction back from the tree it left. *)
Theorem crash_then_rollback w path reason evs s w1 w2 path2 :
  run_on (w_fs w) evs s -> targets_in s (w_fs w) -> ready w path ->
  (s = Committed -> str_contains "recovery" reason = false) ->
  visits (rollback_apply_transaction_with_faults NoFaultInjector path id reason) w w1 ->
  crash_safe (w_fs w1) /\
  (w_fs w2 = w_fs w1 -> w_pid w2 <> w_pid w -> no_staging (w_pid w2) (w_fs w) ->
   canonicalize w2 path2 = Ok (render ws) -> w_locks w2 = ∅ -> w_clock w2 / 1000000 <= u64_max -> git_unchanged w2 ->
   exists w' result, run (rollback_apply_transaction path2 id) w2 = (w', Done (Ok result)) /\ rolled_back_to w2 w' result).
Proof.
  intros Hr Ht Hready Hreason Hv.
  assert (safe_world ws id patch ps M (w_pid w) (w_fs w) w1) as [Hcrash Hfresh].
  { eapply always_visits; [|eapply wp_always, (rollback_wp w path reason evs s); done|exact Hv].
    split; [by exists evs, s|]. by intros other _. }
  split; [done|]. intros Hfs Hpid Hst Hpath Hlocks Hclock Hgit. destruct Hcrash as (evs1 & s1 & Hr1 & Ht1).
  rewrite <- Hfs in Hr1, Ht1, Hfresh.
  assert (ready w2 path2) as Hready2 by (split; [done|by rewrite Hlocks; apply not_elem_of_empty|by apply Hfresh|done|done]).
  destruct (wp_run _ _ _ _ (rollback_wp w2 path2 "explicit rollback requested" evs1 s1 Hr1 Ht1 Hready2 (fun _ => eq_refl)))
    as (w' & r & Hrun & result & -> & Hrb). by exists w', result.
Qed.

(** Recovery refuses a committed transaction, which only an explicit
    rollback undoes: the targets, the journal and every other file but the
    lock file are as before. *)
Theorem recovery_keeps_committed w path evs :
  run_on (w_fs w) evs Committed -> targets_in Committed (w_fs w) -> ready w path ->
  exists w', run (recover_apply_transaction path id) w =
      (w', Done (reject Precondition "committed transaction is not incomplete; use explicit apply --undo")) /\
    same_but_tree w w' /\ forall l, l <> lock_loc -> w_fs w' !! l = w_fs w !! l.
Proof.
  intros Hr Ht Hready.
  destruct (wp_run _ _ _ _ (rollback_frame w path "recovery rollback requested" evs Committed (fun fs' r =>
    r = reject Precondition "committed transaction is not incomplete; use explicit apply --undo" /\
    forall l, l <> lock_loc -> fs' !! l = w_fs w !! l) Hr Ht Hready (fun w1 Hh Hw1 Hsame =>
      conj (reflexivity w1 : same_but_tree w1 w1) (conj (at_work_safe _ _ _ _ _ _ _ _ _ _ Hw1) (conj eq_refl Hsame)))))
    as (w' & r & Hrun & Hs & -> & Hsame).
  by exists w'.
Qed.
End CrashRecovery.
