(* ===== verification/Execution.v ===== *)
(** * Apply transactions on a file system: execution

    A prepared transaction runs to a commit, with every target in its new
    state, or is rolled back, with every target in its old one; at every
    moment in between the tree is crash safe. *)

From stdpp Require Import base list strings gmap.
From Stdlib Require Import NArith Ascii String Lia.
From S2P Require Import Prelude Bytes UnixPath IO World WorldFacts Anyhow Paths GitState Transaction TransactionFs TransactionRun TransactionFacts TransactionWorld RunStore Recovery CrashRecovery.

Local Open Scope string_scope.
Local Open Scope N_scope.
Local Open Scope list_scope.

(** ** Quiet programs *)

(** A program of quiet calls that does not panic has an answer. *)
Lemma still_reads {A} (m : IO A) w : still m -> no_panic m -> exists a, reads m w a.
Proof.
  intros Hs Hn. destruct (no_panic_run m w Hn) as [a Ha]. exists a. intros I Q HI HQ. by eapply wp_still.
Qed.

Lemma chmod_regular mode a : regular_mode (at_mode a) -> regular_mode (at_mode (chmod mode a)).
Proof.
  unfold regular_mode, chmod. cbn [at_mode]. intros <-. apply N.bits_inj. intros n.
  rewrite !N.ldiff_spec, N.lor_spec, N.ldiff_spec, N.land_spec. by destruct (N.testbit (at_mode a) n), (N.testbit mode n), (N.testbit 4095 n).
Qed.

(** ** Phases *)

Lemma wp_phase {A B} I (m : phase A) (f : A -> phase B) s w Q :
  wp I (m s) w (fun w' r => match r.2 with Ok a => wp I (f a r.1) w' Q | Err e => Q w' (r.1, Err e) end) ->
  wp I (phase_bind m f s) w Q.
Proof. intros Hm. unfold phase_bind. eapply wp_bind; [exact Hm|]. by intros w' [s' [a|e]]. Qed.

Section Execution.
Context `{Blake3, TransactionSerde, !TransactionRoundTrip}.
Context (ws : loc) (id patch : string) (ps : list planned) (M : ApplyTransactionManifest).
Context (Hset : setting ws id patch ps M).
Context (Hencode : forall e, exists bytes, event_to_vec e = Ok bytes).
Context (pid : N) (fs0 : fsys) (faults : ApplyFaultInjector) (started : N).

Local Abbreviation at_work := (at_work ws id patch ps M pid fs0).
Local Abbreviation safe_world := (safe_world ws id patch ps M pid fs0).
Local Abbreviation target := (target ws).
Local Abbreviation holds := (holds ws).
Local Abbreviation restored := (restored ws).
Local Abbreviation applied := (applied ws).
Local Abbreviation run_loc := (run_loc ws id).
Local Abbreviation journal_at := (journal_at ws id).
Local Abbreviation outside_same := (outside_same ws ps).
Local Abbreviation at_work_safe := (at_work_safe ws id patch ps M pid fs0).
Local Abbreviation plan_of := (plan_of ws id patch ps M Hset).

Definition mutation_of (p : planned) : FileMutation := {|
  mutation_path := rel (pl_path p); expected_before := content_before p; desired_after := pl_after p |}.

Lemma restored_content fs p : restored fs p -> content_at fs (target p) = content_before p /\ file_or_missing fs (target p).
Proof.
  unfold RunStore.restored, content_at, content_before, file_or_missing. destruct (pl_before p) as [[c m]|].
  - intros (a & -> & _). split; [done|right; by eexists _, _].
  - intros ->. split; [done|by left].
Qed.

(** ** Applying one mutation *)

Section One.
Context (w : world) (evs : list ApplyTransactionEvent) (i : nat) (p : planned).
Context (Hw : at_work w evs Applying) (Hi : ps !! i = Some p) (Hbefore : restored (w_fs w) p).
Context (Q : world -> res unit -> Prop).
Context (HQ : forall w', same_but_tree w w' -> at_work w' evs Applying -> alters (target p) (w_fs w) (w_fs w') ->
  applied (w_fs w') p -> Q w' (Ok tt)).
Context (HE : forall w' e, same_but_tree w w' -> at_work w' evs Applying -> w_fs w' = w_fs w ->
  (exists f, faults AfterTargetStaged = Err f) -> Q w' (Err e)).

Lemma one_planned : p ∈ ps /\ plan_ok p /\ real_dir (w_fs w) (ws ++ pl_dir p).
Proof.
  assert (p ∈ ps) as Hp by (by eapply list_elem_of_lookup_2). split; [done|]. split; [by apply plan_of|].
  by apply (proj1 (Forall_forall _ _) (ro_targets _ _ _ _ _ _ _ _ (aw_run _ _ _ _ _ _ _ _ _ _ Hw)) p).
Qed.

Lemma change_target w' :
  same_but_tree w w' -> alters (target p) (w_fs w) (w_fs w') -> applied (w_fs w') p -> at_work w' evs Applying.
Proof.
  intros Hsame Ha [_ Hh]. eapply (target_step ws id patch ps M Hset pid fs0 w w'); [exact Hw|done|apply one_planned|done..].
Qed.

Lemma not_dir : ~ is_dir_at (w_fs w) (target p).
Proof. apply target_not_dir, restored_content, Hbefore. Qed.

Lemma written_applied fs bytes a :
  pl_after p = Some bytes -> fs !! target p = Some (File bytes a) -> regular_mode (at_mode a) -> applied fs p.
Proof.
  intros Hafter Hf Hreg. unfold RunStore.applied, RunStore.holds, content_at. rewrite Hf. split; [done|]. split; [by right|done].
Qed.

(** The written file gets the recorded mode and is read back. *)
Lemma after_write_wp w1 bytes :
  pl_after p = Some bytes -> same_but_tree w w1 -> w_fs w1 = <[target p := File bytes (fresh_file w)]> (w_fs w) ->
  at_work w1 evs Applying ->
  wp safe_world
    (restore_permissions (render ws) (rel (pl_path p)) (file_of i p) ;;?
     actual <-? read_validated_target (render ws) (rel (pl_path p)) ;;
     if bool_decide (actual = Some bytes) then Ret (Ok tt)
     else Ret (reject Io ("target verification failed after write: " ++ display (join (render ws) (rel (pl_path p))))%string)) w1 Q.
Proof.
  intros Hafter Hsame1 Hfs1 Hw1. destruct one_planned as (Hp & Hpok & Hdir).
  assert (pl_path p = (pl_dir p ++ [pl_name p])%list) as Hpath by done.
  assert (w_fs w1 !! target p = Some (File bytes (fresh_file w))) as Hf1 by (rewrite Hfs1; apply lookup_insert_eq).
  assert (alters (target p) (w_fs w) (w_fs w1)) as Ha1 by (rewrite Hfs1; apply alters_insert, not_dir).
  assert (forall w2 a, same_but_tree w w2 -> at_work w2 evs Applying -> alters (target p) (w_fs w) (w_fs w2) ->
    w_fs w2 !! target p = Some (File bytes a) -> regular_mode (at_mode a) ->
    wp safe_world (actual <-? read_validated_target (render ws) (rel (pl_path p)) ;;
     if bool_decide (actual = Some bytes) then Ret (Ok tt)
     else Ret (reject Io ("target verification failed after write: " ++ display (join (render ws) (rel (pl_path p))))%string)) w2 Q) as Hread.
  { intros w2 a Hsame2 Hw2 Ha2 Hf2 Hreg. apply wp_try. rewrite Hpath.
    apply read_target_wp; [by eapply real_dir_alters|apply Hpok|right; by eexists _, _|by eapply at_work_safe|].
    change (ws ++ pl_dir p ++ [pl_name p])%list with (target p). cbv beta iota.
    unfold content_at. rewrite Hf2, bool_decide_true by done. apply HQ; [done|done|done|by eapply written_applied]. }
  apply wp_try. rewrite Hpath.
  apply (restore_permissions_wp (safe ws id patch ps M pid fs0) w1 ws (pl_dir p) (pl_name p)
    ltac:(by eapply real_dir_alters) (po_manageable p Hpok) bytes (fresh_file w) (file_of i p)); [exact Hf1|by eapply at_work_safe| |].
  - intros _. rewrite <- Hpath. by apply (Hread w1 (fresh_file w)).
  - intros readonly _ a'. assert (regular_mode (at_mode a')) as Hreg' by (by apply chmod_regular).
    assert (forall w2, same_but_tree w w2 -> w_fs w2 = <[target p := File bytes a']> (w_fs w1) ->
      at_work w2 evs Applying /\ alters (target p) (w_fs w) (w_fs w2) /\ w_fs w2 !! target p = Some (File bytes a')) as Hend.
    { intros w2 Hsame2 E. assert (w_fs w2 !! target p = Some (File bytes a')) as Hf2 by (rewrite E; apply lookup_insert_eq).
      assert (alters (target p) (w_fs w) (w_fs w2)) as Ha2.
      { split; [apply not_dir|]. intros l Hl. rewrite E, lookup_insert_ne by done. by apply Ha1. }
      split; [|done]. apply change_target; [done|done|by eapply written_applied]. }
    split.
    + destruct (Hend (set_fs (<[target p := File bytes a']> (w_fs w1)) w)) as (Hw2 & _); [by split|done|].
      exact (at_work_safe _ _ _ Hw2).
    + intros w2 [Hsame2 Hfs2]. destruct (Hend w2) as (Hw2 & Ha2 & Hf2); [by etransitivity|exact Hfs2|].
      rewrite <- Hpath. by apply (Hread w2 a'); [etransitivity|..].
Qed.

Lemma apply_mutation_wp : wp safe_world (apply_mutation (render ws) (mutation_of p) (file_of i p) faults) w Q.
Proof.
  destruct one_planned as (Hp & Hpok & Hdir). destruct (restored_content _ _ Hbefore) as [Hc Hf].
  assert (pl_path p = (pl_dir p ++ [pl_name p])%list) as Hpath by done.
  assert (real_dir (w_fs w) ws) as Hws by (by eapply real_dir_prefix).
  pose proof (at_work_safe _ _ _ Hw) as HJ.
  assert (forall k, wp safe_world (k (Ok (content_before p))) w Q ->
    wp safe_world (bind (read_validated_target (render ws) (rel (pl_path p))) k) w Q) as Hread.
  { intros k Hk. eapply wp_bind; [rewrite Hpath; apply (read_target_wp safe_world w ws (pl_dir p) (pl_name p)
      (fun w' r => w' = w /\ r = Ok (content_before p))); [done|apply Hpok|exact Hf|exact HJ|split; [done|by f_equal]]|].
    by intros ? ? [-> ->]. }
  unfold apply_mutation. cbn [mutation_of mutation_path expected_before desired_after].
  unfold try_bind at 1. apply Hread. rewrite bool_decide_true by done. cbn [negb]. cbn iota.
  destruct (pl_after p) as [bytes|] eqn:Eafter.
  - apply wp_try, wp_map_err. rewrite <- Hc. rewrite Hpath.
    assert (forall fs', fs' = <[target p := File bytes (fresh_file w)]> (w_fs w) -> alters (target p) (w_fs w) fs' /\ applied fs' p) as Hchange.
    { intros fs' ->. split; [apply alters_insert, not_dir|]. eapply written_applied; [done|apply lookup_insert_eq|done]. }
    apply (atomic_replace_wp pid _ (safe_staging ws id patch ps M Hset pid fs0) w ws (pl_dir p) (pl_name p) bytes (Some faults)).
    + apply Hw.
    + done.
    + apply Hpok.
    + apply Hpok.
    + exact Hf.
    + rewrite (aw_pid _ _ _ _ _ _ _ _ _ _ Hw). apply Hw.
    + exact HJ.
    + destruct (Hchange _ eq_refl) as [Ha Hd]. refine (at_work_safe (set_fs _ w) evs Applying _). by apply change_target.
    + intros w1 [Hsame1 Hfs1]. cbn [map_err]. destruct (Hchange _ Hfs1) as [Ha1 Hd1]. rewrite <- Hpath.
      apply (after_write_wp w1 bytes); [done|done|done|by apply change_target].
    + intros w' f e [= <-] Hfault [Hsame' Hfs']. cbn [map_err]. apply HE; [done| |done|by exists e].
      destruct Hw as [? Hr Ht Hst Hfr Hcl]. destruct (host_clock _ _ (proj1 Hsame')) as [Hck Hpd].
      by split; rewrite ?Hfs', ?Hck, ?Hpd.
  - unfold try_bind at 1. apply Hread. rewrite bool_decide_true by done. cbn [negb]. cbn iota.
    pose proof (po_distinct p Hpok) as Hdist. rewrite Eafter in Hdist.
    destruct (w_fs w !! target p) as [n|] eqn:Ef.
    2:{ exfalso. apply Hdist. unfold content_at in Hc. rewrite Ef in Hc. by rewrite <- Hc. }
    destruct Hf as [Hf|(c & a & Hf)]; [congruence|]. rewrite Hf in Ef. injection Ef as <-.
    pose proof (mg_valid _ (po_manageable p Hpok)) as Hv. rewrite Hpath in Hv. apply Forall_app in Hv as [Hvd Hvn]. apply Forall_inv in Hvn.
    rewrite Hpath, join_render_rel by (apply Hpok || auto). change (ws ++ pl_dir p ++ [pl_name p])%list with (target p).
    assert (target p = ((ws ++ pl_dir p) ++ [pl_name p])%list) as Htarget by (unfold RunStore.target; by rewrite Hpath, app_assoc).
    set (w1 := set_fs (delete (target p) (w_fs w)) w).
    assert (alters (target p) (w_fs w) (w_fs w1)) as Ha by (apply alters_delete, not_dir).
    assert (w_fs w1 !! target p = None) as Hnone by apply lookup_delete_eq.
    assert (applied (w_fs w1) p) as Hd1.
    { unfold RunStore.applied, RunStore.holds, content_at. rewrite Hnone, Eafter. split; [done|by right]. }
    assert (at_work w1 evs Applying) as Hw1 by (by apply change_target).
    eapply wp_call; [by apply (exec_remove_target w ws (pl_dir p) (pl_name p) Hdir (po_manageable p Hpok) c a)|by eapply at_work_safe|].
    cbn [map_err bind]. fold w1. rewrite Htarget at 1. apply wp_try, sync_parent_wp; [by eapply real_dir_alters|done|by eapply at_work_safe|].
    cbv beta iota. apply wp_try, read_target_wp; [by eapply real_dir_alters|apply Hpok|by left|by eapply at_work_safe|].
    change (ws ++ pl_dir p ++ [pl_name p])%list with (target p). cbv beta iota. fold w1. unfold content_at. rewrite Hnone. cbn [is_some]. by apply HQ.
Qed.
End One.

(** ** Git at the end *)

Lemma reads_unique {A} (m : IO A) w a b : reads m w a -> reads m w b -> a = b.
Proof.
  intros Ha Hb. pose proof (Ha (fun _ => True) (fun _ x => x = a) Logic.I eq_refl) as Hwa.
  destruct (wp_run _ _ _ _ Hwa) as (w1 & a1 & E1 & ->).
  pose proof (Hb (fun _ => True) (fun _ x => x = b) Logic.I eq_refl) as Hwb.
  destruct (wp_run _ _ _ _ Hwb) as (w2 & b1 & E2 & ->). congruence.
Qed.

Lemma fingerprint_changes_quiet root changes files bytes :
  still (fingerprint_changes root changes files bytes) /\ no_panic (fingerprint_changes root changes files bytes).
Proof.
  revert files bytes. induction changes as [|c changes IH]; intros files bytes; [done|]. cbn [fingerprint_changes].
  assert (still (fingerprint_worktree_path root (change_path c)) /\ no_panic (fingerprint_worktree_path root (change_path c))) as [Hs Hn].
  { unfold fingerprint_worktree_path. split; cbn; [split; [done|]|]; intros [h|e]; cbn; try done; [split; [done|]|]; by intros []. }
  split.
  - apply calls_bind; [exact Hs|]. intros fp. apply calls_bind; [destruct fp as [[v n]|]; apply IH|]. by intros [[l f] b].
  - apply no_panic_bind; [exact Hn|]. intros fp. apply no_panic_bind; [destruct fp as [[v n]|]; apply IH|]. by intros [[l f] b].
Qed.

Lemma io_context_quiet {A : Set} message (c : syscall (result A io_error)) :
  quiet c = true -> still (io_context message c) /\ no_panic (io_context message c).
Proof. intros Hc. split; [by split|]. cbn. done. Qed.

Lemma capture_quiet path : still (capture_git_state path) /\ no_panic (capture_git_state path).
Proof.
  assert (forall root, still (run_git_status root) /\ no_panic (run_git_status root)) as Hstatus.
  { intros root. unfold run_git_status. split; [apply calls_try|apply no_panic_try]; try (by apply io_context_quiet);
      intros o; by destruct (out_success o). }
  assert (still (discover_git_root path) /\ no_panic (discover_git_root path)) as [Hs Hn].
  { unfold discover_git_root. split; [apply calls_try|apply no_panic_try]; try (by apply io_context_quiet); intros o;
      destruct (out_success o); cbn [negb]; cbn iota; try done; [apply calls_try|apply no_panic_try]; try done;
      intros out; cbv zeta; destruct (is_empty _); try done; by apply io_context_quiet. }
  unfold capture_git_state. split.
  - apply calls_bind; [done|]. intros t. apply calls_try; [done|]. intros root. apply calls_try; [apply Hstatus|]. intros out.
    apply calls_try; [done|]. intros changes. apply calls_bind; [apply fingerprint_changes_quiet|]. by intros [[l f] b].
  - apply no_panic_bind; [done|]. intros t. apply no_panic_try; [done|]. intros root. apply no_panic_try; [apply Hstatus|]. intros out.
    apply no_panic_try; [done|]. intros changes. apply no_panic_bind; [apply fingerprint_changes_quiet|]. by intros [[l f] b].
Qed.

Lemma capture_answers w :
  exists r, reads (capture_git_for_manifest M) w r /\ (forall git, r = Ok git -> is_some git = is_some (m_git_before M)).
Proof.
  unfold capture_git_for_manifest. destruct (m_git_before M) as [before|].
  - destruct (capture_quiet (m_workspace M)) as [Hs Hn]. destruct (still_reads _ w Hs Hn) as [[snapshot|e] Hr].
    + exists (Ok (Some snapshot)). split; [eapply reads_try; [exact Hr|apply reads_ret]|]. by intros git [= <-].
    + exists (Err e). split; [|done]. unfold try_bind. eapply reads_bind; [exact Hr|apply reads_ret].
  - exists (Ok None). split; [apply reads_ret|]. by intros git [= <-].
Qed.

(** Git lets the transaction commit. *)
Definition git_accepts (w : world) : Prop :=
  exists git, reads (capture_git_for_manifest M) w (Ok git) /\ verify_git_state_for_commit M git = Ok tt.

(** ** The states of an execution *)

Definition planned_names (qs : list planned) : list string := map (fun p => rel (pl_path p)) qs.

(** Why a transaction does not commit. *)
Definition obstacle (w0 : world) : Prop :=
  (exists point e, faults point = Err e) \/
  exists w, same_but_tree w0 w /\ outside_same (w_fs w0) (w_fs w) /\ Forall (applied (w_fs w)) ps /\ ~ git_accepts w.

Record failed (w0 w : world) (s : progress) : Prop := {
  fl_work : exists evs st, at_work w evs st /\ is_terminal st = false /\ s.1 = journal_at evs st started;
  fl_modified : exists k, s.2 = planned_names (take k ps);
  fl_host : same_but_tree w0 w;
  fl_outside : outside_same (w_fs w0) (w_fs w);
  fl_obstacle : obstacle w0;
}.

(** The postcondition of a phase: [good] when it succeeds. *)
Definition phase_post {A} (w0 : world) (good : world -> progress -> A -> Prop) (w : world) (r : progress * res A) : Prop :=
  match r.2 with Ok a => good w r.1 a | Err _ => failed w0 w r.1 end.

Lemma phase_bind_wp {A B} (m : phase A) (f : A -> phase B) s w w0 (good : world -> progress -> A -> Prop) (good' : world -> progress -> B -> Prop) :
  wp safe_world (m s) w (phase_post w0 good) ->
  (forall w' s' a, good w' s' a -> wp safe_world (f a s') w' (phase_post w0 good')) ->
  wp safe_world (phase_bind m f s) w (phase_post w0 good').
Proof.
  intros Hm Hf. apply wp_phase. eapply wp_mono; [exact Hm|done|]. intros w' [s' [a|e]] Hp; unfold phase_post in *; cbn [fst snd] in *; [by apply Hf|done].
Qed.

(** A transaction under way, with [k] targets modified. *)
Record under_way (w0 : world) (k : nat) (st : ApplyTransactionState) (w : world) (s : progress) : Prop := {
  uw_work : exists evs, at_work w evs st /\ s.1 = journal_at evs st started;
  uw_modified : s.2 = planned_names (take k ps);
  uw_applied : Forall (applied (w_fs w)) (take k ps);
  uw_before : Forall (restored (w_fs w)) (drop k ps);
  uw_host : same_but_tree w0 w;
  uw_outside : outside_same (w_fs w0) (w_fs w);
}.

Lemma under_way_failed w0 k st w s : under_way w0 k st w s -> is_terminal st = false -> obstacle w0 -> failed w0 w s.
Proof. intros [(evs & Hw & Hj) Hm _ _ Hh Ho] Hst Hob. split; [by exists evs, st|by exists k|done..]. Qed.

Lemma under_way_safe w0 k st w s : under_way w0 k st w s -> safe_world w.
Proof. intros [(evs & Hw & _) _ _ _ _ _]. by eapply at_work_safe. Qed.

(** A fault that may be injected. *)
Lemma fault_wp w0 k st w s point :
  under_way w0 k st w s -> is_terminal st = false ->
  wp safe_world (phase_ret (faults point) s) w (phase_post w0 (fun w' s' _ => under_way w0 k st w' s')).
Proof.
  intros Hu Hst. cbn [phase_ret wp]. unfold phase_post. cbn [fst snd]. destruct (faults point) as [u|e] eqn:E; [done|].
  eapply under_way_failed; [done..|]. left. by exists point, e.
Qed.

Lemma at_first_wp w0 k st w s index point :
  under_way w0 k st w s -> is_terminal st = false ->
  wp safe_world (at_first faults index point s) w (phase_post w0 (fun w' s' _ => under_way w0 k st w' s')).
Proof. intros Hu Hst. unfold at_first. destruct index; [by apply fault_wp|done]. Qed.

(** ** The phases *)

Lemma applied_same fs fs' p : fs' !! target p = fs !! target p -> applied fs p -> applied fs' p.
Proof. intros E. unfold RunStore.applied, RunStore.holds, content_at. by rewrite E. Qed.
Lemma restored_same fs fs' p : fs' !! target p = fs !! target p -> restored fs p -> restored fs' p.
Proof. intros E. unfold RunStore.restored. by rewrite E. Qed.

Lemma event_targets e fs fs' p : p ∈ ps -> alters (events_loc ws id ++ [event_name e]) fs fs' -> fs' !! target p = fs !! target p.
Proof.
  intros Hp [_ Ha]. apply Ha. intros E. apply (target_not_metadata ws p ["runs"; id; EVENTS_DIR; event_name e] (plan_of p Hp)).
  rewrite E. unfold RunStore.events_loc, RunStore.run_loc. by rewrite <- !app_assoc.
Qed.

Lemma Forall_sub {A} (P Q : A -> Prop) (l : list A) : (forall x, x ∈ l -> P x -> Q x) -> Forall P l -> Forall Q l.
Proof. rewrite !Forall_forall. intros HPQ Hl x Hx. by apply HPQ, Hl. Qed.

Lemma in_take k p : p ∈ take k ps -> p ∈ ps.
Proof. intros Hp. rewrite <- (take_drop k ps). apply elem_of_app. by left. Qed.
Lemma in_drop k p : p ∈ drop k ps -> p ∈ ps.
Proof. intros Hp. rewrite <- (take_drop k ps). apply elem_of_app. by right. Qed.

Lemma phase_transition_wp w0 k st next message (with_files : bool) git w s :
  under_way w0 k st w s -> valid_transition (Some st) next = true -> pending next < pending st ->
  targets_in ws ps next (w_fs w) -> may_say M next (if with_files then planned_names (take k ps) else []) [] git ->
  wp safe_world (phase_transition next message with_files git s) w
    (phase_post w0 (fun w' s' _ => under_way w0 k next w' s')).
Proof.
  intros [(evs & Hw & Hj) Hm Ha Hb Hh Ho] Hvt Hpend Ht Hsay. unfold phase_transition. rewrite Hj.
  assert ((if with_files then s.2 else []) = (if with_files then planned_names (take k ps) else [])) as -> by (by rewrite Hm).
  eapply wp_bind; [apply (transition_wp ws id patch ps M Hset Hencode pid fs0 w evs st next started message _ [] git
    (fun w' r => exists e, r = (journal_at (evs ++ [e]) next started, Ok tt) /\ same_but_tree w w' /\
       at_work w' (evs ++ [e]) next /\ alters (events_loc ws id ++ [event_name e]) (w_fs w) (w_fs w'))); try done|].
  { intros w' e Hsame _ Hw' Halt. by exists e. }
  intros w' r (e & -> & Hsame & Hw' & Halt). cbv beta iota zeta. cbn [wp]. unfold phase_post. cbn [fst snd]. split.
  - by exists (evs ++ [e]).
  - done.
  - eapply Forall_sub; [|exact Ha]. intros p Hp. apply applied_same. by eapply event_targets; [eapply in_take|].
  - eapply Forall_sub; [|exact Hb]. intros p Hp. apply restored_same. by eapply event_targets; [eapply in_drop|].
  - by etransitivity.
  - etransitivity; [exact Ho|]. by eapply event_outside.
Qed.

(** After one more target. *)
Lemma under_way_next w0 k w s p w' evs :
  under_way w0 k Applying w s -> s.1 = journal_at evs Applying started -> ps !! k = Some p -> same_but_tree w w' -> at_work w' evs Applying ->
  alters (target p) (w_fs w) (w_fs w') -> applied (w_fs w') p ->
  under_way w0 (S k) Applying w' (s.1, s.2 ++ [rel (pl_path p)]).
Proof.
  intros [_ Hm Ha Hb Hh Ho] Hj Hk Hsame Hw' Halt Hap.
  assert (p ∈ ps) as Hp by (by eapply list_elem_of_lookup_2).
  assert (forall q j, ps !! j = Some q -> j <> k -> w_fs w' !! target q = w_fs w !! target q) as Hother.
  { intros q j Hq Hne. eapply (same_target_or ws _ _ p); [done|]. intros E. apply Hne.
    apply (NoDup_lookup (pl_path <$> ps) _ _ (pl_path p) (st_distinct _ _ _ _ _ Hset)); rewrite list_lookup_fmap; [rewrite Hq|by rewrite Hk].
    simpl. by rewrite E. }
  split; cbn [fst snd].
  - by exists evs.
  - rewrite Hm. unfold planned_names. rewrite (take_S_r _ _ p) by done. by rewrite map_app.
  - rewrite (take_S_r _ _ p) by done. apply Forall_app. split; [|by apply Forall_singleton].
    eapply Forall_sub; [|exact Ha]. intros q (j & Hj')%list_elem_of_lookup. apply lookup_take_Some in Hj' as [Hq Hlt].
    apply applied_same. eapply Hother; [done|lia].
  - rewrite (drop_S _ p) in Hb by done. apply Forall_cons in Hb as [_ Hb]. eapply Forall_sub; [|exact Hb].
    intros q (j & Hj')%list_elem_of_lookup. rewrite lookup_drop in Hj'. apply restored_same. eapply Hother; [done|lia].
  - by etransitivity.
  - etransitivity; [exact Ho|]. eapply only_targets_outside, alters_only_targets; done.
Qed.

Lemma apply_mutations_wp w0 w s todo k :
  drop k ps = todo -> under_way w0 k Applying w s ->
  wp safe_world (apply_mutations faults (render ws) k (map mutation_of todo) (files_from k todo) s) w
    (phase_post w0 (fun w' s' _ => under_way w0 (List.length ps) Applying w' s')).
Proof.
  revert k w s. induction todo as [|p todo IH]; intros k w s Htodo Hu.
  - cbn. unfold phase_post. cbn [fst snd].
    assert (List.length ps <= k)%nat as Hk.
    { apply (f_equal (@List.length _)) in Htodo. rewrite length_drop in Htodo. simpl in Htodo. lia. }
    destruct Hu as [Hw Hm Ha Hb Hh Ho]. rewrite take_ge in Hm, Ha by lia.
    split; rewrite ?take_ge, ?drop_ge by lia; done.
  - assert (ps !! k = Some p) as Hk.
    { pose proof (lookup_drop ps k 0) as E. rewrite Htodo, Nat.add_0_r in E. by symmetry. }
    cbn [map files_from apply_mutations].
    eapply phase_bind_wp; [by eapply at_first_wp|]. intros w1 s1 [] Hu1.
    pose proof (under_way_safe _ _ _ _ _ Hu1) as HJ1. pose proof Hu1 as [(evs & Hw1 & Hj1) Hm1 Ha1 Hb1 Hh1 Ho1].
    eapply phase_bind_wp with (good := fun w' s' _ => s' = s1 /\ at_work w' evs Applying /\ same_but_tree w1 w' /\
      alters (target p) (w_fs w1) (w_fs w') /\ applied (w_fs w') p).
    { unfold phase_io. eapply wp_bind; [apply (apply_mutation_wp w1 evs k p Hw1 Hk) with (Q := fun w' r =>
        same_but_tree w1 w' /\ at_work w' evs Applying /\
        match r with Ok _ => alters (target p) (w_fs w1) (w_fs w') /\ applied (w_fs w') p
                   | Err _ => w_fs w' = w_fs w1 /\ exists f, faults AfterTargetStaged = Err f end)|].
      - pose proof Hb1 as Hb1'. rewrite (drop_S _ p) in Hb1' by done. by apply Forall_inv in Hb1'.
      - by intros w' Hs' Hw' Halt Hap.
      - by intros w' e Hs' Hw' Hfs Hfault.
      - intros w' [u|e] (Hs' & Hw' & Hrest); cbn [wp]; unfold phase_post; cbn [fst snd].
        + by destruct u, Hrest.
        + destruct Hrest as [Hfs [f Hf]]. split.
          * by exists evs, Applying.
          * by exists k.
          * by etransitivity.
          * by rewrite Hfs.
          * left. by exists AfterTargetStaged, f. }
    intros w2 s2 u (-> & Hw2 & Hs2 & Halt2 & Hap2).
    eapply phase_bind_wp with (good := fun w' s' portable => w' = w2 /\ s' = s1 /\ portable = rel (pl_path p)).
    { cbn [mutation_of mutation_path phase_ret wp]. rewrite manageable_portable by (eapply plan_of, list_elem_of_lookup_2, Hk). done. }
    intros ? ? ? (-> & -> & ->).
    pose proof (under_way_next w0 k w1 s1 p w2 evs Hu1 Hj1 Hk Hs2 Hw2 Halt2 Hap2) as Hu2.
    eapply phase_bind_wp with (good := fun w' s' _ => under_way w0 (S k) Applying w' s'); [exact Hu2|].
    intros w3 s3 [] Hu3. eapply phase_bind_wp; [by eapply at_first_wp|]. intros w4 s4 [] Hu4.
    apply IH; [|exact Hu4]. rewrite (drop_S _ p) in Htodo by done. by injection Htodo.
Qed.

Lemma verify_reads w evs st qs :
  at_work w evs st -> (forall p, p ∈ qs -> p ∈ ps /\ applied (w_fs w) p) ->
  reads (verify_mutations_applied (render ws) (map mutation_of qs)) w (Ok tt).
Proof.
  intros Hw. induction qs as [|p qs IH]; intros Hq; [apply reads_ret|]. cbn [map verify_mutations_applied].
  destruct (Hq p) as [Hp [Hc Hh]]; [by left|]. pose proof (plan_of p Hp) as Hpok.
  assert (real_dir (w_fs w) (ws ++ pl_dir p)) as Hdir
    by (apply (proj1 (Forall_forall _ _) (ro_targets _ _ _ _ _ _ _ _ (aw_run _ _ _ _ _ _ _ _ _ _ Hw)) p Hp)).
  eapply reads_try with (a := pl_after p).
  - intros I Q HI HQ. cbn [mutation_of mutation_path]. unfold pl_path.
    apply read_target_wp; [done|apply Hpok| |done|].
    + unfold RunStore.holds in Hh. unfold file_or_missing. change (ws ++ pl_dir p ++ [pl_name p])%list with (target p).
      destruct (w_fs w !! target p) as [[c a| | |]|]; try done; [right; by eexists _, _|by left].
    + change (ws ++ pl_dir p ++ [pl_name p])%list with (target p). by rewrite Hc.
  - cbn [mutation_of desired_after]. rewrite bool_decide_true by done. apply IH. intros q Hq'. apply Hq. by right.
Qed.

(** ** The whole execution *)

Definition prepared (evs : list ApplyTransactionEvent) : PreparedTransaction := {|
  p_workspace := render ws; p_run_dir := render run_loc; p_manifest := M; p_mutations := map mutation_of ps;
  p_journal := journal_at evs Prepared started; p_started_at := started; p_lock := render (lock_loc ws) |}.

Lemma all_planned : planned_names (take (List.length ps) ps) ≡ₚ map (fun p => rel (pl_path p)) ps.
Proof. by rewrite take_ge by done. Qed.

Lemma under_way_all w0 st w s : under_way w0 (List.length ps) st w s -> Forall (applied (w_fs w)) ps.
Proof. intros Hu. pose proof (uw_applied _ _ _ _ _ Hu) as Ha. by rewrite take_ge in Ha by done. Qed.

Lemma holds_under_way w0 st w s : under_way w0 (List.length ps) st w s -> Forall (holds (w_fs w)) ps.
Proof. intros Hu%under_way_all. eapply Forall_impl; [exact Hu|]. by intros p [_ ?]. Qed.

Lemma restored_all_holds fs : Forall (restored fs) ps -> Forall (holds fs) ps.
Proof. apply Forall_sub. intros p Hp. apply restored_holds. by apply plan_of. Qed.

Lemma verify_wp w0 st w s :
  under_way w0 (List.length ps) st w s -> is_terminal st = false ->
  wp safe_world (phase_io (verify_mutations_applied (render ws) (map mutation_of ps)) s) w
    (phase_post w0 (fun w' s' _ => under_way w0 (List.length ps) st w' s')).
Proof.
  intros Hu Hst. pose proof (under_way_all _ _ _ _ Hu) as Ha. pose proof (uw_work _ _ _ _ _ Hu) as (evs & Hw & _).
  unfold phase_io. eapply wp_reads with (a := Ok tt); [|by eapply under_way_safe|exact Hu].
  eapply verify_reads; [done|]. intros p Hp. split; [done|]. by apply (proj1 (Forall_forall _ _) Ha).
Qed.

(** What Git answers decides the commit. *)
Lemma git_wp w0 w s :
  under_way w0 (List.length ps) Finalizing w s ->
  wp safe_world ((git_after <~ phase_io (capture_git_for_manifest M) ;;
                  phase_ret (verify_git_state_for_commit M git_after) ;;~
                  phase_io (verify_mutations_applied (render ws) (map mutation_of ps)) ;;~
                  phase_transition Committed "transaction committed" true git_after)%phase s) w
    (phase_post w0 (fun w' s' _ => under_way w0 (List.length ps) Committed w' s')).
Proof.
  intros Hu. destruct (capture_answers w) as (r & Hr & Hsome).
  assert (~ git_accepts w -> failed w0 w s) as Hfail.
  { intros Hn. eapply under_way_failed; [done|done|]. right. exists w.
    split; [apply Hu|]. split; [apply Hu|]. split; [by eapply under_way_all|done]. }
  apply wp_phase. unfold phase_io at 1. eapply wp_reads; [exact Hr|by eapply under_way_safe|]. cbn [wp fst snd].
  destruct r as [git|e].
  2:{ unfold phase_post. cbn [fst snd]. apply Hfail. intros (git & Hg & _). by pose proof (reads_unique _ _ _ _ Hr Hg). }
  apply wp_phase. cbn [phase_ret wp fst snd]. destruct (verify_git_state_for_commit M git) as [[]|e] eqn:Ev.
  2:{ unfold phase_post. cbn [fst snd]. apply Hfail. intros (git' & Hg & Hv). pose proof (reads_unique _ _ _ _ Hr Hg) as [= <-]. congruence. }
  eapply phase_bind_wp; [by apply verify_wp|]. intros w1 s1 [] Hu1.
  apply (phase_transition_wp w0 (List.length ps) Finalizing Committed); [done..|by eapply under_way_all|].
  eapply complete_says; [done|done|apply all_planned|right; by apply Hsome].
Qed.

Lemma apply_phase_wp w evs :
  at_work w evs Prepared -> Forall (restored (w_fs w)) ps ->
  wp safe_world (apply_phase faults (prepared evs) (journal_at evs Prepared started, [])) w
    (phase_post w (fun w' s' _ => under_way w (List.length ps) Committed w' s')).
Proof.
  intros Hw Hres. assert (under_way w 0 Prepared w (journal_at evs Prepared started, [])) as Hu.
  { split; [by exists evs|done|constructor|by rewrite drop_0|done|done]. }
  unfold apply_phase. cbn [prepared p_workspace p_manifest p_mutations].
  eapply phase_bind_wp; [by apply fault_wp|]. intros w1 s1 [] Hu1.
  eapply phase_bind_wp; [apply (phase_transition_wp w 0 Prepared Applying); [done..| |apply nothing_says]|].
  { apply restored_all_holds. pose proof (uw_before _ _ _ _ _ Hu1) as Hb. by rewrite drop_0 in Hb. }
  intros w2 s2 [] Hu2. rewrite (st_files _ _ _ _ _ Hset).
  eapply phase_bind_wp; [by apply apply_mutations_wp|]. intros w3 s3 [] Hu3.
  eapply phase_bind_wp; [by apply fault_wp|]. intros w4 s4 [] Hu4.
  eapply phase_bind_wp; [by apply verify_wp|]. intros w5 s5 [] Hu5.
  eapply phase_bind_wp; [apply (phase_transition_wp w (List.length ps) Applying Applied); [done..|by eapply holds_under_way|]|].
  { eapply complete_says; [done|done|apply all_planned|by left]. }
  intros w6 s6 [] Hu6. eapply phase_bind_wp; [by apply fault_wp|]. intros w7 s7 [] Hu7.
  eapply phase_bind_wp; [apply (phase_transition_wp w (List.length ps) Applied Finalizing); [done..|by eapply holds_under_way|]|].
  { eapply complete_says; [done|done|apply all_planned|by left]. }
  intros w8 s8 [] Hu8. eapply phase_bind_wp; [by apply fault_wp|]. intros w9 s9 [] Hu9. by apply git_wp.
Qed.

(** The two ways an execution ends. *)
Definition executed (w w' : world) (r : ApplyTransactionResult) : Prop :=
  same_but_tree w w' /\ outside_same (w_fs w) (w_fs w') /\
  ((committed r = true /\ rollback_attempted r = false /\ r_errors r = [] /\ modified_files r = planned_names ps /\
    Forall (applied (w_fs w')) ps /\ exists evs, at_work w' evs Committed) \/
   (rolled_back r = true /\ operation_success r = false /\ Forall (restored (w_fs w')) ps /\
    (exists evs, at_work w' evs RolledBack) /\ obstacle w)).

Lemma modified_planned k :
  NoDup (planned_names (take k ps)) /\ forall x, x ∈ planned_names (take k ps) -> x ∈ map (fun p => rel (pl_path p)) ps.
Proof.
  pose proof (plan_paths_NoDup _ _ _ _ _ Hset) as Hnd. unfold planned_names.
  assert (map (fun p => rel (pl_path p)) (take k ps) = take k (map (fun p => rel (pl_path p)) ps)) as ->
    by (symmetry; apply firstn_map).
  rewrite <- (take_drop k (map (fun p => rel (pl_path p)) ps)) in Hnd. apply NoDup_app in Hnd as (Hnd & _).
  split; [done|]. intros x Hx. rewrite <- (take_drop k (map _ ps)). apply elem_of_app. by left.
Qed.

Lemma execute_prepared_wp w evs :
  at_work w evs Prepared -> Forall (restored (w_fs w)) ps ->
  faults AtRollbackStarted = Ok tt -> faults AfterFirstRestore = Ok tt ->
  (forall w', same_but_tree w w' -> outside_same (w_fs w) (w_fs w') -> Forall (restored (w_fs w')) ps -> git_agrees M w') ->
  wp safe_world (execute_prepared faults (prepared evs)) w (fun w' r => exists result, r = Ok result /\ executed w w' result).
Proof.
  intros Hw Hres Hstart Hfirst Hgit. unfold execute_prepared. change (p_journal (prepared evs)) with (journal_at evs Prepared started).
  eapply wp_bind; [by apply apply_phase_wp|]. intros w1 [[journal modified] [u|e]] Hp; unfold phase_post in Hp; cbn [fst snd] in Hp; cbv beta iota zeta.
  - pose proof (under_way_all _ _ _ _ Hp) as Ha. destruct Hp as [(evs1 & Hw1 & _) Hm _ _ Hh Ho]. cbn [snd] in Hm.
    eapply wp_sys; [reflexivity|by eapply at_work_safe|]. cbn [wp]. eexists. split; [reflexivity|]. split; [done|]. split; [done|].
    left. split; [reflexivity|]. split; [reflexivity|]. split; [reflexivity|].
    split; [cbn; by rewrite Hm, take_ge by done|]. split; [done|by exists evs1].
  - destruct Hp as [(evs1 & st & Hw1 & Hst & Hj) [k Hm] Hh Ho Hob]. cbn [fst snd] in Hj, Hm. subst journal modified.
    unfold rollback_prepared_context. cbn [prepared p_workspace p_run_dir p_manifest p_started_at].
    destruct (modified_planned k) as [Hnd Hin].
    eapply wp_bind; [apply (rollback_manifest_wp ws id patch ps M Hset Hencode pid fs0 faults w1 evs1 st started
      (planned_names (take k ps)) (alternate e) false started (fun w' r => exists result, snd r = Ok result /\ executed w w' result)); try done|].
    + by intros ->.
    + by eapply started_says.
    + intros w' Hs' Ho' Hr'. apply Hgit; [by etransitivity|by etransitivity|done].
    + intros w' evs' j r Hs' Hw' Ho' [R1 R2 _ _ _]. exists r. split; [done|]. split; [by etransitivity|]. split; [by etransitivity|].
      right. split; [done|]. split; [done|]. split; [exact (aw_targets _ _ _ _ _ _ _ _ _ _ Hw')|]. split; [by exists evs'|done].
    + intros w' [j r] (result & E & Hex). cbn [snd] in E. subst r. cbv beta iota. by exists result.
Qed.
End Execution.
