(* ===== verification/Preparation.v ===== *)
(** * Apply transactions on a file system: preparation

    From a workspace in which no transaction is under way, preparation
    reaches the state [prepared] with a complete run directory, or refuses;
    no target is touched on either way. *)

From stdpp Require Import base list strings gmap.
From Stdlib Require Import NArith Ascii String Sorted Lia.
From S2P Require Import Prelude Bytes UnixPath IO World WorldFacts Anyhow Paths GitState Transaction TransactionFs TransactionRun TransactionFacts TransactionWorld RunStore Recovery CrashRecovery Execution.

Local Open Scope string_scope.
Local Open Scope N_scope.
Local Open Scope list_scope.

(** ** The names of backups *)

Lemma replace_backslash_free s : any_byte (Ascii.eqb backslash) s = false -> replace_backslash s = s.
Proof.
  unfold replace_backslash. induction s as [|c s IH]; [done|]. cbn [any_byte map_bytes]. intros Hs. split_bools.
  rewrite IH by done. destruct (Ascii.eqb_spec c backslash) as [->|]; [done|done].
Qed.

Lemma digits_no_backslash n k : any_byte (Ascii.eqb backslash) (digits 10 k n) = false.
Proof.
  pose proof (all_hexdigits 10 k n ltac:(lia)) as Hd. induction (digits 10 k n) as [|c r IH]; [done|].
  cbn [all_bytes any_byte] in *. split_bools. rewrite IH by done.
  destruct (Ascii.eqb_spec backslash c) as [<-|]; [done|done].
Qed.

Lemma backup_portable i : N.of_nat i < max_events ->
  join BACKUPS_DIR (backup_file_name i) = (BACKUPS_DIR ++ "/" ++ backup_file_name i)%string /\
  path_to_portable_string (BACKUPS_DIR ++ "/" ++ backup_file_name i)%string = Ok (BACKUPS_DIR ++ "/" ++ backup_file_name i)%string.
Proof.
  intros Hi. destruct (backup_name_good i Hi) as (Hv & Hu & _). split.
  - apply valid_name_spec in Hv as (Hne & _ & _ & Hs). unfold join.
    assert (is_absolute (backup_file_name i) = false) as ->; [|done].
    unfold is_absolute. destruct (backup_file_name i) as [|c r]; [done|]. cbn [any_byte] in Hs. split_bools.
    by unfold starts_with.
  - unfold path_to_portable_string, to_str, backup_file_name in *. rewrite dec_pad_8 in * by done.
    assert (utf8_valid (BACKUPS_DIR ++ "/" ++ digits 10 8 (N.of_nat i) ++ ".bin") = true) as ->.
    { apply utf8_ascii. unfold ascii_only. rewrite !all_bytes_app. apply andb_true_iff. split; [done|]. apply andb_true_iff. split; [done|].
      apply andb_true_iff. split; [|done]. eapply all_bytes_impl; [apply hexdigit_ascii|]. by apply all_hexdigits. }
    rewrite replace_backslash_free; [done|]. by rewrite !any_byte_app, digits_no_backslash.
Qed.

Lemma backup_name_lt i j : (i < j)%nat -> N.of_nat j < max_events -> str_lt (backup_file_name i) (backup_file_name j) = true.
Proof.
  intros Hij Hj. unfold backup_file_name. rewrite !dec_pad_8 by lia.
  apply str_lt_app_lt; [by rewrite !length_digits|]. by apply digits_lt; [lia|lia|].
Qed.

Lemma id_not_staging id : validate_transaction_id id = Ok tt -> not_staging id.
Proof.
  unfold validate_transaction_id, not_staging, starts_with. destruct (is_empty id); [done|]. destruct (160 <? strlen id); [done|].
  destruct id as [|c id]; [done|]. cbn [all_bytes String.prefix]. destruct (ascii_dec "." c) as [<-|]; [|done]. done.
Qed.

Section Preparation.
Context `{Blake3, TransactionSerde, !TransactionRoundTrip}.
Context (ws : loc) (id : string) (ps : list planned) (request : ApplyTransactionRequest).
Context (Hencode : forall e, exists bytes, event_to_vec e = Ok bytes).
Context (Hmanifest : forall m, exists bytes, manifest_to_vec m = Ok bytes).

Local Abbreviation patch := (req_patch request).
Local Abbreviation metadata_dir := (metadata_dir ws).
Local Abbreviation lock_loc := (lock_loc ws).
Local Abbreviation run_loc := (run_loc ws id).
Local Abbreviation events_loc := (events_loc ws id).
Local Abbreviation backups_loc := (backups_loc ws id).
Local Abbreviation target := (target ws).
Local Abbreviation restored := (restored ws).
Local Abbreviation outside_same := (outside_same ws ps).
Definition runs_loc : loc := metadata_dir ++ ["runs"].

(** ** The request *)

(** The plan of the request: the mutations in the order of their paths. *)
Record requested : Prop := {
  rq_names : valid_names ws;
  rq_utf8 : utf8_valid (render ws) = true;
  rq_id : validate_transaction_id id = Ok tt;
  rq_requested : requested_id request = Some id;
  rq_plan : Forall plan_ok ps;
  rq_distinct : NoDup (map pl_path ps);
  rq_length : N.of_nat (List.length ps) < max_events;
  rq_nonempty : ps <> [];
  rq_mutations : req_mutations request ≡ₚ map mutation_of ps;
  rq_sorted : StronglySorted (fun p q => path_cmp (rel (pl_path p)) (rel (pl_path q)) = Lt) ps;
}.

(** The manifest of the request, with the Git state found and the time. *)
Definition changes_found (git : option GitStateSnapshot) : N := match git with Some s => change_count s | None => 0 end.
Definition manifest_of (git : option GitStateSnapshot) (created_at : N) : ApplyTransactionManifest := {|
  m_schema_version := APPLY_TRANSACTION_SCHEMA_VERSION;
  m_transaction_id := id;
  m_workspace := display (render ws);
  m_copied_from := option_map display (req_copied_from request);
  m_created_at_unix_ms := created_at;
  m_patch_hash := fingerprint_bytes patch;
  m_patch_path := PATCH_FILE;
  m_files := files_from 0 ps;
  m_validation := {| v_git_policy := req_git_policy request; v_git_captured := is_some git;
                     v_git_clean := changes_found git =? 0; v_pre_existing_changes := changes_found git;
                     v_expected_contents_verified := true |};
  m_git_before := git |}.

(** The Git states the policy lets a transaction start from. *)
Definition permitted (git : option GitStateSnapshot) : Prop :=
  req_git_policy request = RequireClean -> is_some git = true /\ changes_found git = 0.

Context (Hrq : requested).

Lemma setting_of git created_at : permitted git -> setting ws id patch ps (manifest_of git created_at).
Proof.
  intros Hgit. destruct Hrq as [R1 R2 R3 R4 R5 R6 R7 R8 R9 R10]. split; try done.
  - by apply to_string_lossy_valid.
  - unfold manifest_field_errors. cbn [manifest_of m_files m_validation m_git_before v_git_captured v_expected_contents_verified
      v_git_clean v_pre_existing_changes v_git_policy].
    assert ((List.length (files_from 0 ps) =? 0)%nat = false) as -> by (by destruct ps).
    rewrite !eqb_reflx. cbn [negb report_if app]. case_bool_decide as E; [|done].
    destruct (Hgit E) as [-> ->]. done.
Qed.

Lemma plan_member p : p ∈ ps -> plan_ok p.
Proof. apply (proj1 (Forall_forall _ _) (rq_plan Hrq)). Qed.

(** ** The invariant *)

(** [found] is what is known of the Git states a transaction starts from. *)
Context (pid : N) (fs0 : fsys) (found : option GitStateSnapshot -> Prop).

(** Every target is as before, and staging files are only those of the
    process. *)
Definition untouched (fs : fsys) : Prop := Forall (restored fs) ps /\ fresh_for_others pid fs0 fs.

(** The trees an execution passes through. *)
Definition durable (fs : fsys) : Prop :=
  untouched fs \/ exists git created_at, permitted git /\ found git /\ safe ws id patch ps (manifest_of git created_at) pid fs0 fs.
Definition durable_world (w : world) : Prop := durable (w_fs w).

Lemma untouched_staging : staging_tolerant pid untouched.
Proof.
  intros fs d label counter c a Hl [Hr Hf] Hnone. split.
  - rewrite Forall_forall in Hr |- *. intros p Hp. pose proof (Hr p Hp) as Hrp. unfold RunStore.restored in *.
    rewrite lookup_insert_ne; [done|]. intros E. symmetry in E. revert E. by apply staging_not_target, plan_member.
  - intros other Hne H0' d' label' counter'. destruct (decide ((d ++ [staging_name label pid counter])%list = (d' ++ [staging_name label' other counter'])%list)) as [E|E].
    + apply app_inj_tail in E as [_ E]. apply staging_pid in E. by symmetry in E.
    + rewrite lookup_insert_ne by done. by apply Hf.
Qed.

Lemma durable_staging : staging_tolerant pid durable.
Proof.
  intros fs d label counter c a Hl [Hu|(git & at_ & Hp & Hfound & Hs)] Hnone; [left; by apply untouched_staging|right].
  exists git, at_. split; [done|]. split; [done|]. eapply safe_staging; [by apply setting_of|done..].
Qed.

(** ** What stays true of a workspace in which the run directory grows *)

Record common (fs : fsys) : Prop := {
  cm_lock : file_or_missing fs lock_loc;
  cm_dirs : Forall (fun p => real_dir fs (ws ++ pl_dir p)) ps;
  cm_untouched : untouched fs;
  cm_staging : no_staging pid fs;
}.

Definition in_metadata (l : loc) : Prop := exists k, l = ws ++ ".opticcode" :: k.

Lemma common_insert fs d n x :
  common fs -> fs !! (d ++ [n]) = None -> not_staging n -> in_metadata (d ++ [n]) ->
  (d ++ [n] = lock_loc -> exists c a, x = File c a) -> common (<[(d ++ [n])%list := x]> fs).
Proof.
  intros [C1 C2 [C3 C4] C5] Hnone Hn [k Hk] Hlock. split.
  - unfold file_or_missing in *. destruct (decide (lock_loc = (d ++ [n])%list)) as [E|Hne].
    + right. destruct Hlock as (c & a & ->); [done|]. exists c, a. rewrite E. apply lookup_insert_eq.
    + by rewrite lookup_insert_ne.
  - eapply Forall_impl; [exact C2|]. intros p Hp. by apply real_dir_insert, missing_not_dir.
  - split; [|by apply fresh_insert]. rewrite Forall_forall in C3 |- *. intros p Hp. pose proof (C3 p Hp) as Hrp.
    unfold RunStore.restored in *. rewrite lookup_insert_ne; [done|]. rewrite Hk. intros E. symmetry in E. revert E.
    by apply target_not_metadata, plan_member.
  - by apply no_staging_insert.
Qed.

Lemma common_durable fs : common fs -> durable fs.
Proof. intros Hc. left. apply Hc. Qed.

Lemma in_metadata_outside fs d n x : in_metadata (d ++ [n]) -> outside_same fs (<[(d ++ [n])%list := x]> fs).
Proof.
  intros [k Hk] l _ Hm. apply lookup_insert_ne. rewrite Hk. intros <-. apply (Hm k).
  unfold TransactionWorld.metadata_dir. by rewrite <- app_assoc.
Qed.

#[local] Instance outside_same_refl : Reflexive outside_same.
Proof. by intros fs l. Qed.

(** *** The stages *)

(** Before: no run directory of this identifier, nor anything below it. *)
Record fresh_start (fs : fsys) : Prop := {
  fs_common : common fs;
  fs_lockable : lockable ws fs;
  fs_runs : real_dir fs runs_loc \/ fs !! runs_loc = None;
  fs_run : forall k, fs !! (run_loc ++ k) = None;
}.

(** With the run directory. *)
Record opened (fs : fsys) : Prop := {
  op_common : common fs;
  op_run : real_dir fs run_loc;
  op_empty : forall n k, fs !! (run_loc ++ n :: k) = None;
}.

(** With its directories, [j] backups and perhaps the manifest. *)
Record staged (j : nat) (manifest : option string) (fs : fsys) : Prop := {
  sg_common : common fs;
  sg_backups_dir : real_dir fs backups_loc;
  sg_events_dir : real_dir fs events_loc;
  sg_patch : file_at fs (run_loc ++ [PATCH_FILE]) patch;
  sg_backups : forall i p c, (i < j)%nat -> ps !! i = Some p -> content_before p = Some c ->
    file_at fs (backups_loc ++ [backup_file_name i]) c;
  sg_later : forall i, (j <= i)%nat -> N.of_nat i < max_events -> fs !! (backups_loc ++ [backup_file_name i]) = None;
  sg_manifest : match manifest with
                | None => fs !! (run_loc ++ [MANIFEST_FILE]) = None
                | Some bytes => file_at fs (run_loc ++ [MANIFEST_FILE]) bytes
                end;
  sg_no_events : forall n, fs !! (events_loc ++ [n]) = None;
}.

Lemma run_in_metadata k : in_metadata (run_loc ++ k).
Proof. exists (["runs"; id] ++ k). unfold RunStore.run_loc. by rewrite <- app_assoc. Qed.

(** With the lock held. *)
Record locked (fs : fsys) : Prop := {
  lo_common : common fs;
  lo_metadata : real_dir fs metadata_dir;
  lo_runs : real_dir fs runs_loc \/ fs !! runs_loc = None;
  lo_run : forall k, fs !! (run_loc ++ k) = None;
}.

(** The world at a stage, with the lock held. *)
Record preparing (w0 : world) (stage : fsys -> Prop) (w : world) : Prop := {
  pr_host : same_host w0 w;
  pr_pid : w_pid w = pid;
  pr_locks : w_locks w = {[render lock_loc]} ∪ w_locks w0;
  pr_outside : outside_same (w_fs w0) (w_fs w);
  pr_stage : stage (w_fs w);
}.

(** ** The lock *)

Ltac locs := unfold runs_loc, RunStore.backups_loc, RunStore.events_loc, RunStore.run_loc, TransactionWorld.lock_loc, TransactionWorld.metadata_dir,
  WORKSPACE_LOCK_FILE, BACKUPS_DIR, EVENTS_DIR, PATCH_FILE, MANIFEST_FILE in *; rewrite <- ?app_assoc in *.
Ltac loc_ne := let E := fresh in intros E; locs; apply app_inv_head in E; cbn [app] in E; congruence.

Lemma with_directory_common w fs : fresh_start fs -> common (with_directory ws w fs) /\ outside_same fs (with_directory ws w fs).
Proof.
  intros Hf. pose proof (fs_common _ Hf) as Hc. unfold with_directory. destruct (fs !! metadata_dir) eqn:E; [by split|].
  unfold TransactionWorld.metadata_dir in *. assert (in_metadata (ws ++ [".opticcode"])) as Him by by exists [].
  split; [|by apply in_metadata_outside]. apply common_insert; try done. loc_ne.
Qed.

Lemma with_lock_file_common w fs : common fs -> common (with_lock_file ws w fs) /\ outside_same fs (with_lock_file ws w fs).
Proof.
  intros Hc. unfold with_lock_file. destruct (fs !! lock_loc) eqn:E; [by split|]. unfold TransactionWorld.lock_loc in *.
  assert (in_metadata (metadata_dir ++ [WORKSPACE_LOCK_FILE])) as Him
    by (exists [WORKSPACE_LOCK_FILE]; unfold TransactionWorld.metadata_dir; by rewrite <- app_assoc).
  split; [|by apply in_metadata_outside]. apply common_insert; try done. by eexists _, _.
Qed.

Lemma lock_wp w Q :
  fresh_start (w_fs w) -> w_pid w = pid -> render lock_loc ∉ w_locks w ->
  (forall w', preparing w locked w' -> Q w' (Ok (render lock_loc))) ->
  wp durable_world (acquire (render ws)) w Q.
Proof.
  intros Hf Hpid Hfree HQ. destruct (with_directory_common w _ Hf) as [Hc1 Ho1].
  destruct (with_lock_file_common w _ Hc1) as [Hc2 Ho2]. pose proof (fs_lockable _ Hf) as Hl.
  apply (acquire_files_wp ws durable); [done|done|by apply common_durable, Hf|by apply common_durable..|].
  intros w' Hhost Hfs Hlocks. apply HQ. split; [done|by rewrite (proj2 (host_clock _ _ Hhost))|done|rewrite Hfs; by etransitivity|rewrite Hfs].
  destruct (with_directory_real ws w _ Hl) as (_ & Hm & _).
  assert (forall fs l, real_dir fs l -> real_dir (with_lock_file ws w fs) l) as Hreal2.
  { intros fs l Hr. unfold with_lock_file, TransactionWorld.lock_loc. destruct (fs !! _) eqn:E; [done|]. by apply real_dir_insert, missing_not_dir. }
  assert (forall l, real_dir (w_fs w) l -> real_dir (with_directory ws w (w_fs w)) l) as Hreal1.
  { intros l Hr. unfold with_directory. destruct (w_fs w !! _) eqn:E; [done|]. unfold TransactionWorld.metadata_dir in *. by apply real_dir_insert, missing_not_dir. }
  assert (forall l, l <> metadata_dir -> l <> lock_loc -> with_lock_file ws w (with_directory ws w (w_fs w)) !! l = w_fs w !! l) as Hsame.
  { intros l Hl1 Hl2. unfold with_lock_file, with_directory.
    destruct (w_fs w !! metadata_dir); (destruct (_ !! lock_loc); rewrite ?lookup_insert_ne by done; done). }
  split; [done|by apply Hreal2| |].
  - destruct (fs_runs _ Hf) as [Hr|Hn]; [left; by apply Hreal2, Hreal1|right]. rewrite Hsame; [done|loc_ne..].
  - intros k. rewrite Hsame; [apply Hf|loc_ne..].
Qed.

(** ** The directories *)

Lemma verify_directory_reads w d label : real_dir (w_fs w) (ws ++ d) ->
  reads (verify_workspace_directory (render ws) (render (ws ++ d)) label) w (Ok tt).
Proof.
  intros Hd. unfold verify_workspace_directory. destruct (stat_real_dir w _ Hd) as (m & E & Hlink & Hdir).
  eapply reads_try; [apply reads_map_err, reads_map_err; intros I Q HI HQ; eapply wp_call; [exact E|done|done]|].
  rewrite Hlink, Hdir. cbn [orb negb]. cbn iota.
  eapply reads_try; [apply reads_map_err, reads_map_err; intros I Q HI HQ; eapply wp_call; [by apply exec_canonicalize_dir|done|done]|].
  rewrite starts_with_render by apply Hd. cbn [negb]. cbn iota. intros I Q HI HQ. by apply sync_directory_wp.
Qed.

(** A new directory below [.opticcode]. *)
Lemma new_directory fs d n w :
  common fs -> real_dir fs d -> valid_name n = true -> not_staging n -> in_metadata (d ++ [n]) -> d ++ [n] <> lock_loc ->
  fs !! (d ++ [n]) = None ->
  let fs' := <[(d ++ [n])%list := Dir 4096 (fresh_dir w)]> fs in
  common fs' /\ real_dir fs' (d ++ [n]) /\ outside_same fs fs' /\ forall l, real_dir fs l -> real_dir fs' l.
Proof.
  intros Hc Hd Hn Hs Him Hl Hnone fs'. split; [by apply common_insert|]. split; [by apply real_dir_created|].
  split; [by apply in_metadata_outside|]. intros l Hr. by apply real_dir_insert, missing_not_dir.
Qed.

Lemma runs_name : valid_name "runs" = true.
Proof. reflexivity. Qed.

Lemma runs_in_metadata : in_metadata runs_loc.
Proof. exists ["runs"]. by locs. Qed.

(** The runs directory exists afterwards. *)
Lemma runs_wp w0 w Q :
  preparing w0 locked w ->
  (forall w', preparing w0 locked w' -> real_dir (w_fs w') runs_loc -> Q w' (Ok tt)) ->
  wp durable_world (ensure_workspace_directory (render ws) (render runs_loc) "transaction runs directory") w Q.
Proof.
  intros Hw HQ. pose proof Hw as [Hhost Hpid Hlocks Ho [Hc Hm Hr Hrun]]. pose proof (common_durable _ Hc) as HJ.
  assert (real_dir (w_fs w) ws) as Hws by (by eapply real_dir_prefix).
  assert (runs_loc = ws ++ [".opticcode"; "runs"]) as Eruns by (by locs).
  unfold ensure_workspace_directory. destruct Hr as [Hr|Hr].
  - destruct (stat_real_dir w _ Hr) as (m & E & _). eapply wp_sys; [exact E|exact HJ|]. cbv beta iota.
    pose proof Hr as Hr'. rewrite Eruns in Hr' |- *. apply verify_directory_reads; [done|exact HJ|]. by apply HQ.
  - assert (metadata_dir ++ ["runs"] <> lock_loc) as Hne by loc_ne.
    destruct (new_directory _ metadata_dir "runs" w Hc Hm runs_name eq_refl runs_in_metadata Hne Hr) as (Hc' & Hr' & Ho' & Hreal').
    unfold runs_loc at 1. eapply wp_sys; [cbn [exec]; by rewrite (exec_metadata_missing w metadata_dir "runs" Hm runs_name false Hr)|exact HJ|].
    cbv beta iota. change (not_found enoent) with true. cbn iota.
    eapply wp_call; [by apply exec_create_dir|by apply common_durable|]. cbn [map_err bind].
    unfold runs_loc at 1. rewrite parent_render by (done || apply Hm).
    set (w1 := set_fs _ w). apply wp_try, sync_directory_wp; [by apply Hreal'|by apply common_durable|]. cbv beta iota.
    change (real_dir (w_fs w1) runs_loc) in Hr'. rewrite Eruns in Hr' |- *.
    apply verify_directory_reads; [done|by apply common_durable|]. rewrite <- Eruns in Hr'. apply HQ; [|done].
    split; [done|done|done|by etransitivity|]. split; [done|by apply Hreal'|by left|].
    intros k. cbn [w1 w_fs set_fs]. rewrite lookup_insert_ne; [done|loc_ne].
Qed.

Lemma run_loc_snoc : run_loc = runs_loc ++ [id].
Proof. by locs. Qed.

Lemma run_dir_wp w0 w Q :
  preparing w0 locked w ->
  (forall w', preparing w0 opened w' -> Q w' (Ok (id, render run_loc))) ->
  wp durable_world (create_transaction_directory (render ws) (requested_id request)) w Q.
Proof.
  intros Hw HQ. pose proof (rq_names Hrq) as Hws. pose proof (id_valid_name _ (rq_id Hrq)) as [Hid _].
  assert (valid_names metadata_dir) as Hmv by (apply valid_names_snoc; [done|reflexivity]).
  assert (valid_names runs_loc) as Hrv by (by apply valid_names_snoc).
  unfold create_transaction_directory. rewrite (rq_requested Hrq), join_render by done.
  change (ws ++ [".opticcode"]) with metadata_dir. rewrite join_render by done. fold runs_loc.
  apply wp_try. eapply runs_wp; [exact Hw|]. clear Hw. intros w1 [Hhost Hpid Hlocks Ho [Hc Hm _ Hrun]] Hr. cbv beta iota.
  rewrite (rq_id Hrq). cbn [lift try_bind bind]. rewrite join_render by done.
  assert (in_metadata (runs_loc ++ [id])) as Him by (rewrite <- run_loc_snoc, <- (app_nil_r run_loc); apply run_in_metadata).
  assert (w_fs w1 !! (runs_loc ++ [id]) = None) as Hnone by (rewrite <- run_loc_snoc, <- (app_nil_r run_loc); apply Hrun).
  assert (runs_loc ++ [id] <> lock_loc) as Hne by loc_ne.
  destruct (new_directory _ runs_loc id w1 Hc Hr Hid (id_not_staging _ (rq_id Hrq)) Him Hne Hnone) as (Hc' & Hr' & Ho' & Hreal').
  unfold create_run_directory. apply wp_try. eapply wp_call; [by apply exec_create_dir|by apply common_durable|]. cbv beta iota.
  rewrite <- run_loc_snoc in *. set (w2 := set_fs _ w1).
  apply wp_try, sync_directory_wp; [by apply Hreal'|by apply common_durable|]. cbv beta iota.
  eapply wp_reads_try; [by apply (verify_directory_reads w2 [".opticcode"; "runs"; id])|by apply common_durable|]. cbn [wp].
  apply HQ. split; [done|done|done|by etransitivity|]. split; [done|done|].
  intros n k. cbn [w2 w_fs set_fs]. rewrite lookup_insert_ne; [apply Hrun|]. intros E%(f_equal (@List.length _)).
  rewrite length_app in E. simpl in E. lia.
Qed.

(** ** The artifacts *)

(** A new artifact takes the run directory to its next stage. *)
Lemma artifact_wp (w0 w : world) (stage stage' : fsys -> Prop) (d : loc) (n bytes : string) (Q : world -> res unit -> Prop) :
  preparing w0 stage w -> common (w_fs w) -> real_dir (w_fs w) d ->
  valid_name n = true /\ utf8_valid n = true /\ not_staging n -> in_metadata (d ++ [n]) -> w_fs w !! (d ++ [n]) = None ->
  (forall fs', fs' = <[(d ++ [n])%list := File bytes (fresh_file w)]> (w_fs w) -> common fs' -> stage' fs') ->
  (forall w', preparing w0 stage' w' -> Q w' (Ok tt)) ->
  wp durable_world (write_new_atomic (render (d ++ [n])) bytes) w Q.
Proof.
  intros [Hhost Hpid Hlocks Ho Hstage] Hc Hd (Hn & Hu & Hs) Him Hnone Hnext HQ.
  assert (common (<[(d ++ [n])%list := File bytes (fresh_file w)]> (w_fs w))) as Hc'
    by (apply common_insert; try done; by eexists _, _).
  apply (write_new_wp pid durable durable_staging); try done.
  - rewrite Hpid. apply (cm_staging _ Hc).
  - by apply common_durable.
  - by apply common_durable.
  - intros w' [[Hhost' Hlocks'] Hfs]. apply HQ. split.
    + by etransitivity.
    + by rewrite (proj2 (host_clock _ _ Hhost')).
    + by rewrite Hlocks'.
    + rewrite Hfs. etransitivity; [exact Ho|by apply in_metadata_outside].
    + rewrite Hfs. by apply Hnext.
Qed.

Lemma file_at_insert (fs : fsys) x v l c : fs !! x = None -> file_at fs l c -> file_at (<[x := v]> fs) l c.
Proof. intros Hx [a Ha]. exists a. rewrite lookup_insert_ne; [done|congruence]. Qed.

Lemma patch_name : valid_name PATCH_FILE = true /\ utf8_valid PATCH_FILE = true /\ not_staging PATCH_FILE.
Proof. done. Qed.
Lemma manifest_name : valid_name MANIFEST_FILE = true /\ utf8_valid MANIFEST_FILE = true /\ not_staging MANIFEST_FILE.
Proof. done. Qed.

(** One of the two directories of a run. *)
Lemma run_subdirectory w fs n :
  common fs -> real_dir fs run_loc -> valid_name n = true -> not_staging n -> fs !! (run_loc ++ [n]) = None ->
  let fs' := <[(run_loc ++ [n])%list := Dir 4096 (fresh_dir w)]> fs in
  common fs' /\ real_dir fs' (run_loc ++ [n]) /\ outside_same fs fs' /\ forall l, real_dir fs l -> real_dir fs' l.
Proof. intros Hc Hd Hn Hs Hnone. apply new_directory; try done; [apply run_in_metadata|loc_ne]. Qed.

Lemma layout_wp w0 w Q :
  preparing w0 opened w -> (forall w', preparing w0 (staged 0 None) w' -> Q w' (Ok tt)) ->
  wp durable_world (create_run_layout (render run_loc) patch) w Q.
Proof.
  intros [Hhost Hpid Hlocks Ho [Hc Hr Hempty]] HQ. unfold create_run_layout.
  rewrite !join_render by (done || apply Hr).
  destruct (run_subdirectory w _ BACKUPS_DIR Hc Hr eq_refl eq_refl (Hempty BACKUPS_DIR [])) as (Hc1 & Hb1 & Ho1 & Hreal1).
  eapply wp_call; [apply exec_create_dir; [done|done|apply (Hempty BACKUPS_DIR [])]|by apply common_durable|]. cbn [map_err bind].
  set (w1 := set_fs _ w). change (common (w_fs w1)) in Hc1.
  assert (w_fs w1 !! (run_loc ++ [EVENTS_DIR]) = None) as He1.
  { cbn [w1 w_fs set_fs]. rewrite lookup_insert_ne by loc_ne. apply (Hempty EVENTS_DIR []). }
  destruct (run_subdirectory w1 _ EVENTS_DIR Hc1 (Hreal1 _ Hr) eq_refl eq_refl He1) as (Hc2 & Hb2 & Ho2 & Hreal2).
  eapply wp_call; [apply exec_create_dir; [by apply Hreal1|done|done]|by apply common_durable|]. cbn [map_err bind].
  set (w2 := set_fs _ w1). change (common (w_fs w2)) in Hc2.
  apply wp_try, sync_directory_wp; [by apply Hreal2, Hreal1|by apply common_durable|]. cbv beta iota. apply wp_map_err.
  assert (forall n k, run_loc ++ n :: k <> run_loc ++ [BACKUPS_DIR] -> run_loc ++ n :: k <> run_loc ++ [EVENTS_DIR] ->
    w_fs w2 !! (run_loc ++ n :: k) = None) as Hnone.
  { intros n k Hn1 Hn2. cbn [w2 w1 w_fs set_fs]. by rewrite !lookup_insert_ne. }
  assert (preparing w0 (fun _ => True) w2) as Hw2 by (split; try done; etransitivity; [exact Ho|by etransitivity]).
  eapply (artifact_wp w0 w2 _ (staged 0 None) run_loc PATCH_FILE patch _ Hw2);
    [done|by apply Hreal2, Hreal1|apply patch_name|apply run_in_metadata|apply Hnone; loc_ne| |exact HQ].
  intros fs' -> Hc'. split.
  - done.
  - apply real_dir_insert; [by apply Hreal2|]. apply missing_not_dir, Hnone; loc_ne.
  - apply real_dir_insert; [done|]. apply missing_not_dir, Hnone; loc_ne.
  - exists (fresh_file w2). apply lookup_insert_eq.
  - lia.
  - intros i _ Hi. rewrite lookup_insert_ne by loc_ne. unfold RunStore.backups_loc. rewrite <- app_assoc. apply Hnone; loc_ne.
  - rewrite lookup_insert_ne by loc_ne. apply Hnone; loc_ne.
  - intros n. rewrite lookup_insert_ne by loc_ne. unfold RunStore.events_loc. rewrite <- app_assoc. apply Hnone; loc_ne.
Qed.

(** ** The backups *)

Context (faults : ApplyFaultInjector).

(** A fault was injected. *)
Definition injected : Prop := exists point e, faults point = Err e.

Lemma staged_next i p fs : staged i None fs -> ps !! i = Some p -> content_before p = None -> staged (S i) None fs.
Proof.
  intros [S1 S2 S3 S4 S5 S6 S7 S8] Hp Hc. split; try done; [|intros j Hj; apply S6; lia].
  intros j q c Hj Hq Hqc. destruct (decide (j = i)) as [->|]; [congruence|]. eapply S5; [lia|done..].
Qed.

Lemma staged_backup i p c fs a :
  staged i None fs -> ps !! i = Some p -> content_before p = Some c -> N.of_nat i < max_events ->
  let fs' := <[(backups_loc ++ [backup_file_name i])%list := File c a]> fs in common fs' -> staged (S i) None fs'.
Proof.
  intros [S1 S2 S3 S4 S5 S6 S7 S8] Hp Hc Hi fs' Hc'. pose proof (S6 i (le_n i) Hi) as Hnone.
  assert (forall l n, l <> backups_loc -> l ++ [n] <> backups_loc ++ [backup_file_name i]) as Hne by (intros l n Hl [E _]%app_inj_tail; done).
  assert (run_loc <> backups_loc /\ events_loc <> backups_loc) as [Hrun Hev] by (split; [|loc_ne];
    intros E%(f_equal (@List.length _)); unfold RunStore.backups_loc in E; rewrite length_app in E; simpl in E; lia).
  split; try done.
  - by apply real_dir_insert, missing_not_dir.
  - by apply real_dir_insert, missing_not_dir.
  - by apply file_at_insert.
  - intros j q c' Hj Hq Hqc. destruct (decide (j = i)) as [->|]; [|apply file_at_insert; [done|by eapply S5; [lia|..]]].
    exists a. simplify_eq. apply lookup_insert_eq.
  - intros j Hj Hjm. unfold fs'. rewrite lookup_insert_ne; [apply S6; [lia|done]|]. intros [_ E]%app_inj_tail.
    pose proof (backup_name_lt i j ltac:(lia) Hjm) as Hlt. rewrite E in Hlt. unfold str_lt in Hlt. by rewrite (cmp_refl str_cmp) in Hlt.
  - unfold fs'. rewrite lookup_insert_ne; [done|]. intros E. symmetry in E. revert E. by apply Hne.
  - intros n. unfold fs'. rewrite lookup_insert_ne; [done|]. intros E. symmetry in E. revert E. by apply Hne.
Qed.

Lemma backup_mutation_wp w0 w i p Q :
  preparing w0 (staged i None) w -> ps !! i = Some p ->
  (forall w', preparing w0 (staged (S i) None) w' -> Q w' (Ok (file_of i p))) ->
  wp durable_world (backup_mutation (render ws) (render run_loc) i (mutation_of p)) w Q.
Proof.
  intros Hw Hp HQ. pose proof (pr_stage _ _ _ Hw) as Hs. pose proof (sg_common _ _ _ Hs) as Hc. pose proof (common_durable _ Hc) as HJ.
  assert (p ∈ ps) as Hin by (by eapply list_elem_of_lookup_2). pose proof (plan_member p Hin) as Hpok.
  assert (N.of_nat i < max_events) as Hi by (apply lookup_lt_Some in Hp; pose proof (rq_length Hrq); lia).
  destruct (backup_portable i Hi) as [Hjoin Hport].
  pose proof (proj1 (Forall_forall _ _) (cm_dirs _ Hc) p Hin) as Hdir.
  pose proof (proj1 (Forall_forall _ _) (proj1 (cm_untouched _ Hc)) p Hin) as Hres.
  destruct (restored_content _ _ _ Hres) as [Hcontent Hfile].
  assert (pl_path p = (pl_dir p ++ [pl_name p])%list) as Hpath by done.
  pose proof (mg_valid _ (po_manageable p Hpok)) as Hv. rewrite Hpath in Hv. apply Forall_app in Hv as [_ Hvn]. apply Forall_inv in Hvn.
  assert (target p = ((ws ++ pl_dir p) ++ [pl_name p])%list) as Htarget by (unfold RunStore.target; by rewrite Hpath, app_assoc).
  unfold backup_mutation. cbn [mutation_of mutation_path expected_before desired_after].
  rewrite join_render_rel by (apply Hrq || apply Hpok). change (ws ++ pl_path p) with (target p).
  rewrite Htarget in *. apply wp_try, read_file_wp; [done..|]. cbv beta iota. rewrite Hcontent, bool_decide_true by done.
  cbn [negb]. cbn iota.
  eapply wp_sys; [reflexivity|exact HJ|]. cbv beta.
  assert (forall w', preparing w0 (staged (S i) None) w' ->
    wp durable_world (portable <-? lift (path_to_portable_string (rel (pl_path p))) ;;
      backup <-? lift (match content_before p with None => Ok None | Some _ => map_ok Some (path_to_portable_string (join BACKUPS_DIR (backup_file_name i))) end) ;;
      Ret (Ok {| file_path := portable; file_existed_before := is_some (content_before p);
        before_hash := option_map fingerprint_bytes (content_before p);
        before_bytes := match content_before p with Some bytes => len_u64 bytes | None => 0 end;
        after_hash := option_map fingerprint_bytes (pl_after p);
        after_bytes := match pl_after p with Some bytes => len_u64 bytes | None => 0 end;
        backup_path := backup;
        file_readonly := option_map (fun m => mode_readonly (permissions_mode m)) (ok (stat w true (render ((ws ++ pl_dir p) ++ [pl_name p]))));
        file_unix_mode := match ok (stat w true (render ((ws ++ pl_dir p) ++ [pl_name p]))) with Some m => unix_mode m | None => None end |})) w' Q) as Hend.
  { intros w' Hw'. rewrite manageable_portable by apply Hpok. rewrite Hjoin, Hport.
    match goal with |- wp _ ?m _ _ => assert (m = Ret (Ok (file_of i p))) as ->; [|by apply HQ] end.
    unfold RunStore.restored in Hres. rewrite Htarget in Hres. unfold file_of, content_before in *.
    destruct (pl_before p) as [[c m]|] eqn:Eb; cbn [option_map fst snd is_some].
    - destruct Hres as (a & Ha & Hm). rewrite (exec_metadata_file _ _ _ Hdir Hvn _ _ _ Ha).
      cbn. unfold unix_mode, permissions_mode. cbn. by rewrite Hm.
    - by rewrite (exec_metadata_missing _ _ _ Hdir Hvn _ Hres). }
  destruct (content_before p) as [c|] eqn:Ec.
  - rewrite Hjoin. change (BACKUPS_DIR ++ "/" ++ backup_file_name i)%string with (rel [BACKUPS_DIR; backup_file_name i]).
    destruct (backup_name_good i Hi) as (Hbn & Hbu & Hbs).
    pose proof (sg_backups_dir _ _ _ Hs) as Hbd.
    rewrite join_render_rel; [|apply (real_dir_prefix _ run_loc [BACKUPS_DIR]) in Hbd; apply Hbd|by repeat constructor|done].
    change (run_loc ++ [BACKUPS_DIR; backup_file_name i]) with (run_loc ++ [BACKUPS_DIR] ++ [backup_file_name i]). rewrite app_assoc.
    apply wp_try, wp_map_err. eapply (artifact_wp w0 w (staged i None) (staged (S i) None) backups_loc (backup_file_name i) c);
      [done|done|done|done| |by apply (sg_later _ _ _ Hs)| |].
    + unfold RunStore.backups_loc. rewrite <- app_assoc. apply run_in_metadata.
    + intros fs' -> Hc'. by eapply staged_backup.
    + intros w' Hw'. cbn [map_err]. rewrite Hjoin in Hend. by apply Hend.
  - apply Hend. destruct Hw as [? ? ? ? Hst]. split; try done. by eapply staged_next.
Qed.

Lemma preparing_mono (w0 w : world) (stage stage' : fsys -> Prop) :
  (forall fs, stage fs -> stage' fs) -> preparing w0 stage w -> preparing w0 stage' w.
Proof. intros Hi [? ? ? ? ?]. split; auto. Qed.

Lemma backup_mutations_wp w0 w i todo Q :
  drop i ps = todo -> (i <= List.length ps)%nat -> preparing w0 (staged i None) w ->
  (forall w', preparing w0 (staged (List.length ps) None) w' -> Q w' (Ok (files_from i todo))) ->
  (forall w' e, preparing w0 common w' -> injected -> Q w' (Err e)) ->
  wp durable_world (backup_mutations faults (render ws) (render run_loc) i (map mutation_of todo)) w Q.
Proof.
  revert w i Q. induction todo as [|p todo IH]; intros w i Q Htodo Hi Hw HQ HE.
  - cbn. apply HQ. apply (f_equal (@List.length _)) in Htodo. rewrite length_drop in Htodo. simpl in Htodo.
    by replace (List.length ps) with i by lia.
  - assert (ps !! i = Some p) as Hp by (pose proof (lookup_drop ps i 0) as E; rewrite Htodo, Nat.add_0_r in E; by symmetry).
    assert (drop (S i) ps = todo) as Htodo' by (rewrite (drop_S _ p) in Htodo by done; by injection Htodo).
    apply lookup_lt_Some in Hp as Hlt.
    cbn [map backup_mutations]. apply wp_try. eapply backup_mutation_wp; [exact Hw|done|]. intros w1 Hw1. cbv beta iota.
    assert (wp durable_world (files <-? backup_mutations faults (render ws) (render run_loc) (S i) (map mutation_of todo) ;;
        Ret (Ok (file_of i p :: files))) w1 Q) as Hrest.
    { apply wp_try, IH; [done|lia|done| |done]. intros w2 Hw2. by apply HQ. }
    destruct i as [|i]; [|exact Hrest]. destruct (faults AfterFirstBackup) as [[]|e] eqn:Ef; [exact Hrest|].
    apply HE; [eapply preparing_mono; [apply sg_common|exact Hw1]|]. by exists AfterFirstBackup, e.
Qed.

(** ** The manifest and the first event *)

Definition unstarted (started : N) : TransactionJournal := {|
  j_transaction_id := id; j_events_dir := render events_loc; j_started_at := started;
  j_current_state := None; j_next_sequence := 0 |}.

(** The run directory of a prepared transaction. *)
Lemma prepared_run git created_at fs e bytes mbytes a :
  permitted git -> manifest_to_vec (manifest_of git created_at) = Ok mbytes ->
  staged (List.length ps) (Some (mbytes ++ newline)%string) fs ->
  event_ok id (manifest_of git created_at) 0 None e -> e_state e = Prepared -> event_to_vec e = Ok bytes ->
  run_on ws id patch ps (manifest_of git created_at) (<[(events_loc ++ [event_name e])%list := File (bytes ++ newline) a]> fs) [e] Prepared.
Proof.
  intros Hgit Hm [S1 S2 S3 S4 S5 S6 S7 S8] He Hst Hb. pose proof (S8 (event_name e)) as Hnone.
  set (x := (events_loc ++ [event_name e])%list) in *. set (fs' := <[x := _]> fs).
  assert (forall l, real_dir fs l -> real_dir fs' l) as Hreal by (intros l Hl; by apply real_dir_insert, missing_not_dir).
  pose proof (eok_sequence _ _ _ _ _ He) as Hseq. assert (e_sequence e < max_events) as Hn by by rewrite Hseq.
  assert (forall n, is_Some (fs' !! (events_loc ++ [n])) -> n = event_name e) as Honly.
  { intros n Hin. destruct (decide (x = events_loc ++ [n])) as [[_ <-]%app_inj_tail|Hne]; [done|].
    unfold fs' in Hin. rewrite lookup_insert_ne, S8 in Hin by done. by destruct Hin. }
  split.
  - by apply Hreal.
  - by apply Hreal.
  - exists mbytes. split; [done|]. by apply file_at_insert.
  - by apply file_at_insert.
  - intros i p c Hp Hc. apply file_at_insert; [done|]. eapply S5; [by eapply lookup_lt_Some|done..].
  - constructor; [|constructor]. split; [done|]. exists bytes. split; [done|]. exists a. apply lookup_insert_eq.
  - intros n ->%Honly. by apply event_name_good.
  - intros n ->%Honly _. by apply list_elem_of_singleton.
  - constructor; [done|constructor].
  - cbn. by rewrite Hst.
  - done.
  - unfold file_or_missing, fs'. rewrite lookup_insert_ne; [apply S1|]. unfold x. intros E. symmetry in E. revert E. loc_ne.
  - eapply Forall_impl; [apply (cm_dirs _ S1)|]. intros p. apply Hreal.
Qed.

Definition all_restored (fs : fsys) : Prop := Forall (restored fs) ps.

(** A world that differs only below [.opticcode]. *)
Record similar (w0 w : world) : Prop := {
  sm_host : same_host w0 w;
  sm_outside : outside_same (w_fs w0) (w_fs w);
  sm_restored : all_restored (w_fs w);
}.

Lemma preparing_similar (w0 w : world) (stage : fsys -> Prop) : (forall fs, stage fs -> common fs) -> preparing w0 stage w -> similar w0 w.
Proof. intros Hc [? ? ? ? Hs]. split; [done|done|]. apply cm_untouched. by apply Hc. Qed.

(** The snapshot of before the transaction was taken in a similar world. *)
Definition git_found (w0 : world) (git : option GitStateSnapshot) : Prop :=
  match git with
  | None => True
  | Some s => exists w, similar w0 w /\ reads (capture_git_state (render ws)) w (Ok s)
  end.

(** Git lets the transaction start. *)
Definition git_starts (w : world) : Prop :=
  exists git, reads (capture_git_for_policy (render ws) (req_git_policy request)) w (Ok git) /\ permitted git.

(** Why a transaction is not prepared. *)
Definition hindrance (w0 : world) : Prop := injected \/ exists w, similar w0 w /\ ~ git_starts w.

Record now_prepared (w0 : world) (started : N) (w : world) (p : PreparedTransaction) : Prop := {
  np_restored : preparing w0 all_restored w;
  np_run : exists git created_at e, p = prepared ws id ps (manifest_of git created_at) started [e] /\
    permitted git /\ git_found w0 git /\
    at_work ws id patch ps (manifest_of git created_at) pid fs0 w [e] Prepared;
}.

Lemma untouched_holds fs : all_restored fs -> Forall (holds ws fs) ps.
Proof.
  unfold all_restored. rewrite !Forall_forall. intros Hr p Hp. apply restored_holds; [by apply plan_member|by apply Hr].
Qed.

Lemma first_event_wp w0 w git created_at mbytes started message Q :
  permitted git -> git_found w0 git -> found git -> w_clock w / 1000000 <= u64_max ->
  manifest_to_vec (manifest_of git created_at) = Ok mbytes ->
  preparing w0 (staged (List.length ps) (Some (mbytes ++ newline)%string)) w ->
  (forall w' e, now_prepared w0 started w' (prepared ws id ps (manifest_of git created_at) started [e]) ->
     Q w' (journal_at ws id [e] Prepared started, Ok tt)) ->
  wp durable_world (transition (unstarted started) Prepared message [] [] None) w Q.
Proof.
  intros Hgit Hfound Hfound' Hclock Hm [Hhost Hpid Hlocks Ho Hs] HQ. pose proof (sg_common _ _ _ Hs) as Hc.
  set (M := manifest_of git created_at) in *. set (e := event_of w (unstarted started) Prepared message [] [] None).
  destruct (Hencode e) as [bytes Hb].
  assert (event_ok id M 0 None e) as He by (split; [done..|]; by exists "").
  pose proof (fun a => prepared_run git created_at (w_fs w) e bytes mbytes a Hgit Hm Hs He eq_refl Hb) as Hrun.
  set (x := (events_loc ++ [event_name e])%list) in *.
  assert (w_fs w !! x = None) as Hnone by apply (sg_no_events _ _ _ Hs).
  destruct (event_name_good 0 Prepared ltac:(done)) as (_ & _ & Hns).
  assert (in_metadata x) as Him by (unfold x, RunStore.events_loc; rewrite <- app_assoc; apply run_in_metadata).
  set (fs' := <[x := File (bytes ++ newline) (fresh_file w)]> (w_fs w)).
  assert (common fs') as Hc' by (apply common_insert; try done; by eexists _, _).
  assert (at_work ws id patch ps M pid fs0 (set_fs fs' w) [e] Prepared) as Hw'.
  { split; [done|apply Hrun|apply untouched_holds, Hc'|apply (cm_staging _ Hc')|apply (cm_untouched _ Hc')|done]. }
  apply (transition_writes pid durable durable_staging w (unstarted started) events_loc Prepared message [] [] None bytes); try done.
  - apply Hs.
  - apply (cm_staging _ Hc).
  - by apply common_durable.
  - right. exists git, created_at. split; [done|]. split; [done|]. by eapply at_work_safe in Hw'.
  - intros w' [[Hhost' Hlocks'] Hfs]. apply (HQ w' e).
    split.
    + split; [by etransitivity|by rewrite (proj2 (host_clock _ _ Hhost'))|by rewrite Hlocks'| |].
      * rewrite Hfs. etransitivity; [exact Ho|by apply in_metadata_outside].
      * rewrite Hfs. apply Hc'.
    + exists git, created_at, e. split; [done|]. split; [done|]. split; [done|].
      destruct Hw' as [_ ? ? ? ? _]. destruct (host_clock _ _ Hhost') as [Hck Hpd]. by split; rewrite ?Hfs, ?Hck, ?Hpd.
Qed.

(** ** Preparation under the lock *)

(** Git answers, and a snapshot the policy asks for is there. *)
Lemma policy_answers w : exists r, reads (capture_git_for_policy (render ws) (req_git_policy request)) w r /\
  forall git, r = Ok git ->
    (req_git_policy request = RequireClean -> is_some git = true) /\
    match git with None => True | Some s => reads (capture_git_state (render ws)) w (Ok s) end.
Proof.
  destruct (capture_quiet (render ws)) as [Hs Hn]. destruct (still_reads _ w Hs Hn) as [[s|e] Hr].
  - exists (Ok (Some s)). split; [eapply reads_bind; [exact Hr|apply reads_ret]|]. by intros git [= <-].
  - eexists. split; [eapply reads_bind; [exact Hr|apply reads_ret]|]. cbv beta iota.
    intros git. case_bool_decide as E; [|done]. intros [= <-]. split; [|done]. by rewrite E.
Qed.

Lemma similar_hindrance w0 w r :
  similar w0 w -> reads (capture_git_for_policy (render ws) (req_git_policy request)) w r ->
  (forall git, r = Ok git -> ~ permitted git) -> hindrance w0.
Proof.
  intros Hsim Hr Hnot. right. exists w. split; [done|]. intros (git & Hg & Hp). apply (Hnot git); [|done].
  by eapply reads_unique.
Qed.

Lemma clean_permitted git :
  (req_git_policy request = RequireClean -> is_some git = true) ->
  bool_decide (req_git_policy request = RequireClean) && negb (changes_found git =? 0) = false -> permitted git.
Proof.
  intros Hsome. case_bool_decide as E; [|by intros _ ?]. cbn [andb]. intros Hz%negb_false_iff%N.eqb_eq _. by split; [apply Hsome|].
Qed.

Lemma prepare_locked_wp w0 w started Q :
  preparing w0 locked w -> w_clock w0 / 1000000 <= u64_max -> (forall git, git_found w0 git -> found git) ->
  (forall w' p, now_prepared w0 started w' p -> Q w' (Ok p)) ->
  (forall w' e, preparing w0 untouched w' -> hindrance w0 -> Q w' (Err e)) ->
  wp durable_world (prepare_locked faults request started (render ws) (map mutation_of ps) (render lock_loc)) w Q.
Proof.
  intros Hw Hclock Hknown HQ HE. pose proof (pr_stage _ _ _ Hw) as Hl. pose proof (common_durable _ (lo_common _ Hl)) as HJ.
  pose proof (preparing_similar _ _ _ lo_common Hw) as Hsim.
  assert (forall stage : fsys -> Prop, (forall fs, stage fs -> common fs) -> forall w', preparing w0 stage w' -> preparing w0 untouched w') as Hall.
  { intros stage Hst w'. apply preparing_mono. intros fs Hfs. apply (cm_untouched _ (Hst _ Hfs)). }
  pose proof (Hall _ lo_common _ Hw) as Hr.
  unfold prepare_locked. destruct (policy_answers w) as ([git|e] & Hreads & Hgit).
  2:{ unfold try_bind at 1. eapply wp_reads; [exact Hreads|exact HJ|]. cbn [wp]. apply HE; [done|]. by eapply similar_hindrance. }
  destruct (Hgit git eq_refl) as [Hsome Hcaptured].
  eapply wp_reads_try; [exact Hreads|exact HJ|]. cbv zeta. fold (changes_found git).
  destruct (bool_decide (req_git_policy request = RequireClean) && negb (changes_found git =? 0)) eqn:Edirty.
  { cbn [wp]. apply HE; [done|]. eapply similar_hindrance; [done|exact Hreads|]. intros g [= <-] Hp.
    apply andb_true_iff in Edirty as [Erc%bool_decide_eq_true Hd]. destruct (Hp Erc) as [_ Hz]. by rewrite Hz in Hd. }
  pose proof (clean_permitted git Hsome Edirty) as Hpermit.
  assert (git_found w0 git) as Hfound by (destruct git; [by exists w|done]).
  apply wp_try. eapply run_dir_wp; [exact Hw|]. intros w1 Hw1. cbv beta iota.
  apply wp_try. eapply layout_wp; [exact Hw1|]. intros w2 Hw2. cbv beta iota.
  apply wp_try. eapply (backup_mutations_wp w0 w2 0 ps); [by rewrite drop_0|lia|exact Hw2| |].
  2:{ intros w' e Hw' Hinj. apply HE; [by eapply Hall, Hw'|by left]. }
  intros w3 Hw3. cbv beta iota. pose proof (sg_common _ _ _ (pr_stage _ _ _ Hw3)) as Hc3.
  assert (w_clock w3 / 1000000 <= u64_max) as Hclock3 by (by rewrite (proj1 (host_clock _ _ (pr_host _ _ _ Hw3)))).
  eapply wp_reads_try; [by apply time_reads|by apply common_durable|].
  fold (manifest_of git (w_clock w3 / 1000000)). destruct (Hmanifest (manifest_of git (w_clock w3 / 1000000))) as [mbytes Hm].
  pose proof (sg_events_dir _ _ _ (pr_stage _ _ _ Hw3)) as Hev. pose proof (real_dir_prefix _ _ _ Hev) as Hrun.
  rewrite !join_render by (done || apply Hrun). unfold write_json_new_atomic. rewrite Hm. cbn [map_err lift]. cbn [try_bind bind].
  apply wp_try, wp_map_err.
  eapply (artifact_wp w0 w3 _ (staged (List.length ps) (Some (mbytes ++ newline)%string)) run_loc MANIFEST_FILE); [exact Hw3|done|done|apply manifest_name|apply run_in_metadata|apply Hw3| |].
  { intros fs' -> Hc'. pose proof (pr_stage _ _ _ Hw3) as [S1 S2 S3 S4 S5 S6 S7 S8]. split; try done.
    - by apply real_dir_insert, missing_not_dir.
    - by apply real_dir_insert, missing_not_dir.
    - by apply file_at_insert.
    - intros i p c Hi Hp Hc. apply file_at_insert; [done|by eapply S5].
    - intros i Hi Him. rewrite lookup_insert_ne by loc_ne. by apply S6.
    - exists (fresh_file w3). apply lookup_insert_eq.
    - intros n. rewrite lookup_insert_ne by loc_ne. apply S8. }
  intros w4 Hw4. cbn [map_err]. fold (unstarted started).
  change {| j_transaction_id := id; j_events_dir := render (run_loc ++ [EVENTS_DIR]); j_started_at := started;
    j_current_state := None; j_next_sequence := 0 |} with (unstarted started).
  pose proof (Hknown git Hfound) as Hfound'.
  eapply wp_bind; [eapply (first_event_wp w0 w4 git (w_clock w3 / 1000000) mbytes started _
    (fun w' r => exists e, r = (journal_at ws id [e] Prepared started, Ok tt) /\
       now_prepared w0 started w' (prepared ws id ps (manifest_of git (w_clock w3 / 1000000)) started [e]))); try done|].
  - by rewrite (proj1 (host_clock _ _ (pr_host _ _ _ Hw4))).
  - intros w' e Hnp. by exists e.
  - intros w5 r (e & -> & Hnp). cbv beta iota. cbn [wp]. by apply HQ.
Qed.

(** ** The mutations *)

Lemma validate_mutations_reads w seen qs :
  (forall p, p ∈ qs -> p ∈ ps) -> NoDup (map (fun p => rel (pl_path p)) qs) ->
  (forall p, p ∈ qs -> rel (pl_path p) ∉ seen) -> common (w_fs w) ->
  reads (validate_mutations (render ws) seen (map mutation_of qs)) w (Ok (map mutation_of qs)).
Proof.
  intros Hin Hnd Hseen Hc. revert seen Hseen. induction qs as [|p qs IH]; intros seen Hseen; [apply reads_ret|].
  cbn [map] in Hnd. apply NoDup_cons in Hnd as [Hp Hnd].
  assert (p ∈ ps) as Hps by (apply Hin; left). pose proof (plan_member p Hps) as Hpok.
  pose proof (proj1 (Forall_forall _ _) (cm_dirs _ Hc) p Hps) as Hdir.
  pose proof (proj1 (Forall_forall _ _) (proj1 (cm_untouched _ Hc)) p Hps) as Hres.
  destruct (restored_content _ _ _ Hres) as [_ Hfile].
  cbn [map validate_mutations mutation_of mutation_path expected_before desired_after].
  rewrite manageable_path by apply Hpok. eapply reads_try; [apply reads_ret|].
  eapply reads_try.
  { intros I Q HI HQ. unfold pl_path. apply validate_target_wp; [done|apply Hpok|exact Hfile|exact HI|exact HQ]. }
  rewrite manageable_portable by apply Hpok. eapply reads_try; [apply reads_ret|].
  assert (existsb (String.eqb (rel (pl_path p))) seen = false) as ->.
  { apply not_true_is_false. rewrite existsb_exists. intros (x & Hx & <-%String.eqb_eq). by apply (Hseen p); [left|apply list_elem_of_In]. }
  rewrite bool_decide_false.
  2:{ intros E. apply (po_distinct p Hpok). by rewrite E. }
  eapply reads_try; [apply IH|apply reads_ret].
  - intros q Hq. apply Hin. by right.
  - done.
  - intros q Hq. apply not_elem_of_cons. split; [|apply Hseen; by right]. intros E. apply Hp. rewrite <- E.
    by apply (list_elem_of_fmap_2 (fun p => rel (pl_path p))).
Qed.

Lemma plan_names_NoDup : NoDup (map (fun p => rel (pl_path p)) ps).
Proof.
  pose proof (StronglySorted_map (fun p => rel (pl_path p)) _ (fun x y => path_cmp x y = Lt) ps (fun p q Hpq => Hpq) (rq_sorted Hrq)) as Hs.
  eapply @StronglySorted_NoDup; [|exact Hs]. intros x Hx. pose proof (path_cmp_flip _ _ Hx). congruence.
Qed.

#[local] Instance mutation_cmp_total : TotalCmp (fun l r => path_cmp (mutation_path l) (mutation_path r)).
Proof. exact (linear_total (fun m => components (mutation_path m)) (list_cmp component_cmp)). Qed.

(** The mutations of the request are accepted, in the order of the plan. *)
Lemma mutations_reads w : common (w_fs w) ->
  reads (validate_and_sort_mutations (render ws) (req_mutations request)) w (Ok (map mutation_of ps)).
Proof.
  intros Hc. destruct (Permutation_map_inv _ _ (rq_mutations Hrq)) as (qs & Hqs & Hperm). rewrite Hqs.
  unfold validate_and_sort_mutations. eapply reads_try.
  - apply validate_mutations_reads; [intros p; by rewrite Hperm|rewrite <- Hperm; apply plan_names_NoDup| |done].
    intros p _. apply not_elem_of_nil.
  - rewrite (sort_by_unique (fun l r => path_cmp (mutation_path l) (mutation_path r)) _ (map mutation_of ps)); [apply reads_ret| | |].
    + intros x y. apply path_cmp_flip.
    + by apply (StronglySorted_map mutation_of _ _ ps (fun p q Hpq => Hpq)), rq_sorted.
    + by rewrite Hperm.
Qed.

(** ** Preparation *)

(** A workspace in which the transaction may start. *)
Record startable (w : world) : Prop := {
  sa_pid : w_pid w = pid;
  sa_tree : fresh_start (w_fs w);
  sa_path : canonicalize w (req_workspace request) = Ok (render ws);
  sa_lock : render lock_loc ∉ w_locks w;
  sa_clock : w_clock w / 1000000 <= u64_max;
}.

Lemma preflight_answers w : similar w w ->
  exists r, reads (git_preflight (render ws) (req_git_policy request)) w r /\ (forall e, r = Err e -> hindrance w).
Proof.
  intros Hsim. unfold git_preflight. case_bool_decide as E; [|exists (Ok tt); by split; [apply reads_ret|]].
  destruct (policy_answers w) as ([git|e] & Hr & Hgit).
  2:{ exists (Err e). split; [eapply reads_bind; [exact Hr|apply reads_ret]|]. intros _ _. by eapply similar_hindrance. }
  destruct (Hgit git eq_refl) as [Hsome _]. specialize (Hsome E). destruct git as [s|]; [|done].
  destruct (change_count s =? 0) eqn:Ec.
  - exists (Ok tt). split; [|done]. eapply reads_try; [exact Hr|]. cbv beta iota. rewrite Ec. apply reads_ret.
  - eexists. split; [eapply reads_try; [exact Hr|]; cbv beta iota; rewrite Ec; apply reads_ret|]. intros _ _.
    eapply similar_hindrance; [done|exact Hr|]. intros g [= <-] Hp. destruct (Hp E) as [_ Hz]. cbn in Hz. by rewrite Hz in Ec.
Qed.

Lemma prepare_transaction_wp w Q :
  startable w -> (forall git, git_found w git -> found git) ->
  (forall w' p, now_prepared w (w_instant w) w' p -> Q w' (Ok p)) ->
  (forall w' e, same_but_tree w w' -> outside_same (w_fs w) (w_fs w') -> all_restored (w_fs w') -> hindrance w -> Q w' (Err e)) ->
  wp durable_world (prepare_transaction faults request) w Q.
Proof.
  intros [Hpid Hf Hpath Hlock Hclock] Hknown HQ HE. pose proof (fs_common _ Hf) as Hc. pose proof (common_durable _ Hc) as HJ.
  pose proof (lk_workspace _ _ (fs_lockable _ Hf)) as Hws.
  assert (similar w w) as Hsim by (split; [done|done|apply Hc]).
  unfold prepare_transaction. eapply wp_sys; [reflexivity|exact HJ|]. cbv beta.
  eapply wp_sys; [cbn [exec]; by rewrite Hpath|exact HJ|]. cbv beta iota.
  unfold path_is_dir. destruct (stat_dir w _ Hws true) as (m & Em & Ht).
  eapply wp_call; [cbn [exec]; by rewrite Em|exact HJ|]. cbn [bind]. unfold is_dir. rewrite Ht. cbn [bool_decide negb]. cbn iota.
  destruct (req_mutations request) as [|m0 ms] eqn:Ems.
  { exfalso. apply (rq_nonempty Hrq). pose proof (rq_mutations Hrq) as Hp. rewrite Ems in Hp. apply Permutation_nil_l in Hp. by destruct ps. }
  rewrite <- Ems. eapply wp_reads_try; [by apply mutations_reads|exact HJ|].
  destruct (preflight_answers w Hsim) as ([[]|e] & Hpre & Hhind).
  2:{ unfold try_bind at 1. eapply wp_reads; [exact Hpre|exact HJ|]. cbn [wp]. apply HE; [done|done|apply Hc|by eapply Hhind]. }
  eapply wp_reads_try; [exact Hpre|exact HJ|].
  apply wp_try, lock_wp; [done|done|done|]. intros w1 Hw1. cbv beta iota.
  eapply wp_bind; [eapply (prepare_locked_wp w w1 _ (fun w' r => match r with
    | Ok p => now_prepared w (w_instant w) w' p
    | Err _ => preparing w untouched w' /\ hindrance w end)); [exact Hw1|done|exact Hknown|by intros|by intros]|].
  intros w2 [p|e] Hend; [by apply HQ|]. destruct Hend as [[Hh2 _ Hl2 Ho2 Hr2] Hhin].
  eapply wp_sys; [reflexivity|by left|]. cbn [wp]. apply HE; [|done|apply Hr2|done]. split; [done|].
  cbn [unlock w_locks set_locks]. rewrite Hl2. set_solver.
Qed.
End Preparation.
