(* ===== verification/Atomicity.v ===== *)
(** * Apply transactions on a file system: atomicity

    A transaction is applied to every target, or to none: whatever Git
    answers, whatever fault is injected before the rollback, and wherever the
    process dies. *)

From stdpp Require Import base list strings gmap.
From Stdlib Require Import NArith Ascii String Lia.
From S2P Require Import Prelude Bytes UnixPath IO World WorldFacts Anyhow Paths GitState Transaction TransactionFs TransactionRun TransactionFacts TransactionWorld RunStore Recovery CrashRecovery Execution Preparation.

Local Open Scope string_scope.
Local Open Scope N_scope.
Local Open Scope list_scope.

Section Atomicity.
Context `{Blake3, TransactionSerde, !TransactionRoundTrip}.
Context (ws : loc) (id : string) (ps : list planned) (request : ApplyTransactionRequest).
Context (Hencode : forall e, exists bytes, event_to_vec e = Ok bytes).
Context (Hmanifest : forall m, exists bytes, manifest_to_vec m = Ok bytes).
Context (Hrq : requested ws id ps request).

Local Abbreviation patch := (req_patch request).
Local Abbreviation lock_loc := (lock_loc ws).
Local Abbreviation restored := (restored ws).
Local Abbreviation applied := (applied ws).
Local Abbreviation outside_same := (outside_same ws ps).
Local Abbreviation all_restored := (all_restored ws ps).
Local Abbreviation manifest_of := (manifest_of ws id ps request).
Local Abbreviation permitted := (permitted request).

(** ** Git

    What Git reports of the workspace depends on nothing but the files
    outside the targets and [.opticcode], and on the targets: two snapshots
    with the targets as before show the same changes outside [.opticcode]. *)

Definition same_tools (w w' : world) : Prop := w_command w' = w_command w /\ w_cwd w' = w_cwd w.

Definition git_stable (w : world) : Prop :=
  forall w1 w2 s1,
    same_tools w w1 -> outside_same (w_fs w) (w_fs w1) -> all_restored (w_fs w1) ->
    same_tools w w2 -> outside_same (w_fs w) (w_fs w2) -> all_restored (w_fs w2) ->
    reads (capture_git_state (render ws)) w1 (Ok s1) ->
    exists s2, reads (capture_git_state (render ws)) w2 (Ok s2) /\ effective_git_changes s1 = effective_git_changes s2.

Lemma host_tools w w' : same_host w w' -> same_tools w w'.
Proof. by intros (? & _ & _ & _ & _ & ?). Qed.

Lemma git_agrees_stable w git created_at w' :
  git_stable w -> git_found ws ps w git -> same_tools w w' -> outside_same (w_fs w) (w_fs w') -> all_restored (w_fs w') ->
  git_agrees (manifest_of git created_at) w'.
Proof.
  intros Hstable Hfound Ht Ho Hr. unfold git_agrees, verify_git_restored. cbn [manifest_of m_git_before m_workspace].
  destruct git as [before|].
  - destruct Hfound as (w1 & [Hh1 Ho1 Hr1] & Hread1).
    destruct (Hstable w1 w' before (host_tools _ _ Hh1) Ho1 Hr1 Ht Ho Hr Hread1) as (after & Hread & E).
    exists (Some true), (Some after). split; [|done]. unfold display. rewrite to_string_lossy_valid by apply Hrq.
    eapply reads_try; [exact Hread|]. rewrite bool_decide_true by done. apply reads_ret.
  - exists None, None. split; [apply reads_ret|done].
Qed.

(** ** The contract

    How a transaction ends: refused with every target as before, committed
    with every target as planned, or rolled back with every target as
    before. *)

(** Why a transaction does not commit: a fault was injected, or Git refused
    at its start, or before its end. *)
Definition hindered (faults : ApplyFaultInjector) (w : world) : Prop :=
  hindrance ws ps request faults w \/
  exists git created_at w1, git_found ws ps w git /\ same_host w w1 /\ outside_same (w_fs w) (w_fs w1) /\ Forall (applied (w_fs w1)) ps /\
    ~ git_accepts (manifest_of git created_at) w1.

(** The run directory is complete and its journal ends in state [s]. *)
Definition journal_ends (w w' : world) (s : ApplyTransactionState) : Prop :=
  exists git created_at evs, permitted git /\ git_found ws ps w git /\
    at_work ws id patch ps (manifest_of git created_at) (w_pid w) (w_fs w) w' evs s.

Inductive transaction_outcome (faults : ApplyFaultInjector) (w w' : world) : res ApplyTransactionResult -> Prop :=
| outcome_refused e :
    all_restored (w_fs w') -> hindered faults w -> transaction_outcome faults w w' (Err e)
| outcome_committed r :
    committed r = true -> modified_files r = map (fun p => rel (pl_path p)) ps -> Forall (applied (w_fs w')) ps ->
    journal_ends w w' Committed -> transaction_outcome faults w w' (Ok r)
| outcome_rolled_back r :
    rolled_back r = true -> operation_success r = false -> all_restored (w_fs w') ->
    journal_ends w w' RolledBack -> hindered faults w -> transaction_outcome faults w w' (Ok r).

Definition start (w : world) : Prop := startable ws id ps request (w_pid w) (w_fs w) w /\ git_stable w.

Definition durable_since (w : world) : fsys -> Prop := durable ws id ps request (w_pid w) (w_fs w) (git_found ws ps w).

Lemma execute_wp faults w :
  start w -> faults AtRollbackStarted = Ok tt -> faults AfterFirstRestore = Ok tt ->
  wp (fun w' => durable_since w (w_fs w')) (execute_apply_transaction_with_faults faults request) w
    (fun w' r => same_but_tree w w' /\ outside_same (w_fs w) (w_fs w') /\ transaction_outcome faults w w' r).
Proof.
  intros [Hst Hstable] Hf1 Hf2. unfold execute_apply_transaction_with_faults. apply wp_try.
  apply (prepare_transaction_wp ws id ps request Hencode Hmanifest Hrq (w_pid w) (w_fs w) (git_found ws ps w) faults); [done|done| |].
  2:{ intros w' e Hsame Ho Hr Hhin. split; [done|]. split; [done|]. constructor; [done|by left]. }
  intros w1 p [[Hh1 Hp1 Hl1 Ho1 Hr1] (git & created_at & e & -> & Hgit & Hfound & Hw1)]. cbv beta iota.
  pose proof (setting_of ws id ps request Hrq git created_at Hgit) as Hset. set (M := manifest_of git created_at) in *.
  change (p_lock (prepared ws id ps M (w_instant w) [e])) with (render lock_loc). unfold with_lock.
  assert (forall fs, safe ws id patch ps M (w_pid w) (w_fs w) fs -> durable_since w fs) as Hdur
    by (intros fs Hs; right; exists git, created_at; done).
  eapply wp_bind.
  { eapply wp_mono; [eapply (execute_prepared_wp ws id patch ps M Hset Hencode (w_pid w) (w_fs w) faults (w_instant w) w1 [e] Hw1 Hr1 Hf1 Hf2)| |].
    - intros w' [Hh' _] Ho' Hr'. apply (git_agrees_stable w); [done|done|apply host_tools; by etransitivity|by etransitivity|done].
    - intros w' Hs. by apply Hdur.
    - intros w' r Hr. exact Hr. }
  cbv beta. intros w2 r (result & -> & [Hh2 Hl2] & Ho2 & Hend).
  assert (safe ws id patch ps M (w_pid w) (w_fs w) (w_fs w2)) as Hsafe.
  { destruct Hend as [(_ & _ & _ & _ & _ & evs & Hw2)|(_ & _ & _ & (evs & Hw2) & _)]; exact (at_work_safe _ _ _ _ _ _ _ _ _ _ Hw2). }
  eapply wp_sys; [reflexivity|by apply Hdur|]. cbn [wp].
  split; [split; [by etransitivity|]|split; [by etransitivity|]].
  { cbn [unlock w_locks set_locks]. rewrite Hl2, Hl1. pose proof (sa_lock _ _ _ _ _ _ _ Hst). set_solver. }
  assert (forall evs s, at_work ws id patch ps M (w_pid w) (w_fs w) w2 evs s -> journal_ends w (unlock w2 (render lock_loc)) s) as Hends.
  { intros evs s [? ? ? ? ? ?]. exists git, created_at, evs. split; [done|]. split; [done|]. by split. }
  destruct Hend as [(Hc & _ & _ & Hm & Ha & evs & Hw2)|(Hrb & Hop & Hr2 & (evs & Hw2) & Hob)].
  - apply outcome_committed; try done. by eapply Hends.
  - apply outcome_rolled_back; try done; [by eapply Hends|].
    destruct Hob as [Hinj|(w3 & [Hh3 _] & Ho3 & Ha3 & Hno)]; [by left; left|right].
    exists git, created_at, w3. split; [done|]. split; [by etransitivity|]. split; [by etransitivity|done].
Qed.

(** ** The theorems *)

(** C1: applying a transaction terminates and fulfils its contract, with any
    faults injected before the rollback and any answers of a Git that depend
    only on the files: it is refused or rolled back with every target's
    content and mode as before, or it is committed with every target as
    planned; it is refused or rolled back only for an injected fault or an
    answer of Git; and the lock, and every other file outside [.opticcode],
    are as before. *)
Theorem execute_atomic faults w :
  start w -> faults AtRollbackStarted = Ok tt -> faults AfterFirstRestore = Ok tt ->
  exists w' r, run (execute_apply_transaction_with_faults faults request) w = (w', Done r) /\
    same_but_tree w w' /\ outside_same (w_fs w) (w_fs w') /\ transaction_outcome faults w w' r.
Proof.
  intros Hw Hf1 Hf2. destruct (wp_run _ _ _ _ (execute_wp faults w Hw Hf1 Hf2)) as (w' & r & Hrun & Hpost). by exists w', r.
Qed.

(** Git accepts the transaction, at its start and before its end. *)
Definition git_willing (w : world) : Prop :=
  (forall w1, similar ws ps w w1 -> git_starts ws request w1) /\
  (forall git created_at w1, git_found ws ps w git -> same_host w w1 -> outside_same (w_fs w) (w_fs w1) ->
     Forall (applied (w_fs w1)) ps -> git_accepts (manifest_of git created_at) w1).

Lemma not_hindered w : git_willing w -> ~ hindered NoFaultInjector w.
Proof.
  intros [Hs Hc] [[(point & e & Hf)|(w1 & Hsim & Hn)]|(git & created_at & w1 & Hfound & Hh & Ho1 & Ha & Hn)]; [done|by apply Hn, Hs|].
  by apply Hn, Hc.
Qed.

(** C19: without faults, and with a Git that accepts it, a transaction
    commits. *)
Theorem execute_commits w :
  start w -> git_willing w ->
  exists w' r, run (execute_apply_transaction request) w = (w', Done (Ok r)) /\ committed r = true /\
    Forall (applied (w_fs w')) ps /\ outside_same (w_fs w) (w_fs w').
Proof.
  intros Hw Hnot%not_hindered. unfold execute_apply_transaction.
  destruct (wp_run _ _ _ _ (execute_wp NoFaultInjector w Hw eq_refl eq_refl)) as (w' & r & Hrun & _ & Ho & Hout).
  destruct Hout as [e _ Hh|r Hr Hm Ha _|r _ _ _ _ Hh]; [done| |done]. by exists w', r.
Qed.

(** The workspace is not in a Git worktree. *)
Definition no_git (w : world) : Prop :=
  forall w1 s, similar ws ps w w1 -> ~ reads (capture_git_state (render ws)) w1 (Ok s).

(** A process that starts later on the same machine, with none of the
    locks of before. *)
Record later_process (w w2 : world) (path : string) : Prop := {
  lp_tools : same_tools w w2;
  lp_path : canonicalize w2 path = Ok (render ws);
  lp_locks : w_locks w2 = ∅;
  lp_clock : w_clock w2 / 1000000 <= u64_max;
}.

Lemma later_ready w git created_at w2 path :
  git_stable w -> git_found ws ps w git -> later_process w w2 path -> no_staging (w_pid w2) (w_fs w2) ->
  outside_same (w_fs w) (w_fs w2) \/ no_git w -> ready ws ps (manifest_of git created_at) w2 path.
Proof.
  intros Hstable Hfound [Ht Hpath Hlocks Hclock] Hst Ho.
  split; [done|rewrite Hlocks; apply not_elem_of_empty|done|done|].
  unfold git_unchanged. cbn [manifest_of m_git_before]. destruct git as [before|]; [|done].
  destruct Hfound as (w3 & [Hh3 Ho3 Hr3] & Hread3).
  destruct Ho as [Ho|Hno]; [|by destruct (Hno w3 before)]. intros w' Hh' Ho' Hr'.
  assert (same_tools w w') as Ht' by (destruct Ht as [T1 T2], (host_tools _ _ Hh') as [T3 T4]; split; congruence).
  apply (Hstable w3 w' before); [by apply host_tools|done|done|done|by transitivity (w_fs w2)|done|done].
Qed.

Lemma later_rollback w git created_at w2 path evs s :
  git_stable w -> permitted git -> git_found ws ps w git -> later_process w w2 path -> no_staging (w_pid w2) (w_fs w2) ->
  outside_same (w_fs w) (w_fs w2) \/ no_git w ->
  run_on ws id patch ps (manifest_of git created_at) (w_fs w2) evs s -> targets_in ws ps s (w_fs w2) ->
  exists w' result, run (rollback_apply_transaction path id) w2 = (w', Done (Ok result)) /\
    rolled_back result = true /\ operation_success result = true /\ all_restored (w_fs w') /\ outside_same (w_fs w2) (w_fs w').
Proof.
  intros Hstable Hgit Hfound Hlater Hst Ho Hrun Ht.
  pose proof (setting_of ws id ps request Hrq git created_at Hgit) as Hset.
  pose proof (later_ready w git created_at w2 path Hstable Hfound Hlater Hst Ho) as Hready.
  destruct (wp_run _ _ _ _ (rollback_wp ws id patch ps _ Hset Hencode w2 path "explicit rollback requested" evs s Hrun Ht Hready (fun _ => eq_refl)))
    as (w' & r & Hrunw & result & -> & R1 & R2 & _ & _ & _ & _ & R3 & R4).
  by exists w', result.
Qed.

(** C2: wherever the process dies while it applies a transaction, either no
    target was changed, or another process with a fresh identifier rolls the
    transaction back from the tree that was left: every target gets its
    content and mode of before the transaction, and nothing else changes
    outside [.opticcode].  With Git this asks that the process did not die
    between the two moves of a staged write, which leaves a staging file
    beside a target. *)
Theorem execute_crash_recovers faults w w1 w2 path :
  start w -> faults AtRollbackStarted = Ok tt -> faults AfterFirstRestore = Ok tt ->
  visits (execute_apply_transaction_with_faults faults request) w w1 ->
  w_fs w2 = w_fs w1 -> later_process w w2 path -> w_pid w2 <> w_pid w -> no_staging (w_pid w2) (w_fs w) ->
  outside_same (w_fs w) (w_fs w1) \/ no_git w ->
  all_restored (w_fs w1) \/
  exists w' result, run (rollback_apply_transaction path id) w2 = (w', Done (Ok result)) /\
    rolled_back result = true /\ operation_success result = true /\ all_restored (w_fs w') /\ outside_same (w_fs w1) (w_fs w').
Proof.
  intros Hw Hf1 Hf2 Hv Hfs Hlater Hpid Hst Ho. pose proof Hw as [Hsa Hstable].
  assert (durable_since w (w_fs w1)) as [[Hr _]|(git & created_at & Hgit & Hfound & (evs & s & Hrun & Ht) & Hfresh)].
  { eapply (always_visits (fun w' => durable_since w (w_fs w'))); [|exact (wp_always _ _ _ _ (execute_wp faults w Hw Hf1 Hf2))|exact Hv].
    apply common_durable, (fs_common _ _ _ _ _ _ (sa_tree _ _ _ _ _ _ _ Hsa)). }
  { by left. }
  right. rewrite <- Hfs in Hrun, Ht, Hfresh, Ho |- *. eapply later_rollback; [done..|by apply Hfresh|done|exact Hrun|exact Ht].
Qed.

(** C17: applying a transaction and undoing it is the identity: a later
    process rolls back what was applied, and every target has its content and
    mode of before, and every other file outside [.opticcode] is as it
    was. *)
Theorem apply_then_undo faults w w1 r w2 path :
  start w -> faults AtRollbackStarted = Ok tt -> faults AfterFirstRestore = Ok tt ->
  run (execute_apply_transaction_with_faults faults request) w = (w1, Done (Ok r)) ->
  w_fs w2 = w_fs w1 -> later_process w w2 path -> w_pid w2 = w_pid w \/ no_staging (w_pid w2) (w_fs w) ->
  exists w' result, run (rollback_apply_transaction path id) w2 = (w', Done (Ok result)) /\
    rolled_back result = true /\ operation_success result = true /\ all_restored (w_fs w') /\ outside_same (w_fs w) (w_fs w').
Proof.
  intros Hw Hf1 Hf2 Hrun Hfs Hlater Hst. pose proof Hw as [Hsa Hstable].
  destruct (wp_run _ _ _ _ (execute_wp faults w Hw Hf1 Hf2)) as (w1' & r' & Hrun' & _ & Ho & Hout).
  rewrite Hrun' in Hrun. injection Hrun as -> ->.
  assert (exists s, journal_ends w w1 s) as (s & git & created_at & evs & Hgit & Hfound & Hw1)
    by (inversion Hout; subst; by eexists).
  assert (no_staging (w_pid w2) (w_fs w2)) as Hst2.
  { rewrite Hfs. destruct (decide (w_pid w2 = w_pid w)) as [E|Hne]; [rewrite E; apply Hw1|].
    destruct Hst as [|Hst]; [done|]. by apply (aw_others _ _ _ _ _ _ _ _ _ _ Hw1). }
  pose proof (aw_run _ _ _ _ _ _ _ _ _ _ Hw1) as Hrun1. pose proof (aw_targets _ _ _ _ _ _ _ _ _ _ Hw1) as Ht1.
  rewrite <- Hfs in Hrun1, Ht1, Ho.
  destruct (later_rollback w git created_at w2 path evs s Hstable Hgit Hfound Hlater Hst2 (or_introl Ho) Hrun1 Ht1)
    as (w' & result & R1 & R2 & R3 & R4 & R5).
  exists w', result. split; [done|]. split; [done|]. split; [done|]. split; [done|by etransitivity].
Qed.

(** ** Exclusion *)

Lemma reads_run {A} (m : IO A) w a : reads m w a -> run m w = (w, Done a).
Proof.
  intros Hm. destruct (wp_run (fun _ => True) m w (fun w' a' => w' = w /\ a' = a)) as (w' & a' & E & -> & ->); [by apply Hm|done].
Qed.

(** A workspace whose lock is held. *)
Record held (w : world) (path : string) : Prop := {
  he_path : canonicalize w path = Ok (render ws);
  he_metadata : real_dir (w_fs w) (metadata_dir ws);
  he_file : exists c a, w_fs w !! lock_loc = Some (File c a);
  he_lock : render lock_loc ∈ w_locks w;
}.

Lemma busy_reads {A} path (k : string -> IO (res A)) w :
  held w path -> reads (lock <-? acquire (render ws) ;; k lock) w (lock_busy ws).
Proof.
  intros [_ Hm Hf Hl]. unfold try_bind. eapply reads_bind; [by apply acquire_refused|apply reads_ret].
Qed.

(** A program that answers and changes nothing. *)
Definition settles {A} (m : IO A) : Prop := still m /\ no_panic m.

Lemma settles_bind {A B} (m : IO A) (f : A -> IO B) : settles m -> (forall a, settles (f a)) -> settles (bind m f).
Proof. intros [Hs Hn] Hf. split; [apply calls_bind|apply no_panic_bind]; try done; intros a; apply Hf. Qed.

Lemma settles_try {A B E} (m : IO (result A E)) (f : A -> IO (result B E)) :
  settles m -> (forall a, settles (f a)) -> settles (try_bind m f).
Proof. intros Hm Hf. apply settles_bind; [done|]. by intros [a|e]. Qed.

Lemma settles_sys {R : Set} (c : syscall R) : quiet c = true -> settles (sys c).
Proof. intros Hc. by split. Qed.

Lemma components_settle current cs : settles (validate_components current cs).
Proof.
  revert current. induction cs as [|c cs IH]; intros current; [done|]. cbn [validate_components]. cbv zeta.
  apply settles_bind; [by apply settles_sys|]. intros [m|e].
  - destruct (metadata_is_link_or_reparse m); [done|]. by destruct (_ || _).
  - destruct (not_found e); [by destruct cs|done].
Qed.

Lemma location_settles workspace relative : settles (validate_target_location workspace relative).
Proof.
  unfold validate_target_location. apply settles_try; [done|]. intros path. cbv zeta.
  apply settles_try; [apply components_settle|]. intros _. destruct (parent _); [|done].
  apply settles_bind; [by apply settles_bind; [apply settles_sys|]|]. intros dir. destruct (negb dir); [done|].
  apply settles_bind; [by apply settles_sys|]. intros [c|e]; [|done]. by destruct (negb _).
Qed.

Lemma mutations_settle workspace mutations : settles (validate_and_sort_mutations workspace mutations).
Proof.
  unfold validate_and_sort_mutations. apply settles_try; [|done]. generalize (@nil string) as seen.
  induction mutations as [|m ms IH]; intros seen; [done|]. cbn [validate_mutations].
  apply settles_try; [done|]. intros path. apply settles_try; [apply location_settles|]. intros _.
  apply settles_try; [done|]. intros portable. destruct (existsb _ _); [done|]. case_bool_decide; [done|].
  by apply settles_try.
Qed.

Lemma preflight_reads workspace policy w : exists r, reads (git_preflight workspace policy) w r.
Proof.
  unfold git_preflight. case_bool_decide as Hp; [|eexists; apply reads_ret].
  destruct (capture_quiet workspace) as [Hs Hn]. destruct (still_reads _ w Hs Hn) as [[s|e] Hr].
  - exists (if change_count s =? 0 then Ok tt else reject Precondition (dirty_message (change_count s))).
    eapply reads_try; [eapply reads_bind; [exact Hr|apply reads_ret]|]. cbv beta iota. destruct (_ =? 0); apply reads_ret.
  - eexists. unfold try_bind, capture_git_for_policy. eapply reads_bind; [eapply reads_bind; [exact Hr|apply reads_ret]|].
    subst policy. cbv beta iota. rewrite bool_decide_eq_false_2 by done. apply reads_ret.
Qed.

Lemma refused_after {A B E} (m : IO A) (f : A -> IO (result B E)) w a :
  reads m w a -> (exists e, reads (f a) w (Err e)) -> exists e, reads (bind m f) w (Err e).
Proof. intros Hm [e Hf]. exists e. by eapply reads_bind. Qed.

Lemma locked_out {A} w path policy mutations (k : list FileMutation -> string -> IO (res A)) :
  held w path -> exists e,
  reads (match mutations with
         | [] => Ret (reject Precondition "transaction must contain at least one file mutation")
         | _ => mutations <-? validate_and_sort_mutations (render ws) mutations ;;
                git_preflight (render ws) policy ;;? (lock <-? acquire (render ws) ;; k mutations lock)
         end) w (Err e).
Proof.
  intros Hheld. destruct mutations as [|m ms]; [eexists; apply reads_ret|].
  destruct (mutations_settle (render ws) (m :: ms)) as [Hs Hn]. destruct (still_reads _ w Hs Hn) as [[sorted|e] Hr].
  2:{ exists e. unfold try_bind at 1. eapply reads_bind; [exact Hr|apply reads_ret]. }
  destruct (preflight_reads (render ws) policy w) as [[[]|e] Hg].
  - eexists. eapply reads_try; [exact Hr|]. eapply reads_try; [exact Hg|]. by eapply busy_reads.
  - exists e. eapply reads_try; [exact Hr|]. unfold try_bind at 1. eapply reads_bind; [exact Hg|apply reads_ret].
Qed.

(** An application of any request is refused, having changed nothing, while
    its workspace is held. *)
Lemma apply_refused w request' faults :
  held w (req_workspace request') -> exists e, reads (execute_apply_transaction_with_faults faults request') w (Err e).
Proof.
  intros Hheld. pose proof Hheld as [Hpath Hm _ _]. assert (real_dir (w_fs w) ws) as Hws by (by eapply real_dir_prefix).
  enough (exists e, reads (prepare_transaction faults request') w (Err e)) as [e He].
  { exists e. unfold execute_apply_transaction_with_faults, try_bind. eapply reads_bind; [exact He|apply reads_ret]. }
  assert (reads (path_is_dir (render ws)) w true) as Hdir.
  { unfold path_is_dir. destruct (stat_dir w _ Hws true) as (m & Em & Ht).
    eapply reads_sys; [cbn [exec]; by rewrite Em|]. unfold is_dir. rewrite Ht. apply reads_ret. }
  unfold prepare_transaction. eapply refused_after; [eapply (reads_sys InstantNow Ret); [reflexivity|apply reads_ret]|].
  eapply refused_after; [eapply (reads_sys (Canonicalize _) Ret); [cbn [exec]; by rewrite Hpath|apply reads_ret]|].
  eapply refused_after; [exact Hdir|]. by eapply locked_out.
Qed.

(** C20: while another process holds the workspace lock, a rollback or a
    recovery, of a transaction with a valid identifier, and an append to the
    index report that the workspace is busy; an application, whatever its
    request for this workspace, is refused: for a reason found before the
    lock is tried, such as a target that fails its validation or a Git state
    its policy forbids, or else because the workspace is busy, which is the
    reason whenever the targets are as planned and Git permits it.  And
    nothing changes, not even below [.opticcode]. *)
Theorem lock_excludes w json faults :
  held w (req_workspace request) ->
  run (rollback_apply_transaction (req_workspace request) id) w = (w, Done (lock_busy ws)) /\
  run (recover_apply_transaction (req_workspace request) id) w = (w, Done (lock_busy ws)) /\
  run (append_apply_log_index (req_workspace request) json) w = (w, Done (lock_busy ws)) /\
  (forall request', req_workspace request' = req_workspace request ->
   exists e, run (execute_apply_transaction_with_faults faults request') w = (w, Done (Err e))) /\
  (common ws ps (w_pid w) (w_fs w) (w_fs w) -> reads (git_preflight (render ws) (req_git_policy request)) w (Ok tt) ->
   run (execute_apply_transaction_with_faults faults request) w = (w, Done (lock_busy ws))).
Proof.
  intros Hheld. pose proof Hheld as [Hpath Hm _ _]. assert (real_dir (w_fs w) ws) as Hws by (by eapply real_dir_prefix).
  assert (forall A (k : string -> IO (res A)), reads (lock <-? acquire (render ws) ;; k lock) w (lock_busy ws)) as Hbusy
    by (intros A k; by eapply busy_reads).
  assert (forall reason, reads (rollback_apply_transaction_with_faults NoFaultInjector (req_workspace request) id reason) w (lock_busy ws)) as Hroll.
  { intros reason. unfold rollback_apply_transaction_with_faults. rewrite (rq_id _ _ _ _ Hrq).
    eapply reads_try; [apply reads_ret|]. eapply reads_sys; [cbn [exec]; by rewrite Hpath|]. apply Hbusy. }
  split; [apply reads_run, Hroll|]. split; [apply reads_run, Hroll|].
  split; [|split; [intros request' Hsame; rewrite <- Hsame in Hheld; destruct (apply_refused w request' faults Hheld) as [e He];
    exists e|intros Hc Hpre]]; apply reads_run.
  - unfold append_apply_log_index. eapply reads_sys; [cbn [exec]; by rewrite Hpath|]. apply Hbusy.
  - exact He.
  - unfold execute_apply_transaction_with_faults, try_bind at 1. eapply reads_bind with (a := lock_busy ws); [|apply reads_ret].
    unfold prepare_transaction. eapply reads_sys; [reflexivity|]. eapply reads_sys; [cbn [exec]; by rewrite Hpath|]. cbv beta iota.
    unfold path_is_dir. destruct (stat_dir w _ Hws true) as (m & Em & Ht).
    eapply reads_bind; [eapply reads_sys; [cbn [exec]; by rewrite Em|apply reads_ret]|]. cbv beta iota. unfold is_dir. rewrite Ht. cbn [bool_decide negb]. cbn iota.
    destruct (req_mutations request) as [|m0 ms] eqn:Ems.
    { exfalso. apply (rq_nonempty _ _ _ _ Hrq). pose proof (rq_mutations _ _ _ _ Hrq) as Hp. rewrite Ems in Hp. apply Permutation_nil_l in Hp. by destruct ps. }
    rewrite <- Ems. eapply reads_try; [by eapply mutations_reads|]. eapply reads_try; [exact Hpre|]. apply Hbusy.
Qed.
End Atomicity.
