(* ===== verification/Demo.v ===== *)
(** * A concrete world

    Toy instances of the third-party functions and a file system with a
    workspace, a Git boundary, a state directory and a clock: the inputs at
    which the theorems with hypotheses are applied, and on which the whole
    engine is executed. *)

From stdpp Require Import base list strings gmap countable.
From Stdlib Require Import NArith Ascii String Lia.
From S2P Require Import Prelude Bytes UnixPath IO World Model Paths AuditLog Approval Rules Worktree Actions Engine WorldFacts.

Local Open Scope string_scope.
Local Open Scope N_scope.

(** ** Hash: 64 hexadecimal digits of a checksum *)

Fixpoint checksum (s : string) (acc : N) : N :=
  match s with
  | EmptyString => acc
  | String c s' => checksum s' ((acc * 257 + byte_n c + 1) mod 1000000007)
  end.

#[export] Instance toy_blake3 : Blake3 := fun s => digits 16 64 (checksum s 7).

#[export] Instance toy_blake3_hex : Blake3Hex.
Proof.
  intros s. unfold blake3_hex, toy_blake3. split; [unfold strlen; by rewrite length_digits|].
  by apply all_hexdigits.
Qed.

(** ** Serialisation: a tree of numbers and strings, written in binary *)

Abbreviation tree := (gen_tree (N + string)).
Definition num (n : N) : tree := GenLeaf (inl n).
Definition str (s : string) : tree := GenLeaf (inr s).

Fixpoint bits_of (p : positive) : string :=
  match p with
  | xH => ""
  | xO q => String "0" (bits_of q)
  | xI q => String "1" (bits_of q)
  end.
Fixpoint of_bits (s : string) : positive :=
  match s with
  | EmptyString => xH
  | String c s' => if Ascii.eqb c "1" then xI (of_bits s') else xO (of_bits s')
  end.

(** What follows the first newline is ignored, as [serde_json] ignores
    trailing white space. *)
Fixpoint until_newline (s : string) : string :=
  match s with
  | EmptyString => EmptyString
  | String c s' => if byte_n c =? 10 then EmptyString else String c (until_newline s')
  end.

Definition write_tree (t : tree) : string := bits_of (encode t).
Definition read_tree (s : string) : option tree := decode (of_bits (until_newline s)).

Lemma of_bits_of p : of_bits (bits_of p) = p.
Proof. induction p; simpl; by f_equal. Qed.

Lemma until_newline_bits p rest : until_newline (bits_of p ++ String (byte 10) rest) = bits_of p.
Proof. induction p; [..|done]; simpl bits_of; rewrite append_cons; cbn [until_newline]; by f_equal. Qed.

Lemma read_write_tree t rest : read_tree (write_tree t ++ String (byte 10) rest) = Some t.
Proof.
  unfold read_tree, write_tree. rewrite until_newline_bits, of_bits_of. apply decode_encode.
Qed.

Definition mode_num (m : PolicyMode) : N :=
  match m with ReadOnly => 0 | WorktreeEdit => 1 | ApprovedApply => 2 end.
Definition num_mode (n : N) : PolicyMode :=
  match n with 0 => ReadOnly | 1 => WorktreeEdit | _ => ApprovedApply end.

Definition binding_tree (b : ApprovalBinding) : tree :=
  GenNode 0 [str (ab_request_id b); str (ab_workspace_id b); str (ab_workspace_root_hash b);
    num (mode_num (ab_mode b)); str (ab_base_head b); str (ab_working_tree_digest b);
    str (ab_diff_hash b); str (ab_files_hash b);
    GenNode 1 (map (fun f => GenNode 2 [str (path_hash f); str (expected_hash f)]) (ab_files b));
    GenNode 3 (map str (ab_action_hashes b)); str (ab_transaction_id b)].

Definition tree_file (t : tree) : ApprovalFileBinding :=
  match t with
  | GenNode 2 [GenLeaf (inr p); GenLeaf (inr e)] => {| path_hash := p; expected_hash := e |}
  | _ => {| path_hash := ""; expected_hash := "" |}
  end.
Definition tree_str (t : tree) : string := match t with GenLeaf (inr s) => s | _ => "" end.

Definition tree_binding (t : tree) : option ApprovalBinding :=
  match t with
  | GenNode 0 [GenLeaf (inr a); GenLeaf (inr b); GenLeaf (inr c); GenLeaf (inl d); GenLeaf (inr e);
               GenLeaf (inr f); GenLeaf (inr g); GenLeaf (inr h); GenNode 1 fs; GenNode 3 hs;
               GenLeaf (inr i)] =>
      Some {| ab_request_id := a; ab_workspace_id := b; ab_workspace_root_hash := c;
              ab_mode := num_mode d; ab_base_head := e; ab_working_tree_digest := f;
              ab_diff_hash := g; ab_files_hash := h; ab_files := map tree_file fs;
              ab_action_hashes := map tree_str hs; ab_transaction_id := i |}
  | _ => None
  end.

Lemma tree_binding_tree b : tree_binding (binding_tree b) = Some b.
Proof.
  destruct b as [? ? ? m ? ? ? ? files hashes ?]; simpl. f_equal. rewrite !map_map. simpl.
  f_equal; [by destruct m|..].
  - induction files as [|[] fs IH]; simpl; [done|by rewrite IH].
  - induction hashes as [|? hs IH]; simpl; [done|by rewrite IH].
Qed.

Definition record_tree (r : ApprovalRecord) : tree :=
  GenNode 4 [num (ar_schema_version r); num (ar_issued_unix_ms r); num (ar_expires_unix_ms r);
    str (ar_confirmation_hash r); str (ar_binding_hash r); binding_tree (ar_binding r)].
Definition tree_record (t : tree) : option ApprovalRecord :=
  match t with
  | GenNode 4 [GenLeaf (inl a); GenLeaf (inl b); GenLeaf (inl c); GenLeaf (inr d); GenLeaf (inr e); t'] =>
      match tree_binding t' with
      | Some x => Some {| ar_schema_version := a; ar_issued_unix_ms := b; ar_expires_unix_ms := c;
                          ar_confirmation_hash := d; ar_binding_hash := e; ar_binding := x |}
      | None => None
      end
  | _ => None
  end.

Lemma tree_record_tree r : tree_record (record_tree r) = Some r.
Proof. unfold record_tree, tree_record. cbn [num str]. rewrite tree_binding_tree. by destruct r. Qed.

#[export] Instance toy_approval_serde : ApprovalSerde := {|
  record_to_vec := fun r => Ok (write_tree (record_tree r));
  record_from_slice := fun s => match read_tree s with Some t => tree_record t | None => None end;
  binding_to_vec := fun b => Ok (write_tree (binding_tree b));
|}.

(** ** Audit events, leases, actions and requests *)

Definition risk_num (r : RiskLevel) : N :=
  match r with Low => 0 | Medium => 1 | High => 2 | Critical => 3 end.
Definition num_risk (n : N) : RiskLevel :=
  match n with 0 => Low | 1 => Medium | 2 => High | _ => Critical end.
Definition origin_num (o : ActionOrigin) : N :=
  match o with User => 0 | Chat => 1 | Extension => 2 | Cli => 3 | Recovery => 4 | OriginModel => 5 | UnknownOrigin => 6 end.
Definition num_origin (n : N) : ActionOrigin :=
  match n with 0 => User | 1 => Chat | 2 => Extension | 3 => Cli | 4 => Recovery | 5 => OriginModel | _ => UnknownOrigin end.
Definition opt_tree (o : option string) : tree :=
  GenNode 5 (match o with Some s => [str s] | None => [] end).
Definition tree_opt (t : tree) : option string :=
  match t with GenNode 5 [GenLeaf (inr s)] => Some s | _ => None end.

Definition event_tree (e : AuditEvent) : tree :=
  GenNode 6 [num (ev_schema_version e); str (ev_event_id e); num (ev_timestamp_unix_ms e);
    str (ev_request_id e); str (ev_action_id_hash e); str (ev_action_kind e); str (ev_action_hash e);
    str (ev_rule_id e); str (ev_decision e); num (risk_num (ev_risk e)); str (ev_workspace_hash e);
    num (origin_num (ev_origin e)); str (ev_approval_state e); opt_tree (ev_approval_hash e);
    opt_tree (ev_transaction_hash e); str (ev_result e); num (ev_duration_us e)].
Definition tree_event (t : tree) : option AuditEvent :=
  match t with
  | GenNode 6 [GenLeaf (inl a); GenLeaf (inr b); GenLeaf (inl c); GenLeaf (inr d); GenLeaf (inr e);
               GenLeaf (inr f); GenLeaf (inr g); GenLeaf (inr h); GenLeaf (inr i); GenLeaf (inl j);
               GenLeaf (inr k); GenLeaf (inl l); GenLeaf (inr m); n; o; GenLeaf (inr p); GenLeaf (inl q)] =>
      Some {| ev_schema_version := a; ev_event_id := b; ev_timestamp_unix_ms := c; ev_request_id := d;
              ev_action_id_hash := e; ev_action_kind := f; ev_action_hash := g; ev_rule_id := h;
              ev_decision := i; ev_risk := num_risk j; ev_workspace_hash := k;
              ev_origin := num_origin l; ev_approval_state := m; ev_approval_hash := tree_opt n;
              ev_transaction_hash := tree_opt o; ev_result := p; ev_duration_us := q |}
  | _ => None
  end.

#[export] Instance toy_audit_serde : AuditSerde := {|
  event_to_vec := fun e => Some (write_tree (event_tree e));
  event_from_slice := fun s => match read_tree s with Some t => tree_event t | None => None end;
|}.

(** One field per line. *)
#[export] Instance toy_lease_serde : LeaseSerde := fun s =>
  match split_on (byte 10) s with
  | [run; owner; request; root; project; commit; path] =>
      Some {| lw_schema_version := 1; lw_run_id := run; lw_owner_workspace_id := owner;
              lw_owner_request_id := request; lw_process_id := 1; lw_created_unix_ms := 0;
              lw_source_git_root := root; lw_source_project := project; lw_source_commit := commit;
              lw_worktree_path := path |}
  | _ => None
  end.

Definition action_text (a : PolicyAction) : list string :=
  action_kind a ::
  match a with
  | ReadFileAction t | ReadDirectory t | WriteFile t | CreateFile t => [pt_root t; pt_path t]
  | DeleteFile d => [pt_root (da_target d); pt_path (da_target d)]
  | ApplyPatch p => [ap_root p; ap_diff_hash p; ap_files_hash p; ap_transaction_id p; ap_base_head p]
                    ++ ap_paths p ++ ap_created_paths p
  | RunProcess p => rp_executable p :: rp_cwd p :: rp_arguments p
  | GitCommit c => [gc_repository_root c; gc_tree_hash c; gc_message_hash c]
  | _ => []
  end.

Definition request_text (r : PolicyRequest) : list string :=
  [rq_request_id r; rq_action_id r; PolicyMode_as_str (rq_mode r); workspace_id (rq_workspace r);
   workspace_root (rq_workspace r); default "" (working_tree_digest (rq_workspace r));
   default "" (rq_approval_id r)] ++ action_text (rq_action r).

#[export] Instance toy_engine_serde : EngineSerde := {|
  action_to_vec := fun a => Ok (join_with ";" (action_text a));
  request_to_vec := fun r => Ok (join_with ";" (request_text r));
  files_to_vec := fun fs => Ok (join_with ";" (flat_map (fun f => [path_hash f; expected_hash f]) fs));
|}.

(** ** The world *)

Definition d : node := Dir 4096 (Attributes (Some 5) (Some 5) 16877).
Definition f (content : string) : node := File content (Attributes (Some 6) (Some 6) 33188).
Definition commit : string := "0123456789abcdef0123456789abcdef01234567".
Definition newline : string := String (byte 10) "".

Definition lease_text : string :=
  join_with newline ["run1"; "ws"; "req"; "/repo"; "/repo"; commit; "/tmp/opticcode-worktrees/runs/run1"].

Definition demo_fs : fsys := list_to_map [
  (["repo"], d); (["repo"; "src"], d); (["repo"; "src"; "A.java"], f "class A {}");
  (["repo"; "mvnw"], f "wrapper"); (["repo"; "link"], Link "/etc" no_attributes);
  (["repo"; ".git"], d); (["repo"; ".git"; "index"], f "index"); (["repo"; ".git"; "objects"], d);
  (["repo"; ".git"; "worktrees"], d); (["repo"; ".git"; "worktrees"; "run1"], d);
  (["repo"; ".git"; "worktrees"; "run1"; "commondir"], f ("../.." ++ newline));
  (["tmp"], d); (["tmp"; "opticcode-worktrees"], d); (["tmp"; "opticcode-worktrees"; "runs"], d);
  (["tmp"; "opticcode-worktrees"; "leases"], d);
  (["tmp"; "opticcode-worktrees"; "leases"; "run1.json"], f lease_text);
  (["tmp"; "opticcode-worktrees"; "runs"; "run1"], d);
  (["tmp"; "opticcode-worktrees"; "runs"; "run1"; ".git"], f ("gitdir: /repo/.git/worktrees/run1" ++ newline));
  (["tmp"; "opticcode-worktrees"; "runs"; "run1"; "mvnw"], f "wrapper");
  (["tmp"; "opticcode-worktrees"; "runs"; "run1"; "src"], d);
  (["tmp"; "opticcode-worktrees"; "runs"; "run1"; "src"; "A.java"], f "class A {}");
  (["etc"], d); (["etc"; "passwd"], f "root"); (["var"], d); (["var"; "state"], d)].

(** No program can be run. *)
Definition no_command : fsys -> string -> list string -> string -> io output :=
  fun _ _ _ _ => Err enoent.

Definition demo_world : world :=
  World demo_fs [] 1722470400000000000 1000
    [Ok "abcdefghijkl"; Ok "mnopqrstuvwx"; Ok "yzabcdefghij"; Ok "klmnopqrstuv"; Ok "wxyzabcdefgh";
     Ok "ijklmnopqrst"; Ok "uvwxyzabcdef"; Ok "ghijklmnopqr"] 4242 0 ∅ ∅ 0 ∅ no_processes no_command.

Definition demo_hash : string := "00112233445566778899aabbccddeeff00112233445566778899aabbccddeeff".

Definition demo_boundary : GitRepositoryBoundary := {|
  grb_worktree_root := "/repo"; grb_git_dir := "/repo/.git"; grb_common_dir := "/repo/.git";
  grb_index := "/repo/.git/index"; grb_object_dir := "/repo/.git/objects"; grb_head := commit;
  grb_main_worktree := true |}.

Definition demo_worktree : ActiveWorktree := {|
  aw_run_id := "run1"; aw_owner_workspace_id := "ws"; aw_owner_request_id := "req";
  aw_root := "/tmp/opticcode-worktrees/runs/run1"; aw_source_root := "/repo"; aw_base_head := commit;
  aw_git_dir := "/repo/.git/worktrees/run1"; aw_common_dir := "/repo/.git" |}.

Definition demo_request (mode : PolicyMode) (action : PolicyAction) (approval : option string) : PolicyRequest := {|
  rq_schema_version := POLICY_SCHEMA_VERSION; rq_protocol := POLICY_PROTOCOL_ID;
  rq_request_id := "req"; rq_action_id := "act-1"; rq_origin := Extension; rq_profile := "default";
  rq_client := {| client_name := "opticcode-cli"; client_version := "0.1.0" |};
  rq_mode := mode;
  rq_workspace := {| workspace_id := "ws"; workspace_root := "/repo"; repository := Some demo_boundary;
    active_worktree := Some demo_worktree; working_tree_digest := Some demo_hash;
    repository_clean := Some true |};
  rq_action := action;
  rq_approval_id := approval |}.

Definition source_file (root : string) : PathTarget :=
  {| pt_root := root; pt_path := "src/A.java"; pt_range := None; pt_expected_hash := None |}.
Definition worktree_root : string := "/tmp/opticcode-worktrees/runs/run1".

Definition demo_patch (root : string) : PolicyAction := ApplyPatch {|
  ap_root := root; ap_paths := ["src/A.java"]; ap_created_paths := ["src/B.java"];
  ap_diff_hash := demo_hash; ap_files_hash := demo_hash; ap_transaction_id := "tx-1";
  ap_base_head := commit |}.

Definition demo_build (arguments : list string) (network : NetworkIntent) : PolicyAction := RunProcess {|
  rp_executable := "mvnw"; rp_arguments := arguments; rp_cwd := worktree_root; rp_timeout_ms := 60000;
  rp_output_limit_bytes := 65536; rp_network := network; rp_launch := Direct;
  rp_environment_allowlist := ["CI"; "JAVA_HOME"] |}.

Definition demo_commit (tree_hash : string) : PolicyAction := GitCommit {|
  gc_repository_root := "/repo"; gc_tree_hash := tree_hash; gc_message_hash := demo_hash |}.

(** The engine's stores, created by [PolicyEngine_open]. *)
Definition demo_engine : PolicyEngine := {|
  audit := {| state_root := "/var/state"; workspaces_dir := "/var/state/policy-v1/audit/workspaces" |};
  approvals := {| active_dir := "/var/state/policy-v1/approvals/active";
                  used_dir := "/var/state/policy-v1/approvals/used" |} |}.
Definition opened_world : world := fst (run (PolicyEngine_open "/var/state") demo_world).

Definition decision_in {E} (o : outcome (result PolicyPreflight E)) : option PolicyDecision :=
  match o with Done (Ok pf) => Some (rep_decision (pf_report pf)) | _ => None end.
Definition rule_in {E} (o : outcome (result PolicyPreflight E)) : option (string * string) :=
  option_map (fun d => (decision_kind d, decision_rule_id d)) (decision_in o).

(** ** The engine executed *)

Example open_demo :
  snd (run (PolicyEngine_open "/var/state") demo_world) = Done (Ok demo_engine).
Proof. vm_compute. reflexivity. Qed.

Definition explain_rule (mode : PolicyMode) (action : PolicyAction) : option (string * string) :=
  rule_in (eval (explain demo_engine (demo_request mode action None)) opened_world).

Example explain_read : explain_rule ReadOnly (ReadFileAction (source_file "/repo")) =
  Some ("allow", "read.safe_workspace_file").
Proof. vm_compute. reflexivity. Qed.
Example explain_link : explain_rule ReadOnly (ReadFileAction
    {| pt_root := "/repo"; pt_path := "link/passwd"; pt_range := None; pt_expected_hash := None |}) =
  Some ("deny", "path.symlink_or_reparse").
Proof. vm_compute. reflexivity. Qed.
Example explain_write : explain_rule WorktreeEdit (WriteFile (source_file worktree_root)) =
  Some ("allow", "write.active_worktree").
Proof. vm_compute. reflexivity. Qed.
Example explain_write_original : explain_rule WorktreeEdit (WriteFile (source_file "/repo")) =
  Some ("deny", "write.original_requires_apply").
Proof. vm_compute. reflexivity. Qed.
Example explain_apply : explain_rule ApprovedApply (demo_patch "/repo") =
  Some ("require_approval", "apply.original_requires_approval").
Proof. vm_compute. reflexivity. Qed.
Example explain_build : explain_rule WorktreeEdit (demo_build ["--offline"; "test"] NetDenied) =
  Some ("allow", "process.build_offline").
Proof. vm_compute. reflexivity. Qed.
Example explain_push : explain_rule ApprovedApply
    (GitPush {| gw_repository_root := "/repo"; gw_operation := GitBranch; gw_paths := [] |}) =
  Some ("deny", "git.push_denied").
Proof. vm_compute. reflexivity. Qed.

(** Maven's joined form of a refused option is not refused. *)
Example explain_joined_option :
  explain_rule WorktreeEdit (demo_build ["--offline"; "--file"; "../other/pom.xml"; "test"] NetDenied) =
    Some ("deny", "process.option_denied") /\
  explain_rule WorktreeEdit (demo_build ["--offline"; "--file=../other/pom.xml"; "test"] NetDenied) =
    Some ("allow", "process.build_offline").
Proof. split; vm_compute; reflexivity. Qed.

(** A trailing separator makes the inspection of a root follow a link. *)
Example inspect_linked_root :
  eval (inspect_root "/repo/link") demo_world =
    Done (fail "path.root_reparse" "workspace root must be a real directory") /\
  eval (inspect_root "/repo/link/") demo_world = Done (Ok "/etc").
Proof. split; vm_compute; reflexivity. Qed.

(** Issue a grant for the patch on the original workspace, then use it. *)
Definition demo_confirmation : NativeConfirmation := {| nc_client := "vscode"; nc_confirmation_id := "c-1" |}.

Definition grant_id {E} (o : outcome (result ApprovalGrant E)) : string :=
  match o with Done (Ok g) => ag_approval_id g | _ => "" end.

(** The rules of the checks of [requests], one after the other. *)
Fixpoint check_rules (requests : list PolicyRequest) (w : world) : list (option (string * string)) :=
  match requests with
  | [] => []
  | request :: rest =>
      let '(w', o) := run (check demo_engine request) w in rule_in o :: check_rules rest w'
  end.

(** Issue for the patch, then check the actions in turn with the grant. *)
Definition story (actions : list PolicyAction) : list (option (string * string)) :=
  let '(w, o) := run (issue_approval demo_engine (demo_request ApprovedApply (demo_patch "/repo") None)
                        demo_confirmation 600) opened_world in
  match o with
  | Done (Ok g) =>
      check_rules (map (fun a => demo_request ApprovedApply a (Some (ag_approval_id g))) actions) w
  | _ => []
  end.

Example approved_once : story [demo_patch "/repo"; demo_patch "/repo"] =
  [Some ("allow", "approval.one_shot"); Some ("deny", "approval.reused")].
Proof. vm_compute. reflexivity. Qed.

(** Another action cannot use the grant, and burns it. *)
Example approval_drift : story [demo_commit demo_hash; demo_patch "/repo"] =
  [Some ("deny", "approval.files_drift"); Some ("deny", "approval.reused")].
Proof. vm_compute. reflexivity. Qed.
