(* ===== verification/EditDemo.v ===== *)
(** * A concrete edit

    A workspace with one file, a plan that edits it, the intent that allows
    the plan, and toy instances of the regular expressions and of the JSON
    writer: the inputs at which the theorems about edits are applied. *)

From stdpp Require Import base list strings gmap.
From Stdlib Require Import NArith Ascii String Sorted Lia.
From S2P Require Import Prelude Bytes Text TextFacts UnixPath IO World Paths Anyhow Secrets RagPolicy Reference EditPlan EditIntent EditRuntime ProposalStore Demo ReferenceFacts EditPlanFacts EditIntentFacts ProposalFacts.

Local Open Scope string_scope.
Local Open Scope N_scope.

(** Only a text that starts with an AWS key prefix is found to match. *)
#[export] Instance toy_regex : Regex := fun pattern text => if starts_with "AKIA" text then Some 0 else None.
#[export] Instance toy_regex_boundary : RegexBoundary.
Proof. intros pattern text i. unfold regex_find, toy_regex. destruct (starts_with _ _); [by intros [= <-]|done]. Qed.

#[export] Instance toy_intent_serde : IntentSerde := {|
  edit_intent_from_str := fun _ => Err "not supported";
  edit_intent_to_string := fun i => Ok (i_intent_id i ++ i_task i ++ join_with "," (map target_path (i_targets i)));
  binding_payload_to_vec := fun b => Ok (bp_intent_id b ++ bp_intent_hash b ++ join_with "," (map target_path (bp_targets b))) |}.

Definition demo_text : string := "hello world" ++ String line_feed "".
Definition edit_world : world :=
  World (<[["w"] := Dir 0 no_attributes]> {[ ["w"; "notes.txt"] := File demo_text no_attributes ]})
    ["w"] 5000000 0 [] 77 3 ∅ ∅ 0 ∅ no_processes (fun _ _ _ _ => Err enoent).

Definition demo_hash : string := blake3_hex demo_text.
Definition demo_oid : string := "0123456789abcdef0123456789abcdef01234567".

Definition replacing (start end_ : N) (old text : string) : EditOperation := Modify {|
  m_path := "notes.txt"; m_expected_file_hash := demo_hash; m_encoding := Utf8; m_line_ending := Lf;
  m_range := {| br_start := start; br_end := end_ |}; m_expected_old := old; m_replacement := text;
  m_reason := "requested"; m_symbol := None; m_provenance := ["user"] |}.

Definition edit_world_plan : EditPlan := {|
  p_schema_version := 1; p_plan_id := "plan-1"; p_request_id := "request-1"; p_workspace_id := "workspace-1";
  p_workspace_root_hash := demo_hash; p_profile := "default"; p_provider := Ollama; p_model := "model";
  p_base_head := demo_oid; p_working_tree_digest := demo_hash; p_context_used := []; p_user_references := [];
  p_summary := "greet louder"; p_rationale_summary := "as requested";
  p_operations := [replacing 11 11 "" "!"; replacing 0 5 "hello" "HELLO"];
  p_validations := [ReparseJava; BuildOffline]; p_risks := []; p_limitations := []; p_limits := hard_maxima;
  p_expires_at_unix_ms := 1000 |}.

Definition edit_world_expectations : EditPlanExpectations := {|
  x_request_id := "request-1"; x_plan_id := "plan-1"; x_workspace_id := "workspace-1"; x_workspace_root := "/w";
  x_workspace_root_hash := demo_hash; x_profile := "default"; x_provider := Ollama; x_model := "model";
  x_base_head := demo_oid; x_working_tree_digest := demo_hash; x_now_unix_ms := 5; x_limits := hard_maxima |}.

(** The plan is accepted on this world, and its snapshot is the edited
    text. *)
Definition accepted_text : outcome (option (list string)) :=
  match eval (validate_edit_plan edit_world_plan edit_world_expectations) edit_world with
  | Done (Ok v) => Done (Some (map f_proposed_content (v_files v)))
  | Done (Err _) => Done None
  | Panicked s => Panicked s
  end.
Example edit_accepted : accepted_text = Done (Some ["HELLO world!" ++ String line_feed ""]).
Proof. vm_compute. reflexivity. Qed.

Lemma edit_world_plan_text : plan_text_ok edit_world_plan.
Proof. repeat constructor. Qed.

(** Two spellings of one path are two groups, hence two snapshots of the one
    file, each of one of the changes. *)
Definition spelled_world : world :=
  World (<[["w"] := Dir 0 no_attributes]> (<[["w"; "src"] := Dir 0 no_attributes]> {[ ["w"; "src"; "a.txt"] := File demo_text no_attributes ]}))
    ["w"] 5000000 0 [] 77 3 ∅ ∅ 0 ∅ no_processes (fun _ _ _ _ => Err enoent).

Definition spelled (path : string) (start end_ : N) (old text : string) : EditOperation := Modify {|
  m_path := path; m_expected_file_hash := demo_hash; m_encoding := Utf8; m_line_ending := Lf;
  m_range := {| br_start := start; br_end := end_ |}; m_expected_old := old; m_replacement := text;
  m_reason := "requested"; m_symbol := None; m_provenance := ["user"] |}.

Definition spelled_plan : EditPlan := {|
  p_schema_version := 1; p_plan_id := "plan-1"; p_request_id := "request-1"; p_workspace_id := "workspace-1";
  p_workspace_root_hash := demo_hash; p_profile := "default"; p_provider := Ollama; p_model := "model";
  p_base_head := demo_oid; p_working_tree_digest := demo_hash; p_context_used := []; p_user_references := [];
  p_summary := "greet louder"; p_rationale_summary := "as requested";
  p_operations := [spelled "src/a.txt" 11 11 "" "!"; spelled "src//a.txt" 0 5 "hello" "HELLO"];
  p_validations := [ReparseJava; BuildOffline]; p_risks := []; p_limitations := []; p_limits := hard_maxima;
  p_expires_at_unix_ms := 1000 |}.

Definition spelled_snapshots : outcome (option (list (string * string))) :=
  match eval (validate_edit_plan spelled_plan edit_world_expectations) spelled_world with
  | Done (Ok v) => Done (Some (map (fun f => (f_path f, f_proposed_content f)) (v_files v)))
  | Done (Err _) => Done None
  | Panicked s => Panicked s
  end.

Example one_file_described_twice :
  spelled_snapshots = Done (Some [("src//a.txt", "HELLO world" ++ String line_feed "");
                                  ("src/a.txt", "hello world!" ++ String line_feed "")]).
Proof. vm_compute. reflexivity. Qed.

(** ** Witnesses of the theorems about plans *)

Lemma safe_reference_observes_witness :
  read_only (read_safe_workspace_file "/w" "notes.txt" 1024) /\ no_panic (read_safe_workspace_file "/w" "notes.txt" 1024).
Proof. apply safe_reference_observes. Defined.

Lemma validated_plan_splices_witness :
  must (An := any_answer) (validate_edit_plan edit_world_plan edit_world_expectations) (ok_post (fun v =>
    v_plan v = edit_world_plan
    /\ Forall2 (group_snapshot edit_world_plan) (group_operations (p_operations edit_world_plan)) (v_files v))).
Proof. apply validated_plan_splices, edit_world_plan_text. Defined.

Lemma validated_snapshots_typed_witness :
  must (An := any_answer) (validate_edit_plan edit_world_plan edit_world_expectations) (ok_post (fun v =>
    Forall snapshot_ok (v_files v) /\ StronglySorted str_lt_prop (map f_path (v_files v)))).
Proof. apply validated_snapshots_typed, edit_world_plan_text. Defined.

Lemma validated_plan_bounded_witness :
  must (An := any_answer) (validate_edit_plan edit_world_plan edit_world_expectations) (ok_post (fun v =>
    1 <= list_len (p_operations edit_world_plan) <= 64
    /\ list_len (v_files v) <= 5
    /\ list_len (List.filter is_creation (p_operations edit_world_plan)) <= 1
    /\ Forall (fun f => strlen (f_proposed_content f) <= 524288) (v_files v)
    /\ v_estimated_added_lines v = sum_N (map added_of (p_operations edit_world_plan)) /\ v_estimated_added_lines v <= 1500
    /\ v_estimated_deleted_lines v = sum_N (map deleted_of (p_operations edit_world_plan)) /\ v_estimated_deleted_lines v <= 1500
    /\ v_estimated_added_lines v + v_estimated_deleted_lines v <= 2000
    /\ v_total_snapshot_bytes v = sum_N (map both_bytes (v_files v)) /\ v_total_snapshot_bytes v <= 4194304)).
Proof. apply validated_plan_bounded, edit_world_plan_text. Defined.

Lemma validate_edit_plan_observes_witness :
  read_only (validate_edit_plan edit_world_plan edit_world_expectations)
  /\ no_panic (validate_edit_plan edit_world_plan edit_world_expectations).
Proof. apply validate_edit_plan_observes, edit_world_plan_text. Defined.

Lemma replacements_order_irrelevant_witness :
  apply_replacements demo_text (sort_by reverse_range_cmp [replacing 11 11 "" "!"; replacing 0 5 "hello" "HELLO"])
  = apply_replacements demo_text (sort_by reverse_range_cmp [replacing 0 5 "hello" "HELLO"; replacing 11 11 "" "!"]).
Proof.
  apply replacements_order_irrelevant; [apply perm_swap|].
  apply NoDup_cons; split; [|apply NoDup_cons; split; [apply not_elem_of_nil|constructor]].
  intros Hin. apply list_elem_of_singleton in Hin. discriminate.
Defined.

(** ** An intent for two files *)

Definition demo_targets : list EditIntentTarget :=
  [ExistingFile "notes.txt" demo_hash [] ResolvedReference; ExistingFile "b.txt" demo_hash ["r2"; "r1"] UserReference].
Definition demo_intent_of (targets : list EditIntentTarget) : EditIntent := {|
  i_schema_version := 1; i_intent_id := "intent-1"; i_request_id := "request-1"; i_workspace_id := "workspace-1";
  i_workspace_root_hash := demo_hash; i_base_head := demo_oid; i_working_tree_digest := demo_hash;
  i_task := "greet louder"; i_selection_mode := Hybrid; i_targets := targets;
  i_constraints := modify_only hard_maxima; i_created_at_unix_ms := 1000; i_expires_at_unix_ms := 100000 |}.
Definition demo_intent : EditIntent := demo_intent_of demo_targets.
Definition demo_intent' : EditIntent :=
  demo_intent_of [ExistingFile "b.txt" demo_hash ["r1"; "r2"] UserReference; ExistingFile "notes.txt" demo_hash [] ResolvedReference].
Definition demo_intent_expectations : EditIntentExpectations := {|
  ix_request_id := "request-1"; ix_workspace_id := "workspace-1"; ix_workspace_root_hash := demo_hash;
  ix_base_head := demo_oid; ix_working_tree_digest := demo_hash; ix_now_unix_ms := 2000; ix_limits := hard_maxima;
  ix_allowed_existing_targets := [
    {| ae_path := "notes.txt"; ae_content_hash := demo_hash; ae_reference_ids := [] |};
    {| ae_path := "b.txt"; ae_content_hash := demo_hash; ae_reference_ids := ["r1"; "r2"; "r3"] |}];
  ix_allowed_create_targets := [] |}.

Definition ok_or_default {A E} (d : A) (r : result A E) : A := match r with Ok a => a | Err _ => d end.
Definition demo_validated : ValidatedEditIntent :=
  ok_or_default {| vi_intent := demo_intent; vi_intent_hash := ""; vi_canonical_json := "" |}
    (validate_edit_intent demo_intent demo_intent_expectations).

Lemma demo_intent_accepted : validate_edit_intent demo_intent demo_intent_expectations = Ok demo_validated.
Proof. vm_compute. reflexivity. Qed.
Lemma demo_intent'_accepted : validate_edit_intent demo_intent' demo_intent_expectations = Ok demo_validated.
Proof. vm_compute. reflexivity. Qed.

Lemma intent_order_irrelevant_witness : demo_validated = demo_validated.
Proof.
  apply (intent_order_irrelevant demo_intent demo_intent' demo_intent_expectations);
    [|apply demo_intent_accepted|apply demo_intent'_accepted].
  repeat split; try reflexivity. apply perm_swap.
Defined.

Definition demo_binding : ProposalIntentBinding :=
  ok_or_default {| b_schema_version := 0; b_intent_id := ""; b_intent_hash := ""; b_binding_hash := ""; b_request_id := "";
    b_workspace_id := ""; b_workspace_root_hash := ""; b_base_head := ""; b_working_tree_digest := ""; b_task_hash := "";
    b_selection_mode := Hybrid; b_targets := []; b_constraints := modify_only hard_maxima; b_created_at_unix_ms := 0;
    b_expires_at_unix_ms := 0 |} (from_validated demo_validated).
Lemma demo_binding_made : from_validated demo_validated = Ok demo_binding.
Proof. vm_compute. reflexivity. Qed.

Lemma binding_round_trip_witness :
  validate_binding demo_binding = Ok tt
  /\ b_targets demo_binding = canonicalize_targets (i_targets demo_intent)
  /\ b_constraints demo_binding = canonicalize_constraints (i_constraints demo_intent)
  /\ b_intent_hash demo_binding = vi_intent_hash demo_validated.
Proof.
  apply (binding_round_trip demo_intent demo_intent_expectations); [apply demo_intent_accepted|apply demo_binding_made].
Defined.

(** The plan of this world, as validated, against the intent. *)
Definition demo_snapshot : ProposalFileSnapshot := {|
  f_path := "notes.txt"; f_status := Modified; f_encoding := Utf8; f_line_ending := Lf;
  f_base_content := Some demo_text; f_base_hash := Some demo_hash;
  f_proposed_content := "HELLO world!" ++ String line_feed "";
  f_proposed_hash := blake3_hex ("HELLO world!" ++ String line_feed ""); f_proposed_bytes := 13 |}.
Definition demo_validated_plan : ValidatedEditPlan := {|
  v_plan := {|
    p_schema_version := 1; p_plan_id := "plan-1"; p_request_id := "request-1"; p_workspace_id := "workspace-1";
    p_workspace_root_hash := demo_hash; p_profile := "default"; p_provider := Ollama; p_model := "model";
    p_base_head := demo_oid; p_working_tree_digest := demo_hash; p_context_used := []; p_user_references := [];
    p_summary := "greet louder"; p_rationale_summary := "as requested"; p_operations := p_operations edit_world_plan;
    p_validations := [ReparseJava; BuildOffline]; p_risks := []; p_limitations := [];
    p_limits := no_creation hard_maxima; p_expires_at_unix_ms := 1000 |};
  v_files := [demo_snapshot]; v_estimated_added_lines := 2; v_estimated_deleted_lines := 1;
  v_total_snapshot_bytes := 25 |}.

Lemma authority_equivalent_witness :
  validate_edit_plan_against_intent demo_validated_plan demo_validated
  = validate_edit_plan_against_binding demo_validated_plan demo_binding.
Proof.
  apply (authority_equivalent demo_validated_plan demo_intent demo_intent_expectations);
    [apply demo_intent_accepted|apply demo_binding_made].
Defined.

Lemma binding_authorizes_witness :
  authorized demo_validated_plan (b_request_id demo_binding) (b_workspace_id demo_binding)
    (b_workspace_root_hash demo_binding) (b_base_head demo_binding) (b_working_tree_digest demo_binding)
    (b_targets demo_binding) (b_constraints demo_binding).
Proof. apply binding_authorizes. vm_compute. reflexivity. Defined.

(** ** A history *)

Definition applied_history : list ProposalState :=
  [Generated; Validated; WorktreePrepared; WorktreeApplied; BuildRunning; Verified; ApprovalPending; Applying; Applied;
   RollingBack; RolledBack].
Lemma applied_history_reachable : reachable applied_history.
Proof.
  change applied_history with (((((((((([Generated; Validated] ++ [WorktreePrepared]) ++ [WorktreeApplied]) ++ [BuildRunning])
    ++ [Verified]) ++ [ApprovalPending]) ++ [Applying]) ++ [Applied]) ++ [RollingBack]) ++ [RolledBack])%list).
  repeat (eapply reachable_step; [|reflexivity|reflexivity]). apply reachable_created.
Qed.

Lemma history_passes_milestones_witness :
  sublist [Generated; Validated; WorktreePrepared; WorktreeApplied; BuildRunning; Verified; Applying; Applied; RollingBack; RolledBack]
    applied_history.
Proof. apply (history_passes_milestones applied_history RolledBack); [apply applied_history_reachable|reflexivity]. Defined.

Lemma terminal_states_final_witness : Forall (eq RolledBack) [RolledBack; RolledBack].
Proof.
  apply (terminal_states_final applied_history [RolledBack; RolledBack] RolledBack);
    [|reflexivity|reflexivity|apply applied_history_reachable].
  change (applied_history ++ [RolledBack; RolledBack])%list with ((applied_history ++ [RolledBack]) ++ [RolledBack])%list.
  repeat (eapply reachable_step; [|reflexivity|reflexivity]). apply applied_history_reachable.
Defined.
