(* ===== verification/ChatFacts.v ===== *)
(** * What the chat runtime guarantees

    Every step of the runtime only adds events, and none of them is terminal
    if those of the chat edits are not: so a request gets one terminal event,
    its last.  The text of a grounded
    answer is shown after its validation, in chunks that make up the answer. *)

From stdpp Require Import base list strings gmap.
From Stdlib Require Import NArith ZArith Ascii String Sorted Lia.
From S2P Require Import World Demo EditDemo EditPlan GroundingFacts DocumentProofs Prelude Bytes Model UnixPath IO Paths AuditLog Approval Rules Worktree Engine GitState Text Anyhow TextFacts Secrets RagPolicy Reference.
From S2P Require Import Grounding DocumentFacts Compliance ChatProtocol ChatValidation ChatReferences ChatRuntime.

Local Open Scope string_scope.
Local Open Scope N_scope.

Section Emitting.
Context {An : Answers} `{Floats, Delivery}.

(** An event that is not terminal, and of a kind. *)
Definition silent (K : ChatProtocolEventPayload -> bool) (e : ChatProtocolEvent) : Prop :=
  is_terminal (ev_payload e) = false /\ K (ev_payload e) = true.
Definition any_kind (payload : ChatProtocolEventPayload) : bool := true.
Definition textless (payload : ChatProtocolEventPayload) : bool := match payload with TokenDelta _ => false | _ => true end.

(** The numbers of some events, in units of [u64]: from [start] on, strictly
    ascending, less than [n] further. *)
Definition counter_modulus : N := u64_max + 1.
Definition numbered (start n : N) (events : list ChatProtocolEvent) : Prop := exists ks,
  Forall2 (fun e k => ev_sequence e = (start + k) mod counter_modulus) events ks
  /\ StronglySorted N.lt ks /\ Forall (fun k => k < n) ks.

Lemma numbered_nil start n : numbered start n [].
Proof. exists []. split_and!; constructor. Qed.

Lemma numbered_app start n start' n' l l' :
  start' mod counter_modulus = (start + n) mod counter_modulus -> numbered start n l -> numbered start' n' l' ->
  numbered start (n + n') (l ++ l')%list.
Proof.
  intros Hs (ks & Hf & Hk & Hb) (ks' & Hf' & Hk' & Hb'). exists (ks ++ map (N.add n) ks')%list. split_and!.
  - apply Forall2_app; [done|]. clear -Hf' Hs. induction Hf' as [|e k l ks He Hl IH]; [constructor|].
    simpl. constructor; [|done]. rewrite He, <- N.Div0.add_mod_idemp_l, Hs, N.Div0.add_mod_idemp_l. f_equal. lia.
  - clear -Hk Hk' Hb. induction Hk as [|k ks Hk IH Hlt]; simpl.
    + clear Hb. induction Hk' as [|k ks Hk IH Hlt]; simpl; constructor; [done|].
      apply Forall_fmap. eapply Forall_impl; [exact Hlt|]. intros x Hx. simpl. lia.
    + inversion_clear Hb. constructor; [by apply IH|]. apply Forall_app. split; [done|].
      apply Forall_fmap, Forall_true. intros x. simpl. lia.
  - apply Forall_app. split; [eapply Forall_impl; [exact Hb|]; simpl; lia|].
    apply Forall_fmap. eapply Forall_impl; [exact Hb'|]. intros x Hx. simpl in *. lia.
Qed.

(** [em'] is [em] after some more events, delivered in order and numbered, of
    which each satisfies [P]. *)
Definition extends (P : ChatProtocolEvent -> Prop) (em em' : ChatEventEmitter) : Prop :=
  em_request_id em' = em_request_id em /\ em_terminal em' = em_terminal em
  /\ exists n new, em_delivered em' = (em_delivered em ++ new)%list /\ Forall P new
     /\ em_sequence em' mod counter_modulus = (em_sequence em + n) mod counter_modulus
     /\ numbered (em_sequence em) n new.

#[export] Instance extends_preorder P : PreOrder (extends P).
Proof.
  split.
  - intros em. split_and!; [done..|]. exists 0, []. rewrite app_nil_r, N.add_0_r. split_and!; [done|constructor|done|apply numbered_nil].
  - intros a b c (H1 & H2 & n & l & Hl & HP & Hs & Hn) (H1' & H2' & n' & l' & Hl' & HP' & Hs' & Hn').
    split_and!; [congruence..|]. exists (n + n'), (l ++ l')%list. split_and!.
    + by rewrite Hl', Hl, app_assoc.
    + by apply Forall_app.
    + rewrite Hs', <- N.Div0.add_mod_idemp_l, Hs, N.Div0.add_mod_idemp_l. f_equal. lia.
    + by eapply numbered_app.
Qed.

(** One attempt at an event moves the counter by one, and delivers it or not. *)
Definition attempted (em : ChatEventEmitter) (t : bool) (delivered : list ChatProtocolEvent) : ChatEventEmitter := {|
  em_request_id := em_request_id em; em_sequence := (em_sequence em + 1) mod counter_modulus;
  em_terminal := t; em_started := em_started em; em_delivered := delivered |}.

Lemma attempt_failed P em t : t = em_terminal em -> extends P em (attempted em t (em_delivered em)).
Proof.
  intros ->. split_and!; [done..|]. cbn [em_delivered em_sequence attempted]. exists 1, [].
  rewrite N.Div0.mod_mod, app_nil_r. split_and!; [done|constructor|done|apply numbered_nil].
Qed.

Lemma attempt_delivered (P : ChatProtocolEvent -> Prop) em t event : P event -> t = em_terminal em ->
  ev_sequence event = em_sequence em -> em_sequence em < counter_modulus ->
  extends P em (attempted em t (em_delivered em ++ [event])%list).
Proof.
  intros HP -> Hseq Hlt. split_and!; [done..|]. cbn [em_delivered em_sequence attempted]. exists 1, [event].
  rewrite N.Div0.mod_mod. split_and!; [done|by apply Forall_singleton|done|]. exists [0]. split_and!.
  - constructor; [|constructor]. rewrite N.add_0_r, N.mod_small by done. done.
  - repeat constructor.
  - repeat constructor; lia.
Qed.

(** A step that keeps the emitter open and adds silent events of a kind. *)
Definition open (em : ChatEventEmitter) : Prop := em_terminal em = false /\ em_sequence em < counter_modulus.
Definition quiet (K : ChatProtocolEventPayload -> bool) {A} (m : chat A) : Prop :=
  forall em, open em -> must (m em) (fun p => extends (silent K) em p.1 /\ open p.1).

Section Quiet.
Context (K : ChatProtocolEventPayload -> bool).

Lemma quiet_ret {A} (r : run A) : quiet K (chat_ret r).
Proof. intros em Hem. simpl. split; [reflexivity|done]. Qed.

Lemma quiet_io {A} (m : IO (run A)) : quiet K (chat_io m).
Proof.
  intros em Hem. unfold chat_io. eapply (must_bind _ _ (fun _ => True)); [by apply must_true|]. intros r _. simpl.
  split; [reflexivity|done].
Qed.

Lemma quiet_do {A} (m : IO A) : quiet K (chat_do m).
Proof.
  intros em Hem. unfold chat_do. eapply (must_bind _ _ (fun _ => True)); [by apply must_true|]. intros r _. simpl.
  split; [reflexivity|done].
Qed.

Lemma quiet_bind {A B} (m : chat A) (k : A -> chat B) : quiet K m -> (forall a, quiet K (k a)) -> quiet K (chat_bind m k).
Proof.
  intros Hm Hk em Hem. unfold chat_bind. eapply must_bind; [by apply Hm|].
  intros [em' [a|e]] [He Ho]; simpl in *; [|done].
  eapply must_mono; [by apply Hk|]. intros p [Hp Hp']. split; [by etransitivity|done].
Qed.

Lemma emit_silent payload em : open em -> is_terminal payload = false -> K payload = true ->
  must (emit payload em) (fun p => extends (silent K) em p.1 /\ open p.1).
Proof.
  intros [Hem Hseq] Hp HK. unfold emit. destruct (validate_bounds payload); [|simpl; split; [reflexivity|done]]. rewrite Hem.
  unfold elapsed_ms. cbn [bind sys must]. intros now _. rewrite Hp.
  assert ((em_sequence em + 1) mod counter_modulus < counter_modulus) by by apply N.mod_lt.
  destruct (deliver _); cbn [must fst]; (split; [|by split]); [by apply attempt_delivered|by apply attempt_failed].
Qed.

Lemma quiet_send payload : is_terminal payload = false -> K payload = true -> quiet K (send payload).
Proof.
  intros Hp HK em Hem. unfold send. eapply must_bind; [by apply emit_silent|]. intros p He. exact He.
Qed.

Lemma quiet_each {A} (f : A -> chat unit) l : (forall x, quiet K (f x)) -> quiet K (send_each f l).
Proof. intros Hf. induction l as [|x l IH]; [apply quiet_ret|]. apply quiet_bind; auto. Qed.

End Quiet.

Lemma quiet_any K {A} (m : chat A) : quiet K m -> quiet any_kind m.
Proof.
  intros Hm em Hem. eapply must_mono; [by apply Hm|]. intros p [(H1 & H2 & n & new & Hd & Hs & Hn) Ho].
  split; [|done]. split_and!; [done..|]. exists n, new. split_and!; [done| |by apply Hn..].
  eapply Forall_impl; [exact Hs|]. intros e [He _]. done.
Qed.

Lemma quiet_emit_chunks fuel text : quiet any_kind (emit_chunks fuel text).
Proof.
  revert text. induction fuel as [|fuel IH]; intros text; cbn [emit_chunks]; destruct (is_empty text); try apply quiet_ret.
  cbv zeta. destruct (_ =? 0)%nat; [apply quiet_ret|]. apply quiet_bind; [by apply quiet_send|]. intros _. apply IH.
Qed.

Lemma quiet_emit_text text : quiet any_kind (emit_text text).
Proof. apply quiet_emit_chunks. Qed.

(** *** What is delivered of one event and of a text *)

Lemma send_outcome payload em : open em -> is_terminal payload = false ->
  must (send payload em) (fun p => open p.1
    /\ match p.2 with
       | Ok _ => exists event, ev_payload event = payload /\ em_delivered p.1 = (em_delivered em ++ [event])%list
       | Err _ => em_delivered p.1 = em_delivered em
       end).
Proof.
  intros [Hem Hlt] Hp. unfold send, emit. destruct (validate_bounds payload); [|by split]. rewrite Hem.
  unfold elapsed_ms. cbn [bind sys must]. intros now _. rewrite Hp.
  assert ((em_sequence em + 1) mod counter_modulus < counter_modulus) by by apply N.mod_lt.
  destruct (deliver _); cbn [bind must fst snd map_err]; (split; [by split|]); [|done].
  eexists. split; [|reflexivity]. done.
Qed.

Lemma boundary_before_le s end_ : (boundary_before s end_ <= end_)%nat.
Proof. induction end_ as [|e IH]; [done|]. cbn [boundary_before]. destruct (is_char_boundary _ _); lia. Qed.

(** The chunks of a text that were delivered, and what is left of it. *)
Definition chunked (text : string) (new : list ChatProtocolEvent) (rest : string) : Prop := exists chunks,
  map ev_payload new = map TokenDelta chunks /\ text = String.concat "" chunks ++ rest
  /\ Forall (fun c => c <> "" /\ strlen c <= OUTPUT_CHUNK_BYTES) chunks.

Lemma emit_chunks_outcome fuel text em : open em ->
  must (emit_chunks fuel text em) (fun p => open p.1 /\ exists new rest,
    em_delivered p.1 = (em_delivered em ++ new)%list /\ chunked text new rest
    /\ match p.2 with Ok _ => rest = "" | Err _ => True end).
Proof.
  revert text em. induction fuel as [|fuel IH]; intros text em Ho; cbn [emit_chunks];
    assert (chunked text [] text) as Hnone by (by exists []);
    destruct (is_empty text) eqn:Ht; try apply String.eqb_eq in Ht; cbn [chat_ret must fst snd].
  - split; [done|]. exists [], text. by rewrite app_nil_r.
  - split; [done|]. exists [], text. by rewrite app_nil_r.
  - split; [done|]. exists [], text. by rewrite app_nil_r.
  - set (n := boundary_before _ _). destruct (n =? 0)%nat eqn:Hn; cbn [chat_ret must fst snd].
    { split; [done|]. exists [], text. by rewrite app_nil_r. }
    apply Nat.eqb_neq in Hn. assert ((n <= String.length text)%nat /\ N.of_nat n <= OUTPUT_CHUNK_BYTES) as [Hnt Hnc].
    { unfold n. pose proof (boundary_before_le text (N.to_nat (N.min (strlen text) (N.min OUTPUT_CHUNK_BYTES MAX_CHAT_EVENT_TEXT_BYTES)))).
      unfold strlen in *. lia. }
    unfold chat_bind. eapply must_bind; [by apply send_outcome|]. intros [em1 [[]|e]] [Ho1 Hd]; cbn [fst snd] in *.
    + destruct Hd as (event & He & Hd). eapply must_mono; [by apply IH|].
      intros [em2 r] [Ho2 (new & rest & Hd2 & (chunks & Hc & Htext & Hall) & Hr)]; cbn [fst snd] in *.
      split; [done|]. exists (event :: new), rest. split; [by rewrite Hd2, Hd, <- app_assoc|]. split; [|done].
      exists (take_bytes n text :: chunks). cbn [map]. rewrite He, Hc, concat_cons, append_assoc, <- Htext, app_take_drop_bytes.
      split; [done|]. split; [done|]. constructor; [|done].
      assert (strlen (take_bytes n text) = N.of_nat n) as Hlen by (unfold strlen; rewrite length_take_bytes; lia).
      split; [|by rewrite Hlen]. intros E. rewrite E in Hlen. unfold strlen in Hlen. simpl in Hlen. lia.
    + cbn [must fst snd]. split; [done|]. exists [], text. by rewrite Hd, app_nil_r.
Qed.

(** *** The whole text *)

Lemma boundary_before_found s n m : (n <= m)%nat -> is_char_boundary s (N.of_nat n) = true -> (n <= boundary_before s m)%nat.
Proof.
  intros Hn Hb. induction m as [|m IH]; [simpl; lia|]. cbn [boundary_before].
  destruct (is_char_boundary s (N.of_nat (S m))) eqn:E; [lia|]. apply IH.
  assert (n <> S m) by (intros ->; congruence). lia.
Qed.

Lemma boundary_before_boundary s m : is_char_boundary s (N.of_nat (boundary_before s m)) = true.
Proof.
  induction m as [|m IH]; [apply char_boundary_iff; split; [unfold strlen; simpl; lia|by left]|]. cbn [boundary_before].
  by destruct (is_char_boundary s (N.of_nat (S m))) eqn:E.
Qed.

(** A valid text has a boundary within its first four bytes. *)
Lemma first_boundary s m : utf8_valid s = true -> s <> "" -> (4 <= m)%nat -> (0 < boundary_before s (Nat.min (String.length s) m))%nat.
Proof.
  intros Hv Hs Hm. destruct s as [|c s]; [done|]. pose proof (utf8_step_pos c s) as Hp. pose proof (utf8_step_le (String c s)) as Hle.
  rewrite utf8_valid_cons in Hv. destruct (utf8_step (String c s)) as [n ok] eqn:E. cbn [fst snd] in *.
  apply andb_true_iff in Hv as [-> Hv]. pose proof (utf8_step_shape _ _ _ E) as (_ & Hn & _).
  enough (n <= boundary_before (String c s) (Nat.min (String.length (String c s)) m))%nat by lia.
  apply boundary_before_found; [lia|]. apply char_boundary_iff. split; [unfold strlen; lia|].
  right. rewrite Nat2N.id. by apply utf8_valid_starts.
Qed.

Definition whole_chunks (text : string) (new : list ChatProtocolEvent) : Prop := exists chunks,
  map ev_payload new = map TokenDelta chunks /\ String.concat "" chunks = text
  /\ Forall (fun c => c <> "" /\ strlen c <= OUTPUT_CHUNK_BYTES /\ utf8_valid c = true) chunks.

Lemma send_text text em : (forall n, deliver n = Ok tt) -> open em -> strlen text <= OUTPUT_CHUNK_BYTES ->
  must (send (TokenDelta text) em) (fun p => open p.1 /\ p.2 = Ok tt
    /\ exists event, ev_payload event = TokenDelta text /\ em_delivered p.1 = (em_delivered em ++ [event])%list).
Proof.
  intros Hd [Hem Hlt] Ht. unfold send, emit. assert (validate_bounds (TokenDelta text) = Ok tt) as Hv.
  { unfold validate_bounds. cbn [event_text is_some_and]. unfold OUTPUT_CHUNK_BYTES in Ht.
    destruct (MAX_CHAT_EVENT_TEXT_BYTES <? strlen text) eqn:E; [|done]. apply N.ltb_lt in E. unfold MAX_CHAT_EVENT_TEXT_BYTES in E. lia. }
  rewrite Hv, Hem, Hd. unfold elapsed_ms. cbn [bind sys must fst snd map_err]. intros now _.
  split; [split; [done|by apply N.mod_lt]|]. split; [done|]. eexists. split; [|reflexivity]. done.
Qed.

Lemma emit_chunks_whole fuel text em : (forall n, deliver n = Ok tt) -> (String.length text <= fuel)%nat -> utf8_valid text = true ->
  open em -> must (emit_chunks fuel text em) (fun p => p.2 = Ok tt /\ exists new,
    em_delivered p.1 = (em_delivered em ++ new)%list /\ whole_chunks text new).
Proof.
  intros Hd. revert text em. induction fuel as [|fuel IH]; intros text em Hl Hv Ho; cbn [emit_chunks];
    (destruct (is_empty text) eqn:Ht; [apply String.eqb_eq in Ht as ->; cbn [chat_ret must fst snd]; split; [done|];
      exists []; rewrite app_nil_r; split; [done|]; by exists []|]); apply String.eqb_neq in Ht.
  { destruct text; [done|simpl in Hl; lia]. }
  pose proof (first_boundary text (N.to_nat OUTPUT_CHUNK_BYTES) Hv Ht) as Hb.
  cbv zeta. replace (N.to_nat (N.min (strlen text) (N.min OUTPUT_CHUNK_BYTES MAX_CHAT_EVENT_TEXT_BYTES)))
    with (Nat.min (String.length text) (N.to_nat OUTPUT_CHUNK_BYTES))
    by (unfold strlen, OUTPUT_CHUNK_BYTES, MAX_CHAT_EVENT_TEXT_BYTES; lia).
  set (m := Nat.min _ _) in *. pose proof (boundary_before_le text m) as Hbm. pose proof (boundary_before_boundary text m) as Hbb.
  set (n := boundary_before text m) in *. assert (0 < n)%nat as Hn by (apply Hb; unfold OUTPUT_CHUNK_BYTES; lia).
  destruct (n =? 0)%nat eqn:E; [apply Nat.eqb_eq in E; lia|].
  destruct (utf8_boundary_split text (N.of_nat n) Hv Hbb) as [Hv1 Hv2]. rewrite Nat2N.id in Hv1, Hv2.
  assert (strlen (take_bytes n text) = N.of_nat n) as Hlen by (unfold strlen, m in *; rewrite length_take_bytes; lia).
  assert (N.of_nat n <= OUTPUT_CHUNK_BYTES) as Hmax by (unfold m in *; lia).
  unfold chat_bind. eapply must_bind; [apply send_text; [done..|by rewrite Hlen]|].
  intros [em1 r] (Ho1 & Hr & event & He & Hd1); cbn [fst snd] in *. subst r.
  eapply must_mono; [apply IH; [rewrite length_drop_bytes; lia|done..]|].
  intros [em2 r] (Hr & new & Hd2 & chunks & Hc & Htext & Hall); cbn [fst snd] in *. subst r. split; [done|].
  exists (event :: new). split; [by rewrite Hd2, Hd1, <- app_assoc|]. exists (take_bytes n text :: chunks).
  cbn [map]. rewrite He, Hc, concat_cons, Htext, app_take_drop_bytes. split_and!; [done..|]. constructor; [|done].
  split_and!; [|by rewrite Hlen|done]. intros Hz. rewrite Hz in Hlen. unfold strlen in Hlen. simpl in Hlen. lia.
Qed.

(** Every valid text is shown in full to a receiver that accepts the
    events: the call succeeds, and its chunks, none empty, none above 16 KiB,
    each valid UTF-8 of its own, make up the text. *)
Theorem text_arrives text em (Hd : forall n, deliver n = Ok tt) (Hv : utf8_valid text = true) (Ho : open em) :
  must (emit_text text em) (fun p => p.2 = Ok tt /\ exists new,
    em_delivered p.1 = (em_delivered em ++ new)%list /\ whole_chunks text new).
Proof. by apply emit_chunks_whole. Qed.
End Emitting.

(** A step that is made of quiet ones is quiet. *)
Ltac quiet :=
  repeat match goal with
  | |- forall _, _ => intro
  | |- quiet _ (chat_bind _ _) => apply quiet_bind
  | |- quiet _ (send (let '(_, _) := ?x in _)) => destruct x
  | |- quiet _ (send _) => apply quiet_send; [reflexivity|first [reflexivity|assumption]]
  | |- quiet _ (send_each _ _) => apply quiet_each
  | |- quiet _ (chat_ret _) => apply quiet_ret
  | |- quiet _ (chat_io _) => apply quiet_io
  | |- quiet _ (chat_do _) => apply quiet_do
  | |- quiet _ (emit_text _) => apply quiet_emit_text
  | |- quiet _ (if ?b then _ else _) => destruct b
  | |- quiet _ (match ?x with _ => _ end) => destruct x
  | |- quiet _ (let '(_, _) := ?x in _) => destruct x
  | |- quiet _ (cancelled_at _ _) => apply quiet_ret
  | H : context [quiet] |- _ => first [apply H | eapply quiet_any, H]
  end.

Section Runtime.
Context {An : Answers} `{Floats, Delivery, Blake3, Regex, Unicode, Yaml, Json, XmlParser, ResponseSerde, PromptSerde, StringDebug}.
Context `{WalkDir, ChatTools, LeaseSerde, AuditSerde, ApprovalSerde, EngineSerde, !AssistantRuns}.

Lemma quiet_unless_cancelled stage message : quiet textless (unless_cancelled stage message).
Proof. unfold unless_cancelled. quiet. Qed.

Lemma quiet_validate prepared response route : quiet textless (validate_grounded_answer prepared response route).
Proof. unfold validate_grounded_answer. quiet. Qed.

Lemma quiet_deliver request prepared route response generations started :
  quiet any_kind (deliver_answer request prepared route response generations started).
Proof. unfold deliver_answer. pose proof quiet_validate. quiet. Qed.

(** *** Grounded answers *)

(** What the runtime tells before an answer is shown: the evidence and the
    compliance of the answer, both in order. *)
Definition accepted_answer (prepared : PreparedRequest) (response : GroundedResponse) (before : list ChatProtocolEvent) : Prop :=
  exists compliance,
    GroundingValidationCompleted (validate_evidence response (pp_manifest prepared) (pp_evidence_mode prepared)) compliance
      ∈ map ev_payload before
    /\ ev_valid (validate_evidence response (pp_manifest prepared) (pp_evidence_mode prepared)) = true
    /\ trim (gr_answer response) <> "" /\ no_internal_text response (pp_snapshots prepared)
    /\ no_other_file response (pp_manifest prepared) (pp_snapshots prepared)
    /\ tokens_supported (pp_user_prompt prepared) response (pp_snapshots prepared).

Definition is_text (payload : ChatProtocolEventPayload) : bool := match payload with TokenDelta _ => true | _ => false end.

(** The events of an answer: some without text; then, once an answer is
    accepted, its text and nothing else, in full when there is an outcome. *)
Definition answered (prepared : PreparedRequest) (em : ChatEventEmitter) (p : ChatEventEmitter * run CommandOutcome) : Prop :=
  exists before new, em_delivered p.1 = (em_delivered em ++ before ++ new)%list
  /\ Forall (fun e => is_text (ev_payload e) = false) before
  /\ match p.2 with
     | Ok outcome => exists response, accepted_answer prepared response before /\ chunked (gr_answer response) new ""
         /\ oc_grounding_response outcome = Some response
     | Err _ => new = [] \/ exists response rest, accepted_answer prepared response before /\ chunked (gr_answer response) new rest
     end.

Lemma quiet_generate app request prepared : quiet textless (generate_grounded_response app request prepared).
Proof. unfold generate_grounded_response. pose proof quiet_unless_cancelled. quiet. Qed.

Lemma quiet_grounded app request prepared options started : quiet any_kind (run_grounded_assistant app request prepared options started).
Proof.
  unfold run_grounded_assistant, answer_with_facts, answer_with_model.
  pose proof quiet_unless_cancelled. pose proof quiet_deliver. pose proof quiet_generate. quiet. intros em Hem. exact I.
Qed.

Lemma quiet_resolve workspace request references r : quiet any_kind (resolve_references workspace request references r).
Proof.
  revert r. induction references as [|reference references IH]; intros r; [apply quiet_ret|].
  cbn [resolve_references]. apply quiet_bind; [|auto]. unfold resolve_one, refuse_reference. quiet.
Qed.

Lemma quiet_prepare request : quiet any_kind (prepare_request request).
Proof. unfold prepare_request, prepare_context. pose proof quiet_resolve. quiet. Qed.

Definition untold_text (l : list ChatProtocolEvent) : Prop := Forall (fun e => is_text (ev_payload e) = false) l.

Lemma textless_outcome {A} (m : chat A) em : quiet textless m -> open em ->
  must (m em) (fun p => open p.1 /\ exists new, em_delivered p.1 = (em_delivered em ++ new)%list /\ untold_text new).
Proof.
  intros Hm Ho. eapply must_mono; [by apply Hm|]. intros p [(_ & _ & n & new & Hd & Hs & _) Ho']. split; [done|].
  exists new. split; [done|]. eapply Forall_impl; [exact Hs|]. intros e [_ He]. by destruct (ev_payload e).
Qed.

Lemma accepted_more prepared response before before' : accepted_answer prepared response before ->
  accepted_answer prepared response (before' ++ before).
Proof.
  intros (c & Hin & Hrest). exists c. split; [|done]. rewrite map_app. apply elem_of_app. by right.
Qed.

(** An answer after events without text *)
Lemma answered_after prepared em em1 l p : em_delivered em1 = (em_delivered em ++ l)%list -> untold_text l ->
  answered prepared em1 p -> answered prepared em p.
Proof.
  intros Hd Hl (before & new & Hp & Hb & Hr). exists (l ++ before)%list, new. split_and!.
  - by rewrite Hp, Hd, !app_assoc.
  - by apply Forall_app.
  - destruct p.2 as [outcome|e].
    + destruct Hr as (response & Ha & Hr). exists response. split; [by apply accepted_more|done].
    + destruct Hr as [->|(response & rest & Ha & Hr)]; [by left|right]. exists response, rest. split; [by apply accepted_more|done].
Qed.

Lemma answered_quiet {A} prepared (m : chat A) k em : open em -> quiet textless m ->
  (forall a em1, open em1 -> must (k a em1) (answered prepared em1)) -> must (chat_bind m k em) (answered prepared em).
Proof.
  intros Ho Hm Hk. unfold chat_bind. eapply must_bind; [by apply textless_outcome|].
  intros [em1 [a|e]] [Ho1 (new & Hd & Hn)]; cbn [fst] in *.
  - eapply must_mono; [by apply Hk|]. intros p. by apply answered_after with (l := new).
  - exists new, []. rewrite app_nil_r. split_and!; [done..|by left].
Qed.

Lemma do_outcome_with {A B} (m : IO A) (k : A -> chat B) em R Q :
  must m R -> (forall a, R a -> must (k a em) Q) -> must (chat_bind (chat_do m) k em) Q.
Proof.
  intros Hm Hk. unfold chat_bind, chat_do. eapply must_bind; [|exact (fun p Hp => Hp)].
  eapply must_bind; [exact Hm|]. exact Hk.
Qed.
Lemma do_outcome {A B} (m : IO A) (k : A -> chat B) em Q : (forall a, must (k a em) Q) -> must (chat_bind (chat_do m) k em) Q.
Proof. intros Hk. apply do_outcome_with with (R := fun _ => True); [by apply must_true|]. intros a _. apply Hk. Qed.

Lemma io_outcome {A B} (m : IO (run A)) (k : A -> chat B) em (Q : _ * run B -> Prop) :
  (forall a, must (k a em) Q) -> (forall e, Q (em, Err e)) -> must (chat_bind (chat_io m) k em) Q.
Proof.
  intros Hk He. unfold chat_bind, chat_io. eapply must_bind; [|exact (fun p Hp => Hp)].
  eapply (must_bind _ _ (fun _ => True)); [by apply must_true|]. intros [a|e] _; [apply Hk|apply He].
Qed.

Lemma validate_outcome prepared response route em : open em ->
  must (validate_grounded_answer prepared response route em) (fun p => open p.1 /\ exists new,
    em_delivered p.1 = (em_delivered em ++ new)%list /\ untold_text new
    /\ match p.2 with Ok _ => accepted_answer prepared response new | Err _ => True end).
Proof.
  intros Ho. unfold validate_grounded_answer. unfold chat_bind at 1. eapply must_bind; [by apply send_outcome|].
  intros [em1 [[]|e]] [Ho1 Hd1]; cbn [must fst snd] in *; [|split; [done|]; exists []; rewrite app_nil_r; split_and!; [done|constructor|done]].
  destruct Hd1 as (started & Hs & Hd1). 
  eapply do_outcome_with; [by apply compliant_answers|]. intros compliance Hc.
  unfold chat_bind at 1. eapply must_bind; [by apply send_outcome|].
  intros [em2 [[]|e]] [Ho2 Hd2]; cbn [must fst snd] in *; [destruct Hd2 as (completed & Hcomp & Hd2)|].
  2:{ split; [done|]. exists [started]. split_and!; [by rewrite Hd2|by repeat constructor; rewrite Hs|done]. }
  unfold chat_bind at 1. eapply must_bind; [apply textless_outcome; [quiet|done]|].
  intros [em3 r] [Ho3 (leak & Hd3 & Hl)]; cbn [must fst snd] in *.
  assert (untold_text (started :: completed :: leak)) as Hu.
  { constructor; [by rewrite Hs|]. constructor; [by rewrite Hcomp|done]. }
  assert (em_delivered em3 = (em_delivered em ++ started :: completed :: leak)%list) as Hd by
    (rewrite Hd3, Hd2, Hd1, <- !app_assoc; done).
  destruct r as [[]|e]; [|split; [done|]; by exists (started :: completed :: leak)].
  destruct (negb _ || negb _) eqn:E.
  - unfold chat_bind. eapply must_bind; [by apply send_outcome|]. intros [em4 r] [Ho4 Hd4]; cbn [must fst snd] in *.
    destruct r as [[]|e]; cbn [chat_ret must fst snd]; (split; [done|]).
    + destruct Hd4 as (failed & Hf & Hd4). exists (started :: completed :: leak ++ [failed])%list. split_and!; [|apply (proj2 (Forall_app _ (started :: completed :: leak) [failed]))|done].
      * by rewrite Hd4, Hd, <- app_assoc.
      * split; [done|]. apply Forall_singleton. by rewrite Hf.
    + exists (started :: completed :: leak). by rewrite Hd4.
  - apply orb_false_iff in E as [Hv Hcc]. apply negb_false_iff in Hv, Hcc. cbn [chat_ret must fst snd]. split; [done|].
    exists (started :: completed :: leak). split_and!; [done..|]. exists compliance. split; [|split; [done|by apply Hc]].
    cbn [map]. rewrite Hcomp. by right; left.
Qed.

Lemma deliver_answered request prepared route response generations started em : open em ->
  must (deliver_answer request prepared route response generations started em) (answered prepared em).
Proof.
  intros Ho. unfold deliver_answer. apply answered_quiet; [done|apply quiet_do|]. clear em Ho. intros now em Ho.
  unfold chat_bind at 1. eapply must_bind; [by apply validate_outcome|].
  intros [em1 [reports|e]] [Ho1 (before & Hd & Hb & Hr)]; cbn [fst snd] in *.
  2:{ exists before, []. rewrite app_nil_r. split_and!; [done..|by left]. }
  assert (forall f, answered prepared em (em1, Err f)) as Hfail.
  { intros f. exists before, []. rewrite app_nil_r. split_and!; [done..|by left]. }
  apply do_outcome. intros validation_ms. apply io_outcome; [|done]. intros _.
  unfold chat_bind at 1. eapply must_bind; [by apply emit_chunks_outcome|].
  intros [em2 [[]|e]] [Ho2 (new & rest & Hd2 & Hc & Hr2)]; cbn [fst snd] in *.
  - subst rest. apply do_outcome. intros metrics. cbn [chat_ret must]. exists before, new.
    rewrite app_assoc, <- Hd. split_and!; [done..|]. exists response. by split_and!.
  - exists before, new. rewrite app_assoc, <- Hd. split_and!; [done..|]. right. by exists response, rest.
Qed.

(** C7: Whatever the model and the file system do, the text of a grounded
    answer is shown only after the runtime announced that its evidence is valid
    and found its compliance.  The answer is not blank.  It repeats a phrase of
    the fixed list of internal ones only if the sources have it.  When the
    manifest's scope is [references_only], and only then, a word of it that
    ends in one of the listed file suffixes is the end of an injected path or
    occurs in the sources.  Every code token of a factual claim is in the
    sources or, for a claim of absence and for the tasks that are queries of a
    document, in the task.  The text is shown in order, in non-empty chunks of
    at most 16 KiB; when the command has an outcome, the chunks are the whole
    answer. *)
Theorem grounded_answer app request prepared options started em (Ho : open em) :
  must (run_grounded_assistant app request prepared options started em) (answered prepared em).
Proof.
  unfold run_grounded_assistant. do 3 (apply answered_quiet; [done|by apply quiet_send|]; clear em Ho; intros _ em Ho).
  apply answered_quiet; [done|apply quiet_unless_cancelled|]. clear em Ho. intros _ em Ho.
  apply answered_quiet; [done|apply quiet_io|]. clear em Ho. intros [facts|] em Ho.
  - unfold answer_with_facts. apply answered_quiet; [done|by apply quiet_send|]. clear em Ho. intros _ em Ho. by apply deliver_answered.
  - unfold answer_with_model. apply answered_quiet; [done|apply quiet_ret|]. clear em Ho. intros model em Ho.
    apply answered_quiet; [done|quiet|]. clear em Ho. intros _ em Ho.
    apply answered_quiet; [done|by apply quiet_send|]. clear em Ho. intros _ em Ho.
    apply answered_quiet; [done|apply quiet_generate|]. clear em Ho. intros generations em Ho.
    destruct (last generations) as [generation|]; [|done].
    apply answered_quiet; [done|apply quiet_ret|]. clear em Ho. intros response em Ho.
    apply answered_quiet; [done|apply quiet_unless_cancelled|]. clear em Ho. intros _ em Ho. by apply deliver_answered.
Qed.

Lemma quiet_assistant_events request next count events : quiet any_kind (assistant_events request next count events).
Proof.
  revert next count. induction events as [|event events IH]; intros next count; [apply quiet_ret|].
  cbn [assistant_events]. destruct (negb _); [apply quiet_ret|]. destruct (_ && _); [apply quiet_ret|].
  apply quiet_bind; [|intros _; apply IH]. unfold translate_assistant_event. quiet.
Qed.

Lemma quiet_assistant request prepared options started : quiet any_kind (run_assistant request prepared options started).
Proof. unfold run_assistant. pose proof quiet_assistant_events. quiet. Qed.

(** ** The terminal event *)

Context (run_chat_edit : option OpticCode -> ChatRequest -> PreparedRequest -> ChatPolicyAuthorization -> ChatRuntimeOptions -> N
                         -> chat CommandOutcome).

(** What the runtime expects of the chat edits: to leave the terminal event to it. *)
Definition quiet_edits : Prop := forall app request prepared authorization options started,
  quiet any_kind (run_chat_edit app request prepared authorization options started).

Lemma quiet_dispatch app request prepared authorization options started : quiet_edits ->
  quiet any_kind (dispatch run_chat_edit app request prepared authorization options started).
Proof.
  intros Hedit. unfold dispatch, run_context_command, run_analyze_command, run_index_command, run_legacy_command,
    run_status_command, run_runs_command, run_help_command, tool.
  pose proof quiet_grounded as Hg. pose proof quiet_assistant as Ha. unfold quiet_edits in Hedit.
  destruct (cq_command request); quiet.
  apply quiet_send; by destruct x as [? [? ?]].
Qed.

Lemma quiet_inner app request options started : quiet_edits -> quiet any_kind (execute_chat_inner run_chat_edit app request options started).
Proof.
  intros Hedit. unfold execute_chat_inner. pose proof quiet_unless_cancelled. pose proof quiet_prepare.
  pose proof (fun a r p u o s => quiet_dispatch a r p u o s Hedit). quiet.
Qed.

(** The events of a request, oldest first, as payloads. *)
Definition payloads (em : ChatEventEmitter) : list ChatProtocolEventPayload := map ev_payload (em_delivered em).

(** The terminal event that a status stands for *)
Definition status_of (status : ChatExecutionStatus) (payload : ChatProtocolEventPayload) : Prop :=
  match status, payload with
  | ExecutionCompleted, Completed _ | ExecutionFailed, Failed _ | ExecutionCancelled, Cancelled _ => True
  | _, _ => False
  end.

(** The answers of a whole call: an open emitter's silent events, then the
    terminal one that the report names; or an error, when some event was not
    delivered.  The events are numbered from zero on. *)
Definition one_terminal (em : ChatEventEmitter) (result : res ChatExecutionReport) : Prop :=
  (exists n, numbered 0 n (em_delivered em))
  /\ exists before, Forall (fun p => is_terminal p = false) before
     /\ match result with
        | Ok report => exists last, payloads em = (before ++ [last])%list /\ status_of (xr_status report) last
        | Err _ => payloads em = before /\ exists n message, deliver n = Err message
        end.

(** An emitter that has told silent events only, numbered from zero on. *)
Definition told (em : ChatEventEmitter) : Prop :=
  Forall (silent any_kind) (em_delivered em)
  /\ exists n, em_sequence em mod counter_modulus = n mod counter_modulus /\ numbered 0 n (em_delivered em).

Lemma told_extends em em' : em_delivered em = [] -> em_sequence em = 0 -> extends (silent any_kind) em em' -> told em'.
Proof.
  intros Hd Hz (_ & _ & n & new & Hnew & Hs & Hseq & Hn). rewrite Hd in Hnew. rewrite Hz in *.
  unfold told. rewrite Hnew. split; [done|]. by exists n.
Qed.

(** What one event does to the emitter: it takes the next number, and is
    delivered, or not. *)
Lemma emit_told payload em : open em -> told em -> validate_bounds payload = Ok tt ->
  must (emit payload em) (fun p =>
    em_terminal p.1 = is_terminal payload /\ em_sequence p.1 < counter_modulus
    /\ (exists n, em_sequence p.1 mod counter_modulus = n mod counter_modulus /\ numbered 0 n (em_delivered p.1))
    /\ match p.2 with
       | Ok _ => exists event, ev_payload event = payload /\ em_delivered p.1 = (em_delivered em ++ [event])%list
       | Err _ => em_delivered p.1 = em_delivered em /\ exists n message, deliver n = Err message
       end).
Proof.
  intros [Hem Hlt] [_ (n & Hn & Hnum)] Hb. unfold emit. rewrite Hb, Hem. unfold elapsed_ms. cbn [bind sys must]. intros now _.
  set (event := Build_ChatProtocolEvent _ _ _ _ _ _).
  assert ((em_sequence em + 1) mod counter_modulus = (n + 1) mod counter_modulus) as Hnext.
  { by rewrite <- N.Div0.add_mod_idemp_l, Hn, N.Div0.add_mod_idemp_l. }
  change (u64_max + 1) with counter_modulus.
  assert (numbered 0 (n + 1) (em_delivered em ++ [event])%list) as Hone.
  { apply (numbered_app 0 n (em_sequence em) 1); [done..|]. exists [0]. split_and!.
    - constructor; [|constructor]. by rewrite N.add_0_r, N.mod_small.
    - repeat constructor.
    - repeat constructor; lia. }
  destruct (deliver (em_sequence em)) eqn:E; cbn [must fst snd em_delivered em_terminal em_sequence];
    (split; [done|split; [by apply N.mod_lt|split]]).
  - exists (n + 1). by rewrite N.Div0.mod_mod.
  - by exists event.
  - exists (n + 1). rewrite N.Div0.mod_mod. split; [done|]. rewrite <- (app_nil_r (em_delivered em)).
    apply (numbered_app 0 n (em_sequence em) 1); [done..|apply numbered_nil].
  - split; [done|eauto].
Qed.

Lemma silent_payloads em : told em -> Forall (fun p => is_terminal p = false) (payloads em).
Proof. intros [Hs _]. unfold payloads. apply Forall_fmap. eapply Forall_impl; [exact Hs|]. by intros e [He _]. Qed.

Lemma untold em e : told em -> (exists n message, deliver n = Err message) -> one_terminal em (Err e).
Proof.
  intros Ht Hd. split; [by destruct Ht as [_ (n & _ & Hn)]; exists n|].
  exists (payloads em). split; [by apply silent_payloads|done].
Qed.

Lemma finish_terminal payload status state em :
  open em -> told em -> status_of status payload -> validate_bounds payload = Ok tt ->
  must (finish payload status state em) (fun p => one_terminal p.1 p.2).
Proof.
  intros Ho Ht Hst Hb. unfold finish. eapply must_bind; [by apply emit_told|].
  intros [em' [[]|e]] (_ & _ & (n & _ & Hn) & Hr); cbn [must fst snd map_ok] in *; (split; [by exists n|]);
    exists (payloads em); (split; [by apply silent_payloads|]).
  - destruct Hr as (event & Hp & Hd). exists payload. split; [|done]. unfold payloads. rewrite Hd, map_app. simpl. by rewrite Hp.
  - destruct Hr as [Hd Hr]. unfold payloads. by rewrite Hd.
Qed.

Lemma emit_silently payload em : open em -> told em -> is_terminal payload = false -> validate_bounds payload = Ok tt ->
  must (emit payload em) (fun p => told p.1
    /\ match p.2 with Ok _ => open p.1 | Err _ => exists n message, deliver n = Err message end).
Proof.
  intros Ho Ht Hp Hb. eapply must_mono; [by apply emit_told|]. intros [em' [[]|e]] (Hterm & Hlt & Hn & Hr); cbn [fst snd] in *.
  - destruct Hr as (event & He & Hd). split; [|split; congruence]. split; [|done]. rewrite Hd. apply Forall_app.
    split; [by apply Ht|]. apply Forall_singleton. split; [by rewrite He|done].
  - destruct Hr as [Hd Hr]. split; [|done]. split; [|done]. rewrite Hd. by apply Ht.
Qed.

Lemma complete_terminal request prepared outcome started em : open em -> told em ->
  must (complete request prepared outcome started em) (fun p => one_terminal p.1 p.2).
Proof.
  intros Ho Hs. unfold complete. eapply (must_bind _ _ (fun _ => True)); [by apply must_true|]. intros total _. cbv zeta.
  eapply must_bind; [by apply emit_silently|]. intros [em1 [[]|e]] [Hs1 Ho1]; cbn [fst snd] in *; [|by apply untold].
  eapply must_bind; [by apply emit_silently|]. intros [em2 [[]|e]] [Hs2 Ho2]; cbn [fst snd] in *; [|by apply untold].
  by apply finish_terminal.
Qed.

Lemma short_text payload text : event_text payload = Some text -> strlen text <= MAX_CHAT_EVENT_TEXT_BYTES ->
  validate_edit_event payload = Ok tt -> validate_diagnostics payload = Ok tt -> validate_diff_event payload = Ok tt ->
  validate_bounds payload = Ok tt.
Proof.
  intros Ht Hl He Hd Hf. unfold validate_bounds. rewrite Ht. simpl.
  destruct (MAX_CHAT_EVENT_TEXT_BYTES <? strlen text) eqn:E; [apply N.ltb_lt in E; lia|].
  cbn [bail_if rbind]. rewrite He. cbn [rbind]. rewrite Hd. exact Hf.
Qed.

(** A request ends with exactly one terminal event, if the chat edits leave
    it to the runtime; ChatEditFacts.v shows that they do. *)
Lemma one_terminal_if_quiet app request id options (Hedit : quiet_edits) :
  must (execute_chat run_chat_edit app request id options) (ok_post (fun p => one_terminal p.1 p.2)).
Proof.
  unfold execute_chat. eapply (must_try_ok _ _ (fun em => open em /\ em_delivered em = [] /\ em_sequence em = 0)).
  { unfold new_emitter. apply must_ret_try. intros u _. cbn [bind sys must]. by intros started _. }
  intros em (Ho & Hd & Hz). cbn [bind sys must]. intros started _.
  eapply must_bind; [by apply quiet_inner|]. intros [em' result] [He Ho']. cbn [fst] in *.
  pose proof (told_extends _ _ Hd Hz He) as Hs.
  unfold is_cancelled. cbn [bind sys must]. intros cancelled _.
  eapply (must_bind _ _ (fun p => one_terminal p.1 p.2)); [|by intros p Hp].
  destruct result as [[prepared outcome]|failure], cancelled; try (by apply complete_terminal); apply finish_terminal; try done.
  - eapply short_text; [done| |done..]. pose proof (bounded_text_le (fl_message failure) (4 * 1024)).
    unfold MAX_CHAT_EVENT_TEXT_BYTES in *. lia.
  - eapply short_text; [done| |done..]. cbn [er_message protocol_error]. pose proof (fl_bounded failure).
    unfold MAX_FAILURE_BYTES, MAX_FAILURE_CHARS, MAX_CHAT_EVENT_TEXT_BYTES in *. lia.
Qed.
End Runtime.

(** ** The range of a whole file *)

Lemma slice_until_no_panic s i : no_panic (slice_until s i) <-> is_char_boundary s i = true.
Proof.
  unfold slice_until, slice. assert (is_char_boundary s 0 = true) as Hz by (apply char_boundary_iff; split; [lia|by left]).
  rewrite Hz, (proj2 (N.leb_le 0 i)) by lia. cbn [andb]. by destruct (is_char_boundary s i).
Qed.

Lemma feeds_before_spec s i : feeds_before s i =
  if is_char_boundary s i then Ret (as_u32 (count_byte line_feed (take_bytes (N.to_nat i) s))) else Panic "byte index is not a char boundary".
Proof.
  unfold feeds_before, slice_until, slice. assert (is_char_boundary s 0 = true) as Hz by (apply char_boundary_iff; split; [lia|by left]).
  rewrite Hz, (proj2 (N.leb_le 0 i)) by lia. cbn [andb]. destruct (is_char_boundary s i); [|done].
  cbn [bind]. by rewrite N.sub_0_r.
Qed.

(** C40: The line range of a whole attached file is computed without a panic
    exactly when the file's last character is one byte long: the code slices
    the text before its last byte. *)
Theorem whole_file_range content :
  no_panic (manifest_range_from_bytes content 0 (strlen content)) <-> is_char_boundary content (strlen content - 1) = true.
Proof.
  unfold manifest_range_from_bytes. rewrite (feeds_before_spec content (N.min 0 (strlen content))), N.min_0_l.
  assert (is_char_boundary content 0 = true) as Hz by (apply char_boundary_iff; split; [lia|by left]). rewrite Hz. cbn [bind].
  destruct (strlen content =? 0) eqn:E; cbn [bind].
  - apply N.eqb_eq in E. rewrite E. cbn [N.sub]. done.
  - rewrite feeds_before_spec, N.min_l by lia. by destruct (is_char_boundary content (strlen content - 1)).
Qed.

(** ** The history that a prompt shows *)

Section Histories.
Context {An : Answers} `{Floats, Regex, !RegexBoundary}.
Context (request : ChatRequest) (scope : ChatContextScope).

(** What may stand for a turn: its bounded text, free of secrets and not a
    large diff, or a notice that it was left out. *)
Definition shows_turn (turn : ChatHistoryTurn) (content : string) : Prop :=
  content = "[historical content omitted by secret scanning]"
  \/ content = "[large historical diff/report omitted; result_id=" ++ default "unknown" (ht_result_id turn) ++ "]"
  \/ content = bounded_text (ht_content turn) MAX_HISTORY_TURN_CHARS /\ detect_secret content = Ret None
     /\ looks_like_large_diff_or_report content = false.

(** Turns with what is shown of them, the newest last, within the budgets. *)
Definition bounded_turns (turns : list ChatHistoryTurn) (kept : list (ChatHistoryTurn * string)) (text : list string) : Prop :=
  text = map (fun k => turn_text k.1 k.2) kept
  /\ sublist (map fst kept) turns
  /\ Forall (fun k => incompatible_turn request scope k.1 = false /\ shows_turn k.1 k.2) kept.

Definition within_budgets (kept : list (ChatHistoryTurn * string)) : Prop :=
  list_len kept <= bg_max_history_turns (cq_budgets request)
  /\ sum_of (fun k => char_count k.2) kept <= bg_max_history_chars (cq_budgets request)
  /\ sum_of (fun k => estimate_tokens k.2) kept <= bg_max_history_tokens (cq_budgets request).

Lemma turn_content_shows turn : must (turn_content turn) (fun p => shows_turn turn p.1).
Proof.
  unfold turn_content. cbv zeta. set (content := bounded_text _ _).
  destruct (detect_secret_total content) as (s & Hs & _). unfold inspect_sensitive_text. rewrite Hs. cbn [bind must].
  destruct s as [d|]; cbn [fst]; [by left|]. destruct (looks_like_large_diff_or_report content) eqn:E; cbn [fst]; [by right; left|].
  right; right. done.
Qed.

(** The turns chosen so far stand in [h]. *)
Definition chosen (kept : list (ChatHistoryTurn * string)) (h : History) : Prop :=
  hy_chars h = sum_of (fun k => char_count k.2) kept /\ hy_tokens h = sum_of (fun k => estimate_tokens k.2) kept
  /\ within_budgets kept.

Lemma warns_keep warnings h : let h' := fold_left (fun h w => warn w h) warnings h in
  hy_selected h' = hy_selected h /\ hy_chars h' = hy_chars h /\ hy_tokens h' = hy_tokens h.
Proof. revert h. induction warnings as [|w warnings IH]; intros h; [done|]. simpl. destruct (IH (warn w h)) as (? & ? & ?). done. Qed.

Lemma saturating_budget a b budget : budget < u64_max -> (budget <? saturating_add64 a b) = false -> a + b <= budget.
Proof. unfold saturating_add64. rewrite N.ltb_ge. lia. Qed.

Lemma select_turns_bounded turns older kept h :
  bg_max_history_chars (cq_budgets request) < u64_max -> bg_max_history_tokens (cq_budgets request) < u64_max ->
  bounded_turns older kept (hy_selected h) -> chosen kept h ->
  must (select_turns request scope turns h) (fun h' => exists kept',
    bounded_turns (rev turns ++ older) kept' (hy_selected h') /\ within_budgets kept').
Proof.
  intros Hc Ht. revert older kept h. induction turns as [|turn turns IH]; intros older kept h Hk Hh; cbn [select_turns rev].
  { exists kept. split; [done|by apply Hh]. }
  assert (forall older' kept' text, bounded_turns older' kept' text -> bounded_turns (turn :: older') kept' text) as Hskip.
  { intros older' kept' text (-> & Hs & Hf). split_and!; [done|by apply sublist_cons|done]. }
  assert (forall older' kept' text, bounded_turns older' kept' text -> bounded_turns (rev turns ++ older') kept' text) as Happ.
  { intros older' kept' text (-> & Hs & Hf). split_and!; [done|by apply sublist_inserts_l|done]. }
  rewrite <- app_assoc. cbn [app].
  destruct (incompatible_turn request scope turn) eqn:Ei; [by apply (IH (turn :: older) kept); [apply Hskip|]|].
  destruct (_ <=? _) eqn:Et; [exists kept; split; [by apply Happ, Hskip|by apply Hh]|].
  eapply must_bind; [apply turn_content_shows|]. intros [content warnings] Hshow. cbn [fst] in Hshow.
  destruct (warns_keep warnings h) as (Hs1 & Hc1 & Ht1). set (h1 := fold_left _ _ _) in *.
  destruct ((_ <? _) || (_ <? _)) eqn:Eb; cbn [must]; cbn [hy_selected warn].
  { exists kept. rewrite Hs1. split; [by apply Happ, Hskip|by apply Hh]. }
  apply orb_false_iff in Eb as [Ec Ek]. apply saturating_budget in Ec; [|done]. apply saturating_budget in Ek; [|done].
  apply N.leb_gt in Et. destruct Hk as (Hsel & Hsub & Hall), Hh as (Hhc & Hht & Hb).
  apply (IH (turn :: older) ((turn, content) :: kept)).
  - split_and!; [cbn [hy_selected map fst snd]; by rewrite Hs1, Hsel|by apply sublist_skip|by constructor].
  - unfold chosen, within_budgets, sum_of in *. cbn [hy_chars hy_tokens foldr snd fst]. rewrite Hc1, Ht1, Hhc, Hht in *.
    rewrite Hsel in Et. unfold list_len in *. rewrite length_map in Et. cbn [List.length]. lia.
Qed.

(** C36: The history that a prompt shows is a selection of the request's turns,
    in their order, none of them ungrounded or of another workspace; every
    turn stands as its text cut to its bound, if that holds no secret and is no
    large diff, or as a notice; and turns, characters and tokens keep to the
    request's budgets. *)
Theorem history_within_budgets (Hb : validate_budgets request = Ok tt) :
  must (bounded_history request scope) (fun p => let '(text, warnings, n) := p in exists kept,
    n = list_len kept /\ (text = "none" \/ text = join_with (eol ++ eol) (map (fun k => turn_text k.1 k.2) kept))
    /\ sublist (map fst kept) (cq_history request)
    /\ Forall (fun k => incompatible_turn request scope k.1 = false /\ shows_turn k.1 k.2) kept
    /\ within_budgets kept).
Proof.
  assert (bg_max_history_chars (cq_budgets request) < u64_max /\ bg_max_history_tokens (cq_budgets request) < u64_max) as [Hc Ht].
  { unfold validate_budgets, invalid_if in Hb. destruct (_ || _) eqn:E; [done|]. unfold out_of_bounds in E.
    rewrite !orb_false_iff, !N.ltb_ge in E. unfold MAX_CHAT_HISTORY_CHARS, MAX_CHAT_HISTORY_TOKENS, u64_max in *. lia. }
  assert (within_budgets []) as Hnil by (unfold within_budgets, list_len, sum_of; simpl; lia).
  unfold bounded_history. destruct (cq_history request) as [|turn turns] eqn:Eh.
  - exists []. split_and!; [done|by left|constructor|constructor|by apply Hnil..].
  - rewrite <- Eh. eapply must_bind; [apply (select_turns_bounded _ [] []); [done..|split_and!; constructor|done]|].
    intros h (kept & (Hsel & Hsub & Hall) & Hw). cbn [must]. rewrite rev_involutive, app_nil_r in Hsub.
    exists kept. rewrite Hsel. unfold list_len. rewrite length_map. split_and!; [done|by right|done|done|by apply Hw..].
Qed.
End Histories.

(** ** The prepared request *)

(** What a step returns when it succeeds, whatever was delivered. *)
Definition yields {An : Answers} `{Floats} {A} (m : chat A) (Q : A -> Prop) : Prop :=
  forall em, must (m em) (fun p => match p.2 with Ok a => Q a | Err _ => True end).

Section Yields.
Context {An : Answers} `{Floats}.

Lemma yields_any {A} (m : chat A) : yields m (fun _ => True).
Proof. intros em. apply must_true. by intros [? []]. Qed.

Lemma yields_bind {A B} (m : chat A) (k : A -> chat B) Q R : yields m Q -> (forall a, Q a -> yields (k a) R) -> yields (chat_bind m k) R.
Proof.
  intros Hm Hk em. unfold chat_bind. eapply must_bind; [apply Hm|]. intros [em' [a|e]] Ha; cbn [snd] in *; [by apply Hk|done].
Qed.

Lemma yields_then {A B} (m : chat A) (k : A -> chat B) R : (forall a, yields (k a) R) -> yields (chat_bind m k) R.
Proof. intros Hk. eapply yields_bind; [apply yields_any|]. intros a _. apply Hk. Qed.

Lemma yields_ret {A} (r : run A) (Q : A -> Prop) : (forall a, r = Ok a -> Q a) -> yields (chat_ret r) Q.
Proof. intros HQ em. cbn [chat_ret must snd]. destruct r; [by apply HQ|done]. Qed.

Lemma yields_do {A} (m : IO A) Q : must m Q -> yields (chat_do m) Q.
Proof. intros Hm em. unfold chat_do. eapply must_bind; [exact Hm|]. done. Qed.
End Yields.

Lemma must_try_then {An : Answers} {A B E} (m : IO (result A E)) (f : A -> IO (result B E)) (Q : B -> Prop) :
  (forall a, must (f a) (ok_post Q)) -> must (try_bind m f) (ok_post Q).
Proof. intros Hf. eapply (must_try_ok _ _ (fun _ => True)); [apply must_true; by intros []|]. intros a _. apply Hf. Qed.

Section Prepared.
Context {An : Answers} `{Floats, Delivery, Blake3, Regex, Unicode, PromptSerde, StringDebug, WalkDir}.
Context (request : ChatRequest).

(** A snapshot is of one of the request's references, and hashed as shown. *)
Definition material_ok (m : ReferenceMaterial) : Prop :=
  forall s, rm_snapshot m = Some s ->
  rr_bytes (rm_summary m) = strlen (sn_content s) /\ sn_injected_hash s = blake3_hex (sn_content s)
  /\ sn_reference_id s ∈ map rf_reference_id (cq_references request).

Lemma resolve_reference_ok workspace workspace_id reference : reference ∈ cq_references request ->
  must (resolve_reference workspace workspace_id reference) (ok_post material_ok).
Proof.
  intros Hr. unfold resolve_reference.
  assert (forall path, must (resolve_file workspace workspace_id reference path) (ok_post material_ok)) as Hfile.
  { intros path. unfold resolve_file. cbv zeta. apply must_try_then. intros file.
    apply must_try_then. intros [content range]. destruct (_ <? _); [exact I|].
    apply must_try_then. intros stable. destruct (negb _); [exact I|].
    eapply (must_bind _ _ (fun _ => True)); [by apply must_true|]. intros state _. cbn [must ok_post].
    intros s [= <-]. cbn [sn_content sn_injected_hash sn_reference_id rr_bytes rm_summary]. split_and!; [done..|].
    apply list_elem_of_In, in_map. by apply list_elem_of_In. }
  assert (forall (check : run unit) text, must (lift check ;;? Ret (Ok (metadata_reference reference text))) (ok_post material_ok)) as Hmeta.
  { intros check text. apply must_ret_try. intros [] _. cbn [must ok_post]. intros s Hs. discriminate Hs. }
  destruct (rf_target reference) as [path|path ?|path ?|path ? ?|path|? [path|] ?|?|?]; cbn [target_path];
    [apply Hfile..|exact I|apply Hmeta|apply Hmeta].
Qed.

Definition material_bytes (l : list ReferenceMaterial) : N := sum_of (fun m => rr_bytes (rm_summary m)) l.

(** The material resolved so far keeps to the budget. *)
Definition resolution_ok (r : Resolution) : Prop :=
  Forall material_ok (rs_material r) /\ rs_retained_bytes r = material_bytes (rs_material r)
  /\ rs_retained_bytes r <= bg_max_reference_bytes (cq_budgets request).

Lemma sum_of_snoc {A} (f : A -> N) l x : sum_of f (l ++ [x])%list = sum_of f l + f x.
Proof. unfold sum_of. induction l as [|y l IH]; simpl; [lia|]. rewrite IH. lia. Qed.

Lemma resolve_one_ok workspace reference r : reference ∈ cq_references request ->
  bg_max_reference_bytes (cq_budgets request) < u64_max -> resolution_ok r ->
  yields (resolve_one workspace request reference r) resolution_ok.
Proof.
  intros Hin Hb (Hm & Hret & Hle). unfold resolve_one.
  assert (forall refused, yields (refuse_reference refused r) resolution_ok) as Hrefuse.
  { intros refused. apply yields_then. intros _. by apply yields_ret; intros a [= <-]. }
  eapply yields_bind; [apply yields_do; by apply resolve_reference_ok|]. intros [material|e] Hok; [|apply Hrefuse].
  cbn [ok_post] in Hok. cbv zeta. destruct (saturating_add64 _ _ <=? _) eqn:E; [|apply Hrefuse].
  apply yields_then. intros _. apply yields_ret. intros a [= <-]. apply N.leb_le in E.
  assert (rs_retained_bytes r + rr_bytes (rm_summary material) <= bg_max_reference_bytes (cq_budgets request)) as Hsum
    by (unfold saturating_add64 in E; lia).
  assert (saturating_add64 (rs_retained_bytes r) (rr_bytes (rm_summary material))
          = rs_retained_bytes r + rr_bytes (rm_summary material)) as Hsat by (unfold saturating_add64 in *; lia).
  unfold resolution_ok. cbn [rs_material rs_retained_bytes]. rewrite Hsat. split_and!; [|by rewrite Hret; unfold material_bytes; rewrite sum_of_snoc|done].
  apply Forall_app. split; [done|]. by apply Forall_singleton.
Qed.

Lemma resolve_references_ok workspace references r : incl references (cq_references request) ->
  bg_max_reference_bytes (cq_budgets request) < u64_max -> resolution_ok r ->
  yields (resolve_references workspace request references r) resolution_ok.
Proof.
  intros Hin Hb. revert r. induction references as [|reference references IH]; intros r Hr; cbn [resolve_references].
  { by apply yields_ret; intros a [= <-]. }
  eapply yields_bind; [apply resolve_one_ok; [|done..]|].
  { apply list_elem_of_In, Hin. by left. }
  intros r' Hr'. apply IH; [|done]. intros x Hx. apply Hin. by right.
Qed.

Definition snapshot_bytes (l : list ReferenceSnapshot) : N := sum_of (fun s => strlen (sn_content s)) l.

Lemma snapshots_bounded l : Forall material_ok l ->
  snapshot_bytes (snapshots_of l) <= material_bytes l
  /\ Forall (fun s => sn_injected_hash s = blake3_hex (sn_content s) /\ sn_reference_id s ∈ map rf_reference_id (cq_references request))
       (snapshots_of l).
Proof.
  unfold snapshots_of. induction 1 as [|m l Hm Hl IH]; [by split; [|constructor]|]. destruct IH as [IHb IHf].
  cbn [omap list_omap]. unfold material_bytes, snapshot_bytes, sum_of in *. cbn [foldr].
  destruct (rm_snapshot m) as [s|] eqn:E; [|split; [lia|done]]. destruct (Hm s E) as (Hb & Hh & Hr). cbn [foldr].
  split; [lia|]. by constructor.
Qed.

(** What a prepared request has: a prompt and references within the budgets,
    only snapshots of the attached references, each with the hash of what is
    shown; and, when the request or its prompt restricts the sources, no
    history and no summary of the project, but a prompt built from the
    snapshots alone. *)
Definition well_prepared (p : PreparedRequest) : Prop :=
  estimate_tokens (pp_prompt p) <= bg_max_prompt_tokens (cq_budgets request)
  /\ snapshot_bytes (pp_snapshots p) <= bg_max_reference_bytes (cq_budgets request)
  /\ Forall (fun s => sn_injected_hash s = blake3_hex (sn_content s) /\ sn_reference_id s ∈ map rf_reference_id (cq_references request))
       (pp_snapshots p)
  /\ pp_manifest p = build_context_manifest (pp_effective_scope p) (cq_workspace_id request) (cq_request_id request)
                        (cq_profile request) (pp_snapshots p)
  /\ (cq_context_scope request = ReferencesOnly \/ prompt_requires_references_only (cq_prompt request) = true ->
      pp_effective_scope p = ReferencesOnly /\ pp_snapshots p <> [] /\ pp_historical_turns p = 0
      /\ build_grounded_prompt (cq_prompt request) (pp_manifest p) (pp_snapshots p) (cq_evidence_mode request) = Ok (pp_prompt p)).

Lemma prepare_context_ok workspace scope reason r ms : resolution_ok r ->
  (cq_context_scope request = ReferencesOnly \/ prompt_requires_references_only (cq_prompt request) = true -> scope = ReferencesOnly) ->
  (scope = ReferencesOnly -> snapshots_of (rs_material r) <> []) ->
  yields (prepare_context request workspace scope reason r ms) well_prepared.
Proof.
  intros (Hm & Hret & Hle) Hscope Hsome. unfold prepare_context. cbv zeta. destruct (snapshots_bounded _ Hm) as [Hb Hf].
  set (snapshots := snapshots_of (rs_material r)) in *.
  eapply (yields_bind _ _ (fun t => allows_broad_context scope snapshots = false -> t.2 = 0)).
  { apply yields_do. destruct (allows_broad_context scope snapshots); [by apply must_true|done]. }
  intros [[history history_warnings] turns] Hturns. cbn [snd] in Hturns. cbv zeta. apply yields_then. intros _.
  apply yields_then. intros [summary state]. apply yields_then. intros started.
  eapply yields_bind; [apply yields_ret; exact (fun prompt Hp => Hp)|]. intros prompt Hprompt.
  apply yields_then. intros build_ms. destruct (_ <? estimate_tokens prompt) eqn:E; [by apply yields_ret|]. apply N.ltb_ge in E.
  apply yields_then. intros _. apply yields_ret. intros p [= <-]. unfold well_prepared.
  cbn [pp_prompt pp_snapshots pp_manifest pp_effective_scope pp_historical_turns]. split_and!; [done|lia|done|done|].
  intros Hr. apply Hscope in Hr. assert (allows_broad_context scope snapshots = false) as Hbroad by by rewrite Hr.
  split_and!; [done|by apply Hsome|by apply Hturns|]. rewrite Hbroad in Hprompt. cbn [build_prompt] in Hprompt.
  by destruct (build_grounded_prompt _ _ _ _); simplify_eq/=.
Qed.

(** C15: Whatever the file system holds, a prepared request keeps its prompt and
    the contents of its references within the budgets; its manifest lists
    exactly the snapshots, which are of attached references; and when the
    request, or the wording of its prompt, restricts the answer to the
    references, there is at least one, no history, and the prompt is built from
    the manifest and the snapshots alone. *)
Theorem prepared_within_scope (Hb : validate_budgets request = Ok tt) : yields (prepare_request request) well_prepared.
Proof.
  assert (bg_max_reference_bytes (cq_budgets request) < u64_max) as Hbytes.
  { unfold validate_budgets, invalid_if in Hb. destruct (_ || _) eqn:E; [done|]. unfold out_of_bounds in E.
    rewrite !orb_false_iff, !N.ltb_ge in E. unfold MAX_CHAT_REFERENCE_BYTES, u64_max in *. lia. }
  unfold prepare_request. apply yields_then. intros workspace.
  assert (forall scope reason, effective_context_scope (cq_context_scope request) (cq_scope_reason request) (cq_prompt request) = (scope, reason) ->
    cq_context_scope request = ReferencesOnly \/ prompt_requires_references_only (cq_prompt request) = true -> scope = ReferencesOnly) as Hscope.
  { unfold effective_context_scope. intros scope reason He [Hr|Hr]; rewrite Hr in He.
    - rewrite bool_decide_eq_true_2, andb_false_r in He by done. by injection He as <- _.
    - destruct (bool_decide (cq_context_scope request = ReferencesOnly)) eqn:E; cbn [negb andb] in He; injection He as <- _; [|done].
      by apply bool_decide_eq_true in E. }
  destruct (effective_context_scope _ _ _) as [scope reason]. specialize (Hscope scope reason eq_refl).
  do 3 (apply yields_then; intros ?). eapply yields_bind.
  { apply resolve_references_ok; [apply incl_refl|done|]. split_and!; [constructor|done|]. unfold resolution_ok. simpl. lia. }
  intros r Hr. do 3 (apply yields_then; intros ?).
  eapply yields_bind; [apply yields_ret; exact (fun u Hu => Hu)|]. intros u Hu. apply prepare_context_ok; [done..|].
  intros -> Hn. unfold require_references in Hu. rewrite Hn in Hu. by rewrite bool_decide_eq_true_2 in Hu.
Qed.
End Prepared.

(** ** A concrete chat *)

Module ChatDemo.
#[export] Instance no_floats : Floats := {|
  f32 := unit; f32_debug := fun _ => "0"; f32_is_finite := fun _ => true; f32_up_to_two := fun _ => true; f32_zero := tt;
  f64 := N; f64_per_second := fun tokens ms => tokens * 1000 / ms |}.
#[export] Instance every_event : Delivery := fun _ => Ok tt.
#[export] Instance ascii_tables : Unicode := ascii_unicode.
#[export] Instance no_yaml : Yaml := fun _ => Err "not supported".
#[export] Instance no_json : Json := {| json_is_object := fun _ => Err "not supported"; json_string := fun _ => Err "not supported" |}.
#[export] Instance no_xml : XmlParser := fun _ => Err "not supported".
#[export] Instance quoted : StringDebug := fun s => dquote_s ++ s ++ dquote_s.
#[export] Instance plain_prompts : PromptSerde := {|
  manifest_to_string := fun m => Ok (mf_fingerprint m);
  contract_to_string := fun c => Ok (join_with "," (tc_allowed_sources c)) |}.
#[export] Instance no_entries : WalkDir := fun _ _ => Ret [].
#[export] Instance no_tools : ChatTools := {|
  analyze_java_syntax := fun _ => Ret (Err (ToolError "not supported"));
  analyze_java_index := fun _ => Ret (Err (ToolError "not supported"));
  propose_java_edits := fun _ => Ret (Err (ToolError "not supported"));
  prepare_assistant_context := fun _ _ _ => Ret (Err (ToolError "not supported")) |}.
#[export] Instance no_assistant : AssistantRuns := fun _ => Ret ([], Err "not supported").
(** An answer is its text, without claims. *)
#[export] Instance plain_answers : ResponseSerde := fun s => Ok {|
  gr_schema_version := GROUNDING_SCHEMA_VERSION; gr_answer := s; gr_claims := []; gr_missing_information := [];
  gr_used_general_knowledge := false |}.

Definition demo_chat (command : ChatCommand) : ChatRequest := {|
  cq_schema_version := CHAT_PROTOCOL_SCHEMA_VERSION;
  cq_protocol := CHAT_PROTOCOL_ID;
  cq_request_id := "request-1";
  cq_workspace_id := "workspace-1";
  cq_workspace_root := "/repo";
  cq_command := command;
  cq_prompt := "what does A do";
  cq_profile := "java-core";
  cq_provider := EditPlan.Ollama;
  cq_model := "model";
  cq_context_mode := LegacyMode;
  cq_context_scope := Automatic;
  cq_scope_reason := DefaultSetting;
  cq_evidence_mode := Optional;
  cq_references := [{| rf_reference_id := "reference-1"; rf_inclusion_reason := "asked"; rf_target := FileTarget "src/A.java" |}];
  cq_history := [];
  cq_budgets := {| bg_max_history_turns := 4; bg_max_history_chars := 1000; bg_max_history_tokens := 1000;
    bg_max_references := 4; bg_max_reference_bytes := 1000; bg_max_prompt_tokens := 1000; bg_rag_hits := 0 |};
  cq_generation := {| gn_max_output_tokens := 100; gn_temperature := None; gn_seed := None; gn_brief := true;
    gn_compare_generate := false |};
  cq_security_mode := ReadOnlyMode;
  cq_client := {| cm_name := "test"; cm_version := "1"; cm_vscode_version := "1"; cm_session_id := "session-1";
    cm_locale := "en"; cm_recent_run_ids := []; cm_previous_repository_state := None |};
  cq_expected_protocols := {| xp_chat := CHAT_PROTOCOL_SCHEMA_VERSION; xp_assistant := 1; xp_discovery := 1; xp_llm := 1 |};
  cq_edit := None |}.
Definition demo_options : ChatRuntimeOptions := {|
  co_rag_index := "/index"; co_verify_model := false; co_policy_state_root := Some "/var/state"; co_proposal_state_root := None |}.
Definition no_edits (app : option OpticCode) (request : ChatRequest) (prepared : PreparedRequest)
    (authorization : ChatPolicyAuthorization) (options : ChatRuntimeOptions) (started : N) : chat CommandOutcome :=
  chat_ret (fail "edit_unavailable" "edit" "chat edits are not part of this run").

Definition demo_run (command : ChatCommand) :=
  World.run (execute_chat no_edits None (demo_chat command) "request-1" demo_options) demo_world.
End ChatDemo.
Import ChatDemo.

Definition fresh_emitter : ChatEventEmitter := {|
  em_request_id := "request-1"; em_sequence := 0; em_terminal := false; em_started := 0; em_delivered := [] |}.
Definition java_snapshot : ReferenceSnapshot := {|
  sn_reference_id := "reference-1"; sn_path := "src/A.java"; sn_origin := "user_attachment";
  sn_file_hash := blake3_hex "class A {}"; sn_injected_hash := blake3_hex "class A {}"; sn_file_size := 10;
  sn_encoding := "utf-8"; sn_line_ending := "none";
  sn_range := {| start_line := 1; end_line := 1; start_byte := 0; end_byte := 10 |}; sn_content := "class A {}";
  sn_reason := "explicit_user_reference"; sn_git_state := "clean_or_untracked"; sn_workspace_id := "workspace-1" |}.
Definition demo_prepared : PreparedRequest := {|
  pp_workspace := "/repo"; pp_prompt := "what does A do"; pp_user_prompt := "what does A do"; pp_references := [];
  pp_rejected := []; pp_warnings := []; pp_repository_state := "state"; pp_requested_scope := ReferencesOnly;
  pp_effective_scope := ReferencesOnly; pp_scope_reason := ExplicitSetting; pp_evidence_mode := Optional;
  pp_manifest := build_context_manifest ReferencesOnly "workspace-1" "request-1" "java-core" [java_snapshot];
  pp_prompt_fingerprint := "fingerprint"; pp_snapshots := [java_snapshot]; pp_selected_references := 1;
  pp_resolved_references := 1; pp_historical_turns := 0; pp_reference_resolution_ms := 0; pp_prompt_build_ms := 0 |}.

Lemma text_arrives_witness :
  utf8_valid "hello" = true /\ open fresh_emitter
  /\ must (An := any_answer) (emit_text "hello" fresh_emitter) (fun p => p.2 = Ok tt /\ exists new,
       em_delivered p.1 = (em_delivered fresh_emitter ++ new)%list /\ whole_chunks "hello" new).
Proof.
  split; [reflexivity|]. split; [split; reflexivity|].
  apply (text_arrives (An := any_answer) "hello" fresh_emitter); [reflexivity|reflexivity|split; reflexivity].
Defined.

Lemma grounded_answer_witness :
  open fresh_emitter
  /\ must (An := any_answer) (run_grounded_assistant None (demo_chat Inspect) demo_prepared demo_options 0 fresh_emitter)
       (answered demo_prepared fresh_emitter).
Proof.
  assert (open fresh_emitter) as Ho by (split; reflexivity). split; [exact Ho|].
  apply (grounded_answer (An := any_answer) None (demo_chat Inspect) demo_prepared demo_options 0 fresh_emitter Ho).
Defined.

Lemma history_within_budgets_witness :
  let scope := Automatic in
  validate_budgets (demo_chat Ask) = Ok tt
  /\ must (An := any_answer) (bounded_history (demo_chat Ask) scope) (fun p => let '(text, warnings, n) := p in exists kept,
       n = list_len kept /\ (text = "none" \/ text = join_with (eol ++ eol) (map (fun k => turn_text k.1 k.2) kept))
       /\ sublist (map fst kept) (cq_history (demo_chat Ask))
       /\ Forall (fun k => incompatible_turn (demo_chat Ask) scope k.1 = false /\ shows_turn k.1 k.2) kept
       /\ within_budgets (demo_chat Ask) kept).
Proof.
  intros scope. split; [reflexivity|]. apply (history_within_budgets (An := any_answer) (demo_chat Ask) scope). reflexivity.
Defined.

Lemma prepared_within_scope_witness :
  validate_budgets (demo_chat Ask) = Ok tt
  /\ yields (An := any_answer) (prepare_request (demo_chat Ask)) (well_prepared (demo_chat Ask)).
Proof. split; [reflexivity|]. apply (prepared_within_scope (An := any_answer) (demo_chat Ask)). reflexivity. Defined.

(** A whole request, run in the demonstration's world *)
Definition event_kind (payload : ChatProtocolEventPayload) : string :=
  match payload with
  | RequestAccepted _ _ _ _ _ _ _ => "request_accepted" | ReferenceSelected _ _ _ _ => "reference_selected"
  | ReferencesResolving _ => "references_resolving" | ReferenceResolved _ => "reference_resolved"
  | ReferencesResolved _ _ => "references_resolved" | ReferenceInjected _ => "reference_injected"
  | ContextManifestReady _ _ => "context_manifest_ready" | TokenDelta _ => "token_delta" | Metrics _ => "metrics"
  | TimingMetrics _ => "timing_metrics" | Completed _ => "completed" | Failed e => "failed: " ++ er_code e
  | _ => "other"
  end.

Example help_runs :
  match snd (demo_run Help) with
  | Done (Ok (em, Ok report)) => map event_kind (payloads em) = [
      "request_accepted"; "reference_selected"; "references_resolving"; "reference_resolved"; "references_resolved";
      "reference_injected"; "context_manifest_ready"; "token_delta"; "metrics"; "timing_metrics"; "completed"]
  | _ => False
  end.
Proof. vm_compute. reflexivity. Qed.

(** A file that ends with an accented letter panics the whole request. *)
Definition accented : string := "caf" ++ String (byte 195) (String (byte 169) "").
Example accented_file_panics :
  exists message, snd (World.run (execute_chat no_edits None (demo_chat Help) "request-1" demo_options)
    (World (<[["repo"; "src"; "A.java"] := f accented]> demo_fs) [] 1722470400000000000 1000 [Ok "abcdefghijkl"; Ok "mnopqrstuvwx"; Ok "yzabcdefghij"; Ok "klmnopqrstuv"]
       4242 0 ∅ ∅ 0 ∅ no_processes no_command)) = Panicked message.
Proof. eexists. vm_compute. reflexivity. Qed.

Example unknown_command_refused :
  match snd (demo_run Unknown) with
  | Done (Ok (em, Ok report)) => map event_kind (payloads em) = ["failed: unknown_command"]
  | _ => False
  end.
Proof. vm_compute. reflexivity. Qed.
