(* ===== verification/TransactionExamples.v ===== *)
(** * Apply transactions: the theorems on a concrete workspace

    A workspace with three files in a Git worktree without changes, and a
    transaction that changes one of them, creates one and deletes one.  The
    hypotheses of the theorems on transactions hold of it. *)

From stdpp Require Import base list strings gmap.
From Stdlib Require Import NArith Ascii String Sorted Lia.
From S2P Require Import Prelude Bytes UnixPath IO World WorldFacts Anyhow Paths GitState Transaction TransactionFs TransactionRun TransactionFacts TransactionWorld RunStore Recovery CrashRecovery Execution Preparation Atomicity Demo.

Local Open Scope string_scope.
Local Open Scope N_scope.

(** * Concrete instances for the apply transactions

    A codec for manifests and events that satisfies the round trip of
    [TransactionRoundTrip], a Git that compares the tree with a fixed commit,
    and a small workspace on which transactions are executed. *)

(** ** A codec

    A value is a sequence of fields; a field's bytes are marked one by one,
    so that the end of a field is unambiguous. *)
Class Codec (A : Type) := {
  enc : A -> list string;
  decode : list string -> option (A * list string);
  decode_enc a rest : decode (enc a ++ rest)%list = Some (a, rest);
}.

#[export, refine] Instance string_codec : Codec string := {|
  enc s := [s];
  decode l := match l with s :: rest => Some (s, rest) | [] => None end |}.
Proof. done. Defined.

#[export, refine] Instance bool_codec : Codec bool := {|
  enc (b : bool) := [if b then "t" else "f"];
  decode l := match l with s :: rest => Some (s =?s "t", rest) | [] => None end |}.
Proof. by intros []. Defined.

#[export, refine] Instance ascii_codec : Codec ascii := {|
  enc c := [String c ""];
  decode l := match l with String c _ :: rest => Some (c, rest) | _ => None end |}.
Proof. done. Defined.

Fixpoint bits_of (p : positive) : string :=
  match p with xH => "" | xO p => String "0" (bits_of p) | xI p => String "1" (bits_of p) end.
Fixpoint of_bits (s : string) : positive :=
  match s with
  | "" => xH
  | String c s => if Ascii.eqb c "0" then xO (of_bits s) else xI (of_bits s)
  end.
Lemma of_bits_bits p : of_bits (bits_of p) = p.
Proof. induction p; simpl; congruence. Qed.

#[export, refine] Instance N_codec : Codec N := {|
  enc n := [match n with N0 => "z" | Npos p => String "p" (bits_of p) end];
  decode l := match l with
              | String c s :: rest => Some (if Ascii.eqb c "p" then Npos (of_bits s) else 0, rest)
              | _ => None
              end |}.
Proof. intros [|p] rest; simpl; [done|]. by rewrite of_bits_bits. Defined.

#[export, refine] Instance option_codec {A} `{Codec A} : Codec (option A) := {|
  enc o := match o with None => ["-"] | Some a => "+" :: enc a end;
  decode l := match l with
              | s :: rest =>
                  if s =?s "-" then Some (None, rest)
                  else match decode rest with Some (a, rest) => Some (Some a, rest) | None => None end
              | [] => None
              end |}.
Proof. intros [a|] rest; simpl; [|done]. by rewrite decode_enc. Defined.

(** One mark before every element, another one at the end; [fuel] is the
    number of fields. *)
Fixpoint decode_list {A} `{Codec A} (fuel : nat) (l : list string) : option (list A * list string) :=
  match fuel, l with
  | S fuel, s :: rest =>
      if s =?s "]" then Some ([], rest)
      else match decode rest with
           | Some (a, rest) =>
               match decode_list fuel rest with Some (k, rest) => Some (a :: k, rest) | None => None end
           | None => None
           end
  | _, _ => None
  end.
Definition enc_list {A} `{Codec A} (l : list A) : list string :=
  (flat_map (fun a => "[" :: enc a) l ++ ["]"])%list.
Lemma decode_enc_list {A} `{Codec A} (l : list A) rest fuel :
  (List.length l < fuel)%nat -> decode_list fuel (enc_list l ++ rest) = Some (l, rest).
Proof.
  revert fuel. induction l as [|a l IH]; intros [|fuel] Hf; simpl in *; try lia; [done|].
  unfold enc_list in *. simpl. rewrite <- !app_assoc, decode_enc. rewrite <- app_assoc in IH.
  by rewrite IH by lia.
Qed.

#[export, refine] Instance list_codec {A} `{Codec A} : Codec (list A) := {|
  enc := enc_list;
  decode l := decode_list (S (List.length l)) l |}.
Proof.
  intros l rest. apply decode_enc_list. rewrite length_app. unfold enc_list. rewrite length_app.
  assert (List.length l <= List.length (flat_map (fun a => "[" :: enc a) l))%nat; [|simpl; lia].
  induction l as [|a l IH]; simpl; [lia|]. rewrite length_app. lia.
Defined.

(** A record through the list of its fields. *)
Definition and_then {A B} `{Codec A} (l : list string) (k : A -> list string -> option B) : option B :=
  match decode l with Some (a, rest) => k a rest | None => None end.
Lemma and_then_enc {A B} `{Codec A} (a : A) rest (k : A -> list string -> option B) :
  and_then (enc a ++ rest)%list k = k a rest.
Proof. unfold and_then. by rewrite decode_enc. Qed.
Notation "'field' x 'of' l 'as' l' ';' k" := (and_then l (fun x l' => k))
  (at level 10, x name, l at level 9, l' name, k at level 200).
Ltac solve_codec := intros x rest; rewrite <- ?app_assoc; repeat rewrite and_then_enc; by destruct x.

Definition enum {A} (all : list A) (name : A -> string) (l : list string) : option (A * list string) :=
  match l with
  | s :: rest => match List.find (fun a => name a =?s s) all with Some a => Some (a, rest) | None => None end
  | [] => None
  end.

#[export, refine] Instance state_codec : Codec ApplyTransactionState := {|
  enc s := [state_as_str s];
  decode := enum [Prepared; Applying; Applied; Finalizing; Committed; RollbackStarted; RolledBack; RollbackFailed]
    state_as_str |}.
Proof. by intros []. Defined.

#[export, refine] Instance kind_codec : Codec GitChangeKind := {|
  enc k := [GitChangeKind_as_str k];
  decode := enum [Modified; Added; Deleted; Renamed; Copied; Untracked; TypeChanged; Unmerged; Ignored; Unknown]
    GitChangeKind_as_str |}.
Proof. by intros []. Defined.

Definition policy_name (p : ApplyGitPolicy) : string :=
  match p with RequireClean => "c" | AllowDirty => "d" | Optional => "o" end.
#[export, refine] Instance policy_codec : Codec ApplyGitPolicy := {|
  enc p := [policy_name p]; decode := enum [RequireClean; AllowDirty; Optional] policy_name |}.
Proof. by intros []. Defined.

#[export, refine] Instance change_codec : Codec GitChange := {|
  enc c := (enc (index_status c) ++ enc (worktree_status c) ++ enc (change_kind c) ++ enc (change_path c) ++
            enc (original_path c) ++ enc (content_fingerprint c))%list;
  decode l := field x of l as l; field y of l as l; field k of l as l; field p of l as l; field o of l as l;
    field f of l as l;
    Some ({| index_status := x; worktree_status := y; change_kind := k; change_path := p; original_path := o;
             content_fingerprint := f |}, l) |}.
Proof. solve_codec. Defined.

#[export, refine] Instance metrics_codec : Codec GitSnapshotMetrics := {|
  enc m := (enc (duration_us m) ++ enc (status_entries m) ++ enc (fingerprinted_files m) ++
            enc (fingerprinted_bytes m))%list;
  decode l := field a of l as l; field b of l as l; field c of l as l; field d of l as l;
    Some ({| duration_us := a; status_entries := b; fingerprinted_files := c; fingerprinted_bytes := d |}, l) |}.
Proof. solve_codec. Defined.

#[export, refine] Instance snapshot_codec : Codec GitStateSnapshot := {|
  enc s := (enc (snapshot_schema_version s) ++ enc (snapshot_root s) ++ enc (snapshot_changes s) ++
            enc (snapshot_metrics s))%list;
  decode l := field a of l as l; field b of l as l; field c of l as l; field d of l as l;
    Some ({| snapshot_schema_version := a; snapshot_root := b; snapshot_changes := c; snapshot_metrics := d |}, l) |}.
Proof. solve_codec. Defined.

#[export, refine] Instance validation_codec : Codec ApplyTransactionValidation := {|
  enc v := (enc (v_git_policy v) ++ enc (v_git_captured v) ++ enc (v_git_clean v) ++
            enc (v_pre_existing_changes v) ++ enc (v_expected_contents_verified v))%list;
  decode l := field a of l as l; field b of l as l; field c of l as l; field d of l as l; field e of l as l;
    Some ({| v_git_policy := a; v_git_captured := b; v_git_clean := c; v_pre_existing_changes := d;
             v_expected_contents_verified := e |}, l) |}.
Proof. solve_codec. Defined.

#[export, refine] Instance file_codec : Codec ApplyTransactionFile := {|
  enc f := (enc (file_path f) ++ enc (file_existed_before f) ++ enc (before_hash f) ++ enc (before_bytes f) ++
            enc (after_hash f) ++ enc (after_bytes f) ++ enc (backup_path f) ++ enc (file_readonly f) ++
            enc (file_unix_mode f))%list;
  decode l := field a of l as l; field b of l as l; field c of l as l; field d of l as l; field e of l as l;
    field g of l as l; field h of l as l; field i of l as l; field j of l as l;
    Some ({| file_path := a; file_existed_before := b; before_hash := c; before_bytes := d; after_hash := e;
             after_bytes := g; backup_path := h; file_readonly := i; file_unix_mode := j |}, l) |}.
Proof. solve_codec. Defined.

#[export, refine] Instance manifest_codec : Codec ApplyTransactionManifest := {|
  enc m := (enc (m_schema_version m) ++ enc (m_transaction_id m) ++ enc (m_workspace m) ++
            enc (m_copied_from m) ++ enc (m_created_at_unix_ms m) ++ enc (m_patch_hash m) ++
            enc (m_patch_path m) ++ enc (m_files m) ++ enc (m_validation m) ++ enc (m_git_before m))%list;
  decode l := field a of l as l; field b of l as l; field c of l as l; field d of l as l; field e of l as l;
    field g of l as l; field h of l as l; field i of l as l; field j of l as l; field k of l as l;
    Some ({| m_schema_version := a; m_transaction_id := b; m_workspace := c; m_copied_from := d;
             m_created_at_unix_ms := e; m_patch_hash := g; m_patch_path := h; m_files := i; m_validation := j;
             m_git_before := k |}, l) |}.
Proof. solve_codec. Defined.

#[export, refine] Instance event_codec : Codec ApplyTransactionEvent := {|
  enc e := (enc (e_schema_version e) ++ enc (e_transaction_id e) ++ enc (e_sequence e) ++
            enc (e_recorded_at_unix_ms e) ++ enc (e_state e) ++ enc (e_message e) ++ enc (e_files e) ++
            enc (e_errors e) ++ enc (e_elapsed_ms e) ++ enc (e_git_snapshot e))%list;
  decode l := field a of l as l; field b of l as l; field c of l as l; field d of l as l; field e of l as l;
    field g of l as l; field h of l as l; field i of l as l; field j of l as l; field k of l as l;
    Some ({| e_schema_version := a; e_transaction_id := b; e_sequence := c; e_recorded_at_unix_ms := d;
             e_state := e; e_message := g; e_files := h; e_errors := i; e_elapsed_ms := j;
             e_git_snapshot := k |}, l) |}.
Proof. solve_codec. Defined.

(** Fields as text. *)
Fixpoint mark (s tail : string) : string :=
  match s with "" => String ";" tail | String c s => String "." (String c (mark s tail)) end.
Definition to_text (l : list string) : string := foldr mark "" l.
Fixpoint fields (s acc : string) : list string :=
  match s with
  | String c s =>
      if Ascii.eqb c ";" then acc :: fields s ""
      else match s with
           | String d s => if Ascii.eqb c "." then fields s (acc ++ String d "") else []
           | "" => []
           end
  | "" => []
  end.

Lemma fields_mark s tail acc : fields (mark s tail) acc = (acc ++ s) :: fields tail "".
Proof.
  revert acc. induction s as [|c s IH]; intros acc; simpl.
  - by rewrite append_empty.
  - rewrite IH. f_equal. rewrite append_assoc. done.
Qed.

Lemma fields_text l : fields (to_text l ++ newline) "" = l.
Proof.
  assert (forall s t, mark s t ++ newline = mark s (t ++ newline)) as Hm.
  { induction s as [|c s IH]; intros t; simpl; rewrite !append_cons, ?IH; done. }
  unfold to_text. induction l as [|s l IH]; [done|]. simpl. rewrite Hm, fields_mark, IH. done.
Qed.

Definition decode_text {A} `{Codec A} (s : string) : result A string :=
  match decode (fields s "") with Some (a, _) => Ok a | None => Err "invalid artifact" end.

Lemma decode_text_enc {A} `{Codec A} (a : A) : decode_text (to_text (enc a) ++ newline) = Ok a.
Proof.
  unfold decode_text. rewrite fields_text. pose proof (decode_enc a []) as E. rewrite app_nil_r in E. by rewrite E.
Qed.

#[export] Instance toy_transaction_serde : TransactionSerde := {|
  manifest_to_vec m := Ok (to_text (enc m));
  manifest_from_slice := decode_text;
  event_to_vec e := Ok (to_text (enc e));
  event_from_slice := decode_text |}.

#[export] Instance toy_transaction_roundtrip : TransactionRoundTrip.
Proof.
  split; intros a bytes E; assert (bytes = to_text (enc a)) as -> by (by inversion E);
    exact (decode_text_enc a).
Qed.

(** ** A workspace *)

(** A Git whose commit is the given tree: [git status] lists the files of
    the work tree that differ from it, outside [.git] and [.opticcode]. *)
Definition git_entry (root : loc) (head fs : fsys) (l : loc) : string :=
  let name := join_with "/" (drop (List.length root) l) in
  let content m := match m !! l with Some (File c _) => Some c | _ => None end in
  match (content head : option string), (content fs : option string) with
  | None, Some _ => "?? " ++ name ++ String (byte 0) ""
  | Some _, None => " D " ++ name ++ String (byte 0) ""
  | Some c, Some c' => if c =?s c' then "" else " M " ++ name ++ String (byte 0) ""
  | None, None => ""
  end.
Definition below (root : loc) (fs : fsys) : list loc :=
  List.filter (fun l => is_prefix root l && negb (is_prefix (root ++ [".git"]) l) &&
    negb (is_prefix (root ++ [".opticcode"]) l)) (map fst (map_to_list fs)).
Definition toy_git (root : loc) (head : fsys) : fsys -> string -> list string -> string -> io output :=
  fun fs program args cwd =>
    if bool_decide (args = ["rev-parse"; "--show-toplevel"]) then Ok (Output true (render root ++ newline) "")
    else Ok (Output true (String.concat "" (map (git_entry root head fs) (btree_set (below root head ++ below root fs)%list))) "").

Definition d : node := Dir 4096 (Attributes (Some 5) (Some 5) 16877).
Definition f (content : string) : node := File content (Attributes (Some 6) (Some 6) 33188).

Definition ws_fs : fsys := list_to_map [
  (["ws"], d); (["ws"; "src"], d); (["ws"; "src"; "A.java"], f "class A {}");
  (["ws"; "pom.xml"], f "<project/>"); (["ws"; "old.txt"], File "old" (Attributes (Some 6) (Some 6) 33060))].

Definition ws_world (command : fsys -> string -> list string -> string -> io output) : world :=
  World ws_fs [] 1722470400000000000 1000 [] 4242 0 ∅ ∅ 0 ∅ no_processes command.

Definition ws_request (policy : ApplyGitPolicy) : ApplyTransactionRequest := {|
  req_workspace := "/ws"; req_patch := "the patch";
  req_mutations := [replace_mutation "src/A.java" "class A {}" "class A { int x; }";
                    create_mutation "src/B.java" "class B {}"; delete_mutation "old.txt" "old"];
  req_git_policy := policy; req_copied_from := None; requested_id := Some "t1" |}.

Definition summary (o : outcome (res ApplyTransactionResult)) : string :=
  match o with
  | Done (Ok r) => state_as_str (r_final_state r) ++ " " ++ join_with "|" (r_errors r)
  | Done (Err e) => alternate e
  | Panicked m => m
  end.

(** * The examples *)

Local Open Scope list_scope.

(** ** A Git that finds no change *)

Definition clean_git : fsys -> string -> list string -> string -> io output := fun fs program args cwd =>
  Ok (Output true (if bool_decide (args = ["rev-parse"; "--show-toplevel"]) then "/ws" ++ newline else "")%string "").

Definition clean_snapshot : GitStateSnapshot := {|
  snapshot_schema_version := 1; snapshot_root := "/ws"; snapshot_changes := [];
  snapshot_metrics := {| duration_us := 0; status_entries := 0; fingerprinted_files := 0; fingerprinted_bytes := 0 |} |}.

Lemma clean_capture w path :
  w_command w = clean_git -> real_dir (w_fs w) ["ws"] -> reads (capture_git_state path) w (Ok clean_snapshot).
Proof.
  intros Hc Hd. unfold capture_git_state. eapply reads_sys; [reflexivity|].
  eapply reads_try with (a := "/ws").
  { unfold discover_git_root, io_context, io_call. eapply reads_try.
    - apply reads_map_err, reads_map_err. intros I Q HI HQ. eapply wp_call; [cbn [exec]; rewrite Hc; reflexivity|exact HI|exact HQ].
    - cbn [out_success negb]. cbn iota. eapply reads_try; [apply reads_ret|]. cbv zeta.
      apply reads_map_err, reads_map_err. intros I Q HI HQ.
      eapply wp_call; [exact (exec_canonicalize_dir w ["ws"] Hd)|exact HI|exact HQ]. }
  eapply reads_try with (a := "").
  { unfold run_git_status, io_context, io_call. eapply reads_try.
    - apply reads_map_err, reads_map_err. intros I Q HI HQ. eapply wp_call; [cbn [exec]; rewrite Hc; reflexivity|exact HI|exact HQ].
    - cbn [out_success]. cbn iota. apply reads_ret. }
  eapply reads_try; [apply reads_ret|]. eapply reads_bind; [apply reads_ret|]. cbv beta iota zeta.
  eapply reads_sys; [reflexivity|]. unfold elapsed_us. rewrite N.sub_diag. apply reads_ret.
Qed.

(** ** The request *)

Definition ws : loc := ["ws"].
Definition old_txt : planned :=
  {| pl_dir := []; pl_name := "old.txt"; pl_before := Some ("old", 33060); pl_after := None |}.
Definition a_java : planned :=
  {| pl_dir := ["src"]; pl_name := "A.java"; pl_before := Some ("class A {}", 33188); pl_after := Some "class A { int x; }" |}.
Definition b_java : planned :=
  {| pl_dir := ["src"]; pl_name := "B.java"; pl_before := None; pl_after := Some "class B {}" |}.
Definition plan : list planned := [old_txt; a_java; b_java].

(** In a clean Git worktree, and without Git. *)
Definition request : ApplyTransactionRequest := ws_request RequireClean.
Definition w0 : world := ws_world clean_git.
Definition free_request : ApplyTransactionRequest := ws_request Optional.
Definition free_w0 : world := ws_world no_command.

Lemma encode_events e : exists bytes, event_to_vec e = Ok bytes.
Proof. by eexists. Qed.
Lemma encode_manifests m : exists bytes, manifest_to_vec m = Ok bytes.
Proof. by eexists. Qed.

(** A check of the conditions on a target. *)
Definition manageable_check (t : loc) : bool :=
  forallb valid_name t && negb (bool_decide (t = [])) && negb (bool_decide (".opticcode" ∈ t)) &&
  utf8_valid (rel t) && bool_decide (replace_backslash (rel t) = rel t).

Lemma manageable_checked t : manageable_check t = true -> manageable t.
Proof.
  unfold manageable_check. intros Hc. split_bools. split; try done.
  apply Forall_forall. intros n Hn. rewrite forallb_forall in H. by apply H, list_elem_of_In.
Qed.

Lemma planned_checked p :
  manageable_check (pl_path p) = true -> starts_with ".opticcode-" (pl_name p) = false ->
  bool_decide (fingerprint_of (content_before p) = fingerprint_of (pl_after p)) = false ->
  match pl_before p with Some (_, m) => N.ldiff m 4095 = 32768 | None => True end -> plan_ok p.
Proof.
  intros Hm Hn Hd Hmode. split; [by apply manageable_checked|done|by apply bool_decide_eq_false in Hd|].
  intros c m E. by rewrite E in Hmode.
Qed.

Lemma plan_checked : Forall plan_ok plan.
Proof. repeat constructor; apply planned_checked; first [vm_compute; reflexivity | exact I]. Qed.

Lemma policy_requested policy : requested ws "t1" plan (ws_request policy).
Proof.
  split.
  - repeat constructor.
  - vm_compute. reflexivity.
  - vm_compute. reflexivity.
  - reflexivity.
  - apply plan_checked.
  - apply (bool_decide_eq_true_1 (NoDup (map pl_path plan))). vm_compute. reflexivity.
  - vm_compute. reflexivity.
  - done.
  - symmetry. exact (Permutation_cons_append [mutation_of a_java; mutation_of b_java] (mutation_of old_txt)).
  - repeat constructor.
Qed.

(** ** The workspace before *)

Definition no_staging_check (fs : fsys) : bool :=
  forallb (fun e => match last (fst e) with Some n => negb (starts_with ".opticcode-" n) | None => true end) (map_to_list fs).
Definition nothing_below_check (fs : fsys) (base : loc) : bool :=
  forallb (fun e => negb (bool_decide (take (List.length base) (fst e) = base))) (map_to_list fs).

Lemma no_staging_checked pid fs : no_staging_check fs = true -> no_staging pid fs.
Proof.
  unfold no_staging_check. rewrite forallb_forall. intros Hc d label counter.
  destruct (fs !! _) eqn:E; [|done]. apply elem_of_map_to_list, list_elem_of_In, Hc in E. cbn [fst] in E.
  by rewrite last_snoc, staging_is in E.
Qed.

Lemma nothing_below_checked fs base : nothing_below_check fs base = true -> forall k, fs !! (base ++ k) = None.
Proof.
  unfold nothing_below_check. rewrite forallb_forall. intros Hc k.
  destruct (fs !! _) eqn:E; [|done]. apply elem_of_map_to_list, list_elem_of_In, Hc in E. cbn [fst] in E.
  by rewrite take_app_length, bool_decide_true in E.
Qed.

Lemma example_common : common ws plan 4242 ws_fs ws_fs.
Proof.
  split.
  - left. vm_compute. reflexivity.
  - repeat constructor; by apply real_dir_check; vm_compute.
  - split; [|by intros other _]. repeat constructor; try (eexists; split; [vm_compute; reflexivity|reflexivity]).
  - by apply no_staging_checked; vm_compute.
Qed.

Lemma example_startable policy command :
  startable ws "t1" plan (ws_request policy) (w_pid (ws_world command)) (w_fs (ws_world command)) (ws_world command).
Proof.
  split.
  - reflexivity.
  - split; [exact example_common| | |].
    + split; [by apply real_dir_check; vm_compute| |left; vm_compute; reflexivity]. right. split; vm_compute; reflexivity.
    + right. vm_compute. reflexivity.
    + by apply nothing_below_checked; vm_compute.
  - vm_compute. reflexivity.
  - vm_compute. intros E. discriminate E.
  - vm_compute. discriminate.
Qed.

(** Nothing that leaves the rest of the tree alone touches the workspace
    directory. *)
Lemma outside_workspace fs : outside_same ws plan ws_fs fs -> real_dir fs ["ws"].
Proof.
  intros Ho. apply (real_dir_snoc fs [] "ws"); [apply real_dir_root|reflexivity|].
  exists 4096, (Attributes (Some 5) (Some 5) 16877). rewrite node_at_snoc, Ho; [reflexivity| |].
  - intros p Hp E. apply (f_equal (@List.length _)) in E.
    repeat (apply elem_of_cons in Hp as [->|Hp]; [discriminate E|]). by apply elem_of_nil in Hp.
  - intros k E. by apply (f_equal (@List.length _)) in E.
Qed.

Lemma clean_reads w : same_tools w0 w -> outside_same ws plan (w_fs w0) (w_fs w) -> reads (capture_git_state (render ws)) w (Ok clean_snapshot).
Proof. intros [Hc _] Ho. apply clean_capture; [exact Hc|by apply outside_workspace]. Qed.

Lemma clean_found git : git_found ws plan w0 git -> git = None \/ git = Some clean_snapshot.
Proof.
  destruct git as [s|]; [|by left]. intros (w & [Hh Ho _] & Hr). right.
  pose proof (reads_unique _ _ _ _ Hr (clean_reads w (host_tools _ _ Hh) Ho)) as E. by injection E as ->.
Qed.

Lemma example_start : start ws "t1" plan request w0.
Proof.
  split; [apply example_startable|]. intros w1 w2 s1 Ht1 Ho1 _ Ht2 Ho2 _ Hr. exists clean_snapshot.
  split; [by apply clean_reads|]. pose proof (reads_unique _ _ _ _ Hr (clean_reads w1 Ht1 Ho1)) as E. by injection E as ->.
Qed.

Lemma example_willing : git_willing ws "t1" plan request w0.
Proof.
  split.
  - intros w1 [Hh Ho _]. exists (Some clean_snapshot). split; [|by split].
    eapply reads_bind; [exact (clean_reads w1 (host_tools _ _ Hh) Ho)|apply reads_ret].
  - intros git created_at w1 Hfound Hh Ho _. destruct (clean_found git Hfound) as [->| ->].
    + exists None. split; [apply reads_ret|reflexivity].
    + exists (Some clean_snapshot). split; [|vm_compute; reflexivity].
      eapply reads_try; [exact (clean_reads w1 (host_tools _ _ Hh) Ho)|apply reads_ret].
Qed.

(** Without Git the policy that does not ask for it lets it start. *)
Lemma no_capture w s : w_command w = no_command -> ~ reads (capture_git_state (render ws)) w (Ok s).
Proof.
  intros Hc Hr. assert (reads (capture_git_state (render ws)) w
    (Err (with_context "failed to discover Git root from /ws" (of_io enoent)))) as He.
  { unfold capture_git_state. eapply reads_sys; [reflexivity|]. unfold discover_git_root, try_bind at 1. unfold try_bind at 1.
    eapply reads_bind with (a := Err _); [|apply reads_ret].
    eapply reads_bind with (a := Err _); [|apply reads_ret].
    eapply reads_bind with (a := Err _); [|apply reads_ret].
    eapply reads_bind with (a := Err _); [|apply reads_ret].
    intros I Q HI HQ. eapply wp_call; [cbn [exec]; rewrite Hc; reflexivity|exact HI|exact HQ]. }
  by pose proof (reads_unique _ _ _ _ Hr He).
Qed.

Lemma free_start : start ws "t1" plan free_request free_w0.
Proof.
  split; [apply example_startable|]. intros w1 w2 s1 [Hc _] _ _ _ _ _ Hr. by destruct (no_capture w1 s1 Hc).
Qed.

Lemma free_no_git : no_git ws plan free_w0.
Proof. intros w1 s [Hh _ _]. apply no_capture. by destruct (host_tools _ _ Hh). Qed.

(** ** Another process *)

Definition process (command : fsys -> string -> list string -> string -> io output) (fs : fsys) : world :=
  World fs [] 1722470460000000000 5000 [] 4300 0 ∅ ∅ 0 ∅ no_processes command.

Lemma process_tree command fs : w_fs (process command fs) = fs.
Proof. reflexivity. Qed.

Lemma process_later policy command fs :
  real_dir fs ["ws"] -> later_process ws (ws_world command) (process command fs) (req_workspace (ws_request policy)).
Proof.
  intros Hd. split; [done| |done|vm_compute; discriminate].
  change (canonicalize (process command fs) (render ["ws"]) = Ok (render ["ws"])).
  pose proof (exec_canonicalize_dir (process command fs) ["ws"] Hd) as E. by injection E.
Qed.

Lemma process_staging : no_staging 4300 ws_fs.
Proof. by apply no_staging_checked; vm_compute. Qed.

(** ** The worlds after preparation and after the commit *)

Local Abbreviation ends := (journal_ends ws "t1" plan request w0).

Lemma example_prepared :
  exists w1 p, run (prepare_transaction NoFaultInjector request) w0 = (w1, Done (Ok p)) /\
    outside_same ws plan ws_fs (w_fs w1) /\ ends w1 Prepared.
Proof.
  destruct (wp_run _ _ _ _ (prepare_transaction_wp ws "t1" plan request encode_events encode_manifests (policy_requested RequireClean)
    (w_pid w0) (w_fs w0) (git_found ws plan w0) NoFaultInjector w0
    (fun w1 r => exists p, r = Ok p /\ outside_same ws plan ws_fs (w_fs w1) /\ ends w1 Prepared)
    (example_startable RequireClean clean_git) (fun git Hf => Hf)
    ltac:(intros w1 p [[_ _ _ Ho _] (git & created_at & e & -> & Hg & Hf & Hw)]; eexists; split; [reflexivity|]; split; [exact Ho|]; by exists git, created_at, [e])
    ltac:(intros w1 e _ _ _ Hh; exfalso; apply (not_hindered ws "t1" plan request w0 example_willing); by left)))
    as (w1 & r & Hrun & p & -> & Ho & He).
  exists w1, p. exact (conj Hrun (conj Ho He)).
Qed.

Lemma example_committed :
  exists w1 r, run (execute_apply_transaction request) w0 = (w1, Done (Ok r)) /\
    outside_same ws plan ws_fs (w_fs w1) /\ ends w1 Committed.
Proof.
  destruct (wp_run _ _ _ _ (execute_wp ws "t1" plan request encode_events encode_manifests (policy_requested RequireClean)
    NoFaultInjector w0 example_start eq_refl eq_refl)) as (w1 & r & Hrun & _ & Ho & Hout).
  pose proof (not_hindered ws "t1" plan request w0 example_willing) as Hnot.
  destruct Hout as [e _ Hh|r Hr Hm Ha Hj|r _ _ _ _ Hh]; [by destruct (Hnot Hh)| |by destruct (Hnot Hh)].
  exists w1, r. exact (conj Hrun (conj Ho Hj)).
Qed.

(** From such a world, another process may start. *)
Lemma process_ready w1 s :
  outside_same ws plan ws_fs (w_fs w1) -> ends w1 s ->
  exists M evs, setting ws "t1" (req_patch request) plan M /\ run_on ws "t1" (req_patch request) plan M (w_fs w1) evs s /\
    targets_in ws plan s (w_fs w1) /\ ready ws plan M (process clean_git (w_fs w1)) "/ws" /\
    fresh_for_others 4242 ws_fs (w_fs w1).
Proof.
  intros Ho (git & created_at & evs & Hg & Hf & Hw). exists (manifest_of ws "t1" plan request git created_at), evs.
  split; [by apply setting_of; [apply policy_requested|]|].
  destruct Hw as [_ Hr Ht Hst Hfr _]. split; [exact Hr|]. split; [exact Ht|]. split; [|exact Hfr].
  eapply (later_ready ws "t1" plan request w0); [apply example_start|exact Hf|by apply (process_later RequireClean), outside_workspace| |by left].
  by apply Hfr; [|exact process_staging].
Qed.

(** ** Witnesses *)

Definition stop_after_first_write : ApplyFaultInjector := fun point =>
  match point with AfterFirstTargetWrite => bail "stopped" | _ => Ok tt end.

Lemma execute_atomic_witness :
  exists w1 r, run (execute_apply_transaction_with_faults stop_after_first_write request) w0 = (w1, Done r) /\
    same_but_tree w0 w1 /\ outside_same ws plan (w_fs w0) (w_fs w1) /\
    transaction_outcome ws "t1" plan request stop_after_first_write w0 w1 r.
Proof.
  exact (execute_atomic ws "t1" plan request encode_events encode_manifests (policy_requested RequireClean)
    stop_after_first_write w0 example_start eq_refl eq_refl).
Defined.

Lemma execute_commits_witness :
  exists w1 r, run (execute_apply_transaction request) w0 = (w1, Done (Ok r)) /\ committed r = true /\
    Forall (applied ws (w_fs w1)) plan /\ outside_same ws plan (w_fs w0) (w_fs w1).
Proof.
  exact (execute_commits ws "t1" plan request encode_events encode_manifests (policy_requested RequireClean) w0 example_start example_willing).
Defined.

Lemma apply_then_undo_witness :
  exists w1 r w' result, run (execute_apply_transaction request) w0 = (w1, Done (Ok r)) /\
    run (rollback_apply_transaction "/ws" "t1") (process clean_git (w_fs w1)) = (w', Done (Ok result)) /\
    rolled_back result = true /\ all_restored ws plan (w_fs w').
Proof.
  destruct example_committed as (w1 & r & Hrun & Ho & _).
  destruct (apply_then_undo ws "t1" plan request encode_events encode_manifests (policy_requested RequireClean) NoFaultInjector w0 w1 r
    (process clean_git (w_fs w1)) "/ws" example_start eq_refl eq_refl Hrun eq_refl (process_later RequireClean clean_git _ (outside_workspace _ Ho))
    (or_intror process_staging)) as (w' & result & Hroll & Hr & _ & Hres & _).
  exists w1, r, w', result. exact (conj Hrun (conj Hroll (conj Hr Hres))).
Defined.

(** The process dies after 180 calls: one target is deleted, another one is
    changed, and the third one is not there yet. *)
Definition crashed : world := after 180 (execute_apply_transaction free_request) free_w0.
Example crashed_between :
  map (fun p => content_at (w_fs crashed) (target ws p)) plan = [None; Some "class A { int x; }"; None].
Proof. vm_compute. reflexivity. Qed.

Lemma crashed_visited : visits (execute_apply_transaction free_request) free_w0 crashed.
Proof. exact (after_visits 180 _ free_w0). Qed.

Lemma execute_crash_recovers_witness :
  exists w' result, run (rollback_apply_transaction "/ws" "t1") (process no_command (w_fs crashed)) = (w', Done (Ok result)) /\
    rolled_back result = true /\ operation_success result = true /\ all_restored ws plan (w_fs w') /\
    outside_same ws plan (w_fs crashed) (w_fs w').
Proof.
  assert (real_dir (w_fs crashed) ["ws"]) as Hd by (apply real_dir_check; vm_compute; reflexivity).
  destruct (execute_crash_recovers ws "t1" plan free_request encode_events encode_manifests (policy_requested Optional) NoFaultInjector free_w0
    crashed (process no_command (w_fs crashed)) "/ws" free_start eq_refl eq_refl crashed_visited (process_tree no_command (w_fs crashed))) as [Hr|Hroll].
  - exact (process_later Optional no_command _ Hd).
  - vm_compute. discriminate.
  - exact process_staging.
  - right. exact free_no_git.
  - exfalso. pose proof (proj1 (Forall_forall _ _) Hr old_txt ltac:(left)) as (a & Ha & _).
    assert (w_fs crashed !! target ws old_txt = None) as Hnone by (vm_compute; reflexivity). congruence.
  - exact Hroll.
Defined.

Lemma recovery_restores_witness :
  exists w1 p w' result, run (prepare_transaction NoFaultInjector request) w0 = (w1, Done (Ok p)) /\
    run (recover_apply_transaction "/ws" "t1") (process clean_git (w_fs w1)) = (w', Done (Ok result)) /\
    rolled_back result = true /\ all_restored ws plan (w_fs w').
Proof.
  destruct example_prepared as (w1 & p & Hrun & Ho & He).
  destruct (process_ready w1 Prepared Ho He) as (M & evs & Hset & Hr & Ht & Hready & _).
  destruct (recovery_restores ws "t1" (req_patch request) plan M Hset encode_events (process clean_git (w_fs w1)) "/ws" evs Prepared
    Hr Ht ltac:(discriminate) Hready) as (w' & result & Hrec & Hrb & _ & _ & _ & _ & _ & Hres & _).
  exists w1, p, w', result. exact (conj Hrun (conj Hrec (conj Hrb Hres))).
Defined.

Lemma rollback_restores_witness :
  exists w1 r w' result, run (execute_apply_transaction request) w0 = (w1, Done (Ok r)) /\
    run (rollback_apply_transaction "/ws" "t1") (process clean_git (w_fs w1)) = (w', Done (Ok result)) /\
    rolled_back result = true /\ all_restored ws plan (w_fs w').
Proof.
  destruct example_committed as (w1 & r & Hrun & Ho & He).
  destruct (process_ready w1 Committed Ho He) as (M & evs & Hset & Hr & Ht & Hready & _).
  destruct (rollback_restores ws "t1" (req_patch request) plan M Hset encode_events (process clean_git (w_fs w1)) "/ws" evs Committed
    Hr Ht Hready) as (w' & result & Hroll & (Hrb & _ & _ & _ & _ & _ & Hres & _) & _).
  exists w1, r, w', result. exact (conj Hrun (conj Hroll (conj Hrb Hres))).
Defined.

Lemma recovery_keeps_committed_witness :
  exists w1 r w', run (execute_apply_transaction request) w0 = (w1, Done (Ok r)) /\
    run (recover_apply_transaction "/ws" "t1") (process clean_git (w_fs w1)) =
      (w', Done (reject Precondition "committed transaction is not incomplete; use explicit apply --undo")).
Proof.
  destruct example_committed as (w1 & r & Hrun & Ho & He).
  destruct (process_ready w1 Committed Ho He) as (M & evs & Hset & Hr & Ht & Hready & _).
  destruct (recovery_keeps_committed ws "t1" (req_patch request) plan M Hset encode_events (process clean_git (w_fs w1)) "/ws" evs
    Hr Ht Hready) as (w' & Hrec & _).
  exists w1, r, w'. exact (conj Hrun Hrec).
Defined.

(** The recovering process dies after 100 calls as well. *)
Lemma crash_then_rollback_witness :
  exists w1 p, run (prepare_transaction NoFaultInjector request) w0 = (w1, Done (Ok p)) /\
    exists M, crash_safe ws "t1" (req_patch request) plan M
      (w_fs (after 100 (rollback_apply_transaction "/ws" "t1") (process clean_git (w_fs w1)))).
Proof.
  destruct example_prepared as (w1 & p & Hrun & Ho & He).
  destruct (process_ready w1 Prepared Ho He) as (M & evs & Hset & Hr & Ht & Hready & _).
  pose proof (crash_then_rollback ws "t1" (req_patch request) plan M Hset encode_events (process clean_git (w_fs w1)) "/ws"
    "explicit rollback requested" evs Prepared
    (after 100 (rollback_apply_transaction "/ws" "t1") (process clean_git (w_fs w1))) (process clean_git (w_fs w1)) "/ws"
    Hr Ht Hready ltac:(discriminate) (after_visits 100 _ _)) as [Hsafe _].
  exists w1, p. split; [exact Hrun|]. exists M. exact Hsafe.
Defined.

(** A workspace whose lock another process holds. *)
Definition held_world : world :=
  World (<[["ws"; ".opticcode"] := d]> (<[["ws"; ".opticcode"; WORKSPACE_LOCK_FILE] := f ""]> ws_fs))
    [] 1722470460000000000 5000 [] 4300 0 ∅ {["/ws/.opticcode/" ++ WORKSPACE_LOCK_FILE]}%string 0 ∅ no_processes no_command.

Lemma lock_excludes_witness :
  run (recover_apply_transaction "/ws" "t1") held_world = (held_world, Done (lock_busy ws)).
Proof.
  refine (proj1 (proj2 (lock_excludes ws "t1" plan free_request (policy_requested Optional) held_world "{}" NoFaultInjector _))).
  split.
  - vm_compute. reflexivity.
  - apply real_dir_check. vm_compute. reflexivity.
  - exists "", (Attributes (Some 6) (Some 6) 33188). vm_compute. reflexivity.
  - vm_compute. reflexivity.
Defined.
