(* ===== verification/Confinement.v ===== *)
(** * Confinement of inspected paths on the file system

    [inspect_path] (Paths.v) executed on a world: the target of its report
    is the entry the relative path names below the resolved root, and no
    symbolic link is on the way. *)

From stdpp Require Import base list strings gmap.
From Stdlib Require Import NArith Ascii String Lia.
From S2P Require Import Prelude Bytes UnixPath IO World Model Paths AuditLog Observers WorldFacts Demo.

Local Open Scope string_scope.
Local Open Scope N_scope.

(** ** Segments *)

(** The names of a relative path made of normal components. *)
Definition plain (s : string) : bool := negb (s =?s "").
Definition named (s : string) : bool := negb (skipped s).

Lemma body_not_cur p :
  is_absolute p = false -> leading_cur_dir p = false -> body_segments p = segments p.
Proof.
  unfold leading_cur_dir, body_segments. intros -> Hl. simpl in Hl.
  destruct (segments p) as [|[|[b0 b1 b2 b3 b4 b5 b6 b7] s] l]; try done.
  repeat match goal with b : bool |- _ => destruct b end; try done; by destruct s.
Qed.

Lemma normal_components p :
  Forall (fun c => is_normal c = true) (components p) ->
  is_absolute p = false /\
  components p = map Normal (List.filter named (segments p)) /\
  valid_names (List.filter named (segments p)).
Proof.
  unfold components. intros Hn.
  destruct (is_absolute p) eqn:Ha; [by inversion Hn|].
  destruct (leading_cur_dir p) eqn:Hc; [by inversion Hn|]. rewrite body_not_cur in * by done.
  split; [done|]. simpl app in *. pose proof (split_on_free slash p) as Hfree. fold (segments p) in Hfree.
  change (fun s => negb (skipped s)) with named in *.
  induction Hfree as [|s l Hs Hl IH]; simpl; [by split; [|constructor]|].
  simpl in Hn. destruct (named s) eqn:E; [|by apply IH]. simpl in *. inversion Hn as [|x y Hx Hy]; subst.
  destruct (IH Hy) as [IH1 IH2]. rewrite IH1. unfold seg_component in *.
  destruct (s =?s "..") eqn:Ed; [done|]. split; [done|].
  constructor; [|done]. unfold valid_name, named in *. by rewrite E, Ed, Hs.
Qed.

Lemma segments_join l p :
  valid_names l -> is_absolute p = false -> segments (join (render l) p) = ("" :: l ++ segments p)%list.
Proof.
  intros Hl Ha. unfold join. rewrite Ha. change (is_empty (render l)) with false. cbn match.
  destruct (decide (l = [])) as [->|Hne].
  { change (segments (String slash p) = ("" :: segments p)%list). reflexivity. }
  assert (ends_with "/" (render l) = false) as ->.
  { destruct (exists_last Hne) as (k & m & ->). apply Forall_app in Hl as [Hk Hm].
    apply Forall_inv in Hm. by apply render_no_trailing. }
  change ("/" ++ p) with (String slash p). unfold segments. rewrite split_on_app.
  fold (segments (render l)). by rewrite segments_render.
Qed.

(** The path below a location has the names of the location and its own. *)
Lemma components_join l p :
  valid_names l -> Forall (fun c => is_normal c = true) (components p) ->
  components (join (render l) p) = components (render (l ++ List.filter named (segments p))).
Proof.
  intros Hl Hn. destruct (normal_components p Hn) as (Ha & Hc & Hv).
  rewrite components_render by (by apply Forall_app). unfold components at 1, body_segments.
  rewrite segments_join by done.
  assert (is_absolute (join (render l) p) = true) as ->.
  { unfold join. rewrite Ha. by destruct (ends_with "/" (render l)). }
  cbn [tail app]. f_equal. change (fun s => negb (skipped s)) with named.
  rewrite List.filter_app, !map_app. f_equal.
  - assert (List.filter named l = l) as -> by (by apply filter_unskipped).
    pose proof (components_render l Hl) as E. unfold components, body_segments in E.
    rewrite is_absolute_render in E. destruct (decide (l = [])) as [->|Hne]; [done|].
    rewrite segments_render in E by done. cbn [tail app] in E. rewrite filter_unskipped in E by done.
    by injection E.
  - unfold components in Hc. rewrite Ha in Hc. destruct (leading_cur_dir p) eqn:Hd; [|rewrite body_not_cur in Hc by done; exact Hc].
    exfalso. unfold components in Hn. rewrite Ha, Hd in Hn. by inversion Hn.
Qed.

(** What the kernel walks for a relative path below a location: its names,
    and "." wherever the text asks for a directory. *)
Lemma os_names_join l p :
  valid_names l -> is_absolute p = false ->
  exists dots, (dots = [] \/ dots = ["."]) /\
    os_names (join (render l) p) = (l ++ List.filter plain (segments p) ++ dots)%list.
Proof.
  intros Hl Ha.
  unfold os_names. rewrite segments_join by done.
  assert (List.filter (fun s => negb (s =?s "")) ("" :: l ++ segments p) =
    (l ++ List.filter plain (segments p))%list) as ->.
  { simpl. rewrite List.filter_app. f_equal. induction Hl as [|n k Hn Hk IH]; [done|]. simpl.
    apply valid_name_spec in Hn as (Hn & _). rewrite (proj2 (String.eqb_neq _ _) Hn). simpl. by rewrite IH. }
  destruct (_ && _); eexists; rewrite <- app_assoc; (split; [|reflexivity]); auto.
Qed.

(** ** Walking *)

(** A name the kernel can be asked to walk. *)
Definition walkable (s : string) : Prop := s <> "" /\ any_byte (Ascii.eqb slash) s = false.

Lemma os_names_walkable p : Forall walkable (os_names p).
Proof.
  unfold os_names. apply Forall_app. split.
  - apply List.Forall_forall. intros s [Hin Hs]%filter_In. split.
    + intros ->. by vm_compute in Hs.
    + pose proof (proj1 (List.Forall_forall _ _) (split_on_free slash p)) as Hf. by apply Hf.
  - destruct (_ && _); repeat constructor. done.
Qed.

Lemma walkable_valid s : walkable s -> s <> "." -> s <> ".." -> valid_name s = true.
Proof.
  intros [Hne Hs] H1 H2. unfold valid_name, skipped.
  by rewrite Hs, !(proj2 (String.eqb_neq _ _)) by done.
Qed.

(** An entry whose ancestors are real directories, and which is no link. *)
Definition reached (fs : fsys) (l : loc) : Prop :=
  valid_names l /\ (forall k m, l = (k ++ m)%list -> m <> [] -> is_dir_at fs k) /\
  exists n, node_at fs l = Some n /\ not_link n.

Lemma real_reached fs l : real_dir fs l -> reached fs l.
Proof.
  intros Hl. pose proof (real_dir_is_dir _ _ Hl) as (len & t & E). destruct Hl as [Hv Hd].
  split; [done|]. split; [intros k m -> _; by eapply Hd|]. by exists (Dir len t).
Qed.

Lemma reached_dir fs l : reached fs l -> is_dir_at fs l -> real_dir fs l.
Proof.
  intros (Hv & Hd & _) Hl. split; [done|]. intros k m E. destruct (decide (m = [])) as [->|Hm].
  - rewrite app_nil_r in E. by subst.
  - by eapply Hd.
Qed.

Lemma reached_snoc fs l n node :
  real_dir fs l -> valid_name n = true -> node_at fs (l ++ [n]) = Some node -> not_link node ->
  reached fs (l ++ [n]).
Proof.
  intros [Hv Hd] Hn E Hlink. split; [apply Forall_app; by repeat constructor|].
  split; [|by exists node]. intros k m Ek Hm. destruct (exists_last Hm) as (m' & x & ->).
  rewrite app_assoc in Ek. apply app_inj_tail in Ek as [-> ->]. by eapply Hd.
Qed.

Lemma real_dir_removelast fs l : real_dir fs l -> real_dir fs (removelast l).
Proof.
  intros Hl. destruct (decide (l = [])) as [->|Hne]; [done|].
  destruct (exists_last Hne) as (k & m & ->). rewrite removelast_last. by eapply real_dir_prefix.
Qed.

Lemma walk_dot fuel fs follow cur rest :
  walk fuel fs follow cur ("." :: rest) =
  match node_at fs cur with
  | Some (Dir _ _) => walk fuel fs follow cur rest
  | Some _ => Err enotdir
  | None => Err enoent
  end.
Proof. by destruct fuel. Qed.

Lemma walk_dotdot fuel fs follow cur rest :
  walk fuel fs follow cur (".." :: rest) = walk fuel fs follow (removelast cur) rest.
Proof. by destruct fuel. Qed.

(** Following links leads to entries that are reached. *)
Lemma walk_reached fuel fs names : forall cur l,
  real_dir fs cur -> Forall walkable names -> walk fuel fs true cur names = Ok l -> reached fs l.
Proof.
  revert names. induction fuel as [|fuel IHf]; intros names;
    induction names as [|n rest IH]; intros cur l Hcur Hw E; try (rewrite walk_nil in E; injection E as <-; by apply real_reached).
  all: inversion Hw as [|? ? Hn Hrest]; subst.
  all: destruct (decide (n = ".")) as [->|H1]; [rewrite walk_dot in E; destruct (node_at fs cur) as [[]|]; try done; by eapply IH|].
  all: destruct (decide (n = "..")) as [->|H2]; [rewrite walk_dotdot in E; eapply IH; [by apply real_dir_removelast|done|done]|].
  all: pose proof (walkable_valid n Hn H1 H2) as Hv; rewrite walk_step in E by done.
  all: destruct (node_at fs (cur ++ [n])) as [[c t|len t|target t|]|] eqn:Hnode; try done.
  all: try (destruct rest; [injection E as <-; by eapply reached_snoc|done]).
  all: try (eapply IH; [apply real_dir_snoc; [done..|by eexists _, _]|done|done]).
  simpl in E. eapply IHf; [|apply Forall_app; split; [apply os_names_walkable|exact Hrest]|exact E].
  unfold walk_base. destruct (is_absolute target); [apply real_dir_root|done].
Qed.

(** Not following the last link finds the same entry when it is none. *)
Lemma walk_follow fuel fs names : forall cur l n,
  Forall walkable names -> walk fuel fs false cur names = Ok l -> node_at fs l = Some n -> not_link n ->
  walk fuel fs true cur names = Ok l.
Proof.
  revert names. induction fuel as [|fuel IHf]; intros names;
    induction names as [|m rest IH]; intros cur l n Hw E Hn Hlink; try (by rewrite walk_nil in *).
  all: inversion Hw as [|? ? Hm Hrest]; subst.
  all: destruct (decide (m = ".")) as [->|H1]; [rewrite walk_dot in *; destruct (node_at fs cur) as [[]|]; try done; by eapply IH|].
  all: destruct (decide (m = "..")) as [->|H2]; [rewrite walk_dotdot in *; by eapply IH|].
  all: pose proof (walkable_valid m Hm H1 H2) as Hv; rewrite walk_step in * by done.
  all: destruct (node_at fs (cur ++ [m])) as [[c t|len t|target t|]|] eqn:Hnode; try done.
  all: try by eapply IH.
  all: destruct rest; simpl in *; try done; try (injection E as <-; rewrite Hnode in Hn; by injection Hn as <-).
  eapply IHf; [|exact E|exact Hn|done].
  apply Forall_app; split; [apply os_names_walkable|exact Hrest].
Qed.

(** Without links on the way, the walk is the concatenation. *)
Lemma walk_plain fuel fs dots names : forall cur l,
  dots = [] \/ dots = ["."] ->
  Forall (fun n => n = "." \/ valid_name n = true) names ->
  (forall k m, List.filter named names = (k ++ m)%list -> k <> [] ->
     forall n, node_at fs (cur ++ k) = Some n -> not_link n) ->
  walk fuel fs true cur (names ++ dots) = Ok l -> l = (cur ++ List.filter named names)%list.
Proof.
  induction names as [|n names IH]; intros cur l Hdots Hv Hlinks E.
  - destruct Hdots as [->| ->]; simpl in *; [rewrite walk_nil in E; injection E as <-; by rewrite app_nil_r|].
    rewrite walk_dot in E. destruct (node_at fs cur) as [[]|]; try done.
    rewrite walk_nil in E. injection E as <-. by rewrite app_nil_r.
  - inversion Hv as [|? ? Hn Hnames]; subst. simpl app in E.
    destruct (decide (n = ".")) as [->|Hdot].
    { rewrite walk_dot in E. destruct (node_at fs cur) as [[]|]; try done. by apply (IH cur l). }
    destruct Hn as [Hn|Hn]; [done|]. rewrite walk_step in E by done. simpl in *.
    assert (named n = true) as Hnamed by (unfold named; by rewrite valid_name_not_skipped).
    rewrite Hnamed in *. rewrite cons_middle, app_assoc.
    specialize (Hlinks [n]) as Hlink. specialize (Hlink _ eq_refl ltac:(done)).
    assert (forall k m, List.filter named names = (k ++ m)%list -> k <> [] ->
      forall x, node_at fs ((cur ++ [n]) ++ k) = Some x -> not_link x) as Hnext.
    { intros k m Hk Hne x Hx. apply (Hlinks (n :: k) m); [simpl; by rewrite Hk|done|].
      by rewrite <- app_assoc in Hx. }
    destruct (node_at fs (cur ++ [n])) as [[c t|len t|target t|]|] eqn:Hnode; try done.
    + destruct (names ++ dots)%list eqn:Hnil; [|done]. injection E as <-.
      apply app_nil in Hnil as [-> _]. simpl. by rewrite app_nil_r.
    + by apply (IH (cur ++ [n])%list l).
    + by destruct (Hlink (Link target t) eq_refl).
    + destruct (names ++ dots)%list eqn:Hnil; [|done]. injection E as <-.
      apply app_nil in Hnil as [-> _]. simpl. by rewrite app_nil_r.
Qed.

(** ** The answers of a world *)

Section World.
Context (w : world) (Hcwd : real_dir (w_fs w) (w_cwd w)).

Lemma base_real p : real_dir (w_fs w) (walk_base (w_cwd w) p).
Proof. unfold walk_base. destruct (is_absolute p); [apply real_dir_root|done]. Qed.

Lemma resolve_reached p l : resolve w true p = Ok l -> reached (w_fs w) l.
Proof.
  unfold resolve. destruct (is_empty p); [done|].
  apply walk_reached; [apply base_real|apply os_names_walkable].
Qed.

Lemma answer_canonicalize p q :
  answers (Answers := in_world w) (Canonicalize p) (Ok q) ->
  exists l, q = render l /\ resolve w true p = Ok l /\ reached (w_fs w) l.
Proof.
  intros E. unfold answers, in_world, exec, canonicalize in E. simpl in E.
  destruct (resolve w true p) as [l|] eqn:Hr; [|done]. injection E as <-. exists l.
  split; [done|]. split; [done|by eapply resolve_reached].
Qed.

(** What [symlink_metadata] says of an entry of a real directory. *)
Lemma answer_metadata l n r :
  real_dir (w_fs w) l -> valid_name n = true ->
  answers (Answers := in_world w) (SymlinkMetadata (render (l ++ [n]))) r ->
  match w_fs w !! (l ++ [n])%list with
  | Some x => r = Ok (node_metadata x)
  | None => r = Err enoent
  end.
Proof.
  intros Hl Hn E. unfold answers, in_world in E. simpl in E. subst r. unfold stat.
  destruct (w_fs w !! (l ++ [n])%list) as [x|] eqn:Hx.
  - rewrite (resolve_render w false l n x) by auto. by rewrite node_at_snoc, Hx.
  - by rewrite (resolve_missing w false l n).
Qed.

Lemma unlinked_node x : is_symlink (node_metadata x) = false -> not_link x.
Proof. by destruct x. Qed.

Lemma directory_node x : is_dir (node_metadata x) = true -> exists len t, x = Dir len t.
Proof. destruct x; try done. by intros _; eexists _, _. Qed.

(** The component walk, on the world. *)
Lemma walked_world names present : forall l,
  real_dir (w_fs w) l -> valid_names names ->
  walked (An := in_world w) (render l) (map Normal names) present ->
  names <> [] /\
  (forall k m, names = (k ++ m)%list -> m <> [] -> real_dir (w_fs w) (l ++ k)) /\
  match w_fs w !! (l ++ names)%list with
  | Some n => present = true /\ not_link n
  | None => present = false
  end.
Proof.
  induction names as [|n names IH]; intros l Hl Hv Hw; [done|].
  inversion Hv as [|? ? Hn Hnames]; subst. split; [done|].
  assert (join (render l) (component_str (Normal n)) = render (l ++ [n])) as Hjoin
    by (apply join_render; [apply Hl|done]).
  destruct names as [|n' names].
  - split.
    { intros k m E Hm. destruct k as [|x k]; [by rewrite app_nil_r|].
      injection E as <- E. symmetry in E. apply app_nil in E as [_ ->]. done. }
    simpl in Hw. simpl component_str in Hjoin. rewrite Hjoin in Hw. destruct present.
    + destruct Hw as (m & Hm & Hlink). apply answer_metadata in Hm; [|done..].
      destruct (w_fs w !! (l ++ [n])%list) as [x|]; [|done]. injection Hm as ->.
      split; [done|by apply unlinked_node].
    + destruct Hw as (e & He & Hkind). apply answer_metadata in He; [|done..].
      by destruct (w_fs w !! (l ++ [n])%list).
  - destruct Hw as [(m & Hm & Hdir & _) Hw]. rewrite Hjoin in Hm, Hw.
    apply answer_metadata in Hm; [|done..].
    destruct (w_fs w !! (l ++ [n])%list) as [x|] eqn:Hx; [|done]. injection Hm as ->.
    apply directory_node in Hdir as (len & t & ->).
    assert (real_dir (w_fs w) (l ++ [n])) as Hnext
      by (apply real_dir_snoc; [done..|]; exists len, t; by rewrite node_at_snoc).
    destruct (IH (l ++ [n])%list Hnext Hnames Hw) as (_ & Hd & He).
    rewrite <- app_assoc in He. split; [|exact He].
    intros k m E Hm. destruct k as [|y k]; [by rewrite app_nil_r|]. injection E as <- E.
    rewrite (cons_middle n), app_assoc. by eapply Hd.
Qed.

Lemma steps_from_world names : forall l k m,
  valid_names l -> valid_names names -> names = (k ++ m)%list -> k <> [] ->
  In (render (l ++ k)) (steps_from (render l) (map Normal names)).
Proof.
  induction names as [|n names IH]; intros l k m Hl Hv E Hk; [by destruct k|].
  inversion Hv as [|? ? Hn Hnames]; subst. destruct k as [|x k]; [done|]. injection E as <- E.
  simpl. rewrite join_render by done. destruct k as [|y k]; [by left|right].
  rewrite (cons_middle n), app_assoc. eapply IH; [|done|exact E|done].
  apply Forall_app; by repeat constructor.
Qed.

(** The directory behind a root that was seen as one. *)
Lemma root_world p l :
  seen_directory (An := in_world w) p -> resolve w true p = Ok l -> real_dir (w_fs w) l.
Proof.
  intros (m & Hm & Hdir & _) Hr. apply reached_dir; [by eapply resolve_reached|].
  unfold answers, in_world in Hm. simpl in Hm. unfold stat in Hm.
  destruct (resolve w false p) as [l'|] eqn:Hr'; [|done].
  destruct (node_at (w_fs w) l') as [x|] eqn:Hx; [|done]. injection Hm as <-.
  apply directory_node in Hdir as (len & t & ->).
  unfold resolve in *. destruct (is_empty p); [done|].
  eapply walk_follow in Hr'; [|apply os_names_walkable|exact Hx|done].
  rewrite Hr' in Hr. injection Hr as <-. by exists len, t.
Qed.

(** The resolved target, when no link is on the way. *)
Lemma target_world root relative l :
  real_dir (w_fs w) root -> Forall (fun c => is_normal c = true) (components relative) ->
  (forall k m, List.filter named (segments relative) = (k ++ m)%list -> k <> [] ->
     forall n, node_at (w_fs w) (root ++ k) = Some n -> not_link n) ->
  resolve w true (join (render root) relative) = Ok l ->
  l = (root ++ List.filter named (segments relative))%list.
Proof.
  intros Hroot Hn Hlinks Hr. destruct (normal_components relative Hn) as (Ha & _ & Hv).
  unfold resolve in Hr. destruct (is_empty _); [done|].
  destruct (os_names_join root relative) as (dots & Hdots & E); [apply Hroot|done|].
  rewrite E in Hr.
  assert (is_absolute (join (render root) relative) = true) as Habs.
  { unfold join. rewrite Ha. by destruct (ends_with "/" (render root)). }
  unfold walk_base in Hr. rewrite Habs, walk_real in Hr by done. simpl app in Hr.
  assert (forall k, List.filter named (List.filter plain k) = List.filter named k) as Hnamed.
  { induction k as [|s k IH]; [done|]. simpl. destruct (plain s) eqn:Ep; simpl; rewrite IH; [done|].
    unfold plain, named, skipped in *. by destruct (s =?s ""). }
  rewrite <- (Hnamed (segments relative)). apply walk_plain in Hr; try done.
  - apply List.Forall_forall. intros s [Hin Hp]%filter_In.
    destruct (named s) eqn:Es.
    + right. apply (proj1 (List.Forall_forall _ _) Hv). by apply filter_In.
    + left. unfold named, plain, skipped in *. apply negb_false_iff, orb_true_iff in Es as [Es|Es].
      * by rewrite Es in Hp.
      * by apply String.eqb_eq.
  - by rewrite Hnamed.
Qed.
End World.

(** ** Confinement *)

Section Confined.
Context `{Blake3}.

(** The report describes the entry [names] below [root], reached without a
    link, without a sensitive name and outside every nested repository. *)
Record confined (w : world) (report : PathSafetyReport) (root names : loc) : Prop := {
  confined_names : names <> [] /\ components (relative_path report) = map Normal names;
  confined_root : psr_root report = render root;
  confined_path : forall k m, names = (k ++ m)%list -> m <> [] -> real_dir (w_fs w) (root ++ k);
  confined_target : path_eqb (psr_target report) (render (root ++ names)) = true;
  confined_entry :
    match w_fs w !! (root ++ names)%list with
    | Some n => psr_exists report = true /\ not_link n
    | None => psr_exists report = false
    end;
  confined_content : forall h, content_hash (fingerprint_of report) = Some h ->
    exists content t, w_fs w !! (root ++ names)%list = Some (File content t) /\ h = blake3_hex content;
  confined_sensitive :
    Forall (fun n => is_sensitive_name (to_ascii_lowercase (to_string_lossy n)) = false) names;
  confined_repository : forall k m, names = (k ++ m)%list -> k <> [] ->
    real_dir (w_fs w) (root ++ k) ->
    match w_fs w !! (root ++ k ++ [".git"])%list with Some n => n = Special | None => True end;
}.

Lemma safe_report_confined w target expectation report :
  real_dir (w_fs w) (w_cwd w) ->
  safe_report (An := in_world w) target expectation report ->
  exists root names, confined w report root names.
Proof.
  intros Hcwd [[Hseen Hroot] Hrel Hnormal Hsens Hnested Hwalked Hconf Hmissing _ Hcontent _].
  destruct (answer_canonicalize w Hcwd _ _ Hroot) as (root & Eroot & Hres & _).
  pose proof (root_world w Hcwd _ _ Hseen Hres) as Hreal.
  destruct (normal_components _ Hnormal) as (_ & Hcomp & Hv).
  set (names := List.filter named (segments (relative_path report))) in *.
  rewrite Hcomp, Eroot in *.
  destruct (walked_world w names _ root Hreal Hv Hwalked) as (Hne & Hpath & Hentry).
  assert (forall k m, names = (k ++ m)%list -> k <> [] ->
    forall n, node_at (w_fs w) (root ++ k) = Some n -> not_link n) as Hlinks.
  { intros k m E Hk n En. destruct (decide (m = [])) as [->|Hm].
    - rewrite app_nil_r in E. rewrite <- E in En. destruct (exists_last Hne) as (k' & x & Ek').
      rewrite Ek', app_assoc, node_at_snoc, <- app_assoc, <- Ek' in En. rewrite En in Hentry. apply Hentry.
    - destruct (real_dir_is_dir _ _ (Hpath k m E Hm)) as (len & t & F). rewrite F in En. by injection En as <-. }
  assert (psr_exists report = true -> psr_target report = render (root ++ names)) as Htarget.
  { intros He. destruct (Hconf He) as [Hcanon _].
    destruct (answer_canonicalize w Hcwd _ _ Hcanon) as (l & -> & Hl & _). f_equal.
    eapply target_world; [exact Hreal|by rewrite Hcomp|exact Hlinks|exact Hl]. }
  exists root, names. split; try done.
  - destruct (psr_exists report) eqn:He; [rewrite Htarget by done; apply path_eqb_refl|].
    rewrite (proj1 (Hmissing eq_refl)). unfold path_eqb. apply bool_decide_eq_true.
    apply components_join; [apply Hreal|by rewrite Hcomp].
  - intros h Hh. destruct (psr_exists report) eqn:He; [|by rewrite (proj2 (Hmissing eq_refl)) in Hh].
    destruct (Hcontent h Hh) as (bytes & Hread & ->). rewrite Htarget in Hread by done.
    destruct (exists_last Hne) as (k & x & Ek). pose proof Hpath k [x] Ek ltac:(done) as Hk.
    assert (valid_name x = true) as Hx.
    { rewrite Ek in Hv. apply Forall_app in Hv as [_ Hv]. by apply Forall_inv in Hv. }
    rewrite Ek, app_assoc in Hentry, Hread |- *.
    unfold answers, in_world in Hread. simpl in Hread. unfold read_file in Hread.
    destruct (w_fs w !! ((root ++ k) ++ [x])%list) as [n|] eqn:En; [|done].
    rewrite (resolve_render w true (root ++ k) x n) in Hread by (done || right; apply Hentry).
    rewrite node_at_snoc, En in Hread. destruct n; try done. injection Hread as <-. by eexists _, _.
  - rewrite Forall_map in Hsens. exact Hsens.
  - intros k m E Hk Hdir.
    pose proof (steps_from_world names root k m (proj1 Hreal) Hv E Hk) as Hin.
    pose proof (proj1 (List.Forall_forall _ _) Hnested _ Hin) as (r & Hr & Hok).
    rewrite join_render in Hr by (apply Hdir || done). apply answer_metadata in Hr; [|done..].
    rewrite app_assoc. destruct (w_fs w !! ((root ++ k) ++ [".git"])%list) as [n|]; [|done]. subst r.
    destruct n; try done; destruct Hok as (? & ? & ?); done.
Qed.
End Confined.

(** ** Ordinary files are admitted *)

Lemma join_with_cons n l : l <> [] -> join_with "/" (n :: l) = n ++ "/" ++ join_with "/" l.
Proof. by destruct l. Qed.

Lemma join_with_app l k : l <> [] -> k <> [] ->
  join_with "/" (l ++ k) = join_with "/" l ++ "/" ++ join_with "/" k.
Proof.
  intros Hl Hk. induction l as [|n l IH]; [done|]. destruct (decide (l = [])) as [->|Hne].
  - simpl app. by rewrite join_with_cons.
  - simpl app. rewrite !join_with_cons by (done || by destruct l). rewrite IH by done. by rewrite <- !append_assoc.
Qed.

Lemma join_render_app l k :
  valid_names l -> valid_names k -> k <> [] -> join (render l) (join_with "/" k) = render (l ++ k).
Proof.
  intros Hl Hk Hne. unfold join.
  assert (is_absolute (join_with "/" k) = false) as ->.
  { destruct Hk as [|n k Hn Hk]; [done|]. apply valid_name_spec in Hn as (Hn0 & _ & _ & Hs).
    destruct n as [|c n]; [done|]. assert (exists s, join_with "/" (String c n :: k) = String c s) as [s ->].
    { destruct k; simpl; [by eexists|]. rewrite append_cons. by eexists. }
    simpl in *. split_bools. by rewrite Ascii.eqb_sym. }
  change (is_empty (render l)) with false. cbn match.
  destruct (decide (l = [])) as [->|Hl']; [done|].
  destruct (exists_last Hl') as (k' & m & El). rewrite El in Hl. apply Forall_app in Hl as [Hk' Hm].
  apply Forall_inv in Hm. rewrite El, render_no_trailing, <- El by done.
  unfold render. rewrite join_with_app by done. by rewrite <- !append_assoc.
Qed.

Lemma components_relative k :
  valid_names k -> k <> [] -> components (join_with "/" k) = map Normal k.
Proof.
  intros Hk Hne. pose proof (join_render_app [] k ltac:(constructor) Hk Hne) as Hj.
  pose proof (components_render k Hk) as Hr. unfold components, body_segments, segments in *.
  rewrite is_absolute_render in Hr.
  assert (is_absolute (join_with "/" k) = false) as Ha.
  { unfold join in Hj. destruct (is_absolute (join_with "/" k)) eqn:Ha; [|done]. exfalso.
    simpl app in Hj. unfold render in Hj. apply (f_equal String.length) in Hj.
    rewrite length_append in Hj. simpl in Hj. lia. }
  unfold leading_cur_dir, segments. rewrite Ha, split_join by done. cbn [negb andb].
  pose proof (segments_render k Hk Hne) as Es. unfold segments in Es. rewrite Es in Hr.
  cbn [tail app] in Hr. injection Hr as Hr. destruct k as [|n k]; [done|].
  inversion Hk as [|? ? Hn _]; subst. apply valid_name_spec in Hn as (_ & Hn & _ & _).
  destruct n as [|[b0 b1 b2 b3 b4 b5 b6 b7] n]; [exact Hr|].
  repeat match goal with b : bool |- _ => destruct b end; try exact Hr; by destruct n.
Qed.

Section Ordinary.
Context (w : world).

(** The way from [cur] to a file: real directories, none of them a
    repository. *)
Fixpoint leads_to_file (cur names : loc) (content : string) (t : attributes) : Prop :=
  match names with
  | [] => False
  | [n] => valid_name n = true /\ w_fs w !! (cur ++ [n])%list = Some (File content t)
  | n :: rest =>
      valid_name n = true /\ is_dir_at (w_fs w) (cur ++ [n]) /\
      match w_fs w !! ((cur ++ [n]) ++ [".git"])%list with Some x => x = Special | None => True end /\
      leads_to_file (cur ++ [n]) rest content t
  end.

Lemma leads_step cur n n' rest content t :
  real_dir (w_fs w) cur -> leads_to_file cur (n :: n' :: rest) content t ->
  real_dir (w_fs w) (cur ++ [n]) /\ leads_to_file (cur ++ [n]) (n' :: rest) content t.
Proof. intros Hcur (Hn & Hdir & _ & Hrest). split; [by apply real_dir_snoc|done]. Qed.

Lemma leads_names names : forall cur content t,
  leads_to_file cur names content t -> names <> [] /\ valid_names names.
Proof.
  induction names as [|n names IH]; intros cur content t Hl; [done|]. split; [done|].
  destruct names as [|n' names]; [constructor; [apply Hl|constructor]|].
  destruct Hl as (Hn & _ & _ & Hl). constructor; [done|]. by eapply IH.
Qed.

(** The last directory and the file in it. *)
Lemma leads_last names : forall cur content t,
  real_dir (w_fs w) cur -> leads_to_file cur names content t ->
  exists dir n, (cur ++ names)%list = (dir ++ [n])%list /\ real_dir (w_fs w) dir /\ valid_name n = true /\
    w_fs w !! (dir ++ [n])%list = Some (File content t).
Proof.
  induction names as [|n names IH]; intros cur content t Hcur Hl; [done|].
  destruct names as [|n' names]; [destruct Hl; by exists cur, n|].
  apply leads_step in Hl as [Hnext Hl]; [|done].
  destruct (IH _ _ _ Hnext Hl) as (dir & m & E & ?). exists dir, m. by rewrite (cons_middle n), app_assoc.
Qed.

(** Nothing is found below a file. *)
Lemma stat_below_file dir n m content t :
  real_dir (w_fs w) dir -> valid_name n = true -> valid_name m = true ->
  w_fs w !! (dir ++ [n])%list = Some (File content t) ->
  stat w false (render ((dir ++ [n]) ++ [m])) = Err enotdir.
Proof.
  intros Hdir Hn Hm Hfile. unfold stat, resolve. change (is_empty _) with false. cbn match.
  assert (valid_names ((dir ++ [n]) ++ [m])) as Hv.
  { apply Forall_app; split; [apply Forall_app; split; [apply Hdir|]|]; by repeat constructor. }
  rewrite os_names_render by done.
  change (walk_base (w_cwd w) (render ((dir ++ [n]) ++ [m]))) with (@nil string).
  rewrite <- app_assoc, walk_real by done. simpl app. rewrite walk_step by done.
  by rewrite node_at_snoc, Hfile.
Qed.

Lemma nested_wp names : forall cur content t,
  real_dir (w_fs w) cur -> leads_to_file cur names content t ->
  wp (fun _ => True) (reject_nested_from (render cur) (map Normal names)) w (fun w' o => w' = w /\ o = Ok tt).
Proof.
  induction names as [|n names IH]; intros cur content t Hcur Hl; [done|]. simpl.
  assert (valid_name n = true) as Hn by (destruct names; apply Hl).
  rewrite join_render by (apply Hcur || done).
  assert (valid_names (cur ++ [n])) as Hv by (apply Forall_app; split; [apply Hcur|by repeat constructor]).
  rewrite (join_render (cur ++ [n]) ".git") by done.
  destruct names as [|n' names].
  - destruct Hl as [_ Hfile]. rewrite (stat_below_file cur n ".git" content t) by done. by simpl.
  - pose proof (leads_step _ _ _ _ _ _ Hcur Hl) as [Hnext Hrest]. destruct Hl as (_ & _ & Hgit & _).
    assert (exists r, stat w false (render ((cur ++ [n]) ++ [".git"])) = r /\
      match r with Ok m => md_type m = OtherType | Err _ => True end) as (r & -> & Hr).
    { eexists. split; [reflexivity|]. unfold stat.
      destruct (w_fs w !! ((cur ++ [n]) ++ [".git"])%list) as [x|] eqn:Hx.
      - subst x. rewrite (resolve_render w false (cur ++ [n]) ".git" Special) by auto.
        by rewrite node_at_snoc, Hx.
      - by rewrite (resolve_missing w false (cur ++ [n]) ".git"). }
    split; [done|]. destruct r as [m|e]; [|by eapply IH].
    unfold is_dir, is_file, Paths.metadata_is_link_or_reparse, is_symlink. rewrite Hr. by eapply IH.
Qed.

Lemma components_wp names expectation : forall cur content t,
  real_dir (w_fs w) cur -> leads_to_file cur names content t ->
  wp (fun _ => True) (inspect_components_from (render cur) (map Normal names) expectation) w
    (fun w' o => w' = w /\ o = Ok (true, Some (Metadata RegularFile (strlen content) t))).
Proof.
  induction names as [|n names IH]; intros cur content t Hcur Hl; [done|]. simpl.
  assert (valid_name n = true) as Hn by (destruct names; apply Hl).
  rewrite join_render by (apply Hcur || done). split; [done|].
  destruct names as [|n' names].
  - destruct Hl as [_ Hfile]. unfold stat. rewrite (resolve_render w false cur n _ Hcur Hn Hfile) by auto.
    by rewrite node_at_snoc, Hfile.
  - pose proof (leads_step _ _ _ _ _ _ Hcur Hl) as [Hnext Hrest]. destruct Hl as (_ & (len & u & Hd) & _).
    unfold stat. rewrite resolve_dir, Hd by done. simpl. by eapply IH.
Qed.
End Ordinary.

Lemma path_starts_with_render l k :
  valid_names l -> valid_names k -> path_starts_with (render (l ++ k)) (render l) = true.
Proof.
  intros Hl Hk. unfold path_starts_with. apply bool_decide_eq_true.
  rewrite !components_render by (done || by apply Forall_app).
  simpl. f_equal. rewrite map_app. apply take_app_length.
Qed.

Lemma relative_target_names root names :
  valid_names names -> names <> [] ->
  relative_target root (join_with "/" names) = Ok (join_with "/" names).
Proof.
  intros Hv Hne. pose proof (components_relative names Hv Hne) as Hcomp.
  assert (Forall (fun c => is_normal c = true) (components (join_with "/" names))) as Hn
    by (rewrite Hcomp; by apply Forall_map, Forall_true).
  destruct (normal_components _ Hn) as (Ha & _). unfold relative_target. rewrite Ha. cbn [rbind].
  destruct (is_empty (join_with "/" names)) eqn:He.
  - exfalso. destruct (join_with "/" names); [|done]. by destruct names.
  - simpl. rewrite (proj2 (existsb_false_Forall _ _)); [done|].
    eapply Forall_impl; [exact Hn|]. by intros c ->.
Qed.

Section Admits.
Context `{Blake3}.

(** The report of a regular file. *)
Definition file_report (root names : loc) (content : string) (t : attributes) : PathSafetyReport := {|
  psr_root := render root;
  psr_target := render (root ++ names);
  relative_path := join_with "/" names;
  psr_exists := true;
  fingerprint_of := {|
    metadata_hash := blake3_hex (metadata_value (Metadata RegularFile (strlen content) t));
    content_hash := Some (blake3_hex content);
    fp_bytes := strlen content;
    modified_unix_nanos := default 0 (at_modified t) |};
|}.

Lemma fingerprint_wp w dir n content t expected :
  real_dir (w_fs w) dir -> valid_name n = true -> w_fs w !! (dir ++ [n])%list = Some (File content t) ->
  strlen content <= MAX_POLICY_HASH_FILE_BYTES ->
  (forall h, expected = Some h -> h = blake3_hex content) ->
  wp (fun _ => True)
    (fingerprint (Some (Metadata RegularFile (strlen content) t)) (render (dir ++ [n])) expected) w
    (fun w' o => w' = w /\ o = Ok {|
      metadata_hash := blake3_hex (metadata_value (Metadata RegularFile (strlen content) t));
      content_hash := Some (blake3_hex content);
      fp_bytes := strlen content;
      modified_unix_nanos := default 0 (at_modified t) |}).
Proof.
  intros Hdir Hn Hfile Hsize Hexp. unfold fingerprint. cbn [is_file md_type md_len].
  rewrite (proj2 (N.leb_le _ _) Hsize), orb_true_r, (proj2 (N.ltb_ge _ _) Hsize). simpl.
  split; [done|]. unfold read_file. rewrite (resolve_render w true dir n _ Hdir Hn Hfile) by (by right).
  rewrite node_at_snoc, Hfile. simpl.
  assert (is_some_and (fun e => negb (e =?s blake3_hex content)) expected = false) as ->; [|done].
  destruct expected as [h|]; [|done]. simpl. rewrite (Hexp h eq_refl). by rewrite String.eqb_refl.
Qed.

Lemma inspect_file_wp w root names content t range expected expectation :
  real_dir (w_fs w) root -> leads_to_file w root names content t ->
  Forall (fun n => is_sensitive_name (to_ascii_lowercase (to_string_lossy n)) = false) names ->
  strlen content <= MAX_POLICY_HASH_FILE_BYTES ->
  (forall h, expected = Some h -> h = blake3_hex content) ->
  expectation = ExpectFile \/ expectation = ExistingEntry ->
  wp (fun _ => True)
    (inspect_path {| pt_root := render root; pt_path := join_with "/" names; pt_range := range;
                     pt_expected_hash := expected |} expectation) w
    (fun w' o => w' = w /\ o = Ok (file_report root names content t)).
Proof.
  intros Hroot Hl Hsens Hsize Hexp Hexpect. pose proof (leads_names _ _ _ _ _ Hl) as [Hne Hv].
  pose proof (real_dir_is_dir _ _ Hroot) as (len & u & Hdir).
  pose proof (components_relative names Hv Hne) as Hcomp.
  unfold inspect_path. cbn [pt_root pt_path pt_expected_hash].
  eapply wp_call; [simpl; unfold stat; by rewrite resolve_dir, Hdir|done|]. cbn [map_err bind].
  cbn [io_map_err bind map_err try_bind node_metadata md_type is_dir].
  simpl reject_if. cbn [lift try_bind bind].
  eapply wp_call; [by apply exec_canonicalize_dir|done|]. cbn [map_err bind try_bind].
  rewrite relative_target_names by done. cbn [lift try_bind bind].
  unfold reject_sensitive_path. rewrite Hcomp, (proj2 (existsb_false_Forall _ _)) by (by apply Forall_map).
  cbn [reject_if lift try_bind bind].
  unfold reject_nested_repository. rewrite Hcomp. eapply wp_bind; [by eapply nested_wp|]. intros ? ? [-> ->].
  unfold inspect_components. rewrite Hcomp, join_render_app by (done || apply Hroot).
  eapply wp_bind; [by eapply components_wp|]. intros ? ? [-> ->].
  destruct (leads_last _ _ _ _ _ Hroot Hl) as (dir & n & E & Hd & Hn & Hfile).
  unfold file_report. rewrite E.
  eapply wp_bind with (P := fun w' o => w' = w /\ o = Ok (render (dir ++ [n]))).
  { simpl. unfold canonicalize. rewrite (resolve_render w true dir n _ Hd Hn Hfile) by (by right). simpl.
    split; [done|]. rewrite <- E, path_starts_with_render; [by simpl|apply Hroot|done]. }
  intros ? ? [-> ->].
  assert (check_expectation (Some (Metadata RegularFile (strlen content) t)) expectation = Ok tt) as ->
    by (by destruct Hexpect as [-> | ->]).
  cbn [lift try_bind bind]. eapply wp_bind; [by apply fingerprint_wp|].
  intros ? ? [-> ->]. by split.
Qed.
End Admits.

(** ** Properties *)

(** C12: on any file system, a report of [inspect_path] describes the entry
    its relative path names below the resolved root: every directory on the
    way is real, the entry is no link, its name is not sensitive, no
    repository is entered, and the content hash is the one of the file. *)
Theorem inspect_path_confined `{Blake3} w target expectation report :
  real_dir (w_fs w) (w_cwd w) ->
  eval (inspect_path target expectation) w = Done (Ok report) ->
  exists root names, confined w report root names.
Proof.
  intros Hcwd Hr. apply (safe_report_confined w target expectation); [done|].
  change (ok_post (E := PathSafetyError) (safe_report (An := in_world w) target expectation) (Ok report)).
  eapply must_eval; [apply inspect_path_must|apply inspect_path_observer|exact Hr].
Qed.

Definition demo_report : PathSafetyReport :=
  match eval (inspect_path (source_file "/repo") ExpectFile) demo_world with
  | Done (Ok report) => report
  | _ => file_report [] [] "" no_attributes
  end.

Lemma inspect_path_confined_witness :
  psr_exists demo_report = true /\ exists root names, confined demo_world demo_report root names.
Proof.
  split; [vm_compute; reflexivity|].
  apply (inspect_path_confined demo_world (source_file "/repo") ExpectFile); [apply real_dir_root|].
  vm_compute. reflexivity.
Defined.

(** An ordinary file is admitted: below a real root, through real
    directories that are no repositories, with no sensitive name, within the
    hash limit and with the expected content, [inspect_path] returns exactly
    its report and changes nothing. *)
Theorem inspect_path_admits_file `{Blake3} w root names content t range expected expectation :
  real_dir (w_fs w) root -> leads_to_file w root names content t ->
  Forall (fun n => is_sensitive_name (to_ascii_lowercase (to_string_lossy n)) = false) names ->
  strlen content <= MAX_POLICY_HASH_FILE_BYTES ->
  (forall h, expected = Some h -> h = blake3_hex content) ->
  expectation = ExpectFile \/ expectation = ExistingEntry ->
  run (inspect_path {| pt_root := render root; pt_path := join_with "/" names; pt_range := range;
                       pt_expected_hash := expected |} expectation) w =
    (w, Done (Ok (file_report root names content t))).
Proof.
  intros Hroot Hl Hsens Hsize Hexp Hexpect.
  destruct (wp_run _ _ _ _ (inspect_file_wp w root names content t range expected expectation
    Hroot Hl Hsens Hsize Hexp Hexpect)) as (w' & o & E & -> & ->).
  exact E.
Qed.

Lemma inspect_path_admits_file_witness :
  run (inspect_path (source_file "/repo") ExpectFile) demo_world =
    (demo_world, Done (Ok (file_report ["repo"] ["src"; "A.java"] "class A {}" (Attributes (Some 6) (Some 6) 33188)))).
Proof.
  apply (inspect_path_admits_file demo_world ["repo"] ["src"; "A.java"]).
  - apply real_dir_check. vm_compute. reflexivity.
  - split; [reflexivity|]. split; [exists 4096, (Attributes (Some 5) (Some 5) 16877); vm_compute; reflexivity|].
    split; [vm_compute; exact I|]. split; vm_compute; reflexivity.
  - repeat constructor.
  - vm_compute. discriminate.
  - discriminate.
  - by left.
Defined.
