(* ===== verification/Consumers.v ===== *)
(** * Concurrent consumers of approvals

    Several threads, in any interleaving of their calls, consume approvals
    of one store: the creation of the claim file elects at most one winner
    per approval. *)

From stdpp Require Import base list strings gmap.
From Stdlib Require Import NArith Ascii String Lia.
From S2P Require Import Prelude Bytes UnixPath IO World Model Paths AuditLog Approval Rules Worktree Actions ActionFacts Observers Trace AuditFacts WorldFacts Publication ApprovalFacts Engine Demo.

Local Open Scope string_scope.
Local Open Scope N_scope.

(** ** The layout of a store *)

(** No entry of the directory is itself a directory. *)
Definition flat (fs : fsys) (dir : loc) : Prop := forall n, ~ is_dir_at fs (dir ++ [n]).

(** The two directories of a store, as [ApprovalStore_open] leaves them. *)
Record store_layout (store : ApprovalStore) (active used : loc) (fs : fsys) : Prop := {
  layout_active : active_dir store = render active;
  layout_used : used_dir store = render used;
  layout_real_active : real_dir fs active;
  layout_real_used : real_dir fs used;
  layout_flat_active : flat fs active;
  layout_flat_used : flat fs used;
}.

(** A change of one entry that is no directory, to a value that is none. *)
Lemma flat_alter fs fs' dir x :
  flat fs dir -> ~ is_dir_at fs' x -> (forall k, k <> x -> fs' !! k = fs !! k) -> flat fs' dir.
Proof.
  intros Hf Hx Hfs n (len & t & Hn). rewrite node_at_snoc in Hn.
  destruct (decide ((dir ++ [n])%list = x)) as [E|E].
  - apply Hx. exists len, t. by rewrite <- E, node_at_snoc.
  - rewrite Hfs in Hn by done. apply (Hf n). exists len, t. by rewrite node_at_snoc.
Qed.

Lemma layout_alter store active used fs fs' x :
  store_layout store active used fs -> ~ is_dir_at fs x -> ~ is_dir_at fs' x ->
  (forall k, k <> x -> fs' !! k = fs !! k) -> store_layout store active used fs'.
Proof.
  intros [] Hx Hx' Hfs. split; try done; (by eapply real_dir_alter) || by eapply flat_alter.
Qed.

(** ** Names of an approval's files *)

Lemma id_suffix_valid id suffix :
  all_bytes is_id_byte id = true -> any_byte (Ascii.eqb slash) suffix = false ->
  (3 <= String.length suffix)%nat -> valid_name (id ++ suffix) = true.
Proof.
  intros Hid Hs Hlen. unfold valid_name, skipped. rewrite any_byte_app, (id_bytes_no_slash id Hid), Hs.
  assert (forall s, (String.length s < 3)%nat -> (id ++ suffix =?s s) = false) as Hne.
  { intros s Hl. apply String.eqb_neq. intros E. apply (f_equal String.length) in E.
    rewrite length_append in E. lia. }
  by rewrite !Hne by (simpl; lia).
Qed.

(** Names that end differently differ. *)
Lemma last_byte_app a c : String.get (String.length a) (a ++ String c "") = Some c.
Proof. induction a as [|x a IH]; [done|]. rewrite append_cons. exact IH. Qed.

Lemma ends_differ a b c d : c <> d -> a ++ String c "" <> b ++ String d "".
Proof.
  intros Hcd E. pose proof (last_byte_app a c) as Ha. pose proof (last_byte_app b d) as Hb.
  pose proof (f_equal String.length E) as El. rewrite !length_append in El. simpl in El.
  rewrite E in Ha. replace (String.length a) with (String.length b) in Ha by lia. congruence.
Qed.

(** ** What the calls of a consumer do to a claim *)

Section Claim.
Context (store : ApprovalStore) (active used : loc) (claim : loc).

Definition held (fs : fsys) : Prop := exists n, fs !! claim = Some n.

(** A call that preserves the layout, and the claim once it is held. *)
Definition keeps (R : Set) (c : syscall R) : Prop :=
  forall w w' r, exec c w = (w', r) -> store_layout store active used (w_fs w) ->
  store_layout store active used (w_fs w') /\ (held (w_fs w) -> held (w_fs w')).

Lemma keeps_same R (c : syscall R) : (forall w, w_fs (fst (exec c w)) = w_fs w) -> keeps R c.
Proof. intros Hc w w' r E Hl. specialize (Hc w). rewrite E in Hc. simpl in Hc. by rewrite Hc. Qed.

Lemma keeps_create dir n :
  (forall fs, store_layout store active used fs -> real_dir fs dir) -> valid_name n = true ->
  keeps _ (CreateNew (render (dir ++ [n]))).
Proof.
  intros Hdir Hn w w' r E Hl. rewrite exec_create_new in E by auto.
  destruct (w_fs w !! (dir ++ [n])%list) eqn:Hx; simplify_eq; [done|]. simpl. split.
  - eapply (layout_alter _ _ _ _ _ (dir ++ [n])%list); [exact Hl|by apply missing_not_dir|
      |by intros k Hk; rewrite lookup_insert_ne].
    by eapply file_not_dir, lookup_insert_eq.
  - intros [m Hm]. unfold held. destruct (decide ((dir ++ [n])%list = claim)) as [<-|].
    + by rewrite lookup_insert_eq; eexists.
    + rewrite lookup_insert_ne by done. by exists m.
Qed.

(** Renaming one entry to another, neither of them a directory. *)
Lemma keeps_rename from_dir from_name to_dir to_name :
  (forall fs, store_layout store active used fs -> real_dir fs from_dir /\ flat fs from_dir) ->
  (forall fs, store_layout store active used fs -> real_dir fs to_dir /\ flat fs to_dir) ->
  valid_name from_name = true -> valid_name to_name = true -> (from_dir ++ [from_name])%list <> claim ->
  keeps _ (Rename (render (from_dir ++ [from_name])) (render (to_dir ++ [to_name]))).
Proof.
  intros Hfrom Hto Hn Hm Hclaim w w' r E Hl. destruct (Hfrom _ Hl) as [Hf Hff], (Hto _ Hl) as [Ht Htf].
  simpl in E. unfold rename in E. rewrite !locate_render in E by done.
  set (from := (from_dir ++ [from_name])%list) in *. set (to := (to_dir ++ [to_name])%list) in *.
  assert (~ is_dir_at (w_fs w) from) as Hnf by apply Hff. assert (~ is_dir_at (w_fs w) to) as Hnt by apply Htf.
  unfold rename_at in E. assert (node_at (w_fs w) from = w_fs w !! from) as Efrom by apply node_at_snoc.
  rewrite Efrom in E. destruct (w_fs w !! from) as [x|] eqn:Hx; [|by simplify_eq/=].
  destruct (decide (from = to)) as [|Hne]; [by simplify_eq/=|].
  assert (forall len t, x <> Dir len t) as Hxd.
  { intros len t ->. apply Hnf. exists len, t. by rewrite Efrom. }
  assert (node_at (w_fs w) to = w_fs w !! to) as Eto by apply node_at_snoc.
  assert (w' = set_fs (<[to := x]> (delete from (w_fs w))) w) as ->.
  { destruct x as [| ? ?| |]; [|by destruct (Hxd len attr)|..].
    all: destruct (node_at (w_fs w) to) as [[| ? ?| |]|] eqn:Ht'; try (by simplify_eq).
    all: destruct Hnt; by eexists _, _. }
  simpl. split.
  - eapply (layout_alter _ _ _ _ _ to).
    + eapply (layout_alter _ _ _ _ (delete from (w_fs w)) from); [exact Hl|done| |].
      * intros (len & t & F). unfold from in F. rewrite node_at_snoc in F. fold from in F.
        by rewrite lookup_delete_eq in F.
      * intros k Hk. by rewrite lookup_delete_ne.
    + intros (len & t & F). apply Hnt. exists len, t. unfold to in *. rewrite node_at_snoc in *.
      by rewrite lookup_delete_ne in F.
    + intros (len & t & F). unfold to in F. rewrite node_at_snoc in F. fold to in F.
      rewrite lookup_insert_eq in F. simplify_eq. by eapply Hxd.
    + intros k Hk. by rewrite lookup_insert_ne.
  - intros [m Hc]. unfold held. destruct (decide (to = claim)) as [<-|].
    + rewrite lookup_insert_eq. by eexists.
    + rewrite lookup_insert_ne, lookup_delete_ne by done. by exists m.
Qed.

(** ** The calls of a consumer *)

(** Follows a program down to its calls. *)
Ltac keep_calls :=
  repeat first
    [ done
    | assumption
    | apply keeps_same; intros ?; reflexivity
    | apply calls_map_err
    | apply calls_try; [|intros ?]
    | apply calls_bind; [|intros ?]
    | match goal with
      | |- calls _ (sys _) => split; [|done]
      | |- calls _ (Sys _ _) => split; [|intros ?]
      | |- calls _ (match ?x with _ => _ end) => destruct x
      end ].


Context (Hactive : active_dir store = render active) (Hused : used_dir store = render used).
Context (Hva : valid_names active) (Hvu : valid_names used).

Lemma file_of_approval dir id suffix :
  valid_names dir -> all_bytes is_id_byte id = true ->
  any_byte (Ascii.eqb slash) suffix = false -> (3 <= String.length suffix)%nat ->
  join (render dir) (id ++ suffix) = render (dir ++ [(id ++ suffix)%string]) /\ valid_name (id ++ suffix) = true.
Proof. intros. assert (valid_name (id ++ suffix) = true) by by apply id_suffix_valid. by rewrite join_render. Qed.

Context (id : string) (Hclaim : claim = (used ++ [(id ++ ".claim")%string])%list).

Lemma json_not_claim dir id' : (dir ++ [(id' ++ ".json")%string])%list <> claim.
Proof.
  rewrite Hclaim. intros [_ E]%app_inj_tail. revert E.
  change ".json" with (".jso" ++ "n"). change ".claim" with (".clai" ++ "m").
  rewrite <- !append_assoc. by apply ends_differ.
Qed.

Lemma consume_at_keeps `{Blake3, ApprovalSerde} id' observed now :
  calls keeps (consume_at store id' observed now).
Proof.
  unfold consume_at. destruct (validate_storage_id id') as [[]|] eqn:Hid; [|done].
  assert (all_bytes is_id_byte id' = true) as Hbytes.
  { unfold validate_storage_id in Hid. rewrite bail_if_ok in Hid. by split_bools. }
  assert (forall fs, store_layout store active used fs -> real_dir fs active /\ flat fs active) as Hla by (by intros ? []).
  assert (forall fs, store_layout store active used fs -> real_dir fs used /\ flat fs used) as Hlu by (by intros ? []).
  destruct (file_of_approval active id' ".json" Hva Hbytes eq_refl) as [Ea Hna]; [simpl; lia|].
  destruct (file_of_approval used id' ".json" Hvu Hbytes eq_refl) as [Eu Hnu]; [simpl; lia|].
  destruct (file_of_approval used id' "-consuming.json" Hvu Hbytes eq_refl) as [Ec Hnc]; [simpl; lia|].
  destruct (file_of_approval used id' ".claim" Hvu Hbytes eq_refl) as [El Hnl]; [simpl; lia|].
  unfold already_claimed, take_claim, take_record, read_record, active_path, used_path, consuming_path, claim_path.
  rewrite Hactive, Hused, Ea, Eu, Ec, El.
  pose proof (json_not_claim active id').
  assert ((used ++ [(id' ++ "-consuming.json")%string])%list <> claim).
  { change "-consuming.json" with ("-consuming" ++ ".json"). rewrite <- append_assoc. apply json_not_claim. }
  assert (keeps _ (CreateNew (render (used ++ [(id' ++ ".claim")%string]))))
    by (apply keeps_create; [apply Hlu|done]).
  assert (keeps _ (Rename (render (active ++ [(id' ++ ".json")%string]))
    (render (used ++ [(id' ++ "-consuming.json")%string])))) by by apply keeps_rename.
  assert (keeps _ (Rename (render (used ++ [(id' ++ "-consuming.json")%string]))
    (render (used ++ [(id' ++ ".json")%string])))) by by apply keeps_rename.
  keep_calls.
Qed.
End Claim.

(** ** Winning needs the claim *)

(** The event creates the file [path]. *)
Definition creates (path : string) (e : event) : bool :=
  match e with
  | Ev c r =>
      match c in syscall R return R -> bool with
      | CreateNew p => fun r => (p =?s path) && is_ok r
      | _ => fun _ => false
      end r
  end.

(** Every execution that succeeds creates [path] on its way. *)
Fixpoint needs {A E} (path : string) (m : IO (result A E)) : Prop :=
  match m with
  | Ret r => is_ok r = false
  | Panic _ => True
  | Sys c k => forall r, creates path (Ev c r) = false -> needs path (k r)
  end.

Lemma needs_of_trace {A E} path (m : IO (result A E)) :
  trace_must (An := any_answer) m (ok_trace (fun _ t => existsb (creates path) t = true)) -> needs path m.
Proof.
  induction m as [r|s|R c k IH]; simpl; intros Hm.
  - destruct r; [|done]. by unfold trace_must in Hm.
  - done.
  - intros r Hr. change (creates path (Ev c r) = false) in Hr. apply IH. pose proof (proj1 (trace_must_call_iff _ _ _) Hm r I) as Hk.
    eapply trace_must_mono; [exact Hk|]. intros [a|e] t; [|done]. unfold ok_trace. cbn [existsb]. by rewrite Hr.
Qed.

Lemma consume_at_needs `{Blake3, ApprovalSerde} store id observed now :
  needs (claim_path store id) (consume_at store id observed now).
Proof.
  apply needs_of_trace. eapply trace_must_mono; [apply consume_at_trace|]. intros [grant|e] t; [|done].
  intros (bytes & r & (e1 & e2 & e3 & m & h & md & _ & _ & ->) & _). simpl. by rewrite String.eqb_refl.
Qed.

(** ** The election *)

Section Election.
Context `{Blake3, ApprovalSerde}.
Context (store : ApprovalStore) (active used : loc).

Record consumer := Consumer {
  c_id : string;
  c_observed : ApprovalBinding;
  c_now : N;
}.

Definition consumer_program (c : consumer) : IO (claimed ApprovalGrant) :=
  consume_at store (c_id c) (c_observed c) (c_now c).

(** What holds of a thread at any time: its grant, if it has one, is backed
    by a record that grants what it observed. *)
Definition thread_sound (c : consumer) (m : IO (claimed ApprovalGrant)) : Prop :=
  must (An := any_answer) m (ok_post (fun grant => all_bytes is_id_byte (c_id c) = true /\ exists r,
    record_grants (c_observed c) (c_now c) r /\ grant = grant_of (c_id c) r Consumed)).

Lemma consumer_sound c : thread_sound c (consumer_program c).
Proof.
  unfold thread_sound, consumer_program. destruct (all_bytes is_id_byte (c_id c)) eqn:Hid.
  - apply must_of_trace. eapply trace_must_mono; [apply consume_at_trace|].
    intros [grant|e] t; [|done]. intros (bytes & r & _ & _ & ? & ->). split; [done|by exists r].
  - unfold consume_at, validate_storage_id. by rewrite Hid, orb_true_r.
Qed.

Context (threads : list consumer) (id : string).
Let claim : loc := (used ++ [(id ++ ".claim")%string])%list.

(** At most one thread is past the need of the claim, and then it exists. *)
Definition elected (fs : fsys) (pool : list (IO (claimed ApprovalGrant))) : Prop :=
  exists winner : option nat,
    (winner <> None -> held claim fs) /\
    forall i c m, threads !! i = Some c -> pool !! i = Some m -> c_id c = id ->
      winner <> Some i -> needs (render claim) m.

Record election (s : world * list (IO (claimed ApprovalGrant))) : Prop := {
  election_layout : store_layout store active used (w_fs (fst s));
  election_keeps : Forall (calls (keeps store active used claim)) (snd s);
  election_sound : Forall2 thread_sound threads (snd s);
  election_one : valid_name (id ++ ".claim") = true -> elected (w_fs (fst s)) (snd s);
}.

(** The claim is created by a call only where there was none. *)
Lemma creates_fresh R (c : syscall R) w w' r :
  valid_name (id ++ ".claim") = true -> store_layout store active used (w_fs w) ->
  exec c w = (w', r) -> creates (render claim) (Ev c r) = true ->
  ~ held claim (w_fs w) /\ held claim (w_fs w').
Proof.
  intros Hn Hl E Hc. destruct c; try done. simpl in Hc. split_bools. rewrite String.eqb_eq in *. subst p.
  unfold claim in *. rewrite exec_create_new in E by (done || apply Hl).
  destruct (w_fs w !! _) eqn:Hx; simplify_eq; try done. unfold held. simpl. split.
  - intros [n F]. congruence.
  - rewrite lookup_insert_eq. by eexists.
Qed.

Lemma elected_step (w w' : world) pool i (R : Set) (c : syscall R) k r :
  valid_name (id ++ ".claim") = true -> store_layout store active used (w_fs w) ->
  pool !! i = Some (Sys c k) -> exec c w = (w', r) ->
  (held claim (w_fs w) -> held claim (w_fs w')) ->
  elected (w_fs w) pool -> elected (w_fs w') (<[i := k r]> pool).
Proof.
  intros Hn Hl Hi E Hkeep (winner & Hheld & Hneeds).
  assert (forall j cj m, <[i := k r]> pool !! j = Some m -> threads !! j = Some cj -> c_id cj = id ->
    winner <> Some j -> (j = i -> creates (render claim) (Ev c r) = false) -> needs (render claim) m) as Hrest.
  { intros j cj m Hj Ht Hid Hw Hc. destruct (decide (i = j)) as [<-|Hne].
    - rewrite list_lookup_insert_eq in Hj by (by apply lookup_lt_Some in Hi). injection Hj as <-.
      specialize (Hneeds i cj _ Ht Hi Hid Hw). simpl in Hneeds. auto.
    - rewrite list_lookup_insert_ne in Hj by done. eauto. }
  destruct (creates (render claim) (Ev c r)) eqn:Hc.
  - destruct (creates_fresh _ _ _ _ _ Hn Hl E Hc) as [Hno Hyes].
    assert (winner = None) as -> by (destruct winner; [destruct Hno; by apply Hheld|done]).
    exists (Some i). split; [done|]. intros j cj m Ht Hj Hid Hw.
    apply (Hrest j cj m Hj Ht Hid); [done|]. intros ->. by destruct Hw.
  - exists winner. split; [auto|]. intros j cj m Ht Hj Hid Hw. by apply (Hrest j cj m Hj Ht Hid Hw).
Qed.

Lemma must_step {A} (m : IO A) (R : Set) (c : syscall R) k r P :
  m = Sys c k -> must (An := any_answer) m P -> must (An := any_answer) (k r) P.
Proof. intros -> Hm. by apply Hm. Qed.

Lemma election_step s t :
  election s -> pool_step s t -> election t.
Proof.
  intros [Hl Hk Hs He] Hstep. destruct Hstep as [w pool i R c k w' r Hi E]. simpl in *.
  pose proof (proj1 (Forall_lookup _ _) Hk i _ Hi) as [Hc Hkr].
  destruct (Hc w w' r E Hl) as [Hl' Hkeep]. split; simpl; [done|..].
  - apply Forall_insert; [done|apply Hkr].
  - destruct (Forall2_lookup_r _ _ _ _ _ Hs Hi) as (ci & Hci & Hsound).
    rewrite <- (list_insert_id threads i ci Hci). apply Forall2_insert; [done|]. by apply Hsound.
  - intros Hn. specialize (He Hn). by apply (elected_step w w' pool i R c k r).
Qed.

Lemma election_start w :
  store_layout store active used (w_fs w) -> election (w, map consumer_program threads).
Proof.
  intros Hl. split; simpl; [done|..].
  - apply Forall_map, Forall_true. intros c.
    eapply consume_at_keeps; [apply Hl..|reflexivity]; apply Hl.
  - rewrite Forall2_fmap_r. apply Forall_Forall2_diag, Forall_true. apply consumer_sound.
  - intros Hn. exists None. split; [done|]. intros i c m Ht Hm Hid _. rewrite list_lookup_fmap, Ht in Hm.
    injection Hm as <-. unfold consumer_program. rewrite Hid.
    replace (render claim) with (claim_path store id); [apply consume_at_needs|].
    unfold claim_path. rewrite (layout_used _ _ _ _ Hl). apply join_render; [apply Hl|done].
Qed.

Lemma election_unique s i j c e g h :
  election s -> threads !! i = Some c -> threads !! j = Some e -> c_id c = id -> c_id e = id ->
  snd s !! i = Some (Ret (Ok g)) -> snd s !! j = Some (Ret (Ok h)) -> i = j.
Proof.
  intros [Hl _ Hs He] Hi Hj Hci Hej Hg Hh.
  destruct (Forall2_lookup_lr _ _ _ _ _ _ Hs Hi Hg) as [Hid _]. rewrite Hci in Hid.
  destruct He as (winner & _ & Hneeds); [by apply id_suffix_valid; [..|simpl; lia]|].
  destruct (decide (winner = Some i)) as [->|Hw]; [|by specialize (Hneeds i c _ Hi Hg Hci Hw)].
  destruct (decide (i = j)) as [|Hne]; [done|].
  assert (Some i <> Some j) as Hw by congruence. by specialize (Hneeds j e _ Hj Hh Hej Hw).
Qed.
End Election.

(** ** A scheduler *)

(** Runs one call of each thread of the list, in turn. *)
Fixpoint schedule {A} (turns : list nat) (s : world * list (IO A)) : world * list (IO A) :=
  match turns with
  | [] => s
  | i :: rest =>
      match snd s !! i with
      | Some (Sys c k) =>
          let '(w', r) := exec c (fst s) in schedule rest (w', <[i := k r]> (snd s))
      | _ => schedule rest s
      end
  end.

Lemma schedule_steps {A} turns (s : world * list (IO A)) :
  steps pool_step s (fst (schedule turns s), snd (schedule turns s)).
Proof.
  rewrite <- surjective_pairing. revert s. induction turns as [|i rest IH]; intros [w pool]; simpl; [constructor|].
  destruct (pool !! i) as [[a|msg|R c k]|] eqn:Hi; try apply IH.
  destruct (exec c w) as [w' r] eqn:E. eapply steps_cons; [by econstructor|apply IH].
Qed.

(** ** Properties *)

(** C13: however the calls of any number of consumers interleave, at most one
    of those that name the same approval obtains a grant, and each grant
    obtained is backed by an unexpired record of exactly the binding its
    consumer observed. *)
Theorem one_consumer_wins `{Blake3, ApprovalSerde} store active used threads w w' pool :
  store_layout store active used (w_fs w) ->
  steps pool_step (w, map (consumer_program store) threads) (w', pool) ->
  (forall i c grant, threads !! i = Some c -> pool !! i = Some (Ret (Ok grant)) ->
     exists r, record_grants (c_observed c) (c_now c) r /\ grant = grant_of (c_id c) r Consumed) /\
  (forall i j c e g h, threads !! i = Some c -> threads !! j = Some e -> c_id c = c_id e ->
     pool !! i = Some (Ret (Ok g)) -> pool !! j = Some (Ret (Ok h)) -> i = j).
Proof.
  intros Hl Hsteps.
  assert (forall id, election store active used threads id (w', pool)) as He.
  { intros id. eapply steps_inv; [apply election_step|by apply election_start|exact Hsteps]. }
  split.
  - intros i c grant Hi Hp. destruct (He "") as [_ _ Hs _].
    by destruct (Forall2_lookup_lr _ _ _ _ _ _ Hs Hi Hp) as [_ ?].
  - intros i j c e g h Hi Hj Heq Hg Hh.
    by eapply (election_unique store active used threads (c_id e) (w', pool)).
Qed.

(** Two consumers of one grant of the demonstration world look for a claim
    before either creates it. *)
Definition demo_binding : ApprovalBinding := {|
  ab_request_id := "req"; ab_workspace_id := "ws"; ab_workspace_root_hash := demo_hash;
  ab_mode := ApprovedApply; ab_base_head := commit; ab_working_tree_digest := demo_hash;
  ab_diff_hash := demo_hash; ab_files_hash := demo_hash;
  ab_files := [{| path_hash := demo_hash; expected_hash := demo_hash |}];
  ab_action_hashes := [demo_hash]; ab_transaction_id := "tx-1" |}.

Definition demo_now : N := 1722470400000.

Definition granted : world * outcome (any ApprovalGrant) :=
  run (issue_at (approvals demo_engine) demo_binding demo_confirmation 600 demo_now) opened_world.
Definition granted_id : string := grant_id (snd granted).

Definition demo_consumers : list consumer :=
  [Consumer granted_id demo_binding demo_now; Consumer granted_id demo_binding demo_now].

Definition contested : world * list (IO (claimed ApprovalGrant)) :=
  schedule ([0; 0; 0; 0; 1; 1; 1; 1; 0; 1; 0; 0; 0; 0; 0])%nat
    (fst granted, map (consumer_program (approvals demo_engine)) demo_consumers).

(** Deciding the layout. *)
Definition flat_check (fs : fsys) (dir : loc) : bool :=
  forallb (fun '(l, n) => negb (bool_decide (removelast l = dir) && match n with Dir _ _ => true | _ => false end))
    (map_to_list fs).

Lemma flat_check_ok fs dir : flat_check fs dir = true -> flat fs dir.
Proof.
  intros Hc n (len & t & E). rewrite node_at_snoc in E. unfold flat_check in Hc.
  rewrite forallb_forall in Hc. specialize (Hc ((dir ++ [n])%list, Dir len t)).
  cbv beta iota in Hc. rewrite removelast_last, bool_decide_eq_true_2 in Hc by done.
  discriminate Hc. apply list_elem_of_In. by apply elem_of_map_to_list.
Qed.

Lemma one_consumer_wins_witness :
  (exists g, snd contested !! 0%nat = Some (Ret (Ok g))) /\
  snd contested !! 1%nat = Some (Ret (Err Reused)) /\
  (forall i j c e g h, demo_consumers !! i = Some c -> demo_consumers !! j = Some e -> c_id c = c_id e ->
     snd contested !! i = Some (Ret (Ok g)) -> snd contested !! j = Some (Ret (Ok h)) -> i = j).
Proof.
  split; [vm_compute; by eexists|]. split; [vm_compute; reflexivity|].
  refine (proj2 (one_consumer_wins (approvals demo_engine)
    ["var"; "state"; "policy-v1"; "approvals"; "active"] ["var"; "state"; "policy-v1"; "approvals"; "used"]
    demo_consumers (fst granted) (fst contested) (snd contested) _ _)).
  - split; [reflexivity|reflexivity|..].
    + apply real_dir_check. vm_compute. reflexivity.
    + apply real_dir_check. vm_compute. reflexivity.
    + apply flat_check_ok. vm_compute. reflexivity.
    + apply flat_check_ok. vm_compute. reflexivity.
  - unfold contested. apply schedule_steps.
Defined.

(** * The boundaries the engine trusts

    The Git boundary a request declares, the active worktree it names and
    the separation of the engine's state from the workspace: what an
    operation that succeeds has checked. *)

Section Boundary.
Context {An : Answers}.

(** The declared directories are real, distinct where they must be, and
    belong to the workspace. *)
Record boundary_authority (b : GitRepositoryBoundary) (workspace : string) : Prop := {
  boundary_directories : exists ws worktree git_dir common_dir object_dir,
    root_of workspace ws /\ root_of (grb_worktree_root b) worktree /\ path_eqb ws worktree = true /\
    root_of (grb_git_dir b) git_dir /\ root_of (grb_common_dir b) common_dir /\
    root_of (grb_object_dir b) object_dir /\
    path_eqb object_dir (join common_dir "objects") = true /\
    (if grb_main_worktree b
     then path_eqb git_dir common_dir = true /\ resolves_to (join ws ".git") git_dir
     else path_eqb git_dir common_dir = false /\ path_starts_with git_dir common_dir = true) /\
    exists index_dir, parent (grb_index b) = Some index_dir /\ resolves_to index_dir git_dir;
  boundary_head : is_git_oid (grb_head b) = true;
  boundary_index : exists m, answers (SymlinkMetadata (grb_index b)) (Ok m) /\
    is_file m = true /\ is_symlink m = false;
}.

Lemma index_misplaced_must md index git_dir :
  must (index_misplaced md index git_dir) (fun misplaced => misplaced = false ->
    is_file md = true /\ is_symlink md = false /\
    exists index_dir, parent index = Some index_dir /\ resolves_to index_dir git_dir).
Proof.
  unfold index_misplaced. destruct (_ || _) eqn:E; [done|].
  eapply must_bind; [apply canonical_parent_must|]. intros p Hp. simpl. intros Hf.
  apply negb_false_iff in Hf. unfold metadata_is_link_or_reparse in E. split_bools.
  split; [done|]. split; [done|]. by apply Hp.
Qed.

Lemma validate_repository_boundary_must boundary workspace :
  must (validate_repository_boundary boundary workspace)
    (ok_post (fun _ => forall b, boundary = Some b -> boundary_authority b workspace)).
Proof.
  destruct boundary as [b|]; [|done]. unfold validate_repository_boundary.
  eapply must_try_ok; [apply inspect_root_must|]. intros ws Hws.
  eapply must_try_ok; [apply inspect_root_must|]. intros worktree Hworktree.
  apply must_check; intros Heq.
  eapply must_try_ok; [apply inspect_root_must|]. intros git_dir Hgit.
  eapply must_try_ok; [apply inspect_root_must|]. intros common_dir Hcommon.
  eapply must_try_ok; [apply inspect_root_must|]. intros object_dir Hobject.
  apply must_check; intros Hmain.
  eapply must_bind with (P := fun ok => ok = true ->
    grb_main_worktree b = true -> resolves_to (join ws ".git") git_dir).
  { destruct (grb_main_worktree b); [|done]. eapply must_mono; [apply canonical_is_must|]. auto. }
  intros main_ok Hok. apply must_check; intros Hmain_ok. apply must_check; intros Hlinked.
  apply must_check; intros Hobj. apply must_check; intros Hhead.
  apply must_sys_or; intros md Hmd. eapply must_bind; [apply index_misplaced_must|].
  intros misplaced Hmis. simpl. destruct misplaced; [done|]. simpl. intros b' [= <-].
  destruct (Hmis eq_refl) as (Hfile & Hsym & Hindex). split_bools.
  split; [|done|by exists md]. exists ws, worktree, git_dir, common_dir, object_dir.
  split_and!; try done. destruct (grb_main_worktree b); simpl in *; split_bools.
  - split; [done|]. by apply Hok.
  - done.
Qed.
End Boundary.

(** ** The engine's state *)

Section State.
Context `{Blake3, LeaseSerde, AuditSerde, ApprovalSerde, EngineSerde} {An : Answers}.

(** The state directory and the workspace, resolved, are disjoint. *)
Definition state_apart (engine : PolicyEngine) (request : PolicyRequest) : Prop :=
  exists state ws,
    answers (Canonicalize (state_root (audit engine))) (Ok state) /\
    root_of (workspace_root (rq_workspace request)) ws /\
    path_starts_with state ws = false /\ path_starts_with ws state = false.

Lemma ensure_state_must engine request :
  must (ensure_state_outside_workspace engine request) (ok_post (fun _ => state_apart engine request)).
Proof.
  unfold ensure_state_outside_workspace.
  eapply must_try_ok with (P := fun state => answers (Canonicalize (state_root (audit engine))) (Ok state)).
  { intros [state|e] Hs; simpl; done. }
  intros state Hstate. eapply must_try_ok; [apply must_map_err, inspect_root_must|].
  intros ws Hws. simpl. destruct (_ || _) eqn:E; [done|]. simpl. split_bools. by exists state, ws.
Qed.

(** An operation that starts with the check inherits it. *)
Lemma after_state {A} engine request (k : IO (policy A)) :
  must (ensure_state_outside_workspace engine request ;;? k) (ok_post (fun _ => state_apart engine request)).
Proof.
  eapply must_try_ok; [apply ensure_state_must|]. intros u Hs. apply must_true. by intros [].
Qed.

(** What an evaluation that succeeds has validated first. *)
Lemma evaluate_boundary request :
  must (evaluate request) (ok_post (fun _ =>
    forall b, repository (rq_workspace request) = Some b ->
    boundary_authority b (workspace_root (rq_workspace request)))).
Proof.
  unfold evaluate, validate_request. eapply must_try_ok.
  { apply must_pure; intros u _. apply must_map_err, validate_repository_boundary_must. }
  intros u Hb. apply must_true. by intros [].
Qed.
End State.

(** ** Properties *)

(** No decision is made, no grant issued and no binding computed while
    the engine's state directory and the workspace overlap. *)
Theorem state_outside_workspace `{Blake3, LeaseSerde, AuditSerde, ApprovalSerde, EngineSerde} {An : Answers} engine request confirmation ttl :
  must (explain engine request) (ok_post (fun _ => state_apart engine request)) /\
  must (check engine request) (ok_post (fun _ => state_apart engine request)) /\
  must (issue_approval engine request confirmation ttl) (ok_post (fun _ => state_apart engine request)) /\
  must (engine_approval_binding engine request) (ok_post (fun _ => state_apart engine request)).
Proof. split_and!; apply after_state. Qed.

(** A request with a Git boundary is only evaluated when the boundary is
    genuine: its worktree is the workspace, its Git directory is the one of
    the workspace or lies strictly below the common directory, its object
    directory and index are where Git keeps them, and none of them is a link. *)
Theorem boundary_validated `{Blake3, LeaseSerde, AuditSerde, ApprovalSerde, EngineSerde} {An : Answers} request :
  must (evaluate request) (ok_post (fun _ =>
    forall b, repository (rq_workspace request) = Some b ->
    boundary_authority b (workspace_root (rq_workspace request)))).
Proof. apply evaluate_boundary. Qed.

(** A worktree is only accepted as the active one with its lease: a
    record in the controlled storage that names its run, source, commit and
    owner, a Git file that leads back to the source repository, and a source
    observed clean at the commit of the lease. *)
Theorem active_worktree_authority `{LeaseSerde} {An : Answers} request workspace :
  must (validated_active_worktree request workspace) (ok_post (fun active =>
    forall root, active = Some root -> worktree_authority request workspace root)).
Proof. apply validated_active_worktree_must. Qed.
