(* ===== verification/Lifecycle.v ===== *)
(** * The life of a grant

    Issue and consumption executed on the file system: an issued grant is
    consumed once, for its binding, before it expires; afterwards every
    attempt is refused as a reuse. *)

From stdpp Require Import base list strings gmap.
From Stdlib Require Import NArith Ascii String Lia.
From S2P Require Import Prelude Bytes UnixPath IO World Model Paths AuditLog Approval Trace AuditFacts WorldFacts Publication ApprovalFacts Engine Demo Consumers.

Local Open Scope string_scope.
Local Open Scope N_scope.

(** ** The encoding of records *)

(** What the stores rely on: a record read back from its line is itself. *)
Class RecordRoundTrip `{ApprovalSerde} : Prop :=
  record_round_trip : forall r json,
    record_to_vec r = Ok json -> record_from_slice (json ++ String (byte 10) "") = Some r.

#[export] Instance toy_record_round_trip : RecordRoundTrip.
Proof. intros r json [= <-]. simpl. by rewrite read_write_tree, tree_record_tree. Qed.

(** ** Consumption *)

Section Consume.
Context `{Blake3, ApprovalSerde}.
Context (store : ApprovalStore) (active used : loc) (id : string).
Context (Hid : validate_storage_id id = Ok tt).

Let active_loc : loc := (active ++ [(id ++ ".json")%string])%list.
Let used_loc : loc := (used ++ [(id ++ ".json")%string])%list.
Let consuming_loc : loc := (used ++ [(id ++ "-consuming.json")%string])%list.
Let claim_loc : loc := (used ++ [(id ++ ".claim")%string])%list.

(** Nothing in the directory of used approvals names the approval. *)
Definition unused (fs : fsys) : Prop :=
  fs !! used_loc = None /\ fs !! consuming_loc = None /\ fs !! claim_loc = None.

Lemma id_bytes : all_bytes is_id_byte id = true.
Proof. unfold validate_storage_id in Hid. rewrite bail_if_ok in Hid. by split_bools. Qed.

Lemma approval_names suffix :
  In suffix [".json"; "-consuming.json"; ".claim"] -> valid_name (id ++ suffix) = true.
Proof.
  intros Hin. apply id_suffix_valid; [apply id_bytes|..];
    repeat destruct Hin as [<-|Hin]; try done; simpl; lia.
Qed.

Lemma approval_paths fs :
  store_layout store active used fs ->
  active_path store id = render active_loc /\ used_path store id = render used_loc /\
  consuming_path store id = render consuming_loc /\ claim_path store id = render claim_loc.
Proof.
  intros [Ea Eu [Hva _] [Hvu _] _ _]. unfold active_path, used_path, consuming_path, claim_path.
  rewrite Ea, Eu, !join_render by (done || apply approval_names; simpl; tauto). done.
Qed.

Lemma suffix_inj (dir : loc) (s t : string) :
  (dir ++ [(id ++ s)%string])%list = (dir ++ [(id ++ t)%string])%list -> s = t.
Proof.
  intros [_ E]%app_inj_tail. clear Hid. induction id as [|c i IH]; [exact E|].
  rewrite !append_cons in E. injection E. exact IH.
Qed.

(** The file system after a consumption. *)
Definition consumed_fs (fs : fsys) (bytes : string) (t now : attributes) : fsys :=
  <[used_loc := File bytes t]> (<[claim_loc := File "" now]> (delete active_loc fs)).

Context (Hdirs : active <> used).

Lemma active_not_used a b : (active ++ [a])%list <> (used ++ [b])%list.
Proof. intros [E _]%app_inj_tail. done. Qed.

Lemma read_check_wp w dir n bytes t r observed now :
  real_dir (w_fs w) dir -> valid_name n = true -> w_fs w !! (dir ++ [n])%list = Some (File bytes t) ->
  strlen bytes <= MAX_APPROVAL_RECORD_BYTES ->
  record_from_slice bytes = Some r -> record_grants observed now r ->
  wp (fun _ => True)
    (record <-? read_record (render (dir ++ [n])) ;; lift (check_record id observed now record)) w
    (fun w' o => w' = w /\ o = Ok (grant_of id r Consumed)).
Proof.
  intros Hreal Hn E Hsize Hr Hg. unfold read_record.
  eapply wp_call; [simpl; by erewrite exec_metadata_file|done|].
  simpl. rewrite (proj2 (N.ltb_ge _ _) Hsize). simpl. erewrite exec_read_file by done. split; [done|].
  simpl. rewrite Hr. simpl. by rewrite check_record_complete.
Qed.

Lemma layout_create dir n (w w' : world) r :
  (forall fs, store_layout store active used fs -> real_dir fs dir) -> valid_name n = true ->
  exec (CreateNew (render (dir ++ [n]))) w = (w', r) ->
  store_layout store active used (w_fs w) -> store_layout store active used (w_fs w').
Proof. intros Hd Hn E Hl. by apply (keeps_create store active used [] dir n Hd Hn w w' r E). Qed.

Lemma layout_rename from_dir from_name to_dir to_name (w w' : world) r :
  (forall fs, store_layout store active used fs -> real_dir fs from_dir /\ flat fs from_dir) ->
  (forall fs, store_layout store active used fs -> real_dir fs to_dir /\ flat fs to_dir) ->
  valid_name from_name = true -> valid_name to_name = true ->
  exec (Rename (render (from_dir ++ [from_name])) (render (to_dir ++ [to_name]))) w = (w', r) ->
  store_layout store active used (w_fs w) -> store_layout store active used (w_fs w').
Proof.
  intros Hf Ht Hn Hm E Hl.
  eapply (keeps_rename store active used [] from_dir from_name to_dir to_name); try done.
  by destruct from_dir.
Qed.

Lemma layout_of_active fs :
  store_layout store active used fs -> real_dir fs active /\ flat fs active.
Proof. by intros []. Qed.
Lemma layout_of_used fs :
  store_layout store active used fs -> real_dir fs used /\ flat fs used.
Proof. by intros []. Qed.

Lemma consume_at_wp w bytes t r observed now :
  store_layout store active used (w_fs w) -> unused (w_fs w) ->
  w_fs w !! active_loc = Some (File bytes t) -> strlen bytes <= MAX_APPROVAL_RECORD_BYTES ->
  record_from_slice bytes = Some r -> record_grants observed now r ->
  wp (fun _ => True) (consume_at store id observed now) w (fun w' o =>
    o = Ok (grant_of id r Consumed) /\ w_fs w' = consumed_fs (w_fs w) bytes t (fresh_file w)).
Proof.
  intros Hl (Hu & Hc & Hk) Ha Hsize Hr Hg.
  destruct (approval_paths _ Hl) as (Ea & Eu & Ec & Ek).
  pose proof (layout_real_active _ _ _ _ Hl) as Hra. pose proof (layout_real_used _ _ _ _ Hl) as Hru.
  pose proof (approval_names ".json" ltac:(simpl; tauto)) as Nj.
  pose proof (approval_names "-consuming.json" ltac:(simpl; tauto)) as Nc.
  pose proof (approval_names ".claim" ltac:(simpl; tauto)) as Nk.
  unfold consumed_fs, active_loc, used_loc, consuming_loc, claim_loc in *.
  unfold consume_at, already_claimed, take_claim, take_record, read_record.
  rewrite Hid, Ea, Eu, Ec, Ek. cbn [lift map_err try_bind bind path_exists].
  (* no claim yet, and the record is there *)
  eapply wp_call; [simpl; by rewrite exec_metadata_missing|done|].
  eapply wp_call; [simpl; by rewrite exec_metadata_missing|done|].
  eapply wp_call; [simpl; by rewrite exec_metadata_missing|done|].
  eapply wp_call; [simpl; by erewrite exec_metadata_file|done|].
  cbn [is_ok negb bind].
  (* the claim *)
  pose proof (exec_create_new w used _ Hru Nk) as E1. rewrite Hk in E1.
  eapply wp_call; [exact E1|done|]. cbn [bind sys].
  eapply wp_call; [reflexivity|done|]. cbn [bind try_bind].
  apply (layout_create used _ _ _ _ (fun fs H => proj1 (layout_of_used fs H)) Nk E1) in Hl as Hl1.
  set (w1 := set_fs _ w) in *.
  assert (w_fs w1 !! (active ++ [(id ++ ".json")%string])%list = Some (File bytes t)) as Ha1
    by (simpl; by rewrite lookup_insert_ne by (apply not_eq_sym, active_not_used)).
  (* the record moves out of the active directory *)
  pose proof (exec_rename_file w1 active _ used _ bytes t (layout_real_active _ _ _ _ Hl1)
    (layout_real_used _ _ _ _ Hl1) Nj Nc (active_not_used _ _) Ha1 (layout_flat_used _ _ _ _ Hl1 _)) as E2.
  apply (layout_rename active _ used _ _ _ _ layout_of_active layout_of_used Nj Nc E2) in Hl1 as Hl2.
  eapply wp_call; [exact E2|done|]. set (w2 := set_fs _ w1) in *. cbn [bind try_bind].
  assert (w_fs w2 !! (used ++ [(id ++ "-consuming.json")%string])%list = Some (File bytes t)) as Hc2
    by (simpl; by rewrite lookup_insert_eq).
  (* it is read and checked, then retired *)
  eapply wp_bind.
  { by apply (read_check_wp w2 used _ bytes t r observed now (layout_real_used _ _ _ _ Hl2) Nc Hc2). }
  intros ? outcome [-> ->].
  pose proof (exec_rename_file w2 used _ used _ bytes t (layout_real_used _ _ _ _ Hl2)
    (layout_real_used _ _ _ _ Hl2) Nc Nj ltac:(by intros F%suffix_inj) Hc2 (layout_flat_used _ _ _ _ Hl2 _)) as E3.
  eapply wp_call; [exact E3|done|]. split; [done|]. simpl.
  rewrite delete_insert_id, delete_insert_ne; [done| |].
  - apply active_not_used.
  - rewrite lookup_delete_ne by apply active_not_used.
    rewrite lookup_insert_ne; [done|]. by intros F%suffix_inj.
Qed.

(** Once a claim exists, nothing is consumed and nothing changes. *)
Lemma consume_at_reused w n observed now :
  store_layout store active used (w_fs w) -> w_fs w !! claim_loc = Some n -> not_link n ->
  run (consume_at store id observed now) w = (w, Done (Err Reused)).
Proof.
  intros Hl Hk Hn. destruct (approval_paths _ Hl) as (Ea & Eu & Ec & Ek).
  unfold consume_at, already_claimed. rewrite Hid, Ek. cbn -[claim_loc]. unfold stat, claim_loc in *.
  rewrite (resolve_render w true used _ n (layout_real_used _ _ _ _ Hl)) by
    first [done | by right | by apply approval_names; simpl; tauto].
  by rewrite node_at_snoc, Hk.
Qed.

Lemma consumed_layout fs bytes t now :
  store_layout store active used fs -> fs !! active_loc = Some (File bytes t) ->
  fs !! used_loc = None -> fs !! claim_loc = None ->
  store_layout store active used (consumed_fs fs bytes t now).
Proof.
  intros Hl Ha Hu Hk. unfold consumed_fs, active_loc, used_loc, claim_loc in *.
  assert (forall fs l m c u, store_layout store active used fs -> fs !! (l ++ [m])%list = None ->
    store_layout store active used (<[(l ++ [m])%list := File c u]> fs)) as Hins.
  { intros fs' l m c u Hl' Hnone. eapply (layout_alter _ _ _ _ _ (l ++ [m])%list); [exact Hl'|by apply missing_not_dir| |].
    - by eapply file_not_dir, lookup_insert_eq.
    - intros k Hx. by rewrite lookup_insert_ne. }
  apply Hins; [apply Hins|].
  - eapply (layout_alter _ _ _ _ _ (active ++ [(id ++ ".json")%string])%list); [exact Hl|by eapply file_not_dir| |].
    + by apply missing_not_dir, lookup_delete_eq.
    + intros k Hx. by rewrite lookup_delete_ne.
  - by rewrite lookup_delete_ne by apply active_not_used.
  - rewrite lookup_insert_ne by (by intros F%suffix_inj). by rewrite lookup_delete_ne by apply active_not_used.
Qed.
End Consume.

(** ** Issue *)

Section Issue.
Context `{Blake3, ApprovalSerde}.
Context (store : ApprovalStore) (active used : loc).
Context (binding : ApprovalBinding) (confirmation : NativeConfirmation) (ttl now : N).
Context (binding_hash json : string).

Let record : ApprovalRecord := issued_record binding confirmation binding_hash ttl now.

(** A grant can be issued: what is asked is valid, its encoding fits, the
    random source answers twice and the active directory is clean. *)
Record can_issue (w : world) : Prop := {
  issue_valid : valid_binding binding;
  issue_ttl : 1 <= ttl <= MAX_APPROVAL_TTL_SECONDS;
  issue_hash : hash_binding binding = Ok binding_hash;
  issue_json : record_to_vec record = Ok json;
  issue_size : strlen json < MAX_APPROVAL_RECORD_BYTES;
  issue_layout : store_layout store active used (w_fs w);
  issue_pid : w_pid w <= u32_max;
  issue_entropy : exists r1 r2 rest, w_entropy w = Ok r1 :: Ok r2 :: rest /\ strlen r1 = 12;
  issue_clean : forall id, w_fs w !! (active ++ [temp_name id])%list = None;
}.

(** What an issue leaves: the record, alone, in the active directory. *)
Definition issued_world (w w' : world) (grant : ApprovalGrant) : Prop :=
  validate_storage_id (ag_approval_id grant) = Ok tt /\
  grant = grant_of (ag_approval_id grant) record Available /\
  exists t, let l := (active ++ [(ag_approval_id grant ++ ".json")%string])%list in
    w_fs w' !! l = Some (File (json ++ String (byte 10) "") t) /\
    forall k, k <> l -> w_fs w' !! k = w_fs w !! k.

Lemma approval_id_valid id :
  all_bytes is_id_byte id = true -> strlen id = 73 -> validate_storage_id ("approval-" ++ id) = Ok tt.
Proof.
  intros Hb Hl. unfold validate_storage_id. rewrite all_bytes_app, Hb, strlen_app, Hl. reflexivity.
Qed.

Lemma issue_at_wp w :
  can_issue w ->
  wp (fun _ => True) (issue_at store binding confirmation ttl now) w (fun w' o =>
    exists grant, o = Ok grant /\ issued_world w w' grant).
Proof.
  intros [Hvalid Httl Hhash Hjson Hsize Hl Hpid (r1 & r2 & rest & He & Hr1) Hclean].
  unfold issue_at. rewrite (proj2 (N.eqb_neq ttl 0)), (proj2 (N.ltb_ge _ _)) by lia.
  rewrite (proj2 (normalized_ok binding binding)) by done. cbn [orb bail_if lift try_bind bind].
  rewrite Hhash, expiry_saturates by lia. cbn [lift try_bind bind].
  eapply wp_bind; [by apply wp_new_storage_id|].
  intros w1 o [Hfs Hclock Hp Hent Hok Herr]. rewrite He in Hent. simpl in Hent.
  assert (random_ready w r1) as Hready by (unfold random_ready; by rewrite He).
  destruct o as [id|]; [|by destruct (Herr eq_refl r1)]. destruct (Hok id eq_refl) as [Hb Hlen].
  specialize (Hlen r1 Hready). rewrite Hr1 in Hlen. pose proof (approval_id_valid id Hb Hlen) as Hid.
  cbv beta iota zeta. rewrite Hid. cbn [lift bind].
  set (gid := ("approval-" ++ id)%string) in *.
  change (record_to_vec _) with (record_to_vec record). rewrite Hjson. cbn [map_err bind].
  rewrite strlen_app. change (strlen (String (byte 10) "")) with 1.
  rewrite (proj2 (N.ltb_ge _ _)) by lia. cbn [bail_if bind].
  assert (valid_name (gid ++ ".json") = true) as Hname.
  { apply id_suffix_valid; [|done|simpl; lia]. unfold validate_storage_id in Hid.
    rewrite bail_if_ok in Hid. by split_bools. }
  rewrite (layout_active _ _ _ _ Hl). rewrite join_render by (done || apply Hl).
  rewrite <- Hfs in Hl.
  eapply wp_bind.
  { eapply (wp_mono _ _ _ _ _ _ (atomic_create_wp w1 active (gid ++ ".json") (json ++ String (byte 10) "")
      (layout_real_active _ _ _ _ Hl) Hname eq_refl ltac:(by rewrite Hp))); [done|].
    intros w' a Ha. exact Ha. }
  intros w2 [[]|] Hpost.
  2:{ destruct Hpost as [_ []]. split; [exists r2; unfold random_ready; by rewrite Hent|].
      split; [apply Hl|]. intros x. by rewrite Hfs. }
  destruct Hpost as [[t Ht] Hsame]. eexists. split; [reflexivity|].
  split; [done|]. split; [done|]. exists t. split; [done|]. intros k Hk. by rewrite Hsame, Hfs.
Qed.
End Issue.

(** ** One use *)

Section Once.
Context `{Blake3, ApprovalSerde}.
Context (store : ApprovalStore) (active used : loc) (Hdirs : active <> used).

(** A consumption that succeeds, after which every other is refused. *)
Definition consumed_once (id : string) (observed : ApprovalBinding) (now : N) (grant : ApprovalGrant)
    (w w' : world) : Prop :=
  run (consume_at store id observed now) w = (w', Done (Ok grant)) /\
  forall observed' now', run (consume_at store id observed' now') w' = (w', Done (Err Reused)).

(** The record of an approval, ready to be consumed. *)
Record available (id bytes : string) (t : attributes) (r : ApprovalRecord) (w : world) : Prop := {
  available_id : validate_storage_id id = Ok tt;
  available_layout : store_layout store active used (w_fs w);
  available_unused : unused used id (w_fs w);
  available_record : w_fs w !! (active ++ [(id ++ ".json")%string])%list = Some (File bytes t);
  available_size : strlen bytes <= MAX_APPROVAL_RECORD_BYTES;
  available_bytes : record_from_slice bytes = Some r;
}.

Lemma consume_once id bytes t r observed now w :
  available id bytes t r w -> record_grants observed now r ->
  exists w', consumed_once id observed now (grant_of id r Consumed) w w' /\
    w_fs w' = consumed_fs active used id (w_fs w) bytes t (fresh_file w).
Proof.
  intros [Hid Hl Hu Ha Hsize Hr] Hg.
  destruct (wp_run _ _ _ _ (consume_at_wp store active used id Hid Hdirs w bytes t r observed now
    Hl Hu Ha Hsize Hr Hg)) as (w' & o & Hrun & -> & Hfs).
  exists w'. split; [|done]. split; [done|]. intros observed' now'. destruct Hu as (Hu & _ & Hk).
  apply (consume_at_reused store active used id Hid w' (File "" (fresh_file w))); [|rewrite Hfs|done].
  - rewrite Hfs. by apply consumed_layout.
  - unfold consumed_fs. rewrite lookup_insert_ne, lookup_insert_eq; [done|].
    by intros F%suffix_inj.
Qed.

Lemma issued_available `{!RecordRoundTrip} binding confirmation ttl now binding_hash json w w1 grant :
  can_issue store active used binding confirmation ttl now binding_hash json w ->
  issued_world active binding confirmation ttl now binding_hash json w w1 grant ->
  unused used (ag_approval_id grant) (w_fs w) ->
  exists t, available (ag_approval_id grant) (json ++ String (byte 10) "") t
    (issued_record binding confirmation binding_hash ttl now) w1.
Proof.
  intros [_ _ _ Hjson Hsize Hl _ _ _] (Hid & _ & t & Hat & Hsame) (Hu & Hc & Hk). exists t. split; [done|..].
  - eapply (layout_alter _ _ _ _ _ _ Hl); [|by eapply file_not_dir|exact Hsame]. apply Hl.
  - unfold unused. by rewrite !Hsame by (by apply not_eq_sym, active_not_used).
  - done.
  - rewrite strlen_app. change (strlen (String (byte 10) "")) with 1. lia.
  - by apply record_round_trip.
Qed.

Lemma issued_grants `{!Blake3Hex} binding confirmation ttl now binding_hash json w later :
  can_issue store active used binding confirmation ttl now binding_hash json w ->
  now <= u64_max -> later <= N.min u64_max (now + ttl * 1000) ->
  record_grants binding later (issued_record binding confirmation binding_hash ttl now).
Proof.
  intros [Hvalid Httl Hhash _ _ _ _ _ _] Hnow Hlater. split; simpl; try done; [lia|].
  apply blake3_hex_digits.
Qed.
End Once.

(** ** The demonstration store *)

Definition active_loc : loc := ["var"; "state"; "policy-v1"; "approvals"; "active"].
Definition used_loc : loc := ["var"; "state"; "policy-v1"; "approvals"; "used"].

Definition demo_record : ApprovalRecord :=
  issued_record demo_binding demo_confirmation
    (match hash_binding demo_binding with Ok h => h | Err _ => "" end) 600 demo_now.
Definition demo_json : string := write_tree (record_tree demo_record).

Definition empty_check (fs : fsys) (dir : loc) : bool :=
  forallb (fun '(l, _) => negb (bool_decide (removelast l = dir))) (map_to_list fs).

Lemma empty_check_ok fs dir n : empty_check fs dir = true -> fs !! (dir ++ [n])%list = None.
Proof.
  intros Hc. destruct (fs !! (dir ++ [n])%list) as [x|] eqn:E; [|done].
  unfold empty_check in Hc. rewrite forallb_forall in Hc. specialize (Hc ((dir ++ [n])%list, x)).
  cbv beta iota in Hc. rewrite removelast_last, bool_decide_eq_true_2 in Hc by done.
  discriminate Hc. apply list_elem_of_In. by apply elem_of_map_to_list.
Qed.

Definition layout_check (store : ApprovalStore) (active used : loc) (fs : fsys) : bool :=
  (active_dir store =?s render active) && (used_dir store =?s render used) &&
  real_from fs [] active && real_from fs [] used && flat_check fs active && flat_check fs used.

Lemma layout_check_ok store active used fs :
  layout_check store active used fs = true -> store_layout store active used fs.
Proof.
  unfold layout_check. intros Hc. split_bools. rewrite ?String.eqb_eq in *.
  split; auto using real_dir_check, flat_check_ok.
Qed.

(** ** Properties *)

(** An intact, unexpired record of exactly the observed binding, whose
    approval was never used, is consumed: the claim appears, the record moves
    from the active to the used directory, nothing else changes, and every
    later attempt, for any binding, is refused as a reuse and changes
    nothing. *)
Theorem consume_succeeds_once `{Blake3, ApprovalSerde} store active used id bytes t r observed now w :
  active <> used -> available store active used id bytes t r w -> record_grants observed now r ->
  exists w', consumed_once store id observed now (grant_of id r Consumed) w w' /\
    w_fs w' = consumed_fs active used id (w_fs w) bytes t (fresh_file w).
Proof. intros. by apply consume_once. Qed.

Lemma consume_succeeds_once_witness :
  exists w', consumed_once (approvals demo_engine) granted_id demo_binding demo_now
      (grant_of granted_id demo_record Consumed) (fst granted) w' /\
    w_fs w' = consumed_fs active_loc used_loc granted_id (w_fs (fst granted))
      (demo_json ++ String (byte 10) "") (Attributes (Some 1722470400000000000) (Some 1722470400000000000) 33188) (fresh_file (fst granted)).
Proof.
  apply (consume_succeeds_once (approvals demo_engine) active_loc used_loc granted_id); [done|split|split].
  - vm_compute. reflexivity.
  - apply layout_check_ok. vm_compute. reflexivity.
  - split; [|split]; vm_compute; reflexivity.
  - vm_compute. reflexivity.
  - vm_compute. discriminate.
  - by apply record_round_trip.
  - reflexivity.
  - apply (normalized_ok demo_binding demo_binding). vm_compute. reflexivity.
  - vm_compute. reflexivity.
  - split; vm_compute; discriminate.
  - reflexivity.
  - vm_compute. reflexivity.
Defined.

(** C28: whenever a grant can be issued it is, and if its identifier is new
    to the store it can be consumed, once, for the same binding, at any time
    up to its expiry. *)
Theorem issue_consume_round_trip `{Blake3, ApprovalSerde, !Blake3Hex, !RecordRoundTrip}
    store active used binding confirmation ttl now binding_hash json w :
  active <> used -> now <= u64_max ->
  can_issue store active used binding confirmation ttl now binding_hash json w ->
  exists grant w1,
    run (issue_at store binding confirmation ttl now) w = (w1, Done (Ok grant)) /\
    ag_expires_unix_ms grant = N.min u64_max (now + ttl * 1000) /\
    (unused used (ag_approval_id grant) (w_fs w) ->
     forall later, later <= ag_expires_unix_ms grant ->
     exists consumed w2, consumed_once store (ag_approval_id grant) binding later consumed w1 w2 /\
       ag_state consumed = Consumed /\ ag_binding_hash consumed = ag_binding_hash grant).
Proof.
  intros Hdirs Hnow Hcan.
  destruct (wp_run _ _ _ _ (issue_at_wp _ _ _ _ _ _ _ _ _ w Hcan)) as (w1 & o & Hrun & grant & -> & Hissued).
  pose proof Hissued as (_ & Hgrant & _). exists grant, w1. split; [done|]. split; [by rewrite Hgrant|].
  intros Hunused later Hlater. rewrite Hgrant in Hlater. simpl in Hlater.
  destruct (issued_available _ _ _ Hdirs _ _ _ _ _ _ _ _ _ Hcan Hissued Hunused) as [t Hav].
  destruct (consume_once _ _ _ Hdirs _ _ _ _ binding later w1 Hav) as (w2 & Honce & _).
  { by eapply issued_grants. }
  eexists _, w2. split; [exact Honce|]. split; [done|]. by rewrite Hgrant.
Qed.

Lemma issue_consume_round_trip_witness :
  unused used_loc granted_id (w_fs opened_world) /\
  exists grant w1,
    run (issue_at (approvals demo_engine) demo_binding demo_confirmation 600 demo_now) opened_world =
      (w1, Done (Ok grant)) /\
    ag_expires_unix_ms grant = N.min u64_max (demo_now + 600 * 1000) /\
    (unused used_loc (ag_approval_id grant) (w_fs opened_world) ->
     forall later, later <= ag_expires_unix_ms grant ->
     exists consumed w2,
       consumed_once (approvals demo_engine) (ag_approval_id grant) demo_binding later consumed w1 w2 /\
       ag_state consumed = Consumed /\ ag_binding_hash consumed = ag_binding_hash grant).
Proof.
  split; [split; [|split]; vm_compute; reflexivity|].
  apply (issue_consume_round_trip (approvals demo_engine) active_loc used_loc demo_binding
    demo_confirmation 600 demo_now (ar_binding_hash demo_record) demo_json); [done|vm_compute; discriminate|split].
  - apply (normalized_ok demo_binding demo_binding). vm_compute. reflexivity.
  - split; vm_compute; discriminate.
  - vm_compute. reflexivity.
  - vm_compute. reflexivity.
  - vm_compute. reflexivity.
  - apply layout_check_ok. vm_compute. reflexivity.
  - vm_compute. discriminate.
  - eexists _, _, _. split; vm_compute; reflexivity.
  - intros id. apply empty_check_ok. vm_compute. reflexivity.
Defined.
