(* ===== verification/EngineFacts.v ===== *)
(** * What the engine guarantees

    The pure validators of Rules.v, and theorems about [evaluate], [check], [issue_approval] and
    [revalidate_observed] (Engine.v) for every answer of every call. *)

From stdpp Require Import base list strings.
From Stdlib Require Import NArith Ascii String Sorted Lia.
From S2P Require Import Prelude Bytes UnixPath IO World Model Paths AuditLog Approval Rules Worktree Actions Engine ActionFacts Observers Trace AuditFacts ApprovalFacts.

Local Open Scope string_scope.
Local Open Scope N_scope.

(** * What the validators guarantee

    Exact characterisations of the pure rules of Rules.v. *)

(** ** Truncation *)

Lemma floor_boundary_spec value end_ :
  let i := floor_boundary value end_ in
  (i <= end_)%nat /\ is_char_boundary value (N.of_nat i) = true /\
  (forall j, (j <= end_)%nat -> is_char_boundary value (N.of_nat j) = true -> (j <= i)%nat).
Proof.
  induction end_ as [|e IH]; cbn [floor_boundary]; [repeat split; [done|lia]|].
  destruct (is_char_boundary value (N.of_nat (S e))) eqn:Hb.
  - split; [done|]. split; [done|]. lia.
  - destruct IH as (? & ? & Hmax). split; [lia|]. split; [done|]. intros j Hj Hjb.
    apply Hmax; [|done]. destruct (decide (j = S e)); [subst; congruence|lia].
Qed.

(** [bounded value max] is [value] or a cut at the last character boundary
    that leaves room for the mark. *)
Lemma bounded_cases value max :
  (strlen value <= max /\ bounded value max = value) \/
  (max < strlen value /\ exists i prefix, slice_to value i = Some prefix /\ i <= max - 16 /\
     bounded value max = prefix ++ "...[truncated]" /\
     (forall j, j <= max - 16 -> is_char_boundary value j = true -> j <= i)).
Proof.
  unfold bounded. destruct (strlen value <=? max) eqn:Hl; [left; by apply N.leb_le in Hl|right].
  apply N.leb_gt in Hl. split; [done|].
  destruct (floor_boundary_spec value (N.to_nat (N.min (max - 16) (strlen value)))) as (Hle & Hb & Hmax).
  set (i := floor_boundary _ _) in *. exists (N.of_nat i), (take_bytes i value).
  split; [unfold slice_to; by rewrite Hb, Nat2N.id|]. split; [lia|]. split; [done|].
  intros j Hj Hjb. specialize (Hmax (N.to_nat j)). rewrite N2Nat.id in Hmax.
  assert (N.to_nat j <= i)%nat; [apply Hmax; [lia|done]|lia].
Qed.

Lemma strlen_bounded value max : 16 <= max -> strlen (bounded value max) <= max.
Proof.
  intros Hmax. destruct (bounded_cases value max) as [[? ->]|(_ & i & p & Hs & Hi & -> & _)]; [done|].
  rewrite strlen_app. change (strlen "...[truncated]") with 14.
  apply slice_to_some in Hs as [-> _]. pose proof (strlen_take (N.to_nat i) value). lia.
Qed.

(** ** Requests *)

Definition safe_identifier (max : N) (value : string) : Prop :=
  1 <= strlen value <= max /\
  all_bytes (fun c => is_ascii_alphanumeric c || one_of "-_.:" c) value = true.

(** The requests whose fields are accepted. *)
Record well_formed_request (request : PolicyRequest) : Prop := {
  wf_schema : rq_schema_version request = POLICY_SCHEMA_VERSION;
  wf_protocol : rq_protocol request = POLICY_PROTOCOL_ID;
  wf_request_id : safe_identifier MAX_POLICY_REQUEST_ID_BYTES (rq_request_id request);
  wf_action_id : safe_identifier MAX_POLICY_IDENTIFIER_BYTES (rq_action_id request);
  wf_workspace_id : safe_identifier MAX_POLICY_IDENTIFIER_BYTES (workspace_id (rq_workspace request));
  wf_profile : safe_identifier 96 (rq_profile request);
  wf_client : safe_identifier 96 (client_name (rq_client request)) /\
              safe_identifier 96 (client_version (rq_client request));
  wf_origin : rq_origin request <> UnknownOrigin;
  wf_approval : forall id, rq_approval_id request = Some id ->
    1 <= strlen id <= MAX_POLICY_IDENTIFIER_BYTES /\ all_bytes is_id_byte id = true;
  wf_digest : forall d, working_tree_digest (rq_workspace request) = Some d -> valid_hash d;
}.

Lemma if_err_ok {E} (b : bool) (e : E) u : (if b then Err e else Ok tt) = Ok u <-> b = false.
Proof. destruct b, u; naive_solver. Qed.

Lemma validate_request_identifier_ok value max label u :
  validate_request_identifier value max label = Ok u <-> safe_identifier max value.
Proof.
  unfold validate_request_identifier, safe_identifier. rewrite if_err_ok, is_empty_strlen.
  rewrite !orb_false_iff, N.eqb_neq, N.ltb_ge, negb_false_iff. intuition lia.
Qed.

Lemma approval_id_malformed_false id :
  approval_id_malformed id = false <->
  1 <= strlen id <= MAX_POLICY_IDENTIFIER_BYTES /\ all_bytes is_id_byte id = true.
Proof.
  unfold approval_id_malformed. rewrite is_empty_strlen.
  rewrite !orb_false_iff, N.eqb_neq, N.ltb_ge, negb_false_iff.
  change (fun c => is_ascii_alphanumeric c || one_of "-_" c) with is_id_byte. intuition lia.
Qed.

Lemma validate_request_fields_ok request u :
  validate_request_fields request = Ok u <-> well_formed_request request.
Proof.
  unfold validate_request_fields. split.
  - intros H.
    apply rbind_ok in H as (? & Hp & H). apply if_err_ok, orb_false_iff in Hp as [Hs Hp].
    apply negb_false_iff, N.eqb_eq in Hs. apply negb_false_iff, String.eqb_eq in Hp.
    do 6 (apply rbind_ok in H as (? & ?%validate_request_identifier_ok & H)).
    apply rbind_ok in H as (? & Ho & H). apply if_err_ok, bool_decide_eq_false in Ho.
    apply rbind_ok in H as (? & Ha & H). apply if_err_ok in Ha.
    constructor; try done.
    + intros id E. rewrite E in Ha. by apply approval_id_malformed_false.
    + intros d E. rewrite E in H. unfold policy_of_safe in H.
      by apply map_err_ok, validate_hash_value_ok in H.
  - intros []. rewrite wf_schema0, wf_protocol0. destruct wf_client0.
    repeat match goal with
    | H : safe_identifier ?m ?v |- context[validate_request_identifier ?v ?m ?l] =>
        rewrite (proj2 (validate_request_identifier_ok v m l tt) H)
    end. simpl.
    rewrite bool_decide_eq_false_2 by done. simpl. destruct u.
    assert (is_some_and approval_id_malformed (rq_approval_id request) = false) as ->.
    { destruct (rq_approval_id request) as [id|]; [|done]. simpl.
      apply approval_id_malformed_false. by apply wf_approval0. }
    simpl. destruct (working_tree_digest _) as [d|] eqn:E; [|done].
    unfold policy_of_safe. by rewrite (proj2 (validate_hash_value_ok d _ tt) (wf_digest0 d eq_refl)).
Qed.

(** ** Path lists *)

Lemma normalized_paths_total paths :
  Forall (fun p => normal_relative p = true) paths ->
  normalized_paths paths = Ok (map (fun p => replace_backslash (to_string_lossy p)) paths).
Proof. induction 1 as [|p paths Hp _ IH]; simpl; [done|]. by rewrite Hp, IH. Qed.

(** ** Properties *)

(** A report's text is cut at the last character boundary that leaves
    room for the mark, and never exceeds its bound. *)
Theorem bounded_exact value max :
  16 <= max ->
  strlen (bounded value max) <= max /\
  ((strlen value <= max /\ bounded value max = value) \/
   (max < strlen value /\ exists i prefix, slice_to value i = Some prefix /\ i <= max - 16 /\
     bounded value max = prefix ++ "...[truncated]" /\
     (forall j, j <= max - 16 -> is_char_boundary value j = true -> j <= i))).
Proof. intros Hmax. split; [by apply strlen_bounded|apply bounded_cases]. Qed.

(** A two-byte character straddles the cut. *)
Lemma bounded_exact_witness :
  let value := ("abc" ++ String (byte 195) (String (byte 169) "defghijklmnopq"))%string in
  strlen (bounded value 18) <= 18 /\
  ((strlen value <= 18 /\ bounded value 18 = value) \/
   (18 < strlen value /\ exists i prefix, slice_to value i = Some prefix /\ i <= 18 - 16 /\
     bounded value 18 = prefix ++ "...[truncated]" /\
     (forall j, j <= 18 - 16 -> is_char_boundary value j = true -> j <= i))).
Proof. apply bounded_exact. vm_compute. done. Defined.

(** A request's fields are accepted exactly when it is well formed:
    schema, protocol, bounded identifiers of a fixed alphabet, a known
    origin, a well-formed approval identifier and digest. *)
Theorem validate_request_fields_exact request :
  validate_request_fields request = Ok tt <-> well_formed_request request.
Proof. apply validate_request_fields_ok. Qed.

(** A path list is accepted exactly when every path is relative with
    normal components only and the normalised texts are strictly
    increasing; in particular they are distinct. *)
Theorem validate_sorted_paths_exact paths :
  (validate_sorted_paths paths = Ok tt <-> sorted_paths paths) /\
  (sorted_paths paths -> NoDup (map (fun p => replace_backslash (to_string_lossy p)) paths)).
Proof.
  split; [|intros []; by apply str_sorted_NoDup]. split; [apply validate_sorted_paths_ok|].
  intros [Hn Hs]. unfold validate_sorted_paths. rewrite normalized_paths_total by done. simpl.
  by rewrite (proj2 (windows2_str_sorted _) Hs).
Qed.

(** An environment is accepted exactly when it is a strictly
    increasing list of the five documented names. *)
Theorem environment_exact environment :
  validate_environment_allowlist environment = None <->
  StronglySorted str_lt_prop environment /\
  Forall (fun name => In name ALLOWED_ENVIRONMENT) environment.
Proof.
  split; [by intros (_ & ?)%validate_environment_none|]. intros [Hs Ha].
  unfold validate_environment_allowlist. rewrite (proj2 (windows2_str_sorted _) Hs).
  assert (existsb environment_name_denied environment = false) as ->.
  { apply existsb_false_Forall. eapply Forall_impl; [exact Ha|]. intros name Hin.
    repeat destruct Hin as [<-|Hin]; done. }
  rewrite (proj2 (N.ltb_ge _ _)); [done|].
  pose proof (str_sorted_NoDup _ Hs) as Hnd.
  assert (List.length environment <= 5)%nat; [|unfold MAX_POLICY_ENVIRONMENT_KEYS; lia].
  apply (NoDup_incl_length (l' := ALLOWED_ENVIRONMENT)).
  - by apply NoDup_ListNoDup.
  - intros x Hx. rewrite Forall_forall in Ha. apply Ha. by apply list_elem_of_In.
Qed.

(** The goal filter accepts exactly the command lines with at least one
    goal, all of whose non-option arguments are allowlisted goals. *)
Theorem build_goals_exact tool arguments :
  allowed_build_goals tool arguments = true <->
  Exists (fun a => starts_with "-" a = false) arguments /\
  Forall (fun a => starts_with "-" a = true \/ goal_allowed tool (to_ascii_lowercase a) = true) arguments.
Proof.
  assert (forall g, In g (build_goals arguments) <->
    exists a, In a arguments /\ starts_with "-" a = false /\ g = to_ascii_lowercase a) as Hin.
  { intros g. unfold build_goals, btree_set. rewrite <- list_elem_of_In, elem_of_remove_dups, list_elem_of_In, in_map_iff.
    setoid_rewrite filter_In. setoid_rewrite negb_true_iff. naive_solver. }
  rewrite Exists_exists, Forall_forall. setoid_rewrite list_elem_of_In.
  unfold allowed_build_goals. destruct (build_goals arguments) as [|g goals] eqn:Hg.
  - split; [done|]. intros [(a & Ha & Hd) _]. exfalso. apply (proj2 (Hin (to_ascii_lowercase a))). eauto.
  - rewrite forallb_forall. setoid_rewrite Hin. split.
    + intros Hall. split.
      * destruct (proj1 (Hin g)) as (a & ? & ? & _); [by left|]. by exists a.
      * intros a Ha. destruct (starts_with "-" a) eqn:E; [by left|right]. apply Hall. eauto.
    + intros [_ Hall] x (a & Ha & Hd & ->). destruct (Hall a Ha); [congruence|done].
Qed.

(** * The engine *)

(** ** Definitions of the statements *)

Section Statements.
Context `{Blake3, LeaseSerde, AuditSerde, ApprovalSerde, EngineSerde} {An : Answers}.

(** A report answers its request, with bounded texts. *)
Record report_of (request : PolicyRequest) (ws hash : string) (paths : list PathSafetyReport)
    (r : PolicyReport) : Prop := {
  report_protocol : rep_schema_version r = POLICY_SCHEMA_VERSION /\
    rep_protocol r = POLICY_PROTOCOL_ID /\ rep_policy_version r = POLICY_VERSION;
  report_request : rep_request_id r = rq_request_id request /\
    rep_action_id r = rq_action_id request /\ rep_action_kind r = action_kind (rq_action request);
  report_action_hash : rep_action_hash r = hash;
  report_workspace_hash : rep_workspace_hash r =
    hash_text (workspace_id (rq_workspace request) ++ ":" ++ normalized_absolute ws);
  report_bounded : strlen (rep_user_reason r) <= MAX_USER_REASON_BYTES /\
    strlen (rep_technical_reason r) <= MAX_TECHNICAL_REASON_BYTES /\
    strlen (rep_recommended_action r) <= MAX_USER_REASON_BYTES;
  report_revalidation : rep_revalidation_required r = true <-> paths <> [];
  report_unaudited : rep_audit_event_id r = None;
}.

(** The outcome of an evaluation: a well-formed request, the canonical
    workspace, the report, and the grounds of its decision. *)
Definition evaluated (request : PolicyRequest) (ev : Evaluation) : Prop :=
  well_formed_request request /\
  exists ws hash, root_of (workspace_root (rq_workspace request)) ws /\
    action_hash (rq_action request) = Ok hash /\
    report_of request ws hash (evn_paths ev) (evn_report ev) /\
    grounded request ws (evn_paths ev) (rep_decision (evn_report ev)).

(** The binding a request needs: every field of it is determined by the
    request, the canonical workspace and the inspected paths. *)
Definition binding_for (request : PolicyRequest) (paths : list PathSafetyReport)
    (b : ApprovalBinding) : Prop :=
  exists ws hash, root_of (workspace_root (rq_workspace request)) ws /\
    action_hash (rq_action request) = Ok hash /\
    ab_request_id b = rq_request_id request /\
    ab_workspace_id b = workspace_id (rq_workspace request) /\
    ab_workspace_root_hash b = hash_text (normalized_absolute ws) /\
    ab_mode b = rq_mode request /\
    working_tree_digest (rq_workspace request) = Some (ab_working_tree_digest b) /\
    ab_files b = bound_files ws paths /\ ab_action_hashes b = [hash] /\
    match rq_action request with
    | ApplyPatch a => ab_base_head b = ap_base_head a /\ ab_diff_hash b = ap_diff_hash a /\
        ab_files_hash b = ap_files_hash a /\ ab_transaction_id b = ap_transaction_id a
    | _ => ab_base_head b = observed_head request /\
        hash_file_bindings (ab_files b) = Ok (ab_files_hash b)
    end /\ valid_binding b.

(** How [check] may turn an evaluation into the final report, [t] being
    its history. *)
Inductive resolution (engine : PolicyEngine) (request : PolicyRequest) (ev : Evaluation)
    (t : list event) : PolicyReport -> Prop :=
| resolved_unchanged :
    (is_require_approval (rep_decision (evn_report ev)) = true -> rq_approval_id request = None) ->
    resolution engine request ev t (evn_report ev)
| resolved_approved id binding now grant before history after :
    is_require_approval (rep_decision (evn_report ev)) = true ->
    rq_approval_id request = Some id ->
    binding_for request (evn_paths ev) binding ->
    t = (before ++ history ++ after)%list ->
    consumed_grant (approvals engine) id binding now grant history ->
    resolution engine request ev t (approved_report (action_kind (rq_action request)) (evn_report ev))
| resolved_refused error :
    is_require_approval (rep_decision (evn_report ev)) = true ->
    resolution engine request ev t (apply_approval_failure (evn_report ev) error).
End Statements.

(** ** Evaluation *)

Section Evaluate.
Context `{Blake3, LeaseSerde, AuditSerde, ApprovalSerde, EngineSerde} {An : Answers}.

Lemma make_report_ok request ws hash outcome paths :
  report_of request ws hash paths
    (make_report request (hash_text (workspace_id (rq_workspace request) ++ ":" ++ normalized_absolute ws))
       hash outcome paths) /\
  rep_decision (make_report request (hash_text (workspace_id (rq_workspace request) ++ ":" ++
    normalized_absolute ws)) hash outcome paths) = outcome_decision outcome.
Proof.
  destruct outcome as [[[[d u] te] rec] re]. split; [|done]. split; try done; simpl.
  - split_and!; apply strlen_bounded; by vm_compute.
  - destruct paths; naive_solver.
Qed.

Lemma evaluate_must request : must (evaluate request) (ok_post (evaluated request)).
Proof.
  unfold evaluate, validate_request.
  eapply must_try_ok with (P := fun _ => well_formed_request request).
  { apply must_pure; intros u Hu. apply validate_request_fields_ok in Hu.
    apply must_true. by intros []. }
  intros _ Hwf. unfold inspect_workspace.
  eapply must_try_ok; [apply must_map_err, inspect_root_must|]. intros ws Hws.
  apply must_pure; intros hash Hhash.
  eapply must_bind; [apply evaluate_action_grounded|]. intros [paths outcome] Ho.
  cbn [must ok_post]. split; [done|]. exists ws, hash. split; [done|]. split; [done|].
  cbn [evn_report evn_paths].
  destruct (make_report_ok request ws hash
    (match outcome with Ok o => o | Err e => path_error_denied e end) paths) as [Hr ->].
  split; [done|]. destruct outcome as [o|e]; [exact Ho|exact I].
Qed.

Lemma evaluate_trace request : trace_must (evaluate request) (ok_trace (fun ev _ => evaluated request ev)).
Proof. apply trace_must_ok, evaluate_must. Qed.
End Evaluate.

(** ** Approval bindings *)

Section Bindings.
Context `{Blake3, LeaseSerde, AuditSerde, ApprovalSerde, EngineSerde} {An : Answers}.

Lemma short_id_any prefix hash (Q : string -> Prop) :
  (forall s, slice_to hash 16 = Some s -> Q (prefix ++ "-" ++ s)) -> must (short_id prefix hash) Q.
Proof. unfold short_id. destruct (slice_to hash 16) as [s|]; [|done]. intros HQ. by apply HQ. Qed.

Lemma binding_fields_must request hash files :
  must (binding_fields request hash files) (ok_post (fun fields =>
    let '(base_head, diff_hash, files_hash, transaction) := fields in
    match rq_action request with
    | ApplyPatch a => base_head = ap_base_head a /\ diff_hash = ap_diff_hash a /\
        files_hash = ap_files_hash a /\ transaction = ap_transaction_id a
    | _ => base_head = observed_head request /\ hash_file_bindings files = Ok files_hash
    end)).
Proof.
  unfold binding_fields. destruct (rq_action request); try done;
    apply must_pure; intros files_hash Hf; try done;
    (eapply must_bind; [apply (short_id_any _ _ (fun _ => True)); done|]; done).
Qed.

Lemma approval_binding_must request paths :
  must (approval_binding request paths) (ok_post (binding_for request paths)).
Proof.
  unfold approval_binding. apply must_pure; intros hash Hhash. unfold inspect_workspace.
  eapply must_try_ok; [apply must_map_err, inspect_root_must|]. intros ws Hws.
  apply must_pure; intros digest Hdigest. apply must_pure; intros ? _.
  eapply must_try_ok; [apply binding_fields_must|]. intros [[[bh dh] fh] tx] Hfields.
  cbn [lift must]. destruct (normalized _) as [b|e] eqn:Hn; simpl; [|done].
  apply normalized_ok in Hn as [-> Hvalid].
  exists ws, hash. simpl. split_and!; try done.
  by destruct (working_tree_digest _); simplify_eq/=.
Qed.
End Bindings.

(** ** Checking *)

Section Check.
Context `{Blake3, LeaseSerde, AuditSerde, ApprovalSerde, EngineSerde} {An : Answers}.

Lemma resolve_approval_trace engine request ev :
  trace_must (resolve_approval engine request ev)
    (ok_trace (fun rs t => resolution engine request ev t (fst rs))).
Proof.
  unfold resolve_approval. destruct (is_require_approval _) eqn:Hreq; cbn [negb];
    [|apply trace_ret; simpl; apply resolved_unchanged; congruence].
  destruct (rq_approval_id request) as [id|] eqn:Hid;
    [|apply trace_ret; simpl; by apply resolved_unchanged].
  eapply trace_try_ok; [apply trace_must_ok, approval_binding_must|]. intros binding before Hb.
  eapply trace_must_bind with (P := fun r t => match r with
    | Ok grant => exists now u v, t = (u ++ v)%list /\ consumed_grant (approvals engine) id binding now grant v
    | Err _ => True
    end).
  { unfold consume. apply trace_must_call. intros now. cbn [bind].
    eapply trace_must_mono; [apply consume_at_trace|]. intros [grant|e] t Ht; [|done].
    by exists now, [Ev SystemTimeMillis now], t. }
  intros [grant|error] t Ht; apply trace_ret; simpl; [|by apply resolved_refused].
  destruct Ht as (now & u & v & -> & Hg).
  eapply resolved_approved; [done|exact Hid|exact Hb| |exact Hg].
  instantiate (1 := []). instantiate (1 := (before ++ u)%list). by rewrite !app_nil_r, <- app_assoc.
Qed.

Lemma resolution_extend engine request ev t u v r :
  resolution engine request ev u r -> resolution engine request ev (t ++ u ++ v) r.
Proof.
  intros [|i b n g before h after ? ? ? -> Hg|].
  - by apply resolved_unchanged.
  - eapply resolved_approved; [done..| |exact Hg].
    instantiate (1 := (after ++ v)%list). instantiate (1 := (t ++ before)%list).
    by rewrite <- !app_assoc.
  - by apply resolved_refused.
Qed.

(** The whole of [check] on its trace. *)
Definition checked (engine : PolicyEngine) (request : PolicyRequest) (pf : PolicyPreflight)
    (t : list event) : Prop :=
  exists ev report id status timestamp duration before history,
    t = (before ++ history)%list /\ evaluated request ev /\
    resolution engine request ev before report /\
    is_ok (validate_event (audit_event_of request report status timestamp duration)) = true /\
    recorded (audit engine) (audit_event_of request report status timestamp duration) id history /\
    pf_report pf = set_audit_event_id (Some id) report /\
    pf_paths pf = evn_paths ev /\ pf_request pf = request /\
    pf_base_rule_id pf = decision_rule_id (rep_decision (evn_report ev)) /\
    security_context_hash request = Ok (pf_security_context_hash pf).

Lemma make_preflight_ok request rule ev pf :
  make_preflight request rule ev = Ok pf ->
  pf_report pf = evn_report ev /\ pf_paths pf = evn_paths ev /\ pf_request pf = request /\
  pf_base_rule_id pf = rule /\ security_context_hash request = Ok (pf_security_context_hash pf).
Proof. unfold make_preflight. intros (hash & ? & [= <-])%rbind_ok. done. Qed.

Lemma check_trace engine request :
  trace_must (check engine request) (ok_trace (checked engine request)).
Proof.
  unfold check. apply trace_try_any; intros ? t0. apply trace_must_call; intros started.
  cbn [bind]. eapply trace_try_ok; [apply evaluate_trace|]. intros ev t1 Hev. cbv zeta.
  eapply trace_try_ok; [apply resolve_approval_trace|]. intros [report status] t2 Hres.
  apply trace_must_call; intros timestamp. apply trace_must_call; intros now. cbn [bind].
  eapply trace_try_ok; [apply trace_map_err, record_trace|]. intros id t3 [Hvalid Hrec].
  apply trace_ret. destruct (make_preflight _ _ _) as [pf|] eqn:Hpf; [|done].
  apply make_preflight_ok in Hpf as (?&?&?&?&?). simpl in *. rewrite app_nil_r.
  exists ev, report, id, status, timestamp, (duration_us started now),
    ((t0 ++ Ev InstantNow started :: t1) ++ t2 ++
     [Ev SystemTimeMillis timestamp; Ev InstantNow now])%list, t3.
  split; [by rewrite <- !app_assoc; simpl; rewrite <- ?app_assoc|]. split; [done|].
  split; [by apply resolution_extend|done].
Qed.
End Check.

(** ** Issue and revalidation *)

Section Revalidate.
Context `{Blake3, LeaseSerde, AuditSerde, ApprovalSerde, EngineSerde} {An : Answers}.

Lemma issue_approval_trace engine request confirmation ttl :
  trace_must (issue_approval engine request confirmation ttl) (ok_trace (fun grant t =>
    exists ev binding now before history,
      t = (before ++ history)%list /\ evaluated request ev /\
      is_require_approval (rep_decision (evn_report ev)) = true /\
      rq_approval_id request = None /\
      binding_for request (evn_paths ev) binding /\
      1 <= ttl <= MAX_APPROVAL_TTL_SECONDS /\
      issued (approvals engine) binding confirmation ttl now grant history)).
Proof.
  unfold issue_approval. apply trace_try_any; intros ? t0. apply trace_pure; intros ? Hid.
  apply if_err_ok in Hid. eapply trace_try_ok; [apply evaluate_trace|]. intros ev t1 Hev.
  apply trace_pure; intros ? Hreq. apply if_err_ok, negb_false_iff in Hreq.
  eapply trace_try_ok; [apply trace_must_ok, approval_binding_must|]. intros binding t2 Hb.
  apply trace_map_err. unfold issue. apply trace_must_call. intros now. cbn [bind].
  eapply trace_must_mono; [apply issue_at_trace|]. intros [grant|] t3; [|done].
  intros (Httl & _ & Hissued).
  exists ev, binding, now, (t0 ++ t1 ++ t2 ++ [Ev SystemTimeMillis now])%list, t3.
  split; [by rewrite <- !app_assoc|]. split_and!; try done; try lia.
  by destruct (rq_approval_id request).
Qed.

(** A path of the preflight inspected again: the same report, and the
    content just read has the recorded hash. *)
Definition revalidated (before : PathSafetyReport) : Prop :=
  exists after,
    safe_report {| pt_root := psr_root before; pt_path := relative_path before; pt_range := None;
                   pt_expected_hash := content_hash (fingerprint_of before) |}
      (if psr_exists before then ExistingEntry else NewFile) after /\
    psr_eqb before after = true /\
    (forall h, content_hash (fingerprint_of before) = Some h ->
       exists bytes, answers (ReadFile (psr_target after)) (Ok bytes) /\ blake3_hex bytes = h).

Lemma psr_eqb_fingerprint a b : psr_eqb a b = true -> fingerprint_of a = fingerprint_of b.
Proof. unfold psr_eqb. intros. split_bools. done. Qed.

Lemma revalidate_paths_must paths :
  must (revalidate_paths paths) (ok_post (fun _ => Forall revalidated paths)).
Proof.
  induction paths as [|before rest IH]; cbn [revalidate_paths]; [constructor|].
  eapply must_try_ok; [apply must_map_err, inspect_path_must|]. intros after Hafter.
  apply must_pure; intros u Heq. destruct (psr_eqb before after) eqn:E; [|done].
  eapply must_mono; [exact IH|]. intros [?|]; simpl; [|done]. intros Hrest.
  constructor; [|done]. exists after. split; [done|]. split; [done|]. intros h Hh.
  rewrite (psr_eqb_fingerprint _ _ E) in Hh. apply (safe_content _ _ _ Hafter) in Hh as (bytes & ? & ->).
  by exists bytes.
Qed.

Lemma revalidate_observed_must pf observed :
  must (revalidate_observed pf observed) (ok_post (fun _ =>
    security_context_hash observed = Ok (pf_security_context_hash pf) /\
    (exists fresh, evaluated observed fresh /\
       decision_rule_id (rep_decision (evn_report fresh)) = pf_base_rule_id pf /\
       reports_eqb (evn_paths fresh) (pf_paths pf) = true) /\
    Forall revalidated (pf_paths pf))).
Proof.
  unfold revalidate_observed. apply must_pure; intros hash Hhash.
  apply must_pure; intros ? Hsame. destruct (hash =?s _) eqn:E; [|done]. apply String.eqb_eq in E. subst.
  eapply must_try_ok; [apply evaluate_must|]. intros fresh Hfresh.
  apply must_pure; intros ? Hf. destruct (_ && _) eqn:E; [|done]. split_bools.
  eapply must_mono; [apply revalidate_paths_must|]. intros [?|]; simpl; [|done]. intros Hr.
  split; [done|]. split; [|done]. exists fresh. by rewrite <- String.eqb_eq.
Qed.
End Revalidate.

(** ** Panics *)

Create HintDb calm.

(** Follows the structure of a program, as [observe] does. *)
Ltac calm :=
  repeat first
    [ solve [auto with calm nocore]
    | apply no_panic_try; [|intros ?]
    | apply no_panic_bind; [|intros ?]
    | apply no_panic_map_err
    | match goal with
      | |- no_panic (match ?x with _ => _ end) => destruct x
      | |- no_panic (Sys _ _) => intros ?
      | |- no_panic (sys _) => intros ?
      | |- no_panic (Ret _) => exact I
      end ].

Lemma calm_lift {A E} (r : result A E) : no_panic (lift r).
Proof. done. Qed.
Lemma observer_calm {A} (m : IO A) : observer m -> no_panic m.
Proof. by intros []. Qed.
#[export] Hint Resolve calm_lift : calm.

Lemma calm_new_storage_id prefix : no_panic (new_storage_id prefix).
Proof. unfold new_storage_id, unix_millis. calm. Qed.
Lemma calm_path_exists p : no_panic (path_exists p).
Proof. unfold path_exists. calm. Qed.
Lemma calm_sys_any {A : Set} (c : syscall (result A io_error)) : no_panic (sys_any c).
Proof. done. Qed.
Lemma calm_sys_context {A : Set} m (c : syscall (result A io_error)) : no_panic (sys_context m c).
Proof. done. Qed.
#[export] Hint Resolve calm_new_storage_id calm_path_exists calm_sys_any calm_sys_context : calm.

Lemma calm_atomic_create p f b : no_panic (atomic_create p f b).
Proof. unfold atomic_create. calm. Qed.
Lemma calm_controlled_child p c : no_panic (ensure_controlled_child p c).
Proof. unfold ensure_controlled_child, create_dir_if_missing. calm. Qed.
#[export] Hint Resolve calm_atomic_create calm_controlled_child : calm.
Lemma calm_events_dir s h c : no_panic (workspace_events_dir s h c).
Proof. unfold workspace_events_dir. calm. Qed.
Lemma calm_measured l : no_panic (measured_files l).
Proof. induction l; cbn [measured_files]; calm. Qed.
Lemma calm_rotate_loop l n t m : no_panic (rotate_loop l n t m).
Proof.
  revert n t. induction l as [|[p b] l IH]; intros n t; simpl; [done|]. destruct (_ && _); [done|].
  intros [?|?]; simpl; [apply IH|]. destruct (bool_decide _); [apply IH|done].
Qed.
#[export] Hint Resolve calm_events_dir calm_measured calm_rotate_loop : calm.
Lemma calm_rotate d : no_panic (rotate d).
Proof. unfold rotate, rotate_to_limits, controlled_json_files. calm. Qed.
#[export] Hint Resolve calm_rotate : calm.
Lemma calm_record `{AuditSerde} s e : no_panic (record s e).
Proof. unfold record. calm. Qed.
Lemma calm_consume `{Blake3, ApprovalSerde} s id b : no_panic (consume s id b).
Proof. unfold consume, unix_millis, consume_at, already_claimed, take_claim, take_record, read_record, sys_invalid. calm. Qed.
Lemma calm_issue `{Blake3, ApprovalSerde} s b c t : no_panic (issue s b c t).
Proof. unfold issue, unix_millis, issue_at. calm. Qed.
#[export] Hint Resolve calm_record calm_consume calm_issue : calm.

Section Calm.
Context `{Blake3, LeaseSerde, AuditSerde, ApprovalSerde, EngineSerde}.

Lemma short_id_hex prefix hash : valid_hash hash -> no_panic (short_id prefix hash).
Proof.
  intros [Hl Hx]. unfold short_id. rewrite slice_to_ascii; [done| |lia].
  eapply all_bytes_impl; [exact hexdigit_not_cont|exact Hx].
Qed.

Context `{!Blake3Hex}.

Lemma action_hash_valid action hash : action_hash action = Ok hash -> valid_hash hash.
Proof.
  unfold action_hash, hash_json. intros Hh%map_err_ok. destruct (action_to_vec action) as [bytes|]; [|done].
  injection Hh as <-. apply blake3_hex_digits.
Qed.

Lemma calm_approval_binding request paths :
  (forall a, rq_action request = GitCommit a -> valid_hash (gc_tree_hash a)) ->
  no_panic (approval_binding request paths).
Proof.
  intros Htree. unfold approval_binding.
  apply no_panic_try_must with (P := valid_hash); [done| |].
  { simpl. destruct (action_hash _) eqn:Hh; [|done]. by eapply action_hash_valid. }
  intros hash Hh. apply no_panic_try; [apply observer_calm; auto with observer|].
  intros root. apply no_panic_try; [done|]. intros digest. apply no_panic_try; [done|]. intros _.
  apply no_panic_try; [|by intros [[[? ?] ?] ?]].
  unfold binding_fields. pose proof (short_id_hex "action" _ Hh) as Hshort.
  destruct (rq_action request) eqn:Ha; try done; (apply no_panic_try; [done|intros ?]); try done;
    try (apply no_panic_bind; [exact Hshort|done]).
  apply no_panic_bind; [|done]. by apply short_id_hex, Htree.
Qed.

(** A request whose decision is [RequireApproval] has a sliceable tree hash. *)
Lemma approval_tree_hash {An : Answers} request ev :
  evaluated request ev -> is_require_approval (rep_decision (evn_report ev)) = true ->
  forall a, rq_action request = GitCommit a -> valid_hash (gc_tree_hash a).
Proof.
  intros (_ & ws & hash & _ & _ & _ & Hg) Hreq a Ha. unfold grounded in Hg.
  destruct (rep_decision _); try done. unfold approval_grounds in Hg. rewrite Ha in Hg. by destruct_and!.
Qed.

Lemma calm_check engine request : no_panic (check engine request).
Proof.
  unfold check, unix_millis. apply no_panic_try; [apply observer_calm; auto with observer|]. intros ?.
  apply no_panic_bind; [done|]. intros started.
  eapply no_panic_try_must; [apply observer_calm, evaluate_observes|apply evaluate_must|].
  intros ev Hev. apply no_panic_try; [|intros [report status]; calm].
  unfold resolve_approval. destruct (is_require_approval _) eqn:Hreq; [|done]. cbn [negb].
  destruct (rq_approval_id request); [|done].
  apply no_panic_try; [apply calm_approval_binding; by eapply (approval_tree_hash (An := any_answer))|].
  intros binding. apply no_panic_bind; [auto with calm|]. by intros [].
Qed.

Lemma calm_issue_approval engine request confirmation ttl :
  no_panic (issue_approval engine request confirmation ttl).
Proof.
  unfold issue_approval. apply no_panic_try; [apply observer_calm; auto with observer|]. intros ?.
  apply no_panic_try; [done|]. intros ?.
  eapply no_panic_try_must; [apply observer_calm, evaluate_observes|apply evaluate_must|].
  intros ev Hev. destruct (is_require_approval _) eqn:Hreq; [|done]. cbn [negb].
  apply no_panic_try; [done|]. intros ?.
  apply no_panic_try; [apply calm_approval_binding; by eapply (approval_tree_hash (An := any_answer))|].
  intros binding. calm.
Qed.
End Calm.
