(* ===== verification/EngineProperties.v ===== *)
(** * The properties of the policy engine

    The main theorems about decisions, approvals, audit and revalidation,
    from the lemmas of EngineFacts.v. *)

From stdpp Require Import base list strings.
From Stdlib Require Import NArith Ascii String Sorted Lia.
From S2P Require Import Prelude Bytes UnixPath IO World Model Paths AuditLog Approval Rules Worktree Actions Engine ActionFacts Observers Trace AuditFacts ApprovalFacts Demo EngineFacts.

Local Open Scope string_scope.
Local Open Scope N_scope.

(** ** Definitions of the statements *)

(** Actions this policy version never authorises. *)
Definition closed_action (a : PolicyAction) : bool :=
  match a with
  | GitWrite _ | GitPush _ | NetworkAccess _ _ | PackageInstall _ _ | Publish _ _
  | ModifyPolicy | ElevatePrivileges | UnknownAction => true
  | _ => false
  end.

(** Actions that change files, processes, refs or worktrees. *)
Definition mutating_action (a : PolicyAction) : bool :=
  match a with
  | ReadFileAction _ | ReadDirectory _ | Search _ | BuildContext _ | UseRag _ | GitRead _ => false
  | _ => true
  end.

Section Statements.
Context `{Blake3, LeaseSerde, AuditSerde, ApprovalSerde, EngineSerde} {An : Answers}.

(** The grant the request carries was consumed in [t], for exactly the
    binding this request needs. *)
Definition approval_consumed (engine : PolicyEngine) (request : PolicyRequest)
    (paths : list PathSafetyReport) (t : list event) : Prop :=
  exists id binding now grant before history after,
    rq_approval_id request = Some id /\ binding_for request paths binding /\
    t = (before ++ history ++ after)%list /\
    consumed_grant (approvals engine) id binding now grant history.

(** What authorises the action of a preflight. *)
Definition authorized (engine : PolicyEngine) (request : PolicyRequest) (pf : PolicyPreflight)
    (t : list event) : Prop :=
  well_formed_request request /\
  exists ws, root_of (workspace_root (rq_workspace request)) ws /\
    (allow_grounds request ws (pf_paths pf) \/
     (approval_grounds request ws (pf_paths pf) /\ approval_consumed engine request (pf_paths pf) t)).

Lemma resolution_authorized engine request ev t report ws :
  resolution engine request ev t report -> allowed_report report = true ->
  grounded request ws (evn_paths ev) (rep_decision (evn_report ev)) ->
  allow_grounds request ws (evn_paths ev) \/
  (approval_grounds request ws (evn_paths ev) /\ approval_consumed engine request (evn_paths ev) t).
Proof.
  intros Hres Hallow Hg. unfold grounded in Hg. destruct Hres as [Hno|id b n g before h after Hreq|e Hreq].
  - left. unfold allowed_report in Hallow. by destruct (rep_decision _).
  - right. destruct (rep_decision _); try done. split; [done|].
    by exists id, b, n, g, before, h, after.
  - exfalso. unfold apply_approval_failure in Hallow. by destruct (approval_failure_rule e).
Qed.

Lemma checked_authorized engine request pf t :
  checked engine request pf t -> allowed_report (pf_report pf) = true -> authorized engine request pf t.
Proof.
  intros (ev & report & id & st & ts & du & before & history & -> & Hev & Hres & _ & _ & Hrep & Hpaths & _) Hallow.
  destruct Hev as (Hwf & ws & hash & Hws & _ & _ & Hg). split; [done|]. exists ws. split; [done|].
  rewrite Hpaths. rewrite Hrep in Hallow.
  assert (resolution engine request ev ([] ++ before ++ history) report) as Hres'
    by (by apply resolution_extend).
  by eapply resolution_authorized.
Qed.

(** A closed action has no grounds, a mutating one none in read-only mode. *)
Lemma grounds_open request ws paths :
  allow_grounds request ws paths \/ approval_grounds request ws paths ->
  closed_action (rq_action request) = false /\
  (rq_mode request = ReadOnly -> mutating_action (rq_action request) = false).
Proof.
  unfold allow_grounds, approval_grounds. destruct (rq_action request); intros [Hg|Hg]; try done;
    split; try done; intros Hm; destruct_and?; congruence.
Qed.
End Statements.

Section Outcomes.
Context `{Blake3, LeaseSerde, AuditSerde, ApprovalSerde, EngineSerde} {An : Answers}.

Lemma check_authorized engine request :
  trace_must (check engine request) (ok_trace (fun pf t =>
    allowed_report (pf_report pf) = true -> authorized engine request pf t)).
Proof.
  eapply trace_must_mono; [apply check_trace|]. intros [pf|] t; simpl; [|done].
  apply checked_authorized.
Qed.

(** Neither allowed nor waiting for approval. *)
Lemma evaluate_denies request :
  closed_action (rq_action request) = true \/
  (rq_mode request = ReadOnly /\ mutating_action (rq_action request) = true) ->
  must (evaluate request) (ok_post (fun ev => is_deny (rep_decision (evn_report ev)) = true)).
Proof.
  intros Hr. eapply must_mono; [apply evaluate_must|]. intros [ev|]; simpl; [|done].
  intros (_ & ws & hash & _ & _ & _ & Hg). unfold grounded in Hg.
  destruct (rep_decision _); try done.
  - destruct (grounds_open request ws (evn_paths ev)) as [? Hm]; [by left|].
    destruct Hr as [|[? ?]]; [congruence|]. rewrite Hm in *; congruence.
  - destruct (grounds_open request ws (evn_paths ev)) as [? Hm]; [by right|].
    destruct Hr as [|[? ?]]; [congruence|]. rewrite Hm in *; congruence.
Qed.

Lemma check_denies engine request :
  closed_action (rq_action request) = true \/
  (rq_mode request = ReadOnly /\ mutating_action (rq_action request) = true) ->
  must (check engine request) (ok_post (fun pf => is_deny (rep_decision (pf_report pf)) = true)).
Proof.
  intros Hr. apply must_of_trace. eapply trace_must_mono; [apply check_trace|].
  intros [pf|] t; simpl; [|done].
  intros (ev & report & id & st & ts & du & before & history & _ & Hev & Hres & _ & _ & Hrep & _).
  destruct Hev as (_ & ws & hash & _ & _ & _ & Hg). unfold grounded in Hg.
  assert (is_deny (rep_decision (evn_report ev)) = true) as Hdeny.
  { destruct (rep_decision (evn_report ev)); try done;
      (destruct (grounds_open request ws (evn_paths ev)) as [? Hm]; [tauto|]);
      destruct Hr as [|[? ?]]; [congruence| |congruence|]; rewrite Hm in *; congruence. }
  rewrite Hrep. destruct Hres as [| |e]; [done|by destruct (rep_decision (evn_report ev))|].
  simpl. unfold apply_approval_failure. by destruct (approval_failure_rule e).
Qed.

(** What authorises a patch. *)
Lemma patch_authorized engine request :
  trace_must (check engine request) (ok_trace (fun pf t =>
    allowed_report (pf_report pf) = true -> forall action, rq_action request = ApplyPatch action ->
    patch_bound action /\
    exists ws root, root_of (workspace_root (rq_workspace request)) ws /\ root_of (ap_root action) root /\
      patch_reports action root (pf_paths pf) /\
      ((path_eqb root ws = false /\ rq_mode request = WorktreeEdit /\ in_worktree request ws root) \/
       (path_eqb root ws = true /\ rq_mode request = ApprovedApply /\
        observed_state request (ap_base_head action) /\
        approval_consumed engine request (pf_paths pf) t)))).
Proof.
  eapply trace_must_mono; [apply check_authorized|]. intros [pf|] t; simpl; [|done].
  intros Hauth Hallow action Ha. destruct (Hauth Hallow) as (_ & ws & Hws & [Hg|[Hg Hc]]);
    unfold allow_grounds, approval_grounds in Hg; rewrite Ha in Hg.
  - destruct Hg as (? & ? & root & ? & ? & ? & ?). split; [done|]. exists ws, root.
    split_and!; try done. by left.
  - destruct Hg as (? & ? & ? & root & ? & ? & ?). split; [done|]. exists ws, root.
    split_and!; try done. by right.
Qed.
End Outcomes.

(** ** Properties *)

(** Whatever the file system contains and however it changes during the
    evaluation, an evaluation that succeeds has a well-formed request, a
    faithful bounded report, and a decision with its grounds: an [Allow] or a
    [RequireApproval] is only reached through every check of the rule for
    that action. *)
Theorem evaluate_grounded `{Blake3, LeaseSerde, AuditSerde, ApprovalSerde, EngineSerde} {An : Answers} request :
  must (evaluate request) (ok_post (evaluated request)).
Proof. apply evaluate_must. Qed.

(** C3: [check] authorises an action only if the rules allow it outright, or
    if they require an approval and the grant the request carries was
    consumed during this very check, for exactly the binding of this
    request. *)
Theorem check_authorizes `{Blake3, LeaseSerde, AuditSerde, ApprovalSerde, EngineSerde} {An : Answers} engine request :
  trace_must (check engine request) (ok_trace (fun pf t =>
    allowed_report (pf_report pf) = true -> authorized engine request pf t)).
Proof. apply check_authorized. Qed.

(** The demonstration patch, with the grant issued for it. *)
Definition issued_patch : world * outcome (policy ApprovalGrant) :=
  run (issue_approval demo_engine (demo_request ApprovedApply (demo_patch "/repo") None)
         demo_confirmation 600) opened_world.
Definition granted_patch : PolicyRequest :=
  demo_request ApprovedApply (demo_patch "/repo") (Some (grant_id (snd issued_patch))).

Definition allowed_run (o : outcome (policy PolicyPreflight * list event)) : bool :=
  match o with Done (Ok pf, _) => allowed_report (pf_report pf) | _ => false end.

Lemma allowed_run_spec o :
  allowed_run o = true -> exists pf t, o = Done (Ok pf, t) /\ allowed_report (pf_report pf) = true.
Proof. destruct o as [[[pf|] t]|]; try done. intros Hallow. by exists pf, t. Qed.

Lemma check_authorizes_witness :
  exists pf t, traced_run (check demo_engine granted_patch) (fst issued_patch) = Done (Ok pf, t) /\
    allowed_report (pf_report pf) = true /\ authorized (An := any_answer) demo_engine granted_patch pf t.
Proof.
  destruct (allowed_run_spec (traced_run (check demo_engine granted_patch) (fst issued_patch)))
    as (pf & t & E & Hallow); [vm_compute; reflexivity|].
  exists pf, t. split; [exact E|]. split; [exact Hallow|].
  exact (trace_must_run _ _ _ _ _ (check_authorizes demo_engine granted_patch) E Hallow).
Defined.

(** Unknown actions, generic Git writes, pushes, standalone network
    access, package installation, publication, policy changes and privilege
    elevation are denied by [evaluate] and by [check], in every mode and with
    every approval. *)
Theorem closed_actions_denied `{Blake3, LeaseSerde, AuditSerde, ApprovalSerde, EngineSerde} {An : Answers} engine request :
  closed_action (rq_action request) = true ->
  must (evaluate request) (ok_post (fun ev => is_deny (rep_decision (evn_report ev)) = true)) /\
  must (check engine request) (ok_post (fun pf => is_deny (rep_decision (pf_report pf)) = true)).
Proof. intros Hc. split; [apply evaluate_denies|apply check_denies]; by left. Qed.

Definition demo_push : PolicyRequest :=
  demo_request ApprovedApply
    (GitPush {| gw_repository_root := "/repo"; gw_operation := GitBranch; gw_paths := [] |}) (Some "grant-1").

Lemma closed_actions_denied_witness :
  must (An := any_answer) (evaluate demo_push)
    (ok_post (fun ev => is_deny (rep_decision (evn_report ev)) = true)) /\
  must (An := any_answer) (check demo_engine demo_push)
    (ok_post (fun pf => is_deny (rep_decision (pf_report pf)) = true)).
Proof. apply (closed_actions_denied (An := any_answer)). reflexivity. Defined.

(** C25: in [read_only] mode every action that could change anything is
    denied, approval or not. *)
Theorem read_only_denies_mutation `{Blake3, LeaseSerde, AuditSerde, ApprovalSerde, EngineSerde} {An : Answers} engine request :
  rq_mode request = ReadOnly -> mutating_action (rq_action request) = true ->
  must (evaluate request) (ok_post (fun ev => is_deny (rep_decision (evn_report ev)) = true)) /\
  must (check engine request) (ok_post (fun pf => is_deny (rep_decision (pf_report pf)) = true)).
Proof. intros Hm Ha. split; [apply evaluate_denies|apply check_denies]; by right. Qed.

Definition demo_read_only_write : PolicyRequest :=
  demo_request ReadOnly (WriteFile (source_file worktree_root)) None.

Lemma read_only_denies_mutation_witness :
  must (An := any_answer) (evaluate demo_read_only_write)
    (ok_post (fun ev => is_deny (rep_decision (evn_report ev)) = true)) /\
  must (An := any_answer) (check demo_engine demo_read_only_write)
    (ok_post (fun pf => is_deny (rep_decision (pf_report pf)) = true)).
Proof. apply (read_only_denies_mutation (An := any_answer)); reflexivity. Defined.

(** C4: a patch is authorised on the original workspace only in
    [approved_apply] mode, on an observed clean repository at the patch's
    base commit, with a grant consumed for it; otherwise its root is the
    validated active worktree, in [worktree_edit] mode. *)
Theorem patch_authorization `{Blake3, LeaseSerde, AuditSerde, ApprovalSerde, EngineSerde} {An : Answers} engine request :
  trace_must (check engine request) (ok_trace (fun pf t =>
    allowed_report (pf_report pf) = true -> forall action, rq_action request = ApplyPatch action ->
    patch_bound action /\
    exists ws root, root_of (workspace_root (rq_workspace request)) ws /\ root_of (ap_root action) root /\
      patch_reports action root (pf_paths pf) /\
      ((path_eqb root ws = false /\ rq_mode request = WorktreeEdit /\ in_worktree request ws root) \/
       (path_eqb root ws = true /\ rq_mode request = ApprovedApply /\
        observed_state request (ap_base_head action) /\
        approval_consumed engine request (pf_paths pf) t)))).
Proof. apply patch_authorized. Qed.

Lemma patch_authorization_witness :
  exists pf t ws root, traced_run (check demo_engine granted_patch) (fst issued_patch) = Done (Ok pf, t) /\
    allowed_report (pf_report pf) = true /\
    ((path_eqb root ws = false /\ rq_mode granted_patch = WorktreeEdit /\
      in_worktree (An := any_answer) granted_patch ws root) \/
     (path_eqb root ws = true /\ rq_mode granted_patch = ApprovedApply /\
      observed_state granted_patch commit /\
      approval_consumed (An := any_answer) demo_engine granted_patch (pf_paths pf) t)).
Proof.
  destruct (allowed_run_spec (traced_run (check demo_engine granted_patch) (fst issued_patch)))
    as (pf & t & E & Hallow); [vm_compute; reflexivity|].
  pose proof (trace_must_run _ _ _ _ _ (patch_authorization demo_engine granted_patch) E Hallow) as Hpf.
  destruct (Hpf _ eq_refl) as (_ & ws & root & _ & _ & _ & Hcases).
  exists pf, t, ws, root. split; [exact E|]. split; [exact Hallow|]. exact Hcases.
Defined.

(** C24: a build command that is not denied runs in [worktree_edit] mode
    below the validated active worktree, launched directly, and within every
    bound of time, output and arguments.  Its goals and its environment are on
    the allowlists; its options are only those that the denylist of its tool
    does not list, a test that a joined form such as [--file=x] passes for
    Maven.  Its executable lies in an installation root, or is a wrapper in
    the worktree whose content hash, if any, is that of the source's; above
    the size that is hashed, 16 MiB, both have none, and nothing is compared.
    It is allowed outright only offline with network access denied, and an
    approval is asked for only when network access is not denied. *)
Theorem process_authorization `{Blake3, LeaseSerde, AuditSerde, ApprovalSerde, EngineSerde} {An : Answers} request :
  must (evaluate request) (ok_post (fun ev =>
    is_deny (rep_decision (evn_report ev)) = false ->
    forall action, rq_action request = RunProcess action ->
    rq_mode request = WorktreeEdit /\
    (exists ws active cwd, root_of (workspace_root (rq_workspace request)) ws /\
       worktree_authority request ws active /\ root_of (rp_cwd action) cwd /\
       path_starts_with cwd active = true /\ process_admitted ws active cwd action) /\
    (is_allow (rep_decision (evn_report ev)) = true ->
       offline_flag (rp_arguments action) = true /\ rp_network action = NetDenied) /\
    (is_require_approval (rep_decision (evn_report ev)) = true -> rp_network action <> NetDenied))).
Proof.
  eapply must_mono; [apply evaluate_must|]. intros [ev|]; simpl; [|done].
  intros (_ & ws & hash & Hws & _ & _ & Hg) Hd action Ha. unfold grounded in Hg.
  destruct (rep_decision _); try done; unfold allow_grounds, approval_grounds in Hg; rewrite Ha in Hg.
  - destruct Hg as (? & (active & cwd & ? & ? & ? & ?) & ? & ?). split; [done|].
    split; [by exists ws, active, cwd|]. split; [done|]. by intros.
  - destruct Hg as (? & (active & cwd & ? & ? & ? & ?) & ?). split; [done|].
    split; [by exists ws, active, cwd|]. split; [by intros|]. done.
Qed.

Definition demo_offline_build : PolicyRequest :=
  demo_request WorktreeEdit (demo_build ["--offline"; "test"] NetDenied) None.

Definition allowed_evaluation (o : outcome (policy Evaluation)) : bool :=
  match o with Done (Ok ev) => is_allow (rep_decision (evn_report ev)) | _ => false end.

Lemma allowed_evaluation_spec o :
  allowed_evaluation o = true ->
  exists ev, o = Done (Ok ev) /\ is_allow (rep_decision (evn_report ev)) = true.
Proof. destruct o as [[ev|]|]; try done. intros Hallow. by exists ev. Qed.

Lemma process_authorization_witness :
  exists ws active cwd action, rq_action demo_offline_build = RunProcess action /\
    worktree_authority (An := in_world opened_world) demo_offline_build ws active /\
    process_admitted (An := in_world opened_world) ws active cwd action /\
    offline_flag (rp_arguments action) = true /\ rp_network action = NetDenied.
Proof.
  destruct (allowed_evaluation_spec (eval (evaluate demo_offline_build) opened_world))
    as (ev & E & Hallow); [vm_compute; reflexivity|].
  pose proof (must_eval _ _ _ _ (process_authorization (An := in_world opened_world) demo_offline_build)
    (proj1 (evaluate_observes demo_offline_build)) E) as Hev.
  assert (is_deny (rep_decision (evn_report ev)) = false) as Hdeny by (by destruct (rep_decision (evn_report ev))).
  destruct (Hev Hdeny _ eq_refl) as (_ & (ws & active & cwd & _ & Hauth & _ & _ & Hadmit) & Hoffline & _).
  eexists ws, active, cwd, _. split; [reflexivity|]. split; [exact Hauth|]. split; [exact Hadmit|].
  exact (Hoffline Hallow).
Defined.

(** Every decision returned by [check] has been recorded: the
    evaluation, the resolution of the approval and then the publication of an
    audit event that carries the final decision, whose identifier the report
    returns. *)
Theorem check_audited `{Blake3, LeaseSerde, AuditSerde, ApprovalSerde, EngineSerde} {An : Answers} engine request :
  trace_must (check engine request) (ok_trace (checked engine request)).
Proof. apply check_trace. Qed.

(** Explaining a decision only observes: it makes no call that changes
    the world and never panics, so it leaves every world as it was. *)
Theorem explain_observes `{Blake3, LeaseSerde, AuditSerde, ApprovalSerde, EngineSerde} engine request w :
  observer (explain engine request) /\
  exists r, run (explain engine request) w = (w, Done r).
Proof.
  assert (observer (explain engine request)) as Ho.
  { unfold explain. observe. }
  split; [done|]. destruct (no_panic_run _ w (proj2 Ho)) as [r Hr]. exists r.
  rewrite read_only_run_eq by apply Ho. unfold eval. by rewrite Hr.
Qed.

(** On a given world, what [evaluate] establishes are facts of that
    world: each root, lease, Git file and fingerprint its grounds mention is
    what the file system answers. *)
Theorem evaluate_in_world `{Blake3, LeaseSerde, AuditSerde, ApprovalSerde, EngineSerde} request w ev :
  eval (evaluate request) w = Done (Ok ev) -> evaluated (An := in_world w) request ev.
Proof.
  intros Hr. change (ok_post (E := PolicyError) (evaluated (An := in_world w) request) (Ok ev)).
  eapply (must_eval (evaluate request) _ w); [apply evaluate_must|apply evaluate_observes|done].
Qed.

Definition demo_write : PolicyRequest :=
  demo_request WorktreeEdit (WriteFile (source_file worktree_root)) None.
Definition demo_evaluation : Evaluation :=
  match eval (evaluate demo_write) demo_world with
  | Done (Ok ev) => ev
  | _ => {| evn_report := make_report demo_write "" "" read_only_write_denied []; evn_paths := [] |}
  end.

Lemma evaluate_in_world_witness :
  is_allow (rep_decision (evn_report demo_evaluation)) = true /\
  evaluated (An := in_world demo_world) demo_write demo_evaluation.
Proof. split; [vm_compute; reflexivity|]. apply evaluate_in_world. vm_compute. reflexivity. Defined.

(** With a hash function that yields 64 hexadecimal digits, neither
    [check] nor [issue_approval] can panic: the digest they slice to name a
    transaction has been validated on every path that reaches the slice. *)
Theorem check_no_panic `{Blake3, LeaseSerde, AuditSerde, ApprovalSerde, EngineSerde} `{!Blake3Hex} engine request confirmation ttl :
  no_panic (check engine request) /\ no_panic (issue_approval engine request confirmation ttl).
Proof. split; [apply calm_check|apply calm_issue_approval]. Qed.

Lemma check_no_panic_witness :
  no_panic (check demo_engine (demo_request ApprovedApply (demo_commit "00") None)) /\
  no_panic (issue_approval demo_engine (demo_request ApprovedApply (demo_commit "00") None)
              demo_confirmation 600).
Proof. apply check_no_panic. Defined.

Lemma valid_hash_slice value : valid_hash value -> slice_to value 16 <> None.
Proof.
  intros Hv Hs. pose proof (short_id_hex "commit" value Hv) as Hn. unfold short_id in Hn. by rewrite Hs in Hn.
Qed.

(** A call that only observes leaves the world to what follows. *)
Lemma run_observed {A B E} (m : IO (result A E)) (f : A -> IO (result B E)) w a :
  observer m -> eval m w = Done (Ok a) -> run (try_bind m f) w = run (f a) w.
Proof. intros [Hm _] He. unfold try_bind. by rewrite run_bind, (read_only_run_eq _ _ Hm), He. Qed.

(** C38: A commit whose tree hash cannot be cut at its sixteenth byte, such as
    one of fewer bytes, is denied by every evaluation, but
    [PolicyEngine::approval_binding] ignores the decision of its own
    evaluation: for any engine and whatever the system answers it makes no
    binding of such a request; and it panics in every world where the engine's
    state is apart from the workspace, the evaluation returns, whatever it
    decides, and the working-tree digest and the bound files are well
    formed. *)
Theorem approval_binding_panics `{Blake3, LeaseSerde, AuditSerde, ApprovalSerde, EngineSerde} engine request action
    (Haction : rq_action request = GitCommit action) (Hshort : slice_to (gc_tree_hash action) 16 = None) :
  (forall An : Answers,
    must (evaluate request) (ok_post (fun ev => is_deny (rep_decision (evn_report ev)) = true)) /\
    must (engine_approval_binding engine request) (fun r => exists e, r = Err e)) /\
  (forall w ev root digest files_hash,
    eval (ensure_state_outside_workspace engine request) w = Done (Ok tt) ->
    eval (evaluate request) w = Done (Ok ev) ->
    eval (inspect_workspace request) w = Done (Ok root) ->
    working_tree_digest (rq_workspace request) = Some digest -> valid_hash digest ->
    hash_file_bindings (bound_files root (evn_paths ev)) = Ok files_hash ->
    run (engine_approval_binding engine request) w = (w, Panicked "byte index 16 is out of bounds or not a char boundary")).
Proof.
  split; [intros An; split|].
  - eapply must_mono; [apply evaluate_must|]. intros [ev|] Hev; [|done]. simpl in *.
    destruct Hev as (_ & ws & hash & _ & _ & _ & Hg). unfold grounded in Hg.
    destruct (rep_decision _); unfold allow_grounds, approval_grounds in Hg; rewrite ?Haction in Hg; try done.
    destruct Hg as (_ & Hv & _). by destruct (valid_hash_slice _ Hv).
  - apply must_runs. intros [b|e] t Hr; [exfalso|by exists e]. unfold engine_approval_binding, approval_binding in Hr.
    unbind Hr as u1 t1 Hr1. unbind Hr as ev t2 Hr2. unbind Hr as hash t3 Hr3. unbind Hr as root t4 Hr4. unbind Hr as digest t5 Hr5.
    unbind Hr as u6 t6 Hr6. cbv zeta in Hr. unbind Hr as fields t7 Hr7. unfold binding_fields in Hr7. rewrite Haction in Hr7.
    unbind Hr7 as files_hash t8 Hr8. unbind Hr7 as short t9 Hr9. unfold short_id in Hr9. by rewrite Hshort in Hr9.
  - intros w ev root digest files_hash Hstate Hev Hroot Hdigest Hvalid Hfiles.
    unfold engine_approval_binding, approval_binding.
    rewrite (run_observed _ _ w tt) by (done || apply ensure_state_observer).
    rewrite (run_observed _ _ w ev) by (done || apply evaluate_observes).
    pose proof (must_eval _ _ w _ (evaluate_must request) (proj1 (evaluate_observes request)) Hev) as (_ & ws & hash & _ & Hhash & _).
    rewrite Hhash. cbn [lift try_bind bind]. rewrite (run_observed _ _ w root) by (done || apply inspect_workspace_observer).
    rewrite Hdigest. cbn [lift ok_or try_bind bind]. rewrite (proj2 (validate_hash_value_ok _ _ tt) Hvalid).
    cbn [lift policy_of_safe map_err try_bind bind]. cbv zeta. unfold binding_fields. rewrite Haction, Hfiles.
    cbn [lift try_bind bind]. unfold short_id. by rewrite Hshort.
Qed.

Lemma approval_binding_panics_witness :
  let request := demo_request ApprovedApply (demo_commit "00112233") None in
  run (engine_approval_binding demo_engine request) opened_world =
    (opened_world, Panicked "byte index 16 is out of bounds or not a char boundary").
Proof.
  cbv zeta. destruct (eval (evaluate (demo_request ApprovedApply (demo_commit "00112233") None)) opened_world) as [[ev|]|] eqn:E;
    [|vm_compute in E; discriminate..].
  destruct (eval (inspect_workspace (demo_request ApprovedApply (demo_commit "00112233") None)) opened_world) as [[root|]|] eqn:Er;
    [|vm_compute in Er; discriminate..].
  destruct (hash_file_bindings (bound_files root (evn_paths ev))) as [files|] eqn:Ef.
  - eapply (proj2 (approval_binding_panics demo_engine (demo_request ApprovedApply (demo_commit "00112233") None) _ eq_refl eq_refl)
      opened_world ev root); [vm_compute; reflexivity|exact E|exact Er|reflexivity| |exact Ef].
    split; vm_compute; reflexivity.
  - exfalso. vm_compute in E, Er. injection E as <-. injection Er as <-. vm_compute in Ef. discriminate Ef.
Defined.
(** A grant is issued only for a request without one, whose evaluation
    requires an approval, with the binding [check] will compare, a bounded
    lifetime, and an atomically published record. *)
Theorem issue_approval_guarded `{Blake3, LeaseSerde, AuditSerde, ApprovalSerde, EngineSerde} {An : Answers} engine request confirmation ttl :
  trace_must (issue_approval engine request confirmation ttl) (ok_trace (fun grant t =>
    exists ev binding now before history,
      t = (before ++ history)%list /\ evaluated request ev /\
      is_require_approval (rep_decision (evn_report ev)) = true /\
      rq_approval_id request = None /\
      binding_for request (evn_paths ev) binding /\
      1 <= ttl <= MAX_APPROVAL_TTL_SECONDS /\
      issued (approvals engine) binding confirmation ttl now grant history)).
Proof. apply issue_approval_trace. Qed.

(** A revalidation succeeds only if the security context has the same
    hash, a fresh evaluation is grounded, reaches the same rule and the same
    path reports, and every path, inspected once more, still has its
    fingerprint: the content read last hashes to the recorded value. *)
Theorem revalidate_sound `{Blake3, LeaseSerde, AuditSerde, ApprovalSerde, EngineSerde} {An : Answers} pf observed :
  must (revalidate_observed pf observed) (ok_post (fun _ =>
    security_context_hash observed = Ok (pf_security_context_hash pf) /\
    (exists fresh, evaluated observed fresh /\
       decision_rule_id (rep_decision (evn_report fresh)) = pf_base_rule_id pf /\
       reports_eqb (evn_paths fresh) (pf_paths pf) = true) /\
    Forall revalidated (pf_paths pf))).
Proof. apply revalidate_observed_must. Qed.
