(* ===== verification/WorktreeFacts.v ===== *)
(** * Disposable worktrees: their theorems

    What the cleanup of a worktree may touch, whatever its lease says; and
    what a completed run has observed before, during and after its
    operation. *)

From stdpp Require Import base list strings.
From Stdlib Require Import NArith Ascii String Lia.
From S2P Require Import Prelude Bytes Text UnixPath IO World Paths AuditLog Trace Anyhow GitState ProcessRunner DisposableWorktree.

Local Open Scope string_scope.
Local Open Scope N_scope.

(** ** The components of a joined path *)

Section Join.

(** The components of segments, after a root or not. *)
Definition components_of (absolute : bool) (l : list string) : list component :=
  let dotted := negb absolute && match l with "." :: _ => true | _ => false end in
  ((if absolute then [RootDir] else if dotted then [CurDir] else [])
  ++ map seg_component (List.filter (fun s => negb (skipped s)) (if absolute || dotted then tail l else l)))%list.

Lemma components_segments p : components p = components_of (is_absolute p) (segments p).
Proof.
  unfold components, components_of, leading_cur_dir, body_segments. destruct (is_absolute p); [done|]. simpl.
  destruct (segments p) as [|[|[[] [] [] [] [] [] [] []] [|? ?]] l]; done.
Qed.

Lemma components_of_app absolute x l k :
  components_of absolute (x :: l ++ k)
  = (components_of absolute (x :: l) ++ map seg_component (List.filter (fun s => negb (skipped s)) k))%list.
Proof.
  unfold components_of. cbn [tail]. destruct absolute; simpl.
  - by rewrite List.filter_app, map_app.
  - destruct x as [|[[] [] [] [] [] [] [] []] [|? ?]]; simpl;
      repeat (case_match; simpl); by rewrite List.filter_app, map_app.
Qed.

(** A name that is one component of a path. *)
Definition plain_name (n : string) : bool :=
  negb (any_byte (Ascii.eqb slash) n) && negb (skipped n) && negb (n =? "..")%string.

Lemma ends_with_slash p : ends_with "/" p = true -> exists q, p = q ++ "/".
Proof.
  intros [_ He]%andb_prop. apply String.eqb_eq in He.
  exists (take_bytes (String.length p - String.length "/") p). rewrite <- He at 2. by rewrite app_take_drop_bytes.
Qed.

Lemma is_absolute_app p q : p <> "" -> is_absolute (p ++ q) = is_absolute p.
Proof. by destruct p. Qed.

Lemma plain_name_components n : plain_name n = true -> split_on slash n = [n] /\ skipped n = false /\ seg_component n = Normal n.
Proof.
  unfold plain_name. intros Hn. split_bools. split_and!; [by apply split_on_name|done|].
  unfold seg_component. by destruct (n =? "..")%string.
Qed.

Lemma plain_name_relative n : plain_name n = true -> is_absolute n = false.
Proof. unfold plain_name. destruct n as [|c n]; [done|]. simpl. intros Hn. split_bools. by rewrite Ascii.eqb_sym. Qed.

Lemma components_plain n : plain_name n = true -> components n = [Normal n].
Proof.
  intros Hn. pose proof (plain_name_components n Hn) as (Hs & Hk & Hc).
  rewrite components_segments, (plain_name_relative n Hn). unfold segments. rewrite Hs. unfold components_of.
  destruct (decide (n = ".")) as [->|Hd]; [done|].
  assert (match n with "." => true | _ => false end = false) as E
    by (destruct n as [|[[] [] [] [] [] [] [] []] [|? ?]]; done).
  cbn [negb andb]. replace (match [n] with "." :: _ => true | _ => false end) with false. cbn [orb List.filter].
  rewrite Hk. cbn [negb map]. by rewrite Hc.
Qed.

(** Joining a name adds one component. *)
Lemma components_join_name p n : plain_name n = true -> components (join p n) = (components p ++ [Normal n])%list.
Proof.
  intros Hn. pose proof (plain_name_components n Hn) as (Hs & Hk & Hc).
  unfold join. rewrite (plain_name_relative n Hn). destruct p as [|c p]; cbn [is_empty].
  { by rewrite components_plain. }
  assert (Happ : forall q, q <> "" -> components (q ++ String slash n) = (components (q ++ "/") ++ [Normal n])%list
                           /\ components (q ++ "/") = components q).
  { intros q Hq. rewrite !components_segments. rewrite !is_absolute_app by done. unfold segments.
    change "/" with (String slash ""). rewrite !split_on_app, Hs. destruct (split_on_cons slash q) as (x & l & ->).
    rewrite <- !app_comm_cons, !components_of_app. simpl. rewrite Hk. simpl. rewrite Hc.
    by rewrite app_nil_r. }
  destruct (ends_with "/" (String c p)) eqn:He.
  - apply ends_with_slash in He as [q Hq]. rewrite Hq, append_assoc. destruct q as [|d q].
    + assert (E : split_on slash ("" ++ "/" ++ n) = [""; n]).
      { pose proof (split_on_app slash "" n) as E. rewrite Hs in E. exact E. }
      change (components ("" ++ "/" ++ n) = ([RootDir] ++ [Normal n])%list).
      rewrite components_segments. unfold segments. rewrite E. unfold components_of. simpl. rewrite Hk. simpl. by rewrite Hc.
    + by apply Happ.
  - destruct (Happ (String c p)) as [H1 H2]; [done|]. rewrite H2 in H1. exact H1.
Qed.
End Join.

Lemma plain_suffix n suffix :
  all_bytes is_run_byte n = true -> 1 <= strlen n ->
  any_byte (Ascii.eqb slash) suffix = false -> plain_name (n ++ suffix) = true.
Proof.
  intros Hn Hl Hs. unfold plain_name. destruct n as [|c n]; [done|]. rewrite append_cons.
  cbn [all_bytes] in Hn. apply andb_prop in Hn as [Hc Hn].
  assert (Hd : c <> "."%char) by (intros ->; done).
  assert (Ha : forall m, all_bytes is_run_byte m = true -> any_byte (Ascii.eqb slash) m = false).
  { induction m as [|d m IH]; [done|]. cbn [all_bytes any_byte]. intros [Hd' Hm]%andb_prop. rewrite IH by done.
    destruct (Ascii.eqb_spec slash d) as [<-|]; [by vm_compute in Hd'|done]. }
  assert (Hany : any_byte (Ascii.eqb slash) (String c (n ++ suffix)) = false).
  { cbn [any_byte]. rewrite any_byte_app, Hs, Ha by done.
    destruct (Ascii.eqb_spec slash c) as [<-|]; [by vm_compute in Hc|done]. }
  rewrite Hany. cbn [negb andb].
  unfold skipped. cbn [String.eqb]. apply Ascii.eqb_neq in Hd. change (Ascii _ _ _ _ _ _ _ _) with "."%char. by rewrite Hd.
Qed.

(** ** What a cleanup may touch *)

(** A file of a controlled directory that belongs to a run. *)
Definition run_entry (directory suffix path : string) : Prop :=
  exists run_id, validate_run_id run_id = Ok tt /\ components path = (components directory ++ [Normal (run_id ++ suffix)])%list.

(** The calls a cleanup is allowed: it may remove the empty directory of a
    run, its lease, and start Git to list the worktrees or to remove that of
    a run; nothing else it does changes a file. *)
Definition cleans (storage : WorktreeStorage) (R : Set) (c : syscall R) : Prop :=
  match c with
  | RemoveDir path => run_entry (st_runs storage) "" path
  | RemoveFile path => run_entry (st_leases storage) ".json" path
  | Spawn program args _ env =>
      program = "git" /\ env = [("GIT_TERMINAL_PROMPT", "0")]
      /\ (args = ["worktree"; "list"; "--porcelain"; "-z"]
          \/ exists path, args = ["worktree"; "remove"; "--force"; path] /\ run_entry (st_runs storage) "" path)
  | _ => mutates c = false
  end.

Lemma valid_run_id run_id : validate_run_id run_id = Ok tt -> all_bytes is_run_byte run_id = true /\ 1 <= strlen run_id.
Proof.
  unfold validate_run_id. destruct (_ && _) eqn:E; [|done]. intros _. apply andb_prop in E as [E Hb].
  apply andb_prop in E as [E _]. split; [done|]. by apply N.leb_le.
Qed.

Lemma run_entry_join directory suffix run_id :
  validate_run_id run_id = Ok tt -> any_byte (Ascii.eqb slash) suffix = false ->
  run_entry directory suffix (join directory (run_id ++ suffix)).
Proof.
  intros Hv Hs. exists run_id. split; [done|]. apply valid_run_id in Hv as [Hb Hl].
  by apply components_join_name, plain_suffix.
Qed.

Section Clean.
Context `{WorktreeLeaseSerde, SecondsDisplay} (storage : WorktreeStorage).

Abbreviation clean m := (calls (cleans storage) m).

Lemma poll_child_clean fuel request cancellation child started_at :
  clean (poll_child fuel request cancellation child started_at).
Proof.
  induction fuel as [|fuel IH]; [done|]. cbn [poll_child]. apply calls_try; [apply calls_map_err; by split|].
  intros [status|]; [done|]. apply calls_bind; [unfold cancellation_requested; by destruct cancellation|].
  intros []; [done|]. apply calls_bind; [done|]. intros now. destruct (_ <=? _); [done|]. by split.
Qed.

(** A process makes no other call that changes a file than its launch. *)
Lemma run_process_clean request cancellation :
  cleans storage _ (Spawn (pq_program request) (pq_args request) (pq_working_directory request) (pq_environment request)) ->
  clean (run_process_with_cancellation request cancellation).
Proof.
  intros Hok. unfold run_process_with_cancellation. apply calls_try; [done|]. intros _.
  apply calls_bind; [by split|]. intros started_at. apply calls_bind; [unfold cancellation_requested; by destruct cancellation|].
  intros []; [by split|]. unfold build_command.
  apply calls_try; [apply calls_map_err; by split|]. intros child. unfold supervise, attach. cbn [ProcessTree_assign try_bind bind].
  apply calls_try; [apply poll_child_clean|]. intros [status requested]. apply calls_try.
  - destruct requested; [|done]. apply calls_try; [|by intros [? ?]]. unfold stop_child.
    apply calls_bind; [by split|]. intros terminated. apply calls_bind; [by destruct terminated; repeat split|]. intros error.
    apply calls_try; [|done]. by repeat split.
  - intros [final t]. by repeat split.
Qed.

Lemma run_git_clean directory args timeout limit cancellation :
  (args = ["worktree"; "list"; "--porcelain"; "-z"]
   \/ exists path, args = ["worktree"; "remove"; "--force"; path] /\ run_entry (st_runs storage) "" path) ->
  clean (run_git directory args timeout limit cancellation).
Proof. intros Hargs. by apply run_process_clean. Qed.

Lemma any_path_matches_clean paths target : clean (any_path_matches paths target).
Proof.
  induction paths as [|path paths IH]; [done|]. cbn [any_path_matches]. apply calls_bind; [by repeat split|]. by intros [].
Qed.

Lemma is_registered_clean root target timeout limit : clean (worktree_is_registered root target timeout limit).
Proof.
  unfold worktree_is_registered. apply calls_try; [apply run_git_clean; by left|]. intros process.
  destruct (negb _); [done|]. destruct (os_output_truncated _); [done|].
  apply calls_bind; [apply any_path_matches_clean|]. done.
Qed.

Lemma path_exists_clean path : clean (path_exists path).
Proof. by repeat split. Qed.

Lemma resolved_inside_clean path : clean (resolved_inside storage path).
Proof.
  unfold resolved_inside. apply calls_bind; [apply path_exists_clean|]. intros present. destruct (negb present); [done|].
  apply calls_try; [apply calls_map_err; by split|]. intros resolved. destruct (_ || _); [done|].
  apply calls_try; [|done]. apply calls_try; [apply calls_map_err; by split|]. done.
Qed.

(** A lease that passes its validation names the directory of its run. *)
Lemma validated_lease (lease : WorktreeLease) {A} (m : IO (res A)) :
  (validate_run_id (wl_run_id lease) = Ok tt -> run_entry (st_runs storage) "" (wl_worktree_path lease) -> clean m) ->
  clean (validate_lease storage lease ;;? m).
Proof.
  intros Hm. unfold validate_lease. destruct (validate_run_id (wl_run_id lease)) as [[]|] eqn:Hid; [|done].
  cbn [lift try_bind bind].
  destruct (validate_owner_id (wl_owner_workspace_id lease) _) as [[]|]; [|done].
  destruct (validate_owner_id (wl_owner_request_id lease) _) as [[]|]; [|done]. cbn [try_bind bind].
  destruct (negb _); [done|]. destruct (paths_match_without_canonicalization _ _) eqn:Hp; cbn [negb]; [|done].
  apply calls_try; [apply resolved_inside_clean|]. intros _. apply Hm; [done|].
  apply bool_decide_eq_true in Hp. destruct (run_entry_join (st_runs storage) "" (wl_run_id lease) Hid) as (id & Hv & Hc); [done|].
  exists id. split; [done|]. rewrite <- Hp, <- Hc. unfold worktree_path. by rewrite append_empty.
Qed.

Lemma remove_worktree_clean lease registered timeout limit :
  run_entry (st_runs storage) "" (wl_worktree_path lease) -> clean (remove_worktree lease registered timeout limit).
Proof.
  intros He. unfold remove_worktree. destruct registered.
  - apply calls_bind; [|done]. apply run_git_clean. right. by exists (wl_worktree_path lease).
  - apply calls_bind; [apply path_exists_clean|]. intros present. destruct (negb present); [done|].
    apply calls_try; [apply calls_try; [apply calls_map_err; by split|done]|]. intros empty. destruct (negb empty); [done|].
    by split.
Qed.

Lemma release_lease_clean lease timeout limit :
  validate_run_id (wl_run_id lease) = Ok tt -> clean (release_lease storage lease timeout limit).
Proof.
  intros Hid. unfold release_lease. apply calls_bind; [apply path_exists_clean|]. intros []; [done|].
  apply calls_bind; [apply is_registered_clean|]. intros [[]|]; [done| |done]. split; [|done].
  by apply run_entry_join.
Qed.

Lemma cleanup_lease_clean lease timeout limit : clean (cleanup_lease storage lease timeout limit).
Proof.
  unfold cleanup_lease. apply validated_lease. intros Hid He.
  apply calls_bind; [apply is_registered_clean|]. intros [registered|]; [|done].
  apply calls_try; [by apply remove_worktree_clean|]. intros [command []]; [done|].
  apply calls_bind; [by apply release_lease_clean|]. done.
Qed.

Lemma read_lease_clean run_id : clean (read_lease storage run_id).
Proof.
  unfold read_lease. apply calls_try; [done|]. intros _. cbv zeta.
  apply calls_bind.
  { unfold path_is_reparse_point. apply calls_try; [apply calls_map_err; by split|done]. }
  intros reparse.
  match goal with |- clean (if ?b then _ else _) => destruct b end; [done|].
  apply calls_try; [apply calls_map_err; by split|]. intros file. apply calls_bind; [by split|]. intros content.
  apply calls_try; [done|]. intros lease. by apply validated_lease.
Qed.
End Clean.

(** C16: Whatever the lease of a run says and however the system answers, the
    cleanup of a run by its id changes nothing but: the directory of a run,
    immediately inside the runs directory and removed only when empty or by
    Git; and the lease file of a run, immediately inside the leases
    directory.  Every run id in these names is a valid one, so that no name
    leaves its directory; the only processes started are Git's, to list the
    worktrees and to remove that one. *)
Theorem cleanup_confined `{WorktreeLeaseSerde, SecondsDisplay} storage run_id :
  calls (cleans storage) (cleanup_disposable_worktree_in storage run_id).
Proof.
  unfold cleanup_disposable_worktree_in. apply calls_try; [done|]. intros _. split; [done|]. intros [m|e].
  - apply calls_try; [apply read_lease_clean|]. intros lease. apply cleanup_lease_clean.
  - cbn [bind]. case_bool_decide; [|done]. by apply calls_bind; [apply path_exists_clean|].
Qed.

(** ** A successful cleanup *)

Section Released.
Context {An : Answers} `{WorktreeLeaseSerde, SecondsDisplay} (storage : WorktreeStorage).

(** The path was seen absent, Git did not list the worktree, and the lease
    is gone. *)
Definition released (lease : WorktreeLease) (timeout limit : N) (t : list event) : Prop :=
  ran_in (path_exists (wl_worktree_path lease)) false t
  /\ ran_in (worktree_is_registered (wl_source_git_root lease) (wl_worktree_path lease) timeout
       (N.max limit GIT_LIST_OUTPUT_LIMIT_BYTES)) (Ok false) t
  /\ exists r, ran_in (sys (RemoveFile (lease_path storage (wl_run_id lease)))) r t
     /\ (r = Ok tt \/ exists e, r = Err e /\ io_error_kind e = NotFound).

Lemma released_before lease timeout limit t u : released lease timeout limit t -> released lease timeout limit (t ++ u).
Proof. intros (Ha & Hb & r & Hr & Hc). split; [by apply ran_in_l|]. split; [by apply ran_in_l|]. exists r. split; [by apply ran_in_l|done]. Qed.

Lemma released_after lease timeout limit t u : released lease timeout limit u -> released lease timeout limit (t ++ u).
Proof. intros (Ha & Hb & r & Hr & Hc). split; [by apply ran_in_r|]. split; [by apply ran_in_r|]. exists r. split; [by apply ran_in_r|done]. Qed.

Lemma release_lease_runs lease timeout limit t :
  runs (release_lease storage lease timeout limit) None t -> released lease timeout limit t.
Proof.
  intros Hr. unfold release_lease in Hr. unbind Hr as present t1 Hp. destruct present; [by destruct Hr|].
  unbind Hr as still t2 Hs. destruct still as [[]|e]; [by destruct Hr| |by destruct Hr].
  unbind Hr as removed t3 Hrm. destruct Hr as [Hr ->]. split; [ran_by Hp|]. split; [ran_by Hs|].
  exists removed. split; [ran_by Hrm|]. destruct removed as [[]|e]; [by left|]. right. exists e. split; [done|].
  by case_bool_decide.
Qed.

Lemma cleanup_lease_runs lease timeout limit report t :
  runs (cleanup_lease storage lease timeout limit) (Ok report) t -> wc_success report = true -> released lease timeout limit t.
Proof.
  intros Hr Hok. unfold cleanup_lease in Hr. unbind Hr as u t1 Hv. unbind Hr as registered t2 Hg.
  destruct registered as [registered|e]; [|destruct Hr as [[= <-] _]; done].
  unbind Hr as removed t3 Hrm. destruct removed as [command [error|]]; [destruct Hr as [[= <-] _]; done|].
  unbind Hr as error t4 Hrel. destruct Hr as [[= <-] ->]. destruct error; [done|].
  apply release_lease_runs in Hrel as (Hp & Hs & r & Hrf & Hcase). rewrite app_nil_r.
  split; [ran_by Hp|]. split; [ran_by Hs|]. exists r. split; [ran_by Hrf|done].
Qed.
End Released.

(** ** The storage, the lease and the worktree of a run *)

Section Storage.
Context {An : Answers} `{WorktreeLeaseSerde}.

(** The storage is a direct child of the temporary directory, and its two
    directories are direct children of it, as they were resolved. *)
Definition controlled (storage : WorktreeStorage) : Prop :=
  exists path temp base, answers (Canonicalize path) (Ok temp)
  /\ answers (Canonicalize (join temp WORKTREE_STORAGE_DIRECTORY)) (Ok base)
  /\ opt_path_eqb (parent base) (Some temp) = true
  /\ answers (Canonicalize (join base WORKTREE_RUNS_DIRECTORY)) (Ok (st_runs storage))
  /\ answers (Canonicalize (join base WORKTREE_LEASES_DIRECTORY)) (Ok (st_leases storage))
  /\ opt_path_eqb (parent (st_runs storage)) (Some base) = true
  /\ opt_path_eqb (parent (st_leases storage)) (Some base) = true.

Lemma must_canonical {A : Set} m (c : syscall (io A)) : must (io_context m c) (ok_post (fun a => answers c (Ok a))).
Proof. by intros [a|e] Ha. Qed.

Lemma default_storage_must : must default_storage (ok_post controlled).
Proof.
  unfold default_storage, prepare.
  apply must_try_ok with (P := fun temp => exists path, answers (Canonicalize path) (Ok temp)).
  { unfold resolve_temp_dir. apply must_bind with (P := fun _ => True); [by apply must_true|]. intros path _.
    eapply must_mono; [apply must_canonical|]. intros [temp|e] Ht; [by exists path|done]. }
  intros temp [path Htemp].
  apply must_try_ok with (P := fun _ => True); [by apply must_true; intros []|]. intros _ _.
  eapply must_try_ok; [apply must_canonical|]. intros base Hbase.
  apply must_ret_try. intros [] Hparent. destruct (opt_path_eqb (parent base) (Some temp)) eqn:Ep; [|done].
  do 2 (apply must_try_ok with (P := fun _ => True); [by apply must_true; intros []|]; intros _ _).
  eapply must_try_ok; [by intros [a|e] Ha; [exact Ha|exact I]|]. intros runs Hruns.
  eapply must_try_ok; [by intros [a|e] Ha; [exact Ha|exact I]|]. intros leases Hleases.
  destruct (negb _ || _) eqn:E; [exact I|]. apply orb_false_elim in E as [Er El]. apply negb_false_iff in Er, El.
  by exists path, temp, base.
Qed.

(** The lease was written to a file that did not exist, and the directory of
    the run was created, which did not exist. *)
Definition reserved (storage : WorktreeStorage) (lease : WorktreeLease) : Prop :=
  validate_run_id (wl_run_id lease) = Ok tt
  /\ (exists file json, lease_to_json lease = Ok json /\ answers (CreateNew (lease_path storage (wl_run_id lease))) (Ok file)
      /\ answers (WriteAll file (json ++ String line_feed "")) (Ok tt))
  /\ answers (CreateDir (wl_worktree_path lease)) (Ok tt).

Lemma write_lease_must storage lease :
  must (write_lease storage lease) (ok_post (fun _ => validate_run_id (wl_run_id lease) = Ok tt
    /\ exists file json, lease_to_json lease = Ok json /\ answers (CreateNew (lease_path storage (wl_run_id lease))) (Ok file)
       /\ answers (WriteAll file (json ++ String line_feed "")) (Ok tt))).
Proof.
  unfold write_lease. apply must_ret_try. intros [] Hid. cbv zeta.
  eapply must_try_ok; [apply must_canonical|]. intros file Hfile.
  apply must_bind with (P := ok_post (fun _ => exists json, lease_to_json lease = Ok json
    /\ answers (WriteAll file (json ++ String line_feed "")) (Ok tt))).
  - apply must_ret_try. intros json Hj. apply map_err_ok in Hj. intros [[]|e] Hw; [|exact I]. cbn [io_map_err bind map_err try_bind].
    apply must_true. intros [[]|]; [|exact I]. by exists json.
  - intros [[]|e] Hw; [|by intros r Hr]. destruct Hw as (json & Hj & Hw). split; [done|]. by exists file, json.
Qed.

Lemma reserve_must storage lease : must (reserve storage lease) (ok_post (fun _ => reserved storage lease)).
Proof.
  unfold reserve. eapply must_try_ok; [apply write_lease_must|]. intros [] [Hid Hw] [[]|e] Hd; cbn [bind].
  - by split_and!.
  - by intros r Hr.
Qed.
End Storage.

(** ** A completed run *)

Section Run.
Context {An : Answers} `{Blake3, WorktreeLeaseSerde, SecondsDisplay, StringDebug}.
Context (options : WorktreeVerificationOptions) (cancellation : string).
Context {S T : Type}.
Context (before_create : DisposableWorktreeIntent -> stage S unit)
        (operation : DisposableWorktreeContext -> stage S T)
        (before_cleanup : DisposableWorktreeContext -> stage S unit).

Abbreviation git_timeout := (wo_git_timeout options).
Abbreviation output_limit := (wo_output_limit_bytes options).

(** The source was observed: its clean state, its HEAD and its refs. *)
Definition source_observed (source : SourceBefore) (t : list event) : Prop :=
  snapshot_changes (sb_state source) = []
  /\ ran_in (capture_git_state (sb_project source)) (Ok (sb_state source)) t
  /\ ran_in (resolve_head (sb_root source) git_timeout output_limit (Some cancellation)) (Ok (sb_base_head source)) t
  /\ ran_in (capture_refs_fingerprint (sb_root source) git_timeout output_limit (Some cancellation)) (Ok (sb_refs source)) t.

(** Git was run, and successfully, to add a detached worktree. *)
Definition worktree_added (lease : WorktreeLease) (t : list event) : Prop :=
  exists process, ran_in (run_git (wl_source_git_root lease) ["worktree"; "add"; "--detach"; wl_worktree_path lease; wl_source_commit lease]
                            git_timeout output_limit (Some cancellation)) (Ok process) t
  /\ success process = true.

(** The worktree was seen clean, at the base commit and detached, with Git
    directories of its own. *)
Definition worktree_checked (path base_head git_dir common_dir : string) (t : list event) : Prop :=
  (exists state, ran_in (capture_git_state path) (Ok state) t /\ snapshot_changes state = [])
  /\ ran_in (resolve_head path git_timeout output_limit (Some cancellation)) (Ok base_head) t
  /\ ran_in (head_is_detached path git_timeout output_limit (Some cancellation)) (Ok true) t
  /\ ran_in (resolve_worktree_git_directories path git_timeout output_limit cancellation) (Ok (git_dir, common_dir)) t.

(** What preceded the operation, in this order: the source was observed, the
    controlled storage resolved and a run identifier made; the creation was
    permitted; the lease and the directory of the run were created, neither
    of which existed; Git added the worktree there; and the new worktree was
    seen clean, detached and at the source's HEAD. *)
Definition prepared (source : SourceBefore) (storage : WorktreeStorage) (lease : WorktreeLease)
    (context : DisposableWorktreeContext) (before : list event) : Prop :=
  exists owner git_dir common_dir t1 t2 t3 t4 t5, before = (t1 ++ t2 ++ t3 ++ t4 ++ t5)%list
  /\ context = context_of source owner storage lease git_dir common_dir
  /\ wl_source_git_root lease = sb_root source
  /\ wl_source_commit lease = sb_base_head source
  /\ wl_worktree_path lease = worktree_path storage (wl_run_id lease)
  /\ source_observed source t1
  /\ controlled (An := in_trace t1) storage
  /\ ran_in new_run_id (wl_run_id lease) t1
  /\ (exists s s', ran_in (before_create {| in_run_id := wl_run_id lease; in_owner := owner; in_source_root := sb_root source;
                             in_destination := wl_worktree_path lease; in_base_head := sb_base_head source |} s) (s', Ok tt) t2)
  /\ reserved (An := in_trace t3) storage lease
  /\ worktree_added lease t4
  /\ worktree_checked (wl_worktree_path lease) (sb_base_head source) git_dir common_dir t5.

(** The source was observed again, as it was. *)
Definition source_unchanged (source : SourceBefore) (after : list event) : Prop :=
  exists state guard,
    ran_in (capture_git_state (sb_root source)) (Ok state) after
    /\ from_snapshots (sb_state source) state true = Ok guard /\ strict_violation guard = false
    /\ ran_in (resolve_head (sb_root source) git_timeout output_limit None) (Ok (sb_base_head source)) after
    /\ ran_in (capture_refs_fingerprint (sb_root source) git_timeout output_limit None) (Ok (sb_refs source)) after.

(** What followed the operation, from the captured state [s] to [s']: the
    cleanup, when permitted, and the second observation. *)
Definition concluded (source : SourceBefore) (storage : WorktreeStorage) (lease : WorktreeLease)
    (run : DisposableWorktreeRun T) (s s' : S) (after : list event) : Prop :=
  (exists permitted, ran_in (before_cleanup (rn_context run) s) (s', permitted) after
     /\ (wc_success (rn_cleanup run) = true -> permitted = Ok tt /\ released storage lease git_timeout output_limit after))
  /\ (rn_source_unchanged run = true -> source_unchanged source after).

Lemma source_observed_after source t u : source_observed source u -> source_observed source (t ++ u).
Proof. intros (? & ? & ? & ?). split_and!; [done|by apply ran_in_r..]. Qed.

Lemma controlled_mono storage t u : incl t u -> controlled (An := in_trace t) storage -> controlled (An := in_trace u) storage.
Proof.
  intros Hu (path & temp & base & ? & ? & ? & ? & ? & ? & ?). exists path, temp, base. split_and!; try done; by apply Hu.
Qed.

Lemma prepared_after source storage lease context t u :
  prepared source storage lease context u -> prepared source storage lease context (t ++ u).
Proof.
  intros (o & g & c & t1 & t2 & t3 & t4 & t5 & -> & ? & ? & ? & ? & Hs & Hc & Hid & Hrest).
  exists o, g, c, (t ++ t1)%list, t2, t3, t4, t5. rewrite <- !app_assoc. do 5 (split; [done|]).
  split; [by apply source_observed_after|]. split; [|split; [by apply ran_in_r|done]].
  eapply controlled_mono; [|exact Hc]. apply incl_appr, incl_refl.
Qed.

Lemma source_unchanged_before source t u : source_unchanged source t -> source_unchanged source (t ++ u).
Proof.
  intros (a & g & Ha & ? & ? & Hb & Hc). exists a, g. split; [by apply ran_in_l|]. do 2 (split; [done|]).
  split; by apply ran_in_l.
Qed.

Lemma observe_source_runs project source t :
  runs (observe_source options cancellation project) (Ok source) t -> source_observed source t.
Proof.
  intros Hr. unfold observe_source in Hr. unbind Hr as path t1 Hc. unbind Hr as state t2 Hs. apply runs_map_err in Hs.
  unbind Hr as u t3 Hch. unbind Hr as rel t4 Hrel. unbind Hr as head t5 Hh. unbind Hr as refs t6 Hrefs.
  destruct Hr as [[= <-] ->]. destruct Hch as [Hch _]. unfold source_observed, sb_root. simpl.
  split; [by destruct (snapshot_changes state)|]. split; [ran_by Hs|]. split; [ran_by Hh|ran_by Hrefs].
Qed.

Lemma check_source_runs source after unchanged errors t :
  runs (check_source options source) (after, unchanged, errors) t -> unchanged = true -> source_unchanged source t.
Proof.
  intros Hr Hu. unfold check_source in Hr. unbind Hr as state t1 Hs. unbind Hr as head t2 Hh. unbind Hr as refs t3 Hrefs.
  destruct state as [state|]; destruct head as [head|]; destruct refs as [refs|]; cbn [observed_again] in Hr;
    destruct Hr as [[= <- Hg <-] ->]; rewrite <- Hg in Hu; repeat apply andb_prop in Hu as [Hu ?];
    repeat match goal with H : bool_decide _ = true |- _ => apply bool_decide_eq_true in H; simplify_eq end; try done.
  unfold guard_passes in Hu. destruct (from_snapshots _ _ _) as [guard|] eqn:Eg; [|done]. apply negb_true_iff in Hu.
  exists state, guard. split; [ran_by Hs|]. split; [done|]. split; [done|]. split; [ran_by Hh|ran_by Hrefs].
Qed.

Lemma authorised_cleanup_runs storage lease context s s' cleanup errors t :
  runs (authorised_cleanup options before_cleanup storage lease context s) (s', Ok (cleanup, errors)) t ->
  exists permitted, ran_in (before_cleanup context s) (s', permitted) t
  /\ (wc_success cleanup = true -> permitted = Ok tt /\ released storage lease git_timeout output_limit t).
Proof.
  intros Hr. unfold authorised_cleanup in Hr. unbind Hr as permitted t1 Hp. apply runs_stage_try in Hp as (r & [= ->] & Hp).
  destruct r as [[]|e].
  - unbind Hr as report t2 Hc. destruct Hr as [[= <- <- <-] ->]. apply runs_stage_io in Hc as [-> Hc].
    exists (Ok tt). split; [ran_by Hp|]. intros Hok. split; [done|].
    apply released_after, released_before. by eapply cleanup_lease_runs.
  - destruct Hr as [[= <- <- <-] ->]. exists (Err e). split; [ran_by Hp|done].
Qed.

Lemma operate_runs source storage lease creation context s s' run t :
  runs (operate options operation before_cleanup source storage lease creation context s) (s', Ok run) t ->
  rn_context run = context /\
  exists result s1 during after, t = (during ++ after)%list
  /\ runs (operation context s) (s1, result) during
  /\ rn_operation run = ok result
  /\ rn_operation_error run = match result with Ok _ => None | Err e => Some (alternate e) end
  /\ concluded source storage lease run s1 s' after.
Proof.
  intros Hr. unfold operate in Hr. unbind Hr as result t1 Ho. apply runs_stage_try in Ho as (r & [= ->] & Ho).
  unbind Hr as cleaned t2 Hc. destruct cleaned as [cleanup errors]. unbind Hr as checked t3 Hk.
  destruct checked as [[state unchanged] source_errors]. destruct Hr as [[= -> <-] ->]. apply runs_stage_io in Hk as [-> Hk].
  apply runs_bind in Hk as (c & t5 & t6 & Hk & [[= ->] ->] & ->).
  split; [done|]. eexists r, _, t1, _. split; [reflexivity|]. split; [exact Ho|]. split; [done|]. split; [done|].
  split; simpl.
  - apply authorised_cleanup_runs in Hc as (permitted & Hb & Hok). exists permitted. split; [ran_by Hb|].
    intros [-> Hrel]%Hok. split; [done|]. by apply released_before.
  - intros Hu. eapply check_source_runs in Hk as (a & g & Ha & Hg & Hv & Hh & Hrefs); [|done].
    exists a, g. split; [ran_by Ha|]. split; [done|]. split; [done|]. split; [ran_by Hh|ran_by Hrefs].
Qed.

Lemma set_up_worktree_runs storage lease git_dir common_dir t :
  runs (set_up_worktree options cancellation storage lease) (Ok (git_dir, common_dir)) t ->
  worktree_checked (wl_worktree_path lease) (wl_source_commit lease) git_dir common_dir t.
Proof.
  intros Hr. unfold set_up_worktree in Hr. unbind Hr as setup t1 Hs. destruct setup as [d|e].
  - destruct Hr as [[= ->] ->]. rewrite app_nil_r. unfold check_worktree in Hs.
    unbind Hs as state t2 Hst. unbind Hs as u t3 Hch. destruct Hch as [Hch ->]. unbind Hs as head t4 Hh.
    destruct (String.eqb_spec head (wl_source_commit lease)) as [->|]; cbn [negb] in Hs; [|by destruct Hs].
    unbind Hs as detached t5 Hd. destruct detached; cbn [negb] in Hs; [|by destruct Hs].
    split_and!; [|ran_by Hh|ran_by Hd|ran_by Hs]. exists state. split; [ran_by Hst|]. by destruct (snapshot_changes state).
  - unbind Hr as c t2 Hc. by destruct Hr.
Qed.

Lemma create_worktree_runs storage lease creation t :
  runs (create_worktree options cancellation storage lease) (Ok creation) t -> worktree_added lease t.
Proof.
  intros Hr. unfold create_worktree in Hr. unbind Hr as added t1 Ha. destruct added as [[process command]|e].
  - unfold add_worktree in Ha. unbind Ha as pr t2 Hg. destruct Ha as [[= <- <-] ->].
    destruct (bc_success _) eqn:Hok; [|unbind Hr as c t3 Hc; by destruct Hr].
    destruct Hr as [_ ->]. exists pr. split; [ran_by Hg|exact Hok].
  - unbind Hr as c t2 Hc. by destruct Hr.
Qed.

Lemma run_in_worktree_runs project owner s s' run t :
  runs (run_in_disposable_worktree options cancellation before_create operation before_cleanup project owner s) (s', Ok run) t ->
  exists source storage lease s0 s1 result before during after,
    t = (before ++ during ++ after)%list
    /\ prepared source storage lease (rn_context run) before
    /\ runs (operation (rn_context run) s0) (s1, result) during
    /\ rn_operation run = ok result
    /\ rn_operation_error run = match result with Ok _ => None | Err e => Some (alternate e) end
    /\ concluded source storage lease run s1 s' after.
Proof.
  intros Hr. unfold run_in_disposable_worktree in Hr. unbind Hr as u1 t1 Ho1. unbind Hr as u2 t2 Ho2. unbind Hr as u3 t3 Ho3.
  unbind Hr as source t4 Hsrc. apply runs_stage_io in Hsrc as [-> Hsrc]. apply observe_source_runs in Hsrc.
  unbind Hr as storage t5 Hsto. apply runs_stage_io in Hsto as [-> Hsto].
  unbind Hr as run_id t6 Hid. apply runs_stage_io in Hid as [-> Hid]. apply runs_bind in Hid as (id & t16 & t17 & Hid & [[= ->] ->] & ->). unbind Hr as u7 t7 Hbc. destruct u7.
  unbind Hr as lease t8 Hl. apply runs_stage_io in Hl as [-> Hl].
  apply runs_bind in Hl as (l & t9 & t10 & Hl & [[= ->] ->] & ->). unbind Hr as u11 t11 Hres. apply runs_stage_io in Hres as [-> Hres]. destruct u11.
  unbind Hr as creation t12 Hcr. apply runs_stage_io in Hcr as [-> Hcr]. apply create_worktree_runs in Hcr.
  unbind Hr as dirs t13 Hdirs. apply runs_stage_io in Hdirs as [-> Hdirs]. destruct dirs as [git_dir common_dir].
  apply set_up_worktree_runs in Hdirs.
  apply operate_runs in Hr as (Hcx & result & s1 & during & after & -> & Ho & Hop & Herr & Hcon).
  unfold new_lease in Hl. unbind Hl as pid t14 Hpid. unbind Hl as now t15 Hnow. destruct Hl as [<- ->]. rewrite Hcx.
  eexists source, storage, _, _, s1, result, ((t1 ++ t2 ++ t3 ++ t4 ++ t5 ++ t16 ++ []) ++ t7 ++ (((t14 ++ t15 ++ []) ++ []) ++ t11) ++ t12 ++ t13)%list,
    during, after.
  split; [by rewrite <- !app_assoc|]. split; [|split; [exact Ho|split; [done|split; [done|exact Hcon]]]].
  eexists owner, git_dir, common_dir, _, _, _, _, _. split; [reflexivity|]. do 4 (split; [done|]).
  split; [|split; [|split; [ran_by Hid|split; [eexists _, _; ran_by Hbc|split; [|split; [exact Hcr|exact Hdirs]]]]]].
  - destruct Hsrc as (Hch & Hst & Hhd & Hrf). split; [done|]. split; [ran_by Hst|]. split; [ran_by Hhd|ran_by Hrf].
  - pose proof (runs_here _ _ _ _ default_storage_must Hsto) as Hc. eapply controlled_mono; [|exact Hc].
    do 4 apply incl_appr. apply incl_appl, incl_refl.
  - pose proof (runs_here _ _ _ _ (reserve_must _ _) Hres) as (Hv & (file & json & ? & ? & ?) & ?).
    split; [done|]. split; [exists file, json; split_and!; [done|by apply in_or_app; right..]|by apply in_or_app; right].
Qed.

(** The parts of a run, but for its closures. *)
Inductive worktree_part : forall A : Type, IO A -> Prop :=
  | part_observe project : worktree_part _ (observe_source options cancellation project)
  | part_storage : worktree_part _ default_storage
  | part_run_id : worktree_part _ new_run_id
  | part_lease source owner run_id destination : worktree_part _ (new_lease source owner run_id destination)
  | part_reserve storage lease : worktree_part _ (reserve storage lease)
  | part_create storage lease : worktree_part _ (create_worktree options cancellation storage lease)
  | part_set_up storage lease : worktree_part _ (set_up_worktree options cancellation storage lease)
  | part_cleanup storage lease timeout limit : worktree_part _ (cleanup_lease storage lease timeout limit)
  | part_check source : worktree_part _ (check_source options source).

Lemma run_consists (part : forall A : Type, IO A -> Prop) project owner s :
  (forall A m, worktree_part A m -> part A m) ->
  (forall intent s', consists part (before_create intent s')) ->
  (forall context s', consists part (operation context s')) ->
  (forall context s', consists part (before_cleanup context s')) ->
  consists part (run_in_disposable_worktree options cancellation before_create operation before_cleanup project owner s).
Proof.
  intros Hpart Hb Ho Hc. unfold run_in_disposable_worktree.
  consist; try (apply consists_part, Hpart; constructor); [done|].
  unfold operate. consist; [done| |]; unfold authorised_cleanup; consist; try (apply consists_part, Hpart; constructor). done.
Qed.

End Run.
