(* ===== verification/EditFlowFacts.v ===== *)
(** * Verification, application and rollback of proposals: their theorems

    What a proposal must have gone through to be verified, applied or rolled
    back, for every answer of the system: the runs of the parts that
    established it, and their order. *)

From stdpp Require Import base list strings.
From Stdlib Require Import NArith Ascii String Lia.
From S2P Require Import Transaction TransactionRun.
From S2P Require Import Prelude Bytes UnixPath IO World Model Paths AuditLog Approval Rules Worktree Actions Engine ActionFacts EngineFacts EngineProperties.
From S2P Require Import Trace Anyhow Text GitState ProcessRunner DisposableWorktree EditPlan EditIntent EditRuntime ProposalStore.
From S2P Require Import PolicyAdapter EditTransaction EditDiff OfflineBuild EditVerification EditApply ProcessFacts ProposalFacts.

Local Open Scope string_scope.
Local Open Scope N_scope.

(** ** The contents of a tree *)

Section Tree.
Context {An : Answers} `{Blake3}.

(** The file at a path was read, and is as the proposal records it: its base
    (or its absence), or its proposed contents. *)
Definition at_snapshot (root : string) (proposed : bool) (file : ProposalFileSnapshot) : Prop :=
  match expected_content proposed file with
  | Some content => answers (ReadFile (join root (f_path file))) (Ok content)
                    /\ (forall hash, expected_hash proposed file = Some hash -> content_hash content = hash)
  | None => exists e, answers (ReadFile (join root (f_path file))) (Err e) /\ io_error_kind e = NotFound
  end.

Lemma verify_snapshot_must root proposed file :
  must (verify_snapshot_at root proposed file) (ok_post (fun _ => at_snapshot root proposed file)).
Proof.
  unfold verify_snapshot_at, at_snapshot. intros [bytes|e] Ha; cbn [bind try_bind].
  - case_bool_decide as E; cbn [negb]; [|done]. rewrite <- E. cbn [must].
    destruct (expected_hash proposed file) as [hash|]; [|by split].
    destruct (String.eqb_spec (content_hash bytes) hash) as [Eh|]; [|done]. split; [done|]. intros h [= <-]. done.
  - case_bool_decide as Hk; cbn [bind]; [|done]. case_bool_decide as E; cbn [negb]; [|done]. rewrite <- E.
    cbn [must]. simpl. by exists e.
Qed.

Lemma verify_snapshots_must root proposed files :
  must (verify_snapshots_at root files proposed) (ok_post (fun _ => Forall (at_snapshot root proposed) files)).
Proof.
  induction files as [|file files IH]; cbn [verify_snapshots_at]; [constructor|].
  eapply must_try_ok; [apply verify_snapshot_must|]. intros [] Hf.
  eapply must_mono; [exact IH|]. intros [[]|] Hfs; [by constructor|done].
Qed.
End Tree.

(** ** The syntax check *)

Section Syntax.
Context {An : Answers} `{JavaSyntax}.

(** The file was read, and its text parses without a diagnostic. *)
Definition parsed (root : string) (file : ProposalFileSnapshot) : Prop :=
  exists source diagnostics, answers (ReadFile (join root (f_path file))) (Ok source)
  /\ analyze_java_source (f_path file) source = Ok (true, diagnostics).

Definition java_parsed (root : string) (files : list ProposalFileSnapshot) : Prop :=
  Forall (fun file => is_java file = true -> parsed root file) files.

Lemma reparse_file_must root file : must (reparse_file root file) (fun errors => errors = [] -> parsed root file).
Proof.
  unfold reparse_file. apply must_bind with (P := ok_post (fun source => answers (ReadFile (join root (f_path file))) (Ok source))).
  - apply must_map_err. intros [bytes|e] Ha; [|exact I]. simpl. unfold to_str. destruct (utf8_valid bytes); [exact Ha|exact I].
  - intros [source|e] Ha; cbn [rbind must]; [|done]. destruct (analyze_java_source _ source) as [[[] n]|e] eqn:E; try done.
    intros _. by exists source, n.
Qed.

Lemma reparse_files_must root files : must (reparse_files root files) (fun errors => errors = [] -> Forall (parsed root) files).
Proof.
  induction files as [|file files IH]; cbn [reparse_files]; [constructor|].
  eapply must_bind; [apply reparse_file_must|]. intros errors He. eapply must_bind; [exact IH|]. intros more Hm.
  intros [-> ->]%app_eq_nil. constructor; auto.
Qed.

Lemma reparse_must root files : must (reparse_java_files root files) (fun r => es_status r = Passed -> java_parsed root files).
Proof.
  unfold reparse_java_files. intros started _. cbn [bind]. cbv zeta. eapply must_bind; [apply reparse_files_must|].
  intros errors He now _. destruct errors; [|done]. intros _. apply Forall_forall. intros file Hin Hj.
  specialize (He eq_refl). rewrite Forall_forall in He. apply He, list_elem_of_In, filter_In. by rewrite <- list_elem_of_In.
Qed.
End Syntax.

(** ** The verified diff *)

Section Diff.
Context {An : Answers} `{Blake3, SecondsDisplay, StringDebug}.

(** What a captured diff says of a proposal's files: there is one entry per
    file, in order, and each file was read back with its proposed contents. *)
Definition diff_of (root : string) (files : list ProposalFileSnapshot) (diff : VerifiedDiff) : Prop :=
  vd_patch_hash diff = content_hash (vd_patch diff)
  /\ strlen (vd_patch diff) <= MAX_EDIT_PROPOSAL_BYTES
  /\ Forall2 (fun file s => df_path s = f_path file /\ df_status s = f_status file /\ df_binary s = false
                            /\ df_base_hash s = f_base_hash file /\ df_proposed_hash s = f_proposed_hash file) files (vd_files diff)
  /\ vd_statistics diff = diff_statistics (vd_files diff) (vd_patch diff)
  /\ Forall (at_snapshot root true) files.

Lemma diff_file_must root observed timeout cancellation file :
  must (diff_file root observed timeout cancellation file) (ok_post (fun p =>
    at_snapshot root true file /\ df_path p.2 = f_path file /\ df_status p.2 = f_status file /\ df_binary p.2 = false
    /\ df_base_hash p.2 = f_base_hash file /\ df_proposed_hash p.2 = f_proposed_hash file)).
Proof.
  unfold diff_file. intros stop _. cbn [bind]. destruct stop; [done|].
  destruct (map_get _ observed) as [change|]; [|done]. apply must_ret_try. intros [] _.
  eapply must_try_ok; [apply (must_io_context _ _ (fun b => answers (ReadFile (join root (f_path file))) (Ok b))); auto|].
  intros actual Ha. destruct (String.eqb_spec actual (f_proposed_content file)) as [->|]; [|done].
  destruct (String.eqb_spec (content_hash (f_proposed_content file)) (f_proposed_hash file)) as [Eh|]; [|done]. cbn [negb orb].
  apply must_try_ok with (P := fun _ => True); [by apply must_true; intros []|].
  intros [patch counts] _. destruct (is_binary_patch patch); [done|]. simpl. split_and!; try done.
  split; [done|by intros h [= <-]].
Qed.

Lemma diff_files_must root observed timeout cancellation files :
  must (diff_files root observed timeout cancellation files) (ok_post (fun p =>
    Forall (at_snapshot root true) files
    /\ Forall2 (fun file s => df_path s = f_path file /\ df_status s = f_status file /\ df_binary s = false
         /\ df_base_hash s = f_base_hash file /\ df_proposed_hash s = f_proposed_hash file) files p.2)).
Proof.
  induction files as [|file files IH]; cbn [diff_files]; [by split; constructor|].
  eapply must_try_ok; [apply diff_file_must|]. intros [patch stats] (Hf & Hs).
  eapply must_try_ok; [exact IH|]. intros [patches more] (Hfs & Hss). simpl in *. split; by constructor.
Qed.

Lemma capture_diff_must root files timeout cancellation :
  must (capture_verified_diff root files timeout cancellation) (ok_post (diff_of root files)).
Proof.
  unfold capture_verified_diff.
  apply must_try_ok with (P := fun _ => True); [by apply must_true; intros []|]. intros state _. cbv zeta.
  destruct (negb _); [done|]. eapply must_try_ok; [apply diff_files_must|]. intros [patch stats] (Hf & Hs).
  destruct (N.ltb_spec MAX_EDIT_PROPOSAL_BYTES (strlen patch)) as [|Hl]; [done|]. unfold verified_diff.
  destruct (truncate_utf8 patch MAX_EDIT_DIFF_DISPLAY_BYTES). done.
Qed.
End Diff.

(** ** The policy session *)

Section Session.
Context {An : Answers} `{Blake3, LeaseSerde, AuditSerde, ApprovalSerde, EngineSerde}.

(** The policy engine allowed an action: it was checked, and the check was
    revalidated, in the calls [t]. *)
Definition permitted (engine : PolicyEngine) (request : PolicyRequest) (t : list event) : Prop :=
  exists pf t1 t2, t = (t1 ++ t2)%list
  /\ runs (check engine request) (Ok pf) t1 /\ allowed_report (pf_report pf) = true
  /\ runs (preflight_revalidate pf) (Ok tt) t2.

Lemma authorize_runs session mode action active approval name records records' t :
  runs (authorize session mode action active approval name records) (records', Ok tt) t ->
  permitted (ps_engine session) (session_request session mode action active approval name (N.of_nat (List.length records))) t
  /\ List.length records' = S (List.length records).
Proof.
  intros Hr. unfold authorize in Hr. unbind Hr as checked t1 Hc. destruct checked as [pf|e]; [|by destruct Hr].
  destruct (allowed_report (pf_report pf)) eqn:Ha; cbn [negb] in Hr; [|by destruct Hr].
  unbind Hr as revalidated t2 Hv. destruct Hr as [[= <- Hok] ->]. rewrite app_nil_r. apply map_err_ok in Hok as ->.
  split; [by exists pf, t1, t2|]. rewrite length_app. simpl. lia.
Qed.

(** A patch of the original workspace, in apply mode, was permitted only by
    consuming the grant its request carries. *)
Lemma permitted_patch engine request action t :
  permitted engine request t -> rq_action request = ApplyPatch action -> rq_mode request = ApprovedApply ->
  observed_state request (ap_base_head action)
  /\ exists pf t1 t2, t = (t1 ++ t2)%list /\ approval_consumed engine request (pf_paths pf) t1.
Proof.
  intros (pf & t1 & t2 & -> & Hc & Ha & _) Haction Hmode.
  pose proof (runs_trace _ _ _ _ (patch_authorized engine request) Hc Ha action Haction) as (_ & ws & root & _ & _ & _ & Hcase).
  destruct Hcase as [(_ & Hm & _)|(_ & _ & Ho & Happ)]; [congruence|]. split; [done|]. by exists pf, t1, t2.
Qed.

(** So was a rollback. *)
Lemma permitted_rollback engine request action t :
  permitted engine request t -> rq_action request = RollbackTransaction action ->
  exists pf t1 t2, t = (t1 ++ t2)%list /\ approval_consumed engine request (pf_paths pf) t1.
Proof.
  intros (pf & t1 & t2 & -> & Hc & Ha & _) Haction.
  pose proof (runs_trace _ _ _ _ (check_authorized engine request) Hc Ha) as (_ & ws & _ & [Hg|[_ Happ]]).
  - unfold allow_grounds in Hg. by rewrite Haction in Hg.
  - by exists pf, t1, t2.
Qed.
End Session.

(** ** The record store *)

Section Store.
Context {An : Answers} `{Blake3, IntentSerde, StoreSerde} (store : ProposalStore).

Lemma expire_valid id now : must (expire_if_needed store id now) (ok_post (valid_record id (s_workspace_hash store))).
Proof. eapply must_mono; [apply (perform_advances store id (UExpire now))|]. intros [r|] Hr; [|done]. by destruct Hr as (? & _ & Hv & _). Qed.

Lemma record_apply_report id report : must (record_apply store id report) (ok_post (fun r => r_apply r = Some report)).
Proof.
  eapply must_mono.
  - apply (update_must store id _ (fun _ r1 => r_apply r1 = Some report)). intros r. by destruct (negb _).
  - intros [r|] Hr; [|done]. by destruct Hr as (? & r1 & _ & Hr1 & _ & (now & ->) & _).
Qed.

Lemma record_rollback_report id report : must (record_rollback store id report) (ok_post (fun r => r_rollback r = Some report)).
Proof.
  eapply must_mono.
  - apply (update_must store id _ (fun _ r1 => r_rollback r1 = Some report)). intros r. by destruct (negb _).
  - intros [r|] Hr; [|done]. by destruct Hr as (? & r1 & _ & Hr1 & _ & (now & ->) & _).
Qed.

Lemma record_verification_report id report diff :
  must (record_verification store id report diff) (ok_post (fun r => r_verification r = Some report /\ r_verified_diff r = diff)).
Proof.
  eapply must_mono.
  - apply (update_must store id _ (fun _ r1 => r_verification r1 = Some report /\ r_verified_diff r1 = diff)). intros r. by destruct (negb _).
  - intros [r|] Hr; [|done]. by destruct Hr as (? & r1 & _ & Hr1 & _ & (now & ->) & _).
Qed.
End Store.

(** ** Before an application *)

Lemma drifted_false record observed :
  drifted record observed = false ->
  or_clean observed = true /\ grb_head (or_boundary observed) = p_base_head (r_plan record)
  /\ or_working_tree_digest observed = p_working_tree_digest (r_plan record)
  /\ or_root_hash observed = r_workspace_root_hash record.
Proof.
  unfold drifted. intros Hd. split_bools.
  repeat match goal with H : (_ =? _)%string = true |- _ => apply String.eqb_eq in H end. done.
Qed.

Section Ready.
Context {An : Answers}.
Context `{Blake3, IntentSerde, StoreSerde, TransactionSerde, LeaseSerde, AuditSerde, ApprovalSerde, EngineSerde}.
Context `{SecondsDisplay, StringDebug, StateJson, GitStateSerde, JavaSyntax}.
Context (store : ProposalStore) (proposal_id : string) (policy : PolicyEngine) (options : EditRuntimeOptions).

(** A proposal that may be applied to the workspace it was observed in. *)
Record ready (record : ProposalRecord) (observed : ObservedRepository) (diff : VerifiedDiff) : Prop := {
  rd_valid : valid_record proposal_id (s_workspace_hash store) record;
  rd_state : r_state record = Verified;
  rd_workspace : r_workspace_id record = o_workspace_id options;
  rd_unexpired : exists now, answers SystemTimeMillis now /\ expired record now = false;
  rd_verification : exists v, r_verification record = Some v /\ cv_success v = true /\ cv_lease_recovery_required v = false;
  rd_clean : or_clean observed = true;
  rd_head : grb_head (or_boundary observed) = p_base_head (r_plan record);
  rd_digest : or_working_tree_digest observed = p_working_tree_digest (r_plan record);
  rd_root : or_root_hash observed = r_workspace_root_hash record;
  rd_base : Forall (at_snapshot (or_root observed) false) (r_files record);
  rd_diff : r_verified_diff record = Some diff;
  rd_patch : content_hash (vd_patch diff) = vd_patch_hash diff;
}.

Lemma preconditions_must record :
  must (validate_apply_preconditions record options) (ok_post (fun _ =>
    r_state record = Verified /\ r_workspace_id record = o_workspace_id options
    /\ (exists now, answers SystemTimeMillis now /\ expired record now = false)
    /\ exists v, r_verification record = Some v /\ cv_success v = true /\ cv_lease_recovery_required v = false)).
Proof.
  unfold validate_apply_preconditions. case_bool_decide as Hs; [|done].
  destruct (String.eqb_spec (r_workspace_id record) (o_workspace_id options)) as [Hw|]; [|done]. cbn [negb orb].
  intros now Hnow. cbn [bind]. destruct (expired record now) eqn:Hx; [done|].
  destruct (r_verification record) as [v|]; [|done]. cbn [is_some_and orb].
  destruct (cv_success v) eqn:Hv; [|done]. destruct (cv_lease_recovery_required v) eqn:Hl; [done|].
  simpl. split_and!; [done|done|by exists now|by exists v].
Qed.

Lemma check_apply_must cancellation :
  must (check_apply store proposal_id options cancellation) (ok_post (fun p => ready p.1.1 p.1.2 p.2)).
Proof.
  unfold check_apply. intros now _. cbn [bind].
  eapply must_try_ok; [apply expire_valid|]. intros record Hvalid.
  eapply must_try_ok; [apply preconditions_must|]. intros [] (Hs & Hw & Hx & Hv).
  apply must_try_ok with (P := fun _ => True); [by apply must_true; intros []|]. intros observed _.
  destruct (drifted record observed) eqn:Hd; [done|]. apply drifted_false in Hd as (Hc & Hh & Hg & Hr).
  eapply must_try_ok; [apply verify_snapshots_must|]. intros [] Hb.
  apply must_ret_try. intros diff Hdiff. destruct (r_verified_diff record) as [d|] eqn:Ed; [|done]. injection Hdiff as ->.
  destruct (String.eqb_spec (content_hash (vd_patch diff)) (vd_patch_hash diff)) as [Hp|]; [|done].
  simpl. by split.
Qed.

End Ready.

Section Apply.
Context {An : Answers}.
Context `{Blake3, IntentSerde, StoreSerde, TransactionSerde, LeaseSerde, AuditSerde, ApprovalSerde, EngineSerde}.
Context `{SecondsDisplay, StringDebug, StateJson, GitStateSerde, JavaSyntax}.
Context (store : ProposalStore) (proposal_id : string) (policy : PolicyEngine) (options : EditRuntimeOptions).

(** The checks were made in the calls [t], of the record the store returned
    and of an observation of the workspace. *)
Definition checked (cancellation : string) (record : ProposalRecord) (observed : ObservedRepository) (diff : VerifiedDiff)
    (t : list event) : Prop :=
  ready (An := in_trace t) store proposal_id options record observed diff
  /\ (exists now, ran_in (expire_if_needed store proposal_id now) (Ok record) t)
  /\ ran_in (observe_repository options cancellation) (Ok observed) t.

Lemma check_apply_runs cancellation record observed diff t :
  runs (check_apply store proposal_id options cancellation) (Ok (record, observed, diff)) t ->
  checked cancellation record observed diff t.
Proof.
  intros Hr. split; [exact (runs_here _ _ _ _ (check_apply_must _ _ _ _) Hr)|]. unfold check_apply in Hr.
  unbind Hr as now t1 Hn. unbind Hr as r t2 Hx. unbind Hr as u t3 Hp. unbind Hr as o t4 Ho.
  destruct (drifted r o); [by destruct Hr|]. unbind Hr as v t5 Hv. unbind Hr as d t6 Hd.
  destruct Hr as [Hr ->]. destruct (_ =? _)%string; [|discriminate Hr]. injection Hr as -> -> ->.
  split; [exists now; ran_by Hx|ran_by Ho].
Qed.

(** ** An application *)

(** What the transaction of an application was preceded by: the proposal was
    ready, and the grant issued for exactly this application was consumed. *)
Definition authorised_application (confirmation : NativeConfirmation) (transaction_id : string) (record : ProposalRecord)
    (observed : ObservedRepository) (diff : VerifiedDiff) (grant_id cancellation : string) (before : list event) : Prop :=
  let action := apply_action record observed diff transaction_id in
  let request := session_request (session_of policy options observed) ApprovedApply action None (Some grant_id)
                   "apply_consume" 1 in
  exists grant pf t1 t2 t3 t4, grant_id = ag_approval_id grant /\ before = (t1 ++ t2 ++ t3 ++ t4)%list
  /\ checked cancellation record observed diff t1
  /\ ran_in (issue_approval policy (approval_request policy options observed action "apply_approval") confirmation
       DEFAULT_APPROVAL_TTL_SECONDS) (Ok grant) t2
  /\ approval_consumed policy request (pf_paths pf) t3.

Lemma consume_grant_runs record observed diff transaction_id grant d decisions t :
  runs (consume_grant policy options observed (apply_action record observed diff transaction_id) grant "apply_consume" [d])
    (decisions, Ok tt) t ->
  exists pf t1 t2, t = (t1 ++ t2)%list /\ approval_consumed policy
    (session_request (session_of policy options observed) ApprovedApply
       (apply_action record observed diff transaction_id) None (Some (ag_approval_id grant)) "apply_consume" 1) (pf_paths pf) t1.
Proof.
  intros Hr. apply authorize_runs in Hr as [Hp _]. unfold apply_action in *.
  destruct (proposal_paths (r_files record)) as [existing created]. by eapply permitted_patch in Hp as [_ Hp].
Qed.

(** The proposal was left in a state: verified only if every file was first
    read back as its base, in [u], failed otherwise. *)
Definition settled (record : ProposalRecord) (observed : ObservedRepository) (after : list event) : Prop :=
  exists u v state reason, after = (u ++ v)%list /\ ran_in (move_to store proposal_id state reason) (Ok tt) v
  /\ (state = Verified /\ Forall (at_snapshot (An := in_trace u) (or_root observed) false) (r_files record)
      \/ state = EditPlan.Failed).

(** The proposal was applied: the transaction was committed; then, in [u],
    every Java file was read and parsed, and Git reported exactly the verified
    diff of the proposed files; then the proposal moved on to the states of
    an applied one. *)
Definition applied (record : ProposalRecord) (observed : ObservedRepository) (diff : VerifiedDiff)
    (transaction_id grant_id : string) (outcome : res ApplyTransactionResult) (r : ProposalRecord) (after : list event) : Prop :=
  exists transaction cancellation u v reparse build now decisions,
    outcome = Ok transaction /\ committed transaction = true
    /\ after = (u ++ v)%list
    /\ ran_in (reparse_java_files (or_root observed) (r_files record)) reparse u
    /\ java_parsed (An := in_trace u) (or_root observed) (r_files record)
    /\ ran_in (capture_verified_diff (or_root observed) (r_files record) (o_git_timeout options) cancellation) (Ok diff) u
    /\ diff_of (An := in_trace u) (or_root observed) (r_files record) diff
    /\ (exists report, r_verification record = Some report /\ es_status (cv_build report) = Passed)
    /\ (exists reason, ran_in (move_to store proposal_id Applied reason) (Ok tt) v)
    /\ (exists reason, ran_in (move_to store proposal_id RollbackAvailable reason) (Ok tt) v)
    /\ r_apply r = Some (apply_report_succeeded options proposal_id transaction_id grant_id reparse build now decisions).

Definition not_applied (record : ProposalRecord) (observed : ObservedRepository) (transaction_id grant_id : string)
    (after : list event) : Prop :=
  settled record observed after
  /\ exists reparse build attempted restored decisions errors r,
       ran_in (record_apply store proposal_id
         (apply_report_failed options proposal_id transaction_id grant_id reparse build attempted restored decisions errors)) (Ok r) after.

Lemma is_ok_io_runs {A} (m : IO (res A)) b t :
  runs (is_ok_io m) b t -> b = true -> exists a, runs m (Ok a) t.
Proof.
  intros Hr ->. unfold is_ok_io in Hr. unbind Hr as r t1 Hm. destruct Hr as [Hb ->]. rewrite app_nil_r.
  destruct r as [a|e]; [by exists a|done].
Qed.

Lemma base_runs record observed b t :
  runs (is_ok_io (verify_snapshots_at (or_root observed) (r_files record) false)) b t -> b = true ->
  Forall (at_snapshot (An := in_trace t) (or_root observed) false) (r_files record).
Proof.
  intros Hr Hb. destruct (is_ok_io_runs _ _ _ Hr Hb) as [[] Hv]. exact (runs_here _ _ _ _ (verify_snapshots_must _ _ _) Hv).
Qed.

Lemma at_snapshots_mono root proposed files t u :
  incl t u -> Forall (at_snapshot (An := in_trace t) root proposed) files -> Forall (at_snapshot (An := in_trace u) root proposed) files.
Proof.
  intros Hu Hf. eapply Forall_impl; [exact Hf|]. intros file. unfold at_snapshot. destruct (expected_content proposed file).
  - intros [Ha Hh]. split; [by apply Hu|done].
  - intros (e & Ha & Hk). exists e. split; [by apply Hu|done].
Qed.

Lemma settled_failed record observed reason t :
  ran_in (move_to store proposal_id EditPlan.Failed reason) (Ok tt) t -> settled record observed t.
Proof. intros Hm. exists [], t, EditPlan.Failed, reason. split_and!; [done|done|by right]. Qed.

Lemma settled_verified record observed reason t u :
  Forall (at_snapshot (An := in_trace t) (or_root observed) false) (r_files record) ->
  ran_in (move_to store proposal_id Verified reason) (Ok tt) u -> settled record observed (t ++ u).
Proof. intros Hb Hm. exists t, u, Verified, reason. split_and!; [done|done|by left]. Qed.

Lemma settled_later record observed after t : settled record observed after -> settled record observed (t ++ after).
Proof.
  intros (u & v & state & reason & -> & Hm & Hs). exists (t ++ u)%list, v, state, reason. split; [by rewrite app_assoc|].
  split; [done|]. destruct Hs as [[-> Hb]|Hs]; [left; split; [done|]|by right].
  eapply at_snapshots_mono; [|exact Hb]. by apply incl_appr, incl_refl.
Qed.

Lemma settled_longer record observed after t : settled record observed after -> settled record observed (after ++ t).
Proof.
  intros (u & v & state & reason & -> & Hm & Hs). exists u, (v ++ t)%list, state, reason. rewrite app_assoc.
  split_and!; [done|by apply ran_in_l|done].
Qed.

Lemma finish_failed_runs record observed decisions report restored r t u :
  runs (finish_failed_apply store proposal_id decisions report restored) (Ok r) t ->
  (restored = true -> Forall (at_snapshot (An := in_trace u) (or_root observed) false) (r_files record)) ->
  settled record observed (u ++ t) /\ exists r', ran_in (record_apply store proposal_id report) (Ok r') t.
Proof.
  intros Hr Hbase. unfold finish_failed_apply in Hr. unbind Hr as v t1 Hmove. destruct v. split.
  - destruct restored; [|apply settled_later; eapply settled_failed; ran_by Hmove].
    eapply settled_verified; [by apply Hbase|ran_by Hmove].
  - unbind Hr as v t2 Hrec. unfold ignore in Hrec. unbind Hrec as r' t3 Hrec'. unfold record_outcome in Hrec'.
    unbind Hrec' as u' t4 Hpol. exists r'. ran_by Hrec'.
Qed.

Lemma roll_back_runs record observed id p t :
  runs (roll_back_application store proposal_id record observed id) (Ok p) t -> settled record observed t.
Proof.
  intros Hr. unfold roll_back_application in Hr. unbind Hr as rollback t1 Hroll. apply settled_later.
  destruct rollback as [rollback|e].
  - unbind Hr as base t2 Hbase. unbind Hr as v t3 Hmove. destruct v. destruct base; [|eapply settled_failed; ran_by Hmove].
    eapply settled_verified; [|ran_by Hmove]. destruct (rolled_back rollback); [by eapply base_runs|by destruct Hbase].
  - unbind Hr as v t3 Hmove. destruct v. eapply settled_failed. ran_by Hmove.
Qed.

(** The grant of an application was issued for the confirmation, and consumed. *)
Lemma issue_apply_grant_runs request confirmation transaction_id grant t :
  runs (issue_apply_grant store proposal_id policy request confirmation transaction_id) (Ok grant) t ->
  ran_in (issue_approval policy request confirmation DEFAULT_APPROVAL_TTL_SECONDS) (Ok grant) t.
Proof.
  intros Hr. unfold issue_apply_grant in Hr. unbind Hr as u t1 Hp. unbind Hr as issued t2 Hi. destruct issued as [g|e].
  - unbind Hr as v t3 Hm. destruct Hr as [[= ->] ->]. ran_by Hi.
  - unbind Hr as v t3 Hm. by destruct Hr.
Qed.

Lemma build_binding_passed record exact_diff : es_status (build_binding record exact_diff) = Passed ->
  exists report, r_verification record = Some report /\ es_status (cv_build report) = Passed.
Proof.
  unfold build_binding. destruct (r_verification record) as [report|]; [|done]. cbn [is_some_and].
  unfold status_is. case_bool_decide as Hp; [|done]. intros _. by exists report.
Qed.

Lemma finish_committed_runs record observed diff transaction_id grant_id transaction decisions cancellation r t :
  committed transaction = true ->
  runs (finish_committed_apply store proposal_id options record observed diff transaction_id grant_id
          (r_transaction_id transaction) decisions cancellation) (Ok r) t ->
  applied record observed diff transaction_id grant_id (Ok transaction) r t
  \/ not_applied record observed transaction_id grant_id t.
Proof.
  intros Hc Hr. unfold finish_committed_apply in Hr. unbind Hr as reparse t1 Hp. unbind Hr as posted t2 Hd.
  destruct posted as [exact errors]. destruct (_ && _) eqn:Hall.
  - left. apply andb_prop in Hall as [Hall ->]. apply andb_prop in Hall as [Hrep Hbuild].
    unfold status_is in Hrep, Hbuild. apply bool_decide_eq_true in Hrep, Hbuild.
    unbind Hr as now t3 Hn. unbind Hr as u t4 Hm1. unbind Hr as v t5 Hm2. destruct u, v.
    unfold record_outcome in Hr. unbind Hr as u t6 Hpol.
    unfold post_diff in Hd. unbind Hd as captured t7 Hcap. destruct captured as [actual|e]; [|by destruct Hd as [[=] _]].
    destruct Hd as [Hd ->]. case_bool_decide as E; [|discriminate Hd]. subst actual. rewrite app_nil_r.
    eexists transaction, cancellation, (t1 ++ t7)%list, _, reparse, (build_binding record true), now, decisions.
    split_and!; [done|exact Hc|by rewrite <- app_assoc|ran_by Hp| |ran_by Hcap| | | | |].
    + by eapply (runs_in_trace _ (fun r => es_status r = Passed -> _)); [apply reparse_must|exact Hp|apply incl_appl, incl_refl|].
    + exact (runs_in_trace _ _ _ _ _ (capture_diff_must _ _ _ _) Hcap (incl_appr _ (incl_refl _))).
    + by apply build_binding_passed in Hbuild.
    + eexists. ran_by Hm1.
    + eexists. ran_by Hm2.
    + exact (runs_must _ _ _ _ (record_apply_report _ _ _) Hr).
  - right. unbind Hr as rb t3 Hrb. destruct rb as [restored rollback_errors]. pose proof (roll_back_runs _ _ _ _ _ Hrb) as Hset.
    split.
    + do 2 apply settled_later. by apply settled_longer.
    + unfold record_outcome in Hr. unbind Hr as u t4 Hpol. eexists _, _, _, _, _, _, _. ran_by Hr.
Qed.

Lemma run_apply_runs record observed diff transaction_id grant_id decisions cancellation r t :
  runs (run_apply store proposal_id options record observed diff transaction_id grant_id decisions cancellation) (Ok r) t ->
  exists tx after outcome, t = (tx ++ after)%list
  /\ runs (execute_apply_transaction (apply_request record observed diff transaction_id)) outcome tx
  /\ (applied record observed diff transaction_id grant_id outcome r after
      \/ not_applied record observed transaction_id grant_id after).
Proof.
  intros Hr. unfold run_apply in Hr. unbind Hr as outcome tx Htx.
  match type of Hr with runs _ _ ?u => rename u into after end. exists tx, after, outcome. split; [done|]. split; [exact Htx|].
  assert (Hfailed : forall attempted restored errors,
    runs (unchanged <- is_ok_io (verify_snapshots_at (or_root observed) (r_files record) false) ;;
          finish_failed_apply store proposal_id decisions
            (apply_report_failed options proposal_id transaction_id grant_id reparse_not_run build_not_run attempted restored
               decisions errors) unchanged) (Ok r) after ->
    not_applied record observed transaction_id grant_id after).
  { intros attempted restored errors Hf. unbind Hf as unchanged t1 Hb.
    eapply finish_failed_runs in Hf as [Hset (r' & Hrec)]; [|intros Hu; by eapply base_runs].
    split; [exact Hset|]. eexists _, _, _, _, _, _, r'. ran_by Hrec. }
  destruct outcome as [transaction|e]; [|by right; eapply Hfailed].
  destruct (committed transaction) eqn:Hc; [|by right; eapply Hfailed]. by eapply finish_committed_runs.
Qed.

(** C5: A proposal whose application returns a record went through these
    steps, in this order.  The record that the store returned was found
    verified, by a successful verification of this workspace, and unexpired at
    the time the clock then showed; the workspace was observed clean, at the
    HEAD, digest and root of the plan; each file was read as its base, and the
    stored patch has its hash.  The grant for the user's confirmation of
    exactly this diff, these files, this transaction and this HEAD was issued,
    then consumed; and only then was the transaction started.  Afterwards,
    either the transaction is committed, every Java file was read and parsed,
    the Git diff captured then is the verified one, of files read with their
    proposed contents, the build of the verification had passed, and the
    proposal was then marked applied, and the report says so; or the proposal
    was put back to verified, which was done only after every file had been
    read back as its base, or else marked failed, and the report says it was
    not applied. *)
Theorem apply_outcomes confirmation cancellation transaction_id :
  trace_must (apply_verified_proposal_with_transaction_id store proposal_id policy options confirmation cancellation transaction_id)
    (ok_trace (fun r t => exists record observed diff grant_id before tx after outcome,
       t = (before ++ tx ++ after)%list
       /\ authorised_application confirmation transaction_id record observed diff grant_id cancellation before
       /\ runs (execute_apply_transaction (apply_request record observed diff transaction_id)) outcome tx
       /\ (applied record observed diff transaction_id grant_id outcome r after
           \/ not_applied record observed transaction_id grant_id after))).
Proof.
  apply runs_trace_must. intros [r|e] t Hr; [|done]. simpl. unfold apply_verified_proposal_with_transaction_id in Hr.
  unbind Hr as checked t1 Hcheck. destruct checked as [[record observed] diff].
  apply check_apply_runs in Hcheck.
  unbind Hr as decisions t2 Happ. unbind Hr as grant t3 Hgrant. apply issue_apply_grant_runs in Hgrant.
  unbind Hr as consumed t4 Hcons. destruct consumed as [decisions' [[]|e]].
  - unfold require_approval in Happ. unbind Happ as pf t5 Hpf. destruct Happ as [Hd ->].
    destruct (is_require_approval _); [|discriminate Hd]. injection Hd as <-.
    apply consume_grant_runs in Hcons as (pf' & u1 & u2 & -> & Hu).
    apply run_apply_runs in Hr as (tx & after & outcome & -> & Htx & Hout).
    exists record, observed, diff, (ag_approval_id grant), (t1 ++ ((t5 ++ []) ++ t3) ++ u1 ++ u2)%list, tx, after, outcome.
    split; [by rewrite <- !app_assoc|]. split; [|by split].
    exists grant, pf', t1, ((t5 ++ []) ++ t3)%list, u1, u2.
    split_and!; [done|done|exact Hcheck|ran_by Hgrant|exact Hu].
  - unbind Hr as u t5 Hm. unbind Hr as v t6 Hp. destruct Hr as [Hr _]. discriminate Hr.
Qed.

End Apply.

(** ** A rollback *)

Section Rollbackable.
Context {An : Answers}.
Context `{Blake3, IntentSerde, StoreSerde, TransactionSerde, LeaseSerde, AuditSerde, ApprovalSerde, EngineSerde}.
Context `{SecondsDisplay, StringDebug, StateJson, GitStateSerde, JavaSyntax}.
Context (options : EditRuntimeOptions).

(** A proposal whose transaction may be rolled back in the workspace: it is
    applied, and the workspace is what the application left. *)
Record rollbackable (record : ProposalRecord) (apply : ChatEditApplyReport) (observed : ObservedRepository)
    (diff : VerifiedDiff) : Prop := {
  rb_state : r_state record = RollbackAvailable \/ r_state record = Applied;
  rb_workspace : r_workspace_id record = o_workspace_id options;
  rb_apply : r_apply record = Some apply;
  rb_success : ca_success apply = true;
  rb_diff : r_verified_diff record = Some diff;
  rb_head : grb_head (or_boundary observed) = p_base_head (r_plan record);
  rb_root : or_root_hash observed = r_workspace_root_hash record;
  rb_actual : diff_of (or_root observed) (r_files record) diff;
}.

Lemma check_rollback_must record cancellation :
  must (check_rollback options record cancellation) (ok_post (fun p => rollbackable record p.1.1 p.1.2 p.2)).
Proof.
  unfold check_rollback. destruct (negb _ || _) eqn:Hs; [exact I|]. apply orb_false_elim in Hs as [Hs Hw].
  apply negb_false_iff, orb_prop in Hs. rewrite !bool_decide_eq_true in Hs. apply negb_false_iff, String.eqb_eq in Hw.
  destruct (r_apply record) as [apply|] eqn:Ha; [|done]. destruct (ca_success apply) eqn:Hsuc; [|done].
  apply must_ret_try. intros a [= <-].
  apply must_ret_try. intros diff Hd. destruct (r_verified_diff record) as [d|] eqn:Ed; [|done]. injection Hd as ->.
  apply must_try_ok with (P := fun _ => True); [by apply must_true; intros []|]. intros observed _.
  destruct (negb _ || _) eqn:Ho; [exact I|]. split_bools.
  apply must_try_ok with (P := fun _ => True); [by apply must_true; intros []|]. intros [] _.
  eapply must_try_ok; [apply capture_diff_must|]. intros current Hc. case_bool_decide as E; [|exact I]. subst current.
  repeat match goal with H : (_ =? _)%string = true |- _ => apply String.eqb_eq in H end.
  simpl. by split.
Qed.

End Rollbackable.

Section Rollback.
Context {An : Answers}.
Context `{Blake3, IntentSerde, StoreSerde, TransactionSerde, LeaseSerde, AuditSerde, ApprovalSerde, EngineSerde}.
Context `{SecondsDisplay, StringDebug, StateJson, GitStateSerde, JavaSyntax}.
Context (store : ProposalStore) (proposal_id : string) (policy : PolicyEngine) (options : EditRuntimeOptions).

(** The checks were made in the calls [t], of an observation of the workspace
    and of the diff that Git then reported. *)
Definition checked_rollback (cancellation : string) (record : ProposalRecord) (apply : ChatEditApplyReport)
    (observed : ObservedRepository) (diff : VerifiedDiff) (t : list event) : Prop :=
  rollbackable (An := in_trace t) options record apply observed diff
  /\ ran_in (observe_repository options cancellation) (Ok observed) t
  /\ ran_in (capture_verified_diff (or_root observed) (r_files record) (o_git_timeout options) cancellation) (Ok diff) t.

Lemma check_rollback_runs cancellation record apply observed diff t :
  runs (check_rollback options record cancellation) (Ok (apply, observed, diff)) t ->
  checked_rollback cancellation record apply observed diff t.
Proof.
  intros Hr. split; [exact (runs_here _ _ _ _ (check_rollback_must _ _ _) Hr)|]. unfold check_rollback in Hr.
  destruct (negb _ || _); [by destruct Hr|].
  unbind Hr as a t1 Ha. unbind Hr as d t2 Hd. unbind Hr as o t3 Ho. destruct (negb _ || _); [by destruct Hr|].
  unbind Hr as u t4 Hv. unbind Hr as current t5 Hc. destruct Hr as [Hr ->]. case_bool_decide as E; [|discriminate Hr].
  injection Hr as -> -> ->. subst current. split; [ran_by Ho|ran_by Hc].
Qed.

(** The approval of a rollback. *)
Definition authorised_rollback (confirmation : NativeConfirmation) (record : ProposalRecord) (apply : ChatEditApplyReport)
    (observed : ObservedRepository) (diff : VerifiedDiff) (grant_id cancellation : string) (before : list event) : Prop :=
  let action := rollback_action observed diff (ca_transaction_id apply) in
  let request := session_request (session_of policy options observed) ApprovedApply action None (Some grant_id)
                   "rollback_consume" 1 in
  exists grant pf t0 t1 t2 t3 t4, grant_id = ag_approval_id grant /\ before = (t0 ++ t1 ++ t2 ++ t3 ++ t4)%list
  /\ runs (load store proposal_id) (Ok record) t0
  /\ checked_rollback cancellation record apply observed diff t1
  /\ ran_in (issue_approval policy (approval_request policy options observed action "rollback_approval") confirmation
       DEFAULT_APPROVAL_TTL_SECONDS) (Ok grant) t2
  /\ approval_consumed policy request (pf_paths pf) t3.

(** In [u], every file was read as its base, every Java file parsed, and the
    workspace was observed as the proposal found it; then the proposal was
    marked rolled back. *)
Definition restored (record : ProposalRecord) (observed : ObservedRepository) (rollback : res ApplyTransactionResult)
    (reparse : EditStageReport) (after : list event) : Prop :=
  exists result u v now_observed cancellation reason,
    rollback = Ok result /\ rolled_back result = true /\ after = (u ++ v)%list
    /\ Forall (at_snapshot (An := in_trace u) (or_root observed) false) (r_files record)
    /\ ran_in (reparse_java_files (or_root observed) (r_files record)) reparse u
    /\ java_parsed (An := in_trace u) (or_root observed) (r_files record)
    /\ ran_in (observe_repository options cancellation) (Ok now_observed) u
    /\ or_clean now_observed = true
    /\ grb_head (or_boundary now_observed) = p_base_head (r_plan record)
    /\ or_working_tree_digest now_observed = p_working_tree_digest (r_plan record)
    /\ ran_in (move_to store proposal_id RolledBack reason) (Ok tt) v.

(** The proposal was left applied, or marked failed. *)
Definition not_restored (after : list event) : Prop :=
  exists state reason, ran_in (move_to store proposal_id state reason) (Ok tt) after
  /\ (state = RollbackAvailable \/ state = EditPlan.Failed).

Lemma check_restored_runs record observed transaction_id cancellation result reparse at_ms errors t :
  rolled_back result = true ->
  runs (check_restored store proposal_id options record observed transaction_id cancellation) (Ok (reparse, at_ms, errors)) t ->
  is_Some at_ms /\ errors = [] /\ restored record observed (Ok result) reparse t \/ at_ms = None /\ not_restored t.
Proof.
  intros Hback Hr. unfold check_restored in Hr. unbind Hr as u t1 Hv. destruct u.
  pose proof (runs_here _ _ _ _ (verify_snapshots_must _ _ _) Hv) as Hbase. simpl in Hbase.
  unbind Hr as rep t2 Hrep. unbind Hr as later t3 Hobs. destruct (restored_exactly _ _ _) eqn:Hx.
  - left. unbind Hr as now t4 Hn. unbind Hr as u t5 Hm. destruct u. destruct Hr as [[= <- <- <-] ->].
    unfold restored_exactly, status_is in Hx. apply andb_prop in Hx as [Hx Hd]. apply andb_prop in Hx as [Hx Hh].
    apply andb_prop in Hx as [Hx Hc]. apply bool_decide_eq_true in Hx.
    repeat match goal with H : (_ =? _)%string = true |- _ => apply String.eqb_eq in H end.
    split; [by eexists|]. split; [done|]. eexists result, (t1 ++ t2 ++ t3)%list, _, later, cancellation, _.
    split_and!; [done|done|by rewrite <- !app_assoc| |ran_by Hrep| |ran_by Hobs|done|done|done|ran_by Hm].
    + eapply at_snapshots_mono; [|exact Hbase]. apply incl_appl, incl_refl.
    + by eapply (runs_in_trace _ (fun r => es_status r = Passed -> _)); [apply reparse_must|exact Hrep|apply incl_appr, incl_appl, incl_refl|].
  - right. unbind Hr as u t4 Hm. destruct u. destruct Hr as [[= <- <- <-] ->]. split; [done|].
    eexists _, _. split; [ran_by Hm|by right].
Qed.

Lemma run_rollback_runs record observed transaction_id cancellation reparse at_ms errors t :
  runs (run_rollback store proposal_id options record observed transaction_id cancellation) (Ok (reparse, at_ms, errors)) t ->
  exists tx after rollback, t = (tx ++ after)%list
  /\ runs (rollback_apply_transaction (or_root observed) transaction_id) rollback tx
  /\ (is_Some at_ms /\ errors = [] /\ restored record observed rollback reparse after \/ at_ms = None /\ not_restored after).
Proof.
  intros Hr. unfold run_rollback in Hr. unbind Hr as rollback tx Htx.
  match type of Hr with runs _ _ ?u => exists tx, u, rollback end. split; [done|]. split; [exact Htx|].
  destruct rollback as [result|e].
  - destruct (rolled_back result) eqn:Hback; [by eapply check_restored_runs|].
    right. unbind Hr as u t1 Hm. destruct u. destruct Hr as [[= <- <- <-] ->]. split; [done|].
    eexists _, _. split; [ran_by Hm|by left].
  - right. unbind Hr as u t1 Hm. destruct u. destruct Hr as [Hr ->]. injection Hr as <- <- <-. split; [done|].
    eexists _, _. split; [ran_by Hm|by left].
Qed.

Lemma restored_or_not_app record observed rollback reparse (at_ms : option N) (errors : list string) t u :
  is_Some at_ms /\ errors = [] /\ restored record observed rollback reparse t \/ at_ms = None /\ not_restored t ->
  is_Some at_ms /\ errors = [] /\ restored record observed rollback reparse (t ++ u) \/ at_ms = None /\ not_restored (t ++ u).
Proof.
  intros [(Ha & He & result & u1 & v & later & cancellation & reason & ? & ? & -> & ? & ? & ? & Hobs & ? & ? & ? & Hm)|(Ha & state & reason & Hm & ?)].
  - left. split; [done|]. split; [done|]. exists result, u1, (v ++ u)%list, later, cancellation, reason. rewrite app_assoc.
    split_and!; try done. by apply ran_in_l.
  - right. split; [done|]. exists state, reason. split; [by apply ran_in_l|done].
Qed.

(** C11: A proposal whose rollback returns a record was already rolled back,
    or else went through these steps, in this order.  It was loaded, applied
    by the transaction of its successful report; every file was read with its
    proposed contents, and the Git diff captured then is exactly the verified
    one, at the plan's HEAD; the grant for the user's confirmation of the
    rollback of this transaction was issued, then consumed; then the
    transaction was rolled back.  Its report is a success only when the
    transaction was rolled back, every file was then read with its base
    contents, every Java file was read and parsed, the workspace was then
    observed clean, with the plan's HEAD and digest, and after all of this the
    proposal was marked rolled back; otherwise the proposal is left to be
    rolled back again or marked failed. *)
Theorem rollback_outcomes confirmation cancellation :
  trace_must (rollback_edit_proposal store proposal_id policy options confirmation cancellation)
    (ok_trace (fun r t => r_state r = RolledBack /\ runs (load store proposal_id) (Ok r) t
       \/ exists record apply observed diff grant_id before tx after rollback reparse decisions at_ms errors,
            t = (before ++ tx ++ after)%list
            /\ authorised_rollback confirmation record apply observed diff grant_id cancellation before
            /\ runs (rollback_apply_transaction (or_root observed) (ca_transaction_id apply)) rollback tx
            /\ (is_Some at_ms /\ errors = [] /\ restored record observed rollback reparse after
                \/ at_ms = None /\ not_restored after)
            /\ r_rollback r = Some (rollback_report proposal_id options (ca_transaction_id apply) grant_id reparse decisions
                                      at_ms errors))).
Proof.
  apply runs_trace_must. intros [r|e] t Hr; [|exact I]. simpl. unfold rollback_edit_proposal in Hr.
  unbind Hr as record t0 Hload. case_bool_decide as Hs.
  { left. destruct Hr as [[= <-] ->]. by rewrite app_nil_r. }
  right. unfold roll_back_applied in Hr. unbind Hr as checked t1 Hcheck. destruct checked as [[apply observed] diff].
  apply check_rollback_runs in Hcheck.
  unbind Hr as decisions t2 Happ. unbind Hr as grant t3 Hgrant. apply runs_map_err in Hgrant. unbind Hr as u t4 Hm.
  unbind Hr as consumed t5 Hcons. destruct consumed as [decisions' [[]|e]].
  - unfold require_approval in Happ. unbind Happ as pf t6 Hpf. destruct Happ as [Hd ->].
    destruct (is_require_approval _); [|discriminate Hd]. injection Hd as <-.
    apply authorize_runs in Hcons as [Hp _]. eapply permitted_rollback in Hp as (pf' & u1 & u2 & -> & Hu); [|reflexivity].
    unbind Hr as result t7 Hrun. destruct result as [[reparse at_ms] errors].
    apply run_rollback_runs in Hrun as (tx & after & rollback & -> & Htx & Hout). unbind Hr as v t8 Hpol.
    match type of Hr with runs _ _ ?u => rename u into t9 end.
    exists record, apply, observed, diff, (ag_approval_id grant), (t0 ++ t1 ++ ((t6 ++ []) ++ t3 ++ t4) ++ u1 ++ u2)%list,
      tx, (after ++ t8 ++ t9)%list, rollback, reparse, decisions', at_ms, errors.
    split; [by rewrite <- !app_assoc|]. split; [|split; [exact Htx|split]].
    + exists grant, pf', t0, t1, ((t6 ++ []) ++ t3 ++ t4)%list, u1, u2.
      split_and!; [done|done|exact Hload|exact Hcheck|ran_by Hgrant|exact Hu].
    + by eapply restored_or_not_app.
    + exact (runs_must _ _ _ _ (record_rollback_report _ _ _) Hr).
  - unbind Hr as v t6 Hm'. unbind Hr as w t7 Hp. destruct Hr as [Hr _]. discriminate Hr.
Qed.
End Rollback.
