(* ===== verification/ChatEditFacts.v ===== *)
(** * What the chat edits guarantee

    The chat edits leave the terminal event to the runtime; an application
    or a rollback takes the native confirmation of exactly that operation;
    a plan that is generated modifies attached files only; the schema that
    the model is given offers the operations of the intent and no others;
    and the inventory of the available files is empty. *)

From stdpp Require Import base list strings gmap.
From Stdlib Require Import NArith ZArith Ascii String Sorted Lia.
From S2P Require Import World Transaction TransactionRun TransactionFacts.
From S2P Require Import Prelude Bytes Model UnixPath IO Paths AuditLog Approval Rules Worktree Engine.
From S2P Require Import Observers Trace ReferenceFacts EditPlanFacts EditIntentFacts ProposalFacts.
From S2P Require Import Text Anyhow TextFacts Secrets RagPolicy Reference GitState ProcessRunner DisposableWorktree.
From S2P Require Import EditPlan EditIntent EditRuntime ProposalStore EditGeneration PolicyAdapter EditTransaction EditDiff OfflineBuild EditVerification EditApply.
From S2P Require Import Grounding DocumentFacts Compliance ChatProtocol ChatValidation ChatReferences ChatRuntime ChatFacts ChatEdit Demo EditDemo.

Local Open Scope string_scope.
Local Open Scope N_scope.

(** ** The terminal event *)

Section Quiet.
Context {An : Answers} `{Floats, Delivery}.

Lemma quiet_tell payload : ChatProtocol.is_terminal payload = false -> ChatFacts.quiet any_kind (tell payload).
Proof.
  intros Hp em Hem. unfold tell. eapply must_bind; [by apply emit_silent|]. intros p He. exact He.
Qed.

Lemma quiet_tell_each {A} (payload : A -> ChatProtocolEventPayload) l :
  (forall x, ChatProtocol.is_terminal (payload x) = false) -> ChatFacts.quiet any_kind (tell_each payload l).
Proof.
  intros Hp. induction l as [|x l IH]; cbn [tell_each]; [apply quiet_ret|]. apply quiet_bind; [by apply quiet_tell|]. auto.
Qed.

Lemma quiet_blocking `{JoinErrors} {A} stage (operation : string -> IO (res A)) :
  ChatFacts.quiet any_kind (run_blocking_edit stage operation).
Proof. apply quiet_io. Qed.
End Quiet.

(** [quiet], with the steps of the chat edits. *)
Ltac quiet_edit :=
  repeat first
    [ progress quiet
    | match goal with
      | |- ChatFacts.quiet _ (tell _) => apply quiet_tell; reflexivity
      | |- ChatFacts.quiet _ (tell_each _ _) => apply quiet_tell_each; reflexivity
      | |- ChatFacts.quiet _ (run_blocking_edit _ _) => apply quiet_blocking
      | |- ChatFacts.quiet _ (edit_io _ _ _) => apply quiet_io
      | |- ChatFacts.quiet _ (edit_ret _ _ _) => apply quiet_ret
      end ].

Section Runtime.
Context {An : Answers} `{Floats, Delivery, Blake3, Regex, Unicode, Yaml, Json, XmlParser, ResponseSerde, PromptSerde, StringDebug}.
Context `{WalkDir, ChatTools, LeaseSerde, AuditSerde, ApprovalSerde, EngineSerde, !AssistantRuns}.
Context `{JoinErrors, ReferencesJson, EditPlanSerde, JsonPretty, IntentSerde, StoreSerde, TransactionSerde}.
Context `{WorktreeLeaseSerde, SecondsDisplay, StateJson, GitStateSerde, ContractSerde, JavaSyntax}.

Lemma quiet_diff record : ChatFacts.quiet any_kind (emit_diff record).
Proof. unfold emit_diff. quiet_edit. Qed.
Lemma quiet_approval record operation : ChatFacts.quiet any_kind (emit_approval_required record operation).
Proof. unfold emit_approval_required. quiet_edit. Qed.
Lemma quiet_stages record report : ChatFacts.quiet any_kind (emit_verification_stages record report).
Proof. unfold emit_verification_stages. quiet_edit. Qed.
Lemma quiet_policy_records record offset : ChatFacts.quiet any_kind (emit_policy_records record offset).
Proof. unfold emit_policy_records. quiet_edit. Qed.

Lemma quiet_verify store id request prepared options : ChatFacts.quiet any_kind (verify_and_emit store id request prepared options).
Proof.
  unfold verify_and_emit. pose proof quiet_policy_records. pose proof quiet_stages. pose proof quiet_diff. pose proof quiet_approval.
  quiet_edit.
Qed.

Lemma quiet_run_verify request prepared options : ChatFacts.quiet any_kind (run_verify request prepared options).
Proof. unfold run_verify. pose proof quiet_verify. quiet_edit. Qed.

Lemma quiet_apply request prepared options : ChatFacts.quiet any_kind (run_apply request prepared options).
Proof.
  unfold run_apply, apply_confirmed. pose proof quiet_policy_records. pose proof quiet_diff. pose proof quiet_approval. quiet_edit.
Qed.
Lemma quiet_rollback request prepared options : ChatFacts.quiet any_kind (run_rollback request prepared options).
Proof.
  unfold run_rollback, rollback_confirmed. pose proof quiet_policy_records. pose proof quiet_diff. pose proof quiet_approval. quiet_edit.
Qed.
Lemma quiet_run_diff request prepared options : ChatFacts.quiet any_kind (run_diff request prepared options).
Proof. unfold run_diff, discard_proposal. pose proof quiet_diff. pose proof quiet_approval. quiet_edit. Qed.

Lemma quiet_plan app request expected files intent prompt :
  ChatFacts.quiet any_kind (generate_validated_plan app request expected files intent prompt).
Proof. unfold generate_validated_plan, correct_format. quiet_edit. Qed.

Lemma quiet_observe request prepared options : ChatFacts.quiet any_kind (observe_fix request prepared options).
Proof. unfold observe_fix. quiet_edit. Qed.
Lemma quiet_intent request prepared fx : ChatFacts.quiet any_kind (tell_intent request prepared fx).
Proof. unfold tell_intent. quiet_edit. Qed.
Lemma quiet_prompt request prepared fx intent : ChatFacts.quiet any_kind (fix_prompt request prepared fx intent).
Proof. unfold fix_prompt. quiet_edit. Qed.
Lemma quiet_store store id v intent initial : ChatFacts.quiet any_kind (store_proposal store id v intent initial).
Proof. unfold store_proposal, emit_policy. quiet_edit. Qed.

Lemma quiet_fix app request prepared initial options : ChatFacts.quiet any_kind (run_fix app request prepared initial options).
Proof.
  unfold run_fix, plan_fix. apply quiet_bind; [apply quiet_observe|intros fx]. apply quiet_bind.
  { apply quiet_bind; [apply quiet_intent|intros intent].
    apply quiet_bind; [apply quiet_prompt|intros prompt]. do 2 (apply quiet_bind; [by apply quiet_tell|intros _]).
    apply quiet_bind; [apply quiet_plan|]. intros generated. apply quiet_ret. }
  intros [intent [[v generation] corrected]].
  apply quiet_bind; [destruct corrected; [by apply quiet_tell|apply quiet_ret]|intros _].
  apply quiet_bind; [apply quiet_store|intros record]. apply quiet_bind; [apply quiet_verify|]. intros verified. apply quiet_ret.
Qed.

Lemma chat_edits_are_quiet : quiet_edits run_chat_edit.
Proof.
  intros app request prepared initial options started. unfold run_chat_edit.
  destruct (cq_command request); try apply quiet_ret.
  - apply quiet_bind; [apply quiet_ret|]. intros model. apply quiet_fix.
  - apply quiet_run_verify.
  - apply quiet_run_diff.
  - apply quiet_apply.
  - apply quiet_rollback.
Qed.

(** C8: Whatever the request, the model, the tools, the file system, the
    chat edits and the cancellation do, a chat request that is given an emitter
    ends with exactly one terminal event, its last, of the kind its report
    names; or the call fails without any terminal event, which takes an event
    that the channel did not accept.  The delivered events are numbered in
    ascending order. *)
Theorem one_terminal_event app request id options :
  must (execute_chat_request app request id options) (ok_post (fun p => one_terminal p.1 p.2)).
Proof. apply one_terminal_if_quiet, chat_edits_are_quiet. Qed.
End Runtime.

(** ** Consent *)

(** Calls that only observe, or that create a directory, as opening the
    store of the proposals does. *)
Definition preparatory {R} (c : syscall R) : bool :=
  observes c || match c with CreateDir _ | CreateDirAll _ => true | _ => false end.
Definition prepares (e : event) : Prop := match e with Ev c _ => preparatory c = true end.
Definition preparing {A} (m : IO A) : Prop := calls (fun _ c => preparatory c = true) m.
Definition chat_preparing `{Floats} {A} (m : chat A) : Prop := forall em, preparing (m em).

Lemma observer_preparing {A} (m : IO A) : observer m -> preparing m.
Proof. intros [Hm _]. eapply calls_mono; [|exact Hm]. intros R c Hc. unfold preparatory. by rewrite Hc. Qed.

Lemma preparing_trace {An : Answers} {A} (m : IO A) : preparing m -> trace_must m (fun _ t => Forall prepares t).
Proof.
  induction m as [a|s|R c k IH]; simpl; [constructor|done|]. intros [Hc Hk].
  apply trace_must_call. intros r. eapply trace_must_mono; [apply IH, Hk|].
  intros a t Ht. by constructor.
Qed.

Create HintDb preparing.
#[export] Hint Resolve load_observer latest_observer find_observer observer_preparing calls_bind calls_try calls_map_err : preparing.

(** Follows the structure of a program, as [observe] does. *)
Ltac prepare :=
  repeat first
    [ solve [auto with preparing nocore]
    | apply calls_try; [|intros ?]
    | apply calls_bind; [|intros ?]
    | apply calls_map_err
    | split; [reflexivity|intros ?]
    | match goal with
      | |- preparing (Ret _) => exact I
      | |- calls _ (Ret _) => exact I
      | |- preparing (lift _) => exact I
      | |- calls _ (lift _) => exact I
      | |- preparing (match ?x with _ => _ end) => destruct x
      | |- calls _ (match ?x with _ => _ end) => destruct x
      end ].

Section Opening.
Context `{Floats, Blake3, IntentSerde, StoreSerde}.

Lemma real_directory_prepares path : preparing (ensure_real_directory path).
Proof. unfold ensure_real_directory, preparing. prepare. Qed.

Lemma child_directory_prepares parent_ name : preparing (ensure_child_directory parent_ name).
Proof. unfold ensure_child_directory, preparing. cbv zeta. pose proof real_directory_prepares. prepare. Qed.

Lemma store_open_prepares root hash : preparing (ProposalStore_open root hash).
Proof.
  unfold ProposalStore_open, preparing. pose proof real_directory_prepares. pose proof child_directory_prepares. prepare.
Qed.

Lemma proposal_store_prepares options hash : preparing (proposal_store options hash).
Proof.
  unfold proposal_store, ProposalStore_default_store, default_state_root. pose proof store_open_prepares.
  destruct (co_proposal_state_root options); unfold preparing in *; prepare.
Qed.

Lemma requested_prepares store request preferred : preparing (requested_proposal store request preferred).
Proof. apply observer_preparing. unfold requested_proposal, latest_proposal. pose proof load_observer. pose proof find_observer. pose proof latest_observer. observe. Qed.

Lemma resolve_prepares request prepared options preferred : preparing (resolve_proposal request prepared options preferred).
Proof.
  unfold resolve_proposal, preparing, canonical_root_hash, canonical_real_directory. pose proof proposal_store_prepares. pose proof requested_prepares.
  unfold preparing in *. prepare.
Qed.
End Opening.

Section Telling.
Context `{Floats, Delivery, Blake3}.

Lemma io_prepares {A} (m : IO (run A)) : preparing m -> chat_preparing (chat_io m).
Proof. intros Hm em. by apply calls_bind. Qed.

Lemma chat_bind_prepares {A B} (m : chat A) (k : A -> chat B) :
  chat_preparing m -> (forall a, chat_preparing (k a)) -> chat_preparing (chat_bind m k).
Proof. intros Hm Hk em. apply calls_bind; [apply Hm|]. intros [em' [a|e]]; [apply Hk|exact I]. Qed.

Lemma emit_prepares payload em : preparing (emit payload em).
Proof.
  unfold emit. destruct (validate_bounds payload); [|exact I]. destruct (em_terminal em); [exact I|].
  unfold elapsed_ms. split; [reflexivity|]. intros now. exact I.
Qed.

Lemma tell_prepares payload : chat_preparing (tell payload).
Proof. intros em. apply calls_bind; [apply emit_prepares|]. intros p. exact I. Qed.

Lemma emit_text_prepares text : chat_preparing (emit_text text).
Proof.
  unfold emit_text. generalize (String.length text) as fuel. intros fuel. revert text.
  induction fuel as [|fuel IH]; intros text; cbn [emit_chunks]; (destruct (is_empty text); [intros em; exact I|]); [intros em; exact I|].
  cbv zeta. destruct (_ =? 0)%nat; [intros em; exact I|]. apply chat_bind_prepares; [|intros _; apply IH].
  intros em. apply calls_bind; [apply emit_prepares|]. intros p. exact I.
Qed.

Lemma ret_prepares {A} (r : run A) : chat_preparing (chat_ret r).
Proof. intros em. exact I. Qed.

Lemma edit_ret_prepares {A} stage summary (r : res A) : chat_preparing (edit_ret stage summary r).
Proof. intros em. exact I. Qed.

Lemma approval_id_prepares record operation : preparing (approval_request_id record operation).
Proof.
  apply calls_try; [exact I|]. intros binding. cbv zeta. apply calls_bind; [|intros short; exact I].
  unfold slice_until, IO.slice. destruct (_ && _); exact I.
Qed.

Lemma diff_prepares record : chat_preparing (emit_diff record).
Proof. unfold emit_diff. do 2 (apply chat_bind_prepares; [apply edit_ret_prepares|intros ?]). apply tell_prepares. Qed.

Lemma approval_prepares record operation : chat_preparing (emit_approval_required record operation).
Proof.
  unfold emit_approval_required. apply chat_bind_prepares; [apply edit_ret_prepares|intros diff]. cbv zeta.
  apply chat_bind_prepares; [|intros id; apply tell_prepares]. apply io_prepares, calls_map_err, approval_id_prepares.
Qed.

(** ** What an application or a rollback starts with *)

(** What a confirmation must name: the operation, the proposal, and the
    verified patch or the transaction. *)
Definition confirmation_of (operation : string) (record : ProposalRecord) (id : string) : Prop :=
  exists binding, confirmation_binding record operation = Ok binding
  /\ id = operation ++ "-confirmation-" ++ take_bytes 32 (blake3_hex
       ("chat-edit-confirmation-v1" ++ nul ++ operation ++ nul ++ r_proposal_id record ++ nul ++ binding)).

(** The native confirmation of an operation on a proposal by the editor *)
Definition consent (operation : string) (request : ChatRequest) (record : ProposalRecord) : Prop :=
  exists confirmation, native_confirmation request = Some confirmation
  /\ cm_name (cq_client request) = "opticcode-vscode"
  /\ ChatProtocol.nc_client confirmation = "opticcode-vscode"
  /\ confirmation_of operation record (nc_approval_request_id confirmation).

(** The proposal is of the workspace of the request, and of the transaction
    that the request names. *)
Definition belongs (request : ChatRequest) (record : ProposalRecord) : Prop :=
  r_workspace_id record = cq_workspace_id request
  /\ (forall transaction_id, explicit_transaction request = Some transaction_id ->
        option_map ca_transaction_id (r_apply record) = Some transaction_id).

Lemma approval_id_must {An : Answers} record operation :
  must (approval_request_id record operation) (ok_post (confirmation_of operation record)).
Proof.
  unfold approval_request_id. apply must_ret_try. intros binding Hb. cbv zeta.
  unfold slice_until, IO.slice. destruct (_ && _); [|exact I]. cbn [bind must ok_post].
  exists binding. split; [done|]. by rewrite N.sub_0_r.
Qed.

Lemma check_proposal_ok request root_hash record u :
  check_proposal request root_hash record = Ok u -> belongs request record.
Proof.
  unfold check_proposal. destruct (String.eqb_spec (r_workspace_id record) (cq_workspace_id request)) as [Hw|]; [|done].
  cbn [negb orb]. destruct (negb _); [done|]. intros Hc. split; [done|]. intros id Hid. rewrite Hid in Hc.
  case_bool_decide as Ht; [done|discriminate Hc].
Qed.

Lemma resolve_must `{IntentSerde, StoreSerde} {An : Answers} request prepared options preferred :
  must (resolve_proposal request prepared options preferred) (ok_post (fun p => belongs request p.2)).
Proof.
  unfold resolve_proposal. do 3 (apply must_try_ok with (P := fun _ => True); [by apply must_true; intros []|intros ? _]).
  apply must_ret_try. intros u Hu. by eapply check_proposal_ok.
Qed.

Lemma accept_ok request confirmation expected summary native operation record :
  native_confirmation request = Some confirmation -> confirmation_of operation record expected ->
  accept_confirmation request confirmation expected summary = Ok native -> consent operation request record.
Proof.
  intros Hn He Ha. unfold accept_confirmation in Ha. apply rbind_ok in Ha as (u & Hv & _).
  unfold validate_native_confirmation in Hv. destruct (_ || _) eqn:E; [done|]. split_bools.
  repeat match goal with H : (_ =? _)%string = true |- _ => apply String.eqb_eq in H end.
  exists confirmation. split_and!; [done|done|congruence|]. by match goal with H : nc_approval_request_id _ = _ |- _ => rewrite H end.
Qed.

(** A whole call that only prepares; or one that prepared until something
    was established of its trace. *)
Definition guarded (G : list event -> Prop) (t : list event) : Prop :=
  Forall prepares t \/ exists before after, t = (before ++ after)%list /\ Forall prepares before /\ G before.

Lemma prepared_guarded {An : Answers} {A} (m : chat A) G t em :
  chat_preparing m -> Forall prepares t -> trace_must (m em) (fun _ u => guarded G (t ++ u)%list).
Proof.
  intros Hm Ht. eapply trace_must_mono; [apply preparing_trace, Hm|]. intros p u Hu. left. by apply Forall_app.
Qed.

(** The next step prepares, and establishes [P] of its result and its run. *)
Lemma guarded_step {An : Answers} {A B} (m : IO (run A)) (k : A -> chat B) (G : list event -> Prop) (P : A -> Prop) t em :
  preparing m -> Forall prepares t -> must m (ok_post P) ->
  (forall a u em', Forall prepares (t ++ u)%list -> P a -> runs m (Ok a) u ->
     trace_must (k a em') (fun _ v => guarded G ((t ++ u) ++ v)%list)) ->
  trace_must (chat_bind (chat_io m) k em) (fun _ u => guarded G (t ++ u)%list).
Proof.
  intros Hm Ht HP Hk. apply runs_trace_must. intros p u Hr. unfold chat_bind, chat_io in Hr.
  apply runs_bind in Hr as ([em' r] & u1 & u2 & Hfirst & Hrest & ->). apply runs_bind in Hfirst as (r' & v1 & v2 & Hrun & [[= <- <-] ->] & ->).
  rewrite app_nil_r. pose proof (runs_trace _ _ _ _ (preparing_trace _ Hm) Hrun) as Hv. simpl in Hv.
  pose proof (runs_must _ _ _ _ HP Hrun) as Hpost.
  assert (Forall prepares (t ++ v1)%list) as Hall by by apply Forall_app.
  destruct r' as [a|e].
  - rewrite app_assoc. exact (runs_trace _ _ _ _ (Hk a v1 em Hall Hpost Hrun) Hrest).
  - destruct Hrest as [_ ->]. rewrite app_nil_r. by left.
Qed.

Lemma guarded_done {An : Answers} {A} (m : IO A) (G : list event -> Prop) t :
  Forall prepares t -> G t -> trace_must m (fun _ u => guarded G (t ++ u)%list).
Proof. intros Ht Hg. apply runs_trace_must. intros p u _. right. by exists t, u. Qed.
End Telling.

Section Consent.
Context {An : Answers} `{Floats, Delivery, Blake3, Regex, Unicode, JoinErrors, ReferencesJson, EditPlanSerde, JsonPretty, WalkDir}.
Context `{IntentSerde, StoreSerde, TransactionSerde, LeaseSerde, AuditSerde, ApprovalSerde, EngineSerde}.
Context `{WorktreeLeaseSerde, SecondsDisplay, StringDebug, StateJson, GitStateSerde, ContractSerde, JavaSyntax}.
Context (request : ChatRequest) (prepared : PreparedRequest) (options : ChatRuntimeOptions).

(** A proposal that can be reviewed, from [ensure_reviewable] *)
Definition reviewable (record : ProposalRecord) : Prop :=
  is_Some (r_verified_diff record) /\ is_Some (r_verification record)
  /\ r_state record <> Expired /\ r_state record <> Discarded /\ r_state record <> EditPlan.Failed
  /\ exists now, answers SystemTimeMillis now /\ expired record now = false.

Lemma reviewable_must record : must (ensure_reviewable record) (ok_post (fun _ => reviewable record)).
Proof.
  unfold ensure_reviewable. intros now Hnow. cbn [bind must]. destruct (_ || _) eqn:E; [exact I|].
  apply orb_false_iff in E as [E Hv]. apply orb_false_iff in E as [E Hd]. apply orb_false_iff in E as [He Hs].
  apply negb_false_iff in Hv, Hd. unfold reviewable. simpl.
  destruct (r_verified_diff record), (r_verification record); try done.
  split_and!; [by eexists|by eexists| | | |by exists now]; intros Hst; by rewrite Hst in Hs.
Qed.

(** The proposal that was resolved, and the consent to the operation on it *)
Definition consented (operation : string) (preferred : bool) (extra : ProposalRecord -> Prop) (before : list event) : Prop :=
  exists store record, ran_in (resolve_proposal request prepared options preferred) (Ok (store, record)) before
  /\ belongs request record /\ extra record /\ consent operation request record.

Lemma apply_guarded em :
  trace_must (run_apply request prepared options em) (fun _ t => guarded (consented "apply" false reviewable) t).
Proof.
  unfold run_apply.
  apply (guarded_step _ _ _ (fun p => belongs request p.2) [] em); [apply resolve_prepares|constructor|apply resolve_must|].
  intros [store record] t em1 Ht Hb Hrun. cbn [snd app] in *.
  apply (guarded_step _ _ _ (fun _ => reviewable record)); [by split|done|apply reviewable_must|]. clear em em1.
  intros u t1 em Ht1 Hrev _.
  apply (guarded_step _ _ _ (confirmation_of "apply" record)); [apply calls_map_err, approval_id_prepares|done|apply must_map_err, approval_id_must|].
  intros expected t2 em1 Ht2 Hid _. destruct (native_confirmation request) as [confirmation|] eqn:Hn.
  - unfold chat_bind, chat_ret. cbn [bind]. destruct (accept_confirmation _ _ _ _) as [native|e] eqn:Ha.
    + apply guarded_done; [done|]. exists store, record. split; [|by split_and!; [..|eapply accept_ok]].
      apply ran_in_l, ran_in_l. by apply ran_in_all.
    + unfold guarded. left. by rewrite app_nil_r.
  - apply prepared_guarded; [|done]. do 3 (apply chat_bind_prepares; [first [apply diff_prepares|apply approval_prepares|apply emit_text_prepares]|intros _]).
    apply ret_prepares.
Qed.

Lemma rollback_guarded em :
  trace_must (run_rollback request prepared options em)
    (fun _ t => guarded (consented "rollback" true (fun record => is_Some (r_apply record))) t).
Proof.
  unfold run_rollback.
  apply (guarded_step _ _ _ (fun p => belongs request p.2) [] em); [apply resolve_prepares|constructor|apply resolve_must|].
  intros [store record] t em1 Ht Hb Hrun. cbn [snd app] in *. clear em.
  unfold chat_bind at 1, edit_ret, chat_ret at 1. cbn [bind].
  destruct (r_apply record) as [report|] eqn:Happ; [|left; by rewrite app_nil_r].
  cbn [option_map context ok_or map_err].
  apply (guarded_step _ _ _ (confirmation_of "rollback" record)); [apply calls_map_err, approval_id_prepares|done|apply must_map_err, approval_id_must|].
  intros expected t2 em Ht2 Hid _. destruct (native_confirmation request) as [confirmation|] eqn:Hn.
  - unfold chat_bind, chat_ret. cbn [bind]. destruct (accept_confirmation _ _ _ _) as [native|e] eqn:Ha.
    + apply guarded_done; [done|]. exists store, record. split; [apply ran_in_l; by apply ran_in_all|].
      split; [done|]. split; [by rewrite Happ|by eapply accept_ok].
    + unfold guarded. left. by rewrite app_nil_r.
  - apply prepared_guarded; [|done]. do 2 (apply chat_bind_prepares; [first [apply approval_prepares|apply emit_text_prepares]|intros _]).
    apply ret_prepares.
Qed.

(** C9: Nothing is applied or rolled back without consent.  Whatever the
    system answers, the apply command only observes and creates directories,
    unless it resolved a proposal of the request's workspace (and of the
    transaction the request names), found it verified and neither expired,
    discarded nor failed, and the request came from the editor's extension
    with a native confirmation whose identifier is the digest of the
    operation, the proposal and its verified patch.  Only then does it make
    another call.  The rollback command likewise, for a proposal that was
    applied and the digest of its transaction. *)
Theorem edits_need_consent app initial started em :
  trace_must (run_chat_edit app request prepared initial options started em) (fun _ t =>
    match cq_command request with
    | Apply => guarded (consented "apply" false reviewable) t
    | Rollback => guarded (consented "rollback" true (fun record => is_Some (r_apply record))) t
    | _ => True
    end).
Proof.
  unfold run_chat_edit. destruct (cq_command request); try (by apply trace_must_of, must_true).
  - apply apply_guarded.
  - apply rollback_guarded.
Qed.
End Consent.

(** ** The plan that is generated *)

Section Plan.
Context {An : Answers} `{Floats, Delivery, Blake3, Regex, Unicode, StringDebug}.
Context `{ReferencesJson, EditPlanSerde, JsonPretty, IntentSerde}.

(** A file of the workspace that the runtime read, for a reference of the
    user *)
Definition attached (references : list ChatResolvedReference) (files : list TrustedEditFile) (path hash : string) : Prop :=
  (exists file, file ∈ files /\ tf_path file = path /\ tf_content_hash file = hash)
  /\ exists reference, reference ∈ references /\ rr_path reference = Some path.

Definition attached_target references files (target : EditIntentTarget) : Prop :=
  match target with
  | ExistingFile path hash _ UserReference => attached references files path hash
  | _ => False
  end.

Lemma reference_ids_found references path : reference_ids_of references path <> [] ->
  exists reference, reference ∈ references /\ rr_path reference = Some path.
Proof.
  unfold reference_ids_of. intros Hne.
  destruct (List.filter (fun r => bool_decide (rr_path r = Some path)) references) as [|r l] eqn:E; [done|].
  exists r. assert (In r (r :: l)) as Hin by by left. rewrite <- E in Hin.
  apply filter_In in Hin as [Hin Hp]. by rewrite list_elem_of_In, bool_decide_eq_true in *.
Qed.

Lemma attached_mono references file files path hash :
  attached references files path hash -> attached references (file :: files) path hash.
Proof. intros [(f & Hf & ? & ?) Hr]. split; [|done]. exists f. by rewrite elem_of_cons; auto. Qed.

Lemma intent_targets_attached references files targets : intent_targets references files = Ok targets ->
  Forall (attached_target references files) (map snd targets).
Proof.
  revert targets. induction files as [|file files IH]; intros targets E; [by injection E as <-|].
  cbn [intent_targets] in E. chain E. injection E as <-. cbn [map snd]. constructor.
  - split; [exists file; by rewrite elem_of_cons; auto|]. apply reference_ids_found. intros Hn. by rewrite Hn in E0.
  - eapply Forall_impl; [by apply IH|]. intros [path hash ids []|]; try done. apply attached_mono.
Qed.

Lemma built_intent_attached prompt expected files references intent_id intent :
  build_runtime_edit_intent prompt expected files references intent_id = Ok intent ->
  Forall (attached_target references files) (i_targets (vi_intent intent)).
Proof.
  unfold build_runtime_edit_intent. intros E. chain E. apply map_err_ok, validate_edit_intent_ok in E.
  destruct E as (_ & _ & _ & _ & _ & _ & _ & _ & -> & _). apply intent_targets_attached in E1.
  cbn [canonicalize_intent i_targets runtime_intent]. rewrite canonical_targets_perm, Forall_map.
  eapply Forall_impl; [exact E1|]. by intros [].
Qed.

Definition plan_authorized (intent : ValidatedEditIntent) (plan : ValidatedEditPlan) : Prop :=
  let i := vi_intent intent in
  EditIntentFacts.authorized plan (i_request_id i) (i_workspace_id i) (i_workspace_root_hash i) (i_base_head i)
    (i_working_tree_digest i) (i_targets i) (i_constraints i).

Lemma bound_plan_authorized plan intent u : validate_plan_intent_binding plan intent = Ok u -> plan_authorized intent plan.
Proof.
  unfold validate_plan_intent_binding, validate_edit_plan_against_intent. intros E%map_err_ok. do 2 (apply rbind_ok in E as (? & _ & E)). by eapply authority_ok.
Qed.

Lemma generated_authorized app request expected files intent prompt :
  yields (generate_validated_plan app request expected files intent prompt) (fun g => plan_authorized intent g.1.1).
Proof.
  assert (forall v generation corrected,
    yields (chat_ret (validate_plan_intent_binding v intent) ;;: chat_ret (Ok (v, generation, corrected)))
      (fun g : ValidatedEditPlan * GenerationResult * bool => plan_authorized intent g.1.1)) as Hlast.
  { intros v generation corrected. eapply (yields_bind _ _ (fun _ => plan_authorized intent v)).
    - apply yields_ret. intros u. apply bound_plan_authorized.
    - intros _ Hv. by apply yields_ret; intros g [= <-]. }
  unfold generate_validated_plan. do 3 (apply yields_then; intros ?). apply yields_then. intros [v|e]; [apply Hlast|].
  destruct (format_correctable e); [|by apply yields_ret].
  unfold correct_format. do 4 (apply yields_then; intros ?). apply Hlast.
Qed.

(** A snapshot of an attached file that is to be modified *)
Definition modifies_attached references files (snapshot : ProposalFileSnapshot) : Prop :=
  f_status snapshot = Modified
  /\ exists hash, f_base_hash snapshot = Some hash /\ attached references files (f_path snapshot) hash.

Lemma authorized_attached references files intent plan :
  Forall (attached_target references files) (i_targets (vi_intent intent)) -> plan_authorized intent plan ->
  Forall (modifies_attached references files) (v_files plan).
Proof.
  intros Ht (_ & _ & _ & Hs). eapply Forall_impl; [exact Hs|]. intros f (t & Hin & Hp & Hf).
  rewrite Forall_forall in Ht. apply Ht in Hin. unfold modifies_attached.
  destruct t as [path hash ids []|]; try done. cbn [EditIntent.target_path] in Hp. subst path. destruct (f_status f); [|done].
  split; [done|]. by exists hash.
Qed.

(** C14: A fix modifies files that the user attached, and nothing else.
    Whatever the model answers, and whether or not its first answer had to be
    corrected, the plan that the fix goes on to store creates no file, and
    every file it modifies is the path of a resolved reference of the request
    which the runtime read, at the content hash that the runtime computed. *)
Theorem fix_modifies_attached app request prepared fx :
  yields (plan_fix app request prepared fx) (fun planned =>
    Forall (modifies_attached (pp_references prepared) (fx_trusted fx)) (v_files planned.2.1.1)).
Proof.
  unfold plan_fix.
  eapply (yields_bind _ _ (fun intent => Forall (attached_target (pp_references prepared) (fx_trusted fx)) (i_targets (vi_intent intent)))).
  { unfold tell_intent. apply yields_then. intros _. eapply yields_bind.
    { apply yields_ret. intros intent Hi%map_err_ok. exact (built_intent_attached _ _ _ _ _ _ Hi). }
    intros intent Hi. apply yields_then. intros _. by apply yields_ret; intros ? [= <-]. }
  intros intent Hi. do 3 (apply yields_then; intros ?). eapply yields_bind; [apply generated_authorized|].
  intros generated Hg. apply yields_ret. intros planned [= <-]. by eapply authorized_attached.
Qed.
End Plan.

(** ** The schema of the answer *)

Section Schema.
Context `{Blake3, IntentSerde}.

(** The fields of an operation's schema that are fixed *)
Definition fixed (schema : Value) (name value : string) : Prop := value_at ["properties"; name] schema = Some (const (VString value)).

(** What the schema of one operation fixes for a target *)
Definition offers (target : EditIntentTarget) (schema : Value) : Prop :=
  value_at ["additionalProperties"] schema = Some (VBool false)
  /\ match target with
     | ExistingFile path hash _ _ => fixed schema "type" "modify" /\ fixed schema "path" path /\ fixed schema "expected_file_hash" hash
     | ProspectiveFile path extension _ _ => fixed schema "type" "create" /\ fixed schema "path" path /\ fixed schema "extension" extension
     end.

Lemma target_schema_offers operations files target schema : target_schema operations files target = Ok schema -> offers target schema.
Proof.
  unfold target_schema. destruct target as [path hash ids prov|path ext ids prov].
  - case_bool_decide; [done|]. destruct (find _ files) as [file|] eqn:Ef; [|done].
    apply find_some in Ef as [_ Hp%String.eqb_eq]. destruct (String.eqb_spec (tf_content_hash file) hash) as [Hh|]; [|done].
    intros [= <-]. rewrite <- Hp, <- Hh. by repeat split.
  - case_bool_decide; [done|]. intros [= <-]. by repeat split.
Qed.

Lemma target_schemas_offer operations files targets schemas :
  target_schemas operations files targets = Ok schemas -> Forall2 offers targets schemas.
Proof.
  revert schemas. induction targets as [|t targets IH]; cbn [target_schemas]; intros schemas E; [by injection E as <-|].
  chain E. injection E as <-. constructor; [by eapply target_schema_offers|by apply IH].
Qed.

(** The identities of an intent that the plan must repeat *)
Definition fixed_identities (i : EditIntent) : list (string * string) := [
  ("request_id", i_request_id i); ("workspace_id", i_workspace_id i); ("workspace_root_hash", i_workspace_root_hash i);
  ("base_head", i_base_head i); ("working_tree_digest", i_working_tree_digest i)].

Lemma generation_bound expected intent u : validate_generation_intent_binding expected intent = Ok u ->
  Forall (fun '(_, actual, trusted) => actual = trusted) (bound_identities expected (vi_intent intent)).
Proof.
  unfold validate_generation_intent_binding. intros E. do 2 (apply rbind_ok in E as (? & _ & E)). apply check_each_ok in E.
  eapply Forall_impl; [exact E|]. intros [[name actual] trusted] Hn. by destruct (String.eqb_spec actual trusted).
Qed.

(** C34: The schema that constrains the answer of the model offers the targets
    of the validated intent and nothing else: one operation for each target,
    in order, whose kind, path and content hash (or extension) are fixed to
    those of the target and which takes no other field; the limits are those
    of the intent's constraints, and the request, the workspace, the commit
    and the working tree are fixed to the intent's. *)
Theorem schema_offers_targets expected files intent schema :
  edit_plan_output_schema_for_intent expected files intent = Ok schema ->
  (exists operations, value_at OPERATIONS_PATH schema = Some (VArray operations)
    /\ operations <> [] /\ Forall2 offers (i_targets (vi_intent intent)) operations)
  /\ value_at LIMITS_PATH schema = Some (const (limits_value (k_limits (i_constraints (vi_intent intent)))))
  /\ Forall (fun '(name, value) => fixed schema name value) (fixed_identities (vi_intent intent)).
Proof.
  unfold edit_plan_output_schema_for_intent. cbv zeta. intros E. apply rbind_ok in E as (u & Hb & E).
  apply rbind_ok in E as (variants & Hv & E). apply generation_bound in Hb. apply target_schemas_offer in Hv.
  destruct variants as [|v vs]; [done|]. injection E as <-.
  unfold fixed_identities. unfold bound_identities in Hb. rewrite !Forall_cons in Hb. destruct Hb as (<- & <- & <- & <- & <- & _).
  split_and!; [by exists (v :: vs)|reflexivity|]. repeat constructor.
Qed.
End Schema.

(** The trusted files of the intent of EditDemo.v *)
Definition schema_files : list TrustedEditFile := map (fun path =>
  {| tf_path := path; tf_content_hash := demo_hash; tf_bytes := strlen demo_text; tf_line_ending := Lf;
     tf_line_anchors := trusted_line_anchors demo_text |}) ["b.txt"; "notes.txt"].
Definition demo_schema : Value :=
  ok_or_default VNull (edit_plan_output_schema_for_intent edit_world_expectations schema_files demo_validated).

Lemma demo_schema_made : edit_plan_output_schema_for_intent edit_world_expectations schema_files demo_validated = Ok demo_schema.
Proof. vm_compute. reflexivity. Qed.

Lemma schema_offers_targets_witness :
  exists operations, value_at OPERATIONS_PATH demo_schema = Some (VArray operations)
    /\ operations <> [] /\ Forall2 offers (i_targets (vi_intent demo_validated)) operations.
Proof. exact (proj1 (schema_offers_targets edit_world_expectations schema_files demo_validated demo_schema demo_schema_made)). Defined.

(** ** The inventory of the available files *)

Definition free (s : string) : Prop := any_byte (Ascii.eqb slash) s = false.
(** A list of segments that does not start with a skipped one *)
Definition starts_plain (l : list string) : Prop := match l with s :: _ => skipped s = false /\ free s | [] => True end.

Lemma drop_components_plain k l : Forall free l -> starts_plain (drop_components k l).
Proof.
  intros Hl. revert k. induction Hl as [|s l Hs Hl IH]; intros k; [done|]. cbn [drop_components].
  destruct (skipped s) eqn:E; [apply IH|]. destruct k as [|k]; [by split|apply IH].
Qed.

Lemma joined_relative l : starts_plain l -> is_absolute (join_with "/" (trim_segments l)) = false.
Proof.
  unfold trim_segments. destruct l as [|s l]; [done|]. intros [Hs Hf]. cbn [rev].
  destruct (drop_while_snoc skipped (rev l) s Hs) as [m ->]. rewrite rev_app_distr. cbn [rev app].
  assert (forall t, is_absolute (s ++ t) = false) as Hab.
  { intros t. destruct s as [|c s]; [done|]. unfold free in Hf. cbn [any_byte] in Hf. apply orb_false_iff in Hf as [Hc _].
    rewrite append_cons. simpl. rewrite Ascii.eqb_sym. exact Hc. }
  destruct (rev m) as [|n k]; [rewrite <- (append_empty s) at 1; apply Hab|apply Hab].
Qed.

Lemma strip_prefix_relative p base q : is_absolute base = true -> strip_prefix p base = Some q -> is_absolute q = false.
Proof.
  intros Hb. unfold strip_prefix. destruct (path_starts_with p base); [|done]. unfold components at 1. rewrite Hb. cbn [app List.length].
  intros [= <-]. apply joined_relative, drop_components_plain, body_segments_free.
Qed.

Lemma strip_prefix_none p base : is_absolute p = false -> is_absolute base = true -> strip_prefix p base = None.
Proof.
  intros Hp Hb. unfold strip_prefix, path_starts_with. case_bool_decide as E; [|done]. exfalso.
  apply (TransactionFacts.not_root_dir p Hp).
  assert (RootDir ∈ components base) as Hroot by (unfold components; rewrite Hb; apply list_elem_of_here).
  rewrite <- E in Hroot. rewrite <- (take_drop (List.length (components base)) (components p)).
  apply elem_of_app. by left.
Qed.

Lemma to_relative_relative root path :
  is_absolute root = true -> path_starts_with path root = true -> is_absolute (to_relative root path) = false.
Proof.
  intros Hr Hs. unfold to_relative. destruct (strip_prefix path root) as [q|] eqn:E; [by eapply strip_prefix_relative|].
  unfold strip_prefix in E. rewrite Hs in E. by destruct (List.length (components root)).
Qed.

Lemma counted_relative root entries report :
  is_absolute root = true ->
  Forall (fun entry => path_starts_with (we_path entry) root = true) entries ->
  Forall (fun path => is_absolute path = false) (wr_sampled_files report) ->
  Forall (fun path => is_absolute path = false) (wr_sampled_files (foldl (count_file root) report entries)).
Proof.
  intros Hr He. revert report. induction He as [|entry entries Hs He IH]; intros report Hf; [done|].
  cbn [foldl]. apply IH. unfold count_file. cbn [wr_sampled_files]. destruct (_ <? _); [|done].
  apply Forall_app. split; [done|]. constructor; [by apply to_relative_relative|constructor].
Qed.

Section Inventory.
Context {An : Answers} {walk : WalkDir}.
Context (canonical_absolute : forall p q, answers (Canonicalize p) (Ok q) -> is_absolute q = true).
Context (walk_below : forall f root, is_absolute root = true ->
  must (walk_dir f root) (Forall (fun entry => path_starts_with (we_path entry) root = true))).

Lemma inspection_relative root :
  must (inspect_workspace root) (ok_post (fun report => Forall (fun path => is_absolute path = false) (wr_sampled_files report))).
Proof.
  unfold inspect_workspace. eapply must_try_ok.
  { intros [q|e] Hq; [exact (canonical_absolute root q Hq)|exact I]. }
  intros q Hq.
  do 4 (eapply must_bind with (P := fun _ => True); [by apply must_true|intros ? _]).
  eapply must_bind; [by apply walk_below|]. intros entries He. cbn [must ok_post].
  apply counted_relative; [done| |constructor]. eapply List.incl_Forall; [apply List.incl_filter|exact He].
Qed.

(** C39: The inventory of the available files is always empty.  The chat edit
    strips the root of the workspace off the sampled files, which the
    inspection already made relative to that root: no relative path starts
    with an absolute root, every file is filtered out, and the model is never
    told which files of the project it could ask for. *)
Theorem available_files_missing root :
  is_absolute root = true ->
  must (available_edit_files root) (ok_post (fun files => files = [])).
Proof.
  intros Hr. unfold available_edit_files. eapply must_try_ok; [apply inspection_relative|].
  intros report Hf. cbn [must ok_post].
  assert (omap (available_path root) (wr_sampled_files report) = []) as ->; [|done].
  induction Hf as [|path paths Hp _ IH]; [done|]. cbn. unfold available_path at 1.
  rewrite strip_prefix_none by done. exact IH.
Qed.
End Inventory.

(** A workspace of one file *)
Definition one_file : WalkDir := fun keep root =>
  Ret (if String.eqb root "/repo" then [{| we_path := "/repo/A.java"; we_depth := 1; we_is_file := true |}] else []).
Definition at_repo : Answers := fun R (c : syscall R) =>
  match c in syscall R return R -> Prop with Canonicalize _ => fun r => r = Ok "/repo" | _ => fun _ => True end.

Lemma available_files_missing_witness :
  @must at_repo _ (@available_edit_files one_file "/repo") (ok_post (fun files => files = [])).
Proof.
  refine (@available_files_missing at_repo one_file _ _ "/repo" eq_refl).
  - intros p q Hq. simpl in Hq. by injection Hq as ->.
  - intros f root _. unfold one_file, walk_dir. simpl. destruct (String.eqb_spec root "/repo") as [->|]; repeat constructor.
Defined.
