(* ===== verification/VerificationFacts.v ===== *)
(** * The verification of a proposal: its theorem

    What a proposal that is recorded as verified has gone through, in a
    disposable worktree, and that the source was left as it was. *)

From stdpp Require Import base list strings.
From Stdlib Require Import NArith Ascii String Lia.
From S2P Require Import Transaction TransactionRun.
From S2P Require Import Prelude Bytes UnixPath IO World Model Paths AuditLog Approval Rules Worktree Actions Engine EngineProperties.
From S2P Require Import Trace Anyhow Text GitState ProcessRunner DisposableWorktree EditPlan EditIntent EditRuntime ProposalStore.
From S2P Require Import PolicyAdapter EditTransaction EditDiff OfflineBuild EditVerification EditApply ProcessFacts ProposalFacts.
From S2P Require Import WorktreeFacts EditFlowFacts.

Local Open Scope string_scope.
Local Open Scope N_scope.

(** ** The offline build *)

Section Build.
Context {An : Answers} `{Blake3, SecondsDisplay}.

(** The build is that of an installed Maven or Gradle, told to stay offline. *)
Definition offline_invocation (invocation : OfflineBuildInvocation) (validations : list EditValidationKind) : Prop :=
  bi_launch invocation = Model.Direct
  /\ (bi_tool invocation = "maven" /\ bi_arguments invocation = maven_arguments (bool_decide (TestOffline ∈ validations))
      \/ bi_tool invocation = "gradle" /\ bi_arguments invocation = ["--offline"; "build"]).

(** The process of the build succeeded with its output read whole, and no
    tracked file changed between the observations around it. *)
Definition built (root : string) (invocation : OfflineBuildInvocation) (options : EditRuntimeOptions) (t : list event) : Prop :=
  exists before request cancellation result after guard,
    ran_in (capture_git_state root) (Ok before) t
    /\ pq_program request = bi_executable invocation /\ pq_args request = bi_arguments invocation
    /\ pq_working_directory request = root /\ pq_timeout request = o_build_timeout options
    /\ ran_in (run_process_with_cancellation request cancellation) (Ok result) t
    /\ success result = true /\ os_output_truncated (pr_output result) = false
    /\ ran_in (capture_git_state root) (Ok after) t
    /\ from_snapshots before after true = Ok guard /\ strict_violation guard = false.

Lemma built_before root invocation options t u : built root invocation options t -> built root invocation options (t ++ u).
Proof.
  intros (b & rq & c & result & a & g & Hb & ? & ? & ? & ? & Hres & ? & ? & Ha & ? & ?). exists b, rq, c, result, a, g.
  split_and!; try done; by apply ran_in_l.
Qed.

Lemma built_after root invocation options t u : built root invocation options u -> built root invocation options (t ++ u).
Proof.
  intros (b & rq & c & result & a & g & Hb & ? & ? & ? & ? & Hres & ? & ? & Ha & ? & ?). exists b, rq, c, result, a, g.
  split_and!; try done; by apply ran_in_r.
Qed.

Lemma discover_must root validations :
  must (discover_offline_build root validations) (ok_post (fun i => offline_invocation i validations)).
Proof.
  unfold discover_offline_build. cbv zeta.
  apply must_bind with (P := fun _ => True); [by apply must_true|]. intros [] _.
  - apply must_bind with (P := fun _ => True); [by apply must_true|]. intros [e|] _; [|exact I]. simpl. split; [done|]. by left.
  - apply must_bind with (P := fun _ => True); [by apply must_true|]. intros groovy _.
    apply must_bind with (P := fun _ => True); [by apply must_true|]. intros gradle _. destruct (negb gradle); [exact I|].
    apply must_bind with (P := fun _ => True); [by apply must_true|]. intros [e|] _; [|exact I]. simpl. split; [done|]. by right.
Qed.

Lemma run_build_runs root invocation validations options cancellation build t :
  runs (run_offline_build root invocation validations options cancellation) (Ok build) t ->
  build_passed build = true -> built root invocation options t.
Proof.
  intros Hr Hp. unfold run_offline_build in Hr. unbind Hr as before t1 Hb. apply runs_map_err in Hb.
  unbind Hr as mode t2 Hm. unbind Hr as environment t3 He. unbind Hr as result t4 Hres. unbind Hr as after t5 Ha.
  apply runs_map_err in Ha. unbind Hr as guard t6 Hg. destruct Hg as [Hg ->]. destruct Hr as [[= <-] ->].
  unfold build_passed, build_result, status_is in Hp. apply andb_prop in Hp as [Hp _]. simpl in Hp.
  destruct (build_success result guard) eqn:Hs; [|by case_bool_decide]. unfold build_success in Hs.
  apply andb_prop in Hs as [Hs Hv]. apply andb_prop in Hs as [Hs Ht]. apply negb_true_iff in Hv, Ht.
  match type of Hres with runs (run_process_with_cancellation ?request ?c) _ _ =>
    exists before, request, c, result, after, guard end.
  split; [ran_by Hb|].
  split; [reflexivity|]. split; [reflexivity|]. split; [reflexivity|]. split; [reflexivity|]. split; [ran_by Hres|].
  split; [done|]. split; [done|]. split; [ran_by Ha|]. done.
Qed.
End Build.

(** ** The steps in the worktree *)

Section Verify.
Context {An : Answers}.
Context `{Blake3, IntentSerde, StoreSerde, TransactionSerde, LeaseSerde, AuditSerde, ApprovalSerde, EngineSerde}.
Context `{WorktreeLeaseSerde, SecondsDisplay, StringDebug, StateJson, GitStateSerde, ContractSerde, JavaSyntax}.
Context (store : ProposalStore) (policy : PolicyEngine) (options : EditRuntimeOptions) (cancellation : string).
Context (proposal_id : string) (record : ProposalRecord) (observed : ObservedRepository).

Abbreviation root_of context := (cx_worktree_root context).
Abbreviation files := (r_files record).

(** A step was permitted in the calls [t]. *)
Definition step_permitted (action : PolicyAction) (active : option DisposableWorktreeContext) (stage_name : string)
    (t : list event) : Prop :=
  exists sequence before during after, t = (before ++ during ++ after)%list
  /\ permitted policy (session_request (session policy options observed) WorktreeEdit action active None stage_name sequence) during.

Lemma step_permitted_l action active stage_name t u :
  step_permitted action active stage_name t -> step_permitted action active stage_name (t ++ u).
Proof. intros (n & b & d & a & -> & Hp). exists n, b, d, (a ++ u)%list. by rewrite <- !app_assoc. Qed.

Lemma step_permitted_r action active stage_name t u :
  step_permitted action active stage_name u -> step_permitted action active stage_name (t ++ u).
Proof. intros (n & b & d & a & -> & Hp). exists n, (t ++ b)%list, d, a. by rewrite <- !app_assoc. Qed.

Lemma authorized_runs action active stage_name s s' t :
  runs (authorized policy options observed action active stage_name s) (s', Ok tt) t ->
  step_permitted action active stage_name t /\ sh_progress s' = sh_progress s.
Proof.
  intros Hr. unfold authorized in Hr. unbind Hr as p t1 Ha. destruct p as [records r]. destruct Hr as [[= <- ->] ->].
  apply authorize_runs in Ha as [Hp _]. split; [|done]. eexists _, [], t1, []. split; [done|exact Hp].
Qed.

(** What each step established: the transaction of the proposal was permitted
    and committed, and then, in [u], every file was read with its proposed
    contents. *)
Definition applied_in (contract transaction_id : string) (context : DisposableWorktreeContext) (t : list event) : Prop :=
  exists existing created mutations apply t1 t2 u, t = (t1 ++ t2 ++ u)%list
    /\ proposal_paths files = (existing, created)
    /\ step_permitted (ApplyPatch {| ap_root := root_of context; ap_paths := existing; ap_created_paths := created;
          ap_diff_hash := content_hash contract; ap_files_hash := proposal_files_hash files;
          ap_transaction_id := transaction_id; ap_base_head := p_base_head (r_plan record) |}) (Some context) "worktree_apply" t1
    /\ ran_in (worktree_mutations (root_of context) files) (Ok mutations) t2
    /\ ran_in (execute_apply_transaction (worktree_request observed (root_of context) contract transaction_id mutations)) (Ok apply) t2
    /\ committed apply = true
    /\ Forall (at_snapshot (An := in_trace u) (root_of context) true) files.

(** The discovered build was permitted and then passed, and then, in [u], the
    files were still the proposed ones. *)
Definition built_in (context : DisposableWorktreeContext) (t : list event) : Prop :=
  exists invocation t1 t2 u, t = (t1 ++ t2 ++ u)%list
    /\ offline_invocation invocation (p_validations (r_plan record))
    /\ step_permitted (RunProcess (policy_action invocation (cx_worktree_project context) options)) (Some context) "offline_build" t1
    /\ built (cx_worktree_project context) invocation options t2
    /\ Forall (at_snapshot (An := in_trace u) (root_of context) true) files.

Lemma apply_step_runs contract transaction_id context s s' t :
  runs (apply_step store policy options proposal_id record observed contract transaction_id context s) (s', Ok tt) t ->
  applied_in contract transaction_id context t.
Proof.
  intros Hr. unfold apply_step in Hr. destruct (proposal_paths files) as [existing created] eqn:Ep.
  unbind Hr as u1 t1 Ha. destruct u1. apply authorized_runs in Ha as [Ha _].
  unbind Hr as mutations t2 Hm. apply runs_stage_io in Hm as [-> Hm]. unbind Hr as apply t3 Hx.
  apply runs_stage_io in Hx as [-> Hx]. unbind Hr as u4 t4 Hup. destruct (committed apply) eqn:Hc; cbn [negb] in Hr; [|by destruct Hr].
  unbind Hr as u5 t5 Hadv. apply runs_stage_io in Hr as [-> Hv].
  pose proof (runs_here _ _ _ _ (verify_snapshots_must _ _ _) Hv) as Hfiles. simpl in Hfiles.
  match type of Hfiles with context [in_trace ?u] =>
    exists existing, created, mutations, apply, t1, (t2 ++ t3 ++ t4 ++ t5)%list, u end.
  split_and!; [by rewrite <- !app_assoc|done|exact Ha|ran_by Hm|ran_by Hx|done|exact Hfiles].
Qed.

Lemma reparse_step_runs context s s' t :
  runs (reparse_step record context s) (s', Ok tt) t ->
  exists reparse, ran_in (reparse_java_files (root_of context) files) reparse t /\ es_status reparse = Passed
  /\ java_parsed (An := in_trace t) (root_of context) files.
Proof.
  intros Hr. unfold reparse_step in Hr. unbind Hr as reparse t1 Hp. apply runs_stage_io in Hp as [-> Hp].
  apply runs_bind in Hp as (rp & t3 & t4 & Hp & [[= ->] ->] & ->). unbind Hr as u t2 Hup. destruct Hr as [[= _ Hok] ->].
  assert (Hpass : es_status reparse = Passed).
  { destruct (status_is Passed reparse) eqn:E; [|done]. by apply bool_decide_eq_true in E. }
  exists reparse. split_and!; [ran_by Hp|done|].
  eapply (runs_in_trace _ (fun r => es_status r = Passed -> _)); [apply reparse_must|exact Hp| |exact Hpass].
  apply incl_appl, incl_appl, incl_refl.
Qed.

Lemma diff_step_runs context s s' t :
  runs (diff_step policy options cancellation record observed context s) (s', Ok tt) t ->
  exists diff, vp_verified_diff (sh_progress s') = Some diff /\ diff_of (An := in_trace t) (root_of context) files diff
  /\ diff_exceeds (p_limits (r_plan record)) (vd_statistics diff) = false
  /\ ran_in (capture_verified_diff (root_of context) files (o_git_timeout options) cancellation) (Ok diff) t.
Proof.
  intros Hr. unfold diff_step in Hr. destruct (proposal_paths files) as [existing created].
  unbind Hr as u1 t1 Ha. unbind Hr as started t2 Hst. unbind Hr as diff t3 Hd. apply runs_stage_io in Hd as [-> Hd].
  unbind Hr as u4 t4 Hl. unbind Hr as now t5 Hnow. destruct Hr as [[= <-] ->]. destruct Hl as [[= -> Hl] ->].
  exists diff. split_and!; [done| | |ran_by Hd].
  - eapply (runs_in_trace _ _ _ _ _ (capture_diff_must _ _ _ _) Hd). apply incl_appr, incl_appr, incl_appl, incl_refl.
  - unfold enforce_actual_diff_limits in Hl. by destruct (diff_exceeds _ _).
Qed.

Lemma build_step_runs context s s' t :
  runs (build_step store policy options cancellation proposal_id record observed context s) (s', Ok tt) t ->
  built_in context t /\ vp_verified_diff (sh_progress s') = vp_verified_diff (sh_progress s).
Proof.
  intros Hr. unfold build_step in Hr. unbind Hr as u1 t1 Hadv. apply runs_stage_io in Hadv as [-> Hadv].
  unbind Hr as invocation t2 Hi. apply runs_stage_io in Hi as [-> Hi].
  pose proof (runs_must _ _ _ _ (discover_must _ _) Hi) as Hoff. simpl in Hoff.
  unbind Hr as u3 t3 Ha. destruct u3. apply authorized_runs in Ha as [Ha Hprog].
  unbind Hr as build t4 Hb. apply runs_stage_io in Hb as [-> Hb]. unbind Hr as u5 t5 Hup. destruct Hup as [[= <-] ->].
  unbind Hr as u6 t6 Hv. apply runs_stage_io in Hv as [-> Hv]. destruct u6.
  pose proof (runs_here _ _ _ _ (verify_snapshots_must _ _ _) Hv) as Hfiles. simpl in Hfiles.
  destruct Hr as [[= <- Hok] ->]. destruct (build_passed build) eqn:Hp; [|done].
  split; [|simpl; by rewrite Hprog].
  exists invocation, (t1 ++ t2 ++ t3)%list, t4, t6. split_and!; [by rewrite <- !app_assoc, app_nil_r|exact Hoff| |by eapply run_build_runs|exact Hfiles].
  by apply step_permitted_r, step_permitted_r.
Qed.

(** The operation of a verification, step by step: the worktree held the base
    of every file; the proposal was applied by a permitted, committed
    transaction, and every file then read with its proposed contents; its Java
    files were read and parsed; Git's diff of exactly these files was captured,
    within the limits of the plan; the permitted offline build passed, and the
    files were still the proposed ones. *)
Definition verified_in (context : DisposableWorktreeContext) (diff : VerifiedDiff) (t : list event) : Prop :=
  exists contract transaction_id t1 t2 t3 t4 t5 reparse,
    t = (t1 ++ t2 ++ t3 ++ t4 ++ t5)%list
    /\ proposal_contract_bytes record = Ok contract
    /\ ran_in (verify_worktree_base_at (root_of context) files) (Ok tt) t1
    /\ applied_in contract transaction_id context t2
    /\ ran_in (reparse_java_files (root_of context) files) reparse t3 /\ es_status reparse = Passed
    /\ java_parsed (An := in_trace t3) (root_of context) files
    /\ diff_of (An := in_trace t4) (root_of context) files diff
    /\ diff_exceeds (p_limits (r_plan record)) (vd_statistics diff) = false
    /\ ran_in (capture_verified_diff (root_of context) files (o_git_timeout options) cancellation) (Ok diff) t4
    /\ built_in context t5.

Lemma operation_runs contract transaction_id context s s' t :
  proposal_contract_bytes record = Ok contract ->
  runs (operation store policy options cancellation proposal_id record observed contract transaction_id context s) (s', Ok tt) t ->
  exists diff, vp_verified_diff (sh_progress s') = Some diff /\ verified_in context diff t.
Proof.
  intros Hcontract Hr. unfold operation in Hr. unbind Hr as u1 t1 Hadv. unbind Hr as u2 t2 Hbase. destruct u2.
  apply runs_stage_io in Hbase as [-> Hbase]. unbind Hr as u3 t3 Hw. unbind Hr as u4 t4 Ha. destruct u4. apply apply_step_runs in Ha.
  unbind Hr as u5 t5 Hrep. destruct u5. apply reparse_step_runs in Hrep as (reparse & Hrep & Hpass & Hjava).
  unbind Hr as u6 t6 Hd. destruct u6. apply diff_step_runs in Hd as (diff & Hvd & Hdiff & Hlim & Hcap).
  apply build_step_runs in Hr as (Hb & Hprog). exists diff. split; [by rewrite Hprog|].
  match type of Hb with built_in _ ?u =>
    exists contract, transaction_id, (t1 ++ t2 ++ t3)%list, t4, t5, t6, u, reparse end.
  split; [by rewrite <- !app_assoc|]. split; [done|]. split; [ran_by Hbase|]. by do 7 (split; [done|]).
Qed.

(** ** The calls of a verification *)

(** What a verification consists of before its outcome: the only states a
    proposal is moved to are those of the preparation, and the expired one. *)
Inductive verification_part : forall A : Type, IO A -> Prop :=
  | part_now : verification_part _ ProposalStore.unix_millis
  | part_clock : verification_part _ (sys InstantNow)
  | part_expiry now : verification_part _ (expire_if_needed store proposal_id now)
  | part_observation : verification_part _ (observe_repository options cancellation)
  | part_id prefix : verification_part _ (new_edit_id prefix)
  | part_move state reason : In state [WorktreePrepared; WorktreeApplied; BuildRunning] ->
      verification_part _ (ProposalStore.transition store proposal_id state reason)
  | part_decision observed action active name records :
      verification_part _ (authorize (session policy options observed) WorktreeEdit action active None name records)
  | part_base root files : verification_part _ (verify_worktree_base_at root files)
  | part_expected root file : verification_part _ (worktree_expected_hash root file)
  | part_mutations root files : verification_part _ (worktree_mutations root files)
  | part_transaction observed root contract id mutations :
      verification_part _ (execute_apply_transaction (worktree_request observed root contract id mutations))
  | part_snapshots root files : verification_part _ (verify_snapshots_at root files true)
  | part_reparse root files : verification_part _ (reparse_java_files root files)
  | part_diff root files timeout : verification_part _ (capture_verified_diff root files timeout cancellation)
  | part_discovery root validations : verification_part _ (discover_offline_build root validations)
  | part_build root invocation validations :
      verification_part _ (run_offline_build root invocation validations options cancellation)
  | part_worktree A m : worktree_part (worktree_options options) cancellation A m -> verification_part A m.

(** What follows its outcome: the decisions of the policy engine and the
    report are recorded. *)
Inductive reporting_part : forall A : Type, IO A -> Prop :=
  | part_policy decisions : reporting_part _ (record_policy store (r_proposal_id record) decisions)
  | part_time : reporting_part _ ProposalStore.unix_millis
  | part_report report diff : reporting_part _ (record_verification store (r_proposal_id record) report diff).

Lemma authorized_consists action active name s :
  consists verification_part (authorized policy options observed action active name s).
Proof. unfold authorized. consist. apply consists_part, part_decision. Qed.

Lemma advance_consists next reason s :
  In next [WorktreePrepared; WorktreeApplied; BuildRunning] ->
  consists verification_part (advance_to store proposal_id next reason s).
Proof. intros Hin. unfold advance_to. consist. by apply consists_part, part_move. Qed.

Lemma update_consists f s : consists verification_part (update_progress f s).
Proof. apply consists_ret. Qed.

Ltac verification_parts :=
  consist; first [apply authorized_consists | apply update_consists | apply advance_consists; simpl; tauto
    | apply consists_part; solve [constructor] ].

Lemma operation_consists contract transaction_id context s :
  consists verification_part (operation store policy options cancellation proposal_id record observed contract transaction_id context s).
Proof.
  unfold operation. consist; try verification_parts.
  - unfold authorize_write, write_action. by consist; verification_parts.
  - unfold apply_step. destruct (proposal_paths files). by consist; verification_parts.
  - unfold reparse_step. by consist; verification_parts.
  - unfold diff_step. destruct (proposal_paths files). by consist; verification_parts.
  - unfold build_step. by consist; verification_parts.
Qed.

Lemma run_verification_consists contract transaction_id project owner s :
  consists verification_part (run_in_disposable_worktree (worktree_options options) cancellation (before_create policy options observed)
    (operation store policy options cancellation proposal_id record observed contract transaction_id)
    (before_cleanup policy options observed) project owner s).
Proof.
  apply run_consists; [intros A m; apply part_worktree|..]; intros; [apply authorized_consists|apply operation_consists|
    apply authorized_consists].
Qed.

(** ** The outcome of a verification *)

(** The run passed, in the calls [t]. *)
Definition passed_in (diff : VerifiedDiff) (t : list event) : Prop :=
  exists source storage lease context before during after, t = (before ++ during ++ after)%list
  /\ prepared (worktree_options options) cancellation (before_create policy options observed) source storage lease context before
  /\ verified_in context diff during
  /\ released storage lease (o_git_timeout options) (o_output_limit_bytes options) after
  /\ source_unchanged (worktree_options options) source after.

(** The end of a verification, with result [r]: the proposal is moved to the
    state of the outcome, which is a success only if the run passed; then the
    report is recorded, with the diff only if it is a success. *)
Definition outcome_of (run : list event) (r : res ProposalRecord) (t : list event) : Prop :=
  exists passed diff reason moved marking reporting, t = (marking ++ reporting)%list
  /\ (passed = true -> exists d, diff = Some d /\ passed_in d run)
  /\ runs (ProposalStore.transition store (r_proposal_id record) (if passed then Verified else VerificationFailed) reason) moved marking
  /\ made_of reporting_part reporting
  /\ (forall r', r = Ok r' -> exists report,
        ran_in (record_verification store (r_proposal_id record) report (if passed then diff else None)) (Ok r') reporting
        /\ r_verification r' = Some report /\ cv_success report = passed
        /\ r_verified_diff r' = (if passed then diff else None)
        /\ (passed = true -> cv_source_unchanged report = true /\ cv_lease_recovery_required report = false /\ cv_errors report = [])).

Lemma verification_success_true progress cleaned unchanged errors :
  verification_success progress cleaned unchanged errors = true -> errors = [] /\ cleaned = true /\ unchanged = true.
Proof.
  unfold verification_success. intros Hs. repeat (apply andb_prop in Hs as [Hs ?]). by destruct errors.
Qed.

(** Nothing but the reports follows. *)
Lemma consists_reports decisions (at_ms : IO (option N)) report diff :
  at_ms = (now <- ProposalStore.unix_millis ;; Ret (Some now)) \/ at_ms = Ret None ->
  consists reporting_part (record_policy store (r_proposal_id record) decisions ;;?
    now <- at_ms ;; record_verification store (r_proposal_id record) (report now) diff).
Proof.
  intros Hat. apply consists_try; [apply consists_part, part_policy|]. intros _.
  apply consists_bind; [|intros now; apply consists_part, part_report].
  destruct Hat as [-> | ->]; consist. apply consists_part, part_time.
Qed.

Lemma finish_verification_runs shared run_id failed cleaned unchanged errors run r t :
  (verification_success (sh_progress shared) cleaned unchanged (errors ++ option_list failed) = true ->
     exists d, vp_verified_diff (sh_progress shared) = Some d /\ passed_in d run) ->
  runs (finish_verification store options record shared run_id failed cleaned unchanged errors) r t -> outcome_of run r t.
Proof.
  intros Hpass Hr. unfold finish_verification in Hr. cbv zeta in Hr.
  match type of Hpass with ?p = true -> _ => exists p, (vp_verified_diff (sh_progress shared)) end.
  apply runs_try_cases in Hr as [(e & -> & Hm)|(moved & t1 & t2 & Hm & Hr & ->)].
  { eexists _, _, t, []. split_and!; [by rewrite app_nil_r|exact Hpass|exact Hm|constructor|done]. }
  eexists _, _, t1, t2. split_and!; [done|exact Hpass|exact Hm| |].
  - eapply consists_reports; [|exact Hr]. destruct (verification_success _ _ _ _); auto.
  - intros r' ->. unbind Hr as u t3 Hp. unbind Hr as at_ms t4 Hat.
    pose proof (runs_must _ _ _ _ (record_verification_report _ _ _ _) Hr) as [Hv Hd]. simpl in Hd.
    eexists. split; [ran_by Hr|]. split; [exact Hv|]. do 2 (split; [done|]).
    by intros (-> & -> & ->)%verification_success_true.
Qed.

Lemma verify_in_worktree_runs r t :
  runs (verify_in_worktree store policy options cancellation proposal_id record observed) r t ->
  (exists e, r = Err e /\ made_of verification_part t)
  \/ exists run conclusion, t = (run ++ conclusion)%list /\ made_of verification_part run /\ outcome_of run r conclusion.
Proof.
  intros Hr. unfold verify_in_worktree in Hr.
  apply runs_try_cases in Hr as [(e & -> & Hm)|(contract & t1 & t2 & [Hc ->] & Hr & ->)].
  { left. exists e. split; [done|]. simpl. eapply made_by; [eassumption|apply consists_ret]. }
  apply runs_try_cases in Hr as [(e & -> & Hm)|(transaction_id & t3 & t4 & Hid & Hr & ->)].
  { left. exists e. split; [done|]. simpl. eapply made_by; [eassumption|apply consists_part, part_id]. }
  apply runs_try_cases in Hr as [(e & -> & Hm)|(owner & t5 & t6 & [Ho ->] & Hr & ->)].
  { left. exists e. split; [done|]. simpl. apply made_app; [eapply made_by; [eassumption|apply consists_part, part_id]|eapply made_by; [eassumption|apply consists_ret]]. }
  unbind Hr as ran t7 Hrun. simpl. right.
  assert (Hmade : made_of verification_part (t3 ++ t7)).
  { apply made_app; [eapply made_by; [eassumption|apply consists_part, part_id]|eapply made_by; [eassumption|apply run_verification_consists]]. }
  destruct ran as [shared [run|e]]; match type of Hr with runs _ _ ?u => exists (t3 ++ t7)%list, u end.
  all: split; [by rewrite <- app_assoc|split; [exact Hmade|]].
  all: eapply finish_verification_runs; [|exact Hr]; intros (Hnil & Hclean & Hsame)%verification_success_true.
  - apply run_in_worktree_runs in Hrun as (source & storage & lease & s0 & s1 & result & before & during & after & -> & Hprep & Hop & _ & Herr & Hend).
    apply app_eq_nil in Hnil as [_ Hnone].
    destruct Hend as [(permitted & Hcl & Hrel) Hsrc]. destruct (Hrel Hclean) as [-> Hreleased].
    destruct result as [[]|e]; [|rewrite Herr in Hnone; discriminate Hnone].
    apply operation_runs in Hop as (diff & Hdiff & Hver); [|done].
    destruct Hcl as (u1 & u2 & u3 & -> & Hcl). apply authorized_runs in Hcl as [_ Hprog].
    exists diff. split; [by rewrite Hprog|].
    exists source, storage, lease, (rn_context run), (t3 ++ before)%list, during, (u1 ++ u2 ++ u3)%list.
    split; [by rewrite <- !app_assoc|]. split; [by apply prepared_after|]. split; [exact Hver|]. split; [exact Hreleased|by apply Hsrc].
  - discriminate Hnil.
Qed.

Lemma validate_preconditions_must :
  must (validate_verification_preconditions record options) (ok_post (fun _ =>
    r_workspace_id record = o_workspace_id options /\ p_profile (r_plan record) = o_profile options
    /\ (r_state record = Validated \/ r_state record = Verified \/ r_state record = VerificationFailed)
    /\ exists now, answers SystemTimeMillis now /\ expired record now = false)).
Proof.
  unfold validate_verification_preconditions.
  destruct (String.eqb_spec (r_workspace_id record) (o_workspace_id options)) as [Hw|]; [|exact I].
  destruct (String.eqb_spec (p_profile (r_plan record)) (o_profile options)) as [Hp|]; [|exact I]. cbn [negb orb].
  destruct (r_state record) eqn:Hs; try exact I; intros now Hnow; cbn [bind must];
    destruct (expired record now) eqn:Hx; try exact I; simpl; eauto 10.
Qed.

Lemma preconditions_consist : consists verification_part (validate_verification_preconditions record options).
Proof.
  unfold validate_verification_preconditions. consist. destruct (r_state record); consist; apply consists_part, part_now.
Qed.
End Verify.

Section Proposal.
Context {An : Answers}.
Context `{Blake3, IntentSerde, StoreSerde, TransactionSerde, LeaseSerde, AuditSerde, ApprovalSerde, EngineSerde}.
Context `{WorktreeLeaseSerde, SecondsDisplay, StringDebug, StateJson, GitStateSerde, ContractSerde, JavaSyntax}.
Context (store : ProposalStore) (proposal_id : string) (policy : PolicyEngine) (options : EditRuntimeOptions) (cancellation : string).

(** The proposal was in a state that allows its verification, unexpired, and
    the workspace was observed as the plan was validated against. *)
Definition admitted (record : ProposalRecord) (observed : ObservedRepository) (t : list event) : Prop :=
  valid_record proposal_id (s_workspace_hash store) record
  /\ r_workspace_id record = o_workspace_id options /\ p_profile (r_plan record) = o_profile options
  /\ (r_state record = Validated \/ r_state record = Verified \/ r_state record = VerificationFailed)
  /\ (exists now, ran_in (expire_if_needed store proposal_id now) (Ok record) t)
  /\ (exists now, In (Ev SystemTimeMillis now) t /\ expired record now = false)
  /\ ran_in (observe_repository options cancellation) (Ok observed) t
  /\ or_clean observed = true
  /\ grb_head (or_boundary observed) = p_base_head (r_plan record)
  /\ or_working_tree_digest observed = p_working_tree_digest (r_plan record)
  /\ or_root_hash observed = r_workspace_root_hash record.

(** C6: A verification that returns, whether a record or an error, has either
    ended before its outcome, having moved the proposal to no state but those
    of the preparation of a worktree, or the expired one; or it reached its
    outcome.  Then, first, the proposal was loaded, in a state that allows a
    verification and unexpired, and the workspace observed clean, at the HEAD
    and with the digest the plan was validated against.  Until then, the
    proposal was moved to no other state than those.  Then it was moved: to
    the verified state only if all of the following had taken place before:
    a fresh worktree at the source's HEAD held the base of every file; the
    application was permitted, its transaction committed, and every file then
    read with its proposed contents; the Java files were read and parsed; the
    Git diff was captured, of exactly these files and within the limits of the
    plan; an offline build, permitted, exited successfully with its output
    whole and without changing a tracked file, and the files were read again
    with their proposed contents; then the worktree was removed and its lease
    released; and the source was observed unchanged.  Otherwise it was moved
    to the failed state.  Only records of decisions and of the report follow:
    no other state.  A returned record has the report, a success exactly in
    the first case; its diff is the captured one, or none after a failure. *)
Theorem verification_outcomes :
  trace_must (verify_edit_proposal store proposal_id policy options cancellation) (fun r t =>
    (exists e, r = Err e) /\ made_of (verification_part store policy options cancellation proposal_id) t
    \/ exists record observed admission run conclusion, t = (admission ++ run ++ conclusion)%list
       /\ admitted record observed admission
       /\ made_of (verification_part store policy options cancellation proposal_id) (admission ++ run)
       /\ outcome_of store policy options cancellation record observed run r conclusion).
Proof.
  apply runs_trace_must. intros r t Hr. unfold verify_edit_proposal in Hr.
  unbind Hr as now t1 Hnow. pose proof (made_by _ _ _ _ Hnow (consists_part _ _ (part_now store policy options cancellation proposal_id))) as M1.
  apply runs_try_cases in Hr as [(e & -> & Hx)|(record & t2 & t2' & Hx & Hr & ->)].
  all: pose proof (made_by _ _ _ _ Hx (consists_part _ _ (part_expiry store policy options cancellation proposal_id _))) as M2.
  { left. split; [by exists e|]. by apply made_app. }
  apply runs_try_cases in Hr as [(e & -> & Hpre)|([] & t3 & t3' & Hpre & Hr & ->)].
  all: pose proof (made_by _ _ _ _ Hpre (preconditions_consist store policy options cancellation proposal_id record)) as M3.
  { left. split; [by exists e|]. by repeat apply made_app. }
  apply runs_try_cases in Hr as [(e & -> & Hobs)|(observed & t4 & t4' & Hobs & Hr & ->)].
  all: pose proof (made_by _ _ _ _ Hobs (consists_part _ _ (part_observation store policy options cancellation proposal_id))) as M4.
  { left. split; [by exists e|]. by repeat apply made_app. }
  destruct (drifted record observed) eqn:Hd.
  { destruct Hr as [<- ->]. left. split; [by eexists|]. repeat apply made_app; try done. constructor. }
  apply verify_in_worktree_runs in Hr as [(e & -> & Hm)|(run & conclusion & -> & Hm & Hout)].
  { left. split; [by exists e|]. by repeat apply made_app. }
  right. exists record, observed, (t1 ++ t2 ++ t3 ++ t4)%list, run, conclusion.
  split; [by rewrite <- !app_assoc|]. split; [|split; [by repeat apply made_app|exact Hout]].
  pose proof (runs_must _ _ _ _ (expire_valid _ _ _) Hx) as Hvalid. simpl in Hvalid.
  pose proof (runs_here _ _ _ _ (validate_preconditions_must _ _) Hpre) as (Hw & Hp & Hs & now' & Hnow' & Hexp).
  apply drifted_false in Hd as (Hc & Hh & Hg & Hroot).
  split_and!; try done; [exists now; ran_by Hx|exists now'; split; [|done]|ran_by Hobs].
  apply in_or_app; right; apply in_or_app; right; apply in_or_app; by left.
Qed.
End Proposal.
